(* ===== verification/_CoqProject ===== *)
-Q . S2P
Prelude.v
GoStrings.v
GoNumbers.v
GoTime.v
Values.v
Paths.v
Job.v
Heap.v
PriorityQueue.v
Scheduler.v
Gpu.v
IPNet.v
KeyStore.v
NetworkStore.v
VolumeStore.v
VolumeStorage.v
LogBuffer.v
JobStore.v
PubSub.v
Stream.v
Lifecycle.v
Execution.v
Semver.v
Auth.v
Environment.v
Config.v
PersistConfig.v
Runtime.v
Admission.v
Ipc.v
Forward.v
Pipeline.v
ConnPool.v
StateBackend.v
Dynamo.v
StateService.v
PersistStore.v
PersistQuery.v
Telemetry.v
Telematics.v
Wire.v
Errors.v
JobService.v
JobStream.v
Metrics.v
HostMonitor.v
Cgroup.v
Process.v
Isolator.v
JobInit.v
S3Store.v
CloudWatch.v
NetSetup.v
