(* ===== verification/Prelude.v ===== *)
(** * A verification development for Joblet

    Joblet runs commands as isolated jobs on a Linux host.  A server (internal/joblet)
    admits requests over gRPC, schedules jobs, gives them GPUs, network addresses,
    volumes and an environment, starts an init process per job and streams its output;
    it keeps its jobs in memory and sends every change to the state service (state/) and
    all output to the persist service (persist/), two processes on the same host.

    ** How a job runs through the program, and where each part is modelled

    A request is authorized (Auth.v) and turned into a job (Admission.v, over the job
    record of Job.v and the value objects of Values.v and Paths.v); a job for later waits
    in the scheduler (Scheduler.v, over PriorityQueue.v and the array heap of Heap.v).
    Starting it (Lifecycle.v) asks the coordinator (Execution.v) for GPUs (Gpu.v), a
    network address (NetworkStore.v, over IPNet.v), interfaces and firewall rules
    (NetSetup.v), volumes (VolumeStore.v, their storage in VolumeStorage.v) and an
    environment (Environment.v, with the runtimes of Runtime.v and the versions of
    Semver.v).  The job is kept in the job store (JobStore.v, over the backends of
    KeyStore.v), its output in a buffer (LogBuffer.v); events go through the
    publish-subscribe system (PubSub.v) to clients that follow the output (Stream.v) and
    to the forwarder (Forward.v), which hands them to the writer of the persist channel
    (Ipc.v).  In the persist service they are batched (Pipeline.v), stored
    (PersistStore.v on the local disk, S3Store.v in an object store, CloudWatch.v in log
    streams) and queried (PersistQuery.v).  Changes of jobs go through pooled connections
    (ConnPool.v) to the state service (StateService.v) and its stores (StateBackend.v,
    and Dynamo.v in a table of DynamoDB).

    The binary finds out whether it is the server or the init process of a job and reads its
    configuration (Config.v); the persist service reads its own (PersistConfig.v).  The
    host is sampled for its status (HostMonitor.v).

    On the host a job gets a control group (Cgroup.v) and a process (Process.v).  Its init
    process (JobInit.v) waits for the network, puts itself into the control group,
    builds and enters a root directory of its own (Isolator.v), writes the uploads or gives up its
    privileges and becomes the command.  While it runs its control
    group is sampled (Metrics.v), a kernel program records events of its processes, which are
    decoded (Telematics.v), and they are collected for the job (Telemetry.v);
    both are written to persist and read back (Wire.v).  The requests other than RunJob,
    and the streams of logs, metrics and events with their history, are JobService.v and
    JobStream.v, over the errors of Errors.v.

    ** Files and code (paths under src/; internal/joblet is left out where it is clear)

    - GoStrings.v: strings, strconv and the byte conventions.  Values.v, Paths.v, Job.v:
      domain/values, domain/job.go and its neighbours; a value object is a record of its
      private fields, an error a constructor.
    - Heap.v, PriorityQueue.v, Scheduler.v: container/heap as scheduler/priority_queue.go
      runs it, and scheduler/scheduler.go as steps of the loop, the callers and the clock.
    - Gpu.v: gpu/manager.go, allocation_strategy.go, types.go.
    - IPNet.v, NetworkStore.v: the net package, adapters/network_store_adapter.go and
      core/execution/network_service.go.  KeyStore.v: adapters/in_memory_stores.go, as
      instances of the class the adapters are proved against.  NetSetup.v:
      network/setup.go.  VolumeStore.v, VolumeStorage.v: adapters/volume_store_adapter.go,
      core/volume/manager.go and domain/volume.go.
    - LogBuffer.v, JobStore.v, PubSub.v, Stream.v: adapters/log_buffer.go,
      adapters/job_store_adapter.go (its streaming part in Stream.v), pubsub/pubsub.go.
    - Lifecycle.v, Execution.v, Environment.v: core/joblet.go, core/cleanup, core/execution,
      core/environment, internal/modes/jobexec.
    - Config.v: pkg/config/config.go and cmd/joblet/main.go.  PersistConfig.v:
      persist/internal/config/config.go.
    - Auth.v, Admission.v: auth/grpc_authorization.go, server/job_service.go,
      core/job/builder.go.  Runtime.v, Semver.v: runtime/resolver.go, pkg/semver.
    - Ipc.v, Forward.v, Pipeline.v: ipc/writer.go, ipc/subscriber.go and
      persist/internal/ipc/server.go.  PersistStore.v, PersistQuery.v:
      persist/internal/storage/local.go and persist/internal/server/grpc.go.  S3Store.v,
      CloudWatch.v: s3.go and cloudwatch.go of persist/internal/storage.
    - ConnPool.v, StateService.v, StateBackend.v: state/pool.go, state/client_pooled.go,
      state/internal/ipc/server.go (at the top of the repository), and
      state/internal/storage/memory.go and local.go.  Dynamo.v: dynamodb.go there, with
      the texts of times in GoTime.v.
    - Cgroup.v: core/resource/cgroup.go and core/resource_manager.go.  Process.v:
      core/process/manager.go.  Isolator.v: core/filesystem/isolator.go and
      internal/modes/isolation.  JobInit.v: the init part of internal/modes/server.go, and
      internal/modes/jobexec.  These four issue recorded calls to the kernel; what it
      answers is an argument.
    - Telematics.v: ebpf/telematics/monitor.go, and the records of its
      bpf/telematics.c as bytes.
    - Telemetry.v: telemetry/collector.go and event.go.  Metrics.v: metrics/collector.go
      and adapters/metrics_store_adapter.go.  Wire.v: the conversions of ipc/persister.go,
      persist/internal/server/grpc.go and server/job_service.go.  GoNumbers.v: doubles,
      strconv and strings.Fields.  HostMonitor.v: monitoring/metrics_collector.go and
      monitoring/collectors.
    - Errors.v, JobService.v, JobStream.v: pkg/errors, server/error_mapping.go,
      server/job_service.go, server/stream_helper.go and mappers/job_mapper.go.
    - Prelude.v (this file): notation, automation, results, machine integers, sorting.

    The state of a component is a Record with the fields of the code's struct; an
    operation is a Definition from the arguments and the state to a [result] and the new
    state; a comment in square brackets before a definition names the lines it
    translates.  Mutable objects that are shared are addresses into a heap (Heap.v is the
    other kind of heap; see JobStore.v and LogBuffer.v); elsewhere the code copies, and
    values are enough.  Where goroutines interleave, a component is a step function on
    a state and labels, and its theorems are about every reachable state: Scheduler.v,
    PubSub.v, Stream.v, Ipc.v, Pipeline.v, ConnPool.v, StateService.v, PersistQuery.v,
    Telemetry.v, Metrics.v, the service of HostMonitor.v, and the launch in Process.v.

    ** What the theorems show

    - Conservation: no scheduled job is lost or run twice (Scheduler.v), no line of a
      followed job (Stream.v), no message of the persist channel and pipeline that is not
      accounted for (Ipc.v, Pipeline.v), no line accepted by a store (PersistStore.v,
      S3Store.v) and no acknowledged event (CloudWatch.v), no answer of a query (PersistQuery.v), no acknowledged creation (StateService.v); a
      telemetry stream gets the recent events and then each new one once, but for those that come while its queue
      of 100 is full (Telemetry.v).  The conditions are in the statements: lines
      that are short and decodable, disks and uploads that do not fail, events whose texts
      need no escapes; what happens otherwise is in the examples beside them.
    - Exclusion: a GPU, an address, a connection belongs to one owner at a time (Gpu.v,
      NetworkStore.v, ConnPool.v), a job is sampled by one collector (Metrics.v), the
      bridges of two networks are kept apart (NetSetup.v), every mount and loop device of
      the volumes belongs to a registered one (VolumeStorage.v), and failures give back
      what was taken (Execution.v, NetworkStore.v, VolumeStore.v).
      The calls of the network store and of the job store are taken one after the other: how
      they overlap is an example ([removal_overlaps_setup]).
    - Refinement: the priority queue is a bag of jobs, the job store a book of jobs and
      logs, the state service a map of jobs to which requests are applied one after the other.
    - Safety of what a client may ask: who may do what (Auth.v), jobs that are admitted
      are valid and never run as root, down to the calls that give up the groups and the
      user (Admission.v, JobInit.v), control variables cannot be overridden
      (Environment.v), paths stay in their base (Paths.v), also those of uploads (JobInit.v).
    - Liveness and termination: a due job is executed, wake-ups are not lost
      (Scheduler.v), publishing and queries end (PubSub.v, PersistQuery.v).
    - Configuration: what a server runs with comes from its file and is valid, and the init
      process of a job gets the settings of the server through its environment (Config.v).
    - Isolation: the root of a job is built inside itself, then entered, and only then are
      devices made (Isolator.v), and the command is executed last (JobInit.v); which limits the kernel really holds a job to, and what a
      failed set-up leaves behind (Cgroup.v); in which order signals end a process
      (Process.v).
    - Answers: what history and live view of the same event have in common (Wire.v), which
      code an error gets however it is wrapped (Errors.v), what stopping a job and asking
      for its events can answer (JobService.v, JobStream.v).
    - Round trips: core sets, frames, log lines, jobs across a crash (StateBackend.v) and
      through a table (Dynamo.v), volumes across a restart (VolumeStorage.v), kernel events
      through the messages of a log stream (CloudWatch.v) and from the bytes of the kernel program to the
      collector (Telematics.v), the GPUs of a job through its
      environment (Isolator.v), io.stat (Metrics.v),
      /proc/stat (HostMonitor.v), times (GoTime.v).
    - Theorems and examples that exhibit a run show where the program does not do what it
      means to do, such as [waiter_starves], [stop_loses_and_panics] or
      [update_overtakes_create].

    ** Bounds and fuel

    Integers are [Z]; where width matters they are wrapped ([wrap], [in_int]).  The few
    loops without a structural argument take fuel: the heap's sifts (the length of the
    array, shown to suffice), the address pool (the size of the network), the expansion of
    a core range, which really does not end at the largest integer (Values.v), and the
    digits of a number.  Everywhere [None] means the program panics, blocks or does not
    finish, as the definition says, and a theorem shows when it cannot happen.  The pages of
    a query to CloudWatch take fuel too: the number of pages the service still has is
    enough, which its laws bound.

    ** What is outside the model

    Files, processes, cgroups, namespaces, sockets, nvidia-smi, AWS and the clock are
    arguments of the operations: what they answer is quantified over.  Texts of JSON,
    YAML and protobuf are behind classes with the laws the libraries document ([Codec],
    [LawfulJSON], [LineJSON], [FlatJSON], [MetaJSON]); ranges over Go maps and the result of
    [sort.Slice] are arguments or classes ([SortSlice], [JobRange]); doubles are binary64
    with the operations of Rocq's SpecFloat.  The object store, the table, the log service
    and the commands that set up networks and volumes are classes of operations with their
    documentation as laws; each has an instance, on which the theorems are tried.

    Not modelled: loading the eBPF programs and the goroutines that read their rings, and the detection
    of the cloud, which asks its metadata services; the builder of runtimes, which copies
    files and runs package managers; the volume, network, runtime and monitoring services of
    the gRPC server, which convert messages and call the components above; the command line
    client (rnx), which prints answers; logging and the wiring of the components when the
    server starts; and the platform layer, whose functions are one system call each. *)

From stdpp Require Export base option list gmap strings sets sorting.
From Stdlib Require Export ZArith Lia.

(** ** Notation and automation *)

Declare Scope go_scope.
Delimit Scope go_scope with go.

Create HintDb joblet.

(** Case analysis on the test of an [if] or a [match] in the goal or in a
    hypothesis, with the equations kept. *)
Ltac case_test :=
  match goal with
  | |- context [if ?b then _ else _] => destruct b eqn:?
  | H : context [if ?b then _ else _] |- _ => destruct b eqn:?
  end.

(** Turn the boolean tests of the code into propositions. *)
Ltac to_prop :=
  repeat match goal with
  | H : _ && _ = true |- _ => apply andb_true_iff in H as [??]
  | H : _ || _ = false |- _ => apply orb_false_iff in H as [??]
  | H : negb _ = true |- _ => apply negb_true_iff in H
  | H : negb _ = false |- _ => apply negb_false_iff in H
  | H : (_ =? _)%Z = true |- _ => apply Z.eqb_eq in H
  | H : (_ =? _)%Z = false |- _ => apply Z.eqb_neq in H
  | H : (_ <? _)%Z = true |- _ => apply Z.ltb_lt in H
  | H : (_ <? _)%Z = false |- _ => apply Z.ltb_ge in H
  | H : (_ <=? _)%Z = true |- _ => apply Z.leb_le in H
  | H : (_ <=? _)%Z = false |- _ => apply Z.leb_gt in H
  | H : bool_decide _ = true |- _ => apply bool_decide_eq_true in H
  | H : bool_decide _ = false |- _ => apply bool_decide_eq_false in H
  end.

(** Invert an equation between results of a modelled operation. *)
Ltac inv_res := simplify_eq/=; to_prop; try done.

(** ** Results of fallible operations

    A Go function returning [(T, error)] is a function to [result E T]: the
    zero value that accompanies a non-nil error is never read by the code
    modelled here. *)

Inductive result (E A : Type) : Type :=
| Ok (a : A)
| Err (e : E).
Arguments Ok {E A} a.
Arguments Err {E A} e.

#[export] Instance result_ret {E} : MRet (result E) := fun A a => Ok a.
#[export] Instance result_bind {E} : MBind (result E) := fun A B f m =>
  match m with Ok a => f a | Err e => Err e end.

Definition is_ok {E A} (r : result E A) : bool :=
  match r with Ok _ => true | Err _ => false end.

(** The sequencing [if err != nil { return err }]. *)
Lemma bind_ok {E A B} (m : result E A) (f : A → result E B) b :
  m ≫= f = Ok b ↔ ∃ a, m = Ok a ∧ f a = Ok b.
Proof. destruct m; simpl; naive_solver. Qed.

Lemma bind_err {E A B} (m : result E A) (f : A → result E B) e :
  m ≫= f = Err e ↔ m = Err e ∨ ∃ a, m = Ok a ∧ f a = Err e.
Proof. destruct m; simpl; naive_solver. Qed.

(** ** Machine integers

    An [intN] is a [Z] in range; arithmetic wraps in two's complement. *)

Definition min_int (w : Z) : Z := (- 2 ^ (w - 1))%Z.
Definition max_int (w : Z) : Z := (2 ^ (w - 1) - 1)%Z.
Definition in_int (w z : Z) : Prop := (min_int w ≤ z ≤ max_int w)%Z.
Definition wrap (w z : Z) : Z := ((z + 2 ^ (w - 1)) mod 2 ^ w - 2 ^ (w - 1))%Z.

#[export] Instance in_int_dec w z : Decision (in_int w z).
Proof. unfold in_int. apply _. Defined.

Abbreviation in_int32 := (in_int 32).
Abbreviation in_int64 := (in_int 64).
Abbreviation wrap32 := (wrap 32).
Abbreviation wrap64 := (wrap 64).

Lemma wrap_id w z : (0 < w)%Z → in_int w z → wrap w z = z.
Proof.
  unfold in_int, min_int, max_int, wrap. intros Hw [H1 H2].
  assert (2 ^ w = 2 * 2 ^ (w - 1))%Z as E.
  { rewrite <- Z.pow_succ_r by lia. f_equal. lia. }
  rewrite Z.mod_small; lia.
Qed.

Lemma wrap_in_int w z : (0 < w)%Z → in_int w (wrap w z).
Proof.
  unfold in_int, min_int, max_int, wrap. intros Hw.
  assert (2 ^ w = 2 * 2 ^ (w - 1))%Z as E.
  { rewrite <- Z.pow_succ_r by lia. f_equal. lia. }
  assert (0 < 2 ^ (w - 1))%Z by (apply Z.pow_pos_nonneg; lia).
  pose proof (Z.mod_pos_bound (z + 2 ^ (w - 1)) (2 ^ w)). lia.
Qed.

(** ** Sorting

    [sort.Slice] promises a permutation of its input, ordered by [less] when
    [less] is a strict weak order; the order of elements [less] does not
    separate is unspecified.  Clients are proved against this interface. *)

Class StrictWeak {A} (less : A → A → bool) : Prop := {
  sw_irrefl : ∀ x, less x x = false;
  sw_trans : ∀ x y z, less x y = true → less y z = true → less x z = true;
  sw_incomp : ∀ x y z, less x y = false → less y z = false → less x z = false;
}.

Definition not_after {A} (less : A → A → bool) (x y : A) : Prop := less y x = false.

Class SortSlice := {
  sort_slice : ∀ {A : Type}, (A → A → bool) → list A → list A;
  sort_slice_perm : ∀ {A} (less : A → A → bool) l, sort_slice less l ≡ₚ l;
  sort_slice_sorted : ∀ {A} (less : A → A → bool) l,
    StrictWeak less → StronglySorted (not_after less) (sort_slice less l);
}.

(** Insertion sort, which is what the library runs on short slices, is one
    implementation. *)
Fixpoint insert_sorted {A} (less : A → A → bool) (x : A) (l : list A) : list A :=
  match l with
  | [] => [x]
  | y :: l' => if less x y then x :: y :: l' else y :: insert_sorted less x l'
  end.

Definition insertion_sort {A} (less : A → A → bool) (l : list A) : list A :=
  foldl (fun acc x => insert_sorted less x acc) [] l.

Lemma insert_sorted_perm {A} (less : A → A → bool) x l :
  insert_sorted less x l ≡ₚ x :: l.
Proof.
  induction l as [|y l IH]; simpl; [done|].
  case_match; [done|]. rewrite IH. apply Permutation_swap.
Qed.

Lemma insertion_sort_perm {A} (less : A → A → bool) l : insertion_sort less l ≡ₚ l.
Proof.
  unfold insertion_sort.
  enough (∀ acc, foldl (fun acc x => insert_sorted less x acc) acc l ≡ₚ acc ++ l) as H
    by apply H.
  induction l as [|x l IH]; intros acc; simpl; [by rewrite app_nil_r|].
  rewrite IH, insert_sorted_perm. by rewrite <- Permutation_middle.
Qed.

Lemma insert_sorted_sorted {A} (less : A → A → bool) `{!StrictWeak less} x l :
  StronglySorted (not_after less) l → StronglySorted (not_after less) (insert_sorted less x l).
Proof.
  induction 1 as [|y l Hl IH Hy]; simpl; [repeat constructor|].
  assert (Hinto : ∀ z, less x z = false → Forall (not_after less z) l →
    Forall (not_after less z) (insert_sorted less x l)).
  { intros z Hz Hf. rewrite insert_sorted_perm. by constructor. }
  destruct (less x y) eqn:E.
  - assert (less y x = false) as E'.
    { destruct (less y x) eqn:E2; [|done].
      pose proof (sw_trans _ _ _ E E2) as E3. by rewrite sw_irrefl in E3. }
    constructor; [by constructor|]. constructor; [done|].
    eapply Forall_impl; [exact Hy|]. intros z Hz. unfold not_after in *.
    by apply (sw_incomp _ y).
  - constructor; [done|]. by apply Hinto.
Qed.

Lemma insertion_sort_sorted {A} (less : A → A → bool) l :
  StrictWeak less → StronglySorted (not_after less) (insertion_sort less l).
Proof.
  intros Hw. unfold insertion_sort.
  enough (∀ acc, StronglySorted (not_after less) acc →
    StronglySorted (not_after less)
      (foldl (fun acc x => insert_sorted less x acc) acc l)) as H
    by (apply H; constructor).
  induction l as [|x l IH]; intros acc Hacc; simpl; [done|].
  by apply IH, insert_sorted_sorted.
Qed.

Definition insertion_SortSlice : SortSlice := {|
  sort_slice := @insertion_sort;
  sort_slice_perm := @insertion_sort_perm;
  sort_slice_sorted := @insertion_sort_sorted;
|}.

(** A sort by a key on which the elements are pairwise different has only one
    result, whatever the algorithm and whatever the order of its input. *)
Lemma sorted_perm_unique {A} (R : A → A → Prop) (l1 l2 : list A) :
  (∀ x y, x ∈ l1 → y ∈ l1 → R x y → R y x → x = y) →
  StronglySorted R l1 → StronglySorted R l2 → l1 ≡ₚ l2 → l1 = l2.
Proof.
  intros Hanti Hs1. revert l2 Hanti.
  induction Hs1 as [|x l1 Hs1 IH Hx]; intros l2 Hanti Hs2 Hp.
  { by apply Permutation_nil_l in Hp. }
  destruct Hs2 as [|y l2 Hs2 Hy].
  { symmetry in Hp. by apply Permutation_nil_cons in Hp. }
  assert (x = y) as <-.
  { assert (x ∈ y :: l2) as Hx2 by (rewrite <- Hp; left).
    assert (y ∈ x :: l1) as Hy1 by (rewrite Hp; left).
    apply elem_of_cons in Hx2 as [->|Hx2]; [done|].
    pose proof Hy1 as Hy1'. apply elem_of_cons in Hy1 as [->|Hy1]; [done|].
    rewrite Forall_forall in Hx, Hy.
    apply Hanti; [left|done|by apply Hx|by apply Hy]. }
  f_equal. apply IH; [|done|by apply Permutation_cons_inv in Hp].
  intros a b Ha Hb. apply Hanti; by right.
Qed.

(** ** Lists *)

Lemma NoDup_fmap_perm {A B} (f : A → B) l1 l2 :
  l1 ≡ₚ l2 → NoDup (f <$> l1) → NoDup (f <$> l2).
Proof. intros ->. done. Qed.

Lemma elem_of_take_l {A} (n : nat) (l : list A) x : x ∈ take n l → x ∈ l.
Proof. intros H. rewrite <- (take_drop n l). set_solver. Qed.

Lemma elem_of_rev {A} (l : list A) x : x ∈ rev l ↔ x ∈ l.
Proof. by rewrite !list_elem_of_In, <- in_rev. Qed.
