(* ===== verification/GoStrings.v ===== *)
(** * Go strings: the functions of [strings], [strconv] and [path/filepath] the
    program uses, on byte strings

    A Go string is a Rocq [string], one [ascii] per byte.  [range] over a
    string decodes runes; every loop modelled compares the rune with ASCII
    ranges only, for which decoding bytes is the same test (a byte of a
    multi-byte or invalid sequence is at least 0x80). *)

From S2P Require Import Prelude.
From Stdlib Require Import Ascii String.

Local Open Scope Z_scope.

(** ** Bytes *)

Abbreviation bytes := list_ascii_of_string.
Abbreviation of_bytes := string_of_list_ascii.

Definition byte_val (c : ascii) : Z := Z.of_N (N_of_ascii c).
Definition byte_of (z : Z) : ascii := ascii_of_N (Z.to_N z).

#[export] Instance ascii_eq_dec : EqDecision ascii := ascii_dec.

Lemma byte_val_of z : 0 ≤ z < 256 → byte_val (byte_of z) = z.
Proof. intros. unfold byte_val, byte_of. rewrite N_ascii_embedding; lia. Qed.

Lemma byte_val_inj c d : byte_val c = byte_val d → c = d.
Proof.
  unfold byte_val. intros H%N2Z.inj.
  by rewrite <- (ascii_N_embedding c), <- (ascii_N_embedding d), H.
Qed.

Definition len (s : string) : Z := Z.of_nat (String.length s).

Definition in_range (lo hi : ascii) (c : ascii) : bool :=
  (byte_val lo <=? byte_val c) && (byte_val c <=? byte_val hi).
Definition is_lower := in_range "a" "z".
Definition is_upper := in_range "A" "Z".
Definition is_digit := in_range "0" "9".
Definition is_alnum (c : ascii) : bool := is_lower c || is_upper c || is_digit c.

(** ** [strings] *)

(** The UTF-8 encodings of the runes [unicode.IsSpace] accepts. *)
Definition space_encodings : list (list Z) :=
  [[0x09]; [0x0A]; [0x0B]; [0x0C]; [0x0D]; [0x20]; [0xC2; 0x85]; [0xC2; 0xA0];
   [0xE1; 0x9A; 0x80];
   [0xE2; 0x80; 0x80]; [0xE2; 0x80; 0x81]; [0xE2; 0x80; 0x82]; [0xE2; 0x80; 0x83];
   [0xE2; 0x80; 0x84]; [0xE2; 0x80; 0x85]; [0xE2; 0x80; 0x86]; [0xE2; 0x80; 0x87];
   [0xE2; 0x80; 0x88]; [0xE2; 0x80; 0x89]; [0xE2; 0x80; 0x8A];
   [0xE2; 0x80; 0xA8]; [0xE2; 0x80; 0xA9]; [0xE2; 0x80; 0xAF];
   [0xE2; 0x81; 0x9F]; [0xE3; 0x80; 0x80]].

Fixpoint strip_prefix (p : list Z) (l : list ascii) : option (list ascii) :=
  match p, l with
  | [], _ => Some l
  | z :: p, c :: l => if byte_val c =? z then strip_prefix p l else None
  | _ :: _, [] => None
  end.

(** Drops leading encodings of [encs]; every one is non-empty, so the length of
    the input is fuel enough. *)
Fixpoint trim_left (fuel : nat) (encs : list (list Z)) (l : list ascii) : list ascii :=
  match fuel with
  | O => l
  | S fuel =>
      match head (omap (λ p, strip_prefix p l) encs) with
      | Some l' => trim_left fuel encs l'
      | None => l
      end
  end.

Definition TrimSpace (s : string) : string :=
  let l := bytes s in
  let l1 := trim_left (List.length l) space_encodings l in
  let r1 := trim_left (List.length l1) ((@rev Z) <$> space_encodings) (rev l1) in
  of_bytes (rev r1).

Definition HasPrefix (s p : string) : bool := String.prefix p s.

Definition contains_byte (s : string) (c : ascii) : bool :=
  existsb (λ d, bool_decide (d = c)) (bytes s).

(** [strings.Split] with a one-byte separator: never empty. *)
Fixpoint split_bytes (sep : ascii) (l : list ascii) : list (list ascii) :=
  match l with
  | [] => [[]]
  | c :: l =>
      if decide (c = sep) then [] :: split_bytes sep l
      else match split_bytes sep l with
           | [] => [[c]]
           | w :: ws => (c :: w) :: ws
           end
  end.

Definition Split (s : string) (sep : ascii) : list string :=
  of_bytes <$> split_bytes sep (bytes s).

Fixpoint join_bytes (sep : ascii) (ws : list (list ascii)) : list ascii :=
  match ws with
  | [] => []
  | [w] => w
  | w :: ws => w ++ sep :: join_bytes sep ws
  end.

Definition Join (ws : list string) (sep : ascii) : string :=
  of_bytes (join_bytes sep (bytes <$> ws)).

Definition TrimPrefix (s p : string) : string :=
  if HasPrefix s p then of_bytes (drop (String.length p) (bytes s)) else s.

(** [strings.SplitN(s, sep, 2)]: the parts around the first separator. *)
Fixpoint cut_bytes (sep : ascii) (l : list ascii) : option (list ascii * list ascii) :=
  match l with
  | [] => None
  | c :: l =>
      if decide (c = sep) then Some ([], l)
      else match cut_bytes sep l with Some (a, b) => Some (c :: a, b) | None => None end
  end.

Definition Cut (s : string) (sep : ascii) : option (string * string) :=
  match cut_bytes sep (bytes s) with Some (a, b) => Some (of_bytes a, of_bytes b) | None => None end.

(** [strings.Contains]. *)
Fixpoint infix_bytes (p l : list ascii) : bool :=
  bool_decide (p `prefix_of` l) || match l with [] => false | _ :: l => infix_bytes p l end.

Definition Contains (s sub : string) : bool := infix_bytes (bytes sub) (bytes s).

(** [strings.ToLower], up to the runes outside ASCII whose lower case is outside
    ASCII too, which are kept: the results are compared with ASCII words only.
    The two others are U+0130 and U+212A, the dotted capital I and the Kelvin
    sign. *)
Definition lower_byte (c : ascii) : ascii := if is_upper c then byte_of (byte_val c + 32) else c.

Fixpoint lower_bytes (l : list ascii) : list ascii :=
  match l with
  | [] => []
  | c :: l1 =>
      match l1 with
      | d :: l2 =>
          if (byte_val c =? 0xC4) && (byte_val d =? 0xB0) then "i"%char :: lower_bytes l2
          else match l2 with
               | e :: l3 =>
                   if (byte_val c =? 0xE2) && (byte_val d =? 0x84) && (byte_val e =? 0xAA)
                   then "k"%char :: lower_bytes l3
                   else lower_byte c :: lower_bytes l1
               | [] => lower_byte c :: lower_bytes l1
               end
      | [] => [lower_byte c]
      end
  end.

Definition ToLower (s : string) : string := of_bytes (lower_bytes (bytes s)).

(** ** [strconv.Atoi] and [%d] *)

Definition digit_val (c : ascii) : Z := byte_val c - 48.

Definition parse_digits (l : list ascii) : option Z :=
  if bool_decide (l = []) then None
  else if forallb is_digit l
       then Some (foldl (λ a c, a * 10 + digit_val c) 0 l)
       else None.

Definition Atoi (s : string) : option Z :=
  let l := bytes s in
  z ← match l with
      | "-"%char :: l' => Z.opp <$> parse_digits l'
      | "+"%char :: l' => parse_digits l'
      | _ => parse_digits l
      end;
  if bool_decide (in_int64 z) then Some z else None.

Fixpoint digits (fuel : nat) (n : Z) (acc : list ascii) : list ascii :=
  match fuel with
  | O => acc
  | S fuel =>
      let acc' := byte_of (48 + n mod 10) :: acc in
      if n <? 10 then acc' else digits fuel (n / 10) acc'
  end.

Definition digits_of (n : Z) : list ascii := digits (S (Z.to_nat (Z.log2 n))) n [].

Definition Itoa (z : Z) : string :=
  of_bytes (if z <? 0 then "-"%char :: digits_of (- z) else digits_of z).

(** ** Lemmas: bytes and digits *)

Lemma bytes_of_bytes l : bytes (of_bytes l) = l.
Proof. apply list_ascii_of_string_of_list_ascii. Qed.
Lemma of_bytes_bytes s : of_bytes (bytes s) = s.
Proof. apply string_of_list_ascii_of_string. Qed.

#[export] Hint Rewrite bytes_of_bytes of_bytes_bytes : joblet.

Lemma bytes_app s t : bytes (s +:+ t) = bytes s ++ bytes t.
Proof. induction s as [|c s IH]; [done|]. simpl. by rewrite IH. Qed.

Lemma length_bytes s : List.length (bytes s) = String.length s.
Proof. induction s as [|c s IH]; [done|]. simpl. by rewrite IH. Qed.

Lemma bytes_inj s t : bytes s = bytes t → s = t.
Proof. intros H. by rewrite <- (of_bytes_bytes s), H, of_bytes_bytes. Qed.

Lemma is_digit_spec c : is_digit c = true ↔ 48 ≤ byte_val c ≤ 57.
Proof.
  unfold is_digit, in_range. rewrite andb_true_iff, !Z.leb_le.
  change (byte_val "0") with 48. change (byte_val "9") with 57. done.
Qed.

Lemma digits_spec fuel n acc : 0 ≤ n → n < 2 ^ Z.of_nat fuel → forallb is_digit acc = true →
  forallb is_digit (digits fuel n acc) = true ∧
  foldl (λ a c, a * 10 + digit_val c) 0 (digits fuel n acc)
    = foldl (λ a c, a * 10 + digit_val c) n acc.
Proof.
  revert n acc. induction fuel as [|fuel IH]; intros n acc Hn Hlt Hd.
  { simpl in *. assert (n = 0) as -> by lia. done. }
  pose proof (Z.div_mod n 10 ltac:(lia)) as Hdm.
  pose proof (Z.mod_pos_bound n 10 ltac:(lia)) as Hm.
  assert (forallb is_digit (byte_of (48 + n mod 10) :: acc) = true) as Hd'.
  { cbn [forallb]. rewrite Hd, andb_true_r, is_digit_spec, byte_val_of; lia. }
  cbn [digits]. destruct (Z.ltb_spec n 10) as [H10|H10].
  - split; [done|]. cbn [foldl]. f_equal. unfold digit_val.
    rewrite byte_val_of, Z.mod_small by lia. lia.
  - destruct (IH (n / 10) (byte_of (48 + n mod 10) :: acc)) as [H1 H2]; [|..|done|].
    + apply Z.div_pos; lia.
    + rewrite Nat2Z.inj_succ, Z.pow_succ_r in Hlt by lia. nia.
    + split; [done|]. rewrite H2. cbn [foldl]. f_equal. unfold digit_val.
      rewrite byte_val_of by lia. lia.
Qed.

Lemma digits_nonempty fuel n acc : (0 < fuel)%nat → digits fuel n acc ≠ [].
Proof.
  destruct fuel as [|fuel]; [lia|]. intros _. revert n acc.
  assert (∀ fuel n acc, acc ≠ [] → digits fuel n acc ≠ []) as H.
  { clear. intros fuel. induction fuel; intros n acc Ha; simpl; [done|].
    case_match; [done|]. by apply IHfuel. }
  intros n acc. cbn [digits]. case_match; [done|]. by apply H.
Qed.

Lemma digits_of_nonempty n : digits_of n ≠ [].
Proof. apply digits_nonempty. lia. Qed.

Lemma log2_fuel n : 0 ≤ n → n < 2 ^ Z.of_nat (S (Z.to_nat (Z.log2 n))).
Proof.
  intros Hn. rewrite Nat2Z.inj_succ, Z2Nat.id by apply Z.log2_nonneg.
  destruct (decide (n = 0)) as [->|]; [done|]. apply Z.log2_spec. lia.
Qed.

Lemma parse_digits_of n : 0 ≤ n → parse_digits (digits_of n) = Some n.
Proof.
  intros Hn. unfold parse_digits, digits_of.
  fold (digits_of n). rewrite bool_decide_eq_false_2 by apply digits_of_nonempty.
  unfold digits_of.
  destruct (digits_spec (S (Z.to_nat (Z.log2 n))) n []) as [-> ->];
    [done|by apply log2_fuel|done|]. done.
Qed.

Lemma digits_of_head n c l : 0 ≤ n → digits_of n = c :: l → 48 ≤ byte_val c ≤ 57.
Proof.
  intros Hn Hd.
  destruct (digits_spec (S (Z.to_nat (Z.log2 n))) n []) as [H _];
    [done|by apply log2_fuel|done|].
  fold (digits_of n) in H. rewrite Hd in H. simpl in H. to_prop. by apply is_digit_spec.
Qed.

(** Decimal printing and parsing of an [int64] round-trip. *)
Lemma Atoi_Itoa z : in_int64 z → Atoi (Itoa z) = Some z.
Proof.
  intros Hz. unfold Atoi, Itoa. rewrite bytes_of_bytes.
  destruct (Z.ltb_spec z 0) as [Hneg|Hpos].
  - rewrite parse_digits_of by lia. simpl. rewrite Z.opp_involutive.
    by rewrite bool_decide_eq_true_2.
  - destruct (digits_of z) as [|c l] eqn:E.
    { by apply digits_of_nonempty in E. }
    pose proof (digits_of_head z c l Hpos E) as Hc.
    assert (parse_digits (c :: l) = Some z) as Hp by (by rewrite <- E, parse_digits_of).
    assert (match c with "-"%char => Z.opp <$> parse_digits l
            | "+"%char => parse_digits l | _ => parse_digits (c :: l) end = Some z) as H.
    { assert (c ≠ "-"%char) by (intros ->; change (byte_val "-") with 45 in Hc; lia).
      assert (c ≠ "+"%char) by (intros ->; change (byte_val "+") with 43 in Hc; lia).
      repeat case_match; done. }
    rewrite H. simpl. by rewrite bool_decide_eq_true_2.
Qed.

(** ** Lemmas: splitting *)

Lemma split_join sep l : join_bytes sep (split_bytes sep l) = l.
Proof.
  induction l as [|c l IH]; [done|]. simpl. case_decide as Hc.
  - subst. simpl. destruct (split_bytes sep l) eqn:E; [|by rewrite <- IH].
    destruct l; simpl in E; repeat case_match; done.
  - destruct (split_bytes sep l) as [|w ws] eqn:E.
    + destruct l; simpl in E; repeat case_match; done.
    + rewrite <- IH. by destruct ws.
Qed.

Lemma split_bytes_word sep w : sep ∉ w → split_bytes sep w = [w].
Proof.
  induction w as [|c w IH]; [done|]. intros [Hc Hw]%not_elem_of_cons. simpl.
  rewrite decide_False by done. by rewrite IH.
Qed.

Lemma split_bytes_app sep w l : sep ∉ w → split_bytes sep (w ++ sep :: l) = w :: split_bytes sep l.
Proof.
  induction w as [|c w IH]; simpl.
  - by rewrite decide_True.
  - intros [Hc Hw]%not_elem_of_cons. rewrite decide_False by done. by rewrite IH.
Qed.

Lemma split_bytes_join sep ws : ws ≠ [] → Forall (λ w, sep ∉ w) ws →
  split_bytes sep (join_bytes sep ws) = ws.
Proof.
  intros Hne Hws. induction Hws as [|w ws Hw Hws IH]; [done|].
  destruct ws as [|w' ws]; [by apply split_bytes_word|].
  change (join_bytes sep (w :: w' :: ws)) with (w ++ sep :: join_bytes sep (w' :: ws)).
  rewrite split_bytes_app by done. by rewrite IH.
Qed.

Lemma split_words sep l : Forall (λ w, sep ∉ w) (split_bytes sep l).
Proof.
  induction l as [|c l IH]; simpl; [constructor; [set_solver|constructor]|].
  case_decide as Hc; [constructor; [set_solver|done]|].
  destruct (split_bytes sep l) as [|w ws]; [constructor; [set_solver|constructor]|].
  inversion IH; subst. constructor; [set_solver|done].
Qed.

(** ** Lemmas: decimal words are not trimmed *)

Lemma trim_left_digit fuel encs c l :
  forallb (λ p, match p with z :: _ => (z <? 48) || (57 <? z) | [] => false end) encs = true →
  is_digit c = true → trim_left fuel encs (c :: l) = c :: l.
Proof.
  intros He Hc. apply is_digit_spec in Hc.
  assert (omap (λ p, strip_prefix p (c :: l)) encs = []) as E.
  { induction encs as [|p encs IH]; [done|]. simpl in He. to_prop.
    destruct p as [|z p]; [done|]. simpl.
    rewrite (proj2 (Z.eqb_neq (byte_val c) z)); [by apply IH|].
    intros <-. match goal with H : _ || _ = true |- _ => apply orb_true_iff in H as [H|H] end;
      to_prop; lia. }
  destruct fuel as [|fuel]; [done|]. cbn [trim_left]. by rewrite E.
Qed.

Lemma TrimSpace_digits l : forallb is_digit l = true → TrimSpace (of_bytes l) = of_bytes l.
Proof.
  intros Hl. unfold TrimSpace. rewrite bytes_of_bytes. destruct l as [|c l]; [done|].
  rewrite trim_left_digit; [|done|simpl in Hl; by to_prop].
  destruct (rev (c :: l)) as [|d r] eqn:E.
  { apply (f_equal (@List.length _)) in E. by rewrite length_rev in E. }
  rewrite trim_left_digit; [|done|].
  - by rewrite <- E, rev_involutive.
  - rewrite forallb_forall in Hl. apply Hl. apply in_rev. rewrite E. by left.
Qed.

Lemma digits_of_digits n : 0 ≤ n → forallb is_digit (digits_of n) = true.
Proof. intros. by apply digits_spec; [|apply log2_fuel|]. Qed.

Lemma Itoa_nonneg n : 0 ≤ n → Itoa n = of_bytes (digits_of n).
Proof. intros. unfold Itoa. by rewrite (proj2 (Z.ltb_ge n 0)). Qed.

Lemma TrimSpace_Itoa n : 0 ≤ n → TrimSpace (Itoa n) = Itoa n.
Proof. intros. rewrite Itoa_nonneg by done. by apply TrimSpace_digits, digits_of_digits. Qed.

Lemma not_digit_not_in c l : forallb is_digit l = true → is_digit c = false → c ∉ l.
Proof.
  intros Hl Hc Hin. rewrite forallb_forall in Hl.
  apply list_elem_of_In, Hl in Hin. congruence.
Qed.

Lemma contains_byte_spec s c : contains_byte s c = bool_decide (c ∈ bytes s).
Proof.
  unfold contains_byte. apply eq_true_iff_eq. rewrite existsb_exists, bool_decide_eq_true.
  rewrite list_elem_of_In. split; [|intros; exists c; split; [done|by apply bool_decide_eq_true]].
  intros (d & Hd & ->%bool_decide_eq_true). done.
Qed.

(** ** Lemmas: cutting *)

Lemma cut_bytes_spec sep l :
  match cut_bytes sep l with
  | Some (a, b) => l = a ++ sep :: b ∧ sep ∉ a
  | None => sep ∉ l
  end.
Proof.
  induction l as [|c l IH]; simpl; [set_solver|]. case_decide as Hc; [subst; set_solver|].
  destruct (cut_bytes sep l) as [[a b]|]; [|set_solver].
  destruct IH as [-> Ha]. split; [done|set_solver].
Qed.

Lemma cut_bytes_app sep a b : sep ∉ a → cut_bytes sep (a ++ sep :: b) = Some (a, b).
Proof.
  induction a as [|c a IH]; simpl; intros Ha; [by rewrite decide_True|].
  rewrite decide_False by set_solver. by rewrite IH by set_solver.
Qed.

(** The decimal text of an integer has no dot. *)
Lemma Itoa_no_dot z : 0 ≤ z → "."%char ∉ bytes (Itoa z).
Proof.
  intros Hz. rewrite Itoa_nonneg, bytes_of_bytes by done.
  by apply not_digit_not_in; [apply digits_of_digits|].
Qed.

Lemma Atoi_range s z : Atoi s = Some z → in_int64 z.
Proof. unfold Atoi. intros (y & _ & Hy)%bind_Some. case_bool_decide; [congruence|done]. Qed.
