(* ===== verification/GoNumbers.v ===== *)
(** * Numbers in text: words, unsigned integers and doubles

    [strings.Fields], [strconv.ParseUint], [strconv.ParseFloat] on decimal literals,
    arithmetic on [uint64] and [float64]: what the readers of cgroup and /proc files
    use.  An error that the code ignores leaves the value that comes with it. *)

From Stdlib Require Import Ascii String SpecFloat.
From S2P Require Import Prelude GoStrings.

Local Open Scope Z_scope.

(** ** [strings.Fields] *)

Definition flush (cur : list ascii) (ws : list (list ascii)) : list (list ascii) :=
  match cur with [] => ws | _ => cur :: ws end.

(** The fuel is the number of bytes; a space takes at least one of them. *)
Fixpoint fields_bytes (fuel : nat) (cur l : list ascii) : list (list ascii) :=
  match fuel with
  | O => flush cur []
  | S fuel =>
      match l with
      | [] => flush cur []
      | c :: rest =>
          match head (omap (λ p, strip_prefix p l) space_encodings) with
          | Some l' => flush cur (fields_bytes fuel [] l')
          | None => fields_bytes fuel (cur ++ [c]) rest
          end
      end
  end.

Definition Fields (s : string) : list string :=
  of_bytes <$> fields_bytes (S (String.length s)) [] (bytes s).

(** [strings.TrimSuffix]. *)
Definition TrimSuffix (s p : string) : string :=
  if bool_decide (p = String.substring (String.length s - String.length p) (String.length p) s ∧
                  (String.length p ≤ String.length s)%nat)
  then String.substring 0 (String.length s - String.length p) s else s.

(** Printable and not a space. *)
Definition graphic (c : ascii) : bool := (33 <=? byte_val c) && (byte_val c <=? 126).
Definition word (w : list ascii) : Prop := w ≠ [] ∧ forallb graphic w = true.

Lemma no_space c l : graphic c = true → omap (λ p, strip_prefix p (c :: l)) space_encodings = [].
Proof.
  unfold graphic. intros H. to_prop.
  assert (He : forallb (λ p, match p with z :: _ => (z <? 33) || (126 <? z) | [] => false end) space_encodings = true) by done.
  induction space_encodings as [|p encs IH]; [done|]. simpl in He. to_prop. destruct p as [|z p]; [done|]. simpl.
  rewrite (proj2 (Z.eqb_neq (byte_val c) z)); [by apply IH|].
  intros <-. match goal with H : _ || _ = true |- _ => apply orb_true_iff in H as [H|H] end; to_prop; lia.
Qed.

(** The ASCII spaces that separate words and lines in the files of the kernel. *)
Definition blank (c : ascii) : Prop := c = " "%char ∨ c = byte_of 9 ∨ c = byte_of 10.

Lemma strip_blank c l : blank c → head (omap (λ p, strip_prefix p (c :: l)) space_encodings) = Some l.
Proof. by intros [->|[->| ->]]. Qed.

Lemma fields_word w cur l fuel : forallb graphic w = true → (length w ≤ fuel)%nat →
  fields_bytes fuel cur (w ++ l) = fields_bytes (fuel - length w) (cur ++ w) l.
Proof.
  revert cur fuel. induction w as [|c w IH]; intros cur fuel Hw Hf; [simpl; by rewrite app_nil_r, Nat.sub_0_r|].
  simpl in Hw, Hf. to_prop. destruct fuel as [|fuel]; [lia|]. cbn [app fields_bytes].
  rewrite no_space by done. simpl. rewrite IH by (done || lia). by rewrite <- app_assoc.
Qed.

(** The words of a line: blanks in front, one blank or more between. *)
Fixpoint spaced (ws : list (list ascii * list ascii)) : list ascii :=
  match ws with [] => [] | (w, b) :: ws => w ++ b ++ spaced ws end.
Definition separated (ws : list (list ascii * list ascii)) : Prop :=
  Forall (λ wb, word wb.1 ∧ wb.2 ≠ [] ∧ Forall blank wb.2) ws.

Lemma fields_blanks b cur l fuel : Forall blank b → b ≠ [] → (length b ≤ fuel)%nat →
  fields_bytes fuel cur (b ++ l) = flush cur (fields_bytes (fuel - length b) [] l).
Proof.
  intros Hb. revert cur fuel. induction Hb as [|c b Hc Hb IH]; intros cur fuel Hn Hf; [done|].
  simpl in Hf. destruct fuel as [|fuel]; [lia|]. cbn [app fields_bytes]. rewrite strip_blank by done.
  destruct b as [|d b]; [simpl; by rewrite Nat.sub_0_r|]. rewrite IH by (done || simpl in *; lia). done.
Qed.

Lemma fields_spaced ws last fuel : separated ws → (last = [] ∨ word last) →
  (length (spaced ws ++ last) < fuel)%nat →
  fields_bytes fuel [] (spaced ws ++ last) = (fst <$> ws) ++ match last with [] => [] | _ => [last] end.
Proof.
  intros H. revert fuel. induction H as [|[w b] ws (Hw & Hn & Hb) H IH]; intros fuel Hl Hf; simpl in *.
  - destruct Hl as [->|[Hl1 Hl2]]; [by destruct fuel|].
    rewrite <- (app_nil_r last) at 1. rewrite fields_word by (done || lia).
    destruct (fuel - length last)%nat eqn:E; [lia|]. simpl. by destruct last.
  - destruct Hw as [Hw1 Hw2]. rewrite !length_app in Hf. rewrite <- !app_assoc.
    rewrite fields_word by (done || lia). rewrite fields_blanks by (done || lia).
    rewrite IH; [|done|rewrite !length_app; lia]. simpl. by destruct w.
Qed.

(** A line of words. *)
Lemma Fields_words (ws : list (list ascii)) : Forall word ws → Fields (of_bytes (join_bytes " " ws)) = of_bytes <$> ws.
Proof.
  intros Hw. unfold Fields. rewrite bytes_of_bytes. f_equal.
  destruct ws as [|last ws' _] using rev_ind; [done|].
  apply Forall_app in Hw as [Hw Hl]. rewrite Forall_singleton in Hl.
  assert (E : join_bytes " " (ws' ++ [last]) = spaced ((λ w, (w, [" "%char])) <$> ws') ++ last).
  { clear. induction ws' as [|w ws' IH]; [done|]. 
    change (join_bytes " " (w :: (ws' ++ [last])) = (w ++ " "%char :: spaced ((λ w, (w, [" "%char])) <$> ws')) ++ last).
    rewrite <- app_assoc. cbn [app]. rewrite <- IH. by destruct ws'. }
  rewrite E, fields_spaced.
  - rewrite <- list_fmap_compose. unfold compose. simpl. rewrite list_fmap_id. destruct Hl as [Hl ?]. by destruct last.
  - apply Forall_fmap. eapply Forall_impl; [exact Hw|]. intros w ?. simpl. split; [done|]. split; [done|]. repeat constructor.
  - by right.
  - rewrite <- length_bytes, bytes_of_bytes. rewrite <- E. lia.
Qed.

(** ** Unsigned integers *)

Abbreviation uwrap := (λ z : Z, z mod 2 ^ 64).
Definition in_uint64 (z : Z) : Prop := 0 ≤ z < 2 ^ 64.
Definition max_uint64 : Z := 2 ^ 64 - 1.

Inductive num_error := ErrSyntax | ErrRange.

(** [strconv.ParseUint] with base 10 and 64 bits: the value and the error.  A number
    that is too large is noticed before what follows it is looked at. *)
Fixpoint parse_uint (n : Z) (l : list ascii) : Z * option num_error :=
  match l with
  | [] => (n, None)
  | c :: l =>
      if is_digit c then
        if max_uint64 / 10 + 1 <=? n then (max_uint64, Some ErrRange)
        else let n1 := n * 10 + digit_val c in
          if max_uint64 <? n1 then (max_uint64, Some ErrRange) else parse_uint n1 l
      else (0, Some ErrSyntax)
  end.

Definition ParseUint (s : string) : Z * option num_error :=
  match bytes s with [] => (0, Some ErrSyntax) | l => parse_uint 0 l end.

Lemma digit_val_range c : is_digit c = true → 0 ≤ digit_val c ≤ 9.
Proof. intros H%is_digit_spec. unfold digit_val. lia. Qed.

Lemma foldl_digits_ge l n : forallb is_digit l = true → 0 ≤ n → n ≤ foldl (λ a c, a * 10 + digit_val c) n l.
Proof.
  revert n. induction l as [|c l IH]; intros n Hl Hn; simpl in *; [lia|]. to_prop.
  assert (0 ≤ digit_val c) by (by apply digit_val_range). 
  specialize (IH (n * 10 + digit_val c) ltac:(done) ltac:(lia)). lia.
Qed.

Lemma parse_uint_digits l n : forallb is_digit l = true → 0 ≤ n → foldl (λ a c, a * 10 + digit_val c) n l ≤ max_uint64 →
  parse_uint n l = (foldl (λ a c, a * 10 + digit_val c) n l, None).
Proof.
  revert n. induction l as [|c l IH]; intros n Hl Hn Hm; [done|]. simpl in *. to_prop.
  match goal with H : is_digit c = true |- _ => rewrite H; pose proof (digit_val_range c H) end.
  assert (Hg := foldl_digits_ge l (n * 10 + digit_val c) ltac:(done) ltac:(lia)).
  assert (n ≤ max_uint64 / 10) by (apply Z.div_le_lower_bound; lia).
  rewrite (proj2 (Z.leb_gt _ _)), (proj2 (Z.ltb_ge _ _)) by lia. apply IH; [done|lia..].
Qed.

Lemma ParseUint_Itoa n : in_uint64 n → ParseUint (Itoa n) = (n, None).
Proof.
  intros [H1 H2]. rewrite Itoa_nonneg by done. unfold ParseUint. rewrite bytes_of_bytes.
  pose proof (digits_of_nonempty n) as Hne. destruct (digits_of n) as [|c l] eqn:E; [done|].
  pose proof (parse_digits_of n H1) as Hp. pose proof (digits_of_digits n H1) as Hd. rewrite E in Hp, Hd.
  unfold parse_digits in Hp. rewrite bool_decide_eq_false_2, Hd in Hp by done. injection Hp as Hp.
  rewrite parse_uint_digits; [by f_equal|done|done|]. change (foldl _ 0 (c :: l) ≤ max_uint64) with (foldl (λ a c, a * 10 + digit_val c) (0 * 10 + digit_val c) l ≤ max_uint64).
  rewrite Hp. unfold max_uint64. lia.
Qed.

Lemma ParseUint_range s : in_uint64 (ParseUint s).1.
Proof.
  assert (H : ∀ l n, in_uint64 n → in_uint64 (parse_uint n l).1).
  { induction l as [|c l IH]; intros n Hn; [done|]. simpl.
    destruct (is_digit c) eqn:Hd; [|unfold in_uint64; simpl; lia].
    destruct (_ <=? n); [unfold in_uint64, max_uint64; simpl; lia|].
    destruct (Z.ltb_spec max_uint64 (n * 10 + digit_val c)); [unfold in_uint64, max_uint64; simpl; lia|].
    apply IH. pose proof (digit_val_range c Hd). unfold in_uint64, max_uint64 in *. lia. }
  unfold ParseUint. destruct (bytes s); [unfold in_uint64; simpl; lia|]. apply H. unfold in_uint64; lia.
Qed.

(** ** Doubles *)

Abbreviation float64 := spec_float.

(** Doubles: 53 bits of precision, exponents below 1024. *)
Definition mul64 (x y : float64) : float64 := SFmul 53 1024 x y.
Definition div64 (x y : float64) : float64 := SFdiv 53 1024 x y.
Definition add64 (x y : float64) : float64 := SFadd 53 1024 x y.
Definition sub64 (x y : float64) : float64 := SFsub 53 1024 x y.
Definition lt64 (x y : float64) : bool := match SFcompare x y with Some Lt => true | _ => false end.
Definition float_of_Z (z : Z) : float64 := binary_normalize 53 1024 z 0 false.
Definition zero64 : float64 := S754_zero false.

(** [m / 10^k], correctly rounded. *)
Definition decimal (m : Z) (k : nat) : float64 :=
  match m with
  | Zpos p => SFdiv 53 1024 (S754_finite false p 0) (S754_finite false (Z.to_pos (10 ^ Z.of_nat k)) 0)
  | _ => zero64
  end.

(** A literal [ddd.ddd] or [ddd]; the number without its point, and the digits after it. *)
Definition decimal_literal (s : string) : option (Z * nat) :=
  match cut_bytes "." (bytes s) with
  | Some (a, b) => m ← parse_digits (a ++ b); Some (m, length b)
  | None => m ← parse_digits (bytes s); Some (m, 0%nat)
  end.

(** [strconv.ParseFloat] with the error ignored: decimal literals are what the kernel
    and nvidia-smi print; what it makes of other texts is an argument. *)
Definition ParseFloat (other : string → float64) (s : string) : float64 :=
  match decimal_literal s with
  | Some (m, k) => decimal m k
  | None => other s
  end.

(** [time.Duration.Seconds] of a number of nanoseconds. *)
Definition Seconds (d : Z) : float64 :=
  add64 (float_of_Z (Z.quot d (10 ^ 9))) (div64 (float_of_Z (Z.rem d (10 ^ 9))) (float_of_Z (10 ^ 9))).

(** The conversion of a double to an integer, towards zero, where it fits. *)
Definition truncate (x : float64) : Z :=
  match x with
  | S754_finite s m e => (if s then Z.opp else id) (if 0 <=? e then Zpos m * 2 ^ e else Zpos m / 2 ^ (- e))
  | _ => 0
  end.

(** ** [fmt.Sscanf] *)

Fixpoint digit_run (l : list ascii) : list ascii :=
  match l with a :: l => if is_digit a then a :: digit_run l else [] | [] => [] end.

(** [fmt.Sscanf] with [%d] into an integer of [w] bits: leading spaces, a sign, digits,
    and whatever follows. *)
Fixpoint skip_spaces (l : list ascii) : list ascii :=
  match l with (" "%char | "009"%char | "011"%char | "012"%char | "013"%char) :: l => skip_spaces l | _ => l end.
Definition Sscanf_d (w : Z) (s : string) : option Z :=
  let l := skip_spaces (bytes s) in
  let '(neg, l) := match l with "-"%char :: l => (true, l) | "+"%char :: l => (false, l) | _ => (false, l) end in
  n ← parse_digits (digit_run l);
  let z := if neg then - n else n in
  if bool_decide (in_int 64 z ∧ in_int w z) then Some z else None.

Lemma skip_digits l : forallb is_digit l = true → skip_spaces l = l.
Proof.
  destruct l as [|c l]; [done|]. cbn [forallb]. intros [H _]%andb_true_iff. apply is_digit_spec in H.
  assert (∀ d, byte_val d < 48 → c ≠ d) as Hne by (intros d Hd ->; lia).
  destruct c as [[] [] [] [] [] [] [] []]; first [reflexivity | (exfalso; vm_compute in H; destruct H as [H1 H2]; first [by apply H1 | by apply H2])].
Qed.
Lemma digit_run_all l : forallb is_digit l = true → digit_run l = l.
Proof. induction l as [|c l IH]; [done|]. cbn [forallb digit_run]. intros [-> H]%andb_true_iff. by rewrite IH. Qed.

(** What [%d] prints of an integer of [w] bits is scanned back. *)
Lemma Sscanf_Itoa w z : in_int64 z → in_int w z → Sscanf_d w (Itoa z) = Some z.
Proof.
  intros H64 Hw. unfold Sscanf_d, Itoa. rewrite bytes_of_bytes.
  assert (Hd : forall n, 0 ≤ n → forallb is_digit (digits_of n) = true) by (intros n Hn; by apply digits_of_digits).
  destruct (Z.ltb_spec z 0).
  - change (skip_spaces ("-"%char :: digits_of (- z))) with ("-"%char :: digits_of (- z)). cbv iota beta.
    rewrite digit_run_all, parse_digits_of by (try apply Hd; lia). cbn [mbind option_bind]. rewrite Z.opp_involutive. by rewrite bool_decide_eq_true_2.
  - rewrite skip_digits by (apply Hd; lia). destruct (digits_of z) as [|c l] eqn:E; [by apply digits_of_nonempty in E|].
    assert (Hc : 48 ≤ byte_val c ≤ 57) by (by apply (digits_of_head z c l)).
    assert (Hm : (match c :: l with "-"%char :: l => (true, l) | "+"%char :: l => (false, l) | _ => (false, c :: l) end) = (false, c :: l)).
    { destruct c as [[] [] [] [] [] [] [] []]; first [reflexivity | (exfalso; vm_compute in Hc; destruct Hc as [H1 H2]; first [by apply H1 | by apply H2])]. }
    rewrite Hm. cbv iota beta. rewrite <- E, digit_run_all, parse_digits_of by (try apply Hd; lia). cbn [mbind option_bind]. by rewrite bool_decide_eq_true_2.
Qed.
