(* ===== verification/GoTime.v ===== *)
(** * Instants and their texts: [time.Time] with [time.RFC3339]

    An instant is the nanoseconds since the first of January of the year 1, UTC, which is
    the zero [time.Time]; the zone of the machine is an argument, the seconds east of UTC
    at an instant. *)

From Stdlib Require Import Ascii String.
From S2P Require Import Prelude GoStrings GoNumbers.

Local Open Scope Z_scope.

Definition second : Z := 1000000000.

(** ** The calendar *)

Definition is_leap (y : Z) : bool := (y mod 4 =? 0) && (negb (y mod 100 =? 0) || (y mod 400 =? 0)).

(** Days before the first of January of a year. *)
Definition days_before_year (y : Z) : Z := 365 * (y - 1) + (y - 1) / 4 - (y - 1) / 100 + (y - 1) / 400.

Definition month_days (leap : bool) : list Z := [31; if leap then 29 else 28; 31; 30; 31; 30; 31; 31; 30; 31; 30; 31].
Definition days_before_month (leap : bool) (m : Z) : Z := foldr Z.add 0 (take (Z.to_nat (m - 1)) (month_days leap)).
(** [time.daysIn]. *)
Definition daysIn (m y : Z) : Z := nth (Z.to_nat (m - 1)) (month_days (is_leap y)) 0.

Definition days_of_date (y m d : Z) : Z := days_before_year y + days_before_month (is_leap y) m + (d - 1).

Fixpoint month_of (months : list Z) (m yday : Z) : Z * Z :=
  match months with
  | [] => (m, yday + 1)
  | n :: months => if yday <? n then (m, yday + 1) else month_of months (m + 1) (yday - n)
  end.

(** [time.Time.Date]: the year is found by cycles of 400, 100, 4 years and one. *)
Definition year_of (days : Z) : Z * Z :=
  let c := days / 146097 in let r := days mod 146097 in
  let n := Z.min (r / 36524) 3 in let r := r - 36524 * n in
  let q := r / 1461 in let r := r - 1461 * q in
  let k := Z.min (r / 365) 3 in
  (400 * c + 100 * n + 4 * q + k + 1, r - 365 * k).
Definition date_of (days : Z) : Z * Z * Z :=
  let '(y, yday) := year_of days in let '(m, d) := month_of (month_days (is_leap y)) 1 yday in (y, m, d).

(** ** Printing *)

Definition digit_of (n : Z) : ascii := byte_of (48 + n).
(** [time.appendInt] for a number that is not negative. *)
Definition pad2 (n : Z) : list ascii := if n <? 100 then [digit_of (n / 10); digit_of (n mod 10)] else digits_of n.
Definition pad4 (n : Z) : list ascii :=
  if n <? 10000 then [digit_of (n / 1000); digit_of (n / 100 mod 10); digit_of (n / 10 mod 10); digit_of (n mod 10)] else digits_of n.

Definition zone_text (offset : Z) : list ascii :=
  if offset =? 0 then ["Z"%char] else
  let z := Z.quot offset 60 in
  (if z <? 0 then "-"%char else "+"%char) :: pad2 (Z.abs z / 60) ++ ":"%char :: pad2 (Z.abs z mod 60).

(** [t.Format(time.RFC3339)]. *)
Definition format_RFC3339 (zone : Z → Z) (t : Z) : string :=
  let l := t / second + zone t in
  let '(y, m, d) := date_of (l / 86400) in
  let s := l mod 86400 in
  of_bytes ((if y <? 0 then "-"%char :: pad4 (- y) else pad4 y) ++ "-"%char :: pad2 m ++ "-"%char :: pad2 d ++
    "T"%char :: pad2 (s / 3600) ++ ":"%char :: pad2 (s / 60 mod 60) ++ ":"%char :: pad2 (s mod 60) ++ zone_text (zone t)).

(** ** Parsing *)

(** [time.getnum]. *)
Definition getnum (fixed : bool) (l : list ascii) : option (Z * list ascii) :=
  match l with
  | a :: l1 =>
      if is_digit a then
        match l1 with
        | b :: l2 => if is_digit b then Some (digit_val a * 10 + digit_val b, l2) else if fixed then None else Some (digit_val a, l1)
        | [] => if fixed then None else Some (digit_val a, l1)
        end
      else None
  | [] => None
  end.

Definition literal (c : ascii) (l : list ascii) : option (list ascii) :=
  match l with a :: l => if bool_decide (a = c) then Some l else None | [] => None end.

Definition year_num (l : list ascii) : option (Z * list ascii) :=
  if (4 <=? length l)%nat then y ← parse_digits (take 4 l); Some (y, drop 4 l) else None.

(** A fraction of a second that the layout does not mention; digits after the ninth are
    dropped. *)
Definition fraction (l : list ascii) : Z * list ascii :=
  match l with
  | c :: d :: l' =>
      if (bool_decide (c = "."%char) || bool_decide (c = ","%char)) && is_digit d then
        let run := digit_run (d :: l') in let kept := take 9 run in
        (foldl (λ a c, a * 10 + digit_val c) 0 kept * 10 ^ (9 - Z.of_nat (length kept)), drop (length run) (d :: l'))
      else (0, l)
  | _ => (0, l)
  end.

Definition zone_num (l : list ascii) : option (Z * list ascii) :=
  match l with
  | "Z"%char :: l => Some (0, l)
  | s :: h1 :: h2 :: c :: m1 :: m2 :: l =>
      if negb (bool_decide (c = ":"%char)) then None else
      '(hr, _) ← getnum true [h1; h2];
      '(mm, _) ← getnum true [m1; m2];
      if (24 <? hr) || (60 <? mm) then None else
      if bool_decide (s = "+"%char) then Some ((hr * 60 + mm) * 60, l)
      else if bool_decide (s = "-"%char) then Some (- ((hr * 60 + mm) * 60), l) else None
  | _ => None
  end.

(** [time.Parse(time.RFC3339, text)] without the text of the error. *)
Definition parse_RFC3339 (text : string) : option Z :=
  '(y, l) ← year_num (bytes text); l ← literal "-" l;
  '(m, l) ← getnum true l; _ ← guard (1 ≤ m ≤ 12); l ← literal "-" l;
  '(d, l) ← getnum true l; l ← literal "T" l;
  '(h, l) ← getnum false l; _ ← guard (h < 24); l ← literal ":" l;
  '(mi, l) ← getnum true l; _ ← guard (mi < 60); l ← literal ":" l;
  '(s, l) ← getnum true l; _ ← guard (s < 60);
  let '(ns, l) := fraction l in
  '(off, l) ← zone_num l; _ ← guard (l = []); _ ← guard (1 ≤ d ≤ daysIn m y);
  Some ((days_of_date y m d * 86400 + h * 3600 + mi * 60 + s - off) * second + ns).

(** ** A date is found again *)

Local Ltac zdiv := Z.div_mod_to_equations; lia.

Lemma year_of_spec days : let '(y, yday) := year_of days in
  days_before_year y + yday = days ∧ 0 ≤ yday < (if is_leap y then 366 else 365).
Proof.
  unfold year_of, days_before_year, is_leap.
  pose proof (Z.div_mod days 146097 ltac:(lia)) as Hc. pose proof (Z.mod_pos_bound days 146097 ltac:(lia)) as Hr.
  set (c := days / 146097) in *. set (r := days mod 146097) in *. clearbody c r.
  remember (Z.min (r / 36524) 3) as n eqn:En. remember (r - 36524 * n) as r1 eqn:E1.
  assert (Hn : 0 ≤ n ≤ 3 ∧ 0 ≤ r1 ≤ 36524 ∧ (n < 3 → r1 < 36524)) by zdiv.
  remember (r1 / 1461) as q eqn:Eq. remember (r1 - 1461 * q) as r2 eqn:E2.
  assert (Hq : 0 ≤ q ≤ 24 ∧ 0 ≤ r2 ≤ 1460 ∧ (q = 24 → n < 3 → r2 < 1460)) by zdiv.
  remember (Z.min (r2 / 365) 3) as k eqn:Ek.
  assert (Hk : 0 ≤ k ≤ 3 ∧ 0 ≤ r2 - 365 * k ≤ 365 ∧ (k < 3 → r2 - 365 * k < 365)) by zdiv. clear En Eq Ek.
  set (y := 400 * c + 100 * n + 4 * q + k).
  change (400 * c + 100 * n + 4 * q + k + 1) with (y + 1). replace (y + 1 - 1) with y by lia.
  assert (E4 : y / 4 = 100 * c + 25 * n + q) by (unfold y; zdiv).
  assert (E100 : y / 100 = 4 * c + n) by (unfold y; zdiv).
  assert (E400 : y / 400 = c) by (unfold y; zdiv). rewrite E4, E100, E400. split; [unfold y; zdiv|].
  destruct (Z.eqb_spec ((y + 1) mod 4) 0) as [H4|H4]; cbn [andb]; [|unfold y in *; zdiv].
  destruct (Z.eqb_spec ((y + 1) mod 100) 0) as [H1|H1]; cbn [negb orb]; [|unfold y in *; zdiv].
  destruct (Z.eqb_spec ((y + 1) mod 400) 0) as [H2|H2]; unfold y in *; zdiv.
Qed.

Local Ltac index_of_month :=
  repeat match goal with |- context [Z.to_nat ?e] => let n := eval vm_compute in (Z.to_nat e) in change (Z.to_nat e) with n end.

Lemma month_of_spec (leap : bool) yday : 0 ≤ yday < (if leap then 366 else 365) → let '(m, d) := month_of (month_days leap) 1 yday in
  1 ≤ m ≤ 12 ∧ 1 ≤ d ≤ nth (Z.to_nat (m - 1)) (month_days leap) 0 ∧ days_before_month leap m + (d - 1) = yday.
Proof.
  intros H. unfold month_of, days_before_month, month_days.
  destruct leap; cbn iota in H; repeat (match goal with |- context [if ?x <? ?y then _ else _] => destruct (Z.ltb_spec x y) end; [index_of_month; cbn [nth take foldr]; lia|]); exfalso; lia.
Qed.

Lemma days_of_date_of days : let '(y, m, d) := date_of days in
  days_of_date y m d = days ∧ 1 ≤ m ≤ 12 ∧ 1 ≤ d ≤ daysIn m y.
Proof.
  unfold date_of. pose proof (year_of_spec days) as Hy. destruct (year_of days) as [y yday]. destruct Hy as [Hy Hd].
  pose proof (month_of_spec (is_leap y) yday Hd) as Hm. destruct (month_of _ 1 yday) as [m d]. destruct Hm as (H1 & H2 & H3).
  unfold days_of_date, daysIn. lia.
Qed.

(** ** What is printed is read *)

Lemma is_digit_of n : 0 ≤ n ≤ 9 → is_digit (digit_of n) = true ∧ digit_val (digit_of n) = n.
Proof. intros H. unfold digit_of, digit_val. rewrite is_digit_spec, !byte_val_of by lia. lia. Qed.

Lemma getnum_pad2 fixed n l : 0 ≤ n < 100 → getnum fixed (pad2 n ++ l) = Some (n, l).
Proof.
  intros H. unfold pad2. rewrite (proj2 (Z.ltb_lt _ _)) by lia. cbn [app getnum].
  destruct (is_digit_of (n / 10)) as [-> ->]; [zdiv|]. destruct (is_digit_of (n mod 10)) as [-> ->]; [zdiv|]. do 2 f_equal. zdiv.
Qed.

Lemma year_num_pad4 n l : 0 ≤ n < 10000 → year_num (pad4 n ++ l) = Some (n, l).
Proof.
  intros H. unfold pad4. rewrite (proj2 (Z.ltb_lt _ _)) by lia. unfold year_num. cbn [app length Nat.leb take drop].
  unfold parse_digits. rewrite bool_decide_eq_false_2 by done. cbn [forallb foldl].
  destruct (is_digit_of (n / 1000)) as [-> ->]; [zdiv|]. destruct (is_digit_of (n / 100 mod 10)) as [-> ->]; [zdiv|].
  destruct (is_digit_of (n / 10 mod 10)) as [-> ->]; [zdiv|]. destruct (is_digit_of (n mod 10)) as [-> ->]; [zdiv|]. rewrite take_0, drop_0. cbn [andb forallb foldl mbind option_bind]. do 2 f_equal. zdiv.
Qed.

(** An offset of whole minutes, below 25 hours, as every zone of today has. *)
Definition whole_minutes (off : Z) : Prop := off mod 60 = 0 ∧ -90000 < off < 90000.

Lemma zone_num_text off : whole_minutes off → zone_num (zone_text off) = Some (off, []).
Proof.
  intros [Hm Hr]. unfold zone_text. destruct (Z.eqb_spec off 0) as [->|Hz]; [done|].
  assert (Hq : Z.quot off 60 * 60 = off).
  { apply Z.mod_divide in Hm as [k ->]; [|lia]. by rewrite Z.quot_mul by lia. }
  set (z := Z.quot off 60) in *. clearbody z.
  assert (H1 : 0 ≤ Z.abs z / 60 < 25) by zdiv. assert (H2 : 0 ≤ Z.abs z mod 60 < 60) by zdiv.
  pose proof (getnum_pad2 true (Z.abs z / 60) [] ltac:(lia)) as G1. pose proof (getnum_pad2 true (Z.abs z mod 60) [] ltac:(lia)) as G2.
  rewrite app_nil_r in G1, G2. unfold pad2 in *. rewrite (proj2 (Z.ltb_lt (Z.abs z / 60) 100)) in * by lia. rewrite (proj2 (Z.ltb_lt (Z.abs z mod 60) 100)) in * by lia.
  cbn [app]. assert (E : (Z.abs z / 60 * 60 + Z.abs z mod 60) * 60 = Z.abs off) by zdiv.
  unfold zone_num. destruct (Z.ltb_spec z 0).
  - rewrite bool_decide_eq_true_2 by done. cbn [negb]. rewrite G1. cbn [mbind option_bind]. rewrite G2. cbn [mbind option_bind].
    rewrite (proj2 (Z.ltb_ge _ _)), (proj2 (Z.ltb_ge _ _)) by lia. cbn [orb]. rewrite E, bool_decide_eq_false_2, bool_decide_eq_true_2 by done. do 2 f_equal. lia.
  - rewrite bool_decide_eq_true_2 by done. cbn [negb]. rewrite G1. cbn [mbind option_bind]. rewrite G2. cbn [mbind option_bind].
    rewrite (proj2 (Z.ltb_ge _ _)), (proj2 (Z.ltb_ge _ _)) by lia. cbn [orb]. rewrite E, bool_decide_eq_true_2 by done. do 2 f_equal. lia.
Qed.

Lemma zone_text_start off : whole_minutes off → ∃ c l, zone_text off = c :: l ∧ c ≠ "."%char ∧ c ≠ ","%char.
Proof. intros _. unfold zone_text. destruct (off =? 0); [by eexists _, _|]. destruct (_ <? 0); by eexists _, _. Qed.

(** The years that have four digits. *)
Definition in_years (zone : Z → Z) (t : Z) : Prop := 0 ≤ (year_of ((t / second + zone t) / 86400)).1 < 10000.

(** An instant comes back from its text, cut to seconds, whatever the zone. *)
Lemma parse_RFC3339_format zone t : in_years zone t → whole_minutes (zone t) → parse_RFC3339 (format_RFC3339 zone t) = Some (t / second * second).
Proof.
  intros Hy Hz. unfold format_RFC3339, parse_RFC3339, in_years in *. set (l := t / second + zone t) in *.
  pose proof (days_of_date_of (l / 86400)) as Hd. unfold date_of in *. destruct (year_of (l / 86400)) as [y yday].
  destruct (month_of _ 1 yday) as [m d]. destruct Hd as (Hd & Hm & Hd2). cbn [fst] in Hy.
  rewrite (proj2 (Z.ltb_ge y 0)) by lia. rewrite bytes_of_bytes.
  pose proof (Z.mod_pos_bound l 86400 ltac:(lia)) as Hs. pose proof (Z.div_mod l 86400 ltac:(lia)) as Hl. set (s := l mod 86400) in *. clearbody s.
  assert (Hd3 : d < 100).
  { unfold daysIn, month_days in Hd2. assert (Hi : (Z.to_nat (m - 1) < 12)%nat) by lia.
    revert Hi Hd2. generalize (Z.to_nat (m - 1)). intros i Hi Hd2. destruct (is_leap y); do 12 (destruct i as [|i]; [cbn in Hd2; lia|]); lia. }
  rewrite year_num_pad4 by lia. cbn [mbind option_bind literal]. rewrite bool_decide_eq_true_2 by done. cbn [mbind option_bind].
  rewrite getnum_pad2 by lia. cbn [mbind option_bind]. rewrite option_guard_True by lia. cbn [mbind option_bind literal]. rewrite bool_decide_eq_true_2 by done. cbn [mbind option_bind].
  rewrite getnum_pad2 by lia. cbn [mbind option_bind literal]. rewrite bool_decide_eq_true_2 by done. cbn [mbind option_bind].
  rewrite getnum_pad2 by zdiv. cbn [mbind option_bind]. rewrite option_guard_True by zdiv. cbn [mbind option_bind literal]. rewrite bool_decide_eq_true_2 by done. cbn [mbind option_bind].
  rewrite getnum_pad2 by zdiv. cbn [mbind option_bind]. rewrite option_guard_True by zdiv. cbn [mbind option_bind literal]. rewrite bool_decide_eq_true_2 by done. cbn [mbind option_bind].
  rewrite getnum_pad2 by zdiv. cbn [mbind option_bind]. rewrite option_guard_True by zdiv. cbn [mbind option_bind].
  assert (Hf : fraction (zone_text (zone t)) = (0, zone_text (zone t))).
  { destruct (zone_text_start (zone t) Hz) as (c & l' & -> & H1 & H2). unfold fraction. destruct l'; [done|]. by rewrite !bool_decide_eq_false_2. }
  rewrite Hf, zone_num_text by done. cbn [mbind option_bind]. rewrite option_guard_True by done. cbn [mbind option_bind]. rewrite option_guard_True by done. cbn [mbind option_bind].
  f_equal. rewrite Hd. assert (s / 3600 * 3600 + s / 60 mod 60 * 60 + s mod 60 = s) by zdiv. unfold l in *. nia.
Qed.

Example format_utc : format_RFC3339 (λ _, 0) 63838368000500000000 = "2023-12-17T00:00:00Z"%string.
Proof. vm_compute. reflexivity. Qed.
Example format_zone : format_RFC3339 (λ _, -19800) 63838368000500000000 = "2023-12-16T18:30:00-05:30"%string.
Proof. vm_compute. reflexivity. Qed.
Example parse_fraction : parse_RFC3339 "2024-02-29T1:02:03,25+02:00" = Some ((days_of_date 2024 2 29 * 86400 - 3600 + 123) * second + 250000000).
Proof. vm_compute. reflexivity. Qed.
Example parse_no_leap : parse_RFC3339 "2023-02-29T01:02:03Z" = None.
Proof. vm_compute. reflexivity. Qed.
