(* ===== verification/Values.v ===== *)
(** * Value objects of the domain (internal/joblet/domain/values)

    CPU percentages and core sets, memory sizes, I/O bandwidths, identifiers
    and collections.  A value object is a record of its private field; a
    constructor returns [Ok] of it or the error it reports. *)

From S2P Require Import Prelude GoStrings.
From Stdlib Require Import Ascii String.

Local Open Scope Z_scope.

(** ** CPU percentages *)

(** [src/internal/joblet/domain/values/cpu.go:10-12 CPUPercentage] *)
Record CPUPercentage := { cpu_value : Z }.

Inductive cpu_error := CPUNegative (p : Z) | CPUTooHigh (p : Z).

(** [src/internal/joblet/domain/values/cpu.go:15-24 NewCPUPercentage] *)
Definition NewCPUPercentage (percent : Z) : result cpu_error CPUPercentage :=
  if percent <? 0 then Err (CPUNegative percent)
  else if percent >? 10000 then Err (CPUTooHigh percent)
  else Ok {| cpu_value := percent |}.

(** [src/internal/joblet/domain/values/cpu.go:37-39 CPUPercentage.String] *)
Definition cpu_String (c : CPUPercentage) : string := Itoa (cpu_value c) +:+ "%".

(** [src/internal/joblet/domain/values/cpu.go:42-44 CPUPercentage.IsUnlimited] *)
Definition cpu_IsUnlimited (c : CPUPercentage) : bool := cpu_value c =? 0.

(** ** CPU core sets *)

(** [src/internal/joblet/domain/values/cpu.go:47-50 CPUCoreSet] *)
Record CPUCoreSet := { core_list : list Z; core_spec : string }.

Inductive core_error :=
| RangeFormat (spec : string)
| RangeNumbers (spec : string)
| NegativeCore
| StartAfterEnd
| CoreNumber (s : string)
| DuplicateCore (core : Z).

(** The loop [for i := start; i <= end; i++] on 64-bit integers: [None] when
    [fuel] iterations do not end it.
    [src/internal/joblet/domain/values/cpu.go:83-85 ParseCPUCoreSet] *)
Fixpoint range_loop (fuel : nat) (i e : Z) (cores : list Z) : option (list Z) :=
  match fuel with
  | O => None
  | S fuel => if i <=? e then range_loop fuel (wrap64 (i + 1)) e (cores ++ [i]) else Some cores
  end.

(** The list format: one [Atoi] per comma-separated field.
    [src/internal/joblet/domain/values/cpu.go:88-97 ParseCPUCoreSet] *)
Fixpoint parse_core_list (fields : list string) (cores : list Z) : result core_error (list Z) :=
  match fields with
  | [] => Ok cores
  | coreStr :: fields =>
      match Atoi (TrimSpace coreStr) with
      | None => Err (CoreNumber coreStr)
      | Some core =>
          if core <? 0 then Err NegativeCore else parse_core_list fields (cores ++ [core])
      end
  end.

(** [src/internal/joblet/domain/values/cpu.go:101-107 ParseCPUCoreSet] *)
Fixpoint check_duplicates (seen : gset Z) (cores : list Z) : result core_error unit :=
  match cores with
  | [] => Ok tt
  | core :: cores =>
      if decide (core ∈ seen) then Err (DuplicateCore core)
      else check_duplicates ({[core]} ∪ seen) cores
  end.

(** [src/internal/joblet/domain/values/cpu.go:54-110 ParseCPUCoreSet] *)
Definition ParseCPUCoreSet (fuel : nat) (spec : string) : option (result core_error CPUCoreSet) :=
  if bool_decide (spec = ""%string) then Some (Ok {| core_list := []; core_spec := "" |}) else
  let finish (cores : list Z) : result core_error CPUCoreSet :=
    _ ← check_duplicates ∅ cores; Ok {| core_list := cores; core_spec := spec |} in
  if contains_byte spec "-" then
    match Split spec "-" with
    | [a; b] =>
        match Atoi (TrimSpace a), Atoi (TrimSpace b) with
        | Some s, Some e =>
            if (s <? 0) || (e <? 0) then Some (Err NegativeCore)
            else if s >? e then Some (Err StartAfterEnd)
            else cores ← range_loop fuel s e []; Some (finish cores)
        | _, _ => Some (Err (RangeNumbers spec))
        end
    | _ => Some (Err (RangeFormat spec))
    end
  else Some (cores ← parse_core_list (Split spec ",") []; finish cores).

(** [src/internal/joblet/domain/values/cpu.go:123-125 CPUCoreSet.IsEmpty] *)
Definition cores_IsEmpty (c : CPUCoreSet) : bool := bool_decide (core_list c = []).

(** [src/internal/joblet/domain/values/cpu.go:128-135 CPUCoreSet.Contains] *)
Definition cores_Contains (c : CPUCoreSet) (core : Z) : bool :=
  existsb (λ d, d =? core) (core_list c).

(** The first core the system does not have.
    [src/internal/joblet/domain/values/cpu.go:143-150 CPUCoreSet.Validate] *)
Definition cores_Validate (c : CPUCoreSet) (availableCores : Z) : result Z unit :=
  match List.find (λ core, core >=? availableCores) (core_list c) with
  | Some core => Err core
  | None => Ok tt
  end.

(** ** Sizes with units

    [MemorySize] and [Bandwidth] print with the same loop and the same
    [%.1f]. *)

Definition unit_size : Z := 1024.

(** [for n := b / unit; n >= unit; n /= unit { div *= unit; exp++ }].
    [src/internal/joblet/domain/values/memory.go:70-74 MemorySize.String] *)
Fixpoint unit_loop (fuel : nat) (n div exp : Z) : option (Z * Z) :=
  match fuel with
  | O => None
  | S fuel =>
      if n >=? unit_size then unit_loop fuel (Z.quot n unit_size) (wrap64 (div * unit_size)) (exp + 1)
      else Some (div, exp)
  end.

(** Rounding of [n / d] to an integer, ties to even. *)
Definition round_half_even (n d : Z) : Z :=
  let q := n / d in
  let r := n mod d in
  if 2 * r <? d then q
  else if d <? 2 * r then q + 1
  else if Z.even q then q else q + 1.

(** [float64(z)]: rounding to a 53-bit significand. *)
Definition float64_of_int (z : Z) : Z :=
  let e := Z.max 0 (Z.log2 (Z.abs z) - 52) in
  round_half_even z (2 ^ e) * 2 ^ e.

(** [%.1f] of [float64(b) / float64(div)]: the division by a power of two is
    exact, so the decimal rounding is the only other one. *)
Definition format_tenths (b div : Z) : string :=
  let t := round_half_even (10 * float64_of_int b) div in
  Itoa (t / 10) +:+ "." +:+ Itoa (t mod 10).

(** ["KMGTPE"[exp]]: [None] is the out-of-range panic. *)
Definition unit_letter (exp : Z) : option ascii :=
  if (0 <=? exp) && (exp <? 6) then String.get (Z.to_nat exp) "KMGTPE" else None.

Definition format_scaled (b : Z) (suffix : string) : option string :=
  '(div, exp) ← unit_loop 8 (Z.quot b unit_size) unit_size 0;
  c ← unit_letter exp;
  Some (format_tenths b div +:+ " " +:+ String c suffix).

(** ** Memory sizes *)

(** [src/internal/joblet/domain/values/memory.go:8-10 MemorySize] *)
Record MemorySize := { mem_bytes : Z }.

Inductive mem_error := MemNegative (n : Z) | MemUnderflow | MemBelowMin | MemAboveMax.

(** [src/internal/joblet/domain/values/memory.go:23-28 NewMemorySize] *)
Definition NewMemorySize (bytes : Z) : result mem_error MemorySize :=
  if bytes <? 0 then Err (MemNegative bytes) else Ok {| mem_bytes := bytes |}.

(** [src/internal/joblet/domain/values/memory.go:31-37 NewMemorySizeFromMB] *)
Definition NewMemorySizeFromMB (mb : Z) : result mem_error MemorySize :=
  if mb <? 0 then Err (MemNegative mb)
  else Ok {| mem_bytes := wrap64 (wrap64 (mb * 1024) * 1024) |}.

(** [src/internal/joblet/domain/values/memory.go:45-47 MemorySize.Megabytes] *)
Definition Megabytes (m : MemorySize) : Z := wrap32 (Z.quot (mem_bytes m) (1024 * 1024)).

(** [src/internal/joblet/domain/values/memory.go:55-57 MemorySize.IsUnlimited] *)
Definition mem_IsUnlimited (m : MemorySize) : bool := mem_bytes m =? 0.

(** [src/internal/joblet/domain/values/memory.go:60-77 MemorySize.String] *)
Definition mem_String (m : MemorySize) : option string :=
  if mem_bytes m =? 0 then Some "0"%string
  else if mem_bytes m <? unit_size then Some (Itoa (mem_bytes m) +:+ " B")
  else format_scaled (mem_bytes m) "B".

(** [src/internal/joblet/domain/values/memory.go:80-82 MemorySize.Add] *)
Definition mem_Add (m other : MemorySize) : MemorySize :=
  {| mem_bytes := wrap64 (mem_bytes m + mem_bytes other) |}.

(** [src/internal/joblet/domain/values/memory.go:85-90 MemorySize.Subtract] *)
Definition mem_Subtract (m other : MemorySize) : result mem_error MemorySize :=
  if mem_bytes other >? mem_bytes m then Err MemUnderflow
  else Ok {| mem_bytes := wrap64 (mem_bytes m - mem_bytes other) |}.

(** [src/internal/joblet/domain/values/memory.go:93-101 MemorySize.Validate] *)
Definition mem_Validate (m min max : MemorySize) : result mem_error unit :=
  if mem_bytes m <? mem_bytes min then Err MemBelowMin
  else if (mem_bytes max >? 0) && (mem_bytes m >? mem_bytes max) then Err MemAboveMax
  else Ok tt.

(** ** Bandwidths *)

(** [src/internal/joblet/domain/values/bandwidth.go:8-10 Bandwidth] *)
Record Bandwidth := { bw_bytes : Z }.

Inductive bw_error := BwNegative (n : Z) | BwBelowMin | BwAboveMax.

(** [src/internal/joblet/domain/values/bandwidth.go:23-28 NewBandwidth] *)
Definition NewBandwidth (bps : Z) : result bw_error Bandwidth :=
  if bps <? 0 then Err (BwNegative bps) else Ok {| bw_bytes := bps |}.

(** [src/internal/joblet/domain/values/bandwidth.go:36-38 Bandwidth.IsUnlimited] *)
Definition bw_IsUnlimited (b : Bandwidth) : bool := bw_bytes b =? 0.

(** [src/internal/joblet/domain/values/bandwidth.go:41-58 Bandwidth.String] *)
Definition bw_String (b : Bandwidth) : option string :=
  if bw_bytes b =? 0 then Some "unlimited"%string
  else if bw_bytes b <? unit_size then Some (Itoa (bw_bytes b) +:+ " B/s")
  else format_scaled (bw_bytes b) "B/s".

(** [src/internal/joblet/domain/values/bandwidth.go:61-69 Bandwidth.Validate] *)
Definition bw_Validate (b min max : Bandwidth) : result bw_error unit :=
  if bw_bytes b <? bw_bytes min then Err BwBelowMin
  else if (bw_bytes max >? 0) && (bw_bytes b >? bw_bytes max) then Err BwAboveMax
  else Ok tt.

(** ** Identifiers *)

Inductive id_error := IdEmpty | IdTooShort | IdTooLong | IdFormat | PidNegative | PidZero.

(** [src/internal/joblet/domain/values/identifiers.go:10-12 JobUUID] *)
Record JobUUID := { uuid_value : string }.

(** [src/internal/joblet/domain/values/identifiers.go:15-26 NewJobUUID] *)
Definition NewJobUUID (id : string) : result id_error JobUUID :=
  if bool_decide (TrimSpace id = ""%string) then Err IdEmpty
  else if len id <? 8 then Err IdTooShort
  else Ok {| uuid_value := id |}.

(** [src/internal/joblet/domain/values/identifiers.go:44-46 ProcessID] *)
Record ProcessID := { pid_value : Z }.

(** [src/internal/joblet/domain/values/identifiers.go:49-57 NewProcessID] *)
Definition NewProcessID (pid : Z) : result id_error ProcessID :=
  if pid <? 0 then Err PidNegative
  else if pid =? 0 then Err PidZero
  else Ok {| pid_value := pid |}.

(** [^[a-zA-Z0-9]([a-zA-Z0-9\-]*[a-zA-Z0-9])?$] *)
Definition network_name_re (l : list ascii) : bool :=
  match l, last l with
  | c :: _, Some d =>
      is_alnum c && is_alnum d && forallb (λ c, is_alnum c || bool_decide (c = "-"%char)) l
  | _, _ => false
  end.

(** [^[a-zA-Z0-9][a-zA-Z0-9_.-]*$] *)
Definition volume_name_re (l : list ascii) : bool :=
  match l with
  | c :: l =>
      is_alnum c &&
      forallb (λ c, is_alnum c || bool_decide (c ∈ ["_"%char; "."%char; "-"%char])) l
  | [] => false
  end.

(** [src/internal/joblet/domain/values/identifiers.go:75-77 NetworkName] *)
Record NetworkName := { net_value : string }.

(** [src/internal/joblet/domain/values/identifiers.go:80-96 NewNetworkName] *)
Definition NewNetworkName (name : string) : result id_error NetworkName :=
  let name := TrimSpace name in
  if bool_decide (name = ""%string) then Err IdEmpty
  else if negb (network_name_re (bytes name)) then Err IdFormat
  else if len name >? 63 then Err IdTooLong
  else Ok {| net_value := name |}.

(** [src/internal/joblet/domain/values/identifiers.go:109-111 NetworkName.IsIsolated] *)
Definition net_IsIsolated (n : NetworkName) : bool := bool_decide (net_value n = "isolated"%string).

(** [src/internal/joblet/domain/values/identifiers.go:114-116 VolumeName] *)
Record VolumeName := { vol_value : string }.

(** [src/internal/joblet/domain/values/identifiers.go:119-135 NewVolumeName] *)
Definition NewVolumeName (name : string) : result id_error VolumeName :=
  let name := TrimSpace name in
  if bool_decide (name = ""%string) then Err IdEmpty
  else if negb (volume_name_re (bytes name)) then Err IdFormat
  else if len name >? 128 then Err IdTooLong
  else Ok {| vol_value := name |}.

(** [src/internal/joblet/domain/values/identifiers.go:148-150 RuntimeSpec] *)
Record RuntimeSpec := { rt_value : string }.

(** [src/internal/joblet/domain/values/identifiers.go:153-165 NewRuntimeSpec] *)
Definition NewRuntimeSpec (spec : string) : result id_error RuntimeSpec :=
  let spec := TrimSpace spec in
  if bool_decide (spec = ""%string) then Ok {| rt_value := "" |}
  else if len spec >? 256 then Err IdTooLong
  else Ok {| rt_value := spec |}.

(** [src/internal/joblet/domain/values/identifiers.go:178-180 RuntimeSpec.IsEmpty] *)
Definition rt_IsEmpty (r : RuntimeSpec) : bool := bool_decide (rt_value r = ""%string).

(** [src/internal/joblet/domain/values/identifiers.go:183-190 RuntimeSpec.Language] *)
Definition Language (r : RuntimeSpec) : string :=
  if rt_IsEmpty r then "" else
  match Split (rt_value r) ":" with p :: _ => p | [] => "" end.

(** [src/internal/joblet/domain/values/identifiers.go:193-203 RuntimeSpec.Version] *)
Definition Version (r : RuntimeSpec) : string :=
  if rt_IsEmpty r then "" else
  match Split (rt_value r) ":" with _ :: p :: _ => p | _ => "" end.

(** ** Collections *)

(** [src/internal/joblet/domain/values/collections.go:10-12 VolumeNames] *)
Record VolumeNames := { vn_volumes : list VolumeName }.

(** [src/internal/joblet/domain/values/collections.go:15-27 NewVolumeNames] *)
Fixpoint NewVolumeNames_loop (names : list string) (volumes : list VolumeName)
    : result (string * id_error) VolumeNames :=
  match names with
  | [] => Ok {| vn_volumes := volumes |}
  | name :: names =>
      match NewVolumeName name with
      | Err e => Err (name, e)
      | Ok vol => NewVolumeNames_loop names (volumes ++ [vol])
      end
  end.
Definition NewVolumeNames (names : list string) := NewVolumeNames_loop names [].

(** [src/internal/joblet/domain/values/collections.go:47-53 VolumeNames.ToStringSlice] *)
Definition ToStringSlice (vn : VolumeNames) : list string := vol_value <$> vn_volumes vn.

(** [src/internal/joblet/domain/values/collections.go:67-79 VolumeNames.Validate] *)
Fixpoint vn_Validate_loop (seen : gset string) (volumes : list VolumeName) : result string unit :=
  match volumes with
  | [] => Ok tt
  | vol :: volumes =>
      if decide (vol_value vol ∈ seen) then Err (vol_value vol)
      else vn_Validate_loop ({[vol_value vol]} ∪ seen) volumes
  end.
Definition vn_Validate (vn : VolumeNames) := vn_Validate_loop ∅ (vn_volumes vn).

(** [src/internal/joblet/domain/values/collections.go:82-84 Environment] *)
Record Environment := { env_variables : gmap string string }.

(** [src/internal/joblet/domain/values/collections.go:87-94 NewEnvironment] *)
Definition NewEnvironment (vars : gmap string string) : Environment := {| env_variables := vars |}.

(** [src/internal/joblet/domain/values/collections.go:97-103 Environment.ToMap] *)
Definition env_ToMap (e : Environment) : gmap string string := env_variables e.

(** ["KEY=VALUE"] entries, sorted as byte strings.
    [src/internal/joblet/domain/values/collections.go:106-113 Environment.ToSlice] *)
Definition env_entry (kv : string * string) : string := kv.1 +:+ "=" +:+ kv.2.
Definition string_less (s t : string) : bool :=
  match String.compare s t with Lt => true | _ => false end.
Definition env_ToSlice `{!SortSlice} (e : Environment) : list string :=
  sort_slice string_less (env_entry <$> map_to_list (env_variables e)).

(** ** Core sets: what a successful parse returns *)

Lemma check_duplicates_ok seen cores :
  check_duplicates seen cores = Ok tt ↔ NoDup cores ∧ Forall (.∉ seen) cores.
Proof.
  revert seen. induction cores as [|c cores IH]; intros seen; simpl.
  { split; [|done]. intros _. split; constructor. }
  case_decide as Hc.
  - split; [done|]. intros [_ Hf]. inversion Hf. done.
  - rewrite IH, NoDup_cons, Forall_cons, !Forall_forall. set_solver.
Qed.

Definition core_ok (c : Z) : Prop := 0 ≤ c ≤ max_int 64.

Lemma parse_core_list_ok fields cores cores' :
  parse_core_list fields cores = Ok cores' → Forall core_ok cores → Forall core_ok cores'.
Proof.
  revert cores. induction fields as [|f fields IH]; simpl; intros cores H Hc; [by simplify_eq|].
  destruct (Atoi _) as [z|] eqn:Hz; [|done]. apply Atoi_range in Hz.
  destruct (Z.ltb_spec z 0); [done|]. apply (IH _ H).
  apply Forall_app. split; [done|]. constructor; [|constructor].
  unfold core_ok, in_int in *. lia.
Qed.

(** The numbers [a], [a+1], ..., [b]. *)
Definition seqZ_to (a b : Z) : list Z := seqZ a (b - a + 1).

Lemma range_loop_spec fuel i e acc : 0 ≤ i → i ≤ e + 1 → e < max_int 64 →
  e - i + 1 < Z.of_nat fuel →
  range_loop fuel i e acc = Some (acc ++ seqZ_to i e).
Proof.
  revert i acc. induction fuel as [|fuel IH]; intros i acc Hi Hie He Hf; [lia|].
  cbn [range_loop]. destruct (Z.leb_spec i e) as [Hle|Hle].
  - rewrite wrap_id; [|lia|].
    + rewrite IH by lia. unfold seqZ_to.
      rewrite (seqZ_cons i) by lia. rewrite <- app_assoc. simpl.
      do 2 f_equal. f_equal. f_equal; lia.
    + unfold in_int, min_int, max_int in *. lia.
  - unfold seqZ_to. rewrite seqZ_nil by lia. by rewrite app_nil_r.
Qed.

Lemma range_loop_none fuel i acc : 0 ≤ i ≤ max_int 64 ∨ min_int 64 ≤ i ≤ 0 →
  range_loop fuel i (max_int 64) acc = None.
Proof.
  intros Hi. assert (in_int64 i) as Hi' by (unfold in_int, min_int, max_int in *; lia).
  clear Hi. revert i acc Hi'. induction fuel as [|fuel IH]; intros i acc Hi; [done|].
  cbn [range_loop]. rewrite (proj2 (Z.leb_le _ _)) by apply Hi.
  apply IH. by apply wrap_in_int.
Qed.

Lemma range_loop_ok fuel i e acc cores : 0 ≤ i → i ≤ e + 1 → e ≤ max_int 64 →
  range_loop fuel i e acc = Some cores → cores = acc ++ seqZ_to i e.
Proof.
  revert i acc. induction fuel as [|fuel IH]; intros i acc Hi Hie He H; [done|].
  cbn [range_loop] in H. destruct (Z.leb_spec i e) as [Hle|Hle].
  - destruct (decide (e = max_int 64)) as [->|Hne].
    { rewrite range_loop_none in H; [done|].
      pose proof (wrap_in_int 64 (i + 1) ltac:(lia)) as [? ?].
      destruct (decide (0 ≤ wrap64 (i + 1))); [left|right]; lia. }
    rewrite wrap_id in H; [|lia|unfold in_int, min_int, max_int in *; lia].
    apply IH in H as ->; [|lia..]. unfold seqZ_to.
    rewrite (seqZ_cons i) by lia. rewrite <- app_assoc. simpl.
    do 2 f_equal. f_equal; lia.
  - simplify_eq. unfold seqZ_to. rewrite seqZ_nil by lia. by rewrite app_nil_r.
Qed.

Lemma seqZ_to_ok a b : 0 ≤ a → b ≤ max_int 64 → Forall core_ok (seqZ_to a b).
Proof.
  intros Ha Hb. apply Forall_forall. intros x [? ?]%elem_of_seqZ. unfold core_ok. lia.
Qed.

(** A successful parse of a core specification returns a list without
    duplicates of non-negative 64-bit core numbers and keeps the text it was
    given. *)
Theorem ParseCPUCoreSet_wf fuel spec c :
  ParseCPUCoreSet fuel spec = Some (Ok c) →
  NoDup (core_list c) ∧ Forall core_ok (core_list c) ∧ core_spec c = spec.
Proof.
  unfold ParseCPUCoreSet. case_bool_decide as Hs.
  { intros [= <-]. subst. split_and!; [constructor|constructor|done]. }
  assert (Hfin : ∀ cores, Forall core_ok cores →
    (_ ← check_duplicates ∅ cores; Ok {| core_list := cores; core_spec := spec |}) = Ok c →
    NoDup (core_list c) ∧ Forall core_ok (core_list c) ∧ core_spec c = spec).
  { intros cores Hok ([] & [Hnd _]%check_duplicates_ok & [= <-])%bind_ok. done. }
  destruct (contains_byte spec "-").
  - destruct (Split spec "-") as [|a [|b [|? ?]]]; try done.
    destruct (Atoi (TrimSpace a)) as [s|]; [|done].
    destruct (Atoi (TrimSpace b)) as [e|] eqn:He; [|done]. apply Atoi_range in He as [_ He].
    destruct (Z.ltb_spec s 0), (Z.ltb_spec e 0); try done. simpl.
    destruct (Z.gtb_spec s e); [done|].
    destruct (range_loop fuel s e []) as [cores|] eqn:Hr; [|done].
    intros [= Hok]. apply (Hfin cores); [|done].
    apply range_loop_ok in Hr as ->; [|lia..]. by apply seqZ_to_ok.
  - intros [= (cores & Hp & Hok)%bind_ok]. apply (Hfin cores); [|done].
    by eapply parse_core_list_ok.
Qed.

Lemma ParseCPUCoreSet_wf_witness :
  ParseCPUCoreSet 0 "4,1, 2" = Some (Ok {| core_list := [4; 1; 2]; core_spec := "4,1, 2" |}) ∧
  NoDup [4; 1; 2].
Proof.
  split; [vm_compute; reflexivity|].
  apply (ParseCPUCoreSet_wf 0 "4,1, 2" {| core_list := [4; 1; 2]; core_spec := "4,1, 2" |}).
  vm_compute. reflexivity.
Defined.

Lemma Itoa_bytes n : 0 ≤ n → bytes (Itoa n) = digits_of n.
Proof. intros. rewrite Itoa_nonneg by done. apply bytes_of_bytes. Qed.

Lemma parse_core_list_Itoa cores acc : Forall core_ok cores →
  parse_core_list (Itoa <$> cores) acc = Ok (acc ++ cores).
Proof.
  intros Hc. revert acc. induction Hc as [|c cores Hc _ IH]; intros acc; simpl.
  { by rewrite app_nil_r. }
  assert (in_int64 c) by (unfold core_ok, in_int, min_int in *; lia).
  rewrite TrimSpace_Itoa, Atoi_Itoa by (done || apply Hc).
  rewrite (proj2 (Z.ltb_ge c 0)) by apply Hc. by rewrite IH, <- app_assoc.
Qed.

Lemma Itoa_words sep cores : is_digit sep = false → Forall core_ok cores →
  Forall (λ w, sep ∉ w) (bytes <$> (Itoa <$> cores)).
Proof.
  intros Hs Hc. rewrite !Forall_fmap. eapply Forall_impl; [done|]. intros c Hc0. simpl.
  rewrite Itoa_bytes by apply Hc0. apply not_digit_not_in; [|done].
  apply digits_of_digits, Hc0.
Qed.

Lemma elem_of_join c sep ws :
  c ≠ sep → Forall (λ w, c ∉ w) ws → c ∉ join_bytes sep ws.
Proof.
  intros Hc Hws. induction Hws as [|w ws Hw Hws IH]; [simpl; set_solver|].
  destruct ws as [|w' ws]; [done|].
  change (join_bytes sep (w :: w' :: ws)) with (w ++ sep :: join_bytes sep (w' :: ws)).
  set_solver.
Qed.

Lemma Split_Join sep ws : ws ≠ [] → Forall (λ w, sep ∉ w) (bytes <$> ws) →
  Split (Join ws sep) sep = ws.
Proof.
  intros Hne Hw. unfold Split, Join. rewrite bytes_of_bytes, split_bytes_join; [|by destruct ws|done].
  rewrite <- list_fmap_compose. rewrite <- (list_fmap_id ws) at 2.
  apply list_fmap_ext. intros i s _. apply of_bytes_bytes.
Qed.

(** Printing a duplicate-free list of cores with commas and parsing the text
    gives the list back. *)
Theorem ParseCPUCoreSet_roundtrip cores fuel :
  cores ≠ [] → NoDup cores → Forall core_ok cores →
  let spec := Join (Itoa <$> cores) "," in
  ParseCPUCoreSet fuel spec = Some (Ok {| core_list := cores; core_spec := spec |}).
Proof.
  intros Hne Hnd Hc spec. unfold ParseCPUCoreSet.
  assert (bytes spec = join_bytes "," (bytes <$> (Itoa <$> cores))) as Hb
    by apply bytes_of_bytes.
  rewrite bool_decide_eq_false_2; last first.
  { intros E. rewrite E in Hb. destruct cores as [|c cores]; [done|].
    inversion Hc as [|? ? Hc0 _]; subst. simpl in Hb. rewrite Itoa_bytes in Hb by apply Hc0.
    pose proof (digits_of_nonempty c).
    case_match; destruct (digits_of c); done. }
  rewrite contains_byte_spec, bool_decide_eq_false_2; last first.
  { rewrite Hb. apply elem_of_join; [done|]. by apply Itoa_words. }
  change (Split spec ",") with (Split (Join (Itoa <$> cores) ",") ",").
  rewrite Split_Join; [|by destruct cores|by apply Itoa_words].
  rewrite parse_core_list_Itoa by done. cbn [mbind result_bind app].
  rewrite (proj2 (check_duplicates_ok ∅ cores)); [done|].
  split; [done|]. apply Forall_forall. set_solver.
Qed.

Lemma ParseCPUCoreSet_roundtrip_witness :
  ParseCPUCoreSet 0 "0,2,17" =
    Some (Ok {| core_list := [0; 2; 17]; core_spec := "0,2,17" |}).
Proof.
  refine (ParseCPUCoreSet_roundtrip [0; 2; 17] 0 _ _ _);
    [discriminate|apply (bool_decide_unpack _); vm_compute; exact I
    |apply (bool_decide_unpack _); vm_compute; exact I].
Defined.

Lemma check_duplicates_seqZ a n : check_duplicates ∅ (seqZ a n) = Ok tt.
Proof.
  apply check_duplicates_ok. split; [apply NoDup_seqZ|]. apply Forall_forall. set_solver.
Qed.

Lemma ParseCPUCoreSet_range_eq fuel a b : core_ok a → core_ok b → a ≤ b →
  let spec := Itoa a +:+ "-" +:+ Itoa b in
  ParseCPUCoreSet fuel spec =
    cores ← range_loop fuel a b [];
    Some (_ ← check_duplicates ∅ cores; Ok {| core_list := cores; core_spec := spec |}).
Proof.
  intros Ha Hb Hab spec. unfold ParseCPUCoreSet.
  assert (bytes spec = digits_of a ++ "-"%char :: digits_of b) as Hs.
  { unfold spec. rewrite !bytes_app, !Itoa_bytes by (apply Ha || apply Hb). done. }
  assert (∀ x, core_ok x → "-"%char ∉ digits_of x) as Hdash.
  { intros x Hx. apply not_digit_not_in; [apply digits_of_digits, Hx|done]. }
  assert (∀ x, core_ok x → Atoi (TrimSpace (Itoa x)) = Some x) as Hatoi.
  { intros x Hx. rewrite TrimSpace_Itoa by apply Hx. apply Atoi_Itoa.
    unfold core_ok, in_int, min_int in *. lia. }
  rewrite bool_decide_eq_false_2; last first.
  { intros E. rewrite E in Hs. destruct (digits_of a); done. }
  rewrite contains_byte_spec, bool_decide_eq_true_2 by (rewrite Hs; set_solver).
  assert (Split spec "-" = [Itoa a; Itoa b]) as ->.
  { unfold Split. rewrite Hs, split_bytes_app by auto.
    rewrite split_bytes_word by auto. simpl.
    by rewrite !Itoa_nonneg by (apply Ha || apply Hb). }
  rewrite !Hatoi by done.
  rewrite (proj2 (Z.ltb_ge a 0)), (proj2 (Z.ltb_ge b 0)) by (apply Ha || apply Hb).
  destruct (Z.gtb_spec a b); [lia|]. done.
Qed.

(** A range "a-b" below the largest 64-bit integer parses, in one more
    iteration than it has cores, to exactly the cores a, a+1, ..., b, and never
    trips over the duplicate check; a range that ends at the largest integer
    never finishes, because the loop counter wraps to a negative number. *)
Theorem ParseCPUCoreSet_range a b : core_ok a → core_ok b → a ≤ b →
  let spec := Itoa a +:+ "-" +:+ Itoa b in
  (b < max_int 64 → ∀ fuel, b - a + 1 < Z.of_nat fuel →
    ParseCPUCoreSet fuel spec = Some (Ok {| core_list := seqZ_to a b; core_spec := spec |})) ∧
  (b = max_int 64 → ∀ fuel, ParseCPUCoreSet fuel spec = None).
Proof.
  intros Ha Hb Hab spec. split.
  - intros Hlt fuel Hf. unfold spec. rewrite ParseCPUCoreSet_range_eq by done.
    rewrite range_loop_spec by (unfold core_ok in *; lia). simpl. unfold seqZ_to.
    by rewrite check_duplicates_seqZ.
  - intros -> fuel. unfold spec. rewrite ParseCPUCoreSet_range_eq by done.
    by rewrite range_loop_none by (unfold core_ok in *; lia).
Qed.

Lemma ParseCPUCoreSet_range_witness :
  ParseCPUCoreSet 6 "2-5" = Some (Ok {| core_list := [2; 3; 4; 5]; core_spec := "2-5" |}) ∧
  (∀ fuel, ParseCPUCoreSet fuel "0-9223372036854775807" = None).
Proof.
  split.
  - refine (proj1 (ParseCPUCoreSet_range 2 5 _ _ _) _ 6%nat _); vm_compute; intuition congruence.
  - refine (proj2 (ParseCPUCoreSet_range 0 9223372036854775807 _ _ _) _);
      vm_compute; intuition congruence.
Defined.

(** ** Printing sizes *)

Lemma unit_loop_spec fuel n k : 0 ≤ k → 1 ≤ n → n < 1024 ^ (6 - k) →
  7 ≤ Z.of_nat fuel + k →
  ∃ e, unit_loop fuel n (1024 ^ (k + 1)) k = Some (1024 ^ (e + 1), e) ∧ k ≤ e < 6 ∧
    1024 ^ (e - k) ≤ n < 1024 ^ (e - k + 1).
Proof.
  revert n k. induction fuel as [|fuel IH]; intros n k Hk Hn Hlt Hf.
  { rewrite Z.pow_neg_r in Hlt by lia. lia. }
  cbn [unit_loop]. unfold unit_size. destruct (Z.geb_spec n 1024) as [Hge|Hge]; last first.
  { assert (k < 6).
    { destruct (decide (k = 6)) as [->|]; [simpl in Hlt; lia|].
      destruct (decide (6 < k)); [rewrite Z.pow_neg_r in Hlt by lia; lia|lia]. }
    exists k. split_and!; [done|lia|lia|rewrite Z.sub_diag; simpl; lia|].
    rewrite Z.sub_diag. simpl. lia. }
  assert (k < 5) as Hk5.
  { destruct (decide (k = 5)) as [->|]; [simpl in Hlt; lia|].
    destruct (decide (k = 6)) as [->|]; [simpl in Hlt; lia|].
    destruct (decide (6 < k)); [rewrite Z.pow_neg_r in Hlt by lia; lia|lia]. }
  rewrite Z.quot_div_nonneg by lia.
  replace (1024 ^ (k + 1) * 1024) with (1024 ^ (k + 1 + 1))
    by (rewrite (Z.pow_add_r 1024 (k + 1) 1) by lia; lia).
  rewrite wrap_id; [|lia|]; last first.
  { assert (0 < 1024 ^ (k + 1 + 1) ≤ 1024 ^ 6).
    { split; [apply Z.pow_pos_nonneg; lia|apply Z.pow_le_mono_r; lia]. }
    unfold in_int, min_int, max_int. change (1024 ^ 6) with (2 ^ 60) in *. lia. }
  replace (6 - k) with (Z.succ (6 - (k + 1))) in Hlt by lia.
  rewrite Z.pow_succ_r in Hlt by lia.
  destruct (IH (n / 1024) (k + 1)) as (e & He & Hke & Hn1 & Hn2); [lia| | |lia|].
  { apply Z.div_le_lower_bound; lia. }
  { apply Z.div_lt_upper_bound; lia. }
  exists e. split_and!; [done|lia|lia| |].
  - replace (e - k) with (Z.succ (e - (k + 1))) by lia. rewrite Z.pow_succ_r by lia.
    pose proof (Z.mul_div_le n 1024). lia.
  - replace (e - k + 1) with (Z.succ (e - (k + 1) + 1)) by lia. rewrite Z.pow_succ_r by lia.
    pose proof (Z.mul_succ_div_gt n 1024). lia.
Qed.

(** The unit search of the two size printers is safe on every 64-bit size of
    at least one unit: the loop ends, the divisor it builds is the power of 1024
    just below the size and does not overflow, and the unit index stays inside
    "KMGTPE". *)
Theorem size_unit_in_bounds b : unit_size ≤ b ≤ max_int 64 →
  ∃ div exp, unit_loop 8 (Z.quot b unit_size) unit_size 0 = Some (div, exp) ∧
    0 ≤ exp < 6 ∧ div = unit_size ^ (exp + 1) ∧ div ≤ b < div * unit_size ∧
    is_Some (mem_String {| mem_bytes := b |}) ∧ is_Some (bw_String {| bw_bytes := b |}).
Proof.
  unfold unit_size. intros [Hb1 Hb2]. rewrite Z.quot_div_nonneg by lia.
  destruct (unit_loop_spec 8 (b / 1024) 0) as (e & He & Hke & Hn1 & Hn2); try lia.
  { apply Z.div_le_lower_bound; lia. }
  { apply Z.div_lt_upper_bound; [lia|]. unfold max_int in *. lia. }
  rewrite Z.add_0_l, Z.pow_1_r in He. rewrite Z.sub_0_r in *.
  exists (1024 ^ (e + 1)), e. split_and!; [done|lia|lia|done| | | |].
  - rewrite Z.pow_add_r, Z.pow_1_r by lia. pose proof (Z.mul_div_le b 1024). nia.
  - rewrite Z.pow_add_r, Z.pow_1_r in * by lia. pose proof (Z.mul_succ_div_gt b 1024). nia.
  - unfold mem_String, format_scaled, unit_letter, unit_size. cbn [mem_bytes].
    rewrite Z.quot_div_nonneg, He by lia. cbn [mbind option_bind].
    rewrite (proj2 (Z.eqb_neq b 0)), (proj2 (Z.ltb_ge b 1024)) by lia.
    assert (e = 0 ∨ e = 1 ∨ e = 2 ∨ e = 3 ∨ e = 4 ∨ e = 5) as Hcases by lia.
    destruct_or! Hcases; subst e; eauto.
  - unfold bw_String, format_scaled, unit_letter, unit_size. cbn [bw_bytes].
    rewrite Z.quot_div_nonneg, He by lia. cbn [mbind option_bind].
    rewrite (proj2 (Z.eqb_neq b 0)), (proj2 (Z.ltb_ge b 1024)) by lia.
    assert (e = 0 ∨ e = 1 ∨ e = 2 ∨ e = 3 ∨ e = 4 ∨ e = 5) as Hcases by lia.
    destruct_or! Hcases; subst e; eauto.
Qed.

Lemma size_unit_in_bounds_witness :
  ∃ div exp, unit_loop 8 (Z.quot 1536 unit_size) unit_size 0 = Some (div, exp) ∧
    0 ≤ exp < 6 ∧ div = unit_size ^ (exp + 1) ∧ div ≤ 1536 < div * unit_size ∧
    is_Some (mem_String {| mem_bytes := 1536 |}) ∧ is_Some (bw_String {| bw_bytes := 1536 |}).
Proof. apply (size_unit_in_bounds 1536). vm_compute. intuition congruence. Defined.

(** A memory size built from a 32-bit count of megabytes never overflows and
    reads back as the same count. *)
Theorem MemorySizeFromMB_roundtrip mb m :
  in_int32 mb → NewMemorySizeFromMB mb = Ok m →
  mem_bytes m = mb * 1024 * 1024 ∧ in_int64 (mem_bytes m) ∧ Megabytes m = mb.
Proof.
  unfold NewMemorySizeFromMB, Megabytes, in_int, min_int, max_int. intros Hmb H.
  destruct (Z.ltb_spec mb 0) as [|Hpos]; [done|]. simplify_eq/=.
  assert (∀ z, 0 ≤ z < 2 ^ 63 → wrap64 z = z) as Hw.
  { intros z Hz. apply wrap_id; [lia|]. unfold in_int, min_int, max_int. lia. }
  rewrite (Hw (mb * 1024)), Hw by lia. split_and!; [done|lia|lia|].
  rewrite Z.quot_div_nonneg by lia.
  replace (mb * 1024 * 1024) with (mb * (1024 * 1024)) by lia.
  rewrite Z.div_mul by lia. apply wrap_id; [lia|]. unfold in_int, min_int, max_int. lia.
Qed.

Lemma MemorySizeFromMB_roundtrip_witness :
  Megabytes {| mem_bytes := 536870912 |} = 512.
Proof.
  apply (MemorySizeFromMB_roundtrip 512 {| mem_bytes := 536870912 |});
    [vm_compute; intuition congruence|vm_compute; reflexivity].
Defined.
