(* ===== verification/Paths.v ===== *)
(** * Paths: [filepath.Clean] and the path values and guards built on it
    (internal/joblet/domain/values/paths.go, domain/file_upload.go,
    core/validation/validator.go) *)

From S2P Require Import Prelude GoStrings.
From Stdlib Require Import Ascii String.

Local Open Scope Z_scope.

(** ** [path/filepath] on Unix *)

Abbreviation word := (list ascii) (only parsing).

Definition dot : word := ["."%char].
Definition dotdot : word := ["."%char; "."%char].

Definition IsAbs (p : string) : bool := HasPrefix p "/".

(** One element of the path against the elements kept so far (in reverse):
    empty elements and "." are dropped, ".." removes the element before it
    when there is one to remove, and is dropped at the root. *)
Definition clean_step (rooted : bool) (out : list word) (w : word) : list word :=
  if bool_decide (w = []) || bool_decide (w = dot) then out
  else if bool_decide (w = dotdot) then
    match out with
    | top :: rest => if bool_decide (top = dotdot) then dotdot :: out else rest
    | [] => if rooted then [] else [dotdot]
    end
  else w :: out.

Definition clean_words (rooted : bool) (ws : list word) : list word :=
  rev (foldl (clean_step rooted) [] ws).

(** The elements of the cleaned path, without the root. *)
Definition Clean_elements (p : string) : list word :=
  clean_words (IsAbs p) (split_bytes "/" (bytes p)).

Definition Clean (p : string) : string :=
  if bool_decide (p = ""%string) then "." else
  let ws := Clean_elements p in
  if IsAbs p then of_bytes ("/"%char :: join_bytes "/" ws)
  else if bool_decide (ws = []) then "." else of_bytes (join_bytes "/" ws).

(** [filepath.Join]: the non-empty elements from the first one on. *)
Definition Join_path (elems : list string) : string :=
  match filter (λ e, e ≠ ""%string) elems with
  | [] => ""
  | es => Clean (Join es "/")
  end.

(** ** Path values *)

(** [src/internal/joblet/domain/values/paths.go:10-12 Path] *)
Record Path := { path_value : string }.

Inductive path_error :=
| PathEmpty | PathNotAbsolute (p : string) | CgroupEmpty | CgroupInvalid (e : path_error) | CgroupPrefix (p : string).

(** [src/internal/joblet/domain/values/paths.go:15-28 NewAbsolutePath] *)
Definition NewAbsolutePath (path : string) : result path_error Path :=
  if bool_decide (TrimSpace path = ""%string) then Err PathEmpty
  else let cleaned := Clean path in
       if negb (IsAbs cleaned) then Err (PathNotAbsolute path)
       else Ok {| path_value := cleaned |}.

(** [src/internal/joblet/domain/values/paths.go:67-69 CgroupPath] *)
Record CgroupPath := { cg_path : Path }.

(** [src/internal/joblet/domain/values/paths.go:72-88 NewCgroupPath] *)
Definition NewCgroupPath (path : string) : result path_error CgroupPath :=
  if bool_decide (TrimSpace path = ""%string) then Err CgroupEmpty
  else match NewAbsolutePath path with
       | Err e => Err (CgroupInvalid e)
       | Ok p =>
           if negb (HasPrefix (path_value p) "/sys/fs/cgroup") &&
              negb (HasPrefix (path_value p) "/sys/fs/cgroup2")
           then Err (CgroupPrefix path)
           else Ok {| cg_path := p |}
       end.

(** [src/internal/joblet/domain/values/paths.go:106-108 CgroupPath.IsV1] *)
Definition cg_IsV1 (c : CgroupPath) : bool := HasPrefix (path_value (cg_path c)) "/sys/fs/cgroup/".
(** [src/internal/joblet/domain/values/paths.go:111-113 CgroupPath.IsV2] *)
Definition cg_IsV2 (c : CgroupPath) : bool := HasPrefix (path_value (cg_path c)) "/sys/fs/cgroup2/".

(** ** Uploaded file paths *)

Inductive upload_error := UploadEmpty | UploadTraversal | UploadAbsolute | UploadSystemDir.

(** [src/internal/joblet/domain/file_upload.go:95-97 validateFilePath] *)
Definition dangerous : list string :=
  ["proc"; "sys"; "dev"; "etc"; "bin"; "sbin"; "usr/bin"; "usr/sbin"]%string.

(** [strings.Contains(s, "..")] *)
Fixpoint contains_dotdot (l : list ascii) : bool :=
  match l with
  | c :: ((d :: _) as l') =>
      (bool_decide (c = "."%char) && bool_decide (d = "."%char)) || contains_dotdot l'
  | _ => false
  end.

(** [src/internal/joblet/domain/file_upload.go:77-106 validateFilePath] *)
Definition validateFilePath (path : string) : result upload_error unit :=
  if bool_decide (path = ""%string) then Err UploadEmpty
  else let cleaned := Clean path in
    if contains_dotdot (bytes cleaned) then Err UploadTraversal
    else if IsAbs cleaned then Err UploadAbsolute
    else if existsb (λ d, HasPrefix cleaned (d +:+ "/") || bool_decide (cleaned = d)) dangerous
    then Err UploadSystemDir
    else Ok tt.

(** ** The base-directory guard *)

Inductive within_error := BaseEmpty | PathEscapes (p : string).

Section within.
(** [os.Getwd], read by [filepath.Abs] for a relative path. *)
Variable cwd : string.

Definition Abs (p : string) : string := if IsAbs p then Clean p else Join_path [cwd; p].

(** [src/internal/joblet/core/validation/validator.go:33-64 ValidatePathWithinBase] *)
Definition ValidatePathWithinBase (basePath targetPath : string) : result within_error string :=
  if bool_decide (basePath = ""%string) then Err BaseEmpty
  else if IsAbs targetPath then Err (PathEscapes targetPath)
  else
    let fullPath := Join_path [basePath; targetPath] in
    let absBase := Abs basePath in
    let absFull := Abs fullPath in
    if negb (bool_decide (absFull = absBase)) && negb (HasPrefix absFull (absBase +:+ "/"))
    then Err (PathEscapes targetPath)
    else Ok absFull.
End within.

(** [src/internal/joblet/core/validation/validator.go:17-28 ValidateEnvironmentVariable] *)
Definition ValidateEnvironmentVariable (key value : string) : result bool unit :=
  let name_ok := match bytes key with
    | c :: l => (is_lower c || is_upper c || bool_decide (c = "_"%char)) &&
                forallb (λ c, is_alnum c || bool_decide (c = "_"%char)) l
    | [] => false
    end in
  if negb name_ok then Err true
  else if len value >? 32768 then Err false
  else Ok tt.

(** ** Cleaned paths *)

(** An element a cleaned rooted path may have. *)
Definition plain (w : word) : Prop := w ≠ [] ∧ w ≠ dot ∧ w ≠ dotdot ∧ "/"%char ∉ w.

#[export] Instance plain_dec w : Decision (plain w).
Proof. unfold plain. apply _. Defined.

Lemma clean_step_plain out w : Forall plain out → "/"%char ∉ w → Forall plain (clean_step true out w).
Proof.
  intros Ho Hw. unfold clean_step.
  do 2 (case_bool_decide; simpl; [done|]). case_bool_decide.
  - destruct Ho as [|top rest Ht Hr]; [constructor|].
    rewrite bool_decide_eq_false_2 by apply Ht. done.
  - by constructor.
Qed.

Lemma clean_fold_plain ws out : Forall plain out → Forall (λ w, "/"%char ∉ w) ws →
  Forall plain (foldl (clean_step true) out ws).
Proof.
  intros Ho Hws. revert out Ho. induction Hws as [|w ws Hw _ IH]; intros out Ho; [done|].
  simpl. by apply IH, clean_step_plain.
Qed.

Lemma Clean_rooted p : IsAbs p = true →
  ∃ ws, Clean_elements p = ws ∧ Forall plain ws ∧ bytes (Clean p) = "/"%char :: join_bytes "/" ws.
Proof.
  intros Hp. eexists. split; [done|]. split.
  - unfold Clean_elements, clean_words. rewrite Hp. apply Forall_rev.
    apply clean_fold_plain; [constructor|apply split_words].
  - unfold Clean. rewrite bool_decide_eq_false_2 by (by intros ->). rewrite Hp.
    apply bytes_of_bytes.
Qed.

Lemma HasPrefix_bytes s p : HasPrefix s p = true ↔ ∃ l, bytes s = bytes p ++ l.
Proof.
  unfold HasPrefix. revert s. induction p as [|c p IH]; intros s; simpl.
  { split; [eauto|]. by destruct s. }
  destruct s as [|d s]; simpl; [split; [done|by intros []]|].
  destruct (ascii_dec c d) as [<-|Hc].
  - rewrite IH. split; intros [l Hl]; exists l; congruence.
  - split; [done|]. intros [l Hl]. congruence.
Qed.

Lemma IsAbs_cons p : IsAbs p = true ↔ ∃ l, bytes p = "/"%char :: l.
Proof. apply (HasPrefix_bytes p "/"). Qed.

Lemma IsAbs_app p q : IsAbs p = true → IsAbs (p +:+ q) = true.
Proof. rewrite !IsAbs_cons, bytes_app. intros [l ->]. eauto. Qed.

Lemma Join_bytes2 a b sep : bytes (Join [a; b] sep) = bytes a ++ sep :: bytes b.
Proof. unfold Join. rewrite bytes_of_bytes. done. Qed.

Lemma Join_path2 a b : a ≠ ""%string → b ≠ ""%string → Join_path [a; b] = Clean (Join [a; b] "/").
Proof.
  intros Ha Hb. unfold Join_path. rewrite !filter_cons_True by done. done.
Qed.

Lemma Join_path2_empty a : a ≠ ""%string → Join_path [a; ""%string] = Clean a.
Proof.
  intros Ha. unfold Join_path. rewrite filter_cons_True by done.
  rewrite filter_cons_False by naive_solver. simpl. unfold Join. simpl.
  by rewrite of_bytes_bytes.
Qed.

Lemma split_bytes_app_sep sep a b :
  split_bytes sep (a ++ sep :: b) = split_bytes sep a ++ split_bytes sep b.
Proof.
  induction a as [|c a IH]; simpl; [by rewrite decide_True|].
  case_decide; [by rewrite IH|]. rewrite IH.
  destruct (split_bytes sep a) eqn:E; [|done].
  by destruct a; simpl in E; repeat case_match.
Qed.

Lemma plain_split ws : Forall plain ws → ws ≠ [] → split_bytes "/" (join_bytes "/" ws) = ws.
Proof.
  intros Hw Hne. apply split_bytes_join; [done|].
  eapply Forall_impl; [done|]. by intros w (?&?&?&?).
Qed.

(** A textual prefix ending in a separator is a prefix of the elements. *)
Lemma prefix_elements wb wf : Forall plain wb → Forall plain wf →
  (∃ l, "/"%char :: join_bytes "/" wf = ("/"%char :: join_bytes "/" wb) ++ "/"%char :: l) →
  wb ≠ [] ∧ ∃ ext, wf = wb ++ ext.
Proof.
  intros Hb Hf [l Hl]. simpl in Hl. injection Hl as Hl.
  assert (wf ≠ []) as Hne.
  { intros ->. simpl in Hl. by destruct (join_bytes "/" wb). }
  apply (f_equal (split_bytes "/")) in Hl. rewrite plain_split in Hl by done.
  rewrite split_bytes_app_sep in Hl. destruct wb as [|w wb].
  - simpl in Hl. subst wf. apply Forall_cons in Hf as [(?&_) _]. done.
  - rewrite plain_split in Hl by done. split; [done|]. eauto.
Qed.

Lemma Abs_rooted cwd p : IsAbs cwd = true → ∃ ws, Forall plain ws ∧
  bytes (Abs cwd p) = "/"%char :: join_bytes "/" ws.
Proof.
  intros Hc. unfold Abs. assert (cwd ≠ ""%string) by (by intros ->).
  destruct (IsAbs p) eqn:Hp.
  - destruct (Clean_rooted p Hp) as (ws & _ & ? & ?). eauto.
  - destruct (decide (p = ""%string)) as [->|Hne].
    + rewrite Join_path2_empty by done. destruct (Clean_rooted cwd Hc) as (ws & _ & ? & ?). eauto.
    + rewrite Join_path2 by done.
      assert (IsAbs (Join [cwd; p] "/") = true) as Ha.
      { apply IsAbs_cons in Hc as [l Hl]. apply IsAbs_cons. rewrite Join_bytes2, Hl. eauto. }
      destruct (Clean_rooted _ Ha) as (ws & _ & ? & ?). eauto.
Qed.

Lemma join_plain_inj ws1 ws2 : Forall plain ws1 → Forall plain ws2 →
  join_bytes "/" ws1 = join_bytes "/" ws2 → ws1 = ws2.
Proof.
  assert (∀ ws, Forall plain ws → join_bytes "/" ws = [] → ws = []) as Hnil.
  { intros ws Hw. destruct Hw as [|w ws (Hne&_) _]; [done|].
    destruct ws; simpl; [done|]. by destruct w. }
  intros H1 H2 E. destruct (decide (ws1 = [])) as [->|Hne1].
  { symmetry in E. symmetry. by apply Hnil. }
  destruct (decide (ws2 = [])) as [->|Hne2]; [by apply Hnil|].
  by rewrite <- (plain_split ws1), <- (plain_split ws2), E.
Qed.

Lemma within_base_elements cwd base target p :
  IsAbs cwd = true → ValidatePathWithinBase cwd base target = Ok p →
  ∃ wb ext, Forall plain (wb ++ ext) ∧
    bytes (Abs cwd base) = "/"%char :: join_bytes "/" wb ∧
    bytes p = "/"%char :: join_bytes "/" (wb ++ ext).
Proof.
  intros Hc H. unfold ValidatePathWithinBase in H.
  case_bool_decide; [done|]. destruct (IsAbs target); [done|].
  destruct (Abs_rooted cwd base Hc) as (wb & Hwb & Hb).
  destruct (Abs_rooted cwd (Join_path [base; target]) Hc) as (wf & Hwf & Hf).
  destruct (negb _ && negb _) eqn:E; [done|]. injection H as <-.
  exists wb. apply andb_false_iff in E as [E|E]; to_prop.
  - exists []. rewrite app_nil_r. split_and!; [done|done|]. congruence.
  - apply HasPrefix_bytes in E. rewrite bytes_app, Hf, Hb in E.
    destruct E as [l E]. rewrite <- app_assoc in E.
    destruct (prefix_elements wb wf) as (_ & ext & ->); [done..|by exists l|].
    exists ext. done.
Qed.

(** C38 Whatever the target says, a path the base-directory guard returns has the elements of
    the absolute base as a prefix and no ".." after it: by its text the path cannot leave
    the base (links on the disk are not looked at, neither here nor in the code). *)
Theorem ValidatePathWithinBase_contained cwd base target p :
  IsAbs cwd = true → ValidatePathWithinBase cwd base target = Ok p →
  ∃ wb ext, Forall plain (wb ++ ext) ∧
    bytes (Abs cwd base) = "/"%char :: join_bytes "/" wb ∧
    bytes p = "/"%char :: join_bytes "/" (wb ++ ext).
Proof. apply within_base_elements. Qed.

Lemma ValidatePathWithinBase_contained_witness :
  ValidatePathWithinBase "/root" "/work" "a/../b/./c" = Ok "/work/b/c"%string ∧
  ∃ wb ext, Forall plain (wb ++ ext) ∧
    bytes (Abs "/root" "/work") = "/"%char :: join_bytes "/" wb ∧
    bytes "/work/b/c" = "/"%char :: join_bytes "/" (wb ++ ext).
Proof.
  split; [vm_compute; reflexivity|].
  apply (ValidatePathWithinBase_contained "/root" "/work" "a/../b/./c" "/work/b/c");
    vm_compute; reflexivity.
Defined.

(** ** Uploaded files stay in the workspace *)

Lemma contains_dotdot_app a l : contains_dotdot (a ++ dotdot ++ l) = true.
Proof.
  induction a as [|c a IH]; [done|].
  change (contains_dotdot (c :: (a ++ dotdot ++ l)) = true).
  destruct (a ++ dotdot ++ l) as [|d l'] eqn:E; [by destruct a|].
  change (bool_decide (c = "."%char) && bool_decide (d = "."%char) || contains_dotdot (d :: l') = true).
  apply orb_true_iff. right. exact IH.
Qed.

Lemma join_contains w ws sep : w ∈ ws → ∃ a b, join_bytes sep ws = a ++ w ++ b.
Proof.
  induction ws as [|v ws IH]; [by intros ?%elem_of_nil|].
  intros [->|Hw]%elem_of_cons.
  - exists []. destruct ws as [|v' ws]; simpl; [exists []; by rewrite app_nil_r|eauto].
  - destruct (IH Hw) as (a & b & E). destruct ws as [|v' ws]; [by apply elem_of_nil in Hw|].
    exists (v ++ sep :: a), b.
    change (join_bytes sep (v :: v' :: ws)) with (v ++ sep :: join_bytes sep (v' :: ws)).
    rewrite E. by rewrite <- app_assoc.
Qed.

(** A ".." kept by the relative clean-up is never dropped again. *)
Lemma dotdot_persists out w : dotdot ∈ out → dotdot ∈ clean_step false out w.
Proof.
  intros Ho. unfold clean_step. destruct (bool_decide (w = []) || _); [done|].
  destruct (bool_decide (w = dotdot)); [|set_solver].
  destruct out as [|top rest]; [set_solver|].
  case_bool_decide as Ht; [set_solver|].
  apply elem_of_cons in Ho as [<-|Ho]; done.
Qed.

Lemma dotdot_persists_fold ws out : dotdot ∈ out → dotdot ∈ foldl (clean_step false) out ws.
Proof.
  revert out. induction ws as [|w ws IH]; intros out Ho; [done|].
  by apply IH, dotdot_persists.
Qed.

(** Below a base, the rooted clean-up of a path without leading ".." does what
    the relative one does. *)
Lemma clean_fold_base ws out base : dotdot ∉ foldl (clean_step false) out ws →
  foldl (clean_step true) (out ++ base) ws = foldl (clean_step false) out ws ++ base.
Proof.
  revert out. induction ws as [|w ws IH]; intros out Hf; [done|]. simpl in *.
  rewrite <- IH by done. f_equal.
  assert (dotdot ∉ clean_step false out w) as Hs.
  { intros H. by apply Hf, dotdot_persists_fold. }
  unfold clean_step in *. destruct (bool_decide (w = []) || _); [done|].
  destruct (bool_decide (w = dotdot)); [|done].
  destruct out as [|top rest]; simpl; [set_solver|].
  case_bool_decide; [set_solver|done].
Qed.

Lemma clean_fold_noslash ws out rooted : Forall (λ w, "/"%char ∉ w ∧ w ≠ [] ∧ w ≠ dot) out →
  Forall (λ w, "/"%char ∉ w) ws →
  Forall (λ w, "/"%char ∉ w ∧ w ≠ [] ∧ w ≠ dot) (foldl (clean_step rooted) out ws).
Proof.
  intros Ho Hws. revert out Ho. induction Hws as [|w ws Hw _ IH]; intros out Ho; [done|].
  simpl. apply IH. unfold clean_step.
  do 2 (case_bool_decide; simpl; [done|]). case_bool_decide.
  - assert ("/"%char ∉ dotdot ∧ dotdot ≠ [] ∧ dotdot ≠ dot).
    { split_and!; [|done..]. unfold dotdot. set_solver. }
    destruct Ho as [|top rest Ht Hr].
    + destruct rooted; [constructor|by apply Forall_singleton].
    + case_bool_decide; [|done]. constructor; [done|by constructor].
  - by constructor; [split_and!|].
Qed.

Lemma validateFilePath_relative path : validateFilePath path = Ok tt → IsAbs path = false ∧
  dotdot ∉ Clean_elements path.
Proof.
  unfold validateFilePath. case_bool_decide as Hne; [done|].
  destruct (contains_dotdot _) eqn:Hdd; [done|].
  destruct (IsAbs (Clean path)) eqn:Ha; [done|]. intros _.
  assert (IsAbs path = false) as Hr.
  { destruct (IsAbs path) eqn:E; [|done]. destruct (Clean_rooted path E) as (ws & _ & _ & Hb).
    rewrite <- Ha. symmetry. apply IsAbs_cons. eauto. }
  split; [done|]. intros Hin. unfold Clean in Hdd. rewrite bool_decide_eq_false_2, Hr in Hdd by done.
  case_bool_decide as Hnil; [rewrite Hnil in Hin; by apply elem_of_nil in Hin|].
  destruct (join_contains _ _ "/" Hin) as (a & b & E).
  rewrite E, bytes_of_bytes, contains_dotdot_app in Hdd. done.
Qed.

(** An accepted upload path, joined to any absolute workspace, names exactly
    the workspace's elements followed by its own plain elements: an upload
    cannot leave the workspace. *)
Theorem upload_path_contained base path :
  IsAbs base = true → validateFilePath path = Ok tt →
  Clean_elements (Join [base; path] "/") = Clean_elements base ++ Clean_elements path ∧
  Forall plain (Clean_elements path).
Proof.
  intros Hb Hv. apply validateFilePath_relative in Hv as [Hrel Hdd]. split.
  - assert (IsAbs (Join [base; path] "/") = true) as Ha.
    { apply IsAbs_cons in Hb as [l Hl]. apply IsAbs_cons. rewrite Join_bytes2, Hl. eauto. }
    unfold Clean_elements in *. rewrite Ha, Hb, Hrel in *. unfold clean_words in *.
    rewrite Join_bytes2, split_bytes_app_sep, foldl_app.
    set (B := foldl (clean_step true) [] (split_bytes "/" (bytes base))).
    rewrite elem_of_rev in Hdd.
    rewrite (clean_fold_base _ [] B) by done. apply rev_app_distr.
  - unfold Clean_elements in *. rewrite Hrel in *. unfold clean_words in *.
    apply Forall_rev. rewrite elem_of_rev in Hdd.
    pose proof (clean_fold_noslash (split_bytes "/" (bytes path)) [] false
      ltac:(constructor) (split_words _ _)) as Hf.
    rewrite !Forall_forall in *. intros w Hw. destruct (Hf w Hw) as (?&?&?).
    split_and!; try done. by intros ->.
Qed.

Lemma upload_path_contained_witness :
  Clean_elements (Join ["/opt/work"; "src/../data/in.csv"] "/") =
    Clean_elements "/opt/work" ++ Clean_elements "src/../data/in.csv".
Proof. apply (upload_path_contained "/opt/work" "src/../data/in.csv"); vm_compute; reflexivity. Defined.
