(* ===== verification/Job.v ===== *)
(** * The job aggregate (internal/joblet/domain: job.go, job_type.go,
    resource_limits.go, network.go)

    The job record with its status predicates, its lazily cached value objects,
    its validation and its deep copy.  An instant ([time.Time]) is a [Z] of
    nanoseconds counted from the zero time, so [IsZero] is [= 0]; slices and
    maps are values here (nil and empty are identified), pointers to times are
    options. *)

From S2P Require Import Prelude GoStrings Values Paths.
From Stdlib Require Import Ascii String.

Local Open Scope Z_scope.

(** ** Status, type and limits *)

(** [src/internal/joblet/domain/job.go:12-25 JobStatus] *)
Abbreviation JobStatus := string (only parsing).
Definition StatusPending : JobStatus := "PENDING".
Definition StatusRunning : JobStatus := "RUNNING".
Definition StatusCompleted : JobStatus := "COMPLETED".
Definition StatusFailed : JobStatus := "FAILED".
Definition StatusStopped : JobStatus := "STOPPED".
Definition StatusScheduled : JobStatus := "SCHEDULED".
Definition StatusInitializing : JobStatus := "INITIALIZING".
Definition StatusCanceled : JobStatus := "CANCELED".
Definition StatusStopping : JobStatus := "STOPPING".
(** [src/internal/joblet/domain/job.go:14-25 JobStatus] *)
Definition StatusTimeout : JobStatus := "TIMEOUT".

(** [src/internal/joblet/domain/job_type.go:4-14 JobType] *)
Definition JobTypeStandard : string := "standard".
Definition JobTypeRuntimeBuild : string := "runtime-build".

(** [src/internal/joblet/domain/job_type.go:17-19 JobType.IsRuntimeBuild] *)
Definition type_IsRuntimeBuild (jt : string) : bool := bool_decide (jt = JobTypeRuntimeBuild).

(** [src/internal/joblet/domain/job_type.go:22-27 JobType.String] *)
Definition type_String (jt : string) : string :=
  if bool_decide (jt = ""%string) then JobTypeStandard else jt.

(** [src/internal/joblet/domain/network.go:10-30 IsValidNetworkName] *)
Definition IsValidNetworkName (name : string) : bool :=
  let l := bytes name in
  if (len name =? 0) || (len name >? 63) then false
  else if negb (forallb (λ c, is_alnum c || bool_decide (c = "-"%char) || bool_decide (c = "_"%char)) l)
  then false
  else match l, last l with
       | first :: _, Some last => is_alnum first && is_alnum last
       | _, _ => false
       end.

(** [src/internal/joblet/domain/resource_limits.go:8-13 ResourceLimits] *)
Record ResourceLimits := {
  CPU : CPUPercentage;
  CPUCores : CPUCoreSet;
  Memory : MemorySize;
  IOBandwidth : Bandwidth;
}.

(** [src/internal/joblet/domain/resource_limits.go:16-28 NewResourceLimits] *)
Definition NewResourceLimits : ResourceLimits := {|
  CPU := {| cpu_value := 0 |};
  CPUCores := {| core_list := []; core_spec := "" |};
  Memory := {| mem_bytes := 0 |};
  IOBandwidth := {| bw_bytes := 0 |};
|}.

(** Each parameter is used when it is set and valid, and ignored otherwise;
    [None] when the core range does not finish within [fuel].
    [src/internal/joblet/domain/resource_limits.go:31-59 NewResourceLimitsFromParams] *)
Definition NewResourceLimitsFromParams (fuel : nat) (cpuPercent : Z) (cpuCores : string)
    (memoryMB ioBPS : Z) : option ResourceLimits :=
  let d := NewResourceLimits in
  cores ← (if bool_decide (cpuCores = ""%string) then Some (CPUCores d)
           else r ← ParseCPUCoreSet fuel cpuCores;
                Some (match r with Ok cores => cores | Err _ => CPUCores d end));
  Some {|
    CPU := if cpuPercent >? 0
           then match NewCPUPercentage cpuPercent with Ok c => c | Err _ => CPU d end
           else CPU d;
    CPUCores := cores;
    Memory := if memoryMB >? 0
              then match NewMemorySizeFromMB memoryMB with Ok m => m | Err _ => Memory d end
              else Memory d;
    IOBandwidth := if ioBPS >? 0
                   then match NewBandwidth ioBPS with Ok b => b | Err _ => IOBandwidth d end
                   else IOBandwidth d;
  |}.

(** [src/internal/joblet/domain/resource_limits.go:62-64 ResourceLimits.HasCPULimit] *)
Definition HasCPULimit (r : ResourceLimits) : bool := negb (cpu_IsUnlimited (CPU r)).
(** [src/internal/joblet/domain/resource_limits.go:67-69 ResourceLimits.HasMemoryLimit] *)
Definition HasMemoryLimit (r : ResourceLimits) : bool := negb (mem_IsUnlimited (Memory r)).
(** [src/internal/joblet/domain/resource_limits.go:72-74 ResourceLimits.HasIOLimit] *)
Definition HasIOLimit (r : ResourceLimits) : bool := negb (bw_IsUnlimited (IOBandwidth r)).
(** [src/internal/joblet/domain/resource_limits.go:77-79 ResourceLimits.HasCoreRestriction] *)
Definition HasCoreRestriction (r : ResourceLimits) : bool := negb (cores_IsEmpty (CPUCores r)).

(** [src/internal/joblet/domain/file_upload.go:11-17 FileUpload] *)
Record FileUpload := {
  fu_Path : string;
  fu_Content : list ascii;
  fu_Mode : Z;
  fu_IsDirectory : bool;
  fu_Size : Z;
}.

(** ** The job *)

(** The cached value objects.
    [src/internal/joblet/domain/job.go:84-91 Job] *)
Record JobCache := {
  c_jobUUID : option JobUUID;
  c_processID : option ProcessID;
  c_networkName : option NetworkName;
  c_volumeNames : option VolumeNames;
  c_runtimeSpec : option RuntimeSpec;
  c_environment : option Environment;
  c_secretEnv : option Environment;
  c_cgroupPath : option Paths.CgroupPath;
}.

Definition empty_cache : JobCache := {|
  c_jobUUID := None; c_processID := None; c_networkName := None; c_volumeNames := None;
  c_runtimeSpec := None; c_environment := None; c_secretEnv := None; c_cgroupPath := None;
|}.

(** [src/internal/joblet/domain/job.go:33-92 Job] *)
Record Job := {
  Uuid : string;
  Command : string;
  Args : list string;
  Type_ : string;
  Limits : ResourceLimits;
  CgroupPath : string;
  Status : JobStatus;
  Pid : Z;
  StartTime : Z;
  EndTime : option Z;
  ScheduledTime : option Z;
  ExitCode : Z;
  Network : string;
  Volumes : list string;
  Runtime : string;
  WorkingDirectory : string;
  Uploads : list FileUpload;
  Environment_ : gmap string string;
  SecretEnvironment : gmap string string;
  GPUIndices : list Z;
  GPUMIGUUIDs : list string;
  GPUCount : Z;
  GPUMemoryMB : Z;
  NodeId : string;
  Timeout : Z;
  cache : JobCache;
}.

(** [src/internal/joblet/domain/job.go:95-97 Job.IsRunning] *)
Definition IsRunning (j : Job) : bool := bool_decide (Status j = StatusRunning).

(** [src/internal/joblet/domain/job.go:100-103 Job.IsCompleted] *)
Definition IsCompleted (j : Job) : bool :=
  bool_decide (Status j = StatusCompleted) || bool_decide (Status j = StatusFailed) ||
  bool_decide (Status j = StatusStopped) || bool_decide (Status j = StatusTimeout).

(** [src/internal/joblet/domain/job.go:106-108 Job.IsScheduled] *)
Definition IsScheduled (j : Job) : bool := bool_decide (Status j = StatusScheduled).

(** [src/internal/joblet/domain/job.go:111-113 Job.IsRuntimeBuild] *)
Definition IsRuntimeBuild (j : Job) : bool := bool_decide (Type_ j = JobTypeRuntimeBuild).

(** [src/internal/joblet/domain/job.go:116-121 Job.GetType] *)
Definition GetType (j : Job) : string :=
  if bool_decide (Type_ j = ""%string) then JobTypeStandard else Type_ j.

(** [src/internal/joblet/domain/job.go:124-129 Job.HasResourceLimits] *)
Definition HasResourceLimits (j : Job) : bool :=
  HasCPULimit (Limits j) || HasMemoryLimit (Limits j) ||
  HasIOLimit (Limits j) || HasCoreRestriction (Limits j).

(** [src/internal/joblet/domain/job.go:132-134 Job.HasGPURequirement] *)
Definition HasGPURequirement (j : Job) : bool := GPUCount j >? 0.

(** [src/internal/joblet/domain/job.go:137-139 Job.IsGPUAllocated] *)
Definition IsGPUAllocated (j : Job) : bool := negb (bool_decide (GPUIndices j = [])).

(** [time.Duration] of a difference saturates at the 64-bit bounds. *)
Definition sub_time (t u : Z) : Z := Z.max (min_int 64) (Z.min (max_int 64) (t - u)).

(** [src/internal/joblet/domain/job.go:142-150 Job.Duration] *)
Definition Duration (now : Z) (j : Job) : Z :=
  match EndTime j with
  | None => if IsRunning j then sub_time now (StartTime j) else 0
  | Some e => sub_time e (StartTime j)
  end.

(** [src/internal/joblet/domain/job.go:153-162 Job.ScheduleDelay] *)
Definition ScheduleDelay (now : Z) (j : Job) : Z :=
  match ScheduledTime j with
  | Some t =>
      if negb (IsScheduled j) then 0
      else let delay := sub_time t now in if delay <? 0 then 0 else delay
  | None => 0
  end.

Inductive job_error :=
| ErrInvalidCommand | ErrJobIdEmpty | ErrNetworkTooLong | ErrVolumeEmpty.

(** [src/internal/joblet/domain/job.go:165-191 Job.Validate] *)
Definition Validate (j : Job) : result job_error unit :=
  if bool_decide (Command j = ""%string) then Err ErrInvalidCommand
  else if bool_decide (TrimSpace (Uuid j) = ""%string) then Err ErrJobIdEmpty
  else if negb (bool_decide (Network j = ""%string)) && negb (bool_decide (Network j = "isolated"%string))
          && (len (Network j) >? 63) then Err ErrNetworkTooLong
  else if existsb (λ v, bool_decide (TrimSpace v = ""%string)) (Volumes j) then Err ErrVolumeEmpty
  else Ok tt.

(** ** Cached accessors: the value, and the job with its cache filled *)

Definition with_cache (j : Job) (c : JobCache) : Job := {|
  Uuid := Uuid j; Command := Command j; Args := Args j; Type_ := Type_ j; Limits := Limits j;
  CgroupPath := CgroupPath j; Status := Status j; Pid := Pid j; StartTime := StartTime j;
  EndTime := EndTime j; ScheduledTime := ScheduledTime j; ExitCode := ExitCode j;
  Network := Network j; Volumes := Volumes j; Runtime := Runtime j;
  WorkingDirectory := WorkingDirectory j; Uploads := Uploads j;
  Environment_ := Environment_ j; SecretEnvironment := SecretEnvironment j;
  GPUIndices := GPUIndices j; GPUMIGUUIDs := GPUMIGUUIDs j; GPUCount := GPUCount j;
  GPUMemoryMB := GPUMemoryMB j; NodeId := NodeId j; Timeout := Timeout j; cache := c;
|}.

Definition cache_uuid (v : JobUUID) (c : JobCache) : JobCache := {|
  c_jobUUID := Some v; c_processID := c_processID c; c_networkName := c_networkName c;
  c_volumeNames := c_volumeNames c; c_runtimeSpec := c_runtimeSpec c;
  c_environment := c_environment c; c_secretEnv := c_secretEnv c;
  c_cgroupPath := c_cgroupPath c;
|}.

(** [src/internal/joblet/domain/job.go:196-207 Job.JobUUIDValue] *)
Definition JobUUIDValue (j : Job) : JobUUID * Job :=
  match c_jobUUID (cache j) with
  | Some v => (v, j)
  | None =>
      let v := match NewJobUUID (Uuid j) with Ok v => v | Err _ => {| uuid_value := "" |} end in
      (v, with_cache j (cache_uuid v (cache j)))
  end.

Definition with_uuid (j : Job) (u : string) : Job := {|
  Uuid := u; Command := Command j; Args := Args j; Type_ := Type_ j; Limits := Limits j;
  CgroupPath := CgroupPath j; Status := Status j; Pid := Pid j; StartTime := StartTime j;
  EndTime := EndTime j; ScheduledTime := ScheduledTime j; ExitCode := ExitCode j;
  Network := Network j; Volumes := Volumes j; Runtime := Runtime j;
  WorkingDirectory := WorkingDirectory j; Uploads := Uploads j;
  Environment_ := Environment_ j; SecretEnvironment := SecretEnvironment j;
  GPUIndices := GPUIndices j; GPUMIGUUIDs := GPUMIGUUIDs j; GPUCount := GPUCount j;
  GPUMemoryMB := GPUMemoryMB j; NodeId := NodeId j; Timeout := Timeout j; cache := cache j;
|}.

(** [src/internal/joblet/domain/job.go:210-213 Job.SetJobUUIDValue] *)
Definition SetJobUUIDValue (j : Job) (v : JobUUID) : Job :=
  with_cache (with_uuid j (uuid_value v)) (cache_uuid v (cache j)).

(** ** Copies *)

(** Field by field as the composite literal lists them: [Type],
    [WorkingDirectory], [Uploads] and the caches are not among them and get
    their zero values.
    [src/internal/joblet/domain/job.go:355-426 Job.DeepCopy] *)
Definition DeepCopy (j : Job) : Job := {|
  Uuid := Uuid j;
  Command := Command j;
  Args := Args j;
  Type_ := "";
  Limits := Limits j;
  CgroupPath := CgroupPath j;
  Status := Status j;
  Pid := Pid j;
  StartTime := StartTime j;
  EndTime := EndTime j;
  ScheduledTime := ScheduledTime j;
  ExitCode := ExitCode j;
  Network := Network j;
  Volumes := Volumes j;
  Runtime := Runtime j;
  WorkingDirectory := "";
  Uploads := [];
  Environment_ := Environment_ j;
  SecretEnvironment := SecretEnvironment j;
  GPUIndices := GPUIndices j;
  GPUMIGUUIDs := GPUMIGUUIDs j;
  GPUCount := GPUCount j;
  GPUMemoryMB := GPUMemoryMB j;
  NodeId := NodeId j;
  Timeout := Timeout j;
  cache := empty_cache;
|}.

(** [src/internal/joblet/domain/job.go:429-439 Job.MaskedSecretEnvironment] *)
Definition MaskedSecretEnvironment (j : Job) : gmap string string :=
  (λ _, "***"%string) <$> SecretEnvironment j.

(** [src/internal/joblet/domain/job.go:442-447 Job.ResourceLimitsToDTO] *)
Definition ResourceLimitsToDTO (j : Job) : Z * Z * Z * string :=
  (cpu_value (CPU (Limits j)), Megabytes (Memory (Limits j)),
   bw_bytes (IOBandwidth (Limits j)), core_spec (CPUCores (Limits j))).

(** Assignments to single fields, used where the program writes one. *)
Definition with_ScheduledTime (j : Job) (t : option Z) : Job := {|
  Uuid := Uuid j; Command := Command j; Args := Args j; Type_ := Type_ j; Limits := Limits j;
  CgroupPath := CgroupPath j; Status := Status j; Pid := Pid j; StartTime := StartTime j;
  EndTime := EndTime j; ScheduledTime := t; ExitCode := ExitCode j;
  Network := Network j; Volumes := Volumes j; Runtime := Runtime j;
  WorkingDirectory := WorkingDirectory j; Uploads := Uploads j;
  Environment_ := Environment_ j; SecretEnvironment := SecretEnvironment j;
  GPUIndices := GPUIndices j; GPUMIGUUIDs := GPUMIGUUIDs j; GPUCount := GPUCount j;
  GPUMemoryMB := GPUMemoryMB j; NodeId := NodeId j; Timeout := Timeout j; cache := cache j;
|}.

Definition with_StartTime (j : Job) (t : Z) : Job := {|
  Uuid := Uuid j; Command := Command j; Args := Args j; Type_ := Type_ j; Limits := Limits j;
  CgroupPath := CgroupPath j; Status := Status j; Pid := Pid j; StartTime := t;
  EndTime := EndTime j; ScheduledTime := ScheduledTime j; ExitCode := ExitCode j;
  Network := Network j; Volumes := Volumes j; Runtime := Runtime j;
  WorkingDirectory := WorkingDirectory j; Uploads := Uploads j;
  Environment_ := Environment_ j; SecretEnvironment := SecretEnvironment j;
  GPUIndices := GPUIndices j; GPUMIGUUIDs := GPUMIGUUIDs j; GPUCount := GPUCount j;
  GPUMemoryMB := GPUMemoryMB j; NodeId := NodeId j; Timeout := Timeout j; cache := cache j;
|}.

(** A job with the given identity, status and schedule and nothing else set,
    for concrete inputs. *)
Definition blank_job (uuid : string) (status : JobStatus) (sched : option Z) : Job := {|
  Uuid := uuid; Command := "true"; Args := []; Type_ := ""; Limits := NewResourceLimits;
  CgroupPath := ""; Status := status; Pid := 0; StartTime := 1; EndTime := None;
  ScheduledTime := sched; ExitCode := 0; Network := ""; Volumes := []; Runtime := "";
  WorkingDirectory := ""; Uploads := []; Environment_ := ∅; SecretEnvironment := ∅;
  GPUIndices := []; GPUMIGUUIDs := []; GPUCount := 0; GPUMemoryMB := 0; NodeId := "";
  Timeout := 0; cache := empty_cache;
|}.

(** ** Properties *)

(** Every field the copy keeps, as one predicate. *)
Definition same_persistent (j k : Job) : Prop :=
  (Uuid j, Command j, Args j, Limits j, CgroupPath j, Status j, Pid j, StartTime j) =
  (Uuid k, Command k, Args k, Limits k, CgroupPath k, Status k, Pid k, StartTime k) ∧
  (EndTime j, ScheduledTime j, ExitCode j, Network j, Volumes j, Runtime j, NodeId j, Timeout j) =
  (EndTime k, ScheduledTime k, ExitCode k, Network k, Volumes k, Runtime k, NodeId k, Timeout k) ∧
  (Environment_ j, SecretEnvironment j, GPUIndices j, GPUMIGUUIDs j, GPUCount j, GPUMemoryMB j) =
  (Environment_ k, SecretEnvironment k, GPUIndices k, GPUMIGUUIDs k, GPUCount k, GPUMemoryMB k).

#[export] Instance same_persistent_equiv : Equivalence same_persistent.
Proof.
  unfold same_persistent. split.
  - done.
  - intros j k (?&?&?). done.
  - intros j k l (?&?&?) (?&?&?). split_and!; congruence.
Qed.

Lemma DeepCopy_same j : same_persistent (DeepCopy j) j.
Proof. done. Qed.

(** What the status predicates and the schedule read is kept by a copy. *)
#[export] Instance IsRunning_proper : Proper (same_persistent ==> eq) IsRunning.
Proof.
  intros j k (H&_&_). unfold IsRunning.
  assert (Status j = Status k) as -> by congruence. done.
Qed.
#[export] Instance IsCompleted_proper : Proper (same_persistent ==> eq) IsCompleted.
Proof.
  intros j k (H&_&_). unfold IsCompleted.
  assert (Status j = Status k) as -> by congruence. done.
Qed.
#[export] Instance Uuid_proper : Proper (same_persistent ==> eq) Uuid.
Proof. intros j k (?&_&_). congruence. Qed.
#[export] Instance ScheduledTime_proper : Proper (same_persistent ==> eq) ScheduledTime.
Proof. intros j k (_&?&_). congruence. Qed.

#[export] Hint Resolve DeepCopy_same : joblet.
