(* ===== verification/Heap.v ===== *)
(** * container/heap over a slice of indexed items

    The heap algorithms of Go's standard library, as the scheduler's priority
    queue runs them: the items are held in a slice, [Less] compares a key, and
    [Swap] records in each item the position it was moved to.  An operation
    that would index outside the slice returns [None] (the run-time panic), and
    so does a loop that runs out of fuel; the lemmas below show that neither
    happens.

    The items are abstract: a client provides a [HeapItem] instance (the key
    [Less] compares and the stored index) and inherits the correctness of
    [heap_Push], [heap_Pop], [heap_Remove] and [heap_Fix]. *)

From S2P Require Import Prelude.

Class HeapItem (A : Type) := {
  hkey : A → Z;
  hidx : A → Z;
  hset : Z → A → A;
  hkey_hset : ∀ i x, hkey (hset i x) = hkey x;
  hidx_hset : ∀ i x, hidx (hset i x) = i;
  hset_hset : ∀ i j x, hset i (hset j x) = hset i x;
}.

Section heap.
Context {A : Type} `{!HeapItem A}.
Implicit Types (l : list A) (i j n : nat).

(** ** Operations *)

Definition less i j l : option bool :=
  x ← l !! i; y ← l !! j; Some (hkey x <? hkey y)%Z.

Definition swap i j l : option (list A) :=
  x ← l !! i; y ← l !! j;
  Some (<[j := hset (Z.of_nat j) x]> (<[i := hset (Z.of_nat i) y]> l)).

Definition parent j : nat := (j - 1) / 2.

Fixpoint up (fuel : nat) j l : option (list A) :=
  match fuel with
  | O => None
  | S fuel =>
      let i := parent j in
      if i =? j then Some l else
      b ← less j i l;
      if (b : bool) then l' ← swap i j l; up fuel i l' else Some l
  end.

Fixpoint down_loop (fuel : nat) i n l : option (list A * nat) :=
  match fuel with
  | O => None
  | S fuel =>
      let j1 := 2 * i + 1 in
      if n <=? j1 then Some (l, i) else
      b ← (if j1 + 1 <? n then less (j1 + 1) j1 l else Some false);
      let j := if (b : bool) then j1 + 1 else j1 in
      c ← less j i l;
      if (c : bool) then l' ← swap i j l; down_loop fuel j n l' else Some (l, i)
  end.

Definition down i0 n l : option (list A * bool) :=
  r ← down_loop (S n) i0 n l; Some (r.1, i0 <? r.2).

Definition heap_Push (x : A) l : option (list A) :=
  let l' := l ++ [hset (Z.of_nat (length l)) x] in
  up (S (length l)) (length l) l'.

(** [h.Pop]: the last item leaves the slice with index -1. *)
Definition pop_last l : option (A * list A) :=
  x ← last l; Some (hset (-1) x, removelast l).

Definition heap_Pop l : option (A * list A) :=
  let n := length l - 1 in
  l1 ← swap 0 n l;
  r ← down 0 n l1;
  pop_last r.1.

Definition heap_Fix i l : option (list A) :=
  r ← down i (length l) l;
  if (r.2 : bool) then Some r.1 else up (S i) i r.1.

Definition heap_Remove i l : option (A * list A) :=
  let n := length l - 1 in
  if n =? i then pop_last l else
  l1 ← swap i n l;
  r ← down i n l1;
  l2 ← (if (r.2 : bool) then Some r.1 else up (S i) i r.1);
  pop_last l2.

(** ** Invariants *)

Definition key_at l i : Z := from_option hkey 0%Z (l !! i).

(** The first [n] items are ordered as a heap. *)
Definition heap_upto n l : Prop :=
  ∀ c, 0 < c < n → (key_at l (parent c) ≤ key_at l c)%Z.
Definition heap_ok l : Prop := heap_upto (length l) l.

(** Every item stores its own position. *)
Definition idx_ok l : Prop := ∀ i x, l !! i = Some x → hidx x = Z.of_nat i.

(** An item up to the index it stores, and the multiset of the items. *)
Definition strip (x : A) : A := hset 0 x.
Definition items l : list A := strip <$> l.

(** The heap order may fail at the edges touching [i] only, and the parent of
    [i] is below the children of [i]. *)
Definition order_except i n l : Prop :=
  (∀ c, 0 < c < n → parent c ≠ i → c ≠ i → (key_at l (parent c) ≤ key_at l c)%Z) ∧
  (∀ c, 0 < c < n → 0 < i → parent c = i → (key_at l (parent i) ≤ key_at l c)%Z).
Definition above_ok i n l : Prop :=
  0 < i < n → (key_at l (parent i) ≤ key_at l i)%Z.
Definition below_ok i n l : Prop :=
  ∀ c, 0 < c < n → parent c = i → (key_at l i ≤ key_at l c)%Z.

(** ** Parents *)

Lemma parent_lt j : 0 < j → parent j < j.
Proof. intros. unfold parent. apply Nat.Div0.div_lt_upper_bound; lia. Qed.

Lemma parent_children c i : 0 < c → parent c = i ↔ c = 2 * i + 1 ∨ c = 2 * i + 2.
Proof.
  intros Hc. unfold parent. split.
  - intros <-. pose proof (Nat.div_mod_eq (c - 1) 2).
    pose proof (Nat.mod_upper_bound (c - 1) 2). lia.
  - intros [-> | ->].
    + replace (2 * i + 1 - 1) with (i * 2) by lia. by apply Nat.div_mul.
    + replace (2 * i + 2 - 1) with (1 + i * 2) by lia.
      rewrite Nat.div_add by lia. done.
Qed.

Lemma parent_self j : parent j = j ↔ j = 0.
Proof.
  destruct (decide (j = 0)) as [->|]; [done|].
  pose proof (parent_lt j ltac:(lia)). lia.
Qed.

Lemma heap_upto_order i n l : order_except i n l → above_ok i n l → below_ok i n l →
  heap_upto n l.
Proof.
  intros [H1 _] Ha Hb c Hc.
  destruct (decide (parent c = i)) as [<-|]; [by apply Hb|].
  destruct (decide (c = i)) as [->|]; [by apply Ha|]. auto.
Qed.

Lemma heap_order_except i n l : heap_upto n l → order_except i n l.
Proof.
  intros H. split; [auto|]. intros c Hc Hi <-.
  pose proof (parent_lt c ltac:(lia)).
  transitivity (key_at l (parent c)); apply H; lia.
Qed.

(** A heap's root carries the least key. *)
Lemma heap_root_min n l i : heap_upto n l → i < n → (key_at l 0 ≤ key_at l i)%Z.
Proof.
  intros H. induction i as [i IH] using lt_wf_ind. intros Hi.
  destruct (decide (i = 0)) as [->|]; [lia|].
  pose proof (parent_lt i ltac:(lia)).
  transitivity (key_at l (parent i)); [apply IH; lia|]. apply H. lia.
Qed.

(** ** Swapping *)

Lemma less_some i j l : i < length l → j < length l →
  less i j l = Some (key_at l i <? key_at l j)%Z.
Proof.
  intros [x Hx]%lookup_lt_is_Some [y Hy]%lookup_lt_is_Some.
  unfold less, key_at. by rewrite Hx, Hy.
Qed.

(** What a rearrangement of the slice preserves. *)
Definition moved l l' : Prop :=
  length l' = length l ∧ items l' ≡ₚ items l ∧ (idx_ok l → idx_ok l').

Lemma moved_refl l : moved l l.
Proof. done. Qed.

Lemma moved_trans l1 l2 l3 : moved l1 l2 → moved l2 l3 → moved l1 l3.
Proof.
  intros (?&P1&?) (?&P2&?). split_and!; [congruence| |auto]. by rewrite P2, P1.
Qed.

Lemma strip_hset z x : strip (hset z x) = strip x.
Proof. apply hset_hset. Qed.

Lemma swap_spec i j l : i < length l → j < length l →
  ∃ l', swap i j l = Some l' ∧ moved l l' ∧
    key_at l' i = key_at l j ∧ key_at l' j = key_at l i ∧
    (∀ m, m ≠ i → m ≠ j → l' !! m = l !! m) ∧
    strip <$> l' !! i = strip <$> l !! j ∧ strip <$> l' !! j = strip <$> l !! i.
Proof.
  intros Hi Hj.
  destruct (lookup_lt_is_Some_2 _ _ Hi) as [x Hx].
  destruct (lookup_lt_is_Some_2 _ _ Hj) as [y Hy].
  unfold swap. rewrite Hx, Hy. simpl. eexists. split; [done|].
  assert (Hli : (<[j := hset (Z.of_nat j) x]> (<[i := hset (Z.of_nat i) y]> l)) !! j
    = Some (hset (Z.of_nat j) x)).
  { apply list_lookup_insert_eq. by rewrite length_insert. }
  assert (Hlj : ∃ z, (<[j := hset (Z.of_nat j) x]> (<[i := hset (Z.of_nat i) y]> l)) !! i
    = Some (hset z y)).
  { destruct (decide (i = j)) as [->|]; [exists (Z.of_nat j); simplify_eq|exists (Z.of_nat i)].
    - done.
    - rewrite list_lookup_insert_ne by done. by apply list_lookup_insert_eq. }
  destruct Hlj as [z Hlj]. split_and!.
  - split_and!; [by rewrite !length_insert| |].
    + unfold items. rewrite !list_fmap_insert, !strip_hset.
      apply Permutation_insert_swap; rewrite list_lookup_fmap.
      * by rewrite Hx.
      * by rewrite Hy.
    + intros Hok m w. destruct (decide (m = j)) as [->|Hmj].
      { rewrite Hli. intros [= <-]. apply hidx_hset. }
      rewrite list_lookup_insert_ne by done.
      destruct (decide (m = i)) as [->|Hmi].
      { rewrite list_lookup_insert_eq by done. intros [= <-]. apply hidx_hset. }
      rewrite list_lookup_insert_ne by done. apply Hok.
  - unfold key_at. rewrite Hlj, Hy. apply hkey_hset.
  - unfold key_at. rewrite Hli, Hx. apply hkey_hset.
  - intros m ??. by rewrite !list_lookup_insert_ne.
  - rewrite Hlj. simpl. by rewrite strip_hset.
  - rewrite Hli. simpl. by rewrite strip_hset.
Qed.

(** Keys away from the two swapped positions are untouched. *)
Lemma key_at_other l l' m : l' !! m = l !! m → key_at l' m = key_at l m.
Proof. unfold key_at. by intros ->. Qed.

(** ** Sifting up *)

(** One step up: the hole moves to the parent. *)
Lemma up_step j n l l' : 0 < j < n →
  order_except j n l → below_ok j n l → (key_at l j < key_at l (parent j))%Z →
  key_at l' (parent j) = key_at l j → key_at l' j = key_at l (parent j) →
  (∀ m, m ≠ parent j → m ≠ j → l' !! m = l !! m) →
  order_except (parent j) n l' ∧ below_ok (parent j) n l'.
Proof.
  intros Hj [He1 He2] Hb Hk Hi Hj' Ho.
  pose proof (parent_lt j ltac:(lia)) as Hlt. split; [split|].
  - intros c Hc Hpc Hcp. destruct (decide (parent c = j)) as [Hcj|Hcj].
    + rewrite Hcj, Hj'. pose proof (parent_lt c ltac:(lia)).
      rewrite (key_at_other _ _ c) by (apply Ho; lia). apply He2; [lia|lia|done].
    + rewrite (key_at_other _ _ (parent c)) by (apply Ho; lia).
      destruct (decide (c = j)) as [->|Hcj']; [lia|].
      rewrite (key_at_other _ _ c) by (apply Ho; lia). by apply He1.
  - intros c Hc Hpp Hpc. pose proof (parent_lt (parent j) ltac:(lia)).
    rewrite (key_at_other _ _ (parent (parent j))) by (apply Ho; lia).
    assert (key_at l (parent (parent j)) ≤ key_at l (parent j))%Z by (apply He1; lia).
    destruct (decide (c = j)) as [->|Hcj]; [rewrite Hj'; lia|].
    pose proof (parent_lt c ltac:(lia)).
    rewrite (key_at_other _ _ c) by (apply Ho; lia).
    etrans; [done|]. rewrite <- Hpc. apply He1; lia.
  - intros c Hc Hpc. rewrite Hi. pose proof (parent_lt c ltac:(lia)).
    destruct (decide (c = j)) as [->|Hcj]; [rewrite Hj'; lia|].
    rewrite (key_at_other _ _ c) by (apply Ho; lia).
    specialize (He1 c Hc). rewrite Hpc in He1.
    transitivity (key_at l (parent j)); [lia|]. apply He1; lia.
Qed.

Lemma up_spec fuel j n l : j < fuel → j < n → n ≤ length l →
  order_except j n l → below_ok j n l →
  ∃ l', up fuel j l = Some l' ∧ moved l l' ∧
    (∀ m, n ≤ m → l' !! m = l !! m) ∧ heap_upto n l'.
Proof.
  revert j l. induction fuel as [|fuel IH]; intros j l Hf Hj Hn He Hb; [lia|]. simpl.
  destruct (Nat.eqb_spec (parent j) j) as [Hp|Hp].
  { apply parent_self in Hp as ->. exists l. split_and!; [done|apply moved_refl|done|].
    eapply heap_upto_order; [done| |done]. intros ?. lia. }
  assert (0 < j) as Hj0 by (rewrite parent_self in Hp; lia).
  pose proof (parent_lt j Hj0) as Hlt.
  rewrite less_some by lia. simpl.
  destruct (Z.ltb_spec (key_at l j) (key_at l (parent j))) as [Hk|Hk]; last first.
  { exists l. split_and!; [done|apply moved_refl|done|].
    eapply heap_upto_order; [done| |done]. by intros ?. }
  destruct (swap_spec (parent j) j l ltac:(lia) ltac:(lia))
    as (l' & Hs & Hm & Hi & Hj' & Ho & _).
  rewrite Hs. simpl. pose proof Hm as (Hlen & _ & _).
  destruct (up_step j n l l') as [He' Hb']; try done.
  destruct (IH (parent j) l') as (l'' & Hup & Hm' & Hfr & Hok); [lia..|done|done|].
  exists l''. split_and!; [done|by eapply moved_trans| |done].
  intros m Hm0. rewrite Hfr by done. apply Ho; lia.
Qed.

(** ** Sifting down *)

(** The child [down] compares with is the smaller of the two. *)
Definition least_child i j n l : Prop :=
  i < j < n ∧ parent j = i ∧
  ∀ c, 0 < c < n → parent c = i → (key_at l j ≤ key_at l c)%Z.

Lemma least_child_spec i n l : n ≤ length l → 2 * i + 1 < n →
  ∃ b : bool, (if 2 * i + 1 + 1 <? n then less (2 * i + 1 + 1) (2 * i + 1) l else Some false)
    = Some b ∧ least_child i (if b then 2 * i + 1 + 1 else 2 * i + 1) n l.
Proof.
  intros Hn Hi. unfold least_child.
  destruct (Nat.ltb_spec (2 * i + 1 + 1) n) as [H2|H2].
  - rewrite less_some by lia. eexists. split; [done|].
    destruct (Z.ltb_spec (key_at l (2 * i + 1 + 1)) (key_at l (2 * i + 1))) as [Hk|Hk].
    + split_and!; [lia|lia|apply parent_children; lia|].
      intros c Hc [->| ->]%parent_children; [lia| |lia].
      replace (2 * i + 1 + 1) with (2 * i + 2) by lia. lia.
    + split_and!; [lia|lia|apply parent_children; lia|].
      intros c Hc [->| ->]%parent_children; [lia| |lia].
      replace (2 * i + 1 + 1) with (2 * i + 2) in Hk by lia. lia.
  - exists false. split; [done|].
    split_and!; [lia|lia|apply parent_children; lia|].
    intros c Hc [->| ->]%parent_children; lia.
Qed.

(** One step down: the hole moves to the least child. *)
Lemma down_step i j n l l' : n ≤ length l →
  order_except i n l → least_child i j n l → (key_at l j < key_at l i)%Z →
  key_at l' i = key_at l j → key_at l' j = key_at l i →
  (∀ m, m ≠ i → m ≠ j → l' !! m = l !! m) →
  order_except j n l' ∧ above_ok j n l'.
Proof.
  intros Hn [He1 He2] (Hij & Hp & Hmin) Hlt Hi Hj Ho. split; [split|].
  - intros c Hc Hpc Hcj. pose proof (parent_lt c ltac:(lia)).
    destruct (decide (c = i)) as [->|Hci].
    + rewrite Hi, (key_at_other _ _ (parent i)) by (apply Ho; lia).
      apply He2; [lia|lia|done].
    + rewrite (key_at_other _ _ c) by (apply Ho; lia).
      destruct (decide (parent c = i)) as [E|E]; [rewrite E, Hi; by apply Hmin|].
      rewrite (key_at_other _ _ (parent c)) by (apply Ho; lia). by apply He1.
  - intros c Hc Hj0 Hpc. pose proof (parent_lt c ltac:(lia)). rewrite Hp, Hi.
    rewrite (key_at_other _ _ c) by (apply Ho; lia).
    rewrite <- Hpc. apply He1; lia.
  - intros Hj0. rewrite Hp, Hi, Hj. lia.
Qed.

Definition down_post i n l l' i' : Prop :=
  (i' = i ∧ l' = l ∧ below_ok i n l) ∨ (i < i' ∧ heap_upto n l').

Lemma down_loop_spec fuel i n l : n - i < fuel → i < n → n ≤ length l →
  order_except i n l →
  ∃ l' i', down_loop fuel i n l = Some (l', i') ∧ moved l l' ∧
    (∀ m, n ≤ m → l' !! m = l !! m) ∧ down_post i n l l' i'.
Proof.
  revert i l. induction fuel as [|fuel IH]; intros i l Hf Hi Hn He; [lia|].
  cbn [down_loop]. destruct (Nat.leb_spec n (2 * i + 1)) as [Hj|Hj].
  { exists l, i. split_and!; [done|apply moved_refl|done|]. left.
    split_and!; [done|done|]. intros c Hc Hpc%parent_children; lia. }
  destruct (least_child_spec i n l) as (b & -> & Hmin); [lia|lia|].
  cbn [mbind option_bind]. set (j := if b then _ else _) in *.
  pose proof Hmin as (Hij & Hp & Hleast).
  rewrite less_some by lia. cbn [mbind option_bind].
  destruct (Z.ltb_spec (key_at l j) (key_at l i)) as [Hk|Hk]; last first.
  { exists l, i. split_and!; [done|apply moved_refl|done|]. left.
    split_and!; [done|done|]. intros c Hc Hpc. etrans; [done|]. by apply Hleast. }
  destruct (swap_spec i j l ltac:(lia) ltac:(lia)) as (l1 & Hs & Hm & Hsi & Hsj & Ho & _).
  rewrite Hs. cbn [mbind option_bind].
  destruct (down_step i j n l l1) as [He1 Ha1]; try done.
  pose proof Hm as (Hlen & _ & _).
  destruct (IH j l1) as (l' & i' & Hd & Hm' & Hfr & Hpost); [lia|lia|lia|done|].
  exists l', i'. split_and!; [done|by eapply moved_trans| |].
  - intros m Hm0. rewrite Hfr by done. apply Ho; lia.
  - right. destruct Hpost as [(-> & -> & Hb)|[??]]; [|split; [lia|done]].
    split; [lia|]. by eapply heap_upto_order.
Qed.

Lemma down_spec i n l : i < n → n ≤ length l → order_except i n l →
  ∃ l' b, down i n l = Some (l', b) ∧ moved l l' ∧
    (∀ m, n ≤ m → l' !! m = l !! m) ∧
    (if (b : bool) then heap_upto n l' else l' = l ∧ below_ok i n l).
Proof.
  intros Hi Hn He. unfold down.
  destruct (down_loop_spec (S n) i n l) as (l' & i' & -> & Hm & Hfr & Hpost); [lia..|done|].
  simpl. exists l', (i <? i'). split_and!; [done..|].
  destruct Hpost as [(-> & -> & Hb)|[? ?]].
  - by rewrite Nat.ltb_irrefl.
  - by rewrite (proj2 (Nat.ltb_lt _ _)).
Qed.

(** [down], then [up] when it did not move: the common tail of [heap.Fix] and
    [heap.Remove]. *)
Lemma settle_spec i n l : i < n → n ≤ length l → order_except i n l →
  ∃ l', (r ← down i n l; if (r.2 : bool) then Some r.1 else up (S i) i r.1) = Some l' ∧
    moved l l' ∧ (∀ m, n ≤ m → l' !! m = l !! m) ∧ heap_upto n l'.
Proof.
  intros Hi Hn He.
  destruct (down_spec i n l Hi Hn He) as (l' & b & -> & Hm & Hfr & Hb).
  cbn [mbind option_bind fst snd].
  destruct b; [by exists l'|]. destruct Hb as [-> Hb].
  apply up_spec; [lia|done..].
Qed.

(** ** The operations *)

Lemma fmap_removelast {B} (f : A → B) l : f <$> removelast l = removelast (f <$> l).
Proof.
  induction l as [|x l IH]; [done|]. destruct l; [done|].
  change (f x :: (f <$> removelast (a :: l)) = f x :: removelast (f <$> (a :: l))).
  by rewrite IH.
Qed.

Lemma removelast_take l : removelast l = take (length l - 1) l.
Proof. rewrite removelast_firstn_len. do 2 f_equal. lia. Qed.

Lemma lookup_removelast l i : i < length l - 1 → removelast l !! i = l !! i.
Proof. intros. rewrite removelast_take. by apply lookup_take_lt. Qed.

(** Dropping the last item of a slice whose other items are in heap order. *)
Lemma pop_last_spec l : l ≠ [] → heap_upto (length l - 1) l → idx_ok l →
  ∃ x l', pop_last l = Some (hset (-1) x, l') ∧ l !! (length l - 1) = Some x ∧
    items l ≡ₚ strip x :: items l' ∧ heap_ok l' ∧ idx_ok l'.
Proof.
  intros Hne Hh Hidx. destruct (exists_last Hne) as (l' & x & ->).
  unfold pop_last. rewrite last_snoc, removelast_last. simpl.
  assert (length (l' ++ [x]) - 1 = length l') as El
    by (rewrite length_app; simpl; lia).
  rewrite El in *. exists x, l'. split_and!.
  - done.
  - by rewrite lookup_app_r, Nat.sub_diag by lia.
  - unfold items. rewrite fmap_app. simpl. by rewrite <- Permutation_cons_append.
  - intros c Hc. specialize (Hh c Hc). pose proof (parent_lt c ltac:(lia)).
    rewrite !(key_at_other l' (l' ++ [x])) in Hh; [done|..];
      apply lookup_app_l; lia.
  - intros i y Hy. apply Hidx. apply lookup_app_l_Some. done.
Qed.

Lemma heap_Push_spec x l : heap_ok l → idx_ok l →
  ∃ l', heap_Push x l = Some l' ∧ items l' ≡ₚ strip x :: items l ∧
    length l' = S (length l) ∧ heap_ok l' ∧ idx_ok l'.
Proof.
  intros Hh Hidx. unfold heap_Push.
  set (l1 := l ++ [hset (Z.of_nat (length l)) x]).
  assert (length l1 = S (length l)) as El by (unfold l1; rewrite length_app; simpl; lia).
  assert (Hk : ∀ c, c < length l → key_at l1 c = key_at l c).
  { intros c Hc. apply key_at_other. by apply lookup_app_l. }
  destruct (up_spec (S (length l)) (length l) (length l1) l1)
    as (l' & -> & (Hlen & Hp & Hi) & _ & Hok); [lia..| | |].
  - split.
    + intros c Hc Hpc Hcn. pose proof (parent_lt c ltac:(lia)).
      rewrite !Hk by lia. apply Hh. lia.
    + intros c Hc _ Hpc. pose proof (parent_lt c ltac:(lia)). lia.
  - intros c Hc Hpc. pose proof (parent_lt c ltac:(lia)). lia.
  - exists l'. split_and!; [done| |lia| |].
    + rewrite Hp. unfold items, l1. rewrite fmap_app. simpl.
      rewrite strip_hset. by rewrite <- Permutation_cons_append.
    + unfold heap_ok. by rewrite Hlen.
    + apply Hi. intros i y [Hy|[Hge Hy]]%lookup_app_Some; [by apply Hidx|].
      apply list_lookup_singleton_Some in Hy as [Hz <-].
      rewrite hidx_hset. f_equal. lia.
Qed.

Lemma items_key_min l z : (∀ i, i < length l → (z ≤ key_at l i)%Z) →
  ∀ y, strip y ∈ items l → (z ≤ hkey y)%Z.
Proof.
  intros H y (w & Heq & Hw)%list_elem_of_fmap.
  apply list_elem_of_lookup in Hw as [i Hi].
  specialize (H i (lookup_lt_Some _ _ _ Hi)).
  unfold key_at in H. rewrite Hi in H. simpl in H.
  rewrite <- (hkey_hset 0 y). change (hset 0 y) with (strip y). rewrite Heq.
  unfold strip. by rewrite hkey_hset.
Qed.

Lemma moved_ne l l' : moved l l' → l ≠ [] → l' ≠ [].
Proof. intros (H & _) Hne ->. by destruct l. Qed.

(** The slice after the root went to position [n], which is out of order at
    the root only. *)
Lemma swapped_root_order l l1 n : heap_upto n l →
  (∀ m, m ≠ 0 → m ≠ n → l1 !! m = l !! m) → order_except 0 n l1.
Proof.
  intros Hh Ho. split; [|intros; lia].
  intros c Hc Hpc Hc0. pose proof (parent_lt c ltac:(lia)).
  rewrite !(key_at_other l l1) by (apply Ho; lia). by apply Hh.
Qed.

Lemma heap_Pop_spec l : l ≠ [] → heap_ok l → idx_ok l →
  ∃ x l', heap_Pop l = Some (hset (-1) x, l') ∧
    strip <$> l !! 0 = Some (strip x) ∧
    items l ≡ₚ strip x :: items l' ∧ heap_ok l' ∧ idx_ok l' ∧
    (∀ y, strip y ∈ items l → (hkey x ≤ hkey y)%Z).
Proof.
  intros Hne Hh Hidx. unfold heap_Pop.
  assert (0 < length l) as Hl by (destruct l; simpl; [done|lia]).
  set (n := length l - 1).
  destruct (swap_spec 0 n l) as (l1 & -> & Hm1 & Hk0 & Hkn & Ho & _ & Hsn); [lia..|].
  cbn [mbind option_bind].
  assert (Hd : ∃ l2 b, down 0 n l1 = Some (l2, b) ∧ moved l1 l2 ∧
    (∀ m, n ≤ m → l2 !! m = l1 !! m) ∧ heap_upto n l2).
  { destruct (decide (n = 0)) as [->|Hn0].
    - exists l1, false. split_and!; [done|apply moved_refl|done|]. intros c Hc. lia.
    - destruct (down_spec 0 n l1) as (l2 & b & Hd & Hm2 & Hfr & Hb); [lia| | |].
      + destruct Hm1 as [-> _]. lia.
      + apply (swapped_root_order l); [|done]. intros c Hc. apply Hh. lia.
      + exists l2, b. split_and!; try done. destruct b; [done|].
        destruct Hb as [-> Hb]. eapply heap_upto_order; [| |done].
        * apply (swapped_root_order l); [|done]. intros c Hc. apply Hh. lia.
        * intros ?. lia. }
  destruct Hd as (l2 & b & -> & Hm2 & Hfr & Hh2).
  cbn [mbind option_bind fst].
  pose proof (moved_trans _ _ _ Hm1 Hm2) as Hm.
  pose proof Hm as (Hlen & Hp & Hi).
  destruct (pop_last_spec l2) as (x & l' & -> & Hx & Hp' & Hh' & Hi').
  { by eapply moved_ne. }
  { by rewrite Hlen. }
  { by apply Hi. }
  rewrite Hlen in Hx. fold n in Hx. rewrite Hfr in Hx by lia.
  rewrite Hx in Hsn. simpl in Hsn.
  exists x, l'. split_and!; [done|by rewrite <- Hsn|by rewrite <- Hp'|done|done|].
  apply items_key_min. intros i Hi0.
  assert (hkey x = key_at l 0) as ->.
  { rewrite <- Hkn. unfold key_at. by rewrite Hx. }
  by eapply heap_root_min.
Qed.

Lemma heap_Fix_spec i l : i < length l → order_except i (length l) l → idx_ok l →
  ∃ l', heap_Fix i l = Some l' ∧ items l' ≡ₚ items l ∧ heap_ok l' ∧ idx_ok l'.
Proof.
  intros Hi He Hidx. unfold heap_Fix.
  destruct (settle_spec i (length l) l) as (l' & -> & (Hlen & Hp & Hx) & _ & Hh);
    [lia..|done|].
  exists l'. split_and!; [done..| |by apply Hx].
  unfold heap_ok. by rewrite Hlen.
Qed.

Lemma heap_Remove_spec i l : i < length l → heap_ok l → idx_ok l →
  ∃ x l', heap_Remove i l = Some (hset (-1) x, l') ∧
    strip <$> l !! i = Some (strip x) ∧
    items l ≡ₚ strip x :: items l' ∧ heap_ok l' ∧ idx_ok l'.
Proof.
  intros Hi Hh Hidx. unfold heap_Remove. set (n := length l - 1).
  assert (l ≠ []) as Hne by (by intros ->; simpl in Hi; lia).
  assert (heap_upto n l) as Hhn by (intros c Hc; apply Hh; lia).
  destruct (Nat.eqb_spec n i) as [Hni|Hni].
  { destruct (pop_last_spec l) as (x & l' & -> & Hx & ?); [done..|].
    exists x, l'. split; [done|]. split; [|done]. fold n in Hx. rewrite Hni in Hx.
    by rewrite Hx. }
  destruct (swap_spec i n l) as (l1 & -> & Hm1 & Hk0 & Hkn & Ho & _ & Hsn); [lia..|].
  cbn [mbind option_bind]. pose proof Hm1 as (Hlen1 & _).
  assert (order_except i n l1) as He.
  { destruct (heap_order_except i _ _ Hhn) as [H1 H2]. split.
    - intros c Hc Hpc Hci. pose proof (parent_lt c ltac:(lia)).
      rewrite !(key_at_other l l1) by (apply Ho; lia). by apply H1.
    - intros c Hc Hi0 Hpc. pose proof (parent_lt c ltac:(lia)).
      pose proof (parent_lt i ltac:(lia)).
      rewrite !(key_at_other l l1) by (apply Ho; lia). by apply H2. }
  destruct (settle_spec i n l1) as (l2 & Hs & Hm2 & Hfr & Hh2); [lia..|done|].
  destruct (down i n l1) as [r|]; [|done]. cbn [mbind option_bind] in Hs |- *.
  rewrite Hs. cbn [mbind option_bind].
  pose proof (moved_trans _ _ _ Hm1 Hm2) as Hm. pose proof Hm as (Hlen & Hp & Hx0).
  destruct (pop_last_spec l2) as (x & l' & -> & Hx & Hp' & Hh' & Hi').
  { by eapply moved_ne. }
  { by rewrite Hlen. }
  { by apply Hx0. }
  rewrite Hlen in Hx. fold n in Hx. rewrite Hfr in Hx by lia.
  rewrite Hx in Hsn. simpl in Hsn.
  exists x, l'. split_and!; [done|by rewrite <- Hsn|by rewrite <- Hp'|done|done].
Qed.

(** Changing one key leaves the order intact away from it. *)
Lemma order_except_update i l l' : heap_ok l → length l' = length l →
  (∀ m, m ≠ i → l' !! m = l !! m) → order_except i (length l') l'.
Proof.
  intros Hh Hlen Ho. rewrite Hlen. destruct (heap_order_except i _ _ Hh) as [H1 H2].
  split.
  - intros c Hc Hpc Hci. rewrite !(key_at_other l l') by (by apply Ho). by apply H1.
  - intros c Hc Hi0 Hpc. pose proof (parent_lt c ltac:(lia)).
    pose proof (parent_lt i ltac:(lia)).
    rewrite !(key_at_other l l') by (apply Ho; lia). by apply H2.
Qed.

End heap.

#[export] Hint Resolve moved_refl : joblet.
