(* ===== verification/PriorityQueue.v ===== *)
(** * The scheduler's priority queue (internal/joblet/scheduler/priority_queue.go)

    The queue is the slice of its items, run through the heap of [Heap].  An
    item holds its job by value: the queue owns the jobs handed to [Add].  An
    operation returns [None] where the code would panic. *)

From S2P Require Import Prelude GoStrings Values Paths Job Heap.

Local Open Scope Z_scope.

(** ** Items and the slice *)

(** [src/internal/joblet/scheduler/priority_queue.go ScheduledJob] *)
Record ScheduledJob := { sj_Job : Job; sj_ScheduledTime : Z; sj_Index : Z }.

(** [Less] compares [ScheduledTime], [Swap], [Push] and [Pop] write [Index].
    [src/internal/joblet/scheduler/priority_queue.go:40-67 PriorityQueue.Less] *)
#[export, refine] Instance ScheduledJob_HeapItem : HeapItem ScheduledJob := {|
  hkey := sj_ScheduledTime;
  hidx := sj_Index;
  hset i x := {| sj_Job := sj_Job x; sj_ScheduledTime := sj_ScheduledTime x; sj_Index := i |};
|}.
Proof. all: done. Defined.

(** [src/internal/joblet/scheduler/priority_queue.go PriorityQueue] *)
Definition PriorityQueue : Type := list ScheduledJob.

(** [heap.Init] of an empty slice does nothing.
    [src/internal/joblet/scheduler/priority_queue.go NewPriorityQueue] *)
Definition NewPriorityQueue : PriorityQueue := [].

(** ** Operations *)

(** [src/internal/joblet/scheduler/priority_queue.go PriorityQueue.Add] *)
Definition Add (job : Job) (pq : PriorityQueue) : option PriorityQueue :=
  match ScheduledTime job with
  | None => Some pq
  | Some t => heap_Push {| sj_Job := job; sj_ScheduledTime := t; sj_Index := 0 |} pq
  end.

(** [src/internal/joblet/scheduler/priority_queue.go PriorityQueue.Peek] *)
Definition Peek (pq : PriorityQueue) : option Job := sj_Job <$> head pq.

(** [src/internal/joblet/scheduler/priority_queue.go PriorityQueue.Next] *)
Definition Next (pq : PriorityQueue) : option (option Job * PriorityQueue) :=
  match pq with
  | [] => Some (None, pq)
  | _ => r ← heap_Pop pq; Some (Some (sj_Job r.1), r.2)
  end.

(** The position of the first item whose job has the id. *)
Definition find_job (jobID : string) (pq : PriorityQueue) : option (nat * ScheduledJob) :=
  list_find (λ item, Uuid (sj_Job item) = jobID) pq.

(** [src/internal/joblet/scheduler/priority_queue.go PriorityQueue.Remove] *)
Definition Remove (jobID : string) (pq : PriorityQueue) : option (bool * PriorityQueue) :=
  match find_job jobID pq with
  | Some (i, _) => r ← heap_Remove i pq; Some (true, r.2)
  | None => Some (false, pq)
  end.

(** The item and its job get the new time, then the heap is fixed at the index
    the item stores.  The job is a value here: in the code the item shares it by pointer with
    whoever added it, who sees the new time too, and could change it without fixing the heap.
    [src/internal/joblet/scheduler/priority_queue.go PriorityQueue.Update] *)
Definition Update (jobID : string) (newScheduledTime : Z) (pq : PriorityQueue)
    : option (bool * PriorityQueue) :=
  match find_job jobID pq with
  | Some (i, item) =>
      let item' := {|
        sj_Job := with_ScheduledTime (sj_Job item) (Some newScheduledTime);
        sj_ScheduledTime := newScheduledTime;
        sj_Index := sj_Index item |} in
      if sj_Index item <? 0 then None
      else pq' ← heap_Fix (Z.to_nat (sj_Index item)) (<[i := item']> pq); Some (true, pq')
  | None => Some (false, pq)
  end.

(** [src/internal/joblet/scheduler/priority_queue.go PriorityQueue.GetAll] *)
Definition GetAll (pq : PriorityQueue) : list Job := (λ item, DeepCopy (sj_Job item)) <$> pq.

(** [src/internal/joblet/scheduler/priority_queue.go PriorityQueue.IsEmpty] *)
Definition IsEmpty (pq : PriorityQueue) : bool := Nat.eqb (length pq) 0.

(** [src/internal/joblet/scheduler/priority_queue.go PriorityQueue.Size] *)
Definition Size (pq : PriorityQueue) : Z := Z.of_nat (length pq).

(** [src/internal/joblet/scheduler/priority_queue.go PriorityQueue.GetNextExecutionTime] *)
Definition GetNextExecutionTime (pq : PriorityQueue) : option Z := sj_ScheduledTime <$> head pq.

(** ** Sequences of operations *)

Inductive pq_op :=
| OAdd (j : Job) | OPeek | ONext | ORemove (id : string) | OUpdate (id : string) (t : Z)
| OGetAll | OSize | ONextTime.

Inductive pq_out :=
| RUnit | RJob (j : option Job) | RBool (b : bool) | RJobs (l : list Job) | RSize (n : Z)
| RTime (t : option Z).

Definition pq_run (op : pq_op) (pq : PriorityQueue) : option (pq_out * PriorityQueue) :=
  match op with
  | OAdd j => pq' ← Add j pq; Some (RUnit, pq')
  | OPeek => Some (RJob (Peek pq), pq)
  | ONext => r ← Next pq; Some (RJob r.1, r.2)
  | ORemove id => r ← Remove id pq; Some (RBool r.1, r.2)
  | OUpdate id t => r ← Update id t pq; Some (RBool r.1, r.2)
  | OGetAll => Some (RJobs (GetAll pq), pq)
  | OSize => Some (RSize (Size pq), pq)
  | ONextTime => Some (RTime (GetNextExecutionTime pq), pq)
  end.

Fixpoint pq_runs (ops : list pq_op) (pq : PriorityQueue) : option (list pq_out * PriorityQueue) :=
  match ops with
  | [] => Some ([], pq)
  | op :: ops =>
      r ← pq_run op pq; rs ← pq_runs ops r.2; Some (r.1 :: rs.1, rs.2)
  end.

(** ** Specification: a bag of scheduled jobs *)

Definition due_before (j k : Job) : Prop :=
  ∃ t u, ScheduledTime j = Some t ∧ ScheduledTime k = Some u ∧ t ≤ u.

Definition earliest (j : Job) (l : list Job) : Prop := j ∈ l ∧ ∀ k, k ∈ l → due_before j k.

(** What an operation may answer on a bag, and the bag it leaves. *)
Definition pq_spec (op : pq_op) (l : list Job) (out : pq_out) (l' : list Job) : Prop :=
  match op with
  | OAdd j =>
      out = RUnit ∧ l' ≡ₚ (if ScheduledTime j then j :: l else l)
  | OPeek =>
      l' = l ∧ ∃ r, out = RJob r ∧ match r with Some j => earliest j l | None => l = [] end
  | ONext =>
      ∃ r, out = RJob r ∧
      match r with
      | Some j => earliest j l ∧ l ≡ₚ j :: l'
      | None => l = [] ∧ l' = []
      end
  | ORemove id =>
      (out = RBool false ∧ l' = l ∧ ∀ k, k ∈ l → Uuid k ≠ id) ∨
      (out = RBool true ∧ ∃ j, Uuid j = id ∧ l ≡ₚ j :: l')
  | OUpdate id t =>
      (out = RBool false ∧ l' = l ∧ ∀ k, k ∈ l → Uuid k ≠ id) ∨
      (out = RBool true ∧ ∃ j rest, Uuid j = id ∧ l ≡ₚ j :: rest ∧
         l' ≡ₚ with_ScheduledTime j (Some t) :: rest)
  | OGetAll => l' = l ∧ out = RJobs (DeepCopy <$> l)
  | OSize => l' = l ∧ out = RSize (Z.of_nat (length l))
  | ONextTime =>
      l' = l ∧ ∃ r, out = RTime r ∧
      match r with
      | Some t => ∃ j, earliest j l ∧ ScheduledTime j = Some t
      | None => l = []
      end
  end.

(** ** Invariant *)

Definition time_ok (x : ScheduledJob) : Prop := ScheduledTime (sj_Job x) = Some (sj_ScheduledTime x).

Definition pq_ok (pq : PriorityQueue) : Prop :=
  heap_ok pq ∧ idx_ok pq ∧ Forall time_ok pq.

Definition jobs (pq : PriorityQueue) : list Job := sj_Job <$> pq.

Lemma jobs_items pq : jobs pq = jobs (items pq).
Proof. unfold jobs, items. rewrite <- list_fmap_compose. done. Qed.

Lemma jobs_perm pq pq' : items pq ≡ₚ items pq' → jobs pq ≡ₚ jobs pq'.
Proof. intros H. rewrite (jobs_items pq), (jobs_items pq'). unfold jobs. by rewrite H. Qed.

Lemma time_ok_items pq : Forall time_ok pq ↔ Forall time_ok (items pq).
Proof. unfold items. rewrite Forall_fmap. done. Qed.

Lemma jobs_nil pq : jobs pq = [] ↔ pq = [].
Proof. destruct pq; done. Qed.

Lemma elem_of_jobs k pq : Forall time_ok pq → k ∈ jobs pq →
  ∃ x, x ∈ pq ∧ k = sj_Job x ∧ ScheduledTime k = Some (sj_ScheduledTime x).
Proof.
  intros Ht (x & -> & Hx)%list_elem_of_fmap. exists x. split_and!; [done..|].
  rewrite Forall_forall in Ht. by apply Ht.
Qed.

Lemma earliest_of x pq : Forall time_ok pq → sj_Job x ∈ jobs pq → time_ok x →
  (∀ y, y ∈ pq → sj_ScheduledTime x ≤ sj_ScheduledTime y) → earliest (sj_Job x) (jobs pq).
Proof.
  intros Ht Hx Hxt Hmin. split; [done|].
  intros k (y & Hy & -> & Hk)%elem_of_jobs; [|done]. exists (sj_ScheduledTime x), (sj_ScheduledTime y).
  split_and!; [done..|]. by apply Hmin.
Qed.

Lemma root_earliest x pq : pq_ok (x :: pq) → earliest (sj_Job x) (jobs (x :: pq)).
Proof.
  intros (Hh & _ & Ht). apply earliest_of; [done|by left|by inversion Ht|].
  intros y Hy. apply list_elem_of_lookup in Hy as [i Hi].
  pose proof (heap_root_min _ (x :: pq) i Hh (lookup_lt_Some _ _ _ Hi)) as H.
  unfold key_at in H. by rewrite Hi in H.
Qed.

Lemma Peek_spec pq : pq_ok pq →
  match Peek pq with Some j => earliest j (jobs pq) | None => jobs pq = [] end.
Proof. destruct pq as [|x pq]; [done|]. apply root_earliest. Qed.

Lemma find_job_spec id (pq : list ScheduledJob) i x : find_job id pq = Some (i, x) → pq !! i = Some x ∧ Uuid (sj_Job x) = id.
Proof. intros (?&?&_)%list_find_Some. done. Qed.

Lemma find_job_none id pq : find_job id pq = None → ∀ k, k ∈ jobs pq → Uuid k ≠ id.
Proof.
  intros H%list_find_None k (x & -> & Hx)%list_elem_of_fmap.
  rewrite Forall_forall in H. by apply H.
Qed.

(** Removing one item from the slice removes its job from the bag. *)
Lemma take_out x y pq pq' : Forall time_ok pq → strip x = strip y →
  items pq ≡ₚ strip y :: items pq' → jobs pq ≡ₚ sj_Job x :: jobs pq' ∧ Forall time_ok pq'.
Proof.
  intros Ht Hxy Hp. split.
  - assert (sj_Job x = sj_Job y) as -> by (by inversion Hxy).
    rewrite (jobs_items pq), (jobs_items pq'). unfold jobs. by rewrite Hp.
  - apply time_ok_items. apply time_ok_items in Ht. rewrite Hp in Ht. by inversion Ht.
Qed.

Lemma Add_refines j pq : pq_ok pq →
  ∃ pq', Add j pq = Some pq' ∧ pq_ok pq' ∧ pq_spec (OAdd j) (jobs pq) RUnit (jobs pq').
Proof.
  intros Hok. pose proof Hok as (Hh & Hi & Ht). simpl. unfold Add.
  destruct (ScheduledTime j) as [t|] eqn:Ej; [|by exists pq; split_and!].
  set (x := {| sj_Job := j; sj_ScheduledTime := t; sj_Index := 0 |}).
  destruct (heap_Push_spec x pq Hh Hi) as (pq' & -> & Hp & _ & ? & ?).
  assert (Forall time_ok pq') as Ht'.
  { apply time_ok_items. rewrite Hp. constructor; [done|].
    by apply (proj1 (time_ok_items pq)). }
  eexists. split; [done|]. split; [done|]. split; [done|].
  by destruct (take_out x x pq' pq).
Qed.

Lemma Next_refines pq : pq_ok pq →
  ∃ r pq', Next pq = Some (r, pq') ∧ pq_ok pq' ∧ pq_spec ONext (jobs pq) (RJob r) (jobs pq').
Proof.
  intros Hok. pose proof Hok as (Hh & Hi & Ht).
  destruct pq as [|x pq]; [eexists _, _; split_and!; [done..|by eexists]|].
  unfold Next. destruct (heap_Pop_spec (x :: pq)) as (y & pq' & -> & Hy & Hp & ? & ? & _); [done..|].
  simpl in Hy. apply (inj Some) in Hy.
  destruct (take_out x y (x :: pq) pq') as [Hj Ht']; [done..|].
  assert (sj_Job (hset (-1) y) = sj_Job x) as E by (by inversion Hy).
  eexists (Some (sj_Job x)), pq'. split; [by rewrite <- E|]. split; [done|].
  eexists. split; [done|]. split; [by apply root_earliest|done].
Qed.

Lemma Remove_refines id pq : pq_ok pq →
  ∃ b pq', Remove id pq = Some (b, pq') ∧ pq_ok pq' ∧
    pq_spec (ORemove id) (jobs pq) (RBool b) (jobs pq').
Proof.
  intros Hok. pose proof Hok as (Hh & Hi & Ht). unfold Remove.
  destruct (find_job id pq) as [[i x]|] eqn:Ef.
  - apply find_job_spec in Ef as [Hx Hid].
    destruct (heap_Remove_spec i pq) as (y & pq' & -> & Hy & Hp & ? & ?);
      [by eapply lookup_lt_Some|done|done|].
    rewrite Hx in Hy. simpl in Hy. apply (inj Some) in Hy.
    destruct (take_out x y pq pq') as [Hj Ht']; [done..|].
    eexists _, _. split; [done|]. split; [done|]. right. eauto.
  - eexists _, _. split; [done|]. split; [done|]. left. split_and!; [done..|].
    by apply find_job_none.
Qed.

(** The slice with the found item's time changed, before the heap is fixed. *)
Lemma Update_slice i x x' (pq : list ScheduledJob) : pq !! i = Some x → pq_ok pq → time_ok x' → sj_Index x' = sj_Index x →
  order_except i (length (<[i := x']> pq)) (<[i := x']> pq) ∧ idx_ok (<[i := x']> pq) ∧
  Forall time_ok (<[i := x']> pq) ∧
  ∃ rest, jobs pq ≡ₚ sj_Job x :: rest ∧ jobs (<[i := x']> pq) ≡ₚ sj_Job x' :: rest.
Proof.
  intros Hx (Hh & Hi & Ht) Htx Hidx. split_and!.
  - eapply order_except_update; [done|by rewrite length_insert|].
    intros m Hm. by apply list_lookup_insert_ne.
  - intros m y Hy. destruct (decide (m = i)) as [->|Hne].
    + rewrite list_lookup_insert_eq in Hy by (by eapply lookup_lt_Some).
      simplify_eq. simpl. rewrite Hidx. by apply (Hi i x).
    + rewrite list_lookup_insert_ne in Hy by done. by apply Hi.
  - by apply Forall_insert.
  - exists (jobs (take i pq ++ drop (S i) pq)). unfold jobs. split.
    + rewrite <- (take_drop_middle pq i x Hx) at 1. rewrite fmap_app, fmap_cons, fmap_app.
      by rewrite <- Permutation_middle.
    + rewrite insert_take_drop by (by eapply lookup_lt_Some). rewrite fmap_app, fmap_cons, fmap_app.
      by rewrite <- Permutation_middle.
Qed.

Lemma Update_refines id t pq : pq_ok pq →
  ∃ b pq', Update id t pq = Some (b, pq') ∧ pq_ok pq' ∧
    pq_spec (OUpdate id t) (jobs pq) (RBool b) (jobs pq').
Proof.
  intros Hok. pose proof Hok as (Hh & Hi & Ht). unfold Update.
  destruct (find_job id pq) as [[i x]|] eqn:Ef.
  - apply find_job_spec in Ef as [Hx Hid].
    assert (Ei : sj_Index x = Z.of_nat i) by (by apply (Hi i x)).
    set (x' := {| sj_Job := _; sj_ScheduledTime := t; sj_Index := _ |}).
    destruct (Update_slice i x x' pq) as (Ho & Hi' & Ht' & rest & Hr1 & Hr2); [done..|].
    replace (sj_Index x <? 0) with false by (symmetry; apply Z.ltb_ge; lia).
    rewrite Ei, Nat2Z.id.
    assert (i < length (<[i := x']> (pq : list ScheduledJob)))%nat as Hlt
      by (rewrite length_insert; by eapply lookup_lt_Some).
    destruct (heap_Fix_spec i _ Hlt Ho Hi') as (pq' & Ef & Hp & ? & ?).
    change (<[i := x']> pq) with (<[i := x']> (pq : list ScheduledJob)). rewrite Ef.
    eexists _, _. split; [done|]. split.
    + split_and!; [done..|]. apply time_ok_items. rewrite Hp. by apply (proj1 (time_ok_items _)).
    + right. split; [done|]. exists (sj_Job x), rest. split_and!; [done..|].
      rewrite (jobs_perm _ _ Hp). done.
  - eexists _, _. split; [done|]. split; [done|]. left. split_and!; [done..|].
    by apply find_job_none.
Qed.

(** One operation keeps the invariant and answers as specified. *)
Lemma pq_run_refines op pq : pq_ok pq →
  ∃ out pq', pq_run op pq = Some (out, pq') ∧ pq_ok pq' ∧ pq_spec op (jobs pq) out (jobs pq').
Proof.
  intros Hok. destruct op as [j| | |id|id t| | |].
  - destruct (Add_refines j pq Hok) as (? & E & ?). simpl. rewrite E. simpl. eauto.
  - eexists _, _. split; [done|]. split; [done|]. split; [done|].
    destruct pq as [|x pq]; [by eexists|]. eexists. split; [done|]. by apply root_earliest.
  - destruct (Next_refines pq Hok) as (? & ? & E & ?). cbn [pq_run]. rewrite E. simpl. eauto.
  - destruct (Remove_refines id pq Hok) as (? & ? & E & ?). cbn [pq_run]. rewrite E. simpl. eauto.
  - destruct (Update_refines id t pq Hok) as (? & ? & E & ?). cbn [pq_run]. rewrite E. simpl. eauto.
  - eexists _, _. split; [done|]. split; [done|]. split; [done|]. unfold jobs, GetAll.
    by rewrite <- list_fmap_compose.
  - eexists _, _. split; [done|]. split; [done|]. split; [done|]. unfold jobs.
    by rewrite length_fmap.
  - eexists _, _. split; [done|]. split; [done|]. split; [done|].
    destruct pq as [|x pq]; [by eexists|]. eexists. split; [done|].
    exists (sj_Job x). split; [by apply root_earliest|]. destruct Hok as (_ & _ & Ht). by inversion Ht.
Qed.

#[export] Hint Resolve Add_refines Next_refines Remove_refines : joblet.

Lemma NewPriorityQueue_ok : pq_ok NewPriorityQueue.
Proof. split_and!; [intros c Hc; simpl in Hc; lia|done|constructor]. Qed.

#[export] Hint Resolve NewPriorityQueue_ok : joblet.

(** The traces the specification allows. *)
Inductive spec_runs : list pq_op → list Job → list pq_out → list Job → Prop :=
| spec_done l : spec_runs [] l [] l
| spec_step op ops l out l' outs l'' :
    pq_spec op l out l' → spec_runs ops l' outs l'' →
    spec_runs (op :: ops) l (out :: outs) l''.

Lemma pq_runs_refines ops pq : pq_ok pq →
  ∃ outs pq', pq_runs ops pq = Some (outs, pq') ∧ pq_ok pq' ∧
    spec_runs ops (jobs pq) outs (jobs pq').
Proof.
  revert pq. induction ops as [|op ops IH]; intros pq Hok.
  { eexists _, _. split; [done|]. split; [done|]. constructor. }
  destruct (pq_run_refines op pq Hok) as (out & pq' & E & Hok' & Hs).
  destruct (IH pq' Hok') as (outs & pq'' & E' & ? & ?).
  exists (out :: outs), pq''. simpl. rewrite E. simpl. rewrite E'. simpl.
  split_and!; [done..|]. by econstructor.
Qed.

(** C23 The queue implements the bag of scheduled jobs: no sequence of operations on a
    new queue panics, the invariant (heap order, stored indices, item times equal
    to the jobs' times) holds after it, and every answer on the way is one the
    specification allows. *)
Theorem pq_implements_bag ops :
  ∃ outs pq, pq_runs ops NewPriorityQueue = Some (outs, pq) ∧ pq_ok pq ∧
    spec_runs ops [] outs (jobs pq).
Proof. apply (pq_runs_refines ops NewPriorityQueue), NewPriorityQueue_ok. Qed.

(** ** Draining *)

(** Taking jobs out until the queue is empty. *)
Fixpoint drain (fuel : nat) (pq : PriorityQueue) : option (list Job) :=
  match fuel with
  | O => None
  | S fuel =>
      r ← Next pq;
      match r.1 with None => Some [] | Some j => js ← drain fuel r.2; Some (j :: js) end
  end.

(** Draining a queue with [Next] takes one call more than it has jobs, returns
    every job it holds exactly once, and returns them in the order of their
    scheduled times. *)
Theorem drain_sorted pq :
  pq_ok pq →
  ∃ js, drain (S (length pq)) pq = Some js ∧ js ≡ₚ jobs pq ∧ StronglySorted due_before js.
Proof.
  remember (length pq) as n eqn:En. revert pq En.
  induction n as [|n IH]; intros pq En Hok.
  { destruct pq; [|done]. exists []. split_and!; [done..|constructor]. }
  destruct (Next_refines pq Hok) as (r & pq' & E & Hok' & r' & [= <-] & Hr).
  assert (length pq = length (jobs pq)) as El by (unfold jobs; by rewrite length_fmap).
  destruct r as [j|]; [|destruct Hr as [Hr _]; rewrite Hr in El; simpl in El; lia].
  destruct Hr as ([_ Hmin] & Hp).
  destruct (IH pq') as (js & Ed & Hj & Hs); [|done|].
  { rewrite Hp in El. simpl in El. unfold jobs in El. rewrite length_fmap in El. lia. }
  exists (j :: js). split_and!.
  - change (drain (S (S n)) pq) with (r ← Next pq; match r.1 with None => Some []
      | Some j => js ← drain (S n) r.2; Some (j :: js) end). rewrite E. simpl fst. cbv iota beta.
    cbn [mbind option_bind fst snd]. by rewrite Ed.
  - by rewrite Hj, Hp.
  - constructor; [done|]. apply Forall_forall. intros k Hk. apply Hmin.
    rewrite Hp. right. by rewrite <- Hj.
Qed.

Definition pq_example : PriorityQueue :=
  from_option snd [] (pq_runs [OAdd (blank_job "a" StatusScheduled (Some 30));
    OAdd (blank_job "b" StatusScheduled (Some 10)); OAdd (blank_job "c" StatusScheduled (Some 20));
    OUpdate "b" 40] NewPriorityQueue).

Lemma drain_sorted_witness :
  option_map (map Uuid) (drain 4 pq_example) = Some ["c"; "a"; "b"]%string ∧
  ∃ js, drain 4 pq_example = Some js ∧ js ≡ₚ jobs pq_example ∧ StronglySorted due_before js.
Proof.
  split; [vm_compute; reflexivity|]. apply (drain_sorted pq_example).
  destruct (pq_runs_refines [OAdd (blank_job "a" StatusScheduled (Some 30));
    OAdd (blank_job "b" StatusScheduled (Some 10)); OAdd (blank_job "c" StatusScheduled (Some 20));
    OUpdate "b" 40] NewPriorityQueue NewPriorityQueue_ok) as (outs & pq & E & Hok & _).
  unfold pq_example. rewrite E. exact Hok.
Defined.
