(* ===== verification/Scheduler.v ===== *)
(** * The scheduler's loop (internal/joblet/scheduler/scheduler.go)

    The loop of [run] interleaved, step by step, with the callers of [AddJob],
    [RemoveJob], [Start] and [Stop] and with the passing of time.  A step is one
    action between two synchronisation points of the code: a queue operation
    (atomic, under the queue's mutex), a non-blocking send on [newJobSignal], a
    [select].  The label of a step names the action and, for a [select], the
    ready case that was chosen, so that [step] is a function.  The executor is
    outside the model: handing it a job is the event [EExec]. *)

From S2P Require Import Prelude GoStrings Values Paths Job Heap PriorityQueue.

Local Open Scope Z_scope.

(** ** State *)

(** Where the loop is. *)
Inductive loop_pc :=
| PIdle              (* not started *)
| PTop               (* at the first select *)
| PPeek              (* before queue.Peek *)
| PWait              (* the queue was empty: waiting for a signal *)
| PCheck (j : Job)   (* peeked j, before the comparison with time.Now *)
| PSleep (dl : Z)    (* sleeping until dl *)
| PPop               (* the peeked job was due: before queue.Next *)
| PExec (j : Job)    (* took j, before executeJob *)
| PDone.             (* returned *)

(** [stopped]: [stopSignal] closed and the context cancelled, which [Stop] does
    together; [sends]: callers between the queue operation and the send.
    [src/internal/joblet/scheduler/scheduler.go Scheduler] *)
Record sched := {
  queue : PriorityQueue;
  newJobSignal : bool;
  sends : nat;
  stopped : bool;
  running : bool;
  pc : loop_pc;
  now : Z;
  panicked : bool;
}.

(** [src/internal/joblet/scheduler/scheduler.go New] *)
Definition New (t0 : Z) : sched := {|
  queue := NewPriorityQueue; newJobSignal := false; sends := 0; stopped := false;
  running := false; pc := PIdle; now := t0; panicked := false;
|}.

Definition set_queue (q : PriorityQueue) (s : sched) : sched := {|
  queue := q; newJobSignal := newJobSignal s; sends := sends s; stopped := stopped s;
  running := running s; pc := pc s; now := now s; panicked := panicked s |}.
Definition set_signal (b : bool) (n : nat) (s : sched) : sched := {|
  queue := queue s; newJobSignal := b; sends := n; stopped := stopped s;
  running := running s; pc := pc s; now := now s; panicked := panicked s |}.
Definition set_run (st rn : bool) (s : sched) : sched := {|
  queue := queue s; newJobSignal := newJobSignal s; sends := sends s; stopped := st;
  running := rn; pc := pc s; now := now s; panicked := panicked s |}.
Definition set_pc (p : loop_pc) (s : sched) : sched := {|
  queue := queue s; newJobSignal := newJobSignal s; sends := sends s; stopped := stopped s;
  running := running s; pc := p; now := now s; panicked := panicked s |}.
Definition set_now (t : Z) (s : sched) : sched := {|
  queue := queue s; newJobSignal := newJobSignal s; sends := sends s; stopped := stopped s;
  running := running s; pc := pc s; now := t; panicked := panicked s |}.
Definition set_panic (s : sched) : sched := {|
  queue := queue s; newJobSignal := newJobSignal s; sends := sends s; stopped := stopped s;
  running := running s; pc := pc s; now := now s; panicked := true |}.

(** What an observer outside the scheduler sees. *)
Inductive event := EAdded (j : Job) | ERemoved (id : string) | EExec (j : Job) (t : Z).

(** ** The callers' actions *)

(** The goroutine of a second [Start] returns at its first [select], since only
    [Stop], which closes the channel, clears [running].
    [src/internal/joblet/scheduler/scheduler.go Scheduler.Start] *)
Definition Start (s : sched) : sched :=
  if running s then s
  else let s := set_run (stopped s) true s in
       if stopped s then s else set_pc PTop s.

(** Closing a closed channel panics.  The mutex is released before the channel is closed; that is
    one step here, so a [Start] between the two, which would run a second loop until the
    channel is closed, is not covered.
    [src/internal/joblet/scheduler/scheduler.go Scheduler.Stop] *)
Definition Stop (s : sched) : sched :=
  if negb (running s) then s
  else let s := set_run (stopped s) false s in
       if stopped s then set_panic s else set_run true false s.

(** Up to the end of [queue.Add]; the send is a step of its own.
    [src/internal/joblet/scheduler/scheduler.go Scheduler.AddJob] *)
Definition AddJob (j : Job) (s : sched) : sched * list event :=
  match ScheduledTime j with
  | None => (s, [])
  | Some _ =>
      match Add j (queue s) with
      | None => (set_panic s, [])
      | Some q => (set_signal (newJobSignal s) (S (sends s)) (set_queue q s), [EAdded j])
      end
  end.

(** Up to the end of [queue.Remove]; the send, when a job was removed, is a step
    of its own.
    [src/internal/joblet/scheduler/scheduler.go Scheduler.RemoveJob] *)
Definition RemoveJob (id : string) (s : sched) : sched * list event :=
  match Remove id (queue s) with
  | None => (set_panic s, [])
  | Some (true, q) => (set_signal (newJobSignal s) (S (sends s)) (set_queue q s), [ERemoved id])
  | Some (false, q) => (set_queue q s, [])
  end.

(** The non-blocking send on the channel of capacity one.
    [src/internal/joblet/scheduler/scheduler.go:107-111 Scheduler.AddJob] *)
Definition send_signal (s : sched) : option sched :=
  match sends s with O => None | S n => Some (set_signal true n s) end.

(** [src/internal/joblet/scheduler/scheduler.go Scheduler.GetScheduledJobs] *)
Definition GetScheduledJobs (s : sched) : list Job := GetAll (queue s).

(** [src/internal/joblet/scheduler/scheduler.go Scheduler.GetQueueSize] *)
Definition GetQueueSize (s : sched) : Z := Size (queue s).

(** ** The loop *)

(** The case taken by a [select]. *)
Inductive choice := CSignal | CStop | CTimer.

(** One step of the loop; a [select] takes the case [c] if it is ready.
    [src/internal/joblet/scheduler/scheduler.go Scheduler.run] *)
Definition loop_step (c : choice) (s : sched) : option (sched * list event) :=
  match pc s with
  | PIdle | PDone => None
  | PTop => Some (set_pc (if stopped s then PDone else PPeek) s, [])
  | PPeek =>
      Some (set_pc (match Peek (queue s) with None => PWait | Some j => PCheck j end) s, [])
  | PWait =>
      match c with
      | CSignal => if newJobSignal s then Some (set_pc PTop (set_signal false (sends s) s), []) else None
      | CStop => if stopped s then Some (set_pc PDone s, []) else None
      | CTimer => None
      end
  | PCheck j =>
      match ScheduledTime j with
      | None => Some (set_panic s, [])
      | Some t =>
          Some (set_pc (if t >? now s then PSleep (now s + sub_time t (now s)) else PPop) s, [])
      end
  | PSleep dl =>
      match c with
      | CTimer => if dl <=? now s then Some (set_pc PPop s, []) else None
      | CSignal => if newJobSignal s then Some (set_pc PTop (set_signal false (sends s) s), []) else None
      | CStop => if stopped s then Some (set_pc PDone s, []) else None
      end
  | PPop =>
      match Next (queue s) with
      | None => Some (set_panic s, [])
      | Some (None, q) => Some (set_pc PTop (set_queue q s), [])
      | Some (Some j, q) => Some (set_pc (PExec j) (set_queue q s), [])
      end
  | PExec j => Some (set_pc PTop s, [EExec j (now s)])
  end.

(** ** Runs *)

Inductive label :=
| LStart | LStop | LAdd (j : Job) | LRemove (id : string) | LSend
| LTick (d : Z) | LLoop (c : choice).

Definition step (l : label) (s : sched) : option (sched * list event) :=
  if panicked s then None else
  match l with
  | LStart => Some (Start s, [])
  | LStop => Some (Stop s, [])
  | LAdd j => Some (AddJob j s)
  | LRemove id => Some (RemoveJob id s)
  | LSend => s' ← send_signal s; Some (s', [])
  | LTick d => if d <? 0 then None else Some (set_now (now s + d) s, [])
  | LLoop c => loop_step c s
  end.

Fixpoint run (ls : list label) (s : sched) : option (sched * list event) :=
  match ls with
  | [] => Some (s, [])
  | l :: ls => r ← step l s; r' ← run ls r.1; Some (r'.1, r.2 ++ r'.2)
  end.

(** [src/internal/joblet/scheduler/scheduler.go Scheduler.IsRunning] *)
Definition IsRunning (s : sched) : bool := running s.

(** ** The bag view of a step

    The queue enters the loop's correctness through its specification only: the
    steps over a bag of jobs that [step] implements. *)

Inductive step_view (s : sched) : label → sched → list event → Prop :=
| v_start : step_view s LStart (Start s) []
| v_stop : step_view s LStop (Stop s) []
| v_add_ignored j : ScheduledTime j = None → step_view s (LAdd j) s []
| v_add j t q : ScheduledTime j = Some t → jobs q ≡ₚ j :: jobs (queue s) →
    step_view s (LAdd j)
      (set_signal (newJobSignal s) (S (sends s)) (set_queue q s)) [EAdded j]
| v_remove_none id : (∀ k, k ∈ jobs (queue s) → Uuid k ≠ id) → step_view s (LRemove id) s []
| v_remove id j q : Uuid j = id → jobs (queue s) ≡ₚ j :: jobs q →
    step_view s (LRemove id)
      (set_signal (newJobSignal s) (S (sends s)) (set_queue q s)) [ERemoved id]
| v_send n : sends s = S n → step_view s LSend (set_signal true n s) []
| v_tick d : 0 ≤ d → step_view s (LTick d) (set_now (now s + d) s) []
| v_top c : pc s = PTop → step_view s (LLoop c) (set_pc (if stopped s then PDone else PPeek) s) []
| v_peek_none c : pc s = PPeek → jobs (queue s) = [] → step_view s (LLoop c) (set_pc PWait s) []
| v_peek c j : pc s = PPeek → earliest j (jobs (queue s)) →
    step_view s (LLoop c) (set_pc (PCheck j) s) []
| v_signal : (pc s = PWait ∨ ∃ dl, pc s = PSleep dl) → newJobSignal s = true →
    step_view s (LLoop CSignal) (set_pc PTop (set_signal false (sends s) s)) []
| v_stopsel : (pc s = PWait ∨ ∃ dl, pc s = PSleep dl) → stopped s = true →
    step_view s (LLoop CStop) (set_pc PDone s) []
| v_check_late c j t : pc s = PCheck j → ScheduledTime j = Some t → now s < t →
    step_view s (LLoop c) (set_pc (PSleep (now s + sub_time t (now s))) s) []
| v_check_due c j t : pc s = PCheck j → ScheduledTime j = Some t → t ≤ now s →
    step_view s (LLoop c) (set_pc PPop s) []
| v_timer dl : pc s = PSleep dl → dl ≤ now s → step_view s (LLoop CTimer) (set_pc PPop s) []
| v_pop_none c : pc s = PPop → jobs (queue s) = [] → step_view s (LLoop c) (set_pc PTop s) []
| v_pop c j q : pc s = PPop → earliest j (jobs (queue s)) → jobs (queue s) ≡ₚ j :: jobs q →
    step_view s (LLoop c) (set_pc (PExec j) (set_queue q s)) []
| v_exec c j : pc s = PExec j → step_view s (LLoop c) (set_pc PTop s) [EExec j (now s)].

(** The queue's invariant; the jobs the loop holds are scheduled ones; the loop
    is idle until the first [Start]. *)
Definition base_ok (s : sched) : Prop :=
  pq_ok (queue s) ∧
  match pc s with PCheck j | PExec j => is_Some (ScheduledTime j) | _ => True end ∧
  (running s = false → stopped s = false → pc s = PIdle).

Lemma set_queue_id s : set_queue (queue s) s = s.
Proof. by destruct s. Qed.

Lemma earliest_scheduled j l : earliest j l → is_Some (ScheduledTime j).
Proof. intros [Hj H]. destruct (H j Hj) as (t & ? & ? & _). eauto. Qed.

Lemma base_set_pc p s : base_ok s → pc s ≠ PIdle →
  (∀ j, p = PCheck j ∨ p = PExec j → is_Some (ScheduledTime j)) → base_ok (set_pc p s).
Proof.
  intros (Hq & _ & Hr) Hpc Hp. split; [done|]. split; [|simpl; naive_solver].
  simpl. destruct p; auto.
Qed.

Lemma base_set_queue q s : pq_ok q → base_ok s → base_ok (set_queue q s).
Proof. by intros Hq (_ & ?). Qed.

Lemma Start_ok s : base_ok s → base_ok (Start s).
Proof.
  intros Hb. pose proof Hb as (Hq & Hp & Hr). unfold Start.
  destruct (running s) eqn:Er; [exact Hb|].
  simpl. destruct (stopped s) eqn:Es; by split_and!.
Qed.

Lemma Stop_ok s : base_ok s → base_ok (Stop s).
Proof.
  intros Hb. pose proof Hb as (Hq & Hp & Hr). unfold Stop.
  destruct (running s) eqn:Er; [|exact Hb].
  simpl. destruct (stopped s) eqn:Es; by split_and!.
Qed.

Lemma call_view l s s' ev : (∀ c, l ≠ LLoop c) → base_ok s → step l s = Some (s', ev) →
  base_ok s' ∧ step_view s l s' ev.
Proof.
  intros Hl Hb Hs. pose proof (proj1 Hb) as Hq. unfold step in Hs.
  destruct (panicked s); [done|].
  destruct l as [| |j|id| |d|c]; simplify_eq/=.
  - split; [by apply Start_ok|constructor].
  - split; [by apply Stop_ok|constructor].
  - unfold AddJob in *. destruct (ScheduledTime j) as [t|] eqn:Ej; simplify_eq; [|by split; [|apply v_add_ignored]].
    destruct (Add_refines j _ Hq) as (q & E & Hok & _ & Hperm). rewrite E in *. simplify_eq.
    split; [by apply base_set_queue|]. rewrite Ej in Hperm. by eapply v_add.
  - unfold RemoveJob in *. destruct (Remove_refines id _ Hq) as (b & q & E & Hok & Hspec).
    rewrite E in *. destruct b; simplify_eq.
    + destruct Hspec as [(? & _)|(_ & j & ? & ?)]; [done|].
      split; [by apply base_set_queue|]. by eapply v_remove.
    + destruct Hspec as [(_ & ? & ?)|(? & _)]; [|done].
      assert (q = queue s) as -> by (unfold Remove in E; repeat case_match; try destruct (heap_Remove _ _); by simplify_eq/=).
      rewrite set_queue_id in *. split; [done|by constructor].
  - unfold send_signal in *. destruct (sends s) as [|n] eqn:En; simplify_eq/=.
    split; [done|by constructor].
  - destruct (d <? 0) eqn:Ed; simplify_eq. split; [done|]. constructor. by apply Z.ltb_ge.
  - by destruct (Hl c).
Qed.

Lemma loop_view c s s' ev : base_ok s → loop_step c s = Some (s', ev) →
  base_ok s' ∧ step_view s (LLoop c) s' ev.
Proof.
  intros Hb Hs. pose proof Hb as (Hq & Hp & _). unfold loop_step in Hs.
  assert (Hpc : ∀ p, pc s ≠ PIdle → (∀ j, p ≠ PCheck j ∧ p ≠ PExec j) → base_ok (set_pc p s)).
  { intros p ??. apply base_set_pc; naive_solver. }
  destruct (pc s) as [| | | |j|dl| |j|] eqn:Epc; try done.
  - simplify_eq. split; [|by constructor]. apply Hpc; destruct (stopped s); done.
  - simplify_eq. pose proof (Peek_spec _ Hq) as He. destruct (Peek (queue s)) as [j|].
    + split; [|by apply v_peek]. apply base_set_pc; [done|congruence|].
      intros ? [[= <-]|[=]]. by eapply earliest_scheduled.
    + split; [by apply Hpc|by apply v_peek_none].
  - destruct c; simplify_eq/=.
    + destruct (newJobSignal s) eqn:?; simplify_eq. split; [by apply Hpc|]. apply v_signal; auto.
    + destruct (stopped s) eqn:?; simplify_eq. split; [by apply Hpc|]. apply v_stopsel; auto.
  - destruct Hp as [t Ht]. rewrite Ht in Hs. simplify_eq.
    destruct (t >? now s) eqn:E; rewrite Z.gtb_ltb in E; to_prop; (split; [by apply Hpc|]).
    + by eapply v_check_late.
    + by eapply v_check_due.
  - destruct c; case_match; simplify_eq; (split; [by apply Hpc|]).
    + apply v_signal; eauto.
    + apply v_stopsel; eauto.
    + eapply v_timer; [done|by to_prop].
  - destruct (Next_refines _ Hq) as (r & q & E & Hok & r' & [= <-] & Hr). rewrite E in Hs.
    destruct r as [j|]; simplify_eq.
    + destruct Hr as [He Hperm]. split; [|by eapply v_pop].
      apply base_set_pc; [by apply base_set_queue|simpl; congruence|].
      intros ? [[=]|[= <-]]. by eapply earliest_scheduled.
    + destruct Hr as [Hn Hn']. assert (q = queue s) as ->.
      { apply (proj1 (jobs_nil _)) in Hn, Hn'. congruence. }
      rewrite set_queue_id. split; [by apply Hpc|]. by apply v_pop_none.
  - simplify_eq. split; [by apply Hpc|]. by constructor.
Qed.

Lemma step_viewP l s s' ev : base_ok s → step l s = Some (s', ev) →
  base_ok s' ∧ step_view s l s' ev.
Proof.
  intros Hok Hs. assert ((∃ c, l = LLoop c) ∨ ∀ c, l ≠ LLoop c) as [[c ->]|Hl].
  { destruct l; eauto. }
  - unfold step in Hs. destruct (panicked s); [done|]. by apply loop_view.
  - by apply call_view.
Qed.

(** ** Invariants of runs *)

Section invariant.
Variable ok : label → Prop.
Variable Inv : sched → list event → Prop.
Hypothesis Inv_step : ∀ l s evs s' ev,
  ok l → base_ok s → Inv s evs → step_view s l s' ev → Inv s' (evs ++ ev).

Lemma run_inv ls s evs s' ev : Forall ok ls → base_ok s → Inv s evs →
  run ls s = Some (s', ev) → base_ok s' ∧ Inv s' (evs ++ ev).
Proof.
  intros Hls. revert s evs ev. induction Hls as [|l ls Hl Hls IH]; intros s evs ev Hb Hi Hr; simpl in Hr.
  { simplify_eq. by rewrite app_nil_r. }
  destruct (step l s) as [[s1 e1]|] eqn:E; [|done]. simpl in Hr.
  destruct (run ls s1) as [[s2 e2]|] eqn:E2; simplify_eq/=.
  destruct (step_viewP _ _ _ _ Hb E) as [Hb1 Hv]. rewrite app_assoc. eauto.
Qed.
End invariant.

Lemma New_ok t0 : base_ok (New t0).
Proof. split; [apply NewPriorityQueue_ok|done]. Qed.

#[export] Hint Resolve New_ok : joblet.

Definition always (_ : label) : Prop := True.
Lemma Forall_always ls : Forall always ls.
Proof. by apply Forall_true. Qed.

(** *** Every accepted job is queued, taken, executed or removed, once *)

Definition added (e : event) : option Job := match e with EAdded j => Some j | _ => None end.
Definition removed_id (e : event) : option string :=
  match e with ERemoved id => Some id | _ => None end.
Definition executed (e : event) : option Job := match e with EExec j _ => Some j | _ => None end.

Definition in_hand (s : sched) : list Job := match pc s with PExec j => [j] | _ => [] end.

Definition conserved (s : sched) (evs : list event) : Prop :=
  ∃ removed, Uuid <$> removed = omap removed_id evs ∧
    omap added evs ≡ₚ jobs (queue s) ++ in_hand s ++ omap executed evs ++ removed.

Lemma in_hand_Start s : base_ok s → in_hand (Start s) = in_hand s.
Proof.
  intros (_ & _ & Hr). unfold Start. destruct (running s) eqn:?; [done|]. simpl.
  destruct (stopped s) eqn:?; [done|]. unfold in_hand. by rewrite Hr.
Qed.

Lemma Stop_same s : queue (Stop s) = queue s ∧ pc (Stop s) = pc s ∧ now (Stop s) = now s ∧
  newJobSignal (Stop s) = newJobSignal s ∧ sends (Stop s) = sends s.
Proof. unfold Stop. destruct (running s), (stopped s); done. Qed.

Lemma Start_same s : queue (Start s) = queue s ∧ now (Start s) = now s ∧
  newJobSignal (Start s) = newJobSignal s ∧ sends (Start s) = sends s ∧
  (pc (Start s) = pc s ∨ pc (Start s) = PTop).
Proof. unfold Start. destruct (running s), (stopped s); simpl; auto 10. Qed.

Lemma conserved_step l s evs s' ev : always l →
  base_ok s → conserved s evs → step_view s l s' ev → conserved s' (evs ++ ev).
Proof.
  intros _ Hb (rm & Hrm & Hp) Hv.
  assert (Hquiet : ∀ s1, jobs (queue s1) = jobs (queue s) → in_hand s1 = in_hand s →
    conserved s1 (evs ++ [])).
  { intros s1 Hq Hh. exists rm. rewrite app_nil_r, Hq, Hh. done. }
  assert (Hloop : ∀ s1, queue s1 = queue s → (∀ j, pc s ≠ PExec j) → (∀ j, pc s1 ≠ PExec j) →
    conserved s1 (evs ++ [])).
  { intros s1 E H1 H2. apply Hquiet; [by rewrite E|]. unfold in_hand.
    destruct (pc s), (pc s1); naive_solver. }
  destruct Hv; try match goal with H : _ ∨ _ |- _ => destruct H as [?|[??]] end;
    try (apply Hloop; [done|congruence|intros ?; simpl; try destruct (stopped s); congruence]).
  - apply Hquiet; [|by apply in_hand_Start]. by destruct (Start_same s) as [-> _].
  - destruct (Stop_same s) as (Hq & Hpc & _). apply Hquiet; [by rewrite Hq|].
    unfold in_hand. by rewrite Hpc.
  - by apply Hquiet.
  - exists rm. rewrite !omap_app. simpl. rewrite !app_nil_r. split; [done|].
    rewrite Hp. change (in_hand _) with (in_hand s). rewrite H0. solve_Permutation.
  - by apply Hquiet.
  - exists (rm ++ [j]). rewrite fmap_app, !omap_app, Hrm. simpl. subst. split; [done|].
    rewrite !app_nil_r, Hp. change (in_hand (set_signal _ _ _)) with (in_hand s).
    rewrite H0. solve_Permutation.
  - by apply Hquiet.
  - by apply Hquiet.
  - rename select (pc s = _) into Hpc. rename select (jobs (queue s) ≡ₚ _) into Hq.
    exists rm. rewrite app_nil_r. split; [done|]. rewrite Hp. unfold in_hand. rewrite Hpc, Hq.
    simpl. solve_Permutation.
  - rename select (pc s = _) into Hpc.
    exists rm. rewrite !omap_app, !app_nil_r. split; [done|]. rewrite Hp. unfold in_hand.
    rewrite Hpc. simpl. solve_Permutation.
Qed.

(** C1 Whatever the interleaving of callers, loop and clock, no job is lost or run
    twice: the jobs [AddJob] accepted are, as a multiset, those still queued, the
    one the loop has in hand, those handed to the executor, and one job with the
    removed id for every [RemoveJob] that reported success. *)
Theorem jobs_conserved ls t0 s evs :
  run ls (New t0) = Some (s, evs) → conserved s evs.
Proof.
  intros Hr. apply (run_inv always conserved conserved_step ls (New t0) [] s evs);
    [apply Forall_always|apply New_ok| |done]. by exists [].
Qed.

(** *** No job runs early *)

Definition due (s : sched) (k : Job) : Prop := ∃ t, ScheduledTime k = Some t ∧ t ≤ now s.

(** What each point of the loop knows about the jobs in the queue. *)
Definition timely (t0 : Z) (s : sched) (evs : list event) : Prop :=
  t0 ≤ now s ∧
  (∀ k, k ∈ jobs (queue s) → ∃ u, ScheduledTime k = Some u ∧ u ≤ t0 + max_int 64) ∧
  (∀ k t, EExec k t ∈ evs → ∃ u, ScheduledTime k = Some u ∧ u ≤ t) ∧
  match pc s with
  | PCheck j => j ∈ jobs (queue s)
  | PSleep dl => ∃ k, k ∈ jobs (queue s) ∧ ScheduledTime k = Some dl
  | PPop => ∃ k, k ∈ jobs (queue s) ∧ due s k
  | PExec j => due s j
  | _ => True
  end.

(** No [RemoveJob], and schedules within the range of a [time.Duration] (292
    years) of the start. *)
Definition no_removal (t0 : Z) (l : label) : Prop :=
  match l with
  | LRemove _ => False
  | LAdd j => ∀ u, ScheduledTime j = Some u → u ≤ t0 + max_int 64
  | _ => True
  end.

(** Jobs entering the queue and the clock moving on preserve what the loop knows. *)
Lemma timely_mono t0 s evs q b n t : timely t0 s evs → now s ≤ t →
  (∀ k, k ∈ jobs (queue s) → k ∈ jobs q) →
  (∀ k, k ∈ jobs q → ∃ u, ScheduledTime k = Some u ∧ u ≤ t0 + max_int 64) →
  timely t0 (set_now t (set_signal b n (set_queue q s))) evs.
Proof.
  intros (H0 & _ & He & Hp) Ht Hq Hb. split; [simpl; lia|]. split; [done|]. split; [done|].
  simpl. destruct (pc s); try done.
  - naive_solver.
  - naive_solver.
  - destruct Hp as (k & ? & u & ? & ?). exists k. split; [auto|]. exists u. simpl. split; [done|lia].
  - destruct Hp as (u & ? & ?). exists u. simpl. split; [done|lia].
Qed.

Lemma timely_goto t0 s evs s' : timely t0 s evs → queue s' = queue s → now s' = now s →
  match pc s' with
  | PCheck j => j ∈ jobs (queue s)
  | PSleep dl => ∃ k, k ∈ jobs (queue s) ∧ ScheduledTime k = Some dl
  | PPop => ∃ k, k ∈ jobs (queue s) ∧ due s k
  | PExec j => due s j
  | _ => True
  end → timely t0 s' (evs ++ []).
Proof.
  intros (H0 & Hq & He & Hp) E1 E2 Hpc. rewrite app_nil_r.
  split_and!; [by rewrite E2|by rewrite E1|done|].
  destruct (pc s'); unfold due in *; rewrite ?E1, ?E2; done.
Qed.

Lemma sub_time_exact t0 u n : t0 ≤ n → n < u → u ≤ t0 + max_int 64 → n + sub_time u n = u.
Proof. unfold sub_time, min_int, max_int. lia. Qed.

Lemma timely_step t0 l s evs s' ev : no_removal t0 l →
  base_ok s → timely t0 s evs → step_view s l s' ev → timely t0 s' (evs ++ ev).
Proof.
  intros Hl Hb Ht Hv. pose proof Ht as (H0 & Hq & He & Hp).
  destruct Hv; simpl in Hl; try done; try (rename select (pc s = _) into Hpc; rewrite Hpc in Hp);
    try (by apply (timely_goto t0 s evs)).
  - destruct (Start_same s) as (E1 & E2 & _ & _ & [E|E]).
    + apply (timely_goto t0 s evs); [done..|]. by rewrite E.
    + apply (timely_goto t0 s evs); [done..|]. by rewrite E.
  - destruct (Stop_same s) as (E1 & E & E2 & _).
    apply (timely_goto t0 s evs); [done..|]. by rewrite E.
  - rename select (jobs q ≡ₚ _) into Hj. split_and!; [done|..].
    + simpl. intros k. rewrite Hj. intros [->|Hk]%elem_of_cons; [|auto]. eauto.
    + intros k u. rewrite elem_of_app, list_elem_of_singleton. naive_solver.
    + change (queue (set_signal _ _ _)) with q. change (pc (set_signal _ _ _)) with (pc s).
      destruct (pc s); try done; setoid_rewrite Hj; set_solver.
  - rewrite app_nil_r. by apply (timely_mono t0 s evs (queue s) (newJobSignal s) (sends s) (now s + d)); [|lia|..].
  - apply (timely_goto t0 s evs); [done..|]. simpl. by destruct (stopped s).
  - rename select (earliest _ _) into Hm. apply (timely_goto t0 s evs); [done..|]. apply Hm.
  - apply (timely_goto t0 s evs); [done..|]. simpl. exists j.
    destruct (Hq _ Hp) as (u & Hu & Hub). rewrite sub_time_exact with (t0 := t0); naive_solver.
  - apply (timely_goto t0 s evs); [done..|]. simpl. unfold due. eauto.
  - apply (timely_goto t0 s evs); [done..|]. simpl. unfold due. naive_solver.
  - rewrite app_nil_r. rename select (jobs (queue s) ≡ₚ _) into Hj.
    rename select (earliest _ _) into Hmin. split_and!; [done| |done|].
    + simpl. intros k Hk. apply Hq. rewrite Hj. by right.
    + simpl. destruct Hp as (k & Hk & u & Hu & Hle). destruct Hmin as [_ Hmin].
      destruct (Hmin k Hk) as (t & u' & ? & ? & ?). exists t. simpl. split; [done|]. simplify_eq. lia.
  - split_and!; [done|done| |done]. intros k u. rewrite elem_of_app, list_elem_of_singleton.
    intros [?|E]; [auto|]. injection E as -> ->. exact Hp.
Qed.

(** Without [RemoveJob], and with every schedule less than 292 years after the
    scheduler's creation, no interleaving hands a job to the executor before its
    scheduled time. *)
Theorem never_early ls t0 s evs j t :
  Forall (no_removal t0) ls → run ls (New t0) = Some (s, evs) → EExec j t ∈ evs →
  ∃ u, ScheduledTime j = Some u ∧ u ≤ t.
Proof.
  intros Hls Hr Hin.
  destruct (run_inv (no_removal t0) (timely t0) (timely_step t0) ls (New t0) [] s evs)
    as [_ (_ & _ & He & _)]; [done|apply New_ok| |done|by apply He].
  split_and!; [simpl; lia|set_solver|set_solver|done].
Qed.

(** One job scheduled at [u], run by a loop that was given time. *)
Definition one_job_run (j : Job) (d : Z) : list label :=
  [LStart; LAdd j; LSend; LLoop CTimer; LLoop CTimer; LLoop CTimer; LTick d;
   LLoop CTimer; LLoop CTimer; LLoop CTimer].

Lemma never_early_witness :
  let j := blank_job "a" StatusScheduled (Some 1500) in
  option_map snd (run (one_job_run j 600) (New 1000)) = Some [EAdded j; EExec j 1600] ∧
  ∃ u, ScheduledTime j = Some u ∧ u ≤ 1600.
Proof.
  split; [vm_compute; reflexivity|].
  eapply (never_early (one_job_run (blank_job "a" StatusScheduled (Some 1500)) 600) 1000).
  - repeat constructor. intros u [= <-]. vm_compute. done.
  - vm_compute. reflexivity.
  - right. left.
Defined.

(** With [RemoveJob] the guarantee is lost: when the due job is removed between
    the loop's check and its [queue.Next], the loop executes whatever job is next,
    however far in the future it is scheduled. *)
Theorem removal_runs_early :
  ∃ ls s evs j t u, run ls (New 1000) = Some (s, evs) ∧ EExec j t ∈ evs ∧
    ScheduledTime j = Some u ∧ t + 1000000 < u.
Proof.
  set (a := blank_job "a" StatusScheduled (Some 900)).
  set (b := blank_job "b" StatusScheduled (Some 2000000)).
  exists [LStart; LAdd a; LSend; LAdd b; LSend; LLoop CTimer; LLoop CTimer; LLoop CTimer;
    LRemove "a"; LLoop CTimer; LLoop CTimer].
  eexists _, _, b, 1000, 2000000. split; [vm_compute; reflexivity|].
  split; [|split; [done|lia]]. do 3 right. left.
Qed.

(** *** No wake-up is lost *)

(** A send is in the channel or about to be made. *)
Definition wake_pending (s : sched) : Prop := newJobSignal s = true ∨ (0 < sends s)%nat.

(** The loop waits with jobs in the queue, or sleeps past the time of a queued
    job, only if a wake-up is pending. *)
Definition awake (s : sched) (_ : list event) : Prop :=
  (pc s = PDone → stopped s = true) ∧
  match pc s with
  | PWait => jobs (queue s) = [] ∨ wake_pending s
  | PCheck j => (∀ k, k ∈ jobs (queue s) → due_before j k) ∨ wake_pending s
  | PSleep dl => (∀ k t, k ∈ jobs (queue s) → ScheduledTime k = Some t → dl ≤ t) ∨ wake_pending s
  | _ => True
  end.

Lemma sub_time_le u n : n < u → n + sub_time u n ≤ u.
Proof. unfold sub_time, min_int, max_int. lia. Qed.

Lemma awake_pending s evs : (pc s = PDone → stopped s = true) → wake_pending s → awake s evs.
Proof. intros Hd Hw. split; [done|]. destruct (pc s); auto. Qed.

Lemma awake_step l s evs s' ev : always l →
  base_ok s → awake s evs → step_view s l s' ev → awake s' (evs ++ ev).
Proof.
  intros _ (_ & _ & Hrs) [Hd Ha] Hv.
  destruct Hv; try done; try (rename select (pc s = _) into Hpc; rewrite Hpc in *);
    try (by split; [done|]; simpl; auto).
  - unfold Start. destruct (running s); [done|]. simpl. by destruct (stopped s) eqn:?.
  - unfold Stop. destruct (running s); [|done]. simpl. by destruct (stopped s) eqn:?.
  - apply awake_pending; [done|]. right. simpl. lia.
  - apply awake_pending; [done|]. right. simpl. lia.
  - apply awake_pending; [done|]. by left.
  - split; simpl; destruct (stopped s); done.
  - split; [done|]. left. rename select (earliest _ _) into Hm. apply Hm.
  - split; [done|]. simpl. destruct Ha as [Ha|Ha]; [left|by right].
    intros k u Hk Hu. destruct (Ha k Hk) as (t1 & u1 & ? & ? & ?). simplify_eq.
    etrans; [by apply sub_time_le|done].
Qed.

(** No wake-up is lost, whatever the interleaving: a loop that waits while jobs
    are queued, or sleeps beyond the time of the earliest queued job, has a signal
    in the channel or a caller about to send one. *)
Theorem no_lost_wakeup ls t0 s evs : run ls (New t0) = Some (s, evs) → awake s evs.
Proof.
  intros Hr. apply (run_inv always awake awake_step ls (New t0) [] s evs);
    [apply Forall_always|apply New_ok|by split|done].
Qed.

Lemma no_lost_wakeup_witness :
  let j := blank_job "a" StatusScheduled (Some 1500) in
  ∃ s evs, run [LStart; LLoop CTimer; LLoop CTimer; LAdd j] (New 1000) = Some (s, evs) ∧
    pc s = PWait ∧ jobs (queue s) ≠ [] ∧ awake s evs.
Proof.
  eexists _, _. split; [vm_compute; reflexivity|]. split; [done|]. split; [done|].
  eapply (no_lost_wakeup [LStart; LLoop CTimer; LLoop CTimer;
    LAdd (blank_job "a" StatusScheduled (Some 1500))] 1000). vm_compute. reflexivity.
Defined.

Lemma jobs_conserved_witness :
  let j := blank_job "a" StatusScheduled (Some 1500) in
  ∃ s, run (one_job_run j 600) (New 1000) = Some (s, [EAdded j; EExec j 1600]) ∧
    conserved s [EAdded j; EExec j 1600].
Proof.
  eexists. split; [vm_compute; reflexivity|].
  apply (jobs_conserved (one_job_run (blank_job "a" StatusScheduled (Some 1500)) 600) 1000).
  vm_compute. reflexivity.
Defined.

(** *** A due job is executed *)

(** The loop's own steps and the delivery of pending sends. *)
Definition internal (l : label) : Prop := match l with LLoop _ | LSend => True | _ => False end.

Definition executes (n : nat) (s : sched) : Prop :=
  ∃ ls s' evs, (length ls ≤ n)%nat ∧ Forall internal ls ∧ run ls s = Some (s', evs) ∧
    ∃ j t, EExec j t ∈ evs.

Lemma executes_after n l s s1 e1 : internal l → step l s = Some (s1, e1) →
  executes n s1 → executes (S n) s.
Proof.
  intros Hl Hs (ls & s' & evs & Hn & Hi & Hr & j & t & Hj).
  exists (l :: ls), s', (e1 ++ evs). simpl. rewrite Hs. simpl. rewrite Hr. simpl.
  split; [lia|]. split; [by constructor|]. split; [done|]. exists j, t. set_solver.
Qed.

Lemma executes_le m n s : (m ≤ n)%nat → executes m s → executes n s.
Proof. intros H (ls & s' & evs & ? & ?). exists ls, s', evs. split; [lia|done]. Qed.

Lemma exec_executes s j : panicked s = false → pc s = PExec j → executes 1 s.
Proof.
  intros Hp Hpc. exists [LLoop CTimer], (set_pc PTop s), [EExec j (now s)].
  split; [done|]. split; [by repeat constructor|]. split; [|exists j, (now s); left].
  simpl. unfold step, loop_step. by rewrite Hp, Hpc.
Qed.

Lemma pop_executes s : base_ok s → panicked s = false → pc s = PPop → jobs (queue s) ≠ [] →
  executes 2 s.
Proof.
  intros [Hq _] Hp Hpc Hne.
  destruct (Next_refines _ Hq) as (r & q & E & _ & r' & [= <-] & Hr).
  destruct r as [j|]; [|by destruct Hr].
  apply (executes_after 1 (LLoop CTimer) s (set_pc (PExec j) (set_queue q s)) []); [done| |].
  - unfold step, loop_step. by rewrite Hp, Hpc, E.
  - by apply (exec_executes _ j).
Qed.

Lemma peek_executes s k : base_ok s → panicked s = false → pc s = PPeek → k ∈ jobs (queue s) →
  due s k → executes 4 s.
Proof.
  intros Hb Hp Hpc Hk (t & Ht & Hle). pose proof Hb as [Hq _].
  assert (Hne : jobs (queue s) ≠ []) by (intros E; rewrite E in Hk; by apply elem_of_nil in Hk).
  pose proof (Peek_spec _ Hq) as Hm. destruct (Peek (queue s)) as [j|] eqn:E; [|done].
  destruct Hm as [_ Hm]. destruct (Hm k Hk) as (u & t' & Hu & Ht' & Hut). simplify_eq.
  apply (executes_after 3 (LLoop CTimer) s (set_pc (PCheck j) s) []); [done| |].
  { unfold step, loop_step. by rewrite Hp, Hpc, E. }
  apply (executes_after 2 (LLoop CTimer) _ (set_pc PPop s) []); [done| |].
  { unfold step, loop_step. simpl. rewrite Hp, Hu.
    replace (u >? now s) with false; [done|]. rewrite Z.gtb_ltb. symmetry. apply Z.ltb_ge. lia. }
  apply pop_executes; try done. apply base_set_pc; [done|congruence|naive_solver].
Qed.

Lemma top_executes s k : base_ok s → panicked s = false → stopped s = false → pc s = PTop →
  k ∈ jobs (queue s) → due s k → executes 5 s.
Proof.
  intros Hb Hp Hs Hpc Hk Hd.
  apply (executes_after 4 (LLoop CTimer) s (set_pc PPeek s) []); [done| |].
  { unfold step, loop_step. by rewrite Hp, Hpc, Hs. }
  apply (peek_executes _ k); try done. apply base_set_pc; [done|congruence|naive_solver].
Qed.

(** A pending wake-up brings a waiting loop back to its top. *)
Lemma wake_executes s k : base_ok s → panicked s = false → stopped s = false →
  (pc s = PWait ∨ ∃ dl, pc s = PSleep dl) → k ∈ jobs (queue s) → due s k → wake_pending s →
  executes 7 s.
Proof.
  intros Hb Hp Hs Hpc Hk Hd Hw.
  assert (Hwoken : ∀ n, executes 6 (set_signal true n s)).
  { intros n. apply (executes_after 5 (LLoop CSignal) _ (set_pc PTop (set_signal false n s)) []); [done| |].
    - unfold step, loop_step. simpl. rewrite Hp. by destruct Hpc as [->|[? ->]].
    - apply (top_executes _ k); try done. apply (base_set_pc PTop (set_signal false n s));
        [done|simpl; by destruct Hpc as [->|[? ->]]|naive_solver]. }
  destruct Hw as [Hw|Hw].
  - apply (executes_le 6); [lia|]. replace s with (set_signal true (sends s) s); [done|].
    destruct s; simpl in *; by subst.
  - destruct (sends s) as [|n] eqn:E; [lia|].
    apply (executes_after 6 LSend s (set_signal true n s) []); [done| |done].
    unfold step, send_signal. by rewrite Hp, E.
Qed.

Lemma check_executes s j k : base_ok s → panicked s = false → stopped s = false → pc s = PCheck j →
  ((∀ k, k ∈ jobs (queue s) → due_before j k) ∨ wake_pending s) →
  k ∈ jobs (queue s) → due s k → executes 8 s.
Proof.
  intros Hb Hp Hs Hpc Ha Hk Hd. pose proof Hb as (_ & Hj & _). rewrite Hpc in Hj.
  destruct Hj as [u Hu].
  assert (Hgo : ∀ p, (∀ j, p ≠ PCheck j ∧ p ≠ PExec j) → base_ok (set_pc p s)).
  { intros p ?. apply base_set_pc; [done|congruence|naive_solver]. }
  destruct (u >? now s) eqn:E.
  - apply (executes_after 7 (LLoop CTimer) s (set_pc (PSleep (now s + sub_time u (now s))) s) []);
      [done|by unfold step, loop_step; rewrite Hp, Hpc, Hu, E|].
    apply (wake_executes _ k); eauto. destruct Ha as [Ha|Ha]; [|done].
    destruct (Ha k Hk) as (u' & t & ? & ? & ?). destruct Hd as (t' & ? & ?).
    rewrite Z.gtb_ltb in E. to_prop. simplify_eq. lia.
  - apply (executes_le 3); [lia|]. apply (executes_after 2 (LLoop CTimer) s (set_pc PPop s) []);
      [done|by unfold step, loop_step; rewrite Hp, Hpc, Hu, E|].
    apply pop_executes; try done; [by apply Hgo|]. simpl. intros Hn. rewrite Hn in Hk.
    by apply elem_of_nil in Hk.
Qed.

(** C4 Progress: whatever happened before, when the loop has been started and not
    stopped and some queued job is due, at most eight steps of the loop and of
    pending senders, with no new call and no time passing, hand a job to the
    executor. *)
Theorem due_job_executes ls t0 s evs k :
  run ls (New t0) = Some (s, evs) → panicked s = false → stopped s = false → pc s ≠ PIdle →
  k ∈ jobs (queue s) → due s k → executes 8 s.
Proof.
  intros Hr Hp Hs Hpc Hk Hd.
  destruct (run_inv always awake awake_step ls (New t0) [] s evs) as [Hb [Hdone Ha]];
    [apply Forall_always|apply New_ok|by split|done|].
  assert (Hne : jobs (queue s) ≠ []) by (intros E; rewrite E in Hk; by apply elem_of_nil in Hk).
  destruct (pc s) as [| | | |j|dl| |j|] eqn:E.
  - done.
  - apply (executes_le 5); [lia|]. by apply (top_executes _ k).
  - apply (executes_le 4); [lia|]. by apply (peek_executes _ k).
  - destruct Ha as [Ha|Ha]; [done|].
    apply (executes_le 7); [lia|]. apply (wake_executes _ k); auto.
  - by apply (check_executes _ j k).
  - destruct Ha as [Ha|Ha]; [|apply (executes_le 7), (wake_executes _ k); eauto; lia].
    destruct Hd as (t & Ht & Hle). pose proof (Ha k t Hk Ht).
    apply (executes_le 3); [lia|].
    apply (executes_after 2 (LLoop CTimer) s (set_pc PPop s) []); [done| |].
    + unfold step, loop_step. rewrite Hp, E. by replace (dl <=? now s) with true by (symmetry; apply Z.leb_le; lia).
    + apply pop_executes; try done. apply base_set_pc; [done|congruence|naive_solver].
  - apply (executes_le 2); [lia|]. by apply pop_executes.
  - apply (executes_le 1); [lia|]. by apply (exec_executes _ j).
  - rewrite Hdone in Hs; done.
Qed.

Lemma due_job_executes_witness :
  let j := blank_job "a" StatusScheduled (Some 1500) in
  ∃ s evs, run [LStart; LLoop CTimer; LLoop CTimer; LAdd j; LTick 700] (New 1000) = Some (s, evs) ∧
    pc s = PWait ∧ executes 8 s.
Proof.
  eexists _, _. split; [vm_compute; reflexivity|]. split; [done|].
  eapply (due_job_executes [LStart; LLoop CTimer; LLoop CTimer;
    LAdd (blank_job "a" StatusScheduled (Some 1500)); LTick 700] 1000 _ _
    (blank_job "a" StatusScheduled (Some 1500)));
    [vm_compute; reflexivity|done|done|done|left|].
  exists 1500. split; [done|]. vm_compute. done.
Defined.

(** *** Stopping *)

Definition after_stop (s : sched) (evs : list event) : Prop :=
  stopped s = true ∧
  (omap executed evs = [] ∨
   (length (omap executed evs) ≤ 1)%nat ∧ (pc s = PTop ∨ pc s = PDone)).

Lemma after_stop_step l s evs s' ev : always l →
  base_ok s → after_stop s evs → step_view s l s' ev → after_stop s' (evs ++ ev).
Proof.
  intros _ _ [Hs Hc] Hv. unfold after_stop. rewrite omap_app.
  destruct Hv; simpl omap; rewrite ?app_nil_r; try rename select (pc s = _) into Hpc;
    try (by split; [done|destruct Hc as [?|[? [?|?]]]; auto; congruence]).
  - unfold Start. rewrite Hs. by destruct (running s).
  - unfold Stop. rewrite Hs. by destruct (running s).
  - split; [done|]. destruct Hc as [?|[? _]]; [by left|]. right. split; [done|].
    right. simpl. by rewrite Hs.
  - split; [done|]. right. split; [|by left].
    destruct Hc as [->|[? [?|?]]]; [done|congruence..].
Qed.

(** After [Stop], whatever callers and clock do, at most one more job reaches
    the executor: the one whose sleep ended before the loop saw the stop. *)
Theorem stop_bounds_executions ls0 t0 s evs0 ls s' evs :
  run ls0 (New t0) = Some (s, evs0) → stopped s = true → run ls s = Some (s', evs) →
  (length (omap executed evs) ≤ 1)%nat.
Proof.
  intros Hr0 Hs Hr.
  destruct (run_inv always (λ _ _, True)) with (ls := ls0) (s := New t0) (evs := @nil event)
    (s' := s) (ev := evs0) as [Hb _]; [done|apply Forall_always|apply New_ok|done|done|].
  destruct (run_inv always after_stop after_stop_step ls s [] s' evs) as [_ [_ H]];
    [apply Forall_always|done|by split; [|left]|done|].
  simpl in H. destruct H as [->|[H _]]; [simpl; lia|done].
Qed.

Lemma stop_bounds_executions_witness :
  let j := blank_job "a" StatusScheduled (Some 1500) in
  ∃ s s' evs, run (take 7 (one_job_run j 600) ++ [LStop]) (New 1000) = Some (s, [EAdded j]) ∧
    run [LLoop CTimer; LLoop CTimer; LLoop CTimer; LLoop CTimer] s = Some (s', evs) ∧
    (length (omap executed evs) ≤ 1)%nat ∧ omap executed evs = [j] ∧ pc s' = PDone.
Proof.
  eexists _, _, _. split; [vm_compute; reflexivity|]. split; [vm_compute; reflexivity|].
  split; [|split; reflexivity].
  eapply (stop_bounds_executions
    (take 7 (one_job_run (blank_job "a" StatusScheduled (Some 1500)) 600) ++ [LStop]) 1000 _ _
    [LLoop CTimer; LLoop CTimer; LLoop CTimer; LLoop CTimer]); vm_compute; reflexivity.
Defined.

(** A stopped scheduler cannot be restarted: [Start] reports success and
    [IsRunning] says so, but the loop is not running, no job is ever executed
    again, and the next [Stop] closes a closed channel and panics. *)
Theorem restart_is_broken t0 ls s evs :
  run [LStart; LStop; LLoop CStop; LStart] (New t0) = Some (s, evs) →
  IsRunning s = true ∧ pc s = PDone ∧
  (∃ s', step LStop s = Some (s', []) ∧ panicked s' = true) ∧
  (∀ s' evs', run ls s = Some (s', evs') → omap executed evs' = []).
Proof.
  intros [= <- <-]. split_and!; [done..|by eexists|].
  intros s' evs' Hr.
  set (Inv := λ s (evs : list event), pc s = PDone ∧ stopped s = true ∧ omap executed evs = []).
  destruct (run_inv always Inv) with (ls := ls) (evs := @nil event) (5 := Hr) as [_ (_ & _ & H)];
    [|apply Forall_always|by split; [apply NewPriorityQueue_ok|]|done|done].
  intros l s evs s1 e1 _ _ (Hp & Hst & He) Hv. unfold Inv. rewrite omap_app, He.
  destruct Hv; try match goal with H : _ ∨ _ |- _ => destruct H as [?|[??]] end;
    try done; try congruence.
  - unfold Start. rewrite Hst. by destruct (running s).
  - unfold Stop. rewrite Hst. by destruct (running s).
Qed.

Lemma restart_is_broken_witness :
  ∃ s, run [LStart; LStop; LLoop CStop; LStart] (New 5) = Some (s, []) ∧ IsRunning s = true.
Proof.
  eexists. split; [vm_compute; reflexivity|].
  eapply (restart_is_broken 5 [LStop]). vm_compute. reflexivity.
Defined.
