(* ===== verification/Gpu.v ===== *)
(** * GPU allocation (internal/joblet/gpu: types.go, allocation_strategy.go,
    manager.go)

    The manager's maps, its selection strategies, and its operations, each of
    which runs under the manager's mutex.  The objects a map of pointers holds
    are values here: discovery builds one object per entry, and only the manager
    writes them.  Iterating over a Go map has no fixed order, so the operations
    that do it take the order as an argument; what nvidia-smi answers is an
    argument too. *)

From S2P Require Import Prelude GoStrings.
From Stdlib Require Import Ascii.

Local Open Scope Z_scope.

(** ** Data *)

(** [src/internal/joblet/gpu/types.go GPU] *)
Record GPU := {
  Index : Z;
  UUID : string;
  Name : string;
  MemoryMB : Z;
  InUse : bool;
  g_JobUUID : string;
  g_AllocatedAt : option Z;
  IsMIG : bool;
  MIGUUID : string;
  CapMinors : list Z;
  Quarantined : bool;
  QuarantineReason : string;
}.

(** [src/internal/joblet/gpu/types.go GPUAllocation] *)
Record GPUAllocation := {
  JobUUID : string;
  GPUIndices : list Z;
  MIGUUIDs : list string;
  GPUCount : Z;
  GPUMemoryMB : Z;
  AllocatedAt : Z;
}.

Definition set_use (inuse : bool) (job : string) (at_ : option Z) (g : GPU) : GPU := {|
  Index := Index g; UUID := UUID g; Name := Name g; MemoryMB := MemoryMB g;
  InUse := inuse; g_JobUUID := job; g_AllocatedAt := at_;
  IsMIG := IsMIG g; MIGUUID := MIGUUID g; CapMinors := CapMinors g;
  Quarantined := Quarantined g; QuarantineReason := QuarantineReason g |}.

Definition set_quarantine (q : bool) (reason : string) (g : GPU) : GPU := {|
  Index := Index g; UUID := UUID g; Name := Name g; MemoryMB := MemoryMB g;
  InUse := InUse g; g_JobUUID := g_JobUUID g; g_AllocatedAt := g_AllocatedAt g;
  IsMIG := IsMIG g; MIGUUID := MIGUUID g; CapMinors := CapMinors g;
  Quarantined := q; QuarantineReason := reason |}.

(** ** Selection strategies *)

Inductive gpu_error :=
| GpuDisabled | InvalidCount (n : Z) | NotEnough (need have : Z) | SliceBounds | NotFound (i : Z)
| DiscoveryFailed.

(** [src/internal/joblet/gpu/allocation_strategy.go:9-26 StrategyFirstFit] *)
Inductive strategy := FirstFit | Pack | Spread | BestFit.

(** [src/internal/joblet/gpu/allocation_strategy.go GetAllocationStrategy] *)
Definition GetAllocationStrategy (s : string) : strategy :=
  if bool_decide (s = "pack"%string) then Pack
  else if bool_decide (s = "spread"%string) then Spread
  else if bool_decide (s = "best-fit"%string) then BestFit
  else FirstFit.

(** The order of [sort.Slice] in [PackStrategy] and in [AllocateGPUs].
    [src/internal/joblet/gpu/allocation_strategy.go:68-71 PackStrategy.SelectGPUs] *)
Definition by_index (g h : GPU) : bool := Index g <? Index h.

(** [src/internal/joblet/gpu/allocation_strategy.go:96-100 SpreadStrategy.SelectGPUs] *)
Definition by_index_desc (g h : GPU) : bool := Index g >? Index h.

(** [src/internal/joblet/gpu/allocation_strategy.go:144-168 BestFitStrategy.SelectGPUs] *)
Definition by_fit (gpuMemoryMB : Z) (g h : GPU) : bool :=
  if gpuMemoryMB >? 0 then
    let wasteI := wrap64 (MemoryMB g - gpuMemoryMB) in
    let wasteJ := wrap64 (MemoryMB h - gpuMemoryMB) in
    if (wasteI >=? 0) && (wasteJ >=? 0) then wasteI <? wasteJ
    else if wasteI >=? 0 then true
    else if wasteJ >=? 0 then false
    else MemoryMB g >? MemoryMB h
  else MemoryMB g <? MemoryMB h.

(** [l[:n]] of a slice of full capacity. *)
Definition slice_to (l : list GPU) (n : Z) : result gpu_error (list GPU) :=
  if (n <? 0) || (Z.of_nat (length l) <? n) then Err SliceBounds else Ok (take (Z.to_nat n) l).

(** The loops of the spread strategy: every [step]-th GPU, then the first ones.
    [src/internal/joblet/gpu/allocation_strategy.go:103-120 SpreadStrategy.SelectGPUs] *)
Definition spread_pick (sorted : list GPU) (n : nat) : list GPU :=
  let step := (length sorted / n)%nat in
  let selected := omap (λ i, sorted !! (i * step)%nat) (seq 0 n) in
  selected ++ drop (length selected) (take n sorted).

Section select.
Context `{!SortSlice}.

(** [src/internal/joblet/gpu/allocation_strategy.go FirstFitStrategy.SelectGPUs] *)
Definition FirstFit_SelectGPUs (available : list GPU) (gpuCount gpuMemoryMB : Z)
    : result gpu_error (list GPU) :=
  if Z.of_nat (length available) <? gpuCount
  then Err (NotEnough gpuCount (Z.of_nat (length available)))
  else slice_to available gpuCount.

(** [src/internal/joblet/gpu/allocation_strategy.go PackStrategy.SelectGPUs] *)
Definition Pack_SelectGPUs (available : list GPU) (gpuCount gpuMemoryMB : Z)
    : result gpu_error (list GPU) :=
  if Z.of_nat (length available) <? gpuCount
  then Err (NotEnough gpuCount (Z.of_nat (length available)))
  else slice_to (sort_slice by_index available) gpuCount.

(** [src/internal/joblet/gpu/allocation_strategy.go SpreadStrategy.SelectGPUs] *)
Definition Spread_SelectGPUs (available : list GPU) (gpuCount gpuMemoryMB : Z)
    : result gpu_error (list GPU) :=
  if Z.of_nat (length available) <? gpuCount
  then Err (NotEnough gpuCount (Z.of_nat (length available)))
  else
    let sorted := sort_slice by_index_desc available in
    if (gpuCount >? 1) && (Z.of_nat (length sorted) >=? gpuCount * 2)
    then Ok (spread_pick sorted (Z.to_nat gpuCount))
    else slice_to sorted gpuCount.

(** [src/internal/joblet/gpu/allocation_strategy.go BestFitStrategy.SelectGPUs] *)
Definition BestFit_SelectGPUs (available : list GPU) (gpuCount gpuMemoryMB : Z)
    : result gpu_error (list GPU) :=
  if Z.of_nat (length available) <? gpuCount
  then Err (NotEnough gpuCount (Z.of_nat (length available)))
  else slice_to (sort_slice (by_fit gpuMemoryMB) available) gpuCount.

(** The method of the interface value.
    [src/internal/joblet/gpu/allocation_strategy.go GPUAllocationStrategy] *)
Definition SelectGPUs (s : strategy) : list GPU → Z → Z → result gpu_error (list GPU) :=
  match s with
  | FirstFit => FirstFit_SelectGPUs
  | Pack => Pack_SelectGPUs
  | Spread => Spread_SelectGPUs
  | BestFit => BestFit_SelectGPUs
  end.
End select.

(** ** The manager *)

(** [src/internal/joblet/gpu/manager.go Manager] *)
Record Manager := {
  enabled : bool;
  gpus : gmap Z GPU;
  allocations : gmap string GPUAllocation;
  allocationStrategy : strategy;
  scrubPolicy : string;
}.

(** [src/internal/joblet/gpu/manager.go:36 scrubResidualThresholdMB] *)
Definition scrubResidualThresholdMB : Z := 64.

(** [src/internal/joblet/gpu/manager.go NewManager] *)
Definition NewManager (enabled : bool) (strategy policy : string) : Manager := {|
  enabled := enabled; gpus := ∅; allocations := ∅;
  allocationStrategy := GetAllocationStrategy strategy; scrubPolicy := policy |}.

Definition set_maps (gs : gmap Z GPU) (al : gmap string GPUAllocation) (m : Manager) : Manager := {|
  enabled := enabled m; gpus := gs; allocations := al;
  allocationStrategy := allocationStrategy m; scrubPolicy := scrubPolicy m |}.

(** [discovered] is the answer of the discovery service.
    [src/internal/joblet/gpu/manager.go Manager.Initialize] *)
Definition Initialize (discovered : option (list GPU)) (m : Manager) : result gpu_error Manager :=
  if negb (enabled m) then Ok m else
  match discovered with
  | None => Err DiscoveryFailed
  | Some l => Ok (set_maps (foldl (λ gs g, <[Index g := g]> gs) (gpus m) l) (allocations m) m)
  end.

(** The GPUs a request can use: free, not quarantined, with enough memory.
    [src/internal/joblet/gpu/manager.go:160-173 Manager.AllocateGPUs] *)
Definition suitable (gpuMemoryMB : Z) (g : GPU) : bool :=
  negb (InUse g) && negb (Quarantined g) &&
  negb ((gpuMemoryMB >? 0) && (MemoryMB g <? gpuMemoryMB)).

(** [src/internal/joblet/gpu/manager.go Manager.GetAvailableGPUs] *)
Definition GetAvailableGPUs (order : list GPU) (m : Manager) : list GPU :=
  if enabled m then filter (λ g, negb (InUse g) && negb (Quarantined g) = true) order else [].

(** [src/internal/joblet/gpu/manager.go Manager.GetAllGPUs] *)
Definition GetAllGPUs (order : list GPU) (m : Manager) : list GPU := if enabled m then order else [].

(** [src/internal/joblet/gpu/manager.go Manager.GetJobAllocation] *)
Definition GetJobAllocation (jobID : string) (m : Manager) : option GPUAllocation :=
  if enabled m then allocations m !! jobID else None.

(** [src/internal/joblet/gpu/manager.go Manager.IsEnabled] *)
Definition IsEnabled (m : Manager) : bool := enabled m.

(** [src/internal/joblet/gpu/manager.go Manager.GetGPUCount] *)
Definition GetGPUCount (m : Manager) : Z := if enabled m then Z.of_nat (size (gpus m)) else 0.

Section manager.
Context `{!SortSlice}.

(** [order] is the order in which the range over the map visits the GPUs.
    [src/internal/joblet/gpu/manager.go Manager.AllocateGPUs] *)
Definition AllocateGPUs (order : list GPU) (now : Z) (jobID : string) (gpuCount gpuMemoryMB : Z)
    (m : Manager) : result gpu_error (GPUAllocation * Manager) :=
  if negb (enabled m) then Err GpuDisabled else
  if gpuCount <=? 0 then Err (InvalidCount gpuCount) else
  match allocations m !! jobID with
  | Some existing => Ok (existing, m)
  | None =>
      let available := sort_slice by_index (filter (λ g, suitable gpuMemoryMB g = true) order) in
      match SelectGPUs (allocationStrategy m) available gpuCount gpuMemoryMB with
      | Err e => Err e
      | Ok selected =>
          let gs := foldl (λ gs g, <[Index g := set_use true jobID (Some now) g]> gs)
                      (gpus m) selected in
          let n := Z.to_nat gpuCount in
          let allocation := {|
            JobUUID := jobID;
            GPUIndices := take n ((Index <$> selected) ++ replicate n 0);
            MIGUUIDs := MIGUUID <$> filter (λ g, IsMIG g = true) selected;
            GPUCount := gpuCount; GPUMemoryMB := gpuMemoryMB; AllocatedAt := now |} in
          Ok (allocation, set_maps gs (<[jobID := allocation]> (allocations m)) m)
      end
  end.
End manager.

(** [src/internal/joblet/gpu/manager.go Manager.quarantine] *)
Definition quarantine (i : Z) (reason : string) (gs : gmap Z GPU) : gmap Z GPU :=
  match gs !! i with
  | Some g => <[i := set_quarantine true reason g]> gs
  | None => gs
  end.

(** One GPU under the strict policy, given what the memory query answered.
    [src/internal/joblet/gpu/manager.go:337-348 Manager.scrubOnRelease] *)
Definition scrub_one (used : Z → result string Z) (gs : gmap Z GPU) (i : Z) : gmap Z GPU :=
  match used i with
  | Err e => quarantine i ("could not verify memory after scrub: " +:+ e) gs
  | Ok usedMB =>
      if usedMB >? scrubResidualThresholdMB
      then quarantine i (Itoa usedMB +:+ "MB still in use after scrub (> " +:+
                         Itoa scrubResidualThresholdMB +:+ "MB)") gs
      else gs
  end.

(** [src/internal/joblet/gpu/manager.go Manager.scrubOnRelease] *)
Definition scrubOnRelease (policy : string) (used : Z → result string Z) (indices : list Z)
    (gs : gmap Z GPU) : gmap Z GPU :=
  let policy := if bool_decide (policy = ""%string) then "reset"%string else policy in
  if bool_decide (policy = "off"%string) then gs
  else if negb (bool_decide (policy = "strict"%string)) then gs
  else foldl (scrub_one used) gs indices.

(** [src/internal/joblet/gpu/manager.go:242-255 Manager.ReleaseGPUs] *)
Definition release_one (gs : gmap Z GPU) (i : Z) : gmap Z GPU :=
  match gs !! i with
  | Some g => <[i := set_use false "" None g]> gs
  | None => gs
  end.

(** [src/internal/joblet/gpu/manager.go Manager.ReleaseGPUs] *)
Definition ReleaseGPUs (used : Z → result string Z) (jobID : string) (m : Manager) : Manager :=
  if negb (enabled m) then m else
  match allocations m !! jobID with
  | None => m
  | Some a =>
      let gs := foldl release_one (gpus m) (GPUIndices a) in
      set_maps (scrubOnRelease (scrubPolicy m) used (GPUIndices a) gs)
        (delete jobID (allocations m)) m
  end.

(** [src/internal/joblet/gpu/manager.go Manager.ClearQuarantine] *)
Definition ClearQuarantine (i : Z) (m : Manager) : result gpu_error Manager :=
  match gpus m !! i with
  | None => Err (NotFound i)
  | Some g => Ok (set_maps (<[i := set_quarantine false "" g]> (gpus m)) (allocations m) m)
  end.

(** ** Selection *)

#[export] Instance by_index_weak : StrictWeak by_index.
Proof. split; unfold by_index; intros; to_prop; rewrite ?Z.ltb_lt, ?Z.ltb_ge, ?Z.ltb_irrefl; lia. Qed.

#[export] Instance by_index_desc_weak : StrictWeak by_index_desc.
Proof.
  split; unfold by_index_desc; intros *; rewrite ?Z.gtb_ltb, ?Z.ltb_lt, ?Z.ltb_ge; lia.
Qed.

(** [by_fit] compares whether the requirement is met, then the waste or the size. *)
Definition fit_key (mem : Z) (g : GPU) : Z * Z :=
  if mem >? 0 then
    let waste := wrap64 (MemoryMB g - mem) in
    if waste >=? 0 then (0, waste) else (1, - MemoryMB g)
  else (0, MemoryMB g).

Lemma by_fit_key mem g h : by_fit mem g h = true ↔
  (fit_key mem g).1 < (fit_key mem h).1 ∨
  (fit_key mem g).1 = (fit_key mem h).1 ∧ (fit_key mem g).2 < (fit_key mem h).2.
Proof.
  unfold by_fit, fit_key. destruct (mem >? 0); simpl; [|rewrite Z.ltb_lt; lia].
  destruct (wrap64 (MemoryMB g - mem) >=? 0), (wrap64 (MemoryMB h - mem) >=? 0); simpl;
    rewrite ?Z.ltb_lt, ?Z.gtb_lt; split; try done; lia.
Qed.

#[export] Instance by_fit_weak mem : StrictWeak (by_fit mem).
Proof.
  split.
  - intros x. apply not_true_iff_false. rewrite by_fit_key. lia.
  - intros x y z. rewrite !by_fit_key. lia.
  - intros x y z. rewrite <- !not_true_iff_false, !by_fit_key. lia.
Qed.

Lemma omap_stride {A} (l : list A) (step n k : nat) : (0 < step)%nat →
  omap (λ i, l !! (i * step)%nat) (seq k n) `sublist_of` drop (k * step) l.
Proof.
  intros Hs. revert k. induction n as [|n IH]; intros k; simpl; [apply sublist_nil_l|].
  assert (Hd : drop (S k * step) l = drop (step - 1) (drop (S (k * step)) l)).
  { rewrite drop_drop. f_equal. lia. }
  specialize (IH (S k)). destruct (l !! (k * step)%nat) as [x|] eqn:E.
  - rewrite (drop_S l x) by done. apply sublist_skip. etrans; [apply IH|].
    rewrite Hd. apply sublist_drop.
  - etrans; [apply IH|]. apply lookup_ge_None in E. rewrite !drop_ge by lia. done.
Qed.

Lemma omap_stride_length {A} (l : list A) (step n k : nat) :
  (∀ i, (i < k + n)%nat → (i * step < length l)%nat) →
  length (omap (λ i, l !! (i * step)%nat) (seq k n)) = n.
Proof.
  revert k. induction n as [|n IH]; intros k Hl; [done|]. cbn [seq].
  assert (is_Some (l !! (k * step)%nat)) as [x Hx] by (apply lookup_lt_is_Some; apply Hl; lia).
  simpl. rewrite Hx. simpl. f_equal. apply IH. intros i Hi. apply Hl. lia.
Qed.

Lemma spread_pick_spec l n : (0 < n ≤ length l)%nat →
  spread_pick l n `sublist_of` l ∧ length (spread_pick l n) = n.
Proof.
  intros Hn. unfold spread_pick. set (step := (length l / n)%nat).
  assert (0 < step)%nat as Hs by (apply Nat.div_str_pos; lia).
  assert (length (omap (λ i, l !! (i * step)%nat) (seq 0 n)) = n) as El.
  { apply omap_stride_length. intros i Hi.
    pose proof (Nat.Div0.mul_div_le (length l) n). fold step in H. nia. }
  rewrite El. rewrite drop_ge by (rewrite length_take; lia). rewrite app_nil_r.
  split; [|done]. apply (omap_stride l step n 0 Hs).
Qed.

Lemma submseteq_NoDup' {A} (l k : list A) : l ⊆+ k → NoDup k → NoDup l.
Proof. intros [r ->]%submseteq_Permutation Hk. by apply NoDup_app in Hk as (? & _). Qed.

Section select_proofs.
Context `{!SortSlice}.

Lemma slice_to_spec l n : 0 ≤ n ≤ Z.of_nat (length l) → slice_to l n = Ok (take (Z.to_nat n) l).
Proof.
  intros Hn. unfold slice_to.
  replace (n <? 0) with false by (symmetry; apply Z.ltb_ge; lia).
  replace (Z.of_nat (length l) <? n) with false by (symmetry; apply Z.ltb_ge; lia). done.
Qed.

Lemma slice_sorted less (l : list GPU) n : 0 ≤ n ≤ Z.of_nat (length l) →
  ∃ sel, slice_to (sort_slice less l) n = Ok sel ∧ length sel = Z.to_nat n ∧ sel ⊆+ l.
Proof.
  intros Hn. rewrite slice_to_spec by (rewrite sort_slice_perm; lia).
  eexists. split; [done|]. split.
  - rewrite length_take, sort_slice_perm. lia.
  - etrans; [apply sublist_submseteq, sublist_take|]. by rewrite sort_slice_perm.
Qed.

(** Enough GPUs are selected, each once; the error is the only other outcome. *)
Lemma SelectGPUs_enough s l n mem : 0 ≤ n ≤ Z.of_nat (length l) →
  ∃ sel, SelectGPUs s l n mem = Ok sel ∧ length sel = Z.to_nat n ∧ sel ⊆+ l.
Proof.
  intros Hn. destruct s; simpl;
    unfold FirstFit_SelectGPUs, Pack_SelectGPUs, Spread_SelectGPUs, BestFit_SelectGPUs;
    replace (Z.of_nat (length l) <? n) with false by (symmetry; apply Z.ltb_ge; lia).
  - rewrite slice_to_spec by done. eexists. split; [done|]. split; [rewrite length_take; lia|].
    apply sublist_submseteq, sublist_take.
  - by apply slice_sorted.
  - destruct (_ && _) eqn:E; [|by apply slice_sorted].
    apply andb_true_iff in E as [E1 E2]. apply Z.gtb_lt in E1.
    destruct (spread_pick_spec (sort_slice by_index_desc l) (Z.to_nat n)) as [Hs Hl].
    { rewrite sort_slice_perm. lia. }
    eexists. split; [done|]. split; [done|].
    etrans; [by apply sublist_submseteq|]. by rewrite sort_slice_perm.
  - by apply slice_sorted.
Qed.

Lemma SelectGPUs_short s l n mem : Z.of_nat (length l) < n →
  SelectGPUs s l n mem = Err (NotEnough n (Z.of_nat (length l))).
Proof.
  intros Hn. apply Z.ltb_lt in Hn. destruct s; simpl;
    unfold FirstFit_SelectGPUs, Pack_SelectGPUs, Spread_SelectGPUs, BestFit_SelectGPUs;
    by rewrite Hn.
Qed.

(** Every strategy, the spread one with its stride included, selects exactly the
    requested number of different available GPUs when there are that many, and
    reports how many are missing otherwise; no slice is indexed out of range. *)
Theorem SelectGPUs_spec s l n mem : 0 ≤ n → NoDup l →
  (n ≤ Z.of_nat (length l) ∧
   ∃ sel, SelectGPUs s l n mem = Ok sel ∧ Z.of_nat (length sel) = n ∧ NoDup sel ∧
     ∀ g, g ∈ sel → g ∈ l) ∨
  (Z.of_nat (length l) < n ∧
   SelectGPUs s l n mem = Err (NotEnough n (Z.of_nat (length l)))).
Proof.
  intros Hn Hnd. destruct (decide (n ≤ Z.of_nat (length l))) as [Hle|Hgt].
  - left. split; [done|]. destruct (SelectGPUs_enough s l n mem) as (sel & E & Hl & Hs); [lia|].
    exists sel. split_and!; [done|lia|by eapply submseteq_NoDup'|].
    intros g Hg. by eapply elem_of_submseteq.
  - right. split; [lia|]. apply SelectGPUs_short. lia.
Qed.

(** Best fit is optimal: no available GPU left out fits the request better
    than one that was selected. *)
Theorem BestFit_optimal l n mem sel : 0 ≤ n → SelectGPUs BestFit l n mem = Ok sel →
  ∃ rest, l ≡ₚ sel ++ rest ∧ ∀ g h, g ∈ sel → h ∈ rest → by_fit mem h g = false.
Proof.
  intros Hn. simpl. unfold BestFit_SelectGPUs. destruct (_ <? _) eqn:E; [done|]. to_prop.
  rewrite slice_to_spec by (rewrite sort_slice_perm; lia). intros [= <-].
  pose proof (sort_slice_sorted (by_fit mem) l (by_fit_weak mem)) as Hs.
  exists (drop (Z.to_nat n) (sort_slice (by_fit mem) l)). split.
  - by rewrite take_drop, sort_slice_perm.
  - rewrite <- (take_drop (Z.to_nat n) (sort_slice (by_fit mem) l)) in Hs.
    intros g h Hg Hh. by eapply StronglySorted_app_1_elem_of in Hs.
Qed.
End select_proofs.

(** ** The manager's maps *)

(** GPUs are filed under their index; a job's allocation names GPUs in use by that
    job, each once and as many as were asked for; a GPU in use is named by its
    job's allocation and is not quarantined. *)
Record mgr_ok (m : Manager) : Prop := {
  ok_index : ∀ i g, gpus m !! i = Some g → Index g = i;
  ok_alloc : ∀ j a, allocations m !! j = Some a →
    NoDup (GPUIndices a) ∧ Z.of_nat (length (GPUIndices a)) = GPUCount a ∧ 0 < GPUCount a ∧
    ∀ i, i ∈ GPUIndices a → ∃ g, gpus m !! i = Some g ∧ InUse g = true ∧ g_JobUUID g = j;
  ok_use : ∀ i g, gpus m !! i = Some g → InUse g = true →
    Quarantined g = false ∧ ∃ a, allocations m !! g_JobUUID g = Some a ∧ i ∈ GPUIndices a;
}.

(** A range over the map visits each GPU once, in some order. *)
Definition visits (order : list GPU) (m : Manager) : Prop := order ≡ₚ (map_to_list (gpus m)).*2.

Lemma visits_elem order m g : mgr_ok m → visits order m → g ∈ order ↔ gpus m !! Index g = Some g.
Proof.
  intros Hok ->. rewrite list_elem_of_fmap. split.
  - intros ([i g'] & -> & Hg). apply elem_of_map_to_list in Hg. simpl in *.
    by rewrite (ok_index _ Hok _ _ Hg).
  - intros Hg. exists (Index g, g). split; [done|]. by apply elem_of_map_to_list.
Qed.

Lemma visits_NoDup order m : mgr_ok m → visits order m → NoDup (Index <$> order).
Proof.
  intros Hok Hv. rewrite Hv. rewrite <- list_fmap_compose.
  assert (Index ∘ snd <$> map_to_list (gpus m) = (map_to_list (gpus m)).*1) as ->.
  { apply list_fmap_ext. intros n [i g] Hn. simpl. apply (ok_index _ Hok).
    apply elem_of_map_to_list. by eapply list_elem_of_lookup_2. }
  apply NoDup_fst_map_to_list.
Qed.

Lemma foldl_mark_lookup (f : GPU → GPU) (sel : list GPU) (gs : gmap Z GPU) i :
  NoDup (Index <$> sel) →
  (∀ g, g ∈ sel → Index g = i →
     foldl (λ gs g, <[Index g := f g]> gs) gs sel !! i = Some (f g)) ∧
  ((∀ g, g ∈ sel → Index g ≠ i) →
     foldl (λ gs g, <[Index g := f g]> gs) gs sel !! i = gs !! i).
Proof.
  revert gs. induction sel as [|h sel IH]; intros gs Hnd; simpl; [by split; [set_solver|]|].
  apply NoDup_cons in Hnd as [Hh Hnd]. destruct (IH (<[Index h := f h]> gs) Hnd) as [IH1 IH2].
  split.
  - intros g [->|Hg]%elem_of_cons Hi; [|by apply IH1].
    rewrite IH2; [by rewrite <- Hi, lookup_insert_eq|].
    intros g' Hg' E. apply Hh. apply list_elem_of_fmap. exists g'. split; [congruence|done].
  - intros Hn. rewrite IH2 by (intros; apply Hn; by right).
    apply lookup_insert_ne. apply Hn. by left.
Qed.

Lemma foldl_release_lookup l gs i : foldl release_one gs l !! i =
  if bool_decide (i ∈ l) then set_use false "" None <$> gs !! i else gs !! i.
Proof.
  revert gs. induction l as [|k l IH]; intros gs; simpl; [done|].
  rewrite IH. unfold release_one. destruct (decide (i = k)) as [->|Hne].
  - rewrite (bool_decide_eq_true_2 (k ∈ k :: l)) by (by left).
    destruct (gs !! k) as [g|] eqn:E; [|rewrite E; by case_bool_decide].
    rewrite lookup_insert_eq. by case_bool_decide.
  - assert ((i ∈ k :: l) ↔ i ∈ l) as Hiff by set_solver.
    rewrite (bool_decide_ext _ _ Hiff). destruct (gs !! k); [|done].
    by rewrite lookup_insert_ne.
Qed.

(** What a scrub of one GPU does to a GPU. *)
Definition scrubbed (g g' : GPU) : Prop := g' = g ∨ ∃ r, g' = set_quarantine true r g.

Lemma scrubbed_keeps g g' : scrubbed g g' → Index g' = Index g ∧ InUse g' = InUse g ∧
  g_JobUUID g' = g_JobUUID g ∧ (Quarantined g = true → Quarantined g' = true).
Proof. intros [->|[r ->]]; done. Qed.

Lemma quarantine_lookup k r gs i : quarantine k r gs !! i =
  if bool_decide (i = k) then set_quarantine true r <$> gs !! i else gs !! i.
Proof.
  unfold quarantine. case_bool_decide as E; [subst|].
  - destruct (gs !! k) eqn:Ek; [by rewrite lookup_insert_eq|by rewrite Ek].
  - destruct (gs !! k); [by rewrite lookup_insert_ne|done].
Qed.

(** A memory query that found the GPU clean. *)
Definition verified (used : Z → result string Z) (i : Z) : Prop :=
  ∃ mb, used i = Ok mb ∧ mb ≤ scrubResidualThresholdMB.

Lemma scrub_one_spec used gs k : (∀ i, i ≠ k → scrub_one used gs k !! i = gs !! i) ∧
  match gs !! k with
  | None => scrub_one used gs k !! k = None
  | Some g => ∃ g', scrub_one used gs k !! k = Some g' ∧ scrubbed g g' ∧
      (Quarantined g' = true ∨ verified used k)
  end.
Proof.
  assert (Hq : ∀ r, (∀ i, i ≠ k → quarantine k r gs !! i = gs !! i) ∧
    match gs !! k with
    | None => quarantine k r gs !! k = None
    | Some g => ∃ g', quarantine k r gs !! k = Some g' ∧ scrubbed g g' ∧
        (Quarantined g' = true ∨ verified used k)
    end).
  { intros r. split; [intros i Hi; by rewrite quarantine_lookup, bool_decide_eq_false_2|].
    rewrite quarantine_lookup, bool_decide_eq_true_2 by done.
    destruct (gs !! k) as [g|]; [|done]. eexists. split; [done|]. split; [right; eauto|by left]. }
  unfold scrub_one. destruct (used k) as [mb|e] eqn:E; [|apply Hq].
  destruct (mb >? _) eqn:Hmb; [apply Hq|]. split; [done|].
  destruct (gs !! k) as [g|]; [|done]. exists g. split; [done|]. split; [by left|].
  right. exists mb. split; [done|]. rewrite Z.gtb_ltb in Hmb. by to_prop.
Qed.

Lemma foldl_scrub_lookup used l gs i :
  match gs !! i with
  | None => foldl (scrub_one used) gs l !! i = None
  | Some g => ∃ g', foldl (scrub_one used) gs l !! i = Some g' ∧ scrubbed g g' ∧
      (i ∈ l → Quarantined g' = true ∨ verified used i)
  end.
Proof.
  revert gs. induction l as [|k l IH]; intros gs; simpl.
  { destruct (gs !! i); [|done]. eexists. split; [done|]. split; [by left|set_solver]. }
  specialize (IH (scrub_one used gs k)). destruct (scrub_one_spec used gs k) as [Hne Hk].
  destruct (decide (i = k)) as [->|Hik].
  - destruct (gs !! k) as [g|]; [|by rewrite Hk in IH].
    destruct Hk as (g1 & E1 & Hs1 & Hv). rewrite E1 in IH. destruct IH as (g' & E & Hs & _).
    exists g'. split; [done|]. split.
    + destruct Hs as [->|[r ->]], Hs1 as [->|[r1 ->]]; unfold scrubbed; eauto.
    + intros _. destruct Hv as [Hv|Hv]; [left|by right].
      by apply (scrubbed_keeps _ _ Hs).
  - rewrite Hne in IH by done. destruct (gs !! i) as [g|]; [|done].
    destruct IH as (g' & E & Hs & Hv). exists g'. split; [done|]. split; [done|].
    intros [->|Hi]%elem_of_cons; [done|auto].
Qed.

Lemma scrubOnRelease_lookup policy used l gs i :
  match gs !! i with
  | None => scrubOnRelease policy used l gs !! i = None
  | Some g => ∃ g', scrubOnRelease policy used l gs !! i = Some g' ∧ scrubbed g g' ∧
      (policy = "strict"%string → i ∈ l → Quarantined g' = true ∨ verified used i)
  end.
Proof.
  unfold scrubOnRelease. pose proof (foldl_scrub_lookup used l gs i) as Hl.
  destruct (decide (policy = "strict"%string)) as [->|Hns].
  - simpl. destruct (gs !! i); [|done]. destruct Hl as (g' & ? & ? & ?). eauto 10.
  - assert (Hsame : ∀ gs', gs' = gs → match gs !! i with
      | None => gs' !! i = None
      | Some g => ∃ g', gs' !! i = Some g' ∧ scrubbed g g' ∧
          (policy = "strict"%string → i ∈ l → Quarantined g' = true ∨ verified used i) end).
    { intros ? ->. destruct (gs !! i) as [g|]; [|done]. exists g. split; [done|]. split; [by left|done]. }
    apply Hsame. repeat case_bool_decide; done.
Qed.

(** ** Allocation *)

Definition grant (now : Z) (jobID : string) (gpuCount gpuMemoryMB : Z) (selected : list GPU)
    : GPUAllocation := {|
  JobUUID := jobID; GPUIndices := Index <$> selected;
  MIGUUIDs := MIGUUID <$> filter (λ g, IsMIG g = true) selected;
  GPUCount := gpuCount; GPUMemoryMB := gpuMemoryMB; AllocatedAt := now |}.

Section manager_proofs.
Context `{!SortSlice}.

Lemma available_elem order mem m g : mgr_ok m → visits order m →
  g ∈ sort_slice by_index (filter (λ g, suitable mem g = true) order) ↔
  gpus m !! Index g = Some g ∧ suitable mem g = true.
Proof.
  intros Hok Hv. rewrite sort_slice_perm, list_elem_of_filter.
  rewrite (visits_elem order m g Hok Hv). tauto.
Qed.

Lemma available_NoDup order mem m : mgr_ok m → visits order m →
  NoDup (Index <$> sort_slice by_index (filter (λ g, suitable mem g = true) order)).
Proof.
  intros Hok Hv. eapply submseteq_NoDup'; [|by apply (visits_NoDup order m)].
  rewrite sort_slice_perm. apply fmap_submseteq, sublist_submseteq, sublist_filter.
Qed.

(** A successful call: the allocation the job already had, or a new one for
    suitable GPUs. *)
Lemma AllocateGPUs_ok order now j n mem m a m' : mgr_ok m → visits order m →
  AllocateGPUs order now j n mem m = Ok (a, m') →
  (allocations m !! j = Some a ∧ m' = m) ∨
  (allocations m !! j = None ∧ 0 < n ∧ ∃ sel, Z.of_nat (length sel) = n ∧
     NoDup (Index <$> sel) ∧ (∀ g, g ∈ sel → gpus m !! Index g = Some g ∧ suitable mem g = true) ∧
     a = grant now j n mem sel ∧
     m' = set_maps (foldl (λ gs g, <[Index g := set_use true j (Some now) g]> gs) (gpus m) sel)
            (<[j := a]> (allocations m)) m).
Proof.
  intros Hok Hv. unfold AllocateGPUs. destruct (enabled m); [|done]. simpl.
  destruct (n <=? 0) eqn:En; [done|]. to_prop.
  destruct (allocations m !! j) as [e|] eqn:Ea; [intros [= <- <-]; by left|].
  set (av := sort_slice _ _).
  destruct (decide (n ≤ Z.of_nat (length av))) as [Hle|Hgt].
  - destruct (SelectGPUs_enough (allocationStrategy m) av n mem) as (sel & -> & Hl & Hs); [lia|].
    intros [= <- <-]. right. split; [done|]. split; [lia|]. exists sel.
    assert (Hg : take (Z.to_nat n) ((Index <$> sel) ++ replicate (Z.to_nat n) 0) = Index <$> sel).
    { apply take_app_length'. by rewrite length_fmap. }
    rewrite Hg. split; [lia|]. split.
    { eapply submseteq_NoDup'; [by apply fmap_submseteq|]. by apply (available_NoDup order mem m). }
    split; [|done]. intros g Hgs. apply (available_elem order mem m g Hok Hv).
    by eapply elem_of_submseteq.
  - rewrite SelectGPUs_short by lia. done.
Qed.

Lemma suitable_free mem g : suitable mem g = true → InUse g = false ∧ Quarantined g = false.
Proof. unfold suitable. intros Hs. by to_prop. Qed.

(** A grant gives the job as many GPUs as it asked for, all of them free, not
    quarantined and large enough until then, and marks exactly those as its own;
    asking again returns the same grant and changes nothing. *)
Theorem AllocateGPUs_grant order now j n mem m a m' : mgr_ok m → visits order m →
  AllocateGPUs order now j n mem m = Ok (a, m') →
  AllocateGPUs order now j n mem m' = Ok (a, m') ∧
  (allocations m !! j = None →
   Z.of_nat (length (GPUIndices a)) = n ∧ NoDup (GPUIndices a) ∧
   (∀ i, i ∈ GPUIndices a → ∃ g, gpus m !! i = Some g ∧ InUse g = false ∧
      Quarantined g = false ∧ (0 < mem → mem ≤ MemoryMB g) ∧
      gpus m' !! i = Some (set_use true j (Some now) g)) ∧
   (∀ i, i ∉ GPUIndices a → gpus m' !! i = gpus m !! i)).
Proof.
  intros Hok Hv Ha. pose proof Ha as Ha'. unfold AllocateGPUs in Ha'.
  destruct (enabled m) eqn:Een; [|done]. simpl in Ha'. destruct (n <=? 0) eqn:En; [done|]. clear Ha'.
  destruct (AllocateGPUs_ok _ _ _ _ _ _ _ _ Hok Hv Ha) as [[Hex ->]|(Hno & Hn & sel & Hl & Hnd & Hsel & -> & ->)].
  { split; [done|]. by rewrite Hex. }
  split.
  { unfold AllocateGPUs. simpl. rewrite Een, En. simpl. by rewrite lookup_insert_eq. }
  intros _. simpl. split; [by rewrite length_fmap|]. split; [done|]. split.
  - intros i (g & -> & Hg)%list_elem_of_fmap. destruct (Hsel g Hg) as [Hgi Hs].
    exists g. split; [done|]. destruct (suitable_free _ _ Hs) as [-> ->].
    split; [done|]. split; [done|]. split.
    + intros Hm. unfold suitable in Hs. apply andb_true_iff in Hs as [_ Hs].
      apply negb_true_iff, andb_false_iff in Hs as [Hs|Hs]; [rewrite Z.gtb_ltb in Hs|]; to_prop; lia.
    + by apply foldl_mark_lookup.
  - intros i Hi. apply foldl_mark_lookup; [done|].
    intros g Hg E. apply Hi. apply list_elem_of_fmap. eauto.
Qed.

(** The order in which the range over the GPU map visits it, which Go leaves
    open, has no influence on an allocation, whatever the strategy. *)
Theorem AllocateGPUs_deterministic order1 order2 now j n mem m :
  mgr_ok m → visits order1 m → visits order2 m →
  AllocateGPUs order1 now j n mem m = AllocateGPUs order2 now j n mem m.
Proof.
  intros Hok H1 H2. unfold AllocateGPUs.
  enough (sort_slice by_index (filter (λ g, suitable mem g = true) order1) =
          sort_slice by_index (filter (λ g, suitable mem g = true) order2)) as -> by done.
  apply (sorted_perm_unique (not_after by_index)).
  - intros x y Hx Hy Hxy Hyx. apply (available_elem order1 mem m x Hok H1) in Hx as [Hx _].
    apply (available_elem order1 mem m y Hok H1) in Hy as [Hy _].
    unfold not_after, by_index in *. to_prop.
    assert (Index x = Index y) as E by lia. rewrite E in Hx. congruence.
  - apply sort_slice_sorted, _.
  - apply sort_slice_sorted, _.
  - rewrite !sort_slice_perm. by rewrite H1, H2.
Qed.

Lemma AllocateGPUs_inv order now j n mem m a m' : mgr_ok m → visits order m →
  AllocateGPUs order now j n mem m = Ok (a, m') → mgr_ok m'.
Proof.
  intros Hok Hv Ha.
  destruct (AllocateGPUs_ok _ _ _ _ _ _ _ _ Hok Hv Ha) as [[_ ->]|(Hno & Hn & sel & Hl & Hnd & Hsel & -> & ->)];
    [done|].
  set (f := set_use true j (Some now)).
  assert (Hmark : ∀ i, (∃ g, g ∈ sel ∧ Index g = i ∧ gpus m !! i = Some g ∧ InUse g = false ∧
      Quarantined g = false ∧ foldl (λ gs g, <[Index g := f g]> gs) (gpus m) sel !! i = Some (f g)) ∨
    ((∀ g, g ∈ sel → Index g ≠ i) ∧
      foldl (λ gs g, <[Index g := f g]> gs) (gpus m) sel !! i = gpus m !! i)).
  { intros i. destruct (decide (i ∈ Index <$> sel)) as [(g & -> & Hg)%list_elem_of_fmap|Hi].
    - left. exists g. destruct (Hsel g Hg) as [? Hs]. destruct (suitable_free _ _ Hs).
      split_and!; try done. by apply foldl_mark_lookup.
    - right. assert (∀ g, g ∈ sel → Index g ≠ i) as Hne.
      { intros g Hg E. apply Hi. apply list_elem_of_fmap. eauto. }
      split; [done|]. by apply foldl_mark_lookup. }
  split; simpl.
  - intros i g Hg. destruct (Hmark i) as [(h & _ & Hi & _ & _ & _ & E)|[_ E]]; rewrite E in Hg.
    + by simplify_eq.
    + by eapply ok_index.
  - intros k b. destruct (decide (k = j)) as [->|Hkj].
    + rewrite lookup_insert_eq. intros [= <-]. simpl. rewrite length_fmap.
      split_and!; try done. intros i (g & -> & Hg)%list_elem_of_fmap.
      destruct (Hmark (Index g)) as [(h & _ & _ & _ & _ & _ & E)|[Hn' _]]; [|by destruct (Hn' g)].
      rewrite E. by eexists.
    + rewrite lookup_insert_ne by done. intros Hb.
      destruct (ok_alloc _ Hok _ _ Hb) as (? & ? & ? & Hgs). split_and!; try done.
      intros i Hi. destruct (Hgs i Hi) as (g & Hg & Hu & Hj).
      destruct (Hmark i) as [(h & _ & _ & Hh & Hfree & _)|[_ E]]; [congruence|].
      rewrite E. eauto.
  - intros i g Hg Hu. destruct (Hmark i) as [(h & Hh & <- & _ & _ & Hq & E)|[Hn' E]]; rewrite E in Hg.
    + simplify_eq. simpl. split; [done|]. rewrite lookup_insert_eq. eexists. split; [done|].
      simpl. apply list_elem_of_fmap. eauto.
    + destruct (ok_use _ Hok _ _ Hg Hu) as (Hq & b & Hb & Hi). split; [done|].
      rewrite lookup_insert_ne by congruence. eauto.
Qed.
End manager_proofs.

(** ** Release and quarantine *)

Lemma ReleaseGPUs_lookup used j a m i : enabled m = true → allocations m !! j = Some a →
  match gpus m !! i with
  | None => gpus (ReleaseGPUs used j m) !! i = None
  | Some g => ∃ g', gpus (ReleaseGPUs used j m) !! i = Some g' ∧
      (i ∉ GPUIndices a → g' = g) ∧
      (i ∈ GPUIndices a → scrubbed (set_use false "" None g) g' ∧
         (scrubPolicy m = "strict"%string → Quarantined g' = true ∨ verified used i))
  end.
Proof.
  intros He Ha. unfold ReleaseGPUs. rewrite He, Ha. simpl.
  set (gs := foldl release_one _ _).
  assert (Hgs : gs !! i = if bool_decide (i ∈ GPUIndices a) then set_use false "" None <$> gpus m !! i
    else gpus m !! i) by apply foldl_release_lookup.
  pose proof (scrubOnRelease_lookup (scrubPolicy m) used (GPUIndices a) gs i) as Hs.
  rewrite Hgs in Hs. case_bool_decide as Hi; destruct (gpus m !! i) as [g|]; simpl in Hs; try done.
  - destruct Hs as (g' & E & Hs & Hv). exists g'. split; [done|]. split; [done|]. auto.
  - destruct Hs as (g' & E & Hs & Hv). exists g'. split; [done|]. split; [|done]. intros _.
    revert E. unfold scrubOnRelease.
    (* a GPU outside the allocation is not scrubbed *)
    assert (Hout : ∀ l gs, i ∉ l → foldl (scrub_one used) gs l !! i = gs !! i).
    { induction l as [|k l IH]; intros gs0 Hl; [done|]. simpl. apply not_elem_of_cons in Hl as [Hk Hl].
      rewrite IH by done. by apply scrub_one_spec. }
    repeat case_bool_decide; simpl; rewrite ?Hout by done; rewrite Hgs; congruence.
Qed.

Lemma ReleaseGPUs_other used j k m : k ≠ j →
  allocations (ReleaseGPUs used j m) !! k = allocations m !! k.
Proof.
  intros Hk. unfold ReleaseGPUs. destruct (enabled m); [|done]. simpl.
  destruct (allocations m !! j); [|done]. simpl. by apply lookup_delete_ne.
Qed.

Lemma ReleaseGPUs_inv used j m : mgr_ok m → mgr_ok (ReleaseGPUs used j m).
Proof.
  intros Hok. destruct (enabled m) eqn:He; [|by unfold ReleaseGPUs; rewrite He].
  destruct (allocations m !! j) as [a|] eqn:Ea; [|by unfold ReleaseGPUs; rewrite He, Ea].
  assert (Hdel : allocations (ReleaseGPUs used j m) !! j = None).
  { unfold ReleaseGPUs. rewrite He, Ea. simpl. apply lookup_delete_eq. }
  pose proof (ok_alloc _ Hok _ _ Ea) as (_ & _ & _ & Hmine).
  split.
  - intros i g' Hg'. pose proof (ReleaseGPUs_lookup used j a m i He Ea) as Hl.
    destruct (gpus m !! i) as [g|] eqn:Eg; [|congruence].
    destruct Hl as (g1 & E & Hout & Hin). simplify_eq. pose proof (ok_index _ Hok _ _ Eg).
    destruct (decide (i ∈ GPUIndices a)) as [Hi|Hi]; [|by rewrite Hout].
    destruct (Hin Hi) as [Hs _]. by destruct (scrubbed_keeps _ _ Hs) as (-> & _).
  - intros k b Hb. destruct (decide (k = j)) as [->|Hkj]; [congruence|].
    rewrite ReleaseGPUs_other in Hb by done.
    destruct (ok_alloc _ Hok _ _ Hb) as (? & ? & ? & Hgs). split_and!; try done.
    intros i Hi. destruct (Hgs i Hi) as (g & Hg & Hu & Hj).
    pose proof (ReleaseGPUs_lookup used j a m i He Ea) as Hl. rewrite Hg in Hl.
    destruct Hl as (g1 & E & Hout & _). exists g1. rewrite E, Hout; [done|].
    intros Hia. destruct (Hmine i Hia) as (g2 & ? & ? & ?). congruence.
  - intros i g' Hg' Hu. pose proof (ReleaseGPUs_lookup used j a m i He Ea) as Hl.
    destruct (gpus m !! i) as [g|] eqn:Eg; [|congruence].
    destruct Hl as (g1 & E & Hout & Hin). simplify_eq.
    destruct (decide (i ∈ GPUIndices a)) as [Hi|Hi].
    + destruct (Hin Hi) as [Hs _]. destruct (scrubbed_keeps _ _ Hs) as (_ & Hu' & _).
      rewrite Hu' in Hu. done.
    + rewrite Hout in * by done. destruct (ok_use _ Hok _ _ Eg Hu) as (Hq & b & Hb & Hib).
      split; [done|]. exists b. split; [|done]. rewrite ReleaseGPUs_other; [done|]. intros <-.
      by simplify_eq.
Qed.

Lemma ClearQuarantine_inv i m m' : mgr_ok m → ClearQuarantine i m = Ok m' → mgr_ok m'.
Proof.
  intros Hok. unfold ClearQuarantine. destruct (gpus m !! i) as [g|] eqn:Eg; [|done].
  intros [= <-]. split; simpl.
  - intros k h. destruct (decide (k = i)) as [->|Hk].
    + rewrite lookup_insert_eq. intros [= <-]. exact (ok_index _ Hok _ _ Eg).
    + rewrite lookup_insert_ne by done. apply (ok_index _ Hok).
  - intros j a Ha. destruct (ok_alloc _ Hok _ _ Ha) as (? & ? & ? & Hgs). split_and!; try done.
    intros k Hk. destruct (Hgs k Hk) as (h & Hh & ? & ?). destruct (decide (k = i)) as [->|Hki].
    + rewrite lookup_insert_eq. simplify_eq. by eexists.
    + rewrite lookup_insert_ne by done. eauto.
  - intros k h. destruct (decide (k = i)) as [->|Hki].
    + rewrite lookup_insert_eq. intros [= <-] Hu. simpl. split; [done|]. exact (proj2 (ok_use _ Hok i g Eg Hu)).
    + rewrite lookup_insert_ne by done. apply (ok_use _ Hok).
Qed.

#[export] Instance verified_dec used i : Decision (verified used i).
Proof.
  destruct (used i) as [mb|e] eqn:E.
  - destruct (decide (mb ≤ scrubResidualThresholdMB)) as [H|H]; [left; by exists mb|right].
    intros (mb' & E' & Hle). rewrite E in E'. injection E' as <-. by apply H.
  - right. intros (mb & ? & _). congruence.
Defined.

(** Discovery reports free GPUs. *)
Lemma Initialize_inv en st pol l m : (∀ g, g ∈ l → InUse g = false) →
  Initialize (Some l) (NewManager en st pol) = Ok m → mgr_ok m.
Proof.
  intros Hl. unfold Initialize. destruct en; simpl; [|intros [= <-]; split; simpl; set_solver].
  intros [= <-].
  assert (H : ∀ gs : gmap Z GPU, (∀ i g, gs !! i = Some g → Index g = i ∧ InUse g = false) →
    ∀ i g, foldl (λ gs g, <[Index g := g]> gs) gs l !! i = Some g → Index g = i ∧ InUse g = false).
  { induction l as [|h l IH]; intros gs Hgs; [done|]. simpl. apply IH; [set_solver|].
    intros i g. destruct (decide (i = Index h)) as [->|Hi].
    - rewrite lookup_insert_eq. intros [= <-]. split; [done|]. apply Hl. by left.
    - rewrite lookup_insert_ne by done. apply Hgs. }
  specialize (H ∅ ltac:(done)). split; simpl.
  - intros i g Hg. by apply H.
  - done.
  - intros i g Hg Hu. apply H in Hg as [_ Hf]. congruence.
Qed.

(** ** Runs of the manager *)

Inductive gpu_op :=
| OpAllocate (order : list GPU) (now : Z) (jobID : string) (gpuCount gpuMemoryMB : Z)
| OpRelease (used : Z → result string Z) (jobID : string)
| OpClear (i : Z).

Section runs.
Context `{!SortSlice}.

(** A failed call changes nothing. *)
Definition gpu_step (op : gpu_op) (m : Manager) : Manager :=
  match op with
  | OpAllocate order now j n mem =>
      match AllocateGPUs order now j n mem m with Ok (_, m') => m' | Err _ => m end
  | OpRelease used j => ReleaseGPUs used j m
  | OpClear i => match ClearQuarantine i m with Ok m' => m' | Err _ => m end
  end.

(** The GPUs whose memory may hold a job's data: a grant adds its GPUs; a release
    whose memory query found a GPU clean, and an operator's [ClearQuarantine],
    remove them. *)
Definition dirty_step (op : gpu_op) (m : Manager) (d : gset Z) : gset Z :=
  match op with
  | OpAllocate order now j n mem =>
      match AllocateGPUs order now j n mem m with
      | Ok (a, _) => d ∪ list_to_set (GPUIndices a) | Err _ => d end
  | OpRelease used j =>
      match allocations m !! j with
      | Some a => filter (λ i, ¬ (i ∈ GPUIndices a ∧ verified used i)) d | None => d end
  | OpClear i =>
      match gpus m !! i with Some g => if InUse g then d else d ∖ {[i]} | None => d end
  end.

(** A state the manager can reach after discovering [l], with its dirty GPUs. *)
Inductive gpu_reachable (en : bool) (st pol : string) (l : list GPU) : Manager → gset Z → Prop :=
| gr_init m : Initialize (Some l) (NewManager en st pol) = Ok m → gpu_reachable en st pol l m ∅
| gr_step op m d : gpu_reachable en st pol l m d →
    (∀ order now j n mem, op = OpAllocate order now j n mem → visits order m) →
    gpu_reachable en st pol l (gpu_step op m) (dirty_step op m d).

Lemma gpu_step_inv op m : mgr_ok m →
  (∀ order now j n mem, op = OpAllocate order now j n mem → visits order m) →
  mgr_ok (gpu_step op m).
Proof.
  intros Hok Hv. destruct op as [order now j n mem|used j|i]; simpl.
  - destruct (AllocateGPUs _ _ _ _ _ _) as [[a m']|] eqn:E; [|done].
    eapply (AllocateGPUs_inv order now j n mem m a m'); [done|by eapply Hv|done].
  - by apply ReleaseGPUs_inv.
  - destruct (ClearQuarantine i m) eqn:E; [|done]. by eapply ClearQuarantine_inv.
Qed.

Lemma gpu_reachable_ok en st pol l m d : (∀ g, g ∈ l → InUse g = false) →
  gpu_reachable en st pol l m d → mgr_ok m.
Proof.
  intros Hl. induction 1 as [m E|op m d _ IH Hv]; [by eapply Initialize_inv|by apply gpu_step_inv].
Qed.

(** C21 In every reachable state of the manager no GPU belongs to two jobs: the
    allocations of different jobs are disjoint, every GPU of an allocation exists
    and is marked in use by its job, and a GPU marked in use is in the
    allocation of the job it names. *)
Theorem gpu_exclusive en st pol l m d : (∀ g, g ∈ l → InUse g = false) →
  gpu_reachable en st pol l m d →
  mgr_ok m ∧
  ∀ j1 j2 a1 a2 i, allocations m !! j1 = Some a1 → allocations m !! j2 = Some a2 →
    i ∈ GPUIndices a1 → i ∈ GPUIndices a2 → j1 = j2.
Proof.
  intros Hl Hr. pose proof (gpu_reachable_ok _ _ _ _ _ _ Hl Hr) as Hok. split; [done|].
  intros j1 j2 a1 a2 i H1 H2 Hi1 Hi2.
  destruct (ok_alloc _ Hok _ _ H1) as (_ & _ & _ & Hg1).
  destruct (ok_alloc _ Hok _ _ H2) as (_ & _ & _ & Hg2).
  destruct (Hg1 i Hi1) as (g1 & ? & _ & <-), (Hg2 i Hi2) as (g2 & ? & _ & <-). congruence.
Qed.

(** Under the strict policy a dirty GPU is in use or quarantined. *)
Definition strict_ok (m : Manager) (d : gset Z) : Prop :=
  ∀ i g, gpus m !! i = Some g → i ∈ d → InUse g = true ∨ Quarantined g = true.

Lemma strict_ok_step op m d : mgr_ok m → scrubPolicy m = "strict"%string →
  (∀ order now j n mem, op = OpAllocate order now j n mem → visits order m) →
  strict_ok m d → strict_ok (gpu_step op m) (dirty_step op m d).
Proof.
  intros Hok Hpol Hv Hs. destruct op as [order now j n mem|used j|k]; simpl.
  - destruct (AllocateGPUs _ _ _ _ _ _) as [[a m']|] eqn:E; [|done].
    pose proof (AllocateGPUs_inv order now j n mem m a m' Hok ltac:(by eapply Hv) E) as Hok'.
    destruct (AllocateGPUs_ok _ _ _ _ _ _ _ _ Hok ltac:(by eapply Hv) E)
      as [[Hex ->]|(_ & _ & sel & _ & Hnd & Hsel & Ea & Em)].
    + intros i g Hg [Hi|Hi]%elem_of_union; [by eapply Hs|].
      apply elem_of_list_to_set in Hi. destruct (ok_alloc _ Hok _ _ Hex) as (_ & _ & _ & Hgs).
      destruct (Hgs i Hi) as (g' & ? & ? & _). left. congruence.
    + intros i g Hg Hi. destruct (decide (i ∈ GPUIndices a)) as [Hia|Hia].
      * assert (allocations m' !! j = Some a) as Ha by (rewrite Em; apply lookup_insert_eq).
        destruct (ok_alloc _ Hok' _ _ Ha) as (_ & _ & _ & Hgs).
        destruct (Hgs i Hia) as (g' & ? & ? & _). left. congruence.
      * apply elem_of_union in Hi as [Hi|Hi%elem_of_list_to_set]; [|done].
        apply (Hs i g); [|done]. rewrite <- Hg, Em. simpl. symmetry.
        apply foldl_mark_lookup; [done|]. intros h Hh <-. apply Hia. rewrite Ea.
        apply list_elem_of_fmap. eauto.
  - destruct (allocations m !! j) as [a|] eqn:Ea;
      [|unfold ReleaseGPUs; rewrite Ea; by destruct (enabled m)].
    destruct (enabled m) eqn:He.
    + intros i g' Hg' [Hnv Hi]%elem_of_filter.
      pose proof (ReleaseGPUs_lookup used j a m i He Ea) as Hl.
      destruct (gpus m !! i) as [g|] eqn:Eg; [|congruence]. destruct Hl as (g1 & E & Hout & Hin).
      simplify_eq. destruct (decide (i ∈ GPUIndices a)) as [Hia|Hia].
      * destruct (Hin Hia) as [_ Hq]. destruct (Hq Hpol) as [?|?]; [by right|]. by destruct Hnv.
      * rewrite Hout by done. by eapply Hs.
    + unfold ReleaseGPUs. rewrite He. simpl. intros i g Hg [_ Hi]%elem_of_filter. by eapply Hs.
  - unfold ClearQuarantine. destruct (gpus m !! k) as [h|] eqn:Ek; [|done].
    intros i g. simpl. destruct (decide (i = k)) as [->|Hik].
    + rewrite lookup_insert_eq. intros [= <-] Hi. destruct (InUse h) eqn:Eu; [by left|set_solver].
    + rewrite lookup_insert_ne by done. intros Hg Hi. apply (Hs i g Hg). destruct (InUse h); set_solver.
Qed.

Lemma gpu_step_policy op m : scrubPolicy (gpu_step op m) = scrubPolicy m.
Proof.
  destruct op; simpl.
  - unfold AllocateGPUs. by repeat case_match; simplify_eq/=.
  - unfold ReleaseGPUs. by repeat case_match.
  - unfold ClearQuarantine. by repeat case_match; simplify_eq/=.
Qed.

(** Under the strict scrub policy no job is handed a GPU another job used, unless
    a memory query found it clean when it was released or an operator cleared
    its quarantine since. *)
Theorem strict_scrub_no_stale en st l m d order now j n mem a m' :
  (∀ g, g ∈ l → InUse g = false) → gpu_reachable en st "strict" l m d → visits order m →
  allocations m !! j = None → AllocateGPUs order now j n mem m = Ok (a, m') →
  ∀ i, i ∈ GPUIndices a → i ∉ d.
Proof.
  intros Hl Hr Hv Hno Ha i Hi Hd.
  assert (mgr_ok m ∧ scrubPolicy m = "strict"%string ∧ strict_ok m d) as (Hok & _ & Hs).
  { clear - Hl Hr. induction Hr as [m E|op m d Hr IH Hv].
    - split; [by eapply Initialize_inv|]. unfold Initialize in E.
      split; [destruct en; simpl in E; by injection E as <-|]. intros i g _ Hi. by apply elem_of_empty in Hi.
    - destruct IH as (Hok & Hp & Hs). split; [by apply gpu_step_inv|].
      split; [by rewrite gpu_step_policy|]. by apply strict_ok_step. }
  destruct (AllocateGPUs_ok _ _ _ _ _ _ _ _ Hok Hv Ha) as [[Hex _]|(_ & _ & sel & _ & _ & Hsel & -> & _)];
    [congruence|].
  simpl in Hi. apply list_elem_of_fmap in Hi as (g & -> & Hg).
  destruct (Hsel g Hg) as [Hgi Hsu]. destruct (suitable_free _ _ Hsu).
  destruct (Hs _ _ Hgi Hd); congruence.
Qed.

(** The "pack" strategy is first fit: on the sorted list the manager passes, the
    two select the same GPUs, and neither looks at how other GPUs are used. *)
Theorem pack_is_first_fit l n mem :
  NoDup (Index <$> l) →
  SelectGPUs Pack (sort_slice by_index l) n mem = SelectGPUs FirstFit (sort_slice by_index l) n mem.
Proof.
  intros Hnd. simpl. unfold Pack_SelectGPUs, FirstFit_SelectGPUs. case_match; [done|]. f_equal.
  apply (sorted_perm_unique (not_after by_index)); [|apply sort_slice_sorted, _..|by rewrite !sort_slice_perm].
  intros x y Hx Hy Hxy Hyx. rewrite !sort_slice_perm in *. unfold not_after, by_index in *. to_prop.
  apply list_elem_of_lookup in Hx as [a Ha], Hy as [b Hb].
  assert (a = b) as ->; [|congruence].
  eapply NoDup_lookup; [done|by rewrite list_lookup_fmap, Ha|rewrite list_lookup_fmap, Hb].
  simpl. f_equal. lia.
Qed.
End runs.

(** ** Concrete runs, on the simulated devices *)

Definition pad8 (s : string) : string :=
  of_bytes (replicate (8 - List.length (bytes s)) "0"%char ++ bytes s).

(** [src/internal/joblet/gpu/simulated.go SimulatedDiscovery.DiscoverGPUs] *)
Definition DiscoverGPUs_simulated (count : nat) : list GPU :=
  (λ i, {| Index := Z.of_nat i; UUID := "GPU-SIM-" +:+ pad8 (Itoa (Z.of_nat i));
           Name := "Simulated GPU"; MemoryMB := 16384; InUse := false; g_JobUUID := "";
           g_AllocatedAt := None; IsMIG := false; MIGUUID := ""; CapMinors := [];
           Quarantined := false; QuarantineReason := "" |}) <$> seq 0 count.

(** [src/internal/joblet/gpu/simulated.go NewSimulatedDiscovery] *)
Definition NewSimulatedDiscovery (count : Z) : nat :=
  if count <=? 0 then 2%nat else Z.to_nat count.

Lemma simulated_free n g : g ∈ DiscoverGPUs_simulated n → InUse g = false.
Proof. by intros (i & -> & _)%list_elem_of_fmap. Qed.

#[local] Existing Instance insertion_SortSlice.

Definition sim_manager (st pol : string) : Manager :=
  match Initialize (Some (DiscoverGPUs_simulated 4)) (NewManager true st pol) with
  | Ok m => m | Err _ => NewManager true st pol end.

Lemma sim_reachable st pol :
  gpu_reachable true st pol (DiscoverGPUs_simulated 4) (sim_manager st pol) ∅.
Proof. by apply gr_init. Qed.

Lemma sim_ok st pol : mgr_ok (sim_manager st pol).
Proof. eapply gpu_reachable_ok; [apply simulated_free|apply sim_reachable]. Qed.

Lemma visits_self m : visits (map_to_list (gpus m)).*2 m.
Proof. unfold visits. reflexivity. Qed.

Lemma SelectGPUs_spec_witness :
  (Index <$> match SelectGPUs Spread (DiscoverGPUs_simulated 4) 2 0 with Ok l => l | Err _ => [] end)
    = [3; 1] ∧
  ((2 ≤ 4 ∧ ∃ sel, SelectGPUs Spread (DiscoverGPUs_simulated 4) 2 0 = Ok sel ∧
     Z.of_nat (length sel) = 2 ∧ NoDup sel ∧ ∀ g, g ∈ sel → g ∈ DiscoverGPUs_simulated 4) ∨
   (4 < 2 ∧ SelectGPUs Spread (DiscoverGPUs_simulated 4) 2 0 = Err (NotEnough 2 4))).
Proof.
  split; [vm_compute; reflexivity|].
  apply (SelectGPUs_spec Spread (DiscoverGPUs_simulated 4) 2 0); [lia|].
  eapply (NoDup_fmap_1 Index). apply (bool_decide_unpack _). vm_compute. exact I.
Defined.

Lemma BestFit_optimal_witness :
  ∃ sel rest, SelectGPUs BestFit (DiscoverGPUs_simulated 4) 3 1024 = Ok sel ∧
    DiscoverGPUs_simulated 4 ≡ₚ sel ++ rest ∧
    ∀ g h, g ∈ sel → h ∈ rest → by_fit 1024 h g = false.
Proof.
  eexists. edestruct (BestFit_optimal (DiscoverGPUs_simulated 4) 3 1024) as [rest H];
    [lia|vm_compute; reflexivity|].
  exists rest. split; [vm_compute; reflexivity|exact H].
Defined.

Lemma AllocateGPUs_grant_witness :
  let m := sim_manager "spread" "strict" in
  ∃ a m', AllocateGPUs (map_to_list (gpus m)).*2 7 "job-a" 2 1024 m = Ok (a, m') ∧
    GPUIndices a = [3; 1] ∧
    AllocateGPUs (map_to_list (gpus m)).*2 7 "job-a" 2 1024 m' = Ok (a, m').
Proof.
  intros m. eexists _, _. split; [vm_compute; reflexivity|]. split; [done|].
  eapply (AllocateGPUs_grant (map_to_list (gpus m)).*2 7 "job-a" 2 1024 m);
    [apply sim_ok|apply visits_self|vm_compute; reflexivity].
Defined.

Lemma AllocateGPUs_deterministic_witness :
  let m := sim_manager "best-fit" "" in
  AllocateGPUs (rev (map_to_list (gpus m)).*2) 7 "job-a" 2 1024 m =
  AllocateGPUs (map_to_list (gpus m)).*2 7 "job-a" 2 1024 m.
Proof.
  intros m. apply (AllocateGPUs_deterministic _ _ 7 "job-a" 2 1024 m);
    [apply sim_ok| |apply visits_self].
  unfold visits. symmetry. apply Permutation_rev.
Defined.

(** Two jobs on the four devices, with a release in between. *)
Definition sim_run : list gpu_op := [
  OpAllocate (map_to_list (gpus (sim_manager "" "strict"))).*2 1 "job-a" 3 0;
  OpRelease (λ i, if i =? 1 then Ok 900 else Ok 0) "job-a"].

Definition sim_state : Manager := foldl (λ m op, gpu_step op m) (sim_manager "" "strict") sim_run.
Definition sim_dirty : gset Z :=
  (foldl (λ md op, (gpu_step op md.1, dirty_step op md.1 md.2)) (sim_manager "" "strict", ∅) sim_run).2.

Lemma sim_state_reachable :
  gpu_reachable true "" "strict" (DiscoverGPUs_simulated 4) sim_state sim_dirty.
Proof.
  unfold sim_state, sim_dirty, sim_run. cbn [foldl fst snd].
  apply gr_step; [apply gr_step; [apply sim_reachable|]|].
  - intros order now j n mem E.
    apply (f_equal (λ op, match op with OpAllocate o _ _ _ _ => o | _ => [] end)) in E.
    cbv beta iota in E. rewrite <- E. apply visits_self.
  - done.
Qed.

Lemma gpu_exclusive_witness : mgr_ok sim_state ∧
  ∀ j1 j2 a1 a2 i, allocations sim_state !! j1 = Some a1 → allocations sim_state !! j2 = Some a2 →
    i ∈ GPUIndices a1 → i ∈ GPUIndices a2 → j1 = j2.
Proof.
  apply (gpu_exclusive true "" "strict" (DiscoverGPUs_simulated 4) sim_state sim_dirty);
    [apply simulated_free|apply sim_state_reachable].
Defined.

Lemma strict_scrub_no_stale_witness :
  sim_dirty = {[1]} ∧
  ∃ a m', AllocateGPUs (map_to_list (gpus sim_state)).*2 9 "job-b" 2 0 sim_state = Ok (a, m') ∧
    GPUIndices a = [0; 2] ∧ ∀ i, i ∈ GPUIndices a → i ∉ sim_dirty.
Proof.
  split; [vm_compute; reflexivity|]. eexists _, _. split; [vm_compute; reflexivity|]. split; [done|].
  eapply (strict_scrub_no_stale true "" (DiscoverGPUs_simulated 4) sim_state sim_dirty
    (map_to_list (gpus sim_state)).*2 9 "job-b" 2 0);
    [apply simulated_free|apply sim_state_reachable|apply visits_self|vm_compute; reflexivity..].
Defined.

Lemma pack_is_first_fit_witness :
  let l := sort_slice by_index (DiscoverGPUs_simulated 4) in
  SelectGPUs Pack l 2 0 = SelectGPUs FirstFit l 2 0.
Proof.
  apply (pack_is_first_fit (DiscoverGPUs_simulated 4) 2 0).
  apply (bool_decide_unpack _). vm_compute. exact I.
Defined.
