(* ===== verification/IPNet.v ===== *)
(** * IP addresses and networks, as the standard library's [net] has them

    An address ([net.IP]) is a list of bytes, four or sixteen of them.  IPv4 text
    is parsed and printed as in [net] and [net/netip]; IPv6 text is behind the
    interface [IPv6Text].  The second half relates the byte-wise operations to
    the numbers the addresses stand for. *)

From S2P Require Import Prelude GoStrings.
From Stdlib Require Import Ascii.

Local Open Scope Z_scope.

(** ** Addresses and networks *)

Abbreviation ip := (list Z) (only parsing).

Record ipnet := { net_IP : ip; net_Mask : ip }.

(** [net.CIDRMask] of [n] ones over [len] bytes. *)
Fixpoint CIDRMask (n : nat) (len : nat) : ip :=
  match len with
  | O => []
  | S len =>
      if Nat.leb 8 n then 255 :: CIDRMask (n - 8) len
      else (256 - 2 ^ Z.of_nat (8 - n)) :: replicate len 0
  end.

Definition v4InV6Prefix : ip := replicate 10 0 ++ [255; 255].

(** [IP.To4] *)
Definition To4 (a : ip) : option ip :=
  if Nat.eqb (length a) 4 then Some a
  else if Nat.eqb (length a) 16 && bool_decide (take 12 a = v4InV6Prefix) then Some (drop 12 a)
  else None.

Definition and_bytes (a m : ip) : ip := zip_with Z.land a m.

(** [IP.Mask] for a mask of the address's own length, or of four bytes. *)
Definition Mask_ip (a m : ip) : ip :=
  match Nat.eqb (length m) 4, To4 a with
  | true, Some a4 => and_bytes a4 m
  | _, _ => and_bytes a m
  end.

(** [IPNet.Contains] *)
Definition Contains (n : ipnet) (a : ip) : bool :=
  let nn := match To4 (net_IP n) with Some x => x | None => net_IP n end in
  let m := if Nat.eqb (length nn) 4 && Nat.eqb (length (net_Mask n)) 16
           then drop 12 (net_Mask n) else net_Mask n in
  let x := match To4 a with Some x => x | None => a end in
  Nat.eqb (length x) (length nn) && bool_decide (and_bytes nn m = and_bytes x m).

(** [IP.Equal] *)
Definition Equal (a b : ip) : bool :=
  if Nat.eqb (length a) (length b) then bool_decide (a = b)
  else match To4 a, To4 b with Some x, Some y => bool_decide (x = y) | _, _ => false end.

(** ** Text *)

(** The text of IPv6 addresses, which [net/netip] parses and prints. *)
Class IPv6Text := {
  parseIPv6 : list ascii → option ip;
  stringIPv6 : ip → string;
  parseIPv6_length : ∀ s a, parseIPv6 s = Some a → length a = 16%nat;
}.

(** One decimal field of a dotted quad. *)
Definition parse_octet (f : list ascii) : option Z :=
  match f with
  | [] => None
  | c :: rest =>
      if forallb is_digit f && negb (bool_decide (c = "0"%char) && negb (Nat.eqb (length rest) 0))
      then match parse_digits f with
           | Some v => if v >? 255 then None else Some v
           | None => None
           end
      else None
  end.

Definition parseIPv4 (s : list ascii) : option ip :=
  match split_bytes "." s with
  | [a; b; c; d] =>
      a ← parse_octet a; b ← parse_octet b; c ← parse_octet c; d ← parse_octet d;
      Some [a; b; c; d]
  | _ => None
  end.

(** The first of [.], [:] and [%] decides the format. *)
Fixpoint addr_format (s : list ascii) : option ascii :=
  match s with
  | [] => None
  | c :: s =>
      if bool_decide (c = "."%char) || bool_decide (c = ":"%char) || bool_decide (c = "%"%char)
      then Some c else addr_format s
  end.

Section text.
Context `{!IPv6Text}.

(** [netip.ParseAddr] *)
Definition ParseAddr (s : list ascii) : option ip :=
  match addr_format s with
  | Some c =>
      if bool_decide (c = "."%char) then parseIPv4 s
      else if bool_decide (c = ":"%char) then parseIPv6 s else None
  | None => None
  end.

(** [net.ParseIP] succeeds exactly when [ParseAddr] does (without a zone). *)
Definition ParseIP (s : string) : option ip := ParseAddr (bytes s).

(** The digits of a prefix length; [None] when there is anything else. *)
Definition dtoi (l : list ascii) : option Z :=
  match l with
  | [] => None
  | _ => if forallb is_digit l then
           match parse_digits l with
           | Some v => if v <? 16777215 then Some v else None
           | None => None
           end
         else None
  end.

(** [net.ParseCIDR]: the network of the address. *)
Definition ParseCIDR (s : string) : option ipnet :=
  match split_bytes "/" (bytes s) with
  | addr :: rest :: more =>
      let mask := join_bytes "/" (rest :: more) in
      a ← ParseAddr addr;
      n ← dtoi mask;
      if n >? 8 * Z.of_nat (length a) then None
      else let m := CIDRMask (Z.to_nat n) (length a) in
           Some {| net_IP := Mask_ip a m; net_Mask := m |}
  | _ => None
  end.

(** [IP.String] *)
Definition String_ip (a : ip) : string :=
  match To4 a with
  | Some x => of_bytes (join_bytes "." ((λ b, bytes (Itoa b)) <$> x))
  | None => stringIPv6 a
  end.
End text.

(** ** Addresses as numbers *)

Fixpoint val (a : ip) : Z :=
  match a with [] => 0 | b :: r => b * 256 ^ Z.of_nat (length r) + val r end.

Fixpoint of_val (len : nat) (v : Z) : ip :=
  match len with O => [] | S len => of_val len (v / 256) ++ [v mod 256] end.

Definition bytes_ok (a : ip) : Prop := Forall (λ b, 0 ≤ b < 256) a.

#[export] Instance bytes_ok_dec a : Decision (bytes_ok a).
Proof. unfold bytes_ok. apply _. Defined.

Lemma val_bound a : bytes_ok a → 0 ≤ val a < 256 ^ Z.of_nat (length a).
Proof.
  induction 1 as [|b r Hb _ IH]; [done|]. simpl length. cbn [val].
  rewrite Nat2Z.inj_succ, Z.pow_succ_r by lia. nia.
Qed.

Lemma val_snoc a b : val (a ++ [b]) = val a * 256 + b.
Proof.
  induction a as [|c a IH]; simpl; [lia|]. rewrite IH, length_app. simpl length.
  replace (Z.of_nat (length a + 1)) with (Z.succ (Z.of_nat (length a))) by lia.
  rewrite Z.pow_succ_r by lia. lia.
Qed.

Lemma of_val_length len v : length (of_val len v) = len.
Proof. revert v. induction len as [|len IH]; intros v; [done|]. simpl. rewrite length_app, IH. simpl. lia. Qed.

Lemma of_val_ok len v : bytes_ok (of_val len v).
Proof.
  revert v. induction len as [|len IH]; intros v; simpl; [constructor|].
  apply Forall_app. split; [apply IH|]. apply Forall_singleton. apply Z.mod_pos_bound. lia.
Qed.

Lemma val_of_val len v : 0 ≤ v < 256 ^ Z.of_nat len → val (of_val len v) = v.
Proof.
  revert v. induction len as [|len IH]; intros v Hv; [simpl in *; lia|].
  rewrite Nat2Z.inj_succ, Z.pow_succ_r in Hv by lia. simpl. rewrite val_snoc, IH.
  - pose proof (Z.div_mod v 256). lia.
  - split; [apply Z.div_pos; lia|]. apply Z.div_lt_upper_bound; lia.
Qed.

Lemma val_inj a b : length a = length b → bytes_ok a → bytes_ok b → val a = val b → a = b.
Proof.
  intros Hl Ha. revert b Hl. induction Ha as [|x a Hx Ha IH]; intros b Hl Hb Hv; [by destruct b|].
  destruct Hb as [|y b Hy Hb]; [done|]. simpl in Hl. apply (inj S) in Hl. cbn [val] in Hv.
  rewrite Hl in Hv. pose proof (val_bound a Ha). pose proof (val_bound b Hb). rewrite Hl in *.
  assert (x = y) as -> by nia. f_equal. apply IH; [done..|lia].
Qed.

Lemma of_val_val a : bytes_ok a → of_val (length a) (val a) = a.
Proof.
  intros Ha. apply val_inj; [by rewrite of_val_length|apply of_val_ok|done|].
  apply val_of_val. by apply val_bound.
Qed.

(** Prefix masks on one byte, checked for every byte and prefix. *)
Definition byte_mask (k : nat) : Z := 256 - 2 ^ Z.of_nat (8 - k).

Lemma byte_mask_all :
  forallb (λ k, forallb (λ b,
    let p := 2 ^ Z.of_nat (8 - k) in
    (Z.land b (byte_mask k) =? b / p * p) &&
    (Z.lor (Z.land b (byte_mask k)) (Z.lxor (byte_mask k) 255) =? b / p * p + p - 1))
    (seqZ 0 256)) (seq 0 9) = true.
Proof. vm_compute. reflexivity. Qed.

Lemma byte_mask_spec k b : (k ≤ 8)%nat → 0 ≤ b < 256 →
  Z.land b (byte_mask k) = b / 2 ^ Z.of_nat (8 - k) * 2 ^ Z.of_nat (8 - k) ∧
  Z.lor (Z.land b (byte_mask k)) (Z.lxor (byte_mask k) 255)
    = b / 2 ^ Z.of_nat (8 - k) * 2 ^ Z.of_nat (8 - k) + 2 ^ Z.of_nat (8 - k) - 1.
Proof.
  intros Hk Hb. pose proof byte_mask_all as H. rewrite forallb_forall in H.
  specialize (H k (proj2 (in_seq 9 0 k) ltac:(lia))). rewrite forallb_forall in H.
  specialize (H b). rewrite <- list_elem_of_In, elem_of_seqZ in H.
  specialize (H ltac:(lia)). cbv zeta in H. by to_prop.
Qed.

(** The number of host bits of a prefix length. *)
Definition host_bits (n len : nat) : Z := 8 * Z.of_nat len - Z.of_nat n.

Lemma pow_256 len : 256 ^ Z.of_nat len = 2 ^ (8 * Z.of_nat len).
Proof. rewrite Z.pow_mul_r by lia. done. Qed.

Lemma CIDRMask_length n len : length (CIDRMask n len) = len.
Proof.
  revert n. induction len as [|len IH]; intros n; [done|]. simpl.
  destruct n as [|[|[|[|[|[|[|[|n]]]]]]]]; simpl; rewrite ?length_replicate, ?IH; done.
Qed.

Lemma CIDRMask_cons n len : CIDRMask n (S len) =
  if decide (8 ≤ n)%nat then byte_mask 8 :: CIDRMask (n - 8) len
  else byte_mask n :: replicate len 0.
Proof.
  cbn [CIDRMask]. case_decide as H.
  - by rewrite (proj2 (Nat.leb_le 8 n) H).
  - rewrite (proj2 (Nat.leb_gt 8 n)) by lia. done.
Qed.

Lemma and_zeros a : val (and_bytes a (replicate (length a) 0)) = 0.
Proof.
  unfold and_bytes. induction a as [|b a IH]; [done|]. cbn [length replicate zip_with val].
  rewrite IH, Z.land_0_r. lia.
Qed.

(** Splitting the number at the mask: the arithmetic shared by the two lemmas below. *)
Lemma div_prefix b r L h : 0 ≤ r < 2 ^ L → 0 ≤ h → 0 ≤ L →
  (h ≤ L → (b * 2 ^ L + r) / 2 ^ h * 2 ^ h = b * 2 ^ L + r / 2 ^ h * 2 ^ h) ∧
  (L ≤ h → (b * 2 ^ L + r) / 2 ^ h * 2 ^ h = b / 2 ^ (h - L) * 2 ^ (h - L) * 2 ^ L).
Proof.
  intros Hr Hh HL. split; intros Hle.
  - replace (2 ^ L) with (2 ^ (L - h) * 2 ^ h) by (rewrite <- Z.pow_add_r by lia; f_equal; lia).
    rewrite Z.mul_assoc, Z.div_add_l by (pose proof (Z.pow_pos_nonneg 2 h); lia). lia.
  - replace (2 ^ h) with (2 ^ L * 2 ^ (h - L)) by (rewrite <- Z.pow_add_r by lia; f_equal; lia).
    assert (0 < 2 ^ L) by (apply Z.pow_pos_nonneg; lia).
    assert (0 < 2 ^ (h - L)) by (apply Z.pow_pos_nonneg; lia).
    rewrite <- Z.div_div by lia. rewrite Z.div_add_l by lia.
    rewrite (Z.div_small r) by lia. rewrite Z.add_0_r. lia.
Qed.

Lemma and_mask_val a n : bytes_ok a → (n ≤ 8 * length a)%nat →
  val (and_bytes a (CIDRMask n (length a)))
    = val a / 2 ^ host_bits n (length a) * 2 ^ host_bits n (length a).
Proof.
  intros Ha. revert n. induction Ha as [|b a Hb Ha IH]; intros n Hn.
  { simpl in Hn. assert (n = 0)%nat as -> by lia. done. }
  simpl length in *. rewrite CIDRMask_cons. pose proof (val_bound a Ha) as Hv.
  rewrite pow_256 in Hv. cbn [val]. rewrite pow_256.
  unfold host_bits in *. case_decide as H8.
  - destruct (div_prefix b (val a) (8 * Z.of_nat (length a)) (8 * Z.of_nat (S (length a)) - Z.of_nat n))
      as [E _]; [lia..|]. rewrite E by lia. clear E.
    change (and_bytes (b :: a) (byte_mask 8 :: CIDRMask (n - 8) (length a)))
      with (Z.land b (byte_mask 8) :: and_bytes a (CIDRMask (n - 8) (length a))).
    cbn [val]. rewrite IH by lia. unfold and_bytes at 1.
    rewrite length_zip_with, CIDRMask_length, Nat.min_id, pow_256.
    rewrite (proj1 (byte_mask_spec 8 b ltac:(lia) Hb)).
    replace (8 * Z.of_nat (S (length a)) - Z.of_nat n) with (8 * Z.of_nat (length a) - Z.of_nat (n - 8)) by lia.
    change (2 ^ Z.of_nat (8 - 8)) with 1. rewrite Z.div_1_r. lia.
  - destruct (div_prefix b (val a) (8 * Z.of_nat (length a)) (8 * Z.of_nat (S (length a)) - Z.of_nat n))
      as [_ E]; [lia..|]. rewrite E by lia. clear E.
    change (and_bytes (b :: a) (byte_mask n :: replicate (length a) 0))
      with (Z.land b (byte_mask n) :: and_bytes a (replicate (length a) 0)).
    cbn [val]. rewrite and_zeros. unfold and_bytes.
    rewrite length_zip_with, length_replicate, Nat.min_id, pow_256.
    rewrite (proj1 (byte_mask_spec n b ltac:(lia) Hb)).
    replace (8 * Z.of_nat (S (length a)) - Z.of_nat n - 8 * Z.of_nat (length a))
      with (Z.of_nat (8 - n)) by lia. lia.
Qed.

Lemma byte_log2 z : 0 ≤ z → 0 ≤ z < 256 ↔ Z.log2 z < 8.
Proof.
  intros Hz. destruct (decide (z = 0)) as [->|Hne]; [done|].
  pose proof (Z.log2_lt_pow2 z 8 ltac:(lia)) as H. change (2 ^ 8) with 256 in H. lia.
Qed.

Lemma land_byte b m : 0 ≤ b < 256 → 0 ≤ m → 0 ≤ Z.land b m < 256.
Proof.
  intros Hb Hm. apply byte_log2; [apply Z.land_nonneg; lia|].
  pose proof (Z.log2_land b m ltac:(lia) ltac:(lia)).
  pose proof (proj1 (byte_log2 b ltac:(lia)) Hb). lia.
Qed.

Lemma lor_byte b m : 0 ≤ b < 256 → 0 ≤ m < 256 → 0 ≤ Z.lor b (Z.lxor m 255) < 256.
Proof.
  intros Hb Hm. assert (0 ≤ Z.lxor m 255) by (apply Z.lxor_nonneg; lia).
  apply byte_log2; [apply Z.lor_nonneg; lia|]. rewrite Z.log2_lor by lia.
  pose proof (proj1 (byte_log2 b ltac:(lia)) Hb). pose proof (proj1 (byte_log2 m ltac:(lia)) Hm).
  pose proof (Z.log2_lxor m 255 ltac:(lia) ltac:(lia)).
  change (Z.log2 255) with 7 in *. lia.
Qed.

Lemma CIDRMask_ok n len : bytes_ok (CIDRMask n len).
Proof.
  revert n. induction len as [|len IH]; intros n; [constructor|]. rewrite CIDRMask_cons.
  assert (0 < 2 ^ Z.of_nat (8 - n) ≤ 256).
  { split; [apply Z.pow_pos_nonneg; lia|]. change 256 with (2 ^ 8). apply Z.pow_le_mono_r; lia. }
  case_decide.
  - constructor; [done|apply IH].
  - constructor; [unfold byte_mask; lia|]. apply Forall_replicate. lia.
Qed.

Lemma and_bytes_ok a m : bytes_ok a → bytes_ok m → bytes_ok (and_bytes a m).
Proof.
  intros Ha. revert m. induction Ha as [|b a Hb _ IH]; intros m Hm; [constructor|].
  destruct Hm as [|c m Hc Hm]; [constructor|]. simpl. constructor; [apply land_byte; lia|by apply IH].
Qed.

Lemma and_bytes_length a n : length (and_bytes a (CIDRMask n (length a))) = length a.
Proof. unfold and_bytes. rewrite length_zip_with, CIDRMask_length. lia. Qed.

(** The network of the address [a] with prefix length [n]. *)
Definition network_of (a : ip) (n : nat) : ipnet :=
  let m := CIDRMask n (length a) in {| net_IP := and_bytes a m; net_Mask := m |}.

(** An IPv4 address is in the network exactly when it agrees on the prefix. *)
Lemma Contains_val a n x : length a = 4%nat → length x = 4%nat → bytes_ok a → bytes_ok x →
  (n ≤ 32)%nat →
  Contains (network_of a n) x = bool_decide (val x / 2 ^ host_bits n 4 = val a / 2 ^ host_bits n 4).
Proof.
  intros La Lx Ha Hx Hn. unfold network_of. rewrite La.
  assert (HlM : length (CIDRMask n 4) = 4%nat) by apply CIDRMask_length.
  set (M := CIDRMask n 4) in *.
  assert (HM : ∀ y, length y = 4%nat → bytes_ok y →
    val (and_bytes y M) = val y / 2 ^ host_bits n 4 * 2 ^ host_bits n 4).
  { intros y Ly Hy. unfold M. rewrite <- Ly. apply and_mask_val; [done|lia]. }
  assert (Hlen : ∀ y, length y = 4%nat → length (and_bytes y M) = 4%nat).
  { intros y Ly. unfold M. rewrite <- Ly at 1. by rewrite and_bytes_length. }
  assert (Hok : ∀ y, bytes_ok y → bytes_ok (and_bytes y M)).
  { intros y Hy. apply and_bytes_ok; [done|apply CIDRMask_ok]. }
  assert (Hp : 0 < 2 ^ host_bits n 4) by (apply Z.pow_pos_nonneg; unfold host_bits; lia).
  unfold Contains, To4. cbn [net_IP net_Mask]. rewrite (Hlen a), Lx, HlM by done.
  cbn [Nat.eqb andb]. rewrite (Hlen a), Lx by done. cbn [Nat.eqb andb].
  apply bool_decide_ext. rewrite <- (Z.mul_cancel_r _ _ (2 ^ host_bits n 4)) by lia.
  rewrite <- (HM x), <- (HM a) by done.
  assert (Hidem : and_bytes (and_bytes a M) M = and_bytes a M).
  { apply val_inj; [by rewrite !Hlen by auto|by auto..|].
    rewrite !HM by auto. by rewrite Z.div_mul by lia. }
  rewrite Hidem. split; [by intros ->|]. intros E. symmetry.
  apply val_inj; [by rewrite !Hlen by auto|auto..|done].
Qed.

Lemma or_ones_val a : val (zip_with (λ b m, Z.lor b (Z.lxor m 255))
    (and_bytes a (replicate (length a) 0)) (replicate (length a) 0)) = 256 ^ Z.of_nat (length a) - 1.
Proof.
  unfold and_bytes. induction a as [|b a IH]; [done|]. cbn [length replicate zip_with val].
  rewrite IH, !length_zip_with, !length_replicate, !Nat.min_id, Z.land_0_r.
  change (Z.lor 0 (Z.lxor 0 255)) with 255. rewrite Nat2Z.inj_succ, Z.pow_succ_r by lia. lia.
Qed.

(** Setting the host bits of a network address. *)
Lemma or_host_val a n : bytes_ok a → (n ≤ 8 * length a)%nat →
  val (zip_with (λ b m, Z.lor b (Z.lxor m 255))
    (and_bytes a (CIDRMask n (length a))) (CIDRMask n (length a)))
  = val a / 2 ^ host_bits n (length a) * 2 ^ host_bits n (length a) + 2 ^ host_bits n (length a) - 1.
Proof.
  intros Ha. revert n. induction Ha as [|b a Hb Ha IH]; intros n Hn.
  { simpl in Hn. assert (n = 0)%nat as -> by lia. done. }
  simpl length in *. rewrite CIDRMask_cons. pose proof (val_bound a Ha) as Hv.
  rewrite pow_256 in Hv. cbn [val]. rewrite pow_256.
  set (L := 8 * Z.of_nat (length a)) in *.
  set (h := host_bits n (S (length a))).
  assert (Hh : h = L + 8 - Z.of_nat n) by (unfold h, host_bits, L; lia).
  assert (H0 : 0 ≤ h) by (unfold h, host_bits; lia).
  destruct (div_prefix b (val a) L h) as [E1 E2]; [done|done|lia|].
  case_decide as H8.
  - rewrite E1 by lia. clear E1 E2. unfold and_bytes in *.
    cbn [zip_with val]. rewrite IH by lia.
    rewrite !length_zip_with, !CIDRMask_length, !Nat.min_id, pow_256. fold L.
    rewrite (proj2 (byte_mask_spec 8 b ltac:(lia) Hb)).
    replace (host_bits (n - 8) (length a)) with h by (unfold host_bits, h, host_bits; lia).
    change (2 ^ Z.of_nat (8 - 8)) with 1. rewrite Z.div_1_r. lia.
  - rewrite E2 by lia. clear E1 E2. pose proof (or_ones_val a) as Ho. unfold and_bytes in *.
    cbn [zip_with val]. rewrite Ho.
    rewrite !length_zip_with, !length_replicate, !Nat.min_id, pow_256. fold L.
    rewrite (proj2 (byte_mask_spec n b ltac:(lia) Hb)).
    replace (h - L) with (Z.of_nat (8 - n)) by lia.
    replace (2 ^ h) with (2 ^ Z.of_nat (8 - n) * 2 ^ L)
      by (rewrite <- Z.pow_add_r by (unfold L; lia); f_equal; lia). lia.
Qed.

(** ** Text round trips for IPv4 *)

Lemma parse_octet_all : forallb (λ b, bool_decide (parse_octet (digits_of b) = Some b)) (seqZ 0 256) = true.
Proof. vm_compute. reflexivity. Qed.

Lemma parse_octet_digits b : 0 ≤ b < 256 → parse_octet (digits_of b) = Some b.
Proof.
  intros Hb. pose proof parse_octet_all as H. rewrite forallb_forall in H.
  specialize (H b). rewrite <- list_elem_of_In, elem_of_seqZ in H.
  exact (bool_decide_eq_true_1 _ (H ltac:(lia))).
Qed.

Section text_proofs.
Context `{!IPv6Text}.

Definition dotted (x : ip) : list ascii := join_bytes "." (digits_of <$> x).

Lemma String_ip_v4 a : length a = 4%nat → bytes_ok a → String_ip a = of_bytes (dotted a).
Proof.
  intros La Ha. unfold String_ip, To4. rewrite La. simpl. unfold dotted. do 2 f_equal.
  apply list_fmap_ext. intros i b Hb. rewrite Itoa_nonneg, bytes_of_bytes; [done|].
  unfold bytes_ok in Ha. rewrite Forall_forall in Ha.
  apply list_elem_of_lookup_2 in Hb. by apply Ha in Hb as [? _].
Qed.

Lemma digits_no c b : is_digit c = false → 0 ≤ b → c ∉ digits_of b.
Proof. intros Hc Hb. apply not_digit_not_in; [by apply digits_of_digits|done]. Qed.

Lemma parseIPv4_dotted a : length a = 4%nat → bytes_ok a → parseIPv4 (dotted a) = Some a.
Proof.
  intros La Ha. unfold parseIPv4, dotted.
  rewrite split_bytes_join.
  - destruct a as [|a [|b [|c [|d [|]]]]]; try done. unfold bytes_ok in Ha.
    apply Forall_cons in Ha as [? Ha]. apply Forall_cons in Ha as [? Ha].
    apply Forall_cons in Ha as [? Ha]. apply Forall_cons in Ha as [? _].
    cbn [fmap list_fmap]. by rewrite !parse_octet_digits.
  - by destruct a.
  - apply Forall_fmap. eapply Forall_impl; [exact Ha|]. intros b [Hb _]. by apply digits_no.
Qed.

Lemma String_ip_inj a b : length a = 4%nat → length b = 4%nat → bytes_ok a → bytes_ok b →
  String_ip a = String_ip b → a = b.
Proof.
  intros La Lb Ha Hb. rewrite !String_ip_v4 by done. intros E.
  apply (f_equal bytes) in E. rewrite !bytes_of_bytes in E.
  pose proof (parseIPv4_dotted a La Ha) as P. rewrite E, parseIPv4_dotted in P by done. congruence.
Qed.

Lemma String_ip_ne a : length a = 4%nat → bytes_ok a → String_ip a ≠ ""%string.
Proof.
  intros La Ha E. rewrite String_ip_v4 in E by done.
  apply (f_equal bytes) in E. rewrite bytes_of_bytes in E.
  pose proof (parseIPv4_dotted a La Ha) as P. by rewrite E in P.
Qed.
End text_proofs.

Lemma addr_format_skip w c l : forallb is_digit w = true →
  (c = "."%char ∨ c = ":"%char ∨ c = "%"%char) → addr_format (w ++ c :: l) = Some c.
Proof.
  intros Hw Hc. induction w as [|d w IH]; simpl.
  - destruct Hc as [->|[->| ->]]; done.
  - simpl in Hw. to_prop.
    assert (∀ e, is_digit e = false → d ≠ e) as Hd by (intros e He ->; congruence).
    rewrite !bool_decide_eq_false_2 by (by apply Hd). by apply IH.
Qed.

Lemma dtoi_digits n : 0 ≤ n < 16777215 → dtoi (digits_of n) = Some n.
Proof.
  intros Hn. unfold dtoi. destruct (digits_of n) as [|c l] eqn:E; [by apply digits_of_nonempty in E|].
  rewrite <- E, digits_of_digits, parse_digits_of by lia.
  by replace (n <? 16777215) with true by (symmetry; apply Z.ltb_lt; lia).
Qed.

Lemma ParseCIDR_dotted `{!IPv6Text} a n : length a = 4%nat → bytes_ok a → (n ≤ 32)%nat →
  ParseCIDR (of_bytes (dotted a ++ "/"%char :: digits_of (Z.of_nat n))) = Some (network_of a n).
Proof.
  intros La Ha Hn. unfold ParseCIDR. rewrite bytes_of_bytes.
  assert (Hds : Forall (λ w, "/"%char ∉ w) (digits_of <$> a)).
  { apply Forall_fmap. eapply Forall_impl; [exact Ha|]. intros b [Hb _]. by apply digits_no. }
  assert ("/"%char ∉ dotted a) as Hslash.
  { unfold dotted. destruct a as [|a [|b [|c [|d [|]]]]]; try done. simpl in *.
    repeat match goal with H : Forall _ (_ :: _) |- _ => apply Forall_cons in H as [??] end.
    rewrite !elem_of_app, !elem_of_cons. rewrite !elem_of_app, !elem_of_cons, elem_of_app, elem_of_cons.
    naive_solver. }
  rewrite split_bytes_app by done.
  rewrite split_bytes_word by (apply digits_no; [done|lia]). simpl.
  assert (ParseAddr (dotted a) = Some a) as ->.
  { unfold ParseAddr. pose proof (parseIPv4_dotted a La Ha) as Hp.
    assert (addr_format (dotted a) = Some "."%char) as ->; [|by rewrite bool_decide_eq_true_2].
    destruct a as [|a [|b l]]; try done. unfold dotted. cbn [fmap list_fmap].
    change (join_bytes "." (digits_of a :: digits_of b :: ?l)) with
      (digits_of a ++ "."%char :: join_bytes "." (digits_of b :: l)).
    apply Forall_cons in Ha as [[? _] _]. apply addr_format_skip; [by apply digits_of_digits|by left]. }
  simpl. rewrite dtoi_digits by lia. simpl. rewrite La.
  replace (Z.of_nat n >? 8 * Z.of_nat 4) with false by (rewrite Z.gtb_ltb; symmetry; apply Z.ltb_ge; lia).
  rewrite Nat2Z.id. unfold Mask_ip, To4, network_of. by rewrite CIDRMask_length, La.
Qed.
