(* ===== verification/KeyStore.v ===== *)
(** * Key-value backends

    What the store adapters ask of their backends
    (internal/joblet/adapters/network_store_adapter.go:15, and the same
    interfaces of the job and volume adapters), and what each backend promises.
    The adapters are proved against the interface; the in-memory stores
    (internal/joblet/adapters/in_memory_stores.go) are instances of it. *)

From S2P Require Import Prelude.

Inductive store_err := KeyExists | KeyNotFound | StoreFailed (msg : string).

(** [src/internal/joblet/adapters/job_store_adapter.go:34-36 IsConflictError] *)
Definition IsConflictError (e : store_err) : bool :=
  match e with KeyExists => true | _ => false end.

(** A backend with states [St] over values [V]; [b_list] answers in one of the
    orders the backend may choose.
    [src/internal/joblet/adapters/network_store_adapter.go:15-21 networkStore] *)
Class Backend (St V : Type) := {
  b_empty : St;
  b_create : string → V → St → result store_err St;
  b_get : string → St → option V;
  b_update : string → V → St → result store_err St;
  b_list : St → list V;
  b_delete : string → St → result store_err St;
  b_close : St → St;
}.

(** A backend that behaves as a map on the operations that succeed. *)
Class LawfulBackend (St V : Type) `{!Backend St V} : Prop := {
  b_get_empty : ∀ k, b_get k b_empty = None;
  b_get_create : ∀ k v s s' k', b_create k v s = Ok s' →
    b_get k' s' = if decide (k' = k) then Some v else b_get k' s;
  b_get_update : ∀ k v s s' k', b_update k v s = Ok s' →
    b_get k' s' = if decide (k' = k) then Some v else b_get k' s;
  b_get_delete : ∀ k s s' k', b_delete k s = Ok s' →
    b_get k' s' = if decide (k' = k) then None else b_get k' s;
  b_get_close : ∀ k s, b_get k (b_close s) = None;
  b_list_spec : ∀ s v, v ∈ b_list s ↔ ∃ k, b_get k s = Some v;
}.

(** A backend whose [Create] refuses an existing key, as the adapters expect. *)
Class CheckedBackend (St V : Type) `{!Backend St V} : Prop :=
  b_create_exists : ∀ k v s v', b_get k s = Some v' → b_create k v s = Err KeyExists.

(** A backend whose [Delete] of a present key succeeds. *)
Class DeletingBackend (St V : Type) `{!Backend St V} : Prop :=
  b_delete_ok : ∀ k s v, b_get k s = Some v → ∃ s', b_delete k s = Ok s'.

(** A creation of [k] can only succeed when [k] is new: so for any key of a checked
    backend, and for a new key of any backend. *)
Definition creates_new {St V} `{!Backend St V} (k : string) (s : St) : Prop :=
  ∀ v s', b_create k v s = Ok s' → b_get k s = None.

Lemma checked_creates_new {St V} `{!Backend St V} `{!CheckedBackend St V} k (s : St) : creates_new k s.
Proof. intros v s' E. destruct (b_get k s) eqn:Eg; [|done]. by erewrite b_create_exists in E by done. Qed.

Lemma fresh_creates_new {St V} `{!Backend St V} k (s : St) : b_get k s = None → creates_new k s.
Proof. by intros ? ? ?. Qed.

Section simple.
Context {V : Type}.

(** The in-memory stores: [Create] and [Update] both assign.
    [src/internal/joblet/adapters/in_memory_stores.go:186-235 SimpleJobStore] *)
#[export] Instance SimpleStore : Backend (gmap string V) V := {|
  b_empty := ∅;
  b_create k v s := Ok (<[k := v]> s);
  b_get k s := s !! k;
  b_update k v s := Ok (<[k := v]> s);
  b_list s := (map_to_list s).*2;
  b_delete k s := Ok (delete k s);
  b_close _ := ∅;
|}.

#[export] Instance SimpleStore_lawful : LawfulBackend (gmap string V) V.
Proof.
  split; simpl.
  - intros k. apply lookup_empty.
  - intros k v s s' k' [= <-]. case_decide; subst; [apply lookup_insert_eq|by apply lookup_insert_ne].
  - intros k v s s' k' [= <-]. case_decide; subst; [apply lookup_insert_eq|by apply lookup_insert_ne].
  - intros k s s' k' [= <-]. case_decide; subst; [apply lookup_delete_eq|by apply lookup_delete_ne].
  - intros k s. apply lookup_empty.
  - intros s v. rewrite list_elem_of_fmap. split.
    + intros ([k w] & -> & Hk). exists k. by apply elem_of_map_to_list.
    + intros [k Hk]. exists (k, v). split; [done|]. by apply elem_of_map_to_list.
Qed.

#[export] Instance SimpleStore_deleting : DeletingBackend (gmap string V) V.
Proof. intros k s v _. by eexists. Qed.
End simple.

(** A store with the check, for the properties that need one. *)
Record checked_store (V : Type) := Checked { checked_map : gmap string V }.
Arguments Checked {V} _.
Arguments checked_map {V} _.

#[export] Instance CheckedStore {V} : Backend (checked_store V) V := {|
  b_empty := Checked ∅;
  b_create k v s := if decide (is_Some (checked_map s !! k)) then Err KeyExists
                    else Ok (Checked (<[k := v]> (checked_map s)));
  b_get k s := checked_map s !! k;
  b_update k v s := if decide (is_Some (checked_map s !! k))
                    then Ok (Checked (<[k := v]> (checked_map s))) else Err KeyNotFound;
  b_list s := (map_to_list (checked_map s)).*2;
  b_delete k s := if decide (is_Some (checked_map s !! k))
                  then Ok (Checked (delete k (checked_map s))) else Err KeyNotFound;
  b_close _ := Checked ∅;
|}.

#[export] Instance CheckedStore_lawful {V} : LawfulBackend (checked_store V) V.
Proof.
  split; simpl.
  - intros k. apply lookup_empty.
  - intros k v s s' k'. case_decide; [done|]. intros [= <-]. simpl.
    case_decide; subst; [apply lookup_insert_eq|by apply lookup_insert_ne].
  - intros k v s s' k'. case_decide; [|done]. intros [= <-]. simpl.
    case_decide; subst; [apply lookup_insert_eq|by apply lookup_insert_ne].
  - intros k s s' k'. case_decide; [|done]. intros [= <-]. simpl.
    case_decide; subst; [apply lookup_delete_eq|by apply lookup_delete_ne].
  - intros k s. apply lookup_empty.
  - intros s v. exact (b_list_spec (checked_map s) v).
Qed.

#[export] Instance CheckedStore_checked {V} : CheckedBackend (checked_store V) V.
Proof. intros k v s v' H. simpl in *. rewrite decide_True; [done|]. eauto. Qed.

#[export] Instance CheckedStore_deleting {V} : DeletingBackend (checked_store V) V.
Proof. intros k s v H. simpl in *. rewrite decide_True; [by eexists|]. eauto. Qed.
