(* ===== verification/NetworkStore.v ===== *)
(** * Networks, address pools and job assignments
    (internal/joblet/adapters/network_store_adapter.go,
    core/execution/network_service.go, server/network_service.go)

    The adapter over any two backends.  Its operations are modelled as atomic
    transitions of the adapter's state; the stored records are values. *)

From S2P Require Import Prelude GoStrings Values Paths Job IPNet KeyStore.
From Stdlib Require Import Ascii.

Local Open Scope Z_scope.

(** ** Data *)

(** [src/internal/joblet/adapters/storage_interfaces.go NetworkConfig] *)
Record NetworkConfig := {
  nc_Name : string;
  nc_Type : string;
  nc_CIDR : string;
  nc_BridgeName : string;
  nc_Gateway : string;
  nc_DNS : list string;
  nc_Metadata : gmap string string;
  nc_CreatedAt : Z;
  nc_UpdatedAt : Z;
}.

(** [src/internal/joblet/adapters/storage_interfaces.go JobNetworkAllocation] *)
Record JobNetworkAllocation := {
  na_JobUUID : string;
  na_NetworkName : string;
  na_IPAddress : string;
  na_MACAddress : string;
  na_Hostname : string;
  na_Metadata : gmap string string;
  na_AssignedAt : Z;
}.

(** [src/internal/joblet/adapters/network_store_adapter.go ipPool] *)
Record ipPool := { cidr : ipnet; allocated : gset string; available : list string }.

Inductive net_error :=
| AdapterClosed | NilConfig | NameEmpty | TypeEmpty | BadType (t : string) | BadCIDR (c : string)
| BadGateway (g : string) | BadDNS (d : string) | NetworkExists (n : string)
| NetworkInUse (n : nat) | NetworkNotFound (n : string) | JobIdEmpty | NilAllocation
| AlreadyAssigned (j : string) | NotAssigned (j : string) | NoPool (n : string)
| NoAddress (n : string) | IPEmpty | NotAllocated (ip : string) | NameInvalid (n : string)
| StoreError (e : store_err).

(** ** Walking a network *)

(** The carry loop of [nextIP], from the last byte. *)
Fixpoint inc_bytes (l : list Z) : list Z :=
  match l with
  | [] => []
  | b :: r => let b' := (b + 1) mod 256 in
              if b' >? 0 then b' :: r else b' :: inc_bytes r
  end.

(** [src/internal/joblet/adapters/network_store_adapter.go networkStoreAdapter.nextIP] *)
Definition nextIP (a : list Z) : list Z := rev (inc_bytes (rev a)).

(** [src/internal/joblet/adapters/network_store_adapter.go networkStoreAdapter.getBroadcastAddress] *)
Definition getBroadcastAddress (n : ipnet) : list Z :=
  zip_with (λ b m, Z.lor b (Z.lxor m 255)) (net_IP n) (net_Mask n).

Section adapter.
Context `{!IPv6Text}.

(** The loop that fills the pool; [None] when it is still running after [fuel]
    iterations.
    [src/internal/joblet/adapters/network_store_adapter.go:618-625 networkStoreAdapter.initializeIPPool] *)
Fixpoint pool_loop (fuel : nat) (n : ipnet) (a : list Z) (acc : list string) : option (list string) :=
  if Contains n a then
    match fuel with
    | O => None
    | S fuel =>
        let acc' := if negb (Equal a (net_IP n)) && negb (Equal a (getBroadcastAddress n))
                    then acc ++ [String_ip a] else acc in
        pool_loop fuel n (nextIP a) acc'
    end
  else Some acc.

(** [src/internal/joblet/adapters/network_store_adapter.go networkStoreAdapter.initializeIPPool] *)
Definition initializeIPPool (fuel : nat) (cidr : string) : option (result net_error ipPool) :=
  match ParseCIDR cidr with
  | None => Some (Err (BadCIDR cidr))
  | Some n =>
      ips ← pool_loop fuel n (net_IP n) [];
      Some (Ok {| cidr := n; allocated := ∅; available := ips |})
  end.

(** [src/internal/joblet/adapters/network_store_adapter.go networkStoreAdapter.validateNetworkConfig] *)
Definition validateNetworkConfig (c : NetworkConfig) : result net_error unit :=
  if bool_decide (nc_Name c = ""%string) then Err NameEmpty
  else if bool_decide (nc_Type c = ""%string) then Err TypeEmpty
  else if negb (bool_decide (nc_Type c ∈ ["bridge"; "host"; "none"; "custom"]%string))
  then Err (BadType (nc_Type c))
  else if negb (bool_decide (nc_CIDR c = ""%string)) &&
          negb (match ParseCIDR (nc_CIDR c) with Some _ => true | None => false end)
  then Err (BadCIDR (nc_CIDR c))
  else if negb (bool_decide (nc_Gateway c = ""%string)) &&
          negb (match ParseIP (nc_Gateway c) with Some _ => true | None => false end)
  then Err (BadGateway (nc_Gateway c))
  else match find (λ d, negb (match ParseIP d with Some _ => true | None => false end)) (nc_DNS c) with
       | Some d => Err (BadDNS d)
       | None => Ok tt
       end.

(** ** The adapter over two backends *)

Context {NS AS : Type} `{!Backend NS NetworkConfig} `{!Backend AS JobNetworkAllocation}.

(** [src/internal/joblet/adapters/network_store_adapter.go networkStoreAdapter] *)
Record adapter := {
  networkStore : NS;
  allocationStore : AS;
  ipPools : gmap string ipPool;
  closed : bool;
}.

(** [src/internal/joblet/adapters/network_store_adapter.go NewNetworkStoreAdapter] *)
Definition NewNetworkStoreAdapter : adapter :=
  {| networkStore := b_empty; allocationStore := b_empty; ipPools := ∅; closed := false |}.

Definition set_nets (n : NS) (a : adapter) : adapter :=
  {| networkStore := n; allocationStore := allocationStore a; ipPools := ipPools a; closed := closed a |}.
Definition set_allocs (s : AS) (a : adapter) : adapter :=
  {| networkStore := networkStore a; allocationStore := s; ipPools := ipPools a; closed := closed a |}.
Definition set_pools (p : gmap string ipPool) (a : adapter) : adapter :=
  {| networkStore := networkStore a; allocationStore := allocationStore a; ipPools := p; closed := closed a |}.

Definition stamped (now : Z) (c : NetworkConfig) : NetworkConfig := {|
  nc_Name := nc_Name c; nc_Type := nc_Type c; nc_CIDR := nc_CIDR c; nc_BridgeName := nc_BridgeName c;
  nc_Gateway := nc_Gateway c; nc_DNS := nc_DNS c; nc_Metadata := nc_Metadata c;
  nc_CreatedAt := now; nc_UpdatedAt := now |}.

(** [None]: the pool loop ran out of fuel.  The failed clean-up delete is
    ignored, as in the code.
    [src/internal/joblet/adapters/network_store_adapter.go networkStoreAdapter.CreateNetwork] *)
Definition CreateNetwork (fuel : nat) (now : Z) (config : option NetworkConfig) (a : adapter)
    : option (result net_error unit * adapter) :=
  if closed a then Some (Err AdapterClosed, a) else
  match config with
  | None => Some (Err NilConfig, a)
  | Some config =>
      if bool_decide (nc_Name config = ""%string) then Some (Err NameEmpty, a) else
      match validateNetworkConfig config with
      | Err e => Some (Err e, a)
      | Ok _ =>
          let config := stamped now config in
          let name := nc_Name config in
          match b_create name config (networkStore a) with
          | Err e =>
              Some (Err (if IsConflictError e then NetworkExists name else StoreError e), a)
          | Ok nets =>
              let a := set_nets nets a in
              if bool_decide (nc_CIDR config = ""%string) then Some (Ok tt, a) else
              r ← initializeIPPool fuel (nc_CIDR config);
              match r with
              | Ok pool => Some (Ok tt, set_pools (<[name := pool]> (ipPools a)) a)
              | Err e =>
                  Some (Err e, match b_delete name (networkStore a) with
                               | Ok nets => set_nets nets a | Err _ => a end)
              end
          end
      end
  end.

(** [src/internal/joblet/adapters/network_store_adapter.go networkStoreAdapter.Network] *)
Definition Network (name : string) (a : adapter) : option NetworkConfig :=
  if closed a then None
  else if bool_decide (name = ""%string) then None
  else b_get name (networkStore a).

(** The CIDR and the bridge of a network.
    [src/internal/joblet/adapters/network_store_adapter.go networkStoreAdapter.NetworkConfig] *)
Definition NetworkConfig_of (name : string) (a : adapter) : result net_error (string * string) :=
  match Network name a with
  | None => Err (NetworkNotFound name)
  | Some c => Ok (nc_CIDR c, nc_BridgeName c)
  end.

(** [src/internal/joblet/adapters/network_store_adapter.go networkStoreAdapter.ListNetworks] *)
Definition ListNetworks (a : adapter) : list NetworkConfig :=
  if closed a then [] else b_list (networkStore a).

(** [src/internal/joblet/adapters/network_store_adapter.go networkStoreAdapter.ListJobsInNetwork] *)
Definition ListJobsInNetwork (networkName : string) (a : adapter) : list JobNetworkAllocation :=
  if closed a then []
  else filter (λ al, na_NetworkName al = networkName) (b_list (allocationStore a)).

(** No mutex is held over a removal: it looks whether the network is there and no job is in it, and then
    takes the network and its pool away.
    [src/internal/joblet/adapters/network_store_adapter.go:227-249 networkStoreAdapter.RemoveNetwork] *)
Definition removable (name : string) (a : adapter) : result net_error unit :=
  if closed a then Err AdapterClosed
  else if bool_decide (name = ""%string) then Err NameEmpty
  else
    let jobs := ListJobsInNetwork name a in
    if Nat.ltb 0 (length jobs) then Err (NetworkInUse (length jobs))
    else match b_get name (networkStore a) with None => Err (NetworkNotFound name) | Some _ => Ok tt end.
(** [src/internal/joblet/adapters/network_store_adapter.go:251-264 networkStoreAdapter.RemoveNetwork] *)
Definition take_away (name : string) (a : adapter) : result net_error unit * adapter :=
  match b_delete name (networkStore a) with
  | Err KeyNotFound => (Err (NetworkNotFound name), a)
  | Err e => (Err (StoreError e), a)
  | Ok nets => (Ok tt, set_pools (delete name (ipPools a)) (set_nets nets a))
  end.
(** A removal that no other call overlaps.
    [src/internal/joblet/adapters/network_store_adapter.go networkStoreAdapter.RemoveNetwork] *)
Definition RemoveNetwork (name : string) (a : adapter) : result net_error unit * adapter :=
  match removable name a with Err e => (Err e, a) | Ok _ => take_away name a end.

Definition assigned (now : Z) (jobID networkName : string) (al : JobNetworkAllocation)
    : JobNetworkAllocation := {|
  na_JobUUID := jobID; na_NetworkName := networkName; na_IPAddress := na_IPAddress al;
  na_MACAddress := na_MACAddress al; na_Hostname := na_Hostname al; na_Metadata := na_Metadata al;
  na_AssignedAt := now |}.

(** [src/internal/joblet/adapters/network_store_adapter.go networkStoreAdapter.AssignJobToNetwork] *)
Definition AssignJobToNetwork (now : Z) (jobID networkName : string)
    (allocation : option JobNetworkAllocation) (a : adapter) : result net_error unit * adapter :=
  if closed a then (Err AdapterClosed, a)
  else if bool_decide (jobID = ""%string) then (Err JobIdEmpty, a)
  else if bool_decide (networkName = ""%string) then (Err NameEmpty, a)
  else match allocation with
  | None => (Err NilAllocation, a)
  | Some al =>
      match Network networkName a with
      | None => (Err (NetworkNotFound networkName), a)
      | Some _ =>
          match b_create jobID (assigned now jobID networkName al) (allocationStore a) with
          | Err e => (Err (if IsConflictError e then AlreadyAssigned jobID else StoreError e), a)
          | Ok s => (Ok tt, set_allocs s a)
          end
      end
  end.

(** [src/internal/joblet/adapters/network_store_adapter.go networkStoreAdapter.JobNetworkAllocation] *)
Definition JobNetworkAllocation_of (jobID : string) (a : adapter) : option JobNetworkAllocation :=
  if closed a then None
  else if bool_decide (jobID = ""%string) then None
  else b_get jobID (allocationStore a).

(** [src/internal/joblet/adapters/network_store_adapter.go networkStoreAdapter.AllocateIP] *)
Definition AllocateIP (networkName : string) (a : adapter) : result net_error string * adapter :=
  if closed a then (Err AdapterClosed, a)
  else if bool_decide (networkName = ""%string) then (Err NameEmpty, a)
  else match ipPools a !! networkName with
  | None => (Err (NoPool networkName), a)
  | Some pool =>
      match available pool with
      | [] => (Err (NoAddress networkName), a)
      | ip :: rest =>
          let pool' := {| cidr := cidr pool; allocated := {[ip]} ∪ allocated pool; available := rest |} in
          (Ok ip, set_pools (<[networkName := pool']> (ipPools a)) a)
      end
  end.

(** [src/internal/joblet/adapters/network_store_adapter.go networkStoreAdapter.ReleaseIP] *)
Definition ReleaseIP (networkName ip : string) (a : adapter) : result net_error unit * adapter :=
  if closed a then (Err AdapterClosed, a)
  else if bool_decide (networkName = ""%string) then (Err NameEmpty, a)
  else if bool_decide (ip = ""%string) then (Err IPEmpty, a)
  else match ipPools a !! networkName with
  | None => (Err (NoPool networkName), a)
  | Some pool =>
      if bool_decide (ip ∈ allocated pool) then
        let pool' := {| cidr := cidr pool; allocated := allocated pool ∖ {[ip]};
                        available := available pool ++ [ip] |} in
        (Ok tt, set_pools (<[networkName := pool']> (ipPools a)) a)
      else (Err (NotAllocated ip), a)
  end.

(** The address goes back to the pool before the record goes: two calls, as one that no other
    overlaps.
    [src/internal/joblet/adapters/network_store_adapter.go networkStoreAdapter.RemoveJobFromNetwork] *)
Definition RemoveJobFromNetwork (jobID : string) (a : adapter) : result net_error unit * adapter :=
  if closed a then (Err AdapterClosed, a)
  else if bool_decide (jobID = ""%string) then (Err JobIdEmpty, a)
  else match JobNetworkAllocation_of jobID a with
  | None => (Err (NotAssigned jobID), a)
  | Some al =>
      let a := if bool_decide (na_IPAddress al = ""%string) then a
               else (ReleaseIP (na_NetworkName al) (na_IPAddress al) a).2 in
      match b_delete jobID (allocationStore a) with
      | Err KeyNotFound => (Err (NotAssigned jobID), a)
      | Err e => (Err (StoreError e), a)
      | Ok s => (Ok tt, set_allocs s a)
      end
  end.

(** [src/internal/joblet/adapters/network_store_adapter.go networkStoreAdapter.Close] *)
Definition Close (a : adapter) : adapter :=
  if closed a then a else
  {| networkStore := b_close (networkStore a); allocationStore := b_close (allocationStore a);
     ipPools := ∅; closed := true |}.

(** ** Its callers *)

(** The record a job gets, once it has its address, which goes back when the record is refused. [None] when the job id has less than eight bytes,
    which panics after the address was taken.
    [src/internal/joblet/core/execution/network_service.go:81-99 NetworkService.SetupNetworking] *)
Definition record_job (now : Z) (jobID networkName ip : string) (a : adapter)
    : option (result net_error (string * string)) * adapter :=
  if Nat.ltb (length (bytes jobID)) 8 then (None, a) else
  let hostname := ("job_" +:+ of_bytes (take 8 (bytes jobID)))%string in
  let al := {| na_JobUUID := jobID; na_NetworkName := networkName; na_IPAddress := ip;
               na_MACAddress := ""; na_Hostname := hostname; na_Metadata := ∅;
               na_AssignedAt := now |} in
  match AssignJobToNetwork now jobID networkName (Some al) a with
  | (Err e, a) => (Some (Err e), (ReleaseIP networkName ip a).2)
  | (Ok _, a) => (Some (Ok (ip, hostname)), a)
  end.

(** The address and the record are two calls, each under mutexes of its own; together a
    set-up that no other call overlaps.
    [src/internal/joblet/core/execution/network_service.go NetworkService.SetupNetworking] *)
Definition SetupNetworking (now : Z) (jobID networkName : string) (a : adapter)
    : option (result net_error (string * string)) * adapter :=
  if bool_decide (networkName = "isolated"%string) then (Some (Ok (""%string, ""%string)), a)
  else if bool_decide (networkName = "none"%string) then (Some (Ok (""%string, ""%string)), a)
  else match AllocateIP networkName a with
  | (Err e, a) => (Some (Err e), a)
  | (Ok ip, a) => record_job now jobID networkName ip a
  end.

(** [src/internal/joblet/core/execution/network_service.go NetworkService.CleanupNetworking] *)
Definition CleanupNetworking (jobID : string) (a : adapter) : result net_error unit * adapter :=
  RemoveJobFromNetwork jobID a.

(** The request handler, after authorization; the response repeats the stored
    network.
    [src/internal/joblet/server/network_service.go NetworkServiceServer.CreateNetwork] *)
Definition serve_CreateNetwork (fuel : nat) (now : Z) (name cidr : string) (a : adapter)
    : option (result net_error NetworkConfig * adapter) :=
  if negb (IsValidNetworkName name) then Some (Err (NameInvalid name), a) else
  let config := {| nc_Name := name; nc_Type := "custom"; nc_CIDR := cidr; nc_BridgeName := "";
    nc_Gateway := ""; nc_DNS := []; nc_Metadata := ∅; nc_CreatedAt := now; nc_UpdatedAt := now |} in
  r ← CreateNetwork fuel now (Some config) a;
  match r.1 with
  | Err e => Some (Err e, r.2)
  | Ok _ => match Network name r.2 with
            | None => Some (Err (NetworkNotFound name), r.2)
            | Some c => Some (Ok c, r.2)
            end
  end.
End adapter.
Arguments adapter : clear implicits.

(** ** The pool of a CIDR *)

Lemma inc_bytes_spec l : bytes_ok l →
  length (inc_bytes l) = length l ∧ bytes_ok (inc_bytes l) ∧
  val (rev (inc_bytes l)) = (val (rev l) + 1) mod 256 ^ Z.of_nat (length l).
Proof.
  induction 1 as [|b r Hb Hr (IHl & IHo & IHv)]; [split_and!; [done|constructor|done]|].
  assert (bytes_ok (rev r)) as Hrr by (by apply Forall_rev).
  pose proof (val_bound _ Hrr) as Hv. rewrite length_rev in Hv.
  cbn [inc_bytes rev length]. rewrite val_snoc, Nat2Z.inj_succ, Z.pow_succ_r by lia.
  destruct (decide (b = 255)) as [->|Hne].
  - change ((255 + 1) mod 256) with 0. cbn [Z.gtb Z.compare rev length].
    rewrite val_snoc, IHv. split_and!; [lia|by constructor|].
    replace (val (rev r) * 256 + 255 + 1) with ((val (rev r) + 1) * 256) by lia.
    rewrite (Z.mul_comm 256), Z.mul_mod_distr_r by lia. lia.
  - rewrite (Z.mod_small (b + 1)) by lia.
    replace (b + 1 >? 0) with true by (symmetry; apply Z.gtb_lt; lia).
    cbn [rev length]. rewrite val_snoc. split_and!; [done|constructor; [lia|done]|].
    rewrite Z.mod_small; nia.
Qed.

Lemma nextIP_spec a : bytes_ok a →
  length (nextIP a) = length a ∧ bytes_ok (nextIP a) ∧
  val (nextIP a) = (val a + 1) mod 256 ^ Z.of_nat (length a).
Proof.
  intros Ha. unfold nextIP. destruct (inc_bytes_spec (rev a)) as (Hl & Ho & Hv); [by apply Forall_rev|].
  rewrite !length_rev, rev_involutive in *. split_and!; [done|by apply Forall_rev|].
  by rewrite Hv.
Qed.

Lemma nextIP_of_val len v : 0 ≤ v < 256 ^ Z.of_nat len →
  nextIP (of_val len v) = of_val len ((v + 1) mod 256 ^ Z.of_nat len).
Proof.
  intros Hv. destruct (nextIP_spec (of_val len v) (of_val_ok len v)) as (Hl & Ho & Hn).
  rewrite of_val_length, val_of_val in * by done.
  apply val_inj; [by rewrite of_val_length|done|apply of_val_ok|].
  rewrite Hn, val_of_val; [done|]. apply Z.mod_pos_bound. lia.
Qed.

Section pool.
Context `{!IPv6Text}.
Variables (a : list Z) (n : nat).
Hypothesis a_len : length a = 4%nat.
Hypothesis a_ok : bytes_ok a.
Hypothesis n_le : (n ≤ 32)%nat.

(** The first address of the network and the number of its addresses. *)
Definition net_base : Z := val a / 2 ^ host_bits n 4 * 2 ^ host_bits n 4.
Definition net_size : Z := 2 ^ host_bits n 4.

(** Its host addresses: all but the first and the last. *)
Definition hosts : list string :=
  (λ v, String_ip (of_val 4 v)) <$> seqZ (net_base + 1) (net_size - 2).

Lemma net_size_pos : 0 < net_size.
Proof. apply Z.pow_pos_nonneg; unfold host_bits; lia. Qed.

Lemma net_range : 0 ≤ net_base ∧ net_base + net_size ≤ 2 ^ 32.
Proof.
  pose proof (val_bound a a_ok) as Hv. rewrite a_len in Hv. change (256 ^ Z.of_nat 4) with (2 ^ 32) in Hv.
  pose proof net_size_pos as Hp. unfold net_base, net_size in *.
  set (p := 2 ^ host_bits n 4) in *.
  assert (2 ^ 32 = 2 ^ Z.of_nat n * p) as E.
  { unfold p. rewrite <- Z.pow_add_r by (unfold host_bits; lia). f_equal. unfold host_bits. lia. }
  assert (0 ≤ val a / p) by (apply Z.div_pos; lia).
  assert (val a / p < 2 ^ Z.of_nat n) by (apply Z.div_lt_upper_bound; lia). nia.
Qed.

Lemma Contains_of_val v : 0 ≤ v < 2 ^ 32 →
  Contains (network_of a n) (of_val 4 v) = bool_decide (net_base ≤ v < net_base + net_size).
Proof.
  intros Hv. rewrite Contains_val; [|done|by rewrite of_val_length|done|apply of_val_ok|done].
  rewrite val_of_val by done. apply bool_decide_ext. pose proof net_size_pos as Hp.
  unfold net_base, net_size in *. set (p := 2 ^ host_bits n 4) in *.
  pose proof (Z.div_mod v p ltac:(lia)). pose proof (Z.mod_pos_bound v p Hp). split; [intros <-; lia|nia].
Qed.

Lemma Equal_of_val v w x : 0 ≤ v < 2 ^ 32 → length x = 4%nat → bytes_ok x → val x = w →
  Equal (of_val 4 v) x = bool_decide (v = w).
Proof.
  intros Hv Hl Hx Hw. unfold Equal. rewrite of_val_length, Hl. cbn [Nat.eqb].
  apply bool_decide_ext. split.
  - intros <-. by rewrite <- Hw, val_of_val.
  - intros ->. apply val_inj; [by rewrite of_val_length|apply of_val_ok|done|].
    by rewrite val_of_val.
Qed.

Lemma net_IP_val : length (net_IP (network_of a n)) = 4%nat ∧ bytes_ok (net_IP (network_of a n)) ∧
  val (net_IP (network_of a n)) = net_base.
Proof.
  unfold network_of. cbn [net_IP]. rewrite and_bytes_length. split_and!; [done| |].
  - apply and_bytes_ok; [done|apply CIDRMask_ok].
  - rewrite and_mask_val by (try done; lia). by rewrite a_len.
Qed.

Lemma broadcast_val : length (getBroadcastAddress (network_of a n)) = 4%nat ∧
  bytes_ok (getBroadcastAddress (network_of a n)) ∧
  val (getBroadcastAddress (network_of a n)) = net_base + net_size - 1.
Proof.
  unfold getBroadcastAddress, network_of. cbn [net_IP net_Mask].
  rewrite length_zip_with, and_bytes_length, CIDRMask_length, a_len. split_and!; [done| |].
  - rewrite <- a_len. eapply Forall_zip_with_fst.
    + apply and_bytes_ok; [exact a_ok|apply CIDRMask_ok].
    + eapply Forall_impl; [apply CIDRMask_ok|]. intros m Hm b Hb. by apply lor_byte.
  - rewrite <- a_len at 1 2. rewrite or_host_val by (try done; lia). by rewrite a_len.
Qed.

(** What the loop adds for the address [v]. *)
Definition pool_entry (v : Z) : list string :=
  if bool_decide (v = net_base) || bool_decide (v = net_base + net_size - 1) then []
  else [String_ip (of_val 4 v)].

Lemma pool_loop_spec k fuel v acc : (1 ≤ n)%nat → net_base ≤ v → v + Z.of_nat k = net_base + net_size →
  (k ≤ fuel)%nat →
  pool_loop fuel (network_of a n) (of_val 4 (v mod 2 ^ 32)) acc =
    Some (acc ++ concat (pool_entry <$> seqZ v (Z.of_nat k))).
Proof.
  intros Hn. destruct net_range as [H0 H1]. pose proof net_size_pos as Hp.
  revert fuel v acc. induction k as [|k IH]; intros fuel v acc Hv Hk Hf.
  - rewrite app_nil_r.
    assert (Contains (network_of a n) (of_val 4 (v mod 2 ^ 32)) = false) as Hc.
    { rewrite Contains_of_val by (apply Z.mod_pos_bound; lia). apply bool_decide_eq_false.
      destruct (decide (v = 2 ^ 32)) as [->|Hne]; [|rewrite Z.mod_small by lia; lia].
      rewrite Z.mod_same by lia. intros [Hb _].
      assert (net_size ≤ 2 ^ 31) by (apply Z.pow_le_mono_r; unfold host_bits; lia). lia. }
    destruct fuel; cbn [pool_loop]; by rewrite Hc.
  - destruct fuel as [|fuel]; [lia|]. cbn [pool_loop].
    rewrite (Z.mod_small v) by lia. rewrite Contains_of_val by lia.
    rewrite bool_decide_eq_true_2 by lia.
    destruct net_IP_val as (L1 & O1 & V1), broadcast_val as (L2 & O2 & V2).
    rewrite (Equal_of_val v _ _ ltac:(lia) L1 O1 V1), (Equal_of_val v _ _ ltac:(lia) L2 O2 V2).
    rewrite nextIP_of_val by (change (256 ^ Z.of_nat 4) with (2 ^ 32); lia).
    change (256 ^ Z.of_nat 4) with (2 ^ 32).
    rewrite IH by lia. rewrite Nat2Z.inj_succ, (seqZ_cons v) by lia.
    replace (Z.pred (Z.succ (Z.of_nat k))) with (Z.of_nat k) by lia.
    cbn [fmap list_fmap concat]. unfold pool_entry at 2.
    destruct (bool_decide (v = net_base)), (bool_decide (v = net_base + net_size - 1)); simpl;
      by rewrite <- ?app_assoc, ?Z.add_1_r.
Qed.

Lemma pool_entries : concat (pool_entry <$> seqZ net_base net_size) = hosts.
Proof.
  pose proof net_size_pos as Hp.
  assert (Hmid : ∀ v m, net_base < v → v + m ≤ net_base + net_size - 1 →
    concat (pool_entry <$> seqZ v m) = (λ v, String_ip (of_val 4 v)) <$> seqZ v m).
  { intros v m. destruct (decide (0 ≤ m)) as [Hm|Hm]; [|by rewrite !seqZ_nil by lia].
    revert v. pattern m. apply natlike_ind; [done| |done]. clear m Hm.
    intros m Hm IH v Hv Hvm. rewrite seqZ_cons by lia. rewrite Z.pred_succ. cbn [fmap list_fmap concat].
    rewrite IH by lia. unfold pool_entry. by rewrite !bool_decide_eq_false_2 by lia. }
  assert (Hends : pool_entry net_base = [] ∧ pool_entry (net_base + net_size - 1) = []).
  { unfold pool_entry. rewrite (bool_decide_eq_true_2 (net_base = net_base)) by done.
    rewrite (bool_decide_eq_true_2 (_ - 1 = _ - 1)) by done. by rewrite orb_true_r. }
  destruct Hends as [E1 E2]. unfold hosts. rewrite seqZ_cons by lia.
  cbn [fmap list_fmap concat]. rewrite E1. simpl.
  destruct (decide (net_size = 1)) as [->|Hne]; [by rewrite !seqZ_nil by lia|].
  replace (Z.pred net_size) with (net_size - 2 + 1) by lia.
  rewrite seqZ_app by lia. rewrite fmap_app, concat_app, Hmid by lia.
  replace (Z.succ net_base) with (net_base + 1) by lia.
  replace (net_base + 1 + (net_size - 2)) with (net_base + net_size - 1) by lia.
  change (seqZ (net_base + net_size - 1) 1) with [net_base + net_size - 1].
  cbn [fmap list_fmap concat]. by rewrite E2, !app_nil_r.
Qed.

Lemma hosts_NoDup : NoDup hosts.
Proof.
  destruct net_range as [H0 H1]. unfold hosts. apply NoDup_fmap_2_strong; [|apply NoDup_seqZ].
  intros v w Hv Hw E. rewrite elem_of_seqZ in Hv, Hw.
  apply String_ip_inj in E; [|by rewrite ?of_val_length|by rewrite ?of_val_length|apply of_val_ok..].
  rewrite <- (val_of_val 4 v), E, val_of_val; [done|..];
    change (256 ^ Z.of_nat 4) with (2 ^ 32); lia.
Qed.
End pool.

(** The CIDR text of an IPv4 network. *)
Definition cidr_text (a : list Z) (n : nat) : string :=
  of_bytes (dotted a ++ "/"%char :: digits_of (Z.of_nat n)).

Section pool_theorems.
Context `{!IPv6Text}.

Lemma pool_loop_network a n fuel : length a = 4%nat → bytes_ok a → (1 ≤ n ≤ 32)%nat →
  (Z.to_nat (net_size n) ≤ fuel)%nat →
  pool_loop fuel (network_of a n) (net_IP (network_of a n)) [] = Some (hosts a n).
Proof.
  intros La Ha Hn Hf. destruct (net_IP_val a n La Ha ltac:(lia)) as (L & O & V).
  destruct (net_range a n La Ha ltac:(lia)) as [H0 H1].
  pose proof (net_size_pos a n La ltac:(lia)) as Hp.
  assert (net_IP (network_of a n) = of_val 4 (net_base a n mod 2 ^ 32)) as ->.
  { rewrite Z.mod_small by lia. rewrite <- V, <- L. by rewrite of_val_val. }
  rewrite (pool_loop_spec a n La Ha ltac:(lia) (Z.to_nat (net_size n))) by lia.
  rewrite Z2Nat.id by lia. simpl. rewrite (pool_entries a n La) by lia. done.
Qed.

Lemma pool_loop_zero a fuel x acc : length a = 4%nat → bytes_ok a → length x = 4%nat → bytes_ok x →
  pool_loop fuel (network_of a 0) x acc = None.
Proof.
  intros La Ha. revert x acc. induction fuel as [|fuel IH]; intros x acc Lx Hx.
  - cbn [pool_loop]. rewrite Contains_val by (done || lia). rewrite bool_decide_eq_true_2; [done|].
    pose proof (val_bound a Ha). pose proof (val_bound x Hx). rewrite La, Lx in *.
    change (host_bits 0 4) with 32. change (256 ^ Z.of_nat 4) with (2 ^ 32) in *.
    by rewrite !Z.div_small.
  - cbn [pool_loop]. destruct (Contains _ x) eqn:E.
    + destruct (nextIP_spec x Hx) as (? & ? & _). apply IH; congruence || done.
    + rewrite Contains_val in E by (done || lia). apply bool_decide_eq_false in E. destruct E.
      pose proof (val_bound a Ha). pose proof (val_bound x Hx). rewrite La, Lx in *.
      change (host_bits 0 4) with 32. change (256 ^ Z.of_nat 4) with (2 ^ 32) in *.
      by rewrite !Z.div_small.
Qed.

(** For every IPv4 CIDR with a prefix of at least one bit the pool loop ends
    within as many rounds as the network has addresses, also at the end of the
    address space where [nextIP] wraps around, and the pool holds exactly the
    host addresses: every address between the first and the last one, once, in
    ascending order. *)
Theorem initializeIPPool_hosts a n fuel :
  length a = 4%nat → bytes_ok a → (1 ≤ n ≤ 32)%nat → (Z.to_nat (net_size n) ≤ fuel)%nat →
  initializeIPPool fuel (cidr_text a n) =
    Some (Ok {| cidr := network_of a n; allocated := ∅; available := hosts a n |}) ∧
  NoDup (hosts a n) ∧
  Z.of_nat (length (hosts a n)) = Z.max 0 (2 ^ (32 - Z.of_nat n) - 2).
Proof.
  intros La Ha Hn Hf. split; [|split].
  - unfold initializeIPPool, cidr_text. rewrite ParseCIDR_dotted by (done || lia). simpl.
    by rewrite pool_loop_network.
  - apply hosts_NoDup; done || lia.
  - unfold hosts. rewrite length_fmap, length_seqZ. unfold net_size, host_bits.
    change (8 * Z.of_nat 4) with 32. lia.
Qed.

(** A zero prefix passes validation, and then the pool loop never ends: every
    address is in the network and [nextIP] wraps around.  The request of a
    client to create such a network does not return, whatever the address. *)
Theorem zero_prefix_never_returns a name now fuel
    (ad : adapter (gmap string NetworkConfig) (gmap string JobNetworkAllocation)) :
  length a = 4%nat → bytes_ok a → IsValidNetworkName name = true → closed ad = false →
  serve_CreateNetwork fuel now name (cidr_text a 0) ad = None.
Proof.
  intros La Ha Hname Hc. unfold serve_CreateNetwork, CreateNetwork. rewrite Hname, Hc. cbn [negb].
  assert (Hne : name ≠ ""%string) by (by intros ->).
  assert (Hp : ParseCIDR (cidr_text a 0) = Some (network_of a 0)) by (apply ParseCIDR_dotted; done || lia).
  assert (Hcne : cidr_text a 0 ≠ ""%string) by (intros E; rewrite E in Hp; done).
  cbn [nc_Name]. rewrite (bool_decide_eq_false_2 (name = _)) by done.
  unfold validateNetworkConfig. cbn [nc_Name nc_Type nc_CIDR nc_Gateway nc_DNS].
  rewrite (bool_decide_eq_false_2 (name = _)) by done. rewrite Hp.
  cbn [negb andb find]. rewrite andb_false_r. cbn.
  assert (Hl : pool_loop fuel (network_of a 0) (net_IP (network_of a 0)) [] = None).
  { apply pool_loop_zero; [done|done| |].
    - unfold network_of. cbn [net_IP]. by rewrite and_bytes_length.
    - apply and_bytes_ok; [done|apply CIDRMask_ok]. }
  change (bool_decide ("custom"%string ∈ ["bridge"; "host"; "none"; "custom"]%string)) with true.
  change (bool_decide (""%string = ""%string)) with true. cbn [negb andb].
  rewrite (bool_decide_eq_false_2 (cidr_text a 0 = _)) by done.
  unfold initializeIPPool. by rewrite Hp, Hl.
Qed.
End pool_theorems.

(** ** Runs of the adapter *)

Inductive net_op :=
| NCreate (now : Z) (config : NetworkConfig)
| NRemove (name : string)
| NAssign (now : Z) (job name : string) (al : JobNetworkAllocation)
| NUnassign (job : string)
| NAllocate (name : string)
| NRelease (name ip : string)
| NClose.

(** IPv4 networks only: what the pool loop yields for other texts depends on the
    IPv6 interface. *)
Definition v4_cidr `{!IPv6Text} (c : string) : Prop :=
  c = ""%string ∨ ∃ a n, length a = 4%nat ∧ bytes_ok a ∧ (n ≤ 32)%nat ∧
    ParseCIDR c = Some (network_of a n).

Definition v4_op `{!IPv6Text} (op : net_op) : Prop :=
  match op with NCreate _ config => v4_cidr (nc_CIDR config) | _ => True end.

(** The addresses handed out for each network and not given back since. *)
Definition held_map := string → gset string.
Definition upd_held (name : string) (f : gset string → gset string) (h : held_map) : held_map :=
  λ m, if decide (m = name) then f (h m) else h m.

Section runs.
Context `{!IPv6Text} {NS AS : Type}.
Context `{!Backend NS NetworkConfig} `{!Backend AS JobNetworkAllocation}.

(** [None]: the operation does not return. *)
Definition net_step (fuel : nat) (op : net_op) (ah : adapter NS AS * held_map)
    : option (adapter NS AS * held_map) :=
  let (a, h) := ah in
  match op with
  | NCreate now config => r ← CreateNetwork fuel now (Some config) a; Some (r.2, h)
  | NRemove name =>
      let r := RemoveNetwork name a in
      Some (r.2, if is_ok r.1 then upd_held name (λ _, ∅) h else h)
  | NAssign now job name al => Some ((AssignJobToNetwork now job name (Some al) a).2, h)
  | NUnassign job =>
      let h' := match JobNetworkAllocation_of job a with
                | Some al => upd_held (na_NetworkName al) (λ s, s ∖ {[na_IPAddress al]}) h
                | None => h
                end in
      Some ((RemoveJobFromNetwork job a).2, h')
  | NAllocate name =>
      let r := AllocateIP name a in
      Some (r.2, match r.1 with Ok ip => upd_held name (union {[ip]}) h | Err _ => h end)
  | NRelease name ip =>
      let r := ReleaseIP name ip a in
      Some (r.2, if is_ok r.1 then upd_held name (λ s, s ∖ {[ip]}) h else h)
  | NClose => Some (Close a, λ _, ∅)
  end.

Inductive net_reachable : adapter NS AS → held_map → Prop :=
| nr_init : net_reachable NewNetworkStoreAdapter (λ _, ∅)
| nr_step fuel op a h a' h' : net_reachable a h → v4_op op →
    net_step fuel op (a, h) = Some (a', h') → net_reachable a' h'.
End runs.

(** ** Exclusive addresses *)

(** A pool hands each address out once: it is either available, once, or allocated. *)
Definition pool_ok (p : ipPool) : Prop :=
  NoDup (available p) ∧ (∀ ip, ip ∈ available p → ip ≠ ""%string ∧ ip ∉ allocated p) ∧
  ""%string ∉ allocated p.

Lemma upd_held_same name f h : upd_held name f h name = f (h name).
Proof. unfold upd_held. by rewrite decide_True. Qed.
Lemma upd_held_other name f h m : m ≠ name → upd_held name f h m = h m.
Proof. intros. unfold upd_held. by rewrite decide_False. Qed.

Section adapter_steps.
Context `{!IPv6Text} {NS AS : Type}.
Context `{!Backend NS NetworkConfig} `{!Backend AS JobNetworkAllocation}.
Implicit Types (a : adapter NS AS).

Lemma pool_loop_more fuel fuel' n x acc r : pool_loop fuel n x acc = Some r → (fuel ≤ fuel')%nat →
  pool_loop fuel' n x acc = Some r.
Proof.
  revert fuel' x acc. induction fuel as [|fuel IH]; intros fuel' x acc Hr Hle; cbn [pool_loop] in Hr.
  - destruct (Contains n x) eqn:E; [done|]. destruct fuel'; cbn [pool_loop]; by rewrite E.
  - destruct (Contains n x) eqn:E; (destruct fuel' as [|fuel']; [lia|]); cbn [pool_loop]; rewrite E; [|done].
    apply IH; [done|lia].
Qed.

Lemma validate_cidr c : validateNetworkConfig c = Ok tt → nc_CIDR c ≠ ""%string →
  is_Some (ParseCIDR (nc_CIDR c)).
Proof.
  unfold validateNetworkConfig. intros Hv Hc. repeat case_bool_decide; try done; simpl in Hv;
    destruct (ParseCIDR (nc_CIDR c)); by eauto.
Qed.

(** What a call of [CreateNetwork] that returns can do to the adapter. *)
Lemma CreateNetwork_inv fuel now c a r a' : CreateNetwork fuel now (Some c) a = Some (r, a') →
  a' = a ∨
  (closed a = false ∧ nc_Name c ≠ ""%string ∧ ∃ nets, b_create (nc_Name c) (stamped now c) (networkStore a) = Ok nets ∧
   (a' = set_nets nets a ∨
    (nc_CIDR c ≠ ""%string ∧ ∃ pool, initializeIPPool fuel (nc_CIDR c) = Some (Ok pool) ∧
       a' = set_pools (<[nc_Name c := pool]> (ipPools a)) (set_nets nets a)))).
Proof.
  unfold CreateNetwork. destruct (closed a) eqn:Ec; [intros [= <- <-]; by left|].
  case_bool_decide as Hn; [intros [= <- <-]; by left|].
  destruct (validateNetworkConfig c) as [[]|] eqn:Ev; [|intros [= <- <-]; by left].
  cbn [stamped nc_Name nc_CIDR].
  change (nc_Name (stamped now c)) with (nc_Name c). change (nc_CIDR (stamped now c)) with (nc_CIDR c).
  destruct (b_create _ _ _) as [nets|e] eqn:Eb; [|intros [= <- <-]; by left].
  intros Hr. right. split; [done|]. split; [done|]. exists nets. split; [done|].
  case_bool_decide as Hc; [injection Hr as <- <-; by left|].
  destruct (initializeIPPool fuel (nc_CIDR c)) as [[pool|e]|] eqn:Ei; simpl in Hr; [| |done].
  - injection Hr as <- <-. right. split; [done|]. by exists pool.
  - destruct (validate_cidr c Ev Hc) as [n Hp]. unfold initializeIPPool in Ei. rewrite Hp in Ei.
    by destruct (pool_loop _ _ _ _).
Qed.

(** [ReleaseIP] moves the address back, or changes nothing. *)
Lemma ReleaseIP_cases name ip a :
  (∃ p, closed a = false ∧ ip ≠ ""%string ∧ ipPools a !! name = Some p ∧ ip ∈ allocated p ∧
     ReleaseIP name ip a = (Ok tt, set_pools (<[name := {| cidr := cidr p;
       allocated := allocated p ∖ {[ip]}; available := available p ++ [ip] |}]> (ipPools a)) a)) ∨
  (is_ok (ReleaseIP name ip a).1 = false ∧ (ReleaseIP name ip a).2 = a ∧
   (closed a = true ∨ name = ""%string ∨ ip = ""%string ∨
    ∀ p, ipPools a !! name = Some p → ip ∉ allocated p)).
Proof.
  unfold ReleaseIP. destruct (closed a) eqn:Ec; [right; auto|].
  case_bool_decide; [right; auto 10|]. case_bool_decide; [right; auto 10|].
  destruct (ipPools a !! name) as [p|] eqn:Ep; [|right; naive_solver].
  case_bool_decide; [left; by exists p|right]. split_and!; [done..|]. do 3 right. by intros ? [= <-].
Qed.

Lemma AllocateIP_cases name a :
  (∃ p ip rest, closed a = false ∧ ipPools a !! name = Some p ∧ available p = ip :: rest ∧
     AllocateIP name a = (Ok ip, set_pools (<[name := {| cidr := cidr p;
       allocated := {[ip]} ∪ allocated p; available := rest |}]> (ipPools a)) a)) ∨
  (is_ok (AllocateIP name a).1 = false ∧ (AllocateIP name a).2 = a).
Proof.
  unfold AllocateIP. destruct (closed a) eqn:Ec; [by right|]. case_bool_decide; [by right|].
  destruct (ipPools a !! name) as [p|] eqn:Ep; [|by right].
  destruct (available p) as [|ip rest] eqn:Ea; [by right|]. left. by exists p, ip, rest.
Qed.

Lemma AssignJobToNetwork_same now j name al a :
  let a' := (AssignJobToNetwork now j name al a).2 in
  ipPools a' = ipPools a ∧ networkStore a' = networkStore a ∧ closed a' = closed a.
Proof. unfold AssignJobToNetwork. by repeat case_match. Qed.
End adapter_steps.

Section exclusive.
Context `{!IPv6Text} {NS AS : Type}.
Context `{!Backend NS NetworkConfig} `{!LawfulBackend NS NetworkConfig}.
Context `{!Backend AS JobNetworkAllocation}.
Implicit Types (a : adapter NS AS) (h : held_map).

(** Every pool is consistent, belongs to a stored network, and has as allocated
    what was handed out; nothing is held where there is no pool. *)
Definition excl a h : Prop :=
  ∀ name, match ipPools a !! name with
  | Some p => name ≠ ""%string ∧ pool_ok p ∧ allocated p = h name ∧ closed a = false ∧
              is_Some (b_get name (networkStore a))
  | None => h name = ∅
  end.

Lemma new_pool_ok fuel c p : v4_cidr c → c ≠ ""%string →
  initializeIPPool fuel c = Some (Ok p) → pool_ok p ∧ allocated p = ∅.
Proof.
  intros [?|(x & n & Lx & Hx & Hn & Hp)] Hc; [done|]. unfold initializeIPPool. rewrite Hp.
  assert (Hbase : length (net_IP (network_of x n)) = 4%nat ∧ bytes_ok (net_IP (network_of x n))).
  { destruct (net_IP_val x n Lx Hx Hn) as (? & ? & _). done. }
  destruct (decide (n = 0%nat)) as [->|Hn0]; [by rewrite pool_loop_zero by (done || apply Hbase)|].
  destruct (pool_loop fuel _ _ _) as [ips|] eqn:El; [|done]. intros [= <-].
  assert (ips = hosts x n) as ->.
  { pose proof (pool_loop_network x n (fuel + Z.to_nat (net_size n)) Lx Hx ltac:(lia) ltac:(lia)) as E.
    rewrite (pool_loop_more _ _ _ _ _ _ El) in E by lia. congruence. }
  split; [|done]. split; [apply hosts_NoDup; done || lia|]. cbn [available allocated].
  split; [|set_solver]. intros ip Hip. split; [|set_solver].
  apply list_elem_of_fmap in Hip as (v & -> & _).
  apply String_ip_ne; [apply of_val_length|apply of_val_ok].
Qed.

(** Replacing the pool of one network, and what is held of it. *)
Lemma excl_update a h name p f : excl a h → closed a = false → name ≠ ""%string →
  is_Some (b_get name (networkStore a)) → pool_ok p → allocated p = f (h name) →
  excl (set_pools (<[name := p]> (ipPools a)) a) (upd_held name f h).
Proof.
  intros He Hc Hn Hb Hp Ha m. cbn [set_pools ipPools networkStore closed].
  destruct (decide (m = name)) as [->|Hm].
  - rewrite lookup_insert_eq, upd_held_same. done.
  - rewrite lookup_insert_ne, upd_held_other by done. apply He.
Qed.

(** Changing the networks without losing one that has a pool. *)
Lemma excl_nets a h nets : excl a h →
  (∀ name p, ipPools a !! name = Some p → is_Some (b_get name nets)) → excl (set_nets nets a) h.
Proof.
  intros He Hn m. cbn [set_nets ipPools networkStore closed]. specialize (He m).
  destruct (ipPools a !! m) as [p|] eqn:Ep; [|done]. destruct He as (? & ? & ? & ? & ?).
  split_and!; try done. by eapply Hn.
Qed.

Lemma excl_AllocateIP a h name : excl a h →
  excl (AllocateIP name a).2
    (match (AllocateIP name a).1 with Ok ip => upd_held name (union {[ip]}) h | Err _ => h end).
Proof.
  intros He. destruct (AllocateIP_cases name a) as [(p & ip & rest & Hc & Hp & Ha & ->)|(Hr & ->)].
  - pose proof (He name) as Hx. rewrite Hp in Hx. destruct Hx as (Hn & (Hnd & Hav & Hne) & Hal & _ & Hb).
    rewrite Ha in *. apply NoDup_cons in Hnd as [Hip Hnd].
    cbn [fst snd]. apply excl_update; try done; [|by rewrite <- Hal].
    split; [done|]. cbn [available allocated]. split.
    + intros x Hx. destruct (Hav x) as [? ?]; [by right|]. split; [done|].
      apply not_elem_of_union. split; [|done]. intros ->%elem_of_singleton. done.
    + destruct (Hav ip) as [? _]; [left|]. set_solver.
  - destruct (AllocateIP name a).1; [done|]. done.
Qed.

Lemma excl_ReleaseIP a h name ip : excl a h →
  excl (ReleaseIP name ip a).2 (upd_held name (λ s, s ∖ {[ip]}) h).
Proof.
  intros He. destruct (ReleaseIP_cases name ip a) as [(p & Hc & Hip & Hp & Hin & ->)|(_ & -> & Hno)].
  - pose proof (He name) as Hx. rewrite Hp in Hx. destruct Hx as (Hn & (Hnd & Hav & Hne) & Hal & _ & Hb).
    cbn [snd]. apply excl_update; try done; [|cbn [allocated]; by rewrite Hal].
    split_and!; cbn [available allocated].
    + apply NoDup_app. split; [done|]. split; [|apply NoDup_singleton].
      intros x Hx ->%list_elem_of_singleton. by destruct (Hav ip Hx).
    + intros x [Hx| ->%list_elem_of_singleton]%elem_of_app; [|set_solver].
      destruct (Hav x Hx). set_solver.
    + set_solver.
  - intros m. specialize (He m). destruct (decide (m = name)) as [->|Hm]; [|by rewrite upd_held_other].
    rewrite upd_held_same. destruct (ipPools a !! name) as [p|] eqn:Ep; [|set_solver].
    destruct He as (Hn & Hok & Hal & Hc & Hb). split_and!; try done.
    assert (ip ∉ allocated p) as Hnot.
    { destruct Hno as [?|[?|[->|Hno]]]; [congruence|done|apply Hok|by apply Hno]. }
    rewrite <- Hal. set_solver.
Qed.

Lemma excl_RemoveNetwork name a h : excl a h →
  excl (RemoveNetwork name a).2
    (if is_ok (RemoveNetwork name a).1 then upd_held name (λ _, ∅) h else h).
Proof.
  intros He. unfold RemoveNetwork, removable, take_away. destruct (closed a); [done|]. case_bool_decide; [done|].
  cbv zeta. destruct (Nat.ltb _ _); [done|]. destruct (b_get name (networkStore a)) eqn:Eg; [|done].
  destruct (b_delete name (networkStore a)) as [nets|[| |]] eqn:Ed; try done. cbn.
  intros m. cbn. destruct (decide (m = name)) as [->|Hm].
  - by rewrite lookup_delete_eq, upd_held_same.
  - rewrite lookup_delete_ne, upd_held_other by done. specialize (He m).
    destruct (ipPools a !! m); [|done]. rewrite (b_get_delete _ _ _ m Ed), decide_False by done. done.
Qed.

Lemma excl_same a a' h : ipPools a' = ipPools a → networkStore a' = networkStore a →
  closed a' = closed a → excl a h → excl a' h.
Proof. intros E1 E2 E3 He m. rewrite E1, E2, E3. apply He. Qed.

Lemma excl_create_fresh fuel now c a h r a' : excl a h → v4_cidr (nc_CIDR c) →
  creates_new (nc_Name c) (networkStore a) →
  CreateNetwork fuel now (Some c) a = Some (r, a') → excl a' h.
Proof.
  intros He Hv Hnew Hr.
  destruct (CreateNetwork_inv _ _ _ _ _ _ Hr) as [->|(Hc & Hne & nets & Hb & Hcase)]; [done|].
  pose proof (Hnew _ _ Hb) as Hfresh.
  assert (Hnopool : ipPools a !! nc_Name c = None).
  { specialize (He (nc_Name c)). destruct (ipPools a !! nc_Name c); [|done].
    destruct He as (_ & _ & _ & _ & [? ?]). congruence. }
  assert (Hnets : excl (set_nets nets a) h).
  { apply excl_nets; [done|]. intros m p Hm. rewrite (b_get_create _ _ _ _ m Hb).
    case_decide; [by eexists|]. specialize (He m). rewrite Hm in He. apply He. }
  destruct Hcase as [->|(Hcd & pool & Hi & ->)]; [done|].
  destruct (new_pool_ok _ _ _ Hv Hcd Hi) as [Hpo Hpa].
  pose proof (excl_update (set_nets nets a) h (nc_Name c) pool id Hnets Hc Hne) as Hu.
  assert (h (nc_Name c) = ∅) as Hh by (specialize (He (nc_Name c)); by rewrite Hnopool in He).
  intros m. specialize (Hu ltac:(simpl; rewrite (b_get_create _ _ _ _ _ Hb), decide_True; eauto) Hpo).
  specialize (Hu ltac:(by rewrite Hpa, Hh) m). unfold upd_held in Hu. by destruct (decide (m = nc_Name c)).
Qed.

Context `{!CheckedBackend NS NetworkConfig}.

Lemma excl_step fuel op a h a' h' : excl a h → v4_op op →
  net_step fuel op (a, h) = Some (a', h') → excl a' h'.
Proof.
  intros He Hv. destruct op as [now c|name|now j name al|j|name|name ip|]; cbn [net_step].
  - destruct (CreateNetwork fuel now (Some c) a) as [[r a1]|] eqn:E; [|done].
    intros [= <- <-]. eapply excl_create_fresh; [done|done|apply checked_creates_new|done].
  - intros [= <- <-]. by apply excl_RemoveNetwork.
  - intros [= <- <-]. destruct (AssignJobToNetwork_same now j name (Some al) a) as (?&?&?).
    by eapply excl_same.
  - intros [= <- <-]. unfold RemoveJobFromNetwork. unfold JobNetworkAllocation_of.
    destruct (closed a) eqn:Ec; [done|]. case_bool_decide as Hj; [done|].
    destruct (b_get j (allocationStore a)) as [al|]; [|done].
    assert (Hrel : excl (if bool_decide (na_IPAddress al = ""%string) then a
        else (ReleaseIP (na_NetworkName al) (na_IPAddress al) a).2)
      (upd_held (na_NetworkName al) (λ s, s ∖ {[na_IPAddress al]}) h)).
    { case_bool_decide as Hip; [|by apply excl_ReleaseIP].
      pose proof (excl_ReleaseIP a h (na_NetworkName al) (na_IPAddress al) He) as Hx.
      unfold ReleaseIP in Hx. rewrite Ec, Hip in Hx. rewrite Hip. by case_bool_decide. }
    destruct (b_delete j _) as [s|[| |]]; try done.
  - intros [= <- <-]. by apply excl_AllocateIP.
  - intros [= <- <-]. pose proof (excl_ReleaseIP a h name ip He) as Hx.
    destruct (ReleaseIP_cases name ip a) as [(p & Hc & Hip & Hp & Hin & E)|(Er & E & _)];
      rewrite E in *; [done|]. by rewrite Er.
  - intros [= <- <-]. unfold Close. destruct (closed a) eqn:Ec.
    + intros m. specialize (He m). destruct (ipPools a !! m); [|done].
      destruct He as (_ & _ & _ & ? & _). congruence.
    + intros m. cbn. by rewrite lookup_empty.
Qed.

(** Over backends that refuse to create an existing key, no sequence of calls
    hands out an address that is still in use: what [AllocateIP] returns is not
    held by anyone in that network, and what the pool counts as allocated is
    exactly what was handed out and not given back. *)
Theorem AllocateIP_exclusive (a : adapter NS AS) (h : held_map) name ip a' :
  net_reachable a h → AllocateIP name a = (Ok ip, a') →
  ip ∉ h name ∧ ∃ p, ipPools a' !! name = Some p ∧ allocated p = {[ip]} ∪ h name ∧ NoDup (available p).
Proof.
  intros Hr Ha.
  assert (excl a h) as He.
  { clear Ha. induction Hr as [|fuel op a h a1 h1 _ IH Hv Hs]; [|by eapply excl_step].
    intros m. cbn. by rewrite lookup_empty. }
  destruct (AllocateIP_cases name a) as [(p & ip' & rest & _ & Hp & Hav & E)|(E & _)];
    [|by rewrite Ha in E].
  rewrite Ha in E. injection E as <- ->. specialize (He name). rewrite Hp in He.
  destruct He as (_ & (Hnd & Hx & _) & Hal & _). rewrite Hav in *. split.
  - rewrite <- Hal. by apply Hx; left.
  - eexists. cbn. rewrite lookup_insert_eq. split; [done|]. cbn. rewrite Hal.
    split; [done|]. by apply NoDup_cons in Hnd as [_ ?].
Qed.
End exclusive.

(** ** Jobs and their addresses *)

Inductive svc_op :=
| SCreate (now : Z) (name cidr : string)
| SRemove (name : string)
| SSetup (now : Z) (job name : string)
| SCleanup (job : string).

Definition op_v4 `{!IPv6Text} (op : svc_op) : Prop :=
  match op with SCreate _ _ cidr => v4_cidr cidr | _ => True end.

Section services.
Context `{!IPv6Text} {NS AS : Type}.
Context `{!Backend NS NetworkConfig} `{!LawfulBackend NS NetworkConfig}.
Context `{!Backend AS JobNetworkAllocation} `{!LawfulBackend AS JobNetworkAllocation}.
Context `{!DeletingBackend AS JobNetworkAllocation}.
Implicit Types (a : adapter NS AS).

(** [None]: the call does not return, or panics. *)
Definition svc_step (fuel : nat) (op : svc_op) (a : adapter NS AS) : option (adapter NS AS) :=
  match op with
  | SCreate now name cidr => r ← serve_CreateNetwork fuel now name cidr a; Some r.2
  | SRemove name => Some (RemoveNetwork name a).2
  | SSetup now job name =>
      match SetupNetworking now job name a with (Some _, a') => Some a' | (None, _) => None end
  | SCleanup job => Some (CleanupNetworking job a).2
  end.

(** No existing network or record is created over. *)
Definition op_new (op : svc_op) (a : adapter NS AS) : Prop :=
  match op with
  | SCreate _ name _ => creates_new name (networkStore a)
  | SSetup _ job _ => creates_new job (allocationStore a)
  | _ => True
  end.

Inductive svc_reachable : adapter NS AS → Prop :=
| sr_init : svc_reachable NewNetworkStoreAdapter
| sr_step fuel op a a' : svc_reachable a → op_v4 op → op_new op a →
    svc_step fuel op a = Some a' →
    svc_reachable a'.

(** What the pools count as allocated. *)
Definition in_use a : held_map :=
  λ name, match ipPools a !! name with Some p => allocated p | None => ∅ end.

Definition record a (job name ip : string) : Prop :=
  ∃ al, b_get job (allocationStore a) = Some al ∧ na_NetworkName al = name ∧ na_IPAddress al = ip.

(** The allocated addresses are exactly those of the jobs' records, one job each. *)
Definition linked a : Prop :=
  closed a = false ∧ (∀ job name ip, record a job name ip → job ≠ ""%string) ∧
  (∀ name ip, ip ∈ in_use a name ↔ ∃ job, record a job name ip) ∧
  (∀ j1 j2 name ip, record a j1 name ip → record a j2 name ip → j1 = j2).

Definition svc_inv a : Prop := excl a (in_use a) ∧ linked a.

Lemma excl_ext a h h' : (∀ m, h m = h' m) → excl a h → excl a h'.
Proof. intros E He m. rewrite <- E. apply He. Qed.

(** The invariant only reads the held map where there is a pool. *)
Lemma excl_in_use a h : excl a h → ∀ m, in_use a m = h m.
Proof.
  intros He m. specialize (He m). unfold in_use. destruct (ipPools a !! m); [|done].
  by destruct He as (_ & _ & ? & _).
Qed.

Lemma svc_inv_of a h : excl a h → linked a → svc_inv a.
Proof. intros He Hl. split; [|done]. eapply excl_ext; [|exact He]. intros m. symmetry. by apply excl_in_use. Qed.

Lemma linked_same a a' : closed a' = closed a → allocationStore a' = allocationStore a →
  (∀ m, in_use a' m = in_use a m) → linked a → linked a'.
Proof.
  intros Hc Hs Hu (H0 & H1 & H2 & H3). unfold linked, record in *. rewrite Hs, Hc.
  split; [done|]. split; [done|]. split; [|done]. intros name ip. rewrite Hu. apply H2.
Qed.

Lemma svc_remove name a : svc_inv a → svc_inv (RemoveNetwork name a).2.
Proof.
  intros [He Hl]. pose proof (excl_RemoveNetwork name a _ He) as He'.
  apply (svc_inv_of _ _ He'). pose proof Hl as (Hc & Hj & Hin & _).
  apply (linked_same a); [..|done].
  - unfold RemoveNetwork, removable, take_away. by repeat case_match.
  - unfold RemoveNetwork, removable, take_away. by repeat case_match.
  - intros m. rewrite (excl_in_use _ _ He'). destruct (is_ok _) eqn:Eok; [|done].
    destruct (decide (m = name)) as [->|Hm]; [|by rewrite upd_held_other].
    rewrite upd_held_same. symmetry. apply elem_of_equiv_empty_L. intros ip Hip.
    apply Hin in Hip as (job & al & Hal & Hn & _).
    assert (al ∈ ListJobsInNetwork name a) as Hal'.
    { unfold ListJobsInNetwork. rewrite Hc. apply list_elem_of_filter. split; [done|].
      apply b_list_spec. eauto. }
    unfold RemoveNetwork, removable in Eok. rewrite Hc in Eok. case_bool_decide; [done|].
    cbv zeta in Eok. destruct (ListJobsInNetwork name a); [by apply elem_of_nil in Hal'|done].
Qed.

(** Giving an address back undoes taking it. *)
Lemma release_fresh a name p ip rest : excl a (in_use a) → ipPools a !! name = Some p →
  available p = ip :: rest →
  let a1 := (AllocateIP name a).2 in
  (∀ m, in_use (ReleaseIP name ip a1).2 m = in_use a m) ∧ excl (ReleaseIP name ip a1).2 (in_use a).
Proof.
  intros He Hp Hav a1. pose proof (excl_AllocateIP a _ name He) as He1.
  pose proof (He name) as Hx. rewrite Hp in Hx. destruct Hx as (Hn & (_ & Hx & _) & _ & Hc & _).
  rewrite Hav in Hx. destruct (Hx ip) as [_ Hfresh]; [left|].
  assert ((AllocateIP name a).1 = Ok ip) as E.
  { unfold AllocateIP. rewrite Hc, Hp, Hav. by rewrite bool_decide_eq_false_2. }
  rewrite E in He1. fold a1 in He1. pose proof (excl_ReleaseIP a1 _ name ip He1) as He2.
  assert (Hsame : ∀ m, upd_held name (λ s, s ∖ {[ip]}) (upd_held name (union {[ip]}) (in_use a)) m = in_use a m).
  { intros m. destruct (decide (m = name)) as [->|Hm]; [|by rewrite !upd_held_other].
    rewrite !upd_held_same. unfold in_use. rewrite Hp. set_solver. }
  assert (excl (ReleaseIP name ip a1).2 (in_use a)) as He3 by (eapply excl_ext; [exact Hsame|exact He2]).
  split; [|done]. by apply excl_in_use.
Qed.

Lemma AllocateIP_allocs name a : allocationStore (AllocateIP name a).2 = allocationStore a ∧
  closed (AllocateIP name a).2 = closed a ∧ networkStore (AllocateIP name a).2 = networkStore a.
Proof. unfold AllocateIP. by repeat case_match. Qed.

Lemma ReleaseIP_allocs name ip a : allocationStore (ReleaseIP name ip a).2 = allocationStore a ∧
  closed (ReleaseIP name ip a).2 = closed a.
Proof. unfold ReleaseIP. by repeat case_match. Qed.

(** Recording a job with the address it was just given. *)
Lemma svc_recorded a a1 job name ip al st p rest : svc_inv a → job ≠ ""%string →
  b_get job (allocationStore a) = None →
  ipPools a !! name = Some p → available p = ip :: rest →
  excl a1 (upd_held name (union {[ip]}) (in_use a)) → closed a1 = false →
  na_NetworkName al = name → na_IPAddress al = ip →
  b_create job al (allocationStore a) = Ok st → svc_inv (set_allocs st a1).
Proof.
  intros [He (_ & Hjobs & Hin & Huniq)] Hjob Hfresh Hp Hav He1 Hc1 Hal1 Hal2 Eb.
  assert (He' : excl (set_allocs st a1) (upd_held name (union {[ip]}) (in_use a)))
    by (by apply (excl_same a1)).
  apply (svc_inv_of _ _ He').
  assert (Hrec : ∀ j n x, record (set_allocs st a1) j n x ↔
    (j = job ∧ n = name ∧ x = ip) ∨ (j ≠ job ∧ record a j n x)).
  { intros j n x. unfold record. cbn [set_allocs allocationStore].
    setoid_rewrite (b_get_create _ _ _ _ j Eb). case_decide as Hj; [|naive_solver].
    split; [intros (al' & [= <-] & <- & <-); by left|].
    intros [(-> & -> & ->)|[? _]]; [|done]. by exists al. }
  assert (Hnot : ∀ n x, ¬ record a job n x) by (intros n x (al' & ? & _); congruence).
  assert (Hnew : ∀ j, ¬ record a j name ip).
  { intros j Hj. assert (ip ∈ in_use a name) as Hi by (apply Hin; eauto).
    specialize (He name). rewrite Hp in He. destruct He as (_ & (_ & Hx & _) & Hal & _).
    rewrite Hav in Hx. destruct (Hx ip) as [_ Hno]; [left|]. apply Hno. by rewrite Hal. }
  split; [done|]. split; [|split].
  - intros j n x [(-> & _)|[_ Hr]]%Hrec; [done|]. by eapply Hjobs.
  - intros n x. setoid_rewrite Hrec. rewrite (excl_in_use _ _ He').
    destruct (decide (n = name)) as [->|Hn].
    + rewrite upd_held_same, elem_of_union, elem_of_singleton, Hin. split.
      * intros [->|[j Hj]]; [exists job; by left|]. exists j. right. split; [|done].
        intros ->. by eapply Hnot.
      * intros [j [(_ & _ & ->)|[_ Hj]]]; [by left|right; eauto].
    + rewrite upd_held_other, Hin by done. split.
      * intros [j Hj]. exists j. right. split; [|done]. intros ->. by eapply Hnot.
      * intros [j [(_ & ? & _)|[_ Hj]]]; [done|eauto].
  - intros j1 j2 n x. rewrite !Hrec.
    intros [(-> & -> & ->)|[_ Hj1]] [(-> & E2 & E3)|[_ Hj2]]; subst; try done.
    + by apply Hnew in Hj2.
    + by apply Hnew in Hj1.
    + by eapply Huniq.
Qed.

(** What the set-up does, for a store that creates no record over another one. *)
Lemma svc_setup_gen now job name a r a' : svc_inv a →
  (is_ok r = true → creates_new job (allocationStore a)) →
  SetupNetworking now job name a = (Some r, a') →
  svc_inv a' ∧ (is_ok r = false → ∀ m, in_use a' m = in_use a m) ∧
  (∀ j, j ≠ job ∨ is_ok r = false ∨ name = "none"%string ∨ name = "isolated"%string →
     b_get j (allocationStore a') = b_get j (allocationStore a)) ∧
  (is_ok r = true → name ≠ "none"%string → name ≠ "isolated"%string → ∃ ip, record a' job name ip).
Proof.
  intros [He Hl] Hfr Hs. unfold SetupNetworking, record_job in Hs.
  case_bool_decide as H1; [injection Hs as <- <-; by split_and!|].
  case_bool_decide as H2; [injection Hs as <- <-; by split_and!|].
  destruct (AllocateIP_cases name a) as [(p & ip & rest & Hc & Hp & Hav & E)|(E1 & E2)].
  2:{ destruct (AllocateIP name a) as [[ip|e] a1]; [done|]. simpl in E2. injection Hs as <- <-. subst a1.
      by split_and!. }
  pose proof (excl_AllocateIP a _ name He) as He1. pose proof (AllocateIP_allocs name a) as (Hs1 & Hc1 & Hn1).
  destruct (release_fresh a name p ip rest He Hp Hav) as [Hr1 Hr2].
  rewrite E in Hs, He1, Hr1, Hr2, Hs1, Hc1, Hn1. cbn [fst snd] in *.
  set (a1 := set_pools _ a) in *. destruct (Nat.ltb _ 8) eqn:Elt; [done|].
  set (al := {| na_JobUUID := job |}) in Hs.
  pose proof Hl as (_ & Hjobs & Hin & Huniq).
  unfold AssignJobToNetwork in Hs. rewrite Hc1, Hc in Hs.
  assert (job ≠ ""%string) as Hjob by (intros ->; done).
  assert (name ≠ ""%string) as Hname.
  { specialize (He name). rewrite Hp in He. by destruct He. }
  rewrite !bool_decide_eq_false_2 in Hs by done.
  assert (Hnet : is_Some (Network name a1)).
  { unfold Network. rewrite Hc1, Hc, bool_decide_eq_false_2 by done. rewrite Hn1.
    specialize (He name). rewrite Hp in He. by destruct He as (_ & _ & _ & _ & ?). }
  destruct Hnet as [nc Hnet]. rewrite Hnet in Hs.
  destruct (b_create job _ (allocationStore a1)) as [st|e] eqn:Eb.
  - (* recorded *)
    injection Hs as <- <-. rewrite Hs1 in Eb. split; [|split; [done|split]].
    2:{ intros j [Hj|[?|[?|?]]]; [|done..]. cbn [set_allocs allocationStore].
        rewrite (b_get_create _ _ _ _ j Eb). by rewrite decide_False. }
    2:{ intros _ _ _. exists ip. eexists. cbn [set_allocs allocationStore].
        rewrite (b_get_create _ _ _ _ job Eb), decide_True by done. done. }
    apply (svc_recorded a a1 job name ip (assigned now job name al) st p rest); [by split|done|by eapply (Hfr eq_refl)|done..|congruence|done|done|exact Eb].
  - (* refused: the address goes back *)
    injection Hs as <- <-. destruct (ReleaseIP_allocs name ip a1) as [Ha2 Hc2].
    split; [|split; [done|split; [|done]]]; [|intros j _; congruence].
    apply (svc_inv_of _ _ Hr2).
    apply (linked_same a); [congruence|congruence|done|done].
Qed.

(** The clean-up forgets the job's record and no other. *)
Lemma cleanup_gets job a j : svc_inv a →
  b_get j (allocationStore (CleanupNetworking job a).2) =
    if decide (j = job) then None else b_get j (allocationStore a).
Proof.
  intros [He (Hc & Hjobs & Hin & _)].
  unfold CleanupNetworking, RemoveJobFromNetwork, JobNetworkAllocation_of. rewrite Hc.
  case_bool_decide as Hj.
  { subst. case_decide as E; [subst|done]. destruct (b_get "" (allocationStore a)) as [al|] eqn:E; [|done].
    exfalso. eapply (Hjobs "" (na_NetworkName al) (na_IPAddress al)); [by exists al|done]. }
  destruct (b_get job (allocationStore a)) as [al|] eqn:Eg; [|by case_decide; subst].
  destruct (ReleaseIP_allocs (na_NetworkName al) (na_IPAddress al) a) as [Hs1 Hc1].
  set (a1 := if bool_decide _ then _ else _).
  assert (allocationStore a1 = allocationStore a) as E1 by (unfold a1; by case_bool_decide).
  rewrite E1. destruct (b_delete_ok job (allocationStore a) al Eg) as [st Ed]. rewrite Ed. cbn [snd set_allocs allocationStore].
  apply (b_get_delete _ _ _ j Ed).
Qed.

Lemma svc_cleanup job a : svc_inv a → svc_inv (CleanupNetworking job a).2.
Proof.
  intros [He Hl]. pose proof Hl as (Hc & Hjobs & Hin & Huniq).
  unfold CleanupNetworking, RemoveJobFromNetwork, JobNetworkAllocation_of. rewrite Hc.
  case_bool_decide as Hj; [done|]. destruct (b_get job (allocationStore a)) as [al|] eqn:Eg; [|done].
  assert (Hrec0 : record a job (na_NetworkName al) (na_IPAddress al)) by (by exists al).
  assert (na_IPAddress al ∈ in_use a (na_NetworkName al)) as Hip by (apply Hin; eauto).
  assert (Hne : na_IPAddress al ≠ ""%string).
  { intros E. specialize (He (na_NetworkName al)). unfold in_use in He, Hip.
    destruct (ipPools a !! na_NetworkName al); [|set_solver].
    destruct He as (_ & (_ & _ & Hx) & _). rewrite E in Hip. done. }
  rewrite bool_decide_eq_false_2 by done.
  pose proof (excl_ReleaseIP a _ (na_NetworkName al) (na_IPAddress al) He) as He1.
  destruct (ReleaseIP_allocs (na_NetworkName al) (na_IPAddress al) a) as [Hs1 Hc1].
  set (a1 := (ReleaseIP _ _ a).2) in *. rewrite Hs1.
  destruct (b_delete_ok job (allocationStore a) al Eg) as [st Ed]. rewrite Ed. cbn [snd].
  assert (He2 : excl (set_allocs st a1) _) by (apply (excl_same a1); [..|exact He1]; done).
  apply (svc_inv_of _ _ He2).
  assert (Hrec : ∀ j n x, record (set_allocs st a1) j n x ↔ j ≠ job ∧ record a j n x).
  { intros j n x. unfold record. cbn [set_allocs allocationStore].
    setoid_rewrite (b_get_delete _ _ _ j Ed). case_decide; naive_solver. }
  split; [by cbn; rewrite Hc1|]. split; [|split].
  - intros j n x [_ Hr]%Hrec. by eapply Hjobs.
  - intros n x. setoid_rewrite Hrec. rewrite (excl_in_use _ _ He2).
    assert (Hother : x ∈ in_use a n ∧ ¬ (n = na_NetworkName al ∧ x = na_IPAddress al) ↔
      ∃ j, j ≠ job ∧ record a j n x).
    { rewrite Hin. split.
      - intros [[j Hj'] Hx]. exists j. split; [|done]. intros ->. apply Hx.
        destruct Hj' as (al' & E & <- & <-). rewrite Eg in E. by injection E as ->.
      - intros (j & Hjj & Hj'). split; [eauto|]. intros [-> ->]. apply Hjj. by eapply Huniq. }
    rewrite <- Hother. destruct (decide (n = na_NetworkName al)) as [->|Hn].
    + rewrite upd_held_same. set_solver.
    + rewrite upd_held_other by done. naive_solver.
  - intros j1 j2 n x [_ H1]%Hrec [_ H2]%Hrec. by eapply Huniq.
Qed.

Lemma svc_create fuel now name cidr a a' : svc_inv a → v4_cidr cidr → creates_new name (networkStore a) →
  svc_step fuel (SCreate now name cidr) a = Some a' → svc_inv a'.
Proof.
  intros [He Hl] Hv Hnew. cbn [svc_step]. unfold serve_CreateNetwork.
  destruct (IsValidNetworkName name); [|intros [= <-]; done]. cbn [negb].
  set (c := {| nc_Name := name; nc_CIDR := cidr |}).
  destruct (CreateNetwork fuel now (Some c) a) as [[r a1]|] eqn:E; [|done]. simpl.
  intros Hs. assert (a' = a1) as -> by (repeat case_match; simplify_eq/=; done). clear Hs.
  pose proof (excl_create_fresh fuel now c a _ r a1 He Hv Hnew E) as He'.
  apply (svc_inv_of _ _ He'). apply (linked_same a); [..|by apply excl_in_use|done].
  - destruct (CreateNetwork_inv _ _ _ _ _ _ E) as [->|(? & ? & nets & ? & [->|(? & p & ? & ->)])]; done.
  - destruct (CreateNetwork_inv _ _ _ _ _ _ E) as [->|(? & ? & nets & ? & [->|(? & p & ? & ->)])]; done.
Qed.

Lemma svc_reachable_inv a : svc_reachable a → svc_inv a.
Proof.
  induction 1 as [|fuel op a a' _ IH Hv Hnew Hs].
  - split; [intros m; cbn; by rewrite lookup_empty|]. split; [done|].
    unfold record, in_use. cbn. setoid_rewrite b_get_empty. split; [naive_solver|]. split; [|naive_solver].
    intros name ip. rewrite lookup_empty. set_solver.
  - destruct op as [now name cidr|name|now job name|job].
    + by eapply svc_create.
    + injection Hs as <-. by apply svc_remove.
    + cbn [svc_step] in Hs. destruct (SetupNetworking now job name a) as [[r|] a1] eqn:E; [|done].
      injection Hs as <-. by eapply svc_setup_gen.
    + injection Hs as <-. by apply svc_cleanup.
Qed.

(** C19 In every state reached by creating and removing networks and setting up and cleaning
    up jobs, calls that run one after the other and of which no creation is over an existing
    key (either the backend refuses it, or the key is new): two jobs of a network never have
    the same address, the addresses a pool counts as allocated are exactly those recorded
    for the network's jobs (none leaks), and every recorded job's network and pool still
    exist. Calls that overlap are not covered: each of them takes several mutexes one after
    the other, and a set-up during a removal leads to two jobs with one address
    ([removal_overlaps_setup]). *)
Theorem jobs_have_distinct_addresses a : svc_reachable a →
  (∀ j1 j2 name ip, record a j1 name ip → record a j2 name ip → j1 = j2) ∧
  (∀ name p, ipPools a !! name = Some p →
     ∀ ip, ip ∈ allocated p ↔ ∃ job, record a job name ip) ∧
  (∀ job name ip, record a job name ip →
     is_Some (ipPools a !! name) ∧ is_Some (b_get name (networkStore a))).
Proof.
  intros [He (Hc & _ & Hin & Huniq)]%svc_reachable_inv. split; [done|]. split.
  - intros name p Hp ip. rewrite <- Hin. unfold in_use. by rewrite Hp.
  - intros job name ip Hr. assert (ip ∈ in_use a name) as Hi by (apply Hin; eauto).
    specialize (He name). unfold in_use in Hi. destruct (ipPools a !! name); [|set_solver].
    destruct He as (_ & _ & _ & _ & ?). eauto.
Qed.

(** A set-up that fails keeps no address: whatever went wrong after the address
    was taken, the pools count as allocated what they did before. *)
Theorem SetupNetworking_no_leak now job name a e a' : svc_reachable a →
  SetupNetworking now job name a = (Some (Err e), a') →
  svc_inv a' ∧ ∀ m, in_use a' m = in_use a m.
Proof.
  intros Hr Hs. destruct (svc_setup_gen now job name a (Err e) a') as (Hi & Hu & _);
    [by apply svc_reachable_inv|done|done|]. auto.
Qed.
End services.

(** ** Concrete runs *)

(** A reader that knows no IPv6 text. *)
#[export] Instance NoIPv6 : IPv6Text := {|
  parseIPv6 _ := None; stringIPv6 _ := "::"; parseIPv6_length _ _ H := ltac:(discriminate H) |}.

Abbreviation simple_adapter := (adapter (gmap string NetworkConfig) (gmap string JobNetworkAllocation)).
Abbreviation checked_adapter :=
  (adapter (checked_store NetworkConfig) (checked_store JobNetworkAllocation)).

Definition run_svc {NS AS} `{!Backend NS NetworkConfig} `{!Backend AS JobNetworkAllocation}
    (ops : list svc_op) (a : adapter NS AS) : option (adapter NS AS) :=
  foldl (λ oa op, a ← oa; svc_step 16 op a) (Some a) ops.

Definition twice : list svc_op := [
  SCreate 1 "lan" "10.0.0.0/29"; SSetup 2 "job-aaaa" "lan";
  SCreate 3 "lan" "10.0.0.0/29"; SSetup 4 "job-bbbb" "lan"].

Definition address_of {NS AS} `{!Backend AS JobNetworkAllocation} (job : string) (a : adapter NS AS)
    : option string := na_IPAddress <$> b_get job (allocationStore a).

(** Over the in-memory stores the program runs with, [Create] accepts an existing
    key: creating a network a second time succeeds and replaces its pool, and two
    jobs of the network are then given the same address. *)
Theorem recreate_duplicates_address :
  ∃ a : simple_adapter, run_svc twice NewNetworkStoreAdapter = Some a ∧
    address_of "job-aaaa" a = Some "10.0.0.1"%string ∧
    address_of "job-bbbb" a = Some "10.0.0.1"%string.
Proof. eexists. split; [vm_compute; reflexivity|]. split; vm_compute; reflexivity. Qed.

(** Calls that overlap.  A removal finds no job in the network; a set-up then takes an address; the
    removal goes on and the network is created anew; the set-up records its address, and the
    next job of the network gets the same one. *)
Example removal_overlaps_setup : ∃ (a0 a1 a2 a3 a4 : simple_adapter) ip,
  run_svc [SCreate 1 "lan" "10.0.0.0/29"] NewNetworkStoreAdapter = Some a0 ∧ removable "lan" a0 = Ok tt ∧
  AllocateIP "lan" a0 = (Ok ip, a1) ∧ take_away "lan" a1 = (Ok tt, a2) ∧ run_svc [SCreate 3 "lan" "10.0.0.0/29"] a2 = Some a3 ∧
  (record_job 2 "job-aaaa" "lan" ip a3).2 = a4 ∧ (address_of "job-aaaa" <$> run_svc [SSetup 4 "job-bbbb" "lan"] a4) = Some (Some ip) ∧
  (address_of "job-bbbb" <$> run_svc [SSetup 4 "job-bbbb" "lan"] a4) = Some (Some ip).
Proof.
  eexists _, _, _, _, _, _. split; [vm_compute; reflexivity|]. split; [vm_compute; reflexivity|]. split; [vm_compute; reflexivity|].
  split; [vm_compute; reflexivity|]. split; [vm_compute; reflexivity|]. split; [vm_compute; reflexivity|]. split; vm_compute; reflexivity.
Qed.

Lemma cidr_example : "10.0.0.0/29"%string = cidr_text [10; 0; 0; 0] 29.
Proof. vm_compute. reflexivity. Qed.

Lemma v4_example : v4_cidr "10.0.0.0/29".
Proof.
  right. exists [10; 0; 0; 0], 29%nat. split_and!; [done|by apply (bool_decide_unpack _)|lia|].
  vm_compute. reflexivity.
Qed.

Definition lan : checked_adapter :=
  from_option id NewNetworkStoreAdapter (run_svc twice NewNetworkStoreAdapter).

Lemma run_svc_reachable ops (a a' : checked_adapter) : svc_reachable a → Forall op_v4 ops →
  run_svc ops a = Some a' → svc_reachable a'.
Proof.
  intros Ha Hops. revert a Ha. unfold run_svc. induction Hops as [|op ops Hop _ IH]; intros a Ha Hr.
  { injection Hr as <-. done. }
  cbn [foldl mbind option_bind] in Hr. destruct (svc_step 16 op a) as [a1|] eqn:E.
  - apply (IH a1); [eapply sr_step; [done|done| |done]; destruct op; try done; apply checked_creates_new|done].
  - exfalso. clear -Hr. induction ops; [done|auto].
Qed.

Lemma lan_reachable : svc_reachable lan.
Proof.
  apply (run_svc_reachable twice NewNetworkStoreAdapter); [apply sr_init| |vm_compute; reflexivity].
  do 4 (constructor; [try done; apply v4_example|]). constructor.
Qed.

Lemma initializeIPPool_hosts_witness :
  match initializeIPPool 8 "10.0.0.0/29" with
  | Some (Ok p) => available p = ["10.0.0.1"; "10.0.0.2"; "10.0.0.3"; "10.0.0.4"; "10.0.0.5"; "10.0.0.6"]%string
  | _ => False
  end ∧
  NoDup (hosts [10; 0; 0; 0] 29).
Proof.
  split; [vm_compute; reflexivity|].
  refine (proj1 (proj2 (initializeIPPool_hosts [10; 0; 0; 0] 29 8 _ _ _ _)));
    [done|by apply (bool_decide_unpack _)|lia|vm_compute; lia].
Defined.

Lemma zero_prefix_never_returns_witness :
  cidr_text [0; 0; 0; 0] 0 = "0.0.0.0/0"%string ∧
  serve_CreateNetwork 100 1 "lan" (cidr_text [0; 0; 0; 0] 0) (NewNetworkStoreAdapter : simple_adapter) = None.
Proof.
  split; [vm_compute; reflexivity|].
  apply (zero_prefix_never_returns [0; 0; 0; 0] "lan" 1 100);
    [done|by apply (bool_decide_unpack _)|vm_compute; reflexivity|done].
Defined.

Definition lan_config : NetworkConfig := {|
  nc_Name := "lan"; nc_Type := "bridge"; nc_CIDR := "10.0.0.0/29"; nc_BridgeName := "";
  nc_Gateway := ""; nc_DNS := []; nc_Metadata := ∅; nc_CreatedAt := 0; nc_UpdatedAt := 0 |}.

Definition lan0 : checked_adapter :=
  match CreateNetwork 16 1 (Some lan_config) NewNetworkStoreAdapter with
  | Some (_, a) => a | None => NewNetworkStoreAdapter end.

Lemma AllocateIP_exclusive_witness :
  (AllocateIP "lan" lan0).1 = Ok "10.0.0.1"%string ∧ "10.0.0.1"%string ∉ (∅ : gset string).
Proof.
  split; [vm_compute; reflexivity|].
  refine (proj1 (AllocateIP_exclusive lan0 (λ _, ∅) "lan" "10.0.0.1" (AllocateIP "lan" lan0).2 _ _)).
  - apply (nr_step 16 (NCreate 1 lan_config) NewNetworkStoreAdapter (λ _, ∅));
      [apply nr_init|apply v4_example|]. reflexivity.
  - vm_compute. reflexivity.
Defined.

Lemma jobs_have_distinct_addresses_witness :
  address_of "job-aaaa" lan = Some "10.0.0.1"%string ∧
  address_of "job-bbbb" lan = Some "10.0.0.2"%string ∧
  (∀ j1 j2 name ip, record lan j1 name ip → record lan j2 name ip → j1 = j2).
Proof.
  split; [vm_compute; reflexivity|]. split; [vm_compute; reflexivity|].
  apply (jobs_have_distinct_addresses lan). apply lan_reachable.
Defined.

Lemma SetupNetworking_no_leak_witness :
  let r := SetupNetworking 9 "job-aaaa" "lan" lan in
  r.1 = Some (Err (AlreadyAssigned "job-aaaa")) ∧
    svc_inv r.2 ∧ ∀ m, in_use r.2 m = in_use lan m.
Proof.
  split; [vm_compute; reflexivity|].
  apply (SetupNetworking_no_leak 9 "job-aaaa" "lan" lan (AlreadyAssigned "job-aaaa"));
    [apply lan_reachable|vm_compute; reflexivity].
Defined.
