(* ===== verification/VolumeStore.v ===== *)
(** * Volumes and their usage counts
    (internal/joblet/domain/volume.go, adapters/volume_store_adapter.go,
    core/volume/manager.go)

    The volume adapter over any backend, and the manager's reservation of
    volumes for a job; what the manager's [Stat] finds is an argument.  The storage
    of volumes on the host is in VolumeStorage.v. *)

From S2P Require Import Prelude GoStrings Values Paths Job KeyStore.
From Stdlib Require Import Ascii.

Local Open Scope Z_scope.

(** ** The volume *)

(** [src/internal/joblet/domain/volume.go:12-17 VolumeType] *)
Definition VolumeTypeFilesystem : string := "filesystem".
Definition VolumeTypeMemory : string := "memory".

(** [src/internal/joblet/domain/volume.go Volume] *)
Record Volume := {
  v_Name : string;
  v_Type : string;
  v_Size : string;
  v_SizeBytes : Z;
  v_Path : string;
  v_CreatedTime : Z;
  v_JobCount : Z;
}.

(** Go ranges over the runes of the name; a byte outside ASCII never yields an
    accepted one.
    [src/internal/joblet/domain/volume.go IsValidVolumeName] *)
Definition IsValidVolumeName (name : string) : bool :=
  let l := bytes name in
  if (len name =? 0) || (len name >? 63) then false
  else if negb (forallb (λ c, is_alnum c || bool_decide (c = "-"%char) || bool_decide (c = "_"%char)) l)
  then false
  else match l, last l with
       | first :: _, Some last => is_alnum first && is_alnum last
       | _, _ => false
       end.

(** [src/internal/joblet/domain/volume.go Volume.IsInUse] *)
Definition IsInUse (v : Volume) : bool := v_JobCount v >? 0.

(** [src/internal/joblet/domain/volume.go Volume.MountPath] *)
Definition MountPath (v : Volume) : string := "/volumes/" +:+ v_Name v.

(** [src/internal/joblet/domain/volume.go Volume.DeepCopy] *)
Definition Volume_DeepCopy (v : Volume) : Volume := {|
  v_Name := v_Name v; v_Type := v_Type v; v_Size := v_Size v; v_SizeBytes := v_SizeBytes v;
  v_Path := v_Path v; v_CreatedTime := v_CreatedTime v; v_JobCount := v_JobCount v |}.

Definition with_count (n : Z) (v : Volume) : Volume := {|
  v_Name := v_Name v; v_Type := v_Type v; v_Size := v_Size v; v_SizeBytes := v_SizeBytes v;
  v_Path := v_Path v; v_CreatedTime := v_CreatedTime v; v_JobCount := n |}.

(** [src/internal/joblet/domain/volume.go Volume.IncrementJobCount] *)
Definition Volume_IncrementJobCount (v : Volume) : Volume := with_count (wrap32 (v_JobCount v + 1)) v.

(** [src/internal/joblet/domain/volume.go Volume.DecrementJobCount] *)
Definition Volume_DecrementJobCount (v : Volume) : Volume :=
  if v_JobCount v >? 0 then with_count (v_JobCount v - 1) v else v.

(** The transport form: name, type, size, bytes, path, job count, mount path, in use.
    [src/internal/joblet/domain/volume.go Volume.ToDTO] *)
Definition ToDTO (v : Volume) : string * string * string * Z * string * Z * string * bool :=
  (v_Name v, v_Type v, v_Size v, v_SizeBytes v, v_Path v, v_JobCount v, MountPath v, IsInUse v).

(** ** The adapter *)

Inductive vol_error :=
| VolClosed | VolNil | VolNameEmpty | VolTypeEmpty | VolBadType (t : string) | VolBadSize
| VolNoPath | VolExists (n : string) | ErrVolumeInUse (n : Z) | ErrVolumeNotFound (n : string)
| VolNameInvalid (n : string) | VolStorageMissing (n : string) | VolAttach (n : string) (e : vol_error)
| VolStoreError (e : store_err).

(** [src/internal/joblet/adapters/volume_store_adapter.go volumeStoreAdapter.validateVolume] *)
Definition validateVolume (v : Volume) : result vol_error unit :=
  if bool_decide (v_Name v = ""%string) then Err VolNameEmpty
  else if bool_decide (v_Type v = ""%string) then Err VolTypeEmpty
  else if negb (bool_decide (v_Type v = VolumeTypeFilesystem)) &&
          negb (bool_decide (v_Type v = VolumeTypeMemory)) then Err (VolBadType (v_Type v))
  else if v_SizeBytes v <=? 0 then Err VolBadSize
  else if bool_decide (v_Type v = VolumeTypeFilesystem) && bool_decide (v_Path v = ""%string)
  then Err VolNoPath
  else Ok tt.

Section adapter.
Context {VS : Type} `{!Backend VS Volume}.

(** [src/internal/joblet/adapters/volume_store_adapter.go volumeStoreAdapter] *)
Record vol_adapter := { volumeStore : VS; jobCounts : gmap string Z; vol_closed : bool }.

(** [src/internal/joblet/adapters/volume_store_adapter.go:42-55 NewVolumeStoreAdapter] *)
Definition NewVolumeStoreAdapter : vol_adapter :=
  {| volumeStore := b_empty; jobCounts := ∅; vol_closed := false |}.

Definition set_counts (c : gmap string Z) (a : vol_adapter) : vol_adapter :=
  {| volumeStore := volumeStore a; jobCounts := c; vol_closed := vol_closed a |}.

(** A missing key of the count map reads as zero. *)
Definition count_of (name : string) (a : vol_adapter) : Z := default 0 (jobCounts a !! name).

(** [src/internal/joblet/adapters/volume_store_adapter.go volumeStoreAdapter.CreateVolume] *)
Definition CreateVolume (now : Z) (volume : option Volume) (a : vol_adapter)
    : result vol_error unit * vol_adapter :=
  if vol_closed a then (Err VolClosed, a) else
  match volume with
  | None => (Err VolNil, a)
  | Some v =>
      if bool_decide (v_Name v = ""%string) then (Err VolNameEmpty, a) else
      match validateVolume v with
      | Err e => (Err e, a)
      | Ok _ =>
          let v := {| v_Name := v_Name v; v_Type := v_Type v; v_Size := v_Size v;
                      v_SizeBytes := v_SizeBytes v; v_Path := v_Path v; v_CreatedTime := now;
                      v_JobCount := v_JobCount v |} in
          match b_create (v_Name v) v (volumeStore a) with
          | Err e => (Err (if IsConflictError e then VolExists (v_Name v) else VolStoreError e), a)
          | Ok s => (Ok tt, {| volumeStore := s; jobCounts := <[v_Name v := 0]> (jobCounts a);
                               vol_closed := vol_closed a |})
          end
      end
  end.

(** [src/internal/joblet/adapters/volume_store_adapter.go volumeStoreAdapter.GetVolume] *)
Definition GetVolume (name : string) (a : vol_adapter) : option Volume :=
  if vol_closed a then None
  else if bool_decide (name = ""%string) then None
  else Volume_DeepCopy <$> b_get name (volumeStore a).

(** [src/internal/joblet/adapters/volume_store_adapter.go volumeStoreAdapter.ListVolumes] *)
Definition ListVolumes (a : vol_adapter) : list Volume :=
  if vol_closed a then [] else Volume_DeepCopy <$> b_list (volumeStore a).

(** [src/internal/joblet/adapters/volume_store_adapter.go volumeStoreAdapter.RemoveVolume] *)
Definition RemoveVolume (name : string) (a : vol_adapter) : result vol_error unit * vol_adapter :=
  if vol_closed a then (Err VolClosed, a)
  else if bool_decide (name = ""%string) then (Err VolNameEmpty, a)
  else if count_of name a >? 0 then (Err (ErrVolumeInUse (count_of name a)), a)
  else match b_get name (volumeStore a) with
  | None => (Err (ErrVolumeNotFound name), a)
  | Some _ =>
      match b_delete name (volumeStore a) with
      | Err KeyNotFound => (Err (ErrVolumeNotFound name), a)
      | Err e => (Err (VolStoreError e), a)
      | Ok s => (Ok tt, {| volumeStore := s; jobCounts := delete name (jobCounts a);
                           vol_closed := vol_closed a |})
      end
  end.

(** [src/internal/joblet/adapters/volume_store_adapter.go volumeStoreAdapter.IncrementJobCount] *)
Definition IncrementJobCount (name : string) (a : vol_adapter) : result vol_error unit * vol_adapter :=
  if vol_closed a then (Err VolClosed, a)
  else if bool_decide (name = ""%string) then (Err VolNameEmpty, a)
  else match GetVolume name a with
  | None => (Err (ErrVolumeNotFound name), a)
  | Some _ => (Ok tt, set_counts (<[name := count_of name a + 1]> (jobCounts a)) a)
  end.

(** [src/internal/joblet/adapters/volume_store_adapter.go volumeStoreAdapter.DecrementJobCount] *)
Definition DecrementJobCount (name : string) (a : vol_adapter) : result vol_error unit * vol_adapter :=
  if vol_closed a then (Err VolClosed, a)
  else if bool_decide (name = ""%string) then (Err VolNameEmpty, a)
  else match jobCounts a !! name with
  | None => (Err (ErrVolumeNotFound name), a)
  | Some count =>
      if count <=? 0 then (Ok tt, a)
      else (Ok tt, set_counts (<[name := count - 1]> (jobCounts a)) a)
  end.

(** [src/internal/joblet/adapters/volume_store_adapter.go volumeStoreAdapter.Close] *)
Definition Close (a : vol_adapter) : vol_adapter :=
  if vol_closed a then a
  else {| volumeStore := b_close (volumeStore a); jobCounts := ∅; vol_closed := true |}.

(** ** The manager *)

(** The roll-back loop: the names before the first occurrence of the failed one.
    [src/internal/joblet/core/volume/manager.go:136-138 Manager.AttachVolumeToJob] *)
Fixpoint rollback (failed : string) (names : list string) (a : vol_adapter) : vol_adapter :=
  match names with
  | [] => a
  | n :: names =>
      if bool_decide (n = failed) then a else rollback failed names (DecrementJobCount n a).2
  end.

(** [all]: the names of the call, [names]: those the loop has still to visit.
    [src/internal/joblet/core/volume/manager.go:133-141 Manager.AttachVolumeToJob] *)
Fixpoint attach_loop (all names : list string) (a : vol_adapter)
    : result vol_error unit * vol_adapter :=
  match names with
  | [] => (Ok tt, a)
  | n :: names =>
      match IncrementJobCount n a with
      | (Err e, a) => (Err (VolAttach n e), rollback n all a)
      | (Ok _, a) => attach_loop all names a
      end
  end.

(** [src/internal/joblet/core/volume/manager.go Manager.AttachVolumeToJob] *)
Definition AttachVolumeToJob (names : list string) (a : vol_adapter)
    : result vol_error unit * vol_adapter := attach_loop names names a.

(** [src/internal/joblet/core/volume/manager.go Manager.DetachVolumeFromJob] *)
Definition DetachVolumeFromJob (names : list string) (a : vol_adapter) : vol_adapter :=
  foldl (λ a n, (DecrementJobCount n a).2) a names.

(** [exists_dir] is what [Stat] finds.
    [src/internal/joblet/core/volume/manager.go Manager.ValidateVolumes] *)
Fixpoint ValidateVolumes (exists_dir : string → bool) (names : list string) (a : vol_adapter)
    : result vol_error unit :=
  match names with
  | [] => Ok tt
  | n :: names =>
      if negb (IsValidVolumeName n) then Err (VolNameInvalid n)
      else match GetVolume n a with
           | None => Err (ErrVolumeNotFound n)
           | Some v => if negb (exists_dir (Join_path [v_Path v; "data"%string]))
                       then Err (VolStorageMissing n) else ValidateVolumes exists_dir names a
           end
  end.
End adapter.
Arguments vol_adapter : clear implicits.

(** ** Reservations *)

Section reservations.
Context {VS : Type} `{!Backend VS Volume} `{!LawfulBackend VS Volume}.
Implicit Types (a : vol_adapter VS) (n : string) (names : list string).

(** Counts are never negative, and the volumes with a count are the stored ones. *)
Definition vol_ok a : Prop :=
  (∀ n c, jobCounts a !! n = Some c → 0 ≤ c) ∧
  (vol_closed a = false → ∀ n, is_Some (jobCounts a !! n) ↔ is_Some (b_get n (volumeStore a))) ∧
  (∀ n, is_Some (jobCounts a !! n) → n ≠ ""%string).

Definition bump (z : Z) n a : vol_adapter VS := set_counts (alter (Z.add z) n (jobCounts a)) a.
Definition bumps names a : vol_adapter VS := foldl (λ a n, bump 1 n a) a names.

Lemma bump_comm x n y m a : bump x n (bump y m a) = bump y m (bump x n a).
Proof.
  unfold bump, set_counts. cbn. f_equal. destruct (decide (n = m)) as [->|Hne].
  - apply map_eq. intros k. destruct (decide (k = m)) as [->|Hk].
    + rewrite !lookup_alter_eq. destruct (jobCounts a !! m); simpl; [f_equal; lia|done].
    + by rewrite !lookup_alter_ne.
  - by apply alter_alter_ne.
Qed.

Lemma bump_inv n a : bump (-1) n (bump 1 n a) = a.
Proof.
  unfold bump, set_counts. destruct a as [s c cl]. cbn. f_equal. apply map_eq. intros k.
  destruct (decide (k = n)) as [->|Hk].
  - rewrite !lookup_alter_eq. destruct (c !! n); simpl; [f_equal; lia|done].
  - by rewrite !lookup_alter_ne.
Qed.

Lemma bump_lookup z n a k : jobCounts (bump z n a) !! k =
  if decide (k = n) then Z.add z <$> jobCounts a !! k else jobCounts a !! k.
Proof.
  unfold bump. cbn. case_decide as H; [subst; apply lookup_alter_eq|by apply lookup_alter_ne].
Qed.

Lemma bump_1_ok n a : vol_ok a → vol_ok (bump 1 n a).
Proof.
  intros (Hp & Hd & Hn). split_and!.
  - intros k c. rewrite bump_lookup. case_decide; [|apply Hp].
    destruct (jobCounts a !! k) eqn:E; simpl; [|done]. intros [= <-]. pose proof (Hp _ _ E). lia.
  - intros Hc k. rewrite bump_lookup. change (volumeStore (bump 1 n a)) with (volumeStore a).
    rewrite <- (Hd Hc k). case_decide; [|done]. by rewrite fmap_is_Some.
  - intros k. rewrite bump_lookup. case_decide; [rewrite fmap_is_Some|]; apply Hn.
Qed.

Lemma bumps_ok names a : vol_ok a → vol_ok (bumps names a).
Proof. revert a. induction names as [|n names IH]; intros a Ha; [done|]. by apply IH, bump_1_ok. Qed.

Lemma bumps_bump names n z a : bumps names (bump z n a) = bump z n (bumps names a).
Proof.
  revert a. unfold bumps. induction names as [|m names IH]; intros a; [done|]. simpl.
  by rewrite bump_comm, IH.
Qed.

Lemma bumps_app l1 l2 a : bumps (l1 ++ l2) a = bumps l2 (bumps l1 a).
Proof. apply foldl_app. Qed.

Lemma bumps_closed names a : vol_closed (bumps names a) = vol_closed a.
Proof. revert a. induction names as [|m l IH]; intros a; [done|]. by etrans; [apply (IH (bump 1 m a))|]. Qed.

(** Counting does not change which volumes have a count, and keeps the others'. *)
Lemma bumps_some names a k : is_Some (jobCounts (bumps names a) !! k) ↔ is_Some (jobCounts a !! k).
Proof.
  revert a. induction names as [|m l IH]; intros a; [done|].
  change (bumps (m :: l) a) with (bumps l (bump 1 m a)).
  rewrite IH, bump_lookup. case_decide; [by rewrite fmap_is_Some|done].
Qed.

Lemma IncrementJobCount_ok n a : vol_ok a → vol_closed a = false → is_Some (jobCounts a !! n) →
  IncrementJobCount n a = (Ok tt, bump 1 n a).
Proof.
  intros (_ & Hd & Hn) Hc Hs. unfold IncrementJobCount, GetVolume. rewrite Hc.
  rewrite !bool_decide_eq_false_2 by auto. pose proof (proj1 (Hd Hc n) Hs) as [v ->]. simpl.
  unfold bump, count_of. destruct Hs as [c Hs]. rewrite Hs. simpl. do 3 f_equal.
  apply map_eq. intros k. destruct (decide (k = n)) as [->|Hk].
  - rewrite lookup_insert_eq, lookup_alter_eq, Hs. simpl. f_equal. lia.
  - by rewrite lookup_insert_ne, lookup_alter_ne.
Qed.

Lemma IncrementJobCount_missing n a : vol_ok a → vol_closed a = false → jobCounts a !! n = None →
  ∃ e, IncrementJobCount n a = (Err e, a).
Proof.
  intros (_ & Hd & _) Hc Hs. unfold IncrementJobCount, GetVolume. rewrite Hc.
  case_bool_decide; [by eexists|].
  destruct (b_get n (volumeStore a)) eqn:E; [|by eexists].
  assert (is_Some (jobCounts a !! n)) as [? ?] by (apply Hd; eauto). congruence.
Qed.

Lemma DecrementJobCount_bump n a : vol_ok a → vol_closed a = false → is_Some (jobCounts a !! n) →
  (DecrementJobCount n (bump 1 n a)).2 = a.
Proof.
  intros (Hp & Hd & Hn) Hc [c Hs]. unfold DecrementJobCount.
  change (vol_closed (bump 1 n a)) with (vol_closed a). rewrite Hc.
  rewrite bool_decide_eq_false_2 by (apply Hn; eauto).
  rewrite bump_lookup, decide_True, Hs by done. simpl. pose proof (Hp _ _ Hs).
  replace (1 + c <=? 0) with false by (symmetry; apply Z.leb_gt; lia). cbn [snd].
  destruct a as [s cs cl]. unfold bump, set_counts. cbn in *. f_equal. apply map_eq. intros k.
  destruct (decide (k = n)) as [->|Hk].
  - rewrite lookup_insert_eq, Hs. f_equal. lia.
  - by rewrite lookup_insert_ne, lookup_alter_ne.
Qed.

Lemma detach_bumps names a : vol_ok a → vol_closed a = false →
  (∀ n, n ∈ names → is_Some (jobCounts a !! n)) → DetachVolumeFromJob names (bumps names a) = a.
Proof.
  intros Ha Hc. revert a Ha Hc. induction names as [|n names IH]; intros a Ha Hc Hin; [done|].
  unfold DetachVolumeFromJob. cbn [foldl].
  change (bumps (n :: names) a) with (bumps names (bump 1 n a)). rewrite bumps_bump.
  rewrite DecrementJobCount_bump;
    [|by apply bumps_ok|by rewrite bumps_closed|by rewrite bumps_some; apply Hin; left].
  apply IH; [done..|]. intros m Hm. apply Hin. by right.
Qed.

Lemma rollback_prefix f done rest a : f ∉ done →
  rollback f (done ++ f :: rest) a = DetachVolumeFromJob done a.
Proof.
  revert a. induction done as [|n done IH]; intros a Hf; cbn [app rollback].
  - by rewrite bool_decide_eq_true_2.
  - apply not_elem_of_cons in Hf as [Hne Hf]. rewrite bool_decide_eq_false_2 by done. by apply IH.
Qed.

Lemma attach_loop_spec done names a : vol_ok a → vol_closed a = false →
  (∀ n, n ∈ done → is_Some (jobCounts a !! n)) →
  (∃ e, attach_loop (done ++ names) names (bumps done a) = (Err e, a)) ∨
  ((∀ n, n ∈ names → is_Some (jobCounts a !! n)) ∧
   attach_loop (done ++ names) names (bumps done a) = (Ok tt, bumps (done ++ names) a)).
Proof.
  intros Ha Hc. revert done. induction names as [|n names IH]; intros done Hin; cbn [attach_loop].
  { right. rewrite app_nil_r. split; [|done]. intros n Hn. by apply elem_of_nil in Hn. }
  assert (Hbc : vol_closed (bumps done a) = false) by (by rewrite bumps_closed).
  pose proof (bumps_some done a) as Hbs.
  destruct (jobCounts a !! n) as [c|] eqn:En.
  - rewrite IncrementJobCount_ok; [|by apply bumps_ok|done|rewrite Hbs; eauto].
    rewrite <- bumps_bump. change (n :: names) with ([n] ++ names). rewrite app_assoc.
    rewrite bumps_bump. assert (bump 1 n (bumps done a) = bumps (done ++ [n]) a) as ->
      by (rewrite bumps_app; done).
    destruct (IH (done ++ [n])) as [[e ->]|[Hall ->]].
    + intros m [Hm| ->%list_elem_of_singleton]%elem_of_app; [by apply Hin|eauto].
    + left. eauto.
    + right. split; [|done]. intros m [->|Hm]%elem_of_cons; [eauto|by apply Hall].
  - left. destruct (IncrementJobCount_missing n (bumps done a)) as [e ->];
      [by apply bumps_ok|done| |].
    { destruct (jobCounts (bumps done a) !! n) eqn:E; [|done].
      assert (is_Some (jobCounts a !! n)) as [? ?] by (apply Hbs; eauto). congruence. }
    exists (VolAttach n e). f_equal. rewrite rollback_prefix.
    + by apply detach_bumps.
    + intros Hn. destruct (Hin n Hn). congruence.
Qed.

(** Reserving volumes for a job is all or nothing: if one of them is missing the
    counts are exactly what they were; otherwise every volume's count grows by
    the times it is listed, none of them can be removed, and releasing the
    reservation restores the counts. *)
Theorem AttachVolumeToJob_all_or_nothing names a : vol_ok a → vol_closed a = false →
  (∃ e, AttachVolumeToJob names a = (Err e, a)) ∨
  (AttachVolumeToJob names a = (Ok tt, bumps names a) ∧
   DetachVolumeFromJob names (bumps names a) = a ∧
   ∀ n, n ∈ names → ∃ c, 0 < c ∧ RemoveVolume n (bumps names a) = (Err (ErrVolumeInUse c), bumps names a)).
Proof.
  intros Ha Hc. unfold AttachVolumeToJob.
  destruct (attach_loop_spec [] names a Ha Hc) as [He|[Hall Hok]]; [set_solver|by left|right].
  split; [done|]. split; [by apply detach_bumps|]. intros n Hn.
  assert (Hcl : vol_closed (bumps names a) = false) by (by rewrite bumps_closed).
  apply list_elem_of_split in Hn as (l1 & l2 & ->).
  assert (Hb : bumps (l1 ++ n :: l2) a = bump 1 n (bumps (l1 ++ l2) a)).
  { rewrite !bumps_app. change (bumps (n :: l2) ?x) with (bumps l2 (bump 1 n x)). apply bumps_bump. }
  destruct (Hall n) as [c Hs]; [set_solver|].
  assert (is_Some (jobCounts (bumps (l1 ++ n :: l2) a) !! n)) as [c' Hc'].
  { apply bumps_some. eauto. }
  assert (0 < c') as Hpos.
  { rewrite Hb, bump_lookup, decide_True in Hc' by done.
    destruct (jobCounts (bumps (l1 ++ l2) a) !! n) as [c0|] eqn:E0; [|done]. injection Hc' as <-.
    destruct (bumps_ok (l1 ++ l2) a Ha) as (Hp & _). pose proof (Hp _ _ E0). lia. }
  exists c'. split; [done|]. unfold RemoveVolume. rewrite Hcl.
  destruct Ha as (_ & _ & Hne). rewrite bool_decide_eq_false_2 by (apply Hne; eauto).
  unfold count_of. rewrite Hc'. cbn [default from_option id].
  by rewrite (proj2 (Z.gtb_lt c' 0)).
Qed.
End reservations.

(** ** Runs *)

Inductive vol_op :=
| VCreate (now : Z) (v : Volume)
| VRemove (name : string)
| VAttach (names : list string)
| VDetach (names : list string)
| VClose.

Section runs.
Context {VS : Type} `{!Backend VS Volume} `{!LawfulBackend VS Volume}.
Implicit Types (a : vol_adapter VS).

Definition vol_step (op : vol_op) a : vol_adapter VS :=
  match op with
  | VCreate now v => (CreateVolume now (Some v) a).2
  | VRemove name => (RemoveVolume name a).2
  | VAttach names => (AttachVolumeToJob names a).2
  | VDetach names => DetachVolumeFromJob names a
  | VClose => Close a
  end.

(** New volumes are made with a job count of zero ([NewVolume]). *)
Inductive vol_reachable : vol_adapter VS → Prop :=
| vr_init : vol_reachable NewVolumeStoreAdapter
| vr_step op a : vol_reachable a → (∀ now v, op = VCreate now v → v_JobCount v = 0) →
    vol_reachable (vol_step op a).

(** No stored volume has a job count of its own. *)
Definition vol_inv a : Prop :=
  vol_ok a ∧ ∀ n v, b_get n (volumeStore a) = Some v → v_JobCount v = 0.

Lemma DecrementJobCount_inv n a : vol_inv a → vol_inv (DecrementJobCount n a).2.
Proof.
  intros Hi. pose proof Hi as [(Hp & Hd & Hn) Hz]. unfold DecrementJobCount.
  destruct (vol_closed a) eqn:Hc; [exact Hi|]. case_bool_decide; [exact Hi|].
  destruct (jobCounts a !! n) as [c|] eqn:E; [|exact Hi].
  destruct (c <=? 0) eqn:Ec; [exact Hi|]. to_prop.
  assert (Hs : ∀ k, is_Some (<[n:=c - 1]> (jobCounts a) !! k) ↔ is_Some (jobCounts a !! k)).
  { intros k. destruct (decide (k = n)) as [->|Hk]; [rewrite lookup_insert_eq, E; by split; eexists|].
    by rewrite lookup_insert_ne. }
  split; [|done]. split_and!; cbn.
  - intros k d. destruct (decide (k = n)) as [->|Hk].
    + rewrite lookup_insert_eq. intros [= <-]. lia.
    + rewrite lookup_insert_ne by done. apply Hp.
  - intros _ k. rewrite Hs. by apply Hd.
  - intros k. rewrite Hs. apply Hn.
Qed.

Lemma bumps_inv names a : vol_inv a → vol_inv (bumps names a).
Proof.
  intros [Ho Hz]. split; [by apply bumps_ok|].
  assert (volumeStore (bumps names a) = volumeStore a) as ->; [|done].
  clear. revert a. induction names as [|m l IH]; intros a; [done|]. exact (IH (bump 1 m a)).
Qed.

Lemma Attach_inv names a : vol_inv a → vol_inv (AttachVolumeToJob names a).2.
Proof.
  intros Hi. destruct (vol_closed a) eqn:Hc.
  - unfold AttachVolumeToJob. destruct names as [|n names]; [done|]. cbn [attach_loop].
    unfold IncrementJobCount. rewrite Hc. cbn. by rewrite bool_decide_eq_true_2.
  - destruct (attach_loop_spec [] names a (proj1 Hi) Hc) as [[e He]|[_ Ho]]; [set_solver| |];
      unfold AttachVolumeToJob.
    + change (attach_loop names names a) with (attach_loop ([] ++ names) names (bumps [] a)). by rewrite He.
    + change (attach_loop names names a) with (attach_loop ([] ++ names) names (bumps [] a)).
      rewrite Ho. by apply bumps_inv.
Qed.

Lemma Create_inv now v a : vol_inv a → v_JobCount v = 0 → vol_inv (CreateVolume now (Some v) a).2.
Proof.
  intros Hi Hv. pose proof Hi as [(Hp & Hd & Hn) Hz]. unfold CreateVolume.
  destruct (vol_closed a) eqn:Hc; [exact Hi|].
  case_bool_decide as Hne; [exact Hi|].
  destruct (validateVolume v); [|exact Hi]. cbn [v_Name].
  destruct (b_create _ _ _) as [s|e] eqn:E; [|exact Hi]. cbn [snd].
  split; [split_and!|]; cbn.
  - intros k c. destruct (decide (k = v_Name v)) as [->|Hk].
    + rewrite lookup_insert_eq. by intros [= <-].
    + rewrite lookup_insert_ne by done. apply Hp.
  - intros _ k. rewrite (b_get_create _ _ _ _ k E). destruct (decide (k = v_Name v)) as [->|Hk].
    + rewrite lookup_insert_eq. by split; eexists.
    + rewrite lookup_insert_ne by done. by apply Hd.
  - intros k. destruct (decide (k = v_Name v)) as [->|Hk]; [done|].
    rewrite lookup_insert_ne by done. apply Hn.
  - intros k w. rewrite (b_get_create _ _ _ _ k E). case_decide; [by intros [= <-]|apply Hz].
Qed.

Lemma Remove_inv n a : vol_inv a → vol_inv (RemoveVolume n a).2.
Proof.
  intros Hi. pose proof Hi as [(Hp & Hd & Hn) Hz]. unfold RemoveVolume.
  destruct (vol_closed a) eqn:Hc; [exact Hi|]. case_bool_decide; [exact Hi|].
  destruct (_ >? 0); [exact Hi|]. destruct (b_get n (volumeStore a)); [|exact Hi].
  destruct (b_delete n (volumeStore a)) as [s|[| |]] eqn:E; try exact Hi. cbn [snd].
  split; [split_and!|]; cbn.
  - intros k c [_ ?]%lookup_delete_Some. by eapply Hp.
  - intros _ k. rewrite (b_get_delete _ _ _ k E). destruct (decide (k = n)) as [->|Hk].
    + rewrite lookup_delete_eq. split; intros [? ?]; done.
    + rewrite lookup_delete_ne by done. by apply Hd.
  - intros k. destruct (decide (k = n)) as [->|Hk]; [rewrite lookup_delete_eq; by intros [? ?]|].
    rewrite lookup_delete_ne by done. apply Hn.
  - intros k w. rewrite (b_get_delete _ _ _ k E). case_decide; [done|apply Hz].
Qed.

Lemma vol_reachable_inv a : vol_reachable a → vol_inv a.
Proof.
  induction 1 as [|op a _ IH Hop].
  - split; [split_and!|]; cbn.
    + intros n c. by rewrite lookup_empty.
    + intros _ n. rewrite lookup_empty, b_get_empty. split; intros [? ?]; done.
    + intros n. rewrite lookup_empty. by intros [? ?].
    + intros n v. by rewrite b_get_empty.
  - destruct op as [now v|n|names|names|]; cbn [vol_step].
    + eapply Create_inv; [done|by eapply Hop].
    + by apply Remove_inv.
    + by apply Attach_inv.
    + unfold DetachVolumeFromJob. revert a IH Hop. induction names as [|m l IHl]; intros a IH _; [done|].
      apply IHl; [by apply DecrementJobCount_inv|done].
    + unfold Close. destruct (vol_closed a); [done|]. split; [split_and!|]; cbn.
      * intros n c. by rewrite lookup_empty.
      * done.
      * intros n. rewrite lookup_empty. by intros [? ?].
      * intros n v. by rewrite b_get_close.
Qed.

(** What the store reports about usage is wrong: in every reachable state every
    volume it returns has a job count of zero and is reported as not in use, also
    while jobs have it reserved, because the reservation counts live beside the
    records that are copied out. *)
Theorem volumes_report_no_usage a n v : vol_reachable a →
  GetVolume n a = Some v ∨ v ∈ ListVolumes a → v_JobCount v = 0 ∧ IsInUse v = false.
Proof.
  intros [_ Hz]%vol_reachable_inv Hv.
  assert (v_JobCount v = 0) as E; [|unfold IsInUse; by rewrite E].
  destruct Hv as [Hv|Hv].
  - unfold GetVolume in Hv. destruct (vol_closed a); [done|]. case_bool_decide; [done|].
    destruct (b_get n (volumeStore a)) as [w|] eqn:E; [|done]. injection Hv as <-. by apply Hz in E.
  - unfold ListVolumes in Hv. destruct (vol_closed a); [by apply elem_of_nil in Hv|].
    apply list_elem_of_fmap in Hv as (w & -> & Hw). apply b_list_spec in Hw as [k Hk]. by apply Hz in Hk.
Qed.
End runs.

(** ** Concrete runs *)

Definition data_volume : Volume := {|
  v_Name := "data"; v_Type := "memory"; v_Size := "1MB"; v_SizeBytes := 1048576; v_Path := "/v/data";
  v_CreatedTime := 0; v_JobCount := 0 |}.

Definition attached : vol_adapter (gmap string Volume) :=
  vol_step (VAttach ["data"; "data"]%string) (vol_step (VCreate 5 data_volume) NewVolumeStoreAdapter).

Lemma attached_reachable : vol_reachable attached.
Proof.
  apply vr_step; [apply vr_step; [apply vr_init|]|].
  - by intros now v [= _ <-].
  - done.
Qed.

Lemma volumes_report_no_usage_witness :
  jobCounts attached !! "data"%string = Some 2 ∧
  ∃ v, GetVolume "data" attached = Some v ∧ v_JobCount v = 0 ∧ IsInUse v = false.
Proof.
  split; [vm_compute; reflexivity|]. eexists. split; [vm_compute; reflexivity|].
  apply (volumes_report_no_usage attached "data"); [apply attached_reachable|].
  left. vm_compute. reflexivity.
Defined.

Lemma AttachVolumeToJob_all_or_nothing_witness :
  (∃ e, AttachVolumeToJob ["data"; "missing"]%string attached = (Err e, attached)) ∨
  (AttachVolumeToJob ["data"; "missing"]%string attached = (Ok tt, bumps ["data"; "missing"]%string attached) ∧
   DetachVolumeFromJob ["data"; "missing"]%string (bumps ["data"; "missing"]%string attached) = attached ∧
   ∀ n, n ∈ ["data"; "missing"]%string → ∃ c, 0 < c ∧
     RemoveVolume n (bumps ["data"; "missing"]%string attached)
       = (Err (ErrVolumeInUse c), bumps ["data"; "missing"]%string attached)).
Proof.
  apply (AttachVolumeToJob_all_or_nothing ["data"; "missing"]%string attached);
    [apply (vol_reachable_inv _ attached_reachable)|reflexivity].
Defined.

(** Over the in-memory store a second [CreateVolume] of an existing name succeeds
    and resets the volume's usage count, after which a volume that a job has
    reserved can be removed. *)
Theorem recreate_frees_volume :
  ∃ a1 a2, CreateVolume 9 (Some data_volume) attached = (Ok tt, a1) ∧
    (RemoveVolume "data" attached).1 = Err (ErrVolumeInUse 2) ∧
    RemoveVolume "data" a1 = (Ok tt, a2) ∧ GetVolume "data" a2 = None.
Proof.
  eexists _, _. split; [vm_compute; reflexivity|]. split; [vm_compute; reflexivity|].
  split; vm_compute; reflexivity.
Qed.
