(* ===== verification/VolumeStorage.v ===== *)
(** * The storage of volumes on the host (internal/joblet/core/volume/manager.go)

    Directories, loop devices and tmpfs mounts as the manager makes and removes them.
    The system calls and the commands [dd], [losetup] and [mkfs.ext4] are the class
    [Host]; their documentation is the class [HostLaws], over what the host shows:
    files, directories, mounts and loop devices. *)

From Stdlib Require Import Ascii String.
From S2P Require Import Prelude GoStrings GoNumbers GoTime Paths KeyStore VolumeStore.
From Stdlib Require Import SpecFloat.

Local Open Scope Z_scope.

(** ** Sizes *)

(** The leading digits and points of a size, and its unit.
    [src/internal/joblet/domain/volume.go:38-49 ParseSize] *)
Fixpoint size_parts (l : list ascii) : list ascii * list ascii :=
  match l with
  | c :: l' => if is_digit c || bool_decide (c = "."%char) then let '(n, u) := size_parts l' in (c :: n, u) else ([], l)
  | [] => ([], [])
  end.
(** [strings.ToUpper] on ASCII; no other letter has an upper case that occurs in a unit. *)
Definition upper_byte (c : ascii) : ascii := if is_lower c then byte_of (byte_val c - 32) else c.
(** [src/internal/joblet/domain/volume.go:61-75 ParseSize] *)
Definition unit_multiplier (unit : string) : option Z :=
  if String.eqb unit "B" || String.eqb unit "" then Some 1
  else if String.eqb unit "KB" then Some (2 ^ 10)
  else if String.eqb unit "MB" then Some (2 ^ 20)
  else if String.eqb unit "GB" then Some (2 ^ 30)
  else if String.eqb unit "TB" then Some (2 ^ 40)
  else None.
Definition finite (x : float64) : bool := match x with S754_zero _ | S754_finite _ _ _ => true | _ => false end.

Section manager.
(** What the conversion to [int64] makes of a double that does not fit. *)
Context (overflow : float64 → Z).

Definition to_int64 (x : float64) : Z :=
  if finite x && bool_decide (in_int64 (truncate x)) then truncate x else overflow x.

(** [src/internal/joblet/domain/volume.go ParseSize] *)
Definition ParseSize (sizeStr : string) : option Z :=
  if String.eqb sizeStr "" then None else
  let '(num, unit) := size_parts (upper_byte <$> bytes (TrimSpace sizeStr)) in
  match num, decimal_literal (of_bytes num), unit_multiplier (of_bytes unit) with
  | _ :: _, Some (m, k), Some multiplier =>
      let size := decimal m k in
      if finite size then Some (to_int64 (mul64 size (float_of_Z multiplier))) else None
  | _, _, _ => None
  end.

Inductive new_error := NNameEmpty | NNameInvalid | NBadSize | NNotPositive | NBadType.

(** [src/internal/joblet/domain/volume.go NewVolume] *)
Definition NewVolume (now : Z) (name sizeStr volumeType : string) : result new_error Volume :=
  if String.eqb name "" then Err NNameEmpty
  else if negb (IsValidVolumeName name) then Err NNameInvalid
  else match ParseSize sizeStr with
  | None => Err NBadSize
  | Some sizeBytes =>
      if sizeBytes <=? 0 then Err NNotPositive
      else if negb (String.eqb volumeType VolumeTypeFilesystem) && negb (String.eqb volumeType VolumeTypeMemory) then Err NBadType
      else Ok {| v_Name := name; v_Type := volumeType; v_Size := sizeStr; v_SizeBytes := sizeBytes; v_Path := "";
                 v_CreatedTime := now; v_JobCount := 0 |}
  end.

(** ** The host *)

Class Host (H : Type) := {
  MkdirAll : string → H → bool * H;
  WriteFile : string → string → H → bool * H;
  ReadFile : string → H → option string;
  (* The names in a directory, and which of them are directories. *)
  ReadDir : string → H → option (list (string * bool));
  Chmod : string → H → bool * H;
  Chown : string → H → bool * H;
  (* Source, target, type and options. *)
  Mount : string → string → string → string → H → bool * H;
  Unmount : string → H → bool * H;
  Remove : string → H → bool * H;
  RemoveAll : string → H → bool * H;
  (* Block size, blocks and available blocks. *)
  Statfs : string → H → option (Z * Z * Z);
  (* The output of a command that succeeds. *)
  Run : list string → H → option string * H;
}.

(** [encoding/json] on the metadata of a volume. *)
Record volume_info := { i_Name : string; i_Type : string; i_Size : string; i_SizeBytes : Z; i_CreatedTime : string }.
Class MetaJSON := { Unmarshal : string → option volume_info }.

Context {H : Type} {HO : Host H} {MJ : MetaJSON} {VS : Type} {VB : Backend VS Volume}.
Context (basePath : string) (zone : Z → Z).

(** ** Loop devices *)

Definition newline : string := of_bytes [byte_of 10].
Definition quote : string := of_bytes [byte_of 34].

Definition data_dir (path : string) : string := Join_path [path; "data"%string].
Definition meta_file (path : string) : string := Join_path [path; "volume-info.json"%string].
Definition image_file (path : string) : string := Join_path [path; "volume.img"%string].
Definition loop_file (path : string) : string := Join_path [path; "loop-info.txt"%string].

Definition ran (r : option string * H) : bool * H := (match r.1 with Some _ => true | None => false end, r.2).

(** [src/internal/joblet/core/volume/manager.go Manager.createSparseFile] *)
Definition createSparseFile (path : string) (sizeBytes : Z) (h : H) : bool * H :=
  ran (Run ["dd"; "if=/dev/zero"; "of=" +:+ path; "bs=1"; "count=0"; "seek=" +:+ Itoa sizeBytes]%string h).
(** [src/internal/joblet/core/volume/manager.go Manager.setupLoopDevice] *)
Definition setupLoopDevice (backingFile : string) (h : H) : option string * H :=
  match Run ["losetup"; "-f"]%string h with
  | (None, h) => (None, h)
  | (Some output, h) =>
      let loopDevice := TrimSpace output in
      match Run ["losetup"%string; loopDevice; backingFile] h with (None, h) => (None, h) | (Some _, h) => (Some loopDevice, h) end
  end.
(** [src/internal/joblet/core/volume/manager.go Manager.createFilesystem] *)
Definition createFilesystem (device : string) (h : H) : bool * H := ran (Run ["mkfs.ext4"; "-F"; device]%string h).
(** [src/internal/joblet/core/volume/manager.go Manager.detachLoopDevice] *)
Definition detachLoopDevice (device : string) (h : H) : bool * H := ran (Run ["losetup"; "-d"; device]%string h).

(** [src/internal/joblet/core/volume/manager.go:407 Manager.createLoopFilesystem] *)
Definition loop_info (loopDevice backingFile : string) : string :=
  "loop_device=" +:+ loopDevice +:+ newline +:+ "backing_file=" +:+ backingFile +:+ newline.

(** [src/internal/joblet/core/volume/manager.go Manager.getLoopDeviceFromInfo] *)
Definition getLoopDeviceFromInfo (volumePath : string) (h : H) : option (string * string) :=
  content ← ReadFile (loop_file volumePath) h;
  let '(loopDevice, backingFile) := foldl (λ '(d, f) line,
    if HasPrefix line "loop_device=" then (TrimPrefix line "loop_device=", f)
    else if HasPrefix line "backing_file=" then (d, TrimPrefix line "backing_file=") else (d, f))
    (""%string, ""%string) (Split content (byte_of 10)) in
  if String.eqb loopDevice "" || String.eqb backingFile "" then None else Some (loopDevice, backingFile).

(** [src/internal/joblet/core/volume/manager.go Manager.createLoopFilesystem] *)
Definition createLoopFilesystem (volume : Volume) (dataDir : string) (h : H) : bool * H :=
  let backingFile := image_file (v_Path volume) in
  let loopInfoFile := loop_file (v_Path volume) in
  let '(ok, h) := createSparseFile backingFile (v_SizeBytes volume) h in
  if negb ok then (false, h) else
  match setupLoopDevice backingFile h with
  | (None, h) => (false, (Remove backingFile h).2)
  | (Some loopDevice, h) =>
      let undo h := (Remove backingFile (detachLoopDevice loopDevice h).2).2 in
      let '(ok, h) := WriteFile loopInfoFile (loop_info loopDevice backingFile) h in
      if negb ok then (false, undo h) else
      let '(ok, h) := createFilesystem loopDevice h in
      if negb ok then (false, (Remove loopInfoFile (undo h)).2) else
      let '(ok, h) := Mount loopDevice dataDir "ext4" "" h in
      if negb ok then (false, (Remove loopInfoFile (undo h)).2)
      else (true, (Chmod dataDir h).2)
  end.

(** [src/internal/joblet/core/volume/manager.go Manager.cleanupLoopFilesystem] *)
Definition cleanupLoopFilesystem (volume : Volume) (dataDir : string) (h : H) : H :=
  match getLoopDeviceFromInfo (v_Path volume) h with
  | None => h
  | Some (loopDevice, backingFile) => (Remove backingFile (detachLoopDevice loopDevice (Unmount dataDir h).2).2).2
  end.

(** ** Storage *)

(** [src/internal/joblet/core/volume/manager.go Manager.setupFilesystemVolume] *)
Definition setupFilesystemVolume (volume : Volume) (dataDir : string) (h : H) : H := (createLoopFilesystem volume dataDir h).2.
(** [src/internal/joblet/core/volume/manager.go Manager.setupMemoryVolume] *)
Definition setupMemoryVolume (volume : Volume) (dataDir : string) (h : H) : bool * H :=
  Mount "tmpfs" dataDir "tmpfs" ("size=" +:+ Itoa (v_SizeBytes volume)) h.

Definition field (key value : string) : string := "  " +:+ quote +:+ key +:+ quote +:+ ": " +:+ value.
Definition quoted (value : string) : string := quote +:+ value +:+ quote.
(** [src/internal/joblet/core/volume/manager.go:183-189 Manager.createVolumeStorage] *)
Definition metadata (volume : Volume) : string :=
  "{" +:+ newline +:+ field "name" (quoted (v_Name volume)) +:+ "," +:+ newline +:+
  field "type" (quoted (v_Type volume)) +:+ "," +:+ newline +:+
  field "size" (quoted (v_Size volume)) +:+ "," +:+ newline +:+
  field "sizeBytes" (Itoa (v_SizeBytes volume)) +:+ "," +:+ newline +:+
  field "createdTime" (quoted (format_RFC3339 zone (v_CreatedTime volume))) +:+ newline +:+ "}".

Inductive storage_step := SMkdir | SMetadata | SMemory | SChown.

(** [src/internal/joblet/core/volume/manager.go Manager.createVolumeStorage] *)
Definition createVolumeStorage (volume : Volume) (h : H) : result storage_step unit * H :=
  let dataDir := data_dir (v_Path volume) in
  let '(ok, h) := MkdirAll dataDir h in
  if negb ok then (Err SMkdir, h) else
  let '(ok, h) := WriteFile (meta_file (v_Path volume)) (metadata volume) h in
  if negb ok then (Err SMetadata, h) else
  let '(ok, h) :=
    if String.eqb (v_Type volume) VolumeTypeFilesystem then (true, setupFilesystemVolume volume dataDir h)
    else if String.eqb (v_Type volume) VolumeTypeMemory then setupMemoryVolume volume dataDir h
    else (true, h) in
  if negb ok then (Err SMemory, h) else
  let '(ok, h) := Chown dataDir h in
  if negb ok then (Err SChown, h) else (Ok tt, h).

(** [src/internal/joblet/core/volume/manager.go Manager.cleanupVolumeStorage] *)
Definition cleanupVolumeStorage (volume : Volume) (h : H) : bool * H :=
  let dataDir := data_dir (v_Path volume) in
  let h := if String.eqb (v_Type volume) VolumeTypeMemory then (Unmount dataDir h).2
           else if String.eqb (v_Type volume) VolumeTypeFilesystem then cleanupLoopFilesystem volume dataDir h
           else h in
  RemoveAll (v_Path volume) h.

(** ** The operations *)

Inductive manager_error :=
| MObject (e : new_error) | MStorage (e : storage_step) | MStore (e : vol_error) | MNotFound (name : string)
| MBaseDir | MReadDir | MStatfs.

Definition set_path (path : string) (v : Volume) : Volume := {|
  v_Name := v_Name v; v_Type := v_Type v; v_Size := v_Size v; v_SizeBytes := v_SizeBytes v; v_Path := path;
  v_CreatedTime := v_CreatedTime v; v_JobCount := v_JobCount v |}.
Definition set_created (t : Z) (v : Volume) : Volume := {|
  v_Name := v_Name v; v_Type := v_Type v; v_Size := v_Size v; v_SizeBytes := v_SizeBytes v; v_Path := v_Path v;
  v_CreatedTime := t; v_JobCount := v_JobCount v |}.

(** The volume is made at [now] and stored at [stored]; the store sets the time again.
    [src/internal/joblet/core/volume/manager.go Manager.CreateVolume] *)
Definition Manager_CreateVolume (now stored : Z) (name size volumeType : string) (a : vol_adapter VS) (h : H)
    : result manager_error Volume * vol_adapter VS * H :=
  match NewVolume now name size volumeType with
  | Err e => (Err (MObject e), a, h)
  | Ok volume =>
      let volume := set_path (Join_path [basePath; name]) volume in
      match createVolumeStorage volume h with
      | (Err e, h) => (Err (MStorage e), a, h)
      | (Ok _, h) =>
          match CreateVolume stored (Some volume) a with
          | (Err e, a) => (Err (MStore e), a, (cleanupVolumeStorage volume h).2)
          | (Ok _, a) => (Ok (set_created stored volume), a, h)
          end
      end
  end.

(** [src/internal/joblet/core/volume/manager.go Manager.RemoveVolume] *)
Definition Manager_RemoveVolume (name : string) (a : vol_adapter VS) (h : H) : result manager_error unit * vol_adapter VS * H :=
  match GetVolume name a with
  | None => (Err (MNotFound name), a, h)
  | Some volume =>
      match RemoveVolume name a with
      | (Err e, a) => (Err (MStore e), a, h)
      | (Ok _, a) => (Ok tt, a, (cleanupVolumeStorage volume h).2)
      end
  end.

(** [src/internal/joblet/core/volume/manager.go Manager.GetVolumeUsage] *)
Definition GetVolumeUsage (volumeName : string) (a : vol_adapter VS) (h : H) : result manager_error (Z * Z) :=
  match GetVolume volumeName a with
  | None => Err (MNotFound volumeName)
  | Some volume =>
      match Statfs (data_dir (v_Path volume)) h with
      | None => Err MStatfs
      | Some (bsize, blocks, bavail) =>
          let blockSize := wrap 64 bsize in
          let totalBytes := wrap 64 (wrap 64 blocks * blockSize) in
          let availableBytes := wrap 64 (wrap 64 bavail * blockSize) in
          Ok (wrap 64 (totalBytes - availableBytes), availableBytes)
      end
  end.

(** [src/internal/joblet/core/volume/manager.go Manager.isMounted] *)
Definition isMounted (path : string) (h : H) : bool :=
  match ReadFile "/proc/mounts" h with
  | None => false
  | Some content => existsb (λ line, match Fields line with _ :: w :: _ => String.eqb w path | _ => false end) (Split content (byte_of 10))
  end.

(** What is loaded of a directory of the base path.
    [src/internal/joblet/core/volume/manager.go:554-601 Manager.ScanVolumes] *)
Definition scan_info (now : Z) (name : string) (h : H) : option Volume :=
  let volumePath := Join_path [basePath; name] in
  text ← ReadFile (meta_file volumePath) h;
  info ← Unmarshal text;
  if negb (String.eqb (i_Type info) VolumeTypeFilesystem) && negb (String.eqb (i_Type info) VolumeTypeMemory) then None
  else Some {| v_Name := i_Name info; v_Type := i_Type info; v_Size := i_Size info; v_SizeBytes := i_SizeBytes info; v_Path := volumePath;
               v_CreatedTime := default now (parse_RFC3339 (i_CreatedTime info)); v_JobCount := 0 |}.
Definition scan_entry (now : Z) (name : string) (a : vol_adapter VS) (h : H) : vol_adapter VS * H :=
  match scan_info now name h with
  | None => (a, h)
  | Some volume =>
      let dataDir := data_dir (v_Path volume) in
      let '(ok, h) := if String.eqb (v_Type volume) VolumeTypeMemory && negb (isMounted dataDir h)
                      then setupMemoryVolume volume dataDir h else (true, h) in
      if ok then ((CreateVolume now (Some volume) a).2, h) else (a, h)
  end.
(** [src/internal/joblet/core/volume/manager.go:548-623 Manager.ScanVolumes] *)
Fixpoint scan_entries (now : Z) (entries : list (string * bool)) (a : vol_adapter VS) (h : H) : vol_adapter VS * H :=
  match entries with
  | [] => (a, h)
  | (name, is_dir) :: entries =>
      let '(a, h) := if is_dir then scan_entry now name a h else (a, h) in scan_entries now entries a h
  end.
(** [src/internal/joblet/core/volume/manager.go Manager.ScanVolumes] *)
Definition ScanVolumes (now : Z) (a : vol_adapter VS) (h : H) : result manager_error unit * vol_adapter VS * H :=
  let '(ok, h) := MkdirAll basePath h in
  if negb ok then (Err MBaseDir, a, h) else
  match ReadDir basePath h with
  | None => (Err MReadDir, a, h)
  | Some entries => let '(a, h) := scan_entries now entries a h in (Ok tt, a, h)
  end.
End manager.

(** ** What the host does *)

Record mount := { m_source : string; m_target : string; m_type : string; m_opts : string }.
#[export] Instance mount_eq : EqDecision mount.
Proof. solve_decision. Defined.

(** Strictly below a directory. *)
Definition under (t p : string) : Prop := HasPrefix p (t +:+ "/") = true.
Definition within (t p : string) : Prop := p = t ∨ under t p.
#[export] Instance within_dec t p : Decision (within t p).
Proof. unfold within, under. apply _. Defined.
Fixpoint remove_mount (t : string) (l : list mount) : list mount :=
  match l with [] => [] | m :: l => if decide (m_target m = t) then l else m :: remove_mount t l end.

Definition no_newline (s : string) : Prop := byte_of 10 ∉ bytes s.
(** A text without quotes, escapes and control characters. *)
Definition plain_char (c : ascii) : bool :=
  (32 <=? byte_val c) && (byte_val c <=? 126) && negb (bool_decide (byte_val c = 34)) && negb (bool_decide (byte_val c = 92)).
Definition plain_text (s : string) : Prop := forallb plain_char (bytes s) = true.

Class LawfulMetaJSON `{MetaJSON} : Prop := {
  Unmarshal_metadata : ∀ zone v, plain_text (v_Name v) → plain_text (v_Type v) → plain_text (v_Size v) → in_int64 (v_SizeBytes v) →
    plain_text (format_RFC3339 zone (v_CreatedTime v)) →
    Unmarshal (metadata zone v) = Some {| i_Name := v_Name v; i_Type := v_Type v; i_Size := v_Size v; i_SizeBytes := v_SizeBytes v;
                                          i_CreatedTime := format_RFC3339 zone (v_CreatedTime v) |};
}.

(** The visible files and directories, the mounts with the latest first, the loop devices
    with their files, and which contents are a file system without files. *)
Class HostLaws (H : Type) `{!Host H} := {
  files : H → gmap string string;
  is_dir : H → string → Prop;
  mounts : H → list mount;
  loops : H → gmap string string;
  empty_fs : string → Prop;
  (* mkdir -p *)
  hl_mkdir p h : let '(ok, h') := MkdirAll p h in
    files h' = files h ∧ mounts h' = mounts h ∧ loops h' = loops h ∧
    (∀ q, is_dir h q → is_dir h' q) ∧ (∀ q, is_dir h' q → is_dir h q ∨ q = p ∨ under q p) ∧
    (ok = true → ∀ q, q = p ∨ under q p → is_dir h' q);
  hl_write p c h : let '(ok, h') := WriteFile p c h in
    (∀ q, q ≠ p → files h' !! q = files h !! q) ∧ (ok = true → files h' !! p = Some c) ∧
    (∀ q, is_dir h' q ↔ is_dir h q) ∧ mounts h' = mounts h ∧ loops h' = loops h;
  hl_read p h : ReadFile p h = files h !! p;
  hl_readdir p h l : ReadDir p h = Some l → NoDup l.*1 ∧
    ∀ n, (n, true) ∈ l ↔ n ≠ ""%string ∧ "/"%char ∉ bytes n ∧ is_dir h (p +:+ "/" +:+ n);
  hl_chmod p h : let h' := (Chmod p h).2 in files h' = files h ∧ (∀ q, is_dir h' q ↔ is_dir h q) ∧ mounts h' = mounts h ∧ loops h' = loops h;
  hl_chown p h : let h' := (Chown p h).2 in files h' = files h ∧ (∀ q, is_dir h' q ↔ is_dir h q) ∧ mounts h' = mounts h ∧ loops h' = loops h;
  (* A mount hides what was below its target. *)
  hl_mount s t ty o h : let '(ok, h') := Mount s t ty o h in loops h' = loops h ∧
    (∀ q, ¬ under t q → files h' !! q = files h !! q ∧ (is_dir h' q ↔ is_dir h q)) ∧
    mounts h' = (if ok then {| m_source := s; m_target := t; m_type := ty; m_opts := o |} :: mounts h else mounts h);
  hl_unmount t h : let '(ok, h') := Unmount t h in loops h' = loops h ∧
    (∀ q, ¬ under t q → files h' !! q = files h !! q ∧ (is_dir h' q ↔ is_dir h q)) ∧
    mounts h' = (if ok then remove_mount t (mounts h) else mounts h);
  hl_remove p h : let '(ok, h') := Remove p h in
    (∀ q, q ≠ p → files h' !! q = files h !! q) ∧ files h' !! p = (if ok then None else files h !! p) ∧
    (∀ q, q ≠ p → is_dir h' q ↔ is_dir h q) ∧ mounts h' = mounts h ∧ loops h' = loops h;
  hl_remove_all p h : let '(ok, h') := RemoveAll p h in mounts h' = mounts h ∧ loops h' = loops h ∧
    (∀ q, ¬ within p q → files h' !! q = files h !! q ∧ (is_dir h' q ↔ is_dir h q)) ∧
    (ok = true → ∀ q, within p q → files h' !! q = None ∧ ¬ is_dir h' q);
  hl_dd p n h : let '(ok, h') := createSparseFile p n h in
    (∀ q, q ≠ p → files h' !! q = files h !! q) ∧ (ok = true → is_Some (files h' !! p)) ∧
    (∀ q, is_dir h' q ↔ is_dir h q) ∧ mounts h' = mounts h ∧ loops h' = loops h;
  hl_free h : let '(out, h') := Run ["losetup"; "-f"]%string h in
    files h' = files h ∧ (∀ q, is_dir h' q ↔ is_dir h q) ∧ mounts h' = mounts h ∧ loops h' = loops h ∧
    ∀ o, out = Some o → HasPrefix (TrimSpace o) "/dev/" = true ∧ no_newline (TrimSpace o);
  (* A device that is attached or mounted cannot be attached. *)
  hl_attach d f h : HasPrefix d "/dev/" = true → let '(out, h') := Run ["losetup"%string; d; f] h in
    files h' = files h ∧ (∀ q, is_dir h' q ↔ is_dir h q) ∧ mounts h' = mounts h ∧
    match out with
    | Some _ => loops h !! d = None ∧ (∀ m, m ∈ mounts h → m_source m ≠ d) ∧ loops h' = <[d := f]> (loops h)
    | None => loops h' = loops h
    end;
  hl_detach d h : let '(ok, h') := detachLoopDevice d h in
    files h' = files h ∧ (∀ q, is_dir h' q ↔ is_dir h q) ∧ mounts h' = mounts h ∧ (∀ d', d' ≠ d → loops h' !! d' = loops h !! d') ∧
    (loops h' !! d = None ∨ loops h' !! d = loops h !! d) ∧
    (ok = true → (∀ m, m ∈ mounts h → m_source m ≠ d) → loops h' !! d = None);
  hl_mkfs d h : let '(ok, h') := createFilesystem d h in mounts h' = mounts h ∧ loops h' = loops h ∧ (∀ q, is_dir h' q ↔ is_dir h q) ∧
    (∀ q, loops h !! d ≠ Some q → files h' !! q = files h !! q) ∧
    (ok = true → ∀ f c, loops h !! d = Some f → files h !! f = Some c → ∃ c', files h' !! f = Some c' ∧ empty_fs c');
}.

(** A host that does not refuse to take back what it gave. *)
Class Obedient (H : Type) `{HostLaws H} : Prop := {
  ob_chown : ∀ p h, (Chown p h).1 = true;
  ob_unmount : ∀ t h m, m ∈ mounts h → m_target m = t → (Unmount t h).1 = true;
  ob_detach : ∀ d h, is_Some (loops h !! d) → (detachLoopDevice d h).1 = true;
  ob_remove : ∀ p h, is_Some (files h !! p) → (Remove p h).1 = true;
  ob_remove_all : ∀ p h, (∀ m, m ∈ mounts h → ¬ within p (m_target m)) → (RemoveAll p h).1 = true;
  ob_write : ∀ p c h, (WriteFile p c h).1 = false → files (WriteFile p c h).2 !! p = files h !! p;
  ob_tmpfs : ∀ t o h, (Mount "tmpfs" t "tmpfs" o h).1 = true;
}.

(** ** Paths *)

(** A cleaned absolute path other than the root. *)
Definition clean_path (p : string) : Prop := ∃ ws, ws ≠ [] ∧ Forall plain ws ∧ bytes p = "/"%char :: join_bytes "/" ws.

Lemma clean_fold_all ws out : Forall plain ws → foldl (clean_step true) out ws = rev ws ++ out.
Proof.
  intros Hw. revert out. induction Hw as [|w ws (H1 & H2 & H3 & H4) _ IH]; intros out; [done|]. cbn [foldl rev]. unfold clean_step at 2.
  rewrite !bool_decide_eq_false_2 by done. cbn [orb]. by rewrite IH, <- app_assoc.
Qed.

Lemma join_elements_snoc ws w : ws ≠ [] → join_bytes "/" (ws ++ [w]) = join_bytes "/" ws ++ "/"%char :: w.
Proof.
  intros Hne. induction ws as [|v ws IH]; [done|]. destruct ws as [|u ws]; [done|]. cbn [app join_bytes] in *. rewrite IH by done. by rewrite <- app_assoc.
Qed.

Lemma join_clean p n : clean_path p → plain (bytes n) → Join_path [p; n] = (p +:+ "/" +:+ n)%string ∧ clean_path (p +:+ "/" +:+ n).
Proof.
  intros (ws & Hne & Hw & Hp) Hn.
  assert (Hws : Forall plain (ws ++ [bytes n])) by (apply Forall_app; split; [done|by apply Forall_singleton]).
  assert (E : bytes (p +:+ "/" +:+ n) = "/"%char :: join_bytes "/" (ws ++ [bytes n])).
  { rewrite !bytes_app, Hp, join_elements_snoc by done. done. }
  split; [|exists (ws ++ [bytes n]); split_and!; [by destruct ws|done|done]].
  rewrite Join_path2; [|by intros -> |intros ->; by destruct Hn].
  assert (Hj : bytes (Join [p; n] "/") = "/"%char :: join_bytes "/" (ws ++ [bytes n])) by (by rewrite Join_bytes2, <- E, !bytes_app).
  assert (Ha : IsAbs (Join [p; n] "/") = true) by (apply IsAbs_cons; eauto).
  apply bytes_inj. unfold Clean. rewrite bool_decide_eq_false_2 by (by intros Hx; rewrite Hx in Ha). rewrite Ha, bytes_of_bytes, E. do 2 f_equal.
  unfold Clean_elements, clean_words. rewrite Ha, Hj. cbn [split_bytes]. rewrite decide_True by done. rewrite plain_split by (done || by destruct ws).
  cbn [foldl]. change (clean_step true [] []) with (@nil (list ascii)). rewrite clean_fold_all, app_nil_r by done. apply rev_involutive.
Qed.

Lemma cut_slash (a b x y : list ascii) : "/"%char ∉ a → "/"%char ∉ b → a ++ "/"%char :: x = b ++ "/"%char :: y → a = b ∧ x = y.
Proof.
  intros Ha Hb E. pose proof (cut_bytes_app "/" a x Ha) as H1. rewrite E, cut_bytes_app in H1 by done. by injection H1.
Qed.

Lemma valid_plain name : IsValidVolumeName name = true → plain (bytes name) ∧ no_newline name ∧ plain_text name.
Proof.
  unfold IsValidVolumeName. destruct ((len name =? 0) || (len name >? 63)); [done|].
  destruct (forallb _ (bytes name)) eqn:Ef; [|done]. cbn [negb]. rewrite forallb_forall in Ef.
  assert (Hc : ∀ c, c ∈ bytes name → is_alnum c || bool_decide (c = "-"%char) || bool_decide (c = "_"%char) = true) by (intros c H; apply Ef; by apply list_elem_of_In).
  intros Hl. assert (Hg : ∀ c, is_alnum c || bool_decide (c = "-"%char) || bool_decide (c = "_"%char) = true → plain_char c = true ∧ c ≠ "/"%char ∧ c ≠ byte_of 10).
  { intros c H. assert (Hx : forallb (λ c, implb (is_alnum c || bool_decide (c = "-"%char) || bool_decide (c = "_"%char))
        (plain_char c && negb (bool_decide (c = "/"%char)) && negb (bool_decide (c = byte_of 10)))) (ascii_of_N ∘ N.of_nat <$> seq 0 256) = true) by (vm_compute; reflexivity).
    rewrite forallb_forall in Hx. specialize (Hx c). rewrite H in Hx. cbn [implb] in Hx. 
    assert (Hin : In c (ascii_of_N ∘ N.of_nat <$> seq 0 256)).
    { apply list_elem_of_In, list_elem_of_fmap. exists (N.to_nat (N_of_ascii c)). cbn [compose]. rewrite N2Nat.id, ascii_N_embedding. split; [done|].
      apply elem_of_seq. pose proof (N_ascii_bounded c). lia. }
    specialize (Hx Hin). apply andb_prop in Hx as [Hx H3]. apply andb_prop in Hx as [H1 H2]. to_prop. done. }
  split_and!.
  - destruct (bytes name) as [|c l] eqn:Eb; [done|]. split_and!; [done| | |].
    + intros E. injection E as -> ->. by cbn in Hl.
    + intros E. injection E as -> ->. by cbn in Hl.
    + intros Hs. destruct (Hg "/"%char) as (_ & ? & _); [|done]. by apply Hc.
  - intros Hs. destruct (Hg (byte_of 10)) as (_ & _ & ?); [|done]. by apply Hc.
  - apply forallb_forall. intros c Hin. apply Hg, Hc. by apply list_elem_of_In.
Qed.

Section layout.
Context (basePath : string).
Definition vol_path (n : string) : string := basePath +:+ "/" +:+ n.
Definition vol_file (n x : string) : string := basePath +:+ "/" +:+ n +:+ "/" +:+ x.
Abbreviation valid n := (IsValidVolumeName n = true).
Definition part (x : string) : Prop := plain (bytes x).

Lemma vol_file_inj n1 x1 n2 x2 : "/"%char ∉ bytes n1 → "/"%char ∉ bytes n2 → vol_file n1 x1 = vol_file n2 x2 → n1 = n2 ∧ x1 = x2.
Proof.
  intros H1 H2 E%(f_equal bytes). unfold vol_file in E. rewrite !bytes_app in E. apply (inj (app _)) in E. injection E as E. cbn [bytes String.list_ascii_of_string app] in E.
  apply cut_slash in E as [Ea Eb]; [|done..]. split; by apply bytes_inj.
Qed.

Lemma vol_file_name n1 x1 n2 x2 : "/"%char ∉ bytes n1 → "/"%char ∉ bytes n2 → vol_file n1 x1 = vol_file n2 x2 → n1 = n2.
Proof. intros H1 H2 E. by destruct (vol_file_inj n1 x1 n2 x2 H1 H2 E). Qed.
Lemma vol_file_part n x1 x2 : "/"%char ∉ bytes n → vol_file n x1 = vol_file n x2 → x1 = x2.
Proof. intros H1 E. by destruct (vol_file_inj n x1 n x2 H1 H1 E). Qed.

Lemma under_path n1 n2 x : "/"%char ∉ bytes n1 → "/"%char ∉ bytes n2 → within (vol_path n1) (vol_file n2 x) → n1 = n2.
Proof.
  intros H1 H2 [E|Hu].
  - apply (f_equal bytes) in E. unfold vol_file, vol_path in E. rewrite !bytes_app in E. apply (inj (app _)) in E. injection E as E. exfalso. apply H1. rewrite <- E. set_solver.
  - unfold under in Hu. apply HasPrefix_bytes in Hu as [l E]. unfold vol_file, vol_path in E. rewrite !bytes_app, <- !app_assoc in E. apply (inj (app _)) in E. injection E as E.
    cbn [bytes String.list_ascii_of_string app] in E. apply cut_slash in E as [Ea _]; [|done..]. symmetry. by apply bytes_inj.
Qed.

Lemma under_file n1 n2 x y : "/"%char ∉ bytes n1 → "/"%char ∉ bytes n2 → "/"%char ∉ bytes y → ¬ under (vol_file n1 x) (vol_file n2 y).
Proof.
  intros H1 H2 Hy Hu. unfold under in Hu. apply HasPrefix_bytes in Hu as [l E]. unfold vol_file in E. rewrite !bytes_app, <- !app_assoc in E. apply (inj (app _)) in E. injection E as E.
  cbn [bytes String.list_ascii_of_string app] in E. apply cut_slash in E as [_ E]; [|done..]. apply Hy. rewrite E. set_solver.
Qed.

Lemma under_file_path n1 n2 x : "/"%char ∉ bytes n1 → "/"%char ∉ bytes n2 → ¬ under (vol_file n1 x) (vol_path n2).
Proof.
  intros H1 H2 Hu. unfold under in Hu. apply HasPrefix_bytes in Hu as [l E]. unfold vol_file, vol_path in E. rewrite !bytes_app, <- !app_assoc in E. apply (inj (app _)) in E. injection E as E.
  apply H2. rewrite E. set_solver.
Qed.

Lemma path_inj n1 n2 : vol_path n1 = vol_path n2 → n1 = n2.
Proof. intros E%(f_equal bytes). unfold vol_path in E. rewrite !bytes_app in E. apply (inj (app _)) in E. injection E as E. by apply bytes_inj. Qed.

Lemma within_path n1 n2 : "/"%char ∉ bytes n2 → within (vol_path n1) (vol_path n2) → n1 = n2.
Proof.
  intros H2 [E|Hu]; [symmetry; by apply path_inj|]. unfold under in Hu. apply HasPrefix_bytes in Hu as [l E]. unfold vol_path in E. rewrite !bytes_app, <- !app_assoc in E.
  apply (inj (app _)) in E. injection E as E. exfalso. apply H2. rewrite E. set_solver.
Qed.
End layout.

Section dirs.
Context (basePath : string) (Hb : clean_path basePath).
Lemma path_of n : IsValidVolumeName n = true → Join_path [basePath; n] = vol_path basePath n.
Proof. intros (H & _)%valid_plain. by apply join_clean. Qed.
Lemma file_of n x : IsValidVolumeName n = true → plain (bytes x) → Join_path [vol_path basePath n; x] = vol_file basePath n x.
Proof.
  intros (H & _)%valid_plain Hx. destruct (join_clean basePath n Hb H) as [_ Hc]. destruct (join_clean (vol_path basePath n) x Hc Hx) as [-> _]. apply bytes_inj.
  unfold vol_file, vol_path. by rewrite !bytes_app, <- !app_assoc.
Qed.
Lemma data_dir_of n : IsValidVolumeName n = true → data_dir (vol_path basePath n) = vol_file basePath n "data".
Proof. intros H. apply file_of; [done|refine (bool_decide_unpack _ _); vm_compute; exact I]. Qed.
Lemma meta_file_of n : IsValidVolumeName n = true → meta_file (vol_path basePath n) = vol_file basePath n "volume-info.json".
Proof. intros H. apply file_of; [done|refine (bool_decide_unpack _ _); vm_compute; exact I]. Qed.
Lemma image_file_of n : IsValidVolumeName n = true → image_file (vol_path basePath n) = vol_file basePath n "volume.img".
Proof. intros H. apply file_of; [done|refine (bool_decide_unpack _ _); vm_compute; exact I]. Qed.
Lemma loop_file_of n : IsValidVolumeName n = true → loop_file (vol_path basePath n) = vol_file basePath n "loop-info.txt".
Proof. intros H. apply file_of; [done|refine (bool_decide_unpack _ _); vm_compute; exact I]. Qed.
End dirs.

(** ** What a step on one volume leaves alone *)

Section storage.
Context {H : Type} {HO : Host H} {HL : HostLaws H} (basePath : string).
Abbreviation path := (vol_path basePath).
Abbreviation data n := (vol_file basePath n "data").
Abbreviation info n := (vol_file basePath n "loop-info.txt").
Abbreviation meta n := (vol_file basePath n "volume-info.json").
Abbreviation img n := (vol_file basePath n "volume.img").
Abbreviation valid n := (IsValidVolumeName n = true).
Abbreviation single x := ("/"%char ∉ bytes x).

Definition on (n : string) (h : H) : list mount := filter (λ m, m_target m = data n) (mounts h).

Record touches (n : string) (h h' : H) : Prop := {
  t_on : ∀ n2, valid n2 → n2 ≠ n → on n2 h' = on n2 h;
  t_loops : ∀ n2 d, valid n2 → n2 ≠ n → loops h' !! d = Some (img n2) ↔ loops h !! d = Some (img n2);
  t_files : ∀ n2 x, valid n2 → n2 ≠ n → single x → files h' !! vol_file basePath n2 x = files h !! vol_file basePath n2 x;
  t_dir : ∀ n2, single n2 → n2 ≠ n → is_dir h' (path n2) ↔ is_dir h (path n2);
  t_source : ∀ n2 d m, valid n2 → n2 ≠ n → loops h !! d = Some (img n2) → m ∈ mounts h' → m_source m = d → m ∈ mounts h;
  t_mounts : ∀ m, m ∈ mounts h' → m ∈ mounts h ∨ m_target m = data n;
  t_backing : ∀ d f, loops h' !! d = Some f → loops h !! d = Some f ∨ f = img n;
}.

Lemma touches_trans n h1 h2 h3 : touches n h1 h2 → touches n h2 h3 → touches n h1 h3.
Proof.
  intros [A1 A2 A3 A4 A5 A6 A7] [B1 B2 B3 B4 B5 B6 B7]. split.
  - intros. by rewrite B1, A1.
  - intros. by rewrite B2, A2.
  - intros. by rewrite B3, A3.
  - intros. by rewrite B4, A4.
  - intros n2 d m Hv Hn Hl Hm Hs. eapply A5; [done..| |done]. eapply B5; [exact Hv|done| |done|done]. by apply A2.
  - intros m Hm. destruct (B6 m Hm) as [Hm'|]; [by apply A6|by right].
  - intros d f Hf. destruct (B7 d f Hf) as [Hf'|]; [by apply A7|by right].
Qed.

Lemma valid_single n : valid n → single n.
Proof. intros ((_ & _ & _ & ?) & _)%valid_plain. done. Qed.

(** The file and directory part of a step that leaves mounts and devices alone. *)
Lemma touches_quiet n h h' : valid n → mounts h' = mounts h → loops h' = loops h →
  (∀ q, ¬ within (path n) q → files h' !! q = files h !! q) → (∀ n2, single n2 → n2 ≠ n → is_dir h' (path n2) ↔ is_dir h (path n2)) → touches n h h'.
Proof.
  intros Hv Hm Hl Hf Hd. split; unfold on; rewrite ?Hm, ?Hl; try done; eauto.
  - intros n2 x Hv2 Hn Hx. apply Hf. intros Hw. apply Hn. symmetry. eapply under_path; [| |exact Hw]; by apply valid_single.
Qed.

Lemma touches_refl n h : valid n → touches n h h.
Proof. intros Hv. by apply touches_quiet. Qed.

Lemma within_file n x : within (path n) (vol_file basePath n x).
Proof.
  right. unfold under. apply HasPrefix_bytes. exists (bytes x). unfold vol_file, vol_path. by rewrite !bytes_app, <- !app_assoc.
Qed.

Lemma own_file n x q : ¬ within (path n) q → q ≠ vol_file basePath n x.
Proof. intros Hq ->. apply Hq, within_file. Qed.

(** *** The calls on the storage of one volume *)

(** What a call on a volume may do to the volume itself: to its mounts, its devices, and
    the files and directories other than those named. *)
Definition same_mounts (h h' : H) : Prop := mounts h' = mounts h ∧ loops h' = loops h.

Lemma mkdir_touches n h : valid n → let '(ok, h') := MkdirAll (data n) h in
  touches n h h' ∧ same_mounts h h' ∧ files h' = files h ∧ (ok = true → is_dir h' (path n)) ∧ (is_dir h (path n) → is_dir h' (path n)).
Proof.
  intros Hv. pose proof (hl_mkdir (data n) h) as Hk. destruct (MkdirAll (data n) h) as [ok h'].
  destruct Hk as (H1 & H2 & H3 & H4 & H5 & H6). split_and!; [|done|done| |by apply H4].
  - apply touches_quiet; [done..|by intros; rewrite H1|]. intros n2 Hs Hn. split; [|apply H4]. intros [?|Hq]%H5; [done|exfalso].
    apply Hn. eapply (under_path basePath n2 n "data"); [done|by apply valid_single|]. destruct Hq as [E|Hu]; [by left|by right].
  - intros Ho. apply H6; [done|]. right. destruct (within_file n "data") as [E|Hu]; [|done]. exfalso.
    apply (f_equal bytes) in E. unfold vol_file, vol_path in E. rewrite !bytes_app in E. apply (inj (app _)) in E. injection E as E.
    apply (valid_single n Hv). rewrite <- E. set_solver.
Qed.

Lemma write_touches n x c h : valid n → let '(ok, h') := WriteFile (vol_file basePath n x) c h in
  touches n h h' ∧ same_mounts h h' ∧ (∀ y, y ≠ x → files h' !! vol_file basePath n y = files h !! vol_file basePath n y) ∧
  (ok = true → files h' !! vol_file basePath n x = Some c) ∧ (is_dir h' (path n) ↔ is_dir h (path n)).
Proof.
  intros Hv. pose proof (hl_write (vol_file basePath n x) c h) as Hk. destruct (WriteFile _ c h) as [ok h']. destruct Hk as (H1 & H2 & H3 & H4 & H5).
  split_and!; try done; [|].
  - apply touches_quiet; [done..|intros q Hq; by apply H1, own_file|by intros; apply H3].
  - intros y Hy. apply H1. intros E. apply Hy. eapply vol_file_part; [|exact E]; by apply valid_single.
Qed.

Lemma remove_touches n x h : valid n → let '(ok, h') := Remove (vol_file basePath n x) h in
  touches n h h' ∧ same_mounts h h' ∧ (∀ y, y ≠ x → files h' !! vol_file basePath n y = files h !! vol_file basePath n y) ∧
  files h' !! vol_file basePath n x = (if ok then None else files h !! vol_file basePath n x) ∧ (is_dir h' (path n) ↔ is_dir h (path n)).
Proof.
  intros Hv. pose proof (hl_remove (vol_file basePath n x) h) as Hk. destruct (Remove _ h) as [ok h']. destruct Hk as (H1 & H2 & H3 & H4 & H5).
  assert (Hp : ∀ n2, single n2 → path n2 ≠ vol_file basePath n x).
  { intros n2 Hs E. apply (f_equal bytes) in E. unfold vol_file, vol_path in E. rewrite !bytes_app in E. apply (inj (app _)) in E. injection E as E. apply Hs. rewrite E. set_solver. }
  split_and!; try done; [| |].
  - apply touches_quiet; [done..|intros q Hq; by apply H1, own_file|]. intros n2 Hs Hn. by apply H3, Hp.
  - intros y Hy. apply H1. intros E. apply Hy. eapply vol_file_part; [|exact E]; by apply valid_single.
  - apply H3, Hp. by apply valid_single.
Qed.

Lemma dd_touches n z h : valid n → let '(ok, h') := createSparseFile (img n) z h in
  touches n h h' ∧ same_mounts h h' ∧ (∀ y, y ≠ "volume.img"%string → files h' !! vol_file basePath n y = files h !! vol_file basePath n y) ∧
  (is_dir h' (path n) ↔ is_dir h (path n)).
Proof.
  intros Hv. pose proof (hl_dd (img n) z h) as Hk. destruct (createSparseFile _ z h) as [ok h']. destruct Hk as (H1 & H2 & H3 & H4 & H5).
  split_and!; try done; [|].
  - apply touches_quiet; [done..|intros q Hq; by apply H1, own_file|by intros; apply H3].
  - intros y Hy. apply H1. intros E. apply Hy. eapply vol_file_part; [|exact E]; by apply valid_single.
Qed.

Lemma remove_all_touches n h : valid n → let '(ok, h') := RemoveAll (path n) h in
  touches n h h' ∧ same_mounts h h' ∧ (ok = true → (∀ x, files h' !! vol_file basePath n x = None) ∧ ¬ is_dir h' (path n)).
Proof.
  intros Hv. pose proof (hl_remove_all (path n) h) as Hk. destruct (RemoveAll _ h) as [ok h']. destruct Hk as (H1 & H2 & H3 & H4).
  split_and!; [|done|].
  - apply touches_quiet; [done..|intros q Hq; by apply H3|]. intros n2 Hs Hn. apply H3. intros Hw. apply Hn. symmetry. by eapply within_path.
  - intros Ho. split; [intros x; by apply H4, within_file|]. apply H4; [done|by left].
Qed.

Lemma setup_touches n h : valid n → let '(d, h') := setupLoopDevice (img n) h in
  touches n h h' ∧ mounts h' = mounts h ∧ files h' = files h ∧ (is_dir h' (path n) ↔ is_dir h (path n)) ∧
  match d with
  | Some d => HasPrefix d "/dev/" = true ∧ no_newline d ∧ loops h !! d = None ∧ (∀ m, m ∈ mounts h → m_source m ≠ d) ∧ loops h' = <[d := img n]> (loops h)
  | None => loops h' = loops h
  end.
Proof.
  intros Hv. unfold setupLoopDevice. pose proof (hl_free h) as Hf. destruct (Run ["losetup"; "-f"]%string h) as [[out|] h1]; destruct Hf as (F1 & F2 & F3 & F4 & F5).
  2:{ split_and!; [|done|done|by apply F2|done]. apply touches_quiet; [done..|intros; by rewrite F1|by intros; apply F2]. }
  destruct (F5 out eq_refl) as [Hd Hnl]. pose proof (hl_attach _ (img n) h1 Hd) as Ha. destruct (Run _ h1) as [[o|] h2]; destruct Ha as (A1 & A2 & A3 & A4).
  2:{ split_and!; [|congruence|congruence|by rewrite A2|congruence]. apply touches_quiet; [done|congruence|congruence|intros; congruence|intros; by rewrite A2]. }
  destruct A4 as (L1 & L2 & L3). rewrite F4 in L1, L3. rewrite F3 in L2. split_and!; [|congruence|congruence|by rewrite A2|done..].
  split; unfold on; rewrite ?A3, ?F3; try done; eauto.
  - intros n2 d Hv2 Hn. rewrite L3, lookup_insert. case_decide as Hd2; [|done]. subst d. rewrite L1. split; [|done]. intros [= E]. exfalso. apply Hn.
    symmetry. eapply vol_file_name; [| |exact E]; by apply valid_single.
  - intros. by rewrite A1, F1.
  - intros. by rewrite A2.
  - intros d f. rewrite L3, lookup_insert. case_decide; [intros [= <-]; by right|by left].
Qed.

Lemma detach_touches n d h : valid n → (∀ n2, valid n2 → n2 ≠ n → loops h !! d ≠ Some (img n2)) → let '(ok, h') := detachLoopDevice d h in
  touches n h h' ∧ mounts h' = mounts h ∧ files h' = files h ∧ (is_dir h' (path n) ↔ is_dir h (path n)) ∧
  (∀ d', d' ≠ d → loops h' !! d' = loops h !! d') ∧ (loops h' !! d = None ∨ loops h' !! d = loops h !! d) ∧
  (ok = true → (∀ m, m ∈ mounts h → m_source m ≠ d) → loops h' !! d = None).
Proof.
  intros Hv Hd. pose proof (hl_detach d h) as Hk. destruct (detachLoopDevice d h) as [ok h']. destruct Hk as (H1 & H2 & H3 & H4 & H5 & H6).
  split_and!; try done. split; unfold on; rewrite ?H3; try done; eauto.
  - intros n2 d' Hv2 Hn. destruct (decide (d' = d)) as [->|Hne]; [|by rewrite H4]. specialize (Hd n2 Hv2 Hn). destruct H5 as [->| ->]; naive_solver.
  - intros. by rewrite H1.
  - intros d' f. destruct (decide (d' = d)) as [->|Hne]; [|rewrite H4 by done; by left]. destruct H5 as [->| ->]; [done|by left].
Qed.

Lemma mkfs_touches n d h : valid n → loops h !! d = Some (img n) → let '(ok, h') := createFilesystem d h in
  touches n h h' ∧ same_mounts h h' ∧ (is_dir h' (path n) ↔ is_dir h (path n)) ∧
  (∀ y, y ≠ "volume.img"%string → files h' !! vol_file basePath n y = files h !! vol_file basePath n y).
Proof.
  intros Hv Hd. pose proof (hl_mkfs d h) as Hk. destruct (createFilesystem d h) as [ok h']. destruct Hk as (H1 & H2 & H3 & H4 & _).
  split_and!; [|done|by apply H3|].
  - apply touches_quiet; [done..| |by intros; apply H3]. intros q Hq. apply H4. rewrite Hd. intros [= <-]. apply Hq, within_file.
  - intros y Hy. apply H4. rewrite Hd. intros [= E]. apply Hy. symmetry. eapply vol_file_part; [|exact E]; by apply valid_single.
Qed.

Lemma mount_touches n s ty o h : valid n → (∀ n2, valid n2 → n2 ≠ n → loops h !! s ≠ Some (img n2)) → let '(ok, h') := Mount s (data n) ty o h in
  touches n h h' ∧ loops h' = loops h ∧ (is_dir h' (path n) ↔ is_dir h (path n)) ∧
  (∀ y, single y → files h' !! vol_file basePath n y = files h !! vol_file basePath n y) ∧
  mounts h' = (if ok then {| m_source := s; m_target := data n; m_type := ty; m_opts := o |} :: mounts h else mounts h).
Proof.
  intros Hv Hs. pose proof (hl_mount s (data n) ty o h) as Hk. destruct (Mount s _ ty o h) as [ok h']. destruct Hk as (H1 & H2 & H3).
  assert (Hx : ∀ n2 y, valid n2 → single y → ¬ under (data n) (vol_file basePath n2 y)).
  { intros n2 y Hv2 Hy. apply under_file; [by apply valid_single..|done]. }
  assert (Hp : ∀ n2, single n2 → ¬ under (data n) (path n2)) by (intros n2 Hn2; apply under_file_path; [by apply valid_single|done]).
  split_and!; try done; [|by apply H2, Hp, valid_single|by intros; apply H2, Hx]. split; rewrite ?H1; try done; eauto.
  - intros n2 Hv2 Hn. unfold on. rewrite H3. destruct ok; [|done]. rewrite filter_cons_False; [done|]. intros E. apply Hn. symmetry.
    eapply vol_file_name; [| |exact E]; by apply valid_single.
  - intros n2 x Hv2 Hn Hx2. by apply H2, Hx.
  - intros n2 Hs2 Hn. by apply H2, Hp.
  - intros n2 d m Hv2 Hn Hd Hm Es. rewrite H3 in Hm. destruct ok; [|done]. apply elem_of_cons in Hm as [->|?]; [|done]. cbn in Es. subst d. by apply Hs in Hd.
  - intros m Hm. rewrite H3 in Hm. destruct ok; [|by left]. apply elem_of_cons in Hm as [->|?]; [by right|by left].
Qed.

Lemma remove_mount_sub t l m : m ∈ remove_mount t l → m ∈ l.
Proof. induction l as [|a l IH]; [done|]. cbn [remove_mount]. case_decide; [by right|]. intros [->|?]%elem_of_cons; [by left|right; by apply IH]. Qed.
Lemma remove_mount_filter t u l : filter (λ m, m_target m = u) (remove_mount t l) =
  if decide (t = u) then tail (filter (λ m, m_target m = u) l) else filter (λ m, m_target m = u) l.
Proof.
  induction l as [|a l IH]; [by case_decide|]. cbn [remove_mount]. destruct (decide (m_target a = t)) as [E|E].
  - case_decide as Hd; [subst; by rewrite filter_cons_True|rewrite filter_cons_False; [done|congruence]].
  - destruct (decide (m_target a = u)) as [Eu|Eu].
    + rewrite !filter_cons_True by done. rewrite IH. rewrite !decide_False by congruence. done.
    + rewrite !filter_cons_False by done. apply IH.
Qed.

Lemma unmount_touches n h : valid n → let '(ok, h') := Unmount (data n) h in
  touches n h h' ∧ loops h' = loops h ∧ (is_dir h' (path n) ↔ is_dir h (path n)) ∧
  (∀ y, single y → files h' !! vol_file basePath n y = files h !! vol_file basePath n y) ∧
  on n h' = (if ok then tail (on n h) else on n h) ∧ (∀ m, m ∈ mounts h' → m ∈ mounts h).
Proof.
  intros Hv. pose proof (hl_unmount (data n) h) as Hk. destruct (Unmount _ h) as [ok h']. destruct Hk as (H1 & H2 & H3).
  assert (Hx : ∀ n2 y, valid n2 → single y → ¬ under (data n) (vol_file basePath n2 y)).
  { intros n2 y Hv2 Hy. apply under_file; [by apply valid_single..|done]. }
  assert (Hp : ∀ n2, single n2 → ¬ under (data n) (path n2)) by (intros n2 Hn2; apply under_file_path; [by apply valid_single|done]).
  assert (Hm : ∀ m, m ∈ mounts h' → m ∈ mounts h) by (intros m; rewrite H3; destruct ok; [apply remove_mount_sub|done]).
  split_and!; try done; [|by apply H2, Hp, valid_single|by intros; apply H2, Hx|].
  - split; rewrite ?H1; try done; eauto.
    + intros n2 Hv2 Hn. unfold on. rewrite H3. destruct ok; [|done]. rewrite remove_mount_filter, decide_False; [done|]. intros E. apply Hn. symmetry.
      eapply vol_file_name; [| |exact E]; by apply valid_single.
    + intros n2 x Hv2 Hn Hx2. by apply H2, Hx.
    + intros n2 Hs2 Hn. by apply H2, Hp.
  - unfold on. rewrite H3. destruct ok; [|done]. by rewrite remove_mount_filter, decide_True.
Qed.

(** ** The storage of a volume *)

Definition no_device (n : string) (h : H) : Prop := ∀ d, loops h !! d ≠ Some (img n).
(** Nothing of the volume is mounted or attached. *)
Record bare (n : string) (h : H) : Prop := { b_on : on n h = []; b_loops : no_device n h; b_info : files h !! info n = None }.
(** An ext4 file system on the device [d] of its image. *)
Record loop_backed (d n : string) (h : H) : Prop := {
  l_on : on n h = [{| m_source := d; m_target := data n; m_type := "ext4"; m_opts := "" |}];
  l_dev : HasPrefix d "/dev/" = true ∧ no_newline d;
  l_loops : ∀ d', loops h !! d' = Some (img n) ↔ d' = d;
  l_info : files h !! info n = Some (loop_info d (img n));
  l_source : ∀ m, m ∈ mounts h → m_source m = d → m_target m = data n;
}.
Record memory_backed (v : Volume) (n : string) (h : H) : Prop := {
  m_on : on n h = [{| m_source := "tmpfs"; m_target := data n; m_type := "tmpfs"; m_opts := "size=" +:+ Itoa (v_SizeBytes v) |}];
  m_loops : no_device n h; m_info : files h !! info n = None;
}.
(** What the steps on the storage keep of the volume itself. *)
Record keeps (n : string) (h h' : H) : Prop := { k_meta : files h' !! meta n = files h !! meta n; k_dir : is_dir h' (path n) ↔ is_dir h (path n) }.

Lemma keeps_storage_trans n h1 h2 h3 : keeps n h1 h2 → keeps n h2 h3 → keeps n h1 h3.
Proof. intros [A1 A2] [B1 B2]. split; [by rewrite B1|by rewrite B2]. Qed.

Lemma bare_touches n n' h h' : touches n' h h' → valid n → n ≠ n' → bare n h → bare n h'.
Proof.
  intros [T1 T2 T3 _ _ _ _] Hv Hn [B1 B2 B3]. split; [by rewrite T1|intros d Hd; apply (B2 d); by apply T2|]. rewrite T3; [done..|refine (bool_decide_unpack _ _); vm_compute; exact I].
Qed.
Lemma loop_touches d n n' h h' : touches n' h h' → valid n → n ≠ n' → loop_backed d n h → loop_backed d n h'.
Proof.
  intros [T1 T2 T3 _ T5 _ _] Hv Hn [B1 B2 B3 B4 B5]. split; [by rewrite T1|done|intros d'; by rewrite T2| |].
  - rewrite T3; [done..|refine (bool_decide_unpack _ _); vm_compute; exact I].
  - intros m Hm Hs. apply B5; [|done]. eapply T5; [exact Hv|done| |done|done]. by apply B3.
Qed.
Lemma memory_touches v n n' h h' : touches n' h h' → valid n → n ≠ n' → memory_backed v n h → memory_backed v n h'.
Proof.
  intros [T1 T2 T3 _ _ _ _] Hv Hn [B1 B2 B3]. split; [by rewrite T1|intros d Hd; apply (B2 d); by apply T2|]. rewrite T3; [done..|refine (bool_decide_unpack _ _); vm_compute; exact I].
Qed.

Context {HB : Obedient H} (Hb : clean_path basePath) (Hnb : no_newline basePath).

(** The roll-back of a loop device. *)
Lemma undo_loop d n h : valid n → loops h !! d = Some (img n) → (∀ d', loops h !! d' = Some (img n) → d' = d) → (∀ m, m ∈ mounts h → m_source m ≠ d) →
  let h' := (Remove (img n) (detachLoopDevice d h).2).2 in
  touches n h h' ∧ keeps n h h' ∧ on n h' = on n h ∧ no_device n h' ∧ files h' !! info n = files h !! info n.
Proof.
  intros Hv Hd Hu Hm h'. pose proof (detach_touches n d h Hv) as Hk. pose proof (ob_detach d h (mk_is_Some _ _ Hd)) as Ho.
  unfold h'. clear h'. destruct (detachLoopDevice d h) as [ok h1]. cbn [fst snd] in *. subst ok.
  destruct Hk as (T1 & E1 & F1 & D1 & L1 & _ & L2).
  { intros n2 Hv2 Hn. rewrite Hd. intros [= E]. apply Hn. symmetry. eapply vol_file_name; [| |exact E]; by apply valid_single. }
  specialize (L2 eq_refl Hm). pose proof (remove_touches n "volume.img" h1 Hv) as Hr. destruct (Remove (img n) h1) as [ok h2]. cbn [snd].
  destruct Hr as (T2 & [E2 L3] & F2 & _ & D2). split_and!.
  - by eapply touches_trans.
  - split; [rewrite F2, F1 by done; done|by rewrite D2].
  - unfold on. by rewrite E2, E1.
  - intros d'. rewrite L3. destruct (decide (d' = d)) as [->|Hne]; [by rewrite L2|]. rewrite L1 by done. intros Hx. by apply Hne, Hu.
  - by rewrite F2, F1.
Qed.

Lemma create_loop v n h : valid n → v_Path v = path n → bare n h →
  let '(ok, h') := createLoopFilesystem v (data n) h in
  touches n h h' ∧ keeps n h h' ∧ if ok then ∃ d, loop_backed d n h' else bare n h'.
Proof.
  intros Hv Hp [Bo Bl Bi]. unfold createLoopFilesystem. rewrite Hp, image_file_of, loop_file_of by done.
  pose proof (dd_touches n (v_SizeBytes v) h Hv) as Hk. destruct (createSparseFile _ _ h) as [ok h1]. destruct Hk as (T1 & [E1 L1] & F1 & D1).
  assert (Hi1 : files h1 !! info n = None) by (by rewrite F1). assert (K1 : keeps n h h1) by (split; [by apply F1|done]).
  destruct ok; cbn [negb].
  2:{ split_and!; [done..|]. split; [unfold on; by rewrite E1|intros d; by rewrite L1|done]. }
  pose proof (setup_touches n h1 Hv) as Hk. destruct (setupLoopDevice _ h1) as [[d|] h2]; destruct Hk as (T2 & E2 & F2 & D2 & L2).
  2:{ pose proof (remove_touches n "volume.img" h2 Hv) as Hk. destruct (Remove _ h2) as [ok h3]. cbn [snd]. destruct Hk as (T3 & [E3 L3] & F3 & _ & D3).
      split_and!; [eapply touches_trans; [exact T1|by eapply touches_trans]| |].
      - split; [by rewrite F3, F2, F1|by rewrite D3, D2, D1].
      - split; [unfold on; by rewrite E3, E2, E1|intros d; by rewrite L3, L2, L1|by rewrite F3, F2, Hi1]. }
  destruct L2 as (Hdev & Hnl & Hfree & Hsrc & L2).
  assert (T02 : touches n h h2) by (by eapply touches_trans). assert (K02 : keeps n h h2) by (split; [by rewrite F2, F1|by rewrite D2, D1]).
  assert (Ho2 : on n h2 = []) by (unfold on; by rewrite E2, E1). assert (Hi2 : files h2 !! info n = None) by (by rewrite F2).
  assert (Ld2 : loops h2 !! d = Some (img n)) by (rewrite L2; apply lookup_insert_eq).
  assert (Lu2 : ∀ d', loops h2 !! d' = Some (img n) → d' = d).
  { intros d'. rewrite L2, lookup_insert. case_decide; [done|]. rewrite L1. intros Hx. by apply Bl in Hx. }
  assert (Hs2 : ∀ m, m ∈ mounts h2 → m_source m ≠ d) by (rewrite E2; exact Hsrc).
  pose proof (write_touches n "loop-info.txt" (loop_info d (img n)) h2 Hv) as Hk. pose proof (ob_write (info n) (loop_info d (img n)) h2) as Hw.
  destruct (WriteFile _ _ h2) as [ok h3]. cbn [fst snd] in Hw. destruct Hk as (T3 & [E3 L3] & F3 & W3 & D3).
  assert (T03 : touches n h h3) by (by eapply touches_trans). assert (K03 : keeps n h h3) by (eapply keeps_storage_trans; [exact K02|by split; [apply F3|]]).
  assert (Ld3 : loops h3 !! d = Some (img n)) by (by rewrite L3). assert (Lu3 : ∀ d', loops h3 !! d' = Some (img n) → d' = d) by (by rewrite L3).
  assert (Hs3 : ∀ m, m ∈ mounts h3 → m_source m ≠ d) by (by rewrite E3). assert (Ho3 : on n h3 = []) by (unfold on; by rewrite E3).
  destruct ok; cbn [negb].
  2:{ destruct (undo_loop d n h3 Hv Ld3 Lu3 Hs3) as (Tu & Ku & Ou & Du & Iu). split_and!; [by eapply touches_trans|by eapply keeps_storage_trans|].
      split; [by rewrite Ou|done|]. by rewrite Iu, Hw. }
  pose proof (mkfs_touches n d h3 Hv Ld3) as Hk. destruct (createFilesystem d h3) as [ok h4]. destruct Hk as (T4 & [E4 L4] & D4 & F4).
  assert (T04 : touches n h h4) by (by eapply touches_trans). assert (K04 : keeps n h h4) by (eapply keeps_storage_trans; [exact K03|by split; [apply F4|]]).
  assert (Ld4 : loops h4 !! d = Some (img n)) by (by rewrite L4). assert (Lu4 : ∀ d', loops h4 !! d' = Some (img n) → d' = d) by (by rewrite L4).
  assert (Hs4 : ∀ m, m ∈ mounts h4 → m_source m ≠ d) by (by rewrite E4). assert (Ho4 : on n h4 = []) by (unfold on; by rewrite E4).
  assert (Hi4 : files h4 !! info n = Some (loop_info d (img n))) by (rewrite F4 by done; by apply W3).
  assert (Hfail : ∀ h5, touches n h h5 → keeps n h h5 → mounts h5 = mounts h4 → loops h5 = loops h4 → files h5 !! info n = files h4 !! info n →
            let h6 := (Remove (info n) (Remove (img n) (detachLoopDevice d h5).2).2).2 in touches n h h6 ∧ keeps n h h6 ∧ bare n h6).
  { intros h5 T5 K5 E5 L5 I5 h6. destruct (undo_loop d n h5 Hv) as (Tu & Ku & Ou & Du & Iu); [by rewrite L5|by rewrite L5|by rewrite E5|].
    set (hu := (Remove (img n) (detachLoopDevice d h5).2).2) in *. pose proof (remove_touches n "loop-info.txt" hu Hv) as Hk.
    assert (Hsi : is_Some (files hu !! info n)) by (rewrite Iu, I5, Hi4; by eexists). pose proof (ob_remove (info n) hu Hsi) as Hok.
    unfold h6. destruct (Remove (info n) hu) as [ok6 h6']. cbn [fst snd] in *. subst ok6. destruct Hk as (T6 & [E6 L6] & F6 & G6 & D6).
    split_and!; [eapply touches_trans; [exact T5|by eapply touches_trans]|eapply keeps_storage_trans; [exact K5|eapply keeps_storage_trans; [exact Ku|by split; [apply F6|]]]|].
    split; [|intros d'; by rewrite L6|done]. unfold on in *. by rewrite E6, Ou, E5, Ho4. }
  destruct ok; cbn [negb]; [|by apply Hfail].
  pose proof (mount_touches n d "ext4" "" h4 Hv) as Hk. destruct (Mount d _ _ _ h4) as [ok h5].
  destruct Hk as (T5 & L5 & D5 & F5 & E5).
  { intros n2 Hv2 Hn. rewrite Ld4. intros [= E]. apply Hn. symmetry. eapply vol_file_name; [| |exact E]; by apply valid_single. }
  assert (T05 : touches n h h5) by (by eapply touches_trans).
  assert (K05 : keeps n h h5) by (eapply keeps_storage_trans; [exact K04|split; [apply F5; refine (bool_decide_unpack _ _); vm_compute; exact I|done]]).
  assert (Hi5 : files h5 !! info n = files h4 !! info n) by (apply F5; refine (bool_decide_unpack _ _); vm_compute; exact I).
  destruct ok; cbn [negb]; [|by apply Hfail].
  pose proof (hl_chmod (data n) h5) as (C1 & C2 & C3 & C4). set (h6 := (Chmod (data n) h5).2) in *. split_and!.
  - eapply touches_trans; [exact T05|]. apply touches_quiet; [done..|by intros; rewrite C1|by intros; apply C2].
  - eapply keeps_storage_trans; [exact K05|]. split; [by rewrite C1|apply C2].
  - exists d. split; [|done| | |].
    + unfold on. rewrite C3, E5, filter_cons_True by done. f_equal. exact Ho4.
    + intros d'. rewrite C4, L5. split; [apply Lu4|by intros ->].
    + by rewrite C1, Hi5.
    + intros m. rewrite C3, E5. intros [->|Hm]%elem_of_cons Hs; [done|]. by apply Hs4 in Hm.
Qed.

(** *** Reading the device back *)

Lemma has_prefix_app p s : HasPrefix (p +:+ s) p = true.
Proof. apply HasPrefix_bytes. exists (bytes s). apply bytes_app. Qed.
Lemma trim_prefix_app p s : TrimPrefix (p +:+ s) p = s.
Proof.
  unfold TrimPrefix. rewrite has_prefix_app. apply bytes_inj. rewrite ?bytes_of_bytes, ?bytes_app. rewrite <- ?length_bytes. by rewrite drop_app_length.
Qed.

Lemma img_no_newline n : valid n → no_newline (img n).
Proof.
  intros (_ & Hn & _)%valid_plain. unfold no_newline, vol_file in *. rewrite !bytes_app. intros Hx. apply elem_of_app in Hx as [Hx|Hx]; [by apply Hnb|].
  apply elem_of_app in Hx as [Hx|Hx]; [revert Hx; refine (bool_decide_unpack _ _); vm_compute; exact I|]. apply elem_of_app in Hx as [Hx|Hx]; [by apply Hn|].
  revert Hx. refine (bool_decide_unpack _ _). vm_compute. exact I.
Qed.

Lemma split_lines a b : no_newline a → no_newline b → Split (a +:+ newline +:+ b +:+ newline) (byte_of 10) = [a; b; ""%string].
Proof.
  intros Ha Hb'. unfold Split. rewrite !bytes_app. change (bytes newline) with [byte_of 10]. cbn [app].
  rewrite split_bytes_app by done. rewrite split_bytes_app by done. cbn [split_bytes fmap list_fmap]. by rewrite !of_bytes_bytes.
Qed.

Lemma loop_info_read d n h : valid n → HasPrefix d "/dev/" = true → no_newline d → files h !! info n = Some (loop_info d (img n)) →
  getLoopDeviceFromInfo (path n) h = Some (d, img n).
Proof.
  intros Hv Hd Hn Hi. unfold getLoopDeviceFromInfo. rewrite loop_file_of, hl_read, Hi by done. cbn [mbind option_bind]. unfold loop_info.
  assert (E : ("loop_device=" +:+ d +:+ newline +:+ "backing_file=" +:+ img n +:+ newline)%string =
              (("loop_device=" +:+ d) +:+ newline +:+ ("backing_file=" +:+ img n) +:+ newline)%string) by (apply bytes_inj; by rewrite !bytes_app, <- !app_assoc).
  rewrite E, split_lines.
  - cbn [foldl]. rewrite has_prefix_app, trim_prefix_app. change (HasPrefix ("backing_file=" +:+ img n) "loop_device=") with false. rewrite has_prefix_app, trim_prefix_app.
    cbn [HasPrefix String.prefix]. rewrite (proj2 (String.eqb_neq d "")) by (intros ->; done). rewrite (proj2 (String.eqb_neq (img n) "")); [done|].
    destruct Hb as (ws & _ & _ & Hp). intros Hx%(f_equal bytes). unfold vol_file in Hx. rewrite bytes_app, Hp in Hx. done.
  - unfold no_newline. rewrite bytes_app. intros [Hx|Hx]%elem_of_app; [|by apply Hn]. revert Hx. refine (bool_decide_unpack _ _). vm_compute. exact I.
  - unfold no_newline. rewrite bytes_app. intros [Hx|Hx]%elem_of_app; [|by apply (img_no_newline n)]. revert Hx. refine (bool_decide_unpack _ _). vm_compute. exact I.
Qed.

(** *** Taking the storage away *)

(** How a registered volume is kept. *)
Definition stored_as (v : Volume) (n : string) (h : H) : Prop :=
  if String.eqb (v_Type v) VolumeTypeMemory then memory_backed v n h else bare n h ∨ ∃ d, loop_backed d n h.
Definition no_strays (n : string) (h : H) : Prop := ∀ m, m ∈ mounts h → within (path n) (m_target m) → m_target m = data n.
Record gone (n : string) (h : H) : Prop := { g_bare : bare n h; g_meta : files h !! meta n = None; g_dir : ¬ is_dir h (path n) }.

Lemma remove_path n h : valid n → on n h = [] → no_device n h → no_strays n h →
  let '(_, h') := RemoveAll (path n) h in touches n h h' ∧ gone n h'.
Proof.
  intros Hv Ho Hl Hs. pose proof (remove_all_touches n h Hv) as Hk.
  assert (Hok : (RemoveAll (path n) h).1 = true).
  { apply ob_remove_all. intros m Hm Hw. assert (Hi : m ∈ on n h) by (apply list_elem_of_filter; split; [by apply Hs|done]). rewrite Ho in Hi. by apply not_elem_of_nil in Hi. }
  destruct (RemoveAll (path n) h) as [ok h']. cbn [fst] in Hok. subst ok. destruct Hk as (T & [E L] & G). destruct (G eq_refl) as [F D].
  split; [done|]. split; [|apply F|done]. split; [unfold on; by rewrite E|intros d; by rewrite L|apply F].
Qed.

Lemma cleanup_gone v n h : valid n → v_Path v = path n → v_Type v = VolumeTypeFilesystem ∨ v_Type v = VolumeTypeMemory →
  stored_as v n h → no_strays n h → let '(_, h') := cleanupVolumeStorage v h in touches n h h' ∧ gone n h'.
Proof.
  intros Hv Hp Ht Hs Hst. unfold cleanupVolumeStorage. rewrite Hp, data_dir_of by done. unfold stored_as in Hs. destruct (String.eqb (v_Type v) VolumeTypeMemory) eqn:Em.
  - destruct Hs as [Ho Hl Hi]. pose proof (unmount_touches n h Hv) as Hk.
    assert (Hok : (Unmount (data n) h).1 = true).
    { eapply (ob_unmount (data n) h {| m_source := "tmpfs"; m_target := data n; m_type := "tmpfs"; m_opts := "size=" +:+ Itoa (v_SizeBytes v) |}); [|done].
      apply (list_elem_of_filter (λ m, m_target m = data n)). fold (on n h). rewrite Ho. by left. }
    destruct (Unmount (data n) h) as [ok h1]. cbn [fst snd] in *. subst ok. destruct Hk as (T1 & L1 & D1 & F1 & O1 & M1). rewrite Ho in O1.
    pose proof (remove_path n h1 Hv O1) as Hr. destruct (RemoveAll (path n) h1) as [ok h2]. destruct Hr as [T2 G2]; [intros d; by rewrite L1|intros m Hm; by apply Hst, M1|].
    split; [by eapply touches_trans|done].
  - destruct Ht as [Et|Et]; [|by rewrite Et in Em]. rewrite Et. cbn [String.eqb]. change (String.eqb VolumeTypeFilesystem VolumeTypeFilesystem) with true. cbn [negb].
    unfold cleanupLoopFilesystem. rewrite Hp. destruct Hs as [[Ho Hl Hi]|[d [Ho [Hd Hn] Hl Hi Hsrc]]].
    + unfold getLoopDeviceFromInfo. rewrite loop_file_of, hl_read, Hi by done. cbn [mbind option_bind]. pose proof (remove_path n h Hv Ho Hl Hst) as Hr.
      by destruct (RemoveAll (path n) h).
    + rewrite (loop_info_read d n h) by done. pose proof (unmount_touches n h Hv) as Hk.
      assert (Hok : (Unmount (data n) h).1 = true).
      { eapply (ob_unmount (data n) h {| m_source := d; m_target := data n; m_type := "ext4"; m_opts := "" |}); [|done].
        apply (list_elem_of_filter (λ m, m_target m = data n)). fold (on n h). rewrite Ho. by left. }
      destruct (Unmount (data n) h) as [ok h1]. cbn [fst snd] in *. subst ok. destruct Hk as (T1 & L1 & D1 & F1 & O1 & M1). rewrite Ho in O1. cbn [tail] in O1.
      destruct (undo_loop d n h1 Hv) as (T2 & K2 & O2 & N2 & I2).
      * rewrite L1. by apply Hl.
      * intros d'. rewrite L1. apply Hl.
      * intros m Hm Es. assert (Hi2 : m ∈ on n h1) by (apply list_elem_of_filter; split; [apply Hsrc; [by apply M1|done]|done]). rewrite O1 in Hi2. by apply not_elem_of_nil in Hi2.
      * set (h2 := (Remove (img n) (detachLoopDevice d h1).2).2) in *. rewrite O1 in O2. pose proof (remove_path n h2 Hv O2 N2) as Hr.
        destruct (RemoveAll (path n) h2) as [ok h3]. destruct Hr as [T3 G3].
        { intros m Hm Hw. destruct (t_mounts _ _ _ T2 m Hm) as [Hm1|]; [|done]. by apply Hst; [apply M1|]. }
        split; [|done]. eapply touches_trans; [exact T1|by eapply touches_trans].
Qed.

(** *** Making it *)

Lemma create_storage zone v n h : valid n → v_Path v = path n → v_Type v = VolumeTypeFilesystem ∨ v_Type v = VolumeTypeMemory → bare n h →
  (∀ n2, valid n2 → n2 ≠ n → loops h !! "tmpfs"%string ≠ Some (img n2)) →
  let '(r, h') := createVolumeStorage zone v h in
  touches n h h' ∧ (files h' !! meta n = files h !! meta n ∨ files h' !! meta n = Some (metadata zone v)) ∧
  match r with
  | Ok _ => stored_as v n h' ∧ files h' !! meta n = Some (metadata zone v) ∧ is_dir h' (path n)
  | Err _ => bare n h'
  end.
Proof.
  intros Hv Hp Ht [Bo Bl Bi] Hnt. unfold createVolumeStorage. rewrite Hp, data_dir_of, meta_file_of by done.
  pose proof (mkdir_touches n h Hv) as Hk. destruct (MkdirAll (data n) h) as [ok h1]. destruct Hk as (T1 & [E1 L1] & F1 & D1 & _).
  assert (B1 : bare n h1) by (split; [unfold on; by rewrite E1|intros d; by rewrite L1|by rewrite F1]).
  destruct ok; cbn [negb]; [|split_and!; [done|left; by rewrite F1|done]]. specialize (D1 eq_refl).
  pose proof (write_touches n "volume-info.json" (metadata zone v) h1 Hv) as Hk. pose proof (ob_write (meta n) (metadata zone v) h1) as Hw.
  destruct (WriteFile (meta n) _ h1) as [ok h2]. cbn [fst snd] in Hw. destruct Hk as (T2 & [E2 L2] & F2 & W2 & D2).
  assert (B2 : bare n h2) by (destruct B1 as [? ? ?]; split; [unfold on; by rewrite E2|intros d; by rewrite L2|by rewrite F2]).
  assert (T02 : touches n h h2) by (by eapply touches_trans).
  destruct ok; cbn [negb]; [|split_and!; [done|left; by rewrite Hw, F1|done]]. specialize (W2 eq_refl). apply D2 in D1.
  assert (Hch : ∀ h3, touches n h h3 → stored_as v n h3 → files h3 !! meta n = Some (metadata zone v) → is_dir h3 (path n) →
            let h4 := (Chown (data n) h3).2 in touches n h h4 ∧ stored_as v n h4 ∧ files h4 !! meta n = Some (metadata zone v) ∧ is_dir h4 (path n)).
  { intros h3 T3 S3 M3 D3 h4. destruct (hl_chown (data n) h3) as (C1 & C2 & C3 & C4). fold h4 in C1, C2, C3, C4. split_and!.
    - eapply touches_trans; [exact T3|]. apply touches_quiet; [done..|by intros; rewrite C1|by intros; apply C2].
    - unfold stored_as in *. destruct (String.eqb _ _).
      + destruct S3 as [? ? ?]. split; [unfold on; by rewrite C3|intros d; by rewrite C4|by rewrite C1].
      + destruct S3 as [[? ? ?]|[d [? ? ? ? ?]]]; [left; split; [unfold on; by rewrite C3|intros d; by rewrite C4|by rewrite C1]|right; exists d].
        split; [unfold on; by rewrite C3|done|intros d'; by rewrite C4|by rewrite C1|by rewrite C3].
    - by rewrite C1.
    - by apply C2. }
  pose proof (ob_chown (data n)) as Hco. destruct Ht as [Et|Et]; rewrite Et.
  - change (String.eqb VolumeTypeFilesystem VolumeTypeFilesystem) with true. cbn iota beta. cbn [negb].
    pose proof (create_loop v n h2 Hv Hp B2) as Hk. unfold setupFilesystemVolume. destruct (createLoopFilesystem v (data n) h2) as [okl h3]. cbn [snd]. destruct Hk as (T3 & [K3 KD3] & S3).
    specialize (Hco h3). destruct (Hch h3) as (T4 & S4 & M4 & D4); [by eapply touches_trans| |by rewrite K3|by apply KD3|].
    { unfold stored_as. rewrite Et. change (String.eqb VolumeTypeFilesystem VolumeTypeMemory) with false. cbn iota. destruct okl; [by right|by left]. }
    destruct (Chown (data n) h3) as [ok h4]. cbn [fst snd] in *. subst ok. cbn [negb]. split_and!; [done|by right|done..].
  - change (String.eqb VolumeTypeMemory VolumeTypeFilesystem) with false. change (String.eqb VolumeTypeMemory VolumeTypeMemory) with true. cbn iota.
    unfold setupMemoryVolume. pose proof (mount_touches n "tmpfs" "tmpfs" ("size=" +:+ Itoa (v_SizeBytes v)) h2 Hv) as Hk.
    destruct (Mount _ _ _ _ h2) as [ok h3]. destruct Hk as (T3 & L3 & D3 & F3 & E3).
    { intros n2 Hv2 Hn Hx. apply (Hnt n2 Hv2 Hn). by apply T02. }
    assert (M3 : files h3 !! meta n = Some (metadata zone v)) by (rewrite F3; [done|refine (bool_decide_unpack _ _); vm_compute; exact I]).
    assert (I3 : files h3 !! info n = None) by (rewrite F3; [apply B2|refine (bool_decide_unpack _ _); vm_compute; exact I]).
    assert (N3 : no_device n h3) by (intros d; rewrite L3; apply B2).
    destruct ok; cbn [negb].
    + specialize (Hco h3). destruct (Hch h3) as (T4 & S4 & M4 & D4); [by eapply touches_trans| |done|by apply D3|].
      { unfold stored_as. rewrite Et. change (String.eqb VolumeTypeMemory VolumeTypeMemory) with true. cbn iota. split; [|done..].
        unfold on. rewrite E3, filter_cons_True by done. f_equal. apply B2. }
      destruct (Chown (data n) h3) as [ok h4]. cbn [fst snd] in *. subst ok. cbn [negb]. split_and!; [done|by right|done..].
    + split_and!; [by eapply touches_trans|by right|]. split; [unfold on; rewrite E3; apply B2|done|done].
Qed.

(** ** Runs of the manager *)

Context {VS : Type} `{!Backend VS Volume} `{!LawfulBackend VS Volume} (overflow : float64 → Z) (zone : Z → Z).
Context (Hov : ∀ x, in_int64 (overflow x)) (Q : Volume → Prop).
Implicit Types (a : vol_adapter VS).
Abbreviation reg n a := (b_get n (volumeStore a)).

Record sound_volume (v : Volume) (n : string) : Prop := {
  sv_name : v_Name v = n; sv_path : v_Path v = path n; sv_type : v_Type v = VolumeTypeFilesystem ∨ v_Type v = VolumeTypeMemory;
  sv_size : 0 < v_SizeBytes v ∧ in_int64 (v_SizeBytes v); sv_count : v_JobCount v = 0;
}.

(** Everything below the base path is accounted for by the registered volumes. *)
Record accounted a (h : H) : Prop := {
  ac_reg : ∀ n v, reg n a = Some v → valid n ∧ sound_volume v n ∧ stored_as v n h ∧
    (∃ t, files h !! meta n = Some (metadata zone (set_created t v)) ∧ Q (set_created t v)) ∧ is_dir h (path n);
  ac_unreg : ∀ n, valid n → reg n a = None → bare n h;
  ac_dirs : ∀ n, single n → n ≠ ""%string → is_dir h (path n) → valid n;
  ac_meta : ∀ n, valid n → files h !! meta n = None ∨ ∃ v, files h !! meta n = Some (metadata zone v) ∧ sound_volume v n ∧ Q v;
  ac_mounts : ∀ m, m ∈ mounts h → under basePath (m_target m) → ∃ n, valid n ∧ m_target m = data n;
  ac_loops : ∀ d f, loops h !! d = Some f → under basePath f → ∃ n, valid n ∧ f = img n;
}.

Lemma stored_touches v n n' h h' : touches n' h h' → valid n → n ≠ n' → stored_as v n h → stored_as v n h'.
Proof.
  intros T Hv Hn. unfold stored_as. destruct (String.eqb _ _); [by apply (memory_touches v n n')|]. intros [?|[d ?]]; [left; by eapply bare_touches|right; exists d; by eapply loop_touches].
Qed.

Lemma meta_single : single "volume-info.json".
Proof. refine (bool_decide_unpack _ _). vm_compute. exact I. Qed.

Lemma accounted_step n a a' h h' : valid n → accounted a h → touches n h h' → (∀ n2, n2 ≠ n → reg n2 a' = reg n2 a) →
  match reg n a' with
  | Some v => sound_volume v n ∧ stored_as v n h' ∧ (∃ t, files h' !! meta n = Some (metadata zone (set_created t v)) ∧ Q (set_created t v)) ∧ is_dir h' (path n)
  | None => bare n h'
  end →
  (files h' !! meta n = None ∨ ∃ v, files h' !! meta n = Some (metadata zone v) ∧ sound_volume v n ∧ Q v) → accounted a' h'.
Proof.
  intros Hv [A1 A2 A3 A4 A5 A6] T Hr Hn Hm. split.
  - intros n2 v Hg. destruct (decide (n2 = n)) as [->|Hne]; [rewrite Hg in Hn; done|]. rewrite Hr in Hg by done. destruct (A1 n2 v Hg) as (Hv2 & Hs & Hst & (t & Ht & Hq) & Hd).
    split_and!; [done..|by eapply stored_touches| |].
    + exists t. split; [|done]. rewrite (t_files _ _ _ T); [done..|apply meta_single].
    + apply (t_dir _ _ _ T); [by apply valid_single|done..].
  - intros n2 Hv2 Hg. destruct (decide (n2 = n)) as [->|Hne]; [by rewrite Hg in Hn|]. rewrite Hr in Hg by done. eapply bare_touches; [exact T|done..|by apply A2].
  - intros n2 Hs Hne2 Hd. destruct (decide (n2 = n)) as [->|Hne]; [done|]. apply A3; [done..|]. by apply (t_dir _ _ _ T).
  - intros n2 Hv2. destruct (decide (n2 = n)) as [->|Hne]; [done|]. rewrite (t_files _ _ _ T); [by apply A4|done..|apply meta_single].
  - intros m Hmm Hu. destruct (t_mounts _ _ _ T m Hmm) as [?|E]; [by apply A5|by exists n].
  - intros d f Hl Hu. destruct (t_backing _ _ _ T d f Hl) as [?|E]; [by eapply A6|by exists n].
Qed.

Lemma under_base n x : under basePath (vol_file basePath n x).
Proof. unfold under. apply HasPrefix_bytes. exists (bytes n ++ "/"%char :: bytes x). unfold vol_file. by rewrite !bytes_app, <- !app_assoc. Qed.

Lemma within_base n t : within (path n) t → under basePath t.
Proof.
  intros [->|Hu]; unfold under in *; [apply HasPrefix_bytes; exists (bytes n); unfold vol_path; by rewrite !bytes_app, <- !app_assoc|].
  apply HasPrefix_bytes in Hu as [l E]. apply HasPrefix_bytes. exists (bytes n ++ "/"%char :: l). rewrite E. unfold vol_path. by rewrite !bytes_app, <- !app_assoc.
Qed.

Lemma accounted_strays a h n : accounted a h → valid n → no_strays n h.
Proof.
  intros Ha Hv m Hm Hw. destruct (ac_mounts _ _ Ha m Hm) as (n2 & Hv2 & E); [by eapply within_base|]. rewrite E in Hw |- *.
  apply under_path in Hw as ->; [done|by apply valid_single..].
Qed.

Lemma accounted_tmpfs a h n : accounted a h → valid n → loops h !! "tmpfs"%string ≠ Some (img n).
Proof.
  intros Ha Hv Hl. destruct (reg n a) as [v|] eqn:Er; [|by apply (b_loops _ _ (ac_unreg _ _ Ha n Hv Er)) in Hl].
  destruct (ac_reg _ _ Ha n v Er) as (_ & _ & Hs & _). unfold stored_as in Hs. destruct (String.eqb _ _).
  - by apply (m_loops _ _ _ Hs) in Hl.
  - destruct Hs as [Hs|[d Hs]]; [by apply (b_loops _ _ Hs) in Hl|]. apply (l_loops _ _ _ Hs) in Hl. pose proof (l_dev _ _ _ Hs) as [Hd _]. by rewrite <- Hl in Hd.
Qed.

(** *** New volumes *)

Lemma new_volume now name size ty v : NewVolume overflow now name size ty = Ok v →
  valid name ∧ v_Name v = name ∧ (v_Type v = VolumeTypeFilesystem ∨ v_Type v = VolumeTypeMemory) ∧ 0 < v_SizeBytes v ∧ in_int64 (v_SizeBytes v) ∧
  v_JobCount v = 0 ∧ v_Size v = size ∧ v_CreatedTime v = now.
Proof.
  unfold NewVolume. destruct (String.eqb name ""); [done|]. destruct (IsValidVolumeName name) eqn:Hv; [|done]. cbn [negb].
  destruct (ParseSize overflow size) as [b|] eqn:Ep; [|done]. destruct (Z.leb_spec b 0) as [|Hb0]; [done|].
  destruct (String.eqb_spec ty VolumeTypeFilesystem) as [->|]; [|destruct (String.eqb_spec ty VolumeTypeMemory) as [->|]; [|done]]; cbn [negb andb]; intros [= <-]; cbn;
    (split_and!; [done|done|auto|done| |done|done|done]).
  all: unfold ParseSize in Ep; destruct (String.eqb size ""); [done|]; destruct (size_parts _) as [num unit]; destruct num; [done|];
    destruct (decimal_literal _) as [[m k]|]; [|done]; destruct (unit_multiplier _); [|done]; destruct (finite _); [|done]; injection Ep as <-;
    unfold to_int64; destruct (finite _ && bool_decide _) eqn:E; [apply andb_prop in E as [_ E]; by to_prop|apply Hov].
Qed.

Lemma store_volume now v n a : sound_volume v n → valid n → let '(r, a') := CreateVolume now (Some v) a in
  match r with
  | Ok _ => reg n a' = Some (set_created now v) ∧ (∀ n2, n2 ≠ n → reg n2 a' = reg n2 a) ∧ jobCounts a' = <[n := 0]> (jobCounts a) ∧ vol_closed a' = vol_closed a
  | Err _ => a' = a
  end.
Proof.
  intros [En _ _ _ _] Hv. unfold CreateVolume. destruct (vol_closed a); [done|]. case_bool_decide; [done|]. destruct (validateVolume v); [|done].
  cbn [v_Name]. rewrite En. destruct (b_create _ _ _) as [s|e] eqn:E; [|done]. cbn [volumeStore jobCounts vol_closed].
  assert (Hg : ∀ k, b_get k s = if decide (k = n) then Some (set_created now v) else b_get k (volumeStore a)).
  { intros k. rewrite (b_get_create _ _ _ _ k E). unfold set_created. by rewrite En. }
  split_and!; [by rewrite Hg, decide_True| |done..]. intros n2 Hn. by rewrite Hg, decide_False.
Qed.

Inductive mop := MCreate (now stored : Z) (name size volumeType : string) | MRemove (name : string) | MAttach (names : list string) | MDetach (names : list string).
Definition mstep (s : vol_adapter VS * H) (op : mop) : vol_adapter VS * H :=
  let '(a, h) := s in
  match op with
  | MCreate now stored name size ty => let '(_, a, h) := Manager_CreateVolume overflow basePath zone now stored name size ty a h in (a, h)
  | MRemove name => let '(_, a, h) := Manager_RemoveVolume name a h in (a, h)
  | MAttach names => ((AttachVolumeToJob names a).2, h)
  | MDetach names => (DetachVolumeFromJob names a, h)
  end.
Definition mrun (ops : list mop) (s : vol_adapter VS * H) : vol_adapter VS * H := foldl mstep s ops.
(** No volume is created that exists. *)
Definition fresh_op (s : vol_adapter VS * H) (op : mop) : Prop := match op with MCreate _ _ name _ _ => reg name s.1 = None | _ => True end.
Definition made_well (op : mop) : Prop :=
  match op with MCreate now _ name size ty => ∀ v, NewVolume overflow now name size ty = Ok v → Q (set_path (path name) v) | _ => True end.
Fixpoint fresh_run (s : vol_adapter VS * H) (ops : list mop) : Prop :=
  match ops with [] => True | op :: ops => fresh_op s op ∧ fresh_run (mstep s op) ops end.

Lemma counts_only a a' h : volumeStore a' = volumeStore a → accounted a h → accounted a' h.
Proof. intros E [A1 A2 A3 A4 A5 A6]. split; rewrite ?E; done. Qed.

Lemma increment_store n a : volumeStore (IncrementJobCount n a).2 = volumeStore a.
Proof. unfold IncrementJobCount. destruct (vol_closed a); [done|]. case_bool_decide; [done|]. by destruct (GetVolume n a). Qed.
Lemma decrement_store n a : volumeStore (DecrementJobCount n a).2 = volumeStore a.
Proof. unfold DecrementJobCount. destruct (vol_closed a); [done|]. case_bool_decide; [done|]. destruct (jobCounts a !! n); [|done]. by destruct (_ <=? _). Qed.
Lemma rollback_store n ns a : volumeStore (rollback n ns a) = volumeStore a.
Proof. revert a. induction ns as [|m ns IH]; intros a; [done|]. cbn [rollback]. case_bool_decide; [done|]. by rewrite IH, decrement_store. Qed.
Lemma attach_store ns a : volumeStore (AttachVolumeToJob ns a).2 = volumeStore a.
Proof.
  unfold AttachVolumeToJob. generalize ns at 1 as all. intros all. revert a. induction ns as [|n ns IH]; intros a; [done|]. cbn [attach_loop].
  pose proof (increment_store n a) as E. destruct (IncrementJobCount n a) as [[u|e] a']; cbn [snd] in *; [by rewrite IH|by rewrite rollback_store].
Qed.
Lemma detach_store ns a : volumeStore (DetachVolumeFromJob ns a) = volumeStore a.
Proof. unfold DetachVolumeFromJob. revert a. induction ns as [|n ns IH]; intros a; [done|]. cbn [foldl]. by rewrite IH, decrement_store. Qed.

Lemma DeepCopy_eq v : Volume_DeepCopy v = v.
Proof. by destruct v. Qed.

Lemma mstep_accounted op a h : accounted a h → fresh_op (a, h) op → made_well op → let '(a', h') := mstep (a, h) op in accounted a' h'.
Proof.
  intros Ha Hf Hq. destruct op as [now stored n size ty|n|ns|ns]; cbn [mstep].
  - cbn [fresh_op fst] in Hf. unfold Manager_CreateVolume. destruct (NewVolume overflow now n size ty) as [v0|e] eqn:En; [|done].
    cbn [made_well] in Hq. specialize (Hq v0 En). apply new_volume in En as (Hv & E1 & E2 & E3 & E4 & E5 & _). rewrite path_of by done. set (v := set_path (path n) v0).
    assert (Hs : sound_volume v n) by (split; [done..|by split|done]).
    pose proof (create_storage zone v n h Hv eq_refl (sv_type _ _ Hs) (ac_unreg _ _ Ha n Hv Hf)) as Hk. destruct (createVolumeStorage zone v h) as [[u|e] h1];
      destruct Hk as (T1 & M1 & S1); try (by intros; apply (accounted_tmpfs a)).
    2:{ apply (accounted_step n a a h h1); [done..|by rewrite Hf|]. destruct M1 as [->|M1]; [by apply Ha|right; by exists v]. }
    destruct S1 as (S1 & M2 & D1). pose proof (store_volume stored v n a Hs Hv) as Hk. destruct (CreateVolume stored (Some v) a) as [[u2|e] a1].
    + destruct Hk as (R1 & R2 & _ & _). apply (accounted_step n a a1 h h1); [done..| |by right; exists v]. rewrite R1. split_and!.
      * destruct Hs. by split.
      * unfold stored_as in *. cbn [set_created v_Type]. destruct (String.eqb _ _); [destruct S1; by split|done].
      * exists (v_CreatedTime v). rewrite M2. done.
      * done.
    + subst a1. pose proof (cleanup_gone v n h1 Hv eq_refl (sv_type _ _ Hs) S1) as Hk. destruct (cleanupVolumeStorage v h1) as [ok h2]. cbn [snd]. destruct Hk as [T2 [G1 G2 G3]].
      { intros m Hm Hw. destruct (t_mounts _ _ _ T1 m Hm) as [Hm1|]; [|done]. by apply (accounted_strays a h n Ha Hv). }
      apply (accounted_step n a a h h2); [done..|by eapply touches_trans|done|by rewrite Hf|by left].
  - unfold Manager_RemoveVolume. destruct (GetVolume n a) as [w|] eqn:Eg; [|done]. unfold GetVolume in Eg. destruct (vol_closed a) eqn:Ec; [done|]. case_bool_decide as Hne; [done|].
    destruct (reg n a) as [v|] eqn:Er; [|done]. cbn [fmap option_fmap option_map] in Eg. rewrite DeepCopy_eq in Eg. injection Eg as <-.
    destruct (ac_reg _ _ Ha n v Er) as (Hv & Hs & Hst & _ & _). unfold RemoveVolume. rewrite Ec, bool_decide_eq_false_2, Er by done.
    destruct (count_of n a >? 0); [done|]. destruct (b_delete n (volumeStore a)) as [s|e] eqn:Ed; [|by destruct e].
    pose proof (cleanup_gone v n h Hv (sv_path _ _ Hs) (sv_type _ _ Hs) Hst (accounted_strays a h n Ha Hv)) as Hk. destruct (cleanupVolumeStorage v h) as [ok h2]. cbn [snd].
    destruct Hk as [T2 [G1 G2 G3]]. eapply (accounted_step n a); [done..| | |by left].
    + intros n2 Hn2. cbn [volumeStore]. by rewrite (b_get_delete _ _ _ _ Ed), decide_False.
    + cbn [volumeStore]. by rewrite (b_get_delete _ _ _ _ Ed), decide_True.
  - apply (counts_only a); [apply attach_store|done].
  - apply (counts_only a); [apply detach_store|done].
Qed.

(** Nothing below the base path yet. *)
Record clean (h : H) : Prop := {
  c_mounts : ∀ m, m ∈ mounts h → ¬ under basePath (m_target m);
  c_loops : ∀ d f, loops h !! d = Some f → ¬ under basePath f;
  c_files : ∀ q, under basePath q → files h !! q = None ∧ ¬ is_dir h q;
}.

Lemma clean_accounted h : clean h → accounted NewVolumeStoreAdapter h.
Proof.
  intros [C1 C2 C3]. split; cbn [NewVolumeStoreAdapter volumeStore].
  - intros n v. by rewrite b_get_empty.
  - intros n Hv _. split; [|intros d Hd; by apply (C2 _ _ Hd), under_base|by apply C3, under_base]. unfold on.
    assert (∀ m, m ∈ filter (λ m, m_target m = data n) (mounts h) → False) as Hn.
    { intros m [E Hm]%list_elem_of_filter. apply (C1 m Hm). rewrite E. apply under_base. }
    destruct (filter _ _) as [|m l]; [done|]. exfalso. apply (Hn m). by left.
  - intros n Hs Hne Hd. exfalso. apply (C3 (path n)); [by apply (within_base n); left|done].
  - intros n Hv. left. by apply C3, under_base.
  - intros m Hm Hu. by apply C1 in Hm.
  - intros d f Hl Hu. by apply C2 in Hl.
Qed.

Lemma mrun_accounted ops s : accounted s.1 s.2 → fresh_run s ops → Forall made_well ops → accounted (mrun ops s).1 (mrun ops s).2.
Proof.
  intros Ha Hf Hq. revert s Ha Hf. induction Hq as [|op ops Ho _ IH]; intros [a h] Ha Hf; [done|]. destruct Hf as [Hf1 Hf2]. cbn [mrun foldl]. apply IH; [|done].
  pose proof (mstep_accounted op a h Ha Hf1 Ho) as Hk. by destruct (mstep (a, h) op).
Qed.

Lemma CreateVolume_closed now v a : vol_closed (CreateVolume now v a).2 = vol_closed a.
Proof.
  unfold CreateVolume. destruct (vol_closed a) eqn:E; [done|]. destruct v; [|done]. case_bool_decide; [done|]. destruct (validateVolume v); [|done].
  by destruct (b_create _ _ _).
Qed.
Lemma RemoveVolume_closed n a : vol_closed (RemoveVolume n a).2 = vol_closed a.
Proof.
  unfold RemoveVolume. destruct (vol_closed a) eqn:E; [done|]. case_bool_decide; [done|]. destruct (_ >? 0); [done|]. destruct (b_get n _); [|done].
  by destruct (b_delete n _) as [|[]].
Qed.
Lemma increment_closed n a : vol_closed (IncrementJobCount n a).2 = vol_closed a.
Proof. unfold IncrementJobCount. destruct (vol_closed a) eqn:E; [done|]. case_bool_decide; [done|]. by destruct (GetVolume n a). Qed.
Lemma decrement_closed n a : vol_closed (DecrementJobCount n a).2 = vol_closed a.
Proof. unfold DecrementJobCount. destruct (vol_closed a) eqn:E; [done|]. case_bool_decide; [done|]. destruct (jobCounts a !! n); [|done]. by destruct (_ <=? _). Qed.
Lemma mstep_closed s op : vol_closed (mstep s op).1 = vol_closed s.1.
Proof.
  destruct s as [a h], op as [now stored n size ty|n|ns|ns]; cbn [mstep fst].
  - unfold Manager_CreateVolume. destruct (NewVolume _ _ _ _ _); [|done]. destruct (createVolumeStorage _ _ _) as [[u|e] h1]; [|done].
    pose proof (CreateVolume_closed stored (Some (set_path (Join_path [basePath; n]) a0)) a) as E. by destruct (CreateVolume _ _ a) as [[u2|e] a1].
  - unfold Manager_RemoveVolume. destruct (GetVolume n a); [|done]. pose proof (RemoveVolume_closed n a) as E. by destruct (RemoveVolume n a) as [[u2|e] a1].
  - unfold AttachVolumeToJob. generalize ns at 1 as all. intros all. revert a. induction ns as [|n ns IH]; intros a; [done|]. cbn [attach_loop].
    pose proof (increment_closed n a) as E. destruct (IncrementJobCount n a) as [[u|e] a']; cbn [snd] in *; [by rewrite IH|].
    rewrite <- E. clear. revert a'. induction all as [|m l IH]; intros a; [done|]. cbn [rollback]. case_bool_decide; [done|]. by rewrite IH, decrement_closed.
  - unfold DetachVolumeFromJob. revert a. induction ns as [|n ns IH]; intros a; [done|]. cbn [foldl]. by rewrite IH, decrement_closed.
Qed.
Lemma mrun_open ops s : vol_closed s.1 = false → vol_closed (mrun ops s).1 = false.
Proof. revert s. induction ops as [|op ops IH]; intros s Hc; [done|]. cbn [mrun foldl]. apply IH. by rewrite mstep_closed. Qed.

Lemma get_reg a h n v : accounted a h → vol_closed a = false → GetVolume n a = Some v ↔ reg n a = Some v.
Proof.
  intros Ha Hc. unfold GetVolume. rewrite Hc. case_bool_decide as Hn.
  - subst n. split; [done|]. intros Hr. by destruct (ac_reg _ _ Ha _ v Hr) as [Hv _].
  - destruct (reg n a) as [w|]; [|done]. cbn [fmap option_fmap option_map]. by rewrite DeepCopy_eq.
Qed.
End storage.

(** ** What the manager keeps *)

Section theorems.
Context {H : Type} {HO : Host H} {HL : HostLaws H} {HB : Obedient H} (basePath : string) (Hb : clean_path basePath) (Hnb : no_newline basePath).
Context {VS : Type} `{!Backend VS Volume} `{!LawfulBackend VS Volume} (overflow : float64 → Z) (zone : Z → Z).
Implicit Types (a : vol_adapter VS).


(** *** Creating a volume that exists *)

Lemma loop_formats v n h : IsValidVolumeName n = true → v_Path v = vol_path basePath n →
  let '(ok, h') := createLoopFilesystem v (vol_file basePath n "data") h in
  if ok then (∃ d, mounts h' = {| m_source := d; m_target := vol_file basePath n "data"; m_type := "ext4"; m_opts := "" |} :: mounts h) ∧
    (∀ d f, loops h !! d = Some f → loops h' !! d = Some f) ∧ ∃ c, files h' !! vol_file basePath n "volume.img" = Some c ∧ empty_fs c
  else mounts h' = mounts h.
Proof.
  intros Hv Hp. pose proof (valid_single n Hv) as Hn. unfold createLoopFilesystem. rewrite Hp, image_file_of, loop_file_of by done. set (img := vol_file basePath n "volume.img").
  pose proof (hl_dd img (v_SizeBytes v) h) as Hk. destruct (createSparseFile _ _ h) as [ok h1]. destruct Hk as (_ & C1 & _ & E1 & L1). destruct ok; cbn [negb]; [|done].
  destruct (C1 eq_refl) as (c1 & C1'). pose proof (setup_touches basePath n h1 Hv) as Hk. destruct (setupLoopDevice _ h1) as [[d|] h2]; destruct Hk as (_ & E2 & F2 & _ & L2).
  2:{ pose proof (hl_remove img h2) as Hk. destruct (Remove img h2) as [? h3]. cbn [snd]. destruct Hk as (_ & _ & _ & -> & _). congruence. }
  destruct L2 as (Hdev & _ & Hfree & _ & L2). fold img in F2, L2.
  assert (Hundo : ∀ h, mounts (Remove img (detachLoopDevice d h).2).2 = mounts h).
  { intros h5. pose proof (hl_detach d h5) as Hk. destruct (detachLoopDevice d h5) as [? h6]. destruct Hk as (_ & _ & E6 & _). cbn [snd].
    pose proof (hl_remove img h6) as Hk. destruct (Remove img h6) as [? h7]. destruct Hk as (_ & _ & _ & E7 & _). cbn [snd]. congruence. }
  assert (Hrem : ∀ q h, mounts (Remove q h).2 = mounts h).
  { intros q h5. pose proof (hl_remove q h5) as Hk. destruct (Remove q h5) as [? h6]. by destruct Hk as (_ & _ & _ & E6 & _). }
  pose proof (write_touches basePath n "loop-info.txt" (loop_info d img) h2 Hv) as Hk. destruct (WriteFile _ _ h2) as [ok h3]. destruct Hk as (_ & [E3 L3] & F3 & _).
  destruct ok; cbn [negb]; [|rewrite Hundo; congruence].
  pose proof (hl_mkfs d h3) as Hk. destruct (createFilesystem d h3) as [ok h4]. destruct Hk as (E4 & L4 & _ & _ & C4). destruct ok; cbn [negb]; [|rewrite Hrem, Hundo; congruence].
  destruct (C4 eq_refl img c1) as (c4 & C4' & Hc4); [rewrite L3, L2; apply lookup_insert_eq|unfold img; rewrite F3 by done; fold img; by rewrite F2|].
  pose proof (hl_mount d (vol_file basePath n "data") "ext4" "" h4) as Hk. destruct (Mount d _ _ _ h4) as [ok h5]. destruct Hk as (L5 & F5 & E5). destruct ok; cbn [negb].
  2:{ rewrite Hrem, Hundo. congruence. }
  destruct (hl_chmod (vol_file basePath n "data") h5) as (F6 & _ & E6 & L6). split_and!.
  - exists d. rewrite E6, E5. congruence.
  - intros d' f Hf. rewrite L6, L5, L4, L3, L2, lookup_insert_ne, L1; [done|]. intros ->. by rewrite L1, Hf in Hfree.
  - exists c4. split; [|done]. rewrite F6. destruct (F5 img) as [-> _]; [|done]. apply under_file; [done..|refine (bool_decide_unpack _ _); vm_compute; exact I].
Qed.

(** Creating a filesystem volume under the name of one that exists is accepted, and when
    its file system is set up the image of the existing volume is formatted while it is
    mounted: whatever it held is gone.  The mounts and devices of the old volume stay, below
    the new ones, and the reservations of jobs are forgotten. *)
Theorem recreated_volume_formatted now stored name size a h v w a' h' :
  GetVolume name a = Some v → Manager_CreateVolume overflow basePath zone now stored name size VolumeTypeFilesystem a h = (Ok w, a', h') →
  mounts h' ≠ mounts h →
  (∃ c, files h' !! image_file (v_Path w) = Some c ∧ empty_fs c) ∧ (∀ m, m ∈ mounts h → m ∈ mounts h') ∧
  (∀ d f, loops h !! d = Some f → loops h' !! d = Some f) ∧ count_of name a' = 0 ∧ GetVolume name a' = Some w.
Proof.
  intros Hg Hc Hne. assert (Hopen : vol_closed a = false) by (unfold GetVolume in Hg; by destruct (vol_closed a)).
  unfold Manager_CreateVolume in Hc. destruct (NewVolume overflow now name size VolumeTypeFilesystem) as [v0|e] eqn:En; [|done].
  unfold NewVolume in En. destruct (String.eqb_spec name "") as [|Hn0]; [done|]. destruct (IsValidVolumeName name) eqn:Hv; [|done]. cbn [negb] in En.
  destruct (ParseSize overflow size) as [b|]; [|done]. destruct (b <=? 0); [done|]. change (String.eqb VolumeTypeFilesystem VolumeTypeFilesystem) with true in En. cbn [negb andb] in En.
  injection En as <-. rewrite path_of in Hc by done. set (v1 := set_path (vol_path basePath name) _) in Hc. assert (Hp : v_Path v1 = vol_path basePath name) by done.
  assert (Ht : v_Type v1 = VolumeTypeFilesystem) by done. assert (Hn1 : v_Name v1 = name) by done. clearbody v1. clear b.
  unfold createVolumeStorage in Hc. rewrite Hp, data_dir_of, meta_file_of, Ht in Hc by done. change (String.eqb VolumeTypeFilesystem VolumeTypeFilesystem) with true in Hc.
  pose proof (mkdir_touches basePath name h Hv) as Hk. destruct (MkdirAll _ h) as [ok h1]. destruct Hk as (_ & [E1 L1] & _). destruct ok; cbn [negb] in Hc; [|done].
  pose proof (write_touches basePath name "volume-info.json" (metadata zone v1) h1 Hv) as Hk. destruct (WriteFile _ _ h1) as [ok h2]. destruct Hk as (_ & [E2 L2] & _).
  destruct ok; cbn [negb] in Hc; [|done]. unfold setupFilesystemVolume in Hc. pose proof (loop_formats v1 name h2 Hv Hp) as Hk.
  destruct (createLoopFilesystem v1 _ h2) as [ok h3]. cbn [snd] in Hc. destruct (hl_chown (vol_file basePath name "data") h3) as (F4 & _ & E4 & L4).
  destruct (Chown _ h3) as [okc h4]. cbn [snd] in *. destruct okc; cbn [negb] in Hc; [|done].
  destruct ok.
  2:{ exfalso. destruct (CreateVolume stored (Some v1) a) as [[u|e] a1]; [|done]. injection Hc as <- <- <-. apply Hne. congruence. }
  destruct Hk as ((d & E3) & L3 & (c & C3 & Hc3)). unfold CreateVolume in Hc. rewrite Hopen in Hc. case_bool_decide; [done|]. destruct (validateVolume v1); [|done].
  cbn [v_Name] in Hc. rewrite Hn1 in Hc. destruct (b_create _ _ _) as [s|e] eqn:Eb; [|done]. injection Hc as <- <- <-. split_and!.
  - exists c. cbn [set_created v_Path]. rewrite Hp, image_file_of by done. by rewrite F4.
  - intros m Hm. rewrite E4, E3, E2, E1. by right.
  - intros d' f Hf. rewrite L4. apply L3. congruence.
  - unfold count_of. cbn [jobCounts]. by rewrite lookup_insert_eq.
  - unfold GetVolume. cbn [vol_closed volumeStore]. rewrite ?Hopen, bool_decide_eq_false_2 by done. rewrite (b_get_create _ _ _ _ _ Eb), decide_True by done.
    cbn [fmap option_fmap option_map]. rewrite DeepCopy_eq. unfold set_created. by rewrite Hn1.
Qed.

(** *** After a restart *)

Context {MJ : MetaJSON} {LJ : LawfulMetaJSON}.
Abbreviation meta n := (vol_file basePath n "volume-info.json").

Definition plain_made (v : Volume) : Prop := plain_text (v_Size v) ∧ plain_text (format_RFC3339 zone (v_CreatedTime v)).
Definition plain_op (op : mop) : Prop :=
  match op with MCreate now _ _ size _ => plain_text size ∧ plain_text (format_RFC3339 zone now) | _ => True end.

Lemma plain_op_made op : (∀ x, in_int64 (overflow x)) → plain_op op → made_well basePath overflow plain_made op.
Proof.
  destruct op as [now stored n size ty| | |]; [|done..]. intros Hov [H1 H2] v Hv. apply new_volume in Hv as (_ & _ & _ & _ & _ & _ & E1 & E2); [|done].
  unfold plain_made. cbn [set_path v_Size v_CreatedTime]. by rewrite E1, E2.
Qed.

Lemma scan_known now n v h : IsValidVolumeName n = true → sound_volume basePath v n → plain_made v → files h !! meta n = Some (metadata zone v) →
  ∃ t, scan_info basePath now n h = Some (set_created t v).
Proof.
  intros Hv [E1 E2 E3 [E4 E4'] E5] [P1 P2] Hf. unfold scan_info. rewrite path_of, meta_file_of, hl_read, Hf by done. cbn [mbind option_bind].
  rewrite Unmarshal_metadata; [|rewrite E1; by apply valid_plain|by destruct E3 as [->| ->]|done..]. cbn [mbind option_bind i_Type i_Name i_Size i_SizeBytes i_CreatedTime].
  assert (Et : negb (String.eqb (v_Type v) VolumeTypeFilesystem) && negb (String.eqb (v_Type v) VolumeTypeMemory) = false) by (by destruct E3 as [->| ->]). rewrite Et.
  eexists. unfold set_created. rewrite <- E2, <- E5. reflexivity.
Qed.

Context (Hnew : ∀ n v (s : VS), b_get n s = None → ∃ s', b_create n v s = Ok s').

Lemma scan_entry_known now n v a h : IsValidVolumeName n = true → sound_volume basePath v n → plain_made v → files h !! meta n = Some (metadata zone v) →
  vol_closed a = false → b_get n (volumeStore a) = None → loops h !! "tmpfs"%string = None →
  let '(a', h') := scan_entry basePath now n a h in
  touches basePath n h h' ∧ loops h' = loops h ∧ b_get n (volumeStore a') = Some (set_created now v) ∧
  (∀ n2, n2 ≠ n → b_get n2 (volumeStore a') = b_get n2 (volumeStore a)) ∧ vol_closed a' = false ∧ (v_Type v = VolumeTypeFilesystem → h' = h).
Proof.
  intros Hv Hs Hp Hf Hc Hr Ht. unfold scan_entry. destruct (scan_known now n v h Hv Hs Hp Hf) as [t ->]. cbn [set_created v_Path v_Type].
  destruct Hs as [E1 E2 E3 [E4 E4'] E5]. rewrite E2, data_dir_of by done.
  assert (Hst : let a' := (CreateVolume now (Some (set_created t v)) a).2 in
    b_get n (volumeStore a') = Some (set_created now v) ∧ (∀ n2, n2 ≠ n → b_get n2 (volumeStore a') = b_get n2 (volumeStore a)) ∧ vol_closed a' = false).
  { unfold CreateVolume. rewrite Hc. cbn [set_created v_Name]. rewrite E1. rewrite bool_decide_eq_false_2 by (intros ->; done).
    assert (Hval : validateVolume (set_created t v) = Ok tt).
    { unfold validateVolume. cbn [set_created v_Name v_Type v_SizeBytes v_Path]. rewrite E1, bool_decide_eq_false_2 by (intros ->; done).
      rewrite (proj2 (Z.leb_gt _ _)) by lia. rewrite (bool_decide_eq_false_2 (v_Path v = ""%string)); [by destruct E3 as [->| ->]|].
      rewrite E2. destruct Hb as (ws & _ & _ & Eb). intros Hx%(f_equal bytes). unfold vol_path in Hx. rewrite bytes_app, Eb in Hx. done. }
    rewrite Hval. destruct (Hnew n (set_created now v) (volumeStore a) Hr) as [s Hcr]. cbn [v_Name].
    lazymatch goal with |- context [b_create _ ?x _] => replace x with (set_created now v) by (unfold set_created; cbn; by rewrite ?E1) end. rewrite ?E1, Hcr. cbn [snd volumeStore vol_closed]. split_and!; [| |done].
    - by rewrite (b_get_create _ _ _ _ _ Hcr), decide_True.
    - intros n2 Hn2. by rewrite (b_get_create _ _ _ _ _ Hcr), decide_False. }
  destruct (String.eqb (v_Type v) VolumeTypeMemory) eqn:Em; cbn [andb].
  - destruct (isMounted _ h); cbn [negb].
    + destruct Hst as (S1 & S2 & S3). split_and!; [by apply touches_refl|done..].
    + unfold setupMemoryVolume. cbn [set_created v_SizeBytes].
      pose proof (mount_touches basePath n "tmpfs" "tmpfs" ("size=" +:+ Itoa (v_SizeBytes v)) h Hv) as Hk. pose proof (ob_tmpfs (vol_file basePath n "data") ("size=" +:+ Itoa (v_SizeBytes v)) h) as Hok.
      destruct (Mount _ _ _ _ h) as [ok h1]. cbn [fst] in Hok. subst ok. destruct Hk as (T1 & L1 & _); [intros n2 _ _; by rewrite Ht|].
      destruct Hst as (S1 & S2 & S3). split_and!; [done..|]. intros Ef. by rewrite Ef in Em.
  - destruct Hst as (S1 & S2 & S3). split_and!; [by apply touches_refl|done..].
Qed.

Definition scannable (n : string) (h : H) : Prop :=
  files h !! meta n = None ∨ ∃ v, files h !! meta n = Some (metadata zone v) ∧ sound_volume basePath v n ∧ plain_made v.

Lemma scan_entry_other now n a h : IsValidVolumeName n = true → scannable n h → vol_closed a = false → b_get n (volumeStore a) = None → loops h !! "tmpfs"%string = None →
  let '(a', h') := scan_entry basePath now n a h in
  touches basePath n h h' ∧ loops h' = loops h ∧ (∀ n2, n2 ≠ n → b_get n2 (volumeStore a') = b_get n2 (volumeStore a)) ∧ vol_closed a' = false.
Proof.
  intros Hv [Hf|(v & Hf & Hs & Hp)] Hc Hr Ht.
  - unfold scan_entry, scan_info. rewrite path_of, meta_file_of, hl_read, Hf by done. cbn [mbind option_bind]. split_and!; [by apply touches_refl|done..].
  - pose proof (scan_entry_known now n v a h Hv Hs Hp Hf Hc Hr Ht) as Hk. destruct (scan_entry _ now n a h) as [a' h']. naive_solver.
Qed.

Lemma scan_all now l a h : NoDup l.*1 → (∀ n, (n, true) ∈ l → IsValidVolumeName n = true ∧ scannable n h ∧ b_get n (volumeStore a) = None) →
  vol_closed a = false → loops h !! "tmpfs"%string = None → let '(a', h') := scan_entries basePath now l a h in
  (∀ n v, (n, true) ∈ l → files h !! meta n = Some (metadata zone v) → sound_volume basePath v n → plain_made v →
     b_get n (volumeStore a') = Some (set_created now v) ∧ (v_Type v = VolumeTypeFilesystem → on basePath n h' = on basePath n h)) ∧
  (∀ n, IsValidVolumeName n = true → (n, true) ∉ l → b_get n (volumeStore a') = b_get n (volumeStore a) ∧ on basePath n h' = on basePath n h) ∧ vol_closed a' = false.
Proof.
  revert a h. induction l as [|[m d] l IH]; intros a h Hnd Hl Hc Ht; [cbn [scan_entries]; split_and!; [by intros n v ?%not_elem_of_nil|done..]|].
  apply NoDup_cons in Hnd as [Hm Hnd]. cbn [scan_entries]. destruct d.
  2:{ specialize (IH a h Hnd). destruct (scan_entries _ now l a h) as [a' h']. destruct IH as (I1 & I2 & I3); [intros n Hn; apply Hl; by right|done..|].
      split_and!; [|intros n Hv Hn; apply I2; [done|]; intros Hx; apply Hn; by right|done]. intros n v [E|Hn]%elem_of_cons; [done|by apply I1]. }
  destruct (Hl m) as (Hv & Hsc & Hr); [by left|]. pose proof (scan_entry_other now m a h Hv Hsc Hc Hr Ht) as Hk.
  pose proof (λ v, scan_entry_known now m v a h Hv) as Hkn. destruct (scan_entry _ now m a h) as [a1 h1]. destruct Hk as (T1 & L1 & R1 & C1).
  assert (Hmeta : ∀ n, (n, true) ∈ l → IsValidVolumeName n = true ∧ n ≠ m ∧ files h1 !! meta n = files h !! meta n ∧ b_get n (volumeStore a1) = b_get n (volumeStore a)).
  { intros n Hn. destruct (Hl n) as (Hvn & _ & _); [by right|]. assert (n ≠ m) by (intros ->; apply Hm; by apply (list_elem_of_fmap_2 fst _ (m, true))).
    split_and!; [done..| |by apply R1]. rewrite (t_files _ _ _ _ T1); [done..|apply meta_single]. }
  specialize (IH a1 h1 Hnd). destruct (scan_entries _ now l a1 h1) as [a' h']. destruct IH as (I1 & I2 & I3); [|done|by rewrite L1|].
  { intros n Hn. destruct (Hmeta n Hn) as (Hvn & Hne & Hf & Hrn). destruct (Hl n) as (_ & Hscn & Hrn0); [by right|]. rewrite Hrn. split_and!; [done| |done]. unfold scannable in *. by rewrite Hf. }
  assert (Hml : (m, true) ∉ l) by (intros Hx; apply Hm; by apply (list_elem_of_fmap_2 fst _ (m, true))).
  split_and!; [| |done].
  - intros n v [E|Hn]%elem_of_cons Hf Hs Hp.
    + injection E as ->. destruct (Hkn v Hs Hp Hf Hc Hr Ht) as (_ & _ & R & _ & _ & Hh). destruct (I2 m Hv Hml) as [-> ->]. split; [done|]. intros Et. by rewrite (Hh Et).
    + destruct (Hmeta n Hn) as (Hvn & Hne & Hfn & _). destruct (I1 n v Hn) as [J1 J2]; [by rewrite Hfn|done..|]. split; [done|]. intros Et. rewrite J2 by done. by apply (t_on _ _ _ _ T1).
  - intros n Hvn Hn. assert (n ≠ m) by (intros ->; apply Hn; by left). destruct (I2 n Hvn) as [J1 J2]; [intros Hx; apply Hn; by right|].
    rewrite J1, J2, R1 by done. split; [done|]. by apply (t_on _ _ _ _ T1).
Qed.

End theorems.

(** ** A host *)

(** Directories as the history of what was made and removed, the latest first. *)
Inductive dir_event := Made (p : string) | Gone (p : string).
Fixpoint dir_in (l : list dir_event) (q : string) : bool :=
  match l with
  | [] => false
  | Made p :: l => bool_decide (q = p) || HasPrefix p (q +:+ "/") || dir_in l q
  | Gone p :: l => negb (bool_decide (within p q)) && dir_in l q
  end.
(** [vh_refused]: what fails. *)
Record vhost := { vh_files : gmap string string; vh_dirs : list dir_event; vh_mounts : list mount; vh_loops : gmap string string; vh_refused : list string }.
Definition with_files (f : gmap string string) (h : vhost) : vhost :=
  {| vh_files := f; vh_dirs := vh_dirs h; vh_mounts := vh_mounts h; vh_loops := vh_loops h; vh_refused := vh_refused h |}.
Definition with_dirs (d : list dir_event) (h : vhost) : vhost :=
  {| vh_files := vh_files h; vh_dirs := d; vh_mounts := vh_mounts h; vh_loops := vh_loops h; vh_refused := vh_refused h |}.
Definition with_mounts (m : list mount) (h : vhost) : vhost :=
  {| vh_files := vh_files h; vh_dirs := vh_dirs h; vh_mounts := m; vh_loops := vh_loops h; vh_refused := vh_refused h |}.
Definition with_loops (l : gmap string string) (h : vhost) : vhost :=
  {| vh_files := vh_files h; vh_dirs := vh_dirs h; vh_mounts := vh_mounts h; vh_loops := l; vh_refused := vh_refused h |}.
Definition refuses (what : string) (h : vhost) : bool := bool_decide (what ∈ vh_refused h).

(** The names in a directory, from what was made below it. *)
Fixpoint upto_slash (l : list ascii) : list ascii := match l with [] => [] | c :: l => if decide (c = "/"%char) then [] else c :: upto_slash l end.
Definition child (p : string) (e : dir_event) : option string :=
  match e with
  | Made d => if HasPrefix d (p +:+ "/") then Some (of_bytes (upto_slash (drop (String.length (p +:+ "/")) (bytes d)))) else None
  | Gone _ => None
  end.
Definition children (p : string) (h : vhost) : list string :=
  filter (λ n, n ≠ ""%string ∧ Is_true (dir_in (vh_dirs h) (p +:+ "/" +:+ n))) (remove_dups (omap (child p) (vh_dirs h))).

Definition devices : list string := ["/dev/loop0"; "/dev/loop1"; "/dev/loop2"; "/dev/loop3"]%string.
Definition mounted_from (d : string) (h : vhost) : bool := bool_decide (Exists (λ m, m_source m = d) (vh_mounts h)).

Definition vh_run (args : list string) (h : vhost) : option string * vhost :=
  match args with
  | [cmd; a; b; c; d; e] =>
      if bool_decide (cmd = "dd"%string) && negb (refuses "dd" h) then (Some ""%string, with_files (<[TrimPrefix b "of=" := ""%string]> (vh_files h)) h) else (None, h)
  | [cmd; a; b] =>
      if bool_decide (cmd = "mkfs.ext4"%string) then
        (if refuses "mkfs.ext4" h then (None, h) else
         match vh_loops h !! b with
         | Some f => (Some ""%string, if bool_decide (is_Some (vh_files h !! f)) then with_files (<[f := "ext4"%string]> (vh_files h)) h else h)
         | None => (None, h)
         end)
      else if bool_decide (cmd = "losetup"%string) then
        (if bool_decide (a = "-d"%string) then
           (if bool_decide (is_Some (vh_loops h !! b)) then (Some ""%string, if mounted_from b h then h else with_loops (delete b (vh_loops h)) h) else (None, h))
         else if bool_decide (is_Some (vh_loops h !! a)) || mounted_from a h || refuses "losetup" h then (None, h)
         else (Some ""%string, with_loops (<[a := b]> (vh_loops h)) h))
      else (None, h)
  | [cmd; a] =>
      if bool_decide (cmd = "losetup"%string) then (find (λ d, negb (bool_decide (is_Some (vh_loops h !! d)))) devices, h) else (None, h)
  | _ => (None, h)
  end.

#[export] Instance vhost_host : Host vhost := {|
  MkdirAll p h := if refuses "mkdir" h then (false, h) else (true, with_dirs (Made p :: vh_dirs h) h);
  WriteFile p c h := if refuses "write" h then (false, h) else (true, with_files (<[p := c]> (vh_files h)) h);
  ReadFile p h := vh_files h !! p;
  ReadDir p h := Some ((λ n, (n, true)) <$> children p h);
  Chmod _ h := (true, h);
  Chown _ h := (true, h);
  Mount s t ty o h := if refuses "mount" h && negb (String.eqb s "tmpfs") then (false, h)
                      else (true, with_mounts ({| m_source := s; m_target := t; m_type := ty; m_opts := o |} :: vh_mounts h) h);
  Unmount t h := if bool_decide (Exists (λ m, m_target m = t) (vh_mounts h)) then (true, with_mounts (remove_mount t (vh_mounts h)) h) else (false, h);
  Remove p h := if bool_decide (is_Some (vh_files h !! p)) then (true, with_files (delete p (vh_files h)) h) else (false, h);
  RemoveAll p h := if bool_decide (Exists (λ m, within p (m_target m)) (vh_mounts h)) then (false, h)
                   else (true, with_dirs (Gone p :: vh_dirs h) (with_files (filter (λ '(q, _), ¬ within p q) (vh_files h)) h));
  Statfs _ _ := Some (4096, 100, 40);
  Run := vh_run;
|}.

Lemma dir_in_child l p n : n ≠ ""%string → "/"%char ∉ bytes n → dir_in l (p +:+ "/" +:+ n) = true → n ∈ omap (child p) l.
Proof.
  intros Hn Hs. induction l as [|e l IH]; [done|]. cbn [dir_in omap list_omap]. destruct e as [d|d].
  - intros [Hd|Hd]%orb_prop.
    + assert (Hx : ∃ r, bytes d = bytes (p +:+ "/") ++ bytes n ++ r ∧ upto_slash (bytes n ++ r) = bytes n).
      { assert (Hu : ∀ w r, "/"%char ∉ w → (r = [] ∨ ∃ r', r = "/"%char :: r') → upto_slash (w ++ r) = w).
        { intros w r Hw Hr. induction w as [|c w IHw]; [destruct Hr as [->|[r' ->]]; [done|]; cbn; done|]. cbn [app upto_slash].
          rewrite decide_False by (intros ->; apply Hw; by left). f_equal. apply IHw. intros ?; apply Hw; by right. }
        apply orb_prop in Hd as [Hd|Hd].
        - to_prop. subst d. exists []. rewrite !bytes_app, <- !app_assoc, app_nil_r. split; [done|]. rewrite <- (app_nil_r (bytes n)) at 1. apply Hu; auto.
        - apply HasPrefix_bytes in Hd as [r Hd]. exists ("/"%char :: r). rewrite Hd, !bytes_app, <- !app_assoc. split; [done|]. apply Hu; eauto. }
      destruct Hx as (r & Hd1 & Hd2). cbn [child]. assert (Hp : HasPrefix d (p +:+ "/") = true) by (apply HasPrefix_bytes; eauto). rewrite Hp.
      apply elem_of_cons. left. rewrite Hd1, <- length_bytes, drop_app_length, Hd2. by rewrite of_bytes_bytes.
    + specialize (IH Hd). destruct (child p (Made d)); [by right|done].
  - intros [_ Hd]%andb_prop. cbn [child]. by apply IH.
Qed.

Lemma children_slash p e n : child p e = Some n → "/"%char ∉ bytes n.
Proof.
  destruct e as [d|]; [|done]. cbn [child]. destruct (HasPrefix _ _); [|done]. intros [= <-]. rewrite bytes_of_bytes. generalize (drop (String.length (p +:+ "/")) (bytes d)).
  intros l. induction l as [|c l IH]; [by apply not_elem_of_nil|]. cbn [upto_slash]. destruct (decide (c = "/"%char)); [by apply not_elem_of_nil|].
  intros [E|?]%elem_of_cons; [by subst|by apply IH].
Qed.

#[export] Instance vhost_laws : HostLaws vhost.
Proof.
  refine {| files := vh_files; is_dir h q := dir_in (vh_dirs h) q = true; mounts := vh_mounts; loops := vh_loops; empty_fs c := c = "ext4"%string |}.
  - intros p h. cbn [MkdirAll vhost_host]. destruct (refuses "mkdir" h); [split_and!; [done..|by auto|done]|]. cbn [with_dirs vh_files vh_mounts vh_loops vh_dirs dir_in].
    split_and!; [done..| | |].
    + intros q ->. by rewrite orb_true_r.
    + intros q [[Hq|Hq]%orb_prop|Hq]%orb_prop; [to_prop; by auto|by auto|by auto].
    + intros _ q [->|Hu]; [by rewrite bool_decide_eq_true_2|]. unfold under in Hu. by rewrite Hu, orb_true_r.
  - intros p c h. cbn [WriteFile vhost_host]. destruct (refuses "write" h); [done|]. cbn. split_and!; [|intros _; apply lookup_insert_eq|done..].
    intros q Hq. by rewrite lookup_insert_ne.
  - done.
  - intros p h l. cbn [ReadDir vhost_host]. intros [= <-]. split.
    + rewrite <- list_fmap_compose. assert (E : (fst ∘ (λ n : string, (n, true))) <$> children p h = children p h) by apply list_fmap_id. rewrite E.
      unfold children. apply NoDup_filter, NoDup_remove_dups.
    + intros n. rewrite list_elem_of_fmap. unfold children. split.
      * intros (m & [= ->] & [[Hne Hd] Hm]%list_elem_of_filter). apply elem_of_remove_dups, list_elem_of_omap in Hm as (e & _ & He). split_and!; [done|by eapply children_slash|].
        by apply Is_true_true.
      * intros (Hne & Hs & Hd). exists n. split; [done|]. apply list_elem_of_filter. split; [split; [done|by apply Is_true_true]|]. apply elem_of_remove_dups. by apply dir_in_child.
  - done.
  - done.
  - intros s t ty o h. cbn [Mount vhost_host]. by destruct (refuses "mount" h && _).
  - intros t h. cbn [Unmount vhost_host]. case_bool_decide; done.
  - intros p h. cbn [Remove vhost_host]. case_bool_decide; cbn; split_and!; try done; [|apply lookup_delete_eq]. intros q Hq. by rewrite lookup_delete_ne.
  - intros p h. cbn [RemoveAll vhost_host]. case_bool_decide; [done|]. cbn. split_and!; [done..| |].
    + intros q Hq. rewrite bool_decide_eq_false_2 by done. cbn. split; [|done]. destruct (vh_files h !! q) as [c|] eqn:E.
      * by apply map_lookup_filter_Some.
      * apply map_lookup_filter_None. by left.
    + intros _ q Hq. rewrite bool_decide_eq_true_2 by done. split; [|done]. apply map_lookup_filter_None. right. intros c _ Hx. by apply Hx.
  - intros p n h. unfold createSparseFile, ran. cbn [Run vhost_host vh_run]. change (bool_decide ("dd"%string = "dd"%string)) with true. cbn [andb]. rewrite trim_prefix_app.
    destruct (refuses "dd" h); cbn; [done|]. split_and!; [|intros _; rewrite lookup_insert_eq; by eexists|done..]. intros q Hq. by rewrite lookup_insert_ne.
  - intros h. cbn [Run vhost_host vh_run]. change (bool_decide ("losetup"%string = "losetup"%string)) with true. cbn iota. split_and!; [done..|].
    intros o Ho. apply find_some in Ho as [Ho _]. apply list_elem_of_In in Ho. repeat (apply elem_of_cons in Ho as [->|Ho]; [split; [done|refine (bool_decide_unpack _ _); vm_compute; exact I]|]). by apply not_elem_of_nil in Ho.
  - intros d f h Hd. cbn [Run vhost_host vh_run]. change (bool_decide ("losetup"%string = "mkfs.ext4"%string)) with false. change (bool_decide ("losetup"%string = "losetup"%string)) with true. cbn iota.
    rewrite (bool_decide_eq_false_2 (d = "-d"%string)) by (intros ->; done). destruct (_ || refuses "losetup" h) eqn:E; [done|]. apply orb_false_elim in E as [E _]. apply orb_false_elim in E as [E1 E2].
    cbn. split_and!; try done.
    + to_prop. destruct (vh_loops h !! d); [|done]. exfalso. apply E1. by eexists.
    + intros m Hm Hs. unfold mounted_from in E2. to_prop. apply E2. apply Exists_exists. by exists m.
  - intros d h. unfold detachLoopDevice, ran. cbn [Run vhost_host vh_run]. change (bool_decide ("losetup"%string = "mkfs.ext4"%string)) with false.
    change (bool_decide ("losetup"%string = "losetup"%string)) with true. change (bool_decide ("-d"%string = "-d"%string)) with true. cbn iota. case_bool_decide; cbn; [|by split_and!; auto].
    destruct (mounted_from d h) eqn:Em; cbn.
    + split_and!; try done; [by right|]. intros _ Hx. unfold mounted_from in Em. to_prop. apply Exists_exists in Em as (m & Hm & Es). by apply Hx in Hm.
    + split_and!; try done; [intros d' Hd'; by rewrite lookup_delete_ne|left; apply lookup_delete_eq|intros _ _; apply lookup_delete_eq].
  - intros d h. unfold createFilesystem, ran. cbn [Run vhost_host vh_run]. change (bool_decide ("mkfs.ext4"%string = "mkfs.ext4"%string)) with true. cbn iota.
    destruct (refuses "mkfs.ext4" h); [done|]. destruct (vh_loops h !! d) as [f|] eqn:E; cbn; [|done]. case_bool_decide as Hf; cbn.
    + split_and!; [done..| |]; [intros q Hq; rewrite lookup_insert_ne by congruence; done|]. intros _ f' c [= <-] _. exists "ext4"%string. by rewrite lookup_insert_eq.
    + split_and!; [done..|]. intros _ f' c [= <-] Hc. exfalso. apply Hf. by eexists.
Defined.

#[export] Instance vhost_obedient : Obedient vhost.
Proof.
  split.
  - done.
  - intros t h m Hm Et. cbn [Unmount vhost_host]. rewrite bool_decide_eq_true_2; [done|]. apply Exists_exists. exists m. split; [exact Hm|done].
  - intros d h Hd. unfold detachLoopDevice, ran. cbn [Run vhost_host vh_run]. change (bool_decide ("losetup"%string = "mkfs.ext4"%string)) with false.
    change (bool_decide ("losetup"%string = "losetup"%string)) with true. change (bool_decide ("-d"%string = "-d"%string)) with true. cbn iota. by rewrite bool_decide_eq_true_2.
  - intros p h Hp. cbn [Remove vhost_host]. by rewrite bool_decide_eq_true_2.
  - intros p h Hm. cbn [RemoveAll vhost_host]. rewrite bool_decide_eq_false_2; [done|]. intros (m & ? & ?)%Exists_exists. by apply (Hm m).
  - intros p c h. cbn [WriteFile vhost_host]. by destruct (refuses "write" h).
  - intros t o h. cbn [Mount vhost_host]. by rewrite andb_false_r.
Qed.

(** The metadata as it is written, taken apart at its quotes. *)
#[export] Instance vhost_json : MetaJSON := {|
  Unmarshal text :=
    match Split text (byte_of 34) with
    | [_; _; _; name; _; _; _; ty; _; _; _; size; _; _; bs; _; _; created; _] =>
        match cut_bytes "," (drop 2 (bytes bs)) with
        | Some (n, _) => (λ z, {| i_Name := name; i_Type := ty; i_Size := size; i_SizeBytes := z; i_CreatedTime := created |}) <$> Atoi (of_bytes n)
        | None => None
        end
    | _ => None
    end;
|}.

Lemma plain_no_quote s : plain_text s → byte_of 34 ∉ bytes s.
Proof. intros Hs Hx. unfold plain_text in Hs. rewrite forallb_forall in Hs. apply list_elem_of_In in Hx. apply Hs in Hx. done. Qed.

Lemma Itoa_chars z c : is_digit c = false → c ≠ "-"%char → c ∉ bytes (Itoa z) ∨ z < 0.
Proof. intros Hd Hc. destruct (Z.ltb_spec z 0); [by right|left]. rewrite Itoa_nonneg, bytes_of_bytes by done. apply not_digit_not_in; [by apply digits_of_digits|done]. Qed.
Lemma Itoa_without z c : is_digit c = false → c ≠ "-"%char → c ∉ bytes (Itoa z).
Proof.
  intros Hd Hc. destruct (Itoa_chars z c Hd Hc) as [?|Hz]; [done|]. unfold Itoa. rewrite (proj2 (Z.ltb_lt _ _)) by done. rewrite bytes_of_bytes.
  intros [?|Hx]%elem_of_cons; [done|]. revert Hx. apply not_digit_not_in; [apply digits_of_digits; lia|done].
Qed.

Definition metadata_parts (zone : Z → Z) (v : Volume) : list (list ascii) :=
  let sep := bytes ("," +:+ newline +:+ "  ") in let colon := bytes ": " in
  [bytes ("{" +:+ newline +:+ "  "); bytes "name"; colon; bytes (v_Name v); sep; bytes "type"; colon; bytes (v_Type v); sep; bytes "size"; colon; bytes (v_Size v);
   sep; bytes "sizeBytes"; colon ++ bytes (Itoa (v_SizeBytes v)) ++ sep; bytes "createdTime"; colon; bytes (format_RFC3339 zone (v_CreatedTime v)); bytes (newline +:+ "}")].

Lemma metadata_joined zone v : bytes (metadata zone v) = join_bytes (byte_of 34) (metadata_parts zone v).
Proof.
  unfold metadata, field, quoted, metadata_parts. rewrite !bytes_app. cbn [join_bytes]. change (bytes quote) with [byte_of 34]. rewrite <- !app_assoc. reflexivity.
Qed.

#[export] Instance vhost_json_lawful : LawfulMetaJSON.
Proof.
  split. intros zone v H1 H2 H3 H4 H5. cbn [Unmarshal vhost_json]. unfold Split. rewrite metadata_joined, split_bytes_join; [|done|].
  - cbn [metadata_parts fmap list_fmap]. rewrite !of_bytes_bytes, bytes_of_bytes. change (bytes ": ") with [":"%char; " "%char]. cbn [app drop].
    change (bytes ("," +:+ newline +:+ "  ")) with (","%char :: bytes (newline +:+ "  ")). rewrite drop_0, cut_bytes_app by (by apply Itoa_without).
    rewrite of_bytes_bytes, Atoi_Itoa by done. done.
  - unfold metadata_parts. assert (Hc : ∀ l : list ascii, bool_decide (byte_of 34 ∈ l) = false → byte_of 34 ∉ l) by (intros l Hl; by eapply bool_decide_eq_false).
    repeat (apply Forall_cons; split; [first [by apply plain_no_quote|by apply Hc; vm_compute|idtac]|]); try (by constructor).
    intros [Hx|Hx]%elem_of_app; [revert Hx; by apply Hc; vm_compute|]. apply elem_of_app in Hx as [Hx|Hx]; [by apply Itoa_without in Hx|revert Hx; by apply Hc; vm_compute].
Qed.

(** ** Examples *)

Definition too_large (x : float64) : Z := - 2 ^ 63.
Definition utc (t : Z) : Z := 0.
Definition base : string := "/var/volumes".
Definition bare_host (refused : list string) : vhost :=
  {| vh_files := ∅; vh_dirs := [Made "/var"%string]; vh_mounts := [{| m_source := "/dev/sda1"; m_target := "/"; m_type := "ext4"; m_opts := "" |}]; vh_loops := ∅; vh_refused := refused |}.
Abbreviation no_volumes := (NewVolumeStoreAdapter (VS := gmap string Volume)).
Definition day : Z := 63838368000500000000.
Definition some_ops : list mop :=
  [MCreate day (day + 1) "data" "1.5KB" "filesystem"; MCreate day (day + 1) "cache" "64B" "memory"; MCreate day (day + 2) "cache2" "64B" "memory";
   MAttach ["data"%string]; MRemove "data"; MRemove "cache2"; MDetach ["data"%string]].

Example sizes : ParseSize too_large <$> ["1.5kb"; " 2 GB"; "3gb "; "."; "1.2.3"; "KB"; "99999999TB"; ".5"; "0.1"]%string =
  [Some 1536; None; Some (3 * 2 ^ 30); None; None; None; Some (- 2 ^ 63); Some 0; Some 0].
Proof. vm_compute. reflexivity. Qed.

Lemma base_clean : clean_path base.
Proof. exists [bytes "var"; bytes "volumes"]. split_and!; [done|refine (bool_decide_unpack _ _); vm_compute; exact I|done]. Qed.
Lemma base_newline : no_newline base.
Proof. refine (bool_decide_unpack _ _). vm_compute. exact I. Qed.
Lemma bare_host_clean refused : clean base (bare_host refused).
Proof.
  split.
  - intros m [->|Hm]%elem_of_cons; [by vm_compute|by apply not_elem_of_nil in Hm].
  - intros d f. cbn. by rewrite lookup_empty.
  - intros q Hu. split; [apply lookup_empty|]. change (is_dir (bare_host refused) q) with (dir_in [Made "/var"%string] q = true). cbn [dir_in]. intros Hd. unfold under in Hu. apply HasPrefix_bytes in Hu as [l Hl].
    rewrite orb_false_r in Hd. apply orb_prop in Hd as [Hd|Hd].
    + to_prop. subst q. by cbn in Hl.
    + apply HasPrefix_bytes in Hd as [l' Hl']. rewrite bytes_app, Hl in Hl'. by cbn in Hl'.
Qed.

(** The host after a restart: what was mounted and attached is gone. *)
Definition rebooted (h : vhost) : vhost := with_mounts (vh_mounts (bare_host [])) (with_loops ∅ h).
Abbreviation run_all := (mrun (VS := gmap string Volume) base too_large utc).
Definition after_ops (refused : list string) : vol_adapter (gmap string Volume) * vhost := run_all some_ops (no_volumes, bare_host refused).
Definition show (s : vol_adapter (gmap string Volume) * vhost) : list (string * Z) * list (string * string) * list (string * string) :=
  ((λ v, (v_Name v, v_SizeBytes v)) <$> ListVolumes s.1, (λ m, (m_source m, m_target m)) <$> vh_mounts s.2, map_to_list (vh_loops s.2)).

(** The volume in use is not removed. *)
Example after_some_ops : show (after_ops []) =
  ([("cache", 64); ("data", 1536)],
   [("tmpfs", "/var/volumes/cache/data"); ("/dev/loop0", "/var/volumes/data/data"); ("/dev/sda1", "/")],
   [("/dev/loop0", "/var/volumes/data/volume.img")])%string.
Proof. vm_compute. reflexivity. Qed.

(** Without loop devices the volume is a directory, and its size a promise. *)
Example without_loops : show (after_ops ["mount"%string]) =
  ([("cache", 64); ("data", 1536)], [("tmpfs", "/var/volumes/cache/data"); ("/dev/sda1", "/")], [])%string.
Proof. vm_compute. reflexivity. Qed.

(** After a restart of the host the memory volume is mounted again, the other one not. *)
Example after_reboot :
  match ScanVolumes base day no_volumes (rebooted (after_ops []).2) with
  | (Ok _, a, h) => show (a, h) = ([("cache", 64); ("data", 1536)], [("tmpfs", "/var/volumes/cache/data"); ("/dev/sda1", "/")], [])%string
  | _ => False
  end.
Proof. vm_compute. reflexivity. Qed.


Definition second_creation := Manager_CreateVolume too_large base utc day day "data" "1KB" VolumeTypeFilesystem (after_ops []).1 (after_ops []).2.
Lemma recreated_volume_formatted_witness :
  match second_creation with
  | (Ok w, a, h) => (∃ c, vh_files h !! image_file (v_Path w) = Some c ∧ c = "ext4"%string) ∧ count_of "data" a = 0
  | _ => False
  end.
Proof.
  assert (Hok : is_ok second_creation.1.1 = true) by (vm_compute; reflexivity).
  assert (Hlen : length (vh_mounts second_creation.2) = S (length (vh_mounts (after_ops []).2))) by (vm_compute; reflexivity).
  assert (Hg : is_Some (GetVolume "data" (after_ops []).1)) by (vm_compute; by eexists). destruct Hg as [v Hg].
  unfold second_creation in *. revert Hok Hlen Hg. generalize (after_ops []). intros s Hok Hlen Hg.
  destruct (Manager_CreateVolume _ _ _ _ _ _ _ _ s.1 s.2) as [[[w|e] a] h] eqn:E; [|discriminate].
  destruct (recreated_volume_formatted base base_clean too_large utc day day "data" "1KB" _ _ v w a h Hg E) as (H1 & _ & _ & H2 & _); [|split; [exact H1|exact H2]].
  intros Hx. cbn [snd] in Hlen. change (vh_mounts h = vh_mounts s.2) in Hx. rewrite Hx in Hlen. lia.
Defined.

