(* ===== verification/LogBuffer.v ===== *)
(** * Log buffers (internal/joblet/adapters/log_buffer.go)

    Buffers are shared by pointer between the manager and the tasks of the job
    store, so they live in a heap: a pointer is a location, and the manager's
    map and the tasks hold locations. *)

From S2P Require Import Prelude GoStrings.
From Stdlib Require Import Ascii.

Abbreviation chunk := (list ascii) (only parsing).

(** ** A buffer *)

(** [src/internal/joblet/adapters/log_buffer.go SimpleLogBuffer] *)
Record SimpleLogBuffer := {
  b_jobID : string;
  b_data : list chunk;
}.

(** [src/internal/joblet/adapters/log_buffer.go NewSimpleLogBuffer] *)
Definition NewSimpleLogBuffer (jobID : string) : SimpleLogBuffer :=
  {| b_jobID := jobID; b_data := [] |}.

(** [src/internal/joblet/adapters/log_buffer.go SimpleLogBuffer.Write] *)
Definition Write (data : chunk) (b : SimpleLogBuffer) : SimpleLogBuffer :=
  {| b_jobID := b_jobID b; b_data := b_data b ++ [data] |}.

(** [src/internal/joblet/adapters/log_buffer.go SimpleLogBuffer.ReadAll] *)
Definition ReadAll (b : SimpleLogBuffer) : list chunk := b_data b.

(** [None] is the panic of slicing from a negative index.
    [src/internal/joblet/adapters/log_buffer.go SimpleLogBuffer.ReadAfterSkip] *)
Definition ReadAfterSkip (skipCount : Z) (b : SimpleLogBuffer) : option (list chunk) :=
  if (Z.of_nat (length (b_data b)) <=? skipCount)%Z then Some []
  else if (skipCount <? 0)%Z then None
  else Some (drop (Z.to_nat skipCount) (b_data b)).

(** [src/internal/joblet/adapters/log_buffer.go SimpleLogBuffer.Size] *)
Definition Size (b : SimpleLogBuffer) : Z := Z.of_nat (length (b_data b)).

(** [src/internal/joblet/adapters/log_buffer.go SimpleLogBuffer.Clear] *)
Definition Clear (b : SimpleLogBuffer) : SimpleLogBuffer := {| b_jobID := b_jobID b; b_data := [] |}.

(** ** The manager *)

(** The manager, with the heap its buffers are allocated in.
    [src/internal/joblet/adapters/log_buffer.go SimpleLogManager] *)
Record LogManager := {
  heap : gmap nat SimpleLogBuffer;
  next_loc : nat;
  buffers : gmap string nat;
}.

(** [src/internal/joblet/adapters/log_buffer.go NewSimpleLogManager] *)
Definition NewSimpleLogManager : LogManager := {| heap := ∅; next_loc := 0; buffers := ∅ |}.

(** [src/internal/joblet/adapters/log_buffer.go SimpleLogManager.GetBuffer] *)
Definition GetBuffer (jobID : string) (m : LogManager) : nat * LogManager :=
  match buffers m !! jobID with
  | Some l => (l, m)
  | None =>
      let l := next_loc m in
      (l, {| heap := <[l := NewSimpleLogBuffer jobID]> (heap m); next_loc := S l;
             buffers := <[jobID := l]> (buffers m) |})
  end.

(** [src/internal/joblet/adapters/log_buffer.go SimpleLogManager.RemoveBuffer] *)
Definition RemoveBuffer (jobID : string) (m : LogManager) : option nat * LogManager :=
  match buffers m !! jobID with
  | Some l => (Some l, {| heap := heap m; next_loc := next_loc m;
                          buffers := delete jobID (buffers m) |})
  | None => (None, m)
  end.

(** [order] is the one the range over the map takes.
    [src/internal/joblet/adapters/log_buffer.go SimpleLogManager.ListBuffers] *)
Definition ListBuffers (order : list (string * nat)) : list string := order.*1.

(** The two counters of [SimpleLogStats]; the loop adds the sizes in map order.
    [src/internal/joblet/adapters/log_buffer.go SimpleLogManager.Stats] *)
Definition Stats (order : list (string * nat)) (m : LogManager) : Z * Z :=
  (Z.of_nat (base.size (buffers m)),
   foldl (λ total p, total + match heap m !! p.2 with Some b => Size b | None => 0 end)%Z 0%Z order).

(** ** Buffers through pointers *)

Definition write_at (l : nat) (data : chunk) (m : LogManager) : LogManager :=
  {| heap := alter (Write data) l (heap m); next_loc := next_loc m; buffers := buffers m |}.

Definition read_at (l : nat) (m : LogManager) : list chunk :=
  match heap m !! l with Some b => ReadAll b | None => [] end.

(** ** The manager's invariant *)

(** Every buffer in the map is allocated, belongs to its job, and no two jobs
    share one. *)
Record mgr_wf (m : LogManager) : Prop := {
  wf_alloc : ∀ j l, buffers m !! j = Some l → ∃ b, heap m !! l = Some b ∧ b_jobID b = j;
  wf_next : ∀ l, is_Some (heap m !! l) → l < next_loc m;
}.

Lemma wf_inj m j1 j2 l : mgr_wf m →
  buffers m !! j1 = Some l → buffers m !! j2 = Some l → j1 = j2.
Proof.
  intros Hm H1 H2. destruct (wf_alloc _ Hm _ _ H1) as (b1 & E1 & <-).
  destruct (wf_alloc _ Hm _ _ H2) as (b2 & E2 & <-). congruence.
Qed.

Lemma NewSimpleLogManager_wf : mgr_wf NewSimpleLogManager.
Proof. split; [done|]. intros l. simpl. rewrite lookup_empty. by intros [? ?]. Qed.

Lemma fresh_loc m : mgr_wf m → heap m !! next_loc m = None.
Proof.
  intros Hm. destruct (heap m !! next_loc m) eqn:E; [|done].
  pose proof (wf_next _ Hm (next_loc m)) as H. rewrite E in H. specialize (H ltac:(eauto)). lia.
Qed.

(** What [GetBuffer] does to the state: the job's buffer is found or a new empty
    one is allocated, and every allocated buffer keeps its contents. *)
Lemma GetBuffer_spec j m l m' : mgr_wf m → GetBuffer j m = (l, m') →
  mgr_wf m' ∧ buffers m' = <[j := l]> (buffers m) ∧ is_Some (heap m' !! l) ∧
  (∀ k b, heap m !! k = Some b → heap m' !! k = Some b) ∧
  read_at l m' = match buffers m !! j with Some l0 => read_at l0 m | None => [] end ∧
  (buffers m !! j = None → heap m !! l = None).
Proof.
  intros Hm. unfold GetBuffer. destruct (buffers m !! j) as [l0|] eqn:E; intros [= <- <-].
  - split_and!; [done|by rewrite insert_id| |done|done|done].
    destruct (wf_alloc _ Hm _ _ E) as (b & Hb & _). rewrite Hb. eauto.
  - pose proof (fresh_loc _ Hm) as Hf. split_and!; simpl.
    + split; simpl.
      * intros k l. destruct (decide (k = j)) as [->|Hk].
        { rewrite lookup_insert_eq. intros [= <-]. rewrite lookup_insert_eq. eauto. }
        rewrite lookup_insert_ne by done. intros Hl.
        destruct (wf_alloc _ Hm _ _ Hl) as (b & Hb & Hj).
        exists b. rewrite lookup_insert_ne by congruence. done.
      * intros l. destruct (decide (l = next_loc m)) as [->|Hl]; [lia|].
        rewrite lookup_insert_ne by done. intros H. pose proof (wf_next _ Hm _ H). lia.
    + done.
    + rewrite lookup_insert_eq. eauto.
    + intros k b Hk. rewrite lookup_insert_ne by congruence. done.
    + unfold read_at. simpl. by rewrite lookup_insert_eq.
    + done.
Qed.

Lemma RemoveBuffer_wf j m : mgr_wf m → mgr_wf (RemoveBuffer j m).2.
Proof.
  intros Hm. unfold RemoveBuffer. destruct (buffers m !! j) eqn:E; simpl; [|done].
  split; simpl; [|apply (wf_next _ Hm)].
  intros k l. destruct (decide (k = j)) as [->|]; [by rewrite lookup_delete_eq|].
  rewrite lookup_delete_ne by done. apply (wf_alloc _ Hm).
Qed.

Lemma RemoveBuffer_buffers j m : buffers (RemoveBuffer j m).2 = delete j (buffers m) ∧
  heap (RemoveBuffer j m).2 = heap m ∧ next_loc (RemoveBuffer j m).2 = next_loc m.
Proof.
  unfold RemoveBuffer. destruct (buffers m !! j) eqn:E; simpl; [done|]. by rewrite delete_id.
Qed.

Lemma write_at_wf l d m : mgr_wf m → mgr_wf (write_at l d m).
Proof.
  intros Hm. split; simpl.
  - intros j k Hk. destruct (wf_alloc _ Hm _ _ Hk) as (b & Hb & Hj).
    destruct (decide (k = l)) as [->|Hn].
    + rewrite lookup_alter_eq, Hb. simpl. eexists. by split.
    + rewrite lookup_alter_ne by done. eauto.
  - intros k H. apply (wf_next _ Hm). destruct (decide (k = l)) as [->|Hn].
    + rewrite lookup_alter_eq in H. by apply fmap_is_Some in H.
    + by rewrite lookup_alter_ne in H.
Qed.

Lemma read_write_at l k d m : is_Some (heap m !! l) →
  read_at k (write_at l d m) = if decide (k = l) then read_at l m ++ [d] else read_at k m.
Proof.
  intros [b Hb]. unfold read_at, write_at. cbn. case_decide; subst.
  - by rewrite lookup_alter_eq, Hb.
  - by rewrite lookup_alter_ne.
Qed.

#[export] Hint Resolve NewSimpleLogManager_wf RemoveBuffer_wf write_at_wf : joblet.

(** ** Reading with a skip *)

(** Reading after a skip of [k] chunks gives exactly what was written after the
    first [k]. *)
Lemma ReadAfterSkip_drop b k : (0 ≤ k)%Z → ReadAfterSkip k b = Some (drop (Z.to_nat k) (ReadAll b)).
Proof.
  intros Hk. unfold ReadAfterSkip, ReadAll. case_match eqn:E; to_prop.
  - rewrite drop_ge by lia. done.
  - case_match; to_prop; [lia|done].
Qed.
