(* ===== verification/JobStore.v ===== *)
(** * The job store (internal/joblet/adapters/job_store_adapter.go)

    The adapter over any backend, its tasks and its log buffers.  The backend
    keeps pointers to the callers' job objects, so the objects live in a memory
    and the stored values are their addresses: what a caller writes to its
    object is seen by the store's readers at once, while a task keeps a copy.
    Each operation is one step; the streaming of output to clients, where the
    interleaving matters, is the subject of Stream.v. *)

From S2P Require Import Prelude GoStrings Paths Job KeyStore LogBuffer.
From Stdlib Require Import Ascii.

(** Addresses of job objects. *)
Abbreviation ptr := nat (only parsing).

(** [src/internal/joblet/adapters/job_store_adapter.go JobEvent] *)
Record JobEvent := {
  je_Type : string;
  je_JobUUID : string;
  je_Status : string;
  je_LogChunk : chunk;
  je_Metadata : gmap string string;
  je_Timestamp : Z;
}.

(** What the asynchronous calls to the state backend carry. *)
Inductive state_call := SCreate (j : Job) | SUpdate (j : Job) | SDelete (uuid : string).

(** The subscriptions are kept by their ids; the contexts behind them belong to
    the streaming handlers.
    [src/internal/joblet/adapters/job_store_adapter.go taskWrapper] *)
Record task := {
  t_job : Job;
  t_logBuffer : nat;
  t_subscribers : gset string;
}.

(** The adapter, with the job memory, the events it published and the calls it
    sent to the state backend.
    [src/internal/joblet/adapters/job_store_adapter.go jobStoreAdapter] *)
Record store (St : Type) := {
  objs : nat → Job;
  jobStore : St;
  logMgr : LogManager;
  tasks : gmap string task;
  hasState : bool;
  persistEnabled : bool;
  closed : bool;
  pubsubClosed : bool;
  published : list JobEvent;
  stateCalls : list state_call;
}.
Arguments objs {St} _ _.
Arguments jobStore {St} _.
Arguments logMgr {St} _.
Arguments tasks {St} _.
Arguments hasState {St} _.
Arguments persistEnabled {St} _.
Arguments closed {St} _.
Arguments pubsubClosed {St} _.
Arguments published {St} _.
Arguments stateCalls {St} _.

Inductive store_error :=
| ENoPrefix (prefix : string) | EAmbiguous (prefix : string) (uuids : list string)
| EJobNotFound (id : string) | EJobRunning (uuid : string) | EClosed
| EDelete (e : store_err) | EPublish
| EPersistCall (e : string) | EPersistRefused (uuid : string)
| ENoState | EStateList (e : string).

Section store.
Context {St : Type} `{!Backend St nat}.
Implicit Types (a : store St) (id uuid prefix : string) (p : ptr) (now : Z).

Definition upd (a : store St) (s : St) (m : LogManager) (ts : gmap string task) : store St := {|
  objs := objs a; jobStore := s; logMgr := m; tasks := ts; hasState := hasState a;
  persistEnabled := persistEnabled a; closed := closed a; pubsubClosed := pubsubClosed a;
  published := published a; stateCalls := stateCalls a;
|}.

Definition call_state (c : state_call) a : store St :=
  if hasState a then {|
    objs := objs a; jobStore := jobStore a; logMgr := logMgr a; tasks := tasks a;
    hasState := hasState a; persistEnabled := persistEnabled a; closed := closed a;
    pubsubClosed := pubsubClosed a; published := published a;
    stateCalls := stateCalls a ++ [c];
  |} else a.

(** A caller writes to the object it owns. *)
Definition set_obj p (j : Job) a : store St := {|
  objs := λ q, if decide (q = p) then j else objs a q;
  jobStore := jobStore a; logMgr := logMgr a; tasks := tasks a;
  hasState := hasState a; persistEnabled := persistEnabled a; closed := closed a;
  pubsubClosed := pubsubClosed a; published := published a; stateCalls := stateCalls a;
|}.

(** [src/internal/joblet/adapters/job_store_adapter.go:97-119 NewJobStorer] *)
Definition NewJobStorer (mem : nat → Job) (state persist : bool) : store St := {|
  objs := mem; jobStore := b_empty; logMgr := NewSimpleLogManager; tasks := ∅;
  hasState := state; persistEnabled := persist; closed := false; pubsubClosed := false;
  published := []; stateCalls := [];
|}.

(** [src/internal/joblet/adapters/job_store_adapter.go jobStoreAdapter.publishEvent] *)
Definition publishEvent (e : JobEvent) a : result store_error unit * store St :=
  if pubsubClosed a then (Err EPublish, a)
  else (Ok tt, {|
    objs := objs a; jobStore := jobStore a; logMgr := logMgr a; tasks := tasks a;
    hasState := hasState a; persistEnabled := persistEnabled a; closed := closed a;
    pubsubClosed := pubsubClosed a; published := published a ++ [e];
    stateCalls := stateCalls a;
  |}).

(** The code takes the mutex of [closed], of the store, of the buffers and of the tasks one after
    the other; as one step this is a call that no [Close] or [DeleteJobLogs] of another
    goroutine overlaps.
    [src/internal/joblet/adapters/job_store_adapter.go:131-192 jobStoreAdapter.CreateNewJob] *)
Definition CreateNewJob now p a : store St :=
  let job := objs a p in
  if closed a then a
  else match b_create (Uuid job) p (jobStore a) with
  | Err _ => a
  | Ok s =>
      let '(logBuffer, m) := GetBuffer (Uuid job) (logMgr a) in
      let t := {| t_job := DeepCopy job; t_logBuffer := logBuffer; t_subscribers := ∅ |} in
      let a1 := upd a s m (<[Uuid job := t]> (tasks a)) in
      let a2 := (publishEvent {| je_Type := "CREATED"; je_JobUUID := Uuid job;
                   je_Status := Status job; je_LogChunk := []; je_Metadata := ∅;
                   je_Timestamp := now |} a1).2 in
      call_state (SCreate job) a2
  end.

(** [src/internal/joblet/adapters/job_store_adapter.go:198-266 jobStoreAdapter.UpdateJob] *)
Definition UpdateJob now p a : store St :=
  let job := objs a p in
  if closed a then a
  else match tasks a !! Uuid job with
  | None => a
  | Some t =>
      match b_update (Uuid job) p (jobStore a) with
      | Err _ => a
      | Ok s =>
          let t' := {| t_job := DeepCopy job; t_logBuffer := t_logBuffer t;
                       t_subscribers := t_subscribers t |} in
          let a1 := upd a s (logMgr a) (<[Uuid job := t']> (tasks a)) in
          let a2 := (publishEvent {| je_Type := "UPDATED"; je_JobUUID := Uuid job;
                       je_Status := Status job; je_LogChunk := []; je_Metadata := ∅;
                       je_Timestamp := now |} a1).2 in
          call_state (SUpdate job) a2
      end
  end.

(** [src/internal/joblet/adapters/job_store_adapter.go:271-294 jobStoreAdapter.Job] *)
Definition Job_ id a : option Job :=
  if closed a then None else DeepCopy ∘ objs a <$> b_get id (jobStore a).

(** [src/internal/joblet/adapters/job_store_adapter.go jobStoreAdapter.JobByPrefix] *)
Definition JobByPrefix prefix a : option Job :=
  match Job_ prefix a with
  | Some job => Some job
  | None =>
      if (len prefix <? 36)%Z then
        if closed a then None
        else match filter (λ job, HasPrefix (Uuid job) prefix = true)
                          (objs a <$> b_list (jobStore a)) with
             | [job] => Some (DeepCopy job)
             | _ => None
             end
      else None
  end.

(** [src/internal/joblet/adapters/job_store_adapter.go jobStoreAdapter.ListJobs] *)
Definition ListJobs a : list Job :=
  if closed a then [] else DeepCopy ∘ objs a <$> b_list (jobStore a).

(** The range over the tasks visits them in the order of [map_to_list]; only
    the text of the ambiguity error depends on it.
    [src/internal/joblet/adapters/job_store_adapter.go jobStoreAdapter.resolveUuidByPrefix] *)
Definition resolveUuidByPrefix prefix a : result store_error string :=
  if (len prefix =? 36)%Z then Ok prefix
  else match filter (λ uuid, HasPrefix uuid prefix = true) (map_to_list (tasks a)).*1 with
       | [] => Err (ENoPrefix prefix)
       | [uuid] => Ok uuid
       | uuids => Err (EAmbiguous prefix uuids)
       end.

(** [src/internal/joblet/adapters/job_store_adapter.go:375-421 jobStoreAdapter.WriteToBuffer] *)
Definition WriteToBuffer now id (c : chunk) a : store St :=
  if bool_decide (c = []) then a
  else match resolveUuidByPrefix id a with
  | Err _ => a
  | Ok uuid =>
      match tasks a !! uuid with
      | None => a
      | Some t =>
          let a1 := if persistEnabled a
                    then upd a (jobStore a) (write_at (t_logBuffer t) c (logMgr a)) (tasks a)
                    else a in
          (publishEvent {| je_Type := "LOG_CHUNK"; je_JobUUID := uuid; je_Status := "";
             je_LogChunk := c; je_Metadata := ∅; je_Timestamp := now |} a1).2
      end
  end.

(** [src/internal/joblet/adapters/job_store_adapter.go:426-471 jobStoreAdapter.Output] *)
Definition Output id a : result store_error (list ascii * bool) :=
  match resolveUuidByPrefix id a with
  | Err _ => Err (EJobNotFound "")
  | Ok uuid =>
      match tasks a !! uuid with
      | None => Err (EJobNotFound "")
      | Some t =>
          let data := foldl (λ data c, data ++ c) [] (read_at (t_logBuffer t) (logMgr a)) in
          Ok (data, IsRunning (t_job t))
      end
  end.

(** One job of the restored list.
    [src/internal/joblet/adapters/job_store_adapter.go:576-599 jobStoreAdapter.SyncFromPersistentState] *)
Definition sync_job a p : store St :=
  let job := objs a p in
  match b_create (Uuid job) p (jobStore a) with
  | Err _ => a
  | Ok s =>
      let '(logBuffer, m) := GetBuffer (Uuid job) (logMgr a) in
      upd a s m (<[Uuid job := {| t_job := DeepCopy job; t_logBuffer := logBuffer;
                                  t_subscribers := ∅ |}]> (tasks a))
  end.

(** [listed] is the answer of the state backend: the addresses the decoded jobs
    were allocated at.
    [src/internal/joblet/adapters/job_store_adapter.go jobStoreAdapter.SyncFromPersistentState] *)
Definition SyncFromPersistentState (listed : result string (list nat)) a
    : result store_error unit * store St :=
  if hasState a then
    match listed with
    | Err e => (Err (EStateList e), a)
    | Ok ps => (Ok tt, foldl sync_job a ps)
    end
  else (Err ENoState, a).

(** [src/internal/joblet/adapters/job_store_adapter.go:612-648 jobStoreAdapter.Close] *)
Definition Close a : store St :=
  if closed a then a
  else {|
    objs := objs a; jobStore := b_close (jobStore a); logMgr := logMgr a; tasks := ∅;
    hasState := hasState a; persistEnabled := persistEnabled a; closed := true;
    pubsubClosed := true; published := published a; stateCalls := stateCalls a;
  |}.

(** [src/internal/joblet/adapters/job_store_adapter.go jobStoreAdapter.ensureNotClosed] *)
Definition ensureNotClosed a : result store_error unit :=
  if closed a then Err EClosed else Ok tt.

(** [src/internal/joblet/adapters/job_store_adapter.go jobStoreAdapter.resolveJobUuid] *)
Definition resolveJobUuid id a : result store_error string :=
  match resolveUuidByPrefix id a with
  | Err _ => Err (EJobNotFound id)
  | Ok uuid => Ok uuid
  end.

(** [src/internal/joblet/adapters/job_store_adapter.go jobStoreAdapter.validateAndResolveJob] *)
Definition validateAndResolveJob id a : result store_error (string * Job) :=
  uuid ← resolveJobUuid id a;
  match Job_ uuid a with
  | None => Err (EJobNotFound uuid)
  | Some job => Ok (uuid, job)
  end.

(** [src/internal/joblet/adapters/job_store_adapter.go jobStoreAdapter.validateJobNotRunning] *)
Definition validateJobNotRunning (job : Job) : result store_error unit :=
  if bool_decide (Status job = "RUNNING"%string) || bool_decide (Status job = "INITIALIZING"%string)
  then Err (EJobRunning (Uuid job)) else Ok tt.

(** [src/internal/joblet/adapters/job_store_adapter.go:1082-1091 taskWrapper.cleanupSubscribers] *)
Definition cleanupSubscribers (t : task) : task :=
  {| t_job := t_job t; t_logBuffer := t_logBuffer t; t_subscribers := ∅ |}.

(** [src/internal/joblet/adapters/job_store_adapter.go jobStoreAdapter.cleanupTaskWrapper] *)
Definition cleanupTaskWrapper uuid a : store St :=
  match tasks a !! uuid with
  | None => a
  | Some t => upd a (jobStore a) (logMgr a) (<[uuid := cleanupSubscribers t]> (tasks a))
  end.

(** [src/internal/joblet/adapters/job_store_adapter.go jobStoreAdapter.completeTaskCleanup] *)
Definition completeTaskCleanup uuid a : store St :=
  match tasks a !! uuid with
  | None => a
  | Some t => upd a (jobStore a) (RemoveBuffer uuid (logMgr a)).2 (delete uuid (tasks a))
  end.

(** [src/internal/joblet/adapters/job_store_adapter.go jobStoreAdapter.publishJobEvent] *)
Definition publishJobEvent now (eventType uuid : string) (metadata : gmap string string) a
    : result store_error unit * store St :=
  publishEvent {| je_Type := eventType; je_JobUUID := uuid; je_Status := ""; je_LogChunk := [];
    je_Metadata := metadata; je_Timestamp := now |} a.

(** [persist] is the persist service when the adapter has a client for it: the
    error of the call, or the [Success] flag of the response.
    [src/internal/joblet/adapters/job_store_adapter.go:752-792 jobStoreAdapter.DeleteJobLogs] *)
Definition DeleteJobLogs (persist : option (string → result string bool)) id a
    : result store_error unit * store St :=
  match ensureNotClosed a with
  | Err e => (Err e, a)
  | Ok _ =>
      match resolveJobUuid id a with
      | Err e => (Err e, a)
      | Ok uuid =>
          let a' := completeTaskCleanup uuid a in
          match persist with
          | None => (Ok tt, a')
          | Some call =>
              match call uuid with
              | Err e => (Err (EPersistCall e), a')
              | Ok false => (Err (EPersistRefused uuid), a')
              | Ok true => (Ok tt, a')
              end
          end
      end
  end.

(** [src/internal/joblet/adapters/job_store_adapter.go:795-842 jobStoreAdapter.DeleteJob] *)
Definition DeleteJob now id a : result store_error unit * store St :=
  match ensureNotClosed a with
  | Err e => (Err e, a)
  | Ok _ =>
      match validateAndResolveJob id a with
      | Err e => (Err e, a)
      | Ok (uuid, job) =>
          match validateJobNotRunning job with
          | Err e => (Err e, a)
          | Ok _ =>
              let a1 := cleanupTaskWrapper uuid a in
              match b_delete uuid (jobStore a1) with
              | Err e => (Err (EDelete e), a1)
              | Ok s =>
                  let a2 := call_state (SDelete uuid) (upd a1 s (logMgr a1) (tasks a1)) in
                  (Ok tt, (publishJobEvent now "DELETED" uuid {["reason" := "user_requested"%string]} a2).2)
              end
          end
      end
  end.

(** The registration of a streaming handler; [None] when the job is gone.
    [src/internal/joblet/adapters/job_store_adapter.go:935-947 jobStoreAdapter.subscribeToJobUpdates] *)
Definition register_subscriber uuid (subID : string) a : option (store St) :=
  match tasks a !! uuid with
  | None => None
  | Some t => Some (upd a (jobStore a) (logMgr a)
      (<[uuid := {| t_job := t_job t; t_logBuffer := t_logBuffer t;
                    t_subscribers := {[subID]} ∪ t_subscribers t |}]> (tasks a)))
  end.

(** The deferred clean-up of a handler.
    [src/internal/joblet/adapters/job_store_adapter.go:977-984 jobStoreAdapter.subscribeToJobUpdates] *)
Definition drop_subscriber uuid (subID : string) a : store St :=
  match tasks a !! uuid with
  | None => a
  | Some t => upd a (jobStore a) (logMgr a)
      (<[uuid := {| t_job := t_job t; t_logBuffer := t_logBuffer t;
                    t_subscribers := t_subscribers t ∖ {[subID]} |}]> (tasks a))
  end.

(** ** Calls, as one type *)

Inductive call :=
| CSet (p : ptr) (j : Job)
| CCreate (p : ptr)
| CUpdate (p : ptr)
| CWrite (id : string) (c : chunk)
| CDelete (id : string)
| CDeleteLogs (persist : option (string → result string bool)) (id : string)
| CSync (listed : result string (list nat))
| CRegister (uuid subID : string)
| CDrop (uuid subID : string)
| CClose.

Definition exec now (c : call) a : store St :=
  match c with
  | CSet p j => set_obj p j a
  | CCreate p => CreateNewJob now p a
  | CUpdate p => UpdateJob now p a
  | CWrite id c => WriteToBuffer now id c a
  | CDelete id => (DeleteJob now id a).2
  | CDeleteLogs persist id => (DeleteJobLogs persist id a).2
  | CSync listed => (SyncFromPersistentState listed a).2
  | CRegister uuid subID => default a (register_subscriber uuid subID a)
  | CDrop uuid subID => drop_subscriber uuid subID a
  | CClose => Close a
  end.
End store.
Arguments store : clear implicits.

(** ** Specification: a book of logs

    What clients are promised about output: a set of known jobs and, per job,
    the chunks written so far.  Nothing of the backend, the pointers or the
    tasks is left. *)

Record book := Book {
  known : gset string;
  logs : gmap string (list chunk);
  shut : bool;
}.

Definition book_resolve (id : string) (b : book) : option string :=
  if (len id =? 36)%Z then Some id
  else match filter (λ uuid, HasPrefix uuid id = true) (elements (known b)) with
       | [uuid] => Some uuid
       | _ => None
       end.

(** The known job an id stands for. *)
Definition book_find (id : string) (b : book) : option string :=
  match book_resolve id b with
  | Some uuid => if decide (uuid ∈ known b) then Some uuid else None
  | None => None
  end.

Definition book_output (id : string) (b : book) : option (list ascii) :=
  match book_find id b with
  | Some uuid => @concat ascii <$> logs b !! uuid
  | None => None
  end.

(** A job that is entered again keeps the log it has. *)
Definition book_add (b : book) (uuid : string) : book :=
  Book ({[uuid]} ∪ known b) (<[uuid := default [] (logs b !! uuid)]> (logs b)) (shut b).

(** [created] are the jobs the backend let the call enter. *)
Definition book_step (persist : bool) (created : list string) (c : call) (b : book) : book :=
  match c with
  | CCreate _ | CSync _ => foldl book_add b created
  | CWrite id c =>
      match book_find id b with
      | Some uuid => if persist && negb (bool_decide (c = []))
                     then Book (known b) (alter (λ cs, cs ++ [c]) uuid (logs b)) (shut b) else b
      | None => b
      end
  | CDeleteLogs _ id =>
      match book_find id b with
      | Some uuid => if shut b then b else Book (known b ∖ {[uuid]}) (delete uuid (logs b)) (shut b)
      | None => b
      end
  | CClose => if shut b then b else Book ∅ (logs b) true
  | CSet _ _ | CUpdate _ | CDelete _ | CRegister _ _ | CDrop _ _ => b
  end.

Section refinement.
Context {St : Type} `{!Backend St nat}.
Implicit Types (a : store St) (id uuid : string).

Fixpoint sync_created (mem : nat → Job) (s : St) (ps : list nat) : list string :=
  match ps with
  | [] => []
  | p :: ps =>
      match b_create (Uuid (mem p)) p s with
      | Err _ => sync_created mem s ps
      | Ok s' => Uuid (mem p) :: sync_created mem s' ps
      end
  end.

Definition created (c : call) a : list string :=
  match c with
  | CCreate p => if closed a then [] else sync_created (objs a) (jobStore a) [p]
  | CSync (Ok ps) => if hasState a then sync_created (objs a) (jobStore a) ps else []
  | _ => []
  end.

Inductive store_reachable : store St → Prop :=
| sr_new mem st pe : store_reachable (NewJobStorer mem st pe)
| sr_exec now c a : store_reachable a → store_reachable (exec now c a).

(** A task's buffer is the one the manager holds for its job. *)
Definition store_inv a : Prop :=
  mgr_wf (logMgr a) ∧
  ∀ uuid t, tasks a !! uuid = Some t → buffers (logMgr a) !! uuid = Some (t_logBuffer t).

(** The book a state of the adapter stands for. *)
Definition abs a : book :=
  Book (dom (tasks a)) ((λ l, read_at l (logMgr a)) <$> buffers (logMgr a)) (closed a).

Definition output_data id a : option (list ascii) :=
  match Output id a with Ok (data, _) => Some data | Err _ => None end.

(** *** Resolving ids *)

Lemma resolve_book id a :
  book_resolve id (abs a) = match resolveUuidByPrefix id a with Ok u => Some u | Err _ => None end.
Proof.
  unfold book_resolve, resolveUuidByPrefix. case_match; [done|]. cbn.
  assert (filter (λ uuid, HasPrefix uuid id = true) (elements (dom (tasks a))) ≡ₚ
          filter (λ uuid, HasPrefix uuid id = true) (map_to_list (tasks a)).*1) as Hp.
  { apply filter_Permutation. symmetry. rewrite <- (elements_list_to_set (C := gset string)).
    - f_equiv. intros x. symmetry. apply (dom_alt (tasks a)).
    - apply NoDup_fst_map_to_list. }
  destruct (filter _ (map_to_list _).*1) as [|u [|v l]].
  - apply Permutation_nil_r in Hp. by rewrite Hp.
  - apply Permutation_singleton_r in Hp. by rewrite Hp.
  - pose proof (Permutation_length Hp) as Hl. destruct (filter _ (elements _)) as [|? [|??]]; simpl in *; done || lia.
Qed.

Lemma find_book id a :
  book_find id (abs a) = match resolveUuidByPrefix id a with
                         | Ok u => if tasks a !! u then Some u else None
                         | Err _ => None
                         end.
Proof.
  unfold book_find. rewrite resolve_book. destruct (resolveUuidByPrefix id a) as [u|]; [|done].
  cbn. destruct (tasks a !! u) eqn:E.
  - rewrite decide_True; [done|]. apply elem_of_dom. eauto.
  - rewrite decide_False; [done|]. by apply not_elem_of_dom.
Qed.

(** *** What the steps do to the invariant and to the book *)

Lemma publish_same e a :
  abs (publishEvent e a).2 = abs a ∧ (store_inv a → store_inv (publishEvent e a).2).
Proof. unfold publishEvent. by case_match. Qed.

Lemma call_state_same c a :
  abs (call_state c a) = abs a ∧ (store_inv a → store_inv (call_state c a)).
Proof. unfold call_state. by case_match. Qed.

(** Changing a task without changing its buffer. *)
Lemma set_task_same a s u t t' : tasks a !! u = Some t → t_logBuffer t' = t_logBuffer t →
  let a' := upd a s (logMgr a) (<[u := t']> (tasks a)) in
  abs a' = abs a ∧ (store_inv a → store_inv a').
Proof.
  intros Ht Hb. split.
  - unfold abs. cbn. f_equal. rewrite dom_insert_L.
    assert (u ∈ dom (tasks a)) by (apply elem_of_dom; eauto). set_solver.
  - intros [Hm Hi]. split; [done|]. intros v w. cbn.
    destruct (decide (v = u)) as [->|Hv].
    + rewrite lookup_insert_eq. intros [= <-]. rewrite Hb. by apply Hi.
    + rewrite lookup_insert_ne by done. apply Hi.
Qed.

Lemma enter_abs a s u j l m : store_inv a → GetBuffer u (logMgr a) = (l, m) →
  let a' := upd a s m (<[u := {| t_job := j; t_logBuffer := l; t_subscribers := ∅ |}]> (tasks a)) in
  store_inv a' ∧ abs a' = book_add (abs a) u.
Proof.
  intros [Hm Hi] Hg. destruct (GetBuffer_spec _ _ _ _ Hm Hg) as (Hm' & Hb & _ & Hk & Hr & _). split.
  - split; [done|]. intros v t. cbn. rewrite Hb. destruct (decide (v = u)) as [->|Hv].
    + rewrite !lookup_insert_eq. by intros [= <-].
    + rewrite !lookup_insert_ne by done. apply Hi.
  - unfold abs, book_add. cbn. f_equal; [by rewrite dom_insert_L|].
    rewrite Hb, fmap_insert, Hr, lookup_fmap. apply map_eq. intros v.
    destruct (decide (v = u)) as [->|Hv].
    { rewrite !lookup_insert_eq. by destruct (buffers (logMgr a) !! u). }
    rewrite !lookup_insert_ne, !lookup_fmap by done.
    destruct (buffers (logMgr a) !! v) as [k|] eqn:E; simpl; [|done]. f_equal.
    destruct (wf_alloc _ Hm _ _ E) as (b & Hbk & _). unfold read_at. by rewrite Hbk, (Hk _ _ Hbk).
Qed.

Lemma sync_abs ps a : store_inv a →
  store_inv (foldl sync_job a ps) ∧
  abs (foldl sync_job a ps) = foldl book_add (abs a) (sync_created (objs a) (jobStore a) ps).
Proof.
  revert a. induction ps as [|p ps IH]; intros a Ha; [done|]. cbn [foldl sync_created].
  unfold sync_job at 2 4. destruct (b_create _ _ _) as [s|e]; [|by apply IH].
  destruct (GetBuffer _ _) as [l m] eqn:Hg.
  destruct (enter_abs a s _ (DeepCopy (objs a p)) _ _ Ha Hg) as [Hi He]. cbn [foldl]. rewrite <- He.
  apply (IH _ Hi).
Qed.

Lemma create_abs now p a : store_inv a → store_inv (CreateNewJob now p a) ∧
  abs (CreateNewJob now p a) = foldl book_add (abs a) (created (CCreate p) a).
Proof.
  intros Ha. unfold CreateNewJob, created. destruct (closed a); [done|]. cbn.
  destruct (b_create _ _ _) as [s|e]; [|done]. destruct (GetBuffer _ _) as [l m] eqn:Hg.
  destruct (enter_abs a s _ (DeepCopy (objs a p)) _ _ Ha Hg) as [Hi He].
  match goal with |- context [publishEvent ?e ?a] => destruct (publish_same e a) as [Hp1 Hp2] end.
  match goal with |- context [call_state ?c ?a] => destruct (call_state_same c a) as [Hc1 Hc2] end.
  split; [by auto|]. by rewrite Hc1, Hp1, He.
Qed.

Lemma update_abs now p a : abs (UpdateJob now p a) = abs a ∧
  (store_inv a → store_inv (UpdateJob now p a)).
Proof.
  unfold UpdateJob. destruct (closed a); [done|]. destruct (tasks a !! _) as [t|] eqn:Ht; [|done].
  destruct (b_update _ _ _) as [s|e]; [|done].
  match goal with |- context [publishEvent ?e (upd ?a ?s _ (<[?u := ?t']> _))] =>
    destruct (publish_same e (upd a s (logMgr a) (<[u := t']> (tasks a)))) as [Hp1 Hp2];
    destruct (set_task_same a s u t t' Ht eq_refl) as [Hs1 Hs2] end.
  match goal with |- context [call_state ?c ?a] => destruct (call_state_same c a) as [Hc1 Hc2] end.
  split; [by rewrite Hc1, Hp1|auto].
Qed.

Lemma write_abs now id c a : store_inv a → store_inv (WriteToBuffer now id c a) ∧
  abs (WriteToBuffer now id c a) = book_step (persistEnabled a) [] (CWrite id c) (abs a).
Proof.
  intros Ha. pose proof Ha as [Hm Hi]. unfold WriteToBuffer, book_step. rewrite find_book.
  destruct (bool_decide (c = [])).
  { rewrite andb_false_r. split; [done|]. by repeat case_match. }
  rewrite andb_true_r. destruct (resolveUuidByPrefix id a) as [u|e]; [|done].
  destruct (tasks a !! u) as [t|] eqn:Ht; cbn; [|done].
  match goal with |- context [publishEvent ?e ?a] => destruct (publish_same e a) as [Hp1 Hp2] end.
  rewrite Hp1. destruct (persistEnabled a); [|auto]. pose proof (Hi _ _ Ht) as Hb.
  destruct (wf_alloc _ Hm _ _ Hb) as (b & Hh & _). split.
  { apply Hp2. split; [by apply write_at_wf|]. exact Hi. }
  unfold abs. cbn. f_equal. apply map_eq. intros v. rewrite lookup_fmap.
  destruct (decide (v = u)) as [->|Hv].
  - rewrite lookup_alter_eq, lookup_fmap, Hb. cbn. f_equal.
    rewrite read_write_at by eauto. by rewrite decide_True.
  - rewrite lookup_alter_ne, lookup_fmap by done.
    destruct (buffers (logMgr a) !! v) eqn:E; [|done]. cbn. f_equal.
    rewrite read_write_at by eauto. rewrite decide_False; [done|].
    intros ->. apply Hv. by apply (wf_inj _ _ _ _ Hm E).
Qed.

Lemma delete_abs now id a : abs (DeleteJob now id a).2 = abs a ∧
  (store_inv a → store_inv (DeleteJob now id a).2).
Proof.
  unfold DeleteJob, publishJobEvent. destruct (ensureNotClosed a); [|done].
  destruct (validateAndResolveJob id a) as [[u j]|]; [|done].
  destruct (validateJobNotRunning j); [|done].
  assert (abs (cleanupTaskWrapper u a) = abs a ∧ (store_inv a → store_inv (cleanupTaskWrapper u a)))
    as [Hk1 Hk2].
  { unfold cleanupTaskWrapper. destruct (tasks a !! u) as [t|] eqn:Ht; [|done].
    by apply (set_task_same a (jobStore a) u t). }
  destruct (b_delete _ _) as [s|e]; cbn; [|done].
  match goal with |- context [publishEvent ?e ?a] => destruct (publish_same e a) as [Hp1 Hp2] end.
  match goal with |- context [call_state ?c ?a] => destruct (call_state_same c a) as [Hc1 Hc2] end.
  split; [by rewrite Hp1, Hc1|auto].
Qed.

Lemma delete_logs_abs persist id a : store_inv a → store_inv (DeleteJobLogs persist id a).2 ∧
  abs (DeleteJobLogs persist id a).2 = book_step (persistEnabled a) [] (CDeleteLogs persist id) (abs a).
Proof.
  intros [Hm Hi]. unfold DeleteJobLogs, ensureNotClosed, resolveJobUuid, book_step. rewrite find_book.
  change (shut (abs a)) with (closed a).
  destruct (closed a) eqn:Hc; [split; [done|]; by repeat case_match|].
  destruct (resolveUuidByPrefix id a) as [u|e]; cbn; [|done].
  assert ((match persist with
    | Some call => match call u with
       | Ok true => (Ok tt, completeTaskCleanup u a)
       | Ok false => (Err (EPersistRefused u), completeTaskCleanup u a)
       | Err e => (Err (EPersistCall e), completeTaskCleanup u a) end
    | None => (Ok tt, completeTaskCleanup u a) end).2 = completeTaskCleanup u a) as -> by by repeat case_match.
  unfold completeTaskCleanup. destruct (tasks a !! u) as [t|] eqn:Ht; [|done].
  destruct (RemoveBuffer_buffers u (logMgr a)) as (Hb & Hh & _). split.
  - split; cbn; [by apply RemoveBuffer_wf|]. intros v w. rewrite Hb.
    destruct (decide (v = u)) as [->|]; [by rewrite lookup_delete_eq|].
    rewrite !lookup_delete_ne by done. apply Hi.
  - unfold abs. cbn. f_equal; [by rewrite dom_delete_L| |done]. rewrite Hb, fmap_delete.
    f_equal. apply map_fmap_ext. intros. unfold read_at. by rewrite Hh.
Qed.

Lemma exec_abs now c a : store_inv a → store_inv (exec now c a) ∧
  abs (exec now c a) = book_step (persistEnabled a) (created c a) c (abs a).
Proof.
  intros Ha. pose proof Ha as [Hm Hi]. destruct c; cbn [exec].
  - done.
  - by apply create_abs.
  - destruct (update_abs now p a). auto.
  - by apply write_abs.
  - destruct (delete_abs now id a). auto.
  - by apply delete_logs_abs.
  - unfold SyncFromPersistentState, created. destruct (hasState a), listed; try done. by apply sync_abs.
  - unfold register_subscriber. destruct (tasks a !! uuid) as [t|] eqn:Ht; [|done]. cbn.
    match goal with |- context [<[_ := ?t']> _] =>
      destruct (set_task_same a (jobStore a) uuid t t' Ht eq_refl) end. auto.
  - unfold drop_subscriber. destruct (tasks a !! uuid) as [t|] eqn:Ht; [|done].
    match goal with |- context [<[_ := ?t']> _] =>
      destruct (set_task_same a (jobStore a) uuid t t' Ht eq_refl) end. auto.
  - unfold Close. cbn. destruct (closed a); [done|]. split; [|by unfold abs; cbn; rewrite dom_empty_L].
    split; [done|]. intros uuid t. cbn. by rewrite lookup_empty.
Qed.

Lemma new_store_inv mem st pe : store_inv (NewJobStorer (St := St) mem st pe).
Proof. split; [apply NewSimpleLogManager_wf|]. intros u t. cbn. by rewrite lookup_empty. Qed.

Lemma reachable_inv a : store_reachable a → store_inv a.
Proof. induction 1; [apply new_store_inv|by apply exec_abs]. Qed.

Lemma foldl_app_concat {A} (ls : list (list A)) acc :
  foldl (λ data c, data ++ c) acc ls = acc ++ concat ls.
Proof.
  revert acc. induction ls as [|l ls IH]; intros acc; cbn; [by rewrite app_nil_r|].
  by rewrite IH, app_assoc.
Qed.

Lemma output_book id a : store_inv a → output_data id a = book_output id (abs a).
Proof.
  intros [Hm Hi]. unfold output_data, Output, book_output. rewrite find_book.
  destruct (resolveUuidByPrefix id a) as [u|]; [|done].
  destruct (tasks a !! u) as [t|] eqn:Ht; [|done]. cbn.
  by rewrite lookup_fmap, (Hi _ _ Ht), foldl_app_concat.
Qed.

(** C6 With calls that run one after the other, the job store implements the book of logs. A
    new store stands for the empty book; every call of a reachable store does to the book
    what the specification says; and while persistence is enabled [Output] returns what the
    book has for the id: all chunks written, in order and nothing else, through deletions of
    the job, re-creations and restarts of the stream, whatever the backend does (without
    persistence nothing is kept in the buffers, and the book says so). Calls that overlap
    are not covered: [CreateNewJob] takes several locks one after the other, so a creation
    next to a [Close] or [DeleteJobLogs] may see the store in between. *)
Theorem store_refines_book mem st pe now c id a : store_reachable a →
  abs (NewJobStorer (St := St) mem st pe) = Book ∅ ∅ false ∧
  abs (exec now c a) = book_step (persistEnabled a) (created c a) c (abs a) ∧
  output_data id a = book_output id (abs a).
Proof.
  intros Ha%reachable_inv. split_and!.
  - unfold abs. cbn. by rewrite dom_empty_L, fmap_empty.
  - by apply exec_abs.
  - by apply output_book.
Qed.

(** *** Prefixes *)

Lemma Output_find id a : Output id a =
  match book_find id (abs a) with
  | Some u => match tasks a !! u with
              | Some t => Ok (concat (read_at (t_logBuffer t) (logMgr a)), Job.IsRunning (t_job t))
              | None => Err (EJobNotFound "")
              end
  | None => Err (EJobNotFound "")
  end.
Proof.
  rewrite find_book. unfold Output. destruct (resolveUuidByPrefix id a) as [u|]; [|done].
  destruct (tasks a !! u) as [t|] eqn:Ht; [|done]. by rewrite Ht, foldl_app_concat.
Qed.

(** An id resolves to a job exactly when it is a full-length uuid, taken as it
    is, or the prefix of one known job and of no other; the order in which the
    range over the task map visits the jobs never matters. *)
Theorem resolve_unique id a uuid : resolveUuidByPrefix id a = Ok uuid ↔
  (len id = 36%Z ∧ uuid = id) ∨
  (len id ≠ 36%Z ∧ is_Some (tasks a !! uuid) ∧ HasPrefix uuid id = true ∧
   ∀ v, is_Some (tasks a !! v) → HasPrefix v id = true → v = uuid).
Proof.
  unfold resolveUuidByPrefix. case_match eqn:Hl; to_prop; [naive_solver|].
  set (l := filter _ _).
  assert (Hin : ∀ v, v ∈ l ↔ HasPrefix v id = true ∧ is_Some (tasks a !! v)).
  { intros v. unfold l. rewrite list_elem_of_filter, list_elem_of_fmap. f_equiv. split.
    - intros ([w t] & -> & Hw). apply elem_of_map_to_list in Hw. eauto.
    - intros [t Ht]. exists (v, t). split; [done|]. by apply elem_of_map_to_list. }
  assert (NoDup l) as Hnd by (unfold l; apply NoDup_filter, NoDup_fst_map_to_list).
  clearbody l. split.
  - intros H. right. destruct l as [|u [|w l]]; simplify_eq.
    destruct (proj1 (Hin uuid) ltac:(left)) as [Hp Hs]. split_and!; [done..|].
    intros v Hv1 Hv2. assert (v ∈ [uuid]) as Hv by (by apply Hin). set_solver.
  - intros [[??]|(_ & Hs & Hp & Hu)]; [done|].
    assert (uuid ∈ l) as Hl1 by (by apply Hin).
    assert (∀ v, v ∈ l → v = uuid) as Hl2 by (intros v [??]%Hin; auto).
    destruct l as [|u [|w l]]; [set_solver|f_equal; set_solver|exfalso].
    assert (u = uuid) by set_solver. assert (w = uuid) by set_solver.
    apply NoDup_cons_1_1 in Hnd. set_solver.
Qed.
End refinement.

(** ** Deletion *)

Section deletion.
Context {St : Type} `{!Backend St nat} `{!LawfulBackend St nat} `{!DeletingBackend St nat}.
Implicit Types (a : store St) (id uuid : string).

Lemma publish_fields e a :
  let a' := (publishEvent e a).2 in
  objs a' = objs a ∧ jobStore a' = jobStore a ∧ logMgr a' = logMgr a ∧ tasks a' = tasks a ∧
  closed a' = closed a ∧ pubsubClosed a' = pubsubClosed a ∧
  published a' = published a ++ (if pubsubClosed a then [] else [e]).
Proof. unfold publishEvent. case_match; cbn; by rewrite ?app_nil_r. Qed.

Lemma call_state_fields c a :
  let a' := call_state c a in
  objs a' = objs a ∧ jobStore a' = jobStore a ∧ logMgr a' = logMgr a ∧ tasks a' = tasks a ∧
  closed a' = closed a ∧ pubsubClosed a' = pubsubClosed a ∧ published a' = published a.
Proof. unfold call_state. by case_match. Qed.

Lemma cleanup_tasks uuid a :
  let a' := cleanupTaskWrapper uuid a in
  tasks a' = alter cleanupSubscribers uuid (tasks a) ∧
  objs a' = objs a ∧ jobStore a' = jobStore a ∧ logMgr a' = logMgr a ∧
  closed a' = closed a ∧ pubsubClosed a' = pubsubClosed a ∧ published a' = published a.
Proof.
  unfold cleanupTaskWrapper. destruct (tasks a !! uuid) as [t|] eqn:Ht; cbn.
  - split; [|done]. apply map_eq. intros v. destruct (decide (v = uuid)) as [->|].
    + by rewrite lookup_insert_eq, lookup_alter_eq, Ht.
    + by rewrite lookup_insert_ne, lookup_alter_ne.
  - split; [|done]. apply map_eq. intros v. destruct (decide (v = uuid)) as [->|].
    + by rewrite lookup_alter_eq, Ht.
    + by rewrite lookup_alter_ne.
Qed.

(** The state a successful deletion leaves. *)
Lemma DeleteJob_ok now id a a' uuid job :
  resolveUuidByPrefix id a = Ok uuid → Job_ uuid a = Some job →
  validateJobNotRunning job = Ok tt → DeleteJob now id a = (Ok tt, a') →
  objs a' = objs a ∧ tasks a' = alter cleanupSubscribers uuid (tasks a) ∧ logMgr a' = logMgr a ∧
  closed a' = closed a ∧ b_delete uuid (jobStore a) = Ok (jobStore a') ∧
  published a' = published a ++ (if pubsubClosed a then [] else
    [{| je_Type := "DELETED"; je_JobUUID := uuid; je_Status := ""; je_LogChunk := [];
        je_Metadata := {["reason" := "user_requested"%string]}; je_Timestamp := now |}]).
Proof.
  intros Hr Hj Hv. unfold DeleteJob, ensureNotClosed, validateAndResolveJob, resolveJobUuid.
  destruct (closed a) eqn:Hc; [done|]. rewrite Hr. cbn [mbind result_bind]. rewrite Hj, Hv.
  destruct (cleanup_tasks uuid a) as (Ht & Ho & Hs & Hm & Hc' & Hp & Hq).
  destruct (b_delete uuid _) as [s|e] eqn:Hd; [|done]. intros [= <-]. unfold publishJobEvent.
  set (a1 := cleanupTaskWrapper uuid a) in *. set (a2 := upd a1 s _ _).
  destruct (call_state_fields (SDelete uuid) a2) as (Ho1 & Hs1 & Hm1 & Ht1 & Hc1 & Hp1 & Hq1).
  match goal with |- context [publishEvent ?e ?a] =>
    destruct (publish_fields e a) as (Ho2 & Hs2 & Hm2 & Ht2 & Hc2 & Hp2 & Hq2) end.
  rewrite Ho2, Ho1, Ht2, Ht1, Hm2, Hm1, Hc2, Hc1, Hs2, Hs1, Hq2, Hp1, Hq1. cbn.
  rewrite Hs in Hd. rewrite Ho, Hm, Ht, Hc', Hp, Hq. done.
Qed.

Lemma Job_stored uuid a job : Job_ uuid a = Some job →
  closed a = false ∧ ∃ p, b_get uuid (jobStore a) = Some p.
Proof.
  unfold Job_. destruct (closed a); [done|]. intros (p & Hp & _)%fmap_Some. eauto.
Qed.

(** A job that is running or initialising is refused. *)
Lemma DeleteJob_refused now id a uuid job :
  resolveUuidByPrefix id a = Ok uuid → Job_ uuid a = Some job →
  Status job = StatusRunning ∨ Status job = StatusInitializing →
  DeleteJob now id a = (Err (EJobRunning (Uuid job)), a).
Proof.
  intros Hr Hj Hst. destruct (Job_stored _ _ _ Hj) as (Hc & _).
  unfold DeleteJob, ensureNotClosed, validateAndResolveJob, resolveJobUuid.
  rewrite Hc, Hr. cbn [mbind result_bind]. rewrite Hj. unfold validateJobNotRunning.
  by destruct Hst as [-> | ->].
Qed.

(** Any other stored job is deleted. *)
Lemma DeleteJob_succeeds now id a uuid job :
  resolveUuidByPrefix id a = Ok uuid → Job_ uuid a = Some job →
  Status job ≠ StatusRunning → Status job ≠ StatusInitializing →
  validateJobNotRunning job = Ok tt ∧ ∃ a', DeleteJob now id a = (Ok tt, a').
Proof.
  intros Hr Hj H1 H2. destruct (Job_stored _ _ _ Hj) as (Hc & p & Hp).
  assert (validateJobNotRunning job = Ok tt) as Hv.
  { unfold validateJobNotRunning. by rewrite !bool_decide_false. }
  split; [done|]. destruct (b_delete_ok uuid (jobStore a) p Hp) as [s Hs].
  unfold DeleteJob, ensureNotClosed, validateAndResolveJob, resolveJobUuid.
  rewrite Hc, Hr. cbn [mbind result_bind]. rewrite Hj, Hv.
  destruct (cleanup_tasks uuid a) as (_ & _ & -> & _). rewrite Hs. eauto.
Qed.

(** Deleting a job that is running or initialising is refused and changes
    nothing.  Any other stored job is deleted: the store no longer has it and
    the other jobs are as before, its subscriptions are dropped, a deletion
    event is published, and the output of every job, the deleted one included,
    reads exactly as before. *)
Theorem DeleteJob_keeps_logs now id a uuid job :
  resolveUuidByPrefix id a = Ok uuid → Job_ uuid a = Some job →
  ((Status job = StatusRunning ∨ Status job = StatusInitializing) ∧
   DeleteJob now id a = (Err (EJobRunning (Uuid job)), a)) ∨
  (Status job ≠ StatusRunning ∧ Status job ≠ StatusInitializing ∧
   ∃ a', DeleteJob now id a = (Ok tt, a') ∧ Job_ uuid a' = None ∧
     (∀ v, v ≠ uuid → Job_ v a' = Job_ v a) ∧
     (∀ i, Output i a' = Output i a) ∧
     (∀ t, tasks a' !! uuid = Some t → t_subscribers t = ∅) ∧
     (pubsubClosed a = false → je_Type <$> last (published a') = Some "DELETED"%string)).
Proof.
  intros Hr Hj. destruct (Job_stored _ _ _ Hj) as (Hc & _).
  destruct (decide (Status job = StatusRunning ∨ Status job = StatusInitializing)) as [Hst|Hst].
  { left. split; [done|by eapply DeleteJob_refused]. }
  right. assert (Status job ≠ StatusRunning ∧ Status job ≠ StatusInitializing) as [H1 H2] by tauto.
  destruct (DeleteJob_succeeds now id a uuid job Hr Hj H1 H2) as (Hv & a' & Ha').
  split_and!; [done..|]. exists a'.
  destruct (DeleteJob_ok _ _ _ _ _ _ Hr Hj Hv Ha') as (Ho & Ht & Hm & Hc' & Hd & Hq).
  assert (abs a' = abs a) as Habs by (pose proof (delete_abs now id a) as [H _]; by rewrite Ha' in H).
  split_and!; [done|..].
  - unfold Job_. rewrite Hc', Hc, (b_get_delete _ _ _ _ Hd), decide_True; done.
  - intros v Hne. unfold Job_. rewrite Hc', Ho, (b_get_delete _ _ _ _ Hd), decide_False; done.
  - intros i. rewrite !Output_find, Habs, Ht, Hm. destruct (book_find i _) as [u|]; [|done].
    destruct (decide (u = uuid)) as [->|Hu]; [|by rewrite lookup_alter_ne].
    rewrite lookup_alter_eq. by destruct (tasks a !! uuid).
  - intros t. rewrite Ht, lookup_alter_eq. intros (t0 & _ & ->)%fmap_Some. done.
  - intros Hps. by rewrite Hq, Hps, last_snoc.
Qed.
End deletion.

(** A deleted job comes back: the task outlives the deletion, so an update that
    arrives late, as that of the monitor of a stopped process does, finds it, and
    the in-memory store enters the job again. *)
Theorem late_update_resurrects now now' id uuid (p : nat) t (a a' : store (gmap string nat)) :
  resolveUuidByPrefix id a = Ok uuid → tasks a !! uuid = Some t → Uuid (objs a p) = uuid →
  DeleteJob now id a = (Ok tt, a') →
  Job_ uuid a' = None ∧ Job_ uuid (UpdateJob now' p a') = Some (DeepCopy (objs a p)).
Proof.
  intros Hr Ht Hu Hd. pose proof Hd as Hd0.
  unfold DeleteJob, ensureNotClosed, validateAndResolveJob, resolveJobUuid in Hd0.
  destruct (closed a) eqn:Hc; [done|]. rewrite Hr in Hd0. cbn [mbind result_bind] in Hd0.
  destruct (Job_ uuid a) as [job|] eqn:Hj; [|done].
  destruct (validateJobNotRunning job) as [[]|] eqn:Hv; [|done]. clear Hd0.
  destruct (DeleteJob_ok _ _ _ _ _ _ Hr Hj Hv Hd) as (Ho & Hts & Hm & Hc' & Hs & _). split.
  - unfold Job_. by rewrite Hc', Hc, (b_get_delete _ _ _ _ Hs), decide_True.
  - unfold UpdateJob. rewrite Hc', Hc, Ho, Hu, Hts, lookup_alter_eq, Ht. cbn.
    match goal with |- context [publishEvent ?e ?a] =>
      destruct (publish_fields e a) as (Ho2 & Hs2 & _ & _ & Hc2 & _) end.
    match goal with |- context [call_state ?c ?a] =>
      destruct (call_state_fields c a) as (Ho3 & Hs3 & _ & _ & Hc3 & _) end.
    unfold Job_. rewrite Hc3, Hc2, Hs3, Hs2, Ho3, Ho2. cbn. by rewrite Hc', Hc, lookup_insert_eq, Ho.
Qed.

(** ** Concrete runs *)

Definition u1 : string := "0123456789abcdef0123456789abcdef0123".
Definition u2 : string := "0199999999abcdef0123456789abcdef0123".
Definition two_jobs (p : nat) : Job :=
  if decide (p = 0) then blank_job u1 StatusStopped None else blank_job u2 StatusRunning None.
Definition busy : store (gmap string nat) :=
  foldl (λ a c, exec 5%Z c a) (NewJobStorer two_jobs true true)
    [CCreate 0; CCreate 1; CWrite "0123" ["a"%char]; CWrite u2 ["z"%char];
     CWrite "012" ["b"%char; "c"%char]].

Example output_u1 : Output "0123" busy = Ok (["a"; "b"; "c"]%char, false).
Proof. vm_compute. reflexivity. Qed.
Example ambiguous : is_ok (resolveUuidByPrefix "01" busy) = false.
Proof. vm_compute. reflexivity. Qed.

Lemma busy_reachable : store_reachable busy.
Proof. unfold busy. cbn [foldl]. repeat apply sr_exec. apply sr_new. Qed.

Lemma store_refines_book_witness :
  store_reachable busy ∧ output_data "0123" busy = book_output "0123" (abs busy) ∧
  output_data "0123" busy = Some ["a"; "b"; "c"]%char.
Proof.
  split_and!; [exact busy_reachable| |vm_compute; reflexivity].
  apply (store_refines_book two_jobs true true 9%Z CClose "0123" busy busy_reachable).
Defined.

Lemma DeleteJob_keeps_logs_witness :
  resolveUuidByPrefix "0123" busy = Ok u1 ∧
  ∃ a', DeleteJob 6%Z "0123" busy = (Ok tt, a') ∧ Output u1 a' = Output u1 busy.
Proof.
  split; [vm_compute; reflexivity|].
  destruct (DeleteJob_keeps_logs 6%Z "0123" busy u1 (DeepCopy (two_jobs 0))
    ltac:(vm_compute; reflexivity) ltac:(vm_compute; reflexivity)) as [[[H|H] _]|(_ & _ & a' & H1 & _ & _ & H2 & _)];
    [done|done|eauto].
Defined.

Lemma late_update_resurrects_witness :
  ∃ a', DeleteJob 6%Z u1 busy = (Ok tt, a') ∧ Job_ u1 a' = None ∧
    Job_ u1 (UpdateJob 7%Z 0 a') = Some (DeepCopy (two_jobs 0)).
Proof.
  eexists. split; [reflexivity|].
  eapply (late_update_resurrects 6%Z 7%Z u1 u1 0 _ busy); reflexivity.
Defined.
