(* ===== verification/PubSub.v ===== *)
(** * The publish-subscribe system (internal/joblet/pubsub/pubsub.go)

    The in-memory system as interleaved steps.  A publisher is in flight from the
    moment it has its message id, holding the read lock that excludes [Close]; it
    copies the topic's subscribers, then sends to each in turn, and each send may
    interleave with receivers and with [unsubscribe], which no lock excludes.
    Numbers of subscribers come from the same counter as message ids. *)

From S2P Require Import Prelude.

Local Open Scope Z_scope.

Section pubsub.
Context {T : Type}.

(** ** State *)

(** The timestamp and the empty attributes are left out.
    [src/internal/joblet/pubsub/pubsub.go Message] *)
Record Message := {
  m_ID : Z;
  m_Topic : string;
  m_Payload : T;
}.

(** The channel is its buffer and whether it is closed; [unsubscribed] is the
    flag of the [unsubscribe] closure.
    [src/internal/joblet/pubsub/pubsub.go subscriber] *)
Record subscriber := {
  s_topic : string;
  s_chan : list Message;
  s_chanClosed : bool;
  s_cancelled : bool;
  s_unsubscribed : bool;
  s_MessagesReceived : Z;
  s_IsActive : bool;
}.

(** [src/internal/joblet/pubsub/pubsub.go topic] *)
Record topic := {
  t_subscribers : gset Z;
  t_MessageCount : Z;
  t_SubscriberCount : Z;
}.

(** A call of [Publish] in flight: its message, the subscribers it copied, once it
    has, and those it has still to send to. *)
Record publisher := {
  p_msg : Message;
  p_snapshot : option (list Z);
  p_rest : list Z;
}.

(** Topic objects stay reachable from [unsubscribe] closures after [Close] has
    emptied the map of topics; [listed] are the names in that map.
    [src/internal/joblet/pubsub/pubsub.go memoryPubSub] *)
Record pubsub := {
  topics : gmap string topic;
  listed : gset string;
  subs : gmap Z subscriber;
  pubs : gmap nat publisher;
  bufferSize : Z;
  closed : bool;
  messageID : Z;
  panicked : bool;
}.

(** [src/internal/joblet/pubsub/pubsub.go WithBufferSize] *)
Definition WithBufferSize (size current : Z) : Z := if size >? 0 then size else current.

(** The options are the buffer sizes given, applied in order.
    [src/internal/joblet/pubsub/pubsub.go NewPubSub] *)
Definition NewPubSub (opts : list Z) : pubsub := {|
  topics := ∅; listed := ∅; subs := ∅; pubs := ∅;
  bufferSize := foldl (λ b o, WithBufferSize o b) 10 opts;
  closed := false; messageID := 0; panicked := false;
|}.

Inductive event :=
| EPublisherClosed | ESubscriberClosed
| ESubscribed (n : Z) (name : string)
| EPublished (pid : nat) (m : Message)
| ESent (n : Z) (m : Message)
| EDropped (n : Z) (m : Message)
| EDone (pid : nat) (m : Message) (snapshot : list Z)
| ECancelled (pid : nat) (m : Message)
| EReceived (n : Z) (m : Message)
| EChannelEnd (n : Z).

(** ** Operations *)

Definition set_topics ts ls (s : pubsub) : pubsub := {|
  topics := ts; listed := ls; subs := subs s; pubs := pubs s; bufferSize := bufferSize s;
  closed := closed s; messageID := messageID s; panicked := panicked s |}.
Definition set_subs sm (s : pubsub) : pubsub := {|
  topics := topics s; listed := listed s; subs := sm; pubs := pubs s; bufferSize := bufferSize s;
  closed := closed s; messageID := messageID s; panicked := panicked s |}.
Definition set_pubs pm (s : pubsub) : pubsub := {|
  topics := topics s; listed := listed s; subs := subs s; pubs := pm; bufferSize := bufferSize s;
  closed := closed s; messageID := messageID s; panicked := panicked s |}.
Definition set_panic (s : pubsub) : pubsub := {|
  topics := topics s; listed := listed s; subs := subs s; pubs := pubs s;
  bufferSize := bufferSize s; closed := closed s; messageID := messageID s; panicked := true |}.

(** [src/internal/joblet/pubsub/pubsub.go memoryPubSub.nextMessageID] *)
Definition nextMessageID (s : pubsub) : Z * pubsub :=
  let i := wrap64 (messageID s + 1) in
  (i, {| topics := topics s; listed := listed s; subs := subs s; pubs := pubs s;
         bufferSize := bufferSize s; closed := closed s; messageID := i; panicked := panicked s |}).

Definition new_topic : topic := {| t_subscribers := ∅; t_MessageCount := 0; t_SubscriberCount := 0 |}.

(** [src/internal/joblet/pubsub/pubsub.go memoryPubSub.getOrCreateTopic] *)
Definition getOrCreateTopic (name : string) (s : pubsub) : pubsub :=
  if decide (name ∈ listed s) then s
  else set_topics (<[name := new_topic]> (topics s)) ({[name]} ∪ listed s) s.

(** The start of a publication with a live context, up to the message: [pid]
    names the call.
    [src/internal/joblet/pubsub/pubsub.go:127-150 memoryPubSub.Publish] *)
Definition Publish_start (pid : nat) (name : string) (payload : T) (s : pubsub)
    : pubsub * list event :=
  if closed s then (s, [EPublisherClosed])
  else
    let '(i, s2) := nextMessageID (getOrCreateTopic name s) in
    let m := {| m_ID := i; m_Topic := name; m_Payload := payload |} in
    (set_pubs (<[pid := {| p_msg := m; p_snapshot := None; p_rest := [] |}]> (pubs s2)) s2,
     [EPublished pid m]).

(** The copy of the subscribers, in the order [order] of the range over them, and
    the topic's statistics.
    [src/internal/joblet/pubsub/pubsub.go:152-168 memoryPubSub.Publish] *)
Definition Publish_snapshot (pid : nat) (order : list Z) (s : pubsub) : option pubsub :=
  p ← pubs s !! pid;
  t ← topics s !! m_Topic (p_msg p);
  if bool_decide (p_snapshot p = None) && bool_decide (NoDup order) &&
     bool_decide (list_to_set order = t_subscribers t)
  then Some (set_topics
    (<[m_Topic (p_msg p) := {| t_subscribers := t_subscribers t;
         t_MessageCount := t_MessageCount t + 1; t_SubscriberCount := t_SubscriberCount t |}]> (topics s))
    (listed s)
    (set_pubs (<[pid := {| p_msg := p_msg p; p_snapshot := Some order; p_rest := order |}]> (pubs s)) s))
  else None.

Definition sent (m : Message) (sb : subscriber) : subscriber := {|
  s_topic := s_topic sb; s_chan := s_chan sb ++ [m]; s_chanClosed := s_chanClosed sb;
  s_cancelled := s_cancelled sb; s_unsubscribed := s_unsubscribed sb;
  s_MessagesReceived := s_MessagesReceived sb + 1; s_IsActive := s_IsActive sb |}.

Definition advance (pid : nat) (p : publisher) (rest : list Z) (s : pubsub) : pubsub :=
  set_pubs (<[pid := {| p_msg := p_msg p; p_snapshot := p_snapshot p; p_rest := rest |}]> (pubs s)) s.

(** The send to the next subscriber: it waits ([None]) while the channel is full,
    and panics when the channel is closed.
    [src/internal/joblet/pubsub/pubsub.go:170-178 memoryPubSub.Publish] *)
Definition Publish_send (pid : nat) (s : pubsub) : option (pubsub * list event) :=
  p ← pubs s !! pid;
  match p_rest p with
  | [] => None
  | n :: rest =>
      sb ← subs s !! n;
      if s_chanClosed sb then Some (set_panic s, [])
      else if Z.of_nat (length (s_chan sb)) <? bufferSize s
      then Some (advance pid p rest (set_subs (<[n := sent (p_msg p) sb]> (subs s)) s),
                 [ESent n (p_msg p)])
      else None
  end.

(** The 100 ms of a send that cannot proceed are over.
    [src/internal/joblet/pubsub/pubsub.go:179-181 memoryPubSub.Publish] *)
Definition Publish_timeout (pid : nat) (s : pubsub) : option (pubsub * list event) :=
  p ← pubs s !! pid;
  match p_rest p with
  | [] => None
  | n :: rest =>
      sb ← subs s !! n;
      if negb (s_chanClosed sb) && (bufferSize s <=? Z.of_nat (length (s_chan sb)))
      then Some (advance pid p rest s, [EDropped n (p_msg p)])
      else None
  end.

(** The publisher's context ended during a send.
    [src/internal/joblet/pubsub/pubsub.go:182-184 memoryPubSub.Publish] *)
Definition Publish_cancel (pid : nat) (s : pubsub) : option (pubsub * list event) :=
  p ← pubs s !! pid;
  match p_rest p with
  | [] => None
  | _ => Some (set_pubs (delete pid (pubs s)) s, [ECancelled pid (p_msg p)])
  end.

(** The return, which gives the read lock back.
    [src/internal/joblet/pubsub/pubsub.go:186-189 memoryPubSub.Publish] *)
Definition Publish_return (pid : nat) (s : pubsub) : option (pubsub * list event) :=
  p ← pubs s !! pid;
  match p_snapshot p, p_rest p with
  | Some snap, [] => Some (set_pubs (delete pid (pubs s)) s, [EDone pid (p_msg p) snap])
  | _, _ => None
  end.

(** [src/internal/joblet/pubsub/pubsub.go:192-228 memoryPubSub.Subscribe] *)
Definition Subscribe (name : string) (s : pubsub) : pubsub * list event :=
  if closed s then (s, [ESubscriberClosed])
  else
    let '(n, s2) := nextMessageID (getOrCreateTopic name s) in
    let sb := {| s_topic := name; s_chan := []; s_chanClosed := false; s_cancelled := false;
                 s_unsubscribed := false; s_MessagesReceived := 0; s_IsActive := true |} in
    let t := default new_topic (topics s2 !! name) in
    let members := {[n]} ∪ t_subscribers t in
    (set_subs (<[n := sb]> (subs s2))
       (set_topics (<[name := {| t_subscribers := members; t_MessageCount := t_MessageCount t;
                                 t_SubscriberCount := Z.of_nat (base.size members) |}]> (topics s2))
          (listed s2) s2),
     [ESubscribed n name]).

Definition set_unsubscribed (sb : subscriber) : subscriber := {|
  s_topic := s_topic sb; s_chan := s_chan sb; s_chanClosed := s_chanClosed sb;
  s_cancelled := true; s_unsubscribed := true;
  s_MessagesReceived := s_MessagesReceived sb; s_IsActive := s_IsActive sb |}.

(** The first half of the closure: a second call returns here.
    [src/internal/joblet/pubsub/pubsub.go:230-243 memoryPubSub.Subscribe] *)
Definition unsubscribe_flag (n : Z) (s : pubsub) : option pubsub :=
  sb ← subs s !! n;
  if s_unsubscribed sb then Some s
  else Some (set_subs (<[n := set_unsubscribed sb]> (subs s)) s).

Definition close_chan (sb : subscriber) : subscriber := {|
  s_topic := s_topic sb; s_chan := s_chan sb; s_chanClosed := true; s_cancelled := s_cancelled sb;
  s_unsubscribed := s_unsubscribed sb; s_MessagesReceived := s_MessagesReceived sb;
  s_IsActive := s_IsActive sb |}.

Definition set_inactive (sb : subscriber) : subscriber := {|
  s_topic := s_topic sb; s_chan := s_chan sb; s_chanClosed := s_chanClosed sb;
  s_cancelled := s_cancelled sb; s_unsubscribed := s_unsubscribed sb;
  s_MessagesReceived := s_MessagesReceived sb; s_IsActive := false |}.

(** The second half, which runs once, since only here the subscriber becomes
    inactive: it leaves the topic and its channel is closed, which panics when it
    is closed already.
    [src/internal/joblet/pubsub/pubsub.go:245-263 memoryPubSub.Subscribe] *)
Definition unsubscribe_remove (n : Z) (s : pubsub) : option pubsub :=
  sb ← subs s !! n;
  if s_unsubscribed sb && s_IsActive sb then
    t ← topics s !! s_topic sb;
    let inside := bool_decide (n ∈ t_subscribers t) in
    if inside && s_chanClosed sb then Some (set_panic s)
    else
      let members := t_subscribers t ∖ {[n]} in
      let sb' := set_inactive (if inside then close_chan sb else sb) in
      Some (set_subs (<[n := sb']> (subs s))
        (set_topics (<[s_topic sb := {| t_subscribers := members;
             t_MessageCount := t_MessageCount t;
             t_SubscriberCount := Z.of_nat (base.size members) |}]> (topics s)) (listed s) s))
  else None.

Definition receive (sb : subscriber) (rest : list Message) : subscriber := {|
  s_topic := s_topic sb; s_chan := rest; s_chanClosed := s_chanClosed sb;
  s_cancelled := s_cancelled sb; s_unsubscribed := s_unsubscribed sb;
  s_MessagesReceived := s_MessagesReceived sb; s_IsActive := s_IsActive sb |}.

(** A receive on the channel a subscriber was given. *)
Definition Receive (n : Z) (s : pubsub) : option (pubsub * list event) :=
  sb ← subs s !! n;
  match s_chan sb with
  | m :: rest => Some (set_subs (<[n := receive sb rest]> (subs s)) s, [EReceived n m])
  | [] => if s_chanClosed sb then Some (s, [EChannelEnd n]) else None
  end.

(** Whether a subscriber is in its topic's map. *)
Definition is_member (s : pubsub) (n : Z) (sb : subscriber) : bool :=
  match topics s !! s_topic sb with
  | Some t => bool_decide (n ∈ t_subscribers t)
  | None => false
  end.

Definition cancel_sub (sb : subscriber) : subscriber := {|
  s_topic := s_topic sb; s_chan := s_chan sb; s_chanClosed := s_chanClosed sb;
  s_cancelled := true; s_unsubscribed := s_unsubscribed sb;
  s_MessagesReceived := s_MessagesReceived sb; s_IsActive := s_IsActive sb |}.

(** The write lock waits for every publisher; closing a closed channel would
    panic.
    [src/internal/joblet/pubsub/pubsub.go memoryPubSub.Close] *)
Definition Close (s : pubsub) : option pubsub :=
  if negb (bool_decide (pubs s = ∅)) then None
  else if closed s then Some s
  else Some {|
    topics := (λ t, {| t_subscribers := ∅; t_MessageCount := t_MessageCount t;
                       t_SubscriberCount := t_SubscriberCount t |}) <$> topics s;
    listed := ∅;
    subs := map_imap (λ n sb, Some (if is_member s n sb then close_chan (cancel_sub sb) else sb)) (subs s);
    pubs := pubs s; bufferSize := bufferSize s; closed := true; messageID := messageID s;
    panicked := panicked s ||
      existsb (λ '(n, sb), is_member s n sb && s_chanClosed sb) (map_to_list (subs s));
  |}.

(** [src/internal/joblet/pubsub/pubsub.go memoryPubSub.Health] *)
Definition Health (s : pubsub) : bool := negb (closed s).

(** ** Steps *)

Inductive label :=
| LPublish (pid : nat) (name : string) (payload : T)
| LSnapshot (pid : nat) (order : list Z)
| LSend (pid : nat) | LTimeout (pid : nat) | LCancel (pid : nat) | LReturn (pid : nat)
| LSubscribe (name : string)
| LUnsubscribe (n : Z) | LRemove (n : Z)
| LReceive (n : Z)
| LClose.

Definition silent (o : option pubsub) : option (pubsub * list event) :=
  s ← o; Some (s, []).

Definition step (l : label) (s : pubsub) : option (pubsub * list event) :=
  if panicked s then None else
  match l with
  | LPublish pid name payload =>
      if bool_decide (pubs s !! pid = None) then Some (Publish_start pid name payload s) else None
  | LSnapshot pid order => silent (Publish_snapshot pid order s)
  | LSend pid => Publish_send pid s
  | LTimeout pid => Publish_timeout pid s
  | LCancel pid => Publish_cancel pid s
  | LReturn pid => Publish_return pid s
  | LSubscribe name => Some (Subscribe name s)
  | LUnsubscribe n => silent (unsubscribe_flag n s)
  | LRemove n => silent (unsubscribe_remove n s)
  | LReceive n => Receive n s
  | LClose => silent (Close s)
  end.

Fixpoint run (ls : list label) (s : pubsub) : option (pubsub * list event) :=
  match ls with
  | [] => Some (s, [])
  | l :: ls => r ← step l s; r' ← run ls r.1; Some (r'.1, r.2 ++ r'.2)
  end.

(** ** What happened to a subscriber *)

Definition sent_to (n : Z) (evs : list event) : list Message :=
  omap (λ e, match e with ESent k m => if decide (k = n) then Some m else None | _ => None end) evs.
Definition received_by (n : Z) (evs : list event) : list Message :=
  omap (λ e, match e with EReceived k m => if decide (k = n) then Some m else None | _ => None end) evs.

Definition got (n : Z) (m : Message) (evs : list event) : Prop :=
  ESent n m ∈ evs ∨ EDropped n m ∈ evs.

Lemma sent_to_app n e1 e2 : sent_to n (e1 ++ e2) = sent_to n e1 ++ sent_to n e2.
Proof. apply omap_app. Qed.
Lemma received_by_app n e1 e2 : received_by n (e1 ++ e2) = received_by n e1 ++ received_by n e2.
Proof. apply omap_app. Qed.

(** ** The invariant *)

(** A publisher in flight: it excludes [Close], the subscribers it has still to
    send to exist and listen to its topic, those it is done with got the message
    or had a full buffer, and nobody else did. *)
Record pub_ok (s : pubsub) (evs : list event) (p : publisher) : Prop := {
  po_id : 1 ≤ m_ID (p_msg p) ≤ messageID s;
  po_open : closed s = false;
  po_topic : is_Some (topics s !! m_Topic (p_msg p));
  po_none : p_snapshot p = None → p_rest p = [];
  po_nodup : NoDup (p_rest p);
  po_rest : ∀ n, n ∈ p_rest p → ∃ sb, subs s !! n = Some sb ∧ s_topic sb = m_Topic (p_msg p);
  po_snap : ∀ S n, p_snapshot p = Some S → n ∈ S → n ∈ p_rest p ∨ got n (p_msg p) evs;
  po_sent : ∀ n, m_ID (p_msg p) ∈ (m_ID <$> sent_to n evs) →
    is_Some (p_snapshot p) ∧ n ∉ p_rest p;
}.

Record inv (s : pubsub) (evs : list event) : Prop := {
  i_fifo : ∀ n sb, subs s !! n = Some sb → sent_to n evs = received_by n evs ++ s_chan sb;
  i_none : ∀ n, subs s !! n = None → sent_to n evs = [] ∧ received_by n evs = [];
  i_cap : ∀ n sb, subs s !! n = Some sb → Z.of_nat (length (s_chan sb)) ≤ bufferSize s;
  i_member : ∀ name t n, topics s !! name = Some t → n ∈ t_subscribers t →
    ∃ sb, subs s !! n = Some sb ∧ s_topic sb = name ∧ s_chanClosed sb = false;
  i_listed : closed s = false → ∀ name, name ∈ listed s ↔ is_Some (topics s !! name);
  i_sub_id : ∀ n, is_Some (subs s !! n) → 1 ≤ n ≤ messageID s;
  i_pub : ∀ pid p, pubs s !! pid = Some p → pub_ok s evs p;
  i_inj : ∀ i j p q, pubs s !! i = Some p → pubs s !! j = Some q →
    m_ID (p_msg p) = m_ID (p_msg q) → i = j;
  i_bound : ∀ n m, m ∈ sent_to n evs → m_ID m ≤ messageID s;
  i_topic : ∀ n sb m, subs s !! n = Some sb → m ∈ sent_to n evs → m_Topic m = s_topic sb;
  i_nodup : ∀ n, NoDup (m_ID <$> sent_to n evs);
  i_done : ∀ pid m S n, EDone pid m S ∈ evs → n ∈ S → got n m evs;
  i_pos : 0 ≤ messageID s ∧ 0 ≤ bufferSize s;
}.

Lemma got_app n m e1 e2 : got n m e1 → got n m (e1 ++ e2).
Proof. unfold got. set_solver. Qed.

(** Events that concern neither sends, nor receives, nor returns. *)
Definition quiet (e : event) : Prop :=
  match e with ESent _ _ | EReceived _ _ | EDone _ _ _ => False | _ => True end.

Lemma quiet_sent n es : Forall quiet es → sent_to n es = [] ∧ received_by n es = [].
Proof. induction 1 as [|[] es He Hes [IH1 IH2]]; done. Qed.

(** What the state may change without the history changing. *)
Lemma inv_quiet s evs es : Forall quiet es → inv s evs → inv s (evs ++ es).
Proof.
  intros Hq H. destruct H.
  assert (∀ n, sent_to n (evs ++ es) = sent_to n evs) as E1.
  { intros n. destruct (quiet_sent n es Hq) as [E _]. by rewrite sent_to_app, E, app_nil_r. }
  assert (∀ n, received_by n (evs ++ es) = received_by n evs) as E2.
  { intros n. destruct (quiet_sent n es Hq) as [_ E]. by rewrite received_by_app, E, app_nil_r. }
  split; try done; try (intros n; rewrite ?E1, ?E2; by auto).
  - intros pid p Hp. destruct (i_pub0 _ _ Hp). split; try done.
    + intros S n H1 H2. destruct (po_snap0 S n H1 H2); [by left|right; by apply got_app].
    + intros n. rewrite E1. apply po_sent0.
  - intros n m. rewrite E1. apply i_bound0.
  - intros n sb m. rewrite E1. apply i_topic0.
  - intros pid m S n [H|H]%elem_of_app Hn; [by eapply got_app, i_done0|].
    rewrite Forall_forall in Hq. by destruct (Hq _ H).
Qed.

Lemma New_inv opts : inv (NewPubSub opts) [].
Proof.
  split; cbn; try (by intros *; rewrite lookup_empty).
  - intros _ name. rewrite lookup_empty. split; [set_solver|by intros [??]].
  - intros n m H. by apply elem_of_nil in H.
  - intros n. constructor.
  - intros pid m S n H. by apply elem_of_nil in H.
  - split; [done|]. assert (∀ b, 0 ≤ b → 0 ≤ foldl (λ b o, WithBufferSize o b) b opts) as H.
    { induction opts as [|o opts IH]; intros b Hb; [done|]. apply IH. unfold WithBufferSize.
      case_match eqn:E; [apply Z.gtb_lt in E|]; lia. }
    by apply H.
Qed.

(** *** Steps that leave the history alone *)

(** Everything the invariant reads of subscribers, publishers and flags is kept;
    the topics keep their members and may grow. *)
Lemma inv_frame s s' evs : inv s evs →
  (∀ n, subs s' !! n = None ↔ subs s !! n = None) →
  (∀ n sb', subs s' !! n = Some sb' → ∃ sb, subs s !! n = Some sb ∧
     s_topic sb' = s_topic sb ∧ s_chan sb' = s_chan sb) →
  (∀ name t' n, topics s' !! name = Some t' → n ∈ t_subscribers t' →
     ∃ sb, subs s' !! n = Some sb ∧ s_topic sb = name ∧ s_chanClosed sb = false) →
  (∀ name, is_Some (topics s !! name) → is_Some (topics s' !! name)) →
  (closed s' = false → ∀ name, name ∈ listed s' ↔ is_Some (topics s' !! name)) →
  (∀ pid p, pubs s' !! pid = Some p → pubs s !! pid = Some p ∧ closed s' = closed s) →
  messageID s ≤ messageID s' → bufferSize s' = bufferSize s →
  inv s' evs.
Proof.
  intros H Hsub Hsub' Hmem Htop Hlist Hpub Hid Hbuf.
  assert (Hback : ∀ n, is_Some (subs s' !! n) → is_Some (subs s !! n)).
  { intros n. rewrite <- !not_eq_None_Some, Hsub. done. }
  destruct H. split; try done.
  - intros n sb' (sb & Hsb & _ & ->)%Hsub'. eauto.
  - intros n H%Hsub. eauto.
  - intros n sb' (sb & Hsb & _ & ->)%Hsub'. rewrite Hbuf. eauto.
  - intros n H%Hback%i_sub_id0. lia.
  - intros pid p (Hp & Hc)%Hpub. destruct (i_pub0 _ _ Hp). split; try done; [lia|congruence|eauto|].
    intros n Hn. destruct (po_rest0 n Hn) as (sb & Hsb & Ht).
    destruct (subs s' !! n) as [sb'|] eqn:E; [|apply Hsub in E; congruence].
    destruct (Hsub' _ _ E) as (sb2 & ? & ? & _). exists sb'. split; [done|congruence].
  - intros i j p q (Hp & _)%Hpub (Hq & _)%Hpub. eauto.
  - intros n m H%i_bound0. lia.
  - intros n sb' m (sb & Hsb & -> & _)%Hsub'. eauto.
  - lia.
Qed.

(** The lookups the frame asks about when one subscriber changes. *)
Lemma sub_change s evs n sb sb' : inv s evs → subs s !! n = Some sb →
  s_topic sb' = s_topic sb → s_chan sb' = s_chan sb → s_chanClosed sb' = s_chanClosed sb →
  inv (set_subs (<[n := sb']> (subs s)) s) evs.
Proof.
  intros H Hsb Ht Hc Hcl. eapply inv_frame; try done; cbn.
  - intros k. destruct (decide (k = n)) as [->|]; [by rewrite lookup_insert_eq, Hsb|].
    by rewrite lookup_insert_ne.
  - intros k sk. destruct (decide (k = n)) as [->|].
    + rewrite lookup_insert_eq. intros [= <-]. eauto.
    + rewrite lookup_insert_ne by done. eauto.
  - intros name t k Hn Hk. destruct (i_member _ _ H _ _ _ Hn Hk) as (sk & Hsk & ? & ?).
    destruct (decide (k = n)) as [->|].
    + rewrite lookup_insert_eq. exists sb'. simplify_eq. split_and!; congruence.
    + rewrite lookup_insert_ne by done. eauto.
  - apply (i_listed _ _ H).
Qed.

Lemma getOrCreateTopic_inv name s evs : inv s evs → closed s = false →
  let s' := getOrCreateTopic name s in
  inv s' evs ∧ is_Some (topics s' !! name) ∧ closed s' = false ∧ subs s' = subs s ∧
  pubs s' = pubs s ∧ messageID s' = messageID s ∧ bufferSize s' = bufferSize s ∧
  panicked s' = panicked s.
Proof.
  intros H Hc. unfold getOrCreateTopic. case_decide as Hl.
  { split_and!; try done. by apply (i_listed _ _ H Hc). }
  rewrite (i_listed _ _ H Hc) in Hl. assert (topics s !! name = None) as Hn.
  { destruct (topics s !! name) eqn:E; [|done]. exfalso. eauto. }
  split_and!; try done; cbn; [|by rewrite lookup_insert_eq].
  eapply inv_frame; try done; cbn.
  - intros n sb. eauto.
  - intros nm t n. destruct (decide (nm = name)) as [->|].
    + rewrite lookup_insert_eq. intros [= <-]. cbn. set_solver.
    + rewrite lookup_insert_ne by done. apply (i_member _ _ H).
  - intros nm Hs. destruct (decide (nm = name)) as [->|]; [by rewrite lookup_insert_eq|].
    by rewrite lookup_insert_ne.
  - intros _ nm. rewrite elem_of_union, elem_of_singleton, (i_listed _ _ H Hc).
    destruct (decide (nm = name)) as [->|].
    + rewrite lookup_insert_eq. naive_solver.
    + rewrite lookup_insert_ne by done. naive_solver.
Qed.

Lemma nextMessageID_inv s evs i s' : inv s evs → messageID s < max_int 64 →
  nextMessageID s = (i, s') →
  inv s' evs ∧ i = messageID s + 1 ∧ messageID s' = i ∧ topics s' = topics s ∧ subs s' = subs s ∧
  pubs s' = pubs s ∧ closed s' = closed s ∧ listed s' = listed s ∧ bufferSize s' = bufferSize s.
Proof.
  intros H Hlt. unfold nextMessageID.
  rewrite wrap_id; [|lia|unfold in_int; destruct (i_pos _ _ H); unfold min_int, max_int in *; lia].
  intros [= <- <-]. cbn. split_and!; try done. eapply inv_frame; try done; cbn.
  - eauto.
  - apply (i_member _ _ H).
  - apply (i_listed _ _ H).
  - lia.
Qed.

(** *** The steps of a publisher *)

(** A state that differs in its publishers only. *)
Lemma set_pubs_inv pm s evs : inv s evs →
  (∀ pid p, pm !! pid = Some p → pub_ok s evs p) →
  (∀ i j p q, pm !! i = Some p → pm !! j = Some q → m_ID (p_msg p) = m_ID (p_msg q) → i = j) →
  inv (set_pubs pm s) evs.
Proof.
  intros H Hp Hi. destruct H. split; try done.
  intros pid p Hpp. destruct (Hp _ _ Hpp). by split.
Qed.

(** The fate of one publisher changes, that of the others does not. *)
Lemma set_pub_inv pid p p' s evs : inv s evs → pubs s !! pid = Some p → p_msg p' = p_msg p →
  pub_ok s evs p' → inv (set_pubs (<[pid := p']> (pubs s)) s) evs.
Proof.
  intros H Hp Hm Hok. apply set_pubs_inv; [done|..].
  - intros i q. destruct (decide (i = pid)) as [->|].
    + rewrite lookup_insert_eq. by intros [= <-].
    + rewrite lookup_insert_ne by done. apply (i_pub _ _ H).
  - assert (∀ i q, <[pid := p']> (pubs s) !! i = Some q →
      ∃ q0, pubs s !! i = Some q0 ∧ p_msg q0 = p_msg q) as Hold.
    { intros i q. destruct (decide (i = pid)) as [->|].
      - rewrite lookup_insert_eq. intros [= <-]. eauto.
      - rewrite lookup_insert_ne by done. eauto. }
    intros i j q r (q0 & Hq & Eq)%Hold (r0 & Hr & Er)%Hold E.
    apply (i_inj _ _ H i j q0 r0); [done|done|congruence].
Qed.

Lemma remove_pub_inv pid s evs : inv s evs → inv (set_pubs (delete pid (pubs s)) s) evs.
Proof.
  intros H. apply set_pubs_inv; [done|..].
  - intros i p (_ & Hp)%lookup_delete_Some. by apply (i_pub _ _ H i).
  - intros i j p q (_ & Hp)%lookup_delete_Some (_ & Hq)%lookup_delete_Some. by apply (i_inj _ _ H).
Qed.

Lemma Publish_start_inv pid name payload s evs s' es : inv s evs →
  messageID s < max_int 64 → pubs s !! pid = None →
  Publish_start pid name payload s = (s', es) → inv s' (evs ++ es) ∧ messageID s' ≤ messageID s + 1.
Proof.
  intros H Hlt Hnone. unfold Publish_start. destruct (closed s) eqn:Hc.
  { intros [= <- <-]. split; [|lia]. apply inv_quiet; [by repeat constructor|done]. }
  destruct (getOrCreateTopic_inv name s evs H Hc) as (H1 & Ht & Hc1 & _ & Hp1 & Hm1 & _).
  set (s1 := getOrCreateTopic name s) in *.
  destruct (nextMessageID s1) as [i s2] eqn:E. intros [= <- <-]. cbn.
  destruct (nextMessageID_inv s1 evs i s2 H1) as (H2 & Hi & Hid & Et & _ & Ep & Ec & _); [lia|done|].
  split; [|lia]. apply inv_quiet; [by repeat constructor|].
  rewrite Ep, Hp1. apply set_pubs_inv; [done|..].
  - intros j q. destruct (decide (j = pid)) as [->|].
    + rewrite lookup_insert_eq. intros [= <-]. split; cbn; try done.
      * pose proof (i_pos _ _ H1). lia.
      * congruence.
      * by rewrite Et.
      * constructor.
      * intros n Hn. by apply elem_of_nil in Hn.
      * intros n (m & Em & Hm)%list_elem_of_fmap. apply (i_bound _ _ H1) in Hm. lia.
    + rewrite lookup_insert_ne, <- Hp1, <- Ep by done. apply (i_pub _ _ H2).
  - assert (Hnew : ∀ j q, pubs s !! j = Some q → m_ID (p_msg q) < i).
    { intros j q Hq. rewrite <- Hp1 in Hq. destruct (po_id _ _ _ (i_pub _ _ H1 _ _ Hq)). lia. }
    intros j k p q Hj Hk E1. destruct (decide (j = pid)), (decide (k = pid)); subst; [done|..].
    + rewrite lookup_insert_eq in Hj. rewrite lookup_insert_ne in Hk by done.
      injection Hj as <-. cbn in E1. apply Hnew in Hk. lia.
    + rewrite lookup_insert_eq in Hk. rewrite lookup_insert_ne in Hj by done.
      injection Hk as <-. cbn in E1. apply Hnew in Hj. lia.
    + rewrite lookup_insert_ne in Hj, Hk by done. by apply (i_inj _ _ H j k p q).
Qed.

(** Statistics of a topic, with its members kept. *)
Lemma set_topic_inv name t t' s evs : inv s evs → topics s !! name = Some t →
  t_subscribers t' = t_subscribers t → inv (set_topics (<[name := t']> (topics s)) (listed s) s) evs.
Proof.
  intros H Ht Hm. eapply inv_frame; try done; cbn.
  - eauto.
  - intros nm t0 n. destruct (decide (nm = name)) as [->|].
    + rewrite lookup_insert_eq. intros [= <-]. rewrite Hm. by apply (i_member _ _ H).
    + rewrite lookup_insert_ne by done. apply (i_member _ _ H).
  - intros nm. destruct (decide (nm = name)) as [->|]; [by rewrite lookup_insert_eq|].
    by rewrite lookup_insert_ne.
  - intros Hc nm. rewrite (i_listed _ _ H Hc). destruct (decide (nm = name)) as [->|].
    + rewrite lookup_insert_eq, Ht. split; eauto.
    + by rewrite lookup_insert_ne.
Qed.

Lemma Publish_snapshot_inv pid order s evs s' : inv s evs →
  Publish_snapshot pid order s = Some s' → inv s' evs ∧ messageID s' = messageID s.
Proof.
  intros H. unfold Publish_snapshot. destruct (pubs s !! pid) as [p|] eqn:Hp; [|done]. cbn.
  destruct (topics s !! _) as [t|] eqn:Ht; [|done]. cbn.
  case_match eqn:E; [|done]. to_prop. intros [= <-]. split; [|done].
  pose proof (i_pub _ _ H _ _ Hp) as Hok.
  set (p' := {| p_msg := p_msg p; p_snapshot := Some order; p_rest := order |}).
  apply (set_topic_inv (m_Topic (p_msg p)) t _ (set_pubs (<[pid := p']> (pubs s)) s)); [|done|done].
  apply (set_pub_inv pid p); [done..|].
  destruct Hok. split; cbn; try done.
  - intros n Hn. destruct (i_member _ _ H _ _ n Ht) as (sb & Hsb & Et & _); [set_solver|eauto].
  - intros S n [= <-] Hn. by left.
  - intros n Hn. destruct (po_sent0 n Hn) as [[? Hs] _]. congruence.
Qed.

(** A send or a drop moves the publisher to its next subscriber. *)
Lemma advance_ok s evs p n rest e : pub_ok s evs p → p_rest p = n :: rest →
  got n (p_msg p) (evs ++ [e]) →
  (∀ k, m_ID (p_msg p) ∈ (m_ID <$> sent_to k (evs ++ [e])) →
     k = n ∨ m_ID (p_msg p) ∈ (m_ID <$> sent_to k evs)) → is_Some (p_snapshot p) →
  pub_ok s (evs ++ [e]) {| p_msg := p_msg p; p_snapshot := p_snapshot p; p_rest := rest |}.
Proof.
  intros [] E Hg Hs Hsn. rewrite E in *. apply NoDup_cons in po_nodup0 as [Hn Hnd].
  split; cbn; try done.
  - intros E1. destruct Hsn. congruence.
  - intros k Hk. apply po_rest0. by right.
  - intros S k HS Hk. destruct (po_snap0 S k HS Hk) as [[->|Hr]%elem_of_cons|Hr];
      [by right|by left|right; by apply got_app].
  - intros k [->|Hk]%Hs; [done|]. destruct (po_sent0 k Hk) as [? Hr]. set_solver.
Qed.

(** A publisher that sends has taken its snapshot. *)
Lemma rest_snapshot s evs p n rest : pub_ok s evs p → p_rest p = n :: rest → is_Some (p_snapshot p).
Proof. intros [] E. destruct (p_snapshot p); [eauto|]. by rewrite po_none0 in E. Qed.

(** *** Sends and receives *)

(** One subscriber's channel and history change. *)
Lemma one_sub_inv s evs e n sb sb' : inv s evs → subs s !! n = Some sb →
  s_topic sb' = s_topic sb → s_chanClosed sb' = s_chanClosed sb →
  sent_to n (evs ++ [e]) = received_by n (evs ++ [e]) ++ s_chan sb' →
  Z.of_nat (length (s_chan sb')) ≤ bufferSize s →
  (∀ k, k ≠ n → sent_to k [e] = [] ∧ received_by k [e] = []) →
  NoDup (m_ID <$> sent_to n (evs ++ [e])) →
  (∀ m, m ∈ sent_to n [e] → m_ID m ≤ messageID s ∧ m_Topic m = s_topic sb ∧
     ∀ pid q, pubs s !! pid = Some q → m_ID (p_msg q) ≠ m_ID m) →
  (∀ pid m S, e ≠ EDone pid m S) →
  inv (set_subs (<[n := sb']> (subs s)) s) (evs ++ [e]).
Proof.
  intros H Hsb Ht Hc Hfifo Hcap Hoth Hnd Hm He.
  assert (Hsent : ∀ k m, m ∈ sent_to k (evs ++ [e]) → m ∈ sent_to k evs ∨ (k = n ∧ m ∈ sent_to n [e])).
  { intros k m. rewrite sent_to_app, elem_of_app. destruct (decide (k = n)) as [->|Hk]; [tauto|].
    destruct (Hoth k Hk) as [-> _]. intros [|X]; [tauto|by apply elem_of_nil in X]. }
  assert (Hsame : ∀ k, k ≠ n → sent_to k (evs ++ [e]) = sent_to k evs ∧
    received_by k (evs ++ [e]) = received_by k evs).
  { intros k Hk. rewrite sent_to_app, received_by_app. destruct (Hoth k Hk) as [-> ->].
    by rewrite !app_nil_r. }
  assert (Hlook : ∀ k sk, <[n:=sb']> (subs s) !! k = Some sk →
    (k = n ∧ sk = sb') ∨ (k ≠ n ∧ subs s !! k = Some sk)) by (intros k sk; rewrite lookup_insert_Some; naive_solver).
  destruct H. split; cbn; try done.
  - intros k sk [[-> ->]|[Hk Hs]]%Hlook; [done|]. destruct (Hsame k Hk) as [-> ->]. eauto.
  - intros k Hk%lookup_insert_None. destruct Hk as [Hk Hne]. destruct (Hsame k) as [-> ->]; auto.
  - intros k sk [[-> ->]|[Hk Hs]]%Hlook; eauto.
  - intros name t k Hn Hk. destruct (i_member0 _ _ _ Hn Hk) as (sk & Hsk & ? & ?).
    destruct (decide (k = n)) as [->|].
    + rewrite lookup_insert_eq. exists sb'. simplify_eq. split_and!; congruence.
    + rewrite lookup_insert_ne by done. eauto.
  - intros k. destruct (decide (k = n)) as [->|].
    + intros _. apply i_sub_id0. eauto.
    + rewrite lookup_insert_ne by done. apply i_sub_id0.
  - intros pid p Hp. destruct (i_pub0 _ _ Hp). split; cbn; try done.
    + intros k Hk. destruct (po_rest0 k Hk) as (sk & Hsk & Et). destruct (decide (k = n)) as [->|].
      * rewrite lookup_insert_eq. exists sb'. split; [done|congruence].
      * rewrite lookup_insert_ne by done. eauto.
    + intros S k HS Hk. destruct (po_snap0 S k HS Hk); [by left|right; by apply got_app].
    + intros k (m & Em & Hin)%list_elem_of_fmap. apply po_sent0.
      destruct (Hsent _ _ Hin) as [Hold|[-> Hnew]].
      * rewrite Em. by apply list_elem_of_fmap_2.
      * destruct (Hm _ Hnew) as (_ & _ & Hf). by destruct (Hf _ _ Hp).
  - intros k m [Hin|[-> Hin]]%Hsent; [eauto|]. by apply Hm.
  - intros k sk m Hs [Hin|[Ek Hin]]%Hsent; apply Hlook in Hs as [[-> ->]|[Hk Hs]];
      [rewrite Ht; eauto|eauto|rewrite Ht; by apply Hm|done].
  - intros k. destruct (decide (k = n)) as [->|Hk]; [done|]. by destruct (Hsame k Hk) as [-> _].
  - intros pid m S k [Hd|Hd]%elem_of_app Hk; [by eapply got_app, i_done0|].
    apply list_elem_of_singleton in Hd. by destruct (He pid m S).
Qed.

Lemma sent_single n k m : sent_to k [ESent n m] = (if decide (n = k) then [m] else []) ∧
  received_by k [ESent n m] = [].
Proof. unfold sent_to, received_by. cbn. by case_decide. Qed.

Lemma received_single n k m : received_by k [EReceived n m] = (if decide (n = k) then [m] else []) ∧
  sent_to k [EReceived n m] = [].
Proof. unfold sent_to, received_by. cbn. by case_decide. Qed.

Lemma Receive_inv n s evs s' es : inv s evs → Receive n s = Some (s', es) →
  inv s' (evs ++ es) ∧ messageID s' = messageID s.
Proof.
  intros H. unfold Receive. destruct (subs s !! n) as [sb|] eqn:Hsb; [|done]. cbn.
  pose proof (i_fifo _ _ H _ _ Hsb) as Hf. pose proof (i_cap _ _ H _ _ Hsb) as Hcap.
  destruct (s_chan sb) as [|m rest] eqn:Hch.
  { case_match; [|done]. intros [= <- <-]. split; [|done]. apply inv_quiet; [by repeat constructor|done]. }
  intros [= <- <-]. split; [|done].
  assert (sent_to n (evs ++ [EReceived n m]) = sent_to n evs) as Es
    by (destruct (received_single n n m) as [_ E]; by rewrite sent_to_app, E, app_nil_r).
  eapply one_sub_inv; try done; cbn.
  - rewrite Es, Hf, received_by_app. destruct (received_single n n m) as [-> _].
    rewrite decide_True by done. by rewrite <- app_assoc.
  - cbn in Hcap. lia.
  - intros k Hk. destruct (received_single n k m) as [E1 E2]. rewrite decide_False in E1 by done. done.
  - rewrite Es. apply (i_nodup _ _ H).
  - by intros m' ?%elem_of_nil.
Qed.

(** The publisher advances in the state [s'] that its send or drop left, whose
    other publishers are as before. *)
Lemma advance_inv pid p n rest s s' evs e : inv s evs → pubs s !! pid = Some p →
  p_rest p = n :: rest → inv s' (evs ++ [e]) → pubs s' = delete pid (pubs s) →
  pub_ok s' (evs ++ [e]) {| p_msg := p_msg p; p_snapshot := p_snapshot p; p_rest := rest |} →
  inv (set_pubs (<[pid := {| p_msg := p_msg p; p_snapshot := p_snapshot p; p_rest := rest |}]> (pubs s)) s')
    (evs ++ [e]).
Proof.
  intros H Hp Hr H' Hd Hok. apply set_pubs_inv; [done|..].
  - intros i q. destruct (decide (i = pid)) as [->|].
    + rewrite lookup_insert_eq. by intros [= <-].
    + rewrite lookup_insert_ne by done. intros Hq. apply (i_pub _ _ H' i). rewrite Hd.
      by rewrite lookup_delete_ne.
  - intros i j q1 q2 Hi Hj E. destruct (decide (i = pid)), (decide (j = pid)); subst; [done|..].
    + rewrite lookup_insert_eq in Hi. rewrite lookup_insert_ne in Hj by done. injection Hi as <-.
      by apply (i_inj _ _ H pid j p q2).
    + rewrite lookup_insert_eq in Hj. rewrite lookup_insert_ne in Hi by done. injection Hj as <-.
      by apply (i_inj _ _ H i pid q1 p).
    + rewrite lookup_insert_ne in Hi, Hj by done. by apply (i_inj _ _ H i j q1 q2).
Qed.

Lemma pub_ok_ext s s' evs p : pub_ok s evs p → messageID s' = messageID s → closed s' = closed s →
  topics s' = topics s → subs s' = subs s → pub_ok s' evs p.
Proof. intros [] E1 E2 E3 E4. split; rewrite ?E1, ?E2, ?E3, ?E4; done. Qed.

Lemma Publish_timeout_inv pid s evs s' es : inv s evs → Publish_timeout pid s = Some (s', es) →
  inv s' (evs ++ es) ∧ messageID s' = messageID s.
Proof.
  intros H. unfold Publish_timeout. destruct (pubs s !! pid) as [p|] eqn:Hp; [|done]. cbn.
  destruct (p_rest p) as [|n rest] eqn:Hr; [done|]. destruct (subs s !! n) as [sb|]; [|done]. cbn.
  case_match; [|done]. intros [= <- <-]. split; [|done].
  pose proof (i_pub _ _ H _ _ Hp) as Hok.
  apply set_pub_inv with p; [|done|done|].
  - apply inv_quiet; [by repeat constructor|done].
  - apply (advance_ok _ _ _ n); [done|done|right; set_solver| |by eapply rest_snapshot].
    intros k. by rewrite sent_to_app, app_nil_r; right.
Qed.

Lemma Publish_send_inv pid s evs s' es : inv s evs → Publish_send pid s = Some (s', es) →
  inv s' (evs ++ es) ∧ messageID s' = messageID s.
Proof.
  intros H. unfold Publish_send. destruct (pubs s !! pid) as [p|] eqn:Hp; [|done]. cbn.
  destruct (p_rest p) as [|n rest] eqn:Hr; [done|].
  destruct (subs s !! n) as [sb|] eqn:Hsb; [|done]. cbn.
  destruct (s_chanClosed sb) eqn:Hcl.
  { intros [= <- <-]. rewrite app_nil_r. split; [|done]. destruct H. split; try done.
    intros i q Hq. destruct (i_pub0 _ _ Hq). by split. }
  case_match eqn:Hroom; [|done]. to_prop. intros [= <- <-]. split; [|done].
  pose proof (i_pub _ _ H _ _ Hp) as Hok. pose proof Hok as [].
  assert (Hfresh : m_ID (p_msg p) ∉ (m_ID <$> sent_to n evs)).
  { intros Hin. destruct (po_sent0 n Hin) as [_ Hn]. rewrite Hr in Hn. set_solver. }
  assert (s_topic sb = m_Topic (p_msg p)) as Htop.
  { destruct (po_rest0 n) as (sb0 & ? & ?); [rewrite Hr; left|congruence]. }
  assert (inv (set_subs (<[n := sent (p_msg p) sb]> (subs s)) (set_pubs (delete pid (pubs s)) s))
    (evs ++ [ESent n (p_msg p)])) as H'.
  { destruct (sent_single n n (p_msg p)) as [E1 E2]. rewrite decide_True in E1 by done.
    apply (one_sub_inv (set_pubs (delete pid (pubs s)) s) evs _ n sb); try done.
    - by apply remove_pub_inv.
    - rewrite sent_to_app, received_by_app, E1, E2, app_nil_r. cbn.
      by rewrite (i_fifo _ _ H _ _ Hsb), app_assoc.
    - cbn. rewrite length_app. cbn. lia.
    - intros k Hk. destruct (sent_single n k (p_msg p)) as [E3 E4]. by rewrite decide_False in E3.
    - rewrite sent_to_app, E1, fmap_app. apply NoDup_app. split_and!; [apply (i_nodup _ _ H)| |].
      + intros i Hi Hi2. apply list_elem_of_singleton in Hi2 as ->. done.
      + apply NoDup_singleton.
    - rewrite E1. intros m ->%list_elem_of_singleton. split_and!; [cbn; lia|done|].
      cbn. intros i q (Hne & Hq)%lookup_delete_Some E. apply Hne. by apply (i_inj _ _ H pid i p q). }
  apply (advance_inv pid p n rest s _ evs _ H Hp Hr H' eq_refl).
  apply (advance_ok _ _ _ n); [|done|left; set_solver| |by eapply rest_snapshot].
  - split; cbn; try done. intros k Hk. destruct (po_rest0 k Hk) as (sk & Hsk & Et).
    destruct (decide (k = n)) as [->|]; [rewrite lookup_insert_eq|rewrite lookup_insert_ne by done; eauto].
    eexists. split; [done|]. exact Htop.
  - intros k. destruct (sent_single n k (p_msg p)) as [E _]. rewrite sent_to_app, E.
    case_decide; [by left|rewrite app_nil_r; by right].
Qed.

Lemma Publish_cancel_inv pid s evs s' es : inv s evs → Publish_cancel pid s = Some (s', es) →
  inv s' (evs ++ es) ∧ messageID s' = messageID s.
Proof.
  intros H. unfold Publish_cancel. destruct (pubs s !! pid) as [p|]; [|done]. cbn.
  destruct (p_rest p); [done|]. intros [= <- <-]. split; [|done].
  apply inv_quiet; [by repeat constructor|by apply remove_pub_inv].
Qed.

Lemma Publish_return_inv pid s evs s' es : inv s evs → Publish_return pid s = Some (s', es) →
  inv s' (evs ++ es) ∧ messageID s' = messageID s.
Proof.
  intros H. unfold Publish_return. destruct (pubs s !! pid) as [p|] eqn:Hp; [|done]. cbn.
  destruct (p_snapshot p) as [snap|] eqn:Hs; [|done]. destruct (p_rest p) eqn:Hr; [|done].
  intros [= <- <-]. split; [|done]. pose proof (i_pub _ _ H _ _ Hp) as [].
  assert (E : ∀ n, sent_to n (evs ++ [EDone pid (p_msg p) snap]) = sent_to n evs)
    by (intros; rewrite sent_to_app; apply app_nil_r).
  assert (E' : ∀ n, received_by n (evs ++ [EDone pid (p_msg p) snap]) = received_by n evs)
    by (intros; rewrite received_by_app; apply app_nil_r).
  destruct (remove_pub_inv pid _ _ H). split; try done; try (by intros n; rewrite ?E, ?E'; auto).
  - intros i q Hq. destruct (i_pub0 i q Hq). split; try done.
    + intros S n HS Hn. destruct (po_snap1 S n HS Hn); [by left|right; by apply got_app].
    + intros n. rewrite E. apply po_sent1.
  - intros n m. rewrite E. apply i_bound0.
  - intros n sb m. rewrite E. apply i_topic0.
  - intros i m S n [Hd|Hd]%elem_of_app Hn; [by eapply got_app, i_done0|].
    apply list_elem_of_singleton in Hd. simplify_eq. apply got_app.
    destruct (po_snap0 _ n Hs Hn) as [X|X]; [|done]. rewrite Hr in X. by apply elem_of_nil in X.
Qed.

(** *** Subscriptions *)

Lemma Subscribe_inv name s evs s' es : inv s evs → messageID s < max_int 64 →
  Subscribe name s = (s', es) → inv s' (evs ++ es) ∧ messageID s' ≤ messageID s + 1.
Proof.
  intros H Hlt. unfold Subscribe. destruct (closed s) eqn:Hc.
  { intros [= <- <-]. split; [|lia]. apply inv_quiet; [by repeat constructor|done]. }
  destruct (getOrCreateTopic_inv name s evs H Hc) as (H1 & [t Ht] & Hc1 & _ & _ & Hm1 & _).
  set (s1 := getOrCreateTopic name s) in *.
  destruct (nextMessageID s1) as [n s2] eqn:E. intros [= <- <-].
  destruct (nextMessageID_inv s1 evs n s2 H1) as (H2 & Hi & Hid & Et & Es & _ & Ec & _); [lia|done|].
  split; [|cbn; lia]. apply inv_quiet; [by repeat constructor|].
  assert (subs s2 !! n = None) as Hfree.
  { rewrite Es. destruct (subs s1 !! n) eqn:F; [|done].
    destruct (i_sub_id _ _ H1 n) as [_ ?]; [eauto|lia]. }
  rewrite Et, Ht. cbn. destruct (i_none _ _ H2 n Hfree) as [En1 En2]. destruct H2. split; cbn; try done.
  - intros k sk. destruct (decide (k = n)) as [->|]; [|rewrite lookup_insert_ne by done; eauto].
    rewrite lookup_insert_eq. intros [= <-]. cbn. by rewrite En1, En2.
  - intros k [Hk _]%lookup_insert_None. eauto.
  - intros k sk. destruct (decide (k = n)) as [->|]; [|rewrite lookup_insert_ne by done; eauto].
    rewrite lookup_insert_eq. intros [= <-]. cbn. lia.
  - intros nm t' k Hn Hk. destruct (decide (k = n)) as [->|Hne].
    + rewrite lookup_insert_eq. eexists. split_and!; [done| |done]. cbn.
      destruct (decide (nm = name)) as [->|]; [done|]. rewrite lookup_insert_ne in Hn by done.
      rewrite <- Et in Hn. destruct (i_member0 _ _ _ Hn Hk) as (? & ? & _). congruence.
    + rewrite lookup_insert_ne by done. destruct (decide (nm = name)) as [->|].
      * rewrite lookup_insert_eq in Hn. injection Hn as <-. cbn in Hk. rewrite <- Et in Ht.
        apply (i_member0 _ t); [done|set_solver].
      * rewrite lookup_insert_ne, <- Et in Hn by done. eauto.
  - intros Ho nm. rewrite (i_listed0 Ho), Et. destruct (decide (nm = name)) as [->|].
    + rewrite lookup_insert_eq, Ht. split; eauto.
    + by rewrite lookup_insert_ne.
  - intros k. destruct (decide (k = n)) as [->|]; [intros _; pose proof (i_pos _ _ H1); lia|rewrite lookup_insert_ne by done; eauto].
  - intros pid p Hp. destruct (i_pub0 _ _ Hp). split; cbn; try done.
    + rewrite Et in po_topic0. destruct (decide (m_Topic (p_msg p) = name)) as [->|];
        [by rewrite lookup_insert_eq|by rewrite lookup_insert_ne].
    + intros k Hk. destruct (po_rest0 k Hk) as (sk & ? & ?). exists sk.
      rewrite lookup_insert_ne; [done|congruence].
  - intros k sk m. destruct (decide (k = n)) as [->|]; [|rewrite lookup_insert_ne by done; eauto].
    rewrite En1. by intros _ ?%elem_of_nil.
Qed.

Lemma unsubscribe_flag_inv n s evs s' : inv s evs → unsubscribe_flag n s = Some s' →
  inv s' evs ∧ messageID s' = messageID s.
Proof.
  intros H. unfold unsubscribe_flag. destruct (subs s !! n) as [sb|] eqn:Hsb; [|done]. cbn.
  case_match; intros [= <-]; [done|]. split; [|done]. by eapply sub_change.
Qed.

Lemma member_sub s evs n sb t : inv s evs → subs s !! n = Some sb →
  topics s !! s_topic sb = Some t → n ∈ t_subscribers t → s_chanClosed sb = false.
Proof.
  intros H Hsb Ht Hn. destruct (i_member _ _ H _ _ _ Ht Hn) as (sb' & ? & _ & ?). congruence.
Qed.

Lemma unsubscribe_remove_inv n s evs s' : inv s evs → unsubscribe_remove n s = Some s' →
  inv s' evs ∧ messageID s' = messageID s ∧ panicked s' = panicked s.
Proof.
  intros H. unfold unsubscribe_remove. destruct (subs s !! n) as [sb|] eqn:Hsb; [|done]. cbn.
  case_match; [|done]. destruct (topics s !! s_topic sb) as [t|] eqn:Ht; [|done]. cbn.
  case_match eqn:Hin.
  { to_prop. pose proof (member_sub _ _ _ _ _ H Hsb Ht ltac:(done)). congruence. }
  intros [= <-]. split; [|done]. eapply inv_frame; try done; cbn.
  - intros k. destruct (decide (k = n)) as [->|]; [by rewrite lookup_insert_eq, Hsb|].
    by rewrite lookup_insert_ne.
  - intros k sk. destruct (decide (k = n)) as [->|]; [|rewrite lookup_insert_ne by done; eauto].
    rewrite lookup_insert_eq. intros [= <-]. exists sb. by case_bool_decide.
  - intros nm t' k Hn Hk.
    assert (∃ t0, topics s !! nm = Some t0 ∧ k ∈ t_subscribers t0 ∧ (nm = s_topic sb → k ≠ n)) as (t0 & Ht0 & Hk0 & Hne).
    { destruct (decide (nm = s_topic sb)) as [->|].
      - rewrite lookup_insert_eq in Hn. injection Hn as <-. cbn in Hk. exists t. set_solver.
      - rewrite lookup_insert_ne in Hn by done. naive_solver. }
    destruct (i_member _ _ H _ _ _ Ht0 Hk0) as (sk & Hsk & Et & Ec).
    rewrite lookup_insert_ne; [eauto|]. intros <-. apply Hne; [congruence|done].
  - intros nm. destruct (decide (nm = s_topic sb)) as [->|]; [by rewrite lookup_insert_eq|].
    by rewrite lookup_insert_ne.
  - intros Ho nm. rewrite (i_listed _ _ H Ho). destruct (decide (nm = s_topic sb)) as [->|].
    + rewrite lookup_insert_eq, Ht. split; eauto.
    + by rewrite lookup_insert_ne.
Qed.

Lemma Close_inv s evs s' : inv s evs → Close s = Some s' →
  inv s' evs ∧ messageID s' = messageID s ∧ panicked s' = panicked s.
Proof.
  intros H. unfold Close. case_match eqn:Hp; [done|]. to_prop.
  destruct (closed s) eqn:Hc; intros [= <-]; [done|]. split_and!; [|done|]; cbn.
  - eapply inv_frame; try done; cbn.
    + intros n. rewrite map_lookup_imap. by destruct (subs s !! n).
    + intros n sb'. rewrite map_lookup_imap. destruct (subs s !! n) as [sb|]; [|done]. cbn.
      intros [= <-]. exists sb. by case_match.
    + intros nm t n. rewrite lookup_fmap. intros (t0 & _ & ->)%fmap_Some. cbn. set_solver.
    + intros nm. by rewrite lookup_fmap, fmap_is_Some.
    + intros pid p. rewrite Hp. by rewrite lookup_empty.
  - destruct (existsb _ _) eqn:E; [|by rewrite orb_false_r]. exfalso.
    apply existsb_exists in E as ([n sb] & Hin & [Hm Hcl]%andb_prop).
    apply list_elem_of_In, elem_of_map_to_list in Hin. unfold is_member in Hm.
    destruct (topics s !! s_topic sb) as [t|] eqn:Ht; [|done]. to_prop.
    pose proof (member_sub _ _ _ _ _ H Hin Ht ltac:(done)). congruence.
Qed.

(** ** Runs *)

Lemma step_inv l s evs s' es : inv s evs → messageID s < max_int 64 →
  step l s = Some (s', es) → inv s' (evs ++ es) ∧ messageID s' ≤ messageID s + 1.
Proof.
  assert (Hsil : ∀ o, silent o = Some (s', es) → o = Some s' ∧ es = []).
  { intros [o|]; cbn; [intros [= -> <-]|]; done. }
  intros H Hlt. unfold step. case_match; [done|]. destruct l; intros E.
  - case_match; [|done]. to_prop. injection E as E. by eapply Publish_start_inv.
  - destruct (Hsil _ E) as [E1 ->]. rewrite app_nil_r.
    destruct (Publish_snapshot_inv _ _ _ _ _ H E1). split; [done|lia].
  - destruct (Publish_send_inv _ _ _ _ _ H E). split; [done|lia].
  - destruct (Publish_timeout_inv _ _ _ _ _ H E). split; [done|lia].
  - destruct (Publish_cancel_inv _ _ _ _ _ H E). split; [done|lia].
  - destruct (Publish_return_inv _ _ _ _ _ H E). split; [done|lia].
  - injection E as E. by eapply Subscribe_inv.
  - destruct (Hsil _ E) as [E1 ->]. rewrite app_nil_r.
    destruct (unsubscribe_flag_inv _ _ _ _ H E1). split; [done|lia].
  - destruct (Hsil _ E) as [E1 ->]. rewrite app_nil_r.
    destruct (unsubscribe_remove_inv _ _ _ _ H E1) as (? & ? & _). split; [done|lia].
  - destruct (Receive_inv _ _ _ _ _ H E). split; [done|lia].
  - destruct (Hsil _ E) as [E1 ->]. rewrite app_nil_r.
    destruct (Close_inv _ _ _ H E1) as (? & ? & _). split; [done|lia].
Qed.

Lemma run_inv_id ls s evs s' es : inv s evs → messageID s + Z.of_nat (length ls) ≤ max_int 64 →
  run ls s = Some (s', es) → inv s' (evs ++ es) ∧ messageID s' ≤ messageID s + Z.of_nat (length ls).
Proof.
  revert s evs es. induction ls as [|l ls IH]; intros s evs es H Hlen; cbn.
  { intros [= <- <-]. rewrite app_nil_r. split; [done|lia]. }
  destruct (step l s) as [[s1 e1]|] eqn:E; [|done]. cbn.
  destruct (run ls s1) as [[s2 e2]|] eqn:E2; [|done]. intros [= <- <-]. rewrite app_assoc.
  cbn in Hlen. destruct (step_inv _ _ _ _ _ H ltac:(lia) E) as [H1 Hm].
  destruct (IH s1 _ _ H1 ltac:(lia) E2). split; [done|lia].
Qed.

(** Runs short enough for the message counter. *)
Lemma new_run_inv ls opts s evs : Z.of_nat (length ls) ≤ max_int 64 →
  run ls (NewPubSub opts) = Some (s, evs) → inv s evs.
Proof. intros Hl Hr. by apply (run_inv_id ls (NewPubSub opts) [] s evs (New_inv opts)). Qed.

(** C17 Delivery is first in, first out, without loss or duplication once a message
    is in a channel: whatever the interleaving of publishers, receivers,
    unsubscriptions and [Close], what was sent to a subscriber is exactly what it
    received followed by what its channel holds; no message is sent to it twice,
    all of them are of its topic, and the channel never exceeds the buffer. *)
Theorem delivery_fifo ls opts s evs n sb : Z.of_nat (length ls) ≤ max_int 64 →
  run ls (NewPubSub opts) = Some (s, evs) → subs s !! n = Some sb →
  sent_to n evs = received_by n evs ++ s_chan sb ∧
  NoDup (m_ID <$> sent_to n evs) ∧
  (∀ m, m ∈ sent_to n evs → m_Topic m = s_topic sb) ∧
  Z.of_nat (length (s_chan sb)) ≤ bufferSize s.
Proof.
  intros Hl Hr%new_run_inv Hs; [|done]. destruct Hr. split_and!; [eauto|eauto| |eauto].
  intros m. by apply i_topic0.
Qed.

(** A publication that returns without error has served every subscriber its
    topic had when it looked: each got the message or had a full channel for
    100 ms. *)
Theorem publish_complete ls opts s evs pid m snapshot n : Z.of_nat (length ls) ≤ max_int 64 →
  run ls (NewPubSub opts) = Some (s, evs) → EDone pid m snapshot ∈ evs → n ∈ snapshot →
  ESent n m ∈ evs ∨ EDropped n m ∈ evs.
Proof. intros Hl Hr%new_run_inv Hd Hn; [|done]. by apply (i_done _ _ Hr pid m snapshot). Qed.

(** [Close] and [unsubscribe], in whatever order and however often they are
    called, never close a channel twice. *)
Theorem channels_closed_once ls opts s evs l s' es : Z.of_nat (length ls) ≤ max_int 64 →
  run ls (NewPubSub opts) = Some (s, evs) →
  (l = LClose ∨ ∃ n, l = LUnsubscribe n ∨ l = LRemove n) → step l s = Some (s', es) →
  panicked s' = false.
Proof.
  intros Hl Hr%new_run_inv Hlab; [|done]. unfold step. destruct (panicked s) eqn:Hp; [done|].
  destruct Hlab as [->|[n [->| ->]]]; unfold silent; intros (s1 & E & E1)%bind_Some; injection E1 as <- <-.
  - by destruct (Close_inv _ _ _ Hr E) as (_ & _ & ->).
  - unfold unsubscribe_flag in E. destruct (subs s !! n); [|done]. cbn in E. case_match; by simplify_eq.
  - by destruct (unsubscribe_remove_inv _ _ _ _ Hr E) as (_ & _ & ->).
Qed.
(** One step of a publisher that has its snapshot: it is always enabled. *)
Lemma publisher_step pid p n rest s evs : inv s evs → panicked s = false →
  pubs s !! pid = Some p → p_rest p = n :: rest →
  ∃ l s' es, step l s = Some (s', es) ∧ messageID s' = messageID s ∧
    (panicked s' = true ∨ panicked s' = false ∧
     pubs s' !! pid = Some {| p_msg := p_msg p; p_snapshot := p_snapshot p; p_rest := rest |}).
Proof.
  intros H Hpk Hp Hr. destruct (po_rest _ _ _ (i_pub _ _ H _ _ Hp) n) as (sb & Hsb & _); [rewrite Hr; left|].
  destruct (s_chanClosed sb) eqn:Hc; [|destruct (Z.of_nat (length (s_chan sb)) <? bufferSize s) eqn:Hb].
  - eexists (LSend pid), _, _. unfold step, Publish_send. rewrite Hpk, Hp. cbn. rewrite Hr, Hsb. cbn.
    rewrite Hc. split_and!; [done|done|by left].
  - eexists (LSend pid), _, _. unfold step, Publish_send. rewrite Hpk, Hp. cbn. rewrite Hr, Hsb. cbn.
    rewrite Hc, Hb. split_and!; [done|done|right]. split; [done|]. cbn. by rewrite lookup_insert_eq.
  - eexists (LTimeout pid), _, _. unfold step, Publish_timeout. rewrite Hpk, Hp. cbn. rewrite Hr, Hsb. cbn.
    assert ((bufferSize s <=? Z.of_nat (length (s_chan sb))) = true) as -> by (to_prop; by apply Z.leb_le).
    rewrite Hc. cbn. split_and!; [done|done|right]. split; [done|]. cbn. by rewrite lookup_insert_eq.
Qed.

Lemma publisher_ends pid p snap s evs : inv s evs → panicked s = false → messageID s < max_int 64 →
  pubs s !! pid = Some p → p_snapshot p = Some snap →
  ∃ ls s' es, run ls s = Some (s', es) ∧ (length ls ≤ S (length (p_rest p)))%nat ∧
    (panicked s' = true ∨ EDone pid (p_msg p) snap ∈ es).
Proof.
  remember (p_rest p) as rest eqn:Hr. symmetry in Hr. revert p s evs Hr.
  induction rest as [|n rest IH]; intros p s evs Hr H Hpk Hlt Hp Hs.
  - assert (step (LReturn pid) s = Some (set_pubs (delete pid (pubs s)) s, [EDone pid (p_msg p) snap])) as E.
    { unfold step, Publish_return. by rewrite Hpk, Hp; cbn; rewrite Hs, Hr. }
    exists [LReturn pid]. cbn [run]. rewrite E. eexists _, _. split_and!; [done|done|right; left].
  - destruct (publisher_step _ _ _ _ _ _ H Hpk Hp Hr) as (l & s1 & e1 & E & Hm & Hnext).
    destruct (step_inv _ _ _ _ _ H Hlt E) as [H1 _]. destruct Hnext as [Hpan|[Hpk1 Hp1]].
    { exists [l], s1, e1. cbn. rewrite E. cbn. rewrite app_nil_r. split_and!; [done|lia|by left]. }
    set (p1 := {| p_msg := p_msg p; p_snapshot := p_snapshot p; p_rest := rest |}) in *.
    destruct (IH p1 s1 _ eq_refl H1 Hpk1 ltac:(lia) Hp1 Hs) as (ls & s2 & e2 & E2 & Hl & Hd).
    exists (l :: ls), s2, (e1 ++ e2). cbn. rewrite E. cbn. rewrite E2. cbn.
    split_and!; [done|lia|]. destruct Hd as [Hd|Hd]; [by left|right; set_solver].
Qed.

(** A publisher is never blocked for good: from any reachable state, a
    publication that has copied its subscribers ends within one step of its own
    per remaining subscriber and one to return, each send being possible or timed
    out, unless a closed channel makes it panic. *)
Theorem publish_terminates ls opts s evs pid p snapshot : Z.of_nat (length ls) < max_int 64 →
  run ls (NewPubSub opts) = Some (s, evs) → panicked s = false →
  pubs s !! pid = Some p → p_snapshot p = Some snapshot →
  ∃ ls' s' es, run ls' s = Some (s', es) ∧ (length ls' ≤ S (length (p_rest p)))%nat ∧
    (panicked s' = true ∨ EDone pid (p_msg p) snapshot ∈ es).
Proof.
  intros Hl Hr. destruct (run_inv_id ls (NewPubSub opts) [] s evs (New_inv opts)) as [Hi Hm]; [cbn; lia|done|].
  intros Hpk. apply (publisher_ends _ _ _ _ evs); [done|done|cbn in Hm; lia].
Qed.
End pubsub.
Arguments pubsub : clear implicits.
Arguments label : clear implicits.
Arguments Message : clear implicits.

(** The send is not protected: a subscriber that unsubscribes after a publisher
    has copied the subscribers and before it sends has its channel closed under
    the publisher, whose send then panics. *)
Theorem send_on_closed_channel :
  ∃ ls (s : pubsub nat) evs, run ls (NewPubSub []) = Some (s, evs) ∧ panicked s = true ∧
    last ls = Some (LSend 0%nat).
Proof.
  exists [LSubscribe "jobs"; LPublish 0 "jobs" 7%nat; LSnapshot 0 [1]; LUnsubscribe 1; LRemove 1; LSend 0].
  eexists _, _. split_and!; vm_compute; reflexivity.
Qed.

(** ** Concrete runs *)

Definition two_messages : list (label nat) :=
  [LSubscribe "jobs"; LPublish 0 "jobs" 7%nat; LSnapshot 0 [1]; LSend 0; LReturn 0;
   LPublish 1 "jobs" 8%nat; LSnapshot 1 [1]; LTimeout 1; LReceive 1; LReturn 1].

Definition msg (i : Z) (x : nat) : Message nat :=
  {| m_ID := i; m_Topic := "jobs"; m_Payload := x |}.

(** With a buffer of one message the second publication drops. *)
Lemma delivery_fifo_witness :
  ∃ s evs sb, run two_messages (NewPubSub [1]) = Some (s, evs) ∧ subs s !! 1 = Some sb ∧
    sent_to 1 evs = [msg 2 7] ∧ s_chan sb = [] ∧ sent_to 1 evs = received_by 1 evs ++ s_chan sb.
Proof.
  eexists _, _, _. split_and!; [vm_compute; reflexivity|vm_compute; reflexivity|reflexivity..|].
  eapply (delivery_fifo two_messages [1]); [vm_compute; discriminate|vm_compute; reflexivity|].
  vm_compute. reflexivity.
Defined.

Lemma publish_complete_witness :
  ∃ s evs, run two_messages (NewPubSub [1]) = Some (s, evs) ∧
    (ESent 1 (msg 3 8) ∈ evs ∨ EDropped 1 (msg 3 8) ∈ evs).
Proof.
  eexists _, _. split; [vm_compute; reflexivity|].
  eapply (publish_complete two_messages [1] _ _ 1%nat (msg 3 8) [1]);
    [vm_compute; discriminate|vm_compute; reflexivity| |by left].
  apply list_elem_of_In. vm_compute. tauto.
Defined.

Lemma channels_closed_once_witness :
  ∃ s evs s' es, run two_messages (NewPubSub [1]) = Some (s, evs) ∧
    step LClose s = Some (s', es) ∧ panicked s' = false.
Proof.
  eexists _, _, _, _. split_and!; [vm_compute; reflexivity|vm_compute; reflexivity|].
  eapply (channels_closed_once two_messages [1]);
    [vm_compute; discriminate|vm_compute; reflexivity|by left|vm_compute; reflexivity].
Defined.

(** A publisher in front of a full channel. *)
Definition blocked : list (label nat) :=
  [LSubscribe "jobs"; LPublish 0 "jobs" 7%nat; LSnapshot 0 [1]; LSend 0; LReturn 0;
   LPublish 1 "jobs" 8%nat; LSnapshot 1 [1]].

Lemma publish_terminates_witness :
  ∃ s evs, run blocked (NewPubSub [1]) = Some (s, evs) ∧
    ∃ ls' s' es, run ls' s = Some (s', es) ∧ (length ls' ≤ 2)%nat ∧
      (panicked s' = true ∨ EDone 1 (msg 3 8) [1] ∈ es).
Proof.
  eexists _, _. split; [vm_compute; reflexivity|].
  eapply (publish_terminates blocked [1] _ _ 1%nat
    {| p_msg := msg 3 8; p_snapshot := Some [1]; p_rest := [1] |});
    vm_compute; reflexivity.
Defined.
