(* ===== verification/Stream.v ===== *)
(** * Streaming a job's output
    (internal/joblet/adapters/job_store_adapter.go, SendUpdatesToClientWithSkip
    and subscribeToJobUpdates)

    One client's stream as a state machine interleaved with the job's writers.
    [WriteToBuffer] appends to the log buffer and then publishes, in two steps, so
    a write is in flight between them; the stream captures the task's state,
    subscribes, sends a snapshot of the buffer, and then forwards the events of
    its channel.  Persistence is enabled, so that writes are buffered. *)

From S2P Require Import Prelude GoStrings Job LogBuffer JobStore.
From Stdlib Require Import Ascii.

Local Open Scope Z_scope.

(** ** State *)

(** Nanoseconds.
    [src/internal/joblet/adapters/job_store_adapter.go:908 drainQuietPeriod] *)
Definition drainQuietPeriod : Z := 500000000.

Inductive phase :=
| PCapture                          (* before the task is looked up *)
| PSubscribe                        (* the job was not completed: about to subscribe *)
| PSnapshot (last : bool)           (* about to read the buffer; [last]: return after it *)
| PSending (last : bool) (rest : list chunk)  (* sending the snapshot *)
| PLoop                             (* at the top of the loop *)
| PSelect                           (* in the select *)
| PDone.                            (* returned *)

Record stream := {
  uuid : string;
  skipCount : Z;
  capacity : Z;
  status : string;
  buffer : list chunk;
  inflight : list JobEvent;
  subscribed : bool;
  chan : list JobEvent;
  ph : phase;
  sent : list chunk;
  jobCompleted : bool;
  drainDeadline : Z;
  now : Z;
}.

Definition new_stream (u : string) (skip cap : Z) (st : string) (buf : list chunk) (t : Z) : stream := {|
  uuid := u; skipCount := skip; capacity := cap; status := st; buffer := buf; inflight := [];
  subscribed := false; chan := []; ph := PCapture; sent := []; jobCompleted := false;
  drainDeadline := 0; now := t;
|}.

(** ** Updates of single fields *)

Definition set_ph (p : phase) (s : stream) : stream := {|
  uuid := uuid s; skipCount := skipCount s; capacity := capacity s; status := status s;
  buffer := buffer s; inflight := inflight s; subscribed := subscribed s; chan := chan s; ph := p;
  sent := sent s; jobCompleted := jobCompleted s; drainDeadline := drainDeadline s; now := now s |}.

Definition set_queue (infl ch : list JobEvent) (s : stream) : stream := {|
  uuid := uuid s; skipCount := skipCount s; capacity := capacity s; status := status s;
  buffer := buffer s; inflight := infl; subscribed := subscribed s; chan := ch; ph := ph s;
  sent := sent s; jobCompleted := jobCompleted s; drainDeadline := drainDeadline s; now := now s |}.

Definition set_job (st : string) (buf : list chunk) (infl : list JobEvent) (s : stream) : stream := {|
  uuid := uuid s; skipCount := skipCount s; capacity := capacity s; status := st;
  buffer := buf; inflight := infl; subscribed := subscribed s; chan := chan s; ph := ph s;
  sent := sent s; jobCompleted := jobCompleted s; drainDeadline := drainDeadline s; now := now s |}.

Definition set_sub (b : bool) (p : phase) (s : stream) : stream := {|
  uuid := uuid s; skipCount := skipCount s; capacity := capacity s; status := status s;
  buffer := buffer s; inflight := inflight s; subscribed := b; chan := chan s; ph := p;
  sent := sent s; jobCompleted := jobCompleted s; drainDeadline := drainDeadline s; now := now s |}.

Definition set_now (t : Z) (s : stream) : stream := {|
  uuid := uuid s; skipCount := skipCount s; capacity := capacity s; status := status s;
  buffer := buffer s; inflight := inflight s; subscribed := subscribed s; chan := chan s; ph := ph s;
  sent := sent s; jobCompleted := jobCompleted s; drainDeadline := drainDeadline s; now := t |}.

Definition send (c : chunk) (s : stream) : stream := {|
  uuid := uuid s; skipCount := skipCount s; capacity := capacity s; status := status s;
  buffer := buffer s; inflight := inflight s; subscribed := subscribed s; chan := chan s; ph := ph s;
  sent := sent s ++ [c]; jobCompleted := jobCompleted s; drainDeadline := drainDeadline s; now := now s |}.

Definition set_drain (s : stream) : stream := {|
  uuid := uuid s; skipCount := skipCount s; capacity := capacity s; status := status s;
  buffer := buffer s; inflight := inflight s; subscribed := subscribed s; chan := chan s; ph := ph s;
  sent := sent s; jobCompleted := true; drainDeadline := now s + drainQuietPeriod; now := now s |}.

(** ** The writers *)

Definition chunk_event (u : string) (t : Z) (c : chunk) : JobEvent := {|
  je_Type := "LOG_CHUNK"; je_JobUUID := u; je_Status := ""; je_LogChunk := c; je_Metadata := ∅;
  je_Timestamp := t |}.

Definition status_event (u : string) (t : Z) (st : string) : JobEvent := {|
  je_Type := "UPDATED"; je_JobUUID := u; je_Status := st; je_LogChunk := []; je_Metadata := ∅;
  je_Timestamp := t |}.

(** The first half of [WriteToBuffer].
    [src/internal/joblet/adapters/job_store_adapter.go:373-408 jobStoreAdapter.WriteToBuffer] *)
Definition write_chunk (c : chunk) (s : stream) : stream :=
  if bool_decide (c = []) then s
  else set_job (status s) (buffer s ++ [c]) (inflight s ++ [chunk_event (uuid s) (now s) c]) s.

(** The status of the task changes, and the event is on its way.
    [src/internal/joblet/adapters/job_store_adapter.go:224-238 jobStoreAdapter.UpdateJob] *)
Definition update_status (st : string) (s : stream) : stream :=
  set_job st (buffer s) (inflight s ++ [status_event (uuid s) (now s) st]) s.

(** An event that is on its way reaches the topic: it goes to the channel when
    the client is subscribed and there is room, and waits otherwise.
    [src/internal/joblet/adapters/job_store_adapter.go jobStoreAdapter.publishEvent] *)
Definition publish (i : nat) (s : stream) : option stream :=
  e ← inflight s !! i;
  let rest := take i (inflight s) ++ drop (S i) (inflight s) in
  if subscribed s then
    if Z.of_nat (length (chan s)) <? capacity s then Some (set_queue rest (chan s ++ [e]) s) else None
  else Some (set_queue rest (chan s) s).

(** The 100 ms of a publication to a full channel are over. *)
Definition publish_timeout (i : nat) (s : stream) : option stream :=
  e ← inflight s !! i;
  if subscribed s && (capacity s <=? Z.of_nat (length (chan s)))
  then Some (set_queue (take i (inflight s) ++ drop (S i) (inflight s)) (chan s) s)
  else None.

(** ** The stream *)

(** [domain.Job.IsCompleted] of the task's job. *)
Definition status_completed (st : string) : bool :=
  Job.IsCompleted (blank_job "" st None).

(** [src/internal/joblet/adapters/job_store_adapter.go:483-534 jobStoreAdapter.SendUpdatesToClientWithSkip] *)
Definition capture (s : stream) : option stream :=
  match ph s with
  | PCapture => Some (set_ph (if status_completed (status s) then PSnapshot true else PSubscribe) s)
  | _ => None
  end.

(** [src/internal/joblet/adapters/job_store_adapter.go:910-947 jobStoreAdapter.subscribeToJobUpdates] *)
Definition subscribe (s : stream) : option stream :=
  match ph s with
  | PSubscribe => Some (set_sub true (PSnapshot false) s)
  | _ => None
  end.

(** The read of [sendBuffered].
    [src/internal/joblet/adapters/job_store_adapter.go:504-513 jobStoreAdapter.SendUpdatesToClientWithSkip] *)
Definition read_snapshot (s : stream) : option stream :=
  match ph s with
  | PSnapshot last =>
      let b := {| b_jobID := uuid s; b_data := buffer s |} in
      chunks ← (if skipCount s >? 0 then ReadAfterSkip (skipCount s) b else Some (ReadAll b));
      Some (set_ph (PSending last chunks) s)
  | _ => None
  end.

(** The loop of [sendBuffered]; after it the stream returns or enters its loop.
    [src/internal/joblet/adapters/job_store_adapter.go:514-528 jobStoreAdapter.SendUpdatesToClientWithSkip] *)
Definition send_snapshot (s : stream) : option stream :=
  match ph s with
  | PSending last (c :: rest) => Some (send c (set_ph (PSending last rest) s))
  | PSending last [] => Some (if last then set_ph PDone s else set_ph PLoop s)
  | _ => None
  end.

(** The statuses the handler takes for final.
    [src/internal/joblet/adapters/job_store_adapter.go:1060-1060 jobStoreAdapter.subscribeToJobUpdates] *)
Definition stream_final (st : string) : bool :=
  bool_decide (st = "COMPLETED"%string) || bool_decide (st = "FAILED"%string) ||
  bool_decide (st = "STOPPED"%string).

(** One event in the handler.
    [src/internal/joblet/adapters/job_store_adapter.go:1029-1068 jobStoreAdapter.subscribeToJobUpdates] *)
Definition on_event (e : JobEvent) (s : stream) : stream :=
  if negb (bool_decide (je_JobUUID e = uuid s)) then s
  else if bool_decide (je_Type e = "LOG_CHUNK"%string) then
    if bool_decide (je_LogChunk e = []) then s
    else let s' := send (je_LogChunk e) s in
         if jobCompleted s then set_drain s' else s'
  else if bool_decide (je_Type e = "UPDATED"%string) then
    if stream_final (je_Status e) && negb (jobCompleted s) then set_drain s else s
  else s.

(** The test at the top of the loop.
    [src/internal/joblet/adapters/job_store_adapter.go:996-1001 jobStoreAdapter.subscribeToJobUpdates] *)
Definition drained (s : stream) : bool := jobCompleted s && (now s >? drainDeadline s).

(** The top of the loop, when it goes on to the select.
    [src/internal/joblet/adapters/job_store_adapter.go:995-1010 jobStoreAdapter.subscribeToJobUpdates] *)
Definition loop_top (s : stream) : option stream :=
  match ph s with
  | PLoop => if drained s then None else Some (set_ph PSelect s)
  | _ => None
  end.

(** The select wakes up every 50 ms once the job has completed.
    [src/internal/joblet/adapters/job_store_adapter.go:1003-1021 jobStoreAdapter.subscribeToJobUpdates] *)
Definition loop_poll (s : stream) : option stream :=
  match ph s with
  | PSelect => if jobCompleted s then Some (set_ph PLoop s) else None
  | _ => None
  end.

(** The select receives.
    [src/internal/joblet/adapters/job_store_adapter.go:1022-1074 jobStoreAdapter.subscribeToJobUpdates] *)
Definition loop_receive (s : stream) : option stream :=
  match ph s, chan s with
  | PSelect, e :: rest => Some (set_ph PLoop (on_event e (set_queue (inflight s) rest s)))
  | _, _ => None
  end.

(** The handler's return and its deferred unsubscription.
    [src/internal/joblet/adapters/job_store_adapter.go:970-1001 jobStoreAdapter.subscribeToJobUpdates] *)
Definition loop_end (s : stream) : option stream :=
  match ph s with
  | PLoop => if drained s then Some (set_sub false PDone s) else None
  | _ => None
  end.

(** The client went away, or a send to it failed. *)
Definition client_gone (s : stream) : option stream :=
  match ph s with
  | PDone => None
  | _ => Some (set_sub false PDone s)
  end.

Inductive label :=
| LWrite (c : chunk) | LUpdate (st : string) | LOther (e : JobEvent)
| LPublish (i : nat) | LLose (i : nat)
| LCapture | LSubscribe | LRead | LSend | LTop | LPoll | LReceive | LEnd | LGone
| LTick (d : Z).

Definition step (l : label) (s : stream) : option stream :=
  match l with
  | LWrite c => Some (write_chunk c s)
  | LUpdate st => Some (update_status st s)
  | LOther e => if bool_decide (je_JobUUID e = uuid s) then None
                else Some (set_queue (inflight s ++ [e]) (chan s) s)
  | LPublish i => publish i s
  | LLose i => publish_timeout i s
  | LCapture => capture s
  | LSubscribe => subscribe s
  | LRead => read_snapshot s
  | LSend => send_snapshot s
  | LTop => loop_top s
  | LPoll => loop_poll s
  | LReceive => loop_receive s
  | LEnd => loop_end s
  | LGone => client_gone s
  | LTick d => if d <? 0 then None else Some (set_now (now s + d) s)
  end.

Fixpoint run (ls : list label) (s : stream) : option stream :=
  match ls with
  | [] => Some s
  | l :: ls => s' ← step l s; run ls s'
  end.

(** ** Nothing is lost between the snapshot and the subscription *)

(** The chunks of the job among events. *)
Definition chunks_of (u : string) (es : list JobEvent) : list chunk :=
  omap (λ e, if bool_decide (je_JobUUID e = u) && bool_decide (je_Type e = "LOG_CHUNK"%string) &&
                negb (bool_decide (je_LogChunk e = [])) then Some (je_LogChunk e) else None) es.

#[local] Arguments chunks_of : simpl never.

Lemma chunks_of_app u es1 es2 : chunks_of u (es1 ++ es2) = chunks_of u es1 ++ chunks_of u es2.
Proof. apply omap_app. Qed.

(** Whether the stream forwards live events, and what it has still to send of its
    snapshot. *)
Definition live (s : stream) : option (list chunk) :=
  match ph s with
  | PSending false rest => Some rest
  | PLoop | PSelect => Some []
  | _ => None
  end.

(** The chunks that have been sent or are on their way to the client. *)
Definition carried (rest : list chunk) (s : stream) : list chunk :=
  sent s ++ rest ++ chunks_of (uuid s) (chan s) ++ chunks_of (uuid s) (inflight s).

Definition subscribed_phase (s : stream) : Prop :=
  match ph s with
  | PSnapshot false | PSending false _ | PLoop | PSelect => subscribed s = true
  | _ => True
  end.

Lemma on_event_fields e s :
  let s' := on_event e s in
  uuid s' = uuid s ∧ skipCount s' = skipCount s ∧ buffer s' = buffer s ∧ inflight s' = inflight s ∧
  chan s' = chan s ∧ subscribed s' = subscribed s ∧ status s' = status s ∧ now s' = now s ∧
  sent s' = sent s ++ chunks_of (uuid s) [e].
Proof.
  unfold on_event, chunks_of. cbn.
  destruct (bool_decide (je_JobUUID e = uuid s)); cbn; [|by rewrite app_nil_r].
  destruct (bool_decide (je_Type e = "LOG_CHUNK"%string)); cbn.
  - destruct (bool_decide (je_LogChunk e = [])); cbn; [by rewrite app_nil_r|].
    by destruct (jobCompleted s).
  - rewrite app_nil_r. by repeat case_match.
Qed.

Lemma chunks_of_write u t c : c ≠ [] → chunks_of u [chunk_event u t c] = [c].
Proof. intros Hc. unfold chunks_of. cbn. rewrite (bool_decide_true (u = u)), (bool_decide_false (c = [])); done. Qed.

Lemma chunks_of_status u v t st : chunks_of u [status_event v t st] = [].
Proof. unfold chunks_of. cbn. by rewrite andb_false_r. Qed.

Lemma chunks_of_other u e : je_JobUUID e ≠ u → chunks_of u [e] = [].
Proof. intros H. unfold chunks_of. cbn. by rewrite bool_decide_false. Qed.

(** Taking one event out of those in flight. *)
Lemma chunks_of_take_out u es i e : es !! i = Some e →
  chunks_of u es ≡ₚ chunks_of u [e] ++ chunks_of u (take i es ++ drop (S i) es).
Proof.
  intros H. rewrite <- (take_drop_middle es i e H) at 1. rewrite !chunks_of_app.
  change (e :: drop (S i) es) with ([e] ++ drop (S i) es). rewrite chunks_of_app.
  rewrite !app_assoc. f_equiv. apply Permutation_app_comm.
Qed.

Lemma step_subscribed l s s' : step l s = Some s' → subscribed_phase s → subscribed_phase s'.
Proof.
  unfold subscribed_phase. destruct l; cbn.
  - unfold write_chunk. case_match; by intros [= <-].
  - by intros [= <-].
  - case_match; by intros [= <-].
  - unfold publish. destruct (inflight s !! i); [|done]. cbn.
    destruct (subscribed s) eqn:Hs; [destruct (_ <? _)|]; intros [= <-]; cbn; by rewrite ?Hs.
  - unfold publish_timeout. destruct (inflight s !! i); [|done]. cbn. case_match; by intros [= <-].
  - unfold capture. destruct (ph s); try done. intros [= <-]. cbn. by repeat case_match.
  - unfold subscribe. destruct (ph s); try done. by intros [= <-].
  - unfold read_snapshot. destruct (ph s); try done. case_match; [|].
    + destruct (ReadAfterSkip _ _); [|done]. cbn. by intros [= <-].
    + cbn. by intros [= <-].
  - unfold send_snapshot. destruct (ph s) as [| | |[] [|c r]| | |]; try done; by intros [= <-].
  - unfold loop_top. destruct (ph s); try done. case_match; [done|]. by intros [= <-].
  - unfold loop_poll. destruct (ph s); try done. case_match; [|done]. by intros [= <-].
  - unfold loop_receive. destruct (ph s); try done. destruct (chan s); [done|]. intros [= <-]. cbn.
    by destruct (on_event_fields j (set_queue (inflight s) l s)) as (_ & _ & _ & _ & _ & -> & _).
  - unfold loop_end. destruct (ph s); try done. case_match; [|done]. by intros [= <-].
  - unfold client_gone. destruct (ph s); try done; by intros [= <-].
  - case_match; by intros [= <-].
Qed.

Definition skipped (s : stream) : nat := Z.to_nat (skipCount s).

Definition cover (s : stream) : Prop :=
  ∀ rest, live s = Some rest → drop (skipped s) (buffer s) ⊆+ carried rest s.

Definition lossless (l : label) : Prop := match l with LLose _ => False | _ => True end.

(** What a step does to the fields the cover reads, phase by phase. *)
Lemma live_ph p s : live (set_ph p s) =
  match p with PSending false rest => Some rest | PLoop | PSelect => Some [] | _ => None end.
Proof. done. Qed.

Lemma read_snapshot_spec s s' : read_snapshot s = Some s' →
  ∃ last, ph s = PSnapshot last ∧ s' = set_ph (PSending last (drop (skipped s) (buffer s))) s.
Proof.
  unfold read_snapshot, skipped. destruct (ph s) as [| |last| | | |]; try done. cbn.
  case_match eqn:E.
  - rewrite ReadAfterSkip_drop by (apply Z.gtb_lt in E; lia). cbn. intros [= <-]. eauto.
  - cbn. intros [= <-]. exists last. split; [done|]. rewrite Z.gtb_ltb in E. to_prop.
    replace (Z.to_nat (skipCount s)) with 0%nat by lia. done.
Qed.

Lemma step_cover l s s' : lossless l → step l s = Some s' → subscribed_phase s → cover s → cover s'.
Proof.
  intros Hl Hstep Hsub Hc rest. unfold cover in Hc. destruct l; cbn in Hstep.
  - unfold write_chunk in Hstep. case_bool_decide as Hne; injection Hstep as <-; [apply Hc|].
    intros Hr. specialize (Hc rest Hr). unfold carried in *. cbn in *.
    rewrite chunks_of_app, chunks_of_write by done. change (skipped _) with (skipped s).
    rewrite drop_app, !app_assoc. rewrite !app_assoc in Hc.
    apply submseteq_app; [done|]. apply sublist_submseteq, sublist_drop.
  - injection Hstep as <-. intros Hr. specialize (Hc rest Hr). unfold carried in *. cbn in *.
    by rewrite chunks_of_app, chunks_of_status, app_nil_r.
  - case_bool_decide as Hne; [done|]. injection Hstep as <-. intros Hr. specialize (Hc rest Hr).
    unfold carried in *. cbn in *. by rewrite chunks_of_app, chunks_of_other, app_nil_r.
  - unfold publish in Hstep. destruct (inflight s !! i) as [e|] eqn:He; [|done]. cbn in Hstep.
    destruct (subscribed s) eqn:Hs.
    + destruct (_ <? _); [|done]. injection Hstep as <-. intros Hr. specialize (Hc rest Hr).
      unfold carried in *. cbn in *. rewrite (chunks_of_take_out _ _ _ _ He) in Hc.
      by rewrite (chunks_of_app _ (chan s)), <- (app_assoc (chunks_of _ (chan s))).
    + injection Hstep as <-. intros Hr. change (live s = Some rest) in Hr.
      unfold live, subscribed_phase in *. destruct (ph s) as [| | |[]| | |]; congruence.
  - done.
  - unfold capture in Hstep. destruct (ph s); try done. injection Hstep as <-.
    rewrite live_ph. by destruct (status_completed _).
  - unfold subscribe in Hstep. destruct (ph s); try done. by injection Hstep as <-.
  - apply read_snapshot_spec in Hstep as (last & _ & ->). rewrite live_ph. destruct last; [done|].
    intros [= <-]. unfold carried. cbn. change (skipped _) with (skipped s).
    apply submseteq_inserts_l, submseteq_inserts_r. done.
  - unfold send_snapshot in Hstep. destruct (ph s) as [| | |last [|c r]| | |] eqn:Hp; try done;
      injection Hstep as <-.
    + destruct last; [done|]. intros [= <-]. unfold carried. cbn.
      apply (Hc []). unfold live. by rewrite Hp.
    + intros Hr. change (live (set_ph (PSending last r) s) = Some rest) in Hr. rewrite live_ph in Hr.
      destruct last; [done|]. injection Hr as <-. unfold carried. cbn. rewrite <- app_assoc.
      apply (Hc (c :: r)). unfold live. by rewrite Hp.
  - unfold loop_top in Hstep. destruct (ph s) eqn:Hp; try done. destruct (drained s); [done|].
    injection Hstep as <-. rewrite live_ph. intros [= <-]. apply (Hc []). unfold live. by rewrite Hp.
  - unfold loop_poll in Hstep. destruct (ph s) eqn:Hp; try done. destruct (jobCompleted s); [|done].
    injection Hstep as <-. rewrite live_ph. intros [= <-]. apply (Hc []). unfold live. by rewrite Hp.
  - unfold loop_receive in Hstep. destruct (ph s) eqn:Hp; try done.
    destruct (chan s) as [|e r] eqn:Hch; [done|]. injection Hstep as <-.
    rewrite live_ph. intros [= <-]. assert (live s = Some []) as Hr by (unfold live; by rewrite Hp).
    specialize (Hc [] Hr). unfold carried, skipped in *. cbn in *.
    destruct (on_event_fields e (set_queue (inflight s) r s))
      as (-> & -> & -> & -> & -> & _ & _ & _ & ->). cbn.
    rewrite Hch in Hc. change (e :: r) with ([e] ++ r) in Hc. by rewrite chunks_of_app, <- app_assoc in *.
  - unfold loop_end in Hstep. destruct (ph s); try done. case_match; [|done]. by injection Hstep as <-.
  - unfold client_gone in Hstep. destruct (ph s); try done; by injection Hstep as <-.
  - destruct (d <? 0); [done|]. injection Hstep as <-. apply Hc.
Qed.

Lemma run_snoc_ind (P : stream → Prop) (Q : label → Prop) ls s s' :
  (∀ l t t', Q l → step l t = Some t' → P t → P t') →
  Forall Q ls → run ls s = Some s' → P s → P s'.
Proof.
  intros Hstep HQ. revert s. induction HQ as [|l ls Hl _ IH]; intros s; cbn.
  { by intros [= <-]. }
  destruct (step l s) as [t|] eqn:E; [|done]. cbn. eauto.
Qed.

(** C8 No output is lost between the snapshot and the subscription: whatever the
    number of writers and however they interleave with the stream, as long as no
    publication times out, a live stream that has forwarded everything in its
    channel while no write is in flight has sent every chunk written to the job's
    log, those skipped at the client's request apart, at least as often as it was
    written. *)
Theorem no_line_lost u skip cap st buf t ls s :
  Forall lossless ls → run ls (new_stream u skip cap st buf t) = Some s →
  live s = Some [] → chan s = [] → inflight s = [] →
  drop (skipped s) (buffer s) ⊆+ sent s.
Proof.
  intros Hl Hr Hlive Hch Hin.
  assert (cover s ∧ subscribed_phase s) as [Hc _].
  { apply (run_snoc_ind (λ s, cover s ∧ subscribed_phase s) lossless ls (new_stream u skip cap st buf t));
      [|done..|].
    - intros l s1 s2 Hq Hs [H1 H2]. split; [by eapply step_cover|by eapply step_subscribed].
    - split; [|done]. by intros rest. }
  specialize (Hc [] Hlive). unfold carried in Hc. by rewrite Hch, Hin, !app_nil_r in Hc.
Qed.

(** ** The order of a single writer *)

(** The events in flight are published in the order in which they were written. *)
Definition in_order (l : label) : Prop :=
  match l with LLose _ => False | LPublish i => i = 0%nat | _ => True end.

(** Before the snapshot the channel and the events in flight are the chunks from
    some point of the log on; after it the client has, or will get, the log up to
    a point, then the log again from a point not after it. *)
Definition ordered (s : stream) : Prop :=
  match ph s with
  | PCapture | PSubscribe => subscribed s = false ∧ chan s = [] ∧ sent s = [] ∧
      ∃ m, (m ≤ length (buffer s))%nat ∧ chunks_of (uuid s) (inflight s) = drop m (buffer s)
  | PSnapshot false => subscribed s = true ∧ sent s = [] ∧
      ∃ m, (m ≤ length (buffer s))%nat ∧
        chunks_of (uuid s) (chan s) ++ chunks_of (uuid s) (inflight s) = drop m (buffer s)
  | PSnapshot true | PSending true _ | PDone => True
  | PSending false _ | PLoop | PSelect => subscribed s = true ∧
      ∃ m n, (m ≤ n ≤ length (buffer s))%nat ∧
        carried (default [] (live s)) s = drop (skipped s) (take n (buffer s)) ++ drop m (buffer s)
  end.

Lemma drop_snoc {A} m (l : list A) x : (m ≤ length l)%nat → drop m (l ++ [x]) = drop m l ++ [x].
Proof. intros H. rewrite drop_app. replace (m - length l)%nat with 0%nat by lia. done. Qed.

Lemma take_snoc {A} n (l : list A) x : (n ≤ length l)%nat → take n (l ++ [x]) = take n l.
Proof. intros H. by rewrite take_app_le. Qed.

(** Appending to the log and to the events in flight. *)
Lemma ordered_append s c infl :
  chunks_of (uuid s) infl = [c] → ordered s →
  ordered (set_job (status s) (buffer s ++ [c]) (inflight s ++ infl) s).
Proof.
  intros Hc. unfold ordered, carried, live. cbn. change (skipped (set_job _ _ _ s)) with (skipped s).
  rewrite chunks_of_app, Hc, length_app. cbn. destruct (ph s) as [| |[]|[] rest| | |]; try done.
  1,2: intros (H1 & H2 & H3 & m & Hm & E); split_and!; try done; exists m; split; [lia|];
    by rewrite drop_snoc, E.
  - intros (H1 & H2 & m & Hm & E). split_and!; try done. exists m. split; [lia|].
    by rewrite drop_snoc, <- E, app_assoc.
  - intros (H1 & m & n & Hm & E). split; [done|]. exists m, n. split; [lia|].
    rewrite drop_snoc, take_snoc by lia. by rewrite !app_assoc, <- E, !app_assoc.
  - intros (H1 & m & n & Hm & E). split; [done|]. exists m, n. split; [lia|].
    rewrite drop_snoc, take_snoc by lia. cbn in *. by rewrite !app_assoc, <- E, !app_assoc.
  - intros (H1 & m & n & Hm & E). split; [done|]. exists m, n. split; [lia|].
    rewrite drop_snoc, take_snoc by lia. cbn in *. by rewrite !app_assoc, <- E, !app_assoc.
Qed.

(** Two states that agree on what [ordered] reads. *)
Lemma ordered_ext s s' : ordered s →
  ph s' = ph s → subscribed s' = subscribed s → sent s' = sent s → buffer s' = buffer s →
  uuid s' = uuid s → skipCount s' = skipCount s →
  chunks_of (uuid s) (chan s') = chunks_of (uuid s) (chan s) →
  (chan s = [] → chan s' = []) →
  chunks_of (uuid s) (inflight s') = chunks_of (uuid s) (inflight s) → ordered s'.
Proof.
  unfold ordered, carried, live, skipped. intros H E1 E2 E3 E4 E5 E6 E7 E7' E8.
  rewrite E1, E2, E3, E4, E5, E6, E7, E8. destruct (ph s) as [| |[]|[] rest| | |]; naive_solver.
Qed.

Lemma drop_tail {A} m (b l1 l2 : list A) : (m ≤ length b)%nat → l1 ++ l2 = drop m b →
  (m + length l1 ≤ length b)%nat ∧ l2 = drop (m + length l1) b.
Proof.
  intros Hm E. pose proof (f_equal length E) as El. rewrite length_app, length_drop in El.
  split; [lia|]. by rewrite <- drop_drop, <- E, drop_app_length.
Qed.

(** The next event in flight reaches the topic. *)
Lemma publish_ordered s s' : publish 0 s = Some s' → ordered s → ordered s'.
Proof.
  unfold publish. destruct (inflight s) as [|e infl] eqn:Hi; [done|]. cbn. rewrite drop_0.
  destruct (subscribed s) eqn:Hs.
  - destruct (_ <? _); [|done]. intros [= <-]. unfold ordered, carried, live. cbn. rewrite Hi, Hs.
    change (skipped (set_queue _ _ s)) with (skipped s).
    assert (chunks_of (uuid s) (chan s ++ [e]) ++ chunks_of (uuid s) infl =
      chunks_of (uuid s) (chan s) ++ chunks_of (uuid s) (e :: infl)) as ->.
    { change (e :: infl) with ([e] ++ infl). by rewrite !chunks_of_app, <- app_assoc. }
    destruct (ph s); naive_solver.
  - intros [= <-]. unfold ordered. cbn. rewrite Hi, Hs.
    change (e :: infl) with ([e] ++ infl). rewrite chunks_of_app.
    destruct (ph s) as [| |[]|[] rest| | |]; try naive_solver;
      intros (H1 & H2 & H3 & m & Hm & E); split_and!; try done;
      apply drop_tail in E as [E1 E2]; [|done| |done]; eauto.
Qed.

Lemma step_ordered l s s' : in_order l → step l s = Some s' → ordered s → ordered s'.
Proof.
  intros Hl Hstep Ho. destruct l; cbn in Hstep.
  - unfold write_chunk in Hstep. case_bool_decide as Hne; injection Hstep as <-; [done|].
    apply ordered_append; [by apply chunks_of_write|done].
  - injection Hstep as <-. apply (ordered_ext s); try done. cbn.
    by rewrite chunks_of_app, chunks_of_status, app_nil_r.
  - case_bool_decide as Hne; [done|]. injection Hstep as <-. apply (ordered_ext s); try done. cbn.
    by rewrite chunks_of_app, chunks_of_other, app_nil_r.
  - cbn in Hl. subst i. by eapply publish_ordered.
  - done.
  - unfold capture in Hstep. unfold ordered in Ho. destruct (ph s) eqn:Hp; try done.
    injection Hstep as <-. unfold ordered. cbn. by destruct (status_completed _).
  - unfold subscribe in Hstep. unfold ordered in Ho. destruct (ph s) eqn:Hp; try done.
    injection Hstep as <-. unfold ordered. cbn. destruct Ho as (H1 & H2 & H3 & m & Hm & E).
    split_and!; [done..|]. exists m. by rewrite H2.
  - apply read_snapshot_spec in Hstep as (last & Hp & ->). unfold ordered in Ho. rewrite Hp in Ho.
    destruct last; [done|]. destruct Ho as (H1 & H2 & m & Hm & E). split; [done|].
    exists m, (length (buffer s)). cbn. split; [lia|]. unfold carried. cbn.
    change (skipped _) with (skipped s). by rewrite H2, E, firstn_all.
  - unfold send_snapshot in Hstep. unfold ordered, live in Ho.
    destruct (ph s) as [| | |last [|c r]| | |] eqn:Hp; try done; injection Hstep as <-.
    + by destruct last.
    + destruct last; [done|]. cbn in Ho. destruct Ho as (H1 & m & n & Hm & E). split; [done|].
      exists m, n. split; [done|]. unfold carried in *. cbn. by rewrite <- app_assoc.
  - unfold loop_top in Hstep. unfold ordered, live in Ho. destruct (ph s) eqn:Hp; try done.
    destruct (drained s); [done|]. by injection Hstep as <-.
  - unfold loop_poll in Hstep. unfold ordered, live in Ho. destruct (ph s) eqn:Hp; try done.
    destruct (jobCompleted s); [|done]. by injection Hstep as <-.
  - unfold loop_receive in Hstep. unfold ordered, live, carried in Ho. destruct (ph s) eqn:Hp; try done.
    destruct (chan s) as [|e r] eqn:Hch; [done|]. injection Hstep as <-.
    destruct Ho as (H1 & m & n & Hm & E). unfold ordered, carried, skipped. cbn.
    destruct (on_event_fields e (set_queue (inflight s) r s))
      as (-> & -> & -> & -> & -> & -> & _ & _ & ->). cbn. split; [done|]. exists m, n. split; [done|].
    cbn in E. change (e :: r) with ([e] ++ r) in E. rewrite chunks_of_app in E.
    unfold skipped in E. rewrite <- E. by rewrite <- !app_assoc.
  - unfold loop_end in Hstep. destruct (ph s); try done. destruct (drained s); [|done].
    by injection Hstep as <-.
  - unfold client_gone in Hstep. destruct (ph s); try done; by injection Hstep as <-.
  - destruct (d <? 0); [done|]. injection Hstep as <-. by apply (ordered_ext s).
Qed.

(** With one writer at a time the client also sees the output in order: first the
    log as it was at the snapshot, less what it asked to skip, then the log from
    a point at or before the end of the snapshot; what is sent twice is a tail of
    the snapshot, and nothing is missing or swapped. *)
Theorem stream_in_order u skip cap st buf t ls s :
  Forall in_order ls → run ls (new_stream u skip cap st buf t) = Some s →
  live s = Some [] → chan s = [] → inflight s = [] →
  ∃ m n, (m ≤ n ≤ length (buffer s))%nat ∧
    sent s = drop (skipped s) (take n (buffer s)) ++ drop m (buffer s).
Proof.
  intros Hl Hr Hlive Hch Hin.
  assert (ordered s) as Ho.
  { apply (run_snoc_ind ordered in_order ls (new_stream u skip cap st buf t)); [|done..|].
    - intros l s1 s2. apply step_ordered.
    - split_and!; try done. exists (length buf). split; [done|]. cbn. by rewrite drop_all. }
  unfold ordered, live, carried in *.
  destruct (ph s) as [| |[]|[] rest| | |]; try done; cbn in *; rewrite Hch, Hin in Ho;
    destruct Ho as (_ & m & n & Hm & E); simplify_eq; cbn in E; rewrite ?app_nil_r in E; eauto.
Qed.

(** ** The start of a stream *)

(** What the client gets first is the log as it was when it asked, less what it asked
    to skip. *)
Definition begins (b : list chunk) (s : stream) : Prop :=
  match ph s with
  | PCapture | PSubscribe | PSnapshot _ => b `prefix_of` buffer s ∧ sent s = []
  | PSending _ rest => drop (skipped s) b `prefix_of` sent s ++ rest
  | PLoop | PSelect => drop (skipped s) b `prefix_of` sent s
  | PDone => True
  end.

Lemma drop_prefix {A} n (a b : list A) : a `prefix_of` b → drop n a `prefix_of` drop n b.
Proof. intros [k ->]. rewrite drop_app. by exists (drop (n - length a) k). Qed.

Lemma step_begins b l s s' : step l s = Some s' → begins b s → begins b s'.
Proof.
  intros Hstep Hb. unfold begins in *. destruct l; cbn in Hstep.
  - unfold write_chunk in Hstep. case_bool_decide; injection Hstep as <-; [done|]. cbn.
    destruct (ph s); try done; destruct Hb; (split; [by apply prefix_app_r|done]).
  - by injection Hstep as <-.
  - case_bool_decide; [done|]. by injection Hstep as <-.
  - unfold publish in Hstep. destruct (inflight s !! i); [|done]. cbn in Hstep.
    destruct (subscribed s); [destruct (_ <? _); [|done]|]; by injection Hstep as <-.
  - unfold publish_timeout in Hstep. destruct (inflight s !! i); [|done]. cbn in Hstep.
    destruct (_ && _); [|done]. by injection Hstep as <-.
  - unfold capture in Hstep. destruct (ph s); try done. injection Hstep as <-. cbn. by destruct (status_completed _).
  - unfold subscribe in Hstep. destruct (ph s); try done. by injection Hstep as <-.
  - apply read_snapshot_spec in Hstep as (last & Hp & ->). rewrite Hp in Hb. destruct Hb as [Hb Hs]. cbn.
    rewrite Hs. by apply drop_prefix.
  - unfold send_snapshot in Hstep. destruct (ph s) as [| | |last [|c r]| | |]; try done; injection Hstep as <-.
    + rewrite app_nil_r in Hb. by destruct last.
    + cbn. by rewrite <- app_assoc.
  - unfold loop_top in Hstep. destruct (ph s); try done. destruct (drained s); [done|]. by injection Hstep as <-.
  - unfold loop_poll in Hstep. destruct (ph s); try done. destruct (jobCompleted s); [|done]. by injection Hstep as <-.
  - unfold loop_receive in Hstep. destruct (ph s); try done. destruct (chan s) as [|e r]; [done|].
    injection Hstep as <-. cbn. destruct (on_event_fields e (set_queue (inflight s) r s)) as (_ & Hk & _ & _ & _ & _ & _ & _ & Hs).
    cbn in *. unfold skipped in *. cbn. rewrite Hk, Hs. by apply prefix_app_r.
  - unfold loop_end in Hstep. destruct (ph s); try done. destruct (drained s); [|done]. by injection Hstep as <-.
  - unfold client_gone in Hstep. destruct (ph s); try done; by injection Hstep as <-.
  - destruct (d <? 0); [done|]. by injection Hstep as <-.
Qed.

(** A stream keeps what it was asked to skip. *)
Lemma step_skip l s s' : step l s = Some s' → skipCount s' = skipCount s.
Proof.
  intros Hstep. destruct l; cbn in Hstep.
  - unfold write_chunk in Hstep. case_bool_decide; by injection Hstep as <-.
  - by injection Hstep as <-.
  - case_bool_decide; [done|]. by injection Hstep as <-.
  - unfold publish in Hstep. destruct (inflight s !! i); [|done]. cbn in Hstep.
    destruct (subscribed s); [destruct (_ <? _); [|done]|]; by injection Hstep as <-.
  - unfold publish_timeout in Hstep. destruct (inflight s !! i); [|done]. cbn in Hstep.
    destruct (_ && _); [|done]. by injection Hstep as <-.
  - unfold capture in Hstep. destruct (ph s); try done. by injection Hstep as <-.
  - unfold subscribe in Hstep. destruct (ph s); try done. by injection Hstep as <-.
  - by apply read_snapshot_spec in Hstep as (last & Hp & ->).
  - unfold send_snapshot in Hstep. destruct (ph s) as [| | |last [|c r]| | |]; try done; injection Hstep as <-; by destruct last.
  - unfold loop_top in Hstep. destruct (ph s); try done. destruct (drained s); [done|]. by injection Hstep as <-.
  - unfold loop_poll in Hstep. destruct (ph s); try done. destruct (jobCompleted s); [|done]. by injection Hstep as <-.
  - unfold loop_receive in Hstep. destruct (ph s); try done. destruct (chan s) as [|e r]; [done|].
    injection Hstep as <-. cbn. by destruct (on_event_fields e (set_queue (inflight s) r s)) as (_ & -> & _).
  - unfold loop_end in Hstep. destruct (ph s); try done. destruct (drained s); [|done]. by injection Hstep as <-.
  - unfold client_gone in Hstep. destruct (ph s); try done; by injection Hstep as <-.
  - destruct (d <? 0); [done|]. by injection Hstep as <-.
Qed.

Lemma snapshot_first u skip cap st b t ls s :
  run ls (new_stream u skip cap st b t) = Some s → live s = Some [] → drop (skipped s) b `prefix_of` sent s.
Proof.
  intros Hr Hl. assert (Hb : begins b s).
  { apply (run_snoc_ind (begins b) (λ _, True) ls (new_stream u skip cap st b t)); [|by apply Forall_true|done|by split].
    intros l s1 s2 _. apply step_begins. }
  unfold begins, live in *. destruct (ph s) as [| |[]|[] rest| | |]; try done; simplify_eq. by rewrite app_nil_r in Hb.
Qed.

(** ** The end of a stream *)

Lemma on_event_drain e s :
  (jobCompleted (on_event e s) = jobCompleted s ∧ drainDeadline (on_event e s) = drainDeadline s) ∨
  drainDeadline (on_event e s) = now s + drainQuietPeriod.
Proof. unfold on_event. repeat case_match; cbn; auto. Qed.

(** A receive that forwards a chunk while draining restarts the quiet period. *)
Lemma receive_deadline s s1 : loop_receive s = Some s1 → sent s1 ≠ sent s →
  jobCompleted s1 = true → now s1 + drainQuietPeriod ≤ drainDeadline s1.
Proof.
  unfold loop_receive. destruct (ph s); try done. destruct (chan s) as [|e r]; [done|].
  intros [= <-]. cbn. unfold on_event. cbn. repeat case_match; cbn; try done; intros; congruence || lia.
Qed.

(** Time moves forward, and the deadline only ever moves to the current time plus
    the quiet period. *)
Lemma step_deadline l s s' b : step l s = Some s' →
  (jobCompleted s = true → b + drainQuietPeriod ≤ drainDeadline s) ∧ b ≤ now s →
  (jobCompleted s' = true → b + drainQuietPeriod ≤ drainDeadline s') ∧ b ≤ now s'.
Proof.
  intros Hs [Hd Hn]. destruct l; cbn in Hs.
  - unfold write_chunk in Hs. case_match; by simplify_eq.
  - by simplify_eq.
  - case_match; by simplify_eq.
  - unfold publish in Hs. apply bind_Some in Hs as (e & _ & Hs). repeat case_match; by simplify_eq.
  - unfold publish_timeout in Hs. apply bind_Some in Hs as (e & _ & Hs). repeat case_match; by simplify_eq.
  - unfold capture in Hs. case_match; by simplify_eq.
  - unfold subscribe in Hs. case_match; by simplify_eq.
  - by apply read_snapshot_spec in Hs as (? & _ & ->).
  - unfold send_snapshot in Hs. repeat case_match; by simplify_eq.
  - unfold loop_top in Hs. repeat case_match; by simplify_eq.
  - unfold loop_poll in Hs. repeat case_match; simplify_eq; cbn; auto.
  - unfold loop_receive in Hs. destruct (ph s); try done. destruct (chan s) as [|e r]; [done|].
    injection Hs as <-. cbn.
    destruct (on_event_fields e (set_queue (inflight s) r s)) as (_ & _ & _ & _ & _ & _ & _ & -> & _).
    destruct (on_event_drain e (set_queue (inflight s) r s)) as [[-> ->]| ->]; cbn; [done|].
    split; [lia|done].
  - unfold loop_end in Hs. repeat case_match; by simplify_eq.
  - unfold client_gone in Hs. repeat case_match; by simplify_eq.
  - case_match; simplify_eq. to_prop. split; [done|]. cbn. lia.
Qed.

(** The drain keeps the tail: after the stream has forwarded a chunk it does not
    end by itself for half a second, so output that lags the completion event, and
    keeps coming at least that often, is delivered. *)
Theorem drain_waits u skip cap st buf t ls s s1 ls2 s2 s3 :
  run ls (new_stream u skip cap st buf t) = Some s →
  step LReceive s = Some s1 → sent s1 ≠ sent s →
  run ls2 s1 = Some s2 → step LEnd s2 = Some s3 →
  now s1 + drainQuietPeriod < now s2.
Proof.
  intros _ Hrec Hsent Hr Hend.
  assert ((jobCompleted s2 = true → now s1 + drainQuietPeriod ≤ drainDeadline s2) ∧ now s1 ≤ now s2)
    as [Hd _].
  { apply (run_snoc_ind (λ s, (jobCompleted s = true → now s1 + drainQuietPeriod ≤ drainDeadline s) ∧
      now s1 ≤ now s) (λ _, True) ls2 s1); [|by apply Forall_true|done|].
    - intros l a b _ Hs [Ha Hn]. by eapply step_deadline.
    - split; [|lia]. by eapply receive_deadline. }
  cbn in Hend. unfold loop_end, drained in Hend. destruct (ph s2); try done.
  destruct (jobCompleted s2); [|done]. cbn in Hend. case_match eqn:E; [|done].
  apply Z.gtb_lt in E. specialize (Hd eq_refl). lia.
Qed.

(** *** Streams that do not end *)

(** Events that do not start the drain. *)
Definition not_final (u : string) (e : JobEvent) : Prop :=
  je_JobUUID e = u → je_Type e = "UPDATED"%string → stream_final (je_Status e) = false.

(** No further status the handler takes for final, and the client stays. *)
Definition no_end (l : label) : Prop :=
  match l with LUpdate st => stream_final st = false | LGone => False | _ => True end.

(** A live stream that has nothing final ahead of it. *)
Definition endless (s : stream) : Prop :=
  jobCompleted s = false ∧
  Forall (not_final (uuid s)) (chan s) ∧ Forall (not_final (uuid s)) (inflight s) ∧
  match ph s with PSnapshot false | PSending false _ | PLoop | PSelect => True | _ => False end.

Lemma Forall_take_drop {A} (P : A → Prop) i l : Forall P l → Forall P (take i l ++ drop (S i) l).
Proof. intros H. apply Forall_app. split; [by apply Forall_take|by apply Forall_drop]. Qed.

Lemma on_event_not_final e s : jobCompleted s = false → not_final (uuid s) e →
  jobCompleted (on_event e s) = false.
Proof.
  intros Hj Hn. unfold on_event. rewrite Hj. case_bool_decide as H1; cbn; [|done].
  repeat case_bool_decide; cbn; try done. by rewrite (Hn H1).
Qed.

Lemma step_endless l s s' : no_end l → step l s = Some s' → endless s → endless s'.
Proof.
  intros Hl Hs (Hj & Hc & Hi & Hp). unfold endless. destruct l; cbn in Hs.
  - unfold write_chunk in Hs. case_bool_decide; injection Hs as <-; [done|]. cbn. split_and!; try done.
    apply Forall_app. split; [done|]. apply Forall_singleton. by intros _ ?.
  - simplify_eq. cbn. split_and!; try done. apply Forall_app. split; [done|].
    apply Forall_singleton. by intros _ _.
  - case_bool_decide; simplify_eq. cbn. split_and!; try done. apply Forall_app. split; [done|].
    apply Forall_singleton. by intros ?.
  - unfold publish in Hs. apply bind_Some in Hs as (e & He & Hs).
    assert (not_final (uuid s) e) by (rewrite Forall_lookup in Hi; eauto).
    destruct (subscribed s); [destruct (_ <? _)|]; simplify_eq; cbn; split_and!; try done;
      try by apply Forall_take_drop.
    apply Forall_app. split; [done|by apply Forall_singleton].
  - unfold publish_timeout in Hs. apply bind_Some in Hs as (e & He & Hs).
    destruct (_ && _); simplify_eq; cbn; split_and!; try done. by apply Forall_take_drop.
  - unfold capture in Hs. by destruct (ph s).
  - unfold subscribe in Hs. by destruct (ph s).
  - apply read_snapshot_spec in Hs as (last & E & ->). rewrite E in Hp. by destruct last.
  - unfold send_snapshot in Hs. destruct (ph s) as [| | |[] [|c r]| | |]; try done; by simplify_eq.
  - unfold loop_top in Hs. destruct (ph s); try done. destruct (drained s); by simplify_eq.
  - unfold loop_poll in Hs. destruct (ph s); try done. by rewrite Hj in Hs.
  - unfold loop_receive in Hs. destruct (ph s); try done. destruct (chan s) as [|e r]; [done|].
    injection Hs as <-. cbn. apply Forall_cons in Hc as [He Hr].
    destruct (on_event_fields e (set_queue (inflight s) r s)) as (-> & _ & _ & -> & -> & _).
    split_and!; [|done..]. by apply on_event_not_final.
  - unfold loop_end, drained in Hs. rewrite Hj in Hs. by destruct (ph s).
  - done.
  - destruct (d <? 0); by simplify_eq.
Qed.

(** The handler's list of final statuses leaves out the time-out: a stream that is
    live when its job times out (or is cancelled) never ends by itself, however
    long the client waits and whatever else is published, although the job counts
    as completed. *)
Theorem timeout_stream_hangs u skip cap st buf t ls s st' ls2 s2 :
  run ls (new_stream u skip cap st buf t) = Some s → endless s →
  st' = StatusTimeout ∨ st' = StatusCanceled →
  Forall no_end ls2 → run (LUpdate st' :: ls2) s = Some s2 →
  ph s2 ≠ PDone ∧ status_completed StatusTimeout = true.
Proof.
  intros _ He Hst Hl Hr. split; [|done].
  assert (endless s2) as (_ & _ & _ & H2).
  { apply (run_snoc_ind endless no_end (LUpdate st' :: ls2) s s2); [|constructor; [|done]|done..].
    - intros l a b. apply step_endless.
    - by destruct Hst as [-> | ->]. }
  intros E. by rewrite E in H2.
Qed.

(** A completion can be missed: when the job completes after the stream has looked
    at its status and before it has subscribed, the stream goes live, nobody will
    publish the completion again, and it never ends by itself. *)
Theorem completion_missed :
  ∃ ls s, run ls (new_stream "job" 0 100 "RUNNING" [] 0) = Some s ∧
    status s = "COMPLETED"%string ∧ live s = Some [] ∧ chan s = [] ∧ inflight s = [] ∧
    ∀ ls2 s2, Forall no_end ls2 → run ls2 s = Some s2 → ph s2 ≠ PDone.
Proof.
  exists [LCapture; LUpdate "COMPLETED"; LPublish 0; LSubscribe; LRead; LSend].
  eexists. split_and!; [reflexivity..|]. intros ls2 s2 Hl Hr E.
  assert (endless s2) as (_ & _ & _ & H2); [|by rewrite E in H2].
  eapply (run_snoc_ind endless no_end); [|exact Hl|exact Hr|].
  - intros l a b. apply step_endless.
  - split_and!; done.
Qed.

(** ** Concrete runs *)

Definition log (x : string) : chunk := bytes x.

(** A line is written between the subscription and the snapshot, and another one
    after the snapshot. *)
Definition seam : list label :=
  [LWrite (log "a"); LPublish 0; LCapture; LSubscribe; LWrite (log "b"); LPublish 0; LRead;
   LWrite (log "c"); LSend; LPublish 0; LSend; LSend; LTop; LReceive; LTop; LReceive].

Definition fresh : stream := new_stream "job" 0 100 "RUNNING" [] 0.

Lemma no_line_lost_witness :
  ∃ s, run seam fresh = Some s ∧ sent s = [log "a"; log "b"; log "b"; log "c"] ∧
    drop (skipped s) (buffer s) ⊆+ sent s.
Proof.
  eexists. split; [vm_compute; reflexivity|]. split; [vm_compute; reflexivity|].
  eapply (no_line_lost "job" 0 100 "RUNNING" [] 0 seam); [by repeat constructor| |reflexivity..].
  vm_compute. reflexivity.
Defined.

Lemma stream_in_order_witness :
  ∃ s, run seam fresh = Some s ∧
    ∃ m n, (m ≤ n ≤ length (buffer s))%nat ∧
      sent s = drop (skipped s) (take n (buffer s)) ++ drop m (buffer s).
Proof.
  eexists. split; [vm_compute; reflexivity|].
  eapply (stream_in_order "job" 0 100 "RUNNING" [] 0 seam); [by repeat constructor| |reflexivity..].
  vm_compute. reflexivity.
Defined.

(** The job completes, a late line follows, and the stream ends later. *)
Definition late : list label :=
  [LCapture; LSubscribe; LRead; LSend; LUpdate "COMPLETED"; LPublish 0; LTop; LReceive;
   LTick 400000000; LWrite (log "tail"); LPublish 0; LTop].
Definition wait : list label := [LTop; LTick 500000001; LPoll].

Lemma drain_waits_witness :
  ∃ s s1 s2 s3, run late fresh = Some s ∧ step LReceive s = Some s1 ∧
    run wait s1 = Some s2 ∧ step LEnd s2 = Some s3 ∧ now s1 + drainQuietPeriod < now s2.
Proof.
  eexists _, _, _, _. split; [vm_compute; reflexivity|]. split; [vm_compute; reflexivity|].
  split; [vm_compute; reflexivity|]. split; [vm_compute; reflexivity|].
  eapply (drain_waits "job" 0 100 "RUNNING" [] 0 late _ _ wait);
    [vm_compute; reflexivity|vm_compute; reflexivity|discriminate|vm_compute; reflexivity..].
Defined.

Lemma timeout_stream_hangs_witness :
  ∃ s s2, run [LCapture; LSubscribe; LRead; LSend] fresh = Some s ∧
    run [LUpdate StatusTimeout; LPublish 0; LTop; LReceive; LTick 3600000000000; LTop] s = Some s2 ∧
    ph s2 ≠ PDone.
Proof.
  eexists _, _. split; [vm_compute; reflexivity|]. split; [vm_compute; reflexivity|].
  eapply (timeout_stream_hangs "job" 0 100 "RUNNING" [] 0 [LCapture; LSubscribe; LRead; LSend] _
    StatusTimeout [LPublish 0; LTop; LReceive; LTick 3600000000000; LTop]);
    [vm_compute; reflexivity|by split_and!|by left|by repeat constructor|vm_compute; reflexivity].
Defined.
