(* ===== verification/Lifecycle.v ===== *)
(** * The life cycle of a job (internal/joblet/core/joblet.go and
    core/cleanup/coordinator.go)

    Starting, stopping, monitoring and deleting jobs over the job store the
    program runs with.  The host is outside the model: the outcome of setting up
    a job's resources, of starting and waiting for its process and of removing
    its files are arguments, and what the program does to the host is a trace of
    effects.  Where a call waits for the host, what the other goroutines do
    meanwhile is an argument of the call. *)

From S2P Require Import Prelude GoStrings Values Paths Job KeyStore LogBuffer JobStore.
From Stdlib Require Import Ascii.

Local Open Scope Z_scope.

(** ** State *)

Inductive effect :=
| FKill (uuid : string) (pid : Z)
| FCgroup (uuid : string)
| FGPUs (uuid : string)
| FFiles (uuid : string)
| FNetwork (uuid : string)
| FWorkspace (uuid : string)
| FAddToCgroup (path : string) (pid : Z).

(** The job an effect is about. *)
Definition about (e : effect) : option string :=
  match e with
  | FKill u _ | FCgroup u | FGPUs u | FFiles u | FNetwork u | FWorkspace u => Some u
  | FAddToCgroup _ _ => None
  end.

(** The scheduler enters through its specification, the bag of queued jobs.
    [fresh] is the next free address for a job object.
    [src/internal/joblet/core/joblet.go Joblet] *)
Record joblet := {
  js : store (gmap string nat);
  fresh : nat;
  queued : list string;
  activeCleanups : gset string;
  effects : list effect;
  now : Z;
}.

Inductive life_error :=
| LNotFound (uuid : string) | LNotRunning (uuid status : string) | LRemove
| LCleanupActive (uuid : string) | LCleanup | LSetup | LExec | LSchedule | LUploads
| LDeleteRunning (uuid status : string) | LStore (e : store_error) | LDeleteAll (failed : Z).

(** What [CleanupOrphanedResources] reports. *)
Inductive orphan_error := OReadDir (err : string) | OErrors (cleaned : list string) (errors : list (string * life_error)).

Definition set_js (x : store (gmap string nat)) (s : joblet) : joblet := {|
  js := x; fresh := fresh s; queued := queued s; activeCleanups := activeCleanups s;
  effects := effects s; now := now s |}.
Definition set_queued (q : list string) (s : joblet) : joblet := {|
  js := js s; fresh := fresh s; queued := q; activeCleanups := activeCleanups s;
  effects := effects s; now := now s |}.
Definition emit (es : list effect) (s : joblet) : joblet := {|
  js := js s; fresh := fresh s; queued := queued s; activeCleanups := activeCleanups s;
  effects := effects s ++ es; now := now s |}.
Definition set_active (a : gset string) (s : joblet) : joblet := {|
  js := js s; fresh := fresh s; queued := queued s; activeCleanups := a;
  effects := effects s; now := now s |}.

(** A new job object. *)
Definition alloc (j : Job) (s : joblet) : nat * joblet :=
  (fresh s, {| js := set_obj (fresh s) j (js s); fresh := S (fresh s); queued := queued s;
               activeCleanups := activeCleanups s; effects := effects s; now := now s |}).

(** The object at an address, and a write to it. *)
Definition obj (s : joblet) (p : nat) : Job := objs (js s) p.
Definition write (p : nat) (j : Job) (s : joblet) : joblet := set_js (set_obj p j (js s)) s.

Definition store_update (p : nat) (s : joblet) : joblet := set_js (UpdateJob (now s) p (js s)) s.
Definition store_create (p : nat) (s : joblet) : joblet := set_js (CreateNewJob (now s) p (js s)) s.

(** Assignments to the fields that change during a run. *)
Definition with_run (st : string) (pid : Z) (code : Z) (end_ : option Z) (j : Job) : Job := {|
  Uuid := Uuid j; Command := Command j; Args := Args j; Type_ := Type_ j; Limits := Limits j;
  CgroupPath := CgroupPath j; Status := st; Pid := pid; StartTime := StartTime j;
  EndTime := end_; ScheduledTime := ScheduledTime j; ExitCode := code;
  Network := Network j; Volumes := Volumes j; Runtime := Runtime j;
  WorkingDirectory := WorkingDirectory j; Uploads := Uploads j;
  Environment_ := Environment_ j; SecretEnvironment := SecretEnvironment j;
  GPUIndices := GPUIndices j; GPUMIGUUIDs := GPUMIGUUIDs j; GPUCount := GPUCount j;
  GPUMemoryMB := GPUMemoryMB j; NodeId := NodeId j; Timeout := Timeout j; cache := cache j;
|}.

Definition with_status (st : string) (j : Job) : Job := with_run st (Pid j) (ExitCode j) (EndTime j) j.
Definition finished (st : string) (code t : Z) (j : Job) : Job := with_run st (Pid j) code (Some t) j.

Section lifecycle.
(** Whether the files of a job can be removed. *)
Context (files_ok : string → bool).
Implicit Types (s : joblet) (uuid : string) (p : nat).

(** ** The clean-up coordinator *)

(** [src/internal/joblet/core/cleanup/coordinator.go Coordinator.releaseGPUs] *)
Definition releaseGPUs uuid s : joblet := emit [FGPUs uuid] s.

(** [src/internal/joblet/core/cleanup/coordinator.go Coordinator.cleanupCgroup] *)
Definition cleanupCgroup uuid s : joblet := emit [FCgroup uuid] s.

(** The attempt to remove the directories on the host: one effect, whatever its outcome, which
    is given.
    [src/internal/joblet/core/cleanup/coordinator.go Coordinator.cleanupFilesystem] *)
Definition cleanupFilesystem uuid s : bool * joblet := (files_ok uuid, emit [FFiles uuid] s).

(** [src/internal/joblet/core/cleanup/coordinator.go Coordinator.GetCleanupStatus] *)
Definition GetCleanupStatus uuid s : bool := bool_decide (uuid ∈ activeCleanups s).

(** [src/internal/joblet/core/cleanup/coordinator.go Coordinator.CleanupJob] *)
Definition CleanupJob uuid s : result life_error unit * joblet :=
  if bool_decide (uuid ∈ activeCleanups s) then (Err (LCleanupActive uuid), s)
  else
    let s0 := set_active ({[uuid]} ∪ activeCleanups s) s in
    let s1 := releaseGPUs uuid (cleanupCgroup uuid s0) in
    let '(ok, s2) := cleanupFilesystem uuid s1 in
    let s3 := emit [FNetwork uuid] s2 in
    ((if ok then Ok tt else Err LCleanup), set_active (activeCleanups s3 ∖ {[uuid]}) s3).

(** [src/internal/joblet/core/cleanup/coordinator.go Coordinator.CleanupJobSystemResourcesOnly] *)
Definition CleanupJobSystemResourcesOnly uuid s : result life_error unit * joblet :=
  if bool_decide (uuid ∈ activeCleanups s) then (Err (LCleanupActive uuid), s)
  else
    let s0 := set_active ({[uuid]} ∪ activeCleanups s) s in
    let s1 := releaseGPUs uuid (cleanupCgroup uuid s0) in
    (Ok tt, set_active (activeCleanups s1 ∖ {[uuid]}) s1).

(** [during]: what happens while the coordinator waits for the process to end.
    [src/internal/joblet/core/cleanup/coordinator.go Coordinator.CleanupJobWithProcess] *)
Definition CleanupJobWithProcess (during : joblet → joblet) uuid (pid : Z) s :=
  CleanupJob uuid (if pid >? 0 then during (emit [FKill uuid pid] s) else s).

(** [src/internal/joblet/core/cleanup/coordinator.go Coordinator.CleanupJobWithProcessSystemOnly] *)
Definition CleanupJobWithProcessSystemOnly (during : joblet → joblet) uuid (pid : Z) s :=
  CleanupJobSystemResourcesOnly uuid (if pid >? 0 then during (emit [FKill uuid pid] s) else s).

(** One directory: [others] is what other goroutines do before its turn.  The ids that are collected
    stand for the count and the errors of the code.
    [src/internal/joblet/core/cleanup/coordinator.go:371-397 Coordinator.CleanupOrphanedResources] *)
Definition sweep_one (active : list string) (others : string → joblet → joblet)
    (x : list string * list (string * life_error) * joblet) uuid : list string * list (string * life_error) * joblet :=
  let '(cleaned, errors, s) := x in
  let s := others uuid s in
  if bool_decide (uuid ∈ active) || GetCleanupStatus uuid s then (cleaned, errors, s)
  else match CleanupJob uuid s with
       | (Ok _, s) => (cleaned ++ [uuid], errors, s)
       | (Err e, s) => (cleaned, errors ++ [(uuid, e)], s)
       end.

(** [entries]: what reading the base directory comes to, its entries that are directories.
    [src/internal/joblet/core/cleanup/coordinator.go Coordinator.CleanupOrphanedResources] *)
Definition CleanupOrphanedResources (active : list string) (entries : result string (list string))
    (others : string → joblet → joblet) s : result orphan_error (list string) * joblet :=
  match entries with
  | Err e => (Err (OReadDir e), s)
  | Ok dirs =>
      let '(cleaned, errors, s) := foldl (sweep_one active others) ([], [], s) dirs in
      ((match errors with [] => Ok cleaned | _ => Err (OErrors cleaned errors) end), s)
  end.

(** ** Starting *)

(** [src/internal/joblet/core/joblet.go Joblet.getActiveJobUUIDs] *)
Definition getActiveJobUUIDs s : list string := Uuid <$> ListJobs (js s).

(** The periodic clean-up takes the ids of the jobs first; [before] and [others] are what happens
    until it has read the directory, and from one entry to the next.
    [src/internal/joblet/core/cleanup/coordinator.go Coordinator.SchedulePeriodicCleanup] *)
Definition periodic_cleanup (entries : result string (list string)) (before : joblet → joblet) (others : string → joblet → joblet) s
    : result orphan_error (list string) * joblet :=
  CleanupOrphanedResources (getActiveJobUUIDs s) entries others (before s).

(** Full clean-up, or that of the system's resources only.
    [src/internal/joblet/core/joblet.go:692-713 Joblet.monitorJob] *)
Definition cleanup_by_type (j : Job) s : joblet :=
  (if Job.IsRuntimeBuild j then CleanupJobSystemResourcesOnly (Uuid j) s else CleanupJob (Uuid j) s).2.

(** [src/internal/joblet/core/joblet.go Joblet.handleExecutionFailure] *)
Definition handleExecutionFailure p s : joblet :=
  let s1 := store_update p (write p (finished StatusFailed (-1) (now s) (obj s p)) s) in
  cleanup_by_type (obj s1 p) s1.

(** [pid]: that of the command's process, if it has one.
    [src/internal/joblet/core/joblet.go Joblet.updateJobRunning] *)
Definition updateJobRunning p (pid : option Z) s : joblet :=
  let j := obj s p in
  store_update p (write p (with_run StatusRunning (default (Pid j) pid) (ExitCode j) (EndTime j) j) s).

(** [setup]: whether the resources can be set up; [during]: what happens between
    the set-up and the registration of the job; [engine]: the object as the
    execution engine leaves it and, when the process starts, its id.  Metrics and
    telematics are left out.
    [src/internal/joblet/core/joblet.go Joblet.executeJob] *)
Definition executeJob (setup : bool) (during : joblet → joblet)
    (engine : Job → Job * option (option Z)) p s : result life_error nat * joblet :=
  if negb setup then (Err LSetup, s)
  else
    let s1 := during (emit [FWorkspace (Uuid (obj s p))] s) in
    let s2 := store_create p s1 in
    let '(j, started) := engine (obj s2 p) in
    let s3 := write p j s2 in
    match started with
    | None => (Err LExec, handleExecutionFailure p s3)
    | Some pid =>
        let s4 := updateJobRunning p pid s3 in
        let j4 := obj s4 p in
        let s5 := if negb (bool_decide (CgroupPath j4 = ""%string)) && (Pid j4 >? 0)
                  then emit [FAddToCgroup (CgroupPath j4) (Pid j4)] s4 else s4 in
        (Ok p, s5)
    end.

(** [parsed]: the schedule, when its text is a valid time; [prepared]: whether the
    uploads, if any, could be stored.
    [src/internal/joblet/core/joblet.go Joblet.scheduleJob] *)
Definition scheduleJob (parsed : option Z) (uploads : list FileUpload) (prepared : bool) p s
    : result life_error nat * joblet :=
  match parsed with
  | None => (Err LSchedule, s)
  | Some t =>
      let s1 := write p (with_status StatusScheduled (with_ScheduledTime (obj s p) (Some t))) s in
      if negb (bool_decide (uploads = [])) && negb prepared then (Err LUploads, s1)
      else
        let s2 := if bool_decide (uploads = []) then s1 else emit [FWorkspace (Uuid (obj s1 p))] s1 in
        let s3 := store_create p s2 in
        (Ok p, set_queued (queued s3 ++ [Uuid (obj s3 p)]) s3)
  end.

(** [src/internal/joblet/core/joblet.go Joblet.executeScheduledJob] *)
Definition executeScheduledJob (setup : bool) (during : joblet → joblet)
    (engine : Job → Job * option (option Z)) uuid s : result life_error nat * joblet :=
  match Job_ uuid (js s) with
  | None => (Err (LNotFound uuid), s)
  | Some freshJob =>
      if bool_decide (Status freshJob = StatusCanceled) then (Err (LNotRunning uuid (Status freshJob)), s)
      else if negb (bool_decide (Status freshJob = StatusScheduled))
      then (Err (LNotRunning uuid (Status freshJob)), s)
      else
        let '(p, s1) := alloc (with_status StatusInitializing freshJob) s in
        executeJob setup during engine p (store_update p s1)
  end.

(** ** Monitoring *)

Inductive exit := TimedOut | Exited (code : Z) | WaitFailed | Succeeded.

Definition final_job (x : exit) (t : Z) (j : Job) : Job :=
  match x with
  | TimedOut => finished StatusTimeout 124 t j
  | Exited code => finished StatusFailed code t j
  | WaitFailed => finished StatusFailed (-1) t j
  | Succeeded => finished StatusCompleted 0 t j
  end.

(** The end of the monitor of the job object at [p]: the process has ended, or its
    time is over.
    [src/internal/joblet/core/joblet.go:605-713 Joblet.monitorJob] *)
Definition monitor_end (x : exit) (during : joblet → joblet) p s : joblet :=
  let j := obj s p in
  let s1 := match x with
            | TimedOut =>
                (if Job.IsRuntimeBuild j
                 then CleanupJobWithProcessSystemOnly during (Uuid j) (Pid j) s
                 else CleanupJobWithProcess during (Uuid j) (Pid j) s).2
            | _ => s
            end in
  let s2 := store_update p (write p (final_job x (now s1) (obj s1 p)) s1) in
  match x with TimedOut => s2 | _ => cleanup_by_type (obj s2 p) s2 end.

(** ** Stopping *)

(** [RemoveJob] of the scheduler's bag. *)
Definition scheduler_remove uuid s : bool * joblet :=
  match list_find (eq uuid) (queued s) with
  | Some (i, _) => (true, set_queued (delete i (queued s)) s)
  | None => (false, s)
  end.

(** [src/internal/joblet/core/joblet.go Joblet.StopJob] *)
Definition StopJob (during : joblet → joblet) uuid s : result life_error unit * joblet :=
  match Job_ uuid (js s) with
  | None => (Err (LNotFound uuid), s)
  | Some jb =>
      if Job.IsScheduled jb then
        let '(removed, s1) := scheduler_remove uuid s in
        if removed then
          let '(p, s2) := alloc (with_status StatusCanceled jb) s1 in
          let s3 := store_update p s2 in
          (Ok tt, if Job.IsRuntimeBuild jb then s3 else (CleanupJob uuid s3).2)
        else (Err LRemove, s1)
      else if negb (Job.IsRunning jb) then (Err (LNotRunning uuid (Status jb)), s)
      else if GetCleanupStatus uuid s then
        let '(p, s2) := alloc (with_status StatusStopped jb) s in (Ok tt, store_update p s2)
      else
        let '(err, s1) := if Job.IsRuntimeBuild jb
          then CleanupJobWithProcessSystemOnly during uuid (Pid jb) s
          else CleanupJobWithProcess during uuid (Pid jb) s in
        let '(p, s2) := alloc (with_status StatusStopped jb) s1 in
        let s3 := store_update p s2 in
        (match err with
         | Ok _ => Ok tt
         | Err (LCleanupActive _) => Ok tt
         | Err _ => Err LCleanup
         end, s3)
  end.

(** ** Deleting *)

(** [src/internal/joblet/core/joblet.go Joblet.DeleteJob] *)
Definition DeleteJob uuid s : result life_error unit * joblet :=
  match Job_ uuid (js s) with
  | None => (Err (LNotFound uuid), s)
  | Some jb =>
      if Job.IsRunning jb || Job.IsScheduled jb then (Err (LDeleteRunning uuid (Status jb)), s)
      else match JobStore.DeleteJob (now s) uuid (js s) with
      | (Err e, x) => (Err (LStore e), set_js x s)
      | (Ok _, x) =>
          let s1 := set_js x s in
          (Ok tt, (if Job.IsRuntimeBuild jb then CleanupJobSystemResourcesOnly uuid s1
                   else CleanupJob uuid s1).2)
      end
  end.

(** One job of the loop, over the counts of deleted, skipped and failed jobs.
    [src/internal/joblet/core/joblet.go:526-565 Joblet.DeleteAllJobs] *)
Definition delete_one (persist : option (string → result string bool))
    (acc : (Z * Z * Z) * joblet) (job : Job) : (Z * Z * Z) * joblet :=
  let '((deleted, skipped, failed), s) := acc in
  if Job.IsRunning job || Job.IsScheduled job then ((deleted, skipped + 1, failed), s)
  else match DeleteJob (Uuid job) s with
  | (Err _, s1) => ((deleted, skipped, failed + 1), s1)
  | (Ok _, s1) => ((deleted + 1, skipped, failed), set_js (DeleteJobLogs persist (Uuid job) (js s1)).2 s1)
  end.

(** [src/internal/joblet/core/joblet.go Joblet.DeleteAllJobs] *)
Definition DeleteAllJobs (persist : option (string → result string bool)) s
    : result life_error (Z * Z) * joblet :=
  let '((deleted, skipped, failed), s') :=
    foldl (delete_one persist) ((0, 0, 0), s) (ListJobs (js s)) in
  if failed >? 0 then (Err (LDeleteAll failed), s') else (Ok (deleted, skipped), s').

(** ** Recovery after a restart *)

(** The counts of recovered and skipped jobs; the queue keeps the job.
    [src/internal/joblet/core/joblet.go Joblet.RecoverScheduledJobs] *)
Definition RecoverScheduledJobs (nodeId : string) (jobs : list Job) s : (Z * Z) * joblet :=
  foldl (λ acc job,
    let '((recovered, skipped), s) := acc in
    if negb (bool_decide (Status job = StatusScheduled)) then acc
    else if negb (bool_decide (NodeId job = nodeId)) then acc
    else match ScheduledTime job with
         | None => ((recovered, skipped + 1), s)
         | Some _ => ((recovered + 1, skipped), set_queued (queued s ++ [Uuid job]) s)
         end) ((0, 0), s) jobs.
End lifecycle.

(** ** The store behind the calls *)

Section laws.
Context (files_ok : string → bool).
Implicit Types (s : joblet) (uuid : string) (p : nat) (j : Job).

(** The object stored under a key, when the store is open. *)
Definition stored uuid s : option nat := if closed (js s) then None else jobStore (js s) !! uuid.

Lemma Job_stored_obj uuid s : Job_ uuid (js s) = DeepCopy ∘ obj s <$> stored uuid s.
Proof. unfold Job_, stored. by destruct (closed (js s)). Qed.

Lemma emit_js es s : js (emit es s) = js s.
Proof. done. Qed.

Lemma CleanupJob_js uuid s : js (CleanupJob files_ok uuid s).2 = js s.
Proof. unfold CleanupJob. by case_match. Qed.

Lemma CleanupJobSystem_js uuid s : js (CleanupJobSystemResourcesOnly uuid s).2 = js s.
Proof. unfold CleanupJobSystemResourcesOnly. by case_match. Qed.

Lemma cleanup_by_type_js j s : js (cleanup_by_type files_ok j s) = js s.
Proof. unfold cleanup_by_type. case_match; [apply CleanupJobSystem_js|apply CleanupJob_js]. Qed.

(** An update of a known job stores its address and publishes nothing else that a
    reader of the store can see. *)
Lemma store_update_stored p s : closed (js s) = false → is_Some (tasks (js s) !! Uuid (obj s p)) →
  let s' := store_update p s in
  closed (js s') = false ∧ (∀ q, obj s' q = obj s q) ∧
  (∀ k, stored k s' = if decide (k = Uuid (obj s p)) then Some p else stored k s) ∧
  (∀ k, is_Some (tasks (js s') !! k) ↔ is_Some (tasks (js s) !! k)) ∧
  effects s' = effects s ∧ activeCleanups s' = activeCleanups s ∧ fresh s' = fresh s.
Proof.
  intros Hc [t Ht]. unfold store_update, set_js, UpdateJob, stored, obj in *. cbn.
  rewrite Hc, Ht. cbn.
  match goal with |- context [publishEvent ?e ?a] =>
    destruct (publish_fields e a) as (Ho & Hs & _ & Hts & Hcl & _) end.
  match goal with |- context [call_state ?c ?a] =>
    destruct (call_state_fields c a) as (Ho2 & Hs2 & _ & Hts2 & Hcl2 & _) end.
  rewrite Ho2, Ho, Hs2, Hs, Hts2, Hts, Hcl2, Hcl. cbn. rewrite Hc. split_and!; try done.
  - intros k. case_decide as Hk; [subst; apply lookup_insert_eq|by apply lookup_insert_ne].
  - intros k. destruct (decide (k = Uuid (objs (js s) p))) as [->|Hk].
    + rewrite lookup_insert_eq, Ht. split; eauto.
    + by rewrite lookup_insert_ne.
Qed.

Lemma store_create_stored p s : closed (js s) = false →
  let s' := store_create p s in
  closed (js s') = false ∧ (∀ q, obj s' q = obj s q) ∧
  (∀ k, stored k s' = if decide (k = Uuid (obj s p)) then Some p else stored k s) ∧
  (∀ k, is_Some (tasks (js s') !! k) ↔ k = Uuid (obj s p) ∨ is_Some (tasks (js s) !! k)) ∧
  effects s' = effects s ∧ activeCleanups s' = activeCleanups s ∧ fresh s' = fresh s.
Proof.
  intros Hc. unfold store_create, set_js, CreateNewJob, stored, obj in *. cbn. rewrite Hc. cbn.
  destruct (GetBuffer _ _) as [l m].
  match goal with |- context [publishEvent ?e ?a] =>
    destruct (publish_fields e a) as (Ho & Hs & _ & Hts & Hcl & _) end.
  match goal with |- context [call_state ?c ?a] =>
    destruct (call_state_fields c a) as (Ho2 & Hs2 & _ & Hts2 & Hcl2 & _) end.
  rewrite Ho2, Ho, Hs2, Hs, Hts2, Hts, Hcl2, Hcl. cbn. rewrite Hc. split_and!; try done.
  - intros k. case_decide as Hk; [subst; apply lookup_insert_eq|by apply lookup_insert_ne].
  - intros k. destruct (decide (k = Uuid (objs (js s) p))) as [->|Hk].
    + rewrite lookup_insert_eq. split; eauto.
    + rewrite lookup_insert_ne by done. naive_solver.
Qed.

Lemma write_fields p j s :
  closed (js (write p j s)) = closed (js s) ∧ (∀ k, stored k (write p j s) = stored k s) ∧
  tasks (js (write p j s)) = tasks (js s) ∧ obj (write p j s) p = j ∧
  (∀ q, q ≠ p → obj (write p j s) q = obj s q).
Proof.
  unfold write, stored, obj. cbn. split_and!; try done; [by rewrite decide_True|].
  intros q Hq. by rewrite decide_False.
Qed.

Lemma alloc_fields j s p s' : alloc j s = (p, s') →
  p = fresh s ∧ closed (js s') = closed (js s) ∧ (∀ k, stored k s' = stored k s) ∧
  tasks (js s') = tasks (js s) ∧ obj s' p = j ∧ (∀ q, q ≠ p → obj s' q = obj s q) ∧
  effects s' = effects s ∧ activeCleanups s' = activeCleanups s ∧ queued s' = queued s.
Proof.
  unfold alloc. intros [= <- <-]. unfold stored, obj. cbn. split_and!; try done; [by rewrite decide_True|].
  intros q Hq. by rewrite decide_False.
Qed.

Lemma set_js_same s : set_js (js s) s = s.
Proof. by destruct s. Qed.

Lemma full_uuid_resolves uuid (a : store (gmap string nat)) :
  len uuid = 36 → resolveUuidByPrefix uuid a = Ok uuid.
Proof. intros H. unfold resolveUuidByPrefix. by rewrite H. Qed.

(** ** Jobs that nobody can remove *)

(** A scheduled job whose resources cannot be set up when its time comes stays
    INITIALIZING for ever: no failure is recorded, stopping it is refused because
    it is not running, and deleting it is refused because the store takes it for
    active; both leave everything as it is. *)
Theorem failed_setup_sticks during engine uuid s job :
  len uuid = 36 → Job_ uuid (js s) = Some job → Uuid job = uuid →
  Status job = StatusScheduled → is_Some (tasks (js s) !! uuid) →
  ∃ s' job', executeScheduledJob files_ok false during engine uuid s = (Err LSetup, s') ∧
    Job_ uuid (js s') = Some job' ∧ Status job' = StatusInitializing ∧
    (∀ d, StopJob files_ok d uuid s' = (Err (LNotRunning uuid StatusInitializing), s')) ∧
    DeleteJob files_ok uuid s' = (Err (LStore (EJobRunning uuid)), s').
Proof.
  intros Hlen Hj Hu Hst Ht. pose proof (Job_stored _ _ _ Hj) as [Hc _].
  unfold executeScheduledJob. rewrite Hj, Hst. cbn -[alloc store_update].
  destruct (alloc (with_status StatusInitializing job) s) as [p s1] eqn:Ha.
  destruct (alloc_fields _ _ _ _ Ha) as (_ & Hc1 & _ & Ht1 & Ho1 & _).
  assert (Uuid (obj s1 p) = uuid) as Hu1 by by rewrite Ho1.
  destruct (store_update_stored p s1) as (Hc2 & Ho2 & Hs2 & _);
    [by rewrite Hc1|by rewrite Hu1, Ht1|]. rewrite Hu1 in Hs2.
  set (s2 := store_update p s1) in *. exists s2, (DeepCopy (with_status StatusInitializing job)).
  assert (Job_ uuid (js s2) = Some (DeepCopy (with_status StatusInitializing job))) as Hj2.
  { rewrite Job_stored_obj, Hs2, decide_True by done. cbn. by rewrite Ho2, Ho1. }
  split_and!; [done|done|done| |].
  - intros d. unfold StopJob. rewrite Hj2. done.
  - unfold DeleteJob. rewrite Hj2. cbn -[JobStore.DeleteJob set_js].
    erewrite DeleteJob_refused; [|by apply full_uuid_resolves|exact Hj2|by right].
    cbn -[set_js]. by rewrite set_js_same, Hu.
Qed.

(** ** Stopping against monitoring *)

(** A job that runs under a monitor: the store holds the object the monitor has. *)
Definition runs_at uuid p s : Prop :=
  stored uuid s = Some p ∧ Uuid (obj s p) = uuid ∧ Status (obj s p) = StatusRunning ∧
  is_Some (tasks (js s) !! uuid) ∧ (p < fresh s)%nat.

Lemma stored_open uuid p s : stored uuid s = Some p → closed (js s) = false.
Proof. unfold stored. by destruct (closed (js s)). Qed.

(** The monitor of an exited process, up to the clean-up: the object gets its
    final state and is stored again. *)
Lemma monitor_end_stored during p s code :
  closed (js s) = false → is_Some (tasks (js s) !! Uuid (obj s p)) →
  let s' := monitor_end files_ok (Exited code) during p s in
  obj s' p = final_job (Exited code) (now s) (obj s p) ∧
  (∀ k, stored k s' = if decide (k = Uuid (obj s p)) then Some p else stored k s) ∧
  closed (js s') = false ∧ (∀ k, is_Some (tasks (js s') !! k) ↔ is_Some (tasks (js s) !! k)).
Proof.
  intros Hc Ht. unfold monitor_end. set (j := final_job _ _ _).
  destruct (write_fields p j s) as (Hc1 & Hs1 & Ht1 & Ho1 & _).
  assert (Uuid (obj (write p j s) p) = Uuid (obj s p)) as Hu by by rewrite Ho1.
  destruct (store_update_stored p (write p j s)) as (Hc2 & Ho2 & Hs2 & Ht2 & _);
    [by rewrite Hc1|by rewrite Hu, Ht1|].
  rewrite Hu in Hs2. split_and!.
  - unfold obj in *. rewrite cleanup_by_type_js, Ho2. done.
  - intros k. unfold stored in *. rewrite cleanup_by_type_js, Hs2. case_decide; [done|]. apply Hs1.
  - by rewrite cleanup_by_type_js.
  - intros k. by rewrite cleanup_by_type_js, Ht2, Ht1.
Qed.

Lemma CleanupJob_objs uuid s : fresh (CleanupJob files_ok uuid s).2 = fresh s.
Proof. unfold CleanupJob. by case_match. Qed.

(** The state in which the coordinator finds the job once its process has ended. *)
Definition after_kill (during : joblet → joblet) uuid p s : joblet :=
  if Pid (obj s p) >? 0 then during (emit [FKill uuid (Pid (obj s p))] s) else s.

(** What a stop of a running job ends with: a copy of the job as it was when the
    call began, marked as stopped, replaces whatever is stored. *)
Lemma StopJob_running during uuid p s :
  runs_at uuid p s → GetCleanupStatus uuid s = false →
  closed (js (after_kill during uuid p s)) = false →
  is_Some (tasks (js (after_kill during uuid p s)) !! uuid) →
  let s' := (StopJob files_ok during uuid s).2 in
  let q := fresh (after_kill during uuid p s) in
  closed (js s') = false ∧ is_Some (tasks (js s') !! uuid) ∧ stored uuid s' = Some q ∧
  obj s' q = with_status StatusStopped (DeepCopy (obj s p)) ∧
  (∀ r, r ≠ q → obj s' r = obj (after_kill during uuid p s) r).
Proof.
  intros (Hs & Hu & Hst & Ht & Hp) Hcl Hc1 Ht1. pose proof (stored_open _ _ _ Hs) as Hc.
  unfold StopJob. rewrite Job_stored_obj, Hs. cbn -[alloc CleanupJobWithProcess store_update].
  unfold Job.IsScheduled, Job.IsRunning, Job.IsRuntimeBuild.
  cbn -[alloc CleanupJobWithProcess store_update]. rewrite Hst, Hcl.
  rewrite (bool_decide_false (StatusRunning = StatusScheduled)), (bool_decide_true (StatusRunning = StatusRunning)),
    (bool_decide_false (""%string = JobTypeRuntimeBuild)) by done.
  cbn -[alloc CleanupJobWithProcess store_update].
  assert (∃ r s1, CleanupJobWithProcess files_ok during uuid (Pid (obj s p)) s = (r, s1) ∧
    js s1 = js (after_kill during uuid p s) ∧ fresh s1 = fresh (after_kill during uuid p s))
    as (r & s1 & E & Ejs & Ef).
  { unfold CleanupJobWithProcess. fold (after_kill during uuid p s).
    eexists _, _. split; [apply surjective_pairing|]. split; [apply CleanupJob_js|apply CleanupJob_objs]. }
  rewrite E. destruct (alloc (with_status StatusStopped (DeepCopy (obj s p))) s1) as [q s2] eqn:Ha.
  rewrite ?Ha.
  destruct (alloc_fields _ _ _ _ Ha) as (Hq & Hc2 & _ & Ht2 & Ho2 & Hoth & _).
  assert (Uuid (obj s2 q) = uuid) as Hu2 by by rewrite Ho2.
  destruct (store_update_stored q s2) as (Hc3 & Ho3 & Hs3 & Ht3 & _);
    [by rewrite Hc2, Ejs|by rewrite Hu2, Ht2, Ejs|].
  cbn -[store_update]. rewrite <- Ef, <- Hq. split_and!.
  - done.
  - by rewrite Ht3, Ht2, Ejs.
  - by rewrite Hs3, Hu2, decide_True.
  - by rewrite Ho3.
  - intros k Hk. unfold obj in *. by rewrite Ho3, Hoth, Ejs.
Qed.

(** A stop races with the monitor of the process it kills, and the last to write
    wins.  When the monitor is faster, its result is overwritten by the copy the
    stop took before: the job is STOPPED without an end time or exit code.  When
    the stop is faster, the job ends as FAILED with the code of the kill. *)
Theorem stop_races_monitor uuid p s code :
  runs_at uuid p s → EndTime (obj s p) = None → 0 < Pid (obj s p) →
  GetCleanupStatus uuid s = false →
  (∃ job, Job_ uuid (js (StopJob files_ok (monitor_end files_ok (Exited code) id p) uuid s).2) = Some job ∧
     Status job = StatusStopped ∧ EndTime job = None ∧ ExitCode job = ExitCode (obj s p)) ∧
  (∃ job, Job_ uuid (js (monitor_end files_ok (Exited code) id p
       (StopJob files_ok id uuid s).2)) = Some job ∧
     Status job = StatusFailed ∧ ExitCode job = code).
Proof.
  intros Hr He Hpid Hcl. pose proof Hr as (Hs & Hu & Hst & Ht & Hp).
  pose proof (stored_open _ _ _ Hs) as Hc.
  assert (E : ∀ d, after_kill d uuid p s = d (emit [FKill uuid (Pid (obj s p))] s)).
  { intros d. unfold after_kill. by rewrite (proj2 (Z.gtb_lt _ _) Hpid). }
  split.
  - destruct (monitor_end_stored id p (emit [FKill uuid (Pid (obj s p))] s) code)
      as (_ & _ & H1 & H2); [done|by rewrite <- Hu in Ht|].
    destruct (StopJob_running (monitor_end files_ok (Exited code) id p) uuid p s Hr Hcl)
      as (_ & _ & Hq & Hj & _); [by rewrite E|rewrite E; by apply H2|].
    eexists. rewrite Job_stored_obj, Hq. cbn -[StopJob]. rewrite Hj. done.
  - destruct (StopJob_running id uuid p s Hr Hcl) as (Hc1 & Ht1 & Hq & Hj & Hoth); [by rewrite E..|].
    rewrite E in Hoth. set (s1 := (StopJob files_ok id uuid s).2) in *.
    assert (obj s1 p = obj s p) as Hop by (rewrite Hoth; [done|cbn; lia]).
    destruct (monitor_end_stored id p s1 code) as (Ho & Hs2 & Hc2 & _); [done|by rewrite Hop, Hu|].
    eexists. rewrite Job_stored_obj, Hs2, Hop, Hu, decide_True by done.
    cbn -[monitor_end]. rewrite Ho. done.
Qed.

(** ** Runtime builds *)

Lemma CleanupJob_effects uuid s : GetCleanupStatus uuid s = false →
  effects (CleanupJob files_ok uuid s).2 = effects s ++ [FCgroup uuid; FGPUs uuid; FFiles uuid; FNetwork uuid] ∧
  activeCleanups (CleanupJob files_ok uuid s).2 = activeCleanups s.
Proof.
  unfold GetCleanupStatus, CleanupJob. intros H. rewrite H. cbn. rewrite <- !app_assoc.
  split; [done|]. to_prop. set_solver.
Qed.

Lemma CleanupSystem_effects uuid s : GetCleanupStatus uuid s = false →
  effects (CleanupJobSystemResourcesOnly uuid s).2 = effects s ++ [FCgroup uuid; FGPUs uuid].
Proof. unfold GetCleanupStatus, CleanupJobSystemResourcesOnly. intros ->. cbn. by rewrite <- app_assoc. Qed.

Lemma store_update_effects p s :
  effects (store_update p s) = effects s ∧ activeCleanups (store_update p s) = activeCleanups s.
Proof. done. Qed.

Lemma copy_standard j : Job.IsRuntimeBuild (DeepCopy j) = false.
Proof. done. Qed.

(** The type of a job does not survive the store.  Every job read back counts as a
    standard one, without working directory and uploads; so stopping a runtime
    build removes its files, although the code means to preserve the artifacts
    of a build and its own monitor, which has the original object, does. *)
Theorem build_type_lost during uuid p s code :
  runs_at uuid p s → Job.IsRuntimeBuild (obj s p) = true → GetCleanupStatus uuid s = false →
  (∀ s0, activeCleanups (during s0) = activeCleanups s0) →
  (∀ u job, Job_ u (js s) = Some job →
     Job.IsRuntimeBuild job = false ∧ WorkingDirectory job = ""%string ∧ Uploads job = []) ∧
  FFiles uuid ∈ effects (StopJob files_ok during uuid s).2 ∧
  effects (monitor_end files_ok (Exited code) id p s) = effects s ++ [FCgroup uuid; FGPUs uuid].
Proof.
  intros (Hs & Hu & Hst & Ht & Hp) Hb Hcl Hd. pose proof (stored_open _ _ _ Hs) as Hc. split_and!.
  - intros u job. rewrite Job_stored_obj. by intros (q & _ & ->)%fmap_Some.
  - unfold StopJob. rewrite Job_stored_obj, Hs. cbn -[alloc CleanupJobWithProcess store_update].
    unfold Job.IsScheduled, Job.IsRunning. cbn -[alloc CleanupJobWithProcess store_update Job.IsRuntimeBuild].
    rewrite copy_standard, Hst, Hcl. rewrite (bool_decide_false (StatusRunning = StatusScheduled)),
      (bool_decide_true (StatusRunning = StatusRunning)) by done.
    cbn -[alloc CleanupJobWithProcess store_update].
    destruct (CleanupJobWithProcess files_ok during uuid (Pid (obj s p)) s) as [r s1] eqn:E.
    destruct (alloc (with_status StatusStopped (DeepCopy (obj s p))) s1) as [q s2] eqn:Ha. rewrite ?Ha.
    destruct (alloc_fields _ _ _ _ Ha) as (_ & _ & _ & _ & _ & _ & He & _).
    cbn -[store_update]. destruct (store_update_effects q s2) as [-> _]. rewrite He.
    apply (f_equal snd) in E. cbn in E. rewrite <- E. unfold CleanupJobWithProcess.
    destruct (CleanupJob_effects uuid (if Pid (obj s p) >? 0 then during (emit [FKill uuid (Pid (obj s p))] s) else s))
      as [-> _]; [|set_solver].
    unfold GetCleanupStatus in *. case_match; [by rewrite Hd|done].
  - unfold monitor_end. set (j := final_job _ _ _).
    destruct (write_fields p j s) as (Hc1 & _ & Ht1 & Ho1 & _).
    destruct (store_update_stored p (write p j s)) as (_ & Ho2 & _ & _ & He2 & Ha2 & _);
      [by rewrite Hc1|by rewrite Ho1, Ht1, <- Hu in *|].
    unfold cleanup_by_type. rewrite Ho2, Ho1. unfold j at 1. cbn -[CleanupJobSystemResourcesOnly store_update].
    change (Job.IsRuntimeBuild (finished StatusFailed code (now s) (obj s p)))
      with (Job.IsRuntimeBuild (obj s p)). rewrite Hb, Hu.
    rewrite CleanupSystem_effects; [done|]. unfold GetCleanupStatus in *. done.
Qed.

(** ** The periodic clean-up *)

(** The attempts a clean-up makes, and the jobs a sweep cleaned up or tried to. *)
Definition attempts uuid : list effect := [FCgroup uuid; FGPUs uuid; FFiles uuid; FNetwork uuid].
Definition handled (r : result orphan_error (list string)) : list string :=
  match r with Ok cleaned => cleaned | Err (OErrors cleaned errors) => cleaned ++ errors.*1 | Err (OReadDir _) => [] end.

Section sweep.
Context (active : list string) (others : string → joblet → joblet).
Context (others_add : ∀ u s, effects s `prefix_of` effects (others u s)).
Implicit Types x : list string * list (string * life_error) * joblet.

Definition visited x : list string := x.1.1 ++ x.1.2.*1.

Lemma sweep_one_cases x u : let s := others u x.2 in let x' := sweep_one files_ok active others x u in
  (u ∈ active ∨ GetCleanupStatus u s = true) ∧ x' = (x.1, s) ∨
  u ∉ active ∧ effects x'.2 = effects s ++ attempts u ∧
    (files_ok u = true ∧ x'.1 = (x.1.1 ++ [u], x.1.2) ∨ files_ok u = false ∧ x'.1 = (x.1.1, x.1.2 ++ [(u, LCleanup)])).
Proof.
  destruct x as [[cleaned errors] s0]. cbn [fst snd]. unfold sweep_one. set (s := others u s0).
  destruct (bool_decide_reflect (u ∈ active)) as [Ha|Ha]; [by left; split; [left|]|]. cbn [orb].
  destruct (GetCleanupStatus u s) eqn:Es; [by left; split; [right|]|]. right. split; [done|].
  destruct (CleanupJob_effects u s Es) as [E _]. unfold GetCleanupStatus in Es. unfold CleanupJob in *. rewrite Es in *. cbn in *.
  destruct (files_ok u); cbn; (split; [exact E|]); [by left|by right].
Qed.

Record swept (dirs : list string) x x' : Prop := {
  sw_new : ∀ u, u ∈ visited x' → u ∈ visited x ∨ (u ∈ dirs ∧ u ∉ active ∧ attempts u `sublist_of` effects x'.2);
  sw_old : ∀ u, u ∈ visited x → u ∈ visited x';
  sw_all : ∀ u, u ∈ dirs → u ∉ active → (∀ s, GetCleanupStatus u (others u s) = false) → u ∈ visited x';
  sw_more : effects x.2 `prefix_of` effects x'.2;
  sw_ok : ∀ u, u ∈ x'.1.1 → u ∈ x.1.1 ∨ files_ok u = true;
  sw_err : ∀ u e, (u, e) ∈ x'.1.2 → (u, e) ∈ x.1.2 ∨ files_ok u = false;
  sw_quiet : (∀ u s, others u s = s) → ∃ es, effects x'.2 = effects x.2 ++ es ∧ ∀ e, e ∈ es → ∃ u, u ∈ visited x' ∧ e ∈ attempts u;
}.

Lemma swept_one x u : swept [u] x (sweep_one files_ok active others x u).
Proof.
  pose proof (sweep_one_cases x u) as H. cbn zeta in H. set (x' := sweep_one files_ok active others x u) in *.
  destruct H as [[Hskip E]|(Ha & Ee & Hc)].
  - assert (Hv : x'.1 = x.1) by by rewrite E. unfold visited. split; unfold visited; rewrite ?Hv; try tauto.
    + intros v ->%list_elem_of_singleton Hn Hq. destruct Hskip as [?|Hs]; [done|]. by rewrite Hq in Hs.
    + rewrite E. apply others_add.
    + intros Hq. exists []. rewrite E, app_nil_r. cbn [snd]. rewrite Hq. split; [done|]. by intros e ?%elem_of_nil.
  - assert (Hvis : u ∈ visited x' ∧ ∀ v, v ∈ visited x' ↔ v ∈ visited x ∨ v = u).
    { unfold visited. destruct Hc as [[_ ->]|[_ ->]]; cbn [fst snd]; rewrite ?fmap_app; set_solver. }
    destruct Hvis as [Hu Hv]. split.
    + intros v [?| ->]%Hv; [by left|right]. split; [left|]. split; [done|]. rewrite Ee. by apply sublist_inserts_l.
    + intros v ?. apply Hv. by left.
    + intros v ->%list_elem_of_singleton _ _. done.
    + etrans; [apply (others_add u)|]. rewrite Ee. by eexists.
    + intros v Hin. destruct Hc as [[Hf E]|[Hf E]]; rewrite E in Hin; cbn [fst] in Hin; [|by left].
      apply elem_of_app in Hin as [?| ->%list_elem_of_singleton]; [by left|by right].
    + intros v e Hin. destruct Hc as [[Hf E]|[Hf E]]; rewrite E in Hin; cbn [snd] in Hin; [by left|].
      apply elem_of_app in Hin as [?|[= -> ->]%list_elem_of_singleton]; [by left|by right].
    + intros Hq. exists (attempts u). rewrite Ee, Hq. split; [done|]. intros e He. by exists u.
Qed.

Lemma swept_app d1 d2 x y z : swept d1 x y → swept d2 y z → swept (d1 ++ d2) x z.
Proof.
  intros H1 H2. split.
  - intros u [Hu|(Hd & Ha & Hs)]%(sw_new _ _ _ H2); [|right; rewrite elem_of_app; tauto].
    apply (sw_new _ _ _ H1) in Hu as [?|(Hd & Ha & Hs)]; [by left|right]. rewrite elem_of_app. split; [by left|]. split; [done|].
    etrans; [exact Hs|]. destruct (sw_more _ _ _ H2) as [k ->]. by apply sublist_inserts_r.
  - intros u Hu. by apply (sw_old _ _ _ H2), (sw_old _ _ _ H1).
  - intros u [Hu|Hu]%elem_of_app Ha Hs; [apply (sw_old _ _ _ H2); by apply (sw_all _ _ _ H1)|by apply (sw_all _ _ _ H2)].
  - etrans; [apply (sw_more _ _ _ H1)|apply (sw_more _ _ _ H2)].
  - intros u [Hu|?]%(sw_ok _ _ _ H2); [by apply (sw_ok _ _ _ H1)|by right].
  - intros u e [Hu|?]%(sw_err _ _ _ H2); [by apply (sw_err _ _ _ H1)|by right].
  - intros Hq. destruct (sw_quiet _ _ _ H1 Hq) as (e1 & E1 & F1), (sw_quiet _ _ _ H2 Hq) as (e2 & E2 & F2).
    exists (e1 ++ e2). rewrite E2, E1, <- app_assoc. split; [done|]. intros e [He|He]%elem_of_app; [|by apply F2].
    destruct (F1 e He) as (u & Hu & Hin). exists u. split; [by apply (sw_old _ _ _ H2)|done].
Qed.

Lemma sweep_all dirs x : swept dirs x (foldl (sweep_one files_ok active others) x dirs).
Proof.
  revert x. induction dirs as [|d dirs IH]; intros x.
  { split; cbn [foldl]; try tauto; [by intros u ?%elem_of_nil|done|]. intros _. exists []. rewrite app_nil_r. split; [done|]. by intros e ?%elem_of_nil. }
  apply (swept_app [d] dirs _ _ _ (swept_one x d) (IH _)).
Qed.

Lemma CleanupOrphaned_swept entries s : let '(r, s') := CleanupOrphanedResources files_ok active entries others s in
  match entries with
  | Err e => r = Err (OReadDir e) ∧ s' = s
  | Ok dirs => ∃ cleaned errors, r = (match errors with [] => Ok cleaned | _ => Err (OErrors cleaned errors) end) ∧
      swept dirs ([], [], s) (cleaned, errors, s') ∧ handled r = cleaned ++ errors.*1
  end.
Proof.
  unfold CleanupOrphanedResources. destruct entries as [dirs|e]; [|done].
  pose proof (sweep_all dirs ([], [], s)) as H. destruct (foldl _ _ dirs) as [[cleaned errors] s']. exists cleaned, errors.
  split; [done|]. split; [done|]. destruct errors; cbn; by rewrite ?app_nil_r.
Qed.
End sweep.

Lemma active_stored s : closed (js s) = false → (∀ k p, stored k s = Some p → Uuid (obj s p) = k) →
  ∀ u, u ∈ getActiveJobUUIDs s ↔ is_Some (stored u s).
Proof.
  intros Hc Hk u. unfold getActiveJobUUIDs, ListJobs. rewrite Hc, <- list_fmap_compose, list_elem_of_fmap. split.
  - intros (p & -> & Hin). apply b_list_spec in Hin as [k Hp]. cbn in Hp.
    assert (stored k s = Some p) as Hs by (unfold stored; by rewrite Hc).
    cbn. change (objs (js s) p) with (obj s p). rewrite (Hk _ _ Hs). eauto.
  - intros [p Hs]. exists p. split; [symmetry; by apply Hk|]. apply b_list_spec. exists u.
    unfold stored in Hs. by rewrite Hc in Hs.
Qed.


(** What [updateJobRunning] leaves. *)
Lemma updateJobRunning_stored p pid s : closed (js s) = false →
  is_Some (tasks (js s) !! Uuid (obj s p)) →
  let s' := updateJobRunning p pid s in
  closed (js s') = false ∧ stored (Uuid (obj s p)) s' = Some p ∧
  Status (obj s' p) = StatusRunning ∧ effects s' = effects s.
Proof.
  intros Hc Ht. unfold updateJobRunning. set (j := with_run _ _ _ _ _).
  destruct (write_fields p j s) as (Hc1 & _ & Ht1 & Ho1 & _).
  destruct (store_update_stored p (write p j s)) as (Hc2 & Ho2 & Hs2 & _ & He2 & _);
    [by rewrite Hc1|by rewrite Ho1, Ht1|].
  rewrite He2, Ho2, Ho1. split_and!; [done| |done|done].
  by rewrite Hs2, Ho1, decide_True.
Qed.

(** One directory, while nobody else acts. *)
Definition clean_round (uuid : string) s : joblet := (periodic_cleanup files_ok (Ok [uuid]) id (λ _, id) s).2.

Lemma clean_round_orphan uuid s : closed (js s) = false → (∀ k p, stored k s = Some p → Uuid (obj s p) = k) →
  stored uuid s = None → GetCleanupStatus uuid s = false →
  js (clean_round uuid s) = js s ∧ ∃ es, effects (clean_round uuid s) = effects s ++ es ∧ FFiles uuid ∈ es.
Proof.
  intros Hc Hk Hn Hcl. unfold clean_round, periodic_cleanup, CleanupOrphanedResources. cbn [foldl id].
  unfold sweep_one at 1 2. unfold id. cbv beta iota. rewrite bool_decide_eq_false_2, Hcl by (rewrite active_stored, Hn by done; by intros [??]). cbn [orb].
  pose proof (CleanupJob_js uuid s) as Hj. destruct (CleanupJob_effects uuid s Hcl) as [He _].
  destruct (CleanupJob files_ok uuid s) as [[[]|e] s']; cbn in *; (split; [done|]); eexists; (split; [exact He|]); set_solver.
Qed.

(** The periodic clean-up can hit a job that is starting: a job is registered only
    after its resources are set up, and a clean-up that runs in between finds a
    directory without a job and removes it; the job is then started as if
    nothing had happened. *)
Theorem cleanup_races_start engine uuid p s pid :
  closed (js s) = false → (∀ k q, stored k s = Some q → Uuid (obj s q) = k) →
  Uuid (obj s p) = uuid → stored uuid s = None → GetCleanupStatus uuid s = false →
  (∀ j, engine j = (j, Some (Some pid))) →
  ∃ s' es, executeJob files_ok true (clean_round uuid) engine p s = (Ok p, s') ∧
    effects s' = effects s ++ FWorkspace uuid :: es ∧ FFiles uuid ∈ es ∧
    Status <$> Job_ uuid (js s') = Some StatusRunning.
Proof.
  intros Hc Hk Hu Hn Hcl Heng. unfold executeJob. cbn -[clean_round store_create updateJobRunning].
  rewrite Hu. set (s0 := emit [FWorkspace uuid] s).
  destruct (clean_round_orphan uuid s0 Hc Hk Hn Hcl) as (Ejs & es & He & Hf).
  set (s1 := clean_round uuid s0) in *.
  assert (obj s1 p = obj s p) as Ho1 by (unfold obj; by rewrite Ejs).
  clearbody s1.
  destruct (store_create_stored p s1) as (Hc2 & Ho2 & _ & Ht2 & He2 & _); [by rewrite Ejs|].
  set (s2 := store_create p s1) in *. rewrite Heng. clearbody s2.
  destruct (write_fields p (obj s2 p) s2) as (Hc3 & _ & Ht3 & Ho3 & _).
  assert (effects (write p (obj s2 p) s2) = effects s2) as He3 by done.
  set (s3 := write p (obj s2 p) s2) in *. clearbody s3.
  assert (Uuid (obj s3 p) = uuid) as Hu3 by by rewrite Ho3, Ho2, Ho1.
  destruct (updateJobRunning_stored p (Some pid) s3) as (Hc4 & Hs4 & Hst4 & He4);
    [by rewrite Hc3|rewrite Ht3, Hu3; apply Ht2; left; by rewrite Ho1|].
  set (s4 := updateJobRunning p (Some pid) s3) in *. clearbody s4.
  set (s5 := if negb (bool_decide (CgroupPath (obj s4 p) = ""%string)) && (Pid (obj s4 p) >? 0)
             then emit [FAddToCgroup (CgroupPath (obj s4 p)) (Pid (obj s4 p))] s4 else s4).
  rewrite Hu3 in Hs4.
  assert (js s5 = js s4 ∧ ∃ es', effects s5 = effects s4 ++ es') as (Ej & es' & He5).
  { unfold s5. case_match; [split; [done|]; eexists; done|]. split; [done|]. exists []. by rewrite app_nil_r. }
  exists s5, (es ++ es'). split; [reflexivity|]. clearbody s5. split; [|split].
  - rewrite He5, He4. rewrite He3, He2, He. unfold s0. cbn.
    by rewrite <- !app_assoc.
  - apply elem_of_app. by left.
  - rewrite Ej, Job_stored_obj, Hs4. cbn. by rewrite Hst4.
Qed.

(** ** Deleting everything *)

(** One deletion, by the status of the job. *)
Definition refused (j : Job) : Prop := Status j = StatusInitializing.
Definition skipped_ (j : Job) : Prop := Job.IsRunning j || Job.IsScheduled j = true.

Lemma DeleteJob_case uuid s j : len uuid = 36 → Job_ uuid (js s) = Some j → ¬ skipped_ j →
  (refused j ∧ DeleteJob files_ok uuid s = (Err (LStore (EJobRunning (Uuid j))), s)) ∨
  (¬ refused j ∧ ∃ s', DeleteJob files_ok uuid s = (Ok tt, s') ∧
     closed (js s') = closed (js s) ∧ (∀ q, obj s' q = obj s q) ∧
     (∀ k, stored k s' = if decide (k = uuid) then None else stored k s)).
Proof.
  intros Hlen Hj Hns. unfold skipped_ in Hns. apply not_true_is_false in Hns.
  unfold DeleteJob. rewrite Hj, Hns.
  pose proof (full_uuid_resolves uuid (js s) Hlen) as Hr.
  destruct (decide (refused j)) as [Href|Href].
  - left. split; [done|]. erewrite DeleteJob_refused; [|exact Hr|exact Hj|by right].
    cbn -[set_js]. by rewrite set_js_same.
  - right. split; [done|].
    assert (Status j ≠ StatusRunning) as Hnr.
    { intros E. unfold Job.IsRunning in Hns. rewrite E in Hns. by rewrite bool_decide_true in Hns. }
    destruct (DeleteJob_succeeds (now s) uuid (js s) uuid j Hr Hj Hnr Href) as (Hv & x & Hx).
    rewrite Hx. destruct (DeleteJob_ok _ _ _ _ _ _ Hr Hj Hv Hx) as (Ho & _ & _ & Hc & Hd & _).
    assert (∀ y, js (if Job.IsRuntimeBuild j then CleanupJobSystemResourcesOnly uuid y
      else CleanupJob files_ok uuid y).2 = js y) as Ejs
      by (intros y; case_match; [apply CleanupJobSystem_js|apply CleanupJob_js]).
    eexists. split; [done|]. unfold obj, stored.
    match goal with |- context [(if ?b then ?c else ?d).2] => set (s' := (if b then c else d).2) end.
    assert (js s' = x) as -> by (unfold s'; case_match; by rewrite ?CleanupJobSystem_js, ?CleanupJob_js).
    split_and!; [done|by rewrite Ho|]. intros k. rewrite Hc. cbn in Hd. injection Hd as <-.
    case_decide as Hk; [|by rewrite lookup_delete_ne]. subst k.
    destruct (closed (js s)); [done|apply lookup_delete_eq].
Qed.

(** What becomes of a job when everything is deleted. *)
Inductive fate := FSkip | FRefuse | FDelete.
#[export] Instance fate_eq_dec : EqDecision fate.
Proof. solve_decision. Defined.

Definition fate_of (j : Job) : fate :=
  if Job.IsRunning j || Job.IsScheduled j then FSkip
  else if decide (Status j = StatusInitializing) then FRefuse else FDelete.

Definition fated (f : fate) (l : list Job) : list Job := filter (λ j, fate_of j = f) l.
Definition count (f : fate) (l : list Job) : Z := Z.of_nat (length (fated f l)).

Lemma count_cons f j l : count f (j :: l) = (if decide (fate_of j = f) then 1 else 0) + count f l.
Proof. unfold count, fated. rewrite filter_cons. case_decide; cbn; lia. Qed.

Lemma DeleteJobLogs_stored persist id s :
  let s' := set_js (DeleteJobLogs persist id (js s)).2 s in
  closed (js s') = closed (js s) ∧ (∀ q, obj s' q = obj s q) ∧ (∀ k, stored k s' = stored k s).
Proof.
  unfold obj, stored, set_js. cbn. unfold DeleteJobLogs, completeTaskCleanup.
  destruct (ensureNotClosed _); [|done]. destruct (resolveJobUuid _ _) as [u|]; [|done].
  destruct (tasks (js s) !! u), persist as [call|]; try destruct (call u) as [[]|]; done.
Qed.

(** The jobs of a list are those the store has. *)
Definition listed (s : joblet) (l : list Job) : Prop :=
  NoDup (Uuid <$> l) ∧ ∀ j, j ∈ l → len (Uuid j) = 36 ∧ Job_ (Uuid j) (js s) = Some j.

Lemma listed_tail s s' j l : listed s (j :: l) → (∀ q, obj s' q = obj s q) →
  (∀ k, k ≠ Uuid j → stored k s' = stored k s) → listed s' l.
Proof.
  intros [Hnd Hl] Ho Hs. cbn in Hnd. apply NoDup_cons in Hnd as [Hn Hnd]. split; [done|].
  intros i Hi. destruct (Hl i) as [H1 H2]; [by right|]. split; [done|]. rewrite <- H2, !Job_stored_obj.
  rewrite Hs; [|intros E; apply Hn; rewrite <- E; by apply list_elem_of_fmap_2].
  destruct (stored (Uuid i) s); cbn; [|done]. by rewrite Ho.
Qed.

Lemma fate_of_spec j :
  match fate_of j with
  | FSkip => Job.IsRunning j || Job.IsScheduled j = true
  | FRefuse => Job.IsRunning j || Job.IsScheduled j = false ∧ refused j
  | FDelete => Job.IsRunning j || Job.IsScheduled j = false ∧ ¬ refused j
  end.
Proof.
  unfold fate_of, refused. destruct (Job.IsRunning j || Job.IsScheduled j); [done|].
  by destruct (decide (Status j = StatusInitializing)).
Qed.

Lemma fate_not_skipped j : fate_of j ≠ FSkip → ¬ skipped_ j.
Proof. unfold fate_of, skipped_. intros H E. by rewrite E in H. Qed.

Lemma delete_all_loop persist l d k f s : closed (js s) = false → listed s l →
  ∃ s', foldl (delete_one files_ok persist) ((d, k, f), s) l =
      ((d + count FDelete l, k + count FSkip l, f + count FRefuse l), s') ∧
    closed (js s') = false ∧ (∀ q, obj s' q = obj s q) ∧
    (∀ u, stored u s' = if decide (u ∈ (Uuid <$> fated FDelete l)) then None else stored u s).
Proof.
  revert d k f s. induction l as [|j l IH]; intros d k f s Hc Hl.
  { exists s. split_and!; [|done..|].
    - cbn. by rewrite !Z.add_0_r.
    - intros u. rewrite decide_False; [done|]. by intros ?%elem_of_nil. }
  destruct Hl as [Hnd Hl]. destruct (Hl j) as [Hlen Hj]; [left|].
  assert (listed s (j :: l)) as Hlist by by split.
  rewrite !count_cons. cbn [foldl]. unfold delete_one at 2. pose proof (fate_of_spec j) as Hfate.
  unfold fated. rewrite filter_cons. destruct (fate_of j) eqn:Hf.
  - rewrite Hfate. destruct (IH d (k + 1) f s Hc) as (s' & E & Hc' & Ho & Hs); [by eapply listed_tail|].
    exists s'. rewrite E. split_and!; [|done|done|].
    + repeat (case_decide; try done). apply (f_equal (λ x, (x, s'))).
      repeat apply (f_equal2 pair); lia.
    + intros u. by rewrite Hs.
  - destruct Hfate as [-> Href]. destruct (DeleteJob_case (Uuid j) s j Hlen Hj) as [[_ E]|(Hnr & _)];
      [by apply fate_not_skipped; rewrite Hf| |done]. rewrite E.
    destruct (IH d k (f + 1) s Hc) as (s' & E' & Hc' & Ho & Hs); [by eapply listed_tail|].
    exists s'. rewrite E'. split_and!; [|done|done|].
    + repeat (case_decide; try done). apply (f_equal (λ x, (x, s'))).
      repeat apply (f_equal2 pair); lia.
    + intros u. by rewrite Hs.
  - destruct Hfate as [-> Hnr].
    destruct (DeleteJob_case (Uuid j) s j Hlen Hj) as [[Href _]|(_ & s1 & E & Hc1 & Ho1 & Hs1)];
      [by apply fate_not_skipped; rewrite Hf|done|]. rewrite E.
    destruct (DeleteJobLogs_stored persist (Uuid j) s1) as (Hc2 & Ho2 & Hs2).
    set (s2 := set_js _ s1) in *.
    destruct (IH (d + 1) k f s2) as (s' & E' & Hc' & Ho & Hs); [by rewrite Hc2, Hc1| |].
    { eapply listed_tail; [exact Hlist|intros q; by rewrite Ho2|].
      intros u Hu. by rewrite Hs2, Hs1, decide_False. }
    exists s'. rewrite E'. split_and!; [|done|intros q; by rewrite Ho, Ho2|].
    + repeat (case_decide; try done). apply (f_equal (λ x, (x, s'))).
      repeat apply (f_equal2 pair); lia.
    + intros u. rewrite Hs, Hs2, Hs1. unfold fated. cbn.
      destruct (decide (u ∈ Uuid <$> filter (λ j, fate_of j = FDelete) l)).
      { rewrite decide_True; [done|]. by right. }
      destruct (decide (u = Uuid j)) as [->|].
      { rewrite decide_True; [done|]. left. }
      rewrite decide_False; [done|]. by intros [?|?]%elem_of_cons.
Qed.

Lemma ListJobs_listed s : closed (js s) = false →
  (∀ k p, stored k s = Some p → Uuid (obj s p) = k ∧ len k = 36) →
  (∀ j, DeepCopy (DeepCopy j) = DeepCopy j) → listed s (ListJobs (js s)).
Proof.
  intros Hc Hk Hdc.
  assert (Hget : ∀ k p, jobStore (js s) !! k = Some p → Uuid (obj s p) = k ∧ len k = 36)
    by (intros k p H; apply Hk; unfold stored; by rewrite Hc).
  unfold ListJobs. rewrite Hc. split.
  - rewrite <- list_fmap_compose. cbn.
    assert (Uuid ∘ (DeepCopy ∘ objs (js s)) <$> (map_to_list (jobStore (js s))).*2 =
      (map_to_list (jobStore (js s))).*1) as ->; [|apply NoDup_fst_map_to_list].
    rewrite <- list_fmap_compose. apply list_fmap_ext. intros i [k p] Hi. cbn.
    apply list_elem_of_lookup_2, elem_of_map_to_list in Hi. by apply Hget.
  - intros j (p & -> & Hin)%list_elem_of_fmap. apply b_list_spec in Hin as [k Hp]. cbn in Hp.
    destruct (Hget _ _ Hp) as [Hu Hlen]. cbn. unfold obj in Hu. rewrite Hu. split; [done|].
    unfold Job_. rewrite Hc. cbn. by rewrite Hp.
Qed.

(** Deleting everything deletes exactly the jobs that are not running, scheduled
    or initialising: the counts it reports are those of the store, no other job
    is touched, and it fails exactly when an initialising job is in the way,
    having deleted the others all the same. *)
Theorem DeleteAllJobs_spec persist s :
  closed (js s) = false →
  (∀ k p, stored k s = Some p → Uuid (obj s p) = k ∧ len k = 36) →
  let all := ListJobs (js s) in
  ∃ s', DeleteAllJobs files_ok persist s =
      (if count FRefuse all >? 0 then Err (LDeleteAll (count FRefuse all))
       else Ok (count FDelete all, count FSkip all), s') ∧
    ∀ u, Job_ u (js s') =
      match Job_ u (js s) with
      | Some j => if decide (fate_of j = FDelete) then None else Some j
      | None => None
      end.
Proof.
  intros Hc Hk all. destruct (ListJobs_listed s Hc Hk ltac:(done)) as [Hnd Hl].
  destruct (delete_all_loop persist all 0 0 0 s Hc (conj Hnd Hl)) as (s' & E & Hc' & Ho & Hs).
  exists s'. unfold DeleteAllJobs. fold all. rewrite E. rewrite !Z.add_0_l. split; [by case_match|].
  intros u. rewrite !Job_stored_obj, Hs. destruct (stored u s) as [p|] eqn:Hp; cbn; [|by case_decide].
  destruct (Hk _ _ Hp) as [Hu Hlen].
  assert (DeepCopy (obj s p) ∈ all) as Hin.
  { unfold all, ListJobs. rewrite Hc. apply list_elem_of_fmap. exists p. split; [done|].
    apply b_list_spec. exists u. unfold stored in Hp. by rewrite Hc in Hp. }
  destruct (decide (fate_of (DeepCopy (obj s p)) = FDelete)) as [Hf|Hf].
  - rewrite decide_True; [done|]. apply list_elem_of_fmap. exists (DeepCopy (obj s p)).
    split; [done|]. unfold fated. by apply list_elem_of_filter.
  - rewrite decide_False; [cbn; by rewrite Ho|]. intros (j & Ej & Hj)%list_elem_of_fmap.
    apply list_elem_of_filter in Hj as [Hfj Hj]. destruct (Hl j Hj) as [_ Hjj].
    rewrite Job_stored_obj, <- Ej, Hp in Hjj. cbn in Hjj. injection Hjj as <-. done.
Qed.
End laws.

(** ** Concrete states *)

(** A running runtime build, a scheduled job and, not yet registered, a third one. *)
Definition demo_mem (p : nat) : Job :=
  match p with
  | O => with_run StatusRunning 77 0 None
           {| Uuid := u1; Command := "make"; Args := []; Type_ := JobTypeRuntimeBuild;
              Limits := NewResourceLimits; CgroupPath := ""; Status := StatusRunning; Pid := 0;
              StartTime := 1; EndTime := None; ScheduledTime := None; ExitCode := 0; Network := "";
              Volumes := []; Runtime := ""; WorkingDirectory := "/w"; Uploads := [];
              Environment_ := ∅; SecretEnvironment := ∅; GPUIndices := []; GPUMIGUUIDs := [];
              GPUCount := 0; GPUMemoryMB := 0; NodeId := ""; Timeout := 0; cache := empty_cache |}
  | S O => blank_job u2 StatusScheduled (Some 50)
  | _ => blank_job "starting" StatusInitializing None
  end.

Definition demo0 : joblet := {|
  js := NewJobStorer demo_mem true true; fresh := 10%nat; queued := [u2]; activeCleanups := ∅;
  effects := []; now := 100 |}.
Definition demo : joblet := store_create 1 (store_create 0 demo0).
Definition all_ok (_ : string) : bool := true.

Lemma demo_runs : runs_at u1 0 demo.
Proof. split_and!; [vm_compute; reflexivity..| |cbn; lia]. vm_compute. eauto. Qed.

Lemma demo_stored k p : stored k demo = Some p →
  (k = u1 ∧ p = 0%nat) ∨ (k = u2 ∧ p = 1%nat).
Proof.
  assert (closed (js demo) = false ∧ jobStore (js demo) = <[u2 := 1%nat]> {[u1 := 0%nat]}) as [Hc Hs]
    by (split; vm_compute; reflexivity).
  unfold stored. rewrite Hc, Hs, lookup_insert_Some, lookup_singleton_Some. naive_solver.
Qed.

Lemma demo_keys k p : stored k demo = Some p → Uuid (obj demo p) = k ∧ len k = 36.
Proof. intros [[-> ->]|[-> ->]]%demo_stored; split; vm_compute; reflexivity. Qed.

Lemma failed_setup_sticks_witness :
  ∃ s' job', executeScheduledJob all_ok false id (λ j, (j, None)) u2 demo = (Err LSetup, s') ∧
    Job_ u2 (js s') = Some job' ∧ Status job' = StatusInitializing.
Proof.
  destruct (failed_setup_sticks all_ok id (λ j, (j, None)) u2 demo (DeepCopy (demo_mem 1)))
    as (s' & job' & H1 & H2 & H3 & _); [vm_compute; reflexivity..| |eauto].
  vm_compute. eauto.
Defined.

Lemma stop_races_monitor_witness :
  ∃ job, Job_ u1 (js (monitor_end all_ok (Exited 137) id 0 (StopJob all_ok id u1 demo).2)) = Some job ∧
    Status job = StatusFailed ∧ ExitCode job = 137.
Proof.
  apply (stop_races_monitor all_ok u1 0 demo 137 demo_runs); vm_compute; reflexivity.
Defined.

Lemma build_type_lost_witness : FFiles u1 ∈ effects (StopJob all_ok id u1 demo).2.
Proof.
  apply (build_type_lost all_ok id u1 0 demo 1 demo_runs); [vm_compute; reflexivity..|done].
Defined.

(** Another goroutine registers the job whose directory comes next. *)
Definition registers (uuid : string) (s : joblet) : joblet := if bool_decide (uuid = "starting"%string) then store_create 2 s else s.


(** It is cleaned up although the store has it by then. *)
Example registered_during_cleanup : let x := periodic_cleanup all_ok (Ok ["starting"%string]) id registers demo in
  x.1 = Ok ["starting"%string] ∧ (Status <$> Job_ "starting" (js x.2)) = Some StatusInitializing ∧ FFiles "starting" ∈ effects x.2.
Proof.
  cbv zeta. split; [vm_compute; reflexivity|]. split; [vm_compute; reflexivity|].
  assert (E : effects (periodic_cleanup all_ok (Ok ["starting"%string]) id registers demo).2 = effects demo ++ attempts "starting") by (vm_compute; reflexivity).
  rewrite E. apply elem_of_app. right. unfold attempts. do 2 right. left.
Qed.

Lemma cleanup_races_start_witness :
  ∃ s' es, executeJob all_ok true (clean_round all_ok "starting") (λ j, (j, Some (Some 5))) 2 demo
      = (Ok 2%nat, s') ∧
    effects s' = effects demo ++ FWorkspace "starting" :: es ∧ FFiles "starting" ∈ es.
Proof.
  destruct (cleanup_races_start all_ok (λ j, (j, Some (Some 5))) "starting" 2 demo 5) as (s' & es & H1 & H2 & H3 & _);
    [vm_compute; reflexivity|intros k p H; by apply demo_keys|vm_compute; reflexivity..|done|eauto].
Defined.

Lemma DeleteAllJobs_spec_witness :
  ∃ s', DeleteAllJobs all_ok None demo = (Ok (0, 2), s') ∧ Job_ u1 (js s') = Job_ u1 (js demo).
Proof.
  destruct (DeleteAllJobs_spec all_ok None demo) as (s' & H1 & H2);
    [vm_compute; reflexivity|intros k p H; by apply demo_keys|].
  exists s'. split; [rewrite H1; vm_compute; reflexivity|]. rewrite H2. vm_compute. reflexivity.
Defined.
