(* ===== verification/Execution.v ===== *)
(** * Starting a job's process (internal/joblet/core/execution/coordinator.go and
    gpu_service.go)

    The coordinator acquires an isolated environment, a workspace, GPUs, a network
    address and a process, in this order, over the GPU manager of Gpu.v and the
    network store of NetworkStore.v, and gives back what it has when a later step
    fails.  What the host answers at each step is an argument; what is done to
    the host is a trace. *)

From S2P Require Import Prelude GoStrings Values Paths Job KeyStore IPNet Gpu NetworkStore.
From Stdlib Require Import Ascii.

Local Open Scope Z_scope.

(** ** State *)

Inductive host_op :=
| HIsolate (uuid : string) (builder : bool) | HDestroy (uuid : string)
| HWorkspace (uuid : string) | HRemoveWorkspace (uuid : string)
| HLaunch (uuid : string) (pid : Z) | HNamespace (uuid : string) (pid : Z) | HReady (uuid : string).

(** What the host answers.  [a_order]: the order in which the range over the GPUs
    visits them; [a_used]: the memory query of a release; [a_cuda]: the verifier,
    when it is available; [a_cudaPaths]: the CUDA directories found. *)
Record answers := {
  a_isolate : bool;
  a_workspace : bool;
  a_order : list GPU;
  a_used : Z → result string Z;
  a_cuda : option (list Z → bool);
  a_cudaPaths : list string;
  a_cudaEnv : string → list (string * string);
  a_launch : option Z;
  a_ready : bool;
  a_now : Z;
}.

Inductive exec_error :=
| EIsolate | EWorkspace | EGPUDisabled (n : Z) | EGPU (e : gpu_error) | ECuda
| ENetwork (e : net_error) | ELaunch | EReadyFile.

Section execution.
Context `{!SortSlice} `{!IPv6Text} {NS AS : Type}.
Context `{!Backend NS NetworkConfig} `{!Backend AS JobNetworkAllocation}.

(** [src/internal/joblet/core/execution/coordinator.go ExecutionCoordinator] *)
Record exec_state := {
  gm : Manager;
  net : adapter NS AS;
  host : list host_op;
}.

Definition set_gm (m : Manager) (s : exec_state) : exec_state :=
  {| gm := m; net := net s; host := host s |}.
Definition set_net (a : adapter NS AS) (s : exec_state) : exec_state :=
  {| gm := gm s; net := a; host := host s |}.
Definition act (op : host_op) (s : exec_state) : exec_state :=
  {| gm := gm s; net := net s; host := host s ++ [op] |}.

Definition with_gpus (indices : list Z) (migs : list string) (j : Job) : Job := {|
  Uuid := Uuid j; Command := Command j; Args := Args j; Type_ := Type_ j; Limits := Limits j;
  CgroupPath := CgroupPath j; Status := Status j; Pid := Pid j; StartTime := StartTime j;
  EndTime := EndTime j; ScheduledTime := ScheduledTime j; ExitCode := ExitCode j;
  Job.Network := Job.Network j; Volumes := Volumes j; Runtime := Runtime j;
  WorkingDirectory := WorkingDirectory j; Uploads := Uploads j;
  Environment_ := Environment_ j; SecretEnvironment := SecretEnvironment j;
  Job.GPUIndices := indices; GPUMIGUUIDs := migs; Job.GPUCount := Job.GPUCount j;
  Job.GPUMemoryMB := Job.GPUMemoryMB j; NodeId := NodeId j; Timeout := Timeout j; cache := cache j;
|}.

Definition with_env (env : gmap string string) (j : Job) : Job := {|
  Uuid := Uuid j; Command := Command j; Args := Args j; Type_ := Type_ j; Limits := Limits j;
  CgroupPath := CgroupPath j; Status := Status j; Pid := Pid j; StartTime := StartTime j;
  EndTime := EndTime j; ScheduledTime := ScheduledTime j; ExitCode := ExitCode j;
  Job.Network := Job.Network j; Volumes := Volumes j; Runtime := Runtime j;
  WorkingDirectory := WorkingDirectory j; Uploads := Uploads j;
  Environment_ := env; SecretEnvironment := SecretEnvironment j;
  Job.GPUIndices := Job.GPUIndices j; GPUMIGUUIDs := GPUMIGUUIDs j; Job.GPUCount := Job.GPUCount j;
  Job.GPUMemoryMB := Job.GPUMemoryMB j; NodeId := NodeId j; Timeout := Timeout j; cache := cache j;
|}.

(** ** The GPU service *)

(** The job's indices are converted to 32 bits.
    [src/internal/joblet/core/execution/gpu_service.go GPUService.AllocateGPU] *)
Definition AllocateGPU (w : answers) (j : Job) (s : exec_state)
    : result exec_error (option GPUAllocation) * Job * exec_state :=
  if negb (IsEnabled (gm s)) then
    if HasGPURequirement j then (Err (EGPUDisabled (Job.GPUCount j)), j, s) else (Ok None, j, s)
  else if negb (HasGPURequirement j) then (Ok None, j, s)
  else match AllocateGPUs (a_order w) (a_now w) (Uuid j) (Job.GPUCount j) (Job.GPUMemoryMB j) (gm s) with
  | Err e => (Err (EGPU e), j, s)
  | Ok (al, m) =>
      let j' := with_gpus (wrap32 <$> Gpu.GPUIndices al) (MIGUUIDs al) j in
      let usable := match a_cuda w with Some check => check (Gpu.GPUIndices al) | None => true end in
      if usable then (Ok (Some al), j', set_gm m s)
      else (Err ECuda, j', set_gm (ReleaseGPUs (a_used w) (Uuid j) m) s)
  end.

(** [src/internal/joblet/core/execution/gpu_service.go GPUService.ReleaseGPU] *)
Definition ReleaseGPU (w : answers) (uuid : string) (s : exec_state) : exec_state :=
  if negb (IsEnabled (gm s)) then s else set_gm (ReleaseGPUs (a_used w) uuid (gm s)) s.

(** ** The coordinator *)

(** [src/internal/joblet/core/execution/coordinator.go formatGPUIndices] *)
Definition formatGPUIndices (indices : list Z) : string :=
  match indices with [] => "" | _ => Join (Itoa <$> indices) "," end.

(** [src/internal/joblet/core/execution/coordinator.go ExecutionCoordinator.setupGPUEnvironment] *)
Definition setupGPUEnvironment (w : answers) (j : Job) : Job :=
  if negb (IsGPUAllocated j) then j
  else
    let indices := formatGPUIndices (Job.GPUIndices j) in
    let visible := match GPUMIGUUIDs j with [] => indices | migs => Join migs "," end in
    let env0 := <["JOB_GPU_INDICES" := indices]>
      (<["NVIDIA_VISIBLE_DEVICES" := visible]> (<["CUDA_VISIBLE_DEVICES" := visible]> (Environment_ j))) in
    let env1 := match a_cudaPaths w with
                | [] => env0
                | path :: _ =>
                    foldl (λ env kv, <[kv.1 := kv.2]> env)
                      (<["JOB_GPU_CUDA_MOUNTS" := Join (a_cudaPaths w) ":"]> env0) (a_cudaEnv w path)
                end in
    with_env env1 j.

(** The errors of the two calls are only logged.
    [src/internal/joblet/core/execution/coordinator.go ExecutionCoordinator.cleanup] *)
Definition cleanup (uuid : string) (s : exec_state) : exec_state :=
  act (HDestroy uuid) (act (HRemoveWorkspace uuid) s).

(** [held]: the coordinator's variable, which is not nil once [AllocateGPU] was
    called and succeeded, since it then holds a typed pointer.
    [src/internal/joblet/core/execution/coordinator.go ExecutionCoordinator.cleanupGPU] *)
Definition cleanupGPU (w : answers) (held : bool) (uuid : string) (s : exec_state) : exec_state :=
  if held then ReleaseGPU w uuid s else s.

(** The process and what follows its launch; [name]: the network of the
    allocation, if there is one.
    [src/internal/joblet/core/execution/coordinator.go:139-184 ExecutionCoordinator.StartJob] *)
Definition launch (w : answers) (held : bool) (name : option string) (j : Job) (s : exec_state)
    : result exec_error Z * Job * exec_state :=
  match a_launch w with
  | None =>
      let s1 := cleanup (Uuid j) s in
      let s2 := match name with
                | Some _ => set_net (CleanupNetworking (Uuid j) (net s1)).2 s1
                | None => s1
                end in
      (Err ELaunch, j, cleanupGPU w held (Uuid j) s2)
  | Some pid =>
      let s1 := act (HLaunch (Uuid j) pid) s in
      match name with
      | Some n =>
          if bool_decide (n = "none"%string) then (Ok pid, j, s1)
          else let s2 := act (HNamespace (Uuid j) pid) s1 in
               if a_ready w then (Ok pid, j, act (HReady (Uuid j)) s2)
               else (Err EReadyFile, j, s2)
      | None => (Ok pid, j, s1)
      end
  end.

(** The network; [None] when the set-up panics.
    [src/internal/joblet/core/execution/coordinator.go:103-117 ExecutionCoordinator.StartJob] *)
Definition start_network (w : answers) (held : bool) (j : Job) (s : exec_state)
    : option (result exec_error Z * Job * exec_state) :=
  if bool_decide (Job.Network j = ""%string) then Some (launch w held None j s)
  else match SetupNetworking (a_now w) (Uuid j) (Job.Network j) (net s) with
  | (None, _) => None
  | (Some (Err e), a) => Some (Err (ENetwork e), j, cleanupGPU w held (Uuid j) (cleanup (Uuid j) (set_net a s)))
  | (Some (Ok _), a) => Some (launch w held (Some (Job.Network j)) j (set_net a s))
  end.

(** The workspace is made or not: when making it fails half way, the directory and the uploads that
    were written stay, and nothing here removes them.
    [src/internal/joblet/core/execution/coordinator.go ExecutionCoordinator.StartJob] *)
Definition StartJob (w : answers) (j : Job) (s : exec_state)
    : option (result exec_error Z * Job * exec_state) :=
  if negb (a_isolate w) then Some (Err EIsolate, j, s)
  else
    let s1 := act (HIsolate (Uuid j) (Job.IsRuntimeBuild j)) s in
    if negb (a_workspace w) then Some (Err EWorkspace, j, act (HDestroy (Uuid j)) s1)
    else
      let s2 := act (HWorkspace (Uuid j)) s1 in
      if HasGPURequirement j then
        match AllocateGPU w j s2 with
        | (Err e, j', s3) => Some (Err e, j', cleanup (Uuid j) s3)
        | (Ok al, j', s3) =>
            let j'' := match al with Some _ => setupGPUEnvironment w j' | None => j' end in
            start_network w true j'' s3
        end
      else start_network w false j s2.

(** Errors are collected and reported; every step is tried.
    [src/internal/joblet/core/execution/coordinator.go ExecutionCoordinator.StopJob] *)
Definition StopJob (w : answers) (uuid : string) (s : exec_state) : exec_state :=
  let s1 := set_net (CleanupNetworking uuid (net s)).2 s in
  act (HDestroy uuid) (act (HRemoveWorkspace uuid) (ReleaseGPU w uuid s1)).
End execution.
Arguments exec_state : clear implicits.

(** ** What a start holds and what a failed start leaves *)

Section exec_proofs.
Context `{!SortSlice} `{!IPv6Text} {NS AS : Type}.
Context `{!Backend NS NetworkConfig} `{!LawfulBackend NS NetworkConfig}.
Context `{!Backend AS JobNetworkAllocation} `{!LawfulBackend AS JobNetworkAllocation}.
Context `{!DeletingBackend AS JobNetworkAllocation}.
Implicit Type s : exec_state NS AS.

Definition exec_ok s : Prop := mgr_ok (gm s) ∧ svc_inv (net s).

(** Nothing is held for the job. *)
Definition unheld (u : string) s : Prop :=
  allocations (gm s) !! u = None ∧ b_get u (allocationStore (net s)) = None.

(** The other jobs' GPUs and network records are those of [s0], and the host was
    only asked for things of [u]: [t] is what it was asked since. *)
Record others (u : string) (s0 s : exec_state NS AS) : Prop := {
  oth_ok : exec_ok s;
  oth_enabled : enabled (gm s) = enabled (gm s0);
  oth_gpus : ∀ k, k ≠ u → allocations (gm s) !! k = allocations (gm s0) !! k;
  oth_nets : ∀ k, k ≠ u → b_get k (allocationStore (net s)) = b_get k (allocationStore (net s0));
}.

(** Every GPU allocation and every network record is that of [s0]. *)
Definition same_holdings (s0 s : exec_state NS AS) : Prop :=
  (∀ k, allocations (gm s) !! k = allocations (gm s0) !! k) ∧
  (∀ k, b_get k (allocationStore (net s)) = b_get k (allocationStore (net s0))).

Lemma others_refl u s : exec_ok s → others u s s.
Proof. by split. Qed.

Lemma others_trans u s0 s1 s2 : others u s0 s1 → others u s1 s2 → others u s0 s2.
Proof.
  intros [_ ? Ha Hb] [? ? Hc Hd]. split; [done|congruence| |]; intros k Hk.
  - by rewrite Hc, Ha.
  - by rewrite Hd, Hb.
Qed.

Lemma others_act u s0 s op : others u s0 s → others u s0 (act op s).
Proof. by intros [? ? ? ?]. Qed.

Lemma others_release w u s0 s : others u s0 s → others u s0 (ReleaseGPU w u s).
Proof.
  intros [[Hg Hn] He Hk Hb]. unfold ReleaseGPU, IsEnabled. destruct (negb _); [by split|].
  split; [split; [by apply ReleaseGPUs_inv|done]| | |done]; cbn [set_gm gm].
  - rewrite <- He. unfold ReleaseGPUs. by repeat case_match.
  - intros k Hku. rewrite ReleaseGPUs_other by done. by apply Hk.
Qed.

Lemma release_allocs w u s : enabled (gm s) = true → allocations (gm (ReleaseGPU w u s)) !! u = None.
Proof.
  intros He. unfold ReleaseGPU, IsEnabled, ReleaseGPUs. rewrite He. cbn [negb set_gm gm].
  destruct (allocations (gm s) !! u) eqn:Ea; [|done]. cbn [set_maps allocations]. apply lookup_delete_eq.
Qed.

Lemma others_unplug u s0 s : others u s0 s → others u s0 (set_net (CleanupNetworking u (net s)).2 s).
Proof.
  intros [[Hg Hn] He Hk Hb]. split; [split; [done|by apply svc_cleanup]|done|done|].
  intros k Hku. cbn [set_net net]. rewrite cleanup_gets, decide_False by done. by apply Hb.
Qed.

Lemma unplug_gets u s : exec_ok s →
  b_get u (allocationStore (net (set_net (CleanupNetworking u (net s)).2 s))) = None.
Proof. intros [_ Hn]. cbn [set_net net]. by rewrite cleanup_gets, decide_True. Qed.

Lemma others_unheld u s0 s : others u s0 s → unheld u s0 → unheld u s → same_holdings s0 s.
Proof.
  intros [_ _ Hk Hb] [E1 E2] [E3 E4].
  split; intros k; destruct (decide (k = u)) as [->|]; [congruence|auto|congruence|auto].
Qed.

(** The GPU service: a refusal changes no allocation, a success records one. *)
Lemma AllocateGPU_spec w j s r j' s' : exec_ok s → visits (a_order w) (gm s) → unheld (Uuid j) s →
  HasGPURequirement j = true → AllocateGPU w j s = (r, j', s') →
  others (Uuid j) s s' ∧ net s' = net s ∧ host s' = host s ∧
  Uuid j' = Uuid j ∧ Job.Network j' = Job.Network j ∧
  match r with
  | Err _ => allocations (gm s') !! Uuid j = None
  | Ok al => ∃ a, al = Some a ∧ enabled (gm s') = true ∧ allocations (gm s') !! Uuid j = Some a ∧
      Z.of_nat (length (Gpu.GPUIndices a)) = Job.GPUCount j ∧
      Job.GPUIndices j' = wrap32 <$> Gpu.GPUIndices a
  end.
Proof.
  intros Hok Hv [Hu1 Hu2] Hreq. pose proof Hok as [Hg Hn]. unfold AllocateGPU, IsEnabled. rewrite Hreq.
  destruct (enabled (gm s)) eqn:Een; cbn [negb].
  2:{ intros [= <- <- <-]. split_and!; by try apply others_refl. }
  destruct (AllocateGPUs _ _ _ _ _ _) as [[a m]|e] eqn:Ea.
  2:{ intros [= <- <- <-]. split_and!; by try apply others_refl. }
  pose proof (AllocateGPUs_inv _ _ _ _ _ _ _ _ Hg Hv Ea) as Hm.
  destruct (AllocateGPUs_ok _ _ _ _ _ _ _ _ Hg Hv Ea) as [[E _]|(_ & Hpos & sel & Hl & _ & _ & Eg & Em)];
    [congruence|].
  assert (Hgot : allocations m !! Uuid j = Some a) by (rewrite Em; apply lookup_insert_eq).
  assert (Hoth : others (Uuid j) s (set_gm m s)).
  { split; [by split| |intros k Hk|done]; cbn [set_gm gm]; rewrite Em; [done|]. by apply lookup_insert_ne. }
  assert (Hem : enabled m = true) by (rewrite Em; done).
  destruct (match a_cuda w with Some _ => _ | None => _ end).
  - intros [= <- <- <-]. split_and!; [done..|]. exists a. split_and!; [done..| |done].
    destruct (ok_alloc _ Hm _ _ Hgot) as (_ & -> & _). by rewrite Eg.
  - intros [= <- <- <-]. pose proof (others_release w _ _ _ Hoth) as Hrel.
    pose proof (release_allocs w (Uuid j) (set_gm m s) Hem) as Hnone.
    unfold ReleaseGPU, IsEnabled in Hrel, Hnone. cbn [set_gm gm] in Hrel, Hnone.
    rewrite Hem in Hrel, Hnone. by split_and!.
Qed.

Lemma others_cleanup u s0 s : others u s0 s → others u s0 (cleanup u s).
Proof. intros Ho. by do 2 apply others_act. Qed.

Lemma others_cleanupGPU w h u s0 s : others u s0 s → others u s0 (cleanupGPU w h u s).
Proof. destruct h; [apply others_release|done]. Qed.

Lemma release_net w h u s : net (cleanupGPU w h u s) = net s.
Proof. destruct h; [|done]. unfold cleanupGPU, ReleaseGPU. by case_match. Qed.

(** The GPUs are given back when they were acquired. *)
Lemma cleanupGPU_allocs w (h : bool) u s :
  (if h then enabled (gm s) = true else allocations (gm s) !! u = None) →
  allocations (gm (cleanupGPU w h u s)) !! u = None.
Proof. destruct h; [apply release_allocs|done]. Qed.

(** The GPUs are to be given back: [h] says that the coordinator holds some. *)
Definition gpus_due (h : bool) (u : string) s : Prop :=
  if h then enabled (gm s) = true else allocations (gm s) !! u = None.

(** What the host was asked after a given point, by the outcome. *)
Definition asked_after (u : string) (name : option string) (r : result exec_error Z) : list host_op :=
  match r with
  | Ok pid => HLaunch u pid ::
      match name with
      | Some n => if bool_decide (n = "none"%string) then [] else [HNamespace u pid; HReady u]
      | None => []
      end
  | Err _ => [HRemoveWorkspace u; HDestroy u]
  end.

Lemma launch_spec w h name j s0 s r j' s' : others (Uuid j) s0 s → gpus_due h (Uuid j) s →
  (name = None → b_get (Uuid j) (allocationStore (net s)) = None) →
  launch w h name j s = (r, j', s') →
  others (Uuid j) s0 s' ∧ j' = j ∧
  ((r = Err ELaunch ∧ unheld (Uuid j) s' ∧ host s' = host s ++ [HRemoveWorkspace (Uuid j); HDestroy (Uuid j)]) ∨
   (gm s' = gm s ∧ net s' = net s ∧ ∃ pid,
      (r = Ok pid ∧ host s' = host s ++ asked_after (Uuid j) name r) ∨
      (r = Err EReadyFile ∧ host s' = host s ++ [HLaunch (Uuid j) pid; HNamespace (Uuid j) pid]))).
Proof.
  intros Ho Hg Hn. unfold launch. destruct (a_launch w) as [pid|].
  - destruct name as [n|]; [case_bool_decide as En|]; [| |].
    + intros [= <- <- <-]. split_and!; [by apply others_act|done|right]. split_and!; [done..|].
      exists pid. left. cbn. by rewrite bool_decide_eq_true_2.
    + destruct (a_ready w); intros [= <- <- <-].
      * split_and!; [by do 3 apply others_act|done|right]. split_and!; [done..|].
        exists pid. left. split; [done|]. cbn. rewrite bool_decide_eq_false_2 by done. by rewrite <- !app_assoc.
      * split_and!; [by do 2 apply others_act|done|right]. split_and!; [done..|].
        exists pid. right. split; [done|]. cbn. by rewrite <- !app_assoc.
    + intros [= <- <- <-]. split_and!; [by apply others_act|done|right]. split_and!; [done..|].
      exists pid. by left.
  - cbv zeta. intros [= <- <- <-]. pose proof (others_cleanup _ _ _ Ho) as Hc.
    set (s1 := cleanup _ s) in *.
    set (s2 := match name with Some _ => _ | None => _ end).
    assert (others (Uuid j) s0 s2) as H2 by (destruct name; [exact (others_unplug _ _ _ Hc)|done]).
    assert (b_get (Uuid j) (allocationStore (net s2)) = None) as Hb.
    { destruct name; [exact (unplug_gets _ _ (oth_ok _ _ _ Hc))|by apply Hn]. }
    assert (gpus_due h (Uuid j) s2) as Hg2 by (by destruct name, h).
    split; [by apply others_cleanupGPU|]. split; [done|]. left. split; [done|]. split.
    + split; [by apply cleanupGPU_allocs|]. by rewrite release_net.
    + transitivity (host s2).
      * destruct h; [|done]. unfold cleanupGPU, ReleaseGPU. by case_match.
      * destruct name; cbn; by rewrite <- app_assoc.
Qed.

(** How the part after the GPUs ends, from [s], for job [u] and network [n]. *)
Definition net_ended (u n : string) s (r : result exec_error Z) s' : Prop :=
  (∃ e, r = Err e ∧ e ≠ EReadyFile ∧ e ≠ EIsolate ∧ e ≠ EWorkspace ∧ unheld u s' ∧
     host s' = host s ++ [HRemoveWorkspace u; HDestroy u]) ∨
  (gm s' = gm s ∧
   (n ∉ [""; "none"; "isolated"]%string → ∃ ip, record (net s') u n ip) ∧
   ∃ pid, (r = Ok pid ∧ ∃ t, host s' = host s ++ HLaunch u pid :: t) ∨
     (r = Err EReadyFile ∧ host s' = host s ++ [HLaunch u pid; HNamespace u pid])).

(** The part of the start after the GPUs. *)
Lemma start_network_spec w h j s0 s r j' s' : others (Uuid j) s0 s → gpus_due h (Uuid j) s →
  b_get (Uuid j) (allocationStore (net s)) = None →
  start_network w h j s = Some (r, j', s') →
  others (Uuid j) s0 s' ∧ j' = j ∧
  net_ended (Uuid j) (Job.Network j) s r s'.
Proof.
  intros Ho Hg Hb. pose proof Ho as [[Hm Hn] _ _ _]. unfold start_network. case_bool_decide as En.
  - intros [= E]. eapply launch_spec in E as (H1 & H2 & H3); [|done..].
    split_and!; [done..|]. destruct H3 as [(? & ? & ?)|(? & Hnet & pid & H3)]; [left; eexists; by split_and!|right].
    split_and!; [done|rewrite En; set_solver|]. exists pid. destruct H3 as [[-> ?]|?]; [left|by right].
    split; [done|]. by exists [].
  - destruct (SetupNetworking _ _ _ _) as [[[ok|e]|] a] eqn:Es; [| |done].
    + intros [= E].
      destruct (svc_setup_gen _ _ _ _ _ _ Hn (λ _, fresh_creates_new _ _ Hb) Es) as (Hi & _ & Hk & Hr).
      assert (others (Uuid j) s0 (set_net a s)) as Ho1.
      { destruct Ho as [? ? ? Hbk]. split; [by split|done|done|]. intros k Hku. cbn [set_net net].
        rewrite Hk by (by left). by apply Hbk. }
      eapply launch_spec in E as (H1 & H2 & H3); [|done|by destruct h|done].
      split_and!; [done..|]. destruct H3 as [(? & ? & ?)|(? & Hnet & pid & H3)]; [left; eexists; by split_and!|right].
      split_and!; [done| |].
      * intros Hni. rewrite Hnet. apply Hr; [done|intros E; set_solver..].
      * exists pid. destruct H3 as [[-> ?]|?]; [left|by right]. split; [done|].
        by eexists.
    + intros [= <- <- <-].
      destruct (svc_setup_gen _ _ _ _ _ _ Hn (λ _, fresh_creates_new _ _ Hb) Es) as (Hi & _ & Hk & _).
      assert (others (Uuid j) s0 (cleanup (Uuid j) (set_net a s))) as Ho1.
      { apply others_cleanup. destruct Ho as [? ? ? Hbk]. split; [by split|done|done|]. intros k Hku. cbn [set_net net].
        rewrite Hk by (by left). by apply Hbk. }
      split; [by apply others_cleanupGPU|]. split; [done|left]. eexists. split_and!; [done..| |].
      * split; [apply cleanupGPU_allocs; by destruct h|]. rewrite release_net. cbn.
        rewrite Hk by (by right; left). done.
      * transitivity (host (cleanup (Uuid j) (set_net a s))).
        { destruct h; [|done]. unfold cleanupGPU, ReleaseGPU. by case_match. }
        cbn. by rewrite <- app_assoc.
Qed.

(** Every way a start can end.  A failure other than the ready file's leaves the job
    with nothing; otherwise the process was launched with what it needs. *)
Lemma StartJob_spec w j s r j' s' : exec_ok s → visits (a_order w) (gm s) → unheld (Uuid j) s →
  StartJob w j s = Some (r, j', s') →
  let u := Uuid j in let iso := HIsolate u (Job.IsRuntimeBuild j) in
  others u s s' ∧
  ((∃ e, r = Err e ∧ e ≠ EReadyFile ∧ unheld u s' ∧
      host s' = host s ++ match e with
                          | EIsolate => []
                          | EWorkspace => [iso; HDestroy u]
                          | _ => [iso; HWorkspace u; HRemoveWorkspace u; HDestroy u]
                          end) ∨
   ((Job.Network j ∉ [""; "none"; "isolated"]%string → ∃ ip, record (net s') u (Job.Network j) ip) ∧
    (HasGPURequirement j = true → enabled (gm s') = true ∧ ∃ a, allocations (gm s') !! u = Some a ∧
       Z.of_nat (length (Gpu.GPUIndices a)) = Job.GPUCount j) ∧
    (HasGPURequirement j = false → allocations (gm s') !! u = None) ∧
    ∃ pid, (r = Ok pid ∧ ∃ t, host s' = host s ++ [iso; HWorkspace u] ++ HLaunch u pid :: t) ∨
      (r = Err EReadyFile ∧ host s' = host s ++ [iso; HWorkspace u; HLaunch u pid; HNamespace u pid]))).
Proof.
  intros Hok Hv Hu. cbv zeta. unfold StartJob. destruct (a_isolate w); cbn [negb].
  2:{ intros [= <- <- <-]. split; [by apply others_refl|left]. eexists. split_and!; [done..|]. by rewrite app_nil_r. }
  destruct (a_workspace w); cbn [negb].
  2:{ intros [= <- <- <-]. split; [by do 2 apply others_act; apply others_refl|left].
      eexists. split_and!; [done..|]. cbn. by rewrite <- app_assoc. }
  set (s2 := act (HWorkspace _) _).
  assert (others (Uuid j) s s2) as Ho by (do 2 apply others_act; by apply others_refl).
  assert (host s2 = host s ++ [HIsolate (Uuid j) (Job.IsRuntimeBuild j); HWorkspace (Uuid j)]) as Hh
    by (cbn; by rewrite <- app_assoc).
  destruct (HasGPURequirement j) eqn:Hreq.
  - destruct (AllocateGPU w j s2) as [[[al|e] k] s3] eqn:Ea;
      destruct (AllocateGPU_spec w j s2 _ _ _ (oth_ok _ _ _ Ho) Hv Hu Hreq Ea) as (H1 & H2 & H3 & H4 & H5 & H6).
    + apply (others_trans _ _ _ _ Ho) in H1. destruct H6 as (a & -> & Hen & Hal & Hlen & _). intros Hs.
      set (k' := setupGPUEnvironment w k) in *.
      assert (Uuid k' = Uuid j ∧ Job.Network k' = Job.Network j) as [E1 E2]
        by (unfold k', setupGPUEnvironment; by destruct (negb _)).
      eapply start_network_spec in Hs as (H7 & _ & H8);
        [|rewrite E1; exact H1|exact Hen|rewrite E1, H2; apply Hu].
      rewrite E1, E2 in *. split; [exact H7|].
      destruct H8 as [(e & -> & ? & ? & ? & ? & Hh')|(Hgm & Hrec & pid & Hp)]; [left|right].
      * exists e. split_and!; [done..|]. rewrite Hh', H3, Hh, <- app_assoc. by destruct e.
      * split_and!; [done|intros _; rewrite Hgm; eauto|done|]. exists pid.
        destruct Hp as [[-> [t Hp]]|[-> Hp]]; [left; split; [done|exists t]|right; split; [done|]];
          by rewrite Hp, H3, Hh, <- app_assoc.
    + intros [= <- <- <-]. split; [by apply others_cleanup, (others_trans _ _ _ _ Ho)|left]. exists e. split_and!.
      * done.
      * unfold AllocateGPU in Ea. repeat case_match; simplify_eq; done.
      * split; [done|]. change (b_get (Uuid j) (allocationStore (net s3)) = None). rewrite H2. apply Hu.
      * cbn [cleanup act host]. rewrite H3, Hh, <- !app_assoc.
        unfold AllocateGPU in Ea. repeat case_match; simplify_eq; done.
  - intros Hs. eapply start_network_spec in Hs as (H7 & _ & H8); [|exact Ho|apply Hu|apply Hu].
    split; [exact H7|].
    destruct H8 as [(e & -> & ? & ? & ? & ? & Hh')|(Hgm & Hrec & pid & Hp)]; [left|right].
    + exists e. split_and!; [done..|]. rewrite Hh', Hh, <- app_assoc. by destruct e.
    + split_and!; [done|done|intros _; rewrite Hgm; apply Hu|]. exists pid.
      destruct Hp as [[-> [t Hp]]|[-> Hp]]; [left; split; [done|exists t]|right; split; [done|]];
        by rewrite Hp, Hh, <- app_assoc.
Qed.

(** C5 A start that fails takes nothing: unless it is the signal file that could not be
    written, every GPU allocation and network record is as before, the invariants
    of both managers hold, no process was launched, and the environment and the
    workspace that were made are removed again, in reverse order. *)
Theorem failed_start_releases w j s e j' s' :
  exec_ok s → visits (a_order w) (gm s) → unheld (Uuid j) s →
  StartJob w j s = Some (Err e, j', s') → e ≠ EReadyFile →
  exec_ok s' ∧ same_holdings s s' ∧
  host s' = host s ++
    match e with
    | EIsolate => []
    | EWorkspace => [HIsolate (Uuid j) (Job.IsRuntimeBuild j); HDestroy (Uuid j)]
    | _ => [HIsolate (Uuid j) (Job.IsRuntimeBuild j); HWorkspace (Uuid j);
            HRemoveWorkspace (Uuid j); HDestroy (Uuid j)]
    end.
Proof.
  intros Hok Hv Hu Hs He.
  destruct (StartJob_spec _ _ _ _ _ _ Hok Hv Hu Hs) as (Ho & [(e' & [= <-] & _ & Hu' & Hh)|(_ & _ & _ & pid & Hp)]).
  - split; [apply Ho|]. split; [by eapply others_unheld|exact Hh].
  - destruct Hp as [[? _]|[? _]]; congruence.
Qed.

(** A start that succeeds has launched the process and holds what the job asked for,
    as many GPUs as requested and an address in its network, and stopping the job
    gives exactly that back: every allocation and record is as before the start. *)
Theorem start_then_stop w w' j s pid j' s' :
  exec_ok s → visits (a_order w) (gm s) → unheld (Uuid j) s →
  StartJob w j s = Some (Ok pid, j', s') →
  HLaunch (Uuid j) pid ∈ host s' ∧
  (HasGPURequirement j = true → ∃ a, allocations (gm s') !! Uuid j = Some a ∧
     Z.of_nat (length (Gpu.GPUIndices a)) = Job.GPUCount j) ∧
  (Job.Network j ∉ [""; "none"; "isolated"]%string → ∃ ip, record (net s') (Uuid j) (Job.Network j) ip) ∧
  exec_ok (StopJob w' (Uuid j) s') ∧ same_holdings s (StopJob w' (Uuid j) s').
Proof.
  intros Hok Hv Hu Hs.
  destruct (StartJob_spec _ _ _ _ _ _ Hok Hv Hu Hs) as (Ho & [(? & [=] & _)|(Hr & Hg1 & Hg2 & pid' & Hp)]).
  destruct Hp as [[[= <-] [t Hh]]|[? _]]; [|done].
  split; [rewrite Hh; set_solver|]. split; [intros Hq; by destruct (Hg1 Hq) as [_ ?]|]. split; [done|].
  assert (others (Uuid j) s (StopJob w' (Uuid j) s')) as Hst.
  { unfold StopJob. do 2 apply others_act. by apply others_release, others_unplug. }
  split; [apply Hst|]. apply (others_unheld (Uuid j)); [done..|]. split.
  - change (allocations (gm (ReleaseGPU w' (Uuid j) (set_net (CleanupNetworking (Uuid j) (net s')).2 s'))) !! Uuid j = None).
    destruct (HasGPURequirement j) eqn:Hq; [by apply release_allocs, Hg1|].
    unfold ReleaseGPU, IsEnabled, ReleaseGPUs. cbn [set_net gm]. destruct (enabled (gm s')); [|by apply Hg2].
    cbn [negb set_gm gm]. rewrite (Hg2 eq_refl). by apply Hg2.
  - rewrite <- (unplug_gets (Uuid j) s' (oth_ok _ _ _ Ho)). unfold StopJob, ReleaseGPU. by destruct (negb _).
Qed.

(** When the signal file cannot be written the start reports an error but undoes
    nothing: the process was launched and is not stopped, the environment and the
    workspace stay, and so do the job's GPUs and its address. *)
Theorem ready_file_failure_keeps w j s j' s' :
  exec_ok s → visits (a_order w) (gm s) → unheld (Uuid j) s →
  StartJob w j s = Some (Err EReadyFile, j', s') →
  (∃ pid, host s' = host s ++ [HIsolate (Uuid j) (Job.IsRuntimeBuild j); HWorkspace (Uuid j);
                               HLaunch (Uuid j) pid; HNamespace (Uuid j) pid]) ∧
  (HasGPURequirement j = true → is_Some (allocations (gm s') !! Uuid j)) ∧
  (Job.Network j ∉ [""; "none"; "isolated"]%string → ∃ ip, record (net s') (Uuid j) (Job.Network j) ip).
Proof.
  intros Hok Hv Hu Hs.
  destruct (StartJob_spec _ _ _ _ _ _ Hok Hv Hu Hs) as (Ho & [(? & [= <-] & ? & _)|(Hr & Hg1 & _ & pid & Hp)]); [done|].
  destruct Hp as [[? _]|[_ Hh]]; [done|]. split; [by exists pid|]. split; [|done].
  intros Hq. destruct (Hg1 Hq) as (_ & a & -> & _). by eexists.
Qed.
End exec_proofs.

(** ** Concrete runs, over the in-memory stores and the simulated devices *)

#[local] Existing Instance insertion_SortSlice.

Definition lan_only : simple_adapter :=
  from_option id NewNetworkStoreAdapter (run_svc [SCreate 1 "lan" "10.0.0.0/29"] NewNetworkStoreAdapter).

Lemma lan_only_inv : svc_inv lan_only.
Proof.
  apply svc_reachable_inv, (sr_step 16 (SCreate 1 "lan" "10.0.0.0/29") NewNetworkStoreAdapter);
    [apply sr_init|apply v4_example|by apply fresh_creates_new|vm_compute; reflexivity].
Qed.

Definition gpu_job : Job := {|
  Uuid := "0f8fad5b-d9cb"; Command := "true"; Args := []; Type_ := ""; Limits := NewResourceLimits;
  CgroupPath := ""; Status := StatusInitializing; Pid := 0; StartTime := 1; EndTime := None;
  ScheduledTime := None; ExitCode := 0; Job.Network := "lan"; Volumes := []; Runtime := "";
  WorkingDirectory := ""; Uploads := []; Environment_ := ∅; SecretEnvironment := ∅;
  Job.GPUIndices := []; GPUMIGUUIDs := []; Job.GPUCount := 2; Job.GPUMemoryMB := 1024; NodeId := "";
  Timeout := 0; cache := empty_cache |}.
Definition idle : exec_state (gmap string NetworkConfig) (gmap string JobNetworkAllocation) :=
  {| gm := sim_manager "spread" "strict"; net := lan_only; host := [] |}.
Definition host_says (launched : option Z) (ready : bool) : answers := {|
  a_isolate := true; a_workspace := true; a_order := (map_to_list (gpus (gm idle))).*2;
  a_used _ := Err ""; a_cuda := None; a_cudaPaths := ["/usr/local/cuda"]; a_cudaEnv _ := [];
  a_launch := launched; a_ready := ready; a_now := 7 |}.

Lemma idle_ok : exec_ok idle.
Proof. split; [apply sim_ok|apply lan_only_inv]. Qed.

(** What can be seen of a start without its state. *)
Definition outcome (w : answers) : option (result exec_error Z * list Z) :=
  (λ x, (x.1.1, Job.GPUIndices x.1.2)) <$> StartJob w gpu_job idle.

Lemma outcome_run w r l : outcome w = Some (r, l) →
  ∃ j' s', StartJob w gpu_job idle = Some (r, j', s') ∧ Job.GPUIndices j' = l.
Proof.
  unfold outcome. destruct (StartJob w gpu_job idle) as [[[r' j'] s']|]; [|done].
  intros [= <- <-]. by exists j', s'.
Qed.

Lemma gpu_job_unheld : unheld (Uuid gpu_job) idle.
Proof. split; vm_compute; reflexivity. Qed.

Lemma failed_start_releases_witness :
  ∃ j' s', StartJob (host_says None true) gpu_job idle = Some (Err ELaunch, j', s') ∧
    same_holdings idle s' ∧ last (host s') = Some (HDestroy (Uuid gpu_job)).
Proof.
  destruct (outcome_run (host_says None true) (Err ELaunch) [3; 1]) as (j' & s' & E & _);
    [vm_compute; reflexivity|].
  exists j', s'. split; [exact E|].
  destruct (failed_start_releases (host_says None true) gpu_job idle ELaunch j' s') as (_ & Hs & Hh);
    [apply idle_ok|apply visits_self|apply gpu_job_unheld|exact E|discriminate|].
  split; [exact Hs|]. rewrite Hh. reflexivity.
Defined.

Lemma start_then_stop_witness :
  ∃ j' s', StartJob (host_says (Some 4242) true) gpu_job idle = Some (Ok 4242, j', s') ∧
    Job.GPUIndices j' = [3; 1] ∧ same_holdings idle (StopJob (host_says None true) (Uuid gpu_job) s').
Proof.
  destruct (outcome_run (host_says (Some 4242) true) (Ok 4242) [3; 1]) as (j' & s' & E & Hj);
    [vm_compute; reflexivity|].
  exists j', s'. split; [exact E|]. split; [exact Hj|].
  apply (start_then_stop (host_says (Some 4242) true) (host_says None true) gpu_job idle 4242 j' s');
    [apply idle_ok|apply visits_self|apply gpu_job_unheld|exact E].
Defined.

Lemma ready_file_failure_keeps_witness :
  ∃ j' s', StartJob (host_says (Some 4242) false) gpu_job idle = Some (Err EReadyFile, j', s') ∧
    is_Some (allocations (gm s') !! Uuid gpu_job).
Proof.
  destruct (outcome_run (host_says (Some 4242) false) (Err EReadyFile) [3; 1]) as (j' & s' & E & _);
    [vm_compute; reflexivity|].
  exists j', s'. split; [exact E|].
  apply (ready_file_failure_keeps (host_says (Some 4242) false) gpu_job idle j' s');
    [apply idle_ok|apply visits_self|apply gpu_job_unheld|exact E|reflexivity].
Defined.
