(* ===== verification/Semver.v ===== *)
(** * Semantic versions (pkg/semver/semver.go)

    Parsing, printing and ordering of MAJOR.MINOR.PATCH. *)

From S2P Require Import Prelude GoStrings.
From Stdlib Require Import Ascii.

Local Open Scope Z_scope.

(** [src/pkg/semver/semver.go Version] *)
Record Version := { major : Z; minor : Z; patch : Z }.

#[export] Instance Version_eq_dec : EqDecision Version.
Proof. solve_decision. Defined.

Inductive version_error :=
| EFormat (version : string) | EMajor | EMinor | EPatch | ENegative.

(** One component, with the error that names it. *)
Definition component (e : version_error) (s : string) : result version_error Z :=
  match Atoi s with Some z => Ok z | None => Err e end.

(** [src/pkg/semver/semver.go NewVersion] *)
Definition NewVersion (version : string) : result version_error Version :=
  let version := TrimPrefix version "v" in
  match Split version "." with
  | [p1; p2; p3] =>
      a ← component EMajor p1;
      b ← component EMinor p2;
      c ← component EPatch p3;
      if (a <? 0) || (b <? 0) || (c <? 0) then Err ENegative
      else Ok {| major := a; minor := b; patch := c |}
  | _ => Err (EFormat version)
  end.

(** [src/pkg/semver/semver.go Version.GreaterThan] *)
Definition GreaterThan (v other : Version) : bool :=
  if negb (major v =? major other) then major v >? major other
  else if negb (minor v =? minor other) then minor v >? minor other
  else patch v >? patch other.

(** [src/pkg/semver/semver.go Version.String] *)
Definition String (v : Version) : string :=
  (Itoa (major v) +:+ "." +:+ Itoa (minor v) +:+ "." +:+ Itoa (patch v))%string.

(** [src/pkg/semver/semver.go Version.Equal] *)
Definition Equal (v other : Version) : bool :=
  (major v =? major other) && (minor v =? minor other) && (patch v =? patch other).

(** [src/pkg/semver/semver.go Version.LessThan] *)
Definition LessThan (v other : Version) : bool :=
  negb (GreaterThan v other) && negb (Equal v other).

(** ** The order *)

(** What [NewVersion] returns: three components a Go [int] holds, none negative. *)
Definition version_ok (v : Version) : Prop :=
  0 ≤ major v ≤ max_int 64 ∧ 0 ≤ minor v ≤ max_int 64 ∧ 0 ≤ patch v ≤ max_int 64.

(** The lexicographic order of the three components. *)
Definition version_gt (v w : Version) : Prop :=
  major v > major w ∨ (major v = major w ∧
    (minor v > minor w ∨ (minor v = minor w ∧ patch v > patch w))).

Lemma GreaterThan_spec v w : GreaterThan v w = true ↔ version_gt v w.
Proof.
  unfold GreaterThan, version_gt. repeat case_test; to_prop; rewrite ?Z.gtb_lt; lia.
Qed.

Lemma Equal_spec v w : Equal v w = true ↔ v = w.
Proof.
  unfold Equal. rewrite !andb_true_iff, !Z.eqb_eq. destruct v, w; simpl.
  split; [by intros [[-> ->] ->]|by intros [= -> -> ->]].
Qed.

Lemma LessThan_spec v w : LessThan v w = true ↔ version_gt w v.
Proof.
  unfold LessThan. rewrite andb_true_iff, !negb_true_iff, <- !not_true_iff_false.
  rewrite GreaterThan_spec, Equal_spec. unfold version_gt. destruct v as [a b c], w as [a' b' c']; simpl.
  split; [|intros H; split; [lia|by intros [= -> -> ->]; lia]].
  intros [H1 H2]. enough (¬ (a = a' ∧ b = b' ∧ c = c')) by lia. by intros (-> & -> & ->).
Qed.

#[export] Instance GreaterThan_strict : StrictWeak GreaterThan.
Proof.
  split.
  - intros v. rewrite <- not_true_iff_false, GreaterThan_spec. unfold version_gt. lia.
  - intros v w x. rewrite !GreaterThan_spec. unfold version_gt. lia.
  - intros v w x. rewrite <- !not_true_iff_false, !GreaterThan_spec. unfold version_gt. lia.
Qed.

(** ** Parsing *)

Lemma component_Itoa e z : 0 ≤ z ≤ max_int 64 → component e (Itoa z) = Ok z.
Proof. intros Hz. unfold component. rewrite Atoi_Itoa; [done|]. split; [|lia]. unfold min_int. lia. Qed.

Lemma component_ok e s z : component e s = Ok z ↔ Atoi s = Some z.
Proof. unfold component. destruct (Atoi s); naive_solver. Qed.

(** The text of a version splits into its three components. *)
Lemma Split_String v : version_ok v →
  Split (String v) "." = [Itoa (major v); Itoa (minor v); Itoa (patch v)].
Proof.
  intros (H1 & H2 & H3). unfold Split, String. rewrite !bytes_app.
  change (bytes ".") with ["."%char]. cbn [app].
  rewrite !split_bytes_app, split_bytes_word by (apply Itoa_no_dot; lia).
  cbn [fmap list_fmap]. by rewrite !of_bytes_bytes.
Qed.

(** A decimal text does not begin with a "v". *)
Lemma TrimPrefix_v_digits s : (∀ c l, bytes s = c :: l → is_digit c = true) → TrimPrefix s "v" = s.
Proof.
  intros Hs. unfold TrimPrefix, HasPrefix. destruct s as [|c s]; [done|].
  cbn [String.prefix]. destruct (ascii_dec "v" c) as [<-|]; [|done].
  specialize (Hs _ _ eq_refl). vm_compute in Hs. discriminate.
Qed.

Lemma TrimPrefix_v s : TrimPrefix ("v" +:+ s) "v" = s.
Proof.
  unfold TrimPrefix, HasPrefix. change ("v" +:+ s)%string with (String.String "v" s).
  replace (String.prefix "v" (String.String "v" s)) with true by (by destruct s).
  apply of_bytes_bytes.
Qed.

Lemma String_digit v : version_ok v → ∀ c l, bytes (String v) = c :: l → is_digit c = true.
Proof.
  intros (H1 & _ & _) c l. unfold String. rewrite bytes_app, Itoa_nonneg, bytes_of_bytes by lia.
  destruct (digits_of (major v)) as [|d ds] eqn:E; [by apply digits_of_nonempty in E|].
  intros [= <- _]. pose proof (digits_of_digits (major v) ltac:(lia)) as Hd. rewrite E in Hd.
  simpl in Hd. by to_prop.
Qed.

Lemma NewVersion_of v s : version_ok v → TrimPrefix s "v" = String v → NewVersion s = Ok v.
Proof.
  intros Hv Hs. unfold NewVersion. rewrite Hs, Split_String by done. destruct Hv as (H1 & H2 & H3).
  rewrite !component_Itoa by done. simpl.
  rewrite !(proj2 (Z.ltb_ge _ 0)) by lia. by destruct v.
Qed.

(** Printing a version and parsing it gives the version back, with or without a "v"
    in front; and what the parser accepts is always in range and is fixed by
    printing and parsing again. *)
Theorem version_roundtrip :
  (∀ v, version_ok v → NewVersion (String v) = Ok v ∧ NewVersion ("v" +:+ String v) = Ok v) ∧
  (∀ s v, NewVersion s = Ok v → version_ok v ∧ NewVersion (String v) = Ok v).
Proof.
  assert (Hrt : ∀ v, version_ok v → NewVersion (String v) = Ok v).
  { intros v Hv. apply NewVersion_of; [done|]. by apply TrimPrefix_v_digits, String_digit. }
  split.
  - intros v Hv. split; [by apply Hrt|]. apply NewVersion_of; [done|].
    apply TrimPrefix_v.
  - intros s v Hs. enough (version_ok v) as Hv by (split; [done|by apply Hrt]).
    unfold NewVersion in Hs. destruct (Split _ _) as [|p1 [|p2 [|p3 [|]]]]; try done.
    apply bind_ok in Hs as (a & Ha%component_ok & Hs). apply bind_ok in Hs as (b & Hb%component_ok & Hs).
    apply bind_ok in Hs as (c & Hc%component_ok & Hs).
    destruct (_ || _) eqn:E; [done|]. to_prop. injection Hs as <-. unfold version_ok; simpl.
    apply Atoi_range in Ha as [_ ?], Hb as [_ ?], Hc as [_ ?]. lia.
Qed.

(** C25 The three comparisons are one strict total order: exactly one of less, equal and
    greater holds of two versions, it is the lexicographic order of the
    components, and it is transitive. *)
Theorem version_order v w x :
  ((LessThan v w = true ∧ Equal v w = false ∧ GreaterThan v w = false) ∨
   (LessThan v w = false ∧ Equal v w = true ∧ GreaterThan v w = false) ∨
   (LessThan v w = false ∧ Equal v w = false ∧ GreaterThan v w = true)) ∧
  (GreaterThan v w = true ↔ version_gt v w) ∧ LessThan v w = GreaterThan w v ∧
  (GreaterThan v w = true → GreaterThan w x = true → GreaterThan v x = true).
Proof.
  split; [|split; [apply GreaterThan_spec|split]].
  - destruct (LessThan v w) eqn:E1, (Equal v w) eqn:E2, (GreaterThan v w) eqn:E3; try tauto; exfalso.
    all: unfold LessThan in E1; rewrite E2, E3 in E1; try done.
    all: apply Equal_spec in E2 as ->; by rewrite sw_irrefl in E3.
  - apply eq_true_iff_eq. by rewrite LessThan_spec, GreaterThan_spec.
  - apply sw_trans.
Qed.

Example lenient_components : NewVersion "01.+2.-0" = Ok {| major := 1; minor := 2; patch := 0 |}.
Proof. vm_compute. reflexivity. Qed.
