(* ===== verification/Auth.v ===== *)
(** * Who may do what (internal/joblet/auth/grpc_authorization.go and the checks of
    the request handlers)

    The role of a client certificate, the operations each role may perform, and
    the operation each request handler asks for. *)

From S2P Require Import Prelude GoStrings.
From Stdlib Require Import Ascii.

Local Open Scope Z_scope.

(** [src/internal/joblet/auth/grpc_authorization.go:16-34 ClientRole] *)
Inductive ClientRole := AdminRole | MaintainerRole | DeveloperRole | ReaderRole | UnknownRole.

(** [src/internal/joblet/auth/grpc_authorization.go:36-74 Operation] *)
Inductive Operation :=
| RunJobOp | GetJobOp | StopJobOp | DeleteJobOp | ListJobsOp | GetJobLogsOp | GetJobStatusOp
| CreateNetworkOp | ListNetworksOp | RemoveNetworkOp
| CreateVolumeOp | ListVolumesOp | RemoveVolumeOp
| ListRuntimesOp | GetRuntimeInfoOp | TestRuntimeOp | ValidateRuntimeOp | BuildRuntimeOp | RemoveRuntimeOp
| GetMetricsOp
| QueryLogsOp | QueryMetricsOp.

#[export] Instance ClientRole_eq_dec : EqDecision ClientRole.
Proof. solve_decision. Defined.
#[export] Instance Operation_eq_dec : EqDecision Operation.
Proof. solve_decision. Defined.

(** [src/internal/joblet/auth/grpc_authorization.go:77-82 readOps] *)
Definition readOps : list Operation :=
  [GetJobOp; ListJobsOp; GetJobLogsOp; GetJobStatusOp; ListNetworksOp; ListVolumesOp;
   ListRuntimesOp; GetRuntimeInfoOp; GetMetricsOp; QueryLogsOp; QueryMetricsOp].

(** [src/internal/joblet/auth/grpc_authorization.go:85-87 developerOps] *)
Definition developerOps : list Operation :=
  [RunJobOp; StopJobOp; DeleteJobOp; TestRuntimeOp] ++ readOps.

(** [src/internal/joblet/auth/grpc_authorization.go:91-93 maintainerOps] *)
Definition maintainerOps : list Operation :=
  [BuildRuntimeOp; ValidateRuntimeOp; CreateNetworkOp; CreateVolumeOp] ++ developerOps.

(** The sets of [opSet]; a role without an entry has the empty one.
    [src/internal/joblet/auth/grpc_authorization.go:96-108 roleOperations] *)
Definition roleOperations (r : ClientRole) : list Operation :=
  match r with
  | ReaderRole => readOps
  | DeveloperRole => developerOps
  | MaintainerRole => maintainerOps
  | AdminRole | UnknownRole => []
  end.

(** [src/internal/joblet/auth/grpc_authorization.go:180-185 rolePrivilege] *)
Definition rolePrivilege (r : ClientRole) : Z :=
  match r with
  | ReaderRole => 1 | DeveloperRole => 2 | MaintainerRole => 3 | AdminRole => 4 | UnknownRole => 0
  end.

(** [src/internal/joblet/auth/grpc_authorization.go:187-192 grpcAuthorization.isOperationAllowed] *)
Definition isOperationAllowed (role : ClientRole) (op : Operation) : bool :=
  if bool_decide (role = AdminRole) then true else bool_decide (op ∈ roleOperations role).

(** What the call's context carries: no peer, a peer without TLS, or the client's
    certificates, of which the organizational units are read. *)
Inductive peer := NoPeer | NoTLS | TLS (certificates : list (list string)).

Inductive auth_error :=
| NoPeerInfo | NoTLSInfo | NoCertificate | PermissionDenied (role : ClientRole) (op : Operation).

(** The switch on one organizational unit.
    [src/internal/joblet/auth/grpc_authorization.go:156-168 grpcAuthorization.extractClientRole] *)
Definition role_of_unit (ou : string) : option ClientRole :=
  let l := ToLower ou in
  if bool_decide (l = "admin"%string) then Some AdminRole
  else if bool_decide (l = "maintainer"%string) then Some MaintainerRole
  else if bool_decide (l = "developer"%string) then Some DeveloperRole
  else if bool_decide (l = "reader"%string) || bool_decide (l = "viewer"%string) then Some ReaderRole
  else None.

(** [src/internal/joblet/auth/grpc_authorization.go:154-172 grpcAuthorization.extractClientRole] *)
Definition select_role (role : ClientRole) (ou : string) : ClientRole :=
  match role_of_unit ou with
  | None => role
  | Some candidate =>
      if bool_decide (role = UnknownRole) || (rolePrivilege candidate <? rolePrivilege role)
      then candidate else role
  end.

(** [src/internal/joblet/auth/grpc_authorization.go grpcAuthorization.extractClientRole] *)
Definition extractClientRole (p : peer) : result auth_error ClientRole :=
  match p with
  | NoPeer => Err NoPeerInfo
  | NoTLS => Err NoTLSInfo
  | TLS [] => Err NoCertificate
  | TLS (units :: _) => Ok (foldl select_role UnknownRole units)
  end.

(** [src/internal/joblet/auth/grpc_authorization.go grpcAuthorization.Authorized] *)
Definition Authorized (p : peer) (op : Operation) : result auth_error unit :=
  match extractClientRole p with
  | Err e => Err e
  | Ok role => if isOperationAllowed role op then Ok tt else Err (PermissionDenied role op)
  end.

(** ** The request handlers *)

(** The requests of the job, network, volume, runtime and monitoring services. *)
Inductive request :=
| RunJob | ListJobs | GetJobStatus | StopJob | DeleteJob | DeleteAllJobs | GetJobLogs
| StreamJobMetrics | GetJobMetrics | StreamJobTelematics | GetJobTelematics
| GetSystemStatus | StreamSystemMetrics
| CreateNetwork | ListNetworks | RemoveNetwork
| CreateVolume | ListVolumes | RemoveVolume
| ListRuntimes | GetRuntimeInfo | TestRuntime | RemoveRuntime | BuildRuntime | ValidateRuntimeYAML.

(** The operation each handler passes to [Authorized], before anything else but logging; by
    service, the lines are those of its first handler.  The other job handlers do it at lines
    335, 356, 410, 439, 474, 516, 705, 765, 794 and 852.
    [src/internal/joblet/server/job_service.go:86-89 JobServiceServer.RunJob] *)
Definition job_service_op (r : request) : option Operation :=
  match r with
  | RunJob => Some RunJobOp
  | ListJobs => Some ListJobsOp
  | GetJobStatus => Some GetJobStatusOp
  | StopJob => Some StopJobOp
  | DeleteJob | DeleteAllJobs => Some DeleteJobOp
  | GetJobLogs => Some GetJobLogsOp
  | StreamJobMetrics | GetJobMetrics | StreamJobTelematics | GetJobTelematics => Some GetJobOp
  | _ => None
  end.
(** And at line 59 for the stream.
    [src/internal/joblet/server/monitoring_service.go:42-44 MonitoringServiceServer.GetSystemStatus] *)
Definition monitoring_service_op (r : request) : option Operation :=
  match r with GetSystemStatus | StreamSystemMetrics => Some GetMetricsOp | _ => None end.
(** And at lines 92 and 127.
    [src/internal/joblet/server/network_service.go:43-46 NetworkServiceServer.CreateNetwork] *)
Definition network_service_op (r : request) : option Operation :=
  match r with CreateNetwork => Some CreateNetworkOp | ListNetworks => Some ListNetworksOp | RemoveNetwork => Some RemoveNetworkOp | _ => None end.
(** And at lines 69 and 102.
    [src/internal/joblet/server/volume_service.go:43-46 VolumeServiceServer.CreateVolume] *)
Definition volume_service_op (r : request) : option Operation :=
  match r with CreateVolume => Some CreateVolumeOp | ListVolumes => Some ListVolumesOp | RemoveVolume => Some RemoveVolumeOp | _ => None end.
(** And at lines 92, 157, 197, 348 and 417.
    [src/internal/joblet/server/runtime_service.go:50-52 RuntimeServiceServer.ListRuntimes] *)
Definition runtime_service_op (r : request) : option Operation :=
  match r with
  | ListRuntimes => Some ListRuntimesOp
  | GetRuntimeInfo => Some GetRuntimeInfoOp
  | TestRuntime => Some TestRuntimeOp
  | RemoveRuntime => Some RemoveRuntimeOp
  | BuildRuntime => Some BuildRuntimeOp
  | ValidateRuntimeYAML => Some ValidateRuntimeOp
  | _ => None
  end.

(** The operation of the service that has the handler. *)
Definition required_op (r : request) : Operation :=
  default RunJobOp (head (omap (λ service, service r) [job_service_op; monitoring_service_op; network_service_op; volume_service_op; runtime_service_op])).

(** ** Properties *)

(** What a request does, for the policy below. *)
Inductive class := Reading | Running | Provisioning | Removing.

Definition class_of (r : request) : class :=
  match r with
  | RunJob | StopJob | DeleteJob | DeleteAllJobs | TestRuntime => Running
  | CreateNetwork | CreateVolume | BuildRuntime | ValidateRuntimeYAML => Provisioning
  | RemoveNetwork | RemoveVolume | RemoveRuntime => Removing
  | _ => Reading
  end.

(** The least role of each class. *)
Definition least_role (c : class) : ClientRole :=
  match c with
  | Reading => ReaderRole | Running => DeveloperRole | Provisioning => MaintainerRole | Removing => AdminRole
  end.

(** The units of a certificate that name a role. *)
Definition named_roles (units : list string) : list ClientRole := omap role_of_unit units.

Lemma role_of_unit_known ou r : role_of_unit ou = Some r → r ≠ UnknownRole ∧ 1 ≤ rolePrivilege r.
Proof. unfold role_of_unit. repeat case_match; intros [= <-]; split; done || (simpl; lia). Qed.

Lemma privilege_inj r q : rolePrivilege r = rolePrivilege q → r = q.
Proof. by destruct r, q. Qed.

Lemma unknown_privilege r : rolePrivilege r = 0 ↔ r = UnknownRole.
Proof. by destruct r. Qed.

(** The fold keeps the least privileged of the roles named so far. *)
Lemma select_role_spec units role :
  let r := foldl select_role role units in
  match role with
  | UnknownRole =>
      (named_roles units = [] → r = UnknownRole) ∧
      (named_roles units ≠ [] → r ∈ named_roles units ∧ ∀ q, q ∈ named_roles units → rolePrivilege r ≤ rolePrivilege q)
  | _ => r ∈ role :: named_roles units ∧
         ∀ q, q ∈ role :: named_roles units → rolePrivilege r ≤ rolePrivilege q
  end.
Proof.
  cbv zeta. revert role. induction units as [|ou units IH]; intros role.
  { destruct role; cbn; set_solver. }
  cbn [foldl].
  assert (Hn : named_roles (ou :: units) =
    match role_of_unit ou with Some c => c :: named_roles units | None => named_roles units end)
    by (unfold named_roles; simpl; by destruct (role_of_unit ou)).
  assert (Hs : select_role role ou = match role_of_unit ou with None => role | Some c =>
    if bool_decide (role = UnknownRole) || (rolePrivilege c <? rolePrivilege role) then c else role end) by done.
  rewrite Hn, Hs. clear Hn Hs. destruct (role_of_unit ou) as [c|] eqn:Eo; [|apply IH].
  destruct (role_of_unit_known _ _ Eo) as [Hc Hp].
  destruct (bool_decide (role = UnknownRole) || (rolePrivilege c <? rolePrivilege role)) eqn:Eb.
  - specialize (IH c). apply orb_true_iff in Eb.
    assert (foldl select_role c units ∈ c :: named_roles units ∧
      ∀ q, q ∈ c :: named_roles units → rolePrivilege (foldl select_role c units) ≤ rolePrivilege q)
      as [H1 H2] by (destruct c; done).
    assert (rolePrivilege (foldl select_role c units) ≤ rolePrivilege c) by (apply H2; set_solver).
    destruct role; [..|split; [done|set_solver]]; destruct Eb as [Eb|Eb]; to_prop; try done;
      (split; [set_solver|intros q [->|Hq]%elem_of_cons; [lia|by apply H2]]).
  - apply orb_false_iff in Eb as [E1 E2]. to_prop. specialize (IH role).
    destruct role; try done; destruct IH as [H1 H2]; (split; [set_solver|]);
      intros q [->|[->|Hq]%elem_of_cons]%elem_of_cons;
      [apply H2; set_solver|etrans; [apply H2; left|done]|apply H2; set_solver
      |apply H2; set_solver|etrans; [apply H2; left|done]|apply H2; set_solver
      |apply H2; set_solver|etrans; [apply H2; left|done]|apply H2; set_solver
      |apply H2; set_solver|etrans; [apply H2; left|done]|apply H2; set_solver].
Qed.

(** The role of a certificate: none named, or the least of those named. *)
Lemma certificate_role units :
  let r := foldl select_role UnknownRole units in
  (named_roles units = [] ∧ r = UnknownRole) ∨
  (r ≠ UnknownRole ∧ r ∈ named_roles units ∧
   ∀ q, q ∈ named_roles units → rolePrivilege r ≤ rolePrivilege q).
Proof.
  cbv zeta. destruct (select_role_spec units UnknownRole) as [H1 H2].
  destruct (decide (named_roles units = [])) as [E|E]; [left; auto|right].
  destruct (H2 E) as [H3 H4]. split; [|done].
  apply list_elem_of_omap in H3 as (ou & _ & Ho). by apply role_of_unit_known in Ho as [? _].
Qed.

Lemma allowed_by_class role r : role ≠ UnknownRole →
  isOperationAllowed role (required_op r) = true ↔
    rolePrivilege (least_role (class_of r)) ≤ rolePrivilege role.
Proof. intros Hr. by destruct role, r; try done; vm_compute; split. Qed.

Lemma Authorized_role p op : Authorized p op = Ok tt ↔
  ∃ role, extractClientRole p = Ok role ∧ isOperationAllowed role op = true.
Proof.
  unfold Authorized. destruct (extractClientRole p) as [role|]; [|split; [done|by intros (? & ? & _)]].
  destruct (isOperationAllowed role op) eqn:E; (split; [done || by exists role|]); [done|].
  intros (? & [= <-] & ?). congruence.
Qed.

(** C22 A request is let through exactly when the client came over TLS with a
    certificate that names a role, and every role it names is at least the one
    its kind of request needs: reader to read, developer to run jobs, maintainer
    to build and create, administrator to remove. *)
Theorem authorization_policy p r :
  Authorized p (required_op r) = Ok tt ↔
  ∃ units rest, p = TLS (units :: rest) ∧ named_roles units ≠ [] ∧
    ∀ q, q ∈ named_roles units → rolePrivilege (least_role (class_of r)) ≤ rolePrivilege q.
Proof.
  rewrite Authorized_role. split.
  - intros (role & Hx & Ha). destruct p as [| |[|units rest]]; try done. injection Hx as Hr.
    exists units, rest. split; [done|].
    destruct (certificate_role units) as [[_ E]|(H1 & H2 & H3)]; rewrite Hr in *.
    { exfalso. rewrite E in Ha. destruct r; vm_compute in Ha; discriminate. }
    apply allowed_by_class in Ha; [|done]. split; [by intros E; rewrite E in H2; apply elem_of_nil in H2|].
    intros q Hq. etrans; [exact Ha|by apply H3].
  - intros (units & rest & -> & Hne & Hall). eexists. split; [done|].
    destruct (certificate_role units) as [[E _]|(H1 & H2 & H3)]; [done|].
    apply allowed_by_class; [done|]. by apply Hall.
Qed.

(** A certificate never gains by naming further units: what it may do with more of
    them, it may do with fewer, as long as those still name a role. *)
Theorem more_units_no_more_power units extra rest op :
  named_roles units ≠ [] →
  Authorized (TLS ((units ++ extra) :: rest)) op = Ok tt → Authorized (TLS (units :: rest)) op = Ok tt.
Proof.
  intros Hne. rewrite !Authorized_role. intros (role & [= <-] & Ha). eexists. split; [done|].
  destruct (certificate_role units) as [[E _]|(H1 & H2 & H3)]; [done|].
  destruct (certificate_role (units ++ extra)) as [[E _]|(H4 & H5 & H6)].
  { unfold named_roles in *. rewrite omap_app in E. by apply app_eq_nil in E as [? _]. }
  set (r1 := foldl _ _ units) in *. set (r2 := foldl _ _ (units ++ extra)) in *.
  assert (rolePrivilege r2 ≤ rolePrivilege r1) as Hle.
  { apply H6. unfold named_roles. rewrite omap_app. apply elem_of_app. by left. }
  revert Ha Hle. clearbody r1 r2. clear -H1 H4.
  destruct r1, r2, op; try done; vm_compute; auto.
Qed.

Example policy_example :
  Authorized (TLS [["engineering"; "Admin"; "VIEWER"]%string]) (required_op GetJobLogs) = Ok tt ∧
  Authorized (TLS [["engineering"; "Admin"; "VIEWER"]%string]) (required_op RunJob) =
    Err (PermissionDenied ReaderRole RunJobOp).
Proof. split; vm_compute; reflexivity. Qed.

Lemma more_units_no_more_power_witness :
  Authorized (TLS [["admin"]%string]) QueryLogsOp = Ok tt ∧
  Authorized (TLS [["admin"; "reader"]%string]) RemoveVolumeOp ≠ Ok tt.
Proof.
  split; [|by vm_compute].
  apply (more_units_no_more_power ["admin"%string] ["reader"%string] [] QueryLogsOp); [by vm_compute|].
  vm_compute. reflexivity.
Defined.

(** The dotted capital I is lowered to an ASCII letter. *)
Example dotted_admin : role_of_unit (of_bytes (["a"; "d"; "m"; byte_of 0xC4; byte_of 0xB0; "n"]%char)) = Some AdminRole.
Proof. vm_compute. reflexivity. Qed.
