(* ===== verification/Environment.v ===== *)
(** * The environment of a job's process (core/environment/builder.go,
    core/execution/environment_service.go, core/process/manager.go,
    internal/modes/jobexec/jobexec.go)

    The server hands everything the init process needs through environment
    variables.  An environment is a list of [KEY=VALUE] entries in which, when
    [os/exec] starts the process, the last entry of a key wins. *)

From S2P Require Import Prelude GoStrings Values Paths Job.
From Stdlib Require Import Ascii.

Local Open Scope Z_scope.

(** ** Entries *)

(** [fmt.Sprintf("%s=%s", k, v)]. *)
Definition entry (k v : string) : string := env_entry (k, v).

(** The key of an entry, as [os/exec] takes it: up to the first equals sign, of
    which one at the front does not count; [None] when there is no other. *)
Definition entry_key (kv : string) : option string :=
  match cut_bytes "=" (bytes kv) with
  | Some ([], rest) =>
      match cut_bytes "=" rest with Some (k, _) => Some (of_bytes ("="%char :: k)) | None => Some ""%string end
  | Some (k, _) => Some (of_bytes k)
  | None => None
  end.

(** [os/exec]: walks from the end and keeps the first entry it sees of a key;
    entries without a key are kept when they are not empty. *)
Fixpoint dedup_rev (saw : gset string) (l : list string) : list string :=
  match l with
  | [] => []
  | kv :: l =>
      match entry_key kv with
      | None => if bool_decide (kv = ""%string) then dedup_rev saw l else kv :: dedup_rev saw l
      | Some k => if bool_decide (k ∈ saw) then dedup_rev saw l else kv :: dedup_rev ({[k]} ∪ saw) l
      end
  end.

Definition dedupEnv (env : list string) : list string := rev (dedup_rev ∅ (rev env)).

(** The value part of an entry whose key is [k]. *)
Definition entry_value (k kv : string) : option string :=
  if bool_decide (entry_key kv = Some k)
  then Some (of_bytes (drop (S (List.length (bytes k))) (bytes kv))) else None.

(** [os.LookupEnv]: the first entry of the key. *)
Fixpoint LookupEnv (env : list string) (k : string) : option string :=
  match env with
  | [] => None
  | kv :: env => match entry_value k kv with Some v => Some v | None => LookupEnv env k end
  end.

(** [os.Getenv]. *)
Definition Getenv (env : list string) (k : string) : string := from_option id ""%string (LookupEnv env k).

(** The order in which a range visits a map is not fixed. *)
Class MapRange := {
  map_range : gmap string string → list (string * string);
  map_range_perm : ∀ m, map_range m ≡ₚ map_to_list m;
}.

Definition env_of_map `{!MapRange} (m : gmap string string) : list string :=
  (λ kv, entry kv.1 kv.2) <$> map_range m.

(** ** Configuration the server forwards *)

(** The fields of the server configuration that are read here. *)
Record Config := {
  WorkspaceDir : string; BaseDir : string; TmpDir : string;
  BasePath : string; AllowedMounts : list string;
  gpu_Enabled : bool; CUDAPaths : list string;
}.

(** [src/internal/joblet/core/environment/builder.go FilterServerConfigEnv] *)
Definition FilterServerConfigEnv (env : list string) : list string :=
  filter (λ kv, negb (HasPrefix kv "JOBLET_CONFIG_PATH=" || HasPrefix kv "JOBLET_RUNTIME_CONFIG_PATH=") = true) env.

(** [src/internal/joblet/core/environment/builder.go ForwardFilesystemEnv] *)
Definition ForwardFilesystemEnv (c : Config) : list string :=
  [entry "JOB_FS_WORKSPACE_DIR" (WorkspaceDir c); entry "JOB_FS_BASE_DIR" (BaseDir c);
   entry "JOB_FS_TMP_DIR" (TmpDir c)].

(** [src/internal/joblet/core/environment/builder.go ForwardRuntimeEnv] *)
Definition ForwardRuntimeEnv (c : Config) : list string :=
  entry "JOB_RT_BASE_PATH" (BasePath c) ::
  match AllowedMounts c with [] => [] | ms => [entry "JOB_RT_ALLOWED_MOUNTS" (Join ms ":")] end.

(** ** The runtime's variables *)

(** [strings.Trim] with a set of ASCII characters. *)
Fixpoint trim_set_left (p : ascii → bool) (l : list ascii) : list ascii :=
  match l with c :: l' => if p c then trim_set_left p l' else l | [] => [] end.
Definition Trim (p : ascii → bool) (s : string) : string :=
  of_bytes (rev (trim_set_left p (rev (trim_set_left p (bytes s))))).

Definition is_quote (c : ascii) : bool := bool_decide (c = "034"%char) || bool_decide (c = "'"%char).

(** One line of runtime.yml: whether the environment section is open, and the
    variables so far.
    [src/internal/joblet/core/execution/environment_service.go:321-356 EnvironmentService.getRuntimeEnvironment] *)
Definition runtime_line (st : bool * gmap string string) (originalLine : string) : bool * gmap string string :=
  let (inEnvironment, vars) := st in
  let line := TrimSpace originalLine in
  if bool_decide (line = ""%string) || HasPrefix line "#" then st
  else if HasPrefix line "environment:" then (true, vars)
  else if inEnvironment then
    let hasIndentation := HasPrefix originalLine " " || HasPrefix originalLine (of_bytes ["009"%char]) in
    if negb hasIndentation && Contains line ":" then (false, vars)
    else if hasIndentation && Contains line ":" then
      match Cut line ":" with
      | Some (k, v) => (true, <[TrimSpace k := Trim is_quote (TrimSpace v)]> vars)
      | None => st
      end
    else st
  else st.

Definition runtime_vars (configData : string) : gmap string string :=
  (foldl runtime_line (false, ∅) (Split configData "010")).2.

Section service.
Context `{!MapRange}.

(** The process environment of the server, and its file system. *)
Variable environ : list string.
Variable ReadFile : string → option string.

(** The special variable PATH_PREPEND goes in front of the server's PATH.
    [src/internal/joblet/core/execution/environment_service.go:358-371 EnvironmentService.getRuntimeEnvironment] *)
Definition runtime_entry (kv : string * string) : string :=
  if bool_decide (kv.1 = "PATH_PREPEND"%string) then
    let currentPath := Getenv environ "PATH" in
    if bool_decide (currentPath = ""%string) then entry "PATH" kv.2
    else entry "PATH" (kv.2 +:+ ":" +:+ currentPath)
  else entry kv.1 kv.2.

(** [src/internal/joblet/core/execution/environment_service.go EnvironmentService.getRuntimeEnvironment] *)
Definition getRuntimeEnvironment (c : Config) (runtimeSpec : string) : list string :=
  if bool_decide (runtimeSpec = ""%string) then []
  else match ReadFile (Join_path [Join_path [BasePath c; runtimeSpec]; "runtime.yml"]) with
       | None => []
       | Some configData => runtime_entry <$> map_range (runtime_vars configData)
       end.

(** A path list in front of a variable of the server. *)
Definition prepend_env (name path : string) : string :=
  if bool_decide (Getenv environ name = ""%string) then entry name path
  else entry name (path +:+ ":" +:+ Getenv environ name).

(** [src/internal/joblet/core/execution/environment_service.go EnvironmentService.buildGPUEnvironment] *)
Definition buildGPUEnvironment (c : Config) (j : Job) : list string :=
  match GPUIndices j with
  | [] => []
  | indices => [entry "CUDA_VISIBLE_DEVICES" (Join (Itoa <$> indices) ",")]
  end ++
  [entry "JOBLET_GPU_COUNT" (Itoa (GPUCount j)); entry "JOBLET_GPU_MEMORY_MB" (Itoa (GPUMemoryMB j));
   entry "JOBLET_GPU_ALLOCATED_COUNT" (Itoa (Z.of_nat (List.length (GPUIndices j))))] ++
  match CUDAPaths c with
  | cudaPath :: _ =>
      if gpu_Enabled c then
        [entry "CUDA_HOME" cudaPath; entry "CUDA_ROOT" cudaPath;
         prepend_env "LD_LIBRARY_PATH" (Join_path [cudaPath; "lib64"]);
         prepend_env "PATH" (Join_path [cudaPath; "bin"])]
      else []
  | [] => []
  end.

(** Numbered entries. *)
Definition numbered (prefix : string) (l : list string) : list string :=
  imap (λ i v, entry (prefix +:+ Itoa (Z.of_nat i)) v) l.

(** The block that controls the init process.
    [src/internal/joblet/core/execution/environment_service.go:48-88 EnvironmentService.BuildEnvironment] *)
Definition control_block (c : Config) (phase : string) (j : Job) : list string :=
  [entry "JOBLET_MODE" "init"; entry "JOB_PHASE" phase; entry "JOB_ID" (Uuid j);
   entry "JOB_TYPE" (type_String (Type_ j)); entry "JOB_CGROUP_PATH" "/sys/fs/cgroup";
   entry "JOB_CGROUP_HOST_PATH" (CgroupPath j);
   entry "JOB_MAX_CPU" (Itoa (cpu_value (CPU (Limits j))));
   entry "JOB_MAX_MEMORY" (Itoa (Megabytes (Memory (Limits j))));
   entry "JOB_MAX_IOBPS" (Itoa (bw_bytes (IOBandwidth (Limits j))));
   entry "JOB_COMMAND" (Command j); entry "JOB_ARGS_COUNT" (Itoa (Z.of_nat (List.length (Args j))))] ++
  ForwardFilesystemEnv c ++ ForwardRuntimeEnv c ++
  numbered "JOB_ARG_" (Args j) ++
  (if cores_IsEmpty (CPUCores (Limits j)) then []
   else [entry "JOB_CPU_CORES" (core_spec (CPUCores (Limits j)))]) ++
  match Volumes j with
  | [] => []
  | vs => entry "JOB_VOLUMES_COUNT" (Itoa (Z.of_nat (List.length vs))) :: numbered "JOB_VOLUME_" vs
  end ++
  (if bool_decide (Runtime j = ""%string) then [] else [entry "JOB_RUNTIME" (Runtime j)]).

(** The server's own environment, the client's, the runtime's, the GPUs', and last
    the control block.
    [src/internal/joblet/core/execution/environment_service.go EnvironmentService.BuildEnvironment] *)
Definition BuildEnvironment (c : Config) (j : Job) (phase : string) : list string :=
  FilterServerConfigEnv environ ++
  env_of_map (Environment_ j) ++ env_of_map (SecretEnvironment j) ++
  (if bool_decide (Runtime j = ""%string) then [] else getRuntimeEnvironment c (Runtime j)) ++
  (if HasGPURequirement j && IsGPUAllocated j then buildGPUEnvironment c j else []) ++
  control_block c phase j.
End service.

(** ** Starting the process *)

(** [networkReadyFile]: set when the job has a network of its own.
    [src/internal/joblet/core/execution/coordinator.go:120-137 ExecutionCoordinator.StartJob] *)
Definition with_ready_file (networkReadyFile : option string) (env : list string) : list string :=
  match networkReadyFile with Some f => env ++ [entry "NETWORK_READY_FILE" f] | None => env end.

(** [src/internal/joblet/core/process/manager.go Manager.validateEnvironment] *)
Definition validateEnvironment (env : list string) : bool :=
  forallb (λ kv, negb (contains_byte kv "000") && contains_byte kv "=") env.

(** The environment the init process finds; [None] when it is refused.
    [src/internal/joblet/core/process/manager.go:150-155 Manager.createAndStartCommand] *)
Definition launched_env (env : list string) : option (list string) :=
  if validateEnvironment env then Some (dedupEnv env) else None.

(** ** The init process *)

(** [src/internal/joblet/core/environment/builder.go:192-201 JobConfig] *)
Record JobConfig := {
  jc_JobUUID : string; jc_Command : string; jc_Args : list string; jc_CgroupPath : string;
  jc_HasUploadSession : bool; jc_UploadPipePath : string; jc_TotalFiles : Z;
}.

(** [strconv.Atoi] with its error ignored: zero for what is no number, and the
    nearest bound for what is out of range. *)
Definition Atoi_value (s : string) : Z :=
  let l := bytes s in
  let z := match l with
           | "-"%char :: l' => Z.opp <$> parse_digits l'
           | "+"%char :: l' => parse_digits l'
           | _ => parse_digits l
           end in
  match z with Some z => Z.max (min_int 64) (Z.min (max_int 64) z) | None => 0 end.

(** The loop over the arguments: [n] from [i] on. *)
Fixpoint load_args (env : list string) (n : nat) (i : Z) : list string :=
  match n with
  | O => []
  | S n =>
      let arg := Getenv env ("JOB_ARG_" +:+ Itoa i) in
      if bool_decide (arg = ""%string) then load_args env n (i + 1)
      else arg :: load_args env n (i + 1)
  end.

Inductive init_error := NoJobID | NoCommand | PhaseUpload | PhaseUnknown (p : string) | CommandNotFound.

(** [None]: a negative number of arguments makes [make] panic.
    [src/internal/joblet/core/environment/builder.go Builder.LoadJobConfigFromEnvironment] *)
Definition LoadJobConfigFromEnvironment (env : list string) : option (result init_error JobConfig) :=
  let jobID := Getenv env "JOB_ID" in
  if bool_decide (jobID = ""%string) then Some (Err NoJobID) else
  let command := Getenv env "JOB_COMMAND" in
  if bool_decide (command = ""%string) then Some (Err NoCommand) else
  let cgroupPath := Getenv env "JOB_CGROUP_PATH" in
  let argsCount := Atoi_value (Getenv env "JOB_ARGS_COUNT") in
  if argsCount <? 0 then None else
  Some (Ok {| jc_JobUUID := jobID; jc_Command := command;
        jc_Args := load_args env (Z.to_nat argsCount) 0;
        jc_CgroupPath := if bool_decide (cgroupPath = ""%string) then "/sys/fs/cgroup" else cgroupPath;
        jc_HasUploadSession := bool_decide (Getenv env "JOB_UPLOAD_SESSION" = "true"%string);
        jc_UploadPipePath := Getenv env "JOB_UPLOAD_PIPE";
        jc_TotalFiles := Atoi_value (Getenv env "JOB_UPLOAD_TOTAL_FILES") |}).

(** What the init process is to do in the end: become a program, as root or as nobody. *)
Inductive init_action :=
| ExecAsRoot (path : string) (argv env : list string)
| ExecAsNobody (path : string) (argv env : list string).

(** The lines of the file with the runtime's variables.
    [src/internal/modes/jobexec/jobexec.go JobExecutor.loadRuntimeEnvironment] *)
Definition loadRuntimeEnvironment (content : option string) : list string :=
  match content with
  | None => []
  | Some text =>
      filter (λ line, negb (bool_decide (line = ""%string) || HasPrefix line "#") = true)
        (TrimSpace <$> Split text "010")
  end.

(** What is to be executed, with which arguments and environment, and whether the privileges
    are to be given up before; [resolve] is the lookup of the command.  The steps that
    carry it out, each of which can fail, are in JobInit.v.
    [src/internal/modes/jobexec/jobexec.go:112-135 JobExecutor.executeCommand] *)
Definition chosen_command (resolve : string → option string) (runtimeEnv : option string)
    (env : list string) (config : JobConfig) : result init_error init_action :=
  match resolve (jc_Command config) with
  | None => Err CommandNotFound
  | Some commandPath =>
      let envv := env ++ loadRuntimeEnvironment runtimeEnv in
      let argv := commandPath :: jc_Args config in
      if bool_decide (Getenv env "JOB_TYPE" = "runtime-build"%string)
      then Ok (ExecAsRoot commandPath argv envv) else Ok (ExecAsNobody commandPath argv envv)
  end.

(** The same with the configuration and the phase that the environment gives.
    [src/internal/modes/jobexec/jobexec.go:63-86 JobExecutor.ExecuteJob] *)
Definition chosen_action (resolve : string → option string) (runtimeEnv : option string)
    (env : list string) : option (result init_error init_action) :=
  match LoadJobConfigFromEnvironment env with
  | None => None
  | Some (Err e) => Some (Err e)
  | Some (Ok config) =>
      let phase := Getenv env "JOB_PHASE" in
      Some (if bool_decide (phase = "upload"%string) then Err PhaseUpload
            else if bool_decide (phase = "execute"%string) || bool_decide (phase = ""%string)
            then chosen_command resolve runtimeEnv env config
            else Err (PhaseUnknown phase))
  end.

(** The mode the binary starts in: the daemon only without job-control variables.
    [src/cmd/joblet/main.go:24-33 main] *)
Inductive mode := InitMode | RefuseToStart | ServerMode.

(** [src/pkg/config/config.go LooksLikeJobProcess] *)
Definition LooksLikeJobProcess (env : list string) : bool :=
  negb (bool_decide (Getenv env "JOB_ID" = ""%string)) ||
  negb (bool_decide (Getenv env "JOB_CGROUP_HOST_PATH" = ""%string)).

(** [src/cmd/joblet/main.go:24-33 main] *)
Definition start_mode (env : list string) : mode :=
  if bool_decide (Getenv env "JOBLET_MODE" = "init"%string) then InitMode
  else if LooksLikeJobProcess env then RefuseToStart else ServerMode.

(** ** Looking a key up *)

(** The value that wins: that of the last entry of the key. *)
Definition last_value (k : string) (env : list string) : option string := LookupEnv (rev env) k.

(** A key an entry can have without its text being misread. *)
Definition good_key (k : string) : bool :=
  negb (bool_decide (k = ""%string)) && negb (contains_byte k "=").

Lemma good_key_spec k : good_key k = true ↔ k ≠ ""%string ∧ "="%char ∉ bytes k.
Proof.
  unfold good_key. rewrite contains_byte_spec, andb_true_iff, !negb_true_iff, !bool_decide_eq_false. done.
Qed.

Lemma entry_bytes k v : bytes (entry k v) = bytes k ++ "="%char :: bytes v.
Proof. unfold entry, env_entry. by rewrite !bytes_app. Qed.

Lemma entry_key_entry k v : good_key k = true → entry_key (entry k v) = Some k.
Proof.
  intros [Hk He]%good_key_spec. unfold entry_key. rewrite entry_bytes, cut_bytes_app by done.
  rewrite of_bytes_bytes. by destruct k.
Qed.

Lemma entry_value_entry k k' v : good_key k = true →
  entry_value k' (entry k v) = if decide (k = k') then Some v else None.
Proof.
  intros Hk. unfold entry_value. rewrite entry_key_entry by done. case_decide as E.
  - subst. rewrite bool_decide_eq_true_2 by done. rewrite entry_bytes. f_equal.
    rewrite cons_middle, app_assoc, drop_app_length'; [apply of_bytes_bytes|].
    rewrite length_app. simpl. lia.
  - by rewrite bool_decide_eq_false_2 by congruence.
Qed.

Lemma entry_value_other k kv : entry_key kv ≠ Some k → entry_value k kv = None.
Proof. intros H. unfold entry_value. by rewrite bool_decide_eq_false_2. Qed.

Lemma LookupEnv_app l1 l2 k : LookupEnv (l1 ++ l2) k =
  match LookupEnv l1 k with Some v => Some v | None => LookupEnv l2 k end.
Proof. induction l1 as [|kv l1 IH]; [done|]. simpl. by destruct (entry_value k kv). Qed.

Lemma last_value_app k l1 l2 : last_value k (l1 ++ l2) =
  match last_value k l2 with Some v => Some v | None => last_value k l1 end.
Proof. unfold last_value. rewrite rev_app_distr. apply LookupEnv_app. Qed.

Lemma last_value_cons k kv l : last_value k (kv :: l) =
  match last_value k l with Some v => Some v | None => entry_value k kv end.
Proof. change (kv :: l) with ([kv] ++ l). rewrite last_value_app. unfold last_value at 2. simpl. by destruct (entry_value k kv). Qed.

(** No entry of the list has the key. *)
Definition free (k : string) (env : list string) : Prop := Forall (λ kv, entry_key kv ≠ Some k) env.

Lemma LookupEnv_free k env : free k env → LookupEnv env k = None.
Proof. induction 1 as [|kv env Hk _ IH]; [done|]. simpl. by rewrite entry_value_other. Qed.

Lemma last_value_free k env : free k env → last_value k env = None.
Proof. intros H. apply LookupEnv_free. by apply Forall_rev. Qed.

Lemma free_app k l1 l2 : free k (l1 ++ l2) ↔ free k l1 ∧ free k l2.
Proof. apply Forall_app. Qed.

Lemma free_entry k k' v : good_key k' = true → k' ≠ k → entry_key (entry k' v) ≠ Some k.
Proof. intros. rewrite entry_key_entry by done. congruence. Qed.

Lemma dedup_rev_saw saw l k : k ∈ saw → free k (dedup_rev saw l).
Proof.
  revert saw. induction l as [|kv l IH]; intros saw Hk; simpl; [constructor|].
  destruct (entry_key kv) as [k'|] eqn:E.
  - case_bool_decide; [by apply IH|]. constructor; [congruence|]. apply IH. set_solver.
  - case_bool_decide; [by apply IH|]. constructor; [congruence|]. by apply IH.
Qed.

Lemma dedup_rev_lookup saw l k : k ∉ saw → LookupEnv (rev (dedup_rev saw l)) k = LookupEnv l k.
Proof.
  revert saw. induction l as [|kv l IH]; intros saw Hk; simpl; [done|].
  destruct (entry_key kv) as [k'|] eqn:E.
  - destruct (decide (k' = k)) as [->|Hne].
    + rewrite bool_decide_eq_false_2 by done. simpl. rewrite LookupEnv_app.
      rewrite LookupEnv_free by (apply Forall_rev, dedup_rev_saw; set_solver).
      simpl. unfold entry_value. by rewrite E, bool_decide_eq_true_2.
    + rewrite entry_value_other by congruence. case_bool_decide; [by apply IH|].
      simpl. rewrite LookupEnv_app, IH by set_solver.
      simpl. rewrite entry_value_other by congruence. by destruct (LookupEnv l k).
  - rewrite entry_value_other by congruence. case_bool_decide; [by apply IH|].
    simpl. rewrite LookupEnv_app, IH by done. simpl.
    rewrite entry_value_other by congruence. by destruct (LookupEnv l k).
Qed.

(** What the process finds is the last entry of each key. *)
Lemma LookupEnv_dedup env k : LookupEnv (dedupEnv env) k = last_value k env.
Proof. unfold dedupEnv, last_value. by apply dedup_rev_lookup. Qed.

(** ** Numbered entries *)

Lemma Itoa_inj m n : 0 ≤ m → 0 ≤ n → Itoa m = Itoa n → m = n.
Proof.
  intros Hm Hn E. rewrite !Itoa_nonneg in E by done.
  apply (f_equal bytes) in E. rewrite !bytes_of_bytes in E.
  pose proof (parse_digits_of m Hm) as H1. rewrite E, parse_digits_of in H1 by done. congruence.
Qed.

Lemma numbered_key prefix i : good_key prefix = true → good_key (prefix +:+ Itoa (Z.of_nat i)) = true.
Proof.
  rewrite !good_key_spec. intros [Hp He]. split; [by destruct prefix|].
  rewrite bytes_app, Itoa_nonneg, bytes_of_bytes by lia. rewrite elem_of_app. intros [|H]; [done|].
  revert H. by apply not_digit_not_in; [apply digits_of_digits; lia|].
Qed.

Lemma free_numbered k prefix l : good_key prefix = true →
  (∀ i, (prefix +:+ Itoa (Z.of_nat i))%string ≠ k) → free k (numbered prefix l).
Proof.
  intros Hp Hk. apply Forall_forall. intros kv (i & v & -> & _)%elem_of_lookup_imap.
  apply free_entry; [by apply numbered_key|done].
Qed.

Lemma string_app_inj p s t : (p +:+ s = p +:+ t)%string → s = t.
Proof. induction p as [|c p IH]; simpl; [done|]. intros [= E]. by apply IH. Qed.

Lemma numbered_snoc prefix l v :
  numbered prefix (l ++ [v]) = numbered prefix l ++ [entry (prefix +:+ Itoa (Z.of_nat (length l))) v].
Proof. unfold numbered. rewrite imap_app. simpl. by rewrite Nat.add_0_r. Qed.

Lemma last_value_numbered prefix l (i : nat) : good_key prefix = true →
  last_value (prefix +:+ Itoa (Z.of_nat i)) (numbered prefix l) = l !! i.
Proof.
  intros Hp. induction l as [|v l IH] using rev_ind; [done|].
  rewrite numbered_snoc, last_value_app. unfold last_value at 1. cbn [rev app LookupEnv].
  rewrite entry_value_entry by by apply numbered_key. case_decide as E.
  - apply string_app_inj, Itoa_inj in E; [|lia..]. assert (i = length l) as -> by lia.
    by rewrite lookup_app_r, Nat.sub_diag by lia.
  - rewrite IH. destruct (decide (i < length l)%nat); [by rewrite lookup_app_l|].
    assert (i ≠ length l) by congruence.
    rewrite (lookup_ge_None_2 l), (lookup_ge_None_2 (l ++ [v])); [done|rewrite length_app; simpl; lia|lia].
Qed.

Lemma load_args_spec env l n : length l = n → ∀ i : nat,
  (∀ m, (m < n)%nat → LookupEnv env ("JOB_ARG_" +:+ Itoa (Z.of_nat (i + m))) = l !! m) →
  load_args env n (Z.of_nat i) = filter (λ a, a ≠ ""%string) l.
Proof.
  revert l. induction n as [|n IH]; intros [|a l] Hl i Hk; try done. simpl in Hl.
  cbn [load_args]. assert (Getenv env ("JOB_ARG_" +:+ Itoa (Z.of_nat i)) = a) as ->.
  { unfold Getenv. specialize (Hk 0%nat ltac:(lia)). rewrite Nat.add_0_r in Hk. by rewrite Hk. }
  assert (load_args env n (Z.of_nat i + 1) = filter (λ a, a ≠ ""%string) l) as E.
  { replace (Z.of_nat i + 1) with (Z.of_nat (S i)) by lia. apply IH; [lia|]. intros m Hm.
    specialize (Hk (S m) ltac:(lia)). by rewrite Nat.add_succ_r in Hk. }
  rewrite E, filter_cons. case_bool_decide; case_decide; done.
Qed.

(** ** The control block *)

Lemma free_nil k : free k [].
Proof. constructor. Qed.

Lemma free_cons k k' v l : good_key k' = true → k' ≠ k → free k l → free k (entry k' v :: l).
Proof. intros. constructor; [by apply free_entry|done]. Qed.

(** Two keys whose texts differ before any number in them. *)
Ltac keys_differ := let E := fresh in intros E; cbn [String.append] in E; discriminate E.

(** Closes [free k env] for a list of entries with constant keys, numbered entries
    and tests; [tac] shows that two keys differ. *)
Ltac solve_free_with tac :=
  repeat match goal with
  | |- free _ (_ ++ _) => apply free_app; split
  | |- free _ [] => apply free_nil
  | |- free _ (entry _ _ :: _) => apply free_cons; [reflexivity|tac|]
  | |- free _ (numbered _ _) => apply free_numbered; [reflexivity|intros ?; tac]
  | |- free _ (if ?b then _ else _) => destruct b
  | |- free _ (match ?x with [] => _ | _ :: _ => _ end) => destruct x
  end.
Ltac solve_free := solve_free_with keys_differ.

(** The value of a constant key in a list of entries with constant keys. *)
Ltac compute_last :=
  unfold last_value; cbn [rev app LookupEnv];
  rewrite ?entry_value_entry by reflexivity;
  repeat (rewrite decide_False by discriminate); rewrite ?decide_True by reflexivity; try reflexivity.

(** The variables that say how a job is run. *)
Definition control_values (phase : string) (j : Job) : list (string * string) :=
  [("JOBLET_MODE", "init"); ("JOB_PHASE", phase); ("JOB_ID", Uuid j);
   ("JOB_TYPE", type_String (Type_ j)); ("JOB_CGROUP_PATH", "/sys/fs/cgroup");
   ("JOB_CGROUP_HOST_PATH", CgroupPath j); ("JOB_COMMAND", Command j);
   ("JOB_ARGS_COUNT", Itoa (Z.of_nat (List.length (Args j))))]%string.

Lemma control_lookup c phase j k v : (k, v) ∈ control_values phase j →
  last_value k (control_block c phase j) = Some v.
Proof.
  intros Hk. unfold control_block. rewrite last_value_app.
  assert (∀ tl head, free k tl → last_value k head = Some v →
    match last_value k tl with Some v => Some v | None => last_value k head end = Some v) as Hcomb.
  { intros tl head Hf Hh. by rewrite last_value_free. }
  apply Hcomb; clear Hcomb.
  - unfold ForwardFilesystemEnv, ForwardRuntimeEnv.
    unfold control_values in Hk. rewrite !elem_of_cons, elem_of_nil in Hk.
    destruct_or! Hk; try done; injection Hk as -> ->; solve_free.
  - unfold control_values in Hk. rewrite !elem_of_cons, elem_of_nil in Hk.
    destruct_or! Hk; try done; injection Hk as -> ->; compute_last.
Qed.

Lemma control_args c phase j (i : nat) : (i < length (Args j))%nat →
  last_value ("JOB_ARG_" +:+ Itoa (Z.of_nat i)) (control_block c phase j) = Args j !! i.
Proof.
  intros Hi. unfold control_block. set (k := ("JOB_ARG_" +:+ Itoa (Z.of_nat i))%string).
  assert (∀ tl head r, free k tl → last_value k head = Some r →
    match last_value k tl with Some v => Some v | None => last_value k head end = Some r) as Hcomb.
  { intros tl head r Hf Hh. by rewrite last_value_free. }
  destruct (lookup_lt_is_Some_2 (Args j) i Hi) as [a Ha]. rewrite Ha.
  rewrite !app_assoc. do 3 (rewrite last_value_app; apply Hcomb;
    [unfold k; solve_free|]).
  rewrite last_value_app. unfold k. by rewrite last_value_numbered, Ha.
Qed.

(** ** What the init process finds *)

Lemma Atoi_value_ok s z : Atoi s = Some z → Atoi_value s = z.
Proof.
  unfold Atoi, Atoi_value. intros (y & Hy & H)%bind_Some. case_bool_decide as Hr; [|done].
  injection H as ->. rewrite Hy. unfold in_int in Hr. lia.
Qed.

(** The namespace of the variables above; clients may not use it. *)
Definition control_namespace (k : string) : bool := HasPrefix k "JOB_" || HasPrefix k "JOBLET_".

Lemma free_control c phase j k : control_namespace k = false → free k (control_block c phase j).
Proof.
  intros Hk. unfold control_block, ForwardFilesystemEnv, ForwardRuntimeEnv.
  solve_free_with ltac:(let E := fresh in intros E; rewrite <- E in Hk; discriminate Hk).
Qed.

Section found.
Context `{!MapRange}.
Variables (environ : list string) (ReadFile : string → option string) (c : Config).

Lemma last_value_map m k : (∀ k' v, m !! k' = Some v → good_key k' = true) →
  last_value k (env_of_map m) = m !! k.
Proof.
  intros Hgood. unfold env_of_map.
  assert (Hnd : NoDup (map_range m).*1) by (rewrite map_range_perm; apply NoDup_fst_map_to_list).
  assert (Hm : ∀ k v, (k, v) ∈ map_range m ↔ m !! k = Some v)
    by (intros; rewrite map_range_perm; apply elem_of_map_to_list).
  destruct (m !! k) as [v|] eqn:E.
  - apply Hm, list_elem_of_split in E as (l1 & l2 & E). rewrite E in Hnd, Hm |- *.
    rewrite fmap_app, fmap_cons in Hnd. apply NoDup_app in Hnd as (_ & _ & [Hk _]%NoDup_cons).
    rewrite fmap_app, fmap_cons, last_value_app, last_value_cons, last_value_free.
    + rewrite entry_value_entry by (eapply Hgood, Hm; apply elem_of_app; right; left).
      by rewrite decide_True.
    + apply Forall_fmap, Forall_forall. intros [k' v'] Hin. cbn. apply free_entry.
      { eapply Hgood, Hm. apply elem_of_app. right. by right. }
      intros ->. apply Hk. apply list_elem_of_fmap. by exists (k, v').
  - apply last_value_free, Forall_fmap, Forall_forall. intros [k' v'] Hin%Hm. cbn.
    apply free_entry; [by eapply Hgood|]. intros ->. simpl in Hin. congruence.
Qed.

Lemma launched_lookup env env' k : launched_env env = Some env' → LookupEnv env' k = last_value k env.
Proof. unfold launched_env. destruct (validateEnvironment env); [|done]. intros [= <-]. apply LookupEnv_dedup. Qed.

Lemma ready_file_last f env k : k ≠ "NETWORK_READY_FILE"%string →
  last_value k (with_ready_file f env) = last_value k env.
Proof.
  intros Hk. destruct f as [f|]; [|done]. unfold with_ready_file. rewrite last_value_app, last_value_free; [done|].
  by apply free_cons; [..|apply free_nil].
Qed.

(** Whatever comes before it, the control block decides its variables. *)
Lemma control_decides f j phase env' k v : k ≠ "NETWORK_READY_FILE"%string →
  last_value k (control_block c phase j) = Some v →
  launched_env (with_ready_file f (BuildEnvironment environ ReadFile c j phase)) = Some env' →
  LookupEnv env' k = Some v.
Proof.
  intros Hk Hc He. rewrite (launched_lookup _ _ k He), ready_file_last by done.
  unfold BuildEnvironment. rewrite !app_assoc, last_value_app. by rewrite Hc.
Qed.

Lemma control_found f j phase env' k v : (k, v) ∈ control_values phase j →
  launched_env (with_ready_file f (BuildEnvironment environ ReadFile c j phase)) = Some env' →
  LookupEnv env' k = Some v.
Proof.
  intros Hk. apply control_decides; [|by apply control_lookup].
  unfold control_values in Hk. rewrite !elem_of_cons, elem_of_nil in Hk.
  destruct_or! Hk; try done; by injection Hk as -> ->.
Qed.

Lemma init_mode f j phase env' :
  launched_env (with_ready_file f (BuildEnvironment environ ReadFile c j phase)) = Some env' →
  start_mode env' = InitMode.
Proof.
  intros He. unfold start_mode, Getenv.
  rewrite (control_found f j phase env' "JOBLET_MODE" "init" ltac:(by left) He). done.
Qed.

(** The init process runs the command that was submitted, with the arguments that
    were submitted except those that are empty, and gives up root unless the job
    was created as a runtime build. *)
Lemma init_runs f j env' resolve runtimeEnv :
  Uuid j ≠ ""%string → Command j ≠ ""%string → Z.of_nat (length (Args j)) ≤ max_int 64 →
  launched_env (with_ready_file f (BuildEnvironment environ ReadFile c j "execute")) = Some env' →
  chosen_action resolve runtimeEnv env' = Some
    match resolve (Command j) with
    | None => Err CommandNotFound
    | Some path =>
        let argv := path :: filter (λ a, a ≠ ""%string) (Args j) in
        let envv := env' ++ loadRuntimeEnvironment runtimeEnv in
        Ok (if bool_decide (Type_ j = JobTypeRuntimeBuild) then ExecAsRoot path argv envv
            else ExecAsNobody path argv envv)
    end.
Proof.
  intros Hu Hcmd Hlen He.
  assert (Hget : ∀ k v, (k, v) ∈ control_values "execute" j → Getenv env' k = v).
  { intros k v Hk. unfold Getenv. by rewrite (control_found f j _ env' k v Hk He). }
  unfold chosen_action, LoadJobConfigFromEnvironment, chosen_command.
  rewrite !(Hget "JOB_ID"%string _ ltac:(do 2 right; left)), !(Hget "JOB_COMMAND"%string _ ltac:(do 6 right; left)).
  rewrite !(Hget "JOB_ARGS_COUNT"%string _ ltac:(do 7 right; left)).
  rewrite !(Hget "JOB_TYPE"%string _ ltac:(do 3 right; left)), !(Hget "JOB_PHASE"%string _ ltac:(right; left)).
  rewrite (bool_decide_eq_false_2 (Uuid j = _)), (bool_decide_eq_false_2 (Command j = _)) by done.
  rewrite (Atoi_value_ok _ (Z.of_nat (length (Args j)))) by (apply Atoi_Itoa; unfold in_int, min_int; lia).
  rewrite (proj2 (Z.ltb_ge _ 0)), Nat2Z.id by lia. cbn [jc_Command jc_Args].
  replace (load_args env' (length (Args j)) 0) with (filter (λ a, a ≠ ""%string) (Args j)).
  2:{ symmetry. apply (load_args_spec env' (Args j) (length (Args j)) eq_refl 0). intros m Hm. destruct (lookup_lt_is_Some_2 (Args j) m Hm) as [a Ha].
      rewrite Ha. apply (control_decides f j "execute" env'); [keys_differ| |exact He].
      change (0 + m)%nat with m. by rewrite control_args. }
  cbn [orb]. rewrite (bool_decide_eq_false_2 ("execute"%string = _)), bool_decide_eq_true_2 by done.
  cbn [orb]. destruct (resolve (Command j)); [|done]. f_equal.
  assert (bool_decide (type_String (Type_ j) = "runtime-build"%string) =
    bool_decide (Type_ j = JobTypeRuntimeBuild)) as ->.
  { apply bool_decide_ext. unfold type_String, JobTypeRuntimeBuild.
    destruct (bool_decide (Type_ j = _)) eqn:E; [|done]. to_prop. by rewrite E. }
  by destruct (bool_decide _).
Qed.

(** No variable of the client, of the runtime, of the GPUs or of the server itself
    can replace those that say how a job is run: whatever they hold, the process
    the server starts finds its own mode, phase, job, job type, cgroup, command
    and argument count, and so comes up as an init process. *)
Theorem control_variables_win f j phase env' :
  launched_env (with_ready_file f (BuildEnvironment environ ReadFile c j phase)) = Some env' →
  (∀ k v, (k, v) ∈ control_values phase j → LookupEnv env' k = Some v) ∧ start_mode env' = InitMode.
Proof. intros He. split; [|by eapply init_mode]. intros k v Hk. by eapply control_found. Qed.

(** A variable the client may set, and that neither the secrets nor the GPUs or a
    runtime also set, reaches the job with the client's value, over any value
    the server has for it. *)
Theorem client_variable_delivered f j phase env' k v :
  (∀ k' v', Environment_ j !! k' = Some v' ∨ SecretEnvironment j !! k' = Some v' → good_key k' = true) →
  control_namespace k = false → k ≠ "NETWORK_READY_FILE"%string →
  Environment_ j !! k = Some v → SecretEnvironment j !! k = None →
  Runtime j = ""%string → HasGPURequirement j = false →
  launched_env (with_ready_file f (BuildEnvironment environ ReadFile c j phase)) = Some env' →
  LookupEnv env' k = Some v.
Proof.
  intros Hgood Hk Hkn Henv Hsec Hrt Hgpu He.
  rewrite (launched_lookup _ _ k He), ready_file_last by done.
  unfold BuildEnvironment. rewrite Hrt, Hgpu, bool_decide_eq_true_2 by done. cbn [andb app].
  rewrite last_value_app, !last_value_app, (last_value_free _ (control_block _ _ _)) by by apply free_control.
  rewrite !last_value_map by naive_solver. by rewrite Hsec, Henv.
Qed.
End found.

(** ** Examples *)

(** A range in the order of the map's own list. *)
Definition list_range : MapRange := {| map_range := map_to_list; map_range_perm := λ m, reflexivity _ |}.

(** A server with a PATH of its own and a leftover of a job. *)
Definition sample_environ : list string := ["PATH=/usr/bin"; "JOB_ID=left-over"; "JOBLET_MODE=server"]%string.

Definition sample_config : Config :=
  {| WorkspaceDir := "/work"; BaseDir := "/opt/joblet/jobs"; TmpDir := "/tmp/job"; BasePath := "/opt/joblet/runtimes";
     AllowedMounts := ["/usr"; "/lib"]%string; gpu_Enabled := false; CUDAPaths := [] |}.

Definition sample_limits : ResourceLimits :=
  {| CPU := {| cpu_value := 50 |}; Memory := {| mem_bytes := 1048576 |};
     IOBandwidth := {| bw_bytes := 0 |}; CPUCores := {| core_list := []; core_spec := "" |} |}.

(** A job whose variables shadow the server's. *)
Definition sample_env_job : Job :=
  {| Uuid := "u1"; Command := "python3"; Args := ["-c"; ""; "print(1)"]%string; Type_ := "standard";
     Limits := sample_limits; CgroupPath := "/cg/job-u1"; Status := StatusInitializing; Pid := 0; StartTime := 0;
     EndTime := None; ScheduledTime := None; ExitCode := 0; Network := "bridge"; Volumes := ["data"%string];
     Runtime := ""; WorkingDirectory := ""; Uploads := [];
     Environment_ := <["PATH" := "/opt/bin"]> (<["JOB_ID" := "other"]> ∅); SecretEnvironment := {["TOKEN" := "x"]};
     GPUIndices := []; GPUMIGUUIDs := []; GPUCount := 0; GPUMemoryMB := 0; NodeId := "n"; Timeout := 0;
     cache := empty_cache |}.

Definition sample_started : option (list string) :=
  launched_env (with_ready_file (Some "/run/ready"%string)
    (BuildEnvironment (H := list_range) sample_environ (λ _, None) sample_config sample_env_job "execute")).

Lemma control_variables_win_witness : ∃ env', sample_started = Some env' ∧
  LookupEnv env' "JOB_ID" = Some "u1"%string ∧ start_mode env' = InitMode.
Proof.
  destruct sample_started as [env'|] eqn:E; [|exfalso; revert E; vm_compute; discriminate].
  exists env'. split; [done|].
  destruct (control_variables_win (H := list_range) sample_environ (λ _, None) sample_config
    (Some "/run/ready"%string) sample_env_job "execute" env' E) as [Hk Hm].
  split; [|exact Hm]. apply Hk. right. right. by left.
Defined.

Lemma client_variable_delivered_witness : ∃ env', sample_started = Some env' ∧
  LookupEnv env' "PATH" = Some "/opt/bin"%string.
Proof.
  destruct sample_started as [env'|] eqn:E; [|exfalso; revert E; vm_compute; discriminate].
  exists env'. split; [done|].
  refine (client_variable_delivered (H := list_range) sample_environ (λ _, None) sample_config
    (Some "/run/ready"%string) sample_env_job "execute" env' "PATH" "/opt/bin" _ _ _ _ _ _ _ E);
    [|reflexivity|discriminate|vm_compute; reflexivity|vm_compute; reflexivity|reflexivity|reflexivity].
  assert (Hm : map_Forall (λ k _, good_key k = true) (Environment_ sample_env_job) ∧
    map_Forall (λ k _, good_key k = true) (SecretEnvironment sample_env_job))
    by (apply (bool_decide_unpack _); vm_compute; exact I).
  intros k v [Hk|Hk]; [exact (proj1 Hm k v Hk)|exact (proj2 Hm k v Hk)].
Defined.
