(* ===== verification/Config.v ===== *)
(** * Configuration (pkg/config/config.go, cmd/joblet/main.go)

    What the server and the init process of a job read from files and from their
    environment.  The decoding of YAML is the class [YAML]; whether a file is
    missing and what reading it gives are arguments. *)

From Stdlib Require Import Ascii String.
From S2P Require Import Prelude GoStrings Values Paths Job Environment.

Local Open Scope Z_scope.

(** ** The configuration of the server *)

(** [src/pkg/config/config.go ServerConfig] *)
Record ServerConfig := { sv_Address : string; sv_Port : Z; sv_Mode : string; sv_NodeId : string }.
(** [src/pkg/config/config.go SecurityConfig] *)
Record SecurityConfig := { sc_ServerCert : string; sc_ServerKey : string; sc_CACert : string }.
(** [src/pkg/config/config.go JobletConfig] *)
Record JobletConfig := {
  jb_DefaultCPULimit : Z; jb_DefaultMemoryLimit : Z; jb_DefaultIOLimit : Z; jb_MaxConcurrentJobs : Z; jb_JobTimeout : Z; jb_CleanupTimeout : Z;
}.
(** [src/pkg/config/config.go CgroupConfig] *)
Record CgroupConfig := { cg_BaseDir : string; cg_NamespaceMount : string; cg_EnableControllers : list string; cg_CleanupTimeout : Z }.
(** [src/pkg/config/config.go FilesystemConfig] *)
Record FilesystemConfig := { fs_BaseDir : string; fs_TmpDir : string; fs_WorkspaceDir : string }.
(** [src/pkg/config/config.go GRPCConfig] *)
Record GRPCConfig := {
  gr_MaxRecvMsgSize : Z; gr_MaxSendMsgSize : Z; gr_MaxHeaderListSize : Z; gr_KeepAliveTime : Z; gr_KeepAliveTimeout : Z;
  gr_MaxConcurrentStreams : Z; gr_ConnectionTimeout : Z;
}.
(** [src/pkg/config/config.go LoggingConfig] *)
Record LoggingConfig := { lg_Level : string; lg_Format : string; lg_Output : string }.
(** [src/pkg/config/config.go:36-52 NetworkConfig] *)
Record NetworkDefinition := { nd_CIDR : string; nd_BridgeName : string }.
Record NetworkConfig := {
  nw_StateDir : string; nw_Enabled : bool; nw_DefaultNetwork : string; nw_Networks : gmap string NetworkDefinition; nw_AllowCustomNetworks : bool; nw_StoragePath : string;
}.
(** [src/pkg/config/config.go MonitoringConfig] *)
Record MonitoringConfig := { mo_SystemInterval : Z; mo_CloudDetection : bool }.
(** [src/pkg/config/config.go BuffersConfig] *)
Record BuffersConfig := { bu_PubsubBufferSize : Z; bu_ChunkSize : Z }.
(** [src/pkg/config/config.go VolumesConfig] *)
Record VolumesConfig := { vo_BasePath : string; vo_DefaultDiskQuotaBytes : Z }.
(** [src/pkg/config/config.go RuntimeConfig] *)
Record RuntimeConfig := { rt_BasePath : string; rt_CommonPaths : list string; rt_AllowedMounts : list string }.
(** [src/pkg/config/config.go GPUConfig] *)
Record GPUConfig := {
  gp_Enabled : bool; gp_CUDAPaths : list string; gp_AllocationStrategy : string; gp_ScrubPolicy : string; gp_Simulate : bool; gp_SimulateCount : Z;
}.
(** [src/pkg/config/config.go IPCConfig] *)
Record IPCConfig := { ip_Enabled : bool; ip_Socket : string; ip_BufferSize : Z; ip_ReconnectDelay : Z; ip_MaxReconnects : Z }.
(** [src/pkg/config/config.go TelemetryConfig] *)
Record TelemetryConfig := { te_MetricsInterval : Z; te_EbpfEnabled : bool; te_EventTypes : list string }.
(** [src/pkg/config/config.go StatePoolConfig] *)
Record StatePoolConfig := { sp_Size : Z; sp_ReadTimeout : Z; sp_DialTimeout : Z; sp_MaxIdleTime : Z; sp_HealthCheckTimeout : Z; sp_ShutdownTimeout : Z }.
(** [src/pkg/config/config.go StateClientConfig] *)
Record StateClientConfig := { sl_MaxRetries : Z; sl_RetryBaseDelay : Z; sl_RetryMaxDelay : Z; sl_ConnectTimeout : Z }.
(** [src/pkg/config/config.go DynamoDBStateConfig] *)
Record DynamoDBStateConfig := {
  dy_Region : string; dy_TableName : string; dy_TTLEnabled : bool; dy_TTLAttribute : string; dy_TTLDays : Z; dy_ReadCapacity : Z; dy_WriteCapacity : Z;
  dy_BatchSize : Z; dy_BatchInterval : string;
}.
(** [src/pkg/config/config.go StateConfig] *)
Record StateConfig := {
  st_Backend : string; st_Socket : string; st_BufferSize : Z; st_ReconnectDelay : Z; st_Pool : StatePoolConfig; st_Client : StateClientConfig;
  st_LocalDirectory : string; st_SyncInterval : string; st_DynamoDB : option DynamoDBStateConfig;
}.
(** [src/pkg/config/config.go Config] *)
Record Configuration := {
  Version : string; Server : ServerConfig; Security : SecurityConfig; Joblet : JobletConfig; Cgroup : CgroupConfig; Filesystem : FilesystemConfig; GRPC : GRPCConfig;
  Logging : LoggingConfig; Network : NetworkConfig; Monitoring : MonitoringConfig; Buffers : BuffersConfig; Volumes : VolumesConfig; Runtime : RuntimeConfig;
  GPU : GPUConfig; IPC : IPCConfig; State : StateConfig; Telemetry : TelemetryConfig;
}.

Definition second : Z := 1000000000.
(** [src/pkg/config/config.go:251-363 DefaultConfig] *)
Definition DefaultConfig : Configuration := {|
  Version := "3.0";
  Server := {| sv_Address := "0.0.0.0"; sv_Port := 50051; sv_Mode := "server"; sv_NodeId := "" |};
  Security := {| sc_ServerCert := ""; sc_ServerKey := ""; sc_CACert := "" |};
  Joblet := {| jb_DefaultCPULimit := 100; jb_DefaultMemoryLimit := 512; jb_DefaultIOLimit := 0; jb_MaxConcurrentJobs := 100; jb_JobTimeout := 3600 * second; jb_CleanupTimeout := 5 * second |};
  Cgroup := {| cg_BaseDir := "/sys/fs/cgroup/joblet.slice/joblet.service"; cg_NamespaceMount := "/sys/fs/cgroup";
               cg_EnableControllers := ["cpu"; "memory"; "io"; "pids"; "cpuset"; "devices"]%string; cg_CleanupTimeout := 5 * second |};
  Filesystem := {| fs_BaseDir := "/opt/joblet/jobs"; fs_TmpDir := "/tmp/job-{JOB_ID}"; fs_WorkspaceDir := "/work" |};
  GRPC := {| gr_MaxRecvMsgSize := 134217728; gr_MaxSendMsgSize := 134217728; gr_MaxHeaderListSize := 16777216; gr_KeepAliveTime := 10 * second; gr_KeepAliveTimeout := 3 * second;
             gr_MaxConcurrentStreams := 1000; gr_ConnectionTimeout := 10 * second |};
  Logging := {| lg_Level := "INFO"; lg_Format := "text"; lg_Output := "stdout" |};
  Network := {| nw_StateDir := "/opt/joblet/network"; nw_Enabled := true; nw_DefaultNetwork := "bridge"; nw_AllowCustomNetworks := true; nw_StoragePath := "/opt/joblet/network";
                nw_Networks := {["bridge"%string := {| nd_CIDR := "172.20.0.0/16"; nd_BridgeName := "joblet0" |}]} |};
  Monitoring := {| mo_SystemInterval := 10 * second; mo_CloudDetection := true |};
  Buffers := {| bu_PubsubBufferSize := 10000; bu_ChunkSize := 1048576 |};
  Volumes := {| vo_BasePath := "/opt/joblet/volumes"; vo_DefaultDiskQuotaBytes := 1048576 |};
  Runtime := {| rt_BasePath := "/opt/joblet/runtimes"; rt_CommonPaths := ["/usr/local/bin"; "/usr/local/lib"; "/usr/lib/jvm"; "/usr/local/node"; "/usr/local/go"]%string;
                rt_AllowedMounts := ["/usr/bin"; "/bin"; "/lib"; "/lib64"]%string |};
  GPU := {| gp_Enabled := false; gp_CUDAPaths := ["/usr/local/cuda"; "/opt/cuda"]%string; gp_AllocationStrategy := "first-fit"; gp_ScrubPolicy := ""; gp_Simulate := false; gp_SimulateCount := 0 |};
  IPC := {| ip_Enabled := false; ip_Socket := "/opt/joblet/run/persist-ipc.sock"; ip_BufferSize := 10000; ip_ReconnectDelay := 5 * second; ip_MaxReconnects := 0 |};
  State := {| st_Backend := ""; st_Socket := ""; st_BufferSize := 0; st_ReconnectDelay := 0;
              st_Pool := {| sp_Size := 0; sp_ReadTimeout := 0; sp_DialTimeout := 0; sp_MaxIdleTime := 0; sp_HealthCheckTimeout := 0; sp_ShutdownTimeout := 0 |};
              st_Client := {| sl_MaxRetries := 0; sl_RetryBaseDelay := 0; sl_RetryMaxDelay := 0; sl_ConnectTimeout := 0 |}; st_LocalDirectory := ""; st_SyncInterval := ""; st_DynamoDB := None |};
  Telemetry := {| te_MetricsInterval := 5 * second; te_EbpfEnabled := true; te_EventTypes := [] |};
|}.

(** Updates of one part. *)
Definition with_server (x : ServerConfig) (c : Configuration) : Configuration :=
  {| Version := Version c; Server := x; Security := Security c; Joblet := Joblet c; Cgroup := Cgroup c; Filesystem := Filesystem c; GRPC := GRPC c; Logging := Logging c;
     Network := Network c; Monitoring := Monitoring c; Buffers := Buffers c; Volumes := Volumes c; Runtime := Runtime c; GPU := GPU c; IPC := IPC c; State := State c; Telemetry := Telemetry c |}.
Definition with_logging (x : LoggingConfig) (c : Configuration) : Configuration :=
  {| Version := Version c; Server := Server c; Security := Security c; Joblet := Joblet c; Cgroup := Cgroup c; Filesystem := Filesystem c; GRPC := GRPC c; Logging := x;
     Network := Network c; Monitoring := Monitoring c; Buffers := Buffers c; Volumes := Volumes c; Runtime := Runtime c; GPU := GPU c; IPC := IPC c; State := State c; Telemetry := Telemetry c |}.
Definition with_filesystem (x : FilesystemConfig) (c : Configuration) : Configuration :=
  {| Version := Version c; Server := Server c; Security := Security c; Joblet := Joblet c; Cgroup := Cgroup c; Filesystem := x; GRPC := GRPC c; Logging := Logging c;
     Network := Network c; Monitoring := Monitoring c; Buffers := Buffers c; Volumes := Volumes c; Runtime := Runtime c; GPU := GPU c; IPC := IPC c; State := State c; Telemetry := Telemetry c |}.
Definition with_runtime (x : RuntimeConfig) (c : Configuration) : Configuration :=
  {| Version := Version c; Server := Server c; Security := Security c; Joblet := Joblet c; Cgroup := Cgroup c; Filesystem := Filesystem c; GRPC := GRPC c; Logging := Logging c;
     Network := Network c; Monitoring := Monitoring c; Buffers := Buffers c; Volumes := Volumes c; Runtime := x; GPU := GPU c; IPC := IPC c; State := State c; Telemetry := Telemetry c |}.
Definition with_gpu (x : GPUConfig) (c : Configuration) : Configuration :=
  {| Version := Version c; Server := Server c; Security := Security c; Joblet := Joblet c; Cgroup := Cgroup c; Filesystem := Filesystem c; GRPC := GRPC c; Logging := Logging c;
     Network := Network c; Monitoring := Monitoring c; Buffers := Buffers c; Volumes := Volumes c; Runtime := Runtime c; GPU := x; IPC := IPC c; State := State c; Telemetry := Telemetry c |}.

(** [src/pkg/config/config.go Config.GetServerAddress] *)
Definition GetServerAddress (c : Configuration) : string := sv_Address (Server c) +:+ ":" +:+ Itoa (sv_Port (Server c)).
(** [src/pkg/config/config.go Config.GetCgroupPath] *)
Definition GetCgroupPath (c : Configuration) (jobID : string) : string := Join_path [cg_BaseDir (Cgroup c); ("job-" +:+ jobID)%string].
(** [src/pkg/config/config.go TelemetryConfig.IsEventTypeEnabled] *)
Definition IsEventTypeEnabled (c : TelemetryConfig) (eventType : string) : bool :=
  match te_EventTypes c with [] => true | l => existsb (String.eqb eventType) l end.

(** The configuration of a server with certificates: clients must have a certificate of the
    authority, and version 1.3 is required. *)
Record tls_config (C P : Type) := { tls_Certificate : C; tls_ClientCAs : P; tls_RequireClientCert : bool; tls_Min13 : bool }.
Arguments tls_Certificate {C P} _.
Arguments tls_ClientCAs {C P} _.
Arguments tls_RequireClientCert {C P} _.
Arguments tls_Min13 {C P} _.
Inductive tls_error := TNotConfigured | TBadKeyPair | TBadCA.
(** [src/pkg/config/config.go Config.GetServerTLSConfig] *)
Definition GetServerTLSConfig {C P} (X509KeyPair : string → string → option C) (AppendCertsFromPEM : string → option P) (c : Configuration) : result tls_error (tls_config C P) :=
  let s := Security c in
  if String.eqb (sc_ServerCert s) "" || String.eqb (sc_ServerKey s) "" || String.eqb (sc_CACert s) "" then Err TNotConfigured else
  match X509KeyPair (sc_ServerCert s) (sc_ServerKey s) with
  | None => Err TBadKeyPair
  | Some cert => match AppendCertsFromPEM (sc_CACert s) with
                 | None => Err TBadCA
                 | Some pool => Ok {| tls_Certificate := cert; tls_ClientCAs := pool; tls_RequireClientCert := true; tls_Min13 := true |}
                 end
  end.

(** ** Loading *)

(** [yaml.Unmarshal] into a configuration that has values already. *)
Class YAML := {
  Unmarshal : string → Configuration → option Configuration;
  Unmarshal_runtime : string → option RuntimeConfig;
}.

Inductive config_error :=
| EExplicitMissing (path : string) | ERead (path : string) | EParse (path : string) | ERuntimeRead (path : string) | ERuntimeParse (path : string)
| EPort (p : Z) | EMode (m : string) | ECPULimit (z : Z) | EMemoryLimit (z : Z) | EMaxJobs (z : Z) | ECgroupBase (p : string) | ELogLevel (l : string).

Definition levels : list string := ["DEBUG"; "INFO"; "WARN"; "ERROR"; "debug"; "info"; "warn"; "error"]%string.
(** [src/pkg/config/config.go Config.Validate] *)
Definition Validate (c : Configuration) : option config_error :=
  let p := sv_Port (Server c) in
  if (p <? 1) || (65535 <? p) then Some (EPort p) else
  let m := sv_Mode (Server c) in
  if negb (String.eqb m "server") && negb (String.eqb m "init") then Some (EMode m) else
  if jb_DefaultCPULimit (Joblet c) <? 0 then Some (ECPULimit (jb_DefaultCPULimit (Joblet c))) else
  if jb_DefaultMemoryLimit (Joblet c) <? 0 then Some (EMemoryLimit (jb_DefaultMemoryLimit (Joblet c))) else
  if jb_MaxConcurrentJobs (Joblet c) <? 0 then Some (EMaxJobs (jb_MaxConcurrentJobs (Joblet c))) else
  if negb (IsAbs (cg_BaseDir (Cgroup c))) then Some (ECgroupBase (cg_BaseDir (Cgroup c))) else
  if existsb (String.eqb (lg_Level (Logging c))) levels then None else Some (ELogLevel (lg_Level (Logging c))).

(** [src/pkg/config/config.go BuiltInDefaultsPath] *)
Definition BuiltInDefaultsPath : string := "built-in defaults (no config file found)".
(** [src/pkg/config/config.go:496-501 loadFromFile] *)
Definition configPaths : list string :=
  ["/opt/joblet/config/joblet-config.yml"; "./config/joblet-config.yml"; "./joblet-config.yml"; "/etc/joblet/joblet-config.yml"]%string.
(** [src/pkg/config/config.go:589-594 loadRuntimeConfig] *)
Definition runtimePaths : list string :=
  ["/opt/joblet/config/runtime-config.yml"; "./config/runtime-config.yml"; "./runtime-config.yml"; "/etc/joblet/runtime-config.yml"]%string.

Section loading.
Context {Y : YAML}.
(** [os.Stat] answers that there is no such file; [os.ReadFile]. *)
Variables (IsNotExist : string → bool) (ReadFile : string → option string).
(** The environment of the process. *)
Variable env : list string.

(** [src/pkg/config/config.go readConfigFile] *)
Definition readConfigFile (config : Configuration) (path : string) : result config_error (Configuration * string) :=
  match ReadFile path with
  | None => Err (ERead path)
  | Some data => match Unmarshal data config with None => Err (EParse path) | Some config => Ok (config, path) end
  end.
(** [src/pkg/config/config.go:503-515 loadFromFile] *)
Fixpoint first_config (config : Configuration) (paths : list string) : result config_error (Configuration * string) :=
  match paths with
  | [] => Ok (config, BuiltInDefaultsPath)
  | path :: paths => if IsNotExist path then first_config config paths else readConfigFile config path
  end.
(** [src/pkg/config/config.go loadFromFile] *)
Definition loadFromFile (config : Configuration) : result config_error (Configuration * string) :=
  let envPath := Getenv env "JOBLET_CONFIG_PATH" in
  if negb (String.eqb envPath "") then (if IsNotExist envPath then Err (EExplicitMissing envPath) else readConfigFile config envPath)
  else first_config config configPaths.

(** What is set in the file of a runtime replaces what was loaded.
    [src/pkg/config/config.go:615-624 loadRuntimeConfig] *)
Definition merge_runtime (w : RuntimeConfig) (c : Configuration) : Configuration :=
  let r := Runtime c in
  with_runtime {| rt_BasePath := if String.eqb (rt_BasePath w) "" then rt_BasePath r else rt_BasePath w;
                  rt_CommonPaths := match rt_CommonPaths w with [] => rt_CommonPaths r | l => l end;
                  rt_AllowedMounts := match rt_AllowedMounts w with [] => rt_AllowedMounts r | l => l end |} c.
(** [src/pkg/config/config.go:597-631 loadRuntimeConfig] *)
Fixpoint first_runtime (config : Configuration) (paths : list string) : result config_error (Configuration * string) :=
  match paths with
  | [] => Ok (config, ""%string)
  | path :: paths =>
      if IsNotExist path then first_runtime config paths else
      match ReadFile path with
      | None => Err (ERuntimeRead path)
      | Some data => match Unmarshal_runtime data with None => Err (ERuntimeParse path) | Some w => Ok (merge_runtime w config, path) end
      end
  end.
(** [src/pkg/config/config.go loadRuntimeConfig] *)
Definition loadRuntimeConfig (config : Configuration) : result config_error (Configuration * string) :=
  let envPath := Getenv env "JOBLET_RUNTIME_CONFIG_PATH" in
  first_runtime config (if negb (String.eqb envPath "") then [envPath] else runtimePaths).

(** [src/pkg/config/config.go:444-470 LoadConfig] *)
Definition environment_overrides (c : Configuration) : Configuration :=
  let get k d := let v := Getenv env k in if String.eqb v "" then d else v in
  let sv := Server c in
  let c := with_server {| sv_Address := get "JOBLET_SERVER_ADDRESS"%string (sv_Address sv); sv_Port := sv_Port sv; sv_Mode := get "JOBLET_MODE"%string (sv_Mode sv); sv_NodeId := sv_NodeId sv |} c in
  let lg := Logging c in
  let c := with_logging {| lg_Level := get "JOBLET_LOG_LEVEL"%string (lg_Level lg); lg_Format := get "JOBLET_LOG_FORMAT"%string (lg_Format lg); lg_Output := lg_Output lg |} c in
  let g := GPU c in
  let gpu := Getenv env "JOBLET_GPU_ENABLED" in
  let g := if String.eqb gpu "1" || String.eqb gpu "true"
           then {| gp_Enabled := true; gp_CUDAPaths := gp_CUDAPaths g; gp_AllocationStrategy := gp_AllocationStrategy g; gp_ScrubPolicy := gp_ScrubPolicy g; gp_Simulate := gp_Simulate g; gp_SimulateCount := gp_SimulateCount g |} else g in
  let g := match Atoi (Getenv env "JOBLET_GPU_SIMULATE") with
           | Some n => if 0 <? n then {| gp_Enabled := true; gp_CUDAPaths := gp_CUDAPaths g; gp_AllocationStrategy := gp_AllocationStrategy g; gp_ScrubPolicy := gp_ScrubPolicy g; gp_Simulate := true; gp_SimulateCount := n |} else g
           | None => g
           end in
  with_gpu g c.

(** [src/pkg/config/config.go LoadConfig] *)
Definition LoadConfig : result config_error (Configuration * string) :=
  match loadFromFile DefaultConfig with
  | Err e => Err e
  | Ok (config, path) =>
      match loadRuntimeConfig config with
      | Err e => Err e
      | Ok (config, runtimePath) =>
          let path := if String.eqb runtimePath "" then path else (path +:+ " + " +:+ runtimePath)%string in
          let config := environment_overrides config in
          match Validate config with Some e => Err e | None => Ok (config, path) end
      end
  end.
End loading.

(** [filepath.SplitList]. *)
Definition SplitList (s : string) : list string := if String.eqb s "" then [] else Split s ":".
(** [src/pkg/config/config.go InitConfig] *)
Definition InitConfig (env : list string) : Configuration :=
  let get k d := let v := Getenv env k in if String.eqb v "" then d else v in
  let f := Filesystem DefaultConfig in let r := Runtime DefaultConfig in
  let mounts := Getenv env "JOB_RT_ALLOWED_MOUNTS" in
  with_runtime {| rt_BasePath := get "JOB_RT_BASE_PATH"%string (rt_BasePath r); rt_CommonPaths := rt_CommonPaths r;
                  rt_AllowedMounts := if String.eqb mounts "" then rt_AllowedMounts r else SplitList mounts |}
    (with_filesystem {| fs_BaseDir := get "JOB_FS_BASE_DIR"%string (fs_BaseDir f); fs_TmpDir := get "JOB_FS_TMP_DIR"%string (fs_TmpDir f);
                        fs_WorkspaceDir := get "JOB_FS_WORKSPACE_DIR"%string (fs_WorkspaceDir f) |} DefaultConfig).

(** ** Starting *)

Inductive startup := RunServer (c : Configuration) | RunJobInit (c : Configuration) | Fatal.
Section main.
Context {Y : YAML}.
Variables (IsNotExist : string → bool) (ReadFile : string → option string) (env : list string).
Definition with_mode (m : string) (c : Configuration) : Configuration :=
  with_server {| sv_Address := sv_Address (Server c); sv_Port := sv_Port (Server c); sv_Mode := m; sv_NodeId := sv_NodeId (Server c) |} c.
(** [src/cmd/joblet/main.go:17-84 main] *)
Definition main : startup :=
  let run (c : Configuration) := if String.eqb (sv_Mode (Server c)) "server" then RunServer c else if String.eqb (sv_Mode (Server c)) "init" then RunJobInit c else Fatal in
  match start_mode env with
  | InitMode => run (with_mode "init" (InitConfig env))
  | RefuseToStart => Fatal
  | ServerMode =>
      match LoadConfig IsNotExist ReadFile env with
      | Err _ => Fatal
      | Ok (c, path) => if String.eqb (sv_Mode (Server c)) "server" && HasPrefix path BuiltInDefaultsPath then Fatal else run c
      end
  end.
End main.

(** ** What is loaded *)

Section loaded.
Context {Y : YAML}.
Variables (IsNotExist : string → bool) (ReadFile : string → option string) (env : list string).

Lemma Validate_ok c : Validate c = None → 1 ≤ sv_Port (Server c) ≤ 65535 ∧ (sv_Mode (Server c) = "server"%string ∨ sv_Mode (Server c) = "init"%string) ∧
  0 ≤ jb_DefaultCPULimit (Joblet c) ∧ 0 ≤ jb_DefaultMemoryLimit (Joblet c) ∧ 0 ≤ jb_MaxConcurrentJobs (Joblet c) ∧ IsAbs (cg_BaseDir (Cgroup c)) = true ∧ lg_Level (Logging c) ∈ levels.
Proof.
  unfold Validate. destruct ((_ <? 1) || (65535 <? _)) eqn:E1; [done|]. destruct (negb _ && negb _) eqn:E2; [done|].
  destruct (jb_DefaultCPULimit _ <? 0) eqn:E3; [done|]. destruct (jb_DefaultMemoryLimit _ <? 0) eqn:E4; [done|]. destruct (jb_MaxConcurrentJobs _ <? 0) eqn:E5; [done|].
  destruct (IsAbs _) eqn:E6; [|done]. cbn [negb]. destruct (existsb _ _) eqn:E7; [|done]. intros _. apply orb_false_elim in E1 as [??]. to_prop.
  apply andb_false_iff in E2. apply existsb_exists in E7 as (l & Hl & E7%String.eqb_eq). split_and!; try lia; [|by rewrite E7; apply list_elem_of_In].
  destruct E2 as [E2|E2]; apply negb_false_iff, String.eqb_eq in E2; auto.
Qed.

(** The file that was loaded: the explicit one, or the first that is there. *)
Definition loaded_from (path : string) : Prop :=
  let e := Getenv env "JOBLET_CONFIG_PATH" in
  if bool_decide (e = ""%string) then ∃ i, configPaths !! i = Some path ∧ (∀ k p, (k < i)%nat → configPaths !! k = Some p → IsNotExist p = true) ∧ IsNotExist path = false
  else path = e ∧ IsNotExist e = false.
Lemma first_config_ok c paths c' path : first_config IsNotExist ReadFile c paths = Ok (c', path) →
  (path = BuiltInDefaultsPath ∧ c' = c ∧ Forall (λ p, IsNotExist p = true) paths) ∨
  (∃ i data, paths !! i = Some path ∧ (∀ k p, (k < i)%nat → paths !! k = Some p → IsNotExist p = true) ∧ IsNotExist path = false ∧ ReadFile path = Some data ∧ Unmarshal data c = Some c').
Proof.
  induction paths as [|p paths IH]; cbn [first_config]; [intros [= <- <-]; by left|]. destruct (IsNotExist p) eqn:E.
  - intros [(-> & -> & Hf)|(i & data & Hi & Hk & Hr)]%IH; [left; auto|]. right. exists (S i), data. split; [done|]. split; [|done].
    intros [|k] q Hlt Hq; [by injection Hq as ->|]. apply (Hk k); [lia|done].
  - unfold readConfigFile. destruct (ReadFile p) as [data|] eqn:Er; [|done]. destruct (Unmarshal data c) as [c1|] eqn:Eu; [|done]. intros [= <- <-].
    right. exists 0%nat, data. split_and!; try done. intros k q Hlt. lia.
Qed.
Lemma loadFromFile_ok c c' path : loadFromFile IsNotExist ReadFile env c = Ok (c', path) →
  (path = BuiltInDefaultsPath ∧ c' = c ∧ Getenv env "JOBLET_CONFIG_PATH" = ""%string) ∨ (loaded_from path ∧ ∃ data, ReadFile path = Some data ∧ Unmarshal data c = Some c').
Proof.
  unfold loadFromFile, loaded_from. destruct (String.eqb_spec (Getenv env "JOBLET_CONFIG_PATH") "") as [E|E]; cbn [negb].
  - rewrite bool_decide_eq_true_2 by done. intros [(-> & -> & _)|(i & data & Hi & Hk & Hm & Hr & Hu)]%first_config_ok; [by left|]. right. split; [by exists i|by exists data].
  - rewrite bool_decide_eq_false_2 by done. destruct (IsNotExist _) eqn:Em; [done|]. unfold readConfigFile. destruct (ReadFile _) as [data|] eqn:Er; [|done].
    destruct (Unmarshal data c) as [c1|] eqn:Eu; [|done]. intros [= <- <-]. right. split; [done|by exists data].
Qed.
Lemma first_runtime_keeps c paths c' path : first_runtime IsNotExist ReadFile c paths = Ok (c', path) → with_runtime (Runtime c) c' = c.
Proof.
  induction paths as [|p paths IH]; cbn [first_runtime]; [by intros [= <- <-]; destruct c|]. destruct (IsNotExist p); [done|].
  destruct (ReadFile p); [|done]. destruct (Unmarshal_runtime _); [|done]. intros [= <- <-]. by destruct c.
Qed.
End loaded.

(** ** A server starts from a file *)

Section server.
Context {Y : YAML}.
Variables (IsNotExist : string → bool) (ReadFile : string → option string) (env : list string).

Lemma overrides_keep c : let c' := environment_overrides env c in
  Security c' = Security c ∧ Network c' = Network c ∧ Joblet c' = Joblet c ∧ Cgroup c' = Cgroup c ∧ Filesystem c' = Filesystem c ∧ State c' = State c ∧
  sv_Port (Server c') = sv_Port (Server c) ∧ sv_NodeId (Server c') = sv_NodeId (Server c) ∧
  sv_Address (Server c') = (let v := Getenv env "JOBLET_SERVER_ADDRESS" in if bool_decide (v = ""%string) then sv_Address (Server c) else v).
Proof.
  unfold environment_overrides. cbn. split_and!; try done. case_bool_decide as E; [by rewrite E|]. by destruct (String.eqb_spec (Getenv env "JOBLET_SERVER_ADDRESS") "").
Qed.
Lemma runtime_keeps c c' path : loadRuntimeConfig IsNotExist ReadFile env c = Ok (c', path) → with_runtime (Runtime c) c' = c.
Proof. apply first_runtime_keeps. Qed.

(** C36 The binary runs as a server only when it was started without the variables of a job and
    not in the mode of an init process, and then with a configuration file that it read: the
    explicit one, or the first that exists.  The configuration it runs with is valid; its
    certificates, networks, limits, control groups and port are those of the file, and its
    address is that of the file unless the environment names another. *)
Theorem server_starts_from_file c : main IsNotExist ReadFile env = RunServer c →
  Getenv env "JOBLET_MODE" ≠ "init"%string ∧ LooksLikeJobProcess env = false ∧ sv_Mode (Server c) = "server"%string ∧ Validate c = None ∧
  ∃ path data c0, loaded_from IsNotExist env path ∧ ReadFile path = Some data ∧ Unmarshal data DefaultConfig = Some c0 ∧
    Security c = Security c0 ∧ Network c = Network c0 ∧ Joblet c = Joblet c0 ∧ Cgroup c = Cgroup c0 ∧ sv_Port (Server c) = sv_Port (Server c0) ∧ 1 ≤ sv_Port (Server c) ≤ 65535 ∧
    sv_Address (Server c) = (let v := Getenv env "JOBLET_SERVER_ADDRESS" in if bool_decide (v = ""%string) then sv_Address (Server c0) else v).
Proof.
  unfold main, start_mode. case_bool_decide as Em; [done|]. destruct (LooksLikeJobProcess env) eqn:El; [done|].
  unfold LoadConfig. destruct (loadFromFile IsNotExist ReadFile env DefaultConfig) as [[c0 path]|] eqn:Ef; [|done].
  destruct (loadRuntimeConfig IsNotExist ReadFile env c0) as [[c1 rpath]|] eqn:Er; [|done].
  destruct (Validate (environment_overrides env c1)) eqn:Ev; [done|]. apply runtime_keeps in Er.
  destruct (overrides_keep c1) as (O1 & O2 & O3 & O4 & _ & _ & O7 & _ & O9).
  destruct (Validate_ok _ Ev) as (Hport & _).
  destruct (String.eqb (sv_Mode _) "server") eqn:Es.
  2: { cbn [andb]. by destruct (String.eqb _ "init"). }
  cbn [andb]. destruct (HasPrefix _ BuiltInDefaultsPath) eqn:Ep; [done|]. intros [= <-]. apply String.eqb_eq in Es.
  split_and!; try done. apply loadFromFile_ok in Ef as [(-> & _ & _)|(Hl & data & Hr & Hu)].
  { destruct (String.eqb rpath ""); cbn in Ep; discriminate. }
  exists path, data, c0. split; [done|]. split; [done|]. split; [done|]. rewrite O1, O2, O3, O4, O9. rewrite O7 in Hport |- *. rewrite <- Er. destruct c1. done.
Qed.
End server.

(** ** The init process has the settings of the server *)

(** What of the configuration the environment of a job carries. *)
Definition forwarded (c : Configuration) : Environment.Config := {|
  WorkspaceDir := fs_WorkspaceDir (Filesystem c); BaseDir := fs_BaseDir (Filesystem c); TmpDir := fs_TmpDir (Filesystem c);
  BasePath := rt_BasePath (Runtime c); AllowedMounts := rt_AllowedMounts (Runtime c); gpu_Enabled := gp_Enabled (GPU c); CUDAPaths := gp_CUDAPaths (GPU c) |}.
(** The configuration of an init process of a server. *)
Definition init_settings (c : Configuration) : Configuration :=
  with_mode "init" (with_runtime {| rt_BasePath := rt_BasePath (Runtime c); rt_CommonPaths := rt_CommonPaths (Runtime DefaultConfig); rt_AllowedMounts := rt_AllowedMounts (Runtime c) |}
    (with_filesystem (Filesystem c) DefaultConfig)).
(** Paths that can be carried. *)
Definition forwardable (c : Configuration) : Prop :=
  fs_WorkspaceDir (Filesystem c) ≠ ""%string ∧ fs_BaseDir (Filesystem c) ≠ ""%string ∧ fs_TmpDir (Filesystem c) ≠ ""%string ∧ rt_BasePath (Runtime c) ≠ ""%string ∧
  rt_AllowedMounts (Runtime c) ≠ [] ∧ Forall (λ m, m ≠ ""%string ∧ ":"%char ∉ bytes m) (rt_AllowedMounts (Runtime c)).

Lemma control_settings c phase j k v :
  (k, v) ∈ [("JOB_FS_WORKSPACE_DIR", WorkspaceDir c); ("JOB_FS_BASE_DIR", BaseDir c); ("JOB_FS_TMP_DIR", TmpDir c); ("JOB_RT_BASE_PATH", BasePath c)]%string →
  last_value k (control_block c phase j) = Some v.
Proof.
  intros Hk. unfold control_block, ForwardFilesystemEnv, ForwardRuntimeEnv.
  assert (Hcomb : ∀ tl hd, free k tl → last_value k hd = Some v → last_value k (hd ++ tl) = Some v) by (intros tl hd Hf Hh; rewrite last_value_app; by rewrite last_value_free).
  assert (Hskip : ∀ tl hd, last_value k tl = Some v → last_value k (hd ++ tl) = Some v) by (intros tl hd Hh; rewrite last_value_app; by rewrite Hh).
  apply Hskip. rewrite !elem_of_cons, elem_of_nil in Hk. destruct_or! Hk; try done; injection Hk as -> ->.
  1-3: apply Hcomb; [solve_free|compute_last].
  apply Hskip. apply Hcomb; [solve_free|]. rewrite last_value_cons, last_value_free by solve_free. rewrite entry_value_entry by done. by rewrite decide_True.
Qed.
Lemma control_mounts c phase j : AllowedMounts c ≠ [] → last_value "JOB_RT_ALLOWED_MOUNTS" (control_block c phase j) = Some (GoStrings.Join (AllowedMounts c) ":").
Proof.
  intros Hm. unfold control_block, ForwardFilesystemEnv, ForwardRuntimeEnv. destruct (AllowedMounts c) as [|m ms]; [done|].
  do 2 (rewrite last_value_app). set (tl := numbered _ _ ++ _). rewrite (last_value_app _ (_ :: _) tl), (last_value_free _ tl) by (unfold tl; solve_free).
  compute_last.
Qed.

Lemma split_joined l : l ≠ [] → Forall (λ m, ":"%char ∉ bytes m) l → Split (GoStrings.Join l ":") ":" = l.
Proof.
  intros Hl Hf. unfold Split, GoStrings.Join. rewrite bytes_of_bytes, split_bytes_join.
  - rewrite <- list_fmap_compose. rewrite <- (list_fmap_id l) at 2. apply list_fmap_ext. intros i m _. apply of_bytes_bytes.
  - by destruct l.
  - apply Forall_fmap. exact Hf.
Qed.

(** What the init process makes of the environment that the server built for it. *)
Lemma InitConfig_forwarded {MR : MapRange} c environ RF f j phase env' :
  forwardable c → launched_env (with_ready_file f (BuildEnvironment environ RF (forwarded c) j phase)) = Some env' →
  InitConfig env' = with_runtime {| rt_BasePath := rt_BasePath (Runtime c); rt_CommonPaths := rt_CommonPaths (Runtime DefaultConfig); rt_AllowedMounts := rt_AllowedMounts (Runtime c) |}
    (with_filesystem (Filesystem c) DefaultConfig).
Proof.
  intros (H1 & H2 & H3 & H4 & H5 & H6) He.
  assert (Hget : ∀ k v, k ≠ "NETWORK_READY_FILE"%string → last_value k (control_block (forwarded c) phase j) = Some v → Getenv env' k = v).
  { intros k v Hk Hv. unfold Getenv. by rewrite (control_decides environ RF (forwarded c) f j phase env' k v Hk Hv He). }
  assert (Hjoin : GoStrings.Join (rt_AllowedMounts (Runtime c)) ":" ≠ ""%string).
  { destruct (rt_AllowedMounts (Runtime c)) as [|m ms] eqn:Em; [done|]. apply Forall_cons in H6 as [[Hm _] _]. intros E. apply (f_equal bytes) in E. unfold GoStrings.Join in E. rewrite bytes_of_bytes in E.
    destruct m as [|x m]; [done|]. by destruct ms. }
  unfold InitConfig.
  rewrite (Hget "JOB_FS_WORKSPACE_DIR"%string (fs_WorkspaceDir (Filesystem c)) ltac:(done) ltac:(apply control_settings; by left)).
  rewrite (Hget "JOB_FS_BASE_DIR"%string (fs_BaseDir (Filesystem c)) ltac:(done) ltac:(apply control_settings; right; by left)).
  rewrite (Hget "JOB_FS_TMP_DIR"%string (fs_TmpDir (Filesystem c)) ltac:(done) ltac:(apply control_settings; do 2 right; by left)).
  rewrite (Hget "JOB_RT_BASE_PATH"%string (rt_BasePath (Runtime c)) ltac:(done) ltac:(apply control_settings; do 3 right; by left)).
  rewrite (Hget "JOB_RT_ALLOWED_MOUNTS"%string _ ltac:(done) (control_mounts (forwarded c) phase j H5)). cbn [AllowedMounts forwarded].
  repeat rewrite (proj2 (String.eqb_neq _ _)) by done. unfold SplitList. rewrite (proj2 (String.eqb_neq _ _)) by done.
  rewrite split_joined by (eapply Forall_impl; [exact H6|by intros m [_ ?]] || done). by destruct (Filesystem c).
Qed.

(** C16 When the directories of the server's configuration are not empty and its allowed
    runtime mounts are some, not empty and without a colon, the init process of a job is
    configured as the server was: whatever the client, the runtime and the environment of
    the server hold, and whatever files the job can see, the binary that the server starts
    for a job comes up as an init process with the directories of the server and its runtime
    mounts, and otherwise with the built-in settings; neither the certificates nor the other
    settings of the server reach it. (Without mounts the built-in ones are used:
    [no_mounts_become_default].) *)
Theorem init_gets_server_settings {Y : YAML} {MR : MapRange} c environ RF f j phase env' IsNotExist ReadFile :
  forwardable c → launched_env (with_ready_file f (BuildEnvironment environ RF (forwarded c) j phase)) = Some env' →
  main IsNotExist ReadFile env' = RunJobInit (init_settings c).
Proof.
  intros Hc He. unfold main. rewrite (init_mode environ RF (forwarded c) f j phase env' He).
  rewrite (InitConfig_forwarded c environ RF f j phase env' Hc He). done.
Qed.

(** ** Examples *)

(** A file that sets the address, and one that empties the mounts of the runtimes. *)
#[local] Instance sample_yaml : YAML := {|
  Unmarshal data c :=
    if String.eqb data "server: {address: 10.0.0.1}" then Some (with_server {| sv_Address := "10.0.0.1"; sv_Port := sv_Port (Server c); sv_Mode := sv_Mode (Server c); sv_NodeId := sv_NodeId (Server c) |} c)
    else if String.eqb data "runtime: {allowed_mounts: []}" then Some (with_runtime {| rt_BasePath := rt_BasePath (Runtime c); rt_CommonPaths := rt_CommonPaths (Runtime c); rt_AllowedMounts := [] |} c)
    else None;
  Unmarshal_runtime data := None;
|}.
Definition installed (data : string) : (string → bool) * (string → option string) :=
  (λ p, negb (String.eqb p "/etc/joblet/joblet-config.yml"), λ p, if String.eqb p "/etc/joblet/joblet-config.yml" then Some data else None).
Definition nothing_installed : (string → bool) * (string → option string) := (λ _, true, λ _, None).
Definition plain_env : list string := ["PATH=/usr/bin"; "JOBLET_GPU_SIMULATE=3"]%string.
Definition start_with (files : (string → bool) * (string → option string)) (env : list string) : startup := main files.1 files.2 env.

Example starts : ∃ c, start_with (installed "server: {address: 10.0.0.1}") plain_env = RunServer c ∧ GetServerAddress c = "10.0.0.1:50051"%string ∧
  (gp_Enabled (GPU c), gp_Simulate (GPU c), gp_SimulateCount (GPU c)) = (true, true, 3).
Proof. eexists. split; [vm_compute; reflexivity|]. split; reflexivity. Qed.
(** No file, a file that cannot be parsed, an explicit file that is missing, the variables of
    a job, and a mode that does not exist. *)
Example does_not_start : Forall (λ s, s = Fatal)
  [start_with nothing_installed plain_env; start_with (installed "?") plain_env; start_with (installed "server: {address: 10.0.0.1}") ["JOBLET_CONFIG_PATH=/missing"];
   start_with (installed "server: {address: 10.0.0.1}") ["JOB_ID=u1"]; start_with (installed "server: {address: 10.0.0.1}") ["JOBLET_MODE=daemon"]]%string.
Proof. repeat constructor. Qed.

Lemma server_starts_from_file_witness : ∃ c, main (installed "server: {address: 10.0.0.1}").1 (installed "server: {address: 10.0.0.1}").2 plain_env = RunServer c ∧ Validate c = None ∧
  Security c = Security DefaultConfig.
Proof.
  destruct (main (installed "server: {address: 10.0.0.1}").1 (installed "server: {address: 10.0.0.1}").2 plain_env) as [c| |] eqn:E; [|exfalso; revert E; vm_compute; discriminate..].
  exists c. split; [reflexivity|]. destruct (server_starts_from_file _ _ _ c E) as (_ & _ & _ & Hv & path & data & c0 & _ & Hr & Hu & Hs & _).
  split; [exact Hv|]. rewrite Hs. cbn in Hr. destruct (String.eqb path _); [|discriminate Hr]. injection Hr as <-. cbn in Hu. injection Hu as <-. reflexivity.
Defined.

(** The server of the example above starts a job. *)
Definition job_env (c : Configuration) : option (list string) :=
  launched_env (with_ready_file None (BuildEnvironment (H := list_range) sample_environ (λ _, None) (forwarded c) sample_env_job "execute")).
Lemma default_forwardable : forwardable DefaultConfig.
Proof.
  unfold forwardable. split; [intros E; discriminate E|]. split; [intros E; discriminate E|]. split; [intros E; discriminate E|].
  split; [intros E; discriminate E|]. split; [intros E; discriminate E|]. refine (bool_decide_unpack _ _). vm_compute. exact I.
Qed.
Lemma init_gets_server_settings_witness : ∃ env', job_env DefaultConfig = Some env' ∧ main nothing_installed.1 nothing_installed.2 env' = RunJobInit (init_settings DefaultConfig).
Proof.
  destruct (job_env DefaultConfig) as [env'|] eqn:E; [|exfalso; revert E; vm_compute; discriminate]. exists env'. split; [reflexivity|].
  exact (init_gets_server_settings (MR := list_range) DefaultConfig sample_environ (λ _, None) None sample_env_job "execute" env' _ _ default_forwardable E).
Defined.

(** A server that allows no mounts: its jobs get the built-in ones. *)
Example no_mounts_become_default : ∃ c env' c', start_with (installed "runtime: {allowed_mounts: []}") plain_env = RunServer c ∧ rt_AllowedMounts (Runtime c) = [] ∧
  job_env c = Some env' ∧ start_with nothing_installed env' = RunJobInit c' ∧ rt_AllowedMounts (Runtime c') = ["/usr/bin"; "/bin"; "/lib"; "/lib64"]%string.
Proof. do 3 eexists. split; [vm_compute; reflexivity|]. split; [reflexivity|]. split; [vm_compute; reflexivity|]. split; [vm_compute; reflexivity|]. reflexivity. Qed.
