(* ===== verification/PersistConfig.v ===== *)
(** * Configuration of the persist service (persist/internal/config/config.go)

    The service reads the file of the server: the section [persist] in it, or else the whole
    file as its own.  The decoding of YAML is the class [PersistYAML]. *)

From Stdlib Require Import Ascii String.
From S2P Require Import Prelude GoStrings Config.

Local Open Scope Z_scope.

(** [src/persist/internal/config/config.go TLSConfig] *)
Record TLSConfig := { CertFile : string; KeyFile : string; CAFile : string; ClientAuth : string }.
(** [src/persist/internal/config/config.go ServerConfig] *)
Record ServerConfig := { GRPCAddress : string; GRPCSocket : string; MaxConnections : Z; TLS : option TLSConfig }.
(** [src/persist/internal/config/config.go IPCConfig] *)
Record IPCConfig := {
  Socket : string; MaxMessageSize : Z; ReadBuffer : Z; BufferSize : Z; WorkerCount : Z; BatchSize : Z; BackpressureTimeout : Z; BackpressureMode : string;
}.
(** [src/persist/internal/config/config.go LocalConfig] *)
Record LocalConfig := { Logs_Directory : string; Metrics_Directory : string; Events_Directory : string; MaxOpenFiles : Z; FileHandleTTL : Z }.
(** The settings of the cloud stores are those of S3Store.v and CloudWatch.v.
    [src/persist/internal/config/config.go StorageConfig] *)
Record StorageConfig := { Type_ : string; Local : LocalConfig }.
(** [src/persist/internal/config/config.go:11-16 Config] *)
Record PConfig := { PServer : ServerConfig; PIPC : IPCConfig; Storage : StorageConfig }.
(** [src/persist/internal/config/config.go RootConfig] *)
Record RootConfig := { root_NodeID : string; root_Socket : string; root_Persist : option PConfig; root_Level : string; root_Security : SecurityConfig }.
(** [src/persist/internal/config/config.go LoadResult] *)
Record LoadResult := { res_Config : PConfig; res_NodeID : string; res_Level : string; res_Security : SecurityConfig }.

(** [src/persist/internal/config/config.go DefaultConfig] *)
Definition PDefaultConfig : PConfig := {|
  PServer := {| GRPCAddress := ""; GRPCSocket := "/opt/joblet/run/persist-grpc.sock"; MaxConnections := 500; TLS := None |};
  PIPC := {| Socket := "/opt/joblet/run/persist-ipc.sock"; MaxMessageSize := 134217728; ReadBuffer := 8388608; BufferSize := 100000; WorkerCount := 4; BatchSize := 100;
             BackpressureTimeout := 5; BackpressureMode := "block" |};
  Storage := {| Type_ := "local"; Local := {| Logs_Directory := "/opt/joblet/logs"; Metrics_Directory := "/opt/joblet/metrics"; Events_Directory := "/opt/joblet/events";
                                              MaxOpenFiles := 1000; FileHandleTTL := 300 |} |};
|}.

Inductive load_error := LRead | LParse | LSocket | LType.
(** [src/persist/internal/config/config.go Config.Validate] *)
Definition PValidate (c : PConfig) : option load_error :=
  if String.eqb (Socket (PIPC c)) "" then Some LSocket else if String.eqb (Type_ (Storage c)) "" then Some LType else None.

Class PersistYAML := {
  Unmarshal_root : string → option RootConfig;
  Unmarshal_persist : string → PConfig → option PConfig;
}.

Definition set_socket (s : string) (c : PConfig) : PConfig :=
  let i := PIPC c in
  {| PServer := PServer c; Storage := Storage c;
     PIPC := {| Socket := s; MaxMessageSize := MaxMessageSize i; ReadBuffer := ReadBuffer i; BufferSize := BufferSize i; WorkerCount := WorkerCount i; BatchSize := BatchSize i;
                BackpressureTimeout := BackpressureTimeout i; BackpressureMode := BackpressureMode i |} |}.
Definition set_events (d : string) (c : PConfig) : PConfig :=
  let l := Local (Storage c) in
  {| PServer := PServer c; PIPC := PIPC c;
     Storage := {| Type_ := Type_ (Storage c);
                   Local := {| Logs_Directory := Logs_Directory l; Metrics_Directory := Metrics_Directory l; Events_Directory := d; MaxOpenFiles := MaxOpenFiles l; FileHandleTTL := FileHandleTTL l |} |} |}.
Definition set_client_auth (c : PConfig) : PConfig :=
  let s := PServer c in
  match TLS s with
  | Some t => if String.eqb (ClientAuth t) "" then
                {| PIPC := PIPC c; Storage := Storage c;
                   PServer := {| GRPCAddress := GRPCAddress s; GRPCSocket := GRPCSocket s; MaxConnections := MaxConnections s;
                                 TLS := Some {| CertFile := CertFile t; KeyFile := KeyFile t; CAFile := CAFile t; ClientAuth := "require" |} |} |}
              else c
  | None => c
  end.

(** What the section of the file of the server inherits.
    [src/persist/internal/config/config.go:160-180 Load] *)
Definition inherit (root : RootConfig) (p : PConfig) : PConfig :=
  let p := if String.eqb (Socket (PIPC p)) "" && negb (String.eqb (root_Socket root) "") then set_socket (root_Socket root) p else p in
  if String.eqb (Events_Directory (Local (Storage p))) "" then set_events (Events_Directory (Local (Storage PDefaultConfig))) p else p.
(** [src/persist/internal/config/config.go Load] *)
Definition Load {Y : PersistYAML} (ReadFile : string → option string) (path : string) : result load_error LoadResult :=
  match ReadFile path with
  | None => Err LRead
  | Some data =>
      match Unmarshal_root data ≫= λ root, (λ p, (root, p)) <$> root_Persist root with
      | Some (root, p) =>
          let p := inherit root p in
          match PValidate p with
          | Some e => Err e
          | None => Ok {| res_Config := set_client_auth p; res_NodeID := root_NodeID root; res_Level := root_Level root; res_Security := root_Security root |}
          end
      | None =>
          match Unmarshal_persist data PDefaultConfig with
          | None => Err LParse
          | Some c =>
              match PValidate c with
              | Some e => Err e
              | None => Ok {| res_Config := c; res_NodeID := ""; res_Level := "info"; res_Security := {| sc_ServerCert := ""; sc_ServerKey := ""; sc_CACert := "" |} |}
              end
          end
      end
  end.

(** What the server of the persist channel makes of it.
    [src/persist/internal/ipc/server.go:58-95 NewServer] *)
Definition effective_buffer (c : IPCConfig) : Z := if BufferSize c <=? 0 then 100000 else BufferSize c.
(** [src/persist/internal/ipc/server.go:118-125 Server.Start] *)
Definition effective_workers (c : IPCConfig) : Z := if WorkerCount c <=? 0 then 4 else WorkerCount c.
(** Whether a message of this length is taken.
    [src/persist/internal/ipc/server.go:224-228 Server.handleConnection] *)
Definition takes_length (c : IPCConfig) (length : Z) : bool := negb (MaxMessageSize c mod 2 ^ 32 <? length).

(** ** What is taken *)

(** A section without a limit on the length of messages: the service takes none. *)
Theorem nested_section_takes_nothing {Y : PersistYAML} ReadFile path data root p r : ReadFile path = Some data →
  Unmarshal_root data = Some root → root_Persist root = Some p → MaxMessageSize (PIPC p) = 0 →
  Load ReadFile path = Ok r → ∀ n, 0 < n → takes_length (PIPC (res_Config r)) n = false.
Proof.
  intros Hr Hu Hp Hm Hl n Hn. unfold Load in Hl. rewrite Hr, Hu in Hl. cbn [mbind option_bind] in Hl. rewrite Hp in Hl. cbn [fmap option_fmap option_map] in Hl.
  set (q := inherit root p) in *. assert (Hq : MaxMessageSize (PIPC q) = 0).
  { unfold q, inherit. destruct (_ && _), (String.eqb _ _); exact Hm. }
  destruct (PValidate q); [done|]. injection Hl as <-. cbn [res_Config]. unfold takes_length.
  assert (E : PIPC (set_client_auth q) = PIPC q).
  { unfold set_client_auth. destruct (TLS _) as [t|]; [|done]. by destruct (String.eqb _ _). }
  rewrite E, Hq. rewrite Z.mod_0_l by done. apply negb_false_iff, Z.ltb_lt. lia.
Qed.


(** ** Instances *)

(** A section of the file of the server that names the storage and no limits; missing fields
    are zero, as nothing was decoded into them. *)
Definition bare_section : PConfig := {|
  PServer := {| GRPCAddress := ""; GRPCSocket := "/run/grpc.sock"; MaxConnections := 0; TLS := None |};
  PIPC := {| Socket := ""; MaxMessageSize := 0; ReadBuffer := 0; BufferSize := 0; WorkerCount := 0; BatchSize := 0; BackpressureTimeout := 0; BackpressureMode := "" |};
  Storage := {| Type_ := "local"; Local := {| Logs_Directory := "/logs"; Metrics_Directory := "/metrics"; Events_Directory := ""; MaxOpenFiles := 0; FileHandleTTL := 0 |} |} |}.
#[local] Instance section_yaml : PersistYAML := {|
  Unmarshal_root data := if String.eqb data "nested" then Some {| root_NodeID := "n1"; root_Socket := "/run/ipc.sock"; root_Persist := Some bare_section; root_Level := "INFO"; root_Security := Security DefaultConfig |}
                         else if String.eqb data "alone" then Some {| root_NodeID := ""; root_Socket := ""; root_Persist := None; root_Level := ""; root_Security := Security DefaultConfig |} else None;
  Unmarshal_persist data c := Some c;
|}.
Definition load (data : string) : result load_error LoadResult := Load (λ _, Some data) "/opt/joblet/config/joblet-config.yml".
(** The socket and the directory of the events are inherited, but no message fits. *)
Example section_without_limits : ∃ r, load "nested" = Ok r ∧ Socket (PIPC (res_Config r)) = "/run/ipc.sock"%string ∧
  Events_Directory (Local (Storage (res_Config r))) = "/opt/joblet/events"%string ∧ effective_workers (PIPC (res_Config r)) = 4 ∧ effective_buffer (PIPC (res_Config r)) = 100000 ∧
  takes_length (PIPC (res_Config r)) 1 = false.
Proof. eexists. split; [vm_compute; reflexivity|]. repeat split. Qed.
Example alone_has_defaults : ∃ r, load "alone" = Ok r ∧ takes_length (PIPC (res_Config r)) 134217728 = true ∧ takes_length (PIPC (res_Config r)) 134217729 = false.
Proof. eexists. split; [vm_compute; reflexivity|]. split; reflexivity. Qed.
