(* ===== verification/Runtime.v ===== *)
(** * Resolving runtimes (internal/joblet/runtime/resolver.go, with the CUDA versions
    of internal/joblet/gpu/cuda.go)

    A runtime is a directory, per version or flat, with a runtime.yml.  The host's
    directories are arguments: what [ReadDir] lists and what the YAML reader
    gives for the file at a path. *)

From S2P Require Import Prelude GoStrings Paths Semver.
From Stdlib Require Import Ascii.

Local Open Scope Z_scope.

(** [src/internal/joblet/runtime/types.go:38-42 RuntimeRequirements] *)
Record RuntimeRequirements := { Architectures : list string; req_GPU : bool; req_CUDAVersion : string }.

(** The fields that are read.
    [src/internal/joblet/runtime/types.go:8-21 RuntimeConfig] *)
Record RuntimeConfig := {
  rc_Name : string; rc_Language : string; rc_Version : string; rc_Description : string;
  rc_Environment : gmap string string; rc_Requirements : RuntimeRequirements;
}.

(** [src/internal/joblet/runtime/types.go:45-49 RuntimeSpec] *)
Record RuntimeSpec := { rs_Language : string; rs_Version : string; rs_Tags : list string }.

(** [src/internal/joblet/runtime/types.go:52-61 RuntimeInfo] *)
Record RuntimeInfo := {
  ri_Name : string; ri_Language : string; ri_Version : string; ri_Description : string;
  ri_Path : string; ri_Size : Z; ri_Available : bool;
}.

(** The first answer in the order of a list. *)
Definition first_some {A B} (f : A → option B) (l : list A) : option B := head (omap f l).

(** ** Specifications *)

(** [src/internal/joblet/runtime/resolver.go Resolver.extractTypeFromName] *)
Definition extractTypeFromName (runtimeName : string) : string :=
  match Split runtimeName "-" with p :: _ => p | [] => runtimeName end.

(** The forms with a colon, a plus or dashes, once there is no "@".
    [src/internal/joblet/runtime/resolver.go:427-482 Resolver.parseRuntimeSpec] *)
Definition parse_dashes (spec : string) : RuntimeSpec :=
  match Split spec "-" with
  | [l; v] => {| rs_Language := l; rs_Version := v; rs_Tags := [] |}
  | _ => {| rs_Language := extractTypeFromName spec; rs_Version := "unknown"; rs_Tags := [] |}
  end.

(** [src/internal/joblet/runtime/resolver.go:446-467 Resolver.parseRuntimeSpec] *)
Definition parse_plus (spec : string) : RuntimeSpec :=
  if contains_byte spec "+" then
    match Split spec "+" with
    | mainSpec :: tags =>
        match Split mainSpec "-" with
        | l :: v :: (t :: ts) as additional =>
            {| rs_Language := l; rs_Version := v; rs_Tags := (t :: ts) ++ tags |}
        | _ => parse_dashes spec
        end
    | [] => parse_dashes spec
    end
  else parse_dashes spec.

(** [src/internal/joblet/runtime/resolver.go:427-444 Resolver.parseRuntimeSpec] *)
Definition parse_colon (spec : string) : RuntimeSpec :=
  if contains_byte spec ":" then
    match Split spec ":" with
    | [l; vt] =>
        match Split vt "+" with
        | v :: tags => {| rs_Language := l; rs_Version := v; rs_Tags := tags |}
        | [] => parse_plus spec
        end
    | _ => parse_plus spec
    end
  else parse_plus spec.

(** [src/internal/joblet/runtime/resolver.go Resolver.parseRuntimeSpec] *)
Definition parseRuntimeSpec (spec : string) : RuntimeSpec :=
  match Cut spec "@" with
  | Some (n, v) => {| rs_Language := n; rs_Version := v; rs_Tags := [] |}
  | None => parse_colon spec
  end.

(** A version that a specification leaves open. *)
Definition open_version (v : string) : bool :=
  bool_decide (v = ""%string) || bool_decide (v = "unknown"%string) || bool_decide (v = "latest"%string).

(** [src/internal/joblet/runtime/resolver.go Resolver.runtimeMatches] *)
Definition runtimeMatches (c : RuntimeConfig) (spec : RuntimeSpec) : bool :=
  let version_ok := open_version (rs_Version spec) || bool_decide (rc_Version c = rs_Version spec) in
  if negb (bool_decide (rs_Language spec = ""%string)) && negb (bool_decide (rs_Language spec = "unknown"%string))
  then
    if bool_decide (rc_Name c = rs_Language spec) then version_ok
    else if negb (bool_decide (rc_Language c = ""%string)) && bool_decide (rs_Language spec = rc_Language c)
    then version_ok
    else false
  else version_ok.

(** ** The highest version *)

(** One candidate: a path and the text of its version. *)
Definition latest_step (st : option Version * string) (cand : string * string) : option Version * string :=
  let (latestSemver, latestPath) := st in
  match NewVersion cand.2 with
  | Err _ => if bool_decide (latestPath = ""%string) then (latestSemver, cand.1) else st
  | Ok sv =>
      match latestSemver with
      | None => (Some sv, cand.1)
      | Some l => if GreaterThan sv l then (Some sv, cand.1) else st
      end
  end.

(** [src/internal/joblet/runtime/resolver.go Resolver.findLatestVersion] *)
Definition findLatestVersion (versions : list (string * string)) : string :=
  match versions with
  | [] => ""
  | [v] => v.1
  | _ => (foldl latest_step (None, ""%string) versions).2
  end.

Section resolver.
(** [ReadDir]: names and whether they are directories; [config_at]: the
    configuration read from a file, when it can be read and parsed; [Stat]:
    whether a file exists; [size_of]: the size of a directory. *)
Variables (ReadDir : string → option (list (string * bool))) (config_at : string → option RuntimeConfig).
Variables (DirExists : string → bool) (Stat : string → bool) (size_of : string → Z).
Variables (runtimesPath GOARCH : string).

Definition config_in (dir : string) : option RuntimeConfig := config_at (Join_path [dir; "runtime.yml"]).

(** The names of the subdirectories. *)
Definition subdirs (l : list (string * bool)) : list string := omap (λ e : string * bool, if e.2 then Some e.1 else None) l.

(** The version directories of a runtime, with their configurations. *)
Definition versions_in (dir : string) (entries : list (string * bool)) : list (string * RuntimeConfig) :=
  omap (λ n, let path := Join_path [dir; n] in
             match config_in path with Some c => Some (path, c) | None => None end) (subdirs entries).

(** The first pass on one runtime directory.
    [src/internal/joblet/runtime/resolver.go:226-300 Resolver.FindRuntimeDirectory] *)
Definition first_pass (runtimeName requested : string) (name : string) : option string :=
  let dir := Join_path [runtimesPath; name] in
  match ReadDir dir with
  | None => None
  | Some entries =>
      let named := filter (λ pc, rc_Name pc.2 = runtimeName) (versions_in dir entries) in
      let latest := bool_decide (requested = ""%string) || bool_decide (requested = "latest"%string) in
      let nested :=
        if latest then
          match named with
          | [] => None
          | _ => let p := findLatestVersion ((λ pc, (pc.1, rc_Version pc.2)) <$> named) in
                 if bool_decide (p = ""%string) then None else Some p
          end
        else fst <$> List.find (λ pc, bool_decide (rc_Version pc.2 = requested)) named in
      match nested with
      | Some p => Some p
      | None =>
          match config_in dir with
          | Some c => if bool_decide (rc_Name c = runtimeName) && (latest || bool_decide (rc_Version c = requested))
                      then Some dir else None
          | None => None
          end
      end
  end.

(** The second pass on one runtime directory.
    [src/internal/joblet/runtime/resolver.go:304-345 Resolver.FindRuntimeDirectory] *)
Definition second_pass (spec : RuntimeSpec) (name : string) : option string :=
  let dir := Join_path [runtimesPath; name] in
  match ReadDir dir with
  | None => None
  | Some entries =>
      match List.find (λ pc, runtimeMatches pc.2 spec) (versions_in dir entries) with
      | Some (p, _) => Some p
      | None =>
          match config_in dir with
          | Some c => if runtimeMatches c spec then Some dir else None
          | None => None
          end
      end
  end.

Inductive runtime_error := EReadDir | ENotFound (spec : string) | ELoadConfig | EArch (archs : list string).

(** [src/internal/joblet/runtime/resolver.go Resolver.FindRuntimeDirectory] *)
Definition FindRuntimeDirectory (spec : string) : result runtime_error string :=
  let (runtimeName, requested) := match Cut spec "@" with Some nv => nv | None => (spec, ""%string) end in
  match ReadDir runtimesPath with
  | None => Err EReadDir
  | Some entries =>
      match first_some (first_pass runtimeName requested) (subdirs entries) with
      | Some p => Ok p
      | None =>
          match first_some (second_pass (parseRuntimeSpec spec)) (subdirs entries) with
          | Some p => Ok p
          | None => Err (ENotFound spec)
          end
      end
  end.

(** [src/internal/joblet/runtime/resolver.go normalizeArch] *)
Definition normalizeArch (arch : string) : string :=
  if bool_decide (arch = "x86_64"%string) then "amd64"
  else if bool_decide (arch = "aarch64"%string) then "arm64" else arch.

(** [src/internal/joblet/runtime/resolver.go Resolver.validateRuntime] *)
Definition validateRuntime (c : RuntimeConfig) : result runtime_error unit :=
  let archs := Architectures (rc_Requirements c) in
  if bool_decide (archs = []) || existsb (λ a, bool_decide (normalizeArch a = GOARCH)) archs
  then Ok tt else Err (EArch archs).

(** [src/internal/joblet/runtime/resolver.go Resolver.ResolveRuntimeDirectory] *)
Definition ResolveRuntimeDirectory (spec : string) : result runtime_error (string * RuntimeConfig) :=
  match FindRuntimeDirectory spec with
  | Err _ => Err (ENotFound spec)
  | Ok dir =>
      match config_in dir with
      | None => Err ELoadConfig
      | Some c => _ ← validateRuntime c; Ok (dir, c)
      end
  end.

(** [src/internal/joblet/runtime/resolver.go Resolver.ResolveRuntime] *)
Definition ResolveRuntime (spec : string) : result runtime_error (option RuntimeConfig) :=
  if bool_decide (spec = ""%string) then Ok None
  else dc ← ResolveRuntimeDirectory spec; Ok (Some dc.2).

(** What is listed of a directory with a configuration. *)
Definition info_of (name path : string) (c : RuntimeConfig) : RuntimeInfo := {|
  ri_Name := rc_Name c;
  ri_Language := if bool_decide (rc_Language c = ""%string) then extractTypeFromName name else rc_Language c;
  ri_Version := rc_Version c; ri_Description := rc_Description c; ri_Path := path;
  ri_Size := size_of path; ri_Available := true |}.

(** [src/internal/joblet/runtime/resolver.go:49-126 Resolver.ListRuntimes] *)
Definition list_one (name : string) : list RuntimeInfo :=
  let dir := Join_path [runtimesPath; name] in
  match ReadDir dir with
  | None => []
  | Some entries =>
      let vdirs := filter (λ p, Stat (Join_path [p; "runtime.yml"]) = true)
                     ((λ n, Join_path [dir; n]) <$> subdirs entries) in
      match vdirs with
      | [] => if Stat (Join_path [dir; "runtime.yml"])
              then match config_in dir with Some c => [info_of name dir c] | None => [] end
              else []
      | _ => omap (λ p, info_of name p <$> config_in p) vdirs
      end
  end.

(** [src/internal/joblet/runtime/resolver.go Resolver.ListRuntimes] *)
Definition ListRuntimes : result runtime_error (list RuntimeInfo) :=
  if negb (DirExists runtimesPath) then Ok []
  else match ReadDir runtimesPath with
       | None => Err EReadDir
       | Some entries => Ok (subdirs entries ≫= list_one)
       end.
End resolver.

(** ** GPUs and CUDA *)

(** [src/internal/joblet/runtime/resolver.go Resolver.specHasGPUSupport] *)
Definition specHasGPUSupport (spec : RuntimeSpec) : bool :=
  existsb (λ tag, bool_decide (ToLower tag ∈ ["gpu"; "cuda"; "ml"; "ai"; "tensorflow"; "pytorch"; "nvidia"]%string))
    (rs_Tags spec).

(** [src/internal/joblet/runtime/resolver.go Resolver.IsGPUEnabled] *)
Definition IsGPUEnabled (runtimeName : string) : bool :=
  let lowerName := ToLower runtimeName in
  existsb (Contains lowerName) ["gpu"; "cuda"; "-ml"; "tensorflow"; "pytorch"; "nvidia"]%string ||
  specHasGPUSupport (parseRuntimeSpec runtimeName).

(** The patterns of the map, which a range visits in any order.
    [src/internal/joblet/runtime/resolver.go:614-625 Resolver.inferCUDAVersion] *)
Definition cudaVersionMap : list (string * string) :=
  [("cuda12", "12.0"); ("cuda12.0", "12.0"); ("cuda12.1", "12.1"); ("cuda12.2", "12.2");
   ("cuda11", "11.8"); ("cuda11.8", "11.8"); ("cuda11.7", "11.7"); ("cuda11.6", "11.6");
   ("pytorch", "11.8"); ("tensorflow", "11.8")]%string.

(** [src/internal/joblet/runtime/resolver.go Resolver.inferCUDAVersion] *)
Definition inferCUDAVersion (order : list (string * string)) (runtimeName : string) : string :=
  match List.find (λ pv, Contains (ToLower runtimeName) pv.1) order with
  | Some (_, v) => v
  | None => "11.8"
  end.

(** [src/internal/joblet/runtime/resolver.go Resolver.isVersionString] *)
Definition isVersionString (s : string) : bool :=
  let parts := split_bytes "." (bytes s) in
  if Nat.ltb (List.length parts) 2 then false
  else forallb (λ p, negb (bool_decide (p = [])) && forallb is_digit p) parts.

(** [src/internal/joblet/runtime/resolver.go Resolver.extractVersionFromPath] *)
Definition extractVersionFromPath (path : string) : string :=
  match List.find (λ p, contains_byte p "." && isVersionString p) (Split path "-") with
  | Some p => p
  | None => "unknown"
  end.

(** [src/internal/joblet/gpu/cuda.go:16-20 CUDAVersion] *)
Record CUDAVersion := { cuda_Major : Z; cuda_Minor : Z; cuda_Path : string }.

(** [src/internal/joblet/gpu/cuda.go CUDAVersion.IsCompatible] *)
Definition IsCompatible (v required : CUDAVersion) : bool :=
  if cuda_Major v >? cuda_Major required then true
  else (cuda_Major v =? cuda_Major required) && (cuda_Minor v >=? cuda_Minor required).

(** [src/internal/joblet/gpu/cuda.go ParseCUDAVersion] *)
Definition ParseCUDAVersion (versionStr : string) : option CUDAVersion :=
  match Split versionStr "." with
  | a :: b :: _ =>
      match Atoi a, Atoi b with
      | Some x, Some y => Some {| cuda_Major := x; cuda_Minor := y; cuda_Path := "" |}
      | _, _ => None
      end
  | _ => None
  end.

(** [installed]: what the detection found, when it succeeded.
    [src/internal/joblet/gpu/cuda.go CUDADetector.FindCompatibleCUDA] *)
Definition FindCompatibleCUDA (installed : option (list (string * CUDAVersion))) (required : CUDAVersion)
    : option (list (string * CUDAVersion)) :=
  match installed with
  | None => None
  | Some l => match filter (λ i, IsCompatible i.2 required = true) l with [] => None | c => Some c end
  end.

(** ** Lemmas *)

Lemma first_some_elem {A B} (f : A → option B) l b : first_some f l = Some b → ∃ a, a ∈ l ∧ f a = Some b.
Proof.
  unfold first_some. intros H. apply list_elem_of_omap. destruct (omap f l); [done|].
  injection H as ->. by left.
Qed.

Lemma first_some_none {A B} (f : A → option B) l : first_some f l = None → ∀ a, a ∈ l → f a = None.
Proof.
  unfold first_some. induction l as [|x l IH]; simpl; [set_solver|].
  destruct (f x) eqn:E; [done|]. intros H a [->|Ha]%elem_of_cons; [done|by apply IH].
Qed.

Lemma find_elem {A} (p : A → bool) l a : List.find p l = Some a → a ∈ l ∧ p a = true.
Proof. intros H%List.find_some. by rewrite <- list_elem_of_In in H. Qed.

Lemma Join_path_rooted p l : IsAbs p = true → IsAbs (Join_path (p :: l)) = true.
Proof.
  intros Hp. unfold Join_path. rewrite filter_cons_True by (by intros ->).
  set (es := filter _ l). assert (IsAbs (Join (p :: es) "/") = true) as Hj.
  { apply IsAbs_cons in Hp as [q Hq]. apply IsAbs_cons. unfold Join. rewrite bytes_of_bytes, fmap_cons.
    destruct (bytes <$> es) as [|w ws]; cbn [join_bytes]; rewrite Hq; cbn; eauto. }
  destruct (Clean_rooted _ Hj) as (ws & _ & _ & Hc). apply IsAbs_cons. eauto.
Qed.

(** What the fold has chosen after the candidates [done]: the first of them while
    none is a version, and then one whose version none of the others exceeds. *)
Definition latest_inv (done : list (string * string)) (st : option Version * string) : Prop :=
  match st.1 with
  | None => (∀ c, c ∈ done → is_ok (NewVersion c.2) = false) ∧
            (done = [] ∧ st.2 = ""%string ∨ ∃ c, c ∈ done ∧ st.2 = c.1)
  | Some sv => ∃ c, c ∈ done ∧ st.2 = c.1 ∧ NewVersion c.2 = Ok sv ∧
      ∀ c' sv', c' ∈ done → NewVersion c'.2 = Ok sv' → GreaterThan sv' sv = false
  end.

Lemma latest_step_inv done st cand : (∀ c, c ∈ done → c.1 ≠ ""%string) →
  latest_inv done st → latest_inv (done ++ [cand]) (latest_step st cand).
Proof.
  intros Hne. destruct st as [[l|] p]; unfold latest_inv, latest_step; cbn [fst snd].
  - intros (c & Hc & -> & Hl & Hmax). destruct (NewVersion cand.2) as [sv|e] eqn:E.
    + destruct (GreaterThan sv l) eqn:Eg; cbn [fst snd].
      * exists cand. split; [set_solver|]. split; [done|]. split; [done|].
        intros c' sv' [Hin| ->%list_elem_of_singleton]%elem_of_app Hv.
        -- specialize (Hmax c' sv' Hin Hv). destruct (GreaterThan sv' sv) eqn:E2; [|done].
           by rewrite (sw_trans _ _ _ E2 Eg) in Hmax.
        -- rewrite E in Hv. injection Hv as <-. apply sw_irrefl.
      * exists c. split; [set_solver|]. split; [done|]. split; [done|].
        intros c' sv' [Hin| ->%list_elem_of_singleton]%elem_of_app Hv; [by eapply Hmax|congruence].
    + rewrite bool_decide_eq_false_2 by by apply Hne. cbn [fst snd].
      exists c. split; [set_solver|]. split; [done|]. split; [done|].
      intros c' sv' [Hin| ->%list_elem_of_singleton]%elem_of_app Hv; [by eapply Hmax|congruence].
  - intros [Hbad Hp]. destruct (NewVersion cand.2) as [sv|e] eqn:E; cbn [fst snd].
    + exists cand. split; [set_solver|]. split; [done|]. split; [done|].
      intros c' sv' [Hin| ->%list_elem_of_singleton]%elem_of_app Hv.
      * specialize (Hbad _ Hin). by rewrite Hv in Hbad.
      * rewrite E in Hv. injection Hv as <-. apply sw_irrefl.
    + assert (∀ q, (q = cand.1 ∨ ∃ c, c ∈ done ∧ q = c.1) →
        (∀ c, c ∈ done ++ [cand] → is_ok (NewVersion c.2) = false) ∧
        (done ++ [cand] = [] ∧ q = ""%string ∨ ∃ c, c ∈ done ++ [cand] ∧ q = c.1)) as Hgoal.
      { intros q Hq. split.
        - intros c [Hin| ->%list_elem_of_singleton]%elem_of_app; [by apply Hbad|by rewrite E].
        - right. destruct Hq as [->|(c & Hc & ->)]; [exists cand|exists c]; set_solver. }
      case_bool_decide as Hq; cbn [fst snd]; apply Hgoal; [by left|]. right.
      destruct Hp as [[_ ?]|?]; [done|done].
Qed.

Lemma latest_fold l done st : (∀ c, c ∈ done ++ l → c.1 ≠ ""%string) →
  latest_inv done st → latest_inv (done ++ l) (foldl latest_step st l).
Proof.
  revert done st. induction l as [|c l IH]; intros done st Hne Hi; [by rewrite app_nil_r|].
  cbn [foldl]. rewrite cons_middle, app_assoc. apply IH; [by rewrite <- app_assoc|].
  apply latest_step_inv; [|done]. intros d Hd. apply Hne. set_solver.
Qed.

(** The candidate chosen: none of the others has a greater version, and it has one
    as soon as any of them does. *)
Lemma findLatestVersion_spec versions : versions ≠ [] → (∀ c, c ∈ versions → c.1 ≠ ""%string) →
  ∃ c, c ∈ versions ∧ findLatestVersion versions = c.1 ∧
    ∀ c' v', c' ∈ versions → NewVersion c'.2 = Ok v' →
      ∃ v, NewVersion c.2 = Ok v ∧ GreaterThan v' v = false.
Proof.
  intros Hne Hp. destruct versions as [|c [|d l]]; [done| |].
  { exists c. split; [by left|]. split; [done|]. intros c' v' ->%list_elem_of_singleton Hv.
    exists v'. split; [done|]. apply sw_irrefl. }
  cbn [findLatestVersion]. set (versions := c :: d :: l) in *.
  pose proof (latest_fold versions [] (None, ""%string) Hp) as Hi.
  specialize (Hi ltac:(split; [set_solver|by left])). cbn [app] in Hi.
  destruct (foldl _ _ _) as [[sv|] p]; unfold latest_inv in Hi; cbn [fst snd] in Hi |- *.
  - destruct Hi as (c1 & Hc & -> & Hv & Hmax). exists c1. split; [done|]. split; [done|]. eauto.
  - destruct Hi as [Hbad [[? _]|(c1 & Hc & ->)]]; [done|]. exists c1. split; [done|]. split; [done|].
    intros c' v' Hin Hv. specialize (Hbad _ Hin). by rewrite Hv in Hbad.
Qed.

(** ** What a specification resolves to *)

Section resolved.
Variables (ReadDir : string → option (list (string * bool))) (config_at : string → option RuntimeConfig).
Variable runtimesPath : string.
Hypothesis rooted : IsAbs runtimesPath = true.

Notation config_in := (config_in config_at).
Notation versions_in := (versions_in config_at).
Notation first_pass := (first_pass ReadDir config_at runtimesPath).
Notation second_pass := (second_pass ReadDir config_at runtimesPath).

Lemma versions_in_elem dir es p c : (p, c) ∈ versions_in dir es → config_in p = Some c ∧ ∃ n, p = Join_path [dir; n].
Proof.
  intros (n & _ & Hn)%list_elem_of_omap. cbv zeta in Hn.
  destruct (config_in (Join_path [dir; n])) eqn:E; [|done].
  injection Hn as <- <-. eauto.
Qed.

Lemma version_path_nonempty d n : Join_path [Join_path [runtimesPath; d]; n] ≠ ""%string.
Proof.
  pose proof (Join_path_rooted (Join_path [runtimesPath; d]) [n] (Join_path_rooted _ _ rooted)) as H.
  intros E. by rewrite E in H.
Qed.

(** What the first pass finds: the name asked for, at the version asked for, or at
    one that no other of that name in the same place exceeds. *)
Lemma first_pass_spec name req d p : first_pass name req d = Some p →
  ∃ c es, ReadDir (Join_path [runtimesPath; d]) = Some es ∧ config_in p = Some c ∧ rc_Name c = name ∧
    (req ≠ ""%string → req ≠ "latest"%string → rc_Version c = req) ∧
    (req = ""%string ∨ req = "latest"%string → ∀ q c' v',
       (q, c') ∈ versions_in (Join_path [runtimesPath; d]) es → rc_Name c' = name →
       NewVersion (rc_Version c') = Ok v' →
       ∃ v, NewVersion (rc_Version c) = Ok v ∧ GreaterThan v' v = false).
Proof.
  unfold Runtime.first_pass. set (dir := Join_path [runtimesPath; d]).
  destruct (ReadDir dir) as [es|]; [|done]. set (named := filter _ _).
  assert (Hnamed : ∀ q c', (q, c') ∈ named ↔ rc_Name c' = name ∧ (q, c') ∈ versions_in dir es)
    by (intros q c'; unfold named; by rewrite list_elem_of_filter).
  destruct (bool_decide (req = ""%string) || bool_decide (req = "latest"%string)) eqn:El.
  - assert (Hlat : req = ""%string ∨ req = "latest"%string)
      by (apply orb_true_iff in El as [?|?]; to_prop; auto).
    destruct named as [|x named'] eqn:En.
    + destruct (config_in dir) as [c|] eqn:Ec; [|done]. rewrite orb_true_l, andb_true_r.
      destruct (bool_decide (rc_Name c = name)) eqn:Hc; [|done]. apply bool_decide_eq_true in Hc. intros [= <-]. exists c, es. split_and!; [done..| |].
      * intros H1 H2. destruct Hlat; done.
      * intros _ q c' v' Hin Hn _. assert ((q, c') ∈ ([] : list (string * RuntimeConfig))) as H by by apply Hnamed.
        by apply elem_of_nil in H.
    + rewrite <- En in *. assert (named ≠ []) as Hne by (by rewrite En). clear En x named'.
      set (cands := (λ pc : string * RuntimeConfig, (pc.1, rc_Version pc.2)) <$> named).
      assert (Hcand : ∀ x, x ∈ cands ↔ ∃ c', (x.1, c') ∈ named ∧ x.2 = rc_Version c').
      { intros [q v]. unfold cands. rewrite list_elem_of_fmap. split.
        - intros ([q' c'] & [= -> ->] & Hin). eauto.
        - intros (c' & Hin & E). simpl in *. subst v. by exists (q, c'). }
      destruct (findLatestVersion_spec cands) as (c0 & Hc0 & Hp & Hmax).
      { unfold cands. by destruct named. }
      { intros x (c' & [_ Hin]%Hnamed & _)%Hcand. apply versions_in_elem in Hin as (_ & n & ->).
        apply version_path_nonempty. }
      change ((λ pc : string * RuntimeConfig, (pc.1, rc_Version pc.2)) <$> named) with cands.
      apply Hcand in Hc0 as (c & Hin & Hv0). apply Hnamed in Hin as [Hn Hin].
      destruct (versions_in_elem _ _ _ _ Hin) as [Hc (n & Hq)].
      assert (findLatestVersion cands ≠ ""%string) as Hnz by (rewrite Hp, Hq; apply version_path_nonempty).
      clearbody cands. destruct named; [done|]. rewrite bool_decide_eq_false_2 by done. rewrite Hp.
      intros [= <-]. exists c, es. split_and!; [done..| |].
      * intros H1 H2. by destruct Hlat.
      * intros _ q c' v' Hin' Hn' Hv'. rewrite <- Hv0. apply (Hmax (q, rc_Version c') v'); [|done].
        apply Hcand. exists c'. split; [by apply Hnamed|done].
  - destruct (List.find _ named) as [[q c]|] eqn:Ef; cbn [fmap option_fmap option_map fst].
    + intros [= ->]. apply find_elem in Ef as [Hin Hv]. to_prop. apply Hnamed in Hin as [Hn Hin].
      apply versions_in_elem in Hin as [Hc _]. exists c, es. split_and!; [done..|].
      by intros [?|?].
    + destruct (config_in dir) as [c|] eqn:Ec; [|done]. rewrite orb_false_l.
      destruct (_ && _) eqn:Eb; [|done]. intros [= <-]. to_prop. exists c, es. split_and!; [done..|].
      by intros [?|?].
Qed.

Lemma second_pass_spec spec d p : second_pass spec d = Some p →
  ∃ c, config_in p = Some c ∧ runtimeMatches c spec = true.
Proof.
  unfold Runtime.second_pass. destruct (ReadDir _) as [es|]; [|done].
  destruct (List.find _ _) as [[q c]|] eqn:Ef.
  - intros [= <-]. apply find_elem in Ef as [Hin Hm]. apply versions_in_elem in Hin as [Hc _]. eauto.
  - destruct (config_in _) as [c|] eqn:Ec; [|done]. destruct (runtimeMatches c spec) eqn:Em; [|done].
    intros [= <-]. eauto.
Qed.

Lemma resolved_by spec dir : FindRuntimeDirectory ReadDir config_at runtimesPath spec = Ok dir →
  let (name, req) := match Cut spec "@" with Some nv => nv | None => (spec, ""%string) end in
  (∃ d, first_pass name req d = Some dir) ∨
  (∃ d, second_pass (parseRuntimeSpec spec) d = Some dir).
Proof.
  unfold FindRuntimeDirectory. destruct (match Cut spec "@" with Some _ => _ | None => _ end) as [name req].
  destruct (ReadDir runtimesPath) as [es|]; [|done].
  destruct (first_some (first_pass name req) _) as [p|] eqn:E1.
  { intros [= <-]. apply first_some_elem in E1 as (d & _ & ?). eauto. }
  destruct (first_some (second_pass _) _) as [p|] eqn:E2; [|done].
  intros [= <-]. apply first_some_elem in E2 as (d & _ & ?). eauto.
Qed.

(** A specification with an explicit version never resolves to another one: the
    directory found has a readable configuration of exactly that version, whose
    name, or language, is the one asked for. *)
Theorem explicit_version_honoured name v dir :
  "@"%char ∉ bytes name → open_version v = false → name ≠ ""%string → name ≠ "unknown"%string →
  FindRuntimeDirectory ReadDir config_at runtimesPath (name +:+ "@" +:+ v) = Ok dir →
  ∃ c, config_in dir = Some c ∧ rc_Version c = v ∧ (rc_Name c = name ∨ rc_Language c = name).
Proof.
  intros Hn Hv Hne Hnu Hf. pose proof (resolved_by _ _ Hf) as Hr.
  assert (Hcut : Cut (name +:+ "@" +:+ v) "@" = Some (name, v)).
  { unfold Cut. rewrite !bytes_app. change (bytes "@") with ["@"%char]. cbn [app].
    rewrite cut_bytes_app by done. by rewrite !of_bytes_bytes. }
  unfold parseRuntimeSpec in Hr. rewrite Hcut in Hr.
  unfold open_version in Hv. to_prop. destruct Hr as [[d Hd]|[d Hd]].
  - apply first_pass_spec in Hd as (c & es & _ & Hc & Hname & Hver & _). exists c. eauto.
  - apply second_pass_spec in Hd as (c & Hc & Hm). exists c. split; [done|].
    unfold runtimeMatches in Hm. cbn [rs_Language rs_Version] in Hm.
    unfold open_version in Hm.
    rewrite (bool_decide_eq_false_2 (v = ""%string)), (bool_decide_eq_false_2 (v = "unknown"%string)),
      (bool_decide_eq_false_2 (v = "latest"%string)), (bool_decide_eq_false_2 (name = ""%string)),
      (bool_decide_eq_false_2 (name = "unknown"%string)) in Hm by done. cbn [negb andb orb] in Hm.
    destruct (bool_decide (rc_Name c = name)) eqn:E1; to_prop; [eauto|].
    destruct (negb _ && _) eqn:E2; [|done]. to_prop. eauto.
Qed.

(** A bare runtime name, or one at "latest", resolves to a directory whose version
    no other version of that runtime in the same place exceeds, as semantic
    versions; only when no runtime has the name does the looser match apply. *)
Theorem latest_version_resolved spec name dir :
  (spec = name ∧ "@"%char ∉ bytes name ∨ spec = (name +:+ "@latest")%string ∧ "@"%char ∉ bytes name) →
  FindRuntimeDirectory ReadDir config_at runtimesPath spec = Ok dir →
  (∃ d es c, ReadDir (Join_path [runtimesPath; d]) = Some es ∧ config_in dir = Some c ∧ rc_Name c = name ∧
     ∀ q c' v', (q, c') ∈ versions_in (Join_path [runtimesPath; d]) es → rc_Name c' = name →
       NewVersion (rc_Version c') = Ok v' → ∃ v, NewVersion (rc_Version c) = Ok v ∧ GreaterThan v' v = false) ∨
  (∃ c, config_in dir = Some c ∧ runtimeMatches c (parseRuntimeSpec spec) = true).
Proof.
  intros Hspec Hf. pose proof (resolved_by _ _ Hf) as Hr.
  assert (∃ req, match Cut spec "@" with Some nv => nv | None => (spec, ""%string) end = (name, req) ∧
    (req = ""%string ∨ req = "latest"%string)) as (req & Hcut & Hreq).
  { destruct Hspec as [[-> Hn]|[-> Hn]]; unfold Cut.
    - pose proof (cut_bytes_spec "@" (bytes name)) as Hc.
      destruct (cut_bytes "@" (bytes name)) as [[a b]|]; [|eauto]. destruct Hc as [Hc _].
      exfalso. apply Hn. rewrite Hc. set_solver.
    - rewrite bytes_app. change (bytes "@latest") with ("@"%char :: bytes "latest").
      rewrite cut_bytes_app by done. rewrite !of_bytes_bytes. eauto. }
  rewrite Hcut in Hr. destruct Hr as [[d Hd]|[d Hd]].
  - left. apply first_pass_spec in Hd as (c & es & Hes & Hc & Hname & _ & Hmax).
    exists d, es, c. split_and!; [done..|]. by apply Hmax.
  - right. by eapply second_pass_spec.
Qed.
End resolved.

(** ** Concrete hosts *)

Definition runtime_named (name version : string) : RuntimeConfig := {|
  rc_Name := name; rc_Language := "python"; rc_Version := version; rc_Description := "";
  rc_Environment := ∅; rc_Requirements := {| Architectures := ["x86_64"]; req_GPU := false; req_CUDAVersion := "" |} |}.

(** Two versions of one runtime, the greater one not last in the order of texts. *)
Definition host_dirs (p : string) : option (list (string * bool)) :=
  if bool_decide (p = "/rt"%string) then Some [("python-3.11"%string, true)]
  else if bool_decide (p = "/rt/python-3.11"%string)
  then Some [("1.10.0"%string, true); ("1.9.0"%string, true); ("notes"%string, false)]
  else None.
Definition host_configs (p : string) : option RuntimeConfig :=
  if bool_decide (p = "/rt/python-3.11/1.10.0/runtime.yml"%string) then Some (runtime_named "python-3.11" "1.10.0")
  else if bool_decide (p = "/rt/python-3.11/1.9.0/runtime.yml"%string) then Some (runtime_named "python-3.11" "1.9.0")
  else None.

Lemma explicit_version_honoured_witness :
  FindRuntimeDirectory host_dirs host_configs "/rt" "python-3.11@1.9.0" = Ok "/rt/python-3.11/1.9.0"%string ∧
  ∃ c, config_in host_configs "/rt/python-3.11/1.9.0" = Some c ∧ rc_Version c = "1.9.0"%string ∧
    (rc_Name c = "python-3.11"%string ∨ rc_Language c = "python-3.11"%string).
Proof.
  split; [vm_compute; reflexivity|].
  apply (explicit_version_honoured host_dirs host_configs "/rt" eq_refl "python-3.11" "1.9.0");
    [by apply (bool_decide_unpack _)|vm_compute; reflexivity|done|done|vm_compute; reflexivity].
Defined.

Lemma latest_version_resolved_witness :
  FindRuntimeDirectory host_dirs host_configs "/rt" "python-3.11" = Ok "/rt/python-3.11/1.10.0"%string ∧
  ((∃ d es c, host_dirs (Join_path ["/rt"%string; d]) = Some es ∧
     config_in host_configs "/rt/python-3.11/1.10.0" = Some c ∧ rc_Name c = "python-3.11"%string ∧
     ∀ q c' v', (q, c') ∈ versions_in host_configs (Join_path ["/rt"%string; d]) es → rc_Name c' = "python-3.11"%string →
       NewVersion (rc_Version c') = Ok v' → ∃ v, NewVersion (rc_Version c) = Ok v ∧ GreaterThan v' v = false) ∨
   (∃ c, config_in host_configs "/rt/python-3.11/1.10.0" = Some c ∧
     runtimeMatches c (parseRuntimeSpec "python-3.11") = true)).
Proof.
  split; [vm_compute; reflexivity|].
  apply (latest_version_resolved host_dirs host_configs "/rt" eq_refl "python-3.11" "python-3.11");
    [left; split; [done|by apply (bool_decide_unpack _)]|vm_compute; reflexivity].
Defined.

(** A name that no runtime has, but whose first word is some runtime's language,
    resolves to that runtime, whatever version the name says. *)
Theorem misspelled_runtime_resolves :
  FindRuntimeDirectory host_dirs host_configs "/rt" "python-2.7-legacy" = Ok "/rt/python-3.11/1.10.0"%string.
Proof. vm_compute. reflexivity. Qed.

(** The CUDA version inferred from a name depends on the order in which the map is
    visited. *)
Theorem inferred_cuda_depends_on_order :
  ∃ o1 o2, o1 ≡ₚ cudaVersionMap ∧ o2 ≡ₚ cudaVersionMap ∧
    inferCUDAVersion o1 "cuda12.1-dev" ≠ inferCUDAVersion o2 "cuda12.1-dev".
Proof.
  exists cudaVersionMap, (rev cudaVersionMap). split; [done|]. split; [symmetry; apply Permutation_rev|].
  by vm_compute.
Qed.
