(* ===== verification/Admission.v ===== *)
(** * From a request to a job (internal/joblet/server/job_service.go,
    core/joblet.go, core/job/builder.go)

    The RunJob handler authorizes the client, converts and validates the request
    and builds the job; the job then runs as the execution and environment
    components say. *)

From S2P Require Import Execution VolumeStore.
From S2P Require Import Prelude GoStrings Values Paths Job Auth Semver Runtime Environment.
From Stdlib Require Import Ascii.

Local Open Scope Z_scope.

(** ** Requests *)

(** [src/internal/joblet/server/job_service.go:152-161 JobServiceServer.convertToJobRequest] *)
Record upload := { up_Path : string; up_Content : list ascii; up_Mode : Z; up_IsDirectory : bool }.

(** The request message. *)
Record RunJobRequest := {
  q_Command : string; q_Args : list string;
  q_MaxCpu : Z; q_CpuCores : string; q_MaxMemory : Z; q_MaxIoBps : Z;
  q_Uploads : list upload; q_Schedule : string; q_Network : string; q_Volumes : list string;
  q_Runtime : string; q_Environment : gmap string string; q_SecretEnvironment : gmap string string;
  q_GpuCount : Z; q_GpuMemoryMb : Z; q_Timeout : string;
}.

(** [src/internal/joblet/core/interfaces/requests.go StartJobRequest] *)
Record StartJobRequest := {
  r_Command : string; r_Args : list string;
  r_MaxCPU : Z; r_MaxMemory : Z; r_MaxIOBPS : Z; r_CPUCores : string;
  r_Uploads : list FileUpload; r_Schedule : string; r_Network : string; r_Volumes : list string;
  r_Runtime : string; r_Environment : gmap string string; r_SecretEnvironment : gmap string string;
  r_JobType : string; r_WorkingDirectory : string;
  r_GPUCount : Z; r_GPUMemoryMB : Z; r_Timeout : string;
}.

Inductive admission_error :=
| AAuth (e : auth_error) | APersist
| ACommand | AEnvName (key : string) | AEnvReserved (key : string)
| ANegative (field : string) | ANetwork (name : string) | AVolume (name : string)
| ARuntime (e : runtime_error) | ARuntimeNeedsGPU | ARuntimeCUDA
| ATimeoutText | ATimeoutNegative | ACPULimit | AMemoryLimit | ACanceled.

(** [src/internal/joblet/server/job_service.go:231-236 reservedEnvPrefixes] *)
Definition reservedEnvPrefixes : list string := ["JOB_"; "JOBLET_"]%string.
(** [src/internal/joblet/server/job_service.go:233-236 reservedEnvExact] *)
Definition reservedEnvExact : list string := ["RUNTIME_MANAGER_PATH"; "NETWORK_READY_FILE"]%string.

(** One variable of the client. *)
Definition validate_variable (kv : string * string) : result admission_error unit :=
  match ValidateEnvironmentVariable kv.1 kv.2 with
  | Err _ => Err (AEnvName kv.1)
  | Ok _ =>
      if bool_decide (kv.1 ∈ reservedEnvExact) then Err (AEnvReserved kv.1)
      else if existsb (HasPrefix kv.1) reservedEnvPrefixes then Err (AEnvReserved kv.1)
      else Ok tt
  end.

(** The first error of a list of checks. *)
Fixpoint check_all {A E} (check : A → result E unit) (l : list A) : result E unit :=
  match l with
  | [] => Ok tt
  | a :: l => _ ← check a; check_all check l
  end.

Section admission.
Context `{!MapRange}.
(** The host's runtimes and CUDA installations, and the server's configuration;
    [parseDuration] is [time.ParseDuration], of which nothing is assumed. *)
Variable resolve : string → result runtime_error (option RuntimeConfig).
Variable installed : option (list (string * CUDAVersion)).
Variable parseDuration : string → option Z.
Variables (DefaultCPULimit DefaultMemoryLimit DefaultIOLimit : Z) (cgroupBaseDir nodeId : string).

(** [src/internal/joblet/server/job_service.go validateClientEnvironment] *)
Definition validateClientEnvironment (env : gmap string string) : result admission_error unit :=
  check_all validate_variable (map_range env).

(** A runtime specification that resolves to nothing is the empty one, which is not
    asked about.
    [src/internal/joblet/server/job_service.go JobServiceServer.validateRuntime] *)
Definition validateRuntime (r : StartJobRequest) : result admission_error unit :=
  match resolve (r_Runtime r) with
  | Err e => Err (ARuntime e)
  | Ok None => Ok tt
  | Ok (Some config) =>
      let reqs := rc_Requirements config in
      if req_GPU reqs && (r_GPUCount r =? 0) then Err ARuntimeNeedsGPU
      else if (r_GPUCount r >? 0) && negb (bool_decide (req_CUDAVersion reqs = ""%string)) then
        match ParseCUDAVersion (req_CUDAVersion reqs) with
        | None => Err ARuntimeCUDA
        | Some required =>
            match FindCompatibleCUDA installed required with None => Err ARuntimeCUDA | Some _ => Ok tt end
        end
      else Ok tt
  end.

(** [src/internal/joblet/server/job_service.go JobServiceServer.validateJobRequest] *)
Definition validateJobRequest (r : StartJobRequest) : result admission_error unit :=
  if r_MaxCPU r <? 0 then Err (ANegative "maxCPU")
  else if r_MaxMemory r <? 0 then Err (ANegative "maxMemory")
  else if r_MaxIOBPS r <? 0 then Err (ANegative "maxIOBPS")
  else if r_GPUCount r <? 0 then Err (ANegative "gpuCount")
  else if negb (bool_decide (r_Network r = ""%string)) &&
          negb (bool_decide (r_Network r ∈ ["bridge"; "host"; "none"]%string)) &&
          negb (IsValidNetworkName (r_Network r)) then Err (ANetwork (r_Network r))
  else
    _ ← check_all (λ v, if IsValidVolumeName v then Ok tt else Err (AVolume v)) (r_Volumes r);
    if bool_decide (r_Runtime r = ""%string) then Ok tt else validateRuntime r.

(** [src/internal/joblet/server/job_service.go JobServiceServer.convertToJobRequest] *)
Definition convertToJobRequest (q : RunJobRequest) : result admission_error StartJobRequest :=
  if bool_decide (q_Command q = ""%string) then Err ACommand
  else
    let network := if bool_decide (q_Network q = ""%string) then "bridge"%string else q_Network q in
    let uploads := (λ u, {| fu_Path := up_Path u; fu_Content := up_Content u; fu_Mode := up_Mode u;
                            fu_IsDirectory := up_IsDirectory u;
                            fu_Size := Z.of_nat (List.length (up_Content u)) |}) <$> q_Uploads q in
    _ ← validateClientEnvironment (q_Environment q);
    _ ← validateClientEnvironment (q_SecretEnvironment q);
    let r := {| r_Command := q_Command q; r_Args := q_Args q; r_MaxCPU := q_MaxCpu q;
                r_MaxMemory := q_MaxMemory q; r_MaxIOBPS := q_MaxIoBps q; r_CPUCores := q_CpuCores q;
                r_Uploads := uploads; r_Schedule := q_Schedule q; r_Network := network;
                r_Volumes := q_Volumes q; r_Runtime := q_Runtime q; r_Environment := q_Environment q;
                r_SecretEnvironment := q_SecretEnvironment q; r_JobType := JobTypeStandard;
                r_WorkingDirectory := ""; r_GPUCount := q_GpuCount q; r_GPUMemoryMB := q_GpuMemoryMb q;
                r_Timeout := q_Timeout q |} in
    _ ← validateJobRequest r;
    Ok r.

(** ** Building the job *)

(** [src/internal/joblet/core/job/builder.go Builder.generateCgroupPath] *)
Definition generateCgroupPath (jobUUID : string) : string := Join_path [cgroupBaseDir; ("job-" +:+ jobUUID)%string].

(** [None] when the core range does not finish within [fuel].
    [src/internal/joblet/core/job/builder.go Builder.applyResourceDefaults] *)
Definition applyResourceDefaults (fuel : nat) (l : ResourceLimits) : option ResourceLimits :=
  let cpuValue := if cpu_value (CPU l) <=? 0 then DefaultCPULimit else cpu_value (CPU l) in
  let memoryValue := if Megabytes (Memory l) <=? 0 then DefaultMemoryLimit else Megabytes (Memory l) in
  let ioValue := if bw_bytes (IOBandwidth l) <=? 0 then DefaultIOLimit else bw_bytes (IOBandwidth l) in
  let cpuCores := if cores_IsEmpty (CPUCores l) then ""%string else core_spec (CPUCores l) in
  NewResourceLimitsFromParams fuel cpuValue cpuCores memoryValue ioValue.

(** The duration of the request; an empty one is no limit of its own.
    [src/internal/joblet/core/job/builder.go:98-109 Builder.Build] *)
Definition build_timeout (text : string) : result admission_error Z :=
  if bool_decide (text = ""%string) then Ok 0
  else match parseDuration text with
       | None => Err ATimeoutText
       | Some t => if t <? 0 then Err ATimeoutNegative else Ok t
       end.

(** [now] and [uuid]: the clock and the generator.
    [src/internal/joblet/core/job/builder.go Builder.Build] *)
Definition Build (fuel : nat) (now : Z) (uuid : string) (r : StartJobRequest) (limits : ResourceLimits)
    : option (result admission_error Job) :=
  match build_timeout (r_Timeout r) with
  | Err e => Some (Err e)
  | Ok timeout =>
      l ← applyResourceDefaults fuel limits;
      Some
        (if (cpu_value (CPU l) <? 0) || (cpu_value (CPU l) >? 100) then Err ACPULimit
         else if mem_bytes (Memory l) <? 0 then Err AMemoryLimit
         else Ok {|
           Uuid := uuid; Command := r_Command r; Args := r_Args r; Type_ := r_JobType r; Limits := l;
           CgroupPath := generateCgroupPath uuid; Status := StatusInitializing; Pid := 0; StartTime := now;
           EndTime := None; ScheduledTime := None; ExitCode := 0; Network := r_Network r;
           Volumes := r_Volumes r; Runtime := r_Runtime r; WorkingDirectory := r_WorkingDirectory r;
           Uploads := r_Uploads r; Environment_ := r_Environment r;
           SecretEnvironment := r_SecretEnvironment r; GPUIndices := []; GPUMIGUUIDs := [];
           GPUCount := r_GPUCount r; GPUMemoryMB := r_GPUMemoryMB r; NodeId := nodeId;
           Timeout := timeout; cache := empty_cache |})
  end.

(** The part of the start that makes the job; [canceled]: the context's state.
    [src/internal/joblet/core/joblet.go:120-192 Joblet.StartJob] *)
Definition StartJob_build (fuel : nat) (now : Z) (uuid : string) (canceled : bool) (r : StartJobRequest)
    : option (result admission_error Job) :=
  limits ← NewResourceLimitsFromParams fuel (r_MaxCPU r) (r_CPUCores r) (r_MaxMemory r) (r_MaxIOBPS r);
  if canceled then Some (Err ACanceled)
  else if bool_decide (r_Command r = ""%string) then Some (Err ACommand)
  else Build fuel now uuid r limits.

(** [persist]: whether the persist service answered, when there is a client for it.
    [src/internal/joblet/server/job_service.go:75-124 JobServiceServer.RunJob] *)
Definition RunJob_build (fuel : nat) (now : Z) (uuid : string) (canceled : bool)
    (p : peer) (persist : option bool) (q : RunJobRequest) : option (result admission_error Job) :=
  match Authorized p RunJobOp with
  | Err e => Some (Err (AAuth e))
  | Ok _ =>
      if bool_decide (persist = Some false) then Some (Err APersist)
      else match convertToJobRequest q with
           | Err e => Some (Err e)
           | Ok r => StartJob_build fuel now uuid canceled r
           end
  end.
End admission.

(** ** What is admitted *)

Lemma check_all_ok {A E} (check : A → result E unit) l :
  check_all check l = Ok tt ↔ Forall (λ a, check a = Ok tt) l.
Proof.
  induction l as [|a l IH]; simpl; [split; [constructor|done]|].
  rewrite Forall_cons, <- IH. destruct (check a) as [[]|e]; simpl; [tauto|]. split; [done|by intros [? _]].
Qed.

(** A name the client may give a variable. *)
Definition client_key (k : string) : Prop :=
  good_key k = true ∧ control_namespace k = false ∧ k ∉ reservedEnvExact.

Lemma validate_variable_ok kv : validate_variable kv = Ok tt → client_key kv.1.
Proof.
  unfold validate_variable, ValidateEnvironmentVariable, client_key.
  set (name_ok := match bytes kv.1 with c :: l => _ | [] => false end).
  destruct name_ok eqn:En; cbn [negb]; [|done]. destruct (len kv.2 >? 32768); [done|].
  case_bool_decide; [done|]. cbn [existsb reservedEnvPrefixes]. rewrite orb_false_r.
  destruct (_ || _) eqn:Er; [done|]. intros _. split; [|done].
  apply good_key_spec. unfold name_ok in En. destruct (bytes kv.1) as [|c l] eqn:Eb; [done|].
  apply andb_true_iff in En as [Hc Hl].
  split; [intros E; by rewrite E in Eb|]. intros [E|Hin]%elem_of_cons.
  - rewrite <- E in Hc. by vm_compute in Hc.
  - rewrite forallb_forall in Hl. apply list_elem_of_In, Hl in Hin. by vm_compute in Hin.
Qed.

Section admitted.
Context `{!MapRange}.
Variable resolve : string → result runtime_error (option RuntimeConfig).
Variable installed : option (list (string * CUDAVersion)).
Variable parseDuration : string → option Z.
Variables (DefaultCPULimit DefaultMemoryLimit DefaultIOLimit : Z) (cgroupBaseDir nodeId : string).

Lemma validateClientEnvironment_ok env : validateClientEnvironment env = Ok tt →
  ∀ k v, env !! k = Some v → client_key k.
Proof.
  unfold validateClientEnvironment. rewrite check_all_ok, Forall_forall. intros Hall k v Hk.
  apply (validate_variable_ok (k, v)), Hall. rewrite map_range_perm. by apply elem_of_map_to_list.
Qed.

(** What a converted request promises. *)
Record request_ok (q : RunJobRequest) (r : StartJobRequest) : Prop := {
  ro_same : (r_Command r, r_Args r, r_Volumes r, r_Runtime r, r_Timeout r, r_CPUCores r) =
            (q_Command q, q_Args q, q_Volumes q, q_Runtime q, q_Timeout q, q_CpuCores q);
  ro_limits : (r_MaxCPU r, r_MaxMemory r, r_MaxIOBPS r, r_GPUCount r) =
              (q_MaxCpu q, q_MaxMemory q, q_MaxIoBps q, q_GpuCount q);
  ro_env : r_Environment r = q_Environment q ∧ r_SecretEnvironment r = q_SecretEnvironment q;
  ro_command : q_Command q ≠ ""%string;
  ro_type : r_JobType r = JobTypeStandard;
  ro_keys : ∀ k v, r_Environment r !! k = Some v ∨ r_SecretEnvironment r !! k = Some v → client_key k;
  ro_network : r_Network r ∈ ["bridge"; "host"; "none"]%string ∨ IsValidNetworkName (r_Network r) = true;
  ro_volumes : Forall (λ v, IsValidVolumeName v = true) (r_Volumes r);
  ro_counts : 0 ≤ r_MaxCPU r ∧ 0 ≤ r_MaxMemory r ∧ 0 ≤ r_MaxIOBPS r ∧ 0 ≤ r_GPUCount r;
}.

Lemma convert_ok q r : convertToJobRequest resolve installed q = Ok r → request_ok q r.
Proof.
  unfold convertToJobRequest. destruct (bool_decide (q_Command q = _)) eqn:Ec; [done|]. to_prop.
  intros (u1 & H1 & Hr)%bind_ok. destruct u1.
  apply bind_ok in Hr as (u2 & H2 & Hr). destruct u2. apply bind_ok in Hr as (u3 & H3 & Hr). destruct u3.
  injection Hr as <-. unfold validateJobRequest in H3.
  cbn [r_MaxCPU r_MaxMemory r_MaxIOBPS r_GPUCount r_Network r_Volumes r_Runtime] in H3.
  destruct (q_MaxCpu q <? 0) eqn:E1; [done|]. destruct (q_MaxMemory q <? 0) eqn:E2; [done|].
  destruct (q_MaxIoBps q <? 0) eqn:E3; [done|]. destruct (q_GpuCount q <? 0) eqn:E4; [done|].
  set (net := if bool_decide (q_Network q = ""%string) then _ else _) in *.
  destruct (_ && _) eqn:En in H3; [done|]. apply bind_ok in H3 as (u & Hv & _). destruct u. to_prop.
  split; cbn; try done.
  - intros k v [Hk|Hk]; [exact (validateClientEnvironment_ok _ H1 _ _ Hk)|exact (validateClientEnvironment_ok _ H2 _ _ Hk)].
  - rewrite !andb_false_iff, !negb_false_iff, !bool_decide_eq_true in En.
    destruct En as [[E|E]|E]; [|by left|by right].
    exfalso. unfold net in E. case_bool_decide; done.
  - apply check_all_ok in Hv. eapply Forall_impl; [exact Hv|]. intros v Hx. cbn in Hx.
    by destruct (IsValidVolumeName v).
Qed.

(** ** The limits of an admitted job *)

(** One parameter in force: what was asked for when it is usable, and otherwise the
    server's default when that is. *)
Definition in_force (usable : Z → bool) (asked default : Z) : Z :=
  if usable asked then asked else if usable default then default else 0.

Definition usable_cpu (z : Z) : bool := (0 <? z) && (z <=? 10000).
Definition usable_pos (z : Z) : bool := 0 <? z.

(** The cores in force: those of a text that parses, and otherwise no restriction. *)
Definition cores_in_force (fuel : nat) (spec : string) (c : CPUCoreSet) : Prop :=
  match ParseCPUCoreSet fuel spec with
  | Some (Ok cores) => core_list c = core_list cores
  | Some (Err _) => core_list c = []
  | None => False
  end.

Lemma ParseCPUCoreSet_spec fuel spec c : ParseCPUCoreSet fuel spec = Some (Ok c) → core_spec c = spec.
Proof.
  unfold ParseCPUCoreSet. case_bool_decide as E; [by intros [= <-]|].
  assert (Hf : ∀ cores, (_ ← check_duplicates ∅ cores; Ok {| core_list := cores; core_spec := spec |}) = Ok c →
    core_spec c = spec) by (by intros cores (u & _ & [= <-])%bind_ok).
  destruct (contains_byte spec "-").
  - destruct (Split spec "-") as [|a [|b [|]]]; try done.
    destruct (Atoi (TrimSpace a)) as [x|], (Atoi (TrimSpace b)) as [y|]; try done.
    destruct (_ || _); [done|]. destruct (x >? y); [done|].
    destruct (range_loop fuel x y []) as [cores|]; [|done]. simpl. intros [= Hc]. by eapply Hf.
  - intros [= Hc]. apply bind_ok in Hc as (cores & _ & Hc). by eapply Hf.
Qed.

(** Machine bounds as numerals. *)
Ltac int_bounds :=
  unfold in_int in *;
  change (min_int 32) with (-2147483648) in *; change (max_int 32) with 2147483647 in *;
  change (min_int 64) with (-9223372036854775808) in *; change (max_int 64) with 9223372036854775807 in *.

(** The three sizes of parameters in range, whatever the cores. *)
Lemma params_values fuel cpu cores mb io l : in_int32 cpu → in_int32 mb → in_int64 io →
  NewResourceLimitsFromParams fuel cpu cores mb io = Some l →
  cpu_value (CPU l) = (if usable_cpu cpu then cpu else 0) ∧
  mem_bytes (Memory l) = (if usable_pos mb then mb * 1048576 else 0) ∧
  bw_bytes (IOBandwidth l) = (if usable_pos io then io else 0).
Proof.
  intros Hc Hm Hi. unfold NewResourceLimitsFromParams. intros (cs & _ & Hl)%bind_Some. injection Hl as <-.
  cbn [CPU Memory IOBandwidth]. unfold usable_cpu, usable_pos. split_and!.
  - unfold NewCPUPercentage. rewrite Z.gtb_ltb. destruct (0 <? cpu) eqn:E1; [|done]. to_prop.
    rewrite (proj2 (Z.ltb_ge cpu 0)) by lia. rewrite Z.gtb_ltb. cbn [andb].
    destruct (Z.ltb_spec 10000 cpu), (Z.leb_spec cpu 10000); done || lia.
  - unfold NewMemorySizeFromMB. rewrite Z.gtb_ltb. destruct (0 <? mb) eqn:E1; [|done]. to_prop.
    rewrite (proj2 (Z.ltb_ge mb 0)) by lia. cbn [mem_bytes].
    assert (in_int64 (mb * 1024)) as H1 by (int_bounds; lia).
    assert (in_int64 (mb * 1024 * 1024)) as H2 by (int_bounds; lia).
    rewrite (wrap_id 64 (mb * 1024)) by (done || lia). rewrite wrap_id by (done || lia). lia.
  - unfold NewBandwidth. rewrite Z.gtb_ltb. destruct (0 <? io) eqn:E1; [|done]. to_prop.
    by rewrite (proj2 (Z.ltb_ge io 0)) by lia.
Qed.

Lemma params_cores fuel cpu cores mb io l : NewResourceLimitsFromParams fuel cpu cores mb io = Some l →
  cores_in_force fuel cores (CPUCores l) ∧
  (cores_IsEmpty (CPUCores l) = false → core_spec (CPUCores l) = cores).
Proof.
  unfold NewResourceLimitsFromParams, cores_in_force. intros (cs & Hcs & Hl)%bind_Some. injection Hl as <-.
  cbn [CPUCores]. case_bool_decide as E; [injection Hcs as <-; by subst|].
  apply bind_Some in Hcs as (r & Hr & Hcs). injection Hcs as <-. rewrite Hr.
  destruct r as [c|e]; [|done]. split; [done|]. intros _. by eapply ParseCPUCoreSet_spec.
Qed.

Lemma Megabytes_exact mb : in_int32 mb → 0 ≤ mb → Megabytes {| mem_bytes := mb * 1048576 |} = mb.
Proof.
  intros Hm H0. unfold Megabytes. cbn [mem_bytes]. change (1024 * 1024) with 1048576.
  rewrite Z.quot_mul by lia. apply wrap_id; done || lia.
Qed.

(** What the builder makes of the limits it is given. *)
Lemma defaults_applied fuel cpu cores mb io l l' :
  in_int32 cpu → in_int32 mb → in_int32 io → 0 ≤ cpu → 0 ≤ mb → 0 ≤ io →
  in_int32 DefaultCPULimit → in_int32 DefaultMemoryLimit → in_int32 DefaultIOLimit →
  NewResourceLimitsFromParams fuel cpu cores mb io = Some l →
  applyResourceDefaults DefaultCPULimit DefaultMemoryLimit DefaultIOLimit fuel l = Some l' →
  cpu_value (CPU l') = in_force usable_cpu cpu DefaultCPULimit ∧
  mem_bytes (Memory l') = in_force usable_pos mb DefaultMemoryLimit * 1048576 ∧
  bw_bytes (IOBandwidth l') = in_force usable_pos io DefaultIOLimit ∧
  cores_in_force fuel cores (CPUCores l').
Proof.
  intros Hc Hm Hi Hc0 Hm0 Hi0 Dc Dm Di Hl Hl'.
  assert (in_int64 io) as Hi64 by (int_bounds; lia).
  destruct (params_values _ _ _ _ _ _ Hc Hm Hi64 Hl) as (V1 & V2 & V3).
  destruct (params_cores _ _ _ _ _ _ Hl) as [P1 P2].
  unfold applyResourceDefaults in Hl'. rewrite V1, V3 in Hl'.
  assert (Megabytes (Memory l) = mb) as Em.
  { destruct (Memory l) as [b]. cbn in V2. subst b. unfold usable_pos. destruct (Z.ltb_spec 0 mb).
    - by apply Megabytes_exact.
    - assert (mb = 0) as -> by lia. done. }
  rewrite Em in Hl'.
  set (c := if _ <=? 0 then DefaultCPULimit else _) in Hl'.
  set (m := if mb <=? 0 then DefaultMemoryLimit else mb) in Hl'.
  set (i := if _ <=? 0 then DefaultIOLimit else _) in Hl'.
  assert (in_int32 c ∧ (if usable_cpu c then c else 0) = in_force usable_cpu cpu DefaultCPULimit) as [Ic Ec].
  { unfold c, in_force, usable_cpu in *. destruct (_ && _) eqn:E; to_prop; [|split; done].
    rewrite (proj2 (Z.leb_gt cpu 0)) by lia. split; [done|].
    rewrite (proj2 (Z.ltb_lt 0 cpu)), (proj2 (Z.leb_le cpu 10000)) by lia. done. }
  assert (in_int32 m ∧ (if usable_pos m then m else 0) = in_force usable_pos mb DefaultMemoryLimit) as [Im Em'].
  { unfold m, in_force, usable_pos in *. destruct (Z.leb_spec mb 0), (Z.ltb_spec 0 mb); try lia; [done|].
    done. }
  assert (in_int64 i ∧ (if usable_pos i then i else 0) = in_force usable_pos io DefaultIOLimit) as [Ii Ei].
  { unfold i, in_force, usable_pos in *. destruct (Z.ltb_spec 0 io); cbn.
    - rewrite (proj2 (Z.leb_gt io 0)) by lia. split; [done|]. by rewrite (proj2 (Z.ltb_lt 0 io)) by lia.
    - split; [|done]. int_bounds; lia. }
  destruct (params_values _ _ _ _ _ _ Ic Im Ii Hl') as (W1 & W2 & W3).
  split_and!; [by rewrite W1, Ec| | |].
  - rewrite W2, <- Em'. unfold usable_pos. by destruct (0 <? m).
  - by rewrite W3, Ei.
  - destruct (params_cores _ _ _ _ _ _ Hl') as [Q1 _]. destruct (cores_IsEmpty (CPUCores l)) eqn:Ee.
    + unfold cores_in_force in *. change (ParseCPUCoreSet fuel "") with (Some (Ok {| core_list := []; core_spec := "" |} : result core_error _)) in Q1.
      cbn in Q1. unfold cores_IsEmpty in Ee. to_prop.
      destruct (ParseCPUCoreSet fuel cores) as [[cs|e]|]; congruence.
    + by rewrite (P2 eq_refl) in Q1.
Qed.

(** The parts of the handler that an admitted job went through. *)
Lemma RunJob_ok fuel now uuid canceled p persist q j :
  RunJob_build resolve installed parseDuration DefaultCPULimit DefaultMemoryLimit DefaultIOLimit
    cgroupBaseDir nodeId fuel now uuid canceled p persist q = Some (Ok j) →
  Authorized p RunJobOp = Ok tt ∧
  ∃ r limits l t, request_ok q r ∧
    NewResourceLimitsFromParams fuel (r_MaxCPU r) (r_CPUCores r) (r_MaxMemory r) (r_MaxIOBPS r) = Some limits ∧
    applyResourceDefaults DefaultCPULimit DefaultMemoryLimit DefaultIOLimit fuel limits = Some l ∧
    build_timeout parseDuration (r_Timeout r) = Ok t ∧ 0 ≤ t ∧ Limits j = l ∧ 0 ≤ cpu_value (CPU l) ≤ 100 ∧
    (Uuid j, Command j, Args j, Type_ j, Timeout j) = (uuid, r_Command r, r_Args r, r_JobType r, t) ∧
    (Job.Network j, Job.Volumes j, Job.Runtime j, Job.GPUCount j) = (r_Network r, r_Volumes r, r_Runtime r, r_GPUCount r) ∧
    (Environment_ j, SecretEnvironment j) = (r_Environment r, r_SecretEnvironment r) ∧
    (Status j, Pid j, Job.GPUIndices j, GPUMIGUUIDs j) = (StatusInitializing, 0, [], []).
Proof.
  unfold RunJob_build. destruct (Authorized p RunJobOp) as [[]|] eqn:Ea; [|done].
  destruct (bool_decide (persist = Some false)); [done|].
  destruct (convertToJobRequest resolve installed q) as [r|] eqn:Er; [|done].
  unfold StartJob_build. intros (limits & Hl & Hb)%bind_Some. split; [done|].
  destruct canceled; [done|]. destruct (bool_decide (r_Command r = _)); [done|].
  unfold Build in Hb. destruct (build_timeout parseDuration (r_Timeout r)) as [t|] eqn:Et; [|done].
  apply bind_Some in Hb as (l & Hd & Hb).
  destruct (_ || _) eqn:Ec in Hb; [done|]. destruct (_ <? 0) eqn:Em in Hb; [done|]. to_prop.
  injection Hb as <-. exists r, limits, l, t. apply convert_ok in Er. split_and!; try done; try lia.
  unfold build_timeout in Et. destruct (bool_decide _); [by injection Et as <-|].
  destruct (parseDuration _); [|done]. destruct (_ <? 0) eqn:E0 in Et; [done|]. injection Et as <-. to_prop. lia.
Qed.

(** C18 A job is made only for a client that may run jobs, and only from a sound request: it
    is a standard job in its initial state with the command, arguments, volumes and runtime
    of the request, none of its variables has a malformed or reserved name, its network and
    volume names are valid, and its processor share, its GPU count and its timeout are not
    negative. *)
Theorem admitted_job_sound fuel now uuid canceled p persist q j :
  RunJob_build resolve installed parseDuration DefaultCPULimit DefaultMemoryLimit DefaultIOLimit
    cgroupBaseDir nodeId fuel now uuid canceled p persist q = Some (Ok j) →
  Authorized p RunJobOp = Ok tt ∧
  (Uuid j, Command j, Args j, Type_ j, Status j) = (uuid, q_Command q, q_Args q, JobTypeStandard, StatusInitializing) ∧
  q_Command q ≠ ""%string ∧ (Job.Volumes j, Job.Runtime j) = (q_Volumes q, q_Runtime q) ∧
  (Environment_ j, SecretEnvironment j) = (q_Environment q, q_SecretEnvironment q) ∧
  (∀ k v, Environment_ j !! k = Some v ∨ SecretEnvironment j !! k = Some v → client_key k) ∧
  (Job.Network j ∈ ["bridge"; "host"; "none"]%string ∨ IsValidNetworkName (Job.Network j) = true) ∧
  Forall (λ v, IsValidVolumeName v = true) (Job.Volumes j) ∧
  0 ≤ cpu_value (CPU (Limits j)) ∧ 0 ≤ Job.GPUCount j ∧ 0 ≤ Timeout j.
Proof.
  intros (Ha & r & limits & l & t & [] & _ & _ & _ & Ht & <- & Hc & E1 & E2 & E3 & E4)%RunJob_ok.
  injection E1 as -> -> -> -> ->. injection E2 as -> -> -> ->. injection E3 as -> ->. injection E4 as -> _ _ _.
  injection ro_same0 as -> -> Ev -> _ _. destruct ro_env0 as [Ee Es]. rewrite Ee, Es in *. rewrite Ev in *. rewrite ro_type0.
  split_and!; try done; try lia.
Qed.

(** A limit that was asked for within its range is the job's limit, and anything else,
    zero included, means the server's default, where the requests and the command-line
    reference document that zero is unlimited. A start is refused for its limits only when
    the share in force lies between 101 and 10000, a range that the reference documents as
    accepted, and never for its memory. *)
Theorem limits_in_force fuel now uuid canceled r res :
  in_int32 (r_MaxCPU r) → in_int32 (r_MaxMemory r) → in_int32 (r_MaxIOBPS r) →
  0 ≤ r_MaxCPU r → 0 ≤ r_MaxMemory r → 0 ≤ r_MaxIOBPS r →
  in_int32 DefaultCPULimit → in_int32 DefaultMemoryLimit → in_int32 DefaultIOLimit →
  StartJob_build parseDuration DefaultCPULimit DefaultMemoryLimit DefaultIOLimit cgroupBaseDir nodeId
    fuel now uuid canceled r = Some res →
  let cpu := in_force usable_cpu (r_MaxCPU r) DefaultCPULimit in
  0 ≤ cpu ≤ 10000 ∧ res ≠ Err AMemoryLimit ∧ (res = Err ACPULimit → 100 < cpu) ∧
  ∀ j, res = Ok j →
    cpu_value (CPU (Limits j)) = cpu ∧ cpu ≤ 100 ∧
    mem_bytes (Memory (Limits j)) = in_force usable_pos (r_MaxMemory r) DefaultMemoryLimit * 1048576 ∧
    bw_bytes (IOBandwidth (Limits j)) = in_force usable_pos (r_MaxIOBPS r) DefaultIOLimit ∧
    cores_in_force fuel (r_CPUCores r) (CPUCores (Limits j)).
Proof.
  intros Hc Hm Hi Hc0 Hm0 Hi0 Dc Dm Di. unfold StartJob_build. intros Hs.
  set (cpu := in_force usable_cpu _ _).
  apply bind_Some in Hs as (limits & Hl & Hb).
  assert (0 ≤ cpu ≤ 10000) as Hcpu.
  { unfold cpu, in_force, usable_cpu. clear.
    destruct (_ && (r_MaxCPU r <=? _)) eqn:E1; to_prop; [lia|].
    destruct (_ && (DefaultCPULimit <=? _)) eqn:E2; to_prop; lia. }
  split; [done|].
  destruct canceled; [by injection Hb as <-|]. destruct (bool_decide (r_Command r = _)); [by injection Hb as <-|].
  unfold Build in Hb. destruct (build_timeout parseDuration (r_Timeout r)) as [t|e] eqn:Et.
  2:{ unfold build_timeout in Et. injection Hb as <-. repeat case_match; simplify_eq; done. }
  apply bind_Some in Hb as (l & Hd & Hb).
  destruct (defaults_applied _ _ _ _ _ _ _ Hc Hm Hi Hc0 Hm0 Hi0 Dc Dm Di Hl Hd) as (V1 & V2 & V3 & V4).
  fold cpu in V1. rewrite V1 in Hb.
  destruct (_ || _) eqn:Ec in Hb.
  - injection Hb as <-. split_and!; try done. intros _. destruct (_ <? 0) eqn:E in Ec; to_prop; lia.
  - to_prop. assert (0 ≤ mem_bytes (Memory l)) as Hmem.
    { rewrite V2. unfold in_force, usable_pos. destruct (Z.ltb_spec 0 (r_MaxMemory r)); [lia|].
      destruct (Z.ltb_spec 0 DefaultMemoryLimit); lia. }
    rewrite (proj2 (Z.ltb_ge _ 0)) in Hb by lia. injection Hb as <-.
    split_and!; try done. intros j [= <-]. cbn [Limits]. split_and!; done || lia.
Qed.

(** What the coordinator starts a job's process with.
    [src/internal/joblet/core/execution/coordinator.go:118-150 ExecutionCoordinator.StartJob] *)
Definition process_env (environ : list string) (ReadFile : string → option string) (c : Config)
    (networkReadyFile : option string) (k : Job) : option (list string) :=
  launched_env (with_ready_file networkReadyFile (BuildEnvironment environ ReadFile c k "execute")).

(** What the init process of an admitted job chooses to become, also when the job lost its type on
    the way: the requested command with the arguments that are not empty, as nobody. *)
Lemma admitted_job_action fuel now uuid canceled p persist q j k environ ReadFile c f env' find runtimeEnv :
  uuid ≠ ""%string → Z.of_nat (length (q_Args q)) ≤ max_int 64 →
  RunJob_build resolve installed parseDuration DefaultCPULimit DefaultMemoryLimit DefaultIOLimit
    cgroupBaseDir nodeId fuel now uuid canceled p persist q = Some (Ok j) →
  (Uuid k, Command k, Args k) = (Uuid j, Command j, Args j) → (Type_ k = Type_ j ∨ Type_ k = ""%string) →
  process_env environ ReadFile c f k = Some env' →
  start_mode env' = InitMode ∧
  chosen_action find runtimeEnv env' = Some
    match find (q_Command q) with
    | None => Err CommandNotFound
    | Some path => Ok (ExecAsNobody path (path :: filter (λ a, a ≠ ""%string) (q_Args q))
                         (env' ++ loadRuntimeEnvironment runtimeEnv))
    end.
Proof.
  intros Hu Hlen (_ & r & limits & l & t & [] & _ & _ & _ & _ & _ & _ & E1 & _)%RunJob_ok Hk Ht He.
  injection Hk as K1 K2 K3. injection E1 as J1 J2 J3 J4 _. injection ro_same0 as R1 R2 _.
  unfold process_env in He. split; [by eapply init_mode|].
  rewrite (init_runs environ ReadFile c f k env' find runtimeEnv); [|congruence..|exact He].
  rewrite K2, K3, J2, J3, R1, R2. destruct (find (q_Command q)); [|done].
  rewrite bool_decide_eq_false_2; [done|].
  destruct Ht as [Ht|Ht]; rewrite Ht; [rewrite J4, ro_type0|]; done.
Qed.

Lemma gpu_visible environ c k : Job.GPUIndices k ≠ [] →
  last_value "CUDA_VISIBLE_DEVICES" (buildGPUEnvironment environ c k) =
  Some (Join (Itoa <$> Job.GPUIndices k) ",").
Proof.
  intros Hk. unfold buildGPUEnvironment, prepend_env. rewrite last_value_app, last_value_free.
  - destruct (Job.GPUIndices k); [done|]. by compute_last.
  - destruct (CUDAPaths c), (gpu_Enabled c); repeat case_bool_decide; cbn [app]; solve_free.
Qed.

(** A job that was allocated MIG instances is not confined to them by its variables:
    the coordinator sets the instances' UUIDs, and the environment service then
    overrides them with the indices of the parent devices. *)
Theorem mig_target_overwritten w j environ ReadFile c f env' :
  Job.GPUIndices j ≠ [] → GPUMIGUUIDs j ≠ [] → HasGPURequirement j = true →
  process_env environ ReadFile c f (setupGPUEnvironment w j) = Some env' →
  LookupEnv env' "CUDA_VISIBLE_DEVICES" = Some (Join (Itoa <$> Job.GPUIndices j) ",").
Proof.
  intros Hi Hmig Hreq He. unfold process_env in He. rewrite (launched_lookup _ _ _ He), ready_file_last by done.
  unfold BuildEnvironment. set (k := setupGPUEnvironment w j).
  assert (Job.GPUIndices k = Job.GPUIndices j ∧ HasGPURequirement k = true) as [E1 E2].
  { unfold k, setupGPUEnvironment, HasGPURequirement in *. by destruct (negb _). }
  assert (IsGPUAllocated k = true) as E3.
  { unfold IsGPUAllocated. rewrite E1. by destruct (Job.GPUIndices j). }
  rewrite E2, E3. cbn [andb]. rewrite !app_assoc, last_value_app.
  rewrite (last_value_free _ (control_block _ _ _)) by by apply free_control.
  rewrite last_value_app, gpu_visible by by rewrite E1. by rewrite E1.
Qed.
End admitted.

(** ** Examples *)

(** A server whose defaults are half a processor, 512 megabytes and no limit on I/O,
    without runtimes. *)
Definition no_runtime (spec : string) : result runtime_error (option RuntimeConfig) := Ok None.
Definition five_seconds (text : string) : option Z := Some 5000000000.

Definition sample_run (q : RunJobRequest) : option (result admission_error Job) :=
  RunJob_build (H := list_range) no_runtime None five_seconds 50 512 0 "/cg" "node-1"
    10 1000 "u1" false (TLS [["admin"%string]]) None q.

(** A client that asks for two cores and tries to name its own PATH. *)
Definition sample_request : RunJobRequest :=
  {| q_Command := "make"; q_Args := ["-j"; ""; "all"]%string; q_MaxCpu := 0; q_CpuCores := "0-1";
     q_MaxMemory := 256; q_MaxIoBps := 0; q_Uploads := []; q_Schedule := ""; q_Network := "";
     q_Volumes := ["data"%string]; q_Runtime := ""; q_Environment := {["PATH" := "/opt/bin"]};
     q_SecretEnvironment := ∅; q_GpuCount := 0; q_GpuMemoryMb := 0; q_Timeout := "5s" |}.

(** The same request with a job-control variable, which is refused. *)
Example control_variable_refused :
  sample_run {| q_Command := "make"; q_Args := []; q_MaxCpu := 0; q_CpuCores := "";
     q_MaxMemory := 0; q_MaxIoBps := 0; q_Uploads := []; q_Schedule := ""; q_Network := "";
     q_Volumes := []; q_Runtime := ""; q_Environment := {["JOB_TYPE" := "runtime-build"]};
     q_SecretEnvironment := ∅; q_GpuCount := 0; q_GpuMemoryMb := 0; q_Timeout := "" |}
  = Some (Err (AEnvReserved "JOB_TYPE")).
Proof. vm_compute. reflexivity. Qed.

Lemma admitted_job_sound_witness : ∃ j, sample_run sample_request = Some (Ok j) ∧
  Job.Network j = "bridge"%string ∧ 0 ≤ cpu_value (CPU (Limits j)).
Proof.
  destruct (sample_run sample_request) as [[j|e]|] eqn:E; [|exfalso; revert E; vm_compute; discriminate..].
  exists j. split; [done|]. split.
  - assert (Hn : match sample_run sample_request with Some (Ok j) => Job.Network j = "bridge"%string | _ => False end)
      by (vm_compute; reflexivity). by rewrite E in Hn.
  - apply (admitted_job_sound (H := list_range) no_runtime None five_seconds 50 512 0 "/cg" "node-1"
      10 1000 "u1" false (TLS [["admin"%string]]) None sample_request j E).
Defined.

(** What the service hands on for a share of the processor. *)
Definition start_request (cpu : Z) : StartJobRequest :=
  {| r_Command := "make"; r_Args := []; r_MaxCPU := cpu; r_MaxMemory := 256; r_MaxIOBPS := 0; r_CPUCores := "0-1";
     r_Uploads := []; r_Schedule := ""; r_Network := "bridge"; r_Volumes := []; r_Runtime := "";
     r_Environment := ∅; r_SecretEnvironment := ∅; r_JobType := JobTypeStandard; r_WorkingDirectory := "";
     r_GPUCount := 0; r_GPUMemoryMB := 0; r_Timeout := "" |}.

Definition sample_start (cpu : Z) : option (result admission_error Job) :=
  StartJob_build five_seconds 50 512 0 "/cg" "node-1" 10 1000 "u1" false (start_request cpu).

(** A share of 400 is refused and one of 20000 runs with the default. *)
Lemma limits_in_force_witness :
  sample_start 400 = Some (Err ACPULimit) ∧
  ∃ j, sample_start 20000 = Some (Ok j) ∧ cpu_value (CPU (Limits j)) = 50.
Proof.
  split; [vm_compute; reflexivity|].
  destruct (sample_start 20000) as [[j|e]|] eqn:E; [|exfalso; revert E; vm_compute; discriminate..].
  exists j. split; [done|].
  refine (proj1 (proj2 (proj2 (proj2 (limits_in_force five_seconds 50 512 0 "/cg" "node-1" 10 1000 "u1" false
    (start_request 20000) (Ok j) _ _ _ _ _ _ _ _ _ E))) j eq_refl)); apply (bool_decide_unpack _); vm_compute; exact I.
Defined.

Definition sample_launch (j : Job) : option (list string) :=
  process_env (H := list_range) sample_environ (λ _, None) sample_config None j.

(** A job that holds a MIG instance of GPU 3. *)
Definition mig_job : Job :=
  {| Uuid := "u2"; Command := "train"; Args := []; Type_ := "standard";
     Limits := sample_limits; CgroupPath := "/cg/job-u2"; Status := StatusInitializing; Pid := 0; StartTime := 0;
     EndTime := None; ScheduledTime := None; ExitCode := 0; Network := "bridge"; Volumes := [];
     Runtime := ""; WorkingDirectory := ""; Uploads := []; Environment_ := ∅; SecretEnvironment := ∅;
     GPUIndices := [3]; GPUMIGUUIDs := ["MIG-7f"%string]; GPUCount := 1; GPUMemoryMB := 0; NodeId := "n"; Timeout := 0;
     cache := empty_cache |}.

Lemma mig_target_overwritten_witness : ∃ env',
  sample_launch (setupGPUEnvironment (host_says None true) mig_job) = Some env' ∧
  Environment_ (setupGPUEnvironment (host_says None true) mig_job) !! "CUDA_VISIBLE_DEVICES"%string = Some "MIG-7f"%string ∧
  LookupEnv env' "CUDA_VISIBLE_DEVICES" = Some "3"%string.
Proof.
  destruct (sample_launch (setupGPUEnvironment (host_says None true) mig_job)) as [env'|] eqn:E;
    [|exfalso; revert E; vm_compute; discriminate].
  exists env'. split; [done|]. split; [vm_compute; reflexivity|].
  refine (mig_target_overwritten (H := list_range) (host_says None true) mig_job sample_environ (λ _, None)
    sample_config None env' _ _ _ E); [discriminate|discriminate|reflexivity].
Defined.
