(* ===== verification/Ipc.v ===== *)
(** * The message channel to the persist service
    (internal/joblet/ipc/writer.go, persist/internal/ipc/server.go)

    Framing of messages on a Unix socket, the receiver that cuts the byte stream
    into messages again, and the writer with its queue, its connection and the
    loop that reconnects, as interleaved steps. *)

From S2P Require Import Prelude GoStrings.
From Stdlib Require Import Ascii.

Local Open Scope Z_scope.

(** ** Messages *)

(** [src/internal/proto/ipc.proto:21-32 MessageType] *)
Inductive MessageType :=
| MLog | MMetric | MExecEvent | MConnectEvent | MAcceptEvent | MSocketDataEvent
| MMmapEvent | MMprotectEvent | MFileEvent | MOther (number : Z).

(** [src/internal/proto/ipc.proto:11-18 IPCMessage] *)
Record IPCMessage := {
  i_Version : Z; i_Type : MessageType; i_JobUuid : string;
  i_Timestamp : Z; i_Sequence : Z; i_Data : list ascii;
}.

#[export] Instance MessageType_eq_dec : EqDecision MessageType.
Proof. solve_decision. Defined.
#[export] Instance IPCMessage_eq_dec : EqDecision IPCMessage.
Proof. solve_decision. Defined.

(** [src/internal/proto/ipc.proto:44-48 StreamType] *)
Inductive StreamType := SUnspecified | SStdout | SStderr | SOther (number : Z).
#[export] Instance StreamType_eq_dec : EqDecision StreamType.
Proof. solve_decision. Defined.

(** [src/internal/proto/ipc.proto:35-41 LogLine] *)
Record LogLine := {
  l_JobUuid : string; l_Stream : StreamType; l_Timestamp : Z; l_Sequence : Z; l_Content : list ascii;
}.

(** [proto.Marshal] and [proto.Unmarshal] of the generated message: marshalling
    can fail, on text that is not UTF-8, and what it yields is read back. *)
Class Codec := {
  marshal : IPCMessage → option (list ascii);
  unmarshal : list ascii → option IPCMessage;
  unmarshal_marshal : ∀ m d, marshal m = Some d → unmarshal d = Some m;
}.

(** ** The length prefix *)

Definition uint32 (z : Z) : Z := z mod 2 ^ 32.

(** [binary.BigEndian.PutUint32] and [Uint32]. *)
Definition put_uint32 (z : Z) : list ascii :=
  [byte_of (z / 2 ^ 24 mod 2 ^ 8); byte_of (z / 2 ^ 16 mod 2 ^ 8); byte_of (z / 2 ^ 8 mod 2 ^ 8); byte_of (z mod 2 ^ 8)].
Definition get_uint32 (l : list ascii) : Z := foldl (λ acc c, acc * 2 ^ 8 + byte_val c) 0 l.

Lemma get_put_uint32 z : 0 ≤ z < 2 ^ 32 → get_uint32 (put_uint32 z) = z.
Proof.
  intros Hz. unfold get_uint32, put_uint32. cbn [foldl].
  rewrite !byte_val_of by (apply Z.mod_pos_bound; lia).
  change (2 ^ 24) with 16777216. change (2 ^ 16) with 65536. change (2 ^ 8) with 256.
  change (2 ^ 32) with 4294967296 in Hz.
  assert (z / 65536 = z / 256 / 256 ∧ z / 16777216 = z / 256 / 256 / 256) as [-> ->]
    by (rewrite !Z.div_div by lia; done).
  pose proof (Z.div_mod z 256) as H1. pose proof (Z.div_mod (z / 256) 256) as H2.
  pose proof (Z.div_mod (z / 256 / 256) 256) as H3.
  rewrite (Z.mod_small (z / 256 / 256 / 256)) by (rewrite !Z.div_div by lia;
    split; [apply Z.div_pos; lia|apply Z.div_lt_upper_bound; lia]). lia.
Qed.

(** What the writer puts on the wire for a marshalled message.
    [src/internal/joblet/ipc/writer.go:388-397 Writer.sendMessage] *)
Definition frame (d : list ascii) : list ascii := put_uint32 (uint32 (Z.of_nat (List.length d))) ++ d.

(** ** The receiver *)

(** Where a connection's handler is: in the length, with the bytes it has, in a
    body that takes [need] bytes, or done. *)
Inductive phase := InLength (got : list ascii) | InBody (need : nat) (got : list ascii) | Closed.

(** [r_received] are the messages handed to the write pipeline.
    [src/persist/internal/ipc/server.go:198-246 Server.handleConnection] *)
Record receiver := { r_phase : phase; r_received : list IPCMessage; r_bytesReceived : Z }.

Definition receiver_start : receiver := {| r_phase := InLength []; r_received := []; r_bytesReceived := 0 |}.

(** What the handler sees of its connection: bytes, the read deadline, at which it
    asks whether the server is stopping, and the end of the stream. *)
Inductive conn_event := Arrive (l : list ascii) | ReadTimeout (stopping : bool) | PeerClosed.

Section receiver.
Context `{!Codec}.
Variable MaxMessageSize : Z.

(** A complete body; one that does not decode is skipped.
    [src/persist/internal/ipc/server.go:237-246 Server.handleConnection] *)
Definition body_read (d : list ascii) (r : receiver) : receiver :=
  match unmarshal d with
  | None => {| r_phase := InLength []; r_received := r_received r; r_bytesReceived := r_bytesReceived r |}
  | Some m => {| r_phase := InLength []; r_received := r_received r ++ [m];
                 r_bytesReceived := r_bytesReceived r + Z.of_nat (List.length d) |}
  end.

Definition set_phase (p : phase) (r : receiver) : receiver :=
  {| r_phase := p; r_received := r_received r; r_bytesReceived := r_bytesReceived r |}.

(** What a byte does; the deadline, the shutdown and the end of the stream are in [on_conn_event].
    [src/persist/internal/ipc/server.go:204-242 Server.handleConnection] *)
Definition feed_byte (r : receiver) (c : ascii) : receiver :=
  match r_phase r with
  | Closed => r
  | InLength got =>
      let got := got ++ [c] in
      if (List.length got <? 4)%nat then set_phase (InLength got) r
      else
        let n := get_uint32 got in
        if n >? uint32 MaxMessageSize then set_phase Closed r
        else if n =? 0 then body_read [] r else set_phase (InBody (Z.to_nat n) []) r
  | InBody need got =>
      let got := got ++ [c] in
      if (List.length got <? need)%nat then set_phase (InBody need got) r else body_read got r
  end.

(** A deadline inside the length is not an error: the loop starts over, with the
    bytes already read gone; inside a body it ends the connection.
    [src/persist/internal/ipc/server.go:201-222 Server.handleConnection] *)
Definition on_conn_event (r : receiver) (e : conn_event) : receiver :=
  match e with
  | Arrive l => foldl feed_byte r l
  | ReadTimeout stopping =>
      match r_phase r with
      | InLength _ => if stopping then set_phase Closed r else set_phase (InLength []) r
      | InBody _ _ => set_phase Closed r
      | Closed => r
      end
  | PeerClosed => set_phase Closed r
  end.

Definition run_receiver (evs : list conn_event) : receiver := foldl on_conn_event receiver_start evs.

(** The messages on a wire. *)
Definition received_from (l : list ascii) : list IPCMessage := r_received (foldl feed_byte receiver_start l).

(** A message that the receiver accepts, with its encoding. *)
Definition fits (m : IPCMessage) : Prop := ∀ d, marshal m = Some d → Z.of_nat (List.length d) ≤ uint32 MaxMessageSize.
Definition encodes (m : IPCMessage) (d : list ascii) : Prop := marshal m = Some d.

Lemma uint32_range z : 0 ≤ uint32 z < 2 ^ 32.
Proof. apply Z.mod_pos_bound. lia. Qed.

Lemma length_put z : List.length (put_uint32 z) = 4%nat.
Proof. done. Qed.

Lemma feed_length r z : r_phase r = InLength [] → 0 ≤ z < 2 ^ 32 →
  foldl feed_byte r (put_uint32 z) =
    if z >? uint32 MaxMessageSize then set_phase Closed r
    else if z =? 0 then body_read [] r else set_phase (InBody (Z.to_nat z) []) r.
Proof.
  intros Hr Hz. pose proof (get_put_uint32 z Hz) as Hg. unfold put_uint32 in *. revert Hg.
  generalize (byte_of (z / 2 ^ 24 mod 2 ^ 8)) (byte_of (z / 2 ^ 16 mod 2 ^ 8)) (byte_of (z / 2 ^ 8 mod 2 ^ 8)) (byte_of (z mod 2 ^ 8)).
  intros a b c d Hg. cbn [foldl]. unfold feed_byte at 4. rewrite Hr. cbn [app length Nat.ltb Nat.leb set_phase].
  unfold feed_byte at 3. cbn [r_phase app length Nat.ltb Nat.leb set_phase].
  unfold feed_byte at 2. cbn [r_phase app length Nat.ltb Nat.leb set_phase].
  unfold feed_byte. cbn [r_phase app length Nat.ltb Nat.leb set_phase]. by rewrite Hg.
Qed.

Lemma feed_body r need got l : r_phase r = InBody need got → (List.length got < need)%nat →
  (List.length got + List.length l < need)%nat → foldl feed_byte r l = set_phase (InBody need (got ++ l)) r.
Proof.
  revert r got. induction l as [|c l IH]; intros r got Hr Hlt Hl; cbn [foldl].
  - rewrite app_nil_r. destruct r. cbn in Hr. by subst.
  - unfold feed_byte at 2. rewrite Hr. simpl in Hl. rewrite length_app. simpl.
    rewrite (proj2 (Nat.ltb_lt _ _)) by lia. rewrite (IH _ (got ++ [c])); [|done|rewrite length_app; simpl; lia..].
    by rewrite <- app_assoc.
Qed.

Lemma feed_body_end r need got l : r_phase r = InBody need got → (List.length got + List.length l = need)%nat → l ≠ [] →
  foldl feed_byte r l = body_read (got ++ l) r.
Proof.
  intros Hr Hl Hne. destruct l as [|c l _] using rev_ind; [done|]. rewrite length_app in Hl. simpl in Hl.
  rewrite foldl_snoc, (feed_body r need got) by (done || lia).
  unfold feed_byte. cbn [r_phase set_phase]. rewrite !length_app. simpl.
  rewrite (proj2 (Nat.ltb_ge _ _)) by lia. by rewrite <- app_assoc.
Qed.

Lemma frame_length (d : list ascii) : Z.of_nat (List.length d) ≤ uint32 MaxMessageSize →
  uint32 (Z.of_nat (List.length d)) = Z.of_nat (List.length d).
Proof. intros Hd. apply Z.mod_small. pose proof (uint32_range MaxMessageSize). lia. Qed.

(** A frame is one message. *)
Lemma feed_frame r d : r_phase r = InLength [] → Z.of_nat (List.length d) ≤ uint32 MaxMessageSize →
  foldl feed_byte r (frame d) = body_read d r.
Proof.
  intros Hr Hd. unfold frame. rewrite (frame_length d Hd).
  pose proof (uint32_range MaxMessageSize). rewrite foldl_app, feed_length by (done || lia).
  rewrite Z.gtb_ltb, (proj2 (Z.ltb_ge _ _)) by lia. destruct (Z.eqb_spec (Z.of_nat (List.length d)) 0) as [E|E].
  - by destruct d.
  - rewrite (feed_body_end _ (Z.to_nat (Z.of_nat (List.length d))) []); [done|done|simpl; lia|by intros ->].
Qed.

(** Part of a frame is none. *)
Lemma feed_partial r d k : r_phase r = InLength [] → Z.of_nat (List.length d) ≤ uint32 MaxMessageSize →
  (k < List.length (frame d))%nat → r_received (foldl feed_byte r (take k (frame d))) = r_received r.
Proof.
  intros Hr Hd Hk. unfold frame in *. rewrite (frame_length d Hd) in *. rewrite length_app, length_put in Hk.
  pose proof (uint32_range MaxMessageSize). destruct (decide (k < 4)%nat) as [Hk4|Hk4].
  - destruct k as [|[|[|[|]]]]; try lia; unfold put_uint32; cbn [app take foldl]; unfold feed_byte;
      rewrite ?Hr; reflexivity.
  - rewrite take_app, length_put, (take_ge (put_uint32 _)) by (rewrite length_put; lia).
    rewrite foldl_app, feed_length by (done || lia). rewrite Z.gtb_ltb, (proj2 (Z.ltb_ge _ _)) by lia.
    destruct (Z.eqb_spec (Z.of_nat (List.length d)) 0) as [E|E]; [lia|].
    rewrite (feed_body _ (Z.to_nat (Z.of_nat (List.length d))) []); [done|done|simpl; lia|].
    rewrite length_take. simpl. lia.
Qed.

Lemma body_read_ok r m d : encodes m d → r_received (body_read d r) = r_received r ++ [m] ∧
  r_phase (body_read d r) = InLength [].
Proof. intros Hm. unfold body_read. by rewrite (unmarshal_marshal _ _ Hm). Qed.

Lemma feed_frames r ms ds : Forall2 encodes ms ds → Forall fits ms → r_phase r = InLength [] →
  let r' := foldl feed_byte r (concat (frame <$> ds)) in
  r_received r' = r_received r ++ ms ∧ r_phase r' = InLength [].
Proof.
  intros Hd. revert r. induction Hd as [|m d ms ds Hm _ IH]; intros r Hf Hr; [by rewrite app_nil_r|].
  apply Forall_cons in Hf as [Hfm Hf]. cbn [fmap list_fmap concat]. cbn zeta.
  rewrite foldl_app, feed_frame by (done || by apply Hfm).
  destruct (body_read_ok r m d Hm) as [E1 E2]. destruct (IH (body_read d r) Hf E2) as [E3 E4].
  by rewrite E3, E4, E1, <- app_assoc.
Qed.

(** A wire that carries messages whole, and after them perhaps part of one more. *)
Definition carries (ms : list IPCMessage) (l : list ascii) : Prop :=
  ∃ ds tail, Forall2 encodes ms ds ∧ l = concat (frame <$> ds) ++ tail ∧
    (tail = [] ∨ ∃ m d k, encodes m d ∧ fits m ∧ tail = take k (frame d) ∧ (k < List.length (frame d))%nat).

Lemma received_carries ms l : Forall fits ms → carries ms l → received_from l = ms.
Proof.
  intros Hf (ds & tail & Hd & -> & Ht). unfold received_from. rewrite foldl_app.
  destruct (feed_frames receiver_start ms ds Hd Hf eq_refl) as [E1 E2]. cbn [receiver_start r_received app] in E1.
  destruct Ht as [->|(m & d & k & Hm & Hfm & -> & Hk)]; [exact E1|].
  rewrite feed_partial; [exact E1|exact E2|by apply Hfm|exact Hk].
Qed.

(** The deadline strikes only between messages, and the server is not stopping. *)
Fixpoint patient (r : receiver) (evs : list conn_event) : Prop :=
  match evs with
  | [] => True
  | e :: evs =>
      match e with ReadTimeout stopping => stopping = false ∧ r_phase r = InLength [] | _ => True end ∧
      patient (on_conn_event r e) evs
  end.

Fixpoint arrived (evs : list conn_event) : list ascii :=
  match evs with
  | [] => []
  | Arrive l :: evs => l ++ arrived evs
  | ReadTimeout _ :: evs => arrived evs
  | PeerClosed :: _ => []
  end.

Lemma feed_closed r l : r_phase r = Closed → foldl feed_byte r l = r.
Proof. intros Hr. induction l as [|c l IH]; [done|]. cbn [foldl]. unfold feed_byte at 2. by rewrite Hr. Qed.

Lemma run_closed r evs : r_phase r = Closed → r_received (foldl on_conn_event r evs) = r_received r.
Proof.
  revert r. induction evs as [|e evs IH]; intros r Hr; [done|]. cbn [foldl].
  assert (r_phase (on_conn_event r e) = Closed ∧ r_received (on_conn_event r e) = r_received r) as [E1 E2].
  { destruct e as [l|[|]|]; cbn; [by rewrite feed_closed|by rewrite Hr..|done]. }
  by rewrite IH, E2.
Qed.

Lemma run_patient r evs : patient r evs →
  r_received (foldl on_conn_event r evs) = r_received (foldl feed_byte r (arrived evs)).
Proof.
  revert r. induction evs as [|[l|st|] evs IH]; intros r; cbn [patient foldl arrived]; [done|..].
  - intros [_ Hp]. rewrite foldl_app. by apply IH.
  - intros [[-> Hr] Hp]. rewrite IH by done. unfold on_conn_event. rewrite Hr. unfold set_phase. destruct r. cbn in *. by subst.
  - intros _. rewrite run_closed by done. done.
Qed.

(** No deadline strikes inside a length while the server goes on.  The end of the stream, the
    shutdown and a deadline inside a body may come at any time. *)
Fixpoint undisturbed (r : receiver) (evs : list conn_event) : Prop :=
  match evs with
  | [] => True
  | e :: evs =>
      match e with ReadTimeout false => ∀ got, r_phase r = InLength got → got = [] | _ => True end ∧
      undisturbed (on_conn_event r e) evs
  end.

Lemma body_read_prefix d r : r_received r `prefix_of` r_received (body_read d r).
Proof. unfold body_read. destruct (unmarshal d); cbn; [by eexists|done]. Qed.

Lemma feed_prefix r l : r_received r `prefix_of` r_received (foldl feed_byte r l).
Proof.
  revert r. induction l as [|c l IH]; intros r; [done|]. cbn [foldl]. etrans; [|apply IH]. unfold feed_byte.
  destruct (r_phase r); [| |done]; repeat case_match; first [done|apply body_read_prefix].
Qed.

Lemma run_undisturbed r evs : undisturbed r evs →
  r_received (foldl on_conn_event r evs) `prefix_of` r_received (foldl feed_byte r (arrived evs)).
Proof.
  revert r. induction evs as [|e evs IH]; intros r; [done|]. cbn [undisturbed foldl]. intros [He Hu].
  assert (Hclose : r_phase (on_conn_event r e) = Closed → r_received (on_conn_event r e) = r_received r →
    ∀ l, r_received (foldl on_conn_event (on_conn_event r e) evs) `prefix_of` r_received (foldl feed_byte r l))
    by (intros H1 H2 l; rewrite run_closed, H2 by done; apply feed_prefix).
  destruct e as [l|stopping|]; cbn [arrived]; [rewrite foldl_app; by apply IH| |by apply Hclose].
  destruct (r_phase r) as [got|need got|] eqn:Hr; [destruct stopping|..]; try (apply Hclose; cbn [on_conn_event]; by rewrite Hr).
  assert (on_conn_event r (ReadTimeout false) = r) as E.
  { cbn [on_conn_event]. rewrite Hr. unfold set_phase. rewrite (He got eq_refl) in Hr. rewrite <- Hr. by destruct r. }
  rewrite E in *. by apply IH.
Qed.

(** However a stream of frames is cut into reads and whatever pauses there are
    between messages, the receiver hands on exactly the messages that were framed,
    in their order; an incomplete frame at the end yields nothing. *)
Theorem framing_roundtrip ms evs : Forall fits ms → carries ms (arrived evs) → patient receiver_start evs →
  r_received (run_receiver evs) = ms.
Proof. intros Hf Hc Hp. unfold run_receiver. rewrite run_patient by done. by apply received_carries. Qed.

(** A deadline in the middle of a length makes the bytes before it disappear: the
    rest is read as though they had never been sent. *)
Lemma timeout_forgets r (p : list ascii) evs : r_phase r = InLength [] → (List.length p < 4)%nat →
  foldl on_conn_event r (Arrive p :: ReadTimeout false :: evs) = foldl on_conn_event r evs.
Proof.
  intros Hr Hp. cbn [foldl]. f_equal. cbn [on_conn_event].
  assert (foldl feed_byte r p = set_phase (InLength p) r) as ->.
  { destruct r as [ph ms n]. cbn in Hr. subst ph.
    destruct p as [|a [|b [|c [|]]]]; simpl in Hp; try lia; reflexivity. }
  cbn. unfold set_phase. cbn. destruct r. cbn in *. by subst.
Qed.
End receiver.

(** ** The writer *)

(** What became of a message that the queue accepted. *)
Inductive fate := Delivered | GaveUp | Failed.
#[export] Instance fate_eq_dec : EqDecision fate.
Proof. solve_decision. Defined.

(** Where the write loop is: at its select, holding a message before or during the
    wait for a connection, sending it, after an error, or after it has marked the
    writer disconnected and before it closes the connection.
    [src/internal/joblet/ipc/writer.go Writer.writeLoop] *)
Inductive write_loop :=
| LSelect | LHold (m : IPCMessage) | LWait (m : IPCMessage) | LSend (m : IPCMessage)
| LError (m : IPCMessage) | LClose | LExited.

(** [src/internal/joblet/ipc/writer.go Writer.reconnectLoop] *)
Inductive dial_loop := DFirst | DIdle | DExited.

(** A connection is the bytes written to it; [w_old] are those closed. The last four
    fields record what happened: callers waiting for room, what was accepted, what
    became of it, and how many callers were turned away by the timeout.
    [src/internal/joblet/ipc/writer.go Writer] *)
Record writer := {
  w_chan : list IPCMessage; w_closed : bool; w_panicked : bool;
  w_loop : write_loop; w_dial : dial_loop; w_done : bool;
  w_connected : bool; w_conn : option (list ascii); w_old : list (list ascii);
  w_msgsSent : Z; w_msgsDropped : Z; w_writeErrors : Z; w_attempts : Z;
  w_blocked : list IPCMessage; w_accepted : list IPCMessage;
  w_fates : list (IPCMessage * fate); w_timeouts : Z;
}.

Definition uint64_incr (z : Z) : Z := (z + 1) mod 2 ^ 64.

(** [src/internal/joblet/ipc/writer.go NewWriter] *)
Definition NewWriter : writer :=
  {| w_chan := []; w_closed := false; w_panicked := false; w_loop := LSelect; w_dial := DFirst; w_done := false;
     w_connected := false; w_conn := None; w_old := []; w_msgsSent := 0; w_msgsDropped := 0; w_writeErrors := 0;
     w_attempts := 0; w_blocked := []; w_accepted := []; w_fates := []; w_timeouts := 0 |}.

(** Updates of the groups of fields that change together. *)
Definition on_queue (chan blocked accepted : list IPCMessage) (w : writer) : writer :=
  {| w_chan := chan; w_closed := w_closed w; w_panicked := w_panicked w; w_loop := w_loop w; w_dial := w_dial w;
     w_done := w_done w; w_connected := w_connected w; w_conn := w_conn w; w_old := w_old w;
     w_msgsSent := w_msgsSent w; w_msgsDropped := w_msgsDropped w; w_writeErrors := w_writeErrors w;
     w_attempts := w_attempts w; w_blocked := blocked; w_accepted := accepted; w_fates := w_fates w;
     w_timeouts := w_timeouts w |}.
Definition on_loop (loop : write_loop) (w : writer) : writer :=
  {| w_chan := w_chan w; w_closed := w_closed w; w_panicked := w_panicked w; w_loop := loop; w_dial := w_dial w;
     w_done := w_done w; w_connected := w_connected w; w_conn := w_conn w; w_old := w_old w;
     w_msgsSent := w_msgsSent w; w_msgsDropped := w_msgsDropped w; w_writeErrors := w_writeErrors w;
     w_attempts := w_attempts w; w_blocked := w_blocked w; w_accepted := w_accepted w; w_fates := w_fates w;
     w_timeouts := w_timeouts w |}.
Definition on_conn (connected : bool) (conn : option (list ascii)) (old : list (list ascii)) (w : writer) : writer :=
  {| w_chan := w_chan w; w_closed := w_closed w; w_panicked := w_panicked w; w_loop := w_loop w; w_dial := w_dial w;
     w_done := w_done w; w_connected := connected; w_conn := conn; w_old := old;
     w_msgsSent := w_msgsSent w; w_msgsDropped := w_msgsDropped w; w_writeErrors := w_writeErrors w;
     w_attempts := w_attempts w; w_blocked := w_blocked w; w_accepted := w_accepted w; w_fates := w_fates w;
     w_timeouts := w_timeouts w |}.
Definition on_life (dial : dial_loop) (attempts : Z) (done closed panicked : bool) (w : writer) : writer :=
  {| w_chan := w_chan w; w_closed := closed; w_panicked := panicked; w_loop := w_loop w; w_dial := dial;
     w_done := done; w_connected := w_connected w; w_conn := w_conn w; w_old := w_old w;
     w_msgsSent := w_msgsSent w; w_msgsDropped := w_msgsDropped w; w_writeErrors := w_writeErrors w;
     w_attempts := attempts; w_blocked := w_blocked w; w_accepted := w_accepted w; w_fates := w_fates w;
     w_timeouts := w_timeouts w |}.

(** The end of a message, with its counter. *)
Definition settle (m : IPCMessage) (f : fate) (loop : write_loop) (w : writer) : writer :=
  {| w_chan := w_chan w; w_closed := w_closed w; w_panicked := w_panicked w; w_loop := loop; w_dial := w_dial w;
     w_done := w_done w; w_connected := w_connected w; w_conn := w_conn w; w_old := w_old w;
     w_msgsSent := match f with Delivered => uint64_incr (w_msgsSent w) | _ => w_msgsSent w end;
     w_msgsDropped := match f with GaveUp => uint64_incr (w_msgsDropped w) | _ => w_msgsDropped w end;
     w_writeErrors := match f with Failed => uint64_incr (w_writeErrors w) | _ => w_writeErrors w end;
     w_attempts := w_attempts w; w_blocked := w_blocked w; w_accepted := w_accepted w;
     w_fates := w_fates w ++ [(m, f)]; w_timeouts := w_timeouts w |}.
Definition turn_away (blocked : list IPCMessage) (timeout : bool) (w : writer) : writer :=
  {| w_chan := w_chan w; w_closed := w_closed w; w_panicked := w_panicked w; w_loop := w_loop w; w_dial := w_dial w;
     w_done := w_done w; w_connected := w_connected w; w_conn := w_conn w; w_old := w_old w;
     w_msgsSent := w_msgsSent w;
     w_msgsDropped := if timeout then uint64_incr (w_msgsDropped w) else w_msgsDropped w;
     w_writeErrors := w_writeErrors w; w_attempts := w_attempts w; w_blocked := blocked;
     w_accepted := w_accepted w; w_fates := w_fates w;
     w_timeouts := if timeout then w_timeouts w + 1 else w_timeouts w |}.

(** A closed connection keeps its bytes. *)
Definition close_conn (w : writer) : list (list ascii) :=
  match w_conn w with Some b => w_old w ++ [b] | None => w_old w end.

(** What can happen next. *)
Inductive waction :=
| AWrite (m : IPCMessage)       (** a caller enters [write] *)
| ARoom (i : nat)               (** a waiting caller finds room *)
| ATimeout (i : nat)            (** a waiting caller's timer fires *)
| ADone (i : nat)               (** a waiting caller sees the writer closing *)
| ATake                         (** the loop takes a message *)
| ACheck                        (** it looks whether it is connected *)
| ATick                         (** it looks again *)
| AGiveUp                       (** its wait ends without a connection *)
| ASend (cut : option nat)      (** it writes the frame, whole or up to [cut] *)
| AMark                         (** it counts an error and marks the writer disconnected *)
| AShut                         (** it closes the connection *)
| AExit                         (** the loop sees the writer closing *)
| ADial (ok : bool)             (** the other loop dials *)
| ADialGiveUp                   (** it is out of attempts *)
| ADialExit                     (** it sees the writer closing *)
| ACancel                       (** [Close] begins *)
| AFinish.                      (** [Close] ends, both loops gone *)

Section writer.
Context `{!Codec}.
Variables (bufferSize : nat) (maxAttempts MaxMessageSize : Z).

(** [src/internal/joblet/ipc/writer.go reconnectManager.shouldRetry] *)
Definition shouldRetry (w : writer) : bool := (maxAttempts =? 0) || (w_attempts w <? maxAttempts).

(** The fast path of [write] and the wait behind it.
    [src/internal/joblet/ipc/writer.go Writer.write] *)
Definition write_begin (m : IPCMessage) (w : writer) : writer :=
  if w_closed w then on_life (w_dial w) (w_attempts w) (w_done w) true true w
  else if (length (w_chan w) <? bufferSize)%nat
  then on_queue (w_chan w ++ [m]) (w_blocked w) (w_accepted w ++ [m]) w
  else on_queue (w_chan w) (w_blocked w ++ [m]) (w_accepted w) w.

(** [src/internal/joblet/ipc/writer.go:292-310 Writer.write] *)
Definition write_room (i : nat) (w : writer) : option writer :=
  m ← w_blocked w !! i;
  if negb (w_closed w) && (length (w_chan w) <? bufferSize)%nat
  then Some (on_queue (w_chan w ++ [m]) (delete i (w_blocked w)) (w_accepted w ++ [m]) w) else None.

Definition write_turned (i : nat) (timeout : bool) (w : writer) : option writer :=
  _ ← w_blocked w !! i;
  if timeout || w_done w then Some (turn_away (delete i (w_blocked w)) timeout w) else None.

(** [cut] is where the connection fails, when it does.
    [src/internal/joblet/ipc/writer.go Writer.sendMessage] *)
Definition sendMessage (m : IPCMessage) (cut : option nat) (w : writer) : option writer :=
  match w_conn w, marshal m with
  | Some b, Some d =>
      match cut with
      | None => Some (settle m Delivered LSelect (on_conn (w_connected w) (Some (b ++ frame d)) (w_old w) w))
      | Some k =>
          if (k <? length (frame d))%nat
          then Some (on_loop (LError m) (on_conn (w_connected w) (Some (b ++ take k (frame d))) (w_old w) w))
          else None
      end
  | _, _ => Some (on_loop (LError m) w)
  end.

(** A new connection replaces and closes the one there is.
    [src/internal/joblet/ipc/writer.go Writer.connect] *)
Definition connect (ok : bool) (w : writer) : writer :=
  if ok then on_conn true (Some []) (close_conn w) w
  else on_life (w_dial w) (w_attempts w + 1) (w_done w) (w_closed w) (w_panicked w)
         (on_conn (w_connected w) None (close_conn w) w).

(** The first dial asks nothing; later ones are made while disconnected, as long as
    attempts remain, and success resets their number.
    [src/internal/joblet/ipc/writer.go Writer.reconnectLoop] *)
Definition dial (ok : bool) (w : writer) : option writer :=
  match w_dial w with
  | DFirst =>
      let w := connect ok w in
      Some (on_life DIdle (w_attempts w) (w_done w) (w_closed w) (w_panicked w) w)
  | DIdle =>
      if negb (w_connected w) && shouldRetry w then
        let w := connect ok w in
        Some (on_life DIdle (if ok then 0 else w_attempts w) (w_done w) (w_closed w) (w_panicked w) w)
      else None
  | DExited => None
  end.

(** One step of the writer, when it is possible. *)
Definition wact (w : writer) (a : waction) : option writer :=
  match a with
  | AWrite m => Some (write_begin m w)
  | ARoom i => write_room i w
  | ATimeout i => write_turned i true w
  | ADone i => write_turned i false w
  | ATake => match w_loop w, w_chan w with
             | LSelect, m :: q => Some (on_loop (LHold m) (on_queue q (w_blocked w) (w_accepted w) w))
             | _, _ => None end
  | ACheck => match w_loop w with
              | LHold m => Some (on_loop (if w_connected w then LSend m else LWait m) w) | _ => None end
  | ATick => match w_loop w with
             | LWait m => Some (on_loop (if w_connected w then LSend m else LWait m) w) | _ => None end
  | AGiveUp => match w_loop w with LWait m => Some (settle m GaveUp LSelect w) | _ => None end
  | ASend cut => match w_loop w with LSend m => sendMessage m cut w | _ => None end
  | AMark => match w_loop w with
             | LError m => Some (on_conn false (w_conn w) (w_old w) (settle m Failed LClose w)) | _ => None end
  | AShut => match w_loop w with
             | LClose => Some (on_loop LSelect (on_conn (w_connected w) None (close_conn w) w)) | _ => None end
  | AExit => match w_loop w with LSelect => if w_done w then Some (on_loop LExited w) else None | _ => None end
  | ADial ok => dial ok w
  | ADialGiveUp => match w_dial w with
                   | DIdle => if negb (w_connected w) && negb (shouldRetry w)
                              then Some (on_life DExited (w_attempts w) (w_done w) (w_closed w) (w_panicked w) w) else None
                   | _ => None end
  | ADialExit => match w_dial w with
                 | DIdle => if w_done w
                            then Some (on_life DExited (w_attempts w) (w_done w) (w_closed w) (w_panicked w) w) else None
                 | _ => None end
  | ACancel => Some (on_life (w_dial w) (w_attempts w) true (w_closed w) (w_panicked w) w)
  | AFinish => match w_loop w, w_dial w with
               | LExited, DExited =>
                   if w_done w && negb (w_closed w)
                   then Some (on_life DExited (w_attempts w) true true (w_panicked w)
                                (on_conn (w_connected w) None (close_conn w) w))
                   else None
               | _, _ => None end
  end.

Fixpoint wacts (w : writer) (l : list waction) : option writer :=
  match l with [] => Some w | a :: l => w' ← wact w a; wacts w' l end.
Definition wreachable (w : writer) : Prop := ∃ l, wacts NewWriter l = Some w.

(** Every connection's bytes, oldest first. *)
Definition wires (w : writer) : list (list ascii) := close_conn w.

(** The messages of a fate, in order. *)
Definition with_fate (f : fate) (w : writer) : list IPCMessage := (filter (λ x, x.2 = f) (w_fates w)).*1.
End writer.

(** ** What the writer keeps *)

#[local] Arguments Nat.ltb : simpl never.

(** Splits a step into the ways it can go. *)
Ltac split_step E :=
  unfold wact, write_begin, write_room, write_turned, sendMessage, dial, connect in E;
  repeat (case_match || (apply bind_Some in E as (? & ? & E))); simplify_eq; try done.

(** Reduces the projections of the new state and puts in what is known of the old. *)
Ltac step_facts :=
  cbn in *; to_prop;
  repeat match goal with
  | E : w_loop _ = _ |- _ => rewrite E in *; clear E
  | E : w_chan _ = _ |- _ => rewrite E in *; clear E
  | E : w_conn _ = _ |- _ => rewrite E in *; clear E
  | E : w_dial _ = _ |- _ => rewrite E in *; clear E
  | E : (_ <? _)%nat = true |- _ => apply Nat.ltb_lt in E
  end; cbn in *.

Lemma incr_mod a b : a = b mod 2 ^ 64 → uint64_incr a = (b + 1) mod 2 ^ 64.
Proof. intros ->. unfold uint64_incr. by rewrite Zplus_mod_idemp_l. Qed.

Lemma with_fate_settle f m g loop w :
  with_fate f (settle m g loop w) = with_fate f w ++ if decide (g = f) then [m] else [].
Proof.
  unfold with_fate. cbn. rewrite filter_app, fmap_app. f_equal. rewrite filter_cons, filter_nil. cbn.
  by destruct (decide (g = f)).
Qed.

Lemma with_fate_on_conn f c b l w : with_fate f (on_conn c b l w) = with_fate f w.
Proof. done. Qed.

(** A count after a message of the fate, and after one of another fate. *)
Lemma count_settle c f m g loop w k :
  c = (k + Z.of_nat (length (with_fate f w))) mod 2 ^ 64 →
  (if decide (g = f) then uint64_incr c else c) =
    (k + Z.of_nat (length (with_fate f (settle m g loop w)))) mod 2 ^ 64.
Proof.
  intros Hc. rewrite with_fate_settle, length_app. destruct (decide (g = f)).
  - rewrite (incr_mod _ _ Hc). f_equal. cbn [length]. lia.
  - rewrite Hc. f_equal. cbn [length]. lia.
Qed.

Section writer_facts.
Context `{!Codec}.
Variables (bufferSize : nat) (maxAttempts MaxMessageSize : Z).

(** The message the loop holds. *)
Definition in_hand (l : write_loop) : list IPCMessage :=
  match l with LHold m | LWait m | LSend m | LError m => [m] | LSelect | LClose | LExited => [] end.

(** The messages of the queue, in order, and its size. *)
Definition queue_inv (w : writer) : Prop :=
  w_accepted w = (w_fates w).*1 ++ in_hand (w_loop w) ++ w_chan w ∧ (length (w_chan w) ≤ bufferSize)%nat.

Lemma queue_inv_step w a w' : queue_inv w → wact bufferSize maxAttempts w a = Some w' → queue_inv w'.
Proof.
  intros [Ho Hc] E. destruct a; split_step E; unfold queue_inv; step_facts;
    rewrite ?Ho, ?fmap_app, ?length_app, <- ?app_assoc; cbn; split; done || lia.
Qed.

(** The counters agree with what happened. *)
Definition count_inv (w : writer) : Prop :=
  w_msgsSent w = (0 + Z.of_nat (length (with_fate Delivered w))) mod 2 ^ 64 ∧
  w_writeErrors w = (0 + Z.of_nat (length (with_fate Failed w))) mod 2 ^ 64 ∧
  w_msgsDropped w = (w_timeouts w + Z.of_nat (length (with_fate GaveUp w))) mod 2 ^ 64.

Lemma count_inv_settle m f loop w : count_inv w → count_inv (settle m f loop w).
Proof.
  intros (H1 & H2 & H3). split_and!.
  - rewrite <- (count_settle (w_msgsSent w) Delivered m f loop w 0 H1). by destruct f.
  - rewrite <- (count_settle (w_writeErrors w) Failed m f loop w 0 H2). by destruct f.
  - change (w_timeouts (settle m f loop w)) with (w_timeouts w).
    rewrite <- (count_settle (w_msgsDropped w) GaveUp m f loop w _ H3). by destruct f.
Qed.

Lemma count_inv_timeout l w : count_inv w → count_inv (turn_away l true w).
Proof.
  intros (H1 & H2 & H3). split_and!; [done|done|]. cbn. rewrite (incr_mod _ _ H3).
  unfold with_fate. cbn. f_equal. lia.
Qed.

Lemma count_inv_step w a w' : count_inv w → wact bufferSize maxAttempts w a = Some w' → count_inv w'.
Proof.
  intros Hc E. destruct a; split_step E; try exact Hc; try (by apply count_inv_timeout);
    apply count_inv_settle; exact Hc.
Qed.

(** Dials are bounded by the attempts allowed. *)
Definition dial_inv (w : writer) : Prop :=
  0 ≤ w_attempts w ∧ (maxAttempts ≠ 0 → w_attempts w ≤ Z.max 1 maxAttempts) ∧ (w_dial w = DFirst → w_attempts w = 0).

Lemma dial_inv_step w a w' : dial_inv w → wact bufferSize maxAttempts w a = Some w' → dial_inv w'.
Proof.
  intros (H1 & H2 & H3) E. destruct a; split_step E; unfold dial_inv, shouldRetry in *; step_facts;
    split_and!; try done; try lia; rewrite H3 by done; lia.
Qed.

(** A connection that is in order carries whole messages; after an error it may end
    in part of one, and nothing is written to it any more. *)
Definition whole (ms : list IPCMessage) (l : list ascii) : Prop :=
  ∃ ds, Forall2 encodes ms ds ∧ l = concat (frame <$> ds).

Definition current_wire (loop : write_loop) (ms : list IPCMessage) (l : list ascii) : Prop :=
  match loop with
  | LError _ | LClose => carries MaxMessageSize ms l
  | _ => whole ms l
  end.

Definition wire_inv (w : writer) : Prop :=
  Forall (fits MaxMessageSize) (w_accepted w) →
  ∃ gs g, Forall2 (carries MaxMessageSize) gs (w_old w) ∧
    match w_conn w with Some b => current_wire (w_loop w) g b | None => g = [] end ∧
    with_fate Delivered w = concat gs ++ g.

Lemma whole_nil : whole [] [].
Proof. exists []. split; [constructor|done]. Qed.

Lemma whole_carries ms l : whole ms l → carries MaxMessageSize ms l.
Proof. intros (ds & Hd & ->). exists ds, []. rewrite app_nil_r. split_and!; [done|done|by left]. Qed.

Lemma whole_snoc ms l m d : whole ms l → encodes m d → whole (ms ++ [m]) (l ++ frame d).
Proof.
  intros (ds & Hd & ->) Hm. exists (ds ++ [d]). split; [by apply Forall2_app; [|constructor; [|constructor]]|].
  rewrite fmap_app, concat_app. cbn. by rewrite app_nil_r.
Qed.

Lemma whole_cut ms l m d k : whole ms l → encodes m d → fits MaxMessageSize m → (k < length (frame d))%nat →
  carries MaxMessageSize ms (l ++ take k (frame d)).
Proof.
  intros (ds & Hd & ->) Hm Hf Hk. exists ds, (take k (frame d)). split_and!; [done|done|].
  right. exists m, d, k. done.
Qed.

Lemma current_carries loop ms l : current_wire loop ms l → carries MaxMessageSize ms l.
Proof. destruct loop; cbn; try apply whole_carries; done. Qed.

(** Closing what there is keeps what was carried. *)
Lemma wires_carry w : Forall (fits MaxMessageSize) (w_accepted w) → wire_inv w →
  ∃ gs, Forall2 (carries MaxMessageSize) gs (close_conn w) ∧ with_fate Delivered w = concat gs.
Proof.
  intros Hf Hw. destruct (Hw Hf) as (gs & g & Hgs & Hg & E). unfold close_conn. destruct (w_conn w) as [b|].
  - exists (gs ++ [g]). rewrite concat_app. cbn. rewrite app_nil_r. split; [|done].
    apply Forall2_app; [done|]. constructor; [by eapply current_carries|constructor].
  - subst g. rewrite app_nil_r in E. by exists gs.
Qed.

(** A step that leaves the wires, and does not bring the loop back from an error. *)
Lemma wire_inv_same w w' : wire_inv w →
  (Forall (fits MaxMessageSize) (w_accepted w') → Forall (fits MaxMessageSize) (w_accepted w)) →
  w_old w' = w_old w → w_conn w' = w_conn w → with_fate Delivered w' = with_fate Delivered w →
  (∀ g b, current_wire (w_loop w) g b → current_wire (w_loop w') g b) → wire_inv w'.
Proof.
  intros Hw Ha Ho Hc Hd Hl Hf. destruct (Hw (Ha Hf)) as (gs & g & H1 & H2 & H3). exists gs, g.
  rewrite Ho, Hc, Hd. split_and!; [done| |done]. destruct (w_conn w); [by apply Hl|done].
Qed.

(** A step that closes the connection and perhaps opens another. *)
Lemma wire_inv_close w w' : wire_inv w → w_accepted w' = w_accepted w → w_old w' = close_conn w →
  (w_conn w' = None ∨ w_conn w' = Some []) → with_fate Delivered w' = with_fate Delivered w → wire_inv w'.
Proof.
  intros Hw Ha Ho Hc Hd Hf. rewrite Ha in Hf. destruct (wires_carry w Hf Hw) as (gs & Hgs & E).
  exists gs, []. rewrite Ho, Hd, app_nil_r. split_and!; [done| |done].
  destruct Hc as [->| ->]; [done|]. assert (carries MaxMessageSize [] []) by apply whole_carries, whole_nil.
  unfold current_wire. destruct (w_loop w'); done || apply whole_nil.
Qed.

(** Closes the steps that leave the wires. *)
Ltac rewrite_loop := try match goal with E : w_loop _ = _ |- _ => rewrite E end.
Ltac wire_same :=
  eapply wire_inv_same; [eassumption|cbn; rewrite ?Forall_app; tauto|done|done| |];
  [try done; rewrite ?with_fate_on_conn, with_fate_settle; cbn; by rewrite app_nil_r
  |cbn; intros ? ?; rewrite_loop; cbn; try apply whole_carries; done].

(** What is written is written on a wire in order, by a message that was accepted. *)
Lemma sending_state w m b : queue_inv w → wire_inv w → w_loop w = LSend m → w_conn w = Some b →
  Forall (fits MaxMessageSize) (w_accepted w) → fits MaxMessageSize m ∧
  ∃ gs g, Forall2 (carries MaxMessageSize) gs (w_old w) ∧ whole g b ∧ with_fate Delivered w = concat gs ++ g.
Proof.
  intros [Hq _] Hw Hl Hc Hf. split.
  - rewrite Hq, Hl in Hf. apply Forall_app in Hf as [_ [Hf _]%Forall_app]. by apply Forall_cons in Hf as [Hf _].
  - destruct (Hw Hf) as (gs & g & H1 & H2 & H3). exists gs, g. rewrite Hc, Hl in H2. done.
Qed.

Lemma wire_inv_send w m cut w' : queue_inv w → wire_inv w → w_loop w = LSend m →
  sendMessage m cut w = Some w' → wire_inv w'.
Proof.
  intros Hq Hw Hl E. unfold sendMessage in E.
  destruct (w_conn w) as [b|] eqn:Hc; [destruct (marshal m) as [d|] eqn:Hm|]; [|simplify_eq; wire_same..].
  destruct cut as [k|]; [destruct (k <? _)%nat eqn:Hk; [|done]; apply Nat.ltb_lt in Hk|]; injection E as <-; intros Hf;
    destruct (sending_state w m b Hq Hw Hl Hc Hf) as (Hfm & gs & g & H1 & H2 & H3).
  - exists gs, g. split_and!; [done| |done]. by eapply whole_cut.
  - exists gs, (g ++ [m]). split_and!; [done|by apply whole_snoc|].
    rewrite with_fate_settle. cbn. unfold with_fate in *. cbn. by rewrite H3, app_assoc.
Qed.

Lemma wire_inv_step w a w' : queue_inv w → wire_inv w → wact bufferSize maxAttempts w a = Some w' → wire_inv w'.
Proof.
  intros Hq Hw E. destruct a;
    try (cbn [wact] in E; destruct (w_loop w) eqn:Hl; try done; by eapply wire_inv_send);
    split_step E; try (apply (wire_inv_close w); cbn; auto; fail); wire_same.
Qed.

(** ** What the writer promises *)

Record winv (w : writer) : Prop := {
  wi_queue : queue_inv w; wi_count : count_inv w; wi_dial : dial_inv w; wi_wire : wire_inv w;
}.

Lemma winv_reachable w : wreachable bufferSize maxAttempts w → winv w.
Proof.
  intros [l Hl]. assert (winv NewWriter) as Hi.
  { split; [split; cbn; [done|lia]|done|unfold dial_inv; cbn; lia|]. intros _. exists [], []. by split_and!. }
  revert Hl Hi. generalize NewWriter. induction l as [|a l IH]; cbn; intros w0 Hl Hi; [by simplify_eq|].
  apply bind_Some in Hl as (w1 & H1 & Hl). apply (IH _ Hl). destruct Hi as [].
  split; [by eapply queue_inv_step|by eapply count_inv_step|by eapply dial_inv_step|by eapply wire_inv_step].
Qed.

(** C7 From one end to the other, when every message the queue accepted is within the limit of
    the receiver: the whole bytes of a writer's connections, connection by connection, hold
    exactly the messages the writer counts as sent, each once and in order; and those are, in
    order, among the messages its queue accepted, however calls, dials, failures, waits and
    shutdown interleave.  A handler whose read deadlines strike only between messages reads all
    those of its connection; one that stops early, at the end of the stream, at the shutdown of the server or at a
    deadline inside a body, reads a beginning of them.  What this leaves out is a deadline inside a length, after
    which the rest is misread ([timeout_desynchronises]). *)
Theorem wire_delivers w : wreachable bufferSize maxAttempts w → Forall (fits MaxMessageSize) (w_accepted w) →
  concat (received_from MaxMessageSize <$> wires w) = with_fate Delivered w ∧
  with_fate Delivered w `sublist_of` w_accepted w ∧
  ∀ b evs, b ∈ wires w → arrived evs `prefix_of` b →
    (arrived evs = b → patient MaxMessageSize receiver_start evs → r_received (run_receiver MaxMessageSize evs) = received_from MaxMessageSize b) ∧
    (undisturbed MaxMessageSize receiver_start evs → r_received (run_receiver MaxMessageSize evs) `prefix_of` received_from MaxMessageSize b).
Proof.
  intros [[Ho _] _ _ Hw]%winv_reachable Hf. split_and!.
  - destruct (wires_carry w Hf Hw) as (gs & Hgs & E). unfold wires. rewrite E. f_equal.
    assert (Forall (fits MaxMessageSize) (concat gs)) as Hg.
    { rewrite <- E. apply Forall_forall. intros m Hm. rewrite Forall_forall in Hf. apply Hf. rewrite Ho.
      apply elem_of_app. left. unfold with_fate in Hm. apply list_elem_of_fmap in Hm as (x & -> & Hx).
      apply list_elem_of_filter in Hx as [_ Hx]. by apply list_elem_of_fmap_2. }
    clear E. induction Hgs as [|g b gs bs Hgb _ IH]; [done|]. cbn in *. apply Forall_app in Hg as [H1 H2].
    f_equal; [by apply received_carries|by apply IH].
  - rewrite Ho. apply sublist_inserts_r. unfold with_fate. apply fmap_sublist, sublist_filter.
  - intros b evs _ [rest ->]. split; [intros <- Hp; by apply run_patient|intros Hu].
    etrans; [by apply run_undisturbed|]. unfold received_from. rewrite foldl_app. apply feed_prefix.
Qed.

(** Nothing disappears unaccounted for: a message that was accepted is delivered,
    given up, failed, in the loop's hands or in the queue, in the order of acceptance;
    the three counters, modulo their width, are the numbers of deliveries, of failed
    sends, and of messages given up and callers timed out; and the queue and the
    number of dials stay in their bounds. *)
Theorem writer_accounting w : wreachable bufferSize maxAttempts w →
  w_accepted w = (w_fates w).*1 ++ in_hand (w_loop w) ++ w_chan w ∧
  w_msgsSent w = Z.of_nat (length (with_fate Delivered w)) mod 2 ^ 64 ∧
  w_writeErrors w = Z.of_nat (length (with_fate Failed w)) mod 2 ^ 64 ∧
  w_msgsDropped w = (w_timeouts w + Z.of_nat (length (with_fate GaveUp w))) mod 2 ^ 64 ∧
  (length (w_chan w) ≤ bufferSize)%nat ∧ (maxAttempts ≠ 0 → w_attempts w ≤ Z.max 1 maxAttempts).
Proof. by intros [[H1 H2] (H3 & H4 & H5) (_ & H6 & _) _]%winv_reachable. Qed.
End writer_facts.

(** ** Examples *)

(** Two log messages, and a codec that knows just them. *)
Definition log_message (seq : Z) (text : list ascii) : IPCMessage :=
  {| i_Version := 1; i_Type := MLog; i_JobUuid := "u1"; i_Timestamp := 7; i_Sequence := seq; i_Data := text |}.
Definition first_log : IPCMessage := log_message 0 ["a"%char].
Definition second_log : IPCMessage := log_message 1 ["b"%char].

(** The length of the second encoding is 2560, so that its prefix is [0 0 10 0]. *)
Definition second_bytes : list ascii := replicate 2560 (byte_of 0).

Definition two_logs : Codec.
Proof.
  refine {|
    marshal m := if decide (m = first_log) then Some ["x"; "y"]%char
                 else if decide (m = second_log) then Some second_bytes else None;
    unmarshal d := if decide (d = ["x"; "y"]%char) then Some first_log
                   else if decide (d = second_bytes) then Some second_log else None |}.
  intros m d. repeat case_decide; intros [= <-]; try (congruence || done).
Defined.

(** What a writer that sent both leaves on the wire. *)
Definition two_frames : list ascii := frame ["x"; "y"]%char ++ frame second_bytes.

Lemma framing_roundtrip_witness :
  r_received (run_receiver (H := two_logs) 134217728
    [Arrive (take 3 two_frames); Arrive (drop 3 (take 6 two_frames)); ReadTimeout false;
     Arrive (drop 6 two_frames)]) = [first_log; second_log].
Proof.
  apply (framing_roundtrip (H := two_logs) 134217728).
  - repeat constructor; intros d; cbn; repeat case_decide; intros [= <-]; by vm_compute.
  - exists [["x"; "y"]%char; second_bytes], []. split_and!; [|vm_compute; reflexivity|by left].
    repeat constructor.
  - split_and!; try done; by vm_compute.
Defined.

(** A pause inside a length prefix breaks the connection's framing for good: the
    deadline throws the bytes away that were read, the next four are taken for a
    length, and messages that were sent whole are not received. *)
Theorem timeout_desynchronises :
  let evs pause := [Arrive (take 6 two_frames); Arrive (drop 6 (take 8 two_frames))] ++ pause ++
                   [Arrive (drop 8 two_frames); Arrive (frame ["x"; "y"]%char)] in
  r_received (run_receiver (H := two_logs) 134217728 (evs [])) = [first_log; second_log; first_log] ∧
  r_received (run_receiver (H := two_logs) 134217728 (evs [ReadTimeout false])) = [first_log].
Proof. split; vm_compute; reflexivity. Qed.

(** A writer that sends one message over a connection that then breaks, while
    another is queued. *)
Definition break_and_redial : list waction :=
  [ADial true; AWrite first_log; AWrite second_log; ATake; ACheck; ASend (Some 5%nat); AMark].

(** The loop that closes a broken connection can close the one that was just
    opened in its place: the writer then believes it is connected without having a
    connection, and the next message, which would have waited for one, fails. *)
Theorem redial_is_closed : ∃ w,
  wacts (H := two_logs) 10 0 NewWriter (break_and_redial ++ [ADial true; AShut]) = Some w ∧
  w_connected w = true ∧ w_conn w = None ∧
  ∃ w', wacts (H := two_logs) 10 0 w [ATake; ACheck; ASend None; AMark] = Some w' ∧
        with_fate Failed w' = [first_log; second_log] ∧ with_fate Delivered w' = [].
Proof. eexists. split; [vm_compute; reflexivity|]. split_and!; [done..|]. eexists. by split; [vm_compute; reflexivity|]. Qed.

(** In the other order the second message waits and is delivered. *)
Definition redial_later : list waction := break_and_redial ++ [AShut; ATake; ACheck; ADial true; ATick; ASend None].
Definition redialled : option writer := wacts (H := two_logs) 10 0 NewWriter redial_later.

Lemma redialled_reachable w : redialled = Some w → wreachable (H := two_logs) 10 0 w.
Proof. unfold redialled. intros E. exists redial_later. exact E. Qed.

Lemma wire_delivers_witness : ∃ w, redialled = Some w ∧
  concat (received_from (H := two_logs) 134217728 <$> wires w) = [second_log].
Proof.
  destruct redialled as [w|] eqn:E; [|exfalso; revert E; vm_compute; discriminate].
  exists w. split; [done|].
  assert (Hf : match redialled with
               | Some w => w_accepted w = [first_log; second_log] ∧ with_fate Delivered w = [second_log]
               | None => False end) by (vm_compute; split; reflexivity).
  rewrite E in Hf. destruct Hf as [Ha Hd]. rewrite <- Hd.
  apply (wire_delivers (H := two_logs) 10 0 134217728 w (redialled_reachable w E)).
  rewrite Ha. repeat constructor; intros d; cbn; repeat case_decide; intros [= <-]; by vm_compute.
Defined.

Lemma writer_accounting_witness : ∃ w, redialled = Some w ∧ w_writeErrors w = 1 ∧
  w_accepted w = (w_fates w).*1 ++ in_hand (w_loop w) ++ w_chan w.
Proof.
  destruct redialled as [w|] eqn:E; [|exfalso; revert E; vm_compute; discriminate].
  exists w. split; [done|]. split.
  - assert (Hf : match redialled with Some w => w_writeErrors w = 1 | None => False end) by (vm_compute; reflexivity).
    by rewrite E in Hf.
  - exact (proj1 (writer_accounting (H := two_logs) 10 0 134217728 w (redialled_reachable w E))).
Defined.

(** A caller that comes after [Close] panics. *)
Example write_after_close : ∃ w,
  wacts (H := two_logs) 10 0 NewWriter [ADial true; ACancel; AExit; ADialExit; AFinish; AWrite first_log] = Some w ∧
  w_panicked w = true.
Proof. eexists. by split; [vm_compute; reflexivity|]. Qed.
