(* ===== verification/Forward.v ===== *)
(** * Forwarding events to the persist service
    (internal/joblet/ipc/subscriber.go, writer.go)

    The subscriber numbers the log chunks of each job and hands them to the writer,
    which wraps them, and the measurements of the other producers, in messages. *)

From S2P Require Import JobStore.
From S2P Require Import Prelude GoStrings Ipc.
From Stdlib Require Import Ascii.

Local Open Scope Z_scope.

(** ** Wrapping payloads *)

Section wrap.
(** [proto.Marshal] of the payload types. *)
Context {Metric Event : Type}.
Variables (marshal_log : LogLine → option (list ascii))
  (marshal_metric : string → Z → Z → Metric → option (list ascii))
  (marshal_event : Event → option (list ascii)).
(** The common fields of the generated event types. *)
Variables (e_JobUuid : Event → string) (e_Timestamp e_Sequence : Event → Z).

Definition message (k : MessageType) (job : string) (timestamp sequence : Z) (data : list ascii) : IPCMessage :=
  {| i_Version := 1; i_Type := k; i_JobUuid := job; i_Timestamp := timestamp; i_Sequence := sequence; i_Data := data |}.

(** [None]: the payload does not marshal and nothing is written.
    [src/internal/joblet/ipc/writer.go Writer.WriteLog] *)
Definition WriteLog (l : LogLine) : option IPCMessage :=
  message MLog (l_JobUuid l) (l_Timestamp l) (l_Sequence l) <$> marshal_log l.

(** [src/internal/joblet/ipc/writer.go Writer.WriteMetric] *)
Definition WriteMetric (job : string) (timestamp sequence : Z) (data : Metric) : option IPCMessage :=
  message MMetric job timestamp sequence <$> marshal_metric job timestamp sequence data.

Definition event_message (k : MessageType) (e : Event) : option IPCMessage :=
  message k (e_JobUuid e) (e_Timestamp e) (e_Sequence e) <$> marshal_event e.

(** [src/internal/joblet/ipc/writer.go Writer.WriteExecEvent] *)
Definition WriteExecEvent := event_message MExecEvent.
(** [src/internal/joblet/ipc/writer.go Writer.WriteConnectEvent] *)
Definition WriteConnectEvent := event_message MConnectEvent.
(** [src/internal/joblet/ipc/writer.go Writer.WriteAcceptEvent] *)
Definition WriteAcceptEvent := event_message MAcceptEvent.
(** [src/internal/joblet/ipc/writer.go Writer.WriteSocketDataEvent] *)
Definition WriteSocketDataEvent := event_message MSocketDataEvent.
(** [src/internal/joblet/ipc/writer.go Writer.WriteMmapEvent] *)
Definition WriteMmapEvent := event_message MMmapEvent.
(** [src/internal/joblet/ipc/writer.go Writer.WriteMprotectEvent] *)
Definition WriteMprotectEvent := event_message MMprotectEvent.
(** [src/internal/joblet/ipc/writer.go Writer.WriteFileEvent] *)
Definition WriteFileEvent := event_message MFileEvent.
End wrap.

(** ** The subscriber *)

(** [accepted] answers for the writer, and [now] is the clock.
    [src/internal/joblet/ipc/subscriber.go Subscriber] *)
Record forwarder := {
  f_sequence : gmap string Z; f_eventsProcessed : Z; f_logsSent : Z; f_errors : Z;
  f_calls : list LogLine;
}.

(** [src/internal/joblet/ipc/subscriber.go NewSubscriber] *)
Definition NewSubscriber : forwarder :=
  {| f_sequence := ∅; f_eventsProcessed := 0; f_logsSent := 0; f_errors := 0; f_calls := [] |}.

(** The line of an event with its number; all output counts as standard output.
    [src/internal/joblet/ipc/subscriber.go:87-109 Subscriber.processEvents] *)
Definition event_line (now seq : Z) (e : JobEvent) : LogLine :=
  {| l_JobUuid := je_JobUUID e; l_Stream := SStdout;
     l_Timestamp := if je_Timestamp e >? 0 then wrap64 (je_Timestamp e * 1000000000) else now;
     l_Sequence := seq; l_Content := je_LogChunk e |}.

Definition is_log (e : JobEvent) : bool :=
  bool_decide (je_Type e = "LOG_CHUNK"%string) && negb (bool_decide (je_LogChunk e = [])).

(** [f_calls] are the calls of [WriteLog].
    [src/internal/joblet/ipc/subscriber.go Subscriber.processEvents] *)
Definition process_event (now : Z) (accepted : LogLine → bool) (st : forwarder) (e : JobEvent) : forwarder :=
  let processed := uint64_incr (f_eventsProcessed st) in
  if is_log e then
    let seq := default 0 (f_sequence st !! je_JobUUID e) in
    let l := event_line now seq e in
    {| f_sequence := <[je_JobUUID e := uint64_incr seq]> (f_sequence st); f_eventsProcessed := processed;
       f_logsSent := if accepted l then uint64_incr (f_logsSent st) else f_logsSent st;
       f_errors := if accepted l then f_errors st else uint64_incr (f_errors st);
       f_calls := f_calls st ++ [l] |}
  else {| f_sequence := f_sequence st; f_eventsProcessed := processed; f_logsSent := f_logsSent st;
          f_errors := f_errors st; f_calls := f_calls st |}.

(** Each event finds a time and an answer of its own. *)
Definition processEvents (l : list (Z * (LogLine → bool) * JobEvent)) : forwarder :=
  foldl (λ st x, process_event x.1.1 x.1.2 st x.2) NewSubscriber l.

Definition calls_of (job : string) (st : forwarder) : list LogLine := filter (λ l, l_JobUuid l = job) (f_calls st).
Definition chunks_of (job : string) (l : list (Z * (LogLine → bool) * JobEvent)) : list (list ascii) :=
  omap (λ x, if is_log x.2 && bool_decide (je_JobUUID x.2 = job) then Some (je_LogChunk x.2) else None) l.

Lemma processEvents_snoc l now acc e :
  processEvents (l ++ [(now, acc, e)]) = process_event now acc (processEvents l) e.
Proof. unfold processEvents. by rewrite foldl_snoc. Qed.

(** The lines that are offered for a job are numbered from zero without a gap,
    modulo the width of the number, in the order of the job's chunks and with their
    contents, whatever other jobs do in between and whether or not earlier lines
    were accepted; so a reader can tell a lost line by a missing number. *)
Theorem forwarded_lines_numbered l job :
  let calls := calls_of job (processEvents l) in
  l_Content <$> calls = chunks_of job l ∧
  l_Sequence <$> calls = imap (λ i _, Z.of_nat i mod 2 ^ 64) calls ∧
  Forall (λ c, l_Stream c = SStdout) calls.
Proof.
  cbn zeta.
  assert (l_Content <$> calls_of job (processEvents l) = chunks_of job l ∧
    l_Sequence <$> calls_of job (processEvents l) =
      imap (λ i _, Z.of_nat i mod 2 ^ 64) (calls_of job (processEvents l)) ∧
    Forall (λ c, l_Stream c = SStdout) (calls_of job (processEvents l)) ∧
    default 0 (f_sequence (processEvents l) !! job) =
      Z.of_nat (length (calls_of job (processEvents l))) mod 2 ^ 64) as (H1 & H2 & H3 & _); [|done].
  induction l as [|[[now acc] e] l IH] using rev_ind; [done|]. destruct IH as (H1 & H2 & H3 & H4).
  rewrite processEvents_snoc. unfold process_event, chunks_of. rewrite omap_app. cbn [omap list_omap snd].
  fold (chunks_of job l). destruct (is_log e); cbn [andb].
  2:{ rewrite app_nil_r. done. }
  unfold calls_of in *. cbn [f_calls f_sequence]. rewrite filter_app, filter_cons, filter_nil. cbn [event_line l_JobUuid].
  destruct (decide (je_JobUUID e = job)) as [<-|Hne].
  - rewrite lookup_insert_eq, bool_decide_eq_true_2, !fmap_app, imap_app, length_app by done. cbn.
    rewrite Nat.add_0_r, H1, H2, H4. split_and!; try done.
    + apply Forall_app. split; [done|]. by constructor.
    + unfold uint64_incr. rewrite Zplus_mod_idemp_l. f_equal. lia.
  - rewrite lookup_insert_ne, bool_decide_eq_false_2, !app_nil_r by done. done.
Qed.
