(* ===== verification/Pipeline.v ===== *)
(** * The write pipeline of the persist service (persist/internal/ipc/server.go)

    Connection handlers queue the messages they receive, workers collect them into
    batches, and a batch is grouped by job and kind before it is written. *)

From S2P Require Import Prelude GoStrings Ipc.
From Stdlib Require Import Ascii.

Local Open Scope Z_scope.

(** ** Grouping a batch *)

(** A range over a map of jobs visits them in some order. *)
Class JobRange := {
  job_range : ∀ {A}, gmap string A → list (string * A);
  job_range_perm : ∀ {A} (m : gmap string A), job_range m ≡ₚ map_to_list m;
}.

Section batches.
(** The payloads other than log lines are read by [proto.Unmarshal] into generated
    types, of which nothing is asked here. *)
Context {Event : Type} (decode_log : list ascii → option LogLine)
  (decode_event : MessageType → list ascii → option Event).
Context `{!JobRange}.

(** [src/persist/internal/ipc/server.go JobBatch] *)
Record JobBatch := {
  jb_Logs : list LogLine; jb_Metrics : list Event; jb_ExecEvents : list Event;
  jb_ConnectEvents : list Event; jb_FileEvents : list Event; jb_AcceptEvents : list Event;
  jb_SocketDataEvents : list Event; jb_MmapEvents : list Event; jb_MprotectEvents : list Event;
}.

Definition empty_batch : JobBatch :=
  {| jb_Logs := []; jb_Metrics := []; jb_ExecEvents := []; jb_ConnectEvents := []; jb_FileEvents := [];
     jb_AcceptEvents := []; jb_SocketDataEvents := []; jb_MmapEvents := []; jb_MprotectEvents := [] |}.

(** The list of a kind, and its extension by one payload. *)
Definition events_of (k : MessageType) (b : JobBatch) : list Event :=
  match k with
  | MMetric => jb_Metrics b | MExecEvent => jb_ExecEvents b | MConnectEvent => jb_ConnectEvents b
  | MFileEvent => jb_FileEvents b | MAcceptEvent => jb_AcceptEvents b | MSocketDataEvent => jb_SocketDataEvents b
  | MMmapEvent => jb_MmapEvents b | MMprotectEvent => jb_MprotectEvents b | MLog | MOther _ => []
  end.

Definition add_log (l : LogLine) (b : JobBatch) : JobBatch :=
  {| jb_Logs := jb_Logs b ++ [l]; jb_Metrics := jb_Metrics b; jb_ExecEvents := jb_ExecEvents b;
     jb_ConnectEvents := jb_ConnectEvents b; jb_FileEvents := jb_FileEvents b; jb_AcceptEvents := jb_AcceptEvents b;
     jb_SocketDataEvents := jb_SocketDataEvents b; jb_MmapEvents := jb_MmapEvents b;
     jb_MprotectEvents := jb_MprotectEvents b |}.

(** [src/persist/internal/ipc/server.go:379-441 Server.processBatch] *)
Definition add_event (k : MessageType) (e : Event) (b : JobBatch) : JobBatch :=
  let put k' l := if decide (k = k') then l ++ [e] else l in
  {| jb_Logs := jb_Logs b; jb_Metrics := put MMetric (jb_Metrics b); jb_ExecEvents := put MExecEvent (jb_ExecEvents b);
     jb_ConnectEvents := put MConnectEvent (jb_ConnectEvents b); jb_FileEvents := put MFileEvent (jb_FileEvents b);
     jb_AcceptEvents := put MAcceptEvent (jb_AcceptEvents b);
     jb_SocketDataEvents := put MSocketDataEvent (jb_SocketDataEvents b);
     jb_MmapEvents := put MMmapEvent (jb_MmapEvents b); jb_MprotectEvents := put MMprotectEvent (jb_MprotectEvents b) |}.

(** One message: its job has an entry from now on, also when the payload does not
    decode or its kind is unknown.
    [src/persist/internal/ipc/server.go:353-443 Server.processBatch] *)
Definition group_one (bs : gmap string JobBatch) (m : IPCMessage) : gmap string JobBatch :=
  let b := default empty_batch (bs !! i_JobUuid m) in
  let b' := match i_Type m with
            | MLog => match decode_log (i_Data m) with Some l => add_log l b | None => b end
            | MOther _ => b
            | k => match decode_event k (i_Data m) with Some e => add_event k e b | None => b end
            end in
  <[i_JobUuid m := b']> bs.

Definition group (batch : list IPCMessage) : gmap string JobBatch := foldl group_one ∅ batch.

(** A call of the backend. *)
Inductive backend_write := WriteLogs (job : string) (l : list LogLine) | WriteEvents (k : MessageType) (job : string) (l : list Event).

Definition write_kinds : list MessageType :=
  [MMetric; MExecEvent; MConnectEvent; MFileEvent; MAcceptEvent; MSocketDataEvent; MMmapEvent; MMprotectEvent].

(** A list that is not empty is written.
    [src/persist/internal/ipc/server.go:448-528 Server.processBatch] *)
Definition job_writes (job : string) (b : JobBatch) : list backend_write :=
  match jb_Logs b with [] => [] | l => [WriteLogs job l] end ++
  omap (λ k, match events_of k b with [] => None | l => Some (WriteEvents k job l) end) write_kinds.

(** [src/persist/internal/ipc/server.go Server.processBatch] *)
Definition processBatch (batch : list IPCMessage) : list backend_write :=
  flat_map (λ kv, job_writes kv.1 kv.2) (job_range (group batch)).

(** The log lines and events of a job among messages, in their order. *)
Definition logs_of (job : string) (ms : list IPCMessage) : list LogLine :=
  omap (λ m, if decide (i_JobUuid m = job ∧ i_Type m = MLog) then decode_log (i_Data m) else None) ms.
Definition kind_of (k : MessageType) (job : string) (ms : list IPCMessage) : list Event :=
  omap (λ m, if decide (i_JobUuid m = job ∧ i_Type m = k) then decode_event k (i_Data m) else None) ms.

Lemma group_snoc ms m : group (ms ++ [m]) = group_one (group ms) m.
Proof. unfold group. by rewrite foldl_snoc. Qed.

Lemma logs_of_app job a b : logs_of job (a ++ b) = logs_of job a ++ logs_of job b.
Proof. apply omap_app. Qed.
Lemma kind_of_app k job a b : kind_of k job (a ++ b) = kind_of k job a ++ kind_of k job b.
Proof. apply omap_app. Qed.

Lemma group_logs job ms : jb_Logs (default empty_batch (group ms !! job)) = logs_of job ms.
Proof.
  induction ms as [|m ms IH] using rev_ind; [done|]. rewrite group_snoc, logs_of_app, <- IH. unfold group_one, logs_of. cbn [omap list_omap].
  destruct (decide (i_JobUuid m = job)) as [<-|Hne].
  - rewrite lookup_insert_eq. cbn [default from_option id]. destruct (i_Type m) eqn:E;
      try (rewrite decide_False by naive_solver; rewrite app_nil_r; by destruct (decode_event _ _)).
    + rewrite decide_True by done. destruct (decode_log _); [done|]. by rewrite app_nil_r.
    + rewrite decide_False by naive_solver. by rewrite app_nil_r.
  - rewrite lookup_insert_ne by done. rewrite decide_False by naive_solver. by rewrite app_nil_r.
Qed.

Lemma events_add k k' e b : k' ∈ write_kinds → events_of k' (add_event k e b) =
  events_of k' b ++ if decide (k = k') then [e] else [].
Proof.
  intros Hk. unfold write_kinds in Hk. rewrite !elem_of_cons, elem_of_nil in Hk.
  destruct_or! Hk; try done; subst k'; cbn; case_decide; by rewrite ?app_nil_r.
Qed.

Lemma events_add_log k l b : events_of k (add_log l b) = events_of k b.
Proof. by destruct k. Qed.

Lemma group_events k job ms : k ∈ write_kinds →
  events_of k (default empty_batch (group ms !! job)) = kind_of k job ms.
Proof.
  intros Hk. induction ms as [|m ms IH] using rev_ind; [by destruct k|].
  rewrite group_snoc, kind_of_app, <- IH. unfold group_one, kind_of. cbn [omap list_omap].
  destruct (decide (i_JobUuid m = job)) as [<-|Hne].
  - rewrite lookup_insert_eq. cbn [default from_option id].
    assert (∀ k', i_Type m = k' → k' ∈ write_kinds →
      events_of k match decode_event k' (i_Data m) with
                  | Some e => add_event k' e (default empty_batch (group ms !! i_JobUuid m))
                  | None => default empty_batch (group ms !! i_JobUuid m) end =
      events_of k (default empty_batch (group ms !! i_JobUuid m)) ++
      match (if decide (i_JobUuid m = i_JobUuid m ∧ i_Type m = k) then decode_event k (i_Data m) else None) with
      | Some y => [y] | None => [] end) as Hgen.
    { intros k' E Hk'. destruct (decide (k' = k)) as [->|Hne].
      - rewrite decide_True by done. destruct (decode_event k _); [|by rewrite app_nil_r].
        rewrite events_add by done. by rewrite decide_True.
      - rewrite decide_False by naive_solver. destruct (decode_event k' _); [|by rewrite app_nil_r].
        rewrite events_add by done. by rewrite decide_False. }
    destruct (i_Type m) eqn:E; try (apply (Hgen _ eq_refl); by apply (bool_decide_unpack _)).
    + rewrite decide_False by (intros [_ <-]; revert Hk; apply (bool_decide_unpack _); by vm_compute).
      rewrite app_nil_r. destruct (decode_log _); [by rewrite events_add_log|done].
    + rewrite decide_False; [by rewrite app_nil_r|]. intros [_ <-]. revert Hk. unfold write_kinds.
      rewrite !elem_of_cons, elem_of_nil. naive_solver.
  - rewrite lookup_insert_ne by done. rewrite decide_False by naive_solver. by rewrite app_nil_r.
Qed.
End batches.
Arguments JobBatch : clear implicits.
Arguments backend_write : clear implicits.

(** ** What a batch writes *)

Section written.
Context {Event : Type} (decode_log : list ascii → option LogLine)
  (decode_event : MessageType → list ascii → option Event).
Context `{!JobRange}.

(** What calls of the backend write for a job. *)
Definition logs_in (job : string) (w : backend_write Event) : list LogLine :=
  match w with WriteLogs j l => if decide (j = job) then l else [] | WriteEvents _ _ _ => [] end.
Definition events_in (k : MessageType) (job : string) (w : backend_write Event) : list Event :=
  match w with WriteEvents k' j l => if decide (k' = k ∧ j = job) then l else [] | WriteLogs _ _ => [] end.
Definition written_logs (job : string) (ws : list (backend_write Event)) : list LogLine := flat_map (logs_in job) ws.
Definition written_events (k : MessageType) (job : string) (ws : list (backend_write Event)) : list Event :=
  flat_map (events_in k job) ws.

Lemma written_logs_app job a b : written_logs job (a ++ b) = written_logs job a ++ written_logs job b.
Proof. apply flat_map_app. Qed.
Lemma written_events_app k job a b : written_events k job (a ++ b) = written_events k job a ++ written_events k job b.
Proof. apply flat_map_app. Qed.

Lemma flat_map_flat_map {A B C} (f : A → list B) (g : B → list C) l :
  flat_map g (flat_map f l) = flat_map (λ a, flat_map g (f a)) l.
Proof. induction l as [|a l IH]; cbn; [done|]. by rewrite flat_map_app, IH. Qed.

(** Over pairs with different keys, only that of the key contributes. *)
Lemma flat_map_key {A B} (f : string * A → list B) (l : list (string * A)) k :
  NoDup l.*1 → (∀ k' a, k' ≠ k → f (k', a) = []) →
  (∀ a, (k, a) ∈ l → flat_map f l = f (k, a)) ∧ (k ∉ l.*1 → flat_map f l = []).
Proof.
  intros Hn Hf. induction l as [|[k' a'] l IH]; cbn; [split; [intros a Ha; by apply elem_of_nil in Ha|done]|].
  cbn in Hn. apply NoDup_cons in Hn as [Hk' Hn]. destruct (IH Hn) as [IH1 IH2]. split.
  - intros a [[= -> ->]|Ha]%elem_of_cons; [by rewrite IH2, app_nil_r|].
    rewrite Hf, (IH1 a Ha); [done|]. intros ->. apply Hk'. apply list_elem_of_fmap. by exists (k, a).
  - rewrite not_elem_of_cons. intros [Hne Hk]. by rewrite Hf, IH2 by done.
Qed.

Lemma flat_map_range {A B} (f : string * A → list B) (m : gmap string A) k (d : A) :
  (∀ k' a, k' ≠ k → f (k', a) = []) → f (k, d) = [] →
  flat_map f (job_range m) = f (k, default d (m !! k)).
Proof.
  intros Hf Hd. assert (Hn : NoDup (job_range m).*1) by (rewrite job_range_perm; apply NoDup_fst_map_to_list).
  destruct (flat_map_key f (job_range m) k Hn Hf) as [H1 H2].
  destruct (m !! k) as [a|] eqn:E; cbn.
  - apply H1. rewrite job_range_perm. by apply elem_of_map_to_list.
  - rewrite Hd. apply H2. intros ([k' a] & -> & Ha)%list_elem_of_fmap. cbn in E.
    rewrite job_range_perm in Ha. apply elem_of_map_to_list in Ha. congruence.
Qed.

Lemma job_writes_logs job j (b : JobBatch Event) :
  flat_map (logs_in job) (job_writes j b) = if decide (j = job) then jb_Logs b else [].
Proof.
  unfold job_writes. rewrite flat_map_app.
  assert (flat_map (logs_in job) (omap (λ k, match events_of k b with [] => None | l => Some (WriteEvents k j l) end)
    write_kinds) = []) as ->.
  { induction write_kinds as [|k ks IH]; [done|]. cbn. by destruct (events_of k b). }
  rewrite app_nil_r. destruct (jb_Logs b); cbn; [by destruct (decide _)|]. by rewrite app_nil_r.
Qed.

Lemma job_writes_events k job j (b : JobBatch Event) : k ∈ write_kinds →
  flat_map (events_in k job) (job_writes j b) = if decide (j = job) then events_of k b else [].
Proof.
  intros Hk. unfold job_writes. rewrite flat_map_app.
  assert (flat_map (events_in k job) match jb_Logs b with [] => [] | l => [WriteLogs j l] end = []) as ->
    by by destruct (jb_Logs b).
  cbn [app].
  assert (Hn : NoDup write_kinds) by (apply (bool_decide_unpack _); vm_compute; exact I).
  revert Hk Hn. generalize write_kinds. induction l as [|k' ks IH]; intros Hk Hn; [by apply elem_of_nil in Hk|].
  apply NoDup_cons in Hn as [Hk' Hn]. cbn [omap list_omap app].
  assert (k ∉ ks → flat_map (events_in k job) (omap (λ k, match events_of k b with [] => None | l => Some (WriteEvents k j l) end) ks) = []) as Hz.
  { clear. induction ks as [|k' ks IH]; intros Hk; [done|]. apply not_elem_of_cons in Hk as [Hne Hk]. cbn.
    destruct (events_of k' b); [by apply IH|]. cbn. rewrite decide_False by naive_solver. by apply IH. }
  apply elem_of_cons in Hk as [<-|Hk].
  - destruct (events_of k b) as [|e es] eqn:Ee; [rewrite Hz by done; by destruct (decide _)|].
    cbn [flat_map]. rewrite Hz, app_nil_r by done. cbn.
    destruct (decide (j = job)); [by rewrite decide_True|by rewrite decide_False by naive_solver].
  - assert (k' ≠ k) by (intros ->; done). destruct (events_of k' b); [by apply IH|].
    cbn [flat_map]. rewrite IH by done. cbn. by rewrite decide_False by naive_solver.
Qed.

(** A batch is written whole: for each job, its lines, and its events of each kind,
    in their order in the batch. *)
Lemma processBatch_logs job batch :
  written_logs job (processBatch decode_log decode_event batch) = logs_of decode_log job batch.
Proof.
  unfold written_logs, processBatch. rewrite flat_map_flat_map.
  rewrite (flat_map_range _ _ job empty_batch); cbn [fst snd].
  - rewrite job_writes_logs, decide_True by done. apply group_logs.
  - intros k' b Hne. rewrite job_writes_logs. by rewrite decide_False.
  - by rewrite job_writes_logs, decide_True.
Qed.

Lemma processBatch_events k job batch : k ∈ write_kinds →
  written_events k job (processBatch decode_log decode_event batch) = kind_of decode_event k job batch.
Proof.
  intros Hk. unfold written_events, processBatch. rewrite flat_map_flat_map.
  rewrite (flat_map_range _ _ job empty_batch); cbn [fst snd].
  - rewrite job_writes_events, decide_True by done. by apply group_events.
  - intros k' b Hne. rewrite job_writes_events by done. by rewrite decide_False.
  - rewrite job_writes_events, decide_True by done. by destruct k.
Qed.

Lemma batches_logs job bs :
  written_logs job (flat_map (processBatch decode_log decode_event) bs) = logs_of decode_log job (concat bs).
Proof.
  induction bs as [|b bs IH]; [done|]. cbn [flat_map concat].
  by rewrite written_logs_app, IH, processBatch_logs, logs_of_app.
Qed.

Lemma batches_events k job bs : k ∈ write_kinds →
  written_events k job (flat_map (processBatch decode_log decode_event) bs) = kind_of decode_event k job (concat bs).
Proof.
  intros Hk. induction bs as [|b bs IH]; [done|]. cbn [flat_map concat].
  by rewrite written_events_app, IH, processBatch_events, kind_of_app.
Qed.
End written.

(** ** The pipeline *)

(** A connection's handler: between messages, waiting for room with one, or gone. *)
Inductive handler := HReading | HBlocked (m : IPCMessage) | HGone.
(** A worker with its batch: at its select, just after it took a message, or gone.
    [src/persist/internal/ipc/server.go Server.writeWorker] *)
Inductive worker := WWaiting (batch : list IPCMessage) | WTaken (batch : list IPCMessage) | WGone.

(** [p_batches] are the batches that were processed; [p_queued] and [p_dropped] record
    what the pipe accepted and what the timeout dropped.
    [src/persist/internal/ipc/server.go Server] *)
Record server := {
  p_pipe : list IPCMessage; p_closed : bool; p_done : bool; p_panicked : bool;
  p_handlers : gmap nat handler; p_workers : gmap nat worker;
  p_batches : list (list IPCMessage); p_queued : list IPCMessage; p_dropped : list IPCMessage;
  p_backpressureEvents : Z; p_msgsDropped : Z;
}.

(** A server with [n] workers.
    [src/persist/internal/ipc/server.go NewServer] *)
Definition server_start (n : nat) : server :=
  {| p_pipe := []; p_closed := false; p_done := false; p_panicked := false; p_handlers := ∅;
     p_workers := list_to_map ((λ i, (i, WWaiting [])) <$> seq 0 n);
     p_batches := []; p_queued := []; p_dropped := []; p_backpressureEvents := 0; p_msgsDropped := 0 |}.

Definition set_handler (h : nat) (s : handler) (p : server) : server :=
  {| p_pipe := p_pipe p; p_closed := p_closed p; p_done := p_done p; p_panicked := p_panicked p;
     p_handlers := <[h := s]> (p_handlers p); p_workers := p_workers p; p_batches := p_batches p;
     p_queued := p_queued p; p_dropped := p_dropped p; p_backpressureEvents := p_backpressureEvents p;
     p_msgsDropped := p_msgsDropped p |}.
Definition set_life (done closed panicked : bool) (p : server) : server :=
  {| p_pipe := p_pipe p; p_closed := closed; p_done := done; p_panicked := panicked;
     p_handlers := p_handlers p; p_workers := p_workers p; p_batches := p_batches p;
     p_queued := p_queued p; p_dropped := p_dropped p; p_backpressureEvents := p_backpressureEvents p;
     p_msgsDropped := p_msgsDropped p |}.
Definition enqueue (m : IPCMessage) (p : server) : server :=
  {| p_pipe := p_pipe p ++ [m]; p_closed := p_closed p; p_done := p_done p; p_panicked := p_panicked p;
     p_handlers := p_handlers p; p_workers := p_workers p; p_batches := p_batches p;
     p_queued := p_queued p ++ [m]; p_dropped := p_dropped p; p_backpressureEvents := p_backpressureEvents p;
     p_msgsDropped := p_msgsDropped p |}.
Definition pressed (p : server) : server :=
  {| p_pipe := p_pipe p; p_closed := p_closed p; p_done := p_done p; p_panicked := p_panicked p;
     p_handlers := p_handlers p; p_workers := p_workers p; p_batches := p_batches p;
     p_queued := p_queued p; p_dropped := p_dropped p;
     p_backpressureEvents := uint64_incr (p_backpressureEvents p); p_msgsDropped := p_msgsDropped p |}.
Definition drop_message (m : IPCMessage) (p : server) : server :=
  {| p_pipe := p_pipe p; p_closed := p_closed p; p_done := p_done p; p_panicked := p_panicked p;
     p_handlers := p_handlers p; p_workers := p_workers p; p_batches := p_batches p;
     p_queued := p_queued p; p_dropped := p_dropped p ++ [m];
     p_backpressureEvents := p_backpressureEvents p; p_msgsDropped := uint64_incr (p_msgsDropped p) |}.

(** The worker's new state and the rest of the pipe. *)
Definition set_worker (w : nat) (s : worker) (pipe : list IPCMessage) (p : server) : server :=
  {| p_pipe := pipe; p_closed := p_closed p; p_done := p_done p; p_panicked := p_panicked p;
     p_handlers := p_handlers p; p_workers := <[w := s]> (p_workers p); p_batches := p_batches p;
     p_queued := p_queued p; p_dropped := p_dropped p; p_backpressureEvents := p_backpressureEvents p;
     p_msgsDropped := p_msgsDropped p |}.

(** A batch that holds something is processed. *)
Definition flush (w : nat) (b : list IPCMessage) (s : worker) (p : server) : server :=
  {| p_pipe := p_pipe p; p_closed := p_closed p; p_done := p_done p; p_panicked := p_panicked p;
     p_handlers := p_handlers p; p_workers := <[w := s]> (p_workers p);
     p_batches := match b with [] => p_batches p | _ => p_batches p ++ [b] end;
     p_queued := p_queued p; p_dropped := p_dropped p; p_backpressureEvents := p_backpressureEvents p;
     p_msgsDropped := p_msgsDropped p |}.

(** What can happen next. *)
Inductive paction :=
| PAccept (h : nat)                  (** a connection *)
| PReceive (h : nat) (m : IPCMessage) (** its next message, which is queued if there is room *)
| PUnblock (h : nat)                 (** room for the one that waits *)
| PTimeout (h : nat)                 (** no room for too long, in drop mode *)
| PQuit (h : nat)                    (** the wait ends because the server stops *)
| PLeave (h : nat)                   (** the connection ends *)
| PTake (w : nat)                    (** a worker takes a message *)
| PJudge (w : nat)                   (** it looks whether to process its batch *)
| PTick (w : nat)                    (** its ticker fires *)
| PStopped (w : nat)                 (** it sees the server stopping *)
| PDrained (w : nat)                 (** it sees the pipe closed and empty *)
| PCancel                            (** [Stop] cancels *)
| PClose.                            (** and closes the pipe *)

Section pipeline.
Variables (bufferSize batchSize : nat) (dropMode : bool).

(** A send on the pipe, which panics when it is closed.
    [src/persist/internal/ipc/server.go:247-288 Server.handleConnection] *)
Definition offer (h : nat) (m : IPCMessage) (p : server) : server :=
  if p_closed p then set_life (p_done p) true true p
  else if (length (p_pipe p) <? bufferSize)%nat then set_handler h HReading (enqueue m p)
  else set_handler h (HBlocked m) (pressed p).

Definition unblock (h : nat) (m : IPCMessage) (p : server) : option server :=
  if p_closed p then Some (set_life (p_done p) true true p)
  else if (length (p_pipe p) <? bufferSize)%nat then Some (set_handler h HReading (enqueue m p)) else None.

(** [src/persist/internal/ipc/server.go:325-336 Server.writeWorker] *)
Definition judge (w : nat) (b : list IPCMessage) (p : server) : server :=
  if (batchSize <=? length b)%nat || bool_decide (p_pipe p = [])
  then flush w b (WWaiting []) p else set_worker w (WWaiting b) (p_pipe p) p.

(** One step of the server, when it is possible. *)
Definition pact (p : server) (a : paction) : option server :=
  match a with
  | PAccept h => match p_handlers p !! h with None => Some (set_handler h HReading p) | _ => None end
  | PReceive h m => match p_handlers p !! h with Some HReading => Some (offer h m p) | _ => None end
  | PUnblock h => match p_handlers p !! h with Some (HBlocked m) => unblock h m p | _ => None end
  | PTimeout h => match p_handlers p !! h with
                  | Some (HBlocked m) => if dropMode then Some (set_handler h HReading (drop_message m p)) else None
                  | _ => None end
  | PQuit h => match p_handlers p !! h with
               | Some (HBlocked m) => if p_done p then Some (set_handler h HGone p) else None | _ => None end
  | PLeave h => match p_handlers p !! h with Some HReading => Some (set_handler h HGone p) | _ => None end
  | PTake w => match p_workers p !! w, p_pipe p with
               | Some (WWaiting b), m :: q => Some (set_worker w (WTaken (b ++ [m])) q p) | _, _ => None end
  | PJudge w => match p_workers p !! w with Some (WTaken b) => Some (judge w b p) | _ => None end
  | PTick w => match p_workers p !! w with Some (WWaiting b) => Some (flush w b (WWaiting []) p) | _ => None end
  | PStopped w => match p_workers p !! w with
                  | Some (WWaiting b) => if p_done p then Some (flush w b WGone p) else None | _ => None end
  | PDrained w => match p_workers p !! w, p_pipe p with
                  | Some (WWaiting b), [] => if p_closed p then Some (flush w b WGone p) else None | _, _ => None end
  | PCancel => Some (set_life true (p_closed p) (p_panicked p) p)
  | PClose => if p_done p && negb (p_closed p) then Some (set_life true true (p_panicked p) p) else None
  end.

Fixpoint pacts (p : server) (l : list paction) : option server :=
  match l with [] => Some p | a :: l => p' ← pact p a; pacts p' l end.
Definition preachable (n : nat) (p : server) : Prop := ∃ l, pacts (server_start n) l = Some p.

(** What a worker holds, and what all of them hold. *)
Definition held (s : worker) : list IPCMessage := match s with WWaiting b | WTaken b => b | WGone => [] end.
Definition in_work (p : server) : list IPCMessage := concat (held <$> (map_to_list (p_workers p)).*2).

Definition works (m : gmap nat worker) : list IPCMessage := concat (held <$> (map_to_list m).*2).

(** The others' work does not depend on one worker's. *)
Lemma works_split m w s : m !! w = Some s → ∃ rest, ∀ s', works (<[w := s']> m) ≡ₚ held s' ++ rest.
Proof.
  intros Hw. exists (works (delete w m)). intros s'. unfold works.
  rewrite <- insert_delete_eq, map_to_list_insert by apply lookup_delete_eq. done.
Qed.

(** The worker's step moves what it held to what it holds and what it processed. *)
Lemma works_step m w s s' : m !! w = Some s → ∀ moved, held s ≡ₚ moved ++ held s' →
  works m ≡ₚ moved ++ works (<[w := s']> m).
Proof.
  intros Hw moved Hm. destruct (works_split m w s Hw) as [rest Hr].
  rewrite <- (insert_id m w s Hw) at 1. rewrite !Hr, Hm. by rewrite app_assoc.
Qed.

(** Sizes of a worker's batch. *)
Definition batch_ok (s : worker) : Prop :=
  match s with
  | WWaiting b => (length b < batchSize)%nat
  | WTaken b => b ≠ [] ∧ (length b ≤ batchSize)%nat
  | WGone => True
  end.

Record pinv (p : server) : Prop := {
  pi_all : p_queued p ≡ₚ concat (p_batches p) ++ works (p_workers p) ++ p_pipe p;
  pi_sizes : Forall (λ b, b ≠ [] ∧ (length b ≤ batchSize)%nat) (p_batches p);
  pi_workers : map_Forall (λ _ s, batch_ok s) (p_workers p);
  pi_pipe : (length (p_pipe p) ≤ bufferSize)%nat;
  pi_dropped : p_msgsDropped p = Z.of_nat (length (p_dropped p)) mod 2 ^ 64;
}.

Ltac split_pact E :=
  unfold pact, offer, unblock, judge in E; repeat case_match; simplify_eq; try done.

Lemma pinv_flush p w s b s' : pinv p → p_workers p !! w = Some s → held s = b → held s' = [] →
  (length b ≤ batchSize)%nat → batch_ok s' → pinv (flush w b s' p).
Proof.
  intros [H1 H2 H3 H4 H5] Hw Hb Hs' Hlen Hok.
  assert (E : concat match b with [] => p_batches p | _ => p_batches p ++ [b] end = concat (p_batches p) ++ b).
  { destruct b; [by rewrite app_nil_r|]. rewrite concat_app. cbn. by rewrite app_nil_r. }
  split; cbn [p_queued p_batches p_workers p_pipe flush p_msgsDropped p_dropped]; try done.
  - rewrite E, H1, (works_step _ _ s s' Hw b) by by rewrite Hb, Hs', app_nil_r. by rewrite !app_assoc.
  - destruct b; [done|]. apply Forall_app. split; [done|]. by constructor.
  - by apply map_Forall_insert_2.
Qed.

Lemma pinv_queue p m : pinv p → (length (p_pipe p) < bufferSize)%nat → pinv (enqueue m p).
Proof.
  intros [H1 H2 H3 H4 H5] Hl. split; cbn; try done.
  - rewrite H1. by rewrite <- !app_assoc.
  - rewrite length_app. cbn. lia.
Qed.

(** Steps that only touch the handlers and the flags. *)
Lemma pinv_same p p' : pinv p → p_queued p' = p_queued p → p_batches p' = p_batches p →
  p_workers p' = p_workers p → p_pipe p' = p_pipe p → p_msgsDropped p' = p_msgsDropped p →
  p_dropped p' = p_dropped p → pinv p'.
Proof. intros [] E1 E2 E3 E4 E5 E6. split; by rewrite ?E1, ?E2, ?E3, ?E4, ?E5, ?E6. Qed.

Hypothesis batch_positive : (0 < batchSize)%nat.

Lemma pinv_take p w b m q : pinv p → p_workers p !! w = Some (WWaiting b) → p_pipe p = m :: q →
  pinv (set_worker w (WTaken (b ++ [m])) q p).
Proof.
  intros [H1 H2 H3 H4 H5] Hw Hq. pose proof (H3 _ _ Hw) as Hs. cbn in Hs.
  destruct (works_split _ _ _ Hw) as [rest Hr]. rewrite <- (insert_id _ _ _ Hw), Hr, Hq in H1.
  split; cbn [p_queued p_batches p_workers p_pipe set_worker p_msgsDropped p_dropped]; try done.
  - rewrite H1, Hr. cbn [held]. f_equiv. rewrite <- !app_assoc. f_equiv. cbn. by rewrite Permutation_middle.
  - apply map_Forall_insert_2; [|done]. cbn. rewrite length_app. cbn. split; [by destruct b|lia].
  - rewrite Hq in H4. cbn in H4. lia.
Qed.

Lemma pinv_keep p w b : pinv p → p_workers p !! w = Some (WTaken b) → (length b < batchSize)%nat →
  pinv (set_worker w (WWaiting b) (p_pipe p) p).
Proof.
  intros [H1 H2 H3 H4 H5] Hw Hb. split; cbn [p_queued p_batches p_workers p_pipe set_worker p_msgsDropped p_dropped]; try done.
  - by rewrite <- (works_step _ _ _ (WWaiting b) Hw []).
  - by apply map_Forall_insert_2.
Qed.

Lemma pinv_step p a p' : pinv p → pact p a = Some p' → pinv p'.
Proof.
  intros Hp E. destruct a; split_pact E; try (eapply pinv_same; [exact Hp|done..]);
    try (eapply pinv_same; [apply pinv_queue; [exact Hp|by apply Nat.ltb_lt]|done..]);
    try (match goal with E : p_workers p !! _ = Some ?s |- _ => pose proof (pi_workers _ Hp _ _ E) as Hs; cbn in Hs end);
    try (eapply pinv_flush; [exact Hp|eassumption|done|done|naive_solver lia|cbn; naive_solver lia]).
  - destruct Hp. split; cbn; try done. rewrite length_app. cbn. rewrite (incr_mod _ _ pi_dropped0). f_equal. lia.
  - by apply pinv_take.
  - to_prop. apply pinv_keep; [done|done|by apply Nat.leb_gt].
Qed.

Lemma pinv_start n : pinv (server_start n).
Proof.
  assert (Hw : ∀ w s, p_workers (server_start n) !! w = Some s → s = WWaiting []).
  { intros w s Hs. cbn in Hs. apply elem_of_list_to_map_2 in Hs. apply list_elem_of_fmap in Hs as (i & E & _). congruence. }
  split; cbn; try done; try lia.
  - assert (E : works (p_workers (server_start n)) = []); [|cbn in E; by rewrite E].
    unfold works. revert Hw. generalize (p_workers (server_start n)). intros m Hw.
    assert (Forall (λ s, s = WWaiting []) (map_to_list m).*2) as Hf.
    { apply Forall_forall. intros s ([w s'] & -> & Hs)%list_elem_of_fmap. cbn.
      apply elem_of_map_to_list in Hs. by eapply Hw. }
    induction Hf as [|s l -> _ IH]; [done|]. exact IH.
  - intros w s Hs. by rewrite (Hw w s Hs).
Qed.

Lemma pinv_reachable n p : preachable n p → pinv p.
Proof.
  intros [l Hl]. revert Hl. generalize (pinv_start n). generalize (server_start n).
  induction l as [|a l IH]; cbn; intros p0 Hi Hl; [by simplify_eq|].
  apply bind_Some in Hl as (p1 & H1 & Hl). apply (IH p1); [by eapply pinv_step|done].
Qed.

(** ** A single worker *)

(** With one worker the order is kept throughout. *)
Definition single (p : server) : Prop :=
  ∃ s, p_workers p = {[0%nat := s]} ∧ p_queued p = concat (p_batches p) ++ held s ++ p_pipe p.

Lemma single_flush p w b s s' : single p → p_workers p !! w = Some s → held s = b → held s' = [] →
  single (flush w b s' p).
Proof.
  intros (s0 & E & Hq) Hw Hb Hs'. rewrite E in Hw. apply lookup_singleton_Some in Hw as [<- ->].
  exists s'. cbn [p_workers p_queued p_batches p_pipe flush]. rewrite E, insert_singleton_eq. split; [done|].
  rewrite Hq, Hb, Hs'. destruct b; [done|]. rewrite concat_app. cbn. by rewrite app_nil_r, <- app_assoc.
Qed.

Lemma single_same p p' : single p → p_workers p' = p_workers p → p_batches p' = p_batches p →
  (∃ q, p_queued p' = p_queued p ++ q ∧ p_pipe p' = p_pipe p ++ q) → single p'.
Proof.
  intros (s & E & Hq) E1 E2 (q & E3 & E4). exists s. rewrite E1, E2, E3, E4, Hq. split; [done|]. by rewrite <- !app_assoc.
Qed.

Lemma single_step p a p' : single p → pact p a = Some p' → single p'.
Proof.
  intros Hp E. destruct a; split_pact E;
    try (eapply single_same; [exact Hp|done|done|exists []; by rewrite !app_nil_r]);
    try (eapply single_same; [exact Hp|done|done|by eexists]);
    try (eapply single_flush; [exact Hp|eassumption|done|done]).
  - destruct Hp as (s & Ew & Hq). match goal with E : p_workers p !! _ = _ |- _ => rewrite Ew in E; apply lookup_singleton_Some in E as [<- ->] end.
    eexists. cbn [p_workers p_queued p_batches p_pipe set_worker]. rewrite Ew, insert_singleton_eq. split; [done|].
    match goal with E : p_pipe p = _ |- _ => rewrite Hq, E end. cbn. by rewrite <- !app_assoc.
  - destruct Hp as (s & Ew & Hq). match goal with E : p_workers p !! _ = _ |- _ => rewrite Ew in E; apply lookup_singleton_Some in E as [<- ->] end.
    eexists. cbn [p_workers p_queued p_batches p_pipe set_worker]. by rewrite Ew, insert_singleton_eq.
Qed.

Lemma single_reachable p : preachable 1 p → single p.
Proof.
  intros [l Hl]. assert (single (server_start 1)) as Hi by (by exists (WWaiting [])).
  revert Hi Hl. generalize (server_start 1).
  induction l as [|a l IH]; cbn; intros p0 Hi Hl; [by simplify_eq|].
  apply bind_Some in Hl as (p1 & H1 & Hl). apply (IH p1); [by eapply single_step|done].
Qed.
End pipeline.

(** ** What the pipeline promises *)

Section promises.
Context {Event : Type} (decode_log : list ascii → option LogLine)
  (decode_event : MessageType → list ascii → option Event).
Context `{!JobRange}.
Variables (bufferSize batchSize : nat) (dropMode : bool).

(** The calls of the backend so far, batch after batch. *)
Definition backend_calls (p : server) : list (backend_write Event) :=
  flat_map (processBatch decode_log decode_event) (p_batches p).

(** C9 Nothing that the pipe accepted is lost or written twice, however handlers and
    workers interleave: for every job, the lines and the events of each kind that were
    handed to the backend, with those that workers still hold and those in the pipe,
    are those of the messages that were queued; no batch is empty or larger than the
    batch size, and the pipe keeps its bound. *)
Theorem pipeline_conserves n p job : (0 < batchSize)%nat → preachable bufferSize batchSize dropMode n p →
  written_logs job (backend_calls p) ++ logs_of decode_log job (works (p_workers p) ++ p_pipe p)
    ≡ₚ logs_of decode_log job (p_queued p) ∧
  (∀ k, k ∈ write_kinds →
    written_events k job (backend_calls p) ++ kind_of decode_event k job (works (p_workers p) ++ p_pipe p)
      ≡ₚ kind_of decode_event k job (p_queued p)) ∧
  Forall (λ b, b ≠ [] ∧ (length b ≤ batchSize)%nat) (p_batches p) ∧ (length (p_pipe p) ≤ bufferSize)%nat.
Proof.
  intros Hb Hp. destruct (pinv_reachable bufferSize batchSize dropMode Hb n p Hp) as [H1 H2 _ H4 _].
  unfold backend_calls. split_and!; [| |done|done].
  - rewrite batches_logs, <- logs_of_app. symmetry. unfold logs_of. by rewrite H1.
  - intros k Hk. rewrite batches_events, <- kind_of_app by done. symmetry. unfold kind_of. by rewrite H1.
Qed.

(** With a single worker the order is kept too: the lines of a job reach the
    backend in the order in which they were queued, and those that have not yet
    reached it are the last. *)
Theorem one_worker_in_order p job : preachable bufferSize batchSize dropMode 1 p →
  ∃ rest, written_logs job (backend_calls p) ++ rest = logs_of decode_log job (p_queued p).
Proof.
  intros (s & _ & Hq)%single_reachable. exists (logs_of decode_log job (held s ++ p_pipe p)).
  unfold backend_calls. by rewrite batches_logs, <- logs_of_app, Hq.
Qed.
End promises.

(** ** Examples *)

Definition map_order : JobRange := {| job_range A m := map_to_list m; job_range_perm A m := reflexivity _ |}.

(** A line's text stands for its payload. *)
Definition text_line (d : list ascii) : option LogLine :=
  Some {| l_JobUuid := "u1"; l_Stream := SStdout; l_Timestamp := 0; l_Sequence := 0; l_Content := d |}.
Definition no_event (k : MessageType) (d : list ascii) : option unit := None.

Definition backend_text (p : server) : list (list ascii) :=
  l_Content <$> written_logs "u1" (backend_calls (H := map_order) text_line no_event p).

(** With the four workers of the default configuration, or any two, the order is
    not kept: two lines of a job, queued one after the other, are written the other
    way round when the second worker is faster. *)
Theorem two_workers_reorder : ∃ p,
  pacts 10 100 false (server_start 2)
    [PAccept 0; PReceive 0 first_log; PReceive 0 second_log; PTake 0; PTake 1; PJudge 1; PJudge 0] = Some p ∧
  l_Content <$> logs_of text_line "u1" (p_queued p) = [["a"%char]; ["b"%char]] ∧
  backend_text p = [["b"%char]; ["a"%char]].
Proof. eexists. split; [vm_compute; reflexivity|]. split; vm_compute; reflexivity. Qed.

(** Stopping the service loses what is queued and can crash it: a worker that sees
    the cancellation leaves although the pipe is not empty, and a handler that
    receives a message after the pipe was closed panics. *)
Theorem stop_loses_and_panics : ∃ p,
  pacts 10 100 false (server_start 1)
    [PAccept 0; PReceive 0 first_log; PCancel; PStopped 0; PClose; PReceive 0 second_log] = Some p ∧
  p_workers p !! 0%nat = Some WGone ∧ p_pipe p = [first_log] ∧ p_batches p = [] ∧ p_panicked p = true.
Proof. eexists. split; [vm_compute; reflexivity|]. split_and!; vm_compute; reflexivity. Qed.

Definition two_lines_run : list paction :=
  [PAccept 0; PReceive 0 first_log; PTake 0; PReceive 0 second_log; PJudge 0; PTake 0; PJudge 0].
Definition two_lines : option server := pacts 10 100 false (server_start 1) two_lines_run.

Lemma two_lines_reachable p : two_lines = Some p → preachable 10 100 false 1 p.
Proof. unfold two_lines. intros E. exists two_lines_run. exact E. Qed.

Lemma pipeline_conserves_witness : ∃ p, two_lines = Some p ∧
  written_logs "u1" (backend_calls (H := map_order) text_line no_event p) ++
    logs_of text_line "u1" (works (p_workers p) ++ p_pipe p) ≡ₚ logs_of text_line "u1" (p_queued p).
Proof.
  destruct two_lines as [p|] eqn:E; [|exfalso; revert E; vm_compute; discriminate].
  exists p. split; [done|].
  exact (proj1 (pipeline_conserves (H := map_order) text_line no_event 10 100 false 1 p "u1"
    ltac:(lia) (two_lines_reachable p E))).
Defined.

Lemma one_worker_in_order_witness : ∃ p, two_lines = Some p ∧ backend_text p = [["a"%char]; ["b"%char]] ∧
  ∃ rest, written_logs "u1" (backend_calls (H := map_order) text_line no_event p) ++ rest =
          logs_of text_line "u1" (p_queued p).
Proof.
  destruct two_lines as [p|] eqn:E; [|exfalso; revert E; vm_compute; discriminate].
  exists p. split; [done|]. split.
  - assert (Hb : match two_lines with Some p => backend_text p = [["a"%char]; ["b"%char]] | None => False end)
      by (vm_compute; reflexivity). by rewrite E in Hb.
  - exact (one_worker_in_order (H := map_order) text_line no_event 10 100 false p "u1" (two_lines_reachable p E)).
Defined.
