(* ===== verification/ConnPool.v ===== *)
(** * The connection pool of the state client (internal/joblet/state/pool.go)

    Callers acquire, return and remove connections concurrently; the channel of idle
    connections, the atomic counters and the table of connections in use are the
    shared state.  What one call does between two points where it may wait, or where
    what it saw may have changed before it acts on it (a slot reserved and the dial, the
    check that the pool is open and the send), is one step. *)

From S2P Require Import Prelude.

Local Open Scope Z_scope.

(** ** State *)

(** Where a call is: in [Get] before its select, with a slot reserved and dialing,
    over the limit and about to give its increment back, waiting for a connection,
    holding one, or in [Put] before the send, when the pool was still open.
    [src/internal/joblet/state/pool.go ConnectionPool.Get] *)
Inductive caller :=
| GAsk | GReserved | GOver | GWaiting | GHolds (c : nat) | GPutting (c : nat).

(** Connections are numbered in the order of their creation; [c_sockets] are open.  The atomic
    32-bit counters are integers: they stay between the numbers of callers.
    [src/internal/joblet/state/pool.go ConnectionPool] *)
Record pool := {
  c_idle : list nat; c_chanClosed : bool; c_closed : bool; c_panicked : bool;
  c_total : Z; c_active : Z; c_inUse : gset nat; c_next : nat; c_sockets : gset nat;
  c_callers : gmap nat caller;
}.

(** [src/internal/joblet/state/pool.go NewConnectionPoolWithConfig] *)
Definition NewConnectionPool : pool :=
  {| c_idle := []; c_chanClosed := false; c_closed := false; c_panicked := false; c_total := 0; c_active := 0;
     c_inUse := ∅; c_next := 0; c_sockets := ∅; c_callers := ∅ |}.

Definition with_callers (cs : gmap nat caller) (p : pool) : pool :=
  {| c_idle := c_idle p; c_chanClosed := c_chanClosed p; c_closed := c_closed p; c_panicked := c_panicked p;
     c_total := c_total p; c_active := c_active p; c_inUse := c_inUse p; c_next := c_next p;
     c_sockets := c_sockets p; c_callers := cs |}.
Definition with_total (t : Z) (p : pool) : pool :=
  {| c_idle := c_idle p; c_chanClosed := c_chanClosed p; c_closed := c_closed p; c_panicked := c_panicked p;
     c_total := t; c_active := c_active p; c_inUse := c_inUse p; c_next := c_next p;
     c_sockets := c_sockets p; c_callers := c_callers p |}.
Definition with_idle (l : list nat) (p : pool) : pool :=
  {| c_idle := l; c_chanClosed := c_chanClosed p; c_closed := c_closed p; c_panicked := c_panicked p;
     c_total := c_total p; c_active := c_active p; c_inUse := c_inUse p; c_next := c_next p;
     c_sockets := c_sockets p; c_callers := c_callers p |}.
Definition with_life (chanClosed closed panicked : bool) (p : pool) : pool :=
  {| c_idle := c_idle p; c_chanClosed := chanClosed; c_closed := closed; c_panicked := panicked;
     c_total := c_total p; c_active := c_active p; c_inUse := c_inUse p; c_next := c_next p;
     c_sockets := c_sockets p; c_callers := c_callers p |}.

(** A connection is tracked as in use, or no longer. *)
Definition track (c : nat) (p : pool) : pool :=
  {| c_idle := c_idle p; c_chanClosed := c_chanClosed p; c_closed := c_closed p; c_panicked := c_panicked p;
     c_total := c_total p; c_active := c_active p + 1; c_inUse := {[c]} ∪ c_inUse p; c_next := c_next p;
     c_sockets := c_sockets p; c_callers := c_callers p |}.
Definition untrack (c : nat) (p : pool) : pool :=
  {| c_idle := c_idle p; c_chanClosed := c_chanClosed p; c_closed := c_closed p; c_panicked := c_panicked p;
     c_total := c_total p; c_active := c_active p - 1; c_inUse := c_inUse p ∖ {[c]}; c_next := c_next p;
     c_sockets := c_sockets p; c_callers := c_callers p |}.

(** The socket is closed and its slot given back. *)
Definition close_conn (c : nat) (p : pool) : pool :=
  {| c_idle := c_idle p; c_chanClosed := c_chanClosed p; c_closed := c_closed p; c_panicked := c_panicked p;
     c_total := c_total p - 1; c_active := c_active p; c_inUse := c_inUse p; c_next := c_next p;
     c_sockets := c_sockets p ∖ {[c]}; c_callers := c_callers p |}.

(** A successful dial.
    [src/internal/joblet/state/pool.go ConnectionPool.createConnectionWithoutIncrement] *)
Definition open_conn (p : pool) : pool :=
  {| c_idle := c_idle p; c_chanClosed := c_chanClosed p; c_closed := c_closed p; c_panicked := c_panicked p;
     c_total := c_total p; c_active := c_active p + 1; c_inUse := {[c_next p]} ∪ c_inUse p; c_next := S (c_next p);
     c_sockets := {[c_next p]} ∪ c_sockets p; c_callers := c_callers p |}.

(** What can happen next; [healthy] answers the check of an idle connection. *)
Inductive caction :=
| CGet (g : nat) | CSelect (g : nat) (healthy : bool) | CRollback (g : nat) | CDial (g : nat) (ok : bool)
| CWake (g : nat) (healthy : bool) | CCancel (g : nat)
| CPut (g : nat) | CSend (g : nat) | CRemove (g : nat)
| CClose | CCloseChan | CDrain | CForce.

Section pool.
Variable PoolSize : nat.

(** A connection from the channel: a stale one is closed and the call starts over,
    which fails at once when the pool is closed by then.  From a closed channel
    comes nil, whose mutex panics.
    [src/internal/joblet/state/pool.go:170-200 ConnectionPool.Get] *)
Definition take_idle (g : nat) (healthy : bool) (p : pool) : option pool :=
  match c_idle p with
  | c :: idle =>
      let p := with_idle idle p in
      Some (if healthy then with_callers (<[g := GHolds c]> (c_callers p)) (track c p)
            else let p := close_conn c p in
                 with_callers (if c_closed p then delete g (c_callers p) else <[g := GAsk]> (c_callers p)) p)
  | [] => if c_chanClosed p then Some (with_life true (c_closed p) true p) else None
  end.

(** The default branch: reserve a slot before dialing.
    [src/internal/joblet/state/pool.go:205-220 ConnectionPool.Get] *)
Definition reserve (g : nat) (p : pool) : pool :=
  let p := with_total (c_total p + 1) p in
  with_callers (<[g := if c_total p <=? Z.of_nat PoolSize then GReserved else GOver]> (c_callers p)) p.

(** [src/internal/joblet/state/pool.go ConnectionPool.Put] *)
Definition put (g c : nat) (p : pool) : pool :=
  let p := untrack c p in
  if c_closed p then with_callers (delete g (c_callers p)) (close_conn c p)
  else with_callers (<[g := GPutting c]> (c_callers p)) p.

(** [src/internal/joblet/state/pool.go:315-324 ConnectionPool.Put] *)
Definition put_send (g c : nat) (p : pool) : pool :=
  if c_chanClosed p then with_life true (c_closed p) true p
  else if (length (c_idle p) <? PoolSize)%nat
  then with_callers (delete g (c_callers p)) (with_idle (c_idle p ++ [c]) p)
  else with_callers (delete g (c_callers p)) (close_conn c p).

(** [src/internal/joblet/state/pool.go ConnectionPool.Remove] *)
Definition Remove (g c : nat) (p : pool) : pool :=
  with_callers (delete g (c_callers p)) (close_conn c (untrack c p)).

(** What remains in use after the wait is closed under its users.
    [src/internal/joblet/state/pool.go:414-427 ConnectionPool.Close] *)
Definition force_close (p : pool) : pool :=
  {| c_idle := c_idle p; c_chanClosed := c_chanClosed p; c_closed := c_closed p; c_panicked := c_panicked p;
     c_total := c_total p - Z.of_nat (size (c_inUse p)); c_active := c_active p - Z.of_nat (size (c_inUse p));
     c_inUse := ∅; c_next := c_next p; c_sockets := c_sockets p ∖ c_inUse p; c_callers := c_callers p |}.

(** One step, when it is possible. *)
Definition cact (p : pool) (a : caction) : option pool :=
  match a with
  | CGet g => match c_callers p !! g with
              | None => if c_closed p then None else Some (with_callers (<[g := GAsk]> (c_callers p)) p)
              | Some _ => None end
  | CSelect g healthy => match c_callers p !! g with
                         | Some GAsk => match take_idle g healthy p with
                                        | Some p' => Some p' | None => Some (reserve g p) end
                         | _ => None end
  | CRollback g => match c_callers p !! g with
                   | Some GOver => Some (with_callers (<[g := GWaiting]> (c_callers p)) (with_total (c_total p - 1) p))
                   | _ => None end
  | CDial g ok => match c_callers p !! g with
                  | Some GReserved =>
                      Some (if ok then with_callers (<[g := GHolds (c_next p)]> (c_callers p)) (open_conn p)
                            else with_callers (delete g (c_callers p)) (with_total (c_total p - 1) p))
                  | _ => None end
  | CWake g healthy => match c_callers p !! g with Some GWaiting => take_idle g healthy p | _ => None end
  | CCancel g => match c_callers p !! g with
                 | Some GAsk | Some GWaiting => Some (with_callers (delete g (c_callers p)) p) | _ => None end
  | CPut g => match c_callers p !! g with Some (GHolds c) => Some (put g c p) | _ => None end
  | CSend g => match c_callers p !! g with Some (GPutting c) => Some (put_send g c p) | _ => None end
  | CRemove g => match c_callers p !! g with Some (GHolds c) => Some (Remove g c p) | _ => None end
  | CClose => if c_closed p then None else Some (with_life (c_chanClosed p) true (c_panicked p) p)
  | CCloseChan => if c_closed p && negb (c_chanClosed p) then Some (with_life true true (c_panicked p) p) else None
  | CDrain => match c_idle p with
              | c :: idle => if c_chanClosed p then Some (close_conn c (with_idle idle p)) else None | [] => None end
  | CForce => match c_idle p with
              | [] => if c_chanClosed p then Some (force_close p) else None | _ => None end
  end.

Fixpoint cacts (p : pool) (l : list caction) : option pool :=
  match l with [] => Some p | a :: l => p' ← cact p a; cacts p' l end.
Definition creachable (p : pool) : Prop := ∃ l, cacts NewConnectionPool l = Some p.
End pool.

(** ** Counting callers *)

Definition total_of (w : caller → Z) (m : gmap nat caller) : Z := foldr Z.add 0 (w <$> (map_to_list m).*2).
Definition weight (w : caller → Z) (o : option caller) : Z := match o with Some s => w s | None => 0 end.

Lemma total_perm w (l l' : list caller) : l ≡ₚ l' → foldr Z.add 0 (w <$> l) = foldr Z.add 0 (w <$> l').
Proof. induction 1; cbn; lia. Qed.

Lemma total_delete w m g : total_of w (delete g m) = total_of w m - weight w (m !! g).
Proof.
  destruct (m !! g) as [s|] eqn:E; cbn; [|rewrite delete_id by done; lia].
  unfold total_of. rewrite <- (total_perm w ((g, s) :: map_to_list (delete g m)).*2 (map_to_list m).*2)
    by by rewrite map_to_list_delete. cbn. lia.
Qed.

Lemma total_insert w m g s : total_of w (<[g := s]> m) = total_of w m - weight w (m !! g) + w s.
Proof.
  rewrite <- total_delete, <- insert_delete_eq. unfold total_of.
  rewrite (total_perm w _ ((g, s) :: map_to_list (delete g m)).*2)
    by by rewrite map_to_list_insert by apply lookup_delete_eq. cbn. lia.
Qed.

Lemma total_nonneg w m : (∀ s, 0 ≤ w s) → 0 ≤ total_of w m.
Proof. intros Hw. unfold total_of. induction (map_to_list m).*2 as [|s l IH]; cbn; [done|]. specialize (Hw s). lia. Qed.

Lemma total_le w w' m : (∀ s, w s ≤ w' s) → total_of w m ≤ total_of w' m.
Proof. intros Hw. unfold total_of. induction (map_to_list m).*2 as [|s l IH]; cbn; [done|]. specialize (Hw s). lia. Qed.

(** The connection a call owns. *)
Definition owns (s : caller) : option nat := match s with GHolds c | GPutting c => Some c | _ => None end.
(** It counts among the slots taken, among those of real or reserved connections,
    among the connections owned, and among the active ones. *)
Definition slot (s : caller) : Z := match s with GAsk | GWaiting => 0 | _ => 1 end.
Definition real (s : caller) : Z := match s with GReserved | GHolds _ | GPutting _ => 1 | _ => 0 end.
Definition owned (s : caller) : Z := match s with GHolds _ | GPutting _ => 1 | _ => 0 end.
Definition holding (s : caller) : Z := match s with GHolds _ => 1 | _ => 0 end.

(** ** Invariants *)

Section pool_facts.
Variable PoolSize : nat.

(** A connection is idle or belongs to one call. *)
Record excl_inv (p : pool) : Prop := {
  ei_nodup : NoDup (c_idle p);
  ei_idle : ∀ c, c ∈ c_idle p → (c < c_next p)%nat ∧ ∀ g s, c_callers p !! g = Some s → owns s ≠ Some c;
  ei_owned : ∀ g s c, c_callers p !! g = Some s → owns s = Some c → (c < c_next p)%nat;
  ei_once : ∀ g g' s s' c, c_callers p !! g = Some s → c_callers p !! g' = Some s' →
    owns s = Some c → owns s' = Some c → g = g';
}.

(** Steps that change no owner, or take one away. *)
Lemma excl_callers p p' : excl_inv p → c_next p' = c_next p → sublist (c_idle p') (c_idle p) →
  (∀ g s c, c_callers p' !! g = Some s → owns s = Some c →
     ∃ s0, c_callers p !! g = Some s0 ∧ owns s0 = Some c) → excl_inv p'.
Proof.
  intros [H1 H2 H3 H4] Hn Hi Hc. split.
  - by eapply sublist_NoDup.
  - intros c Hin. eapply elem_of_sublist in Hin; [|exact Hi]. destruct (H2 c Hin) as [Hlt Ho]. rewrite Hn. split; [done|].
    intros g s Hs E. destruct (Hc g s c Hs E) as (s0 & Hs0 & E0). by eapply Ho.
  - intros g s c Hs E. rewrite Hn. destruct (Hc g s c Hs E) as (s0 & Hs0 & E0). by eapply H3.
  - intros g g' s s' c Hs Hs' E E'. destruct (Hc g s c Hs E) as (s0 & Hs0 & E0), (Hc g' s' c Hs' E') as (s1 & Hs1 & E1).
    by eapply H4.
Qed.

Lemma excl_take p p' g s c : excl_inv p → c_idle p = c :: c_idle p' → c_next p' = c_next p →
  c_callers p' = <[g := s]> (c_callers p) → owns s = Some c → excl_inv p'.
Proof.
  intros [H1 H2 H3 H4] Hi Hn Hc Hs. rewrite Hi in H1, H2. apply NoDup_cons in H1 as [Hni H1].
  destruct (H2 c ltac:(by left)) as [Hlt Hfree].
  assert (Hcases : ∀ g' s' c', c_callers p' !! g' = Some s' → owns s' = Some c' →
    (g' = g ∧ c' = c) ∨ (g' ≠ g ∧ c_callers p !! g' = Some s' ∧ c' ≠ c)).
  { intros g' s' c' E Eo. rewrite Hc in E. apply lookup_insert_Some in E as [[<- <-]|[Hne E]]; [left; split; congruence|].
    right. split_and!; [done|done|]. intros ->. by eapply Hfree. }
  split; [done| | |].
  - intros c' Hin. rewrite Hn. destruct (H2 c' ltac:(by right)) as [Hlt' Hf]. split; [done|].
    intros g' s' E Eo. destruct (Hcases g' s' c' E Eo) as [[-> ->]|(_ & E' & _)]; [done|by eapply Hf].
  - intros g' s' c' E Eo. rewrite Hn. destruct (Hcases g' s' c' E Eo) as [[-> ->]|(_ & E' & _)]; [done|by eapply H3].
  - intros g1 g2 s1 s2 c' E1 E2 O1 O2.
    destruct (Hcases g1 s1 c' E1 O1) as [[? ?]|(_ & E1' & Hne)], (Hcases g2 s2 c' E2 O2) as [[? ?]|(_ & E2' & ?)];
      try congruence. by eapply H4.
Qed.

Lemma excl_give p p' g s c : excl_inv p → c_callers p !! g = Some s → owns s = Some c →
  c_idle p' = c_idle p ++ [c] → c_next p' = c_next p → c_callers p' = delete g (c_callers p) → excl_inv p'.
Proof.
  intros [H1 H2 H3 H4] Hg Hs Hi Hn Hc.
  assert (Hcases : ∀ g' s', c_callers p' !! g' = Some s' → g' ≠ g ∧ c_callers p !! g' = Some s').
  { intros g' s' E. rewrite Hc in E. by apply lookup_delete_Some in E as [? ?]. }
  split.
  - rewrite Hi. apply NoDup_app. split_and!; [done| |apply NoDup_singleton].
    intros c' Hin ->%list_elem_of_singleton. destruct (H2 c Hin) as [_ Hf]. by eapply Hf.
  - intros c' Hin. rewrite Hn. rewrite Hi in Hin. apply elem_of_app in Hin as [Hin|Hin]; [|apply list_elem_of_singleton in Hin as ->].
    + destruct (H2 c' Hin) as [Hlt Hf]. split; [done|]. intros g' s' [_ E]%Hcases. by eapply Hf.
    + split; [by eapply H3|]. intros g' s' [Hne E]%Hcases Eo. apply Hne. by eapply H4.
  - intros g' s' c' [_ E]%Hcases Eo. rewrite Hn. by eapply H3.
  - intros g1 g2 s1 s2 c' [_ E1]%Hcases [_ E2]%Hcases. by eapply H4.
Qed.

Lemma excl_open p p' g s : excl_inv p → c_idle p' = c_idle p → c_next p' = S (c_next p) →
  c_callers p' = <[g := s]> (c_callers p) → owns s = Some (c_next p) → excl_inv p'.
Proof.
  intros [H1 H2 H3 H4] Hi Hn Hc Hs.
  assert (Hcases : ∀ g' s' c', c_callers p' !! g' = Some s' → owns s' = Some c' →
    (g' = g ∧ c' = c_next p) ∨ (c_callers p !! g' = Some s' ∧ (c' < c_next p)%nat)).
  { intros g' s' c' E Eo. rewrite Hc in E. apply lookup_insert_Some in E as [[<- <-]|[Hne E]]; [left; split; congruence|].
    right. split; [done|by eapply H3]. }
  split; [by rewrite Hi| | |].
  - intros c' Hin. rewrite Hi in Hin. rewrite Hn. destruct (H2 c' Hin) as [Hlt Hf]. split; [lia|].
    intros g' s' E Eo. destruct (Hcases g' s' c' E Eo) as [[-> ->]|[E' _]]; [lia|by eapply Hf].
  - intros g' s' c' E Eo. rewrite Hn. destruct (Hcases g' s' c' E Eo) as [[-> ->]|[_ ?]]; lia.
  - intros g1 g2 s1 s2 c' E1 E2 O1 O2.
    destruct (Hcases g1 s1 c' E1 O1) as [[? ?]|[E1' ?]], (Hcases g2 s2 c' E2 O2) as [[? ?]|[E2' ?]]; try congruence; try lia.
    by eapply H4.
Qed.

(** A call moves to a state that owns nothing it did not own, or ends. *)
Lemma excl_move p p' g : excl_inv p → c_next p' = c_next p → sublist (c_idle p') (c_idle p) →
  (∀ g', g' ≠ g → c_callers p' !! g' = c_callers p !! g') →
  (∀ s c, c_callers p' !! g = Some s → owns s = Some c → ∃ s0, c_callers p !! g = Some s0 ∧ owns s0 = Some c) →
  excl_inv p'.
Proof.
  intros Hp Hn Hi Ho Hg. eapply excl_callers; [exact Hp|done|done|]. intros g' s c E Eo.
  destruct (decide (g' = g)) as [->|Hne]; [by eapply Hg|]. rewrite Ho in E by done. by exists s.
Qed.

Ltac moved g := eapply (excl_move _ _ g); [eassumption|done| | |]; cbn;
  [reflexivity|intros ? ?; by simplify_map_eq
  |intros ? ? ? ?; simplify_map_eq; try done; eauto].

Lemma excl_take_idle p g healthy p' s0 : excl_inv p → c_callers p !! g = Some s0 → owns s0 = None →
  take_idle g healthy p = Some p' → excl_inv p'.
Proof.
  intros Hp Hg Ho. unfold take_idle. destruct (c_idle p) as [|c l] eqn:Ei.
  { destruct (c_chanClosed p); [|done]. intros [= <-]. by eapply (excl_callers p); eauto. }
  intros [= <-]. destruct healthy; [by eapply excl_take|].
  destruct (c_closed _); (eapply (excl_move p _ g); [exact Hp|done|cbn; rewrite Ei; by apply sublist_cons| |]); cbn;
    [intros ? ?|intros ? ? ? ?|intros ? ?|intros ? ? ? ?]; by simplify_map_eq.
Qed.

Lemma pool_excl_step p a p' : excl_inv p → cact PoolSize p a = Some p' → excl_inv p'.
Proof.
  intros Hp E. destruct a as [g|g healthy|g|g ok|g healthy|g|g|g|g| | | |]; cbn [cact] in E;
    try (destruct (c_callers p !! g) as [[]|] eqn:Hg; try done).
  all: idtac.
  - destruct (c_closed p); [done|]. injection E as <-. moved g.
  - destruct (take_idle g healthy p) as [q|] eqn:Et; injection E as <-; [by eapply excl_take_idle|].
    unfold reserve. moved g. by destruct (_ <=? _).
  - injection E as <-. moved g.
  - injection E as <-. destruct ok; [by eapply excl_open|]. moved g.
  - by eapply excl_take_idle.
  - injection E as <-. moved g.
  - injection E as <-. moved g.
  - injection E as <-. unfold put. destruct (c_closed _); moved g.
  - injection E as <-. unfold put_send. destruct (c_chanClosed p); [by eapply (excl_callers p); eauto|].
    destruct (_ <? _)%nat; [by eapply excl_give|]. moved g.
  - injection E as <-. unfold Remove. moved g.
  - destruct (c_closed p); [done|]. injection E as <-. by eapply (excl_callers p); eauto.
  - destruct (_ && _); [|done]. injection E as <-. by eapply (excl_callers p); eauto.
  - destruct (c_idle p) as [|c l] eqn:Ei; [done|]. destruct (c_chanClosed p); [|done]. injection E as <-.
    eapply (excl_callers p); [exact Hp|done|cbn; rewrite Ei; by apply sublist_cons|eauto].
  - destruct (c_idle p) as [|] eqn:Ei; [|done]. destruct (c_chanClosed p); [|done]. injection E as <-.
    by eapply (excl_callers p); eauto.
Qed.

(** While the pool is open: the counters are those of the callers, and connections
    that exist or are being made stay within the size of the pool. *)
Record count_inv (p : pool) : Prop := {
  ct_chan : c_chanClosed p = true → c_closed p = true;
  ct_counts : c_closed p = false →
    c_total p = Z.of_nat (length (c_idle p)) + total_of slot (c_callers p) ∧
    Z.of_nat (length (c_idle p)) + total_of real (c_callers p) ≤ Z.of_nat PoolSize ∧
    c_active p = total_of holding (c_callers p);
}.

Lemma closed_step p a p' : cact PoolSize p a = Some p' → c_closed p = true → c_closed p' = true.
Proof.
  intros E Hc. destruct a; cbn [cact] in E; unfold take_idle, reserve, put, put_send, Remove, force_close in E;
    repeat case_match; simplify_eq; cbn in *; congruence.
Qed.

Lemma chan_step p a p' : (c_chanClosed p = true → c_closed p = true) → cact PoolSize p a = Some p' →
  c_chanClosed p' = true → c_closed p' = true.
Proof.
  intros Hc E. destruct a; cbn [cact] in E; unfold take_idle, reserve, put, put_send, Remove, force_close in E;
    repeat case_match; simplify_eq; cbn in *; intros; by intuition congruence.
Qed.

Lemma real_slot m : total_of real m ≤ total_of slot m.
Proof. apply total_le. by intros []. Qed.

Lemma count_step p a p' : count_inv p → cact PoolSize p a = Some p' → count_inv p'.
Proof.
  intros [Hchan Hcnt] E. split; [by eapply chan_step|]. intros Hopen.
  assert (Ho : c_closed p = false).
  { destruct (c_closed p) eqn:Ec; [|done]. pose proof (closed_step p a p' E Ec). congruence. }
  destruct (Hcnt Ho) as (H1 & H2 & H3).
  assert (Hch : c_chanClosed p = false) by (destruct (c_chanClosed p); [by rewrite Hchan in Ho|done]).
  pose proof (real_slot (c_callers p)) as Hrs. clear Hcnt Hchan.
  destruct a as [g|g healthy|g|g ok|g healthy|g|g|g|g| | | |]; cbn [cact] in E;
    unfold take_idle, reserve, put, put_send, Remove in E; cbn in E; rewrite ?Ho, ?Hch in E; cbn in E;
    repeat case_match; simplify_eq; cbn in *; rewrite ?Ho in *; try done;
    rewrite ?total_insert, ?total_delete;
    repeat match goal with E : c_callers p !! _ = _ |- _ => rewrite !E; clear E
                         | E : c_idle p = _ |- _ => rewrite E in *; clear E
                         | E : (_ <=? _) = true |- _ => apply Z.leb_le in E
                         | E : (_ <? _)%nat = false |- _ => apply Nat.ltb_ge in E end;
    rewrite ?length_app; cbn [weight slot real holding length] in *; try (split_and!; lia).
Qed.

(** Every open socket is idle or somebody's. *)
Definition homed (p : pool) (c : nat) : Prop :=
  c ∈ c_idle p ∨ ∃ g s, c_callers p !! g = Some s ∧ owns s = Some c.
Definition leak_inv (p : pool) : Prop := c_closed p = false → ∀ c, c ∈ c_sockets p → homed p c.

(** What a call owned is idle, closed or still its own after the step. *)
Lemma leak_change p p' g : leak_inv p → c_closed p = false →
  (∀ c, c ∈ c_sockets p' → c ∈ c_sockets p ∨ homed p' c) →
  (∀ c, c ∈ c_sockets p' → c ∈ c_idle p → homed p' c) →
  (∀ g', g' ≠ g → c_callers p' !! g' = c_callers p !! g') →
  (∀ s c, c ∈ c_sockets p' → c_callers p !! g = Some s → owns s = Some c → homed p' c) → leak_inv p'.
Proof.
  intros Hp Ho Hs Hi Hc Hg _ c Hin. destruct (Hs c Hin) as [Hin'|]; [|done].
  destruct (Hp Ho c Hin') as [Hidle|(g' & s & E & Eo)]; [by apply Hi|].
  destruct (decide (g' = g)) as [->|Hne]; [by eapply Hg|]. right. exists g', s. by rewrite Hc.
Qed.

(** Membership after a step of the call [g]. *)
Ltac leak_tac g :=
  intros; simplify_map_eq;
  rewrite ?elem_of_difference, ?elem_of_union, ?elem_of_singleton, ?elem_of_cons, ?elem_of_app, ?elem_of_nil in *;
  destruct_and?; destruct_or?; simplify_eq; try done;
  first [by auto 6 | right; exists g; eexists; by rewrite lookup_insert_eq
        | right; right; exists g; eexists; by rewrite lookup_insert_eq | tauto].

Lemma leak_step p a p' : count_inv p → leak_inv p → cact PoolSize p a = Some p' → leak_inv p'.
Proof.
  intros [Hchan _] Hp E. destruct (c_closed p) eqn:Ho.
  { intros Hopen. pose proof (closed_step p a p' E Ho). congruence. }
  assert (Hch : c_chanClosed p = false) by (destruct (c_chanClosed p); [by rewrite Hchan|done]).
  clear Hchan. destruct a as [g|g healthy|g|g ok|g healthy|g|g|g|g| | | |]; cbn [cact] in E;
    unfold take_idle, reserve, put, put_send, Remove in E; cbn in E; rewrite ?Ho, ?Hch in E; cbn in E;
    repeat case_match; simplify_eq; try done;
    try (by intros Hopen; cbn in Hopen; congruence);
    (eapply (leak_change p _ g); [exact Hp|exact Ho| | | |]); unfold homed; cbn;
    repeat match goal with E : c_idle p = _ |- _ => rewrite E in *; clear E end.
  all: try match goal with g : nat |- _ => leak_tac g end.
  intros s c _ E Eo. left. simplify_map_eq. set_solver.
Qed.

Record pool_inv (p : pool) : Prop := { pv_excl : excl_inv p; pv_count : count_inv p; pv_leak : leak_inv p }.

Lemma pool_reachable p : creachable PoolSize p → pool_inv p.
Proof.
  intros [l Hl]. assert (pool_inv NewConnectionPool) as Hi.
  { split; [split|split|].
    - constructor.
    - by intros c Hc%not_elem_of_nil.
    - by intros g s c Hg.
    - by intros g g' s s' c Hg.
    - done.
    - intros _. change (0 = 0 ∧ 0 ≤ Z.of_nat PoolSize ∧ 0 = 0). lia.
    - intros _ c Hc. cbn in Hc. set_solver. }
  revert Hl Hi. generalize NewConnectionPool. induction l as [|a l IH]; cbn; intros p0 Hl Hi; [by simplify_eq|].
  apply bind_Some in Hl as (p1 & H1 & Hl). apply (IH _ Hl). destruct Hi.
  split; [by eapply pool_excl_step|by eapply count_step|by eapply leak_step].
Qed.

(** The owners of connections, as a list. *)
Definition owned_list (p : pool) : list nat := omap owns (map_to_list (c_callers p)).*2.

Lemma owned_length p : Z.of_nat (length (owned_list p)) ≤ total_of real (c_callers p).
Proof.
  unfold owned_list, total_of. induction (map_to_list (c_callers p)).*2 as [|s l IH]; [done|].
  destruct s; cbn in *; lia.
Qed.

Lemma size_of_list (l : list nat) : (size (list_to_set l : gset nat) ≤ length l)%nat.
Proof.
  induction l as [|c l IH]; cbn; [by rewrite size_empty|].
  rewrite size_union_alt, size_singleton.
  assert (size ((list_to_set l : gset nat) ∖ {[c]}) ≤ size (list_to_set l : gset nat))%nat by (apply subseteq_size; set_solver). lia.
Qed.

Lemma homed_elem p c : homed p c → c ∈ c_idle p ++ owned_list p.
Proof.
  intros [Hc|(g & s & Hg & Hs)]; apply elem_of_app; [by left|right].
  unfold owned_list. apply list_elem_of_omap. exists s. split; [|done]. apply list_elem_of_fmap. exists (g, s).
  split; [done|]. by apply elem_of_map_to_list.
Qed.

(** C31 However acquisitions, returns, removals, dials and cancellations interleave, a
    connection is idle or belongs to one call, never to two; and while the pool is open
    no more sockets are open than its size, none of them is lost, the total counter is
    the number of idle connections and of slots taken, and the active counter that of
    the calls that hold a connection. *)
Theorem pool_exclusive_and_bounded p : creachable PoolSize p →
  (∀ g g' s s' c, c_callers p !! g = Some s → c_callers p !! g' = Some s' →
     owns s = Some c → owns s' = Some c → g = g') ∧
  (∀ g s c, c_callers p !! g = Some s → owns s = Some c → c ∉ c_idle p) ∧ NoDup (c_idle p) ∧
  (c_closed p = false →
     (size (c_sockets p) ≤ PoolSize)%nat ∧ (∀ c, c ∈ c_sockets p → homed p c) ∧
     c_total p = Z.of_nat (length (c_idle p)) + total_of slot (c_callers p) ∧
     c_active p = total_of holding (c_callers p)).
Proof.
  intros [[E1 E2 E3 E4] [_ Hc] Hl]%pool_reachable. split_and!; [done| |done|].
  - intros g s c Hg Hs Hin. destruct (E2 c Hin) as [_ Hf]. by eapply Hf.
  - intros Ho. destruct (Hc Ho) as (H1 & H2 & H3). split_and!; [|by apply Hl|done|done].
    assert (c_sockets p ⊆ list_to_set (c_idle p ++ owned_list p)) as Hsub.
    { intros c Hin. apply elem_of_list_to_set, homed_elem, Hl; done. }
    apply subseteq_size in Hsub. pose proof (size_of_list (c_idle p ++ owned_list p)) as Hs.
    rewrite length_app in Hs. pose proof (owned_length p). lia.
Qed.
End pool_facts.

(** ** Calls that never return and calls that crash *)

(** Two callers of a pool of size one: the second waits while the first holds the
    connection, and the first removes it, because it broke. *)
Definition broken_under_wait : list caction :=
  [CGet 0; CSelect 0 true; CDial 0 true; CGet 1; CSelect 1 true; CRollback 1; CRemove 0].

(** A call that waits for a connection is not woken when one is removed: the pool
    then has no connection and room for one, but the waiting call can only be
    cancelled, the pool be closed, or another caller come; nothing else can happen. *)
Theorem waiter_starves : ∃ p, cacts 1 NewConnectionPool broken_under_wait = Some p ∧
  c_callers p = {[1%nat := GWaiting]} ∧ c_total p = 0 ∧ c_sockets p = ∅ ∧ c_closed p = false ∧
  ∀ a, is_Some (cact 1 p a) → a = CCancel 1 ∨ a = CClose ∨ ∃ g, a = CGet g.
Proof.
  eexists. split; [vm_compute; reflexivity|]. split_and!; try (vm_compute; reflexivity).
  intros a [p' E]. destruct a as [g|g h|g|g ok|g h|g|g|g|g| | | |]; eauto; cbn [cact c_callers] in E.
  all: try match goal with g : nat |- _ => destruct (decide (g = 1%nat)) as [->|Hne];
    [vm_compute in E; simplify_eq; eauto
    |match type of E with match ?m !! g with _ => _ end = _ =>
       replace (m !! g) with (@None caller) in E by (symmetry; change m with ({[1%nat := GWaiting]} : gmap nat caller);
         by rewrite lookup_singleton_ne) end; done] end.
  all: by vm_compute in E.
Qed.

(** Closing the pool crashes calls in flight: one that waits receives nil from the
    closed channel and uses it, and one that returns its connection, having found the
    pool open, sends on the closed channel. *)
Theorem close_crashes_calls :
  (∃ p, cacts 1 NewConnectionPool
     [CGet 0; CSelect 0 true; CDial 0 true; CGet 1; CSelect 1 true; CRollback 1; CClose; CCloseChan; CWake 1 true] = Some p ∧
     c_panicked p = true) ∧
  (∃ p, cacts 1 NewConnectionPool
     [CGet 0; CSelect 0 true; CDial 0 true; CPut 0; CClose; CCloseChan; CSend 0] = Some p ∧ c_panicked p = true).
Proof. split; (eexists; split; [vm_compute; reflexivity|done]). Qed.

(** A forced close is counted twice, once more when the user lets go. *)
Example forced_close_counts_twice : ∃ p, cacts 1 NewConnectionPool
  [CGet 0; CSelect 0 true; CDial 0 true; CClose; CCloseChan; CForce; CPut 0] = Some p ∧
  c_total p = -1 ∧ c_active p = -1.
Proof. eexists. split; [vm_compute; reflexivity|done]. Qed.

Definition reused : option pool :=
  cacts 2 NewConnectionPool [CGet 0; CSelect 0 true; CDial 0 true; CPut 0; CSend 0; CGet 1; CSelect 1 true].

Lemma pool_exclusive_and_bounded_witness : ∃ p, reused = Some p ∧ (size (c_sockets p) ≤ 2)%nat.
Proof.
  destruct reused as [p|] eqn:E; [|exfalso; revert E; vm_compute; discriminate].
  exists p. split; [done|].
  assert (Ho : match reused with Some p => c_closed p = false | None => False end) by (vm_compute; reflexivity).
  rewrite E in Ho. unfold reused in E.
  destruct (pool_exclusive_and_bounded 2 p ltac:(eexists; exact E)) as (_ & _ & _ & H). by apply H.
Defined.
