(* ===== verification/StateBackend.v ===== *)
(** * The stores of the state service (state/internal/storage: interface.go,
      memory.go, local.go)

    The service receives jobs as JSON, so what it stores shares nothing with its
    callers and jobs are values here.  The memory store is a map; the local one is the
    same map, saved now and then to one file, from which it starts again.  What the
    request handler needs of either is the class [StateBackend]. *)

From S2P Require Import Prelude GoStrings Values Paths Job.
From Stdlib Require Import Ascii String.

Local Open Scope Z_scope.

(** ** Errors and filters *)

(** [SaveError] stands for the errors [saveToDisk] makes.
    [src/state/internal/storage/interface.go:86-92 StorageError] *)
Inductive storage_error := ErrJobNotFound | ErrJobAlreadyExists | SaveError (msg : string).

(** [src/state/internal/storage/interface.go StorageError.Error] *)
Definition Error (e : storage_error) : string :=
  match e with
  | ErrJobNotFound => "job not found"
  | ErrJobAlreadyExists => "job already exists"
  | SaveError msg => msg
  end.

(** [src/state/internal/storage/interface.go Filter] *)
Record Filter := {
  f_Status : string; f_NodeID : string; f_Limit : Z; f_SortBy : string; f_SortDesc : bool;
  f_Statuses : list string;
}.

(** [src/state/internal/storage/memory.go matchesFilter] *)
Definition matchesFilter (filter : option Filter) (job : Job) : bool :=
  match filter with
  | None => true
  | Some f =>
      (if negb (bool_decide (f_Statuses f = [])) then existsb (λ status, bool_decide (Status job = status)) (f_Statuses f)
       else if negb (bool_decide (f_Status f = ""%string)) then bool_decide (Status job = f_Status f) else true)
      && (bool_decide (f_NodeID f = ""%string) || bool_decide (NodeId job = f_NodeID f))
  end.

(** [src/state/internal/storage/memory.go:173-182 sortJobs] *)
Definition job_less (sortBy : string) (a b : Job) : bool :=
  if bool_decide (sortBy = "status"%string) then string_less (Status a) (Status b)
  else StartTime a <? StartTime b.

(** [src/state/internal/storage/memory.go sortJobs] *)
Definition sort_less (sortBy : string) (descending : bool) (a b : Job) : bool :=
  if descending then negb (job_less sortBy a b) else job_less sortBy a b.
Definition sortJobs `{!SortSlice} (sortBy : string) (descending : bool) (jobs : list Job) : list Job :=
  sort_slice (sort_less sortBy descending) jobs.

(** [visited] are the jobs in the order the range over the map visits them.
    [src/state/internal/storage/memory.go memoryBackend.List] *)
Definition list_jobs `{!SortSlice} (filter : option Filter) (visited : list Job) : list Job :=
  let result := List.filter (matchesFilter filter) visited in
  match filter with
  | None => result
  | Some f =>
      let result := if bool_decide (f_SortBy f = ""%string) then result else sortJobs (f_SortBy f) (f_SortDesc f) result in
      if (f_Limit f >? 0) && (Z.of_nat (List.length result) >? f_Limit f) then take (Z.to_nat (f_Limit f)) result else result
  end.

(** ** The memory store *)

Abbreviation jobmap := (gmap string Job).

(** [src/state/internal/storage/memory.go memoryBackend.Create] *)
Definition Create (now : Z) (job : Job) (m : jobmap) : result storage_error jobmap :=
  match m !! Uuid job with
  | Some _ => Err ErrJobAlreadyExists
  | None => Ok (<[Uuid job := if StartTime job =? 0 then with_StartTime job now else job]> m)
  end.

(** [src/state/internal/storage/memory.go memoryBackend.Get] *)
Definition Get (jobID : string) (m : jobmap) : result storage_error Job :=
  match m !! jobID with Some job => Ok job | None => Err ErrJobNotFound end.

(** [src/state/internal/storage/memory.go memoryBackend.Update] *)
Definition Update (job : Job) (m : jobmap) : result storage_error jobmap :=
  match m !! Uuid job with Some _ => Ok (<[Uuid job := job]> m) | None => Err ErrJobNotFound end.

(** [src/state/internal/storage/memory.go memoryBackend.Delete] *)
Definition Delete (jobID : string) (m : jobmap) : result storage_error jobmap :=
  match m !! jobID with Some _ => Ok (delete jobID m) | None => Err ErrJobNotFound end.

(** [src/state/internal/storage/memory.go memoryBackend.Sync] *)
Definition Sync (jobs : list Job) : jobmap := foldl (λ m job, <[Uuid job := job]> m) ∅ jobs.

(** ** What the request handler sees *)

(** What a call meets outside: the clock, the order of a range over the jobs, and
    what writing the file comes to. *)
Record world := { w_now : Z; w_order : list Job; w_io : result string unit }.

(** [src/state/internal/storage/interface.go Backend] *)
Class StateBackend (St : Type) := {
  view : St → jobmap;
  sb_Create : world → Job → St → result storage_error unit * St;
  sb_Get : string → St → result storage_error Job;
  sb_Update : Job → St → result storage_error unit * St;
  sb_Delete : string → St → result storage_error unit * St;
  sb_List : ∀ `{!SortSlice}, world → option Filter → St → list Job;
  sb_Sync : world → list Job → St → result storage_error unit * St;
}.

(** The outcome of an operation of the memory store, kept or left. *)
Definition settle {St} (keep : jobmap → St) (s : St) (r : result storage_error jobmap) : result storage_error unit * St :=
  match r with Ok m => (Ok tt, keep m) | Err e => (Err e, s) end.

(** A backend that holds its jobs as the memory store does; a synchronisation
    replaces them even when it reports an error. *)
Class LawfulState (St : Type) `{!StateBackend St} : Prop := {
  sbl_create : ∀ w j s, let '(r, s') := sb_Create w j s in (r, view s') = settle id (view s) (Create (w_now w) j (view s));
  sbl_update : ∀ j s, let '(r, s') := sb_Update j s in (r, view s') = settle id (view s) (Update j (view s));
  sbl_delete : ∀ k s, let '(r, s') := sb_Delete k s in (r, view s') = settle id (view s) (Delete k (view s));
  sbl_get : ∀ k s, sb_Get k s = Get k (view s);
  sbl_list : ∀ `{!SortSlice} w f s, sb_List w f s = list_jobs f (w_order w);
  sbl_sync : ∀ w jobs s, view (sb_Sync w jobs s).2 = Sync jobs;
}.

#[export] Instance memory_backend : StateBackend jobmap := {|
  view m := m;
  sb_Create w j m := settle id m (Create (w_now w) j m);
  sb_Get := Get;
  sb_Update j m := settle id m (Update j m);
  sb_Delete k m := settle id m (Delete k m);
  sb_List := λ _ w f _, list_jobs f (w_order w);
  sb_Sync _ jobs _ := (Ok tt, Sync jobs);
|}.

#[export] Instance memory_lawful : LawfulState jobmap.
Proof.
  split; try done; intros; unfold sb_Create, sb_Update, sb_Delete, memory_backend, settle; by case_match.
Qed.

(** ** The JSON image of a job *)

(** What a job decoded from its own encoding has: the exported fields.  The limits are
    structures whose only fields are unexported, so they come back as zeros, and so do
    the cached value objects.
    [src/internal/joblet/domain/job.go Job] *)
Definition job_wire (j : Job) : Job := {|
  Uuid := Uuid j; Command := Command j; Args := Args j; Type_ := Type_ j; Limits := NewResourceLimits;
  CgroupPath := CgroupPath j; Status := Status j; Pid := Pid j; StartTime := StartTime j;
  EndTime := EndTime j; ScheduledTime := ScheduledTime j; ExitCode := ExitCode j;
  Network := Network j; Volumes := Volumes j; Runtime := Runtime j;
  WorkingDirectory := WorkingDirectory j; Uploads := Uploads j;
  Environment_ := Environment_ j; SecretEnvironment := SecretEnvironment j;
  GPUIndices := GPUIndices j; GPUMIGUUIDs := GPUMIGUUIDs j; GPUCount := GPUCount j;
  GPUMemoryMB := GPUMemoryMB j; NodeId := NodeId j; Timeout := Timeout j; cache := empty_cache;
|}.

(** The text of the encoding is left to encoding/json: a job it can encode (with
    strings in UTF-8 and instants in the years 0 to 9999) gives one line, without line
    breaks, from which it decodes the image; what is not encoded does not matter. *)
Class JobJSON := {
  marshal : Job → option string;
  unmarshal : string → option Job;
  json_ok : Job → Prop;
}.
Class LawfulJSON `{!JobJSON} : Prop := {
  json_total : ∀ j, json_ok j → is_Some (marshal j);
  json_image : ∀ j line, json_ok j → marshal j = Some line → unmarshal line = Some (job_wire j);
  json_line : ∀ j line, json_ok j → marshal j = Some line →
    line ≠ ""%string ∧ "010"%char ∉ bytes line ∧ "013"%char ∉ bytes line;
  json_again : ∀ j, json_ok j → json_ok (job_wire j) ∧ marshal (job_wire j) = marshal j;
}.

(** ** The local store *)

Definition newline : ascii := "010".
Definition max_line : Z := 1048576.

(** [lb_file] is the text under the gzip stream of the state file, if there is one:
    it is only ever replaced, by a rename.
    [src/state/internal/storage/local.go:29-43 localBackend] *)
Record local := {
  lb_jobs : jobmap; lb_dirty : bool; lb_closed : bool; lb_file : option (list ascii);
}.

Section local.
Context `{!JobJSON}.

Definition drop_cr (t : list ascii) : list ascii :=
  match rev t with c :: r => if bool_decide (c = "013"%char) then rev r else t | [] => t end.

(** The loop over the lines the scanner finds: the first one over its limit ends it,
    with what was read before; empty lines and those that do not decode are skipped.
    [src/state/internal/storage/local.go:118-141 localBackend.loadFromDisk] *)
Fixpoint load_lines (lines : list (list ascii)) (m : jobmap) : jobmap * result string unit :=
  match lines with
  | [] => (m, Ok tt)
  | l :: lines =>
      if max_line <=? Z.of_nat (List.length l) then (m, Err "error reading state file"%string)
      else match drop_cr l with
           | [] => load_lines lines m
           | line => match unmarshal (of_bytes line) with
                     | None => load_lines lines m
                     | Some job => load_lines lines (<[Uuid job := job]> m)
                     end
           end
  end.

(** [src/state/internal/storage/local.go localBackend.loadFromDisk] *)
Definition loadFromDisk (file : option (list ascii)) : jobmap * result string unit :=
  match file with
  | None => (∅, Ok tt)
  | Some text => load_lines (split_bytes newline text) ∅
  end.

(** A start never fails on what it reads: an error is a warning.
    [src/state/internal/storage/local.go NewLocalBackend] *)
Definition NewLocalBackend (file : option (list ascii)) : local :=
  {| lb_jobs := (loadFromDisk file).1; lb_dirty := false; lb_closed := false; lb_file := file |}.

Definition with_jobs (m : jobmap) (s : local) : local :=
  {| lb_jobs := m; lb_dirty := lb_dirty s; lb_closed := lb_closed s; lb_file := lb_file s |}.

(** [src/state/internal/storage/local.go localBackend.markDirty] *)
Definition markDirty (s : local) : local :=
  {| lb_jobs := lb_jobs s; lb_dirty := true; lb_closed := lb_closed s; lb_file := lb_file s |}.

Definition file_text (lines : list string) : list ascii := List.concat ((λ l, bytes l ++ [newline]) <$> lines).

(** Writing, syncing, closing and renaming the temporary file succeed together, or
    leave the state file as it was.
    [src/state/internal/storage/local.go localBackend.saveToDisk] *)
Definition saveToDisk (w : world) (s : local) : result string unit * local :=
  match mapM marshal (w_order w) with
  | None => (Err "failed to marshal job"%string, s)
  | Some lines =>
      match w_io w with
      | Err e => (Err e, s)
      | Ok _ => (Ok tt, {| lb_jobs := lb_jobs s; lb_dirty := lb_dirty s; lb_closed := lb_closed s;
                           lb_file := Some (file_text lines) |})
      end
  end.

(** One tick of the ticker, which stops when the store is closed.
    [src/state/internal/storage/local.go localBackend.backgroundSync] *)
Definition backgroundSync (w : world) (s : local) : local :=
  if lb_closed s then s
  else if lb_dirty s then
    match saveToDisk w s with
    | (Ok _, s) => {| lb_jobs := lb_jobs s; lb_dirty := false; lb_closed := lb_closed s; lb_file := lb_file s |}
    | (Err _, s) => s
    end
  else s.

(** [src/state/internal/storage/local.go localBackend.Create] *)
Definition local_Create (now : Z) (job : Job) (s : local) : result storage_error unit * local :=
  settle (λ m, markDirty (with_jobs m s)) s (Create now job (lb_jobs s)).
(** [src/state/internal/storage/local.go localBackend.Get] *)
Definition local_Get (jobID : string) (s : local) : result storage_error Job := Get jobID (lb_jobs s).
(** [src/state/internal/storage/local.go localBackend.Update] *)
Definition local_Update (job : Job) (s : local) : result storage_error unit * local :=
  settle (λ m, markDirty (with_jobs m s)) s (Update job (lb_jobs s)).
(** [src/state/internal/storage/local.go localBackend.Delete] *)
Definition local_Delete (jobID : string) (s : local) : result storage_error unit * local :=
  settle (λ m, markDirty (with_jobs m s)) s (Delete jobID (lb_jobs s)).
(** [src/state/internal/storage/local.go localBackend.List] *)
Definition local_List `{!SortSlice} (w : world) (filter : option Filter) (s : local) : list Job :=
  list_jobs filter (w_order w).
(** [src/state/internal/storage/local.go localBackend.Sync] *)
Definition local_Sync (w : world) (jobs : list Job) (s : local) : result storage_error unit * local :=
  match saveToDisk w (markDirty (with_jobs (Sync jobs) s)) with
  | (Ok _, s) => (Ok tt, s) | (Err e, s) => (Err (SaveError e), s) end.

(** [src/state/internal/storage/local.go localBackend.Close] *)
Definition local_Close (w : world) (s : local) : result string unit * local :=
  if lb_closed s then (Ok tt, s)
  else let s := {| lb_jobs := lb_jobs s; lb_dirty := lb_dirty s; lb_closed := true; lb_file := lb_file s |} in
       if lb_dirty s then saveToDisk w s else (Ok tt, s).

#[export] Instance local_backend : StateBackend local := {|
  view := lb_jobs;
  sb_Create w := local_Create (w_now w);
  sb_Get := local_Get;
  sb_Update := local_Update;
  sb_Delete := local_Delete;
  sb_List := @local_List;
  sb_Sync := local_Sync;
|}.

Lemma saveToDisk_jobs w s : lb_jobs (saveToDisk w s).2 = lb_jobs s.
Proof. unfold saveToDisk. by repeat case_match. Qed.

#[export] Instance local_lawful : LawfulState local.
Proof.
  split; try done; intros; unfold sb_Create, sb_Update, sb_Delete, sb_Sync, local_backend.
  - unfold local_Create. cbn [view]. by destruct (Create _ _ _).
  - unfold local_Update. cbn [view]. by destruct (Update _ _).
  - unfold local_Delete. cbn [view]. by destruct (Delete _ _).
  - unfold local_Sync. pose proof (saveToDisk_jobs w (markDirty (with_jobs (Sync jobs) s))) as E.
    by destruct (saveToDisk _ _) as [[] ?].
Qed.

(** ** Runs of the local store, with crashes *)

(** [LRestart] is a crash and a new start: what is only in memory is gone. *)
Inductive lop :=
| LCreate (now : Z) (j : Job) | LUpdate (j : Job) | LDelete (id : string)
| LSync (w : world) (jobs : list Job) | LTick (w : world) | LClose (w : world) | LRestart.

Definition lstep (s : local) (op : lop) : local :=
  match op with
  | LCreate now j => (local_Create now j s).2
  | LUpdate j => (local_Update j s).2
  | LDelete id => (local_Delete id s).2
  | LSync w jobs => (local_Sync w jobs s).2
  | LTick w => backgroundSync w s
  | LClose w => (local_Close w s).2
  | LRestart => NewLocalBackend (lb_file s)
  end.
Definition lrun (ops : list lop) : local := foldl lstep (NewLocalBackend None) ops.

(** A job that fits in a line the scanner accepts, with the start time it may get. *)
Definition fits (j : Job) : Prop :=
  json_ok j ∧ ∀ line, marshal j = Some line → Z.of_nat (String.length line) < max_line.
Definition visits (order : list Job) (m : jobmap) : Prop := order ≡ₚ (map_to_list m).*2.

(** The jobs an operation brings fit, and a range visits the jobs there are. *)
Definition lvalid (s : local) (op : lop) : Prop :=
  match op with
  | LCreate now j => fits (if StartTime j =? 0 then with_StartTime j now else j)
  | LUpdate j => fits j
  | LDelete _ => True
  | LSync w jobs => Forall fits jobs ∧ visits (w_order w) (Sync jobs)
  | LTick w | LClose w => visits (w_order w) (lb_jobs s)
  | LRestart => True
  end.
Fixpoint lruns (s : local) (ops : list lop) : Prop :=
  match ops with [] => True | op :: ops => lvalid s op ∧ lruns (lstep s op) ops end.
End local.

(** ** Selection and order *)

Lemma matches_spec f job : matchesFilter f job = true ↔
  match f with
  | None => True
  | Some f => (f_Statuses f ≠ [] → Status job ∈ f_Statuses f) ∧
              (f_Statuses f = [] → f_Status f ≠ ""%string → Status job = f_Status f) ∧
              (f_NodeID f ≠ ""%string → NodeId job = f_NodeID f)
  end.
Proof.
  destruct f as [f|]; [|done]. unfold matchesFilter. rewrite andb_true_iff, orb_true_iff, !bool_decide_eq_true.
  assert (existsb (λ status, bool_decide (Status job = status)) (f_Statuses f) = true ↔ Status job ∈ f_Statuses f) as He.
  { rewrite existsb_exists. split.
    - intros (st & Hin & Hst%bool_decide_eq_true). rewrite Hst. by apply list_elem_of_In.
    - intros Hin. exists (Status job). split; [by apply list_elem_of_In|by apply bool_decide_eq_true]. }
  destruct (f_Statuses f) as [|st sts]; cbn [negb bool_decide] in *.
  - rewrite bool_decide_eq_true_2 by done. cbn [negb].
    destruct (decide (f_Status f = ""%string)) as [E|E].
    + rewrite E, bool_decide_eq_true_2 by done. cbn. destruct (decide (f_NodeID f = ""%string)); naive_solver.
    + rewrite (bool_decide_eq_false_2 (f_Status f = _)) by done. cbn. rewrite bool_decide_eq_true.
      destruct (decide (f_NodeID f = ""%string)); naive_solver.
  - rewrite bool_decide_eq_false_2 by done. cbn [negb]. rewrite He.
    destruct (decide (f_NodeID f = ""%string)); naive_solver.
Qed.

Lemma string_less_cons a s b t : string_less (String a s) (String b t) =
  (byte_val a <? byte_val b) || ((byte_val a =? byte_val b) && string_less s t).
Proof.
  unfold string_less, byte_val. cbn. unfold Ascii.compare. rewrite <- N2Z.inj_compare.
  destruct (Z.compare_spec (Z.of_N (N_of_ascii a)) (Z.of_N (N_of_ascii b))) as [E|E|E].
  - rewrite E, Z.eqb_refl, (proj2 (Z.ltb_ge _ _)) by lia. done.
  - rewrite (proj2 (Z.ltb_lt _ _)) by lia. done.
  - rewrite (proj2 (Z.ltb_ge _ _)), (proj2 (Z.eqb_neq _ _)) by lia. done.
Qed.

#[export] Instance status_order : StrictWeak string_less.
Proof.
  split.
  - intros s. induction s as [|a s IH]; [done|]. rewrite string_less_cons, Z.eqb_refl, IH, Z.ltb_irrefl. done.
  - intros s. induction s as [|a s IH]; intros [|b t] [|c u]; try done. rewrite !string_less_cons.
    rewrite !orb_true_iff, !andb_true_iff, !Z.ltb_lt, !Z.eqb_eq. intros [|[]] [|[]]; [left; lia..|].
    right. split; [lia|by eapply IH].
  - intros s. induction s as [|a s IH]; intros [|b t] [|c u]; try done. rewrite !string_less_cons.
    rewrite !orb_false_iff, !andb_false_iff, !Z.ltb_ge, !Z.eqb_neq. intros [? [|]] [? [|]]; split; try lia.
    destruct (decide (byte_val a = byte_val c)); [right|by left]. eapply IH; [|eassumption].
    destruct (string_less s t) eqn:E; [|done]. done.
Qed.

#[export] Instance job_order sortBy : StrictWeak (job_less sortBy).
Proof.
  unfold job_less. case_bool_decide.
  - destruct status_order as [H1 H2 H3]. split; intros *; [apply H1|apply H2|apply H3].
  - split; intros *; rewrite ?Z.ltb_lt, ?Z.ltb_ge; lia.
Qed.

(** A descending sort passes a comparison that no order satisfies: an element comes
    before itself. *)
Lemma descending_not_strict sortBy : ¬ StrictWeak (sort_less sortBy true).
Proof.
  intros [H _ _]. specialize (H (blank_job "" "" None)). cbn in H.
  by rewrite (sw_irrefl (less := job_less sortBy)) in H.
Qed.

Section listing.
Context `{!SortSlice}.

(** A list is made of jobs that match the filter, each as often as the store has it
    and at most as many as the limit; without a limit it has all of them; and sorted
    in ascending order it has no job after one that is to come later, and leaves out
    none that comes before one it has. *)
Theorem list_jobs_spec f visited :
  let selected := List.filter (matchesFilter (Some f)) visited in
  ∃ rest, list_jobs (Some f) visited ++ rest ≡ₚ selected ∧
    (0 < f_Limit f → Z.of_nat (List.length (list_jobs (Some f) visited)) ≤ f_Limit f) ∧
    (f_Limit f ≤ 0 ∨ Z.of_nat (List.length selected) ≤ f_Limit f → rest = []) ∧
    (f_SortBy f ≠ ""%string → f_SortDesc f = false →
       StronglySorted (not_after (job_less (f_SortBy f))) (list_jobs (Some f) visited ++ rest)).
Proof.
  intros selected. set (all := if bool_decide (f_SortBy f = ""%string) then selected
    else sortJobs (f_SortBy f) (f_SortDesc f) selected).
  assert (Hp : all ≡ₚ selected) by (unfold all; case_bool_decide; [done|apply sort_slice_perm]).
  assert (Hl : List.length all = List.length selected) by by rewrite Hp.
  assert (Hs : f_SortBy f ≠ ""%string → f_SortDesc f = false → StronglySorted (not_after (job_less (f_SortBy f))) all).
  { intros Hb Hd. unfold all. rewrite bool_decide_eq_false_2 by done. unfold sortJobs. rewrite Hd.
    apply (sort_slice_sorted (job_less (f_SortBy f))), _. }
  assert (E : list_jobs (Some f) visited = if (f_Limit f >? 0) && (Z.of_nat (List.length all) >? f_Limit f)
    then take (Z.to_nat (f_Limit f)) all else all) by done.
  destruct ((f_Limit f >? 0) && (Z.of_nat (List.length all) >? f_Limit f)) eqn:Ec; rewrite E.
  - apply andb_true_iff in Ec as [H1%Z.gtb_lt H2%Z.gtb_lt]. exists (drop (Z.to_nat (f_Limit f)) all).
    rewrite take_drop. split_and!; [done| |lia|done]. intros _. rewrite length_take. lia.
  - exists []. rewrite app_nil_r. split_and!; [done| |done|done]. intros Hpos.
    apply andb_false_iff in Ec as [H1|H1]; rewrite Z.gtb_ltb, Z.ltb_ge in H1; lia.
Qed.
End listing.

(** ** What the file holds *)

Section durable.
Context {JJ : JobJSON} {LJ : LawfulJSON}.

Definition keyed (m : jobmap) : Prop := ∀ k j, m !! k = Some j → Uuid j = k.
Definition all_fit (m : jobmap) : Prop := ∀ k j, m !! k = Some j → fits j.

(** A range over [m] was written to the file, or nothing ever was. *)
Definition on_disk (file : option (list ascii)) (m : jobmap) : Prop :=
  match file with
  | None => m = ∅
  | Some text => ∃ order lines, visits order m ∧ mapM marshal order = Some lines ∧ text = file_text lines
  end.

Lemma fits_wire j : fits j → fits (job_wire j).
Proof. intros [Hj Hl]. destruct (json_again j Hj) as [Hw E]. split; [done|]. by rewrite E. Qed.

Lemma wire_idem j : job_wire (job_wire j) = job_wire j.
Proof. done. Qed.

Lemma drop_cr_none l : "013"%char ∉ l → drop_cr l = l.
Proof.
  intros H. unfold drop_cr. destruct (rev l) as [|c r] eqn:E; [done|]. case_bool_decide as Hc; [|done].
  destruct H. rewrite <- elem_of_rev, E, Hc. left.
Qed.

Lemma split_file lines : Forall (λ l, newline ∉ bytes l) lines →
  split_bytes newline (file_text lines) = (bytes <$> lines) ++ [[]].
Proof.
  induction 1 as [|l lines Hl _ IH]; [done|]. unfold file_text. cbn [fmap list_fmap List.concat].
  rewrite <- app_assoc. cbn [app]. rewrite split_bytes_app by done. fold (file_text lines). by rewrite IH.
Qed.

(** Reading back what was written: every job is found, in the order it was written. *)
Lemma load_written order lines : Forall fits order → mapM marshal order = Some lines →
  loadFromDisk (Some (file_text lines)) = (foldl (λ m j, <[Uuid j := job_wire j]> m) ∅ order, Ok tt).
Proof.
  intros Hf Hm. apply mapM_Some in Hm. unfold loadFromDisk. rewrite split_file.
  2:{ clear -LJ Hf Hm. induction Hm as [|j l order lines E _ IH]; inversion_clear Hf as [|? ? [Hj _] Hf']; constructor.
      - by eapply json_line. - by apply IH. }
  generalize (∅ : jobmap). induction Hm as [|j l order lines E _ IH]; intros m.
  - cbn [load_lines fmap list_fmap app drop_cr rev]. rewrite (proj2 (Z.leb_gt _ _)); [done|]. vm_compute. done.
  - inversion_clear Hf as [|? ? [Hj Hlen] Hf']. destruct (json_line j l Hj E) as (Hne & _ & Hcr).
    cbn [load_lines fmap list_fmap app foldl]. rewrite length_bytes, (proj2 (Z.leb_gt _ _)) by by apply Hlen.
    rewrite drop_cr_none by done. destruct (bytes l) as [|c bs] eqn:Eb.
    { destruct Hne. rewrite <- (of_bytes_bytes l), Eb. done. }
    rewrite <- Eb, of_bytes_bytes, (json_image j l Hj E). by apply IH.
Qed.

Lemma foldl_keyed (f : Job → Job) order (acc : jobmap) : NoDup (Uuid <$> order) →
  foldl (λ m j, <[Uuid j := f j]> m) acc order = (list_to_map ((λ j, (Uuid j, f j)) <$> order) : jobmap) ∪ acc.
Proof.
  revert acc. induction order as [|j order IH]; cbn; intros acc Hnd; [by rewrite map_empty_union|].
  apply NoDup_cons in Hnd as [Hni Hnd]. rewrite IH by done.
  rewrite <- insert_union_r, insert_union_l; [done|].
  apply not_elem_of_list_to_map. rewrite <- list_fmap_compose. done.
Qed.

Lemma keyed_order m order : keyed m → visits order m → NoDup (Uuid <$> order).
Proof.
  intros Hk Hv. rewrite Hv. rewrite <- list_fmap_compose.
  rewrite (list_fmap_ext _ fst); [apply NoDup_fst_map_to_list|]. intros i [k j] Hi.
  apply list_elem_of_lookup_2, elem_of_map_to_list in Hi. by apply Hk.
Qed.

Lemma perm_of_eq {A} (l l' : list A) : l = l' → l ≡ₚ l'.
Proof. by intros ->. Qed.

Lemma load_saved file m : keyed m → all_fit m → on_disk file m → (loadFromDisk file).1 = job_wire <$> m.
Proof.
  intros Hk Hf. destruct file as [text|]; [|intros ->; cbn; by rewrite fmap_empty].
  intros (order & lines & Hv & Hm & ->).
  rewrite (load_written order); [cbn| |done].
  2:{ rewrite Hv. apply Forall_fmap, Forall_forall. intros [k j] Hi%elem_of_map_to_list. by eapply Hf. }
  rewrite foldl_keyed by by eapply keyed_order. rewrite map_union_empty.
  rewrite (list_to_map_proper _ ((λ '(k, j), (k, job_wire j)) <$> map_to_list m)).
  - rewrite <- (list_to_map_to_list m) at 2. rewrite <- list_to_map_fmap. f_equal. by apply list_fmap_ext; intros ? [].
  - rewrite <- list_fmap_compose. by eapply keyed_order.
  - unfold visits in Hv. rewrite Hv, <- list_fmap_compose. apply perm_of_eq, list_fmap_ext. intros i [k j] Hi.
    apply list_elem_of_lookup_2, elem_of_map_to_list in Hi. cbn. by rewrite (Hk k j Hi).
Qed.

(** ** What a crash restores *)

Definition well (m : jobmap) : Prop := keyed m ∧ all_fit m.

Lemma well_empty : well ∅.
Proof. split; intros ? ? E; by rewrite lookup_empty in E. Qed.

Lemma well_insert m j : well m → fits j → well (<[Uuid j := j]> m).
Proof.
  intros [Hk Hf] Hj. split; intros k j' E; apply lookup_insert_Some in E as [[<- <-]|[_ E]];
    [done|by apply Hk|done|by eapply Hf].
Qed.

Lemma well_delete m k : well m → well (delete k m).
Proof. intros [Hk Hf]. split; intros k' j' [_ E]%lookup_delete_Some; [by apply Hk|by eapply Hf]. Qed.

Lemma well_wire m : well m → well (job_wire <$> m).
Proof.
  intros [Hk Hf]. split; intros k j' E; apply lookup_fmap_Some in E as (j & ? & ?); simplify_eq.
  - by apply (Hk k j).
  - apply fits_wire. by apply (Hf k j).
Qed.

Lemma well_sync jobs : Forall fits jobs → well (Sync jobs).
Proof.
  intros Hj. unfold Sync. pose proof well_empty as He. revert He. generalize (∅ : jobmap). induction Hj as [|j jobs Hj _ IH]; intros m Hm; [done|]. by apply IH, well_insert.
Qed.

Lemma lstep_well s op : well (lb_jobs s) → lvalid s op → op ≠ LRestart → well (lb_jobs (lstep s op)).
Proof.
  intros Hw Hv Hr. destruct op as [now j|j|id|w jobs|w|w|]; cbn in *; try done.
  - unfold local_Create, Create. destruct (lb_jobs s !! Uuid j); [done|]. cbn.
    set (j' := if StartTime j =? 0 then _ else _). replace (Uuid j) with (Uuid j') by (unfold j'; by destruct (_ =? _)).
    by apply well_insert.
  - unfold local_Update, Update. destruct (lb_jobs s !! Uuid j); [|done]. by apply well_insert.
  - unfold local_Delete, Delete. destruct (lb_jobs s !! id); [|done]. by apply well_delete.
  - destruct Hv as [Hj _]. unfold local_Sync.
    pose proof (saveToDisk_jobs w (markDirty (with_jobs (Sync jobs) s))) as E.
    assert (well (lb_jobs (saveToDisk w (markDirty (with_jobs (Sync jobs) s))).2)) as H by (rewrite E; by apply well_sync).
    by destruct (saveToDisk _ _) as [[] ?].
  - unfold backgroundSync. destruct (lb_closed s), (lb_dirty s); try done. pose proof (saveToDisk_jobs w s) as E.
    destruct (saveToDisk w s) as [[] s']; cbn in *; by rewrite E.
  - unfold local_Close. destruct (lb_closed s); [done|]. cbn [lb_dirty]. destruct (lb_dirty s); [|done].
    by rewrite saveToDisk_jobs.
Qed.

Lemma save_cases w s : visits (w_order w) (lb_jobs s) →
  let '(r, s') := saveToDisk w s in lb_jobs s' = lb_jobs s ∧ lb_dirty s' = lb_dirty s ∧
    (lb_file s' = lb_file s ∧ is_ok r = false ∨ on_disk (lb_file s') (lb_jobs s')).
Proof.
  intros Hv. unfold saveToDisk. destruct (mapM marshal (w_order w)) as [lines|] eqn:Em; [|cbn; by auto].
  destruct (w_io w); cbn; [|by auto]. split_and!; [done|done|]. right. by exists (w_order w), lines.
Qed.

(** A step saves what it leaves, or does not touch the file and is not clean unless
    it changed nothing. *)
Lemma lstep_file s op : lvalid s op → op ≠ LRestart →
  on_disk (lb_file (lstep s op)) (lb_jobs (lstep s op)) ∨
  lb_file (lstep s op) = lb_file s ∧
  (lb_dirty (lstep s op) = false → lb_dirty s = false ∧ lb_jobs (lstep s op) = lb_jobs s).
Proof.
  intros Hv Hr. destruct op as [now j|j|id|w jobs|w|w|]; cbn in *; try done.
  - right. unfold local_Create. by destruct (Create _ _ _).
  - right. unfold local_Update. by destruct (Update _ _).
  - right. unfold local_Delete. by destruct (Delete _ _).
  - unfold local_Sync. pose proof (save_cases w (markDirty (with_jobs (Sync jobs) s)) (proj2 Hv)) as Hs.
    destruct (saveToDisk _ _) as [[] s'], Hs as (_ & Hd & [[Hf _]|Hf]); cbn in *; auto.
    all: right; split; [done|]; by rewrite Hd.
  - unfold backgroundSync. destruct (lb_closed s); [by right|]. destruct (lb_dirty s) eqn:Ed; [|by right].
    pose proof (save_cases w s Hv) as Hs.
    destruct (saveToDisk w s) as [[] s'], Hs as (Hj & Hd & [[Hf Hok]|Hf]); cbn in *; try done; [by left|right|by left].
    split; [done|]. intros Hd'. congruence.
  - unfold local_Close. destruct (lb_closed s); [by right|]. cbn. destruct (lb_dirty s) eqn:Ed; [|by right].
    match goal with |- context [saveToDisk w ?s0] => pose proof (save_cases w s0 Hv) as Hs end.
    destruct (saveToDisk _ _) as [r s'], Hs as (Hj & Hd & [[Hf Hok]|Hf]); cbn in *; [right|by left].
    split; [done|]. intros Hd'. congruence.
Qed.

Record durable_inv (ops : list lop) (s : local) : Prop := {
  du_well : well (lb_jobs s);
  du_saved : ∃ saved pre, pre `prefix_of` ops ∧ well saved ∧ on_disk (lb_file s) saved ∧
    job_wire <$> saved = job_wire <$> lb_jobs (lrun pre) ∧
    (lb_dirty s = false → job_wire <$> saved = job_wire <$> lb_jobs s);
}.

Lemma wire_twice (m : jobmap) : job_wire <$> (job_wire <$> m) = job_wire <$> m.
Proof. rewrite <- map_fmap_compose. by apply map_fmap_ext. Qed.

Lemma durable_step ops s op : s = lrun ops → durable_inv ops s → lvalid s op → durable_inv (ops ++ [op]) (lstep s op).
Proof.
  intros Hs [Hw (saved & pre & Hpre & Hws & Hd & He & Hc)] Hv.
  assert (Hpre' : pre `prefix_of` ops ++ [op]) by by apply prefix_app_r.
  assert (op = LRestart ∨ op ≠ LRestart) as [->|Hr] by (destruct op; by auto).
  - assert (Hl : lb_jobs (lstep s LRestart) = job_wire <$> saved) by (destruct Hws; by apply load_saved).
    split; [rewrite Hl; by apply well_wire|]. exists saved, pre. split_and!; try done. intros _. rewrite Hl. by rewrite wire_twice.
  - pose proof (lstep_well s op Hw Hv Hr) as Hw'. split; [done|].
    destruct (lstep_file s op Hv Hr) as [Hf|[Hf Hcl]].
    + exists (lb_jobs (lstep s op)), (ops ++ [op]). split_and!; try done.
      unfold lrun. by rewrite foldl_app, Hs.
    + exists saved, pre. rewrite Hf. split_and!; try done. intros Hcd. destruct (Hcl Hcd) as [? ->]. by apply Hc.
Qed.

Lemma durable_run ops : lruns (NewLocalBackend None) ops → durable_inv ops (lrun ops).
Proof.
  assert (Hgen : ∀ done todo s, s = lrun done → durable_inv done s → lruns s todo →
    durable_inv (done ++ todo) (foldl lstep s todo)).
  { intros d todo. revert d. induction todo as [|op todo IH]; intros d s Hs Hd Hl; cbn.
    - by rewrite app_nil_r.
    - destruct Hl as [Hv Hl]. replace (d ++ op :: todo) with ((d ++ [op]) ++ todo) by by rewrite <- app_assoc.
      apply IH; [|by apply durable_step|done]. unfold lrun. by rewrite foldl_app, Hs. }
  intros Hl. apply (Hgen [] ops _ eq_refl); [|done]. split; [exact well_empty|].
  exists ∅, []. by split_and!; try exact well_empty.
Qed.

(** C11 Provided that every job can be encoded in a line shorter than 1 MB: whatever
    happened before it, crashes and failed writes included, a crash of the local store
    restores what it held at one moment of its past, whole, up to what the encoding of a job
    leaves out; and what it held last when nothing changed since the last save. (A longer
    line hides the jobs after it: [oversized_hides].) *)
Theorem crash_restores_past ops : lruns (NewLocalBackend None) ops →
  let restored := lb_jobs (NewLocalBackend (lb_file (lrun ops))) in
  (∃ pre, pre `prefix_of` ops ∧ restored = job_wire <$> lb_jobs (lrun pre)) ∧
  (lb_dirty (lrun ops) = false → restored = job_wire <$> lb_jobs (lrun ops)).
Proof.
  intros Hl. destruct (durable_run ops Hl) as [_ (saved & pre & Hpre & [Hk Hf] & Hd & He & Hc)].
  cbn zeta. unfold NewLocalBackend. cbn [lb_jobs lb_file]. rewrite (load_saved _ saved) by done.
  split; [by exists pre; rewrite He|done].
Qed.

(** A line over the limit of the scanner hides itself and all that follows. *)
Lemma oversized_hides before l after m m' : max_line ≤ Z.of_nat (List.length l) →
  load_lines before m = (m', Ok tt) → (load_lines (before ++ l :: after) m).1 = m'.
Proof.
  intros Hl. revert m. induction before as [|b before IH]; intros m E; cbn in *.
  - rewrite (proj2 (Z.leb_le _ _)) by done. cbn. by simplify_eq.
  - case_match; [done|]. case_match; [by apply IH|]. case_match; by apply IH.
Qed.
End durable.

Section limits.
Context {JJ : JobJSON} {LJ : LawfulJSON}.

(** No job that comes back after a restart has a limit on its resources, whatever
    limits it was accepted with. *)
Theorem restart_drops_limits ops k j : lruns (NewLocalBackend None) ops →
  lb_jobs (NewLocalBackend (lb_file (lrun ops))) !! k = Some j → HasResourceLimits j = false.
Proof.
  intros Hl E. destruct (durable_run ops Hl) as [_ (saved & _ & _ & [Hk Hf] & Hd & _)].
  unfold NewLocalBackend in E. cbn [lb_jobs lb_file] in E. rewrite (load_saved _ saved) in E by done.
  apply lookup_fmap_Some in E as (j0 & ? & _). by simplify_eq.
Qed.
End limits.

(** ** Concrete runs *)

(** An encoding of two jobs. *)
Definition sample_job (limits : ResourceLimits) : Job := {|
  Uuid := "a"; Command := "true"; Args := []; Type_ := ""; Limits := limits;
  CgroupPath := ""; Status := "PENDING"; Pid := 0; StartTime := 1; EndTime := None;
  ScheduledTime := None; ExitCode := 0; Network := ""; Volumes := []; Runtime := "";
  WorkingDirectory := ""; Uploads := []; Environment_ := ∅; SecretEnvironment := ∅;
  GPUIndices := []; GPUMIGUUIDs := []; GPUCount := 0; GPUMemoryMB := 0; NodeId := "";
  Timeout := 0; cache := empty_cache;
|}.
Definition half_core : ResourceLimits := {|
  CPU := {| cpu_value := 50 |}; CPUCores := {| core_list := []; core_spec := "" |};
  Memory := {| mem_bytes := 0 |}; IOBandwidth := {| bw_bytes := 0 |};
|}.

Definition sample_json : JobJSON := {|
  marshal j := Some (if bool_decide (Uuid j = "a"%string) then "{a}" else "{b}")%string;
  unmarshal l := if bool_decide (l = "{a}"%string) then Some (blank_job "a" "PENDING" None)
                 else Some (blank_job "b" "RUNNING" None);
  json_ok j := job_wire j = blank_job "a" "PENDING" None ∨ job_wire j = blank_job "b" "RUNNING" None;
|}.

Lemma sample_json_lawful : @LawfulJSON sample_json.
Proof.
  assert (Hu : ∀ j, @json_ok sample_json j → Uuid j = "a"%string ∧ job_wire j = blank_job "a" "PENDING" None ∨
    Uuid j = "b"%string ∧ job_wire j = blank_job "b" "RUNNING" None).
  { intros j [E|E]; [left|right]; (split; [|done]); change (Uuid j) with (Uuid (job_wire j)); by rewrite E. }
  split.
  - by eexists.
  - intros j line [[Hj ->]|[Hj ->]]%Hu; cbn; rewrite Hj; by intros [= <-].
  - intros j line [[Hj _]|[Hj _]]%Hu; cbn; rewrite Hj; intros [= <-]; cbn; (split; [done|]); split;
      rewrite !not_elem_of_cons; (split_and!; [done..|apply not_elem_of_nil]).
  - done.
Qed.

Definition at_ (now : Z) (order : list Job) (io : result string unit) : world := {| w_now := now; w_order := order; w_io := io |}.

(** Two creations with a save between them, a failed save, a crash. *)
Definition crash_run : list lop :=
  [LCreate 5 (sample_job half_core); LTick (at_ 6 [sample_job half_core] (Ok tt));
   LCreate 7 (blank_job "b" "RUNNING" None);
   LTick (at_ 8 [blank_job "b" "RUNNING" None; sample_job half_core] (Err "no space left on device"%string))].

Lemma crash_run_valid : @lruns sample_json (@NewLocalBackend sample_json None) crash_run.
Proof.
  cbn [lruns crash_run lvalid]. split_and!; try done.
  - split; [by left|]. by intros line [= <-].
  - unfold visits. vm_compute. apply Permutation_refl.
  - split; [by right|]. by intros line [= <-].
  - unfold visits. vm_compute. first [apply Permutation_refl|apply Permutation_swap].
Qed.

Lemma crash_restores_past_witness :
  lb_jobs (@NewLocalBackend sample_json (lb_file (@lrun sample_json crash_run))) !! "b"%string = None ∧
  ∃ pre, pre `prefix_of` crash_run ∧ lb_jobs (@NewLocalBackend sample_json (lb_file (@lrun sample_json crash_run))) =
    job_wire <$> lb_jobs (@lrun sample_json pre).
Proof.
  split; [vm_compute; reflexivity|].
  exact (proj1 (@crash_restores_past sample_json sample_json_lawful crash_run crash_run_valid)).
Defined.

Lemma restart_drops_limits_witness :
  HasResourceLimits (sample_job half_core) = true ∧ ∃ j,
  lb_jobs (@NewLocalBackend sample_json (lb_file (@lrun sample_json crash_run))) !! "a"%string = Some j ∧
  HasResourceLimits j = false.
Proof.
  split; [done|]. destruct (lb_jobs _ !! "a"%string) as [j|] eqn:E; [|exfalso; revert E; vm_compute; discriminate].
  exists j. split; [done|].
  exact (@restart_drops_limits sample_json sample_json_lawful crash_run "a" j crash_run_valid E).
Defined.
