(* ===== verification/Dynamo.v ===== *)
(** * The DynamoDB store of the state service (state/internal/storage/dynamodb.go)

    A job is stored as one item of a table, whose attributes are strings, numbers in text,
    lists and maps.  The table belongs to a service: what its calls do is a class, with
    what its documentation promises as laws. *)

From Stdlib Require Import Ascii String.
From S2P Require Import Prelude GoStrings GoNumbers GoTime Values Paths Job StateBackend.

Local Open Scope Z_scope.

(** ** Items *)

(** [types.AttributeValue], the members the store uses. *)
Inductive av := AS (v : string) | AN (v : string) | AL (v : list av) | AM (v : gmap string av).
Abbreviation Item := (gmap string av).

(** An attribute that is set under a condition. *)
Definition put_if (c : bool) (k : string) (v : av) (m : Item) : Item := if c then <[k := v]> m else m.

(** The days between year 1 and the epoch of Unix, in seconds. *)
Definition unix_epoch : Z := 62135596800.

(** The attribute that makes the service delete the item: seconds of Unix time.
    [src/state/internal/storage/dynamodb.go:404-407 jobToItem] *)
Definition expiresAt (now ttlDays : Z) : Z :=
  (now + wrap64 (wrap64 (ttlDays * 24) * (3600 * second))) / second - unix_epoch.

Definition set_time (t : option Z) : bool := match t with Some t => negb (t =? 0) | None => false end.
Definition time_av (zone : Z → Z) (t : option Z) : av := AS (match t with Some t => format_RFC3339 zone t | None => "" end).

(** [src/state/internal/storage/dynamodb.go:346-361 jobToItem] *)
Definition limits_av (l : ResourceLimits) : Item :=
  put_if (bw_bytes (IOBandwidth l) >? 0) "ioBandwidth" (AN (Itoa (bw_bytes (IOBandwidth l)))) $
  put_if (mem_bytes (Memory l) >? 0) "memory" (AN (Itoa (mem_bytes (Memory l)))) $
  put_if (negb (bool_decide (core_spec (CPUCores l) = ""%string))) "cpuCores" (AS (core_spec (CPUCores l))) $
  put_if (cpu_value (CPU l) >? 0) "cpu" (AN (Itoa (cpu_value (CPU l)))) ∅.

(** [src/state/internal/storage/dynamodb.go jobToItem] *)
Definition jobToItem (zone : Z → Z) (now ttlDays : Z) (j : Job) : Item :=
  put_if ((ttlDays >? 0) && (bool_decide (Status j = "COMPLETED"%string) || bool_decide (Status j = "FAILED"%string)))
    "expiresAt" (AN (Itoa (expiresAt now ttlDays))) $
  put_if (GPUMemoryMB j >? 0) "gpuMemoryMB" (AN (Itoa (GPUMemoryMB j))) $
  put_if (GPUCount j >? 0) "gpuCount" (AN (Itoa (GPUCount j))) $
  put_if (negb (bool_decide (GPUIndices j = []))) "gpuIndices" (AL ((λ i, AN (Itoa i)) <$> GPUIndices j)) $
  put_if (negb (bool_decide (Environment_ j = ∅))) "environment" (AM (AS <$> Environment_ j)) $
  put_if (negb (bool_decide (WorkingDirectory j = ""%string))) "workingDirectory" (AS (WorkingDirectory j)) $
  put_if (negb (bool_decide (Volumes j = []))) "volumes" (AL (AS <$> Volumes j)) $
  put_if (negb (bool_decide (map_size (limits_av (Limits j)) = 0%nat))) "limits" (AM (limits_av (Limits j))) $
  put_if (negb (bool_decide (Type_ j = ""%string))) "jobType" (AS (Type_ j)) $
  put_if (negb (bool_decide (Runtime j = ""%string))) "runtime" (AS (Runtime j)) $
  put_if (negb (bool_decide (Network j = ""%string))) "network" (AS (Network j)) $
  put_if (negb (Pid j =? 0)) "pid" (AN (Itoa (Pid j))) $
  put_if (negb (ExitCode j =? 0)) "exitCode" (AN (Itoa (ExitCode j))) $
  put_if (set_time (ScheduledTime j)) "scheduledTime" (time_av zone (ScheduledTime j)) $
  put_if (set_time (EndTime j)) "endTime" (time_av zone (EndTime j)) $
  put_if (negb (StartTime j =? 0)) "startTime" (time_av zone (Some (StartTime j))) $
  put_if (negb (bool_decide (Args j = []))) "args" (AL (AS <$> Args j)) $
  put_if true "nodeId" (AS (NodeId j)) $ put_if true "command" (AS (Command j)) $
  put_if true "jobStatus" (AS (Status j)) $ put_if true "job_uuid" (AS (Uuid j)) ∅.

Definition S_of (v : option av) : option string := match v with Some (AS s) => Some s | _ => None end.
Definition N_of (w : Z) (v : option av) : option Z := match v with Some (AN s) => Sscanf_d w s | _ => None end.
Definition time_of (v : option av) : option Z := match v with Some (AS s) => parse_RFC3339 s | _ => None end.
Definition strings_of (v : option av) : list string :=
  match v with Some (AL l) => (λ x, default ""%string (S_of (Some x))) <$> l | _ => [] end.
Definition ints_of (v : option av) : list Z :=
  match v with Some (AL l) => (λ x, default 0 (N_of 32 (Some x))) <$> l | _ => [] end.
Definition env_of (v : option av) : gmap string string :=
  match v with Some (AM m) => omap (λ x, S_of (Some x)) m | _ => ∅ end.

Definition keep_value {E A} (d : A) (r : result E A) : A := match r with Ok v => v | Err _ => d end.

(** [None]: a core range that never ends.
    [src/state/internal/storage/dynamodb.go:489-512 itemToJob] *)
Definition limits_of (fuel : nat) (v : option av) : option ResourceLimits :=
  let d := NewResourceLimits in
  match v with
  | Some (AM m) =>
      cores ← match S_of (m !! "cpuCores"%string) with
              | Some spec => keep_value (CPUCores d) <$> ParseCPUCoreSet fuel spec
              | None => Some (CPUCores d)
              end;
      Some {| CPU := match N_of 32 (m !! "cpu"%string) with Some v => keep_value (CPU d) (NewCPUPercentage v) | None => CPU d end;
              CPUCores := cores;
              Memory := match N_of 64 (m !! "memory"%string) with Some v => keep_value (Memory d) (NewMemorySize v) | None => Memory d end;
              IOBandwidth := match N_of 64 (m !! "ioBandwidth"%string) with Some v => keep_value (IOBandwidth d) (NewBandwidth v) | None => IOBandwidth d end |}
  | _ => Some d
  end.

(** It reports no errors; [None] as in [limits_of].
    [src/state/internal/storage/dynamodb.go itemToJob] *)
Definition itemToJob (fuel : nat) (item : Item) : option Job :=
  limits ← limits_of fuel (item !! "limits"%string);
  Some {|
    Uuid := default ""%string (S_of (item !! "job_uuid"%string)); Command := default ""%string (S_of (item !! "command"%string));
    Args := strings_of (item !! "args"%string); Type_ := default ""%string (S_of (item !! "jobType"%string));
    Limits := limits; CgroupPath := ""; Status := default ""%string (S_of (item !! "jobStatus"%string));
    Pid := default 0 (N_of 32 (item !! "pid"%string)); StartTime := default 0 (time_of (item !! "startTime"%string));
    EndTime := time_of (item !! "endTime"%string); ScheduledTime := time_of (item !! "scheduledTime"%string);
    ExitCode := default 0 (N_of 32 (item !! "exitCode"%string)); Network := default ""%string (S_of (item !! "network"%string));
    Volumes := strings_of (item !! "volumes"%string); Runtime := default ""%string (S_of (item !! "runtime"%string));
    WorkingDirectory := default ""%string (S_of (item !! "workingDirectory"%string)); Uploads := [];
    Environment_ := env_of (item !! "environment"%string); SecretEnvironment := ∅;
    GPUIndices := ints_of (item !! "gpuIndices"%string); GPUMIGUUIDs := []; GPUCount := default 0 (N_of 32 (item !! "gpuCount"%string));
    GPUMemoryMB := default 0 (N_of 64 (item !! "gpuMemoryMB"%string)); NodeId := default ""%string (S_of (item !! "nodeId"%string));
    Timeout := 0; cache := empty_cache |}.

(** ** What comes back of a job *)

Definition to_second (t : Z) : Z := t / second * second.
Definition whole_time (t : option Z) : option Z := match t with Some t => if t =? 0 then None else Some (to_second t) | None => None end.
(** The job an item stands for: times to the second, and neither the timeout, the secret
    variables, the uploads, the MIG instances nor the control group. *)
Definition stored_image (j : Job) : Job := {|
  Uuid := Uuid j; Command := Command j; Args := Args j; Type_ := Type_ j; Limits := Limits j; CgroupPath := "";
  Status := Status j; Pid := Pid j; StartTime := to_second (StartTime j); EndTime := whole_time (EndTime j);
  ScheduledTime := whole_time (ScheduledTime j); ExitCode := ExitCode j; Network := Network j; Volumes := Volumes j;
  Runtime := Runtime j; WorkingDirectory := WorkingDirectory j; Uploads := []; Environment_ := Environment_ j;
  SecretEnvironment := ∅; GPUIndices := GPUIndices j; GPUMIGUUIDs := []; GPUCount := GPUCount j; GPUMemoryMB := GPUMemoryMB j;
  NodeId := NodeId j; Timeout := 0; cache := empty_cache |}.

(** The limits are what their constructors make, the numbers have their widths, and the
    instants have four-digit years in a zone of whole minutes. *)
Definition sound_limits (fuel : nat) (l : ResourceLimits) : Prop :=
  0 ≤ cpu_value (CPU l) ≤ 10000 ∧ ParseCPUCoreSet fuel (core_spec (CPUCores l)) = Some (Ok (CPUCores l)) ∧
  0 ≤ mem_bytes (Memory l) ∧ in_int64 (mem_bytes (Memory l)) ∧ 0 ≤ bw_bytes (IOBandwidth l) ∧ in_int64 (bw_bytes (IOBandwidth l)).
Definition sound_time (zone : Z → Z) (t : Z) : Prop := in_years zone t ∧ whole_minutes (zone t).
Record sound_job (zone : Z → Z) (fuel : nat) (j : Job) : Prop := {
  so_limits : sound_limits fuel (Limits j);
  so_pid : in_int32 (Pid j); so_exit : in_int32 (ExitCode j); so_count : 0 ≤ GPUCount j ∧ in_int32 (GPUCount j);
  so_memory : 0 ≤ GPUMemoryMB j ∧ in_int64 (GPUMemoryMB j); so_gpus : Forall in_int32 (GPUIndices j);
  so_start : sound_time zone (StartTime j); so_end : ∀ t, EndTime j = Some t → sound_time zone t;
  so_scheduled : ∀ t, ScheduledTime j = Some t → sound_time zone t;
}.

Lemma put_if_eq c k v m : put_if c k v m !! k = if c then Some v else m !! k.
Proof. unfold put_if. destruct c; [apply lookup_insert_eq|done]. Qed.
Lemma put_if_ne c k k' v m : String.eqb k k' = false → put_if c k v m !! k' = m !! k'.
Proof. intros H%String.eqb_neq. unfold put_if. destruct c; [by apply lookup_insert_ne|done]. Qed.

Local Ltac fields := repeat first [rewrite put_if_eq | rewrite put_if_ne by reflexivity].

Local Ltac field_of item K :=
  let H := fresh in eassert (item !! K%string = _) as H by (unfold jobToItem; fields; rewrite ?lookup_empty; reflexivity); rewrite H; clear H.

Lemma strings_back (l : list string) : strings_of (if negb (bool_decide (l = [])) then Some (AL (AS <$> l)) else None) = l.
Proof.
  destruct l as [|x l]; [done|]. rewrite bool_decide_eq_false_2 by done. cbn [negb strings_of]. rewrite <- list_fmap_compose.
  rewrite <- (list_fmap_id (x :: l)) at 2. by apply list_fmap_ext.
Qed.
Lemma ints_back (l : list Z) : Forall in_int32 l → ints_of (if negb (bool_decide (l = [])) then Some (AL ((λ i, AN (Itoa i)) <$> l)) else None) = l.
Proof.
  intros Hl. destruct l as [|x l]; [done|]. rewrite bool_decide_eq_false_2 by done. cbn [negb ints_of]. rewrite <- list_fmap_compose.
  rewrite <- (list_fmap_id (x :: l)) at 2. apply list_fmap_ext. intros i y Hy. unfold compose. cbn [N_of].
  assert (Hi : in_int32 y) by (rewrite Forall_forall in Hl; by apply Hl, (list_elem_of_lookup_2 _ i)).
  rewrite Sscanf_Itoa; [done| |done]. unfold in_int, min_int, max_int in *. lia.
Qed.
Lemma string_back (s : string) : default ""%string (S_of (if negb (bool_decide (s = ""%string)) then Some (AS s) else None)) = s.
Proof. by case_bool_decide; subst. Qed.
Lemma env_back (e : gmap string string) : env_of (if negb (bool_decide (e = ∅)) then Some (AM (AS <$> e)) else None) = e.
Proof.
  case_bool_decide; [by subst|]. cbn [negb env_of]. apply map_eq. intros k. rewrite lookup_omap, lookup_fmap. by destruct (e !! k).
Qed.
Lemma number_back w z (c : bool) : in_int64 z → in_int w z → (c = false → z = 0) → default 0 (N_of w (if c then Some (AN (Itoa z)) else None)) = z.
Proof. intros H1 H2 H3. destruct c; cbn [N_of]; [by rewrite Sscanf_Itoa|by rewrite H3]. Qed.
Lemma time_back zone t : (∀ t', t = Some t' → sound_time zone t') → time_of (if set_time t then Some (time_av zone t) else None) = whole_time t.
Proof.
  intros H. destruct t as [t|]; [|done]. destruct (H t eq_refl) as [H1 H2]. unfold set_time, whole_time. destruct (t =? 0); [done|].
  cbn [negb time_av time_of]. by rewrite parse_RFC3339_format.
Qed.

Lemma limits_back fuel l : sound_limits fuel l → limits_of fuel (if negb (bool_decide (map_size (limits_av l) = 0%nat)) then Some (AM (limits_av l)) else None) = Some l.
Proof.
  intros (Hc & Hcores & Hm & Hm2 & Hb & Hb2). destruct l as [[cpu] cores [mem] [bw]]. unfold limits_av. cbn [CPU CPUCores Memory IOBandwidth cpu_value mem_bytes bw_bytes] in *.
  set (m := put_if (bw >? 0) _ _ _). assert (Hempty : map_size m = 0%nat → cpu = 0 ∧ core_spec cores = ""%string ∧ mem = 0 ∧ bw = 0).
  { intros He%map_size_empty_inv. pose proof (λ k, f_equal (lookup k) He) as Hl. unfold m in Hl. split_and!.
    - specialize (Hl "cpu"%string). revert Hl. fields. rewrite !lookup_empty. destruct (Z.gtb_spec cpu 0); [done|lia].
    - specialize (Hl "cpuCores"%string). revert Hl. fields. rewrite !lookup_empty. by case_bool_decide.
    - specialize (Hl "memory"%string). revert Hl. fields. rewrite !lookup_empty. destruct (Z.gtb_spec mem 0); [done|lia].
    - specialize (Hl "ioBandwidth"%string). revert Hl. fields. rewrite !lookup_empty. destruct (Z.gtb_spec bw 0); [done|lia]. }
  assert (Hzero : core_spec cores = ""%string → cores = CPUCores NewResourceLimits).
  { intros E. unfold ParseCPUCoreSet in Hcores. rewrite bool_decide_eq_true_2 in Hcores by done. by injection Hcores as <-. }
  case_bool_decide as He; cbn [negb].
  - destruct (Hempty He) as (-> & E & -> & ->). cbn [limits_of]. by rewrite (Hzero E).
  - clear Hempty He. unfold m. cbn [limits_of]. fields. rewrite !lookup_empty.
    assert (H64 : in_int64 cpu ∧ in_int32 cpu) by (unfold in_int, min_int, max_int; lia). destruct H64 as [H64 H32].
    assert (Hcs : match S_of (if negb (bool_decide (core_spec cores = ""%string)) then Some (AS (core_spec cores)) else None) with
        | Some spec => keep_value (CPUCores NewResourceLimits) <$> ParseCPUCoreSet fuel spec | None => Some (CPUCores NewResourceLimits) end = Some cores).
    { case_bool_decide as E; cbn [negb S_of]; [by rewrite (Hzero E)|by rewrite Hcores]. }
    rewrite Hcs. cbn [mbind option_bind]. do 2 f_equal.
    + destruct (Z.gtb_spec cpu 0); cbn [N_of]; [|replace cpu with 0 by lia; done]. rewrite Sscanf_Itoa by done. unfold NewCPUPercentage.
      rewrite (proj2 (Z.ltb_ge _ _)) by lia. destruct (Z.gtb_spec cpu 10000); [lia|done].
    + destruct (Z.gtb_spec mem 0); cbn [N_of]; [|replace mem with 0 by lia; done]. rewrite Sscanf_Itoa by done. unfold NewMemorySize.
      by rewrite (proj2 (Z.ltb_ge _ _)) by lia.
    + destruct (Z.gtb_spec bw 0); cbn [N_of]; [|replace bw with 0 by lia; done]. rewrite Sscanf_Itoa by done. unfold NewBandwidth.
      by rewrite (proj2 (Z.ltb_ge _ _)) by lia.
Qed.

(** An item is read back as the image of its job, its limits included. *)
Lemma item_image zone fuel now ttlDays j : sound_job zone fuel j → itemToJob fuel (jobToItem zone now ttlDays j) = Some (stored_image j).
Proof.
  intros H. unfold itemToJob. repeat match goal with |- context [jobToItem zone now ttlDays j !! ?K] => field_of (jobToItem zone now ttlDays j) K end.
  rewrite limits_back by apply H. cbn [mbind option_bind]. unfold stored_image. f_equal.
  rewrite !strings_back, !string_back, env_back, ints_back by apply H.
  rewrite !time_back by apply H.
  assert (H32 : ∀ z, in_int32 z → in_int64 z) by (intros z; unfold in_int, min_int, max_int; lia).
  rewrite (number_back 32 (Pid j)), (number_back 32 (ExitCode j)), (number_back 32 (GPUCount j)), (number_back 64 (GPUMemoryMB j));
    try first [apply H | apply H32, H].
  all: try (intros E; first [apply negb_false_iff, Z.eqb_eq in E; exact E | destruct (Z.gtb_spec (GPUMemoryMB j) 0); [done|]; pose proof (so_memory _ _ _ H); lia
    | destruct (Z.gtb_spec (GPUCount j) 0); [done|]; pose proof (so_count _ _ _ H); lia]).
  f_equal. destruct (Z.eqb_spec (StartTime j) 0) as [->|Hn]; [done|]. cbn [negb time_av time_of].
  destruct (so_start _ _ _ H) as [H1 H2]. by rewrite parse_RFC3339_format.
Qed.

(** An item that never expires. *)
Lemma item_expires zone now ttlDays j : jobToItem zone now ttlDays j !! "expiresAt"%string =
  (if (ttlDays >? 0) && (bool_decide (Status j = "COMPLETED"%string) || bool_decide (Status j = "FAILED"%string)) then Some (AN (Itoa (expiresAt now ttlDays))) else None).
Proof. unfold jobToItem. fields. by rewrite lookup_empty. Qed.
Lemma item_uuid zone now ttlDays j : jobToItem zone now ttlDays j !! "job_uuid"%string = Some (AS (Uuid j)).
Proof. unfold jobToItem. by fields. Qed.

(** ** The service *)

(** The error of a call: the exception itself, what the SDK wraps it in, or another one. *)
Inductive api_error := ConditionalCheckFailed (text : string) | Wrapped (text : string) (e : api_error) | Failed (text : string).
Fixpoint is_conditional (e : api_error) : bool :=
  match e with ConditionalCheckFailed _ => true | Wrapped _ e => is_conditional e | Failed _ => false end.
Definition api_text (e : api_error) : string := match e with ConditionalCheckFailed t | Wrapped t _ | Failed t => t end.

Inductive condition := NotExists | Exists.
Definition cond_holds (c : condition) (o : option Item) : Prop := match c with NotExists => o = None | Exists => is_Some o end.

(** [src/state/internal/storage/dynamodb_interface.go:15-22 DynamoDBAPI] *)
Class DynamoDB (St : Type) := {
  PutItem : condition → Item → St → result api_error unit * St;
  GetItem : string → St → result api_error (option Item) * St;
  DeleteItem : string → St → result api_error unit * St;
  (* The status asked for, and the limit. *)
  Scan : option string → option Z → St → result api_error (list Item) * St;
  (* The items that were not processed. *)
  BatchWriteItem : list Item → St → result api_error (list Item) * St;
}.

(** The service may delete items that expire. *)
Definition decays (m m' : gmap string Item) : Prop :=
  m' ⊆ m ∧ ∀ k i, m !! k = Some i → i !! "expiresAt"%string = None → m' !! k = Some i.
Definition item_key (i : Item) : string := default ""%string (S_of (i !! "job_uuid"%string)).
Definition put_items (m : gmap string Item) (l : list Item) : gmap string Item := foldl (λ m i, <[item_key i := i]> m) m l.

(** What the documentation says.  A call that fails for another reason than its condition
    may have been carried out.  Reads are eventually consistent: [readable] is what a read
    of a key may answer, and gets no newer than the table.  A scan stops after [limit]
    items, or 1 MB, before it filters; not everything of a batch need be processed. *)
Class DynamoLaws (St : Type) `{!DynamoDB St} := {
  table : St → gmap string Item;
  readable : St → string → option Item → Prop;
  dl_put c i s : let '(r, s') := PutItem c i s in ∃ m, decays (table s) m ∧
    match r with
    | Ok _ => cond_holds c (m !! item_key i) ∧ table s' = <[item_key i := i]> m
    | Err e => if is_conditional e then ¬ cond_holds c (m !! item_key i) ∧ table s' = m
               else table s' = m ∨ cond_holds c (m !! item_key i) ∧ table s' = <[item_key i := i]> m
    end;
  dl_delete k s : let '(r, s') := DeleteItem k s in ∃ m, decays (table s) m ∧
    match r with Ok _ => table s' = delete k m | Err _ => table s' = m ∨ table s' = delete k m end;
  dl_get k s : let '(r, s') := GetItem k s in decays (table s) (table s') ∧ ∀ o, r = Ok o → readable s' k o;
  dl_scan st lim s : let '(r, s') := Scan st lim s in decays (table s) (table s') ∧
    ∀ l, r = Ok l → Forall (λ i, (∃ k, readable s' k (Some i)) ∧ ∀ v, st = Some v → i !! "jobStatus"%string = Some (AS v)) l ∧
      ∀ n, lim = Some n → Z.of_nat (length l) ≤ n;
  dl_batch l s : let '(r, s') := BatchWriteItem l s in ∃ m written rest, decays (table s) m ∧ written ++ rest ≡ₚ l ∧
    table s' = put_items m written ∧ ∀ u, r = Ok u → rest = u;
  dl_put_reads c i s k o : readable (PutItem c i s).2 k o → readable s k o ∨ o = table s !! k ∨ o = table (PutItem c i s).2 !! k;
  dl_get_reads x s k o : readable (GetItem x s).2 k o → readable s k o ∨ o = table s !! k ∨ o = table (GetItem x s).2 !! k;
  dl_delete_reads x s k o : readable (DeleteItem x s).2 k o → readable s k o ∨ o = table s !! k ∨ o = table (DeleteItem x s).2 !! k;
  dl_scan_reads st lim s k o : readable (Scan st lim s).2 k o → readable s k o ∨ o = table s !! k ∨ o = table (Scan st lim s).2 !! k;
  dl_batch_reads l s k o : readable (BatchWriteItem l s).2 k o → readable s k o ∨ o = table s !! k ∨ o = table (BatchWriteItem l s).2 !! k;
}.

(** ** The store *)

Section store.
Context {St : Type} {DB : DynamoDB St}.
(** The zone of the machine, the days until an ended job expires, and a bound on the loop
    over a core range. *)
Context (zone : Z → Z) (ttlDays : Z) (fuel : nat).

Definition storage_failure (what : string) (e : api_error) : storage_error := SaveError (what +:+ ": " +:+ api_text e).

Definition started (now : Z) (job : Job) : Job := if StartTime job =? 0 then with_StartTime job now else job.

(** The assertion on the type of the error sees the exception only when it is not wrapped.
    [src/state/internal/storage/dynamodb.go dynamoDBBackend.Create] *)
Definition dynamo_Create (now : Z) (job : Job) (s : St) : result storage_error unit * St :=
  match PutItem NotExists (jobToItem zone now ttlDays (started now job)) s with
  | (Ok _, s) => (Ok tt, s)
  | (Err (ConditionalCheckFailed _), s) => (Err ErrJobAlreadyExists, s)
  | (Err e, s) => (Err (storage_failure "failed to create job" e), s)
  end.

(** [None]: a core range that never ends.
    [src/state/internal/storage/dynamodb.go dynamoDBBackend.Get] *)
Definition dynamo_Get (jobID : string) (s : St) : option (result storage_error Job) * St :=
  match GetItem jobID s with
  | (Err e, s) => (Some (Err (storage_failure "failed to get job" e)), s)
  | (Ok None, s) => (Some (Err ErrJobNotFound), s)
  | (Ok (Some item), s) => (Ok <$> itemToJob fuel item, s)
  end.

(** [src/state/internal/storage/dynamodb.go dynamoDBBackend.Update] *)
Definition dynamo_Update (now : Z) (job : Job) (s : St) : result storage_error unit * St :=
  match PutItem Exists (jobToItem zone now ttlDays job) s with
  | (Ok _, s) => (Ok tt, s)
  | (Err (ConditionalCheckFailed _), s) => (Err ErrJobNotFound, s)
  | (Err e, s) => (Err (storage_failure "failed to update job" e), s)
  end.

(** [src/state/internal/storage/dynamodb.go dynamoDBBackend.Delete] *)
Definition dynamo_Delete (jobID : string) (s : St) : result storage_error unit * St :=
  match DeleteItem jobID s with
  | (Ok _, s) => (Ok tt, s)
  | (Err e, s) => (Err (storage_failure "failed to delete job" e), s)
  end.

Definition scan_input (filter : option Filter) : option string * option Z :=
  match filter with
  | Some f => (if bool_decide (f_Status f = ""%string) then None else Some (f_Status f),
               if f_Limit f >? 0 then Some (wrap32 (f_Limit f)) else None)
  | None => (None, None)
  end.

(** One call; its continuation key is not used.
    [src/state/internal/storage/dynamodb.go dynamoDBBackend.List] *)
Definition dynamo_List (filter : option Filter) (s : St) : option (result storage_error (list Job)) * St :=
  let '(status, limit) := scan_input filter in
  match Scan status limit s with
  | (Err e, s) => (Some (Err (storage_failure "failed to scan jobs" e)), s)
  | (Ok items, s) => (Ok <$> mapM (itemToJob fuel) items, s)
  end.

(** What is left unprocessed is not looked at.
    [src/state/internal/storage/dynamodb.go dynamoDBBackend.writeBatch] *)
Definition writeBatch (now : Z) (jobs : list Job) (s : St) : result storage_error unit * St :=
  match BatchWriteItem (jobToItem zone now ttlDays <$> jobs) s with
  | (Ok _, s) => (Ok tt, s)
  | (Err e, s) => (Err (storage_failure "failed to batch write" e), s)
  end.

(** One batch of 25 jobs after the other, for as many as there are.
    [src/state/internal/storage/dynamodb.go dynamoDBBackend.Sync] *)
Fixpoint sync_batches (n : nat) (now : Z) (jobs : list Job) (s : St) : result storage_error unit * St :=
  match n, jobs with
  | _, [] | O, _ => (Ok tt, s)
  | S n, _ => match writeBatch now (take 25 jobs) s with
              | (Ok _, s) => sync_batches n now (drop 25 jobs) s
              | (Err e, s) => (Err e, s)
              end
  end.
(** [src/state/internal/storage/dynamodb.go dynamoDBBackend.Sync] *)
Definition dynamo_Sync (now : Z) (jobs : list Job) (s : St) : result storage_error unit * St := sync_batches (length jobs) now jobs s.

(** [described]: what DescribeTable comes to.
    [src/state/internal/storage/dynamodb.go dynamoDBBackend.HealthCheck] *)
Definition dynamo_HealthCheck (described : option api_error) : result storage_error unit :=
  match described with None => Ok tt | Some e => Err (storage_failure "DynamoDB table not accessible" e) end.

(** ** Runs *)

Inductive dop := DCreate (now : Z) (j : Job) | DUpdate (now : Z) (j : Job) | DDelete (k : string) | DSync (now : Z) (jobs : list Job)
               | DGet (k : string) | DList (f : option Filter).
Definition dstep (s : St) (op : dop) : St :=
  match op with
  | DCreate now j => (dynamo_Create now j s).2
  | DUpdate now j => (dynamo_Update now j s).2
  | DDelete k => (dynamo_Delete k s).2
  | DSync now jobs => (dynamo_Sync now jobs s).2
  | DGet k => (dynamo_Get k s).2
  | DList f => (dynamo_List f s).2
  end.
Definition drun (ops : list dop) (s : St) : St := foldl dstep s ops.

(** The jobs an operation hands to the table. *)
Definition submitted (op : dop) : list Job :=
  match op with DCreate now j => [started now j] | DUpdate _ j => [j] | DSync _ jobs => jobs | _ => [] end.
(** Whether an operation may change what is stored of a job that is there. *)
Definition touches (k : string) (op : dop) : Prop :=
  match op with DUpdate _ j => Uuid j = k | DDelete k' => k' = k | DSync _ jobs => k ∈ Uuid <$> jobs | _ => False end.
End store.

(** ** What the table holds *)

Lemma decays_refl m : decays m m.
Proof. done. Qed.
Lemma decays_keep m m' k i : decays m m' → m !! k = Some i → i !! "expiresAt"%string = None → m' !! k = Some i.
Proof. intros [_ H]. apply H. Qed.
Lemma decays_old m m' k i : decays m m' → m' !! k = Some i → m !! k = Some i.
Proof. intros [H _] E. by apply (lookup_weaken _ _ _ _ E). Qed.

Lemma put_items_cases l m k i : put_items m l !! k = Some i → m !! k = Some i ∨ i ∈ l ∧ item_key i = k.
Proof.
  revert m. induction l as [|x l IH]; intros m H; [by left|]. cbn [put_items foldl] in H. apply IH in H as [H|[H1 H2]]; [|right; split; [by right|done]].
  apply lookup_insert_Some in H as [[<- <-]|[_ H]]; [right; split; [by left|done]|by left].
Qed.
Lemma put_items_other l m k : k ∉ item_key <$> l → put_items m l !! k = m !! k.
Proof.
  revert m. induction l as [|x l IH]; intros m H; [done|]. cbn [fmap list_fmap] in H. apply not_elem_of_cons in H as [H1 H2].
  cbn [put_items foldl]. etransitivity; [by apply IH|]. by apply lookup_insert_ne.
Qed.

Section laws.
Context {St : Type} {DB : DynamoDB St} {DL : DynamoLaws St}.
Context (zone : Z → Z) (ttlDays : Z) (fuel : nat).
Local Abbreviation item now j := (jobToItem zone now ttlDays j).
Local Abbreviation dstep := (dstep zone ttlDays fuel).
Local Abbreviation drun := (drun zone ttlDays fuel).

Lemma item_key_of now j : item_key (item now j) = Uuid j.
Proof. unfold item_key. by rewrite item_uuid. Qed.

(** What is found of a key after an operation, in the table or by a read. *)
Definition sees (s : St) (k : string) (i : Item) : Prop := table s !! k = Some i ∨ readable s k (Some i).

Lemma put_sees c now j s k i : sees (PutItem c (item now j) s).2 k i → sees s k i ∨ Uuid j = k ∧ i = item now j.
Proof.
  pose proof (dl_put_reads c (item now j) s k (Some i)) as Hr. pose proof (dl_put c (item now j) s) as Ht.
  destruct (PutItem c (item now j) s) as [r s']. cbn [snd] in *. destruct Ht as (m & Hm & Ht). rewrite item_key_of in Ht.
  assert (Hins : <[Uuid j := item now j]> m !! k = Some i → sees s k i ∨ Uuid j = k ∧ i = item now j).
  { intros [[<- <-]|[_ H]]%lookup_insert_Some; [by right|]. left. left. by apply (decays_old _ m). }
  assert (Hm2 : m !! k = Some i → sees s k i ∨ Uuid j = k ∧ i = item now j) by (intros H; left; left; by apply (decays_old _ m)).
  assert (Htab : table s' !! k = Some i → sees s k i ∨ Uuid j = k ∧ i = item now j).
  { destruct r as [u|e]; [destruct Ht as [_ ->]; exact Hins|]. destruct (is_conditional e); [destruct Ht as [_ ->]; exact Hm2|].
    destruct Ht as [->|[_ ->]]; [exact Hm2|exact Hins]. }
  intros [H|H]; [by apply Htab|]. destruct (Hr H) as [H1|[H1|H1]]; [left; by right|left; by left|by apply Htab].
Qed.

Lemma put_keeps c now j s k i : (Uuid j = k → c = NotExists) → table s !! k = Some i → i !! "expiresAt"%string = None →
  table (PutItem c (item now j) s).2 !! k = Some i.
Proof.
  intros Hc Hi Hx. pose proof (dl_put c (item now j) s) as Ht. destruct (PutItem c (item now j) s) as [r s']. cbn [snd].
  destruct Ht as (m & Hm & Ht). rewrite item_key_of in Ht. pose proof (decays_keep _ _ _ _ Hm Hi Hx) as Hk.
  assert (Hins : cond_holds c (m !! Uuid j) → <[Uuid j := item now j]> m !! k = Some i).
  { intros Hh. destruct (decide (Uuid j = k)) as [E|]; [|by rewrite lookup_insert_ne]. rewrite (Hc E), E, Hk in Hh. discriminate Hh. }
  destruct r as [u|e]; [destruct Ht as [H ->]; by apply Hins|]. destruct (is_conditional e); [by destruct Ht as [_ ->]|].
  destruct Ht as [->|[H ->]]; [done|by apply Hins].
Qed.

Lemma sync_ind (P : St → Prop) n now jobs s : (∀ b s, (∀ j, j ∈ b → j ∈ jobs) → P s → P (BatchWriteItem (jobToItem zone now ttlDays <$> b) s).2) →
  P s → P (sync_batches zone ttlDays n now jobs s).2.
Proof.
  intros Hb. assert (H : ∀ n l s, (∀ j, j ∈ l → j ∈ jobs) → P s → P (sync_batches zone ttlDays n now l s).2); [|by apply H].
  clear n s. induction n as [|n IH]; intros l s Hl HP; [by destruct l|]. destruct l as [|j l]; [done|]. cbn [sync_batches]. unfold writeBatch.
  specialize (Hb (take 25 (j :: l)) s). destruct (BatchWriteItem _ s) as [[u|e] s1]; cbn [snd] in *.
  - apply IH; [|apply Hb; [|done]]; intros x Hx; apply Hl; revert Hx; [apply (subseteq_drop 25)|apply (subseteq_take 25)].
  - apply Hb; [|done]. intros x Hx. apply Hl. revert Hx. apply (subseteq_take 25).
Qed.

Lemma batch_sees now b s k i : sees (BatchWriteItem (jobToItem zone now ttlDays <$> b) s).2 k i → sees s k i ∨ ∃ j, j ∈ b ∧ Uuid j = k ∧ i = item now j.
Proof.
  set (l := _ <$> b). pose proof (dl_batch_reads l s k (Some i)) as Hr. pose proof (dl_batch l s) as Ht.
  destruct (BatchWriteItem l s) as [r s']. cbn [snd] in *. destruct Ht as (m & written & rest & Hm & Hp & Ht & _).
  assert (Htab : table s' !! k = Some i → sees s k i ∨ ∃ j, j ∈ b ∧ Uuid j = k ∧ i = item now j).
  { rewrite Ht. intros [H|[H1 H2]]%put_items_cases; [left; left; by apply (decays_old _ m)|]. right.
    assert (Hin : i ∈ l) by (rewrite <- Hp; apply elem_of_app; by left). apply list_elem_of_fmap in Hin as (j & -> & Hj).
    exists j. by rewrite item_key_of in H2. }
  intros [H|H]; [by apply Htab|]. destruct (Hr H) as [H1|[H1|H1]]; [left; by right|left; by left|by apply Htab].
Qed.
Lemma batch_keeps now b s k i : k ∉ Uuid <$> b → table s !! k = Some i → i !! "expiresAt"%string = None →
  table (BatchWriteItem (jobToItem zone now ttlDays <$> b) s).2 !! k = Some i.
Proof.
  intros Hk Hi Hx. pose proof (dl_batch (jobToItem zone now ttlDays <$> b) s) as Ht. destruct (BatchWriteItem _ s) as [r s']. cbn [snd].
  destruct Ht as (m & written & rest & Hm & Hp & -> & _). rewrite put_items_other; [by apply (decays_keep (table s))|].
  intros Hin. apply Hk. assert (Hin2 : k ∈ item_key <$> (written ++ rest)) by (rewrite fmap_app; apply elem_of_app; by left).
  rewrite Hp, <- list_fmap_compose in Hin2. apply list_elem_of_fmap in Hin2 as (j & -> & Hj). unfold compose. rewrite item_key_of. by apply list_elem_of_fmap_2.
Qed.

Lemma create_run now j s : (dynamo_Create zone ttlDays now j s).2 = (PutItem NotExists (item now (started now j)) s).2.
Proof. unfold dynamo_Create. by destruct (PutItem _ _ s) as [[[]|[]] s']. Qed.
Lemma update_run now j s : (dynamo_Update zone ttlDays now j s).2 = (PutItem Exists (item now j) s).2.
Proof. unfold dynamo_Update. by destruct (PutItem _ _ s) as [[[]|[]] s']. Qed.
Lemma delete_run k (s : St) : (dynamo_Delete k s).2 = (DeleteItem k s).2.
Proof. unfold dynamo_Delete. by destruct (DeleteItem k s) as [[[]|e] s']. Qed.
Lemma get_run k (s : St) : (dynamo_Get fuel k s).2 = (GetItem k s).2.
Proof. unfold dynamo_Get. by destruct (GetItem k s) as [[[x|]|e] s']. Qed.
Lemma list_run f (s : St) : (dynamo_List fuel f s).2 = (Scan (scan_input f).1 (scan_input f).2 s).2.
Proof. unfold dynamo_List. destruct (scan_input f) as [st lim]. cbn [fst snd]. by destruct (Scan st lim s) as [[x|e] s']. Qed.
Lemma started_uuid now j : Uuid (started now j) = Uuid j.
Proof. unfold started. by destruct (StartTime j =? 0). Qed.

(** An operation shows nothing but what was there and what it submits. *)
Lemma dstep_sees op s k i : sees (dstep s op) k i → sees s k i ∨ ∃ now j, j ∈ submitted op ∧ Uuid j = k ∧ i = item now j.
Proof.
  destruct op as [now j|now j|k'|now jobs|k'|f]; cbn [Dynamo.dstep submitted].
  - rewrite create_run. intros [H|[H1 H2]]%put_sees; [by left|]. right. exists now, (started now j). split; [by left|done].
  - rewrite update_run. intros [H|[H1 H2]]%put_sees; [by left|]. right. exists now, j. split; [by left|done].
  - rewrite delete_run. pose proof (dl_delete_reads k' s k (Some i)) as Hr. pose proof (dl_delete k' s) as Ht.
    destruct (DeleteItem k' s) as [r s']. cbn [snd] in *. destruct Ht as (m & Hm & Ht). intros H. left.
    assert (Htab : table s' !! k = Some i → sees s k i).
    { clear H. intros H. left. apply (decays_old _ m); [done|]. assert (Hd : table s' = m ∨ table s' = delete k' m) by (destruct r; auto).
      destruct Hd as [E|E]; rewrite E in H; [done|]. by apply lookup_delete_Some in H as [_ H]. }
    destruct H as [H|H]; [by apply Htab|]. destruct (Hr H) as [H1|[H1|H1]]; [by right|by left|by apply Htab].
  - unfold dynamo_Sync. revert i. apply (sync_ind (λ s', ∀ i, sees s' k i → sees s k i ∨ ∃ now j, j ∈ jobs ∧ Uuid j = k ∧ i = item now j)); [|by left].
    intros b s1 Hb IH i Hi. apply batch_sees in Hi as [Hi|(j & Hj & Hk & ->)]; [by apply IH|]. right. exists now, j. split; [by apply Hb|done].
  - rewrite get_run. pose proof (dl_get_reads k' s k (Some i)) as Hr. pose proof (dl_get k' s) as Ht. destruct (GetItem k' s) as [r s']. cbn [snd] in *.
    destruct Ht as [Hd _]. intros [H|H]; left; [left; by apply (decays_old _ (table s'))|].
    destruct (Hr H) as [H1|[H1|H1]]; [by right|by left|left; by apply (decays_old _ (table s'))].
  - rewrite list_run. set (a := (scan_input f).1). set (b := (scan_input f).2). pose proof (dl_scan_reads a b s k (Some i)) as Hr. pose proof (dl_scan a b s) as Ht.
    destruct (Scan a b s) as [r s']. cbn [snd] in *.
    destruct Ht as [Hd _]. intros [H|H]; left; [left; by apply (decays_old _ (table s'))|].
    destruct (Hr H) as [H1|[H1|H1]]; [by right|by left|left; by apply (decays_old _ (table s'))].
Qed.

(** A job that does not expire stays as it is while no operation is about it. *)
Lemma dstep_keeps op s k i : ¬ touches k op → table s !! k = Some i → i !! "expiresAt"%string = None → table (dstep s op) !! k = Some i.
Proof.
  intros Hn Hi Hx. destruct op as [now j|now j|k'|now jobs|k'|f]; cbn [Dynamo.dstep touches] in *.
  - rewrite create_run. by apply put_keeps.
  - rewrite update_run. by apply put_keeps.
  - rewrite delete_run. pose proof (dl_delete k' s) as Ht. destruct (DeleteItem k' s) as [r s']. cbn [snd]. destruct Ht as (m & Hm & Ht).
    pose proof (decays_keep _ _ _ _ Hm Hi Hx) as Hk. assert (Hd : table s' = m ∨ table s' = delete k' m) by (destruct r; auto).
    destruct Hd as [->| ->]; [done|by rewrite lookup_delete_ne].
  - unfold dynamo_Sync. apply (sync_ind (λ s', table s' !! k = Some i)); [|done]. intros b s1 Hb H1. apply batch_keeps; [|done|done].
    intros Hin. apply Hn. apply list_elem_of_fmap in Hin as (j & -> & Hj). by apply list_elem_of_fmap_2, Hb.
  - rewrite get_run. pose proof (dl_get k' s) as Ht. destruct (GetItem k' s) as [r s']. by apply (decays_keep _ _ _ _ (proj1 Ht)).
  - rewrite list_run. pose proof (dl_scan (scan_input f).1 (scan_input f).2 s) as Ht. destruct (Scan _ _ s) as [r s']. by apply (decays_keep _ _ _ _ (proj1 Ht)).
Qed.
Lemma drun_keeps ops s k i : Forall (λ op, ¬ touches k op) ops → table s !! k = Some i → i !! "expiresAt"%string = None → table (drun ops s) !! k = Some i.
Proof. intros Ho. revert s. induction Ho as [|op ops H Ho IH]; intros s Hi Hx; [done|]. apply IH; [by apply dstep_keeps|done]. Qed.
Lemma drun_sees ops s k i : sees (drun ops s) k i → sees s k i ∨ ∃ now j, j ∈ flat_map submitted ops ∧ Uuid j = k ∧ i = item now j.
Proof.
  revert s. induction ops as [|op ops IH]; intros s H; [by left|]. cbn [flat_map]. destruct (IH _ H) as [H1|(now & j & H1 & H2)].
  - apply dstep_sees in H1 as [H1|(now & j & H1 & H2)]; [by left|]. right. exists now, j. split; [apply elem_of_app; by left|done].
  - right. exists now, j. split; [apply elem_of_app; by right|done].
Qed.

(** C28 What the table holds of a job whose creation was acknowledged is kept. The job has
    limits that their constructors made, numbers of their widths and four-digit years. While
    no operation is about it (a second creation may be), and unless it has ended and is
    given a time to live, whatever else is created, updated, deleted, synchronised and
    listed, and whichever calls fail, its item is in the table and stands for the stored
    image of the job: the job that was sent, its limits included, with times to the second
    and without its time-out, the MIG instances, the uploads, the secret environment and the
    path of its control group, which the item does not carry. Once reads have caught up, a
    request for it is answered with that image or with the failure of the call. *)
Theorem created_job_kept now j s s1 ops : sound_job zone fuel (started now j) →
  ttlDays ≤ 0 ∨ Status j ≠ "COMPLETED"%string ∧ Status j ≠ "FAILED"%string →
  dynamo_Create zone ttlDays now j s = (Ok tt, s1) → Forall (λ op, ¬ touches (Uuid j) op) ops →
  let s2 := drun ops s1 in
  (∃ i, table s2 !! Uuid j = Some i ∧ itemToJob fuel i = Some (stored_image (started now j))) ∧
  ∀ r s3, dynamo_Get fuel (Uuid j) s2 = (r, s3) → (∀ o, readable s3 (Uuid j) o → o = table s3 !! Uuid j) →
    r = Some (Ok (stored_image (started now j))) ∨ ∃ e, r = Some (Err (storage_failure "failed to get job" e)).
Proof.
  intros Hj Ht Hc Hops s2. assert (Hi : table s1 !! Uuid j = Some (item now (started now j))).
  { unfold dynamo_Create in Hc. pose proof (dl_put NotExists (item now (started now j)) s) as Hp. destruct (PutItem _ _ s) as [r s']. destruct r as [u|[]]; [|done..].
    injection Hc as <-. destruct Hp as (m & _ & _ & ->). rewrite item_key_of, started_uuid. by apply lookup_insert_eq. }
  assert (Hx : item now (started now j) !! "expiresAt"%string = None).
  { rewrite item_expires. assert (E : Status (started now j) = Status j) by (unfold started; by destruct (_ =? 0)). rewrite E.
    destruct Ht as [Ht|[H1 H2]]; [by rewrite Z.gtb_ltb, (proj2 (Z.ltb_ge _ _))|]. rewrite !bool_decide_eq_false_2 by done. by rewrite andb_false_r. }
  pose proof (drun_keeps ops s1 _ _ Hops Hi Hx) as H2. fold s2 in H2. split; [eexists; split; [done|by apply item_image]|].
  intros r s3 Hg Hr. unfold dynamo_Get in Hg. pose proof (dl_get (Uuid j) s2) as Hl. destruct (GetItem (Uuid j) s2) as [g s3']. destruct Hl as [Hd Hl].
  pose proof (decays_keep _ _ _ _ Hd H2 Hx) as H3. destruct g as [o|e]; [|injection Hg as <- <-; right; by eexists]. left. specialize (Hl o eq_refl).
  assert (s3 = s3') as -> by (destruct o; by injection Hg). rewrite (Hr _ Hl), H3 in Hg. injection Hg as <-. by rewrite item_image.
Qed.

(** Nothing is made up.  Starting from an empty table, whatever calls succeed, fail or
    are half done and however stale the reads are, a job that is returned for an
    identifier is the stored image of one that was submitted under it, and a list holds
    images of submitted jobs only, each of the status asked for, no more than the limit;
    and reading an item never fails to end. *)
Theorem dynamo_answers_submitted ops s0 : table s0 = ∅ → (∀ k o, readable s0 k o → o = None) →
  Forall (sound_job zone fuel) (flat_map submitted ops) →
  let s := drun ops s0 in
  (∀ k, match (dynamo_Get fuel k s).1 with
        | Some (Ok j) => ∃ j0, j0 ∈ flat_map submitted ops ∧ Uuid j0 = k ∧ j = stored_image j0
        | Some (Err _) => True
        | None => False
        end) ∧
  (∀ f, match (dynamo_List fuel f s).1 with
        | Some (Ok l) => (∀ j, j ∈ l → ∃ j0, j0 ∈ flat_map submitted ops ∧ j = stored_image j0 ∧
                            ∀ f', f = Some f' → f_Status f' ≠ ""%string → Status j = f_Status f') ∧
                         ∀ f', f = Some f' → 0 < f_Limit f' → in_int32 (f_Limit f') → Z.of_nat (length l) ≤ f_Limit f'
        | Some (Err _) => True
        | None => False
        end).
Proof.
  intros H0 Hr Hs s.
  assert (Horigin : ∀ s', (∀ k i, readable s' k (Some i) → sees s k i) → ∀ k i, readable s' k (Some i) →
    ∃ j0, j0 ∈ flat_map submitted ops ∧ Uuid j0 = k ∧ itemToJob fuel i = Some (stored_image j0) ∧ i !! "jobStatus"%string = Some (AS (Status j0))).
  { intros s' Hs' k i Hi%Hs'. apply drun_sees in Hi as [[Hi|Hi]|(now & j & Hj & Hk & ->)]; [by rewrite H0 in Hi|by apply Hr in Hi|].
    exists j. split_and!; [done|done|apply item_image; by rewrite Forall_forall in Hs; apply Hs|]. unfold jobToItem.
    by repeat first [rewrite put_if_eq | rewrite put_if_ne by reflexivity]. }
  split.
  - intros k. unfold dynamo_Get. pose proof (dl_get_reads k s) as Hg. pose proof (dl_get k s) as Hd. destruct (GetItem k s) as [[[i|]|e] s']; cbn [fst snd] in *; [|done..].
    destruct Hd as [Hd Hi]. destruct (Horigin s') with (k := k) (i := i) as (j0 & H1 & H2 & -> & _); [|by apply Hi|by exists j0].
    intros k' i' Hk'. destruct (Hg _ _ Hk') as [?|[?|?]]; [by right|by left|left; by apply (decays_old _ (table s'))].
  - intros f. unfold dynamo_List. destruct (scan_input f) as [st lim] eqn:Ef. pose proof (dl_scan_reads st lim s) as Hg. pose proof (dl_scan st lim s) as Hd.
    destruct (Scan st lim s) as [[items|e] s']; cbn [fst snd] in *; [|done]. destruct Hd as [Hd Hi]. destruct (Hi items eq_refl) as [Hf Hn].
    assert (Hor : ∀ i, i ∈ items → ∃ j0, j0 ∈ flat_map submitted ops ∧ itemToJob fuel i = Some (stored_image j0) ∧ ∀ v, st = Some v → Status j0 = v).
    { intros i Hin. rewrite Forall_forall in Hf. destruct (Hf i Hin) as [[k Hk] Hst]. destruct (Horigin s') with (k := k) (i := i) as (j0 & H1 & H2 & H3 & H4); [|done|].
      - intros k' i' Hk'. destruct (Hg _ _ Hk') as [?|[?|?]]; [by right|by left|left; by apply (decays_old _ (table s'))].
      - exists j0. split_and!; [done|done|]. intros v Hv. specialize (Hst v Hv). rewrite H4 in Hst. by injection Hst. }
    assert (Hm : ∃ l, mapM (itemToJob fuel) items = Some l ∧ length l = length items ∧
      ∀ j, j ∈ l → ∃ j0, j0 ∈ flat_map submitted ops ∧ j = stored_image j0 ∧ ∀ v, st = Some v → Status j0 = v).
    { clear -Hor. induction items as [|i items IH]; [exists []; split_and!; [done|done|]; by intros j ?%not_elem_of_nil|].
      destruct IH as (l & H1 & H2 & H3); [intros i' H; apply Hor; by right|]. destruct (Hor i) as (j0 & Hj & Hi & Hv); [by left|].
      exists (stored_image j0 :: l). cbn [mapM mbind option_bind]. rewrite Hi. cbn [mbind option_bind]. rewrite H1. cbn. split_and!; [done|by rewrite H2|].
      intros j [->|Hin]%elem_of_cons; [by exists j0|by apply H3]. }
    destruct Hm as (l & -> & Hlen & Hl). cbn [fmap option_fmap option_map]. unfold scan_input in Ef. split.
    + intros j Hj. destruct (Hl j Hj) as (j0 & H1 & -> & H2). exists j0. split_and!; [done|done|]. intros f' -> Hne. rewrite bool_decide_eq_false_2 in Ef by done.
      injection Ef as <- _. by apply H2.
    + intros f' -> Hpos Hin. rewrite (Z.gtb_ltb _ 0), (proj2 (Z.ltb_lt _ _)) in Ef by lia. injection Ef as _ <-. rewrite Hlen. specialize (Hn _ eq_refl).
      by rewrite wrap_id in Hn by (lia || done).
Qed.

(** The errors of the SDK are wrapped ones: then a conflict and a missing job are reported
    as failures of the call, not as what the other stores report. *)
Lemma conflict_not_recognised now j s : (∀ c i s t, (PutItem c i s).1 ≠ Err (ConditionalCheckFailed t)) →
  (dynamo_Create zone ttlDays now j s).1 ≠ Err ErrJobAlreadyExists ∧ (dynamo_Update zone ttlDays now j s).1 ≠ Err ErrJobNotFound.
Proof.
  intros H. split.
  - unfold dynamo_Create. pose proof (H NotExists (item now (started now j)) s) as Hp. destruct (PutItem _ _ s) as [[u|[t|t e|t]] s']; cbn in *; try done. by specialize (Hp t).
  - unfold dynamo_Update. pose proof (H Exists (item now j) s) as Hp. destruct (PutItem _ _ s) as [[u|[t|t e|t]] s']; cbn in *; try done. by specialize (Hp t).
Qed.
End laws.

(** ** A service, and concrete inputs *)

(** It reads what is in the table, wraps its exceptions, takes limits from 1 up and
    processes the first [dt_cap] items of a batch. *)
Record dyt := { dt_table : gmap string Item; dt_cap : nat }.
Definition with_table (m : gmap string Item) (s : dyt) : dyt := {| dt_table := m; dt_cap := dt_cap s |}.
Definition cond_check (c : condition) (o : option Item) : bool :=
  match c, o with NotExists, None | Exists, Some _ => true | _, _ => false end.
Definition has_status (st : option string) (i : Item) : bool :=
  match st with Some v => match i !! "jobStatus"%string with Some (AS v') => String.eqb v v' | _ => false end | None => true end.
Definition dyt_scan (st : option string) (lim : option Z) (s : dyt) : result api_error (list Item) :=
  let items := (map_to_list (dt_table s)).*2 in
  match lim with
  | None => Ok (List.filter (has_status st) items)
  | Some n => if n <? 1 then Err (Wrapped "operation error DynamoDB: Scan" (Failed "ValidationException"))
              else Ok (List.filter (has_status st) (take (Z.to_nat n) items))
  end.

#[export] Instance dyt_service : DynamoDB dyt := {|
  PutItem c i s := if cond_check c (dt_table s !! item_key i) then (Ok tt, with_table (<[item_key i := i]> (dt_table s)) s)
                   else (Err (Wrapped "operation error DynamoDB: PutItem" (ConditionalCheckFailed "The conditional request failed")), s);
  GetItem k s := (Ok (dt_table s !! k), s);
  DeleteItem k s := (Ok tt, with_table (delete k (dt_table s)) s);
  Scan st lim s := (dyt_scan st lim s, s);
  BatchWriteItem l s := (Ok (drop (dt_cap s) l), with_table (put_items (dt_table s) (take (dt_cap s) l)) s);
|}.

Lemma cond_check_spec c o : cond_check c o = true ↔ cond_holds c o.
Proof. destruct c, o; cbn; by split. Qed.

Lemma dyt_scan_ok st lim s l : dyt_scan st lim s = Ok l →
  Forall (λ i, (∃ k, Some i = dt_table s !! k) ∧ ∀ v, st = Some v → i !! "jobStatus"%string = Some (AS v)) l ∧
  ∀ n, lim = Some n → Z.of_nat (length l) ≤ n.
Proof.
  assert (Hf : ∀ items : list Item, (∀ i, i ∈ items → i ∈ (map_to_list (dt_table s)).*2) →
    Forall (λ i, (∃ k, Some i = dt_table s !! k) ∧ ∀ v, st = Some v → i !! "jobStatus"%string = Some (AS v)) (List.filter (has_status st) items)).
  { intros items Hi. apply Forall_forall. intros i Hin. apply list_elem_of_In, filter_In in Hin as [Hin Hst]. apply list_elem_of_In, Hi in Hin. split.
    - apply list_elem_of_fmap in Hin as ([k x] & -> & H%elem_of_map_to_list). by exists k.
    - intros v ->. unfold has_status in Hst. destruct (i !! "jobStatus"%string) as [[]|]; try done. by apply String.eqb_eq in Hst as ->. }
  unfold dyt_scan. destruct lim as [n|]; [destruct (Z.ltb_spec n 1); [done|]|]; intros [= <-]; (split; [apply Hf|]); try done.
  - intros i. apply subseteq_take.
  - intros m [= <-]. assert (Hl : ∀ l : list Item, (length (List.filter (has_status st) l) ≤ length l)%nat) by (intros l; apply filter_length_le).
    specialize (Hl (take (Z.to_nat n) (map_to_list (dt_table s)).*2)). rewrite length_take in Hl. lia.
Qed.

#[export] Instance dyt_laws : DynamoLaws dyt.
Proof.
  refine {| table := dt_table; readable s k o := o = dt_table s !! k |}.
  - intros c i s. cbn. destruct (cond_check c _) eqn:E; exists (dt_table s); (split; [done|]); cbn.
    + split; [by apply cond_check_spec|done].
    + split; [|done]. intros H%cond_check_spec. by rewrite H in E.
  - intros k s. by exists (dt_table s).
  - intros k s. split; [done|]. by intros o [= <-].
  - intros st lim s. split; [done|]. cbn. intros l Hl. by apply dyt_scan_ok in Hl.
  - intros l s. cbn. exists (dt_table s), (take (dt_cap s) l), (drop (dt_cap s) l). split_and!; [done|by rewrite take_drop|done|]. by intros u [= <-].
  - intros c i s k o ->. auto.
  - intros x s k o ->. auto.
  - intros x s k o ->. auto.
  - intros st lim s k o ->. auto.
  - intros l s k o ->. auto.
Defined.

Local Abbreviation in_utc := (λ _ : Z, 0).
(** The job [a] with limits, started on the 17th of December 2023. *)
Definition a_day : Z := 63838368000500000000.
Definition limited : ResourceLimits := {|
  CPU := {| cpu_value := 50 |}; CPUCores := {| core_list := [0; 1]; core_spec := "0-1" |};
  Memory := {| mem_bytes := 1048576 |}; IOBandwidth := {| bw_bytes := 0 |} |}.
Definition limited_job : Job := with_StartTime (sample_job limited) a_day.
Definition other_job : Job := with_StartTime (blank_job "b" "RUNNING" None) 0.
Definition empty_service : dyt := {| dt_table := ∅; dt_cap := 1 |}.
Definition dynamo_ops : list dop :=
  [DCreate 1 (sample_job half_core); DCreate a_day other_job; DUpdate 2 other_job; DSync 3 [other_job]; DList None; DDelete "b"].

Lemma small_int w z : 32 ≤ w → 0 ≤ z < 2 ^ 31 → in_int w z.
Proof. intros Hw Hz. unfold in_int, min_int, max_int. assert (2 ^ 31 ≤ 2 ^ (w - 1)) by (apply Z.pow_le_mono_r; lia). lia. Qed.
Lemma sample_sound j l t : sound_limits 10 l → sound_time in_utc t → Limits j = l → StartTime j = t → EndTime j = None → ScheduledTime j = None →
  Pid j = 0 → ExitCode j = 0 → GPUCount j = 0 → GPUMemoryMB j = 0 → GPUIndices j = [] → sound_job in_utc 10 j.
Proof.
  intros Hl Ht E1 E2 E3 E4 E5 E6 E7 E8 E9. split; rewrite ?E1, ?E2, ?E3, ?E4, ?E5, ?E6, ?E7, ?E8, ?E9; try exact Hl; try exact Ht; try (intros t' H; discriminate H);
    try constructor; try lia; apply small_int; lia.
Qed.
Lemma day_sound : sound_time in_utc a_day.
Proof. split; vm_compute; by repeat split. Qed.
Lemma limited_sound : sound_job in_utc 10 limited_job.
Proof. apply (sample_sound limited_job limited a_day); try reflexivity; [|apply day_sound]. vm_compute. by repeat split. Qed.
Lemma other_sound : sound_job in_utc 10 (with_StartTime other_job a_day).
Proof. apply (sample_sound _ NewResourceLimits a_day); try reflexivity; [|apply day_sound]. vm_compute. by repeat split. Qed.

Lemma created_job_kept_witness :
  let s1 := (dynamo_Create in_utc 7 a_day limited_job empty_service).2 in
  (dynamo_Get 10 "a" (drun in_utc 7 10 dynamo_ops s1)).1 = Some (Ok (with_StartTime (sample_job limited) 63838368000000000000)).
Proof.
  destruct (created_job_kept in_utc 7 10 a_day limited_job empty_service (dynamo_Create in_utc 7 a_day limited_job empty_service).2 dynamo_ops) as [_ H].
  - exact limited_sound.
  - right. by split.
  - vm_compute. reflexivity.
  - repeat constructor; cbn [touches]; intros H; [done|done|discriminate H| |done|discriminate H].
    apply list_elem_of_fmap in H as (x & E & ->%list_elem_of_singleton). discriminate E.
  - cbv zeta. destruct (dynamo_Get 10 "a" _) as [r s3] eqn:E. destruct (H r s3 E) as [->|[e ->]]; [by intros o|vm_compute; reflexivity|].
    exfalso. vm_compute in E. discriminate E.
Defined.

Lemma dynamo_answers_submitted_witness :
  let s := drun in_utc 7 10 [DCreate a_day limited_job; DCreate a_day other_job] empty_service in
  (match (dynamo_Get 10 "b" s).1 with
   | Some (Ok j) => ∃ j0, j0 ∈ [limited_job; started a_day other_job] ∧ Uuid j0 = "b"%string ∧ j = stored_image j0
   | Some (Err _) => True | None => False end) ∧ is_Some (dynamo_Get 10 "b" s).1.
Proof.
  destruct (dynamo_answers_submitted in_utc 7 10 [DCreate a_day limited_job; DCreate a_day other_job] empty_service) as [H _].
  - reflexivity.
  - intros k o ->. apply lookup_empty.
  - cbn [flat_map submitted app]. constructor; [exact limited_sound|]. constructor; [exact other_sound|constructor].
  - split; [exact (H "b"%string)|]. vm_compute. by eexists.
Defined.

(** The limit is applied before the status: a running job is not listed. *)
Example limit_before_status :
  let s := drun in_utc 7 10 [DCreate a_day (with_StartTime (blank_job "a" "COMPLETED" None) a_day); DCreate a_day other_job] empty_service in
  (dynamo_List 10 (Some {| f_Status := "RUNNING"; f_NodeID := ""; f_Limit := 1; f_SortBy := ""; f_SortDesc := false; f_Statuses := [] |}) s).1 = Some (Ok []).
Proof. vm_compute. reflexivity. Qed.

(** A synchronisation acknowledges jobs that were not processed, and leaves those that are
    not in it, which the other stores remove. *)
Example sync_loses_and_keeps :
  let s := drun in_utc 7 10 [DCreate a_day (blank_job "old" "RUNNING" None)] empty_service in
  let '(r, s) := dynamo_Sync in_utc 7 a_day [limited_job; other_job] s in
  (r, (dynamo_Get 10 "b" s).1, bool_decide (is_Some (dt_table s !! "old"%string))) = (Ok tt, Some (Err ErrJobNotFound), true).
Proof. vm_compute. reflexivity. Qed.

(** Deleting a job that is not there succeeds; creating one that is reports a failure. *)
Example delete_missing : (dynamo_Delete "a" empty_service).1 = Ok tt.
Proof. reflexivity. Qed.
Example create_twice : (dynamo_Create in_utc 7 a_day other_job (drun in_utc 7 10 [DCreate a_day other_job] empty_service)).1 =
  Err (SaveError "failed to create job: operation error DynamoDB: PutItem").
Proof. vm_compute. reflexivity. Qed.
