(* ===== verification/StateService.v ===== *)
(** * The state service and its client (state/internal/ipc/server.go,
      internal/joblet/state: client_pooled.go, types.go)

    The request handler over any store ([StateBackend]), and the calls of the client
    with their retries.  Requests of different connections are served in any order,
    and a request that was written may be served after its call gave it up; calls,
    failures and the server's work interleave as steps. *)

From S2P Require Import Prelude GoStrings Values Paths Job StateBackend.
From Stdlib Require Import Ascii String.

Local Open Scope Z_scope.

(** ** Messages *)

(** The time stamp is left out: nothing reads it.
    [src/state/internal/ipc/server.go Message] *)
Record Message := {
  m_Operation : string; m_JobUUID : string; m_Job : option Job; m_Jobs : list Job;
  m_Filter : option Filter; m_RequestID : string;
}.

(** [src/state/internal/ipc/server.go Response] *)
Record Response := {
  r_RequestID : string; r_Success : bool; r_Job : option Job; r_Jobs : list Job; r_Error : string;
}.

(** [src/state/internal/ipc/server.go:323-330 OpCreate] *)
Definition OpCreate : string := "create".
Definition OpUpdate : string := "update".
Definition OpDelete : string := "delete".
Definition OpGet : string := "get".
Definition OpList : string := "list".
Definition OpSync : string := "sync".
(** [src/state/internal/ipc/server.go:323-331 OpPing] *)
Definition OpPing : string := "ping".

(** What the other side decodes.
    [src/internal/joblet/state/types.go:9-17 Message] *)
Definition wire_msg (m : Message) : Message := {|
  m_Operation := m_Operation m; m_JobUUID := m_JobUUID m; m_Job := job_wire <$> m_Job m;
  m_Jobs := job_wire <$> m_Jobs m; m_Filter := m_Filter m; m_RequestID := m_RequestID m;
|}.
(** [src/internal/joblet/state/types.go:19-25 Response] *)
Definition wire_resp (r : Response) : Response := {|
  r_RequestID := r_RequestID r; r_Success := r_Success r; r_Job := job_wire <$> r_Job r;
  r_Jobs := job_wire <$> r_Jobs r; r_Error := r_Error r;
|}.

(** ** The request handler *)

(** [src/state/internal/ipc/server.go Server.makeError] *)
Definition makeError (requestID code message : string) : Response :=
  {| r_RequestID := requestID; r_Success := false; r_Job := None; r_Jobs := []; r_Error := code +:+ ": " +:+ message |}.
Definition success (msg : Message) (job : option Job) (jobs : list Job) : Response :=
  {| r_RequestID := m_RequestID msg; r_Success := true; r_Job := job; r_Jobs := jobs; r_Error := "" |}.

Section server.
Context {St : Type} {SB : StateBackend St} {SS : SortSlice}.

(** [src/state/internal/ipc/server.go Server.handleCreate] *)
Definition handleCreate (w : world) (msg : Message) (s : St) : Response * St :=
  match m_Job msg with
  | None => (makeError (m_RequestID msg) "CREATE_ERROR" "job is required", s)
  | Some job => match sb_Create w job s with
                | (Err e, s) => (makeError (m_RequestID msg) "CREATE_ERROR" (Error e), s)
                | (Ok _, s) => (success msg (Some job) [], s) end
  end.

(** [src/state/internal/ipc/server.go Server.handleUpdate] *)
Definition handleUpdate (msg : Message) (s : St) : Response * St :=
  match m_Job msg with
  | None => (makeError (m_RequestID msg) "UPDATE_ERROR" "job is required", s)
  | Some job => match sb_Update job s with
                | (Err e, s) => (makeError (m_RequestID msg) "UPDATE_ERROR" (Error e), s)
                | (Ok _, s) => (success msg (Some job) [], s) end
  end.

(** [src/state/internal/ipc/server.go Server.handleDelete] *)
Definition handleDelete (msg : Message) (s : St) : Response * St :=
  if bool_decide (m_JobUUID msg = ""%string) then (makeError (m_RequestID msg) "DELETE_ERROR" "jobID is required", s)
  else match sb_Delete (m_JobUUID msg) s with
       | (Err e, s) => (makeError (m_RequestID msg) "DELETE_ERROR" (Error e), s)
       | (Ok _, s) => (success msg None [], s) end.

(** [src/state/internal/ipc/server.go Server.handleGet] *)
Definition handleGet (msg : Message) (s : St) : Response :=
  if bool_decide (m_JobUUID msg = ""%string) then makeError (m_RequestID msg) "GET_ERROR" "jobID is required"
  else match sb_Get (m_JobUUID msg) s with
       | Err e => makeError (m_RequestID msg) "GET_ERROR" (Error e)
       | Ok job => success msg (Some job) [] end.

(** Neither store here fails to list.
    [src/state/internal/ipc/server.go Server.handleList] *)
Definition handleList (w : world) (msg : Message) (s : St) : Response := success msg None (sb_List w (m_Filter msg) s).

(** [src/state/internal/ipc/server.go Server.handleSync] *)
Definition handleSync (w : world) (msg : Message) (s : St) : Response * St :=
  if bool_decide (m_Jobs msg = []) then (makeError (m_RequestID msg) "SYNC_ERROR" "jobs array is required", s)
  else match sb_Sync w (m_Jobs msg) s with
       | (Err e, s) => (makeError (m_RequestID msg) "SYNC_ERROR" (Error e), s)
       | (Ok _, s) => (success msg None [], s) end.

(** [src/state/internal/ipc/server.go Server.handlePing] *)
Definition handlePing (msg : Message) : Response := success msg None [].

(** [src/state/internal/ipc/server.go Server.processMessage] *)
Definition processMessage (w : world) (msg : Message) (s : St) : Response * St :=
  let op := m_Operation msg in
  if bool_decide (op = OpCreate) then handleCreate w msg s
  else if bool_decide (op = OpUpdate) then handleUpdate msg s
  else if bool_decide (op = OpDelete) then handleDelete msg s
  else if bool_decide (op = OpGet) then (handleGet msg s, s)
  else if bool_decide (op = OpList) then (handleList w msg s, s)
  else if bool_decide (op = OpSync) then handleSync w msg s
  else if bool_decide (op = OpPing) then (handlePing msg, s)
  else ({| r_RequestID := m_RequestID msg; r_Success := false; r_Job := None; r_Jobs := [];
           r_Error := "unknown operation: " +:+ op |}, s).
End server.

(** ** The client *)

(** [src/internal/joblet/state/client_pooled.go:14-18 DefaultMaxRetries] *)
Definition MaxRetries : nat := 3.

(** [src/internal/joblet/state/client_pooled.go isRetryableError] *)
Definition isRetryableError (err : string) : bool :=
  Contains err "connection" || Contains err "timeout" || Contains err "dial" ||
  Contains err "EOF" || Contains err "reset" || Contains err "broken pipe".

(** The wait before the retry [n], in milliseconds.
    [src/internal/joblet/state/client_pooled.go:240-254 PooledClient.sendMessageFireAndForget] *)
Fixpoint delay (n : nat) : Z :=
  match n with O => 100 | S n => Z.min (2 * delay n) 2000 end.

(** Where a call is: about to send, waiting for the reply, between two attempts, or
    returned. *)
Inductive stage := CTry | CWait | CBackoff (err : string) | CDone (r : result string Response).

(** [k_ack] tells the calls that only want the acknowledgment, and retry, from those
    that want the response; [k_attempt] counts from zero. *)
Record call := { k_msg : Message; k_ack : bool; k_attempt : nat; k_stage : stage }.

Definition at_stage (t : stage) (k : call) : call :=
  {| k_msg := k_msg k; k_ack := k_ack k; k_attempt := k_attempt k; k_stage := t |}.

(** [src/internal/joblet/state/client_pooled.go PooledClient.Create] *)
Definition Create_call (id : string) (job : Job) : call :=
  {| k_msg := {| m_Operation := "create"; m_JobUUID := ""; m_Job := Some job; m_Jobs := []; m_Filter := None; m_RequestID := id |};
     k_ack := true; k_attempt := 0; k_stage := CTry |}.
(** [src/internal/joblet/state/client_pooled.go PooledClient.Update] *)
Definition Update_call (id : string) (job : Job) : call :=
  {| k_msg := {| m_Operation := "update"; m_JobUUID := ""; m_Job := Some job; m_Jobs := []; m_Filter := None; m_RequestID := id |};
     k_ack := true; k_attempt := 0; k_stage := CTry |}.
(** [src/internal/joblet/state/client_pooled.go PooledClient.Delete] *)
Definition Delete_call (id jobID : string) : call :=
  {| k_msg := {| m_Operation := "delete"; m_JobUUID := jobID; m_Job := None; m_Jobs := []; m_Filter := None; m_RequestID := id |};
     k_ack := true; k_attempt := 0; k_stage := CTry |}.
(** [src/internal/joblet/state/client_pooled.go PooledClient.Sync] *)
Definition Sync_call (id : string) (jobs : list Job) : call :=
  {| k_msg := {| m_Operation := "sync"; m_JobUUID := ""; m_Job := None; m_Jobs := jobs; m_Filter := None; m_RequestID := id |};
     k_ack := true; k_attempt := 0; k_stage := CTry |}.
(** [src/internal/joblet/state/client_pooled.go PooledClient.Get] *)
Definition Get_call (id jobID : string) : call :=
  {| k_msg := {| m_Operation := "get"; m_JobUUID := jobID; m_Job := None; m_Jobs := []; m_Filter := None; m_RequestID := id |};
     k_ack := false; k_attempt := 0; k_stage := CTry |}.
(** [src/internal/joblet/state/client_pooled.go PooledClient.List] *)
Definition List_call (id : string) (filter : option Filter) : call :=
  {| k_msg := {| m_Operation := "list"; m_JobUUID := ""; m_Job := None; m_Jobs := []; m_Filter := filter; m_RequestID := id |};
     k_ack := false; k_attempt := 0; k_stage := CTry |}.

(** An attempt failed: it is retried when its error looks transient, the attempts are
    not used up, and the call wants no response.
    [src/internal/joblet/state/client_pooled.go:261-278 PooledClient.sendMessageFireAndForget] *)
Definition failed (err : string) (k : call) : call :=
  at_stage (if negb (k_ack k) || negb (isRetryableError err) then CDone (Err err)
            else if (k_attempt k <? MaxRetries)%nat then CBackoff err
            else CDone (Err ("operation failed after 3 retries: " +:+ err))) k.

(** A response arrived.
    [src/internal/joblet/state/client_pooled.go:289-307 PooledClient.trySendMessage] *)
Definition answered (r : Response) (k : call) : call :=
  if r_Success r then at_stage (CDone (Ok r)) k
  else if k_ack k then failed ("operation failed: " +:+ r_Error r) k
  else at_stage (CDone (Err (m_Operation (k_msg k) +:+ " failed: " +:+ r_Error r))) k.

(** ** Calls and server together *)

Section service.
Context {St : Type} {SB : StateBackend St} {SS : SortSlice}.

(** A request the server has served: of which call and attempt, what it met, and the
    response. *)
Record served := { v_call : nat; v_attempt : nat; v_world : world; v_msg : Message; v_resp : Response }.

(** [s_queue] are the requests written and not served yet. *)
Record sys := {
  s_db : St; s_calls : gmap nat call; s_queue : list (nat * nat * Message); s_log : list served;
}.

Definition with_call (c : nat) (k : call) (s : sys) : sys :=
  {| s_db := s_db s; s_calls := <[c := k]> (s_calls s); s_queue := s_queue s; s_log := s_log s |}.
Definition enqueue (c : nat) (k : call) (s : sys) : sys :=
  {| s_db := s_db s; s_calls := s_calls s; s_queue := s_queue s ++ [(c, k_attempt k, wire_msg (k_msg k))]; s_log := s_log s |}.

(** One request is served; the response arrives when the connection still lives and the
    call still waits on it.  Each connection has a goroutine of its own.  The handlers of the memory and
    local stores do all their work under the store's mutex, so that serving is one step for those
    stores; the table of DynamoDB, where [Create] and [Sync] are several calls, is in [Dynamo].
    [src/state/internal/ipc/server.go:139-164 Server.handleConnection] *)
Definition serve (i : nat) (w : world) (arrives : bool) (s : sys) : option sys :=
  '(c, n, msg) ← s_queue s !! i;
  let '(r, db) := processMessage w msg (s_db s) in
  let s1 := {| s_db := db; s_calls := s_calls s; s_queue := delete i (s_queue s);
               s_log := s_log s ++ [{| v_call := c; v_attempt := n; v_world := w; v_msg := msg; v_resp := r |}] |} in
  Some (match s_calls s !! c with
        | Some k => match k_stage k with
                    | CWait => if arrives && (k_attempt k =? n)%nat then with_call c (answered (wire_resp r) k) s1 else s1
                    | _ => s1 end
        | None => s1 end).

Inductive saction :=
| SStart (c : nat) (k : call)
| SNoConn (c : nat) (err : string)
| SWrite (c : nat) | SWriteFails (c : nat) (err : string) (arrived : bool)
| SServe (i : nat) (w : world) (arrives : bool) | SDrop (i : nat)
| SLost (c : nat) (err : string)
| SRetry (c : nat) | SCancel (c : nat) (err : string).

Definition next_attempt (k : call) : call :=
  {| k_msg := k_msg k; k_ack := k_ack k; k_attempt := S (k_attempt k); k_stage := CTry |}.

(** One step, when it is possible.  A failed write may still have delivered the whole
    request; a request whose call gave up stays with the server, which may serve it
    later or, when it stops or drops the connection, never. *)
Definition sact (s : sys) (a : saction) : option sys :=
  match a with
  | SStart c k => match s_calls s !! c, k_stage k with
                  | None, CTry => if (k_attempt k =? 0)%nat then Some (with_call c k s) else None
                  | _, _ => None end
  | SNoConn c err => k ← s_calls s !! c;
      match k_stage k with CTry => Some (with_call c (failed ("failed to acquire connection: " +:+ err) k) s) | _ => None end
  | SWrite c => k ← s_calls s !! c;
      match k_stage k with CTry => Some (with_call c (at_stage CWait k) (enqueue c k s)) | _ => None end
  | SWriteFails c err arrived => k ← s_calls s !! c;
      match k_stage k with
      | CTry => Some (with_call c (failed ("failed to write to state socket: " +:+ err) k) (if arrived then enqueue c k s else s))
      | _ => None end
  | SServe i w arrives => serve i w arrives s
  | SDrop i => Some {| s_db := s_db s; s_calls := s_calls s; s_queue := delete i (s_queue s); s_log := s_log s |}
  | SLost c err => k ← s_calls s !! c;
      match k_stage k with CWait => Some (with_call c (failed err k) s) | _ => None end
  | SRetry c => k ← s_calls s !! c;
      match k_stage k with CBackoff _ => Some (with_call c (next_attempt k) s) | _ => None end
  | SCancel c err => k ← s_calls s !! c;
      match k_stage k with
      | CBackoff last => Some (with_call c (at_stage (CDone (Err ("context cancelled during retry: " +:+ err +:+ " (last error: " +:+ last +:+ ")"))) k) s)
      | _ => None end
  end.

Fixpoint sacts (s : sys) (l : list saction) : option sys :=
  match l with [] => Some s | a :: l => s' ← sact s a; sacts s' l end.
Definition boot (db : St) : sys := {| s_db := db; s_calls := ∅; s_queue := []; s_log := [] |}.

(** ** The requests, one after the other *)

(** Serving the requests of the log one after the other from [db] gives the responses
    recorded and ends in [db']. *)
Fixpoint replays (db : St) (log : list served) (db' : St) : Prop :=
  match log with
  | [] => db' = db
  | v :: log => let '(r, db1) := processMessage (v_world v) (v_msg v) db in r = v_resp v ∧ replays db1 log db'
  end.

Lemma replays_app db log v db' : replays db log db' → ∀ db2, processMessage (v_world v) (v_msg v) db' = (v_resp v, db2) →
  replays db (log ++ [v]) db2.
Proof.
  revert db. induction log as [|u log IH]; cbn; intros db H db2 E.
  - subst. by rewrite E.
  - destruct (processMessage _ _ db) as [r db1]. destruct H as [-> H]. split; [done|by eapply IH].
Qed.

Lemma replays_split db log1 log2 db' : replays db (log1 ++ log2) db' ↔ ∃ db1, replays db log1 db1 ∧ replays db1 log2 db'.
Proof.
  revert db. induction log1 as [|u log1 IH]; cbn; intros db; [naive_solver|].
  destruct (processMessage _ _ db) as [r db1]. rewrite IH. naive_solver.
Qed.

(** ** Bookkeeping *)

Definition key_q (x : nat * nat * Message) : nat * nat := x.1.
Definition key_v (v : served) : nat * nat := (v_call v, v_attempt v).

(** A request was written by attempt [n] of call [c]. *)
Definition written (m : gmap nat call) (c n : nat) (msg : Message) : Prop :=
  ∃ k, m !! c = Some k ∧ msg = wire_msg (k_msg k) ∧ (n ≤ k_attempt k)%nat ∧
    (k_stage k = CTry → (n < k_attempt k)%nat).

Definition call_ok (log : list served) (c : nat) (k : call) : Prop :=
  (k_attempt k ≤ MaxRetries)%nat ∧ (∀ e, k_stage k = CBackoff e → (k_attempt k < MaxRetries)%nat) ∧
  (∀ r, k_stage k = CDone (Ok r) → ∃ v, v ∈ log ∧ v_call v = c ∧ r = wire_resp (v_resp v) ∧ r_Success r = true).

Record sys_inv (db0 : St) (s : sys) : Prop := {
  si_replay : replays db0 (s_log s) (s_db s);
  si_once : NoDup ((key_q <$> s_queue s) ++ (key_v <$> s_log s));
  si_queue : ∀ c n msg, (c, n, msg) ∈ s_queue s → written (s_calls s) c n msg;
  si_log : ∀ v, v ∈ s_log s → written (s_calls s) (v_call v) (v_attempt v) (v_msg v);
  si_calls : ∀ c k, s_calls s !! c = Some k → call_ok (s_log s) c k;
}.

(** What a call may become: the same message, an attempt that is no earlier, and no
    attempt begun again. *)
Definition evolves (k k' : call) : Prop :=
  k_msg k' = k_msg k ∧ (k_attempt k ≤ k_attempt k')%nat ∧
  (k_stage k' = CTry → k_stage k = CTry ∧ k_attempt k' = k_attempt k ∨ (k_attempt k < k_attempt k')%nat).

Lemma written_evolves m c k k' c' n msg : m !! c = Some k → evolves k k' → written m c' n msg →
  written (<[c := k']> m) c' n msg.
Proof.
  intros Hc (Hm & Ha & Ht) (k0 & E & -> & Hn & Hs). destruct (decide (c' = c)) as [->|Hne].
  - simplify_eq. exists k'. rewrite lookup_insert_eq, Hm. split_and!; [done|done|lia|].
    intros Hk'. destruct (Ht Hk') as [[H1 H2]|H1]; [rewrite H2; by apply Hs|lia].
  - exists k0. by rewrite lookup_insert_ne.
Qed.

Lemma written_new m c k c' n msg : m !! c = None → written m c' n msg → written (<[c := k]> m) c' n msg.
Proof.
  intros Hc (k0 & E & H). exists k0. rewrite lookup_insert_ne by naive_solver. done.
Qed.

Lemma call_ok_log log log' c k : (∀ v, v ∈ log → v ∈ log') → call_ok log c k → call_ok log' c k.
Proof. intros Hl (H1 & H2 & H3). split; [done|split; [done|]]. intros r E. destruct (H3 r E) as (v & ? & ?). eauto. Qed.

(** A call changes and nothing else does. *)
Lemma inv_call db0 s c k k' : sys_inv db0 s → s_calls s !! c = Some k → evolves k k' → call_ok (s_log s) c k' →
  sys_inv db0 (with_call c k' s).
Proof.
  intros [H1 H2 H3 H4 H5] Hc He Hk. split; cbn; [done|done| | |].
  - intros c' n msg Hin. eapply written_evolves; [done|done|by apply H3].
  - intros v Hin. eapply written_evolves; [done|done|by apply H4].
  - intros c' k0 [[<- <-]|[_ E]]%lookup_insert_Some; [done|by apply H5].
Qed.

Lemma evolves_stage k t : t ≠ CTry → evolves k (at_stage t k).
Proof. intros Ht. split; [done|split; [done|]]. by intros E. Qed.

Lemma evolves_failed e k : evolves k (failed e k).
Proof. apply evolves_stage. by repeat case_match. Qed.

Lemma call_ok_failed log c e k : call_ok log c k → call_ok log c (failed e k).
Proof.
  intros (H1 & _ & _). unfold failed. destruct (_ || _); [by repeat split|].
  destruct (Nat.ltb_spec (k_attempt k) MaxRetries); by repeat split.
Qed.

Lemma evolves_answered r k : evolves k (answered r k).
Proof.
  unfold answered. destruct (r_Success r); [by apply evolves_stage|].
  destruct (k_ack k); [apply evolves_failed|by apply evolves_stage].
Qed.

Lemma call_ok_answered log c r k v : call_ok log c k → v ∈ log → v_call v = c → r = wire_resp (v_resp v) →
  call_ok log c (answered r k).
Proof.
  intros Hk Hin Hc Hr. unfold answered. destruct (r_Success r) eqn:Es.
  - destruct Hk as (H1 & _ & _). split; [done|split; [done|]]. intros r' [= <-]. by exists v.
  - destruct (k_ack k); [by apply call_ok_failed|]. destruct Hk as (H1 & _ & _). by repeat split.
Qed.

Lemma inv_write db0 s c k k' : sys_inv db0 s → s_calls s !! c = Some k → k_stage k = CTry →
  k_msg k' = k_msg k → k_attempt k' = k_attempt k → k_stage k' ≠ CTry → call_ok (s_log s) c k' →
  sys_inv db0 (with_call c k' (enqueue c k s)).
Proof.
  intros [H1 H2 H3 H4 H5] Hc Ht Hm Ha Hs Hk. assert (He : evolves k k') by (split_and!; [done|lia|done]).
  assert (Hnew : ∀ n msg, written (s_calls s) c n msg → n ≠ k_attempt k).
  { intros n msg (k0 & E & _ & _ & Hlt). simplify_eq. specialize (Hlt Ht). lia. }
  split; cbn; [done| | | |].
  - rewrite fmap_app, <- app_assoc. cbn. rewrite <- Permutation_middle. apply NoDup_cons. split; [|done].
    rewrite elem_of_app, !list_elem_of_fmap. intros [([[c' n] msg] & E & Hin)|(v & E & Hin)]; cbn in E; unfold key_v in E; simplify_eq.
    + by eapply Hnew; [apply H3|].
    + by eapply Hnew; [apply H4|].
  - intros c' n msg [Hin|Hin%list_elem_of_singleton]%elem_of_app; [eapply written_evolves; [done|done|by apply H3]|].
    simplify_eq. exists k'. rewrite lookup_insert_eq. split_and!; [done|by rewrite Hm|lia|done].
  - intros v Hin. eapply written_evolves; [done|done|by apply H4].
  - intros c' k0 [[<- <-]|[_ E]]%lookup_insert_Some; [done|by apply H5].
Qed.

Lemma inv_drop db0 s i : sys_inv db0 s →
  sys_inv db0 {| s_db := s_db s; s_calls := s_calls s; s_queue := delete i (s_queue s); s_log := s_log s |}.
Proof.
  intros [H1 H2 H3 H4 H5]. split; cbn; [done| | |done|done].
  - eapply sublist_NoDup; [exact H2|]. apply sublist_app; [|done]. apply fmap_sublist, sublist_delete.
  - intros c n msg Hin. apply H3. eapply elem_of_sublist; [exact Hin|apply sublist_delete].
Qed.

Lemma inv_serve db0 s i w arrives s' : sys_inv db0 s → serve i w arrives s = Some s' → sys_inv db0 s'.
Proof.
  intros [H1 H2 H3 H4 H5] E. unfold serve in E. apply bind_Some in E as ([[c n] msg] & Hi & E).
  destruct (processMessage w msg (s_db s)) as [r db] eqn:Ep. injection E as <-.
  set (v := {| v_call := c; v_attempt := n; v_world := w; v_msg := msg; v_resp := r |}).
  set (s1 := {| s_db := db; s_calls := s_calls s; s_queue := delete i (s_queue s); s_log := s_log s ++ [v] |}).
  assert (Hs1 : sys_inv db0 s1).
  { split; cbn.
    - by eapply replays_app.
    - rewrite (delete_Permutation _ _ _ Hi) in H2. cbn in H2. rewrite fmap_app. cbn.
      rewrite app_assoc, <- Permutation_cons_append. exact H2.
    - intros c' n' msg' Hin. apply H3. eapply elem_of_sublist; [exact Hin|apply sublist_delete].
    - intros u [Hin|Hin%list_elem_of_singleton]%elem_of_app; [by apply H4|]. subst u. cbn.
      apply H3. by eapply list_elem_of_lookup_2.
    - intros c' k Hk. eapply call_ok_log; [|by apply H5]. set_solver. }
  destruct (s_calls s !! c) as [k|] eqn:Hc; [|done]. destruct (k_stage k) eqn:Ht; try done.
  destruct (arrives && _); [|done]. eapply inv_call; [done|done|apply evolves_answered|].
  apply (call_ok_answered _ _ _ _ v); [by apply Hs1|set_solver|done|done].
Qed.

Lemma sys_step db0 s a s' : sys_inv db0 s → sact s a = Some s' → sys_inv db0 s'.
Proof.
  intros Hi E. destruct a as [c k|c e|c|c e arrived|i w arrives|i|c e|c|c e]; cbn [sact] in E.
  - destruct (s_calls s !! c) eqn:Hc; [done|]. destruct (k_stage k) eqn:Ht; try done.
    destruct (Nat.eqb_spec (k_attempt k) 0); [|done]. injection E as <-. destruct Hi as [H1 H2 H3 H4 H5].
    split; cbn; [done|done| | |].
    + intros c' n msg Hin. by apply written_new, H3.
    + intros v Hin. by apply written_new, H4.
    + intros c' k0 [[<- <-]|[_ E]]%lookup_insert_Some; [|by apply H5]. split; [lia|split; intros ? ?; congruence].
  - apply bind_Some in E as (k & Hc & E). destruct (k_stage k) eqn:Ht; try done. injection E as <-.
    eapply inv_call; [done|done|apply evolves_failed|by apply call_ok_failed, Hi].
  - apply bind_Some in E as (k & Hc & E). destruct (k_stage k) eqn:Ht; try done. injection E as <-.
    eapply inv_write; try done. destruct (si_calls _ _ Hi c k Hc) as (H & _ & _). by repeat split.
  - apply bind_Some in E as (k & Hc & E). destruct (k_stage k) eqn:Ht; try done. injection E as <-.
    destruct arrived; [|eapply inv_call; [done|done|apply evolves_failed|by apply call_ok_failed, Hi]].
    eapply inv_write; try done; [|by apply call_ok_failed, Hi]. cbn. by repeat case_match.
  - by eapply inv_serve.
  - injection E as <-. by apply inv_drop.
  - apply bind_Some in E as (k & Hc & E). destruct (k_stage k) eqn:Ht; try done. injection E as <-.
    eapply inv_call; [done|done|apply evolves_failed|by apply call_ok_failed, Hi].
  - apply bind_Some in E as (k & Hc & E). destruct (k_stage k) eqn:Ht; try done. injection E as <-.
    destruct (si_calls _ _ Hi c k Hc) as (H1 & H2 & _). specialize (H2 _ Ht).
    eapply inv_call; [done|done| |]; [split; [done|split; [cbn; lia|intros _; right; cbn; lia]]|].
    split; [cbn; lia|by split].
  - apply bind_Some in E as (k & Hc & E). destruct (k_stage k) eqn:Ht; try done. injection E as <-.
    eapply inv_call; [done|done|by apply evolves_stage|]. destruct (si_calls _ _ Hi c k Hc) as (H1 & _ & _). by repeat split.
Qed.

Lemma boot_inv db0 : sys_inv db0 (boot db0).
Proof.
  split; cbn; [done|apply NoDup_nil_2| | |].
  - by intros c n msg H%not_elem_of_nil.
  - by intros v H%not_elem_of_nil.
  - intros c k H. by rewrite lookup_empty in H.
Qed.

Lemma sys_reachable db0 l s : sacts (boot db0) l = Some s → sys_inv db0 s.
Proof.
  generalize (boot_inv db0). generalize (boot db0). induction l as [|a l IH]; cbn; intros s0 Hi E; [by simplify_eq|].
  apply bind_Some in E as (s1 & E1 & E). eapply IH; [by eapply sys_step|done].
Qed.

(** ** Retries *)

(** The words that mark an error as transient. *)
Definition transient (err : string) : Prop :=
  ∃ w, w ∈ ["connection"; "timeout"; "dial"; "EOF"; "reset"; "broken pipe"]%string ∧ Contains err w = true.

(** A call for an acknowledgment ends with a transient error only after its last attempt, or
    when its caller gives up. *)
Definition tried (k : call) : Prop := ∀ err, k_stage k = CDone (Err err) → k_ack k = true → transient err →
  k_attempt k = MaxRetries ∨ HasPrefix err "context cancelled during retry: " = true.

Lemma transient_retried err : transient err → isRetryableError err = true.
Proof.
  intros (w & Hw & Hc). unfold isRetryableError. rewrite !orb_true_iff.
  repeat (apply elem_of_cons in Hw as [->|Hw]; [tauto|]). by apply not_elem_of_nil in Hw.
Qed.

Lemma failed_tried e k : (k_attempt k ≤ MaxRetries)%nat → tried (failed e k).
Proof.
  intros Hm err E Ha Ht. unfold failed, at_stage in *. cbn [k_stage k_ack k_attempt] in *. rewrite Ha in E.
  destruct (isRetryableError e) eqn:Er; cbn [negb orb] in E.
  - destruct (Nat.ltb_spec (k_attempt k) MaxRetries); [done|]. left. lia.
  - injection E as <-. apply transient_retried in Ht. congruence.
Qed.

Lemma answered_tried r k : (k_attempt k ≤ MaxRetries)%nat → tried (answered r k).
Proof.
  intros Hm. unfold answered. destruct (r_Success r); [by intros ??|]. destruct (k_ack k) eqn:Ha; [by apply failed_tried|].
  intros err _ Hk. unfold at_stage in Hk. cbn in Hk. congruence.
Qed.

Lemma HasPrefix_app p q : HasPrefix (p +:+ q) p = true.
Proof.
  unfold HasPrefix. induction p as [|c p IH]; [by destruct q|]. change (String c p +:+ q) with (String c (p +:+ q)). cbn [String.prefix].
  destruct (ascii_dec c c); [exact IH|done].
Qed.

Lemma tried_with c k' s : map_Forall (λ _, tried) (s_calls s) → tried k' → map_Forall (λ _, tried) (s_calls (with_call c k' s)).
Proof. intros H Hk. by apply map_Forall_insert_2. Qed.

Lemma tried_step db0 s a s' : sys_inv db0 s → map_Forall (λ _, tried) (s_calls s) → sact s a = Some s' → map_Forall (λ _, tried) (s_calls s').
Proof.
  intros Hi H E. pose proof (λ c k Hc, proj1 (si_calls _ _ Hi c k Hc)) as Hm.
  destruct a as [c k|c e|c|c e arrived|i w arrives|i|c e|c|c e]; cbn [sact] in E;
    try (apply bind_Some in E as (k & Hc & E); pose proof (Hm c k Hc) as Hk; destruct (k_stage k) eqn:Ht; try done; injection E as <-).
  - destruct (s_calls s !! c); [done|]. destruct (k_stage k) eqn:Ht; try done. destruct (_ =? _)%nat; [|done]. injection E as <-.
    apply tried_with; [done|]. intros err E. congruence.
  - by apply tried_with, failed_tried.
  - by apply (tried_with c _ (enqueue c k s)).
  - destruct arrived; [apply (tried_with c _ (enqueue c k s))|apply tried_with]; by try apply failed_tried.
  - unfold serve in E. apply bind_Some in E as ([[c n] msg] & _ & E). destruct (processMessage w msg (s_db s)) as [r db]. injection E as <-.
    destruct (s_calls s !! c) as [k|] eqn:Hc; [|done]. destruct (k_stage k); try done. destruct (arrives && _); [|done].
    apply map_Forall_insert_2; [apply answered_tried; by eapply Hm|done].
  - by injection E as <-.
  - by apply tried_with, failed_tried.
  - apply tried_with; [done|by intros ??].
  - apply tried_with; [done|]. intros err' [= <-] _ _. right. apply HasPrefix_app.
Qed.

Lemma tried_reachable db0 l s : sacts (boot db0) l = Some s → map_Forall (λ _, tried) (s_calls s).
Proof.
  assert (H : map_Forall (λ _ : nat, tried) (s_calls (boot db0))) by apply map_Forall_empty. revert H. generalize (boot_inv db0).
  generalize (boot db0). induction l as [|a l IH]; cbn; intros s0 Hi H E; [by simplify_eq|].
  apply bind_Some in E as (s1 & E1 & E). eapply IH; [by eapply sys_step|by eapply tried_step|done].
Qed.
End service.

(** ** What the service keeps *)

Section keeps.
Context {St : Type} {SB : StateBackend St} {LS : LawfulState St} {SS : SortSlice}.

(** Requests that take the job [u] away, or create it. *)
Definition removes (u : string) (msg : Message) : Prop :=
  m_Operation msg = OpDelete ∧ m_JobUUID msg = u ∨ m_Operation msg = OpSync.
Definition creates (u : string) (msg : Message) : Prop :=
  m_Operation msg = OpCreate ∧ ∃ j, m_Job msg = Some j ∧ Uuid j = u.
Definition stamped (now : Z) (j : Job) : Job := if StartTime j =? 0 then with_StartTime j now else j.

Lemma create_view w j s r s' : sb_Create w j s = (r, s') →
  match view s !! Uuid j with
  | Some _ => r = Err ErrJobAlreadyExists ∧ view s' = view s
  | None => r = Ok tt ∧ view s' = <[Uuid j := stamped (w_now w) j]> (view s)
  end.
Proof.
  intros E. pose proof (sbl_create w j s) as H. rewrite E in H. unfold settle, Create in H.
  destruct (view s !! Uuid j); by injection H as -> ->.
Qed.

Lemma present_create w msg s r s' u : processMessage w msg s = (r, s') → creates u msg → is_Some (view s !! u) →
  r_Success r = false.
Proof.
  intros E [Ho (j & Hj & <-)] [x Hx]. unfold processMessage in E. rewrite bool_decide_eq_true_2 in E by done.
  unfold handleCreate in E. rewrite Hj in E. destruct (sb_Create w j s) as [rc sc] eqn:Ec.
  apply create_view in Ec. rewrite Hx in Ec. destruct Ec as [-> _]. by simplify_eq.
Qed.

Lemma success_create w msg s r s' j : processMessage w msg s = (r, s') → m_Operation msg = OpCreate →
  m_Job msg = Some j → r_Success r = true →
  view s !! Uuid j = None ∧ view s' = <[Uuid j := stamped (w_now w) j]> (view s).
Proof.
  intros E Ho Hj Hs. unfold processMessage in E. rewrite bool_decide_eq_true_2 in E by done.
  unfold handleCreate in E. rewrite Hj in E. destruct (sb_Create w j s) as [rc sc] eqn:Ec.
  apply create_view in Ec. destruct (view s !! Uuid j); destruct Ec as [-> Hv]; by simplify_eq.
Qed.

Lemma present_process w msg s r s' u : processMessage w msg s = (r, s') → ¬ removes u msg →
  is_Some (view s !! u) → is_Some (view s' !! u).
Proof.
  intros E Hr Hu. unfold processMessage in E.
  destruct (decide (m_Operation msg = OpCreate)) as [Eo|N1]; [rewrite bool_decide_eq_true_2 in E by done|rewrite bool_decide_eq_false_2 in E by done].
  { unfold handleCreate in E. destruct (m_Job msg) as [j|]; [|by simplify_eq].
    destruct (sb_Create w j s) as [rc sc] eqn:Ec. assert (s' = sc) as -> by (destruct rc; by simplify_eq).
    apply create_view in Ec. destruct (view s !! Uuid j); destruct Ec as [_ ->]; [done|].
    destruct (decide (Uuid j = u)) as [<-|]; [by rewrite lookup_insert_eq|by rewrite lookup_insert_ne]. }
  destruct (decide (m_Operation msg = OpUpdate)) as [Eo|N2]; [rewrite bool_decide_eq_true_2 in E by done|rewrite bool_decide_eq_false_2 in E by done].
  { unfold handleUpdate in E. destruct (m_Job msg) as [j|]; [|by simplify_eq]. pose proof (sbl_update j s) as H.
    destruct (sb_Update j s) as [rc sc]. assert (s' = sc) as -> by (destruct rc; by simplify_eq).
    unfold settle, Update in H. destruct (view s !! Uuid j); injection H as _ ->; [|done].
    unfold id. destruct (decide (Uuid j = u)) as [<-|]; [by rewrite lookup_insert_eq|by rewrite lookup_insert_ne]. }
  destruct (decide (m_Operation msg = OpDelete)) as [Eo|N3]; [rewrite bool_decide_eq_true_2 in E by done|rewrite bool_decide_eq_false_2 in E by done].
  { unfold handleDelete in E. destruct (bool_decide _); [by simplify_eq|]. pose proof (sbl_delete (m_JobUUID msg) s) as H.
    destruct (sb_Delete _ s) as [rc sc]. assert (s' = sc) as -> by (destruct rc; by simplify_eq).
    unfold settle, Delete in H. destruct (view s !! m_JobUUID msg); injection H as _ ->; [|done].
    unfold id. rewrite lookup_delete_ne; [done|]. intros Eu. apply Hr. by left. }
  assert (N4 : m_Operation msg ≠ OpSync) by (intros ?; apply Hr; by right).
  rewrite (bool_decide_eq_false_2 (m_Operation msg = OpSync)) in E by done.
  repeat case_bool_decide; by simplify_eq.
Qed.

Lemma present_replays db log db' u : replays db log db' → (∀ v, v ∈ log → ¬ removes u (v_msg v)) →
  is_Some (view db !! u) → is_Some (view db' !! u) ∧ ∀ v, v ∈ log → creates u (v_msg v) → r_Success (v_resp v) = false.
Proof.
  revert db. induction log as [|v log IH]; cbn; intros db Hr Hn Hu.
  - subst. split; [done|]. by intros v H%not_elem_of_nil.
  - destruct (processMessage _ _ db) as [r db1] eqn:E. destruct Hr as [-> Hr].
    destruct (IH db1) as [H1 H2]; [done|intros; apply Hn; by right|eapply present_process; [done| |done]; apply Hn; by left|].
    split; [done|]. intros u' [->|Hin]%elem_of_cons Hc; [by eapply present_create|by apply H2].
Qed.

(** ** What the requests do, as an abstract map of jobs *)

(** The answer to a request, success or refusal and the job in it, and the jobs after it. *)
Inductive spec (now : Z) (msg : Message) (m : jobmap) : bool → option Job → jobmap → Prop :=
| SpecCreated j : m_Operation msg = OpCreate → m_Job msg = Some j → m !! Uuid j = None →
    spec now msg m true (Some j) (<[Uuid j := stamped now j]> m)
| SpecExists j : m_Operation msg = OpCreate → m_Job msg = Some j → is_Some (m !! Uuid j) → spec now msg m false None m
| SpecUpdated j : m_Operation msg = OpUpdate → m_Job msg = Some j → is_Some (m !! Uuid j) → spec now msg m true (Some j) (<[Uuid j := j]> m)
| SpecUpdateMissing j : m_Operation msg = OpUpdate → m_Job msg = Some j → m !! Uuid j = None → spec now msg m false None m
| SpecNoJob : m_Operation msg ∈ [OpCreate; OpUpdate] → m_Job msg = None → spec now msg m false None m
| SpecDeleted : m_Operation msg = OpDelete → m_JobUUID msg ≠ ""%string → is_Some (m !! m_JobUUID msg) →
    spec now msg m true None (delete (m_JobUUID msg) m)
| SpecGot j : m_Operation msg = OpGet → m_JobUUID msg ≠ ""%string → m !! m_JobUUID msg = Some j → spec now msg m true (Some j) m
| SpecNotThere : m_Operation msg ∈ [OpDelete; OpGet] → m_JobUUID msg = ""%string ∨ m !! m_JobUUID msg = None → spec now msg m false None m
| SpecSynced ok : m_Operation msg = OpSync → m_Jobs msg ≠ [] → (* a store that cannot save reports it *)
    spec now msg m ok None (list_to_map ((λ j, (Uuid j, j)) <$> reverse (m_Jobs msg)))
| SpecNothing : m_Operation msg = OpSync → m_Jobs msg = [] → spec now msg m false None m
| SpecRead : m_Operation msg ∈ [OpList; OpPing] → spec now msg m true None m
| SpecUnknown : m_Operation msg ∉ [OpCreate; OpUpdate; OpDelete; OpGet; OpList; OpSync; OpPing] → spec now msg m false None m.

(** The log is a run of the abstract map. *)
Fixpoint legal (m : jobmap) (log : list served) (m' : jobmap) : Prop :=
  match log with
  | [] => m' = m
  | v :: log => ∃ m1, spec (w_now (v_world v)) (v_msg v) m (r_Success (v_resp v)) (r_Job (v_resp v)) m1 ∧ legal m1 log m'
  end.

Lemma Sync_last jobs : Sync jobs = list_to_map ((λ j, (Uuid j, j)) <$> reverse jobs).
Proof.
  unfold Sync. induction jobs as [|j jobs IH] using rev_ind; [done|]. rewrite foldl_app, reverse_snoc. cbn. by rewrite IH.
Qed.

(** What the handlers do is what the abstract map does. *)
Lemma processMessage_spec w msg s r s' : processMessage w msg s = (r, s') → spec (w_now w) msg (view s) (r_Success r) (r_Job r) (view s').
Proof.
  intros E. unfold processMessage in E.
  destruct (bool_decide_reflect (m_Operation msg = OpCreate)) as [O|N1].
  { unfold handleCreate in E. destruct (m_Job msg) as [j|] eqn:Ej; [|simplify_eq; apply SpecNoJob; [set_solver|done]].
    destruct (sb_Create w j s) as [rc sc] eqn:Ec. apply create_view in Ec. destruct (view s !! Uuid j) eqn:Ev; destruct Ec as [-> Hv]; simplify_eq; rewrite Hv.
    - by apply (SpecExists _ _ _ j).
    - by apply SpecCreated. }
  destruct (bool_decide_reflect (m_Operation msg = OpUpdate)) as [O|N2].
  { unfold handleUpdate in E. destruct (m_Job msg) as [j|] eqn:Ej; [|simplify_eq; apply SpecNoJob; [set_solver|done]].
    pose proof (sbl_update j s) as H. destruct (sb_Update j s) as [rc sc]. unfold settle, Update in H.
    destruct (view s !! Uuid j) eqn:Ev; injection H as -> Hv; simplify_eq; rewrite Hv.
    - by apply SpecUpdated.
    - by apply (SpecUpdateMissing _ _ _ j). }
  destruct (bool_decide_reflect (m_Operation msg = OpDelete)) as [O|N3].
  { unfold handleDelete in E. destruct (bool_decide_reflect (m_JobUUID msg = ""%string)); [simplify_eq; apply SpecNotThere; [set_solver|by left]|].
    pose proof (sbl_delete (m_JobUUID msg) s) as H. destruct (sb_Delete _ s) as [rc sc]. unfold settle, Delete in H.
    destruct (view s !! m_JobUUID msg) eqn:Ev; injection H as -> Hv; simplify_eq; rewrite Hv.
    - by apply SpecDeleted.
    - apply SpecNotThere; [set_solver|by right]. }
  destruct (bool_decide_reflect (m_Operation msg = OpGet)) as [O|N4].
  { unfold handleGet in E. destruct (bool_decide_reflect (m_JobUUID msg = ""%string)); [simplify_eq; apply SpecNotThere; [set_solver|by left]|].
    rewrite sbl_get in E. unfold Get in E. destruct (view s !! m_JobUUID msg) eqn:Ev; simplify_eq; [by apply SpecGot|apply SpecNotThere; [set_solver|by right]]. }
  destruct (bool_decide_reflect (m_Operation msg = OpList)) as [O|N5]; [simplify_eq; apply SpecRead; set_solver|].
  destruct (bool_decide_reflect (m_Operation msg = OpSync)) as [O|N6].
  { unfold handleSync in E. destruct (bool_decide_reflect (m_Jobs msg = [])); [by simplify_eq; apply SpecNothing|].
    pose proof (sbl_sync w (m_Jobs msg) s) as H. destruct (sb_Sync w (m_Jobs msg) s) as [rc sc]. cbn [snd] in H. rewrite Sync_last in H.
    assert (s' = sc ∧ r_Job r = None) as [-> ->] by (destruct rc; by simplify_eq). rewrite H. by apply SpecSynced. }
  destruct (bool_decide_reflect (m_Operation msg = OpPing)) as [O|N7]; simplify_eq; [apply SpecRead; set_solver|].
  apply SpecUnknown. rewrite !not_elem_of_cons. repeat (split; [done|]). by apply not_elem_of_nil.
Qed.

Lemma replays_legal db log db' : replays db log db' → legal (view db) log (view db').
Proof.
  revert db. induction log as [|v log IH]; cbn; intros db; [by intros ->|].
  destruct (processMessage _ _ db) as [r db1] eqn:E. intros [<- H]. exists (view db1). split; [by apply processMessage_spec|by apply IH].
Qed.

(** C26 With the memory or local store, whatever calls run at once, and whatever connections fail: the store holds
    what an abstract map of jobs holds after some of their requests one after the
    other, each answered with the success or refusal, and the job, that the map gives (a
    synchronisation may report that it could not be saved, and what a listing lists is not in this).  Every request served is one attempt of a
    call that was made, an attempt is served at most once, a call makes at most four, a call
    that returned without an error had a request served with success, and a call for an
    acknowledgment that returned a transient error had made all four attempts, unless its caller
    gave up. *)
Theorem service_linearizable db0 l s : sacts (boot db0) l = Some s →
  legal (view db0) (s_log s) (view (s_db s)) ∧ NoDup (key_v <$> s_log s) ∧
  (∀ v, v ∈ s_log s → ∃ k, s_calls s !! v_call v = Some k ∧ v_msg v = wire_msg (k_msg k) ∧
     (v_attempt v ≤ k_attempt k ≤ 3)%nat) ∧
  (∀ c k r, s_calls s !! c = Some k → k_stage k = CDone (Ok r) →
     ∃ v, v ∈ s_log s ∧ v_call v = c ∧ v_msg v = wire_msg (k_msg k) ∧ r = wire_resp (v_resp v) ∧ r_Success r = true) ∧
  (∀ c k err, s_calls s !! c = Some k → k_ack k = true → k_stage k = CDone (Err err) → transient err →
     k_attempt k = 3%nat ∨ HasPrefix err "context cancelled during retry: " = true).
Proof.
  intros Hl. pose proof (tried_reachable _ _ _ Hl) as Ht. apply sys_reachable in Hl as [H1 H2 H3 H4 H5].
  split_and!; [by apply replays_legal|by apply NoDup_app in H2 as (_ & _ & ?)| | |].
  - intros v Hin. destruct (H4 v Hin) as (k & Hk & Hm & Hn & _). exists k. destruct (H5 _ _ Hk) as (Hmax & _).
    unfold MaxRetries in Hmax. split_and!; [done|done|lia|lia].
  - intros c k r Hk Hd. destruct (H5 c k Hk) as (_ & _ & Hok). destruct (Hok r Hd) as (v & Hin & <- & Hr & Hs).
    destruct (H4 v Hin) as (k0 & Hk0 & Hm & _). simplify_eq. by exists v.
  - intros c k err Hk Ha Hd Htr. by apply (Ht c k Hk err).
Qed.

End keeps.

(** ** Calls that go wrong *)

#[local] Instance sample_sort : SortSlice := insertion_SortSlice.
Definition now_ : world := {| w_now := 7; w_order := []; w_io := Ok tt |}.
Definition job_a (status : string) : Job := blank_job "a" status None.
Definition fresh_service : sys (St := jobmap) := boot ∅.
Definition stage_of (c : nat) (s : sys (St := jobmap)) : option stage := k_stage <$> s_calls s !! c.
Definition status_of (u : string) (s : sys (St := jobmap)) : option string := Status <$> s_db s !! u.

(** A creation whose acknowledgment is lost is tried again and reports that the job
    exists: it is its own job. *)
Theorem lost_acknowledgment_is_conflict : ∃ s, sacts fresh_service
    [SStart 0 (Create_call "r0" (job_a "PENDING")); SWrite 0; SServe 0 now_ false;
     SLost 0 "read timeout after 10s"; SRetry 0; SWrite 0; SServe 0 now_ true] = Some s ∧
  stage_of 0 s = Some (CDone (Err "operation failed: CREATE_ERROR: job already exists"%string)) ∧
  status_of "a" s = Some "PENDING"%string.
Proof. eexists. split; [vm_compute; reflexivity|]. split; vm_compute; reflexivity. Qed.

(** The job store sends each change from a goroutine of its own, over any connection.
    An update served before the creation it follows is refused, and is not tried again:
    the service keeps the first status of the job. *)
Theorem update_overtakes_create : ∃ s, sacts fresh_service
    [SStart 0 (Create_call "r0" (job_a "INITIALIZING")); SStart 1 (Update_call "r1" (job_a "COMPLETED"));
     SWrite 0; SWrite 1; SServe 1 now_ true; SServe 0 now_ true] = Some s ∧
  stage_of 1 s = Some (CDone (Err "operation failed: UPDATE_ERROR: job not found"%string)) ∧
  s_queue s = [] ∧ status_of "a" s = Some "INITIALIZING"%string.
Proof. eexists. split; [vm_compute; reflexivity|]. split_and!; vm_compute; reflexivity. Qed.

(** A request that its call gave up may be served after a later one that was
    acknowledged, whose effect it undoes. *)
Theorem abandoned_update_wins : ∃ s r, sacts fresh_service
    [SStart 0 (Create_call "r0" (job_a "INITIALIZING")); SWrite 0; SServe 0 now_ true;
     SStart 1 (Update_call "r1" (job_a "RUNNING")); SWrite 1; SLost 1 "read timeout after 10s";
     SCancel 1 "context deadline exceeded"; SStart 2 (Update_call "r2" (job_a "COMPLETED")); SWrite 2;
     SServe 1 now_ true; SServe 0 now_ true] = Some s ∧
  stage_of 2 s = Some (CDone (Ok r)) ∧ s_queue s = [] ∧ status_of "a" s = Some "RUNNING"%string.
Proof. eexists _, _. split; [vm_compute; reflexivity|]. split_and!; vm_compute; reflexivity. Qed.

(** The store cannot be synchronised with no jobs. *)
Lemma empty_sync_refused {St} `{!StateBackend St} w msg (s : St) : m_Jobs msg = [] →
  handleSync w msg s = (makeError (m_RequestID msg) "SYNC_ERROR" "jobs array is required", s).
Proof. intros E. unfold handleSync. by rewrite bool_decide_eq_true_2. Qed.

(** The waits of a call, in all. *)
Lemma delay_bounds n : 100 ≤ delay n ≤ 2000.
Proof. induction n; cbn [delay]; lia. Qed.

(** A creation that finds no connection at first. *)
Definition retried_run : list (saction) :=
  [SStart 0 (Create_call "r0" (job_a "PENDING")); SNoConn 0 "dial unix: connect: connection refused";
   SRetry 0; SWrite 0; SServe 0 now_ true].

Lemma service_linearizable_witness : ∃ s : sys (St := jobmap), sacts (boot ∅) retried_run = Some s ∧ legal ∅ (s_log s) (s_db s) ∧ is_Some (s_db s !! "a"%string).
Proof.
  destruct (sacts (boot (∅ : jobmap)) retried_run) as [s|] eqn:E; [|exfalso; revert E; vm_compute; discriminate].
  exists s. split; [done|]. split; [exact (proj1 (service_linearizable (∅ : jobmap) retried_run s E))|].
  assert (H : match sacts (boot (∅ : jobmap)) retried_run with Some s => is_Some (s_db s !! "a"%string) | None => False end) by (vm_compute; by eexists).
  by rewrite E in H.
Defined.

Definition retried : option (sys (St := jobmap)) := sacts fresh_service retried_run.

Lemma retried_call : (retried ≫= λ s, s_calls s !! 0%nat) = Some (at_stage (CDone (Ok
  (success (wire_msg (k_msg (Create_call "r0" (job_a "PENDING")))) (Some (job_a "PENDING")) [])))
  {| k_msg := k_msg (Create_call "r0" (job_a "PENDING")); k_ack := true; k_attempt := 1; k_stage := CTry |}).
Proof. vm_compute. reflexivity. Qed.

Lemma retried_log : (retried ≫= λ s, guard (forallb (λ v, bool_decide (m_Operation (v_msg v) = OpCreate)) (s_log s));; Some tt) = Some tt.
Proof. vm_compute. reflexivity. Qed.

