(* ===== verification/PersistStore.v ===== *)
(** * The local store of the persist service (persist/internal/storage/local.go,
      backend.go)

    The files of the jobs with the cache of their open handles: writing, reading with
    a query, evicting idle handles, deleting.  A write holds the mutex until its gzip
    stream is closed, so a file is the list of the lines written to it; each operation
    is one step.  A job id is a file name, as the UUIDs the server makes are, and the
    disk takes what it is given. *)

From S2P Require Import Prelude GoStrings Job Ipc Pipeline.
From Stdlib Require Import Ascii String.

Local Open Scope Z_scope.

(** ** Files and handles *)

(** The tables of open files, one per kind of data.
    [src/persist/internal/storage/local.go:22-46 LocalBackend] *)
Inductive hkind := HLog | HMetric | HExec | HConnect | HFile | HAccept | HSocketData | HMmap | HMprotect.
#[export] Instance hkind_eq_dec : EqDecision hkind.
Proof. solve_decision. Defined.

Definition hkinds : list hkind := [HLog; HMetric; HExec; HConnect; HFile; HAccept; HSocketData; HMmap; HMprotect].
Definition hkind_index (k : hkind) : nat :=
  match k with HLog => 0 | HMetric => 1 | HExec => 2 | HConnect => 3 | HFile => 4 | HAccept => 5
  | HSocketData => 6 | HMmap => 7 | HMprotect => 8 end.
#[export] Instance hkind_countable : Countable hkind.
Proof. apply (inj_countable hkind_index (λ n, hkinds !! n)). by intros []. Defined.

(** A handle is its last access; the logs of a job have two files under one handle, the
    second for stderr.
    [src/persist/internal/storage/local.go:48-85 logFile] *)
Abbreviation handle_key := (hkind * string)%type.
Abbreviation file_key := (hkind * bool * string)%type.

(** [p_logdirs] are the jobs with a log directory.
    [src/persist/internal/storage/local.go LocalBackend] *)
Record store := {
  p_handles : gmap handle_key Z; p_files : gmap file_key (list string); p_logdirs : gset string;
}.

Definition with_handles (h : gmap handle_key Z) (s : store) : store :=
  {| p_handles := h; p_files := p_files s; p_logdirs := p_logdirs s |}.

(** A start opens nothing: what was stored before is found again.
    [src/persist/internal/storage/local.go NewLocalBackend] *)
Definition NewLocalBackend (files : gmap file_key (list string)) (logdirs : gset string) : store :=
  {| p_handles := ∅; p_files := files; p_logdirs := logdirs |}.

Definition content (f : file_key) (s : store) : list string := default [] (p_files s !! f).

Definition append_file (f : file_key) (lines : list string) (s : store) : store :=
  {| p_handles := p_handles s; p_files := <[f := content f s ++ lines]> (p_files s); p_logdirs := p_logdirs s |}.

(** What opening and syncing come to: the directory, the file or the second file may fail to
    open, or, with everything open and written, the sync may fail. *)
Inductive open_outcome := OpenOk | DirFails | FirstFails | SecondFails | SyncFails (err : string).

(** [src/persist/internal/storage/local.go LocalBackend.getOrCreateLogFile] *)
Definition getOrCreateLogFile (now : Z) (o : open_outcome) (job : string) (s : store) : result string unit * store :=
  match p_handles s !! (HLog, job) with
  | Some _ => (Ok tt, with_handles (<[(HLog, job) := now]> (p_handles s)) s)
  | None =>
      let made := {| p_handles := p_handles s; p_files := p_files s; p_logdirs := {[job]} ∪ p_logdirs s |} in
      match o with
      | DirFails => (Err "failed to create log directory"%string, s)
      | FirstFails => (Err "failed to open stdout file"%string, made)
      | SecondFails => (Err "failed to open stderr file"%string, append_file (HLog, false, job) [] made)
      | OpenOk | SyncFails _ => (Ok tt, with_handles (<[(HLog, job) := now]> (p_handles s))
                            (append_file (HLog, true, job) [] (append_file (HLog, false, job) [] made)))
      end
  end.

(** The file of any other kind.
    [src/persist/internal/storage/local.go LocalBackend.getOrCreateEventFile] *)
Definition getOrCreateEventFile (k : hkind) (now : Z) (o : open_outcome) (job : string) (s : store) : result string unit * store :=
  match p_handles s !! (k, job) with
  | Some _ => (Ok tt, with_handles (<[(k, job) := now]> (p_handles s)) s)
  | None =>
      match o with
      | OpenOk | SyncFails _ => (Ok tt, with_handles (<[(k, job) := now]> (p_handles s)) (append_file (k, false, job) [] s))
      | DirFails => (Err "failed to create events directory"%string, s)
      | _ => (Err "failed to open events file"%string, s)
      end
  end.
(** [src/persist/internal/storage/local.go LocalBackend.getOrCreateMetricFile] *)
Definition getOrCreateMetricFile := getOrCreateEventFile HMetric.
(** [src/persist/internal/storage/local.go LocalBackend.getOrCreateExecEventFile] *)
Definition getOrCreateExecEventFile := getOrCreateEventFile HExec.
(** [src/persist/internal/storage/local.go LocalBackend.getOrCreateConnectEventFile] *)
Definition getOrCreateConnectEventFile := getOrCreateEventFile HConnect.

(** ** Texts of the lines *)

(** What encoding/json makes of the generated structures, and what it reads. *)
Class LineJSON (Event : Type) := {
  enc_log : LogLine → string; dec_log : string → option LogLine;
  enc_ev : hkind → Event → string; dec_ev : hkind → string → option Event;
  ev_time : Event → Z;
}.

Section store.
Context {Event : Type} {LJ : LineJSON Event} {SS : SortSlice}.
Variables (maxOpenFiles fileHandleTTL : Z).

(** ** Writing *)

Definition is_stdout (l : LogLine) : bool := bool_decide (l_Stream l = SStdout).

(** The end of a flush.
    [src/persist/internal/storage/local.go:213-219 LocalBackend.flushLogFile] *)
Definition synced (o : open_outcome) : result string unit :=
  match o with SyncFails err => Err ("failed to sync stdout: " +:+ err) | _ => Ok tt end.

(** The lines of a call become whole gzip members at the end of the two files, and are synced.  A write
    or a close of a member that fails, which leaves a cut member behind, is not modelled.
    [src/persist/internal/storage/local.go LocalBackend.WriteLogs] *)
Definition WriteLogs (now : Z) (o : open_outcome) (job : string) (logs : list LogLine) (s : store) : result string unit * store :=
  match getOrCreateLogFile now o job s with
  | (Err e, s) => (Err e, s)
  | (Ok _, s) => (synced o, append_file (HLog, true, job) (enc_log <$> List.filter (λ l, negb (is_stdout l)) logs)
                           (append_file (HLog, false, job) (enc_log <$> List.filter is_stdout logs) s))
  end.

Definition write_events (k : hkind) (open : Z → open_outcome → string → store → result string unit * store)
    (now : Z) (o : open_outcome) (job : string) (events : list Event) (s : store) : result string unit * store :=
  match open now o job s with
  | (Err e, s) => (Err e, s)
  | (Ok _, s) => (match o with SyncFails err => Err ("failed to sync events file: " +:+ err) | _ => Ok tt end,
                  append_file (k, false, job) (enc_ev k <$> events) s)
  end.
Definition unless_empty (write : list Event → store → result string unit * store) (events : list Event) (s : store) :=
  match events with [] => (Ok tt, s) | _ => write events s end.

(** [src/persist/internal/storage/local.go LocalBackend.WriteMetrics] *)
Definition WriteMetrics now o job := write_events HMetric getOrCreateMetricFile now o job.
(** [src/persist/internal/storage/local.go LocalBackend.WriteExecEvents] *)
Definition WriteExecEvents now o job := unless_empty (write_events HExec getOrCreateExecEventFile now o job).
(** [src/persist/internal/storage/local.go LocalBackend.WriteConnectEvents] *)
Definition WriteConnectEvents now o job := unless_empty (write_events HConnect getOrCreateConnectEventFile now o job).
(** [src/persist/internal/storage/local.go LocalBackend.WriteFileEvents] *)
Definition WriteFileEvents now o job := unless_empty (write_events HFile (getOrCreateEventFile HFile) now o job).
(** [src/persist/internal/storage/local.go LocalBackend.WriteAcceptEvents] *)
Definition WriteAcceptEvents now o job := unless_empty (write_events HAccept (getOrCreateEventFile HAccept) now o job).
(** [src/persist/internal/storage/local.go LocalBackend.WriteSocketDataEvents] *)
Definition WriteSocketDataEvents now o job := unless_empty (write_events HSocketData (getOrCreateEventFile HSocketData) now o job).
(** [src/persist/internal/storage/local.go LocalBackend.WriteMmapEvents] *)
Definition WriteMmapEvents now o job := unless_empty (write_events HMmap (getOrCreateEventFile HMmap) now o job).
(** [src/persist/internal/storage/local.go LocalBackend.WriteMprotectEvents] *)
Definition WriteMprotectEvents now o job := unless_empty (write_events HMprotect (getOrCreateEventFile HMprotect) now o job).

(** A call of the pipeline, as processBatch of Pipeline.v makes it. *)
Definition apply_write (now : Z) (o : open_outcome) (w : backend_write Event) (s : store) : result string unit * store :=
  match w with
  | Pipeline.WriteLogs job l => WriteLogs now o job l s
  | WriteEvents k job l =>
      match k with
      | MMetric => WriteMetrics now o job l s
      | MExecEvent => WriteExecEvents now o job l s
      | MConnectEvent => WriteConnectEvents now o job l s
      | MFileEvent => WriteFileEvents now o job l s
      | MAcceptEvent => WriteAcceptEvents now o job l s
      | MSocketDataEvent => WriteSocketDataEvents now o job l s
      | MMmapEvent => WriteMmapEvents now o job l s
      | MMprotectEvent => WriteMprotectEvents now o job l s
      | MLog | MOther _ => (Ok tt, s)
      end
  end.

(** ** Reading *)

(** [src/persist/internal/storage/local.go indexSubstring] *)
Fixpoint indexSubstring (l p : list ascii) (i : nat) : Z :=
  if bool_decide (firstn (List.length p) l = p) then Z.of_nat i
  else match l with [] => -1 | _ :: l => indexSubstring l p (S i) end.

(** [src/persist/internal/storage/local.go contains] *)
Definition contains (l p : list ascii) : bool :=
  (List.length p =? 0)%nat ||
  ((List.length p <=? List.length l)%nat &&
   (bool_decide (l = p) ||
    ((List.length p <? List.length l)%nat &&
     (bool_decide (firstn (List.length p) l = p) ||
      bool_decide (skipn (List.length l - List.length p) l = p) ||
      (indexSubstring l p 0 >=? 0))))).

(** [src/persist/internal/storage/backend.go LogQuery] *)
Record LogQuery := {
  q_JobUUID : string; q_Stream : StreamType; q_StartTime : option Z; q_EndTime : option Z;
  q_Limit : Z; q_Offset : Z; q_Filter : list ascii;
}.
(** [src/persist/internal/storage/backend.go TelemetryQuery] *)
Record TelemetryQuery := {
  t_JobUUID : string; t_StartTime : option Z; t_EndTime : option Z; t_Limit : Z; t_Offset : Z;
}.

Definition in_time (start_ end_ : option Z) (t : Z) : bool :=
  match start_ with Some a => negb (t <? a) | None => true end &&
  match end_ with Some b => negb (t >? b) | None => true end.

(** How reading a file ends: at its end, at the limit, at a line the scanner does not
    take. *)
Inductive scan_end := SEnd | SLimit | STooLong.

(** The loop over the lines of a file; the counters go on in the next file.
    [src/persist/internal/storage/local.go:585-640 LocalBackend.ReadLogs] *)
Fixpoint scan {A} (dec : string → option A) (keep : A → bool) (offset limit : Z) (lines : list string)
    (count skipped : Z) : list A * Z * Z * scan_end :=
  match lines with
  | [] => ([], count, skipped, SEnd)
  | line :: lines =>
      if 1048576 <=? Z.of_nat (String.length line) then ([], count, skipped, STooLong)
      else match dec line with
           | None => scan dec keep offset limit lines count skipped
           | Some x =>
               if negb (keep x) then scan dec keep offset limit lines count skipped
               else if skipped <? offset then scan dec keep offset limit lines count (skipped + 1)
               else if (limit >? 0) && (count >=? limit) then ([], count, skipped, SLimit)
               else let '(l, c, k, e) := scan dec keep offset limit lines (count + 1) skipped in (x :: l, c, k, e)
           end
  end.

Definition keep_log (q : LogQuery) (l : LogLine) : bool :=
  in_time (q_StartTime q) (q_EndTime q) (l_Timestamp l) &&
  (bool_decide (q_Filter q = []) || contains (l_Content l) (q_Filter q)).

(** The files a query reads, in their order. *)
Definition log_files (q : LogQuery) : list file_key :=
  (if bool_decide (q_Stream q = SUnspecified) || bool_decide (q_Stream q = SStdout) then [(HLog, false, q_JobUUID q)] else []) ++
  (if bool_decide (q_Stream q = SUnspecified) || bool_decide (q_Stream q = SStderr) then [(HLog, true, q_JobUUID q)] else []).

Fixpoint read_files (q : LogQuery) (fs : list file_key) (count skipped : Z) (s : store) : list LogLine * result string unit :=
  match fs with
  | [] => ([], Ok tt)
  | f :: fs =>
      match p_files s !! f with
      | None => read_files q fs count skipped s
      | Some lines =>
          let '(l, c, k, e) := scan dec_log (keep_log q) (q_Offset q) (q_Limit q) lines count skipped in
          match e with
          | SEnd => let '(l', r) := read_files q fs c k s in (l ++ l', r)
          | SLimit => (l, Ok tt)
          | STooLong => (l, Err "error reading log file"%string)
          end
      end
  end.

(** What the reader sends, and the error it ends with.
    [src/persist/internal/storage/local.go LocalBackend.ReadLogs] *)
Definition ReadLogs (q : LogQuery) (s : store) : result string (list LogLine * result string unit) :=
  if bool_decide (q_JobUUID q ∈ p_logdirs s) then Ok (read_files q (log_files q) 0 0 s)
  else Err "no logs found"%string.

(** The events of one file; past a line that is too long, [rest] is what the next
    gzip header turns out to be.
    [src/persist/internal/storage/local.go LocalBackend.readExecEventsFromFile] *)
Definition read_events (k : hkind) (rest : result string unit) (q : TelemetryQuery) (s : store) : list Event * result string unit :=
  match p_files s !! (k, false, t_JobUUID q) with
  | None => ([], Ok tt)
  | Some lines =>
      let '(l, _, _, e) := scan (dec_ev k) (λ x, in_time (t_StartTime q) (t_EndTime q) (ev_time x)) (t_Offset q) (t_Limit q) lines 0 0 in
      (l, match e with STooLong => rest | _ => Ok tt end)
  end.
(** [src/persist/internal/storage/local.go LocalBackend.ReadMetrics] *)
Definition ReadMetrics rest (q : TelemetryQuery) (s : store) : result string (list Event * result string unit) :=
  match p_files s !! (HMetric, false, t_JobUUID q) with
  | None => Err "no metrics found"%string | Some _ => Ok (read_events HMetric rest q s) end.
(** [src/persist/internal/storage/local.go LocalBackend.ReadExecEvents] *)
Definition ReadExecEvents := read_events HExec.
(** [src/persist/internal/storage/local.go LocalBackend.readConnectEventsFromFile] *)
Definition ReadConnectEvents := read_events HConnect.
(** [src/persist/internal/storage/local.go LocalBackend.readFileEventsFromFile] *)
Definition ReadFileEvents := read_events HFile.
(** [src/persist/internal/storage/local.go LocalBackend.readAcceptEventsFromFile] *)
Definition ReadAcceptEvents := read_events HAccept.
(** [src/persist/internal/storage/local.go LocalBackend.readSocketDataEventsFromFile] *)
Definition ReadSocketDataEvents := read_events HSocketData.
(** [src/persist/internal/storage/local.go LocalBackend.readMmapEventsFromFile] *)
Definition ReadMmapEvents := read_events HMmap.
(** [src/persist/internal/storage/local.go LocalBackend.readMprotectEventsFromFile] *)
Definition ReadMprotectEvents := read_events HMprotect.

(** ** Eviction, deletion *)

(** [src/persist/internal/storage/local.go LocalBackend.countOpenHandles] *)
Definition countOpenHandles (s : store) : Z := Z.of_nat (size (p_handles s)).

(** The loop over the sorted handles: those still there are closed, [n] at most.
    [src/persist/internal/storage/local.go:1037-1100 LocalBackend.evictLRU] *)
Fixpoint evict_oldest (hs : list (handle_key * Z)) (n : Z) (h : gmap handle_key Z) : gmap handle_key Z :=
  match hs with
  | [] => h
  | (k, _) :: hs => if 0 <? n then match h !! k with
                                  | Some _ => evict_oldest hs (n - 1) (delete k h)
                                  | None => evict_oldest hs n h end
                    else h
  end.

(** [order] is the order of the ranges over the tables.
    [src/persist/internal/storage/local.go LocalBackend.evictLRU] *)
Definition evictLRU (order : list (handle_key * Z)) (n : Z) (s : store) : store :=
  if n <=? 0 then s
  else with_handles (evict_oldest (sort_slice (λ a b, a.2 <? b.2) order) n (p_handles s)) s.

(** [src/persist/internal/storage/local.go LocalBackend.evictEventFiles] *)
Definition evict_idle (now : Z) (h : gmap handle_key Z) : gmap handle_key Z :=
  filter (λ kt, negb (sub_time now kt.2 >? fileHandleTTL) = true) h.

(** [src/persist/internal/storage/local.go LocalBackend.evictIdleHandles] *)
Definition evictIdleHandles (now : Z) (order : list (handle_key * Z)) (s : store) : store :=
  let s := with_handles (evict_idle now (p_handles s)) s in
  if countOpenHandles s >? maxOpenFiles then evictLRU order (countOpenHandles s - maxOpenFiles) s else s.

(** [removed] of the three directories can be removed, in the order of the code.
    [src/persist/internal/storage/local.go LocalBackend.DeleteJob] *)
Definition DeleteJob (removed : nat) (job : string) (s : store) : result string unit * store :=
  let gone (f : file_key) := bool_decide (f.2 = job) && match f.1.1 with
    | HLog => (0 <? removed)%nat | HMetric => (1 <? removed)%nat | _ => (2 <? removed)%nat end in
  (if (removed <? 3)%nat then Err "failed to delete directory"%string else Ok tt,
   {| p_handles := filter (λ kt, kt.1.2 ≠ job) (p_handles s);
      p_files := filter (λ fl, gone fl.1 = false) (p_files s);
      p_logdirs := if (0 <? removed)%nat then p_logdirs s ∖ {[job]} else p_logdirs s |}).

(** [src/persist/internal/storage/local.go LocalBackend.Close] *)
Definition Close (s : store) : store := with_handles ∅ s.
End store.

(** ** Searching a text *)

Lemma firstn_is_prefix (p l : list ascii) : firstn (List.length p) l = p ↔ ∃ b, l = p ++ b.
Proof.
  split.
  - intros E. exists (skipn (List.length p) l). rewrite <- E at 1. by rewrite firstn_skipn.
  - intros [b ->]. by rewrite take_app_length.
Qed.

Lemma indexSubstring_found l p i : (0 ≤ indexSubstring l p i) ↔ ∃ a b, l = a ++ p ++ b.
Proof.
  revert i. induction l as [|c l IH]; intros i; cbn [indexSubstring]; case_bool_decide as E.
  1,3: split; [intros _; apply firstn_is_prefix in E as [b ->]; by exists [], b|lia].
  - split; [lia|]. intros (a & b & Eab). destruct E. symmetry in Eab. apply app_eq_nil in Eab as [_ Eab].
    apply app_eq_nil in Eab as [-> _]. done.
  - rewrite IH. split.
    + intros (a & b & ->). by exists (c :: a), b.
    + intros ([|a0 a] & b & Eab); [destruct E; apply firstn_is_prefix; by exists b|].
      injection Eab as -> ->. by exists a, b.
Qed.

(** The helper that filters log lines finds a text exactly when it occurs in the
    line, upper and lower case distinguished. *)
Theorem contains_is_infix l p : contains l p = true ↔ ∃ a b, l = a ++ p ++ b.
Proof.
  unfold contains. rewrite !orb_true_iff, !andb_true_iff, !orb_true_iff, !andb_true_iff, !orb_true_iff, !bool_decide_eq_true.
  rewrite Nat.eqb_eq, Nat.leb_le, Nat.ltb_lt. split.
  - intros [E|[Hl [->|[Hlt [[E|E]|E]]]]].
    + apply nil_length_inv in E as ->. by exists [], l.
    + exists [], []. by rewrite app_nil_r.
    + apply firstn_is_prefix in E as [b ->]. by exists [], b.
    + exists (firstn (List.length l - List.length p) l), []. rewrite app_nil_r.
      rewrite <- E at 2. by rewrite firstn_skipn.
    + apply Z.geb_le in E. by apply indexSubstring_found in E.
  - intros (a & b & ->). rewrite !length_app.
    destruct (decide (p = [])) as [->|Hp]; [by left|right]. split; [lia|].
    destruct (decide (a = [] ∧ b = [])) as [[-> ->]|Hab]; [left; by rewrite app_nil_r|right].
    assert (List.length p < List.length a + (List.length p + List.length b))%nat.
    { destruct a, b; cbn; try lia. naive_solver. }
    split; [lia|right]. apply Z.geb_le, indexSubstring_found. by exists a, b.
Qed.

(** ** Selecting lines *)

Definition short (line : string) : Prop := Z.of_nat (String.length line) < 1048576.

(** A page of a list. *)
Definition page {A} (offset limit : Z) (l : list A) : list A :=
  let l := drop (Z.to_nat offset) l in if limit >? 0 then take (Z.to_nat limit) l else l.

Section scan.
Context {A : Type} (dec : string → option A) (keep : A → bool) (offset limit : Z).
Local Abbreviation scan := (scan dec keep offset limit).

Lemma scan_app l1 l2 c k : scan (l1 ++ l2) c k =
  let '(o, c', k', e) := scan l1 c k in
  match e with SEnd => let '(o2, c2, k2, e2) := scan l2 c' k' in (o ++ o2, c2, k2, e2) | _ => (o, c', k', e) end.
Proof.
  revert c k. induction l1 as [|x l1 IH]; intros c k; cbn [PersistStore.scan app].
  { by destruct (scan l2 c k) as [[[? ?] ?] ?]. }
  destruct (_ <=? _); [done|]. destruct (dec x) as [y|]; [|apply IH]. destruct (negb _); [apply IH|].
  destruct (_ <? _); [apply IH|]. destruct (_ && _); [done|]. rewrite IH.
  destruct (scan l1 (c + 1) k) as [[[o c'] k'] []]; [|done|done]. by destruct (scan l2 c' k') as [[[? ?] ?] ?].
Qed.

Lemma scan_page lines c k : Forall short lines →
  let sel := drop (Z.to_nat (offset - k)) (List.filter keep (omap dec lines)) in
  (scan lines c k).1.1.1 = (if limit >? 0 then take (Z.to_nat (limit - c)) sel else sel) ∧ (scan lines c k).2 ≠ STooLong.
Proof.
  intros Hs. revert c k. induction Hs as [|line lines Hl _ IH]; intros c k; cbn [PersistStore.scan].
  { cbn. rewrite drop_nil, take_nil. by destruct (_ >? _). }
  unfold short in Hl. rewrite (proj2 (Z.leb_gt _ _)) by lia. cbn [omap list_omap].
  destruct (dec line) as [x|] eqn:Ed; [|apply IH]. cbn [List.filter].
  destruct (keep x) eqn:Ek; cbn [negb]; [|apply IH]. destruct (Z.ltb_spec k offset) as [Hk|Hk].
  - replace (Z.to_nat (offset - k)) with (S (Z.to_nat (offset - (k + 1)))) by lia. apply IH.
  - replace (Z.to_nat (offset - k)) with 0%nat by lia. cbn [drop].
    destruct (limit >? 0) eqn:El; cbn [andb].
    + destruct (c >=? limit) eqn:Ec.
      * apply Z.geb_le in Ec. replace (Z.to_nat (limit - c)) with 0%nat by lia. done.
      * rewrite Z.geb_leb, Z.leb_gt in Ec. replace (Z.to_nat (limit - c)) with (S (Z.to_nat (limit - (c + 1)))) by lia.
        specialize (IH (c + 1) k). cbn zeta in IH. replace (Z.to_nat (offset - k)) with 0%nat in IH by lia. cbn [drop take] in *.
        destruct (scan lines (c + 1) k) as [[[o c'] k'] e]; cbn in *. destruct IH as [-> IH]. done.
    + specialize (IH (c + 1) k). cbn zeta in IH. replace (Z.to_nat (offset - k)) with 0%nat in IH by lia. cbn [drop] in *.
      destruct (scan lines (c + 1) k) as [[[o c'] k'] e]; cbn in *. destruct IH as [-> IH]. done.
Qed.
End scan.

Section reading.
Context {Event : Type} {LJ : LineJSON Event}.

Lemma read_files_scan q fs c k s : Forall short (flat_map (λ f, content f s) fs) →
  read_files q fs c k s = ((scan dec_log (keep_log q) (q_Offset q) (q_Limit q) (flat_map (λ f, content f s) fs) c k).1.1.1, Ok tt).
Proof.
  revert c k. induction fs as [|f fs IH]; intros c k Hs; cbn [flat_map read_files]; [done|].
  cbn [flat_map] in Hs. apply Forall_app in Hs as [H1 H2]. unfold content in *.
  destruct (p_files s !! f) as [lines|]; cbn [default from_option app id] in *; [|by apply IH].
  rewrite scan_app. destruct (scan_page dec_log (keep_log q) (q_Offset q) (q_Limit q) lines c k H1) as [_ Hne].
  destruct (scan _ _ _ _ lines c k) as [[[o c'] k'] []]; [|done|done]. rewrite IH by done.
  by destruct (scan _ _ _ _ (flat_map _ fs) c' k') as [[[? ?] ?] ?].
Qed.

(** A query over the logs of a job is answered with the page it asks for: of the lines
    of its stream, stdout before stderr, in the order they were written, those in its
    time range that contain its text, without the first ones and up to the limit. *)
Theorem ReadLogs_page q s : q_JobUUID q ∈ p_logdirs s →
  Forall short (flat_map (λ f, content f s) (log_files q)) →
  ReadLogs q s = Ok (page (q_Offset q) (q_Limit q)
    (List.filter (keep_log q) (omap dec_log (flat_map (λ f, content f s) (log_files q)))), Ok tt).
Proof.
  intros Hd Hs. unfold ReadLogs. rewrite bool_decide_eq_true_2 by done. rewrite read_files_scan by done.
  destruct (scan_page dec_log (keep_log q) (q_Offset q) (q_Limit q) _ 0 0 Hs) as [-> _].
  unfold page. by rewrite !Z.sub_0_r.
Qed.

(** The same of the other kinds. *)
Lemma read_events_page k rest q s : Forall short (content (k, false, t_JobUUID q) s) →
  read_events k rest q s = (page (t_Offset q) (t_Limit q)
    (List.filter (λ x, in_time (t_StartTime q) (t_EndTime q) (ev_time x)) (omap (dec_ev k) (content (k, false, t_JobUUID q) s))), Ok tt).
Proof.
  unfold read_events, content. intros Hs. destruct (p_files s !! _) as [lines|]; cbn [default from_option id] in *.
  - destruct (scan_page (dec_ev k) (λ x, in_time (t_StartTime q) (t_EndTime q) (ev_time x)) (t_Offset q) (t_Limit q) lines 0 0 Hs) as [E He].
    destruct (scan _ _ _ _ lines 0 0) as [[[o c] n] e]; cbn in *. rewrite E. unfold page. rewrite !Z.sub_0_r. by destruct e.
  - cbn. unfold page. rewrite drop_nil, take_nil. by destruct (_ >? _).
Qed.
End reading.

(** ** Eviction *)

Section eviction.
Context {SS : SortSlice}.
Variables (maxOpenFiles fileHandleTTL : Z).

Lemma evict_oldest_lookup (hs : list (handle_key * Z)) (n : Z) (h : gmap handle_key Z) k : NoDup hs.*1 → (∀ kt, kt ∈ hs → h !! kt.1 = Some kt.2) →
  evict_oldest hs n h !! k = if decide (k ∈ (take (Z.to_nat n) hs).*1) then None else h !! k.
Proof.
  revert n h. induction hs as [|[k0 t] hs IH]; intros n h Hnd Hin; cbn [evict_oldest].
  { rewrite take_nil. by rewrite decide_False by apply not_elem_of_nil. }
  cbn in Hnd. apply NoDup_cons in Hnd as [Hni Hnd]. destruct (Z.ltb_spec 0 n) as [Hn|Hn].
  - pose proof (Hin (k0, t) ltac:(by left)) as E. cbn in E. rewrite E, IH; [|done|].
    + replace (Z.to_nat n) with (S (Z.to_nat (n - 1))) by lia. cbn [take fmap list_fmap fst].
      destruct (decide (k = k0)) as [->|Hne].
      * rewrite lookup_delete_eq. rewrite (decide_True (P := k0 ∈ _ :: _)) by left. by destruct (decide _).
      * rewrite lookup_delete_ne by done. destruct (decide (k ∈ (take _ hs).*1)) as [Hk|Hk].
        -- by rewrite decide_True by by right.
        -- rewrite decide_False; [done|]. by intros [?|?]%elem_of_cons.
    + intros [k' t'] Hk'. cbn. rewrite lookup_delete_ne; [by apply (Hin (k', t')); right|].
      intros ->. apply Hni. apply list_elem_of_fmap. by exists (k', t').
  - replace (Z.to_nat n) with 0%nat by lia. by rewrite decide_False by apply not_elem_of_nil.
Qed.

(** Evicting from a sorted list of all handles keeps its end. *)
Lemma evict_oldest_keeps (hs : list (handle_key * Z)) (n : Z) (h : gmap handle_key Z) : hs ≡ₚ map_to_list h →
  evict_oldest hs n h = list_to_map (drop (Z.to_nat n) hs).
Proof.
  intros Hp. assert (Hnd : NoDup hs.*1) by (rewrite Hp; apply NoDup_fst_map_to_list).
  assert (Hin : ∀ kt, kt ∈ hs → h !! kt.1 = Some kt.2).
  { intros [k t] H. rewrite Hp in H. by apply elem_of_map_to_list in H. }
  pose proof Hnd as Hnd2. rewrite <- (take_drop (Z.to_nat n) hs), fmap_app in Hnd2. apply NoDup_app in Hnd2 as (_ & Hdisj & Hnd2).
  apply map_eq. intros k. rewrite evict_oldest_lookup by done. apply option_eq. intros t.
  rewrite <- elem_of_list_to_map by done. destruct (decide _) as [Hk|Hk].
  - split; [done|]. intros Ht. exfalso. apply (Hdisj k Hk). apply list_elem_of_fmap. by exists (k, t).
  - rewrite <- elem_of_map_to_list, <- Hp. rewrite <- (take_drop (Z.to_nat n) hs) at 1. rewrite elem_of_app.
    split; [|by right]. intros [Ht|Ht]; [|done]. destruct Hk. apply list_elem_of_fmap. by exists (k, t).
Qed.

#[local] Instance access_order : StrictWeak (λ a b : handle_key * Z, a.2 <? b.2).
Proof. split; intros *; rewrite ?Z.ltb_lt, ?Z.ltb_ge; lia. Qed.

Lemma sorted_split (hs : list (handle_key * Z)) (n : nat) a b : StronglySorted (not_after (λ a b, a.2 <? b.2)) hs →
  a ∈ take n hs → b ∈ drop n hs → a.2 ≤ b.2.
Proof.
  revert n. induction hs as [|x hs IH]; intros [|n] Hs Ha Hb; try by (rewrite ?take_nil in Ha; apply not_elem_of_nil in Ha).
  apply StronglySorted_inv in Hs as [Hs Hx]. cbn in Ha, Hb. apply elem_of_cons in Ha as [->|Ha]; [|by eapply IH].
  rewrite Forall_forall in Hx. assert (Hin : b ∈ hs) by (rewrite <- (take_drop n hs); apply elem_of_app; by right).
  specialize (Hx b Hin). unfold not_after in Hx. apply Z.ltb_ge in Hx. done.
Qed.

(** The periodic eviction leaves no handle that was idle for too long, and no more than
    the maximum; it closes no other handle than those, unless there are too many, and
    then just as many as needed, none of them used after one it keeps; and it touches
    no stored line. *)
Theorem evictIdleHandles_bounded now order s : 0 ≤ maxOpenFiles →
  order ≡ₚ map_to_list (evict_idle fileHandleTTL now (p_handles s)) →
  let s' := evictIdleHandles maxOpenFiles fileHandleTTL now order s in
  p_files s' = p_files s ∧ p_handles s' ⊆ p_handles s ∧ countOpenHandles s' ≤ maxOpenFiles ∧
  (∀ k t, p_handles s' !! k = Some t → sub_time now t ≤ fileHandleTTL) ∧
  (∀ k t, p_handles s !! k = Some t → p_handles s' !! k = None →
     fileHandleTTL < sub_time now t ∨
     (countOpenHandles s' = maxOpenFiles ∧ ∀ k' t', p_handles s' !! k' = Some t' → t ≤ t')).
Proof.
  intros Hmax Ho. unfold evictIdleHandles, countOpenHandles, evictLRU. cbn [p_handles with_handles].
  set (h := evict_idle fileHandleTTL now (p_handles s)) in *.
  assert (Hh : ∀ k t, h !! k = Some t ↔ p_handles s !! k = Some t ∧ sub_time now t ≤ fileHandleTTL).
  { intros k t. unfold h, evict_idle. rewrite map_lookup_filter_Some. cbn.
    rewrite negb_true_iff, Z.gtb_ltb, Z.ltb_ge. done. }
  assert (Hidle : ∀ k t, p_handles s !! k = Some t → h !! k = None → fileHandleTTL < sub_time now t).
  { intros k t Hk Hn. destruct (decide (sub_time now t ≤ fileHandleTTL)); [|lia].
    assert (h !! k = Some t) by by apply Hh. congruence. }
  destruct (Z.gtb_spec (Z.of_nat (size h)) maxOpenFiles) as [Hgt|Hle].
  - rewrite (proj2 (Z.leb_gt _ _)) by lia. cbn [p_handles p_files with_handles].
    set (n := Z.of_nat (size h) - maxOpenFiles). set (hs := sort_slice _ order).
    assert (Hs : hs ≡ₚ map_to_list h) by (unfold hs; by rewrite sort_slice_perm).
    assert (Hss : StronglySorted (not_after (λ a b : handle_key * Z, a.2 <? b.2)) hs) by apply sort_slice_sorted, _.
    rewrite evict_oldest_keeps by done.
    assert (Hnd : NoDup (drop (Z.to_nat n) hs).*1).
    { eapply sublist_NoDup; [|apply fmap_sublist, sublist_drop]. rewrite Hs. apply NoDup_fst_map_to_list. }
    assert (Hsz : Z.of_nat (size (list_to_map (drop (Z.to_nat n) hs) : gmap handle_key Z)) = maxOpenFiles).
    { rewrite map_size_list_to_map by done. rewrite length_drop, Hs, length_map_to_list. lia. }
    assert (Hsub : ∀ k t, (list_to_map (drop (Z.to_nat n) hs) : gmap handle_key Z) !! k = Some t → h !! k = Some t).
    { intros k t E. apply elem_of_list_to_map in E; [|done]. apply elem_of_map_to_list. rewrite <- Hs.
      rewrite <- (take_drop (Z.to_nat n) hs). apply elem_of_app. by right. }
    split_and!; [done| |lia| |].
    + apply map_subseteq_spec. intros k t E. by apply Hh, Hsub.
    + intros k t E. by apply (Hh k t), Hsub.
    + intros k t Hk Hn. destruct (h !! k) as [t0|] eqn:E; [right|left; by eapply Hidle].
      assert (t0 = t) as -> by (apply Hh in E as [E _]; congruence). split; [done|]. intros k' t' E'.
      apply elem_of_list_to_map in E'; [|done]. eapply (sorted_split hs _ (k, t) (k', t')); [done| |done].
      apply elem_of_map_to_list in E. rewrite <- Hs, <- (take_drop (Z.to_nat n) hs), elem_of_app in E.
      destruct E as [E|E]; [done|]. apply elem_of_list_to_map in E; [|done]. congruence.
  - cbn [p_handles p_files with_handles]. split_and!; [done| |lia| |].
    + apply map_subseteq_spec. intros k t E. by apply Hh in E as [E _].
    + intros k t E. by apply Hh in E as [_ E].
    + intros k t Hk Hn. left. by eapply Hidle.
Qed.
End eviction.

(** ** What is written can be read *)

Section history.
Context {Event : Type} {LJ : LineJSON Event} {SS : SortSlice}.
Variables (maxOpenFiles fileHandleTTL : Z).

(** [PRestart] closes the store and starts it again. *)
Inductive pop :=
| PWrite (now : Z) (o : open_outcome) (w : backend_write Event)
| PEvict (now : Z) (order : list (handle_key * Z)) | PDelete (removed : nat) (job : string) | PRestart.

Definition pstep (s : store) (op : pop) : result string unit * store :=
  match op with
  | PWrite now o w => apply_write now o w s
  | PEvict now order => (Ok tt, evictIdleHandles maxOpenFiles fileHandleTTL now order s)
  | PDelete removed job => DeleteJob removed job s
  | PRestart => (Ok tt, let s := Close s in NewLocalBackend (p_files s) (p_logdirs s))
  end.
Definition prun (s : store) (ops : list pop) : store := foldl (λ s op, (pstep s op).2) s ops.

(** A write whose sync failed is reported as an error; its lines are in the files. *)
Definition unsynced (o : open_outcome) : bool := match o with SyncFails _ => true | _ => false end.

(** The log lines of a job in the writes that were accepted since its last deletion, or failed
    at the sync only. *)
Definition accept (job : string) (s : store) (acc : list LogLine) (op : pop) : list LogLine :=
  match op with
  | PWrite _ o w => if is_ok (pstep s op).1 || unsynced o then acc ++ logs_in job w else acc
  | PDelete removed j => if bool_decide (j = job) && (0 <? removed)%nat then [] else acc
  | PEvict _ _ | PRestart => acc
  end.
Fixpoint accepted (job : string) (acc : list LogLine) (s : store) (ops : list pop) : list LogLine :=
  match ops with [] => acc | op :: ops => accepted job (accept job s acc op) (pstep s op).2 ops end.

Lemma content_append f g l s : content f (append_file g l s) = if decide (f = g) then content f s ++ l else content f s.
Proof.
  unfold content, append_file. cbn [p_files]. destruct (decide (f = g)) as [->|Hne].
  - by rewrite lookup_insert_eq.
  - by rewrite lookup_insert_ne.
Qed.

Record log_inv (job : string) (acc : list LogLine) (s : store) : Prop := {
  li_out : content (HLog, false, job) s = enc_log <$> List.filter is_stdout acc;
  li_err : content (HLog, true, job) s = enc_log <$> List.filter (λ l, negb (is_stdout l)) acc;
  li_dir : acc ≠ [] → job ∈ p_logdirs s;
  li_handle : is_Some (p_handles s !! (HLog, job)) → job ∈ p_logdirs s;
}.

(** A step that leaves the log files of the job alone. *)
Lemma log_inv_same job acc s s' : log_inv job acc s →
  (∀ b, content (HLog, b, job) s' = content (HLog, b, job) s) → (job ∈ p_logdirs s → job ∈ p_logdirs s') →
  (is_Some (p_handles s' !! (HLog, job)) → job ∈ p_logdirs s' ∨ is_Some (p_handles s !! (HLog, job))) →
  log_inv job acc s'.
Proof.
  intros [H1 H2 H3 H4] Hc Hd Hh. split; [by rewrite Hc|by rewrite Hc|by intros ?; apply Hd, H3|].
  intros [?|?]%Hh; [done|by apply Hd, H4].
Qed.

Lemma open_log_inv job acc now o j s : log_inv job acc s →
  log_inv job acc (getOrCreateLogFile now o j s).2 ∧
  (is_ok (getOrCreateLogFile now o j s).1 = true → j = job → job ∈ p_logdirs (getOrCreateLogFile now o j s).2).
Proof.
  intros Hi. unfold getOrCreateLogFile. destruct (p_handles s !! (HLog, j)) as [t|] eqn:Eh.
  - cbn. split; [|intros _ ->; apply (li_handle _ _ _ Hi); by rewrite Eh]. apply (log_inv_same _ _ s); [done|done|done|].
    cbn. destruct (decide (j = job)) as [->|Hne]; [|rewrite lookup_insert_ne by congruence; by right].
    right. by rewrite Eh.
  - assert (Hopen : log_inv job acc (with_handles (<[(HLog, j) := now]> (p_handles s)) (append_file (HLog, true, j) [] (append_file (HLog, false, j) []
        {| p_handles := p_handles s; p_files := p_files s; p_logdirs := {[j]} ∪ p_logdirs s |})))).
    { apply (log_inv_same _ _ s); [done| |cbn; set_solver|].
      * intros b. cbn. change (content (HLog, b, job) (append_file (HLog, true, j) [] (append_file (HLog, false, j) []
          {| p_handles := p_handles s; p_files := p_files s; p_logdirs := {[j]} ∪ p_logdirs s |})) = content (HLog, b, job) s).
        rewrite !content_append, !app_nil_r. by do 2 destruct (decide _).
      * cbn. destruct (decide (j = job)) as [->|Hne]; [left; set_solver|]. rewrite lookup_insert_ne by congruence. by right. }
    destruct o; cbn; (split; [|intros ? ->; set_solver]); [done| |apply (log_inv_same _ _ s); cbn; try done; [set_solver|by right]| |done].
    + done.
    + apply (log_inv_same _ _ s); [done| |cbn; set_solver|by right].
      intros b. change (content (HLog, b, job) (append_file (HLog, false, j) []
          {| p_handles := p_handles s; p_files := p_files s; p_logdirs := {[j]} ∪ p_logdirs s |}) = content (HLog, b, job) s).
      rewrite !content_append, app_nil_r. by destruct (decide _).
Qed.

Lemma unsynced_opens now o j s : is_ok (getOrCreateLogFile now o j s).1 = false → unsynced o = false.
Proof. unfold getOrCreateLogFile. destruct (p_handles s !! _); [done|]. by destruct o. Qed.
Lemma synced_or o : is_ok (synced o) || unsynced o = true.
Proof. by destruct o. Qed.

Lemma write_logs_inv job acc now o j l s : log_inv job acc s →
  log_inv job (if is_ok (WriteLogs now o j l s).1 || unsynced o then acc ++ (if decide (j = job) then l else []) else acc) (WriteLogs now o j l s).2.
Proof.
  intros Hi. destruct (open_log_inv job acc now o j s Hi) as [H1 Hd]. pose proof (unsynced_opens now o j s) as Ho. unfold WriteLogs.
  destruct (getOrCreateLogFile now o j s) as [[[]|e] s1]; cbn in *; [|by rewrite Ho]. specialize (Hd eq_refl). rewrite synced_or.
  destruct (decide (j = job)) as [->|Hne].
  - specialize (Hd eq_refl). destruct H1 as [E1 E2 _ _]. split; [| |done|done].
    + rewrite !content_append. rewrite decide_False, decide_True, E1, List.filter_app, fmap_app by done. done.
    + rewrite !content_append. rewrite decide_True by done. rewrite decide_False, E2, List.filter_app, fmap_app by done. done.
  - rewrite app_nil_r. apply (log_inv_same _ _ s1); [done| |done|by right].
    intros b. rewrite !content_append. by rewrite !decide_False by congruence.
Qed.

Lemma open_event_files k now o j s : k ≠ HLog →
  (∀ b job, content (HLog, b, job) (getOrCreateEventFile k now o j s).2 = content (HLog, b, job) s) ∧
  p_logdirs (getOrCreateEventFile k now o j s).2 = p_logdirs s ∧
  ∀ job, p_handles (getOrCreateEventFile k now o j s).2 !! (HLog, job) = p_handles s !! (HLog, job).
Proof.
  intros Hk. unfold getOrCreateEventFile. destruct (p_handles s !! (k, j)).
  - split_and!; [done|done|]. intros job. cbn. by rewrite lookup_insert_ne by congruence.
  - assert (Hopen : ∀ b job, content (HLog, b, job) (append_file (k, false, j) [] s) = content (HLog, b, job) s)
      by (intros b job; by rewrite content_append, decide_False by congruence).
    destruct o; try done; (split_and!; [exact Hopen|done|]); intros job; cbn; by rewrite lookup_insert_ne by congruence.
Qed.

Lemma write_events_inv job acc k now o j l s : k ≠ HLog → log_inv job acc s →
  log_inv job acc (write_events k (getOrCreateEventFile k) now o j l s).2.
Proof.
  intros Hk Hi. unfold write_events. destruct (open_event_files k now o j s Hk) as (Hc & Hd & Hh).
  destruct (getOrCreateEventFile k now o j s) as [[[]|e] s1]; cbn in *.
  - apply (log_inv_same _ _ s); [done| |by cbn; rewrite Hd|cbn; rewrite Hh; by right].
    intros b. by rewrite content_append, decide_False by congruence.
  - apply (log_inv_same _ _ s); [done|done|by rewrite Hd|rewrite Hh; by right].
Qed.

Lemma unless_empty_inv job acc write l s : log_inv job acc s →
  log_inv job acc (write l s).2 → log_inv job acc (unless_empty (Event := Event) write l s).2.
Proof. by destruct l. Qed.

Lemma apply_write_inv job acc now o w s : log_inv job acc s →
  log_inv job (if is_ok (apply_write now o w s).1 || unsynced o then acc ++ logs_in job w else acc) (apply_write now o w s).2.
Proof.
  intros Hi. destruct w as [j l|k j l]; [by apply write_logs_inv|]. cbn [logs_in]. rewrite app_nil_r.
  replace (if is_ok _ || _ then acc else acc) with acc by by destruct (_ || _).
  destruct k; cbn [apply_write]; try done; try (apply unless_empty_inv; [done|]); by apply write_events_inv.
Qed.

Lemma evict_oldest_subset (hs : list (handle_key * Z)) (n : Z) (h : gmap handle_key Z) k : is_Some (evict_oldest hs n h !! k) → is_Some (h !! k).
Proof.
  revert n h. induction hs as [|[k0 t] hs IH]; intros n h; cbn [evict_oldest]; [done|].
  destruct (0 <? n); [|done]. destruct (h !! k0); [|by apply IH]. intros H%IH.
  destruct (decide (k = k0)) as [->|Hne]; [by rewrite lookup_delete_eq in H; destruct H|by rewrite lookup_delete_ne in H].
Qed.

Lemma evict_same now order s : let s' := evictIdleHandles maxOpenFiles fileHandleTTL now order s in
  p_files s' = p_files s ∧ p_logdirs s' = p_logdirs s ∧ ∀ k, is_Some (p_handles s' !! k) → is_Some (p_handles s !! k).
Proof.
  assert (Hidle : ∀ k, is_Some (evict_idle fileHandleTTL now (p_handles s) !! k) → is_Some (p_handles s !! k)).
  { intros k [t [E _]%map_lookup_filter_Some]. by exists t. }
  unfold evictIdleHandles, evictLRU. destruct (_ >? _); [|by split_and!]. destruct (_ <=? _); [by split_and!|].
  split_and!; [done|done|]. intros k H%evict_oldest_subset. by apply Hidle.
Qed.

Lemma pstep_inv job acc s op : log_inv job acc s → log_inv job (accept job s acc op) (pstep s op).2.
Proof.
  intros Hi. destruct op as [now o w|now order|removed j|]; cbn [accept].
  - by apply apply_write_inv.
  - destruct (evict_same now order s) as (Hf & Hd & Hh). cbn [pstep snd].
    apply (log_inv_same _ _ s); [done|intros b; unfold content; by rewrite Hf|by rewrite Hd|]. intros H. right. by apply Hh.
  - unfold pstep, DeleteJob. cbn [snd]. destruct (decide (j = job)) as [->|Hne].
    + rewrite bool_decide_eq_true_2 by done. cbn [andb]. destruct (Nat.ltb_spec 0 removed) as [Hr|Hr].
      * assert (Hno : ∀ (m : gmap file_key (list string)) b, filter (λ fl, bool_decide (fl.1.2 = job) && match fl.1.1.1 with
          | HLog => true | HMetric => (1 <? removed)%nat | _ => (2 <? removed)%nat end = false) m !! (HLog, b, job) = None).
        { intros m b. apply map_lookup_filter_None. right. intros x _. cbn. by rewrite bool_decide_eq_true_2. }
        split; cbn; unfold content; cbn [p_files].
        -- by rewrite Hno.
        -- by rewrite Hno.
        -- done.
        -- intros [t [_ H]%map_lookup_filter_Some]. cbn in H. done.
      * apply (log_inv_same _ _ s); [done| |done|].
        -- intros b. unfold content. cbn [p_files]. f_equal. destruct (p_files s !! (HLog, b, job)) as [x|] eqn:E.
           ++ apply map_lookup_filter_Some. split; [done|]. cbn. by rewrite andb_false_r.
           ++ apply map_lookup_filter_None. by left.
        -- cbn. intros [t [_ H]%map_lookup_filter_Some]. by cbn in H.
    + rewrite bool_decide_eq_false_2 by done. cbn [andb]. apply (log_inv_same _ _ s); [done| | |].
      * intros b. unfold content. cbn [p_files]. f_equal. destruct (p_files s !! (HLog, b, job)) as [x|] eqn:E.
        -- apply map_lookup_filter_Some. split; [done|]. cbn. by rewrite bool_decide_eq_false_2.
        -- apply map_lookup_filter_None. by left.
      * cbn [p_logdirs]. intros Hd. destruct (0 <? removed)%nat; [|done]. apply elem_of_difference. split; [done|]. by intros ->%elem_of_singleton.
      * cbn. intros [t [H _]%map_lookup_filter_Some]. right. by exists t.
  - apply (log_inv_same _ _ s); [done|done|done|]. cbn. intros H. rewrite lookup_empty in H. by destruct H.
Qed.

Lemma prun_inv job acc s ops : log_inv job acc s → log_inv job (accepted job acc s ops) (prun s ops).
Proof.
  revert acc s. induction ops as [|op ops IH]; intros acc s Hi; [done|]. cbn [accepted]. by apply IH, pstep_inv.
Qed.

Lemma omap_encoded (l : list LogLine) : (∀ x, x ∈ l → dec_log (enc_log x) = Some x) → omap dec_log (enc_log <$> l) = l.
Proof.
  induction l as [|x l IH]; intros H; [done|]. cbn. rewrite H by left. f_equal. apply IH. intros y Hy. apply H. by right.
Qed.

Lemma filter_all {A} (l : list A) : List.filter (λ _, true) l = l.
Proof. induction l as [|x l IH]; cbn; [done|by rewrite IH]. Qed.

(** C12 On a disk on which no write and no close of a gzip member fails, when the lines can be decoded
    and are shorter than the scanner's limit: whatever was written, evicted, deleted and restarted before, reading all the logs of
    a job gives the lines accepted for it since it was last deleted, and those of calls that reported an error only because the
    sync failed, every one once: those of stdout in the order they were written, then the others in theirs. *)
Theorem accepted_logs_readable job ops :
  let s := prun (NewLocalBackend ∅ ∅) ops in
  let logs := accepted job [] (NewLocalBackend ∅ ∅) ops in
  logs ≠ [] → (∀ l, l ∈ logs → dec_log (enc_log l) = Some l ∧ short (enc_log l)) →
  ReadLogs {| q_JobUUID := job; q_Stream := SUnspecified; q_StartTime := None; q_EndTime := None; q_Limit := 0;
              q_Offset := 0; q_Filter := [] |} s =
    Ok (List.filter is_stdout logs ++ List.filter (λ l, negb (is_stdout l)) logs, Ok tt).
Proof.
  intros s logs Hne Hok.
  destruct (prun_inv job [] (NewLocalBackend ∅ ∅) ops) as [H1 H2 H3 _].
  { split; [done|done|done|]. cbn. intros H. rewrite lookup_empty in H. by destruct H. }
  fold s logs in H1, H2, H3.
  set (q := {| q_JobUUID := job; q_Stream := SUnspecified; q_StartTime := None; q_EndTime := None; q_Limit := 0;
              q_Offset := 0; q_Filter := [] |}).
  assert (Hc : flat_map (λ f, content f s) (log_files q) =
    enc_log <$> (List.filter is_stdout logs ++ List.filter (λ l, negb (is_stdout l)) logs)).
  { change (content (HLog, false, job) s ++ content (HLog, true, job) s ++ [] =
      enc_log <$> (List.filter is_stdout logs ++ List.filter (λ l, negb (is_stdout l)) logs)).
    by rewrite H1, H2, app_nil_r, fmap_app. }
  assert (Hin : ∀ l, l ∈ List.filter is_stdout logs ++ List.filter (λ l, negb (is_stdout l)) logs → l ∈ logs).
  { intros l [Hl|Hl]%elem_of_app; apply list_elem_of_In, filter_In in Hl as [Hl _]; by apply list_elem_of_In. }
  assert (Hs : Forall short (flat_map (λ f, content f s) (log_files q))).
  { rewrite Hc. apply Forall_fmap, Forall_forall. intros l Hl%Hin. by apply Hok. }
  unfold ReadLogs. rewrite bool_decide_eq_true_2 by by apply H3. rewrite read_files_scan by done.
  destruct (scan_page dec_log (keep_log q) (q_Offset q) (q_Limit q) _ 0 0 Hs) as [-> _].
  rewrite Hc, omap_encoded by (intros l Hl%Hin; by apply Hok). cbn [q q_Offset q_Limit Z.gtb Z.compare Z.sub Z.to_nat drop].
  change (keep_log q) with (λ _ : LogLine, true). by rewrite filter_all.
Qed.
End history.

(** ** A concrete store *)

(** An encoding of the lines of one job: the stream and the text. *)
#[local] Instance sample_lines : LineJSON unit := {|
  enc_log l := (if is_stdout l then "o" else "e") +:+ of_bytes (l_Content l);
  dec_log s := match s with
    | String c t => Some {| l_JobUuid := "a"; l_Stream := if bool_decide (c = "o"%char) then SStdout else SStderr;
                            l_Timestamp := 0; l_Sequence := 0; l_Content := bytes t |}
    | EmptyString => None end;
  enc_ev _ _ := ""%string; dec_ev _ _ := None; ev_time _ := 0;
|}.
#[local] Instance sample_sort : SortSlice := insertion_SortSlice.
Definition sample_line (stream : StreamType) (text : string) : LogLine :=
  {| l_JobUuid := "a"; l_Stream := stream; l_Timestamp := 0; l_Sequence := 0; l_Content := bytes text |}.

(** Two writes with an eviction and a restart between them, after an earlier life of the
    job. *)
Definition sample_ops : list (pop (Event := unit)) :=
  [PWrite 1 OpenOk (Pipeline.WriteLogs "a" [sample_line SStdout "old"]); PDelete 3 "a";
   PWrite 2 OpenOk (Pipeline.WriteLogs "a" [sample_line SStderr "no"; sample_line SStdout "one"]);
   PEvict 900 []; PRestart; PWrite 901 (SyncFails "input/output error") (Pipeline.WriteLogs "a" [sample_line SStdout "two"])].

Definition all_of (job : string) : LogQuery :=
  {| q_JobUUID := job; q_Stream := SUnspecified; q_StartTime := None; q_EndTime := None; q_Limit := 0; q_Offset := 0; q_Filter := [] |}.

Lemma accepted_logs_readable_witness :
  ReadLogs (all_of "a") (prun 1000 300 (NewLocalBackend ∅ ∅) sample_ops) =
    Ok ([sample_line SStdout "one"; sample_line SStdout "two"; sample_line SStderr "no"], Ok tt).
Proof.
  assert (E : accepted 1000 300 "a" [] (NewLocalBackend ∅ ∅) sample_ops =
    [sample_line SStderr "no"; sample_line SStdout "one"; sample_line SStdout "two"]) by (vm_compute; reflexivity).
  refine (eq_trans (accepted_logs_readable 1000 300 "a" sample_ops _ _) _); rewrite E; [done| |vm_compute; reflexivity].
  intros l Hl. repeat (apply elem_of_cons in Hl as [->|Hl]; [split; vm_compute; reflexivity|]).
  by apply not_elem_of_nil in Hl.
Defined.

(** The second page of one line, of the lines of stdout that contain "w". *)
Definition page_query : LogQuery :=
  {| q_JobUUID := "a"; q_Stream := SStdout; q_StartTime := None; q_EndTime := Some 5; q_Limit := 1; q_Offset := 0; q_Filter := bytes "w" |}.
Lemma ReadLogs_page_witness :
  ReadLogs page_query (prun 1000 300 (NewLocalBackend ∅ ∅) sample_ops) = Ok ([sample_line SStdout "two"], Ok tt).
Proof.
  refine (ReadLogs_page page_query (prun 1000 300 (NewLocalBackend ∅ ∅) sample_ops) _ _).
  - vm_compute. reflexivity.
  - vm_compute. repeat constructor.
Defined.

Definition busy : store :=
  {| p_handles := <[(HLog, "a"%string) := 100]> (<[(HMetric, "a"%string) := 250]> (<[(HLog, "b"%string) := 240]> ∅));
     p_files := ∅; p_logdirs := ∅ |}.
Lemma evictIdleHandles_bounded_witness :
  countOpenHandles (evictIdleHandles 1 120 300 (map_to_list (evict_idle 120 300 (p_handles busy))) busy) ≤ 1 ∧
  p_handles (evictIdleHandles 1 120 300 (map_to_list (evict_idle 120 300 (p_handles busy))) busy) !! (HMetric, "a"%string) = Some 250.
Proof.
  split; [|vm_compute; reflexivity].
  exact (proj1 (proj2 (proj2 (evictIdleHandles_bounded 1 120 300 _ busy ltac:(lia) (Permutation_refl _))))).
Defined.
