(* ===== verification/PersistQuery.v ===== *)
(** * Answering queries in the persist service (persist/internal/server/grpc.go,
      persist/internal/storage/backend.go)

    A query reads the store of PersistStore.v in a goroutine that sends what it finds
    over a channel, then its error, then closes both; the handler forwards to the
    client what it receives.  The two, the client and its context interleave as
    steps. *)

From S2P Require Import Prelude GoStrings Job Ipc Pipeline PersistStore.
From Stdlib Require Import Ascii String.

Local Open Scope Z_scope.

(** ** Requests *)

(** Fields are 32-bit integers, or 64-bit for the times, widened to [int]. *)
Record QueryLogsRequest := {
  lr_JobUuid : string; lr_Stream : StreamType; lr_StartTime : Z; lr_EndTime : Z; lr_Limit : Z; lr_Offset : Z;
}.
Record QueryTelemetryRequest := {
  tr_JobUuid : string; tr_StartTime : Z; tr_EndTime : Z; tr_Limit : Z; tr_Offset : Z;
}.

(** [src/persist/internal/server/grpc.go streamTypeGenToIPC] *)
Definition streamTypeGenToIPC (gen : StreamType) : StreamType :=
  match gen with SStdout => SStdout | SStderr => SStderr | _ => SUnspecified end.
(** [src/persist/internal/server/grpc.go streamTypeIPCToGen] *)
Definition streamTypeIPCToGen (ipc : StreamType) : StreamType :=
  match ipc with SStdout => SStdout | SStderr => SStderr | _ => SUnspecified end.

(** [src/persist/internal/server/grpc.go logLineIPCToGen] *)
Definition logLineIPCToGen (l : LogLine) : LogLine := {|
  l_JobUuid := l_JobUuid l; l_Stream := streamTypeIPCToGen (l_Stream l); l_Timestamp := l_Timestamp l;
  l_Sequence := l_Sequence l; l_Content := l_Content l;
|}.

Definition positive_time (t : Z) : option Z := if t >? 0 then Some t else None.

(** No request sets the text filter.
    [src/persist/internal/server/grpc.go:260-277 GRPCServer.QueryLogs] *)
Definition log_query (r : QueryLogsRequest) : LogQuery := {|
  q_JobUUID := lr_JobUuid r; q_Stream := streamTypeGenToIPC (lr_Stream r);
  q_StartTime := positive_time (lr_StartTime r); q_EndTime := positive_time (lr_EndTime r);
  q_Limit := lr_Limit r; q_Offset := lr_Offset r; q_Filter := [];
|}.
(** [src/persist/internal/server/grpc.go:580-596 GRPCServer.QueryExecEvents] *)
Definition telemetry_query (r : QueryTelemetryRequest) : TelemetryQuery := {|
  t_JobUUID := tr_JobUuid r; t_StartTime := positive_time (tr_StartTime r); t_EndTime := positive_time (tr_EndTime r);
  t_Limit := tr_Limit r; t_Offset := tr_Offset r;
|}.

(** ** A query in progress *)

Section query.
Context {A : Type}.

(** [g_todo] and [g_err] are what the reader has still to send, the error last;
    [g_done] is what the handler returned, and [g_ctxDone] whether the client went away.
    [src/persist/internal/storage/backend.go EventReader] *)
Record query := {
  g_todo : list A; g_err : option string; g_chan : list A; g_chanClosed : bool;
  g_errBuf : option string; g_errClosed : bool; g_sent : list A; g_done : option (result string unit); g_ctxDone : bool;
}.

(** [src/persist/internal/storage/backend.go NewEventReader] *)
Definition NewEventReader (items : list A) (r : result string unit) : query := {|
  g_todo := items; g_err := match r with Ok _ => None | Err e => Some e end; g_chan := []; g_chanClosed := false;
  g_errBuf := None; g_errClosed := false; g_sent := []; g_done := None; g_ctxDone := false;
|}.
Definition bufferSize : nat := 100.

Definition receive (chan : list A) (sent : list A) (done : option (result string unit)) (q : query) : query :=
  {| g_todo := g_todo q; g_err := g_err q; g_chan := chan; g_chanClosed := g_chanClosed q; g_errBuf := g_errBuf q;
     g_errClosed := g_errClosed q; g_sent := sent; g_done := done; g_ctxDone := g_ctxDone q |}.
Definition finish (r : result string unit) (q : query) : query := receive (g_chan q) (g_sent q) (Some r) q.

(** The error to send goes into its buffer of one, which is empty then.
    [src/persist/internal/storage/backend.go EventReader.SendError] *)
Definition SendError (q : query) : query :=
  {| g_todo := g_todo q; g_err := None; g_chan := g_chan q; g_chanClosed := g_chanClosed q;
     g_errBuf := match g_errBuf q with Some e => Some e | None => g_err q end;
     g_errClosed := g_errClosed q; g_sent := g_sent q; g_done := g_done q; g_ctxDone := g_ctxDone q |}.

(** [src/persist/internal/storage/backend.go EventReader.Close] *)
Definition close_channel (q : query) : query :=
  {| g_todo := g_todo q; g_err := g_err q; g_chan := g_chan q; g_chanClosed := true; g_errBuf := g_errBuf q;
     g_errClosed := g_errClosed q; g_sent := g_sent q; g_done := g_done q; g_ctxDone := g_ctxDone q |}.
Definition close_error (q : query) : query :=
  {| g_todo := g_todo q; g_err := g_err q; g_chan := g_chan q; g_chanClosed := g_chanClosed q; g_errBuf := g_errBuf q;
     g_errClosed := true; g_sent := g_sent q; g_done := g_done q; g_ctxDone := g_ctxDone q |}.

(** The client goes away; steps of the reader, which may see that while it has items;
    and of the handler, by the case its select takes. *)
Inductive qaction :=
| QCancel | RSend | RError | RCloseChannel | RCloseError | RCancelled (err : option string)
| HItem (send_error : option string) | HClosed | HError | HNil | HCancelled.

(** The error channel, once it is closed and empty, yields nil, with which the loop goes round.
    [src/persist/internal/server/grpc.go:286-321 GRPCServer.QueryLogs] *)
Definition handle (a : qaction) (q : query) : option query :=
  match g_done q with
  | Some _ => None
  | None =>
      match a with
      | HItem se => match g_chan q with
                    | x :: c => Some (match se with
                                      | None => receive c (g_sent q ++ [x]) None q
                                      | Some e => receive c (g_sent q) (Some (Err ("failed to send: " +:+ e))) q end)
                    | [] => None end
      | HClosed => match g_chan q with
                   | [] => if g_chanClosed q then Some (finish (match g_errBuf q with Some e => Err e | None => Ok tt end) q) else None
                   | _ => None end
      | HError => e ← g_errBuf q; Some (finish (Err e) q)
      | HNil => match g_errBuf q with None => if g_errClosed q then Some q else None | Some _ => None end
      | HCancelled => if g_ctxDone q then Some (finish (Err "context canceled"%string) q) else None
      | _ => None
      end
  end.

Definition qact (q : query) (a : qaction) : option query :=
  match a with
  | RSend => match g_todo q with
             | x :: l => if g_chanClosed q then None
                         else if (List.length (g_chan q) <? bufferSize)%nat
                         then Some {| g_todo := l; g_err := g_err q; g_chan := g_chan q ++ [x]; g_chanClosed := g_chanClosed q;
                                      g_errBuf := g_errBuf q; g_errClosed := g_errClosed q; g_sent := g_sent q; g_done := g_done q; g_ctxDone := g_ctxDone q |}
                         else None
             | [] => None end
  | RError => match g_todo q, g_err q with [], Some _ => Some (SendError q) | _, _ => None end
  | RCloseChannel => match g_todo q, g_err q with
                     | [], None => if g_chanClosed q then None else Some (close_channel q) | _, _ => None end
  | RCloseError => if g_chanClosed q && negb (g_errClosed q) then Some (close_error q) else None
  | RCancelled err => match g_todo q with
      | _ :: _ => if g_ctxDone q && negb (g_chanClosed q)
                  then Some {| g_todo := []; g_err := err; g_chan := g_chan q; g_chanClosed := false; g_errBuf := g_errBuf q;
                               g_errClosed := g_errClosed q; g_sent := g_sent q; g_done := g_done q; g_ctxDone := true |}
                  else None
      | [] => None end
  | QCancel => if g_ctxDone q then None
               else Some {| g_todo := g_todo q; g_err := g_err q; g_chan := g_chan q; g_chanClosed := g_chanClosed q; g_errBuf := g_errBuf q;
                            g_errClosed := g_errClosed q; g_sent := g_sent q; g_done := g_done q; g_ctxDone := true |}
  | _ => handle a q
  end.

Fixpoint qacts (q : query) (l : list qaction) : option query :=
  match l with [] => Some q | a :: l => q' ← qact q a; qacts q' l end.

(** ** Nothing is lost *)

Record query_inv (items : list A) (r : result string unit) (q : query) : Prop := {
  qi_sent : g_sent q `prefix_of` items;
  qi_flow : (∀ e, g_done q ≠ Some (Err e)) →
    ∃ cut, items = g_sent q ++ g_chan q ++ g_todo q ++ cut ∧ (g_ctxDone q = false → cut = []);
  qi_err : g_ctxDone q = false → match r with
    | Ok _ => g_err q = None ∧ g_errBuf q = None
    | Err e => (g_err q = Some e ∧ g_errBuf q = None) ∨ (g_err q = None ∧ g_errBuf q = Some e) end;
  qi_closed : g_chanClosed q = true → g_todo q = [] ∧ g_err q = None;
  qi_done : g_done q = Some (Ok tt) → g_ctxDone q = true ∨ g_sent q = items ∧ r = Ok tt;
}.

Lemma reader_inv items r : query_inv items r (NewEventReader items r).
Proof.
  split; cbn; [apply prefix_nil|intros _; exists []; by rewrite app_nil_r|intros _; by destruct r; [|left]|done|done].
Qed.

(** A failure of the handler. *)
Lemma fail_inv items r q chan e : query_inv items r q → query_inv items r (receive chan (g_sent q) (Some (Err e)) q).
Proof. intros [H1 _ H3 H4 _]. split; cbn; try done. intros Hd. by destruct (Hd e). Qed.

Lemma handle_inv items r q a q' : query_inv items r q → handle a q = Some q' → query_inv items r q'.
Proof.
  intros Hq E. unfold handle in E. destruct (g_done q) eqn:Ed; [done|].
  destruct a as [| | | | |e|se| | | |]; try done.
  - destruct (g_chan q) as [|x c] eqn:Ec; [done|]. destruct se as [e|]; injection E as <-; [by apply fail_inv|].
    destruct Hq as [H1 H2 H3 H4 H5]. destruct (H2 ltac:(by rewrite Ed)) as (cut & Hi & Hc). split; cbn; try done.
    + exists (c ++ g_todo q ++ cut). by rewrite Hi, Ec, <- app_assoc.
    + intros _. exists cut. by rewrite Hi, Ec, <- app_assoc.
  - destruct (g_chan q) as [|] eqn:Ec; [|done]. destruct (g_chanClosed q) eqn:Eo; [|done]. injection E as <-.
    destruct (g_errBuf q) eqn:Eb; [by apply fail_inv|]. destruct Hq as [H1 H2 H3 H4 H5].
    destruct (H4 Eo) as [Ht He], (H2 ltac:(by rewrite Ed)) as (cut & Hi & Hc). split; cbn; try done.
    + intros _. by exists cut.
    + intros _. destruct (g_ctxDone q); [by left|right]. rewrite Hi, Ec, Ht, (Hc eq_refl), !app_nil_r. split; [done|].
      destruct r as [[]|e]; [done|]. destruct (H3 eq_refl) as [[? _]|[_ ?]]; congruence.
  - apply bind_Some in E as (e & Eb & E). injection E as <-. by apply fail_inv.
  - destruct (g_errBuf q); [done|]. destruct (g_errClosed q); [|done]. by injection E as <-.
  - destruct (g_ctxDone q); [|done]. injection E as <-. by apply fail_inv.
Qed.

Lemma qact_inv items r q a q' : query_inv items r q → qact q a = Some q' → query_inv items r q'.
Proof.
  intros Hq E. destruct a as [| | | | |e|se| | | |]; try (by eapply handle_inv); cbn [qact] in E; destruct Hq as [H1 H2 H3 H4 H5].
  - destruct (g_ctxDone q) eqn:Ex; [done|]. injection E as <-. split; cbn; try done; [|by intros ?; left].
    intros Hd. destruct (H2 Hd) as (cut & Hi & _). by exists cut.
  - destruct (g_todo q) as [|x l] eqn:Et; [done|]. destruct (g_chanClosed q) eqn:Eo; [done|]. destruct (_ <? _)%nat; [|done].
    injection E as <-. split; cbn; try done. intros Hd. destruct (H2 Hd) as (cut & Hi & Hc). exists cut.
    split; [|done]. by rewrite Hi, <- !app_assoc.
  - destruct (g_todo q) eqn:Et; [|done]. destruct (g_err q) as [e|] eqn:Ee; [|done]. injection E as <-.
    split; cbn; rewrite ?Et; try done.
    + intros Hx. specialize (H3 Hx). destruct r as [[]|e']; [by destruct H3|].
      destruct H3 as [[E1 E2]|[E1 _]]; [right; rewrite E2; by split; [|congruence]|done].
  - destruct (g_todo q) eqn:Et; [|done]. destruct (g_err q) as [e|] eqn:Ee; [done|]. destruct (g_chanClosed q) eqn:Eo; [done|].
    injection E as <-. split; cbn; rewrite ?Et, ?Ee; try done.
  - destruct (_ && _); [|done]. injection E as <-. by split.
  - destruct (g_todo q) as [|x l] eqn:Et; [done|]. destruct (g_ctxDone q) eqn:Ex; [|done].
    destruct (g_chanClosed q) eqn:Eo; [done|]. injection E as <-. split; cbn; try done.
    intros Hd. destruct (H2 Hd) as (cut & Hi & _). by exists (x :: l ++ cut).
Qed.

Lemma query_reachable items r l q : qacts (NewEventReader items r) l = Some q → query_inv items r q.
Proof.
  generalize (reader_inv items r). generalize (NewEventReader items r). induction l as [|a l IH]; cbn; intros q0 Hi E; [by simplify_eq|].
  apply bind_Some in E as (q1 & E1 & E). eapply IH; [by eapply qact_inv|done].
Qed.

(** ** It ends *)

Definition todo_opt {B} (o : option B) : nat := match o with Some _ => 1 | None => 0 end.
(** What is left to do. *)
Definition work (q : query) : nat :=
  3 * List.length (g_todo q) + List.length (g_chan q) + todo_opt (g_err q) + (if g_chanClosed q then 0 else 1) +
  (if g_errClosed q then 0 else 1) + (if g_ctxDone q then 0 else 1) + 2 * (1 - todo_opt (g_done q)).

(** The steps that get on: all but the round with the nil of the closed error channel. *)
Definition gets_on (a : qaction) : bool := match a with HNil => false | _ => true end.

Lemma work_step q a q' : qact q a = Some q' → if gets_on a then (work q' < work q)%nat else q' = q.
Proof.
  intros E. unfold work. destruct a as [| | | | |e|se| | | |]; cbn [gets_on]; cbn [qact] in E; unfold handle in E.
  - destruct (g_ctxDone q) eqn:Ex; [done|]. injection E as <-. cbn. lia.
  - destruct (g_todo q) eqn:Et; [done|]. destruct (g_chanClosed q) eqn:Eo; [done|]. destruct (_ <? _)%nat; [|done].
    injection E as <-. cbn. rewrite ?length_app. cbn. lia.
  - destruct (g_todo q) eqn:Et; [|done]. destruct (g_err q) eqn:Ee; [|done]. injection E as <-. cbn. rewrite ?Et. cbn. lia.
  - destruct (g_todo q) eqn:Et; [|done]. destruct (g_err q) eqn:Ee; [done|]. destruct (g_chanClosed q) eqn:Eo; [done|].
    injection E as <-. cbn. rewrite ?Et, ?Ee. cbn. lia.
  - destruct (g_chanClosed q) eqn:Eo; [|done]. destruct (g_errClosed q) eqn:Ec; [done|]. injection E as <-. cbn. rewrite ?Eo. lia.
  - destruct (g_todo q) eqn:Et; [done|]. destruct (g_ctxDone q) eqn:Ex; [|done]. destruct (g_chanClosed q) eqn:Eo; [done|].
    injection E as <-. cbn. destruct e; cbn; lia.
  - destruct (g_done q) eqn:Ed; [done|]. destruct (g_chan q) eqn:Ec; [done|]. destruct se; injection E as <-; cbn; lia.
  - destruct (g_done q) eqn:Ed; [done|]. destruct (g_chan q) eqn:Ec; [|done]. destruct (g_chanClosed q) eqn:Eo; [|done].
    injection E as <-. cbn. rewrite ?Ec, ?Eo. cbn. lia.
  - destruct (g_done q) eqn:Ed; [done|]. apply bind_Some in E as (e & _ & E). injection E as <-. cbn. lia.
  - destruct (g_done q) eqn:Ed; [done|]. destruct (g_errBuf q); [done|]. destruct (g_errClosed q); [|done]. by injection E as <-.
  - destruct (g_done q) eqn:Ed; [done|]. destruct (g_ctxDone q) eqn:Ex; [|done]. injection E as <-. cbn. rewrite ?Ex. lia.
Qed.

Lemma work_run q l q' : qacts q l = Some q' → (List.length (List.filter gets_on l) + work q' ≤ work q)%nat.
Proof.
  revert q. induction l as [|a l IH]; cbn [qacts List.filter List.length]; intros q E; [simplify_eq; lia|].
  apply bind_Some in E as (q1 & E1%work_step & E%IH). destruct (gets_on a); [cbn [List.length]; lia|by subst].
Qed.

(** As long as the handler has not returned, it or the reader can go on. *)
Lemma query_progress items r q : query_inv items r q → g_done q = None →
  ∃ a q', qact q a = Some q' ∧ gets_on a = true ∧ a ≠ QCancel ∧ ∀ e, a ≠ RCancelled e.
Proof.
  intros Hq Hd. destruct (g_chan q) as [|x c] eqn:Ec.
  - destruct (g_chanClosed q) eqn:Eo.
    { eexists HClosed, _. cbn. unfold handle. by rewrite Hd, Ec, Eo. }
    destruct (g_todo q) as [|x l] eqn:Et.
    + destruct (g_err q) eqn:Ee.
      * eexists RError, _. cbn. by rewrite Et, Ee.
      * eexists RCloseChannel, _. cbn. by rewrite Et, Ee, Eo.
    + eexists RSend, _. cbn. by rewrite Et, Eo, Ec.
  - eexists (HItem None), _. cbn. unfold handle. by rewrite Hd, Ec.
Qed.

(** C30 However the reader, the handler and the client interleave, what was sent to the
    client is a beginning of what the reader found, in its order; and a query that is
    reported complete to a client that is still there has sent all of it, and the reader
    met no error.  As to its end: the closed error channel yields nil at any time, on which the
    handler goes round its loop and nothing changes; apart from those rounds a query takes a bounded
    number of steps, and until the handler returns a step that is not such a round can always be
    taken (a select that takes each ready case some time takes it). *)
Theorem query_complete_or_reported items r l q : qacts (NewEventReader items r) l = Some q →
  g_sent q `prefix_of` items ∧
  (g_done q = Some (Ok tt) → g_ctxDone q = true ∨ g_sent q = items ∧ r = Ok tt) ∧
  (List.length (List.filter gets_on l) ≤ 3 * List.length items + 6)%nat ∧
  (∀ q', qact q HNil = Some q' → q' = q) ∧
  (g_done q = None → ∃ a q', qact q a = Some q' ∧ gets_on a = true ∧ a ≠ QCancel ∧ ∀ e, a ≠ RCancelled e).
Proof.
  intros E. pose proof (query_reachable _ _ _ _ E) as Hi. split_and!; [apply Hi|apply Hi| |by intros q' ?%work_step|by eapply query_progress].
  apply work_run in E. assert (H : (work (NewEventReader items r) ≤ 3 * List.length items + 6)%nat) by (unfold work; cbn; destruct r; cbn; lia). lia.
Qed.
End query.

(** ** The handlers *)

Section handlers.
Context {Event : Type} {LJ : LineJSON Event}.

(** What a request starts, unless it is refused: what the reader is going to send.
    [src/persist/internal/server/grpc.go:252-284 GRPCServer.QueryLogs] *)
Definition QueryLogs (authorized : result string unit) (r : QueryLogsRequest) (s : store) : result string (query (A := LogLine)) :=
  _ ← authorized;
  match ReadLogs (log_query r) s with
  | Err e => Err ("failed to read logs: " +:+ e)
  | Ok (lines, res) => Ok (NewEventReader (logLineIPCToGen <$> lines) res)
  end.

(** [src/persist/internal/server/grpc.go:325-357 GRPCServer.QueryMetrics] *)
Definition QueryMetrics (authorized rest : result string unit) (r : QueryTelemetryRequest) (s : store) : result string (query (A := Event)) :=
  _ ← authorized;
  match ReadMetrics rest (telemetry_query r) s with
  | Err e => Err ("failed to read metrics: " +:+ e)
  | Ok (events, res) => Ok (NewEventReader events res)
  end.

Definition query_events (read : result string unit → TelemetryQuery → store → list Event * result string unit)
    (authorized rest : result string unit) (r : QueryTelemetryRequest) (s : store) : result string (query (A := Event)) :=
  _ ← authorized; let '(events, res) := read rest (telemetry_query r) s in Ok (NewEventReader events res).
(** [src/persist/internal/server/grpc.go:572-601 GRPCServer.QueryExecEvents] *)
Definition QueryExecEvents := query_events ReadExecEvents.
(** [src/persist/internal/server/grpc.go:644-673 GRPCServer.QueryConnectEvents] *)
Definition QueryConnectEvents := query_events ReadConnectEvents.
(** [src/persist/internal/server/grpc.go:716-741 GRPCServer.QueryMmapEvents] *)
Definition QueryMmapEvents := query_events ReadMmapEvents.
(** [src/persist/internal/server/grpc.go:772-797 GRPCServer.QueryMprotectEvents] *)
Definition QueryMprotectEvents := query_events ReadMprotectEvents.
(** [src/persist/internal/server/grpc.go:828-853 GRPCServer.QueryFileEvents] *)
Definition QueryFileEvents := query_events ReadFileEvents.
(** [src/persist/internal/server/grpc.go:884-909 GRPCServer.QueryAcceptEvents] *)
Definition QueryAcceptEvents := query_events ReadAcceptEvents.
(** [src/persist/internal/server/grpc.go:940-965 GRPCServer.QuerySocketDataEvents] *)
Definition QuerySocketDataEvents := query_events ReadSocketDataEvents.

(** [src/persist/internal/server/grpc.go GRPCServer.DeleteJob] *)
Definition DeleteJob_rpc (authorized : result string unit) (removed : nat) (job : string) (s : store) : (bool * string) * store :=
  match authorized with
  | Err e => ((false, "Unauthorized: " +:+ e), s)
  | Ok _ =>
      if bool_decide (job = ""%string) then ((false, "Job ID cannot be empty"%string), s)
      else match DeleteJob removed job s with
           | (Err e, s) => ((false, "Failed to delete job: " +:+ e), s)
           | (Ok _, s) => ((true, "Job deleted successfully"%string), s)
           end
  end.

(** C29 A log query that is reported complete to a client that stayed has given it exactly
    the page it asked for of the lines stored for the job. *)
Theorem QueryLogs_answers authorized req s q l q' :
  Forall short (flat_map (λ f, content f s) (log_files (log_query req))) →
  QueryLogs authorized req s = Ok q → qacts q l = Some q' → g_done q' = Some (Ok tt) → g_ctxDone q' = false →
  authorized = Ok tt ∧ g_sent q' = logLineIPCToGen <$> page (lr_Offset req) (lr_Limit req)
    (List.filter (λ x, in_time (positive_time (lr_StartTime req)) (positive_time (lr_EndTime req)) (l_Timestamp x))
       (omap dec_log (flat_map (λ f, content f s) (log_files (log_query req))))).
Proof.
  intros Hs Hq Hl Hd Hc. unfold QueryLogs in Hq. apply bind_ok in Hq as ([] & -> & Hq). split; [done|].
  unfold ReadLogs in Hq. destruct (bool_decide _); [|done]. rewrite read_files_scan in Hq by done.
  destruct (scan_page dec_log (keep_log (log_query req)) (lr_Offset req) (lr_Limit req) _ 0 0 Hs) as [E _].
  cbn [log_query q_Offset q_Limit] in Hq. injection Hq as <-.
  destruct (qi_done _ _ _ (query_reachable _ _ _ _ Hl) Hd) as [?|[-> _]]; [congruence|]. f_equal.
  rewrite (filter_ext _ (keep_log (log_query req))).
  - etrans; [exact E|]. unfold page. by rewrite !Z.sub_0_r.
  - intros x. unfold keep_log. cbn [log_query q_Filter q_StartTime q_EndTime]. by rewrite bool_decide_eq_true_2, andb_true_r.
Qed.
End handlers.

(** ** Concrete queries *)

Definition two_items : list qaction := [RSend; HItem None; RSend; RCloseChannel; RCloseError; HNil; HItem None; HNil; HClosed].

Lemma query_complete_or_reported_witness : ∃ q, qacts (NewEventReader [1; 2] (Ok tt)) two_items = Some q ∧
  g_done q = Some (Ok tt) ∧ g_sent q `prefix_of` [1; 2].
Proof.
  destruct (qacts (NewEventReader [1; 2] (Ok tt)) two_items) as [q|] eqn:E; [|exfalso; revert E; vm_compute; discriminate].
  exists q. split; [done|]. split; [by vm_compute in E; simplify_eq|].
  exact (proj1 (query_complete_or_reported [1; 2] (Ok tt) two_items q E)).
Defined.

#[local] Existing Instance sample_lines.
Definition stored : store := prun (Event := unit) (SS := insertion_SortSlice) 1000 300 (NewLocalBackend ∅ ∅) sample_ops.
Definition stdout_request : QueryLogsRequest :=
  {| lr_JobUuid := "a"; lr_Stream := SStdout; lr_StartTime := 0; lr_EndTime := 9; lr_Limit := 5; lr_Offset := 1 |}.

(** The second line is the only one past the offset. *)
Definition one_item : list qaction := [RSend; RCloseChannel; HItem None; RCloseError; HClosed].
Definition answer : option (query (A := LogLine)) :=
  match QueryLogs (Ok tt) stdout_request stored with Ok q => qacts q one_item | Err _ => None end.

Lemma QueryLogs_answers_witness : ∃ q, answer = Some q ∧ g_sent q = [sample_line SStdout "two"].
Proof.
  destruct answer as [q'|] eqn:E; [|exfalso; revert E; vm_compute; discriminate]. exists q'. split; [done|].
  assert (Hd : (g_done <$> answer) = Some (Some (Ok tt)) ∧ (g_ctxDone <$> answer) = Some false) by (split; vm_compute; reflexivity).
  rewrite E in Hd. destruct Hd as [[= Hd] [= Hc]]. unfold answer in E.
  destruct (QueryLogs (Ok tt) stdout_request stored) as [q|] eqn:Eq; [|done].
  refine (eq_trans (proj2 (QueryLogs_answers (Ok tt) stdout_request stored q one_item q' _ Eq E Hd Hc)) _).
  - vm_compute. repeat constructor.
  - vm_compute. reflexivity.
Defined.
