(* ===== verification/Telemetry.v ===== *)
(** * Telemetry events and the collector (internal/joblet/telemetry)

    The events that the metrics sampler and the kernel monitor emit, the filter on
    their types, and the collector: one bounded buffer per job, and the listeners
    of the streams that follow it.  Buffers are objects in a heap, because an
    emission or a stream keeps the buffer it looked up when [ClearJob] takes it out
    of the map.  Emissions, streams and [ClearJob] interleave at their critical
    sections.  Floating-point values are IEEE doubles of the library's [spec_float]. *)

From Stdlib Require Import SpecFloat.
From S2P Require Import Prelude.

Local Open Scope Z_scope.

(** ** Events *)

Abbreviation float64 := spec_float.

(** [src/internal/joblet/telemetry/event.go:13-32 EventType] *)
Definition EventType := string.
Definition EventTypeMetrics : EventType := "metrics".
Definition EventTypeExec : EventType := "exec".
Definition EventTypeConnect : EventType := "connect".
Definition EventTypeFile : EventType := "file".
Definition EventTypeAccept : EventType := "accept".
Definition EventTypeSocketData : EventType := "socket_data".
Definition EventTypeMmap : EventType := "mmap".
Definition EventTypeMprotect : EventType := "mprotect".

(** [src/internal/joblet/telemetry/event.go MetricsData] *)
Record MetricsData := {
  CPUPercent : float64;
  MemoryBytes : Z; MemoryLimit : Z;
  DiskReadBytes : Z; DiskWriteBytes : Z;
  NetRecvBytes : Z; NetSentBytes : Z;
  GPUPercent : float64; GPUMemoryBytes : Z;
}.

(** [src/internal/joblet/telemetry/event.go ExecData] *)
Record ExecData := { ex_PID : Z; ex_PPID : Z; ex_Binary : string; ex_Args : list string; ex_ExitCode : Z }.

(** [src/internal/joblet/telemetry/event.go ConnectData] *)
Record ConnectData := {
  co_PID : Z; co_Address : string; co_Port : Z; co_Protocol : string;
  co_LocalAddress : string; co_LocalPort : Z;
}.

(** [src/internal/joblet/telemetry/event.go FileData] *)
Record FileData := { fi_PID : Z; fi_Path : string; fi_Operation : string; fi_Bytes : Z }.

(** [src/internal/joblet/telemetry/event.go AcceptData] *)
Record AcceptData := {
  ac_PID : Z; ac_RemoteAddr : string; ac_RemotePort : Z; ac_LocalPort : Z; ac_Protocol : string;
}.

(** [src/internal/joblet/telemetry/event.go SocketDataData] *)
Record SocketDataData := {
  so_PID : Z; so_Direction : string; so_Address : string; so_Port : Z; so_Protocol : string; so_Bytes : Z;
}.

(** [src/internal/joblet/telemetry/event.go MmapData] *)
Record MmapData := { mm_PID : Z; mm_Addr : Z; mm_Length : Z; mm_Prot : Z; mm_Flags : Z }.

(** [src/internal/joblet/telemetry/event.go MprotectData] *)
Record MprotectData := { mp_PID : Z; mp_Addr : Z; mp_Length : Z; mp_Prot : Z }.

(** The values an event carries: the dynamic types of its [interface{}]. *)
Inductive EventData :=
| DMetrics (d : MetricsData) | DExec (d : ExecData) | DConnect (d : ConnectData)
| DFile (d : FileData) | DAccept (d : AcceptData) | DSocketData (d : SocketDataData)
| DMmap (d : MmapData) | DMprotect (d : MprotectData).

#[export] Instance spec_float_eq_dec : EqDecision float64.
Proof. solve_decision. Defined.
#[export] Instance MetricsData_eq_dec : EqDecision MetricsData.
Proof. solve_decision. Defined.
#[export] Instance ExecData_eq_dec : EqDecision ExecData.
Proof. solve_decision. Defined.
#[export] Instance ConnectData_eq_dec : EqDecision ConnectData.
Proof. solve_decision. Defined.
#[export] Instance FileData_eq_dec : EqDecision FileData.
Proof. solve_decision. Defined.
#[export] Instance AcceptData_eq_dec : EqDecision AcceptData.
Proof. solve_decision. Defined.
#[export] Instance SocketDataData_eq_dec : EqDecision SocketDataData.
Proof. solve_decision. Defined.
#[export] Instance MmapData_eq_dec : EqDecision MmapData.
Proof. solve_decision. Defined.
#[export] Instance MprotectData_eq_dec : EqDecision MprotectData.
Proof. solve_decision. Defined.
#[export] Instance EventData_eq_dec : EqDecision EventData.
Proof. solve_decision. Defined.

(** Time stamps are nanoseconds since the epoch.
    [src/internal/joblet/telemetry/event.go Event] *)
Record Event := { Timestamp : Z; JobUUID : string; Type_ : EventType; Data : EventData }.

#[export] Instance Event_eq_dec : EqDecision Event.
Proof. solve_decision. Defined.

(** [src/internal/joblet/telemetry/event.go NewMetricsEvent] *)
Definition NewMetricsEvent (now : Z) (jobID : string) (d : MetricsData) : Event :=
  {| Timestamp := now; JobUUID := jobID; Type_ := EventTypeMetrics; Data := DMetrics d |}.
(** [src/internal/joblet/telemetry/event.go NewExecEvent] *)
Definition NewExecEvent (now : Z) (jobID : string) (d : ExecData) : Event :=
  {| Timestamp := now; JobUUID := jobID; Type_ := EventTypeExec; Data := DExec d |}.
(** [src/internal/joblet/telemetry/event.go NewConnectEvent] *)
Definition NewConnectEvent (now : Z) (jobID : string) (d : ConnectData) : Event :=
  {| Timestamp := now; JobUUID := jobID; Type_ := EventTypeConnect; Data := DConnect d |}.
(** [src/internal/joblet/telemetry/event.go NewFileEvent] *)
Definition NewFileEvent (now : Z) (jobID : string) (d : FileData) : Event :=
  {| Timestamp := now; JobUUID := jobID; Type_ := EventTypeFile; Data := DFile d |}.
(** [src/internal/joblet/telemetry/event.go NewAcceptEvent] *)
Definition NewAcceptEvent (now : Z) (jobID : string) (d : AcceptData) : Event :=
  {| Timestamp := now; JobUUID := jobID; Type_ := EventTypeAccept; Data := DAccept d |}.
(** [src/internal/joblet/telemetry/event.go NewSocketDataEvent] *)
Definition NewSocketDataEvent (now : Z) (jobID : string) (d : SocketDataData) : Event :=
  {| Timestamp := now; JobUUID := jobID; Type_ := EventTypeSocketData; Data := DSocketData d |}.
(** [src/internal/joblet/telemetry/event.go NewMmapEvent] *)
Definition NewMmapEvent (now : Z) (jobID : string) (d : MmapData) : Event :=
  {| Timestamp := now; JobUUID := jobID; Type_ := EventTypeMmap; Data := DMmap d |}.
(** [src/internal/joblet/telemetry/event.go NewMprotectEvent] *)
Definition NewMprotectEvent (now : Z) (jobID : string) (d : MprotectData) : Event :=
  {| Timestamp := now; JobUUID := jobID; Type_ := EventTypeMprotect; Data := DMprotect d |}.

(** The filter is the list of its types.
    [src/internal/joblet/telemetry/event.go EventFilter.Matches] *)
Definition Matches (types : list EventType) (e : Event) : bool :=
  match types with
  | [] => true
  | _ => existsb (λ t, String.eqb (Type_ e) t) types
  end.

(** A nil filter lets everything through, as the callers write it. *)
Definition passes (filter : option (list EventType)) (e : Event) : bool :=
  match filter with None => true | Some types => Matches types e end.

(** One case of the switch of [ParseEventTypes]. *)
Definition parse_type (t : string) : option EventType :=
  if String.eqb t "metrics" then Some EventTypeMetrics
  else if String.eqb t "exec" then Some EventTypeExec
  else if String.eqb t "connect" then Some EventTypeConnect
  else if String.eqb t "file" then Some EventTypeFile
  else if String.eqb t "accept" then Some EventTypeAccept
  else if String.eqb t "socket_data" then Some EventTypeSocketData
  else if String.eqb t "mmap" then Some EventTypeMmap
  else if String.eqb t "mprotect" then Some EventTypeMprotect
  else None.

(** [src/internal/joblet/telemetry/event.go ParseEventTypes] *)
Definition ParseEventTypes (types : list string) : list EventType := omap parse_type types.

(** ** The state of the collector *)

(** Listeners are names of channels.
    [src/internal/joblet/telemetry/collector.go eventBuffer] *)
Record eventBuffer := { events : list Event; listeners : list nat }.

(** A channel of a listener: what it holds, and whether it is closed. *)
Record channel := { queue : list Event; ch_closed : bool }.

(** Where a call of [Emit] stands: it has its buffer and must append; it has
    appended, and the convenience methods persist. *)
Inductive emit_at := EAppend | EPersist.

Record emission := { em_event : Event; em_buf : nat; em_at : emit_at; em_persist : bool }.

(** Where a call of [Stream] stands: it has its buffer; it is registered and sends
    the copy; it follows its channel; it has returned and its deferred function
    removes the listener, then closes the channel; it is gone. *)
Inductive stream_at := SGot | SBuffered (rest : list Event) | SLive | SUnlist | SClose | SDone.

Record stream := {
  st_buf : nat;
  st_ch : nat;
  st_filter : option (list EventType);
  st_at : stream_at;
}.

(** Buffers and channels live in heaps; [buffers] is the map by job.
    [src/internal/joblet/telemetry/collector.go Collector] *)
Record collector := {
  heap : gmap nat eventBuffer;
  chans : gmap nat channel;
  buffers : gmap string nat;
  bufferSize : Z;
  persister : bool;
  sequence : Z;
  emissions : gmap nat emission;
  streams : gmap nat stream;
  crashed : bool;
}.

(** [src/internal/joblet/telemetry/collector.go NewCollector] *)
Definition NewCollector (bufferSize : Z) : collector := {|
  heap := ∅; chans := ∅; buffers := ∅;
  bufferSize := if bufferSize <=? 0 then 100000 else bufferSize;
  persister := false; sequence := 0; emissions := ∅; streams := ∅; crashed := false |}.

(** What happens, for the statements about histories.  [OCall] is a call of the
    stream's callback; [OTake] an event it takes, sent on or filtered out. *)
Inductive obs :=
| OEmit (b : nat) (e : Event)
| OSent (ch : nat) (e : Event)
| OSkip (ch : nat) (e : Event)
| OPersist (seq : Z) (e : Event)
| ORegister (sid b ch : nat) (snapshot : list Event)
| OTake (sid : nat) (e : Event)
| OCall (sid : nat) (e : Event)
| OClear (b : nat)
| OClosed (ch : nat)
| OPanic.

(** ** Operations *)

Definition set_heap h (s : collector) : collector := {|
  heap := h; chans := chans s; buffers := buffers s; bufferSize := bufferSize s; persister := persister s;
  sequence := sequence s; emissions := emissions s; streams := streams s; crashed := crashed s |}.
Definition set_chans c (s : collector) : collector := {|
  heap := heap s; chans := c; buffers := buffers s; bufferSize := bufferSize s; persister := persister s;
  sequence := sequence s; emissions := emissions s; streams := streams s; crashed := crashed s |}.
Definition set_emissions e (s : collector) : collector := {|
  heap := heap s; chans := chans s; buffers := buffers s; bufferSize := bufferSize s; persister := persister s;
  sequence := sequence s; emissions := e; streams := streams s; crashed := crashed s |}.
Definition set_streams t (s : collector) : collector := {|
  heap := heap s; chans := chans s; buffers := buffers s; bufferSize := bufferSize s; persister := persister s;
  sequence := sequence s; emissions := emissions s; streams := t; crashed := crashed s |}.
Definition set_buffers b (s : collector) : collector := {|
  heap := heap s; chans := chans s; buffers := b; bufferSize := bufferSize s; persister := persister s;
  sequence := sequence s; emissions := emissions s; streams := streams s; crashed := crashed s |}.
Definition set_sequence n (s : collector) : collector := {|
  heap := heap s; chans := chans s; buffers := buffers s; bufferSize := bufferSize s; persister := persister s;
  sequence := n; emissions := emissions s; streams := streams s; crashed := crashed s |}.
Definition crash (s : collector) : collector := {|
  heap := heap s; chans := chans s; buffers := buffers s; bufferSize := bufferSize s; persister := persister s;
  sequence := sequence s; emissions := emissions s; streams := streams s; crashed := true |}.

(** [src/internal/joblet/telemetry/collector.go Collector.SetPersister] *)
Definition SetPersister (p : bool) (s : collector) : collector := {|
  heap := heap s; chans := chans s; buffers := buffers s; bufferSize := bufferSize s; persister := p;
  sequence := sequence s; emissions := emissions s; streams := streams s; crashed := crashed s |}.

(** The buffer of a job, made when the job has none.
    [src/internal/joblet/telemetry/collector.go Collector.getOrCreateBuffer] *)
Definition getOrCreateBuffer (jobID : string) (s : collector) : nat * collector :=
  match buffers s !! jobID with
  | Some b => (b, s)
  | None =>
      let b := fresh (dom (heap s)) in
      (b, set_buffers (<[jobID := b]> (buffers s))
            (set_heap (<[b := {| events := []; listeners := [] |}]> (heap s)) s))
  end.

(** The ring: at capacity the oldest event makes room.  A buffer that [ClearJob]
    emptied has length 0, below every capacity. *)
Definition push (size : Z) (e : Event) (l : list Event) : list Event :=
  if size <=? Z.of_nat (length l) then drop 1 l ++ [e] else l ++ [e].

(** A listener's channel holds 100 events; a send that would block is skipped, and
    a send on a closed channel panics.
    [src/internal/joblet/telemetry/collector.go:113-120 Collector.Emit] *)
Definition notify1 (e : Event) (acc : gmap nat channel * list obs * bool) (ch : nat)
    : gmap nat channel * list obs * bool :=
  let '(cs, os, ok) := acc in
  if ok then
    match cs !! ch with
    | Some c =>
        if ch_closed c then (cs, os ++ [OPanic], false)
        else if Z.of_nat (length (queue c)) <? 100
        then (<[ch := {| queue := queue c ++ [e]; ch_closed := false |}]> cs, os ++ [OSent ch e], true)
        else (cs, os ++ [OSkip ch e], true)
    | None => acc
    end
  else acc.

Definition notify (e : Event) (ls : list nat) (cs : gmap nat channel) :=
  foldl (notify1 e) (cs, [], true) ls.

(** The first part of [Emit]: the checks and the buffer.  A nil event is [None].
    [src/internal/joblet/telemetry/collector.go:96-101 Collector.Emit] *)
Definition Emit_start (id : nat) (ev : option Event) (persist : bool) (s : collector) : collector :=
  match ev with
  | None => s
  | Some e =>
      if String.eqb (JobUUID e) "" then
        (* the convenience methods persist the event all the same *)
        if persist then set_emissions (<[id := {| em_event := e; em_buf := 0; em_at := EPersist; em_persist := true |}]> (emissions s)) s
        else s
      else
        let '(b, s1) := getOrCreateBuffer (JobUUID e) s in
        set_emissions (<[id := {| em_event := e; em_buf := b; em_at := EAppend; em_persist := persist |}]> (emissions s1)) s1
  end.

(** The second part, under the lock of the buffer.
    [src/internal/joblet/telemetry/collector.go:102-121 Collector.Emit] *)
Definition Emit_append (id : nat) (s : collector) : option (collector * list obs) :=
  em ← emissions s !! id;
  buf ← heap s !! em_buf em;
  match em_at em with
  | EPersist => None
  | EAppend =>
      let e := em_event em in
      let '(cs, os, ok) := notify e (listeners buf) (chans s) in
      let s1 := set_chans cs (set_heap (<[em_buf em :=
        {| events := push (bufferSize s) e (events buf); listeners := listeners buf |}]> (heap s)) s) in
      let s2 := if em_persist em
        then set_emissions (<[id := {| em_event := e; em_buf := em_buf em; em_at := EPersist; em_persist := true |}]> (emissions s1)) s1
        else set_emissions (delete id (emissions s1)) s1 in
      Some (if ok then s2 else crash s2, OEmit (em_buf em) e :: os)
  end.

(** What the eight convenience methods do after [Emit]: a sequence number, a
    [uint64], and the persister; an error of the persister is only logged.
    [src/internal/joblet/telemetry/collector.go:128-137 Collector.EmitMetrics] *)
Definition Emit_persist (id : nat) (s : collector) : option (collector * list obs) :=
  em ← emissions s !! id;
  match em_at em with
  | EAppend => None
  | EPersist =>
      let s1 := set_emissions (delete id (emissions s)) s in
      if persister s then
        let seq := (sequence s + 1) mod 2 ^ 64 in
        Some (set_sequence seq s1, [OPersist seq (em_event em)])
      else Some (s1, [])
  end.

(** [src/internal/joblet/telemetry/collector.go Collector.EmitMetrics] *)
Definition EmitMetrics id now jobID d := Emit_start id (Some (NewMetricsEvent now jobID d)) true.
(** [src/internal/joblet/telemetry/collector.go Collector.EmitExec] *)
Definition EmitExec id now jobID d := Emit_start id (Some (NewExecEvent now jobID d)) true.
(** [src/internal/joblet/telemetry/collector.go Collector.EmitConnect] *)
Definition EmitConnect id now jobID d := Emit_start id (Some (NewConnectEvent now jobID d)) true.
(** [src/internal/joblet/telemetry/collector.go Collector.EmitFile] *)
Definition EmitFile id now jobID d := Emit_start id (Some (NewFileEvent now jobID d)) true.
(** [src/internal/joblet/telemetry/collector.go Collector.EmitAccept] *)
Definition EmitAccept id now jobID d := Emit_start id (Some (NewAcceptEvent now jobID d)) true.
(** [src/internal/joblet/telemetry/collector.go Collector.EmitSocketData] *)
Definition EmitSocketData id now jobID d := Emit_start id (Some (NewSocketDataEvent now jobID d)) true.
(** [src/internal/joblet/telemetry/collector.go Collector.EmitMmap] *)
Definition EmitMmap id now jobID d := Emit_start id (Some (NewMmapEvent now jobID d)) true.
(** [src/internal/joblet/telemetry/collector.go Collector.EmitMprotect] *)
Definition EmitMprotect id now jobID d := Emit_start id (Some (NewMprotectEvent now jobID d)) true.

(** *** Streams *)

Definition at_stage (a : stream_at) (st : stream) : stream :=
  {| st_buf := st_buf st; st_ch := st_ch st; st_filter := st_filter st; st_at := a |}.

Definition put_stream sid (st : stream) (s : collector) : collector :=
  set_streams (<[sid := st]> (streams s)) s.

(** [src/internal/joblet/telemetry/collector.go:269-270 Collector.Stream] *)
Definition Stream_start (sid : nat) (jobID : string) (filter : option (list EventType)) (s : collector)
    : option collector :=
  match streams s !! sid with
  | Some _ => None
  | None =>
      let '(b, s1) := getOrCreateBuffer jobID s in
      let ch := fresh (dom (chans s1)) in
      Some (put_stream sid {| st_buf := b; st_ch := ch; st_filter := filter; st_at := SGot |}
        (set_chans (<[ch := {| queue := []; ch_closed := false |}]> (chans s1)) s1))
  end.

(** Listing the channel and copying the buffer, in one critical section.
    [src/internal/joblet/telemetry/collector.go:275-281 Collector.Stream] *)
Definition Stream_register (sid : nat) (s : collector) : option (collector * list obs) :=
  st ← streams s !! sid;
  buf ← heap s !! st_buf st;
  match st_at st with
  | SGot => Some (put_stream sid (at_stage (SBuffered (events buf)) st)
      (set_heap (<[st_buf st := {| events := events buf; listeners := listeners buf ++ [st_ch st] |}]> (heap s)) s),
      [ORegister sid (st_buf st) (st_ch st) (events buf)])
  | _ => None
  end.

(** One event given to the stream: the callback, if the filter lets it through,
    which may return an error ([fails]). *)
Definition hand_on (sid : nat) (st : stream) (e : Event) (fails : bool) (next : stream_at) : stream * list obs :=
  if passes (st_filter st) e
  then (at_stage (if fails then SUnlist else next) st, [OTake sid e; OCall sid e])
  else (at_stage next st, [OTake sid e]).

(** [src/internal/joblet/telemetry/collector.go:297-303 Collector.Stream] *)
Definition Stream_buffered (sid : nat) (fails : bool) (s : collector) : option (collector * list obs) :=
  st ← streams s !! sid;
  match st_at st with
  | SBuffered [] => Some (put_stream sid (at_stage SLive st) s, [])
  | SBuffered (e :: rest) =>
      let '(st', os) := hand_on sid st e fails (SBuffered rest) in Some (put_stream sid st' s, os)
  | _ => None
  end.

(** What the select of the live loop may see. *)
Inductive wake := WCancelled | WChannel (fails : bool).

(** One turn of the live loop: the context, or the channel, which must hold an
    event or be closed.
    [src/internal/joblet/telemetry/collector.go:306-320 Collector.Stream] *)
Definition Stream_live (sid : nat) (w : wake) (s : collector) : option (collector * list obs) :=
  st ← streams s !! sid;
  c ← chans s !! st_ch st;
  match st_at st with
  | SLive =>
      match w with
      | WCancelled => Some (put_stream sid (at_stage SUnlist st) s, [])
      | WChannel fails =>
          match queue c with
          | e :: q =>
              let '(st', os) := hand_on sid st e fails SLive in
              Some (put_stream sid st' (set_chans (<[st_ch st := {| queue := q; ch_closed := ch_closed c |}]> (chans s)) s), os)
          | [] => if ch_closed c then Some (put_stream sid (at_stage SUnlist st) s, []) else None
          end
      end
  | _ => None
  end.

(** The removal of the first listener that is the channel. *)
Fixpoint unlist (ch : nat) (ls : list nat) : list nat :=
  match ls with
  | [] => []
  | l :: ls => if Nat.eqb l ch then ls else l :: unlist ch ls
  end.

(** The deferred function, up to the unlock.
    [src/internal/joblet/telemetry/collector.go:285-292 Collector.Stream] *)
Definition Stream_unlist (sid : nat) (s : collector) : option (collector * list obs) :=
  st ← streams s !! sid;
  buf ← heap s !! st_buf st;
  match st_at st with
  | SUnlist => Some (put_stream sid (at_stage SClose st)
      (set_heap (<[st_buf st := {| events := events buf; listeners := unlist (st_ch st) (listeners buf) |}]> (heap s)) s), [])
  | _ => None
  end.

(** Its [close(ch)], which panics on a channel that is closed.
    [src/internal/joblet/telemetry/collector.go:293 Collector.Stream] *)
Definition Stream_close (sid : nat) (s : collector) : option (collector * list obs) :=
  st ← streams s !! sid;
  c ← chans s !! st_ch st;
  match st_at st with
  | SClose =>
      let s1 := put_stream sid (at_stage SDone st) s in
      if ch_closed c then Some (crash s1, [OPanic])
      else Some (set_chans (<[st_ch st := {| queue := queue c; ch_closed := true |}]> (chans s1)) s1, [OClosed (st_ch st)])
  | _ => None
  end.

(** *** The other methods *)

Definition close_all (acc : gmap nat channel * list obs * bool) (ch : nat) : gmap nat channel * list obs * bool :=
  let '(cs, os, ok) := acc in
  if ok then
    match cs !! ch with
    | Some c => if ch_closed c then (cs, os ++ [OPanic], false)
                else (<[ch := {| queue := queue c; ch_closed := true |}]> cs, os ++ [OClosed ch], true)
    | None => acc
    end
  else acc.

(** [src/internal/joblet/telemetry/collector.go Collector.ClearJob] *)
Definition ClearJob (jobID : string) (s : collector) : collector * list obs :=
  match buffers s !! jobID with
  | Some b =>
      match heap s !! b with
      | Some buf =>
          let '(cs, os, ok) := foldl close_all (chans s, [], true) (listeners buf) in
          let s1 := set_buffers (delete jobID (buffers s))
            (set_chans cs (set_heap (<[b := {| events := []; listeners := [] |}]> (heap s)) s)) in
          (if ok then s1 else crash s1, OClear b :: os)
      | None => (set_buffers (delete jobID (buffers s)) s, [])
      end
  | None => (s, [])
  end.

(** The loop of [GetBufferedEvents]: the events within the times that the filter
    lets through, up to the limit. *)
Fixpoint buffered_loop (filter : option (list EventType)) (startTime endTime : option Z) (limit : Z)
    (l : list Event) (result : list Event) : list Event :=
  match l with
  | [] => result
  | e :: l =>
      let before := match startTime with Some t => Timestamp e <? t | None => false end in
      let after := match endTime with Some t => t <? Timestamp e | None => false end in
      if before then buffered_loop filter startTime endTime limit l result
      else if after then buffered_loop filter startTime endTime limit l result
      else if negb (passes filter e) then buffered_loop filter startTime endTime limit l result
      else
        let result := result ++ [e] in
        if (0 <? limit) && (limit <=? Z.of_nat (length result)) then result
        else buffered_loop filter startTime endTime limit l result
  end.

(** A zero time is [None].
    [src/internal/joblet/telemetry/collector.go Collector.GetBufferedEvents] *)
Definition GetBufferedEvents (jobID : string) (filter : option (list EventType)) (startTime endTime : option Z)
    (limit : Z) (s : collector) : list Event :=
  match buffers s !! jobID ≫= λ b, heap s !! b with
  | Some buf => buffered_loop filter startTime endTime limit (events buf) []
  | None => []
  end.

(** [src/internal/joblet/telemetry/collector.go Collector.JobCount] *)
Definition JobCount (s : collector) : Z := Z.of_nat (size (buffers s)).

(** [src/internal/joblet/telemetry/collector.go Collector.EventCount] *)
Definition EventCount (s : collector) : Z :=
  map_fold (λ _ b n, n + match heap s !! b with Some buf => Z.of_nat (length (events buf)) | None => 0 end)
    0 (buffers s).

(** ** Interleavings *)

Inductive act :=
| AEmitStart (id : nat) (ev : option Event) (persist : bool)
| AEmitAppend (id : nat)
| AEmitPersist (id : nat)
| AStreamStart (sid : nat) (jobID : string) (filter : option (list EventType))
| AStreamRegister (sid : nat)
| AStreamBuffered (sid : nat) (fails : bool)
| AStreamLive (sid : nat) (w : wake)
| AStreamUnlist (sid : nat)
| AStreamClose (sid : nat)
| AClearJob (jobID : string)
| ASetPersister (p : bool).

(** One step of the collector's users; nothing happens after a panic, which ends
    the process, and a name of a call is used once at a time. *)
Definition tstep (a : act) (s : collector) : option (collector * list obs) :=
  if crashed s then None else
  match a with
  | AEmitStart id ev p =>
      match emissions s !! id with Some _ => None | None => Some (Emit_start id ev p s, []) end
  | AEmitAppend id => Emit_append id s
  | AEmitPersist id => Emit_persist id s
  | AStreamStart sid j f => s' ← Stream_start sid j f s; Some (s', [])
  | AStreamRegister sid => Stream_register sid s
  | AStreamBuffered sid fails => Stream_buffered sid fails s
  | AStreamLive sid w => Stream_live sid w s
  | AStreamUnlist sid => Stream_unlist sid s
  | AStreamClose sid => Stream_close sid s
  | AClearJob j => Some (ClearJob j s)
  | ASetPersister p => Some (SetPersister p s, [])
  end.

(** A history: what was observed from a new collector on. *)
Inductive history (n : Z) : list obs → collector → Prop :=
| history_new : history n [] (NewCollector n)
| history_step tr s a s' os : history n tr s → tstep a s = Some (s', os) → history n (tr ++ os) s'.

(** Running a list of actions, for concrete runs. *)
Fixpoint trun (acts : list act) (s : collector) : option (collector * list obs) :=
  match acts with
  | [] => Some (s, [])
  | a :: acts => '(s1, os) ← tstep a s; '(s2, os') ← trun acts s1; Some (s2, os ++ os')
  end.

(** ** Histories *)

Definition obs_emit (b : nat) (o : obs) : option Event :=
  match o with OEmit b' e => if decide (b' = b) then Some e else None | _ => None end.
Definition obs_sent (ch : nat) (o : obs) : option Event :=
  match o with OSent ch' e => if decide (ch' = ch) then Some e else None | _ => None end.
Definition obs_offer (ch : nat) (o : obs) : option Event :=
  match o with
  | OSent ch' e | OSkip ch' e => if decide (ch' = ch) then Some e else None
  | _ => None
  end.
Definition obs_take (sid : nat) (o : obs) : option Event :=
  match o with OTake sid' e => if decide (sid' = sid) then Some e else None | _ => None end.
Definition obs_call (sid : nat) (o : obs) : option Event :=
  match o with OCall sid' e => if decide (sid' = sid) then Some e else None | _ => None end.

(** The events emitted to a buffer; those its listener was sent, and offered
    (sent, or skipped because the channel was full); those a stream took, and
    those it gave to its callback. *)
Definition emitted b (tr : list obs) := omap (obs_emit b) tr.
Definition sent ch (tr : list obs) := omap (obs_sent ch) tr.
Definition offered ch (tr : list obs) := omap (obs_offer ch) tr.
Definition taken sid (tr : list obs) := omap (obs_take sid) tr.
Definition called sid (tr : list obs) := omap (obs_call sid) tr.

(** The events emitted to a buffer since it was last cleared. *)
Definition since_clear_step (b : nat) (l : list Event) (o : obs) : list Event :=
  match o with
  | OEmit b' e => if decide (b' = b) then l ++ [e] else l
  | OClear b' => if decide (b' = b) then [] else l
  | _ => l
  end.
Definition since_clear (b : nat) (tr : list obs) : list Event := foldl (since_clear_step b) [] tr.

(** The reference of the ring: the [n] most recent elements of a list. *)
Definition last_n {A} (n : Z) (l : list A) : list A := drop (length l - Z.to_nat n) l.

(** What of the copy is still to be handed on. *)
Definition rest_of (st : stream) : list Event := match st_at st with SBuffered rest => rest | _ => [] end.

Definition following (st : stream) : bool :=
  match st_at st with SBuffered _ | SLive => true | _ => false end.

(** The stages in which the channel is on a list, unless the job was cleared. *)
Definition listed_at (st : stream) : bool :=
  match st_at st with SBuffered _ | SLive | SUnlist => true | _ => false end.

(** The queue of a stream holds at most 100 events, the last ones it was sent and has still to take; and whenever an
    event was skipped, 100 of those it had been sent had not been taken. *)
Definition fed (sid ch : nat) (snap : list Event) (tr2 : list obs) (p q : list Event) : Prop :=
  (∃ k, p = k ++ q) ∧ (∃ k, sent ch tr2 = k ++ q) ∧ (length q ≤ 100)%nat ∧
  ∀ a e b, tr2 = a ++ OSkip ch e :: b → (100 ≤ length (sent ch a) ∧ length (taken sid a) + 100 ≤ length (snap ++ sent ch a))%nat.

(** The contract of a registered stream, at a state where its channel holds [q]:
    it registered at some point of the history, with the recent events of its
    buffer; what its channel was offered are the emissions since, as long as it
    was listed; it takes the copy and then what it was sent, in order and once,
    and gives its callback what the filter lets through. *)
Definition delivery (size : Z) (tr : list obs) (sid : nat) (st : stream) (q : list Event) (listed : Prop) : Prop :=
  ∃ tr1 tr2 snap pending,
    tr = tr1 ++ ORegister sid (st_buf st) (st_ch st) snap :: tr2 ∧
    snap = last_n size (since_clear (st_buf st) tr1) ∧
    offered (st_ch st) tr2 `prefix_of` emitted (st_buf st) tr2 ∧
    (listed → offered (st_ch st) tr2 = emitted (st_buf st) tr2) ∧
    sent (st_ch st) tr2 `sublist_of` offered (st_ch st) tr2 ∧
    snap ++ sent (st_ch st) tr2 = taken sid tr2 ++ pending ∧
    (following st → pending = rest_of st ++ q) ∧
    called sid tr2 = filter (λ e, passes (st_filter st) e) (taken sid tr2) ∧
    fed sid (st_ch st) snap tr2 pending q.

Record tinv (size : Z) (tr : list obs) (s : collector) : Prop := {
  i_size : bufferSize s = size;
  i_events : ∀ b buf, heap s !! b = Some buf → events buf = last_n size (since_clear b tr);
  i_unborn : ∀ b, heap s !! b = None → since_clear b tr = [];
  i_nodup : ∀ b buf, heap s !! b = Some buf → NoDup (listeners buf);
  i_listed : ∀ b buf ch, heap s !! b = Some buf → ch ∈ listeners buf →
    ∃ sid st, streams s !! sid = Some st ∧ st_ch st = ch ∧ st_buf st = b ∧ listed_at st ∧
      ∃ q, chans s !! ch = Some {| queue := q; ch_closed := false |};
  i_stream : ∀ sid st, streams s !! sid = Some st →
    (∃ buf, heap s !! st_buf st = Some buf) ∧
    ∃ c, chans s !! st_ch st = Some c ∧
      (ch_closed c → st_at st = SDone ∨ OClear (st_buf st) ∈ tr);
  i_got : ∀ sid st c, streams s !! sid = Some st → chans s !! st_ch st = Some c → st_at st = SGot →
    c = {| queue := []; ch_closed := false |};
  i_delivery : ∀ sid st c, streams s !! sid = Some st → chans s !! st_ch st = Some c → st_at st ≠ SGot →
    delivery size tr sid st (queue c)
      (∃ buf, heap s !! st_buf st = Some buf ∧ st_ch st ∈ listeners buf);
  i_own : ∀ sid1 sid2 st1 st2, streams s !! sid1 = Some st1 → streams s !! sid2 = Some st2 →
    st_ch st1 = st_ch st2 → sid1 = sid2;
  i_buffers : ∀ j b, buffers s !! j = Some b → ∃ buf, heap s !! b = Some buf;
  i_emission : ∀ id em, emissions s !! id = Some em → em_at em = EAppend → ∃ buf, heap s !! em_buf em = Some buf;
  i_crash : OPanic ∈ tr ↔ crashed s;
  i_crash_clear : crashed s → ∃ b, OClear b ∈ tr;
}.

(** *** The ring and the filter *)

Lemma push_last_n (size : Z) (e : Event) (l : list Event) :
  0 < size → push size e (last_n size l) = last_n size (l ++ [e]).
Proof.
  intros Hp. unfold push, last_n. rewrite length_drop, length_app. simpl.
  case_match; to_prop.
  - rewrite drop_drop. rewrite drop_app_le by lia. f_equal. f_equal. lia.
  - rewrite drop_app_le by lia. f_equal. f_equal. lia.
Qed.

Lemma Matches_spec types e : Matches types e = true ↔ types = [] ∨ Type_ e ∈ types.
Proof.
  destruct types as [|t types]; [split; [by left|done]|]. unfold Matches.
  rewrite existsb_exists. split.
  - intros (x & Hx & Heq%String.eqb_eq). right. rewrite Heq. by apply list_elem_of_In.
  - intros [?|Hin]; [done|]. exists (Type_ e). split; [by apply list_elem_of_In|apply String.eqb_refl].
Qed.

(** *** Observations of one list *)

Ltac obs_simpl := unfold emitted, sent, offered, taken, called in *; rewrite ?omap_app in *; simpl in *.

Lemma since_clear_app b tr os : since_clear b (tr ++ os) = foldl (since_clear_step b) (since_clear b tr) os.
Proof. unfold since_clear. by rewrite foldl_app. Qed.

(** Lists of observations that concern channels only. *)
Definition of_channels (o : obs) : Prop :=
  match o with OSent _ _ | OSkip _ _ | OClosed _ => True | _ => False end.

Lemma of_channels_silent os : Forall of_channels os →
  (∀ b, emitted b os = []) ∧ (∀ sid, taken sid os = []) ∧ (∀ sid, called sid os = []) ∧
  (∀ b l, foldl (since_clear_step b) l os = l) ∧ OPanic ∉ os ∧ (∀ b, OClear b ∉ os).
Proof.
  induction 1 as [|o os Ho Hos (IH1 & IH2 & IH3 & IH4 & IH5 & IH6)].
  - repeat split; try done; intros; apply not_elem_of_nil.
  - destruct o; try done; repeat split; intros; simpl; rewrite ?IH4; auto;
      rewrite not_elem_of_cons; auto.
Qed.

(** *** Notification *)

Definition is_open (cs : gmap nat channel) (ch : nat) : Prop :=
  ∃ q, cs !! ch = Some {| queue := q; ch_closed := false |}.

(** One listener's share of a notification. *)
Definition notified (e : Event) (ch : nat) (cs cs' : gmap nat channel) (os : list obs) : Prop :=
  ∃ q, cs !! ch = Some {| queue := q; ch_closed := false |} ∧ offered ch os = [e] ∧
    ((cs' !! ch = Some {| queue := q ++ [e]; ch_closed := false |} ∧ sent ch os = [e] ∧ (length q < 100)%nat) ∨
     (cs' !! ch = cs !! ch ∧ sent ch os = [] ∧ (100 ≤ length q)%nat)).

Lemma notify_fold e ls cs os0 :
  NoDup ls → (∀ ch, ch ∈ ls → is_open cs ch) →
  ∃ cs' os, foldl (notify1 e) (cs, os0, true) ls = (cs', os0 ++ os, true) ∧ Forall of_channels os ∧
    (∀ ch, ch ∉ ls → cs' !! ch = cs !! ch ∧ sent ch os = [] ∧ offered ch os = []) ∧
    (∀ ch, ch ∈ ls → notified e ch cs cs' os).
Proof.
  revert cs os0. induction ls as [|l ls IH]; intros cs os0 Hnd Hopen.
  { exists cs, []. rewrite app_nil_r. repeat split; [constructor|].
    by intros ? ?%not_elem_of_nil. }
  apply NoDup_cons in Hnd as [Hl Hnd].
  destruct (Hopen l) as [q Hq]; [left|].
  assert (Hstep : ∃ cs1 o, notify1 e (cs, os0, true) l = (cs1, os0 ++ [o], true) ∧ of_channels o ∧
    (∀ ch, ch ≠ l → cs1 !! ch = cs !! ch ∧ sent ch [o] = [] ∧ offered ch [o] = []) ∧
    notified e l cs cs1 [o]).
  { unfold notify1. rewrite Hq. simpl. case_match; to_prop.
    - eexists _, _. split; [done|]. split; [done|]. split.
      + intros ch Hch. rewrite lookup_insert_ne by done. simpl. by rewrite decide_False.
      + exists q. simpl. rewrite !decide_True by done. rewrite lookup_insert_eq. split; [done|]. split; [done|]. left. repeat (split; [done|]). lia.
    - eexists _, _. split; [done|]. split; [done|]. split.
      + intros ch Hch. simpl. by rewrite decide_False.
      + exists q. simpl. rewrite !decide_True by done. split; [done|]. split; [done|]. right.
        split; [done|]. split; [done|]. lia. }
  destruct Hstep as (cs1 & o & Hs & Ho & Hother & Hself).
  destruct (IH cs1 (os0 ++ [o])) as (cs' & os & Hf & Hch & Hout & Hin); [done| |].
  { intros ch Hch. unfold is_open. destruct (Hother ch) as [-> _]; [by intros ->|].
    apply Hopen. by right. }
  exists cs', (o :: os). cbn [foldl]. rewrite Hs, Hf. rewrite <- app_assoc. split; [done|].
  split; [by constructor|].
  assert (Happ : ∀ ch, sent ch (o :: os) = sent ch [o] ++ sent ch os ∧
    offered ch (o :: os) = offered ch [o] ++ offered ch os).
  { intros ch. change (o :: os) with ([o] ++ os). by obs_simpl. }
  split.
  - intros ch [Hne Hni]%not_elem_of_cons. destruct (Happ ch) as [-> ->].
    destruct (Hother ch) as (<- & -> & ->); [done|]. destruct (Hout ch) as (<- & -> & ->); done.
  - intros ch [->|Hi]%elem_of_cons; unfold notified in *; destruct (Happ ch) as [-> ->] || destruct (Happ l) as [-> ->].
    + destruct Hself as (q' & ? & -> & Hc). destruct (Hout l) as (-> & -> & ->); [done|].
      exists q'. rewrite !app_nil_r. auto.
    + assert (ch ≠ l) as Hne by (by intros ->). destruct (Hother ch Hne) as (E & -> & ->).
      destruct (Hin ch Hi) as (q' & Hq' & ? & Hc). rewrite E in Hq'. exists q'. rewrite <- E. simpl.
      split; [by rewrite E|]. split; [done|]. exact Hc.
Qed.

Lemma close_all_fold ls cs os0 :
  NoDup ls → (∀ ch, ch ∈ ls → is_open cs ch) →
  ∃ cs' os, foldl close_all (cs, os0, true) ls = (cs', os0 ++ os, true) ∧ Forall of_channels os ∧
    (∀ ch, sent ch os = [] ∧ offered ch os = []) ∧
    (∀ ch, ch ∉ ls → cs' !! ch = cs !! ch) ∧
    (∀ ch, ch ∈ ls → ∃ q, cs !! ch = Some {| queue := q; ch_closed := false |} ∧
      cs' !! ch = Some {| queue := q; ch_closed := true |}).
Proof.
  revert cs os0. induction ls as [|l ls IH]; intros cs os0 Hnd Hopen.
  { exists cs, []. rewrite app_nil_r. repeat split; [constructor|]. by intros ? ?%not_elem_of_nil. }
  apply NoDup_cons in Hnd as [Hl Hnd].
  destruct (Hopen l) as [q Hq]; [left|]. cbn [foldl]. unfold close_all at 2. rewrite Hq. simpl.
  destruct (IH (<[l := {| queue := q; ch_closed := true |}]> cs) (os0 ++ [OClosed l])) as (cs' & os & Hf & Hch & Hs & Hout & Hin);
    [done| |].
  { intros ch Hch. unfold is_open. rewrite lookup_insert_ne by (by intros ->). apply Hopen. by right. }
  exists cs', (OClosed l :: os). rewrite Hf, <- app_assoc. split; [done|]. split; [by constructor|].
  split; [exact Hs|]. split.
  - intros ch [Hne Hni]%not_elem_of_cons. rewrite Hout by done. by rewrite lookup_insert_ne.
  - intros ch [->|Hi]%elem_of_cons.
    + exists q. split; [done|]. rewrite Hout by done. by rewrite lookup_insert_eq.
    + destruct (Hin ch Hi) as (q' & Hq' & ?). rewrite lookup_insert_ne in Hq' by (by intros ->). eauto.
Qed.

(** *** The contract of a stream under extension *)

Definition quiet (st : stream) (sid : nat) (os : list obs) : Prop :=
  offered (st_ch st) os = [] ∧ sent (st_ch st) os = [] ∧ taken sid os = [] ∧ called sid os = [].

Lemma no_offer_no_skip ch os e : offered ch os = [] → OSkip ch e ∉ os.
Proof.
  intros Ho Hin. apply list_elem_of_split in Hin as (a & b & ->). revert Ho. unfold offered. rewrite omap_app. cbn.
  rewrite decide_True by done. by destruct (omap _ a).
Qed.

(** Skips of a longer history are those of the shorter one and of what was added. *)
Lemma fed_app sid ch snap tr2 os p q p' q' : fed sid ch snap tr2 p q → (∃ k, p' = k ++ q') →
  (∃ k, q ++ sent ch os = k ++ q') → (length q' ≤ 100)%nat →
  (∀ a e b, os = a ++ OSkip ch e :: b → (100 ≤ length (sent ch (tr2 ++ a)) ∧ length (taken sid (tr2 ++ a)) + 100 ≤ length (snap ++ sent ch (tr2 ++ a)))%nat) →
  fed sid ch snap (tr2 ++ os) p' q'.
Proof.
  intros (_ & [k1 E1] & _ & Hk) Hs [k2 E2] Hl Hn. split; [done|]. split.
  { exists (k1 ++ k2). unfold sent in *. by rewrite omap_app, E1, <- !app_assoc, E2. }
  split; [done|]. intros a e b E.
  apply app_eq_inv in E as [(k & -> & E)|(k & -> & E)]; [|by apply (Hn k e b)].
  destruct k as [|o k]; cbn in E.
  - specialize (Hn [] e b). rewrite !app_nil_r in Hn. by apply Hn.
  - injection E as <- ->. by apply (Hk a e k).
Qed.

Lemma sent_offered ch tr : sent ch tr `sublist_of` offered ch tr.
Proof.
  induction tr as [|o tr IH]; [constructor|]. unfold sent, offered in *. cbn. destruct o; cbn; try exact IH; case_decide; cbn; first [exact IH | by apply sublist_skip | by apply sublist_cons].
Qed.

Lemma fed_unoffered sid ch snap tr2 os p q p' q' : offered ch os = [] → fed sid ch snap tr2 p q → (∃ k, p' = k ++ q') → (∃ k, q = k ++ q') →
  fed sid ch snap (tr2 ++ os) p' q'.
Proof.
  intros Ho Hf Hs [k Ek]. pose proof Hf as (_ & _ & Hl & _). apply (fed_app _ _ _ _ _ _ _ _ _ Hf Hs).
  - exists k. pose proof (sent_offered ch os) as E. rewrite Ho in E. apply sublist_nil_r in E. by rewrite E, app_nil_r.
  - rewrite Ek, length_app in Hl. lia.
  - intros a e b E. exfalso. apply (no_offer_no_skip ch os e Ho). rewrite E. apply elem_of_app. right. left.
Qed.

Lemma delivery_quiet size tr sid st q (L L' : Prop) os :
  quiet st sid os → (L' → L ∧ emitted (st_buf st) os = []) →
  delivery size tr sid st q L → delivery size (tr ++ os) sid st q L'.
Proof.
  intros (Ho & Hs & Ht & Hc) HL (tr1 & tr2 & snap & p & -> & Hsnap & Hpre & Heq & Hsub & Hcons & Hf & Hcall & Hfed).
  exists tr1, (tr2 ++ os), snap, p. rewrite <- app_assoc. split; [done|]. split; [done|].
  obs_simpl. rewrite Ho, Hs, Ht, Hc, !app_nil_r.
  split; [by apply prefix_app_r|]. split; [|repeat (split; [done|]); by apply (fed_unoffered _ _ _ _ _ p q); [..|apply Hfed|exists []]].
  intros HL'. destruct (HL HL') as [HL0 ->]. rewrite app_nil_r. auto.
Qed.

Lemma skipped_fewer ch e tr : OSkip ch e ∈ tr → (length (sent ch tr) < length (offered ch tr))%nat.
Proof.
  assert (H : ∀ tr, (length (sent ch tr) ≤ length (offered ch tr))%nat).
  { induction tr0 as [|o l IH]; [done|]. unfold sent, offered in *. cbn. destruct o; cbn; try exact IH; case_decide; cbn; lia. }
  intros Hin. apply list_elem_of_split in Hin as (a & b & ->). pose proof (H a). pose proof (H b). unfold sent, offered in *.
  rewrite !omap_app, !length_app. cbn. rewrite decide_True by done. cbn. lia.
Qed.

Lemma delivery_offer size tr sid st q q' (L : Prop) e os :
  L → emitted (st_buf st) os = [e] → offered (st_ch st) os = [e] → taken sid os = [] → called sid os = [] →
  (q' = q ++ [e] ∧ sent (st_ch st) os = [e] ∧ (length q < 100)%nat) ∨ (q' = q ∧ sent (st_ch st) os = [] ∧ (100 ≤ length q)%nat) →
  delivery size tr sid st q L → delivery size (tr ++ os) sid st q' L.
Proof.
  intros HL He Ho Ht Hc Hs (tr1 & tr2 & snap & p & -> & Hsnap & Hpre & Heq & Hsub & Hcons & Hf & Hcall & Hfed).
  exists tr1, (tr2 ++ os), snap.
  exists (p ++ sent (st_ch st) os). rewrite <- app_assoc. split; [done|]. split; [done|].
  obs_simpl. rewrite He, Ho, Ht, Hc, !app_nil_r. specialize (Heq HL).
  split; [by rewrite Heq|]. split; [intros _; by rewrite Heq|].
  split; [|split; [|split; [|split; [done|]]]].
  - destruct Hs as [(_ & -> & _)|(_ & -> & _)]; [by apply sublist_app|].
    rewrite app_nil_r. by apply sublist_inserts_r.
  - by rewrite !app_assoc, Hcons.
  - intros Hfo. rewrite (Hf Hfo). destruct Hs as [(-> & -> & _)|(-> & -> & _)]; [by rewrite app_assoc|by rewrite app_nil_r].
  - pose proof Hfed as ([k Ek] & [k' Ek'] & Hl & Hk). apply (fed_app _ _ _ _ _ p q); [done| | | |].
    + exists k. destruct Hs as [(-> & -> & _)|(-> & -> & _)]; rewrite Ek; [by rewrite app_assoc|by rewrite app_nil_r].
    + exists []. destruct Hs as [(-> & E & _)|(-> & E & _)]; unfold sent in *; rewrite E; [done|by rewrite app_nil_r].
    + destruct Hs as [(-> & _ & ?)|(-> & _ & _)]; [rewrite length_app; cbn; lia|done].
    + intros a e' b E. assert (Hskip : (length (sent (st_ch st) os) < length (offered (st_ch st) os))%nat).
      { apply (skipped_fewer _ e'). rewrite E. apply elem_of_app. right. left. }
      unfold sent, offered in Hskip, Ho, Hs. rewrite Ho in Hskip. cbn in Hskip. destruct Hs as [(_ & E1 & _)|(_ & E1 & Hfull)]; [rewrite E1 in Hskip; cbn in Hskip; lia|].
      assert (Ht' : taken sid a = []).
      { rewrite E in Ht. unfold taken in *. rewrite omap_app in Ht. by apply app_eq_nil in Ht as [-> _]. }
      apply (f_equal length) in Hcons, Ek'. rewrite Ek, !length_app in Hcons. rewrite length_app in Ek'. obs_simpl. rewrite Ht', !length_app. cbn [length]. lia.
Qed.

(** Handing on one event, and changing the stage. *)
Lemma delivery_take size tr sid st q e p' fails next q' (L L' : Prop) :
  following st → rest_of st ++ q = e :: p' →
  (following (at_stage next st) → rest_of (at_stage next st) ++ q' = p') → (L' → L) → (∃ k, p' = k ++ q') → (∃ k, q = k ++ q') →
  delivery size tr sid st q L →
  delivery size (tr ++ (hand_on sid st e fails next).2) sid (hand_on sid st e fails next).1 q' L'.
Proof.
  intros Hfo Hp Hnext HL Hk Hlq (tr1 & tr2 & snap & p & -> & Hsnap & Hpre & Heq & Hsub & Hcons & Hf & Hcall & Hfed).
  assert (Hfed' : ∀ os, offered (st_ch st) os = [] → fed sid (st_ch st) snap (tr2 ++ os) p' q').
  { intros os Ho. by apply (fed_unoffered _ _ _ _ _ p q). }
  rewrite (Hf Hfo), Hp in Hcons. unfold hand_on.
  destruct (passes (st_filter st) e) eqn:Hpass; simpl.
  - exists tr1, (tr2 ++ [OTake sid e; OCall sid e]), snap, p'. rewrite <- app_assoc. split; [done|].
    split; [done|]. obs_simpl. rewrite !app_nil_r, !decide_True by done.
    rewrite filter_app, filter_cons_True, filter_nil by (by rewrite Hpass).
    split; [done|]. split; [by intros ?; apply Heq, HL|]. split; [done|].
    split; [by rewrite <- app_assoc|]. split; [|split; [by rewrite Hcall|by apply Hfed']].
    destruct fails; [done|]. intros Hn. symmetry. by apply Hnext.
  - exists tr1, (tr2 ++ [OTake sid e]), snap, p'. rewrite <- app_assoc. split; [done|].
    split; [done|]. obs_simpl. rewrite !app_nil_r, !decide_True by done.
    rewrite filter_app, filter_cons_False, filter_nil, app_nil_r by (rewrite Hpass; intros []).
    split; [done|]. split; [by intros ?; apply Heq, HL|]. split; [done|].
    split; [by rewrite <- app_assoc|]. split; [|split; [by rewrite Hcall|by apply Hfed']].
    intros Hn. symmetry. by apply Hnext.
Qed.

Lemma delivery_stage size tr sid st q a q' (L L' : Prop) :
  (following (at_stage a st) → following st ∧ rest_of (at_stage a st) ++ q' = rest_of st ++ q) → (L' → L) → q' = q →
  delivery size tr sid st q L → delivery size tr sid (at_stage a st) q' L'.
Proof.
  intros Hst HL -> (tr1 & tr2 & snap & p & -> & Hsnap & Hpre & Heq & Hsub & Hcons & Hf & Hcall & Hfed).
  exists tr1, tr2, snap, p. repeat (split; [by auto|]).
  split; [|by split]. intros [Hfo E]%Hst. by rewrite (Hf Hfo).
Qed.

Lemma delivery_register size tr sid st snap :
  snap = last_n size (since_clear (st_buf st) tr) →
  delivery size (tr ++ [ORegister sid (st_buf st) (st_ch st) snap]) sid (at_stage (SBuffered snap) st) [] True.
Proof.
  intros Hs. exists tr, [], snap, snap. repeat (split; [done|]). split; [by rewrite app_nil_r|].
  split; [intros _; by rewrite app_nil_r|]. split; [done|]. split; [exists snap; by rewrite app_nil_r|]. split; [by exists []|]. split; [cbn; lia|].
  intros a e b E. by destruct a.
Qed.

Lemma quiet_nil st sid : quiet st sid [].
Proof. done. Qed.
#[local] Hint Resolve quiet_nil : core.

(** The invariant looks at the trace only through these. *)
Definition unseen (os : list obs) : Prop :=
  (∀ b l, foldl (since_clear_step b) l os = l) ∧ OPanic ∉ os.

(** *** Allocation *)

Lemma getOrCreate_inv size tr s j b s1 :
  0 < size → tinv size tr s → getOrCreateBuffer j s = (b, s1) →
  tinv size tr s1 ∧ (∃ buf, heap s1 !! b = Some buf) ∧ buffers s1 !! j = Some b ∧
  emissions s1 = emissions s ∧ streams s1 = streams s ∧ chans s1 = chans s ∧ crashed s1 = crashed s.
Proof.
  intros Hpos I Hg. unfold getOrCreateBuffer in Hg. destruct (buffers s !! j) as [b0|] eqn:Hb; simplify_eq.
  { split; [done|]. split; [by eapply i_buffers|]. by rewrite Hb. }
  set (b := fresh (dom (heap s))). assert (heap s !! b = None) as Hf.
  { apply not_elem_of_dom. apply is_fresh. }
  split; [|simpl; rewrite !lookup_insert_eq; eauto 10].
  destruct I. constructor; simpl; try done.
  - intros b' buf. destruct (decide (b' = b)) as [->|].
    + rewrite lookup_insert_eq. intros [= <-]. simpl. rewrite i_unborn0 by done. by unfold last_n.
    + rewrite lookup_insert_ne by done. apply i_events0.
  - intros b'. destruct (decide (b' = b)) as [->|]; [by rewrite lookup_insert_eq|].
    rewrite lookup_insert_ne by done. apply i_unborn0.
  - intros b' buf. destruct (decide (b' = b)) as [->|].
    + rewrite lookup_insert_eq. intros [= <-]. constructor.
    + rewrite lookup_insert_ne by done. apply i_nodup0.
  - intros b' buf ch. destruct (decide (b' = b)) as [->|].
    + rewrite lookup_insert_eq. intros [= <-]. simpl. by intros ?%not_elem_of_nil.
    + rewrite lookup_insert_ne by done. apply i_listed0.
  - intros sid st Hst. destruct (i_stream0 sid st Hst) as [[buf Hbuf] ?]. split; [|done].
    exists buf. rewrite lookup_insert_ne; [done|]. intros E. by rewrite <- E, Hf in Hbuf.
  - intros sid st c Hst Hc Hat. destruct (i_stream0 sid st Hst) as [[buf0 Hbuf0] _].
    rewrite <- (app_nil_r tr). eapply delivery_quiet; [done| |by eapply i_delivery0].
    intros (buf & Hbuf & Hin). split; [|done]. exists buf.
    rewrite lookup_insert_ne in Hbuf; [done|]. intros E. by rewrite <- E, Hf in Hbuf0.
  - intros j' b'. destruct (decide (j' = j)) as [->|].
    + rewrite lookup_insert_eq. intros [= <-]. rewrite lookup_insert_eq. eauto.
    + rewrite lookup_insert_ne by done. intros (buf & Hbuf)%i_buffers0. exists buf.
      rewrite lookup_insert_ne; [done|]. intros E. by rewrite <- E, Hf in Hbuf.
  - intros id em Hem Hat. destruct (i_emission0 id em Hem Hat) as [buf Hbuf]. exists buf.
    rewrite lookup_insert_ne; [done|]. intros E. by rewrite <- E, Hf in Hbuf.
Qed.

(** Changes of the calls in flight only. *)
Lemma emissions_inv size tr s em os seq :
  unseen os → (∀ b, OClear b ∉ os) → (∀ st sid, quiet st sid os) → (∀ b, emitted b os = []) →
  (∀ id e, em !! id = Some e → em_at e = EAppend → ∃ buf, heap s !! em_buf e = Some buf) →
  tinv size tr s → tinv size (tr ++ os) (set_sequence seq (set_emissions em s)).
Proof.
  intros [Hsc Hnp] Hnc Hq He Hem []. constructor; simpl; try done.
  - intros b buf Hb. rewrite since_clear_app, Hsc. by apply i_events0.
  - intros b Hb. rewrite since_clear_app, Hsc. by apply i_unborn0.
  - intros sid st Hst. destruct (i_stream0 sid st Hst) as (? & c & Hc & Hcl). split; [done|].
    exists c. split; [done|]. intros [?|?]%Hcl; [by left|]. right. apply elem_of_app. by left.
  - intros sid st c Hst Hc Hat. eapply delivery_quiet; [by apply Hq| |by eapply i_delivery0]. auto.
  - rewrite elem_of_app. rewrite <- i_crash0. naive_solver.
  - intros [b ?]%i_crash_clear0. exists b. apply elem_of_app. by left.
Qed.

(** *** Appending an event *)

Section append.
Context (size : Z) (tr : list obs) (s : collector) (b : nat) (e : Event) (buf : eventBuffer).
Context (cs : gmap nat channel) (os : list obs).
Hypothesis I : tinv size tr s.
Hypothesis Hbuf : heap s !! b = Some buf.
Hypothesis Hoc : Forall of_channels os.
Hypothesis Hout : ∀ ch, ch ∉ listeners buf → cs !! ch = chans s !! ch ∧ sent ch os = [] ∧ offered ch os = [].
Hypothesis Hin : ∀ ch, ch ∈ listeners buf → notified e ch (chans s) cs os.

Let s1 : collector := set_chans cs (set_heap (<[b :=
  {| events := push (bufferSize s) e (events buf); listeners := listeners buf |}]> (heap s)) s).
Let tr1 : list obs := tr ++ OEmit b e :: os.

Lemma append_chans ch c : chans s !! ch = Some c → ∃ c', cs !! ch = Some c' ∧ ch_closed c' = ch_closed c.
Proof.
  intros Hc. destruct (decide (ch ∈ listeners buf)) as [Hi|Hi].
  - destruct (Hin ch Hi) as (q & Hq & _ & [[-> _]|[-> _]]); rewrite Hq in Hc; simplify_eq; eauto.
  - destruct (Hout ch Hi) as (-> & _). eauto.
Qed.

Lemma append_since b' : since_clear b' tr1 = if decide (b = b') then since_clear b' tr ++ [e] else since_clear b' tr.
Proof.
  unfold tr1. rewrite since_clear_app. simpl.
  destruct (of_channels_silent os Hoc) as (_ & _ & _ & Q & _). by rewrite Q.
Qed.

Lemma append_heap b' buf' : heap s1 !! b' = Some buf' → ∃ buf0, heap s !! b' = Some buf0 ∧
  listeners buf' = listeners buf0 ∧ events buf' = if decide (b = b') then push size e (events buf0) else events buf0.
Proof.
  unfold s1. simpl. destruct (decide (b' = b)) as [->|].
  - rewrite lookup_insert_eq. intros [= <-]. exists buf. rewrite decide_True by done. by rewrite (i_size _ _ _ I).
  - rewrite lookup_insert_ne by done. intros ?. exists buf'. by rewrite decide_False by done.
Qed.

Lemma append_dom b' buf' : heap s !! b' = Some buf' → ∃ buf1, heap s1 !! b' = Some buf1 ∧ listeners buf1 = listeners buf'.
Proof.
  intros Hb. unfold s1. simpl. destruct (decide (b' = b)) as [->|];
    [rewrite lookup_insert_eq|rewrite lookup_insert_ne by done]; [|by eauto].
  simplify_eq. eauto.
Qed.

(** The owner of a listed channel. *)
Lemma append_owner sid st : streams s !! sid = Some st → st_ch st ∈ listeners buf → st_buf st = b ∧ listed_at st.
Proof.
  intros Hst Hi. destruct (i_listed _ _ _ I _ _ _ Hbuf Hi) as (sid' & st' & Hst' & Hch & Hb' & Hl & _).
  assert (sid' = sid) as -> by (by eapply (i_own _ _ _ I)). by simplify_eq.
Qed.

Lemma append_delivery sid st c : streams s !! sid = Some st → cs !! st_ch st = Some c → st_at st ≠ SGot →
  delivery size tr1 sid st (queue c) (∃ buf, heap s1 !! st_buf st = Some buf ∧ st_ch st ∈ listeners buf).
Proof.
  intros Hst Hc Hat. destruct (of_channels_silent os Hoc) as (Q1 & Q2 & Q3 & _).
  destruct (i_stream _ _ _ I sid st Hst) as (_ & c0 & Hc0 & _).
  pose proof (i_delivery _ _ _ I _ _ _ Hst Hc0 Hat) as D. unfold tr1.
  destruct (decide (st_ch st ∈ listeners buf)) as [Hi|Hi].
  - destruct (append_owner _ _ Hst Hi) as [Eb _]. destruct (Hin _ Hi) as (q & Hq & Hoff & Hcase).
    rewrite Hq in Hc0. injection Hc0 as <-.
    assert (Emit1 : emitted (st_buf st) (OEmit b e :: os) = [e]).
    { unfold emitted. simpl. rewrite decide_True by done. f_equal. apply Q1. }
    rewrite <- (app_nil_r (tr ++ _)). eapply (delivery_quiet _ _ _ _ _ True); [done|by intros _|].
    eapply (delivery_offer _ _ _ _ q); [done|exact Emit1|exact Hoff|exact (Q2 sid)|exact (Q3 sid)| |].
    + destruct Hcase as [[E ?]|[E ?]]; rewrite E in Hc; [|rewrite Hq in Hc]; injection Hc as <-; cbn [queue]; tauto.
    + rewrite <- (app_nil_r tr). eapply delivery_quiet; [done| |exact D].
      intros _. split; [|done]. exists buf. by rewrite Eb.
  - destruct (Hout _ Hi) as (E & Hsn & Hof). rewrite E, Hc0 in Hc. injection Hc as <-.
    eapply delivery_quiet; [| |exact D].
    + split; [|split; [|split]]; [exact Hof|exact Hsn|exact (Q2 sid)|exact (Q3 sid)].
    + intros (buf' & Hb' & Hi'). destruct (append_heap _ _ Hb') as (buf0 & Hb0 & El & _). rewrite El in Hi'.
      split; [eauto|]. unfold emitted. simpl. rewrite decide_False; [apply Q1|].
      intros Eb. rewrite <- Eb in Hb0. by simplify_eq.
Qed.

Lemma append_inv : 0 < size → crashed s = false → tinv size tr1 s1.
Proof.
  intros Hpos Hok. pose proof I as []. destruct (of_channels_silent os Hoc) as (_ & _ & _ & _ & Q5 & _).
  constructor; try done.
  - intros b' buf' Hb'. destruct (append_heap _ _ Hb') as (buf0 & Hb0 & _ & ->). rewrite append_since.
    rewrite (i_events0 _ _ Hb0). case_decide; [|done]. by apply push_last_n.
  - intros b' Hb'. assert (b ≠ b').
    { intros <-. destruct (append_dom _ _ Hbuf) as (? & ? & _). by simplify_eq. }
    rewrite append_since, decide_False by done. apply i_unborn0.
    unfold s1 in Hb'. simpl in Hb'. by rewrite lookup_insert_ne in Hb'.
  - intros b' buf' Hb'. destruct (append_heap _ _ Hb') as (buf0 & Hb0 & -> & _). by eapply i_nodup0.
  - intros b' buf' ch Hb' Hch. destruct (append_heap _ _ Hb') as (buf0 & Hb0 & E & _). rewrite E in Hch.
    destruct (i_listed0 _ _ _ Hb0 Hch) as (sid & st & ? & ? & ? & ? & q & Hq).
    exists sid, st. repeat (split; [done|]). destruct (append_chans _ _ Hq) as ([q' cl] & Hq' & Hcl).
    simpl in Hcl. subst cl. by exists q'.
  - intros sid st Hst. destruct (i_stream0 sid st Hst) as ((buf0 & Hb0) & c & Hc & Hcl). split.
    + destruct (append_dom _ _ Hb0) as (? & ? & _). eauto.
    + destruct (append_chans _ _ Hc) as (c' & Hc' & Ec). exists c'. split; [done|]. rewrite Ec.
      intros [?|?]%Hcl; [by left|]. right. apply elem_of_app. by left.
  - intros sid st c Hst Hc Hat. destruct (i_stream0 sid st Hst) as (_ & c0 & Hc0 & _).
    pose proof (i_got0 _ _ _ Hst Hc0 Hat) as ->. destruct (Hout (st_ch st)) as (E & _).
    + intros Hi. destruct (append_owner _ _ Hst Hi) as [_ Hl]. unfold listed_at in Hl. by rewrite Hat in Hl.
    + simpl in Hc. rewrite E, Hc0 in Hc. by injection Hc.
  - intros sid st c. apply append_delivery.
  - intros j b' Hj. destruct (i_buffers0 j b' Hj) as [buf' Hb']. destruct (append_dom _ _ Hb') as (? & ? & _). eauto.
  - intros id' e' Hl Hat. destruct (i_emission0 _ _ Hl Hat) as [buf' Hb'].
    destruct (append_dom _ _ Hb') as (? & ? & _). eauto.
  - unfold tr1. rewrite elem_of_app, elem_of_cons. simpl. rewrite <- i_crash0. naive_solver.
  - simpl. by rewrite Hok.
Qed.

End append.

(** *** The steps *)

Lemma notify_inv size tr s b buf e :
  tinv size tr s → heap s !! b = Some buf →
  ∃ cs os, notify e (listeners buf) (chans s) = (cs, os, true) ∧ Forall of_channels os ∧
    (∀ ch, ch ∉ listeners buf → cs !! ch = chans s !! ch ∧ sent ch os = [] ∧ offered ch os = []) ∧
    (∀ ch, ch ∈ listeners buf → notified e ch (chans s) cs os).
Proof.
  intros I Hbuf. apply (notify_fold e (listeners buf) (chans s) []); [by eapply i_nodup|].
  intros ch Hch. destruct (i_listed _ _ _ I _ _ _ Hbuf Hch) as (? & ? & ? & ? & ? & ? & q & Hq). by exists q.
Qed.

Lemma emit_append_inv size tr s id s' os :
  0 < size → tinv size tr s → crashed s = false → Emit_append id s = Some (s', os) →
  tinv size (tr ++ os) s' ∧ crashed s' = false.
Proof.
  intros Hpos I Hok Hs. unfold Emit_append in Hs.
  destruct (emissions s !! id) as [em|] eqn:Hem; [simpl in Hs|done].
  destruct (heap s !! em_buf em) as [buf|] eqn:Hbuf; [simpl in Hs|done].
  destruct (em_at em); [|done].
  destruct (notify_inv _ _ _ _ _ (em_event em) I Hbuf) as (cs & os1 & Hn & Hoc & Hout & Hin).
  rewrite Hn in Hs. simpl in Hs. injection Hs as <- <-.
  pose proof (append_inv _ _ _ _ (em_event em) _ _ _ I Hbuf Hoc Hout Hin Hpos Hok) as I1.
  set (s1 := set_chans cs _) in *. change (emissions s) with (emissions s1).
  assert (H : ∀ em', (∀ id' e', em' !! id' = Some e' → em_at e' = EAppend → emissions s1 !! id' = Some e') →
    tinv size (tr ++ OEmit (em_buf em) (em_event em) :: os1) (set_emissions em' s1)).
  { intros em' Hem'. rewrite <- (app_nil_r (tr ++ _)).
    apply (emissions_inv _ _ s1 em' [] (sequence s1)); try done.
    - split; [done|apply not_elem_of_nil].
    - intros ?. apply not_elem_of_nil.
    - intros id' e' Hl Hat. eapply i_emission; [done|by apply Hem'|done]. }
  split; [|by case_match]. case_match; apply H; intros id' e' Hl Hat.
  - destruct (decide (id = id')) as [->|]; [|by rewrite lookup_insert_ne in Hl].
    rewrite lookup_insert_eq in Hl. by injection Hl as <-.
  - by apply lookup_delete_Some in Hl as [??].
Qed.

Lemma stream_start_inv size tr s sid j f s' :
  0 < size → tinv size tr s → Stream_start sid j f s = Some s' →
  tinv size (tr ++ []) s' ∧ crashed s' = crashed s.
Proof.
  intros Hpos I Hs. unfold Stream_start in Hs. destruct (streams s !! sid) eqn:Hsid; [done|].
  destruct (getOrCreateBuffer j s) as [b s1] eqn:Hg. injection Hs as <-.
  destruct (getOrCreate_inv _ _ _ _ _ _ Hpos I Hg) as (I1 & [buf Hbuf] & _ & _ & Est & _ & Ec).
  split; [|done]. rewrite app_nil_r. set (ch := fresh (dom (chans s1))).
  assert (chans s1 !! ch = None) as Hf by (apply not_elem_of_dom, is_fresh).
  rewrite <- Est in Hsid. clear s I Hg Est Ec. pose proof I1 as [].
  assert (Hother : ∀ sid' st, streams s1 !! sid' = Some st → sid' ≠ sid ∧ st_ch st ≠ ch).
  { intros sid' st Hst. destruct (i_stream0 _ _ Hst) as (_ & c & Hc & _). split; congruence. }
  constructor; simpl; try done.
  - intros b' buf' ch' Hb' Hch. destruct (i_listed0 _ _ _ Hb' Hch) as (sid' & st & Hst & ? & ? & ? & q & Hq).
    destruct (Hother _ _ Hst). exists sid', st. rewrite lookup_insert_ne by done.
    repeat (split; [done|]). exists q. by rewrite lookup_insert_ne by congruence.
  - intros sid' st. destruct (decide (sid' = sid)) as [->|].
    + rewrite lookup_insert_eq. intros [= <-]. simpl. split; [eauto|]. rewrite lookup_insert_eq. by eexists.
    + rewrite lookup_insert_ne by done. intros Hst. destruct (Hother _ _ Hst).
      rewrite lookup_insert_ne by done. by apply (i_stream0 sid').
  - intros sid' st c. destruct (decide (sid' = sid)) as [->|].
    + rewrite lookup_insert_eq. intros [= <-]. simpl. rewrite lookup_insert_eq. by intros [= <-].
    + rewrite lookup_insert_ne by done. intros Hst. destruct (Hother _ _ Hst).
      rewrite lookup_insert_ne by done. by apply (i_got0 sid').
  - intros sid' st c. destruct (decide (sid' = sid)) as [->|].
    + rewrite lookup_insert_eq. by intros [= <-].
    + rewrite lookup_insert_ne by done. intros Hst. destruct (Hother _ _ Hst).
      rewrite lookup_insert_ne by done. by apply (i_delivery0 sid').
  - intros sid1 sid2 st1 st2. destruct (decide (sid1 = sid)) as [->|], (decide (sid2 = sid)) as [->|];
      rewrite ?lookup_insert_eq, ?lookup_insert_ne by done; try done.
    + intros [= <-] Hst2. simpl. destruct (Hother _ _ Hst2). congruence.
    + intros Hst1 [= <-]. simpl. destruct (Hother _ _ Hst1). congruence.
    + apply i_own0.
Qed.

(** A step of one stream that keeps its buffer and channel: its new stage, the new
    contents of its channel, the new listeners of its buffer, and what is seen. *)
Record stream_step (s s' : collector) (sid : nat) (st st' : stream) (c c' : channel) (buf : eventBuffer) (ls : list nat) : Prop := {
  ss_st : streams s !! sid = Some st;
  ss_c : chans s !! st_ch st = Some c;
  ss_buf : heap s !! st_buf st = Some buf;
  ss_eq : set_streams (<[sid := st']> (streams s)) (set_chans (<[st_ch st := c']> (chans s))
    (set_heap (<[st_buf st := {| events := events buf; listeners := ls |}]> (heap s)) s)) = s';
  ss_same : st_buf st' = st_buf st ∧ st_ch st' = st_ch st;
  ss_left : st_at st' ≠ SGot;
  ss_ls : ∀ ch, ch ∈ ls ↔ (ch ∈ listeners buf ∧ ch ≠ st_ch st) ∨ (ch = st_ch st ∧ ch ∈ ls);
  ss_nodup : NoDup ls;
  ss_self : st_ch st ∈ ls → listed_at st' ∧ ch_closed c' = false;
}.

Section one_stream.
Context (size : Z) (tr : list obs) (s s' : collector) (sid : nat) (st st' : stream) (c c' : channel)
  (buf : eventBuffer) (ls : list nat) (os : list obs).
Hypothesis SS : stream_step s s' sid st st' c c' buf ls.
Hypothesis Hun : unseen os.
Hypothesis Hq : ∀ sid' st2, sid' ≠ sid → st_ch st2 ≠ st_ch st → quiet st2 sid' os.
Hypothesis He : ∀ b, emitted b os = [].
Hypothesis Hcl : ch_closed c' → st_at st' = SDone ∨ OClear (st_buf st) ∈ tr.
Hypothesis D : delivery size (tr ++ os) sid st' (queue c') (st_ch st ∈ ls).
Hypothesis I : tinv size tr s.

Lemma one_heap b buf' : heap s' !! b = Some buf' → ∃ buf0, heap s !! b = Some buf0 ∧ events buf' = events buf0 ∧
  listeners buf' = if decide (b = st_buf st) then ls else listeners buf0.
Proof.
  rewrite <- (ss_eq _ _ _ _ _ _ _ _ _ SS). simpl. destruct (decide (b = st_buf st)) as [->|].
  - rewrite lookup_insert_eq. intros [= <-]. exists buf. by split; [apply SS|].
  - rewrite lookup_insert_ne by done. eauto.
Qed.

Lemma one_dom b buf0 : heap s !! b = Some buf0 → ∃ buf', heap s' !! b = Some buf'.
Proof.
  rewrite <- (ss_eq _ _ _ _ _ _ _ _ _ SS). simpl. intros Hb.
  destruct (decide (b = st_buf st)) as [->|]; [rewrite lookup_insert_eq|rewrite lookup_insert_ne by done]; eauto.
Qed.

Lemma one_streams sid' st2 : streams s' !! sid' = Some st2 →
  (sid' = sid ∧ st2 = st' ∧ chans s' !! st_ch st2 = Some c') ∨
  (sid' ≠ sid ∧ streams s !! sid' = Some st2 ∧ st_ch st2 ≠ st_ch st ∧ chans s' !! st_ch st2 = chans s !! st_ch st2).
Proof.
  rewrite <- (ss_eq _ _ _ _ _ _ _ _ _ SS). simpl. destruct (ss_same _ _ _ _ _ _ _ _ _ SS) as [_ Ech].
  destruct (decide (sid' = sid)) as [->|].
  - rewrite lookup_insert_eq. intros [= <-]. left. by rewrite Ech, lookup_insert_eq.
  - rewrite lookup_insert_ne by done. intros Hst2. right.
    assert (st_ch st2 ≠ st_ch st) by (intros E; pose proof (i_own _ _ _ I _ _ _ _ Hst2 (ss_st _ _ _ _ _ _ _ _ _ SS) E); done).
    by rewrite lookup_insert_ne by done.
Qed.

Lemma one_listed b buf' ch : heap s' !! b = Some buf' → ch ∈ listeners buf' →
  ∃ sid st, streams s' !! sid = Some st ∧ st_ch st = ch ∧ st_buf st = b ∧ listed_at st ∧
    ∃ q, chans s' !! ch = Some {| queue := q; ch_closed := false |}.
Proof.
  intros Hb Hch. destruct (one_heap _ _ Hb) as (buf0 & Hb0 & _ & El). rewrite El in Hch.
  destruct SS as [Hst Hc Hbuf <- [Eb Ech] _ Hls _ Hself]. simpl.
  assert (H : (ch ∈ listeners buf0 ∧ ch ≠ st_ch st) ∨ (b = st_buf st ∧ ch = st_ch st ∧ ch ∈ ls)).
  { case_decide as Hdb; [subst b; simplify_eq; apply Hls in Hch as H; naive_solver|].
    left. split; [done|]. intros ->.
    destruct (i_listed _ _ _ I _ _ _ Hb0 Hch) as (sid' & st2 & Hst2 & E & Eb2 & _).
    assert (sid' = sid) as -> by (by eapply (i_own _ _ _ I)). simplify_eq. }
  destruct H as [(Hch0 & Hne)|(-> & -> & Hin)].
  - destruct (i_listed _ _ _ I _ _ _ Hb0 Hch0) as (sid' & st2 & Hst2 & E & Eb2 & Hl & q & Hq2).
    exists sid', st2. rewrite lookup_insert_ne by (intros <-; simplify_eq). repeat (split; [done|]).
    exists q. by rewrite lookup_insert_ne by done.
  - destruct (Hself Hin) as [Hl Ho]. exists sid, st'. rewrite lookup_insert_eq. repeat (split; [done|]).
    destruct c' as [q cl]. simpl in Ho. subst cl. exists q. by rewrite lookup_insert_eq.
Qed.

Lemma one_stream_inv : tinv size (tr ++ os) s'.
Proof.
  destruct Hun as [Hsc Hnp]. pose proof I as [].
  assert (Hfld : bufferSize s' = bufferSize s ∧ buffers s' = buffers s ∧ emissions s' = emissions s ∧ crashed s' = crashed s)
    by (by rewrite <- (ss_eq _ _ _ _ _ _ _ _ _ SS)).
  destruct Hfld as (Ef1 & Ef2 & Ef3 & Ef4). constructor.
  - by rewrite Ef1.
  - intros b buf' Hb. destruct (one_heap _ _ Hb) as (buf0 & Hb0 & -> & _). rewrite since_clear_app, Hsc. by apply i_events0.
  - intros b Hb. rewrite since_clear_app, Hsc. apply i_unborn0. destruct (heap s !! b) eqn:Hb0; [|done].
    destruct (one_dom _ _ Hb0). congruence.
  - intros b buf' Hb. destruct (one_heap _ _ Hb) as (buf0 & Hb0 & _ & ->). case_decide; [apply SS|by eapply i_nodup0].
  - exact one_listed.
  - intros sid' st2 Hst2. destruct (one_streams _ _ Hst2) as [(-> & -> & Hc2)|(? & Hst0 & ? & Hc2)].
    + destruct (ss_same _ _ _ _ _ _ _ _ _ SS) as [-> _]. split; [eapply one_dom, SS|].
      exists c'. split; [done|]. intros [?|?]%Hcl; [by left|]. right. apply elem_of_app. by left.
    + destruct (i_stream0 _ _ Hst0) as ((? & Hb0) & c2 & Hc0 & Hcl2). split; [by eapply one_dom|].
      exists c2. rewrite Hc2. split; [done|]. intros [?|?]%Hcl2; [by left|]. right. apply elem_of_app. by left.
  - intros sid' st2 c2 Hst2 Hc Hat. destruct (one_streams _ _ Hst2) as [(-> & -> & Hc2)|(? & Hst0 & ? & Hc2)].
    + by destruct (ss_left _ _ _ _ _ _ _ _ _ SS).
    + rewrite Hc2 in Hc. by eapply i_got0.
  - intros sid' st2 c2 Hst2 Hc Hat. rewrite <- (app_nil_r (tr ++ os)).
    destruct (one_streams _ _ Hst2) as [(-> & -> & Hc2)|(? & Hst0 & ? & Hc2)]; rewrite Hc in Hc2.
    + simplify_eq. eapply delivery_quiet; [done| |exact D]. destruct (ss_same _ _ _ _ _ _ _ _ _ SS) as [-> ->].
      intros (buf' & Hb' & Hi). destruct (one_heap _ _ Hb') as (? & _ & _ & El). rewrite El, decide_True in Hi by done. done.
    + rewrite app_nil_r. eapply delivery_quiet; [by apply Hq| |by eapply i_delivery0].
      intros (buf' & Hb' & Hi). split; [|done]. destruct (one_heap _ _ Hb') as (buf0 & Hb0 & _ & El).
      exists buf0. split; [done|]. rewrite El in Hi. case_decide as Hdb; [|done].
      apply (ss_ls _ _ _ _ _ _ _ _ _ SS) in Hi as [[? _]|[? _]]; [|done]. rewrite Hdb in Hb0.
      pose proof (ss_buf _ _ _ _ _ _ _ _ _ SS). by simplify_eq.
  - intros sid1 sid2 st1 st2 H1 H2 E. pose proof (ss_st _ _ _ _ _ _ _ _ _ SS) as Hst.
    destruct (ss_same _ _ _ _ _ _ _ _ _ SS) as [_ Ech].
    destruct (one_streams _ _ H1) as [(-> & -> & _)|(? & ? & ? & _)],
      (one_streams _ _ H2) as [(-> & -> & _)|(? & ? & ? & _)]; try congruence. by eapply i_own0.
  - intros j b Hj. rewrite Ef2 in Hj. destruct (i_buffers0 _ _ Hj) as [? ?]. by eapply one_dom.
  - intros id em Hem Hat. rewrite Ef3 in Hem. destruct (i_emission0 _ _ Hem Hat) as [? ?]. by eapply one_dom.
  - rewrite elem_of_app, Ef4, <- i_crash0. naive_solver.
  - rewrite Ef4. intros [b ?]%i_crash_clear0. exists b. apply elem_of_app. by left.
Qed.

End one_stream.

Lemma elem_of_unlist ch ch' ls : NoDup ls → ch' ∈ unlist ch ls ↔ ch' ∈ ls ∧ ch' ≠ ch.
Proof.
  induction 1 as [|l ls Hl Hnd IH]; simpl; [set_solver|].
  destruct (Nat.eqb_spec l ch) as [->|]; [|rewrite elem_of_cons, IH]; set_solver.
Qed.

Lemma NoDup_unlist ch ls : NoDup ls → NoDup (unlist ch ls).
Proof.
  induction 1 as [|l ls Hl Hnd IH]; simpl; [constructor|]. case_match; [done|].
  constructor; [|done]. rewrite elem_of_unlist by done. naive_solver.
Qed.

(** A step that leaves the list of listeners alone. *)
Lemma same_listeners s sid st st' c c' buf :
  streams s !! sid = Some st → chans s !! st_ch st = Some c → heap s !! st_buf st = Some buf →
  st_buf st' = st_buf st ∧ st_ch st' = st_ch st → st_at st' ≠ SGot → NoDup (listeners buf) →
  (st_ch st ∈ listeners buf → listed_at st' ∧ ch_closed c' = false) →
  stream_step s (put_stream sid st' (set_chans (<[st_ch st := c']> (chans s)) s)) sid st st' c c' buf (listeners buf).
Proof.
  intros Hst Hc Hbuf Hsame Hleft Hnd Hself. constructor; try done.
  - unfold put_stream, set_streams, set_chans, set_heap. simpl. f_equal. destruct buf. by rewrite insert_id.
  - intros ch. destruct (decide (ch = st_ch st)); naive_solver.
Qed.

Lemma put_same s ch c sid st : chans s !! ch = Some c → put_stream sid st (set_chans (<[ch := c]> (chans s)) s) = put_stream sid st s.
Proof. intros Hc. unfold put_stream, set_streams, set_chans. simpl. by rewrite insert_id. Qed.

(** What the invariant says about the stream of a step. *)
Lemma stream_parts size tr s sid st : tinv size tr s → streams s !! sid = Some st →
  ∃ c buf, chans s !! st_ch st = Some c ∧ heap s !! st_buf st = Some buf ∧ NoDup (listeners buf) ∧
    (ch_closed c → st_at st = SDone ∨ OClear (st_buf st) ∈ tr) ∧
    (st_ch st ∈ listeners buf → listed_at st ∧ ch_closed c = false) ∧
    (st_at st = SGot → c = {| queue := []; ch_closed := false |}) ∧
    (st_at st ≠ SGot → delivery size tr sid st (queue c) (st_ch st ∈ listeners buf)).
Proof.
  intros I Hst. destruct (i_stream _ _ _ I _ _ Hst) as ((buf & Hbuf) & c & Hc & Hcl).
  exists c, buf. repeat (split; [done|]). split; [by eapply i_nodup|]. split; [done|].
  split; [|split; [by eapply (i_got _ _ _ I)|]].
  - intros Hi. destruct (i_listed _ _ _ I _ _ _ Hbuf Hi) as (sid' & st2 & Hst2 & E & _ & Hl & q & Hq).
    assert (sid' = sid) as -> by (by eapply (i_own _ _ _ I)). by simplify_eq.
  - intros Hat. rewrite <- (app_nil_r tr). eapply delivery_quiet; [done| |by eapply (i_delivery _ _ _ I)].
    intros Hi. split; [|done]. eauto.
Qed.

Lemma hand_on_same sid st e fails next : let r := hand_on sid st e fails next in
  (st_buf r.1 = st_buf st ∧ st_ch r.1 = st_ch st) ∧
  (st_at r.1 = next ∨ st_at r.1 = SUnlist) ∧ unseen r.2 ∧ (∀ b, OClear b ∉ r.2) ∧ (∀ b, emitted b r.2 = []) ∧
  (∀ sid' st2, sid' ≠ sid → quiet st2 sid' r.2).
Proof.
  unfold hand_on. destruct (passes _ e), fails; simpl;
    (split; [done|]); (split; [auto|]); (split; [split; [done|set_solver]|]); (split; [set_solver|]);
    (split; [done|]); intros sid' st2 Hne; unfold quiet; obs_simpl; by rewrite ?decide_False.
Qed.

(** A new stage, without an event. *)
Lemma restage_inv size tr s sid st a : tinv size tr s → streams s !! sid = Some st →
  a = SLive ∧ st_at st = SBuffered [] ∨ a = SUnlist ∧ st_at st = SLive →
  tinv size (tr ++ []) (put_stream sid (at_stage a st) s).
Proof.
  intros I Hst Ha. destruct (stream_parts _ _ _ _ _ I Hst) as (c & buf & Hc & Hbuf & Hnd & Hcl & Hself & _ & D).
  rewrite <- (put_same _ _ _ _ _ Hc).
  assert (st_at st ≠ SDone ∧ st_at st ≠ SGot) as [Hd Hg] by (by destruct Ha as [[-> ->]|[-> ->]]).
  eapply (one_stream_inv _ _ _ _ _ st (at_stage a st) c c buf); [|by split; [|apply not_elem_of_nil]| |done| | |done]; try done.
  - apply same_listeners; try done; [by destruct Ha as [[-> _]|[-> _]]|].
    intros [_ ?]%Hself. split; [|done]. by destruct Ha as [[-> _]|[-> _]].
  - intros [?|?]%Hcl; [done|by right].
  - rewrite app_nil_r. eapply delivery_stage; [| |done|by apply D]; [|done].
    unfold following, rest_of. destruct Ha as [[-> ->]|[-> Hl]]; [|rewrite Hl]; done.
Qed.

Lemma stream_buffered_inv size tr s sid fails s' os :
  tinv size tr s → Stream_buffered sid fails s = Some (s', os) → tinv size (tr ++ os) s' ∧ crashed s' = crashed s.
Proof.
  intros I Hs. unfold Stream_buffered in Hs.
  destruct (streams s !! sid) as [st|] eqn:Hst; [simpl in Hs|done].
  destruct (stream_parts _ _ _ _ _ I Hst) as (c & buf & Hc & Hbuf & Hnd & Hcl & Hself & _ & D).
  destruct (st_at st) as [|[|e rest]| | | |] eqn:Hat; try done.
  - injection Hs as <- <-. split; [|done]. eapply restage_inv; naive_solver.
  - destruct (hand_on_same sid st e fails (SBuffered rest)) as (Hsame & Hnext & Hun & Hnc & He & Hq).
    pose proof (delivery_take size tr sid st (queue c) e (rest ++ queue c) fails (SBuffered rest) (queue c)
      (st_ch st ∈ listeners buf) (st_ch st ∈ listeners buf)) as T.
    destruct (hand_on sid st e fails (SBuffered rest)) as [st' os'] eqn:Hh. simpl in *. injection Hs as <- <-.
    split; [|done]. rewrite <- (put_same _ _ _ _ _ Hc). eapply one_stream_inv; try done.
    + apply same_listeners; try done; [by destruct Hnext as [->| ->]|].
      intros Hi. split; [|by apply Hself]. unfold listed_at. by destruct Hnext as [->| ->].
    + by intros ?? ? _; apply Hq.
    + intros [?|?]%Hcl; [done|by right].
    + apply T; [by unfold following; rewrite Hat|by unfold rest_of; rewrite Hat|done|done|by exists rest|by exists []|by apply D].
Qed.

Lemma stream_live_inv size tr s sid w s' os :
  tinv size tr s → Stream_live sid w s = Some (s', os) → tinv size (tr ++ os) s' ∧ crashed s' = crashed s.
Proof.
  intros I Hs. unfold Stream_live in Hs.
  destruct (streams s !! sid) as [st|] eqn:Hst; [simpl in Hs|done].
  destruct (stream_parts _ _ _ _ _ I Hst) as (c & buf & Hc & Hbuf & Hnd & Hcl & Hself & _ & D).
  rewrite Hc in Hs. simpl in Hs. destruct (st_at st) eqn:Hat; try done.
  assert (Stop : tinv size (tr ++ []) (put_stream sid (at_stage SUnlist st) s)) by (eapply restage_inv; naive_solver).
  destruct w as [|fails]; [by injection Hs as <- <-|].
  destruct c as [[|e q] cl]; simpl in *; [destruct cl; [by injection Hs as <- <-|done]|].
  destruct (hand_on_same sid st e fails SLive) as (Hsame & Hnext & Hun & Hnc & He & Hq).
  pose proof (delivery_take size tr sid st (e :: q) e q fails SLive q
    (st_ch st ∈ listeners buf) (st_ch st ∈ listeners buf)) as T.
  destruct (hand_on sid st e fails SLive) as [st' os'] eqn:Hh. simpl in *. injection Hs as <- <-.
  split; [|done]. eapply one_stream_inv; try done.
  - eapply same_listeners; try done; [by destruct Hnext as [->| ->]|].
    intros Hi. split; [|by apply Hself]. unfold listed_at. by destruct Hnext as [->| ->].
  - by intros ?? ? _; apply Hq.
  - intros [?|?]%Hcl; [done|by right].
  - apply T; [by unfold following; rewrite Hat|by unfold rest_of; rewrite Hat|done|done|by exists []|by exists [e]|by apply D].
Qed.

Lemma stream_register_inv size tr s sid s' os :
  tinv size tr s → Stream_register sid s = Some (s', os) → tinv size (tr ++ os) s' ∧ crashed s' = crashed s.
Proof.
  intros I Hs. unfold Stream_register in Hs.
  destruct (streams s !! sid) as [st|] eqn:Hst; [simpl in Hs|done].
  destruct (stream_parts _ _ _ _ _ I Hst) as (c & buf & Hc & Hbuf & Hnd & Hcl & Hself & Hgot & _).
  rewrite Hbuf in Hs. simpl in Hs. destruct (st_at st) eqn:Hat; try done. specialize (Hgot eq_refl) as ->.
  injection Hs as <- <-. split; [|done].
  assert (Hni : st_ch st ∉ listeners buf).
  { intros Hi. destruct (Hself Hi) as [Hl _]. unfold listed_at in Hl. by rewrite Hat in Hl. }
  eapply (one_stream_inv _ _ _ _ sid st (at_stage (SBuffered (events buf)) st) _ {| queue := []; ch_closed := false |}
    buf (listeners buf ++ [st_ch st])); try done.
  - constructor; try done.
    + unfold put_stream, set_streams, set_chans, set_heap. simpl. by rewrite (insert_id (chans s)).
    + intros ch. rewrite elem_of_app, list_elem_of_singleton. destruct (decide (ch = st_ch st)); naive_solver.
    + apply NoDup_app. split; [done|]. split; [|apply NoDup_singleton].
      intros ch Hi ->%list_elem_of_singleton. done.
  - split; [done|]. set_solver.
  - simpl. rewrite <- (app_nil_r (tr ++ _)). eapply (delivery_quiet _ _ _ _ _ True); [done|by intros _|].
    apply delivery_register. by eapply i_events.
Qed.

Lemma stream_unlist_inv size tr s sid s' os :
  tinv size tr s → Stream_unlist sid s = Some (s', os) → tinv size (tr ++ os) s' ∧ crashed s' = crashed s.
Proof.
  intros I Hs. unfold Stream_unlist in Hs.
  destruct (streams s !! sid) as [st|] eqn:Hst; [simpl in Hs|done].
  destruct (stream_parts _ _ _ _ _ I Hst) as (c & buf & Hc & Hbuf & Hnd & Hcl & Hself & Hgot & D).
  rewrite Hbuf in Hs. simpl in Hs. destruct (st_at st) eqn:Hat; try done. injection Hs as <- <-. split; [|done].
  eapply (one_stream_inv _ _ _ _ sid st (at_stage SClose st) c c buf (unlist (st_ch st) (listeners buf))); try done.
  - constructor; try done.
    + unfold put_stream, set_streams, set_chans, set_heap. simpl. by rewrite (insert_id (chans s)).
    + intros ch. rewrite elem_of_unlist by done. naive_solver.
    + by apply NoDup_unlist.
    + rewrite elem_of_unlist by done. naive_solver.
  - split; [done|apply not_elem_of_nil].
  - intros [?|?]%Hcl; [done|by right].
  - rewrite app_nil_r. eapply delivery_stage; [| |done|by apply D]; [done|].
    rewrite elem_of_unlist by done. naive_solver.
Qed.

Lemma crash_inv size tr s b : tinv size tr s → OClear b ∈ tr → tinv size (tr ++ [OPanic]) (crash s).
Proof.
  intros [] Hb. constructor; simpl; try done.
  - intros b' buf Hl. rewrite since_clear_app. by apply i_events0.
  - intros b' Hl. rewrite since_clear_app. by apply i_unborn0.
  - intros sid st Hst. destruct (i_stream0 _ _ Hst) as (? & c & Hc & Hcl). split; [done|]. exists c.
    split; [done|]. intros [?|?]%Hcl; [by left|]. right. apply elem_of_app. by left.
  - intros sid st c Hst Hc Hat. eapply delivery_quiet; [done|by intros ?|by eapply i_delivery0].
  - split; [done|]. intros _. apply elem_of_app. right. left.
  - intros _. exists b. apply elem_of_app. by left.
Qed.

(** The stream that closes a channel that is closed already panics; the job of its
    buffer has been cleared. *)
Lemma stream_close_inv size tr s sid s' os :
  tinv size tr s → crashed s = false → Stream_close sid s = Some (s', os) → tinv size (tr ++ os) s'.
Proof.
  intros I Hok Hs. unfold Stream_close in Hs.
  destruct (streams s !! sid) as [st|] eqn:Hst; [simpl in Hs|done].
  destruct (stream_parts _ _ _ _ _ I Hst) as (c & buf & Hc & Hbuf & Hnd & Hcl & Hself & _ & D).
  rewrite Hc in Hs. simpl in Hs. destruct (st_at st) eqn:Hat; try done.
  assert (Hni : st_ch st ∉ listeners buf).
  { intros Hi. destruct (Hself Hi) as [Hl _]. unfold listed_at in Hl. by rewrite Hat in Hl. }
  set (c' := {| queue := queue c; ch_closed := true |}).
  assert (Hgo : ∀ c1 os, queue c1 = queue c → unseen os → (∀ b, OClear b ∉ os) → (∀ b, emitted b os = []) →
    (∀ st2 sid2, quiet st2 sid2 os) →
    tinv size (tr ++ os) (put_stream sid (at_stage SDone st) (set_chans (<[st_ch st := c1]> (chans s)) s))).
  { intros c1 os1 Hq1 Hun Hnc He Hq.
    eapply (one_stream_inv _ _ _ _ _ st (at_stage SDone st) c c1 buf); try done.
    - by apply same_listeners.
    - auto.
    - rewrite Hq1. eapply delivery_quiet; [apply Hq| |eapply (delivery_stage _ _ _ _ (queue c)); [| |done|by apply D]]; [|done|by intros H; exact H].
      by intros ?. }
  destruct (ch_closed c) eqn:Hclc; injection Hs as <- <-.
  - destruct Hcl as [?|Hclear]; [done|done|]. eapply crash_inv; [|done].
    rewrite <- (app_nil_r tr), <- (put_same _ _ _ _ _ Hc). apply Hgo; try done.
    + split; [done|apply not_elem_of_nil].
    + intros ?. apply not_elem_of_nil.
  - apply (Hgo c'); try done; [split; [done|set_solver]|set_solver].
Qed.

Section clear.
Context (size : Z) (tr : list obs) (s : collector) (b : nat) (buf : eventBuffer) (jobID : string).
Context (cs : gmap nat channel) (os : list obs).
Hypothesis I : tinv size tr s.
Hypothesis Hbuf : heap s !! b = Some buf.
Hypothesis Hoc : Forall of_channels os.
Hypothesis Hsil : ∀ ch, sent ch os = [] ∧ offered ch os = [].
Hypothesis Hout : ∀ ch, ch ∉ listeners buf → cs !! ch = chans s !! ch.
Hypothesis Hin : ∀ ch, ch ∈ listeners buf → ∃ q, chans s !! ch = Some {| queue := q; ch_closed := false |} ∧
  cs !! ch = Some {| queue := q; ch_closed := true |}.

Let s1 : collector := set_buffers (delete jobID (buffers s))
  (set_chans cs (set_heap (<[b := {| events := []; listeners := [] |}]> (heap s)) s)).
Let tr1 : list obs := tr ++ OClear b :: os.

Lemma clear_since b' : since_clear b' tr1 = if decide (b = b') then [] else since_clear b' tr.
Proof.
  unfold tr1. rewrite since_clear_app. simpl.
  destruct (of_channels_silent os Hoc) as (_ & _ & _ & Q & _). by rewrite Q.
Qed.

Lemma clear_quiet st sid : quiet st sid (OClear b :: os).
Proof.
  destruct (of_channels_silent os Hoc) as (_ & Q2 & Q3 & _). destruct (Hsil (st_ch st)).
  split; [|split; [|split]]; unfold offered, sent; simpl; [done|done|apply Q2|apply Q3].
Qed.

Lemma clear_chan sid st c1 : streams s !! sid = Some st → cs !! st_ch st = Some c1 →
  ∃ c, chans s !! st_ch st = Some c ∧ queue c1 = queue c ∧
    ((c1 = c ∧ st_ch st ∉ listeners buf) ∨ st_buf st = b ∧ st_ch st ∈ listeners buf).
Proof.
  intros Hst Hc. destruct (decide (st_ch st ∈ listeners buf)) as [Hi|Hi].
  - destruct (Hin _ Hi) as (q & Hq & Hq1). rewrite Hq1 in Hc. injection Hc as <-.
    eexists. split; [done|]. split; [done|]. right. split; [|done].
    destruct (i_listed _ _ _ I _ _ _ Hbuf Hi) as (sid' & st2 & Hst2 & E & Eb & _).
    assert (sid' = sid) as -> by (by eapply (i_own _ _ _ I)). by simplify_eq.
  - rewrite Hout in Hc by done. eauto 10.
Qed.

Lemma clear_heap b' buf' : heap s1 !! b' = Some buf' → b' = b ∧ buf' = {| events := []; listeners := [] |} ∨ b' ≠ b ∧ heap s !! b' = Some buf'.
Proof.
  unfold s1. simpl. destruct (decide (b' = b)) as [->|]; [rewrite lookup_insert_eq|rewrite lookup_insert_ne by done]; naive_solver.
Qed.

Lemma clear_dom b' : is_Some (heap s !! b') → ∃ buf', heap s1 !! b' = Some buf'.
Proof.
  intros [buf' ?]. unfold s1. simpl.
  destruct (decide (b' = b)) as [->|]; [rewrite lookup_insert_eq|rewrite lookup_insert_ne by done]; eauto.
Qed.

Lemma clear_inv : crashed s = false → tinv size tr1 s1.
Proof.
  intros Hok. pose proof I as []. destruct (of_channels_silent os Hoc) as (Q1 & _ & _ & _ & Q5 & _).
  constructor; try done.
  - intros b' buf' Hb'. rewrite clear_since. destruct (clear_heap _ _ Hb') as [[-> ->]|[? ?]].
    + by rewrite decide_True.
    + rewrite decide_False by done. by apply i_events0.
  - intros b' Hb'. rewrite clear_since. case_decide as Hd; [done|]. apply i_unborn0.
    unfold s1 in Hb'. simpl in Hb'. by rewrite lookup_insert_ne in Hb'.
  - intros b' buf' Hb'. destruct (clear_heap _ _ Hb') as [[-> ->]|[? ?]]; [constructor|by eapply i_nodup0].
  - intros b' buf' ch Hb' Hch. destruct (clear_heap _ _ Hb') as [[-> ->]|[Hne Hb0]]; [by apply elem_of_nil in Hch|].
    destruct (i_listed0 _ _ _ Hb0 Hch) as (sid & st & Hst & E & Eb & ? & q & Hq).
    exists sid, st. repeat (split; [done|]). exists q. simpl. rewrite Hout; [done|].
    intros Hi. destruct (i_listed0 _ _ _ Hbuf Hi) as (sid' & st2 & Hst2 & E2 & Eb2 & _).
    assert (sid' = sid) as -> by (eapply i_own0; try done; congruence). congruence.
  - intros sid st Hst. simpl in Hst. destruct (i_stream0 _ _ Hst) as ((buf0 & Hb0) & c & Hc & Hcl). split; [apply clear_dom; eauto|].
    simpl. destruct (cs !! st_ch st) as [c1|] eqn:Hc1.
    + exists c1. split; [done|]. destruct (clear_chan _ _ _ Hst Hc1) as (c2 & Hc2 & _ & [[-> _]|[-> _]]).
      * simplify_eq. intros [?|?]%Hcl; [by left|]. right. apply elem_of_app. by left.
      * intros _. right. apply elem_of_app. right. apply elem_of_cons. by left.
    + destruct (decide (st_ch st ∈ listeners buf)) as [Hi|Hi].
      * destruct (Hin _ Hi) as (? & _ & ?). congruence.
      * rewrite Hout in Hc1 by done. congruence.
  - intros sid st c Hst Hc Hat. simpl in Hst, Hc. destruct (clear_chan _ _ _ Hst Hc) as (c2 & Hc2 & _ & [[-> _]|[? Hi]]).
    + by eapply i_got0.
    + destruct (i_listed0 _ _ _ Hbuf Hi) as (sid' & st2 & Hst2 & E2 & Eb2 & Hl & _).
      assert (sid' = sid) as -> by (by eapply i_own0). assert (st2 = st) as -> by congruence.
      unfold listed_at in Hl. by rewrite Hat in Hl.
  - intros sid st c Hst Hc Hat. simpl in Hst, Hc. destruct (clear_chan _ _ _ Hst Hc) as (c2 & Hc2 & -> & Hcase).
    eapply delivery_quiet; [apply clear_quiet| |by eapply i_delivery0].
    intros (buf' & Hb' & Hi). destruct (clear_heap _ _ Hb') as [[-> ->]|[Hne Hb0]]; [by apply elem_of_nil in Hi|].
    split; [eauto|]. apply Q1.
  - intros j b' Hj. simpl in Hj. apply lookup_delete_Some in Hj as [_ Hj]. apply clear_dom. destruct (i_buffers0 _ _ Hj). eauto.
  - intros id em Hem Hat. apply clear_dom. destruct (i_emission0 _ _ Hem Hat). eauto.
  - unfold tr1. rewrite elem_of_app, elem_of_cons. simpl. rewrite <- i_crash0. naive_solver.
  - simpl. by rewrite Hok.
Qed.

End clear.

Lemma clear_job_inv size tr s j : tinv size tr s → crashed s = false →
  tinv size (tr ++ (ClearJob j s).2) (ClearJob j s).1 ∧ crashed (ClearJob j s).1 = false.
Proof.
  intros I Hok. unfold ClearJob. destruct (buffers s !! j) as [b|] eqn:Hj; [|by rewrite app_nil_r].
  destruct (i_buffers _ _ _ I _ _ Hj) as [buf Hbuf]. rewrite Hbuf.
  destruct (close_all_fold (listeners buf) (chans s) []) as (cs & os & -> & Hoc & Hsil & Hout & Hin).
  { by eapply i_nodup. }
  { intros ch Hch. destruct (i_listed _ _ _ I _ _ _ Hbuf Hch) as (? & ? & ? & ? & ? & ? & q & Hq). by exists q. }
  split; [|done]. by eapply clear_inv.
Qed.

Lemma emit_start_inv size tr s id ev p :
  0 < size → tinv size tr s → emissions s !! id = None →
  tinv size (tr ++ []) (Emit_start id ev p s) ∧ crashed (Emit_start id ev p s) = crashed s.
Proof.
  intros Hpos I Hid. destruct ev as [e|]; [|by rewrite app_nil_r]. simpl.
  assert (H : ∀ s0 em, tinv size tr s0 → (em_at em = EAppend → ∃ buf, heap s0 !! em_buf em = Some buf) →
    tinv size (tr ++ []) (set_emissions (<[id := em]> (emissions s0)) s0)).
  { intros s0 em I0 Hem.
    change (set_emissions _ s0) with (set_sequence (sequence s0) (set_emissions (<[id := em]> (emissions s0)) s0)).
    apply emissions_inv; try done.
    - split; [done|apply not_elem_of_nil].
    - intros ?. apply not_elem_of_nil.
    - intros id' e' Hl Hat. destruct (decide (id = id')) as [->|].
      + rewrite lookup_insert_eq in Hl. injection Hl as <-. auto.
      + rewrite lookup_insert_ne in Hl by done. by eapply i_emission. }
  destruct (String.eqb _ _).
  - destruct p; [|by rewrite app_nil_r]. split; [|done]. by apply H.
  - destruct (getOrCreateBuffer _ s) as [b s1] eqn:Hg.
    destruct (getOrCreate_inv _ _ _ _ _ _ Hpos I Hg) as (I1 & Hb & _ & _ & _ & _ & Hc).
    split; [|done]. by apply H.
Qed.

Lemma emit_persist_inv size tr s id s' os :
  tinv size tr s → Emit_persist id s = Some (s', os) → tinv size (tr ++ os) s' ∧ crashed s' = crashed s.
Proof.
  intros I Hs. unfold Emit_persist in Hs. destruct (emissions s !! id) as [em|] eqn:Hem; [simpl in Hs|done].
  destruct (em_at em); [done|].
  assert (H : ∀ seq os, (∀ e, e ∈ os → ∃ q ev, e = OPersist q ev) →
    tinv size (tr ++ os) (set_sequence seq (set_emissions (delete id (emissions s)) s))).
  { intros seq os1 Hos. assert (Hno : Forall (λ o, ∃ q ev, o = OPersist q ev) os1) by (by apply Forall_forall).
    apply emissions_inv; try done.
    - split; [|by intros (? & ? & ?)%Hos]. intros b l. induction Hno as [|o os2 (? & ? & ->) ? IH]; [done|].
      simpl. apply IH. set_solver.
    - by intros b (? & ? & ?)%Hos.
    - intros st sid. clear Hos. induction Hno as [|o os2 (? & ? & ->) ? (IH1 & IH2 & IH3 & IH4)]; [done|]. by repeat split.
    - intros b. clear Hos. by induction Hno as [|o os2 (? & ? & ->) ? IH].
    - intros id' e' Hl Hat. apply lookup_delete_Some in Hl as [_ Hl]. by eapply i_emission. }
  destruct (persister s); injection Hs as <- <-; (split; [|done]).
  - apply H. set_solver.
  - apply (H (sequence s) []). set_solver.
Qed.

Lemma set_persister_inv size tr s p : tinv size tr s → tinv size (tr ++ []) (SetPersister p s).
Proof. rewrite app_nil_r. by intros []. Qed.

Lemma tstep_inv size tr s a s' os :
  0 < size → tinv size tr s → tstep a s = Some (s', os) → tinv size (tr ++ os) s'.
Proof.
  intros Hpos I Hs. unfold tstep in Hs. destruct (crashed s) eqn:Hok; [done|]. destruct a.
  - destruct (emissions s !! id) eqn:?; [done|]. injection Hs as <- <-. by apply emit_start_inv.
  - by eapply emit_append_inv.
  - by eapply emit_persist_inv.
  - destruct (Stream_start _ _ _ s) eqn:?; simplify_eq/=. by eapply stream_start_inv.
  - by eapply stream_register_inv.
  - by eapply stream_buffered_inv.
  - by eapply stream_live_inv.
  - by eapply stream_unlist_inv.
  - by eapply stream_close_inv.
  - destruct (clear_job_inv _ _ _ jobID I Hok) as [I1 _]. destruct (ClearJob jobID s). by simplify_eq/=.
  - injection Hs as <- <-. by apply set_persister_inv.
Qed.

Definition effective (n : Z) : Z := if n <=? 0 then 100000 else n.

Lemma effective_pos n : 0 < effective n.
Proof. unfold effective. case_match; to_prop; lia. Qed.

Lemma history_inv n tr s : history n tr s → tinv (effective n) tr s.
Proof.
  induction 1 as [|tr s a s' os Hh IH Hs]; [|by eapply tstep_inv; [apply effective_pos| |]].
  constructor; simpl; try done. split; [by intros ?%elem_of_nil|done].
Qed.

(** *** What the collector promises *)

Lemma sent_all ch tr : (∀ e, OSkip ch e ∉ tr) → sent ch tr = offered ch tr.
Proof.
  induction tr as [|o tr IH]; intros H; [done|].
  assert (sent ch tr = offered ch tr) as E by (apply IH; intros e He; apply (H e); by right).
  unfold sent, offered in *. simpl. destruct o; simpl; try exact E.
  - case_decide; [by f_equal|exact E].
  - case_decide as Hd; [|exact E]. subst. exfalso. apply (H e). apply elem_of_cons. by left.
Qed.

(** C33 What a stream of telemetry delivers, in every interleaving of emissions, of
    other streams, of callbacks that fail and of deletions: it starts with the most
    recent events of its job, no more than the size of the buffer, and goes on with
    events emitted since, in the order of emission and each once.  Its queue never holds more
    than 100 events, and it misses an event emitted while it is registered only when 100 of those
    it was sent since have not been taken yet.  Its callback gets exactly those
    that its filter lets through. *)
Theorem stream_delivers n tr s sid st (c : channel) :
  history n tr s → streams s !! sid = Some st → chans s !! st_ch st = Some c → st_at st ≠ SGot →
  ∃ tr1 tr2 snap pending,
    tr = tr1 ++ ORegister sid (st_buf st) (st_ch st) snap :: tr2 ∧
    snap = last_n (bufferSize s) (since_clear (st_buf st) tr1) ∧
    snap ++ sent (st_ch st) tr2 = taken sid tr2 ++ pending ∧
    (following st → pending = rest_of st ++ queue c) ∧
    called sid tr2 = filter (λ e, passes (st_filter st) e) (taken sid tr2) ∧
    sent (st_ch st) tr2 `sublist_of` offered (st_ch st) tr2 ∧
    ((∀ e, OSkip (st_ch st) e ∉ tr2) → sent (st_ch st) tr2 = offered (st_ch st) tr2) ∧
    (∀ a e b, tr2 = a ++ OSkip (st_ch st) e :: b →
      (100 ≤ length (sent (st_ch st) a) ∧ length (taken sid a) + 100 ≤ length (snap ++ sent (st_ch st) a))%nat) ∧
    (length (queue c) ≤ 100)%nat ∧
    offered (st_ch st) tr2 `prefix_of` emitted (st_buf st) tr2 ∧
    ((∃ buf, heap s !! st_buf st = Some buf ∧ st_ch st ∈ listeners buf) →
      offered (st_ch st) tr2 = emitted (st_buf st) tr2).
Proof.
  intros I%history_inv Hst Hc Hat.
  destruct (i_delivery _ _ _ I _ _ _ Hst Hc Hat) as (tr1 & tr2 & snap & p & ? & ? & ? & ? & ? & ? & ? & ? & _ & _ & ? & ?).
  exists tr1, tr2, snap, p. rewrite (i_size _ _ _ I). repeat (split; [done|]).
  split; [apply sent_all|done].
Qed.

Definition wanted (filter : option (list EventType)) (startTime endTime : option Z) (e : Event) : bool :=
  negb (match startTime with Some t => Timestamp e <? t | None => false end) &&
  negb (match endTime with Some t => t <? Timestamp e | None => false end) && passes filter e.

Definition limited {A} (limit : Z) (l : list A) : list A := if 0 <? limit then take (Z.to_nat limit) l else l.

Lemma buffered_loop_cons f st en limit e l acc :
  buffered_loop f st en limit (e :: l) acc =
    if wanted f st en e then
      if (0 <? limit) && (limit <=? Z.of_nat (length (acc ++ [e]))) then acc ++ [e]
      else buffered_loop f st en limit l (acc ++ [e])
    else buffered_loop f st en limit l acc.
Proof.
  simpl. unfold wanted. destruct (match st with Some t => Timestamp e <? t | None => false end); [done|].
  destruct (match en with Some t => t <? Timestamp e | None => false end); [done|]. by destruct (passes f e).
Qed.

Lemma buffered_loop_spec f st en limit l acc :
  (0 < limit → Z.of_nat (length acc) < limit) →
  buffered_loop f st en limit l acc = limited limit (acc ++ filter (λ e, wanted f st en e) l).
Proof.
  revert acc. induction l as [|e l IH]; intros acc Hacc.
  { rewrite filter_nil, app_nil_r. simpl. unfold limited. case_match; to_prop; [|done]. rewrite take_ge; [done|lia]. }
  rewrite buffered_loop_cons, filter_cons. destruct (wanted f st en e); simpl; [|by apply IH].
  rewrite length_app. simpl. destruct (0 <? limit) eqn:Hl; simpl.
  - case_match; to_prop.
    + unfold limited. rewrite (proj2 (Z.ltb_lt 0 limit)) by lia.
      set (rest := filter _ l). assert (acc ++ e :: rest = (acc ++ [e]) ++ rest) as -> by (by rewrite <- app_assoc).
      assert (length (acc ++ [e]) = Z.to_nat limit) as <- by (rewrite length_app; simpl; lia). by rewrite take_app_length.
    + rewrite IH; [by rewrite <- app_assoc|]. rewrite length_app. simpl. lia.
  - to_prop. rewrite IH; [by rewrite <- app_assoc|]. lia.
Qed.

(** A query of the buffer of a job gives, of the events emitted to it since it
    was last cleared, those among the most recent that lie in the interval and pass
    the filter, oldest first, up to the limit. *)
Theorem buffered_events_recent n tr s j f st en limit b :
  history n tr s → buffers s !! j = Some b →
  GetBufferedEvents j f st en limit s =
    limited limit (filter (λ e, wanted f st en e) (last_n (bufferSize s) (since_clear b tr))).
Proof.
  intros I%history_inv Hb. destruct (i_buffers _ _ _ I _ _ Hb) as [buf Hbuf].
  unfold GetBufferedEvents. rewrite Hb. simpl. rewrite Hbuf.
  rewrite buffered_loop_spec by (simpl; lia). by rewrite (i_events _ _ _ I _ _ Hbuf), (i_size _ _ _ I).
Qed.

(** Telemetry panics only in a stream that outlives a deletion of its job:
    emissions never send on a closed channel, and without a deletion nothing ever
    crashes. *)
Theorem crash_needs_clear n tr s : history n tr s →
  (crashed s → ∃ b, OClear b ∈ tr) ∧
  (∀ id s' os, tstep (AEmitAppend id) s = Some (s', os) → OPanic ∉ os ∧ crashed s' = false) ∧
  (∀ j, crashed s = false → crashed (ClearJob j s).1 = false).
Proof.
  intros I%history_inv. split; [by apply (i_crash_clear _ _ _ I)|]. split.
  - intros id s' os Hs. unfold tstep in Hs. destruct (crashed s) eqn:Hok; [done|].
    assert (0 < effective n) as Hpos by apply effective_pos.
    destruct (emit_append_inv _ _ _ _ _ _ Hpos I Hok Hs) as [I' Hok']. split; [|done].
    intros Hp. assert (OPanic ∈ tr ++ os) as Hin by (apply elem_of_app; by right).
    apply (i_crash _ _ _ I') in Hin. by rewrite Hok' in Hin.
  - intros j Hok. by apply (clear_job_inv _ _ _ j I Hok).
Qed.

(** *** A deletion under a stream *)

Definition closed_ch (s : collector) (ch : nat) : Prop := ∃ c, chans s !! ch = Some c ∧ ch_closed c.

Lemma notify_closed e ls cs os ok ch c :
  cs !! ch = Some c → ch_closed c → ∃ c', (foldl (notify1 e) (cs, os, ok) ls).1.1 !! ch = Some c' ∧ ch_closed c'.
Proof.
  revert cs os ok c. induction ls as [|l ls IH]; intros cs os ok c Hc Hcl; [by exists c|].
  cbn [foldl]. unfold notify1 at 2. destruct ok; [|by eapply IH].
  destruct (cs !! l) as [c2|] eqn:Hl; [|by eapply IH]. destruct (ch_closed c2) eqn:Hc2; [by eapply IH|].
  case_match; [|by eapply IH]. eapply IH; [|done]. rewrite lookup_insert_ne; [done|].
  intros <-. rewrite Hl in Hc. simplify_eq. by rewrite Hc2 in Hcl.
Qed.

Lemma close_all_closed ls cs os ok ch c :
  cs !! ch = Some c → ch_closed c → ∃ c', (foldl close_all (cs, os, ok) ls).1.1 !! ch = Some c' ∧ ch_closed c'.
Proof.
  revert cs os ok c. induction ls as [|l ls IH]; intros cs os ok c Hc Hcl; [by exists c|].
  cbn [foldl]. unfold close_all at 2. destruct ok; [|by eapply IH].
  destruct (cs !! l) as [c2|] eqn:Hl; [|by eapply IH]. destruct (ch_closed c2) eqn:Hc2; [by eapply IH|].
  eapply IH; [|done]. rewrite lookup_insert_ne; [done|].
  intros <-. rewrite Hl in Hc. simplify_eq. by rewrite Hc2 in Hcl.
Qed.

(** What no step undoes: a stream keeps its channel, and a closed channel stays
    closed. *)
Definition keeps (s s' : collector) : Prop :=
  (∀ sid st, streams s !! sid = Some st → ∃ st', streams s' !! sid = Some st' ∧ st_ch st' = st_ch st) ∧
  (∀ ch, closed_ch s ch → closed_ch s' ch).

Lemma keeps_refl s s' : streams s' = streams s → chans s' = chans s → keeps s s'.
Proof. intros E1 E2. split; [rewrite E1; eauto|]. intros ch. unfold closed_ch. by rewrite E2. Qed.

Lemma keeps_trans s1 s2 s3 : keeps s1 s2 → keeps s2 s3 → keeps s1 s3.
Proof.
  intros [H1 H2] [H3 H4]. split; [|auto]. intros sid st (st2 & Hst2 & E)%H1.
  destruct (H3 _ _ Hst2) as (st3 & ? & ?). exists st3. split; [done|congruence].
Qed.

(** A stream's step: its new stage, and a channel that is closed only if it was,
    or that is closed now. *)
Lemma keeps_stream s sid st st' c c' s' :
  streams s !! sid = Some st → chans s !! st_ch st = Some c → st_ch st' = st_ch st → (ch_closed c → ch_closed c') →
  streams s' = <[sid := st']> (streams s) → chans s' = <[st_ch st := c']> (chans s) → keeps s s'.
Proof.
  intros Hst Hc Hch Hcl E1 E2. split.
  - intros sid2 st2. rewrite E1. destruct (decide (sid2 = sid)) as [->|].
    + rewrite lookup_insert_eq. intros ?. simplify_eq. eauto.
    + rewrite lookup_insert_ne by done. eauto.
  - intros ch (c2 & Hc2 & Hcl2). unfold closed_ch. rewrite E2. destruct (decide (ch = st_ch st)) as [->|].
    + rewrite lookup_insert_eq. simplify_eq. eauto.
    + rewrite lookup_insert_ne by done. eauto.
Qed.

Lemma getOrCreate_keeps j s : keeps s (getOrCreateBuffer j s).2.
Proof. unfold getOrCreateBuffer. case_match; by apply keeps_refl. Qed.

Lemma hand_on_ch sid st e fails next : st_ch (hand_on sid st e fails next).1 = st_ch st.
Proof. apply hand_on_same. Qed.

Lemma stream_steps_keep size tr s a s' os : tinv size tr s →
  match a with AStreamRegister _ | AStreamBuffered _ _ | AStreamLive _ _ | AStreamUnlist _ | AStreamClose _ => True | _ => False end →
  tstep a s = Some (s', os) → keeps s s'.
Proof.
  intros I Ha Hs. unfold tstep in Hs. destruct (crashed s); [done|].
  assert (Put : ∀ sid st st2, streams s !! sid = Some st → st_ch st2 = st_ch st → keeps s (put_stream sid st2 s)).
  { intros sid st st2 Hst Hch. destruct (stream_parts _ _ _ _ _ I Hst) as (c & _ & Hc & _).
    eapply (keeps_stream s sid st st2 c c); try done. simpl. by rewrite insert_id. }
  destruct a; try done; simpl in Hs;
    [unfold Stream_register in Hs|unfold Stream_buffered in Hs|unfold Stream_live in Hs|unfold Stream_unlist in Hs|unfold Stream_close in Hs];
    (destruct (streams s !! sid) as [st|] eqn:Hst; [simpl in Hs|done]);
    destruct (stream_parts _ _ _ _ _ I Hst) as (c & buf & Hc & Hbuf & _); rewrite ?Hbuf, ?Hc in Hs; simpl in Hs.
  - destruct (st_at st); simplify_eq. eapply keeps_trans; [|by eapply (keeps_refl (put_stream sid _ s))]. by eapply Put.
  - destruct (st_at st) as [|[|e rest]| | | |]; simplify_eq; [by eapply Put|].
    pose proof (hand_on_ch sid st e fails (SBuffered rest)). destruct (hand_on _ _ _ _ _). simplify_eq. by eapply Put.
  - destruct (st_at st); try done. destruct w as [|fails]; [simplify_eq; by eapply Put|].
    destruct (queue c) as [|e q] eqn:Hqc; [destruct (ch_closed c); simplify_eq; by eapply Put|].
    pose proof (hand_on_ch sid st e fails SLive). destruct (hand_on _ _ _ _ _). simplify_eq.
    by eapply (keeps_stream s sid st s0 c {| queue := q; ch_closed := ch_closed c |}).
  - destruct (st_at st); simplify_eq. eapply keeps_trans; [|by eapply (keeps_refl (put_stream sid _ s))]. by eapply Put.
  - destruct (st_at st); try done. destruct (ch_closed c) eqn:Hcl; simplify_eq.
    + eapply keeps_trans; [|by eapply (keeps_refl (put_stream sid _ s))]. by eapply Put.
    + by eapply (keeps_stream s sid st (at_stage SDone st) c {| queue := queue c; ch_closed := true |}).
Qed.

Lemma tstep_keeps size tr s a s' os : tinv size tr s → tstep a s = Some (s', os) → keeps s s'.
Proof.
  intros I Hs. destruct a; try (eapply (stream_steps_keep _ _ _ _ _ _ I); [|exact Hs]; exact Logic.I); unfold tstep in Hs; destruct (crashed s) eqn:Hok; try done.
  - destruct (emissions s !! id); [done|]. injection Hs as <- <-. destruct ev as [e|]; [simpl|by apply keeps_refl].
    destruct (String.eqb _ _); [destruct persist; by apply keeps_refl|].
    pose proof (getOrCreate_keeps (JobUUID e) s). destruct (getOrCreateBuffer _ _). by eapply keeps_trans; [|apply keeps_refl].
  - unfold Emit_append in Hs. destruct (emissions s !! id) as [em|]; [simpl in Hs|done].
    destruct (heap s !! em_buf em) as [buf|]; [simpl in Hs|done]. destruct (em_at em); [|done].
    destruct (notify _ _ _) as [[cs os'] ok] eqn:Hn.
    assert (Hk : keeps s (set_chans cs s)).
    { split; [simpl; eauto|]. intros ch (c & Hc & Hcl). unfold closed_ch. simpl.
      destruct (notify_closed (em_event em) (listeners buf) (chans s) [] true ch c) as (c' & Hc' & ?); [done..|].
      unfold notify in Hn. rewrite Hn in Hc'. eauto. }
    eapply keeps_trans; [exact Hk|]. destruct (em_persist em), ok; simplify_eq; by apply keeps_refl.
  - unfold Emit_persist in Hs. destruct (emissions s !! id) as [em|]; [simpl in Hs|done].
    destruct (em_at em); [done|]. destruct (persister s); simplify_eq; by apply keeps_refl.
  - unfold Stream_start in Hs. destruct (streams s !! sid) eqn:Hsid; [done|].
    pose proof (getOrCreate_keeps jobID s) as Hk. destruct (getOrCreateBuffer jobID s) as [b s1] eqn:Hg. simplify_eq/=.
    assert (streams s1 = streams s ∧ chans s1 = chans s) as [E1 E2].
    { unfold getOrCreateBuffer in Hg. case_match; by simplify_eq. }
    split; simpl.
    + intros sid2 st2 Hst2. rewrite E1, lookup_insert_ne by congruence. eauto.
    + intros ch (c & Hc & ?). exists c. simpl. rewrite E2, lookup_insert_ne; [done|].
      intros <-. apply elem_of_dom_2 in Hc. by apply is_fresh in Hc.
  - unfold ClearJob in Hs. destruct (buffers s !! _) as [b|] eqn:Hb; [|by simplify_eq; apply keeps_refl].
    destruct (heap s !! b) as [buf|]; [|by simplify_eq; apply keeps_refl].
    destruct (foldl close_all _ _) as [[cs os'] ok] eqn:Hn.
    assert (Hk : keeps s (set_chans cs s)).
    { split; [simpl; eauto|]. intros ch (c & Hc & Hcl). unfold closed_ch. simpl.
      destruct (close_all_closed (listeners buf) (chans s) [] true ch c) as (c' & Hc' & ?); [done..|].
      rewrite Hn in Hc'. eauto. }
    eapply keeps_trans; [exact Hk|]. destruct ok; simplify_eq; by apply keeps_refl.
  - simplify_eq. by apply keeps_refl.
Qed.

Lemma trun_keeps n tr s acts s' os : history n tr s → trun acts s = Some (s', os) → history n (tr ++ os) s' ∧ keeps s s'.
Proof.
  revert tr s os. induction acts as [|a acts IH]; intros tr s os Hh Hr; simpl in Hr.
  { simplify_eq. rewrite app_nil_r. split; [done|by apply keeps_refl]. }
  destruct (tstep a s) as [[s1 os1]|] eqn:Hs; [simpl in Hr|done].
  destruct (trun acts s1) as [[s2 os2]|] eqn:Hr2; [simpl in Hr|done]. simplify_eq.
  destruct (IH _ _ _ (history_step _ _ _ _ _ _ Hh Hs) Hr2) as [Hh2 Hk]. rewrite <- app_assoc in Hh2. split; [done|].
  eapply keeps_trans; [|exact Hk]. by eapply tstep_keeps; [apply history_inv|].
Qed.

(** A stream that follows a job when the job is deleted brings the server down:
    [ClearJob] closes its channel, and whatever happens afterwards, the stream's own
    deferred [close] of that channel panics. *)
Theorem cleared_stream_crashes n tr s j b sid st acts s2 os2 s3 os3 :
  history n tr s → crashed s = false → buffers s !! j = Some b → streams s !! sid = Some st →
  (∃ buf, heap s !! b = Some buf ∧ st_ch st ∈ listeners buf) →
  trun (AClearJob j :: acts) s = Some (s2, os2) → tstep (AStreamClose sid) s2 = Some (s3, os3) →
  crashed s3 ∧ OPanic ∈ os3.
Proof.
  intros Hh Hok Hb Hst (buf & Hbuf & Hin) Hr Hc. simpl in Hr. unfold tstep in Hr. rewrite Hok in Hr. simpl in Hr.
  destruct (ClearJob j s) as [s1 os1] eqn:Hcj. destruct (trun acts s1) as [[s2' os2']|] eqn:Hr2; simplify_eq/=.
  pose proof (history_inv _ _ _ Hh) as I.
  assert (H1 : tstep (AClearJob j) s = Some (s1, os1)) by (unfold tstep; by rewrite Hok, Hcj).
  assert (Hcl : closed_ch s1 (st_ch st)).
  { unfold ClearJob in Hcj. rewrite Hb, Hbuf in Hcj.
    destruct (close_all_fold (listeners buf) (chans s) []) as (cs & os & Hf & _ & _ & _ & Hcs).
    - by eapply i_nodup.
    - intros ch Hch. destruct (i_listed _ _ _ I _ _ _ Hbuf Hch) as (? & ? & ? & ? & ? & ? & q & Hq). by exists q.
    - rewrite Hf in Hcj. simplify_eq. destruct (Hcs _ Hin) as (q & _ & Hq). by eexists. }
  destruct (tstep_keeps _ _ _ _ _ _ I H1) as [K1 _]. destruct (K1 _ _ Hst) as (st1 & Hst1 & E1).
  pose proof (history_step _ _ _ _ _ _ Hh H1) as Hh1.
  destruct (trun_keeps _ _ _ _ _ _ Hh1 Hr2) as [_ [K2 K3]]. destruct (K2 _ _ Hst1) as (st2 & Hst2 & E2).
  destruct (K3 _ Hcl) as (c & Hc2 & Hclc). unfold tstep in Hc. destruct (crashed s2); [done|].
  unfold Stream_close in Hc. rewrite Hst2 in Hc. simpl in Hc. rewrite E2, E1, Hc2 in Hc. simpl in Hc.
  destruct (st_at st2); try done. rewrite (Is_true_true_1 _ Hclc) in Hc. simplify_eq. split; [done|]. by left.
Qed.

(** *** Filters *)

Lemma parse_type_id t x : parse_type t = Some x → x = t.
Proof.
  unfold parse_type. repeat (case_match; [intros [= <-]; symmetry; by apply String.eqb_eq|]). done.
Qed.

Lemma parse_type_known t : is_Some (parse_type t) ↔
  t ∈ ["metrics"; "exec"; "connect"; "file"; "accept"; "socket_data"; "mmap"; "mprotect"]%string.
Proof.
  split.
  - intros [x Hx]. revert Hx. unfold parse_type. rewrite !elem_of_cons.
    repeat match goal with |- context [String.eqb t ?k] => destruct (String.eqb_spec t k) as [->|_]; [by auto 12|] end. done.
  - rewrite !elem_of_cons, elem_of_nil. intros H. destruct_or! H; subst; try done; by eexists.
Qed.

(** A request for types none of which is known gets every event, of the types it
    did not ask for too: unknown names are dropped, and an empty filter matches
    all; with at least one known name it gets exactly the events of the known names. *)
Theorem requested_types types e :
  ((∀ t, t ∈ types → ¬ is_Some (parse_type t)) → Matches (ParseEventTypes types) e = true) ∧
  ((∃ t, t ∈ types ∧ is_Some (parse_type t)) →
    (Matches (ParseEventTypes types) e = true ↔ Type_ e ∈ types ∧ is_Some (parse_type (Type_ e)))).
Proof.
  assert (Hel : ∀ x, x ∈ ParseEventTypes types ↔ x ∈ types ∧ is_Some (parse_type x)).
  { intros x. unfold ParseEventTypes. rewrite list_elem_of_omap. split.
    - intros (t & Ht & Hp). pose proof (parse_type_id _ _ Hp) as ->. by rewrite Hp.
    - intros [Hx [y Hy]]. exists x. split; [done|]. by pose proof (parse_type_id _ _ Hy) as ->. }
  rewrite Matches_spec. split.
  - intros Hno. left. destruct (ParseEventTypes types) as [|x l]; [done|].
    destruct (Hel x) as [Hx _]. destruct Hx as [? ?]; [left|]. by destruct (Hno x).
  - intros (t & Ht & Hk). rewrite Hel. split; [|by right]. intros [Hnil|?]; [|done].
    assert (t ∈ ParseEventTypes types) as H by (by apply Hel). rewrite Hnil in H. by apply elem_of_nil in H.
Qed.

(** ** Concrete runs *)

Definition sample_event (i : Z) : Event := NewExecEvent i "job" {|
  ex_PID := i; ex_PPID := 1; ex_Binary := "/bin/sh"; ex_Args := []; ex_ExitCode := 0 |}.

Definition emit (id : nat) (i : Z) : list act := [AEmitStart id (Some (sample_event i)) true; AEmitAppend id; AEmitPersist id].

(** Three events, of which two fit; a stream that takes the copy and one more. *)
Definition sample_run : list act :=
  ASetPersister true :: emit 0 1 ++ emit 0 2 ++ emit 0 3 ++
  [AStreamStart 7 "job" (Some [EventTypeExec]); AStreamRegister 7] ++ emit 1 4 ++
  [AStreamBuffered 7 false; AStreamBuffered 7 false; AStreamBuffered 7 false; AStreamLive 7 (WChannel false)].

Definition sample_end : collector * list obs := default (NewCollector 2, []) (trun sample_run (NewCollector 2)).

Lemma trun_history n acts s os : trun acts (NewCollector n) = Some (s, os) → history n os s.
Proof. intros Hr. apply (trun_keeps n [] _ acts s os (history_new n) Hr). Qed.

Lemma sample_history : history 2 sample_end.2 sample_end.1.
Proof. apply (trun_history 2 sample_run). by vm_compute. Qed.

Definition sample_stream : stream :=
  {| st_buf := 0; st_ch := 0; st_filter := Some [EventTypeExec]; st_at := SLive |}.

Lemma sample_end_at : streams sample_end.1 !! 7%nat = Some sample_stream ∧
  chans sample_end.1 !! 0%nat = Some {| queue := []; ch_closed := false |}.
Proof. split; by vm_compute. Qed.

Lemma stream_delivers_witness :
  called 7 sample_end.2 = [sample_event 2; sample_event 3; sample_event 4] ∧
  ∃ tr1 tr2 snap pending, sample_end.2 = tr1 ++ ORegister 7 0 0 snap :: tr2 ∧
    snap ++ sent 0 tr2 = taken 7 tr2 ++ pending ∧ pending = [].
Proof.
  split; [by vm_compute|].
  destruct sample_end_at as [Hst Hc].
  destruct (stream_delivers 2 sample_end.2 sample_end.1 7 sample_stream {| queue := []; ch_closed := false |} sample_history Hst Hc)
    as (tr1 & tr2 & snap & pending & Htr & _ & Hcons & Hpend & _); [done|].
  exists tr1, tr2, snap, pending. split; [exact Htr|]. split; [exact Hcons|]. by apply Hpend.
Defined.

Lemma buffered_events_recent_witness :
  GetBufferedEvents "job" None (Some 4) None 5 sample_end.1 = [sample_event 4] ∧
  GetBufferedEvents "job" None None None 1 sample_end.1 = [sample_event 3] ∧
  GetBufferedEvents "job" None None None 1 sample_end.1 =
    limited 1 (filter (λ e, wanted None None None e) (last_n (bufferSize sample_end.1) (since_clear 0 sample_end.2))).
Proof.
  split; [by vm_compute|]. split; [by vm_compute|].
  apply (buffered_events_recent 2 _ _ "job" None None None 1 0 sample_history). by vm_compute.
Defined.

Lemma crash_needs_clear_witness : ∃ s' os,
  tstep (AEmitAppend 9) (Emit_start 9 (Some (sample_event 5)) false sample_end.1) = Some (s', os) ∧ OPanic ∉ os.
Proof.
  assert (Hh : history 2 (sample_end.2 ++ []) (Emit_start 9 (Some (sample_event 5)) false sample_end.1)).
  { eapply (history_step _ _ _ (AEmitStart 9 (Some (sample_event 5)) false)); [exact sample_history|by vm_compute]. }
  destruct (tstep (AEmitAppend 9) (Emit_start 9 (Some (sample_event 5)) false sample_end.1)) as [[s' os]|] eqn:E;
    [|by vm_compute in E].
  exists s', os. split; [done|]. by apply (crash_needs_clear _ _ _ Hh) in E as [? _].
Defined.

(** The stream of [sample_run], when its job is deleted. *)
Definition after_delete : list act := [AStreamLive 7 (WChannel false); AStreamUnlist 7].

Lemma cleared_stream_crashes_witness : ∃ s2 os2 s3 os3,
  trun (AClearJob "job" :: after_delete) sample_end.1 = Some (s2, os2) ∧
  tstep (AStreamClose 7) s2 = Some (s3, os3) ∧ crashed s3 ∧ OPanic ∈ os3.
Proof.
  destruct (trun (AClearJob "job" :: after_delete) sample_end.1) as [[s2 os2]|] eqn:E2; [|by vm_compute in E2].
  destruct (tstep (AStreamClose 7) s2) as [[s3 os3]|] eqn:E3.
  - exists s2, os2, s3, os3. split; [done|]. split; [done|].
    apply (cleared_stream_crashes 2 sample_end.2 sample_end.1 "job" 0 7 sample_stream after_delete s2 os2 s3 os3);
      [exact sample_history|by vm_compute|by vm_compute|by vm_compute| |exact E2|exact E3].
    exists {| events := [sample_event 3; sample_event 4]; listeners := [0%nat] |}. split; [by vm_compute|by left].
  - exfalso. vm_compute in E2. injection E2 as <- _. by vm_compute in E3.
Defined.

Lemma requested_types_witness :
  Matches (ParseEventTypes ["execve"%string]) (NewMetricsEvent 1 "job"
    {| CPUPercent := S754_zero false; MemoryBytes := 0; MemoryLimit := 0; DiskReadBytes := 0; DiskWriteBytes := 0;
       NetRecvBytes := 0; NetSentBytes := 0; GPUPercent := S754_zero false; GPUMemoryBytes := 0 |}) = true.
Proof.
  apply (proj1 (requested_types ["execve"%string] _)). by intros t ->%list_elem_of_singleton [? ?].
Defined.
