(* ===== verification/Telematics.v ===== *)
(** * Kernel events (internal/joblet/ebpf/telematics)

    A program in the kernel writes a record for what a process of a monitored control group
    does; the monitor decodes the records and emits telemetry events for the jobs.  The
    records are the C structs of bpf/telematics.c as they lie in memory, with the bytes that
    the program does not write left as they were; the decoding is that of monitor.go.  The
    second part is the monitor with its goroutines as interleaved steps. *)

From Stdlib Require Import Ascii.
From S2P Require Import Prelude GoStrings IPNet Telemetry.

Local Open Scope Z_scope.

(** ** Records in memory *)

Abbreviation raw := (list Z) (only parsing).
(** The bytes of a number, the least significant first, and back. *)
Fixpoint le (n : nat) (z : Z) : raw := match n with O => [] | S n => z mod 256 :: le n (z / 256) end.
Definition un_le (l : raw) : Z := foldr (λ b acc, b + 256 * acc) 0 l.

(** A member of a struct: its size and alignment, and what the program writes to it, if it does. *)
Record field := { f_size : nat; f_align : nat; f_content : option raw }.
Definition num (n : nat) (z : Z) : field := {| f_size := n; f_align := n; f_content := Some (le n z) |}.
Definition unset (n align : nat) : field := {| f_size := n; f_align := align; f_content := None |}.
Definition some_bytes (l : raw) : field := {| f_size := length l; f_align := 1; f_content := Some l |}.
(** Bytes at the alignment of a number. *)
Definition aligned_bytes (align : nat) (l : raw) : field := {| f_size := length l; f_align := align; f_content := Some l |}.
Definition align_up (pos align : nat) : nat := (pos + (align - pos mod align) mod align)%nat.

Section memory.
(** What the memory of a reserved record held before, by offset: the ring buffer does not clear it. *)
Context (stale : nat → Z).
Definition old (pos n : nat) : raw := stale <$> seq pos n.
(** The members in order, each at the next offset that its alignment allows. *)
Fixpoint layout (pos : nat) (fs : list field) : raw :=
  match fs with
  | [] => []
  | f :: fs => let p := align_up pos (f_align f) in old pos (p - pos) ++ default (old p (f_size f)) (f_content f) ++ layout (p + f_size f) fs
  end.
(** The size of a struct is a multiple of its largest alignment. *)
Definition struct (fs : list field) : raw :=
  let l := layout 0 fs in l ++ old (length l) (align_up (length l) (foldr Nat.max 1%nat (f_align <$> fs)) - length l).
End memory.

(** ** What the kernel program writes *)

(** Where an address is written: the family, and its bytes in network order. *)
Inductive sock_addr := Inet (port : Z) (addr : raw) | Inet6 (port : Z) (addr : raw) | OtherFamily (family : Z).
(** What a process of a control group does. *)
Inductive deed :=
| Execs (ppid uid : Z) (comm filename : raw)
| Connects (to : sock_addr)
| Accepts
| Sends (len : Z) (to : option sock_addr)
| Receives (len : Z)
| Maps (addr length_ prot flags : Z)
| Protects (addr length_ prot : Z).
Record occurrence := { o_time : Z; o_cgroup : Z; o_pid : Z; o_deed : deed }.
Inductive ring := ExecEvents | ConnectEvents | AcceptEvents | SocketDataEvents | MmapEvents | MprotectEvents.
#[export] Instance ring_eq_dec : EqDecision ring.
Proof. solve_decision. Defined.

(** A port in network order. *)
Definition be16 (p : Z) : raw := [p / 256; p mod 256].
Definition PROT_EXEC : Z := 4.
Definition MAP_ANONYMOUS : Z := 32.
(** The members that all the structs begin with. *)
Definition head (o : occurrence) : list field := [num 8 (o_time o); num 8 (o_cgroup o); num 4 (o_pid o)].
(** [struct exec_event]: the name is written up to its end.
    [src/internal/joblet/ebpf/telematics/bpf/telematics.c:159-194 tracepoint__sched__sched_process_exec] *)
Definition exec_event (o : occurrence) (ppid uid : Z) (comm filename : raw) : list field :=
  let name := take 255 filename ++ [0] in
  head o ++ [num 4 ppid; num 4 uid; some_bytes comm; some_bytes name; unset (256 - length name) 1; num 4 0].
(** The union of the two kinds of address: sixteen bytes, of which an address may fill four. *)
Definition address (addr : raw) : list field := [aligned_bytes 4 addr; unset (16 - length addr) 1].
(** [struct connect_event].
    [src/internal/joblet/ebpf/telematics/bpf/telematics.c:196-240 tracepoint__syscalls__sys_enter_connect] *)
Definition connect_event (o : occurrence) (to : sock_addr) : option (list field) :=
  match to with
  | Inet port addr => Some (head o ++ [aligned_bytes 2 (be16 port); num 2 2; num 1 6; unset 3 1] ++ address addr)
  | Inet6 port addr => Some (head o ++ [aligned_bytes 2 (be16 port); num 2 10; num 1 6; unset 3 1] ++ address addr)
  | OtherFamily _ => None
  end.
(** [struct accept_event]: the address is not written.
    [src/internal/joblet/ebpf/telematics/bpf/telematics.c:242-266 tracepoint__syscalls__sys_exit_accept4] *)
Definition accept_event (o : occurrence) : list field := head o ++ [num 2 0; num 2 0; num 2 2; unset 2 1; unset 16 4].
(** [struct socket_data_event] of a message that is sent.
    [src/internal/joblet/ebpf/telematics/bpf/telematics.c:268-301 tracepoint__syscalls__sys_enter_sendto] *)
Definition send_event (o : occurrence) (len : Z) (to : option sock_addr) : list field :=
  let rest := [num 1 0; num 1 6; unset 2 1; num 8 len] in
  match to with
  | Some (Inet port addr) => head o ++ [aligned_bytes 2 (be16 port); num 2 2] ++ rest ++ address addr
  | Some (Inet6 _ _) => head o ++ [unset 2 2; num 2 10] ++ rest ++ [unset 16 4]
  | Some (OtherFamily f) => head o ++ [unset 2 2; num 2 f] ++ rest ++ [unset 16 4]
  | None => head o ++ [unset 2 2; unset 2 2] ++ rest ++ [unset 16 4]
  end.
(** The same struct for a message that is received.
    [src/internal/joblet/ebpf/telematics/bpf/telematics.c:303-323 tracepoint__syscalls__sys_enter_recvfrom] *)
Definition recv_event (o : occurrence) (len : Z) : list field := head o ++ [unset 2 2; unset 2 2; num 1 1; num 1 6; unset 2 1; num 8 len; unset 16 4].
(** [struct mmap_event]: mappings that are anonymous and not executable are left out.
    [src/internal/joblet/ebpf/telematics/bpf/telematics.c:325-355 tracepoint__syscalls__sys_enter_mmap] *)
Definition mmap_event (o : occurrence) (addr len prot flags : Z) : option (list field) :=
  if (Z.land prot PROT_EXEC =? 0) && negb (Z.land flags MAP_ANONYMOUS =? 0) then None
  else Some (head o ++ [num 4 prot; num 4 flags; unset 4 4; num 8 addr; num 8 len]).
(** [struct mprotect_event]: only protections that allow execution.
    [src/internal/joblet/ebpf/telematics/bpf/telematics.c:357-383 tracepoint__syscalls__sys_enter_mprotect] *)
Definition mprotect_event (o : occurrence) (addr len prot : Z) : option (list field) :=
  if Z.land prot PROT_EXEC =? 0 then None else Some (head o ++ [num 4 prot; num 8 addr; num 8 len]).

(** The record of an occurrence, and the ring it is written to.
    [src/internal/joblet/ebpf/telematics/bpf/telematics.c:152-157 is_monitored] *)
Definition kernel_record (monitored : gset Z) (stale : nat → Z) (o : occurrence) : option (ring * raw) :=
  if bool_decide (o_cgroup o ∈ monitored) then
    match o_deed o with
    | Execs ppid uid comm filename => Some (ExecEvents, struct stale (exec_event o ppid uid comm filename))
    | Connects to => fs ← connect_event o to; Some (ConnectEvents, struct stale fs)
    | Accepts => Some (AcceptEvents, struct stale (accept_event o))
    | Sends len to => Some (SocketDataEvents, struct stale (send_event o len to))
    | Receives len => Some (SocketDataEvents, struct stale (recv_event o len))
    | Maps addr len prot flags => fs ← mmap_event o addr len prot flags; Some (MmapEvents, struct stale fs)
    | Protects addr len prot => fs ← mprotect_event o addr len prot; Some (MprotectEvents, struct stale fs)
    end
  else None.

(** ** Decoding *)

(** [binary.Read] of a struct: the fields one after the other, without padding; it fails when
    the record is too short, and does not look at what is left. *)
Definition R (A : Type) := raw → option (A * raw).
#[local] Instance R_ret : MRet R := λ A a l, Some (a, l).
#[local] Instance R_bind : MBind R := λ A B k m l, match m l with Some (a, l) => k a l | None => None end.
Definition read_bytes (n : nat) : R raw := λ l, if (length l <? n)%nat then None else Some (take n l, drop n l).
Definition read_num (n : nat) : R Z := b ← read_bytes n; mret (un_le b).
Definition signed (w z : Z) : Z := if z <? 2 ^ (w - 1) then z else z - 2 ^ w.

(** [src/internal/joblet/ebpf/telematics/monitor.go ExecEvent] *)
Record ExecEvent := { xe_CgroupID : Z; xe_PID : Z; xe_PPID : Z; xe_UID : Z; xe_Comm : raw; xe_Filename : raw; xe_RetVal : Z }.
(** [src/internal/joblet/ebpf/telematics/monitor.go ExecEvent] *)
Definition read_exec : R ExecEvent :=
  _ ← read_num 8; cg ← read_num 8; pid ← read_num 4; ppid ← read_num 4; uid ← read_num 4; comm ← read_bytes 16; name ← read_bytes 256; ret ← read_num 4;
  mret {| xe_CgroupID := cg; xe_PID := pid; xe_PPID := ppid; xe_UID := uid; xe_Comm := comm; xe_Filename := name; xe_RetVal := signed 32 ret |}.
(** [src/internal/joblet/ebpf/telematics/monitor.go ConnectEvent] *)
Record ConnectEvent := { ce_CgroupID : Z; ce_PID : Z; ce_Port : Z; ce_Family : Z; ce_Protocol : Z; ce_Addr : raw }.
(** [src/internal/joblet/ebpf/telematics/monitor.go ConnectEvent] *)
Definition read_connect : R ConnectEvent :=
  _ ← read_num 8; cg ← read_num 8; pid ← read_num 4; port ← read_num 2; family ← read_num 2; protocol ← read_num 1; _ ← read_bytes 3; addr ← read_bytes 16;
  mret {| ce_CgroupID := cg; ce_PID := pid; ce_Port := port; ce_Family := family; ce_Protocol := protocol; ce_Addr := addr |}.
(** [src/internal/joblet/ebpf/telematics/monitor.go AcceptEvent] *)
Record AcceptEvent := { ae_CgroupID : Z; ae_PID : Z; ae_LocalPort : Z; ae_RemotePort : Z; ae_Family : Z; ae_RemoteAddr : raw }.
(** [src/internal/joblet/ebpf/telematics/monitor.go AcceptEvent] *)
Definition read_accept : R AcceptEvent :=
  _ ← read_num 8; cg ← read_num 8; pid ← read_num 4; lport ← read_num 2; rport ← read_num 2; family ← read_num 2; _ ← read_bytes 2; addr ← read_bytes 16;
  mret {| ae_CgroupID := cg; ae_PID := pid; ae_LocalPort := lport; ae_RemotePort := rport; ae_Family := family; ae_RemoteAddr := addr |}.
(** [src/internal/joblet/ebpf/telematics/monitor.go SocketDataEvent] *)
Record SocketDataEvent := { se_CgroupID : Z; se_PID : Z; se_Port : Z; se_Family : Z; se_Direction : Z; se_Protocol : Z; se_Bytes : Z; se_Addr : raw }.
(** [src/internal/joblet/ebpf/telematics/monitor.go SocketDataEvent] *)
Definition read_socket : R SocketDataEvent :=
  _ ← read_num 8; cg ← read_num 8; pid ← read_num 4; port ← read_num 2; family ← read_num 2; direction ← read_num 1; protocol ← read_num 1; _ ← read_bytes 2;
  n ← read_num 8; addr ← read_bytes 16;
  mret {| se_CgroupID := cg; se_PID := pid; se_Port := port; se_Family := family; se_Direction := direction; se_Protocol := protocol; se_Bytes := n; se_Addr := addr |}.
(** [src/internal/joblet/ebpf/telematics/monitor.go MmapEvent] *)
Record MmapEvent := { me_CgroupID : Z; me_PID : Z; me_Prot : Z; me_Flags : Z; me_Addr : Z; me_Length : Z }.
(** [src/internal/joblet/ebpf/telematics/monitor.go MmapEvent] *)
Definition read_mmap : R MmapEvent :=
  _ ← read_num 8; cg ← read_num 8; pid ← read_num 4; prot ← read_num 4; flags ← read_num 4; _ ← read_num 4; addr ← read_num 8; len ← read_num 8;
  mret {| me_CgroupID := cg; me_PID := pid; me_Prot := prot; me_Flags := flags; me_Addr := addr; me_Length := len |}.
(** [src/internal/joblet/ebpf/telematics/monitor.go MprotectEvent] *)
Record MprotectEvent := { pe_CgroupID : Z; pe_PID : Z; pe_Prot : Z; pe_Addr : Z; pe_Length : Z }.
(** [src/internal/joblet/ebpf/telematics/monitor.go MprotectEvent] *)
Definition read_mprotect : R MprotectEvent :=
  _ ← read_num 8; cg ← read_num 8; pid ← read_num 4; prot ← read_num 4; addr ← read_num 8; len ← read_num 8;
  mret {| pe_CgroupID := cg; pe_PID := pid; pe_Prot := prot; pe_Addr := addr; pe_Length := len |}.

(** [src/internal/joblet/ebpf/telematics/monitor.go nullTerminatedString] *)
Fixpoint null_terminated (l : raw) : list ascii := match l with [] => [] | b :: l => if b =? 0 then [] else byte_of b :: null_terminated l end.
(** [src/internal/joblet/ebpf/telematics/monitor.go nullTerminatedString] *)
Definition nullTerminatedString (l : raw) : string := of_bytes (null_terminated l).

(** The order in which a range over the jobs goes. *)
Class JobsOrder := { jobs_range : gmap string Z → list (string * Z); jobs_range_perm : ∀ m, jobs_range m ≡ₚ map_to_list m }.

Section decode.
Context {IT : IPv6Text} {JO : JobsOrder}.
(** The jobs with their control groups. *)
Context (jobs : gmap string Z).

(** [src/internal/joblet/ebpf/telematics/monitor.go Monitor.findJobByCgroup] *)
Definition findJobByCgroup (cgroupID : Z) : string := from_option fst ""%string (List.find (λ x : string * Z, x.2 =? cgroupID) (jobs_range jobs)).
(** The event is dropped when no job has the group. *)
Definition for_job (cgroupID : Z) (d : EventData) : option (string * EventData) :=
  let jobID := findJobByCgroup cgroupID in if String.eqb jobID "" then None else Some (jobID, d).
(** [src/internal/joblet/ebpf/telematics/monitor.go:485-486 Monitor.processConnectEvents] *)
Definition swap16 (p : Z) : Z := Z.lor (Z.shiftr p 8) (Z.shiftl p 8 mod 2 ^ 16).
Definition protocol_name (p : Z) : string := if p =? 17 then "udp" else "tcp".

(** One turn of the loop over the records of a ring: what is emitted.
    [src/internal/joblet/ebpf/telematics/monitor.go Monitor.processExecEvents] *)
Definition exec_emission (record : raw) : option (string * EventData) :=
  '(e, _) ← read_exec record;
  for_job (xe_CgroupID e) (DExec {| ex_PID := xe_PID e; ex_PPID := xe_PPID e; ex_Binary := nullTerminatedString (xe_Filename e); ex_Args := []; ex_ExitCode := xe_RetVal e |}).
(** [src/internal/joblet/ebpf/telematics/monitor.go Monitor.processConnectEvents] *)
Definition connect_emission (record : raw) : option (string * EventData) :=
  '(e, _) ← read_connect record;
  for_job (ce_CgroupID e) (DConnect {|
    co_PID := ce_PID e; co_Address := if ce_Family e =? 2 then String_ip (take 4 (ce_Addr e)) else String_ip (ce_Addr e);
    co_Port := swap16 (ce_Port e); co_Protocol := protocol_name (ce_Protocol e); co_LocalAddress := ""; co_LocalPort := 0 |}).
(** [src/internal/joblet/ebpf/telematics/monitor.go Monitor.processAcceptEvents] *)
Definition accept_emission (record : raw) : option (string * EventData) :=
  '(e, _) ← read_accept record;
  for_job (ae_CgroupID e) (DAccept {|
    ac_PID := ae_PID e; ac_RemoteAddr := if ae_Family e =? 2 then String_ip (take 4 (ae_RemoteAddr e)) else String_ip (ae_RemoteAddr e);
    ac_RemotePort := ae_RemotePort e; ac_LocalPort := ae_LocalPort e; ac_Protocol := "tcp" |}).
(** [src/internal/joblet/ebpf/telematics/monitor.go Monitor.processSocketDataEvents] *)
Definition socket_emission (record : raw) : option (string * EventData) :=
  '(e, _) ← read_socket record;
  for_job (se_CgroupID e) (DSocketData {|
    so_PID := se_PID e; so_Direction := if se_Direction e =? 1 then "recv" else "send";
    so_Address := if se_Family e =? 2 then String_ip (take 4 (se_Addr e)) else if se_Family e =? 10 then String_ip (se_Addr e) else "";
    so_Port := swap16 (se_Port e); so_Protocol := protocol_name (se_Protocol e); so_Bytes := signed 64 (se_Bytes e) |}).
(** [src/internal/joblet/ebpf/telematics/monitor.go Monitor.processMmapEvents] *)
Definition mmap_emission (record : raw) : option (string * EventData) :=
  '(e, _) ← read_mmap record;
  for_job (me_CgroupID e) (DMmap {| mm_PID := me_PID e; mm_Addr := me_Addr e; mm_Length := me_Length e; mm_Prot := me_Prot e; mm_Flags := me_Flags e |}).
(** [src/internal/joblet/ebpf/telematics/monitor.go Monitor.processMprotectEvents] *)
Definition mprotect_emission (record : raw) : option (string * EventData) :=
  '(e, _) ← read_mprotect record;
  for_job (pe_CgroupID e) (DMprotect {| mp_PID := pe_PID e; mp_Addr := pe_Addr e; mp_Length := pe_Length e; mp_Prot := pe_Prot e |}).
Definition emission (r : ring) (record : raw) : option (string * EventData) :=
  match r with
  | ExecEvents => exec_emission record | ConnectEvents => connect_emission record | AcceptEvents => accept_emission record
  | SocketDataEvents => socket_emission record | MmapEvents => mmap_emission record | MprotectEvents => mprotect_emission record
  end.
End decode.

(** ** What was written is what is read *)

Lemma length_le n z : length (le n z) = n.
Proof. revert z. induction n as [|n IH]; intros z; [done|]. cbn [le length]. by rewrite IH. Qed.
Lemma un_le_le n z : 0 ≤ z < 256 ^ Z.of_nat n → un_le (le n z) = z.
Proof.
  revert z. induction n as [|n IH]; intros z Hz; [change (256 ^ Z.of_nat 0) with 1 in Hz; cbn; lia|].
  cbn [le un_le foldr]. change (foldr _ 0 (le n (z / 256))) with (un_le (le n (z / 256))). rewrite Nat2Z.inj_succ, Z.pow_succ_r in Hz by lia.
  rewrite IH; [|split; [apply Z.div_pos; lia|apply Z.div_lt_upper_bound; lia]]. pose proof (Z.div_mod z 256). lia.
Qed.
Lemma read_bytes_app n b l : length b = n → read_bytes n (b ++ l) = Some (b, l).
Proof. intros <-. unfold read_bytes. rewrite length_app, (proj2 (Nat.ltb_ge _ _)) by lia. by rewrite take_app_length, drop_app_length. Qed.
Lemma read_num_app n z l : 0 ≤ z < 256 ^ Z.of_nat n → read_num n (le n z ++ l) = Some (z, l).
Proof. intros Hz. unfold read_num, mbind, R_bind. rewrite (read_bytes_app n _ l (length_le n z)). unfold mret, R_ret. by rewrite un_le_le. Qed.
Lemma bind_bytes {B} n b l (k : raw → R B) : length b = n → (read_bytes n ≫= k) (b ++ l) = k b l.
Proof. intros H. unfold mbind, R_bind. by rewrite read_bytes_app. Qed.
Lemma bind_num {B} n z l (k : Z → R B) : 0 ≤ z < 256 ^ Z.of_nat n → (read_num n ≫= k) (le n z ++ l) = k z l.
Proof. intros H. unfold mbind, R_bind. by rewrite read_num_app. Qed.

Lemma length_old stale pos n : length (old stale pos n) = n.
Proof. unfold old. by rewrite length_fmap, length_seq. Qed.
Lemma align_same pos align : (pos mod align = 0)%nat → align ≠ O → align_up pos align = pos.
Proof. intros H Ha. unfold align_up. rewrite H, Nat.sub_0_r, Nat.Div0.mod_same. lia. Qed.
Lemma layout_field stale pos f fs : (pos mod f_align f = 0)%nat → f_align f ≠ O →
  layout stale pos (f :: fs) = default (old stale pos (f_size f)) (f_content f) ++ layout stale (pos + f_size f) fs.
Proof. intros H Ha. cbn [layout]. rewrite align_same by done. by rewrite Nat.sub_diag. Qed.
Lemma layout_num stale pos n z fs : (pos mod n = 0)%nat → n ≠ O → layout stale pos (num n z :: fs) = le n z ++ layout stale (pos + n) fs.
Proof. intros H Ha. by rewrite layout_field. Qed.
Lemma layout_bytes stale pos align l fs : (pos mod align = 0)%nat → align ≠ O → layout stale pos (aligned_bytes align l :: fs) = l ++ layout stale (pos + length l) fs.
Proof. intros H Ha. by rewrite layout_field. Qed.
Lemma layout_some stale pos l fs : layout stale pos (some_bytes l :: fs) = l ++ layout stale (pos + length l) fs.
Proof. rewrite layout_field; [done|apply Nat.mod_1_r|done]. Qed.
Lemma layout_unset stale pos n align fs : (pos mod align = 0)%nat → align ≠ O → layout stale pos (unset n align :: fs) = old stale pos n ++ layout stale (pos + n) fs.
Proof. intros H Ha. by rewrite layout_field. Qed.

Lemma layout_unset1 stale pos n fs : layout stale pos (unset n 1 :: fs) = old stale pos n ++ layout stale (pos + n) fs.
Proof. apply layout_unset; [apply Nat.mod_1_r|done]. Qed.

(** The values fit into their members. *)
Definition fits (n : nat) (z : Z) : Prop := 0 ≤ z < 256 ^ Z.of_nat n.
Definition addr_ok (a : sock_addr) : Prop :=
  match a with Inet p x => 0 ≤ p < 65536 ∧ length x = 4%nat | Inet6 p x => 0 ≤ p < 65536 ∧ length x = 16%nat | OtherFamily f => fits 2 f end.
Definition deed_ok (d : deed) : Prop :=
  match d with
  | Execs ppid uid comm filename => fits 4 ppid ∧ fits 4 uid ∧ length comm = 16%nat ∧ Forall (λ b, 0 < b < 256) filename
  | Connects to => addr_ok to
  | Accepts => True
  | Sends len to => fits 8 len ∧ from_option addr_ok True to
  | Receives len => fits 8 len
  | Maps addr len prot flags => fits 8 addr ∧ fits 8 len ∧ fits 4 prot ∧ fits 4 flags
  | Protects addr len prot => fits 8 addr ∧ fits 8 len ∧ fits 4 prot
  end.
Definition occurrence_ok (o : occurrence) : Prop := fits 8 (o_time o) ∧ fits 8 (o_cgroup o) ∧ fits 4 (o_pid o) ∧ deed_ok (o_deed o).

(** What should be reported of an occurrence. *)
Definition reported `{!IPv6Text} (o : occurrence) : option EventData :=
  match o_deed o with
  | Execs ppid uid comm filename => Some (DExec {| ex_PID := o_pid o; ex_PPID := ppid; ex_Binary := of_bytes (byte_of <$> take 255 filename); ex_Args := []; ex_ExitCode := 0 |})
  | Connects (Inet port addr) | Connects (Inet6 port addr) =>
      Some (DConnect {| co_PID := o_pid o; co_Address := String_ip addr; co_Port := port; co_Protocol := "tcp"; co_LocalAddress := ""; co_LocalPort := 0 |})
  | Maps addr len prot flags => Some (DMmap {| mm_PID := o_pid o; mm_Addr := addr; mm_Length := len; mm_Prot := prot; mm_Flags := flags |})
  | Protects addr len prot => Some (DMprotect {| mp_PID := o_pid o; mp_Addr := addr; mp_Length := len; mp_Prot := prot |})
  | _ => None
  end.

Lemma null_terminated_app l rest : Forall (λ b, 0 < b < 256) l → null_terminated (l ++ 0 :: rest) = byte_of <$> l.
Proof. induction 1 as [|b l Hb _ IH]; [done|]. cbn [app null_terminated fmap list_fmap]. rewrite (proj2 (Z.eqb_neq _ _)) by lia. by rewrite IH. Qed.
Lemma swap16_bytes : forallb (λ h, forallb (λ l, swap16 (un_le [h; l]) =? h * 256 + l) (seqZ 0 256)) (seqZ 0 256) = true.
Proof. vm_compute. reflexivity. Qed.
Lemma swap16_be p : 0 ≤ p < 65536 → swap16 (un_le (be16 p)) = p.
Proof.
  intros Hp. pose proof (Z.div_mod p 256). pose proof (Z.mod_pos_bound p 256). assert (0 ≤ p / 256 < 256) by (split; [apply Z.div_pos; lia|apply Z.div_lt_upper_bound; lia]).
  pose proof swap16_bytes as Hs. rewrite forallb_forall in Hs. specialize (Hs (p / 256)). rewrite forallb_forall in Hs. unfold be16.
  rewrite (proj1 (Z.eqb_eq _ _) (Hs ltac:(apply list_elem_of_In, elem_of_seqZ; lia) (p mod 256) ltac:(apply list_elem_of_In, elem_of_seqZ; lia))). lia.
Qed.

(** The first members, then what is decoded after them. *)
Lemma bind_head {B} stale o fs tail (k : Z → Z → R B) : fits 8 (o_time o) → fits 8 (o_cgroup o) → fits 4 (o_pid o) →
  (_ ← read_num 8; cg ← read_num 8; pid ← read_num 4; k cg pid) (layout stale 0 (head o ++ fs) ++ tail) = k (o_cgroup o) (o_pid o) (layout stale 20 fs ++ tail).
Proof.
  intros H1 H2 H3. unfold head. cbn [app]. rewrite !layout_num by done. cbn [Nat.add]. rewrite <- !app_assoc. by rewrite !bind_num.
Qed.
Lemma struct_tail stale fs : ∃ tail, struct stale fs = layout stale 0 fs ++ tail.
Proof. eexists. reflexivity. Qed.

Lemma read_exec_struct stale o ppid uid comm filename : occurrence_ok o → o_deed o = Execs ppid uid comm filename → ∃ rest l,
  read_exec (struct stale (exec_event o ppid uid comm filename)) =
  Some ({| xe_CgroupID := o_cgroup o; xe_PID := o_pid o; xe_PPID := ppid; xe_UID := uid; xe_Comm := comm; xe_Filename := take 255 filename ++ 0 :: rest; xe_RetVal := 0 |}, l).
Proof.
  intros (H1 & H2 & H3 & Hd) E. rewrite E in Hd. destruct Hd as (Hp & Hu & Hc & Hf). destruct (struct_tail stale (exec_event o ppid uid comm filename)) as [tail ->].
  unfold exec_event, read_exec. rewrite bind_head by done. set (name := take 255 filename ++ [0]).
  assert (Hn : (length name ≤ 256)%nat) by (unfold name; rewrite length_app, length_take; change (length [0]) with 1%nat; lia).
  rewrite layout_num by done. cbn [Nat.add]. rewrite layout_num by done. cbn [Nat.add]. rewrite !layout_some, Hc.
  rewrite layout_unset1. replace (28 + 16 + length name + (256 - length name))%nat with 300%nat by lia. rewrite layout_num by (reflexivity || done). cbn [layout].
  rewrite <- !app_assoc. rewrite !bind_num by done. rewrite bind_bytes by done. rewrite (app_assoc name). rewrite bind_bytes by (rewrite length_app, length_old; lia).
  rewrite bind_num by done. eexists _, _. unfold mret, R_ret. unfold name. rewrite <- app_assoc. reflexivity.
Qed.
Lemma be16_le p : be16 p = [p / 256; p mod 256].
Proof. done. Qed.
Lemma bind_num_bytes {B} n b l (k : Z → R B) : length b = n → (read_num n ≫= k) (b ++ l) = k (un_le b) l.
Proof. intros H. unfold read_num, mbind, R_bind. by rewrite read_bytes_app. Qed.
Lemma read_connect_struct stale o port addr family : occurrence_ok o → 0 ≤ port < 65536 → fits 2 family → (length addr = 4 ∨ length addr = 16)%nat → ∃ rest l,
  read_connect (struct stale (head o ++ [aligned_bytes 2 (be16 port); num 2 family; num 1 6; unset 3 1; aligned_bytes 4 addr; unset (16 - length addr) 1])) =
  Some ({| ce_CgroupID := o_cgroup o; ce_PID := o_pid o; ce_Port := un_le (be16 port); ce_Family := family; ce_Protocol := 6; ce_Addr := addr ++ rest |}, l) ∧ length rest = (16 - length addr)%nat.
Proof.
  intros (H1 & H2 & H3 & _) Hp Hf Hl. match goal with |- context [struct stale ?f] => destruct (struct_tail stale f) as [tail ->] end.
  unfold read_connect. rewrite bind_head by done. rewrite layout_bytes by done. cbn [length be16 Nat.add]. rewrite !layout_num by done. cbn [Nat.add].
  rewrite layout_unset1. cbn [Nat.add]. rewrite layout_bytes by done. rewrite layout_unset1. cbn [layout]. rewrite <- !app_assoc.
  rewrite bind_num_bytes by done. rewrite !bind_num by done. rewrite bind_bytes by apply length_old. rewrite (app_assoc addr).
  rewrite bind_bytes by (rewrite length_app, length_old; lia). eexists _, _. split; [reflexivity|]. apply length_old.
Qed.
Lemma read_mmap_struct stale o addr len prot flags : occurrence_ok o → fits 8 addr → fits 8 len → fits 4 prot → fits 4 flags → ∃ l,
  read_mmap (struct stale (head o ++ [num 4 prot; num 4 flags; unset 4 4; num 8 addr; num 8 len])) =
  Some ({| me_CgroupID := o_cgroup o; me_PID := o_pid o; me_Prot := prot; me_Flags := flags; me_Addr := addr; me_Length := len |}, l).
Proof.
  intros (H1 & H2 & H3 & _) Ha Hn Hp Hf. match goal with |- context [struct stale ?f] => destruct (struct_tail stale f) as [tail ->] end.
  unfold read_mmap. rewrite bind_head by done. do 2 (rewrite layout_num by done; cbn [Nat.add]). rewrite layout_unset by done. cbn [Nat.add]. do 2 (rewrite layout_num by done; cbn [Nat.add]). cbn [layout].
  rewrite <- !app_assoc. rewrite !bind_num by done. rewrite bind_num_bytes by apply length_old. rewrite !bind_num by done. eexists. reflexivity.
Qed.
Lemma read_mprotect_struct stale o addr len prot : occurrence_ok o → fits 8 addr → fits 8 len → fits 4 prot → ∃ l,
  read_mprotect (struct stale (head o ++ [num 4 prot; num 8 addr; num 8 len])) =
  Some ({| pe_CgroupID := o_cgroup o; pe_PID := o_pid o; pe_Prot := prot; pe_Addr := addr; pe_Length := len |}, l).
Proof.
  intros (H1 & H2 & H3 & _) Ha Hn Hp. match goal with |- context [struct stale ?f] => destruct (struct_tail stale f) as [tail ->] end.
  unfold read_mprotect. rewrite bind_head by done. do 3 (rewrite layout_num by done; cbn [Nat.add]). cbn [layout].
  rewrite <- !app_assoc. rewrite !bind_num by done. eexists. reflexivity.
Qed.

(** *** The job of a control group *)

Section owners.
Context {JO : JobsOrder}.
(** A group belongs to at most one job, and jobs have names. *)
Definition owns (jobs : gmap string Z) (jobID : string) (cgroupID : Z) : Prop :=
  jobID ≠ ""%string ∧ jobs !! jobID = Some cgroupID ∧ ∀ j, jobs !! j = Some cgroupID → j = jobID.
Lemma range_lookup jobs j c : (j, c) ∈ jobs_range jobs ↔ jobs !! j = Some c.
Proof. rewrite jobs_range_perm. apply elem_of_map_to_list. Qed.
Lemma find_owner jobs j c : owns jobs j c → findJobByCgroup jobs c = j.
Proof.
  intros (_ & Hj & Hu). unfold findJobByCgroup. destruct (List.find _ _) as [[j' c']|] eqn:E; cbn [from_option fst].
  - apply find_some in E as [Hin Hc]. cbn in Hc. apply Z.eqb_eq in Hc as ->. by apply list_elem_of_In, range_lookup, Hu in Hin.
  - exfalso. apply range_lookup, list_elem_of_In in Hj. apply (find_none _ _ E) in Hj. cbn in Hj. by rewrite Z.eqb_refl in Hj.
Qed.
Lemma find_nobody jobs c : (∀ j, jobs !! j ≠ Some c) → findJobByCgroup jobs c = ""%string.
Proof.
  intros Hn. unfold findJobByCgroup. destruct (List.find _ _) as [[j' c']|] eqn:E; [|done]. apply find_some in E as [Hin Hc]. cbn in Hc. apply Z.eqb_eq in Hc as ->.
  apply list_elem_of_In, range_lookup in Hin. by apply Hn in Hin.
Qed.
Lemma for_owner jobs j c d : owns jobs j c → for_job jobs c d = Some (j, d).
Proof. intros H. unfold for_job. rewrite (find_owner _ _ _ H). destruct H as [Hn _]. by rewrite (proj2 (String.eqb_neq _ _)). Qed.
Lemma for_nobody jobs c d : (∀ j, jobs !! j ≠ Some c) → for_job jobs c d = None.
Proof. intros H. unfold for_job. by rewrite find_nobody. Qed.
End owners.


(** ** Which groups are monitored *)

(** The maps in the kernel, when they are loaded, and the jobs.
    [src/internal/joblet/ebpf/telematics/monitor.go Monitor] *)
Record monitor := { kernel_map : option (gset Z); m_jobs : gmap string Z }.
(** The kernel's map has room for 1024 groups.
    [src/internal/joblet/ebpf/telematics/bpf/telematics.c:108-114 monitored_cgroups] *)
Definition max_entries : Z := 1024.
Inductive add_error := ENotStarted | EMapPut.
(** [src/internal/joblet/ebpf/telematics/monitor.go Monitor.AddJob] *)
Definition AddJob (jobID : string) (cgroupID : Z) (m : monitor) : result add_error unit * monitor :=
  match kernel_map m with
  | None => (Err ENotStarted, m)
  | Some k =>
      if negb (bool_decide (cgroupID ∈ k)) && (max_entries <=? Z.of_nat (size k)) then (Err EMapPut, m)
      else (Ok tt, {| kernel_map := Some ({[cgroupID]} ∪ k); m_jobs := <[jobID := cgroupID]> (m_jobs m) |})
  end.
(** [src/internal/joblet/ebpf/telematics/monitor.go Monitor.RemoveJob] *)
Definition RemoveJob (jobID : string) (m : monitor) : monitor :=
  match m_jobs m !! jobID with
  | None => m
  | Some cgroupID => {| kernel_map := (λ k, k ∖ {[cgroupID]}) <$> kernel_map m; m_jobs := delete jobID (m_jobs m) |}
  end.
Inductive change := Added (jobID : string) (cgroupID : Z) | Removed (jobID : string).
Definition change_monitor (m : monitor) (c : change) : monitor := match c with Added j g => (AddJob j g m).2 | Removed j => RemoveJob j m end.
(** A job is added once, with a name and with a group that no other job has. *)
Definition fresh_change (m : monitor) (c : change) : Prop :=
  match c with Added j g => j ≠ ""%string ∧ m_jobs m !! j = None ∧ (∀ j', m_jobs m !! j' ≠ Some g) | Removed _ => True end.
Fixpoint fresh_changes (m : monitor) (l : list change) : Prop := match l with [] => True | c :: l => fresh_change m c ∧ fresh_changes (change_monitor m c) l end.
(** What is monitored are the groups of the jobs, each of one job. *)
Definition monitor_ok (m : monitor) : Prop :=
  ∃ k, kernel_map m = Some k ∧ (∀ g, g ∈ k ↔ ∃ j, m_jobs m !! j = Some g) ∧ (∀ j g, m_jobs m !! j = Some g → owns (m_jobs m) j g).

Lemma change_ok m c : monitor_ok m → fresh_change m c → monitor_ok (change_monitor m c).
Proof.
  intros (k & Hk & Hin & Ho) Hf. destruct c as [j g|j]; cbn [change_monitor fresh_change] in *.
  - destruct Hf as (Hn & Hj & Hg). unfold AddJob. rewrite Hk. destruct (_ && _); [by exists k|]. cbn [snd].
    exists ({[g]} ∪ k). cbn [kernel_map m_jobs]. split; [done|]. split.
    + intros g'. rewrite elem_of_union, elem_of_singleton, Hin. split.
      * intros [->|[j' Hj']]; [exists j; by rewrite lookup_insert_eq|]. exists j'. rewrite lookup_insert_ne; [done|]. intros ->. congruence.
      * intros [j' Hj']. apply lookup_insert_Some in Hj' as [[_ <-]|[_ Hj']]; [by left|right; eauto].
    + intros j' g' Hj'. apply lookup_insert_Some in Hj' as [[<- <-]|[Hne Hj']].
      * split; [done|]. split; [by rewrite lookup_insert_eq|]. intros j' Hj'. apply lookup_insert_Some in Hj' as [[? _]|[_ Hj']]; [done|]. by apply Hg in Hj'.
      * destruct (Ho _ _ Hj') as (Hn' & _ & Hu). split; [done|]. split; [by rewrite lookup_insert_ne|]. intros j2 Hj2.
        apply lookup_insert_Some in Hj2 as [[-> <-]|[_ Hj2]]; [|by apply Hu]. exfalso. by apply (Hg j').
  - unfold RemoveJob. destruct (m_jobs m !! j) as [g|] eqn:Ej; [|by exists k]. exists (k ∖ {[g]}). cbn [kernel_map m_jobs]. rewrite Hk. split; [done|]. split.
    + intros g'. rewrite elem_of_difference, elem_of_singleton, Hin. split.
      * intros [[j' Hj'] Hne]. exists j'. rewrite lookup_delete_ne; [done|]. intros ->. congruence.
      * intros [j' Hj']. apply lookup_delete_Some in Hj' as [Hne Hj']. split; [eauto|]. intros ->. destruct (Ho _ _ Ej) as (_ & _ & Hu). by apply Hne; symmetry; apply Hu.
    + intros j' g' Hj'. apply lookup_delete_Some in Hj' as [Hne Hj']. destruct (Ho _ _ Hj') as (Hn & _ & Hu). split; [done|]. split; [by rewrite lookup_delete_ne|].
      intros j2 Hj2. apply lookup_delete_Some in Hj2 as [_ Hj2]. by apply Hu.
Qed.
(** However jobs are added and removed, each at most once, what the kernel program records is of a job,
    and of one only. *)
Theorem monitored_groups_of_jobs l k : fresh_changes {| kernel_map := Some ∅; m_jobs := ∅ |} l →
  kernel_map (foldl change_monitor {| kernel_map := Some ∅; m_jobs := ∅ |} l) = Some k →
  ∀ g, g ∈ k ↔ ∃ j, owns (m_jobs (foldl change_monitor {| kernel_map := Some ∅; m_jobs := ∅ |} l)) j g.
Proof.
  set (m0 := {| kernel_map := Some ∅; m_jobs := ∅ |}). assert (H0 : monitor_ok m0) by (exists ∅; split; [done|]; split; [intros g; split; [set_solver|by intros (j & ?)]|done]).
  clearbody m0. intros Hf Hk. assert (Hok : monitor_ok (foldl change_monitor m0 l)).
  { clear Hk. revert m0 H0 Hf. induction l as [|c l IH]; intros m0 H0 Hf; [done|]. destruct Hf as [Hc Hf]. cbn [foldl]. by apply IH; [apply change_ok|]. }
  destruct Hok as (k' & Hk' & Hin & Ho). assert (k' = k) as -> by congruence. intros g. rewrite Hin. split; intros [j Hj]; exists j; [by apply Ho|by destruct Hj as (_ & ? & _)].
Qed.

(** ** Instances *)

#[local] Instance no_ipv6 : IPv6Text := {| IPNet.stringIPv6 := λ a, "ipv6"%string; IPNet.parseIPv6 := λ s, None; IPNet.parseIPv6_length := λ s a E, match E with end |}.
#[local] Instance list_order : JobsOrder := {| jobs_range := map_to_list; jobs_range_perm := λ m, reflexivity _ |}.
Definition two_jobs : gmap string Z := <["j1"%string := 7001]> {["j2"%string := 7002]}.
(** What was in the memory before: the number of the byte. *)
Definition counting (i : nat) : Z := Z.of_nat i.
Definition a_connect : occurrence := {| o_time := 5; o_cgroup := 7001; o_pid := 42; o_deed := Connects (Inet 443 [10; 0; 0; 9]) |}.
Definition an_exec : occurrence := {| o_time := 5; o_cgroup := 7002; o_pid := 43; o_deed := Execs 1 65534 (replicate 16 0) [47; 98; 105; 110; 47; 115; 104] |}.

Lemma owns_j1 : owns two_jobs "j1" 7001.
Proof.
  split; [done|]. split; [vm_compute; reflexivity|]. intros j Hj. unfold two_jobs in Hj. apply lookup_insert_Some in Hj as [[<- _]|[_ Hj]]; [done|].
  apply lookup_singleton_Some in Hj as [_ Hj]. discriminate Hj.
Defined.
Example exec_emitted : (kernel_record {[7001; 7002]} counting an_exec ≫= λ x, emission two_jobs x.1 x.2) =
  Some ("j2"%string, DExec {| ex_PID := 43; ex_PPID := 1; ex_Binary := "/bin/sh"; ex_Args := []; ex_ExitCode := 0 |}).
Proof. vm_compute. reflexivity. Qed.

(** A message of 300 bytes to 10.0.0.9.  The compiler puts four bytes before the length, which the decoder does not
    skip: it reports another length, and as the address the upper half of the length. *)
Definition a_send : occurrence := {| o_time := 5; o_cgroup := 7001; o_pid := 42; o_deed := Sends 300 (Some (Inet 443 [10; 0; 0; 9])) |}.
Example sent_message_misread : (kernel_record {[7001]} (λ _, 0) a_send ≫= λ x, emission two_jobs x.1 x.2) =
  Some ("j1"%string, DSocketData {| so_PID := 42; so_Direction := "send"; so_Address := "0.0.0.0"; so_Port := 443; so_Protocol := "tcp"; so_Bytes := 300 * 2 ^ 32 |}).
Proof. vm_compute. reflexivity. Qed.
(** The address of an accepted connection is what was in the memory before. *)
Example accepted_address_stale : (kernel_record {[7001]} counting {| o_time := 5; o_cgroup := 7001; o_pid := 42; o_deed := Accepts |} ≫= λ x, emission two_jobs x.1 x.2) =
  Some ("j1"%string, DAccept {| ac_PID := 42; ac_RemoteAddr := "28.29.30.31"; ac_RemotePort := 0; ac_LocalPort := 0; ac_Protocol := "tcp" |}).
Proof. vm_compute. reflexivity. Qed.
