(* ===== verification/Wire.v ===== *)
(** * Telemetry on its way to the persist service and back
    (internal/proto/ipc.proto, internal/joblet/ipc/persister.go,
     persist/internal/server/grpc.go, internal/joblet/server/job_service.go)

    The messages that carry metrics and kernel events, the conversions into them, out
    of them, and into what a client of the job service sees: directly from the
    collector, or from the persist service.  The two views are compared. *)

From Stdlib Require Import SpecFloat.
From S2P Require Import Prelude GoNumbers Telemetry.

Local Open Scope Z_scope.

(** ** Internal messages *)

(** [src/internal/proto/ipc.proto:68-73 DiskIO] *)
Record DiskIO := { d_ReadBytes : Z; d_WriteBytes : Z; d_ReadOps : Z; d_WriteOps : Z }.
(** [src/internal/proto/ipc.proto:76-81 NetworkIO] *)
Record NetworkIO := { n_RxBytes : Z; n_TxBytes : Z; n_RxPackets : Z; n_TxPackets : Z }.
(** [src/internal/proto/ipc.proto:59-65 MetricData] *)
Record MetricData := {
  md_CpuUsage : float64; md_MemoryUsage : Z; md_GpuUsage : float64;
  md_DiskIo : option DiskIO; md_NetworkIo : option NetworkIO;
}.
(** [src/internal/proto/ipc.proto:51-56 Metric] *)
Record Metric := { me_JobUuid : string; me_Timestamp : Z; me_Sequence : Z; me_Data : option MetricData }.

(** The fields every event message starts with. *)
Record head := { h_JobUuid : string; h_Timestamp : Z; h_Sequence : Z; h_Pid : Z; h_Comm : string }.

(** [src/internal/proto/ipc.proto:84-95 ExecEvent] *)
Record ExecEvent := {
  xe_head : head; xe_Ppid : Z; xe_Uid : Z; xe_Gid : Z; xe_Filename : string; xe_Args : list string;
}.
(** [src/internal/proto/ipc.proto:98-109 ConnectEvent] *)
Record ConnectEvent := {
  ce_head : head; ce_SrcAddr : string; ce_SrcPort : Z; ce_DstAddr : string; ce_DstPort : Z; ce_Protocol : string;
}.
(** [src/internal/proto/ipc.proto:112-123 AcceptEvent] *)
Record AcceptEvent := {
  ae_head : head; ae_SrcAddr : string; ae_SrcPort : Z; ae_DstAddr : string; ae_DstPort : Z; ae_Protocol : string;
}.
(** [src/internal/proto/ipc.proto:126-137 SocketDataEvent] *)
Record SocketDataEvent := {
  se_head : head; se_Direction : string; se_Addr : string; se_Port : Z; se_Protocol : string; se_Bytes : Z;
}.
(** [src/internal/proto/ipc.proto:140-151 MmapEvent] *)
Record MmapEvent := { ve_head : head; ve_Addr : Z; ve_Length : Z; ve_Prot : Z; ve_Flags : Z; ve_Filename : string }.
(** [src/internal/proto/ipc.proto:154-163 MprotectEvent] *)
Record MprotectEvent := { pe_head : head; pe_Addr : Z; pe_Length : Z; pe_Prot : Z }.
(** [src/internal/proto/ipc.proto:166-175 FileEvent] *)
Record FileEvent := { fe_head : head; fe_Path : string; fe_Operation : string; fe_Bytes : Z }.

(** ** Towards the persist service *)

Section persister.
(** Whether a writer is configured; without one nothing is sent. *)
Variable writer : bool.

Definition send {A} (m : A) : option A := if writer then Some m else None.

(** Fields that the conversions do not set are empty. *)
Definition event_head (jobID : string) (timestamp sequence pid : Z) : head :=
  {| h_JobUuid := jobID; h_Timestamp := timestamp; h_Sequence := sequence; h_Pid := pid; h_Comm := "" |}.

(** [src/internal/joblet/ipc/persister.go Persister.PersistExecEvent] *)
Definition PersistExecEvent (jobID : string) (timestamp sequence : Z) (d : ExecData) : option ExecEvent := send {|
  xe_head := event_head jobID timestamp sequence (ex_PID d); xe_Ppid := ex_PPID d; xe_Uid := 0; xe_Gid := 0;
  xe_Filename := ex_Binary d; xe_Args := ex_Args d |}.
(** [src/internal/joblet/ipc/persister.go Persister.PersistConnectEvent] *)
Definition PersistConnectEvent (jobID : string) (timestamp sequence : Z) (d : ConnectData) : option ConnectEvent := send {|
  ce_head := event_head jobID timestamp sequence (co_PID d); ce_DstAddr := co_Address d; ce_DstPort := co_Port d;
  ce_Protocol := co_Protocol d; ce_SrcAddr := co_LocalAddress d; ce_SrcPort := co_LocalPort d |}.
(** [src/internal/joblet/ipc/persister.go Persister.PersistMetrics] *)
Definition PersistMetrics (jobID : string) (timestamp sequence : Z) (d : MetricsData) : option Metric := send {|
  me_JobUuid := jobID; me_Timestamp := timestamp; me_Sequence := sequence;
  me_Data := Some {| md_CpuUsage := CPUPercent d; md_MemoryUsage := MemoryBytes d; md_GpuUsage := GPUPercent d;
    md_DiskIo := Some {| d_ReadBytes := DiskReadBytes d; d_WriteBytes := DiskWriteBytes d; d_ReadOps := 0; d_WriteOps := 0 |};
    md_NetworkIo := Some {| n_RxBytes := NetRecvBytes d; n_TxBytes := NetSentBytes d; n_RxPackets := 0; n_TxPackets := 0 |} |} |}.
(** [src/internal/joblet/ipc/persister.go Persister.PersistAcceptEvent] *)
Definition PersistAcceptEvent (jobID : string) (timestamp sequence : Z) (d : AcceptData) : option AcceptEvent := send {|
  ae_head := event_head jobID timestamp sequence (ac_PID d); ae_SrcAddr := ac_RemoteAddr d; ae_SrcPort := ac_RemotePort d;
  ae_DstAddr := ""; ae_DstPort := ac_LocalPort d; ae_Protocol := ac_Protocol d |}.
(** [src/internal/joblet/ipc/persister.go Persister.PersistSocketDataEvent] *)
Definition PersistSocketDataEvent (jobID : string) (timestamp sequence : Z) (d : SocketDataData) : option SocketDataEvent := send {|
  se_head := event_head jobID timestamp sequence (so_PID d); se_Direction := so_Direction d; se_Addr := so_Address d;
  se_Port := so_Port d; se_Protocol := so_Protocol d; se_Bytes := so_Bytes d |}.
(** [src/internal/joblet/ipc/persister.go Persister.PersistMmapEvent] *)
Definition PersistMmapEvent (jobID : string) (timestamp sequence : Z) (d : MmapData) : option MmapEvent := send {|
  ve_head := event_head jobID timestamp sequence (mm_PID d); ve_Addr := mm_Addr d; ve_Length := mm_Length d;
  ve_Prot := mm_Prot d; ve_Flags := mm_Flags d; ve_Filename := "" |}.
(** [src/internal/joblet/ipc/persister.go Persister.PersistMprotectEvent] *)
Definition PersistMprotectEvent (jobID : string) (timestamp sequence : Z) (d : MprotectData) : option MprotectEvent := send {|
  pe_head := event_head jobID timestamp sequence (mp_PID d); pe_Addr := mp_Addr d; pe_Length := mp_Length d;
  pe_Prot := mp_Prot d |}.
(** [src/internal/joblet/ipc/persister.go Persister.PersistFileEvent] *)
Definition PersistFileEvent (jobID : string) (timestamp sequence : Z) (d : FileData) : option FileEvent := send {|
  fe_head := event_head jobID timestamp sequence (fi_PID d); fe_Path := fi_Path d; fe_Operation := fi_Operation d;
  fe_Bytes := fi_Bytes d |}.
End persister.

(** ** Answers of the persist service

    The public messages have the fields of the internal ones; that of socket data
    calls the address and port those of the destination. *)

Record SocketDataAnswer := {
  sa_head : head; sa_Direction : string; sa_DstAddr : string; sa_DstPort : Z; sa_Bytes : Z; sa_Protocol : string;
}.

Definition copy_head (h : head) : head :=
  {| h_JobUuid := h_JobUuid h; h_Timestamp := h_Timestamp h; h_Sequence := h_Sequence h; h_Pid := h_Pid h; h_Comm := h_Comm h |}.

(** [src/persist/internal/server/grpc.go metricIPCToGen] *)
Definition metricIPCToGen (m : Metric) : Metric := {|
  me_JobUuid := me_JobUuid m; me_Timestamp := me_Timestamp m; me_Sequence := me_Sequence m;
  me_Data := match me_Data m with
    | None => None
    | Some d => Some {|
        md_CpuUsage := md_CpuUsage d; md_MemoryUsage := md_MemoryUsage d; md_GpuUsage := md_GpuUsage d;
        md_DiskIo := match md_DiskIo d with
          | None => None
          | Some i => Some {| d_ReadBytes := d_ReadBytes i; d_WriteBytes := d_WriteBytes i; d_ReadOps := d_ReadOps i; d_WriteOps := d_WriteOps i |}
          end;
        md_NetworkIo := match md_NetworkIo d with
          | None => None
          | Some i => Some {| n_RxBytes := n_RxBytes i; n_TxBytes := n_TxBytes i; n_RxPackets := n_RxPackets i; n_TxPackets := n_TxPackets i |}
          end |}
    end |}.
(** [src/persist/internal/server/grpc.go execEventIPCToGen] *)
Definition execEventIPCToGen (e : ExecEvent) : ExecEvent := {|
  xe_head := copy_head (xe_head e); xe_Ppid := xe_Ppid e; xe_Uid := xe_Uid e; xe_Gid := xe_Gid e;
  xe_Filename := xe_Filename e; xe_Args := xe_Args e |}.
(** [src/persist/internal/server/grpc.go connectEventIPCToGen] *)
Definition connectEventIPCToGen (e : ConnectEvent) : ConnectEvent := {|
  ce_head := copy_head (ce_head e); ce_SrcAddr := ce_SrcAddr e; ce_SrcPort := ce_SrcPort e; ce_DstAddr := ce_DstAddr e;
  ce_DstPort := ce_DstPort e; ce_Protocol := ce_Protocol e |}.
(** [src/persist/internal/server/grpc.go mmapEventIPCToGen] *)
Definition mmapEventIPCToGen (e : MmapEvent) : MmapEvent := {|
  ve_head := copy_head (ve_head e); ve_Addr := ve_Addr e; ve_Length := ve_Length e; ve_Prot := ve_Prot e;
  ve_Flags := ve_Flags e; ve_Filename := ve_Filename e |}.
(** [src/persist/internal/server/grpc.go mprotectEventIPCToGen] *)
Definition mprotectEventIPCToGen (e : MprotectEvent) : MprotectEvent := {|
  pe_head := copy_head (pe_head e); pe_Addr := pe_Addr e; pe_Length := pe_Length e; pe_Prot := pe_Prot e |}.
(** [src/persist/internal/server/grpc.go fileEventIPCToGen] *)
Definition fileEventIPCToGen (e : FileEvent) : FileEvent := {|
  fe_head := copy_head (fe_head e); fe_Path := fe_Path e; fe_Operation := fe_Operation e; fe_Bytes := fe_Bytes e |}.
(** [src/persist/internal/server/grpc.go acceptEventIPCToGen] *)
Definition acceptEventIPCToGen (e : AcceptEvent) : AcceptEvent := {|
  ae_head := copy_head (ae_head e); ae_SrcAddr := ae_SrcAddr e; ae_SrcPort := ae_SrcPort e; ae_DstAddr := ae_DstAddr e;
  ae_DstPort := ae_DstPort e; ae_Protocol := ae_Protocol e |}.
(** [src/persist/internal/server/grpc.go socketDataEventIPCToGen] *)
Definition socketDataEventIPCToGen (e : SocketDataEvent) : SocketDataAnswer := {|
  sa_head := copy_head (se_head e); sa_Direction := se_Direction e; sa_DstAddr := se_Addr e; sa_DstPort := se_Port e;
  sa_Bytes := se_Bytes e; sa_Protocol := se_Protocol e |}.

(** ** What clients of the job service see

    The public messages of the job service, by the fields the code sets. *)

Record JobMetricsEvent := {
  jm_Timestamp : Z; jm_JobUuid : string;
  jm_CpuPercent : float64; jm_MemoryBytes : Z; jm_MemoryLimit : Z;
  jm_DiskReadBytes : Z; jm_DiskWriteBytes : Z; jm_NetRecvBytes : Z; jm_NetSentBytes : Z;
  jm_GpuPercent : float64; jm_GpuMemoryBytes : Z;
}.

Inductive TelematicsData :=
| TExec (Pid Ppid : Z) (Binary : string) (Args : list string) (ExitCode : Z)
| TConnect (Pid : Z) (DstAddr : string) (DstPort : Z) (Protocol : string) (SrcAddr : string) (SrcPort : Z)
| TAccept (Pid : Z) (SrcAddr : string) (SrcPort : Z) (DstAddr : string) (DstPort : Z) (Protocol : string)
| TFile (Pid : Z) (Path Operation : string) (Bytes : Z)
| TMmap (Pid Addr Length Prot Flags : Z)
| TMprotect (Pid Addr Length Prot : Z)
| TSocketData (Pid : Z) (Direction DstAddr : string) (DstPort : Z) (Protocol : string) (Bytes : Z).

Record TelematicsEvent := { te_Timestamp : Z; te_JobUuid : string; te_Type : string; te_Data : TelematicsData }.

#[export] Instance JobMetricsEvent_eq_dec : EqDecision JobMetricsEvent.
Proof. solve_decision. Defined.
#[export] Instance TelematicsData_eq_dec : EqDecision TelematicsData.
Proof. solve_decision. Defined.
#[export] Instance TelematicsEvent_eq_dec : EqDecision TelematicsEvent.
Proof. solve_decision. Defined.

(** *** From the collector *)

(** [None] is nil.
    [src/internal/joblet/server/job_service.go JobServiceServer.telemetryEventToMetricsEvent] *)
Definition telemetryEventToMetricsEvent (e : Event) : option JobMetricsEvent :=
  if negb (String.eqb (Type_ e) EventTypeMetrics) then None else
  match Data e with
  | DMetrics d => Some {|
      jm_Timestamp := Timestamp e; jm_JobUuid := JobUUID e; jm_CpuPercent := CPUPercent d;
      jm_MemoryBytes := MemoryBytes d; jm_MemoryLimit := MemoryLimit d; jm_DiskReadBytes := DiskReadBytes d;
      jm_DiskWriteBytes := DiskWriteBytes d; jm_NetRecvBytes := NetRecvBytes d; jm_NetSentBytes := NetSentBytes d;
      jm_GpuPercent := GPUPercent d; jm_GpuMemoryBytes := GPUMemoryBytes d |}
  | _ => None
  end.

(** The data of the message: the switch on the type, and the assertion on the
    value it carries.
    [src/internal/joblet/server/job_service.go:1525-1626 JobServiceServer.telemetryEventToTelematicsEvent] *)
Definition telematics_data (type : EventType) (data : EventData) : option TelematicsData :=
  if String.eqb type EventTypeExec then
    match data with DExec d => Some (TExec (ex_PID d) (ex_PPID d) (ex_Binary d) (ex_Args d) (ex_ExitCode d)) | _ => None end
  else if String.eqb type EventTypeConnect then
    match data with DConnect d => Some (TConnect (co_PID d) (co_Address d) (co_Port d) (co_Protocol d) (co_LocalAddress d) (co_LocalPort d)) | _ => None end
  else if String.eqb type EventTypeAccept then
    match data with DAccept d => Some (TAccept (ac_PID d) (ac_RemoteAddr d) (ac_RemotePort d) "" (ac_LocalPort d) (ac_Protocol d)) | _ => None end
  else if String.eqb type EventTypeFile then
    match data with DFile d => Some (TFile (fi_PID d) (fi_Path d) (fi_Operation d) (fi_Bytes d)) | _ => None end
  else if String.eqb type EventTypeMmap then
    match data with DMmap d => Some (TMmap (mm_PID d) (mm_Addr d) (mm_Length d) (mm_Prot d) (mm_Flags d)) | _ => None end
  else if String.eqb type EventTypeMprotect then
    match data with DMprotect d => Some (TMprotect (mp_PID d) (mp_Addr d) (mp_Length d) (mp_Prot d)) | _ => None end
  else if String.eqb type EventTypeSocketData then
    match data with DSocketData d => Some (TSocketData (so_PID d) (so_Direction d) (so_Address d) (so_Port d) (so_Protocol d) (so_Bytes d)) | _ => None end
  else None.

(** [src/internal/joblet/server/job_service.go JobServiceServer.telemetryEventToTelematicsEvent] *)
Definition telemetryEventToTelematicsEvent (e : Event) : option TelematicsEvent :=
  match telematics_data (Type_ e) (Data e) with
  | Some d => Some {| te_Timestamp := Timestamp e; te_JobUuid := JobUUID e; te_Type := Type_ e; te_Data := d |}
  | None => None
  end.

(** *** From the persist service *)

(** A message without data is dereferenced all the same: [None] is that panic.
    [src/internal/joblet/server/job_service.go:957-967 JobServiceServer.queryPersistMetrics] *)
Definition metric_answer (m : Metric) : option JobMetricsEvent :=
  match me_Data m with
  | None => None
  | Some d => Some {|
      jm_Timestamp := me_Timestamp m; jm_JobUuid := me_JobUuid m;
      jm_CpuPercent := mul64 (md_CpuUsage d) (float_of_Z 100);
      jm_MemoryBytes := md_MemoryUsage d; jm_MemoryLimit := 0;
      jm_DiskReadBytes := match md_DiskIo d with Some i => d_ReadBytes i | None => 0 end;
      jm_DiskWriteBytes := match md_DiskIo d with Some i => d_WriteBytes i | None => 0 end;
      jm_NetRecvBytes := match md_NetworkIo d with Some i => n_RxBytes i | None => 0 end;
      jm_NetSentBytes := match md_NetworkIo d with Some i => n_TxBytes i | None => 0 end;
      jm_GpuPercent := mul64 (md_GpuUsage d) (float_of_Z 100); jm_GpuMemoryBytes := 0 |}
  end.

Definition answer (h : head) (type : string) (d : TelematicsData) : TelematicsEvent :=
  {| te_Timestamp := h_Timestamp h; te_JobUuid := h_JobUuid h; te_Type := type; te_Data := d |}.

(** [src/internal/joblet/server/job_service.go:1157-1169 JobServiceServer.queryPersistTelematics] *)
Definition exec_answer (e : ExecEvent) : TelematicsEvent :=
  answer (xe_head e) "exec" (TExec (h_Pid (xe_head e)) (xe_Ppid e) (xe_Filename e) (xe_Args e) 0).
(** [src/internal/joblet/server/job_service.go:1192-1206 JobServiceServer.queryPersistTelematics] *)
Definition connect_answer (e : ConnectEvent) : TelematicsEvent :=
  answer (ce_head e) "connect" (TConnect (h_Pid (ce_head e)) (ce_DstAddr e) (ce_DstPort e) (ce_Protocol e) (ce_SrcAddr e) (ce_SrcPort e)).
(** [src/internal/joblet/server/job_service.go:1229-1241 JobServiceServer.queryPersistTelematics] *)
Definition mmap_answer (e : MmapEvent) : TelematicsEvent :=
  answer (ve_head e) "mmap" (TMmap (h_Pid (ve_head e)) (ve_Addr e) (ve_Length e) (ve_Prot e) 0).
(** [src/internal/joblet/server/job_service.go:1264-1276 JobServiceServer.queryPersistTelematics] *)
Definition mprotect_answer (e : MprotectEvent) : TelematicsEvent :=
  answer (pe_head e) "mprotect" (TMprotect (h_Pid (pe_head e)) (pe_Addr e) (pe_Length e) (pe_Prot e)).
(** [src/internal/joblet/server/job_service.go:1299-1311 JobServiceServer.queryPersistTelematics] *)
Definition file_answer (e : FileEvent) : TelematicsEvent :=
  answer (fe_head e) "file" (TFile (h_Pid (fe_head e)) (fe_Path e) (fe_Operation e) (fe_Bytes e)).
(** [src/internal/joblet/server/job_service.go:1334-1348 JobServiceServer.queryPersistTelematics] *)
Definition accept_answer (e : AcceptEvent) : TelematicsEvent :=
  answer (ae_head e) "accept" (TAccept (h_Pid (ae_head e)) (ae_SrcAddr e) (ae_SrcPort e) (ae_DstAddr e) (ae_DstPort e) (ae_Protocol e)).
(** [src/internal/joblet/server/job_service.go:1371-1384 JobServiceServer.queryPersistTelematics] *)
Definition socket_answer (e : SocketDataAnswer) : TelematicsEvent :=
  answer (sa_head e) "socket_data" (TSocketData (h_Pid (sa_head e)) (sa_Direction e) (sa_DstAddr e) (sa_DstPort e) "" (sa_Bytes e)).

(** ** The two views of an event *)

(** An event emitted by a convenience method of the collector, made a message for the persist
    service with the sequence number [seq], and shown as it comes back from a query that
    returns the message unchanged.  What the stores make of it is not here: the encoders are in
    [PersistStore], [S3Store] and [CloudWatch]. *)
Definition through_persist (seq : Z) (e : Event) : option TelematicsEvent :=
  let via {M} (m : option M) (show : M → TelematicsEvent) := show <$> m in
  match Data e with
  | DMetrics _ => None
  | DExec d => via (PersistExecEvent true (JobUUID e) (Timestamp e) seq d) (λ m, exec_answer (execEventIPCToGen m))
  | DConnect d => via (PersistConnectEvent true (JobUUID e) (Timestamp e) seq d) (λ m, connect_answer (connectEventIPCToGen m))
  | DFile d => via (PersistFileEvent true (JobUUID e) (Timestamp e) seq d) (λ m, file_answer (fileEventIPCToGen m))
  | DAccept d => via (PersistAcceptEvent true (JobUUID e) (Timestamp e) seq d) (λ m, accept_answer (acceptEventIPCToGen m))
  | DSocketData d => via (PersistSocketDataEvent true (JobUUID e) (Timestamp e) seq d) (λ m, socket_answer (socketDataEventIPCToGen m))
  | DMmap d => via (PersistMmapEvent true (JobUUID e) (Timestamp e) seq d) (λ m, mmap_answer (mmapEventIPCToGen m))
  | DMprotect d => via (PersistMprotectEvent true (JobUUID e) (Timestamp e) seq d) (λ m, mprotect_answer (mprotectEventIPCToGen m))
  end.

(** What the way through the persist service loses of an event. *)
Definition forget (d : TelematicsData) : TelematicsData :=
  match d with
  | TExec p pp b a _ => TExec p pp b a 0
  | TMmap p a l pr _ => TMmap p a l pr 0
  | TSocketData p dir addr port _ n => TSocketData p dir addr port "" n
  | d => d
  end.

Definition forget_event (e : TelematicsEvent) : TelematicsEvent :=
  {| te_Timestamp := te_Timestamp e; te_JobUuid := te_JobUuid e; te_Type := te_Type e; te_Data := forget (te_Data e) |}.

(** The events the convenience methods make. *)
Definition well_typed (e : Event) : Prop :=
  match Data e with
  | DMetrics _ => Type_ e = EventTypeMetrics | DExec _ => Type_ e = EventTypeExec
  | DConnect _ => Type_ e = EventTypeConnect | DFile _ => Type_ e = EventTypeFile
  | DAccept _ => Type_ e = EventTypeAccept | DSocketData _ => Type_ e = EventTypeSocketData
  | DMmap _ => Type_ e = EventTypeMmap | DMprotect _ => Type_ e = EventTypeMprotect
  end.

(** The two conversions of a kernel event, directly to an answer for a live stream, and
    to the message for the persist service and from what that service sends back to an
    answer for a history, agree, except that the answer of the history has no exit code of a
    process, no flags of a mapping and no protocol of socket traffic, although the message
    to persist carries the latter two. Stores that return the message as it was handed in
    are assumed between the two: their own encoders are not part of this. *)
Theorem history_agrees seq e : well_typed e → Type_ e ≠ EventTypeMetrics →
  through_persist seq e = forget_event <$> telemetryEventToTelematicsEvent e ∧
  is_Some (telemetryEventToTelematicsEvent e).
Proof.
  destruct e as [t j ty d]. unfold well_typed. simpl. destruct d; intros -> Hm; try done; split; try done; by eexists.
Qed.

(** What a client is shown of a metrics event from the history. *)
Definition metrics_through_persist (seq : Z) (jobID : string) (now : Z) (d : MetricsData) : option JobMetricsEvent :=
  m ← PersistMetrics true jobID now seq d; metric_answer (metricIPCToGen m).

(** The history shows the metrics of a job with both percentages multiplied by a
    hundred, where the live view shows them as they were measured, and without the
    memory limit and the memory of the GPU: the sampler emits percentages, the message
    declares fractions, and only the reading side converts. *)
Theorem metrics_history_scaled seq jobID now d : ∃ live hist,
  telemetryEventToMetricsEvent (NewMetricsEvent now jobID d) = Some live ∧
  metrics_through_persist seq jobID now d = Some hist ∧
  hist = {| jm_Timestamp := jm_Timestamp live; jm_JobUuid := jm_JobUuid live;
    jm_CpuPercent := mul64 (jm_CpuPercent live) (float_of_Z 100);
    jm_MemoryBytes := jm_MemoryBytes live; jm_MemoryLimit := 0;
    jm_DiskReadBytes := jm_DiskReadBytes live; jm_DiskWriteBytes := jm_DiskWriteBytes live;
    jm_NetRecvBytes := jm_NetRecvBytes live; jm_NetSentBytes := jm_NetSentBytes live;
    jm_GpuPercent := mul64 (jm_GpuPercent live) (float_of_Z 100); jm_GpuMemoryBytes := 0 |}.
Proof. eexists _, _. split; [reflexivity|]. split; [reflexivity|]. reflexivity. Qed.

Lemma history_agrees_witness :
  through_persist 3 (sample_event 5) = forget_event <$> telemetryEventToTelematicsEvent (sample_event 5).
Proof. apply (history_agrees 3 (sample_event 5)); by vm_compute. Defined.

(** A job that uses half a processor is shown at 50 percent live, and at 5000 percent
    in the history. *)
Example half_a_processor : let d := {| CPUPercent := float_of_Z 50; MemoryBytes := 1; MemoryLimit := 2;
    DiskReadBytes := 0; DiskWriteBytes := 0; NetRecvBytes := 0; NetSentBytes := 0; GPUPercent := float_of_Z 0; GPUMemoryBytes := 0 |} in
  jm_CpuPercent <$> telemetryEventToMetricsEvent (NewMetricsEvent 0 "job" d) = Some (float_of_Z 50) ∧
  jm_CpuPercent <$> metrics_through_persist 1 "job" 0 d = Some (float_of_Z 5000).
Proof. split; vm_compute; reflexivity. Qed.
