(* ===== verification/Errors.v ===== *)
(** * Errors and their status codes (pkg/errors/errors.go,
      internal/joblet/server/error_mapping.go)

    Errors as the trees that wrapping makes, the chain that [errors.Is] and
    [errors.As] follow, the classification functions, and the status code that a
    client of the job service sees. *)

From S2P Require Import Prelude.

(** ** Errors *)

(** The structured errors, by what they are about.
    [src/pkg/errors/errors.go:51-55 JobError] *)
Inductive subject := SJob | SRuntime | SNetwork | SVolume | SFilesystem | SConfig.

(** A sentinel is one value, known by its text, which no other sentinel of the
    package has.  [EText] is an error that wraps nothing, and that equals no sentinel;
    [EFormat] is [fmt.Errorf] with one [%w], by its full text; [EMulti] is
    [multiError]; [EStatus] is an error of the gRPC library. *)
Inductive error :=
| ESentinel (text : string)
| EText (text : string)
| EFormat (text : string) (e : error)
| ESubject (s : subject) (key op : string) (e : error)
| EMulti (es : list error)
| EStatus (code : Z) (text : string).

(** [src/pkg/errors/errors.go:13-50 ErrJobNotFound] *)
Definition ErrJobNotFound : error := ESentinel "job not found".
Definition ErrJobAlreadyExists : error := ESentinel "job already exists".
Definition ErrJobNotRunning : error := ESentinel "job is not running".
Definition ErrJobAlreadyRunning : error := ESentinel "job is already running".
Definition ErrInvalidJobSpec : error := ESentinel "invalid job specification".
Definition ErrJobTimeout : error := ESentinel "job execution timeout".
Definition ErrResourceExhausted : error := ESentinel "resource exhausted".
Definition ErrInvalidResourceSpec : error := ESentinel "invalid resource specification".
Definition ErrResourceNotAvailable : error := ESentinel "resource not available".
Definition ErrInvalidRuntime : error := ESentinel "invalid runtime specification".
Definition ErrRuntimeNotFound : error := ESentinel "runtime not found".
Definition ErrRuntimeFailed : error := ESentinel "runtime operation failed".
Definition ErrNetworkNotFound : error := ESentinel "network not found".
Definition ErrNetworkConflict : error := ESentinel "network conflict".
Definition ErrNetworkFailed : error := ESentinel "network operation failed".
Definition ErrVolumeNotFound : error := ESentinel "volume not found".
Definition ErrVolumeInUse : error := ESentinel "volume is in use".
Definition ErrVolumeFailed : error := ESentinel "volume operation failed".
Definition ErrPermissionDenied : error := ESentinel "permission denied".
Definition ErrTimeout : error := ESentinel "operation timed out".
Definition ErrInvalidConfig : error := ESentinel "invalid configuration".
Definition ErrUnsupportedPlatform : error := ESentinel "unsupported platform".
Definition ErrFilesystemFailed : error := ESentinel "filesystem operation failed".
(** Of the context package. *)
Definition Canceled : error := ESentinel "context canceled".
Definition DeadlineExceeded : error := ESentinel "context deadline exceeded".

(** The induction principle that sees through the lists of [EMulti]. *)
Section error_ind.
Variable P : error → Prop.
Hypothesis HSent : ∀ t, P (ESentinel t).
Hypothesis HText : ∀ t, P (EText t).
Hypothesis HFmt : ∀ t e, P e → P (EFormat t e).
Hypothesis HSubj : ∀ s k o e, P e → P (ESubject s k o e).
Hypothesis HMulti : ∀ es, Forall P es → P (EMulti es).
Hypothesis HStat : ∀ c t, P (EStatus c t).

Fixpoint error_tree_ind (e : error) : P e :=
  match e with
  | ESentinel t => HSent t
  | EText t => HText t
  | EFormat t e => HFmt t e (error_tree_ind e)
  | ESubject s k o e => HSubj s k o e (error_tree_ind e)
  | EMulti es => HMulti es ((fix go es : Forall P es :=
      match es with [] => Forall_nil_2 P | e :: es => Forall_cons_2 P e es (error_tree_ind e) (go es) end) es)
  | EStatus c t => HStat c t
  end.
End error_ind.

(** ** Texts *)

Local Open Scope string_scope.

(** The text before the wrapped error.
    [src/pkg/errors/errors.go:59-136 JobError] *)
Definition subject_text (s : subject) (key op : string) : string :=
  match s with
  | SJob => "job " +:+ key +:+ ": operation " +:+ op +:+ ": "
  | SRuntime => "runtime " +:+ key +:+ ": operation " +:+ op +:+ ": "
  | SNetwork => "network " +:+ key +:+ ": operation " +:+ op +:+ ": "
  | SVolume => "volume " +:+ key +:+ ": operation " +:+ op +:+ ": "
  | SFilesystem => "filesystem " +:+ key +:+ ": operation " +:+ op +:+ ": "
  | SConfig => if String.eqb op "" then "config " +:+ key +:+ ": " else "config " +:+ key +:+ "." +:+ op +:+ ": "
  end.

(** The loop of [multiError.Error]. *)
Definition join_texts (l : list string) : string :=
  match l with [] => "" | t :: l => foldl (λ msg t, msg +:+ "; " +:+ t) t l end.

(** [src/pkg/errors/errors.go multiError.Error] *)
Fixpoint Error (e : error) : string :=
  match e with
  | ESentinel t | EText t | EFormat t _ | EStatus _ t => t
  | ESubject s key op e => subject_text s key op +:+ Error e
  | EMulti es => join_texts (List.map Error es)
  end.

Local Close Scope string_scope.

(** ** The chain *)

Definition same_sentinel (e target : error) : bool :=
  match e, target with ESentinel a, ESentinel b => String.eqb a b | _, _ => false end.

(** [errors.Is] for a sentinel: the error, or one it wraps, is the target.  The
    method of [multiError] and its [Unwrap] both look into its errors.
    [src/pkg/errors/errors.go multiError.Is] *)
Fixpoint Is (e target : error) : bool :=
  same_sentinel e target ||
  match e with
  | EFormat _ e | ESubject _ _ _ e => Is e target
  | EMulti es => existsb (λ e, Is e target) es
  | _ => false
  end.

(** [errors.As] for a structured error: the first in the order of the chain, by its
    key.
    [src/pkg/errors/errors.go multiError.As] *)
Fixpoint As (s : subject) (e : error) : option string :=
  match e with
  | ESubject s' key _ e' =>
      match s, s' with
      | SJob, SJob | SRuntime, SRuntime | SNetwork, SNetwork | SVolume, SVolume
      | SFilesystem, SFilesystem | SConfig, SConfig => Some key
      | _, _ => As s e'
      end
  | EFormat _ e' => As s e'
  | EMulti es => (fix first es := match es with [] => None | e :: es => match As s e with Some k => Some k | None => first es end end) es
  | _ => None
  end.

(** ** Construction: [None] is the nil error *)

Definition wrap_subject (s : subject) (key op : string) (err : option error) : option error :=
  match err with None => None | Some e => Some (ESubject s key op e) end.

(** [src/pkg/errors/errors.go WrapJobError] *)
Definition WrapJobError := wrap_subject SJob.
(** [src/pkg/errors/errors.go WrapRuntimeError] *)
Definition WrapRuntimeError := wrap_subject SRuntime.
(** [src/pkg/errors/errors.go WrapNetworkError] *)
Definition WrapNetworkError := wrap_subject SNetwork.
(** [src/pkg/errors/errors.go WrapVolumeError] *)
Definition WrapVolumeError := wrap_subject SVolume.
(** [src/pkg/errors/errors.go WrapFilesystemError] *)
Definition WrapFilesystemError := wrap_subject SFilesystem.
(** [src/pkg/errors/errors.go WrapConfigError] *)
Definition WrapConfigError := wrap_subject SConfig.

(** [fmt.Errorf("%w: %v", w, err)]: only [w] is wrapped. *)
Definition format_wv (w err : error) : error := EFormat (Error w +:+ ": " +:+ Error err) w.

(** [src/pkg/errors/errors.go NewJobNotFoundError] *)
Definition NewJobNotFoundError (jobID : string) : option error := WrapJobError jobID "lookup" (Some ErrJobNotFound).
(** [src/pkg/errors/errors.go NewRuntimeNotFoundError] *)
Definition NewRuntimeNotFoundError (runtime : string) := WrapRuntimeError runtime "lookup" (Some ErrRuntimeNotFound).
(** [src/pkg/errors/errors.go NewNetworkNotFoundError] *)
Definition NewNetworkNotFoundError (network : string) := WrapNetworkError network "lookup" (Some ErrNetworkNotFound).
(** [src/pkg/errors/errors.go NewVolumeNotFoundError] *)
Definition NewVolumeNotFoundError (volume : string) := WrapVolumeError volume "lookup" (Some ErrVolumeNotFound).
(** [src/pkg/errors/errors.go NewFilesystemError] *)
Definition NewFilesystemError (path op : string) (err : error) := WrapFilesystemError path op (Some (format_wv ErrFilesystemFailed err)).
(** [src/pkg/errors/errors.go NewConfigError] *)
Definition NewConfigError (component field : string) (err : error) := WrapConfigError component field (Some (format_wv ErrInvalidConfig err)).

(** [src/pkg/errors/errors.go JoinErrors] *)
Definition JoinErrors (errs : list (option error)) : option error :=
  match omap id errs with
  | [] => None
  | [e] => Some e
  | es => Some (EMulti es)
  end.

(** ** Classification *)

Definition is_some_key (o : option string) : bool := match o with Some _ => true | None => false end.

(** [src/pkg/errors/errors.go IsJobError] *)
Definition IsJobError (e : error) : bool := is_some_key (As SJob e).
(** [src/pkg/errors/errors.go IsRuntimeError] *)
Definition IsRuntimeError (e : error) : bool := is_some_key (As SRuntime e).
(** [src/pkg/errors/errors.go IsNetworkError] *)
Definition IsNetworkError (e : error) : bool := is_some_key (As SNetwork e).
(** [src/pkg/errors/errors.go IsVolumeError] *)
Definition IsVolumeError (e : error) : bool := is_some_key (As SVolume e).
(** [src/pkg/errors/errors.go IsFilesystemError] *)
Definition IsFilesystemError (e : error) : bool := is_some_key (As SFilesystem e).
(** [src/pkg/errors/errors.go IsConfigError] *)
Definition IsConfigError (e : error) : bool := is_some_key (As SConfig e).
(** [src/pkg/errors/errors.go IsResourceError] *)
Definition IsResourceError (e : error) : bool :=
  Is e ErrResourceExhausted || Is e ErrInvalidResourceSpec || Is e ErrResourceNotAvailable.
(** [src/pkg/errors/errors.go IsTimeoutError] *)
Definition IsTimeoutError (e : error) : bool := Is e ErrTimeout || Is e ErrJobTimeout.
(** [src/pkg/errors/errors.go IsNotFoundError] *)
Definition IsNotFoundError (e : error) : bool :=
  Is e ErrJobNotFound || Is e ErrRuntimeNotFound || Is e ErrNetworkNotFound || Is e ErrVolumeNotFound.
(** [src/pkg/errors/errors.go IsPermissionError] *)
Definition IsPermissionError (e : error) : bool := Is e ErrPermissionDenied.
(** [src/pkg/errors/errors.go IsContextError] *)
Definition IsContextError (e : error) : bool := Is e Canceled || Is e DeadlineExceeded.
(** [src/pkg/errors/errors.go GetJobUUID] *)
Definition GetJobUUID (e : error) : option string := As SJob e.
(** [src/pkg/errors/errors.go GetRuntime] *)
Definition GetRuntime (e : error) : option string := As SRuntime e.
(** [src/pkg/errors/errors.go GetNetwork] *)
Definition GetNetwork (e : error) : option string := As SNetwork e.

(** ** Status codes *)

Inductive Code := NotFound | InvalidArgument | FailedPrecondition | Internal.

#[export] Instance Code_eq_dec : EqDecision Code.
Proof. solve_decision. Defined.

(** [src/internal/joblet/server/error_mapping.go codeForError] *)
Definition codeForError (e : error) : Code :=
  if Is e ErrJobNotFound || Is e ErrRuntimeNotFound || Is e ErrVolumeNotFound then NotFound
  else if Is e ErrInvalidJobSpec || Is e ErrInvalidResourceSpec then InvalidArgument
  else if Is e ErrJobNotRunning || Is e ErrJobAlreadyRunning || Is e ErrVolumeInUse then FailedPrecondition
  else Internal.

(** What the client gets: the error itself, when it carries a status other than
    Unknown, or a new status. *)
Inductive rpc_error := RpcAsIs (e : error) | RpcStatus (c : Code) (text : string).

(** [has_status] is [status.FromError] of the gRPC library, restricted to a code that
    is not Unknown.
    [src/internal/joblet/server/error_mapping.go statusFromError] *)
Definition statusFromError (has_status : error → bool) (err : option error) (msg : string) : option rpc_error :=
  match err with
  | None => None
  | Some e => if has_status e then Some (RpcAsIs e) else Some (RpcStatus (codeForError e) (msg +:+ ": " +:+ Error e))
  end.

(** ** Properties *)

(** The sentinels in an error: the leaves that [errors.Is] can find. *)
Fixpoint sentinels (e : error) : list string :=
  match e with
  | ESentinel t => [t]
  | EFormat _ e | ESubject _ _ _ e => sentinels e
  | EMulti es => flat_map sentinels es
  | _ => []
  end.

Lemma elem_of_flat_map {A B} (f : A → list B) l y : y ∈ flat_map f l ↔ ∃ x, x ∈ l ∧ y ∈ f x.
Proof.
  rewrite !list_elem_of_In, in_flat_map. split; intros (x & Hx & Hy); exists x; by rewrite !list_elem_of_In in *.
Qed.

Lemma Is_sentinels e t : Is e (ESentinel t) = true ↔ t ∈ sentinels e.
Proof.
  induction e as [u|u|u e IH|s k o e IH|es IH|c u] using error_tree_ind; simpl.
  - rewrite orb_false_r, String.eqb_eq, list_elem_of_singleton. naive_solver.
  - by rewrite elem_of_nil.
  - done.
  - done.
  - rewrite existsb_exists, elem_of_flat_map. setoid_rewrite <- list_elem_of_In. rewrite Forall_forall in IH. split.
    + intros (e & He & Hi). exists e. split; [done|]. by apply IH.
    + intros (e & He & Hi). exists e. split; [done|]. by apply IH.
  - by rewrite elem_of_nil.
Qed.

(** The code depends only on which sentinels an error contains. *)
Lemma code_sentinels e e' : (∀ t, t ∈ sentinels e ↔ t ∈ sentinels e') → codeForError e = codeForError e'.
Proof.
  intros H. assert (HI : ∀ t, Is e (ESentinel t) = Is e' (ESentinel t)).
  { intros t. apply eq_bool_prop_intro. rewrite !Is_true_true, !Is_sentinels. apply H. }
  unfold codeForError, ErrJobNotFound, ErrRuntimeNotFound, ErrVolumeNotFound, ErrInvalidJobSpec,
    ErrInvalidResourceSpec, ErrJobNotRunning, ErrJobAlreadyRunning, ErrVolumeInUse. by rewrite !HI.
Qed.

(** What wrapping does: contexts of one error. *)
Inductive wraps : error → error → Prop :=
| wraps_refl e : wraps e e
| wraps_format t e e' : wraps e e' → wraps e (EFormat t e')
| wraps_subject s k o e e' : wraps e e' → wraps e (ESubject s k o e').

Lemma wraps_sentinels e e' : wraps e e' → sentinels e' = sentinels e.
Proof. by induction 1. Qed.

(** However often an error is wrapped, by the wrappers of the package or by a
    formatted message, every classification by sentinel and the status code that the
    client sees stay what they were; and in a joined error a sentinel is found when it
    is in one of the errors joined. *)
Theorem classification_survives_wrapping e e' : wraps e e' →
  codeForError e' = codeForError e ∧ IsNotFoundError e' = IsNotFoundError e ∧
  IsTimeoutError e' = IsTimeoutError e ∧ IsResourceError e' = IsResourceError e ∧
  IsPermissionError e' = IsPermissionError e ∧ IsContextError e' = IsContextError e ∧
  (∀ errs t j, JoinErrors errs = Some j → Is j (ESentinel t) = true ↔ ∃ x, Some x ∈ errs ∧ Is x (ESentinel t) = true).
Proof.
  intros Hw. pose proof (wraps_sentinels _ _ Hw) as Hs.
  assert (HI : ∀ t, Is e' (ESentinel t) = Is e (ESentinel t)).
  { intros t. apply eq_bool_prop_intro. rewrite !Is_true_true, !Is_sentinels. by rewrite Hs. }
  split; [apply code_sentinels; by rewrite Hs|].
  unfold IsNotFoundError, IsTimeoutError, IsResourceError, IsPermissionError, IsContextError,
    ErrJobNotFound, ErrRuntimeNotFound, ErrNetworkNotFound, ErrVolumeNotFound, ErrTimeout, ErrJobTimeout,
    ErrResourceExhausted, ErrInvalidResourceSpec, ErrResourceNotAvailable, ErrPermissionDenied, Canceled, DeadlineExceeded.
  rewrite !HI. repeat (split; [done|]). intros errs t j Hj.
  assert (Hin : ∀ x, Some x ∈ errs ↔ x ∈ omap id errs).
  { intros x. rewrite list_elem_of_omap. split; [intros ?; by exists (Some x)|]. intros (o & Ho & E). simpl in E. by subst o. }
  setoid_rewrite Hin. unfold JoinErrors in Hj. destruct (omap id errs) as [|x [|y l]]; simplify_eq.
  - setoid_rewrite list_elem_of_singleton. naive_solver.
  - rewrite Is_sentinels. setoid_rewrite Is_sentinels. cbn [sentinels]. by rewrite elem_of_flat_map.
Qed.

Lemma classification_survives_wrapping_witness :
  codeForError (EFormat "stop failed: job not found" ErrJobNotFound) = NotFound.
Proof.
  destruct (classification_survives_wrapping ErrJobNotFound (EFormat "stop failed: job not found" ErrJobNotFound)) as [H _].
  - apply wraps_format, wraps_refl.
  - exact H.
Defined.

(** A missing network is a missing thing to [IsNotFoundError] and an internal error to
    the client. *)
Lemma missing_network_is_internal name : ∃ e, NewNetworkNotFoundError name = Some e ∧
  IsNotFoundError e = true ∧ codeForError e = Internal.
Proof. eexists. split; [reflexivity|]. split; reflexivity. Qed.
