(* ===== verification/JobService.v ===== *)
(** * The unary requests of the job service
    (internal/joblet/server/job_service.go, internal/joblet/mappers/job_mapper.go)

    Listing, status, stopping and deleting: each handler authorizes the client, calls
    the job store or the life cycle, and turns the outcome into an answer or a status
    code.  What each shows of a job is compared. *)

From S2P Require Import KeyStore.
From S2P Require Import Auth JobStore Lifecycle Errors.
From S2P Require Import Prelude GoStrings Values Paths Job.

Local Open Scope Z_scope.

Section handlers.
(** How instants and durations are printed depends on the host's time zone. *)
Context (format_time : Z → string) (duration_string : Z → string).
(** [status.FromError] of the gRPC library, for a code other than Unknown. *)
Context (has_status : error → bool).

(** ** What is shown of a job *)

(** The message of a job.
    [src/internal/joblet/mappers/job_mapper.go:18-37 JobMapper.DomainToProtobuf] *)
Record PbJob := {
  pj_Uuid : string; pj_Command : string; pj_Args : list string;
  pj_MaxCpu : Z; pj_CpuCores : string; pj_MaxMemory : Z; pj_MaxIoBps : Z;
  pj_Status : string; pj_StartTime : string; pj_EndTime : string; pj_ScheduledTime : string;
  pj_ExitCode : Z; pj_Runtime : string;
  pj_Environment : gmap string string; pj_SecretEnvironment : gmap string string;
  pj_GpuIndices : list Z; pj_GpuCount : Z; pj_GpuMemoryMb : Z; pj_NodeId : string; pj_Timeout : string;
}.

(** [src/internal/joblet/domain/job.go:450-452 Job.FormattedStartTime] *)
Definition FormattedStartTime (j : Job) : string := format_time (StartTime j).
(** [src/internal/joblet/domain/job.go:455-460 Job.FormattedEndTime] *)
Definition FormattedEndTime (j : Job) : string := match EndTime j with Some t => format_time t | None => ""%string end.
(** [src/internal/joblet/domain/job.go:473-478 Job.FormattedScheduledTime] *)
Definition FormattedScheduledTime (j : Job) : string := match ScheduledTime j with Some t => format_time t | None => ""%string end.

(** [src/internal/joblet/mappers/job_mapper.go JobMapper.DomainToProtobuf] *)
Definition DomainToProtobuf (j : Job) : PbJob := {|
  pj_Uuid := Uuid j; pj_Command := Command j; pj_Args := Args j;
  pj_MaxCpu := cpu_value (CPU (Limits j)); pj_CpuCores := core_spec (CPUCores (Limits j));
  pj_MaxMemory := Megabytes (Memory (Limits j)); pj_MaxIoBps := wrap32 (bw_bytes (IOBandwidth (Limits j)));
  pj_Status := Status j; pj_StartTime := FormattedStartTime j; pj_EndTime := FormattedEndTime j;
  pj_ScheduledTime := FormattedScheduledTime j; pj_ExitCode := ExitCode j; pj_Runtime := Runtime j;
  pj_Environment := Environment_ j; pj_SecretEnvironment := SecretEnvironment j;
  pj_GpuIndices := GPUIndices j; pj_GpuCount := GPUCount j; pj_GpuMemoryMb := wrap32 (GPUMemoryMB j);
  pj_NodeId := NodeId j; pj_Timeout := if Timeout j >? 0 then duration_string (Timeout j) else ""%string |}.

(** The answer to a status request: the message of the job, with the secrets masked,
    and the fields that message does not have.
    [src/internal/joblet/server/job_service.go:378-402 JobServiceServer.GetJobStatus] *)
Record JobStatusAnswer := {
  js_job : PbJob; js_Network : string; js_Volumes : list string; js_WorkDir : string; js_Uploads : list string;
}.

(** [src/internal/joblet/server/job_service.go JobServiceServer.convertUploadsToStringArray] *)
Definition convertUploadsToStringArray (uploads : list FileUpload) : list string := fu_Path <$> uploads.

Definition mask_secrets (p : PbJob) : PbJob := {|
  pj_Uuid := pj_Uuid p; pj_Command := pj_Command p; pj_Args := pj_Args p; pj_MaxCpu := pj_MaxCpu p;
  pj_CpuCores := pj_CpuCores p; pj_MaxMemory := pj_MaxMemory p; pj_MaxIoBps := pj_MaxIoBps p; pj_Status := pj_Status p;
  pj_StartTime := pj_StartTime p; pj_EndTime := pj_EndTime p; pj_ScheduledTime := pj_ScheduledTime p;
  pj_ExitCode := pj_ExitCode p; pj_Runtime := pj_Runtime p; pj_Environment := pj_Environment p;
  pj_SecretEnvironment := (λ _, "***"%string) <$> pj_SecretEnvironment p;
  pj_GpuIndices := pj_GpuIndices p; pj_GpuCount := pj_GpuCount p; pj_GpuMemoryMb := pj_GpuMemoryMb p;
  pj_NodeId := pj_NodeId p; pj_Timeout := pj_Timeout p |}.

(** ** Errors of a request *)

Inductive refusal :=
| RAuth (e : auth_error)
| RNotFound (uuid : string)
| RFailed (e : rpc_error).

Definition authorize (p : peer) (op : Operation) : result refusal unit :=
  match Authorized p op with Ok _ => Ok tt | Err e => Err (RAuth e) end.

Definition fail_with (e : error) (msg : string) : refusal :=
  match statusFromError has_status (Some e) msg with
  | Some r => RFailed r
  | None => RFailed (RpcAsIs e)
  end.

(** The errors the life cycle makes.
    [src/internal/joblet/core/joblet.go:395-460 Joblet.StopJob] *)
Definition error_of (e : life_error) : error :=
  match e with
  | LNotFound uuid => EFormat ("job not found: " +:+ uuid) ErrJobNotFound
  | LNotRunning uuid st => EFormat ("job is not running: " +:+ uuid +:+ " (status: " +:+ st +:+ ")") ErrJobNotRunning
  | LRemove => EText "failed to remove scheduled job"
  | LDeleteRunning uuid st => EFormat ("job is already running: cannot delete job " +:+ uuid +:+ " (status: " +:+ st +:+
      ") - stop the job first") ErrJobAlreadyRunning
  | LCleanup => EFormat "cleanup failed" (EText "cleanup")
  | LStore _ => EFormat "job deletion failed" (EText "job store")
  | LDeleteAll n => EText ("failed to delete " +:+ Itoa n +:+ " jobs")
  | LCleanupActive uuid => EText ("cleanup already in progress for job " +:+ uuid)
  | LSetup | LExec | LSchedule | LUploads => EText "start failed"
  end.

(** ** The handlers *)

(** [src/internal/joblet/server/job_service.go JobServiceServer.ListJobs] *)
Definition ListJobs_rpc {St} {BE : KeyStore.Backend St nat} (p : peer) (a : store St) : result refusal (list PbJob) :=
  _ ← authorize p ListJobsOp; Ok (DomainToProtobuf <$> JobStore.ListJobs a).

(** [src/internal/joblet/server/job_service.go JobServiceServer.GetJobStatus] *)
Definition GetJobStatus_rpc {St} {BE : KeyStore.Backend St nat} (p : peer) (uuid : string) (a : store St) : result refusal JobStatusAnswer :=
  _ ← authorize p GetJobStatusOp;
  match JobByPrefix uuid a with
  | None => Err (RNotFound uuid)
  | Some j => Ok {| js_job := mask_secrets (DomainToProtobuf j); js_Network := Network j; js_Volumes := Volumes j;
                    js_WorkDir := WorkingDirectory j; js_Uploads := convertUploadsToStringArray (Uploads j) |}
  end.

Section effects.
Context (files_ok : string → bool) (during : joblet → joblet) (persist : option (string → result string bool)).

(** The answer is the identifier of the request.
    [src/internal/joblet/server/job_service.go JobServiceServer.StopJob] *)
Definition StopJob_rpc (p : peer) (uuid : string) (s : joblet) : result refusal string * joblet :=
  match authorize p StopJobOp with
  | Err e => (Err e, s)
  | Ok _ =>
      match Lifecycle.StopJob files_ok during uuid s with
      | (Ok _, s') => (Ok uuid, s')
      | (Err e, s') => (Err (fail_with (error_of e) "job stop failed"), s')
      end
  end.

(** The answer that accompanies an error says what the error says.
    [src/internal/joblet/server/job_service.go JobServiceServer.DeleteJob] *)
Definition DeleteJob_rpc (p : peer) (uuid : string) (s : joblet) : result refusal string * joblet :=
  match authorize p DeleteJobOp with
  | Err e => (Err e, s)
  | Ok _ =>
      match Lifecycle.DeleteJob files_ok uuid s with
      | (Ok _, s') => (Ok "Job deleted successfully"%string, s')
      | (Err e, s') => (Err (fail_with (error_of e) "job deletion failed"), s')
      end
  end.

(** The counts are 32-bit.
    [src/internal/joblet/server/job_service.go JobServiceServer.DeleteAllJobs] *)
Definition DeleteAllJobs_rpc (p : peer) (s : joblet) : result refusal (Z * Z) * joblet :=
  match authorize p DeleteJobOp with
  | Err e => (Err e, s)
  | Ok _ =>
      match Lifecycle.DeleteAllJobs files_ok persist s with
      | (Ok (deleted, skipped), s') => (Ok (wrap32 deleted, wrap32 skipped), s')
      | (Err e, s') => (Err (fail_with (error_of e) "bulk job deletion failed"), s')
      end
  end.

(** The status code of a refusal, when the library adds none of its own. *)
Definition refusal_code (r : refusal) : option Code :=
  match r with
  | RNotFound _ => Some NotFound
  | RFailed (RpcStatus c _) => Some c
  | _ => None
  end.

Hypothesis no_status : ∀ e, has_status e = false.

Lemma fail_with_code e msg : refusal_code (fail_with e msg) = Some (codeForError e).
Proof. unfold fail_with. simpl. by rewrite no_status. Qed.

(** The code that a client sees for an error of the life cycle. *)
Lemma life_code e msg : refusal_code (fail_with (error_of e) msg) = Some
  (match e with
   | LNotFound _ => NotFound
   | LNotRunning _ _ | LDeleteRunning _ _ => FailedPrecondition
   | _ => Internal
   end).
Proof. rewrite fail_with_code. by destruct e. Qed.

Lemma stop_error uuid s e s' : Lifecycle.StopJob files_ok during uuid s = (Err e, s') →
  (∃ j, Job_ uuid (js s) = Some j ∧
     (Job.IsRunning j = false ∧ Job.IsScheduled j = false ∧ e = LNotRunning uuid (Status j) ∧ s' = s ∨
      Job.IsScheduled j = true ∧ e = LRemove ∨ Job.IsRunning j = true ∧ e = LCleanup)) ∨
  (Job_ uuid (js s) = None ∧ e = LNotFound uuid ∧ s' = s).
Proof.
  unfold Lifecycle.StopJob. destruct (Job_ uuid (js s)) as [j|]; [|intros [= <- <-]; by right].
  intros H. left. exists j. split; [done|]. destruct (Job.IsScheduled j).
  - destruct (scheduler_remove uuid s) as [[|] s1]; [by destruct (alloc _ _)|]. simplify_eq. auto.
  - destruct (Job.IsRunning j); cbn [negb] in H; [|simplify_eq; auto].
    destruct (GetCleanupStatus uuid s); [by destruct (alloc _ _)|]. right. right. split; [done|].
    match type of H with (let '(_, _) := ?c in _) = _ => destruct c as [err s1] end.
    destruct (alloc _ s1) as [p s2]. by destruct err as [?|[]]; simplify_eq.
Qed.

(** What a request to stop a job comes to.  A client that is not allowed to is
    refused and nothing changes.  Otherwise the code tells the cases apart: NotFound
    when no job has exactly this identifier, FailedPrecondition when the job is neither
    running nor scheduled, in both cases without any effect, and Internal when the
    scheduler or the clean-up fails. *)
Theorem StopJob_outcomes p uuid s r s' : StopJob_rpc p uuid s = (r, s') →
  match Authorized p StopJobOp with
  | Err e => r = Err (RAuth e) ∧ s' = s
  | Ok _ =>
      match r with
      | Ok u => u = uuid ∧ ∃ j, Job_ uuid (js s) = Some j ∧ (Job.IsRunning j || Job.IsScheduled j)
      | Err e => ∃ c, refusal_code e = Some c ∧
          (c = NotFound ↔ Job_ uuid (js s) = None) ∧
          (c = FailedPrecondition ↔ ∃ j, Job_ uuid (js s) = Some j ∧ Job.IsRunning j = false ∧ Job.IsScheduled j = false) ∧
          (c ≠ Internal → s' = s)
      end
  end.
Proof.
  unfold StopJob_rpc, authorize. destruct (Authorized p StopJobOp) as [[]|e]; [|by intros [= <- <-]].
  destruct (Lifecycle.StopJob files_ok during uuid s) as [[[]|e] s1] eqn:Hs; intros [= <- <-].
  - split; [done|]. unfold Lifecycle.StopJob in Hs. destruct (Job_ uuid (js s)) as [j|]; [|done]. exists j.
    split; [done|]. destruct (Job.IsScheduled j), (Job.IsRunning j); done.
  - eexists. split; [apply life_code|].
    destruct (stop_error _ _ _ _ Hs) as [(j & Hj & [(Hr & Hsch & -> & ->)|[[Hsch ->]|[Hr ->]]])|(Hn & -> & ->)];
      simpl; (split; [by split; [|congruence]|]).
    + split; [|done]. split; [eauto|done].
    + split; [|done]. split; [done|]. intros (? & ? & ? & ?). congruence.
    + split; [|done]. split; [done|]. intros (? & ? & ? & ?). congruence.
    + split; [|done]. split; [done|]. intros (? & ? & ? & ?). congruence.
Qed.
End effects.

(** The secrets of a job are masked in the answer about its status and shown in the
    list of jobs: every client that may list jobs, and that includes readers, gets the
    secret variables of every job as they were submitted. *)
Theorem list_shows_secrets {St} {BE : KeyStore.Backend St nat} (a : store St) p :
  (∀ uuid ans k v, GetJobStatus_rpc p uuid a = Ok ans → pj_SecretEnvironment (js_job ans) !! k = Some v → v = "***"%string) ∧
  (∀ j, Authorized p ListJobsOp = Ok tt → j ∈ JobStore.ListJobs a →
    ∃ l m, ListJobs_rpc p a = Ok l ∧ m ∈ l ∧ pj_Uuid m = Uuid j ∧ pj_SecretEnvironment m = SecretEnvironment j).
Proof.
  split.
  - intros uuid ans k v H Hk. unfold GetJobStatus_rpc in H. apply bind_ok in H as ([] & _ & H).
    destruct (JobByPrefix uuid a); simplify_eq. simpl in Hk. by apply lookup_fmap_Some in Hk as (? & <- & _).
  - intros j Hp Hj. unfold ListJobs_rpc, authorize. rewrite Hp. eexists _, (DomainToProtobuf j). split; [done|].
    split; [|done]. by apply list_elem_of_fmap_2.
Qed.

(** The limits of a job, except its bandwidth and GPU memory, are shown as they are;
    those are 64-bit and cut to 32 bits. *)
Lemma shown_limits j :
  in_int32 (bw_bytes (IOBandwidth (Limits j))) → in_int32 (GPUMemoryMB j) →
  pj_MaxIoBps (DomainToProtobuf j) = bw_bytes (IOBandwidth (Limits j)) ∧
  pj_GpuMemoryMb (DomainToProtobuf j) = GPUMemoryMB j.
Proof. intros H1 H2. simpl. by rewrite !wrap_id. Qed.
End handlers.

(** ** Concrete requests *)

Definition reader : peer := TLS [["reader"%string]].
Definition developer : peer := TLS [["developer"%string]].

Definition secret_job : Job := {|
  Uuid := u1; Command := "deploy"; Args := []; Type_ := JobTypeStandard; Limits := NewResourceLimits; CgroupPath := "";
  Status := StatusRunning; Pid := 7; StartTime := 1; EndTime := None; ScheduledTime := None; ExitCode := 0; Network := "";
  Volumes := []; Runtime := ""; WorkingDirectory := ""; Uploads := []; Environment_ := ∅;
  SecretEnvironment := {["TOKEN"%string := "hunter2"%string]}; GPUIndices := []; GPUMIGUUIDs := []; GPUCount := 0;
  GPUMemoryMB := 0; NodeId := ""; Timeout := 0; cache := empty_cache |}.

Definition secret_store : joblet := store_create 0 {|
  js := NewJobStorer (λ _, secret_job) true true; Lifecycle.fresh := 10%nat; queued := []; activeCleanups := ∅; effects := []; now := 100 |}.

Definition no_text (_ : Z) : string := "".

Lemma list_shows_secrets_witness : ∃ l m,
  ListJobs_rpc no_text no_text reader (js secret_store) = Ok l ∧ m ∈ l ∧
  pj_SecretEnvironment m = {["TOKEN"%string := "hunter2"%string]}.
Proof.
  destruct (proj2 (list_shows_secrets no_text no_text (js secret_store) reader) (DeepCopy secret_job)) as (l & m & Hl & Hm & _ & Hs).
  - by vm_compute.
  - apply list_elem_of_In. vm_compute. by left.
  - exists l, m. split; [exact Hl|]. split; [exact Hm|]. rewrite Hs. by vm_compute.
Defined.

Lemma StopJob_outcomes_witness :
  ∃ e, StopJob_rpc (λ _, false) all_ok id developer "f47ac10b" demo = (Err e, demo) ∧ refusal_code e = Some NotFound.
Proof.
  destruct (StopJob_rpc (λ _, false) all_ok id developer "f47ac10b" demo) as [r s'] eqn:E.
  pose proof (StopJob_outcomes (λ _, false) all_ok id (λ _, eq_refl) developer "f47ac10b" demo r s' E) as H.
  assert (Ha : Authorized developer StopJobOp = Ok tt) by (by vm_compute). rewrite Ha in H.
  assert (Hn : Job_ "f47ac10b" (js demo) = None) by (by vm_compute).
  destruct r as [u|e].
  - destruct H as (_ & j & Hj & _). by rewrite Hn in Hj.
  - destruct H as (c & Hc & Hnf & _ & Hs). exists e. pose proof (proj2 Hnf Hn) as ->. by rewrite Hs.
Defined.

(** The first eight characters of an identifier name a job for its status, and no job
    for stopping it. *)
Example short_identifier :
  is_ok (GetJobStatus_rpc no_text no_text reader (String.substring 0 8 u1) (js secret_store)) = true ∧
  is_ok (StopJob_rpc (λ _, false) all_ok id developer (String.substring 0 8 u1) secret_store).1 = false ∧
  is_ok (StopJob_rpc (λ _, false) all_ok id developer u1 secret_store).1 = true.
Proof. split; [|split]; vm_compute; reflexivity. Qed.
