(* ===== verification/JobStream.v ===== *)
(** * The streaming requests of the job service
    (internal/joblet/server/job_service.go, internal/joblet/server/stream_helper.go)

    Logs, metrics and kernel events of a job: history from the persist service or
    the collector's buffer, then live data.  A client accepts messages until it goes
    away; the persist service answers each query with what it sends before the end of
    the stream or an error, which the code does not tell apart.  The live parts are the
    machines of Stream.v and Telemetry.v, and the loop that watches for completion. *)

From Stdlib Require Import SpecFloat.
From S2P Require Import KeyStore.
From S2P Require Import Auth JobStore Lifecycle JobService.
From S2P Require Import Prelude GoStrings Job.
From S2P Require Import Stream.
From S2P Require Import Telemetry Wire.

Local Open Scope Z_scope.

(** ** Unified streaming *)

(** [src/internal/joblet/server/stream_helper.go:38-48 JobState] *)
Inductive JobState := JobStateRunning | JobStateCompleted | JobStateNotFound.

(** [src/internal/joblet/server/stream_helper.go DetermineJobState] *)
Definition DetermineJobState (exists_ isCompleted : bool) : JobState :=
  if negb exists_ then JobStateNotFound else if isCompleted then JobStateCompleted else JobStateRunning.

Inductive stream_error :=
| SAuth (e : auth_error) | SInvalid | SUnavailable | SNotFound (uuid : string) | SInternal (what : string).

(** A call returns, fails, or panics. *)
Inductive outcome (A : Type) := Ret (a : A) | Fail (e : stream_error) | Panic.
Arguments Ret {A} a.
Arguments Fail {A} e.
Arguments Panic {A}.

Section streaming.
Context {M : Type}.

(** Whether the n-th message is accepted by the client; what it has is threaded
    through.
    [src/internal/joblet/server/stream_helper.go StreamConfig] *)
Record StreamConfig := {
  cf_JobUUID : string;
  cf_SendHistorical : list M → outcome Z * list M;
  cf_QueryPersistOnly : option (list M → outcome Z * list M);
  cf_StreamLive : option (list M → outcome unit * list M);
}.

(** [src/internal/joblet/server/stream_helper.go StreamWithHistory] *)
Definition StreamWithHistory (cfg : StreamConfig) (state : JobState) (sent : list M) : outcome unit * list M :=
  match state with
  | JobStateCompleted =>
      match cf_SendHistorical cfg sent with
      | (Ret _, sent) => (Ret tt, sent)
      | (Fail e, sent) => (Fail e, sent)
      | (Panic, sent) => (Panic, sent)
      end
  | JobStateNotFound =>
      match cf_QueryPersistOnly cfg with
      | None => (Fail (SNotFound (cf_JobUUID cfg)), sent)
      | Some query =>
          match query sent with
          | (Ret count, sent) => if count =? 0 then (Fail (SNotFound (cf_JobUUID cfg)), sent) else (Ret tt, sent)
          | (Fail e, sent) => (Fail e, sent)
          | (Panic, sent) => (Panic, sent)
          end
      end
  | JobStateRunning =>
      match cf_SendHistorical cfg sent with
      | (Panic, sent) => (Panic, sent)
      | (_, sent) => match cf_StreamLive cfg with None => (Ret tt, sent) | Some live => live sent end
      end
  end.

(** [stream.Send] in a loop: the messages that were accepted, and whether all were. *)
Context (accepts : nat → bool).

Fixpoint send_all (items sent : list M) : bool * list M :=
  match items with
  | [] => (true, sent)
  | x :: items => if accepts (length sent) then send_all items (sent ++ [x]) else (false, sent)
  end.

Lemma send_all_prefix items sent : ∃ k, (send_all items sent).2 = sent ++ take k items ∧
  ((send_all items sent).1 = true → k = length items).
Proof.
  revert sent. induction items as [|x items IH]; intros sent; simpl; [exists 0%nat; by rewrite app_nil_r|].
  destruct (accepts (length sent)).
  - destruct (IH (sent ++ [x])) as (k & -> & Hk). exists (S k). simpl. split; [by rewrite <- app_assoc|].
    intros ?. by rewrite Hk.
  - exists 0%nat. by rewrite app_nil_r.
Qed.

Hypothesis accepts_all : ∀ n, accepts n = true.

Lemma send_all_ok items sent : send_all items sent = (true, sent ++ items).
Proof.
  revert sent. induction items as [|x items IH]; intros sent; simpl; [by rewrite app_nil_r|].
  rewrite accepts_all, IH. by rewrite <- app_assoc.
Qed.
End streaming.
Arguments StreamConfig : clear implicits.

(** ** The persist service, as the job service sees it *)

(** The messages a query delivers; [Err]: the call itself failed.  Times and limit
    are those of the request.
    [src/internal/joblet/server/job_service.go:35-49 JobServiceServer] *)
Record PersistClient := {
  QueryLogs : string → result string (list (list Ascii.ascii));
  QueryMetrics : string → Z → Z → Z → result string (list Metric);
  QueryExecEvents : string → Z → Z → Z → result string (list ExecEvent);
  QueryConnectEvents : string → Z → Z → Z → result string (list ConnectEvent);
  QueryMmapEvents : string → Z → Z → Z → result string (list MmapEvent);
  QueryMprotectEvents : string → Z → Z → Z → result string (list MprotectEvent);
  QueryFileEvents : string → Z → Z → Z → result string (list FileEvent);
  QueryAcceptEvents : string → Z → Z → Z → result string (list AcceptEvent);
  QuerySocketDataEvents : string → Z → Z → Z → result string (list SocketDataAnswer);
}.

Section handlers.
Context {SS : SortSlice}.
Context (accepts : nat → bool).
Context (persistClient : option PersistClient) (telemetryCollector : option collector).

(** ** Metrics *)

(** Messages are pointers: [None] is nil.
    [src/internal/joblet/server/job_service.go JobServiceServer.queryPersistMetrics] *)
Fixpoint persist_metrics_loop (metrics : list Metric) (eventCount : Z) (sent : list (option JobMetricsEvent))
    : outcome Z * list (option JobMetricsEvent) :=
  match metrics with
  | [] => (Ret eventCount, sent)
  | m :: metrics =>
      match metric_answer m with
      | None => (Panic, sent)
      | Some e =>
          if accepts (length sent) then persist_metrics_loop metrics (eventCount + 1) (sent ++ [Some e])
          else (Fail (SInternal "failed to send metric event"), sent)
      end
  end.

(** [src/internal/joblet/server/job_service.go:937-954 JobServiceServer.queryPersistMetrics] *)
Definition queryPersistMetrics (pc : PersistClient) (jobID : string) (startTime endTime limit : Z)
    (sent : list (option JobMetricsEvent)) : outcome Z * list (option JobMetricsEvent) :=
  match QueryMetrics pc jobID startTime endTime limit with
  | Err _ => (Ret 0, sent)
  | Ok metrics => persist_metrics_loop metrics 0 sent
  end.

(** The times of a request, as the buffer takes them.
    [src/internal/joblet/server/job_service.go:898-905 JobServiceServer.sendHistoricalMetrics] *)
Definition request_time (t : Z) : option Z := if 0 <? t then Some t else None.

(** The first phase of both historical queries: an error is only logged. *)
Definition from_persist {M} (query : list M → outcome Z * list M) (sent : list M) : outcome Z * list M :=
  match query sent with
  | (Fail _, sent) => (Ret 0, sent)
  | r => r
  end.

(** The answers made from the buffer. *)
Definition buffered (jobID : string) (filter : list EventType) (startTime endTime limit : Z) : list Event :=
  match telemetryCollector with
  | None => []
  | Some c => GetBufferedEvents jobID (Some filter) (request_time startTime) (request_time endTime) limit c
  end.

(** [src/internal/joblet/server/job_service.go JobServiceServer.sendHistoricalMetrics] *)
Definition sendHistoricalMetrics (jobID : string) (filter : list EventType) (startTime endTime limit : Z)
    (sent : list (option JobMetricsEvent)) : outcome unit * list (option JobMetricsEvent) :=
  match match persistClient with
        | Some pc => from_persist (queryPersistMetrics pc jobID startTime endTime (wrap32 limit)) sent
        | None => (Ret 0, sent)
        end with
  | (Ret eventCount, sent) =>
      if eventCount =? 0 then
        let events := List.filter (λ e, String.eqb (Type_ e) EventTypeMetrics) (buffered jobID filter startTime endTime limit) in
        let '(ok, sent) := send_all accepts (telemetryEventToMetricsEvent <$> events) sent in
        (if ok then Ret tt else Fail (SInternal "failed to send metrics event"), sent)
      else (Ret tt, sent)
  | (Fail e, sent) => (Fail e, sent)
  | (Panic, sent) => (Panic, sent)
  end.

(** ** Kernel events *)

(** [src/internal/joblet/server/job_service.go JobServiceServer.parseTelematicsFilter] *)
Definition parseTelematicsFilter (types : list string) : list EventType :=
  match types with
  | [] => [EventTypeExec; EventTypeConnect; EventTypeAccept; EventTypeFile; EventTypeMmap; EventTypeMprotect; EventTypeSocketData]
  | _ => ParseEventTypes types
  end.

(** Whether a type is asked for: all are by an empty filter.
    [src/internal/joblet/server/job_service.go:1113-1137 JobServiceServer.queryPersistTelematics] *)
Definition wants (filter : list EventType) (t : EventType) : bool :=
  match filter with [] => true | _ => existsb (String.eqb t) filter end.

(** One block of the query: nothing when the type is not asked for or the call fails. *)
Definition collect {A} (wanted : bool) (r : result string (list A)) (show : A → TelematicsEvent) : list TelematicsEvent :=
  if wanted then match r with Ok l => show <$> l | Err _ => [] end else [].

(** [src/internal/joblet/server/job_service.go:1139-1391 JobServiceServer.queryPersistTelematics] *)
Definition persisted_telematics (pc : PersistClient) (jobID : string) (filter : list EventType) (st en limit : Z)
    : list TelematicsEvent :=
  collect (wants filter EventTypeExec) (QueryExecEvents pc jobID st en limit) exec_answer ++
  collect (wants filter EventTypeConnect) (QueryConnectEvents pc jobID st en limit) connect_answer ++
  collect (wants filter EventTypeMmap) (QueryMmapEvents pc jobID st en limit) mmap_answer ++
  collect (wants filter EventTypeMprotect) (QueryMprotectEvents pc jobID st en limit) mprotect_answer ++
  collect (wants filter EventTypeFile) (QueryFileEvents pc jobID st en limit) file_answer ++
  collect (wants filter EventTypeAccept) (QueryAcceptEvents pc jobID st en limit) accept_answer ++
  collect (wants filter EventTypeSocketData) (QuerySocketDataEvents pc jobID st en limit) socket_answer.

Definition earlier (a b : TelematicsEvent) : bool := te_Timestamp a <? te_Timestamp b.

(** [src/internal/joblet/server/job_service.go:1388-1405 JobServiceServer.queryPersistTelematics] *)
Definition queryPersistTelematics (pc : PersistClient) (jobID : string) (filter : list EventType) (st en limit : Z)
    (sent : list TelematicsEvent) : outcome Z * list TelematicsEvent :=
  let allEvents := sort_slice earlier (persisted_telematics pc jobID filter st en limit) in
  let '(ok, sent') := send_all accepts allEvents sent in
  (if ok then Ret (Z.of_nat (length allEvents)) else Fail (SInternal "failed to send telematics event"), sent').

(** [src/internal/joblet/server/job_service.go JobServiceServer.sendHistoricalTelematics] *)
Definition sendHistoricalTelematics (jobID : string) (filter : list EventType) (startTime endTime limit : Z)
    (sent : list TelematicsEvent) : outcome unit * list TelematicsEvent :=
  match match persistClient with
        | Some pc => from_persist (queryPersistTelematics pc jobID filter startTime endTime (wrap32 limit)) sent
        | None => (Ret 0, sent)
        end with
  | (Ret eventCount, sent) =>
      if eventCount =? 0 then
        let events := List.filter (λ e, negb (String.eqb (Type_ e) EventTypeMetrics)) (buffered jobID filter startTime endTime limit) in
        let '(ok, sent) := send_all accepts (omap telemetryEventToTelematicsEvent events) sent in
        (if ok then Ret tt else Fail (SInternal "failed to send telematics event"), sent)
      else (Ret tt, sent)
  | (Fail e, sent) => (Fail e, sent)
  | (Panic, sent) => (Panic, sent)
  end.

(** ** Requests *)

Section requests.
Context {St : Type} {BE : KeyStore.Backend St nat}.
Implicit Types a : store St.

(** The identifier, resolved if it can be.
    [src/internal/joblet/server/job_service.go:713-719 JobServiceServer.StreamJobMetrics] *)
Definition resolve (uuid : string) a : string :=
  match resolveJobUuid uuid a with Ok u => u | Err _ => uuid end.

(** [src/internal/joblet/server/job_service.go:733-736 JobServiceServer.StreamJobMetrics] *)
Definition job_state (uuid : string) a : JobState :=
  match Job_ uuid a with
  | Some j => DetermineJobState true (IsCompleted j)
  | None => DetermineJobState false false
  end.

(** The count of a history that does not report one is 0. *)
Definition uncounted {M} (r : outcome unit * list M) : outcome Z * list M :=
  match r with (Ret _, l) => (Ret 0, l) | (Fail e, l) => (Fail e, l) | (Panic, l) => (Panic, l) end.

Definition checked {A} (p : peer) (op : Operation) (uuid : string) (k : outcome A) : outcome A :=
  match Authorized p op with
  | Err e => Fail (SAuth e)
  | Ok _ => if String.eqb uuid "" then Fail SInvalid else k
  end.

(** [src/internal/joblet/server/job_service.go JobServiceServer.GetJobMetrics] *)
Definition GetJobMetrics (p : peer) (uuid : string) (st en limit : Z) a : outcome unit * list (option JobMetricsEvent) :=
  match checked p GetJobOp uuid (Ret tt) with
  | Ret _ => sendHistoricalMetrics (resolve uuid a) [EventTypeMetrics] st en limit []
  | Fail e => (Fail e, []) | Panic => (Panic, [])
  end.

(** [src/internal/joblet/server/job_service.go JobServiceServer.GetJobTelematics] *)
Definition GetJobTelematics (p : peer) (uuid : string) (types : list string) (st en limit : Z) a
    : outcome unit * list TelematicsEvent :=
  match checked p GetJobOp uuid (Ret tt) with
  | Ret _ => sendHistoricalTelematics (resolve uuid a) (parseTelematicsFilter types) st en limit []
  | Fail e => (Fail e, []) | Panic => (Panic, [])
  end.

(** A streaming request over the parts of its configuration; [needs_collector] is the
    check that metrics and kernel events make and logs do not. *)
Definition stream_request {M} (op : Operation) (needs_collector : bool)
    (historical : string → list M → outcome Z * list M) (query : string → list M → outcome Z * list M)
    (live : string → list M → outcome unit * list M) (p : peer) (uuid : string) a : outcome unit * list M :=
  match checked p op uuid (Ret tt) with
  | Ret _ =>
      let u := resolve uuid a in
      if needs_collector && match telemetryCollector with None => true | Some _ => false end then (Fail SUnavailable, [])
      else StreamWithHistory {| cf_JobUUID := u; cf_SendHistorical := historical u;
        cf_QueryPersistOnly := Some (query u); cf_StreamLive := Some (live u) |} (job_state u a) []
  | Fail e => (Fail e, []) | Panic => (Panic, [])
  end.

Definition or_nothing {M} (query : PersistClient → list M → outcome Z * list M) (sent : list M) : outcome Z * list M :=
  match persistClient with None => (Ret 0, sent) | Some pc => query pc sent end.

(** [src/internal/joblet/server/job_service.go JobServiceServer.StreamJobMetrics] *)
Definition StreamJobMetrics (live : string → list (option JobMetricsEvent) → outcome unit * list (option JobMetricsEvent)) :=
  stream_request GetJobOp true
    (λ u sent, uncounted (sendHistoricalMetrics u [EventTypeMetrics] 0 0 0 sent))
    (λ u, or_nothing (λ pc, queryPersistMetrics pc u 0 0 0)) live.

(** [src/internal/joblet/server/job_service.go JobServiceServer.StreamJobTelematics] *)
Definition StreamJobTelematics (types : list string) (live : string → list TelematicsEvent → outcome unit * list TelematicsEvent) :=
  let filter := parseTelematicsFilter types in
  stream_request GetJobOp true
    (λ u sent, uncounted (sendHistoricalTelematics u filter 0 0 0 sent))
    (λ u, or_nothing (λ pc, queryPersistTelematics pc u filter 0 0 0)) live.

(** ** Logs *)

Abbreviation payload := (list Ascii.ascii).

Definition relay (what : string) (lines sent : list payload) : outcome Z * list payload :=
  let '(ok, sent') := send_all accepts lines sent in
  (if ok then Ret (Z.of_nat (length lines)) else Fail (SInternal what), sent').

(** [src/internal/joblet/server/job_service.go JobServiceServer.sendHistoricalLogs] *)
Definition sendHistoricalLogs (jobUUID : string) (sent : list payload) : outcome Z * list payload :=
  or_nothing (λ pc sent, match QueryLogs pc jobUUID with
    | Err _ => (Ret 0, sent)
    | Ok lines => relay "failed to send historical log" lines sent
    end) sent.

(** [src/internal/joblet/server/job_service.go JobServiceServer.queryPersistLogs] *)
Definition queryPersistLogs (jobUUID : string) (pc : PersistClient) (sent : list payload) : outcome Z * list payload :=
  match QueryLogs pc jobUUID with
  | Err _ => (Fail (SNotFound jobUUID), sent)
  | Ok lines => relay "failed to send log" lines sent
  end.

(** [src/internal/joblet/server/job_service.go JobServiceServer.GetJobLogs] *)
Definition GetJobLogs (live : string → list payload → outcome unit * list payload) :=
  stream_request GetJobLogsOp false sendHistoricalLogs (λ u, or_nothing (queryPersistLogs u)) live.
End requests.

(** ** What history and requests promise *)

Section promises.
Context {St : Type} {BE : KeyStore.Backend St nat}.
Implicit Types a : store St.

Lemma checked_refused {A} p op uuid (k : outcome A) :
  (∃ e, Authorized p op = Err e) ∨ uuid = ""%string → ∃ e, checked p op uuid k = Fail e.
Proof.
  unfold checked. intros [[e ->]| ->]; [by eexists|]. destruct (Authorized p op); eauto.
Qed.

(** A streaming request that is not authorized, or names no job, sends nothing; one
    for a job that has completed or is not known never follows live data, whatever the
    live part would do; and one for a job that is known nowhere is answered as not found
    when the persist service has nothing either. *)
Theorem stream_request_cases {M} op needs (hist query : string → list M → outcome Z * list M) live live' p uuid a :
  let r := stream_request op needs hist query live p uuid a in
  ((∃ e, Authorized p op = Err e) ∨ uuid = ""%string → ∃ e, r = (Fail e, [])) ∧
  (job_state (resolve uuid a) a ≠ JobStateRunning → r = stream_request op needs hist query live' p uuid a) ∧
  (job_state (resolve uuid a) a = JobStateNotFound → Authorized p op = Ok tt → uuid ≠ ""%string →
   needs = false → query (resolve uuid a) [] = (Ret 0, []) → r = (Fail (SNotFound (resolve uuid a)), [])).
Proof.
  intros r. split; [|split].
  - intros H. destruct (checked_refused p op uuid (Ret tt) H) as [e E]. exists e. subst r. unfold stream_request. by rewrite E.
  - intros Hs. subst r. unfold stream_request. destruct (checked _ _ _ _); try done. case_match; [done|].
    unfold StreamWithHistory. simpl. by destruct (job_state _ _).
  - intros Hs Ha Hu -> Hq. subst r. unfold stream_request, checked. rewrite Ha.
    destruct (String.eqb_spec uuid ""); [done|]. simpl. unfold StreamWithHistory. rewrite Hs. simpl. by rewrite Hq.
Qed.

#[local] Instance earlier_order : StrictWeak earlier.
Proof. split; unfold earlier; intros; to_prop; rewrite ?Z.ltb_lt, ?Z.ltb_ge in *; lia. Qed.

(** The kinds of the types asked for, and nothing else. *)
Lemma persisted_wanted pc jobID filter st en limit e :
  e ∈ persisted_telematics pc jobID filter st en limit → wants filter (te_Type e) = true.
Proof.
  unfold persisted_telematics, collect. rewrite !elem_of_app. intros H.
  destruct_or! H; revert H;
    (destruct (wants _ _) eqn:Hw; [|by intros ?%elem_of_nil]); case_match; try (by intros ?%elem_of_nil);
    intros (x & -> & _)%list_elem_of_fmap; exact Hw.
Qed.

(** What the persist service does with a positive limit. *)
Definition at_most {A} (limit : Z) (r : result string (list A)) : Prop :=
  match r with Ok l => Z.of_nat (length l) ≤ limit | Err _ => True end.
Definition respects_limit (pc : PersistClient) (jobID : string) (st en limit : Z) : Prop :=
  at_most limit (QueryExecEvents pc jobID st en limit) ∧ at_most limit (QueryConnectEvents pc jobID st en limit) ∧
  at_most limit (QueryMmapEvents pc jobID st en limit) ∧ at_most limit (QueryMprotectEvents pc jobID st en limit) ∧
  at_most limit (QueryFileEvents pc jobID st en limit) ∧ at_most limit (QueryAcceptEvents pc jobID st en limit) ∧
  at_most limit (QuerySocketDataEvents pc jobID st en limit).

Lemma collect_at_most {A} limit w (r : result string (list A)) show :
  0 ≤ limit → at_most limit r → Z.of_nat (length (collect w r show)) ≤ limit.
Proof. unfold collect, at_most. destruct w, r; try done. by rewrite length_fmap. Qed.

(** The history of kernel events, when the client accepts it, is what the persist
    service has of each kind asked for, in the order of time; the limit of the request
    is applied to each kind, so that up to seven times as many events are sent. *)
Theorem telematics_history pc jobID filter st en limit sent :
  (∀ n, accepts n = true) →
  ∃ l, queryPersistTelematics pc jobID filter st en limit sent = (Ret (Z.of_nat (length l)), sent ++ l) ∧
    l ≡ₚ persisted_telematics pc jobID filter st en limit ∧
    StronglySorted (λ x y, te_Timestamp x ≤ te_Timestamp y) l ∧
    (∀ e, e ∈ l → wants filter (te_Type e) = true) ∧
    (0 ≤ limit → respects_limit pc jobID st en limit → Z.of_nat (length l) ≤ 7 * limit).
Proof.
  intros Hok. unfold queryPersistTelematics. set (l := sort_slice earlier _). exists l.
  rewrite send_all_ok by done. split; [done|]. split; [apply sort_slice_perm|]. split.
  - pose proof (sort_slice_sorted earlier (persisted_telematics pc jobID filter st en limit) _) as H. fold l in H.
    clear -H. induction H as [|x l _ IH Hx]; constructor; [done|].
    eapply Forall_impl; [exact Hx|]. intros y. unfold not_after, earlier. intros ?. to_prop. lia.
  - split; [intros e He; eapply persisted_wanted; by rewrite <- (sort_slice_perm earlier)|].
    intros Hl (H1 & H2 & H3 & H4 & H5 & H6 & H7). unfold l. rewrite (Permutation_length (sort_slice_perm earlier _)).
    unfold persisted_telematics. rewrite !length_app.
    pose proof (collect_at_most limit (wants filter EventTypeExec) _ exec_answer Hl H1).
    pose proof (collect_at_most limit (wants filter EventTypeConnect) _ connect_answer Hl H2).
    pose proof (collect_at_most limit (wants filter EventTypeMmap) _ mmap_answer Hl H3).
    pose proof (collect_at_most limit (wants filter EventTypeMprotect) _ mprotect_answer Hl H4).
    pose proof (collect_at_most limit (wants filter EventTypeFile) _ file_answer Hl H5).
    pose proof (collect_at_most limit (wants filter EventTypeAccept) _ accept_answer Hl H6).
    pose proof (collect_at_most limit (wants filter EventTypeSocketData) _ socket_answer Hl H7). lia.
Qed.
End promises.
End handlers.

(** ** History and live data overlap *)

(** What a live request makes of the collector: register, and hand on the copy. *)
Definition follow (sid : nat) (jobID : string) (filter : list EventType) (k : nat) : list act :=
  [AStreamStart sid jobID (Some filter); AStreamRegister sid] ++ repeat (AStreamBuffered sid false) k.

Lemma hand_on_buffered l : ∀ s sid st, crashed s = false → streams s !! sid = Some st → st_at st = SBuffered l →
  ∃ s' os, trun (repeat (AStreamBuffered sid false) (length l)) s = Some (s', os) ∧
    Telemetry.called sid os = filter (λ e, passes (st_filter st) e) l ∧
    ∃ st', streams s' !! sid = Some st' ∧ st_at st' = SBuffered [].
Proof.
  induction l as [|e l IH]; intros s sid st Hok Hst Hat; [exists s, []; repeat split; eauto|].
  simpl. unfold tstep at 1. rewrite Hok. unfold Stream_buffered. rewrite Hst. simpl. rewrite Hat.
  destruct (hand_on sid st e false (SBuffered l)) as [st1 os1] eqn:Hh. simpl.
  assert (Hst1 : st_at st1 = SBuffered l ∧ st_filter st1 = st_filter st ∧
    Telemetry.called sid os1 = if passes (st_filter st) e then [e] else []).
  { unfold hand_on in Hh. destruct (passes _ e); simplify_eq; (split; [done|]); (split; [done|]);
      unfold Telemetry.called; simpl; by rewrite ?decide_True. }
  destruct Hst1 as (Hat1 & Hf1 & Hc1).
  destruct (IH (put_stream sid st1 s) sid st1) as (s' & os & Hr & Hc & Hend); [done|simpl; by rewrite lookup_insert_eq|done|].
  rewrite Hr. simpl. exists s', (os1 ++ os). split; [done|]. split; [|done].
  unfold Telemetry.called in *. rewrite omap_app, Hc1, Hc, Hf1, filter_cons. by destruct (passes (st_filter st) e).
Qed.

Lemma trun_cons x acts s s1 os r :
  tstep x s = Some (s1, os) → trun acts s1 = Some r → trun (x :: acts) s = Some (r.1, os ++ r.2).
Proof. intros H1 H2. simpl. rewrite H1. simpl. rewrite H2. by destruct r. Qed.

Lemma follow_copy c jobID b buf sid f :
  crashed c = false → buffers c !! jobID = Some b → heap c !! b = Some buf → streams c !! sid = None →
  ∃ c' os, trun (follow sid jobID f (length (events buf))) c = Some (c', os) ∧
    Telemetry.called sid os = filter (λ e, passes (Some f) e) (events buf).
Proof.
  intros Hok Hb Hbuf Hsid. unfold follow. cbn [app].
  eassert (E1 : tstep (AStreamStart sid jobID (Some f)) c = Some (_, [])).
  { unfold tstep, Stream_start, getOrCreateBuffer. rewrite Hok, Hsid, Hb. simpl. reflexivity. }
  match type of E1 with _ = Some (?x, _) => set (s0 := x) in E1 end.
  eassert (E2 : tstep (AStreamRegister sid) s0 = Some (_, _)).
  { unfold tstep, Stream_register. subst s0. simpl. rewrite Hok, lookup_insert_eq. simpl. rewrite Hbuf. simpl. reflexivity. }
  match type of E2 with _ = Some (?x, _) => set (s1 := x) in E2 end.
  destruct (hand_on_buffered (events buf) s1 sid
    {| st_buf := b; st_ch := base.fresh (dom (chans c)); st_filter := Some f; st_at := SBuffered (events buf) |})
    as (s' & os & Hr & Hc & _); [done|subst s1; simpl; by rewrite lookup_insert_eq|done|].
  eexists _, _. split; [exact (trun_cons _ _ _ _ _ _ E1 (trun_cons _ _ _ _ _ _ E2 Hr))|exact Hc].
Qed.

Lemma filter_list_filter {A} (P : A → bool) l : List.filter P l = filter (λ x, P x) l.
Proof. induction l as [|x l IH]; [done|]. simpl. rewrite filter_cons, IH. by destruct (P x). Qed.

Lemma passes_metrics e : passes (Some [EventTypeMetrics]) e = String.eqb (Type_ e) EventTypeMetrics.
Proof. unfold passes, Matches. simpl. by rewrite orb_false_r. Qed.

(** A client that follows the metrics of a running job gets the collector's whole
    buffer twice: once as history, when the persist service has nothing, and again as
    the copy with which the live stream begins. *)
Theorem metrics_repeated {SS : SortSlice} n tr c jobID b sid accepts :
  history n tr c → crashed c = false → buffers c !! jobID = Some b → streams c !! sid = None →
  (∀ k, accepts k = true) →
  ∃ hist k c' os,
    sendHistoricalMetrics accepts None (Some c) jobID [EventTypeMetrics] 0 0 0 [] = (Ret tt, hist) ∧
    trun (follow sid jobID [EventTypeMetrics] k) c = Some (c', os) ∧
    telemetryEventToMetricsEvent <$> Telemetry.called sid os = hist ∧
    hist = telemetryEventToMetricsEvent <$> filter (λ e, Type_ e = EventTypeMetrics) (last_n (bufferSize c) (since_clear b tr)).
Proof.
  intros Hh Hok Hb Hsid Hacc. pose proof (history_inv _ _ _ Hh) as I.
  destruct (i_buffers _ _ _ I _ _ Hb) as [buf Hbuf].
  destruct (follow_copy _ _ _ _ sid [EventTypeMetrics] Hok Hb Hbuf Hsid) as (c' & os & Hr & Hc).
  assert (He : events buf = last_n (bufferSize c) (since_clear b tr)).
  { by rewrite (i_events _ _ _ I _ _ Hbuf), (i_size _ _ _ I). }
  assert (Hf : filter (λ e, passes (Some [EventTypeMetrics]) e) (events buf) = filter (λ e, Type_ e = EventTypeMetrics) (events buf)).
  { apply list_filter_iff. intros e. rewrite passes_metrics, Is_true_true. apply String.eqb_eq. }
  exists (telemetryEventToMetricsEvent <$> filter (λ e, Type_ e = EventTypeMetrics) (events buf)), (length (events buf)), c', os.
  split; [|split; [done|split; [by rewrite Hc, Hf|by rewrite He]]].
  unfold sendHistoricalMetrics, buffered, GetBufferedEvents. rewrite Hb. simpl. rewrite Hbuf.
  rewrite buffered_loop_spec by (simpl; lia). simpl. unfold limited. simpl.
  rewrite send_all_ok by done. simpl. do 3 f_equal. rewrite filter_list_filter.
  rewrite list_filter_filter. apply list_filter_iff. intros e. unfold wanted. simpl.
  rewrite orb_false_r, Is_true_true, String.eqb_eq. naive_solver.
Qed.

(** A client that follows the log of a running job gets the lines that the persist
    service has, and after them everything in the job's buffer, because nothing is
    skipped: a line that is in both, as every line of a persisted log is, comes twice. *)
Theorem logs_repeated {St} {BE : KeyStore.Backend St nat} (a : store St) p uuid j accepts pc lines
    cap st buf t ls s :
  (∀ k, accepts k = true) → Authorized p GetJobLogsOp = Ok tt → uuid ≠ ""%string →
  Job_ (resolve uuid a) a = Some j → IsCompleted j = false → QueryLogs pc (resolve uuid a) = Ok lines →
  Stream.run ls (new_stream (resolve uuid a) 0 cap st buf t) = Some s → live s = Some [] →
  ∃ rest, GetJobLogs accepts (Some pc) None (λ _ got, (Ret tt, got ++ Stream.sent s)) p uuid a = (Ret tt, lines ++ buf ++ rest).
Proof.
  intros Hacc Hp Hu Hj Hc Hq Hr Hl. pose proof (snapshot_first _ _ _ _ _ _ _ _ Hr Hl) as [rest Hrest].
  assert (Hk : skipped s = 0%nat).
  { unfold skipped. enough (skipCount s = 0) as -> by done.
    apply (run_snoc_ind (λ s, skipCount s = 0) (λ _, True) ls (new_stream (resolve uuid a) 0 cap st buf t));
      [|by apply Forall_true|exact Hr|done].
    intros l s1 s2 _ Hs H1. by rewrite (step_skip _ _ _ Hs). }
  rewrite Hk in Hrest. simpl in Hrest. exists rest.
  unfold GetJobLogs, stream_request, checked. rewrite Hp. destruct (String.eqb_spec uuid ""); [done|]. simpl.
  unfold job_state. rewrite Hj, Hc. simpl. unfold StreamWithHistory. simpl.
  unfold sendHistoricalLogs, or_nothing. rewrite Hq. unfold relay. rewrite send_all_ok by done. simpl.
  f_equal. f_equal. exact Hrest.
Qed.

(** ** Concrete requests *)

Definition always (_ : nat) : bool := true.

(** A persist service that has one line and one event of each of two kinds. *)
Definition sample_persist : PersistClient := {|
  QueryLogs := λ _, Ok [bytes "building"];
  QueryMetrics := λ _ _ _ _, Err "unavailable"%string;
  QueryExecEvents := λ _ _ _ _, Ok [{| xe_head := {| h_JobUuid := "job"; h_Timestamp := 9; h_Sequence := 1;
    h_Pid := 7; h_Comm := "sh" |}; xe_Ppid := 1; xe_Uid := 0; xe_Gid := 0; xe_Filename := "/bin/sh"; xe_Args := [] |}];
  QueryConnectEvents := λ _ _ _ _, Ok [];
  QueryMmapEvents := λ _ _ _ _, Err "unavailable"%string;
  QueryMprotectEvents := λ _ _ _ _, Ok [];
  QueryFileEvents := λ _ _ _ _, Ok [];
  QueryAcceptEvents := λ _ _ _ _, Ok [];
  QuerySocketDataEvents := λ _ _ _ _, Ok [];
|}.

Lemma stream_request_cases_witness :
  ∃ r, GetJobLogs always None None (λ _ got, (Ret tt, got)) JobService.reader "no such job" (js secret_store) = (Fail (SNotFound r), []).
Proof.
  eexists.
  apply (stream_request_cases None GetJobLogsOp false (sendHistoricalLogs always None) (λ u, or_nothing None (queryPersistLogs always u))
    (λ _ got, (Ret tt, got)) (λ _ got, (Ret tt, got)) JobService.reader "no such job" (js secret_store)); by vm_compute.
Defined.

Lemma telematics_history_witness :
  ∃ l, queryPersistTelematics (SS := insertion_SortSlice) always sample_persist "job" [EventTypeExec; EventTypeFile] 0 0 5 [] =
    (Ret (Z.of_nat (length l)), l) ∧ (∀ e, e ∈ l → wants [EventTypeExec; EventTypeFile] (te_Type e) = true) ∧
    Z.of_nat (length l) ≤ 35.
Proof.
  destruct (telematics_history (SS := insertion_SortSlice) always sample_persist "job" [EventTypeExec; EventTypeFile] 0 0 5 [] (λ _, eq_refl))
    as (l & Hq & _ & _ & Hw & Hn).
  exists l. split; [exact Hq|]. split; [exact Hw|]. apply Hn; [done|]. repeat split; simpl; lia.
Defined.

(** A collector that holds one sample, and nothing else. *)
Definition one_sample_run : list act :=
  [AEmitStart 0 (Some (NewMetricsEvent 5 "job" {| CPUPercent := S754_zero false; MemoryBytes := 1; MemoryLimit := 0;
      DiskReadBytes := 0; DiskWriteBytes := 0; NetRecvBytes := 0; NetSentBytes := 0; GPUPercent := S754_zero false;
      GPUMemoryBytes := 0 |})) false; AEmitAppend 0].
Definition one_sample : collector * list obs := default (NewCollector 2, []) (trun one_sample_run (NewCollector 2)).

Lemma one_sample_history : history 2 one_sample.2 one_sample.1.
Proof. apply (trun_history 2 one_sample_run). by vm_compute. Qed.

Lemma metrics_repeated_witness : ∃ hist k c' os,
  sendHistoricalMetrics always None (Some one_sample.1) "job" [EventTypeMetrics] 0 0 0 [] = (Ret tt, hist) ∧
  trun (follow 7 "job" [EventTypeMetrics] k) one_sample.1 = Some (c', os) ∧
  telemetryEventToMetricsEvent <$> Telemetry.called 7 os = hist ∧ length hist = 1%nat.
Proof.
  destruct (metrics_repeated (SS := insertion_SortSlice) 2 one_sample.2 one_sample.1 "job" 0 7 always one_sample_history)
    as (hist & k & c' & os & H1 & H2 & H3 & H4); [by vm_compute..|done|].
  exists hist, k, c', os. split; [exact H1|]. split; [exact H2|]. split; [exact H3|]. rewrite H4. by vm_compute.
Defined.

(** The live part of the log, for a client that has had the snapshot. *)
Definition told : list label := [LCapture; LSubscribe; LRead; LSend; LSend; LTop].
Definition told_end : Stream.stream :=
  default Stream.fresh (Stream.run told (new_stream u1 0 100 StatusRunning [bytes "building"] 0)).

Lemma logs_repeated_witness : ∃ rest,
  GetJobLogs always (Some sample_persist) None (λ _ got, (Ret tt, got ++ Stream.sent told_end)) JobService.reader u1 (js secret_store)
    = (Ret tt, bytes "building" :: bytes "building" :: rest).
Proof.
  apply (logs_repeated (js secret_store) JobService.reader u1 (DeepCopy secret_job) always sample_persist [bytes "building"]
    100 StatusRunning [bytes "building"] 0 told told_end); [done|by vm_compute..].
Defined.
