(* ===== verification/Metrics.v ===== *)
(** * Job metrics (internal/joblet/metrics/collector.go,
    internal/joblet/adapters/metrics_store_adapter.go)

    A collector per job reads the files of the job's cgroup and nvidia-smi, computes
    rates against its previous sample and publishes a summary to the telemetry collector
    (Telemetry.v).  The store starts and stops the collectors: its operations, the
    collectors' loops and the publications are interleaved steps.  The contents of the
    files, the clock and nvidia-smi's records are arguments. *)

From Stdlib Require Import Ascii String SpecFloat.
From S2P Require Import Prelude GoStrings GoNumbers Telemetry.

Local Open Scope Z_scope.

(** ** Samples *)

(** The six averages of a pressure file: some and full, over 10, 60 and 300 seconds.
    [src/internal/joblet/metrics/domain/models.go:49-54 CPUMetrics] *)
Record Pressure := { some10 : float64; some60 : float64; some300 : float64; full10 : float64; full60 : float64; full300 : float64 }.
Definition no_pressure : Pressure := {| some10 := zero64; some60 := zero64; some300 := zero64; full10 := zero64; full60 := zero64; full300 := zero64 |}.

(** [src/internal/joblet/metrics/domain/models.go CPUMetrics] *)
Record CPUMetrics := {
  UsageUSec : Z; UserUSec : Z; SystemUSec : Z; NrPeriods : Z; NrThrottled : Z; ThrottledUSec : Z;
  UsagePercent : float64; ThrottlePercent : float64; CPUPressure : Pressure;
}.

(** The counters of memory.stat and memory.events that are read, by their names there.
    [src/internal/joblet/metrics/domain/models.go MemoryMetrics] *)
Record MemoryMetrics := {
  MCurrent : Z; MMax : Z; MUsagePercent : float64;
  Anon : Z; File : Z; KernelStack : Z; Slab : Z; Sock : Z; Shmem : Z; FileMapped : Z; FileDirty : Z; FileWriteback : Z;
  PgFault : Z; PgMajFault : Z; OOMEvents : Z; OOMKill : Z; MPressure : Pressure;
}.

(** [src/internal/joblet/metrics/domain/models.go DeviceIOMetrics] *)
Record DeviceIOMetrics := {
  ReadBytes : Z; WriteBytes : Z; ReadOps : Z; WriteOps : Z; DiscardBytes : Z; DiscardOps : Z;
}.

(** [src/internal/joblet/metrics/domain/models.go IOMetrics] *)
Record IOMetrics := {
  Devices : gmap string DeviceIOMetrics; Total : DeviceIOMetrics;
  ReadBPS : float64; WriteBPS : float64; ReadIOPS : float64; WriteIOPS : float64; IOPressure : Pressure;
}.

(** What is never set is left out.
    [src/internal/joblet/metrics/domain/models.go ProcessMetrics] *)
Record ProcessMetrics := { PCurrent : Z; PMax : Z; PEvents : Z }.

(** [src/internal/joblet/metrics/domain/models.go GPUMetrics] *)
Record GPUMetrics := {
  GIndex : Z; GUUID : string; GName : string; ComputeCapability : string; DriverVersion : string;
  Utilization : float64; MemoryUsed : Z; MemoryTotal : Z; MemoryFree : Z; MemoryPercent : float64;
  EncoderUtil : float64; DecoderUtil : float64; SMClock : float64; MemoryClock : float64;
  Temperature : float64; TemperatureMemory : float64; PowerDraw : float64; PowerLimit : float64; FanSpeed : float64;
  ECCErrorsSingle : Z; ECCErrorsDouble : Z; RetiredPages : Z; ProcessesCount : Z; ProcessesMemory : Z; ComputeMode : string;
}.

(** [Network] is part of the sample and never set.
    [src/internal/joblet/metrics/domain/models.go JobMetricsSample] *)
Record JobMetricsSample := {
  SJobUUID : string; STimestamp : Z; SCPU : CPUMetrics; SMemory : MemoryMetrics; SIO : IOMetrics;
  SNetwork : option (Z * Z); SProcess : ProcessMetrics; SGPU : list GPUMetrics;
}.

Definition no_cpu : CPUMetrics := {| UsageUSec := 0; UserUSec := 0; SystemUSec := 0; NrPeriods := 0; NrThrottled := 0;
  ThrottledUSec := 0; UsagePercent := zero64; ThrottlePercent := zero64; CPUPressure := no_pressure |}.
Definition no_device : DeviceIOMetrics := {| ReadBytes := 0; WriteBytes := 0; ReadOps := 0; WriteOps := 0; DiscardBytes := 0; DiscardOps := 0 |}.
Definition no_io : IOMetrics := {| Devices := ∅; Total := no_device; ReadBPS := zero64; WriteBPS := zero64; ReadIOPS := zero64;
  WriteIOPS := zero64; IOPressure := no_pressure |}.

(** ** Reading the files *)

(** The value of [strconv.ParseUint]; its error is ignored throughout. *)
Definition number (s : string) : Z := (ParseUint s).1.

Definition lines (s : string) : list string := Split s (byte_of 10).

(** One line of a file of keys and values: the assignments of its switch, by key. *)
Definition stat_line (known : list string) (m : gmap string Z) (line : string) : gmap string Z :=
  match Fields line with
  | k :: v :: _ => if existsb (String.eqb k) known then <[k := number v]> m else m
  | _ => m
  end.

Definition stat_file (known : list string) (text : string) : gmap string Z :=
  foldl (stat_line known) ∅ (lines text).
Definition counter (m : gmap string Z) (k : string) : Z := default 0 (m !! k).

Section reading.
Context (other : string → float64).

(** The averages of one line.
    [src/internal/joblet/metrics/collector.go:493-508 Collector.parsePSI] *)
Definition psi_average (acc : float64 * float64 * float64) (field : string) : float64 * float64 * float64 :=
  let '(a10, a60, a300) := acc in
  match Split field "=" with
  | [k; v] =>
      if String.eqb k "avg10" then (ParseFloat other v, a60, a300)
      else if String.eqb k "avg60" then (a10, ParseFloat other v, a300)
      else if String.eqb k "avg300" then (a10, a60, ParseFloat other v)
      else acc
  | _ => acc
  end.

(** [src/internal/joblet/metrics/collector.go:487-519 Collector.parsePSI] *)
Definition psi_line (p : Pressure) (line : string) : Pressure :=
  match Fields line with
  | f0 :: ((_ :: _ :: _ :: _) as rest) =>
      let '(a10, a60, a300) := foldl psi_average (zero64, zero64, zero64) rest in
      if String.eqb f0 "some" then {| some10 := a10; some60 := a60; some300 := a300; full10 := full10 p; full60 := full60 p; full300 := full300 p |}
      else if String.eqb f0 "full" then {| some10 := some10 p; some60 := some60 p; some300 := some300 p; full10 := a10; full60 := a60; full300 := a300 |}
      else p
  | _ => p
  end.

(** [src/internal/joblet/metrics/collector.go Collector.parsePSI] *)
Definition parsePSI (data : string) (p : Pressure) : Pressure := foldl psi_line p (lines data).

(** The files of the cgroup: what [os.ReadFile] returns for each. *)
Context (file : string → option string).

Definition pressure_file (name : string) : Pressure :=
  match file name with Some data => parsePSI data no_pressure | None => no_pressure end.

(** The previous sample and its time, and the two readings of the clock in a function.
    [src/internal/joblet/metrics/collector.go:244-246 Collector.collectCPUMetrics] *)
Definition since_previous (prev : option JobMetricsSample) (t1 t2 : Z) : option (JobMetricsSample * float64) :=
  match prev with
  | Some s => if STimestamp s <? t1 then
                let timeDelta := Seconds (t2 - STimestamp s) in
                if lt64 zero64 timeDelta then Some (s, timeDelta) else None
              else None
  | None => None
  end.

(** The difference of two counters, as a [float64]: the subtraction is on [uint64]. *)
Definition delta (now before : Z) : float64 := float_of_Z (uwrap (now - before)).

Definition cpu_keys : list string := ["usage_usec"; "user_usec"; "system_usec"; "nr_periods"; "nr_throttled"; "throttled_usec"].

(** [src/internal/joblet/metrics/collector.go Collector.collectCPUMetrics] *)
Definition collectCPUMetrics (prev : option JobMetricsSample) (t1 t2 : Z) : option CPUMetrics :=
  data ← file "cpu.stat"%string;
  let m := stat_file cpu_keys data in
  let usage := counter m "usage_usec" in
  let throttled := counter m "throttled_usec" in
  let '(percent, throttle) :=
    match since_previous prev t1 t2 with
    | Some (p, timeDelta) =>
        (mul64 (div64 (div64 (delta usage (UsageUSec (SCPU p))) (float_of_Z 1000000)) timeDelta) (float_of_Z 100),
         if 0 <? counter m "nr_periods" then
           let total := mul64 timeDelta (float_of_Z 1000000) in
           if lt64 zero64 total then mul64 (div64 (delta throttled (ThrottledUSec (SCPU p))) total) (float_of_Z 100) else zero64
         else zero64)
    | None => (zero64, zero64)
    end in
  Some {| UsageUSec := usage; UserUSec := counter m "user_usec"; SystemUSec := counter m "system_usec";
    NrPeriods := counter m "nr_periods"; NrThrottled := counter m "nr_throttled"; ThrottledUSec := throttled;
    UsagePercent := percent; ThrottlePercent := throttle; CPUPressure := pressure_file "cpu.pressure" |}.

(** A file with one number, and one that may say "max" instead.
    [src/internal/joblet/metrics/collector.go:274-288 Collector.collectMemoryMetrics] *)
Definition single (name : string) : Z := match file name with Some data => number (TrimSpace data) | None => 0 end.
(** [src/internal/joblet/metrics/collector.go:281-288 Collector.collectMemoryMetrics] *)
Definition limit_file (name : string) : Z :=
  match file name with
  | Some data => let s := TrimSpace data in if String.eqb s "max" then 0 else number s
  | None => 0
  end.
Definition stats (known : list string) (name : string) : gmap string Z :=
  match file name with Some data => stat_file known data | None => ∅ end.

Definition memory_keys : list string := ["anon"; "file"; "kernel_stack"; "slab"; "sock"; "shmem"; "file_mapped"; "file_dirty";
  "file_writeback"; "pgfault"; "pgmajfault"].

(** [src/internal/joblet/metrics/collector.go Collector.collectMemoryMetrics] *)
Definition collectMemoryMetrics : MemoryMetrics :=
  let current := single "memory.current" in
  let max := limit_file "memory.max" in
  let m := stats memory_keys "memory.stat" in
  let ev := stats ["oom"; "oom_kill"]%string "memory.events" in
  {| MCurrent := current; MMax := max;
     MUsagePercent := if 0 <? max then mul64 (div64 (float_of_Z current) (float_of_Z max)) (float_of_Z 100) else zero64;
     Anon := counter m "anon"; File := counter m "file"; KernelStack := counter m "kernel_stack"; Slab := counter m "slab";
     Sock := counter m "sock"; Shmem := counter m "shmem"; FileMapped := counter m "file_mapped"; FileDirty := counter m "file_dirty";
     FileWriteback := counter m "file_writeback"; PgFault := counter m "pgfault"; PgMajFault := counter m "pgmajfault";
     OOMEvents := counter ev "oom"; OOMKill := counter ev "oom_kill"; MPressure := pressure_file "memory.pressure" |}.

Definition io_keys : list string := ["rbytes"; "wbytes"; "rios"; "wios"; "dbytes"; "dios"].

(** One [key=value] of a device: the device's counter is assigned, the total added to.
    [src/internal/joblet/metrics/collector.go:391-417 Collector.collectIOMetrics] *)
Definition io_part (acc : gmap string Z * gmap string Z) (part : string) : gmap string Z * gmap string Z :=
  match Split part "=" with
  | [k; v] =>
      if existsb (String.eqb k) io_keys
      then (<[k := number v]> acc.1, <[k := uwrap (counter acc.2 k + number v)]> acc.2)
      else acc
  | _ => acc
  end.

Definition device_of (m : gmap string Z) : DeviceIOMetrics := {|
  ReadBytes := counter m "rbytes"; WriteBytes := counter m "wbytes"; ReadOps := counter m "rios"; WriteOps := counter m "wios";
  DiscardBytes := counter m "dbytes"; DiscardOps := counter m "dios" |}.

(** One line: a device and its counters.
    [src/internal/joblet/metrics/collector.go:376-420 Collector.collectIOMetrics] *)
Definition io_line (acc : gmap string DeviceIOMetrics * gmap string Z) (line : string) : gmap string DeviceIOMetrics * gmap string Z :=
  if String.eqb line "" then acc else
  match Fields line with
  | device :: ((_ :: _) as parts) =>
      let '(dev, total) := foldl io_part (∅, acc.2) parts in (<[device := device_of dev]> acc.1, total)
  | _ => acc
  end.

(** [src/internal/joblet/metrics/collector.go Collector.collectIOMetrics] *)
Definition collectIOMetrics (prev : option JobMetricsSample) (t1 t2 : Z) : option IOMetrics :=
  data ← file "io.stat"%string;
  let '(devices, totals) := foldl io_line (∅, ∅) (lines data) in
  let all := device_of totals in
  let rate (f : DeviceIOMetrics → Z) := match since_previous prev t1 t2 with
    | Some (p, timeDelta) => div64 (delta (f all) (f (Total (SIO p)))) timeDelta
    | None => zero64
    end in
  Some {| Devices := devices; Total := all; ReadBPS := rate ReadBytes; WriteBPS := rate WriteBytes;
    ReadIOPS := rate ReadOps; WriteIOPS := rate WriteOps; IOPressure := pressure_file "io.pressure" |}.

(** The first line that begins with max.
    [src/internal/joblet/metrics/collector.go:473-481 Collector.collectProcessMetrics] *)
Fixpoint max_events (ls : list string) : Z :=
  match ls with
  | [] => 0
  | line :: ls => match Fields line with
                  | k :: v :: _ => if String.eqb k "max" then number v else max_events ls
                  | _ => max_events ls
                  end
  end.

(** [src/internal/joblet/metrics/collector.go Collector.collectProcessMetrics] *)
Definition collectProcessMetrics : ProcessMetrics := {|
  PCurrent := single "pids.current"; PMax := limit_file "pids.max";
  PEvents := match file "pids.events"%string with Some data => max_events (lines data) | None => 0 end |}.

(** ** GPUs *)

(** nvidia-smi's records for a GPU and a query, after [encoding/csv]; [None]: the
    command failed or its output is no CSV. *)
Context (smi : Z → bool → option (list (list string))).

Definition unavailable (s : string) : bool := String.eqb s "N/A" || String.eqb s "[N/A]" || String.eqb s "".

(** [src/internal/joblet/metrics/collector.go parseFloat64] *)
Definition parseFloat64 (s : string) : float64 :=
  let s := TrimSpace s in if unavailable s then zero64 else ParseFloat other s.
(** [src/internal/joblet/metrics/collector.go parseUint64] *)
Definition parseUint64 (s : string) : Z := let s := TrimSpace s in if unavailable s then 0 else number s.

Definition MiB (s : string) : Z := uwrap (parseUint64 s * 1024 * 1024).

(** [src/internal/joblet/metrics/collector.go Collector.collectGPUProcessInfo] *)
Definition collectGPUProcessInfo (gpuIndex : Z) : Z * Z :=
  match smi gpuIndex true with
  | None => (0, 0)
  | Some records =>
      (Z.of_nat (length records),
       foldl (λ memory record, match record with _ :: used :: _ => uwrap (memory + MiB used) | _ => memory end) 0 records)
  end.

(** [src/internal/joblet/metrics/collector.go Collector.collectSingleGPUMetrics] *)
Definition collectSingleGPUMetrics (gpuIndex : Z) : option GPUMetrics :=
  records ← smi gpuIndex false;
  match records with
  | [] => None
  | r :: _ =>
      if (length r <? 24)%nat then None else
      let field i := nth i r ""%string in
      let used := MiB (field 6%nat) in
      let total := MiB (field 7%nat) in
      let '(count, memory) := collectGPUProcessInfo gpuIndex in
      Some {| GIndex := gpuIndex; GUUID := TrimSpace (field 1%nat); GName := TrimSpace (field 2%nat);
        ComputeCapability := TrimSpace (field 3%nat); DriverVersion := TrimSpace (field 4%nat);
        Utilization := parseFloat64 (field 5%nat); MemoryUsed := used; MemoryTotal := total; MemoryFree := MiB (field 8%nat);
        MemoryPercent := if 0 <? total then mul64 (div64 (float_of_Z used) (float_of_Z total)) (float_of_Z 100) else zero64;
        EncoderUtil := parseFloat64 (field 9%nat); DecoderUtil := parseFloat64 (field 10%nat);
        SMClock := parseFloat64 (field 11%nat); MemoryClock := parseFloat64 (field 12%nat);
        Temperature := parseFloat64 (field 15%nat); TemperatureMemory := parseFloat64 (field 16%nat);
        PowerDraw := parseFloat64 (field 17%nat); PowerLimit := parseFloat64 (field 18%nat); FanSpeed := parseFloat64 (field 19%nat);
        ECCErrorsSingle := parseUint64 (field 20%nat); ECCErrorsDouble := parseUint64 (field 21%nat);
        RetiredPages := parseUint64 (field 22%nat); ProcessesCount := count; ProcessesMemory := memory;
        ComputeMode := TrimSpace (field 23%nat) |}
  end.

(** [src/internal/joblet/metrics/collector.go Collector.collectGPUMetrics] *)
Definition collectGPUMetrics (gpuIndices : list Z) : list GPUMetrics := omap collectSingleGPUMetrics gpuIndices.

(** ** A sample *)

(** The clock is read at the start, and twice for each of the rates.
    [src/internal/joblet/metrics/collector.go Collector.CollectSample] *)
Definition CollectSample (jobID : string) (gpuIndices : list Z) (prev : option JobMetricsSample) (now : Z) (clock : Z * Z * (Z * Z))
    : JobMetricsSample := {|
  SJobUUID := jobID; STimestamp := now;
  SCPU := default no_cpu (collectCPUMetrics prev clock.1.1 clock.1.2);
  SMemory := collectMemoryMetrics;
  SIO := default no_io (collectIOMetrics prev clock.2.1 clock.2.2);
  SNetwork := None;
  SProcess := collectProcessMetrics;
  SGPU := collectGPUMetrics gpuIndices |}.
End reading.

(** What is published of a sample; the conversions of [uint64] to [int64] wrap.
    [src/internal/joblet/adapters/metrics_store_adapter.go:138-157 MetricsStoreAdapter.PublishMetrics] *)
Definition telemetryData (sample : JobMetricsSample) : MetricsData := {|
  Telemetry.CPUPercent := UsagePercent (SCPU sample);
  Telemetry.MemoryBytes := wrap64 (MCurrent (SMemory sample)); Telemetry.MemoryLimit := wrap64 (MMax (SMemory sample));
  Telemetry.DiskReadBytes := wrap64 (ReadBytes (Total (SIO sample))); Telemetry.DiskWriteBytes := wrap64 (WriteBytes (Total (SIO sample)));
  Telemetry.NetRecvBytes := match SNetwork sample with Some (rx, _) => wrap64 rx | None => 0 end;
  Telemetry.NetSentBytes := match SNetwork sample with Some (_, tx) => wrap64 tx | None => 0 end;
  Telemetry.GPUPercent := match SGPU sample with g :: _ => Utilization g | [] => zero64 end;
  Telemetry.GPUMemoryBytes := match SGPU sample with g :: _ => wrap64 (MemoryUsed g) | [] => 0 end |}.

(** ** The store and its collectors *)

Record running := {
  c_jobID : string; c_gpuIndices : list Z; c_interval : Z; c_previous : option JobMetricsSample;
  c_cancelled : bool; c_done : bool;
}.

(** Who holds the mutex of the collectors while a collector is stopped. *)
Inductive holder := HStop (jobID : string) | HDelete (id : nat) (jobID : string) | HClose (rest : list string).

(** A deletion that has left the mutex: what it does next. *)
Inductive delete_stage := DClear | DPersist.

Inductive store_error := EClosed | EExists | ECreate | ENotRunning | EPersist (message : string).

(** What can be seen: publications to the telemetry collector, calls that clear a
    job's telemetry or ask the persist service to delete it, and returns; [VStopped]
    is also seen when a deletion has stopped its collector. *)
Inductive seen :=
| VPublish (jobID : string) (d : MetricsData) | VClear (jobID : string) | VPersistDelete (jobID : string)
| VStarted (jobID : string) | VStopped (jobID : string) | VDeleted (jobID : string) (r : result store_error unit)
| VRefused (jobID : string) (e : store_error) | VClosed.

Record mstore := {
  running_ : gmap nat running;
  collectors : gmap string nat;
  starting : gmap nat (string * list Z * Z);
  deleting : gmap nat (string * delete_stage);
  mutex : option (holder * nat);
  closed : bool;
  publishes : bool;
  persist : bool;
}.

(** [src/internal/joblet/adapters/metrics_store_adapter.go NewMetricsStoreAdapter] *)
Definition NewMetricsStoreAdapter (telemetryCollector persistClient : bool) : mstore := {|
  running_ := ∅; collectors := ∅; starting := ∅; deleting := ∅; mutex := None; closed := false;
  publishes := telemetryCollector; persist := persistClient |}.

Definition set_running h s := {| running_ := h; collectors := collectors s; starting := starting s; deleting := deleting s;
  mutex := mutex s; closed := closed s; publishes := publishes s; persist := persist s |}.
Definition set_collectors m s := {| running_ := running_ s; collectors := m; starting := starting s; deleting := deleting s;
  mutex := mutex s; closed := closed s; publishes := publishes s; persist := persist s |}.
Definition set_starting m s := {| running_ := running_ s; collectors := collectors s; starting := m; deleting := deleting s;
  mutex := mutex s; closed := closed s; publishes := publishes s; persist := persist s |}.
Definition set_deleting m s := {| running_ := running_ s; collectors := collectors s; starting := starting s; deleting := m;
  mutex := mutex s; closed := closed s; publishes := publishes s; persist := persist s |}.
Definition set_mutex m s := {| running_ := running_ s; collectors := collectors s; starting := starting s; deleting := deleting s;
  mutex := m; closed := closed s; publishes := publishes s; persist := persist s |}.
Definition set_closed b s := {| running_ := running_ s; collectors := collectors s; starting := starting s; deleting := deleting s;
  mutex := mutex s; closed := b; publishes := publishes s; persist := persist s |}.

Definition with_flags (cancelled done_ : bool) (c : running) : running := {|
  c_jobID := c_jobID c; c_gpuIndices := c_gpuIndices c; c_interval := c_interval c; c_previous := c_previous c;
  c_cancelled := cancelled; c_done := done_ |}.

(** The cancellation; the wait for the loop is the mutex that stays taken.
    [src/internal/joblet/metrics/collector.go:96-98 Collector.Stop] *)
Definition cancel (id : nat) (s : mstore) : mstore :=
  match running_ s !! id with
  | Some c => set_running (<[id := with_flags true (c_done c) c]> (running_ s)) s
  | None => s
  end.

(** What a collector finds on the host when it takes a sample. *)
Record host := {
  h_file : string → option string; h_smi : Z → bool → option (list (list string)); h_other : string → float64;
  h_now : Z; h_clock : Z * Z * (Z * Z);
}.

Definition sample_on (h : host) (c : running) : JobMetricsSample :=
  CollectSample (h_other h) (h_file h) (h_smi h) (c_jobID c) (c_gpuIndices c) (c_previous c) (h_now h) (h_clock h).

(** A turn of the loop: the first sample, or one for a tick.  After the cancellation a
    tick may still be chosen, as [select] takes any case that is ready.
    [src/internal/joblet/metrics/collector.go:127-143 Collector.collectAndPublish] *)
Definition collectAndPublish (id : nat) (h : host) (s : mstore) : option (mstore * list seen) :=
  c ← running_ s !! id;
  if c_done c then None else
  let sample := sample_on h c in
  Some (set_running (<[id := {| c_jobID := c_jobID c; c_gpuIndices := c_gpuIndices c; c_interval := c_interval c;
      c_previous := Some sample; c_cancelled := c_cancelled c; c_done := false |}]> (running_ s)) s,
    if publishes s then [VPublish (c_jobID c) (telemetryData sample)] else []).

(** The loop sees the cancellation.
    [src/internal/joblet/metrics/collector.go:119-121 Collector.collectionLoop] *)
Definition loop_ends (id : nat) (s : mstore) : option (mstore * list seen) :=
  c ← running_ s !! id;
  if c_cancelled c && negb (c_done c)
  then Some (set_running (<[id := with_flags true true c]> (running_ s)) s, []) else None.

(** The check that the store is open, which waits for a Close in progress.
    [src/internal/joblet/adapters/metrics_store_adapter.go:63-75 MetricsStoreAdapter.StartCollector] *)
Definition StartCollector_check (id : nat) (jobID : string) (gpus : list Z) (interval : Z) (s : mstore) : option (mstore * list seen) :=
  match starting s !! id, mutex s with
  | Some _, _ | _, Some (HClose _, _) => None
  | None, _ =>
      if closed s then Some (s, [VRefused jobID EClosed])
      else Some (set_starting (<[id := (jobID, gpus, interval)]> (starting s)) s, [])
  end.

(** [src/internal/joblet/adapters/metrics_store_adapter.go:77-111 MetricsStoreAdapter.StartCollector] *)
Definition StartCollector_run (id : nat) (created : bool) (s : mstore) : option (mstore * list seen) :=
  '(jobID, gpus, interval) ← starting s !! id;
  match mutex s with
  | Some _ => None
  | None =>
      let s1 := set_starting (delete id (starting s)) s in
      match collectors s !! jobID with
      | Some _ => Some (s1, [VRefused jobID EExists])
      | None =>
          if negb created then Some (s1, [VRefused jobID ECreate]) else
          let k := base.fresh (dom (running_ s)) in
          let c := {| c_jobID := jobID; c_gpuIndices := gpus; c_interval := if interval =? 0 then 5000000000 else interval;
            c_previous := None; c_cancelled := false; c_done := false |} in
          Some (set_collectors (<[jobID := k]> (collectors s)) (set_running (<[k := c]> (running_ s)) s1), [VStarted jobID])
      end
  end.

(** [src/internal/joblet/adapters/metrics_store_adapter.go:115-124 MetricsStoreAdapter.StopCollector] *)
Definition StopCollector (jobID : string) (s : mstore) : option (mstore * list seen) :=
  match mutex s, collectors s !! jobID with
  | Some _, _ => None
  | None, None => Some (s, [VRefused jobID ENotRunning])
  | None, Some k => Some (set_mutex (Some (HStop jobID, k)) (cancel k s), [])
  end.

(** [src/internal/joblet/adapters/metrics_store_adapter.go:163-170 MetricsStoreAdapter.DeleteJobMetrics] *)
Definition DeleteJobMetrics (id : nat) (jobID : string) (s : mstore) : option (mstore * list seen) :=
  match mutex s, deleting s !! id, collectors s !! jobID with
  | Some _, _, _ | _, Some _, _ => None
  | None, None, None => Some (set_deleting (<[id := (jobID, DClear)]> (deleting s)) s, [])
  | None, None, Some k => Some (set_mutex (Some (HDelete id jobID, k)) (cancel k s), [])
  end.

(** [src/internal/joblet/adapters/metrics_store_adapter.go:172-201 MetricsStoreAdapter.DeleteJobMetrics] *)
Definition delete_next (id : nat) (answer : result string bool) (s : mstore) : option (mstore * list seen) :=
  '(jobID, stage) ← deleting s !! id;
  match stage with
  | DClear =>
      Some (set_deleting (<[id := (jobID, DPersist)]> (deleting s)) s, if publishes s then [VClear jobID] else [])
  | DPersist =>
      let s1 := set_deleting (delete id (deleting s)) s in
      if persist s then
        Some (s1, [VPersistDelete jobID; VDeleted jobID match answer with
          | Err m => Err (EPersist m) | Ok true => Ok tt | Ok false => Err (EPersist "") end])
      else Some (s1, [VDeleted jobID (Ok tt)])
  end.

(** The next collector to stop, in the order of the map's range.
    [src/internal/joblet/adapters/metrics_store_adapter.go:214-220 MetricsStoreAdapter.Close] *)
Fixpoint close_next (rest : list string) (s : mstore) : mstore * list seen :=
  match rest with
  | [] => (set_mutex None (set_closed true (set_collectors ∅ s)), [VClosed])
  | jobID :: rest =>
      match collectors s !! jobID with
      | Some k => (set_mutex (Some (HClose rest, k)) (cancel k s), [])
      | None => close_next rest s
      end
  end.

(** [order]: how the map is ranged over.
    [src/internal/joblet/adapters/metrics_store_adapter.go MetricsStoreAdapter.Close] *)
Definition Close (order : list string) (s : mstore) : option (mstore * list seen) :=
  match mutex s with
  | Some _ => None
  | None => if closed s then Some (s, []) else
      if bool_decide (order ≡ₚ (map_to_list (collectors s)).*1) then Some (close_next order s) else None
  end.

(** [Stop] returns when the loop has ended, and its caller goes on.
    [src/internal/joblet/adapters/metrics_store_adapter.go:124-132 MetricsStoreAdapter.StopCollector] *)
Definition stopped (s : mstore) : option (mstore * list seen) :=
  '(h, k) ← mutex s;
  c ← running_ s !! k;
  if negb (c_done c) then None else
  match h with
  | HStop jobID => Some (set_mutex None (set_collectors (delete jobID (collectors s)) s), [VStopped jobID])
  | HDelete id jobID => Some (set_deleting (<[id := (jobID, DClear)]> (deleting s))
      (set_mutex None (set_collectors (delete jobID (collectors s)) s)), [VStopped jobID])
  | HClose rest => Some (close_next rest s)
  end.

Inductive mact :=
| MCheck (id : nat) (jobID : string) (gpus : list Z) (interval : Z) | MRun (id : nat) (created : bool)
| MTick (id : nat) (h : host) | MLoopEnd (id : nat) | MStop (jobID : string)
| MDelete (id : nat) (jobID : string) | MDeleteNext (id : nat) (answer : result string bool)
| MClose (order : list string) | MStopped.

Definition mstep (a : mact) (s : mstore) : option (mstore * list seen) :=
  match a with
  | MCheck id j g i => StartCollector_check id j g i s
  | MRun id created => StartCollector_run id created s
  | MTick id h => collectAndPublish id h s
  | MLoopEnd id => loop_ends id s
  | MStop j => StopCollector j s
  | MDelete id j => DeleteJobMetrics id j s
  | MDeleteNext id r => delete_next id r s
  | MClose order => Close order s
  | MStopped => stopped s
  end.

(** What was seen, from a new store on. *)
Inductive mhistory (t p : bool) : list seen → mstore → Prop :=
| mhistory_new : mhistory t p [] (NewMetricsStoreAdapter t p)
| mhistory_step tr s a s' os : mhistory t p tr s → mstep a s = Some (s', os) → mhistory t p (tr ++ os) s'.

Fixpoint mrun (acts : list mact) (s : mstore) : option (mstore * list seen) :=
  match acts with
  | [] => Some (s, [])
  | a :: acts => '(s1, os) ← mstep a s; '(s2, os') ← mrun acts s1; Some (s2, os ++ os')
  end.

(** ** The invariant of the store *)

(** Every collector that still runs is registered under its job, what is registered
    exists, and whoever waits for a collector waits for a registered one. *)
Record minv (s : mstore) : Prop := {
  m_live : ∀ k c, running_ s !! k = Some c → c_done c = false → collectors s !! c_jobID c = Some k;
  m_registered : ∀ j k, collectors s !! j = Some k → ∃ c, running_ s !! k = Some c ∧ c_jobID c = j;
  m_waiting : match mutex s with
    | None => True
    | Some (HStop j, k) | Some (HDelete _ j, k) => collectors s !! j = Some k
    | Some (HClose rest, k) => ∀ j k', collectors s !! j = Some k' →
        k' = k ∨ j ∈ rest ∨ ∃ c, running_ s !! k' = Some c ∧ c_done c = true
    end;
}.

(** What a step leaves: a registered job was registered before or has just been started. *)
Definition explained (s s' : mstore) (os : list seen) : Prop :=
  (∀ j, is_Some (collectors s' !! j) →
    (is_Some (collectors s !! j) ∧ VStopped j ∉ os ∧ VClosed ∉ os) ∨ os = [VStarted j]) ∧
  (∀ j d, VPublish j d ∈ os → os = [VPublish j d] ∧ is_Some (collectors s !! j)).

Lemma explained_same s s' os :
  collectors s' = collectors s → (∀ o, o ∈ os → (∀ j, o ≠ VStopped j) ∧ o ≠ VClosed ∧ ∀ j d, o ≠ VPublish j d) → explained s s' os.
Proof.
  intros E H. split.
  - intros j Hj. left. rewrite E in Hj. split; [done|]. split; intros Hin; apply H in Hin as (H1 & H2 & _); naive_solver.
  - intros j d Hin. apply H in Hin as (_ & _ & H3). naive_solver.
Qed.

(** Changing a collector in place, or the parts of the state the invariant does not
    speak of. *)
Lemma minv_frame s s' :
  (∀ k, running_ s' !! k = running_ s !! k ∨
    ∃ c c', running_ s !! k = Some c ∧ running_ s' !! k = Some c' ∧ c_jobID c' = c_jobID c ∧ (c_done c = true → c_done c' = true)) →
  collectors s' = collectors s → mutex s' = mutex s → minv s → minv s'.
Proof.
  intros Hr Hc Hm [L R W]. split.
  - intros k c' Hk Hd. rewrite Hc. destruct (Hr k) as [E|(c & c1 & H1 & H2 & H3 & H4)].
    + rewrite E in Hk. by apply L.
    + rewrite H2 in Hk. injection Hk as ->. rewrite H3. apply L; [done|]. destruct (c_done c); [|done]. by rewrite H4 in Hd.
  - intros j k Hj. rewrite Hc in Hj. destruct (R j k Hj) as (c & H1 & H2). destruct (Hr k) as [E|(c0 & c1 & H3 & H4 & H5 & _)].
    + exists c. by rewrite E.
    + exists c1. split; [done|]. rewrite H3 in H1. injection H1 as ->. by rewrite H5.
  - rewrite Hm, Hc. destruct (mutex s) as [[[j|i j|rest] k]|]; try done.
    intros j k' Hj. destruct (W j k' Hj) as [->|[?|(c & H1 & H2)]]; [by left|by right; left|]. right. right.
    destruct (Hr k') as [E|(c0 & c1 & H3 & H4 & _ & H5)]; [exists c; by rewrite E|].
    exists c1. split; [done|]. rewrite H3 in H1. injection H1 as ->. by apply H5.
Qed.

Lemma cancel_frame k s : running_ (cancel k s) = running_ s ∨ ∃ c, running_ s !! k = Some c ∧
  running_ (cancel k s) = <[k := with_flags true (c_done c) c]> (running_ s).
Proof. unfold cancel. destruct (running_ s !! k) as [c|] eqn:E; [right; eauto|by left]. Qed.

Lemma cancel_inv k s : minv s → minv (cancel k s).
Proof.
  apply minv_frame; [|by unfold cancel; case_match..].
  intros k'. destruct (cancel_frame k s) as [->|(c & Hc & ->)]; [by left|].
  destruct (decide (k' = k)) as [->|Hn]; [|left; by rewrite lookup_insert_ne].
  right. exists c. eexists. rewrite lookup_insert_eq. by repeat split.
Qed.

Lemma collectors_cancel k s : collectors (cancel k s) = collectors s.
Proof. unfold cancel. by case_match. Qed.
Lemma mutex_cancel k s : mutex (cancel k s) = mutex s.
Proof. unfold cancel. by case_match. Qed.

Lemma minv_mutex m s : minv s →
  match m with
  | None => True
  | Some (HStop j, k) | Some (HDelete _ j, k) => collectors s !! j = Some k
  | Some (HClose rest, k) => ∀ j k', collectors s !! j = Some k' →
      k' = k ∨ j ∈ rest ∨ ∃ c, running_ s !! k' = Some c ∧ c_done c = true
  end → minv (set_mutex m s).
Proof. intros [L R W] H. by split. Qed.

(** A collector that has ended leaves the map. *)
Lemma minv_remove j k c s : minv s → mutex s = None → collectors s !! j = Some k → running_ s !! k = Some c → c_done c = true →
  minv (set_collectors (delete j (collectors s)) s).
Proof.
  intros [L R W] Hm Hj Hk Hd. split; simpl; [| |by rewrite Hm].
  - intros k' c' Hk' Hd'. rewrite lookup_delete_ne; [by apply L|].
    intros ->. pose proof (L _ _ Hk' Hd'). simplify_eq. congruence.
  - intros j' k' [_ Hj']%lookup_delete_Some. by apply R.
Qed.

(** What closing does after a collector has ended. *)
Lemma close_next_inv rest : ∀ s s' os, minv s →
  (∀ j k, collectors s !! j = Some k → j ∈ rest ∨ ∃ c, running_ s !! k = Some c ∧ c_done c = true) →
  close_next rest s = (s', os) →
  minv s' ∧ ((collectors s' = ∅ ∧ os = [VClosed]) ∨ (collectors s' = collectors s ∧ os = [])).
Proof.
  induction rest as [|j rest IH]; intros s s' os I Hr H; simpl in H.
  - simplify_eq. split; [|by left]. destruct I as [L R W]. split; simpl; [|done|done].
    intros k c Hk Hd. destruct (Hr _ _ (L _ _ Hk Hd)) as [Hin|(c' & H1 & H2)]; [by apply elem_of_nil in Hin|].
    rewrite Hk in H1. simplify_eq. congruence.
  - destruct (collectors s !! j) as [k|] eqn:Hj; simplify_eq.
    + split; [|right; split; [simpl; apply collectors_cancel|done]].
      apply minv_mutex; [by apply cancel_inv|]. rewrite collectors_cancel. intros j' k' Hj'.
      destruct (Hr j' k' Hj') as [[->|Hin]%elem_of_cons|(c & H1 & H2)]; [left; congruence|by right; left|].
      destruct (decide (k' = k)) as [->|Hn]; [by left|]. right. right.
      destruct (cancel_frame k s) as [->|(c0 & _ & ->)]; [by exists c|]. exists c. by rewrite lookup_insert_ne.
    + eapply IH; [done| |done]. intros j' k' Hj'.
      destruct (Hr j' k' Hj') as [[->|Hin]%elem_of_cons|?]; [congruence|by left|by right].
Qed.

Lemma stop_explained (h : holder) k s :
  minv s → mutex s = None →
  match h with HStop j | HDelete _ j => collectors s !! j = Some k | HClose _ => False end →
  minv (set_mutex (Some (h, k)) (cancel k s)) ∧ explained s (set_mutex (Some (h, k)) (cancel k s)) [].
Proof.
  intros I Hm Hh. split.
  - apply minv_mutex; [by apply cancel_inv|]. rewrite collectors_cancel. by destruct h.
  - apply explained_same; [simpl; apply collectors_cancel|]. by intros o ?%elem_of_nil.
Qed.

Lemma closing_explained s s' os : (collectors s' = ∅ ∧ os = [VClosed]) ∨ (collectors s' = collectors s ∧ os = []) → explained s s' os.
Proof.
  intros [[Hc ->]|[Hc ->]].
  - split; [intros j [? H]; by rewrite Hc, lookup_empty in H|]. by intros j d ?%list_elem_of_singleton.
  - apply explained_same; [done|]. by intros o ?%elem_of_nil.
Qed.

Lemma release_explained j s s' :
  collectors s' = delete j (collectors s) → explained s s' [VStopped j].
Proof.
  intros Hc. split; [|by intros ? ? ?%list_elem_of_singleton].
  intros j' [k [Hn Hj]%(eq_ind _ (λ m : gmap string nat, m !! j' = Some k → _) (λ H, proj1 (lookup_delete_Some _ _ _ _) H) _ (eq_sym Hc))].
  left. split; [done|]. split; intros ?%list_elem_of_singleton; congruence.
Qed.

Lemma mstep_inv a s s' os : minv s → mstep a s = Some (s', os) → minv s' ∧ explained s s' os.
Proof.
  intros I H. destruct a as [id j g i|id created|id h|id|j|id j|id r|order|]; simpl in H.
  - unfold StartCollector_check in H. assert (E : s' = s ∧ os = [VRefused j EClosed] ∨ s' = set_starting (<[id := (j, g, i)]> (starting s)) s ∧ os = []).
    { repeat case_match; simplify_eq; eauto. }
    destruct E as [[-> ->]|[-> ->]]; (split; [first [done|by apply (minv_frame s); [by left|..]]|]);
      apply explained_same; try done; [by intros o ->%list_elem_of_singleton|by intros o ?%elem_of_nil].
  - unfold StartCollector_run in H. destruct (starting s !! id) as [[[j g] i]|]; simplify_eq/=.
    destruct (mutex s) eqn:Hm; [done|]. set (s1 := set_starting _ s) in H.
    assert (I1 : minv s1) by (by apply (minv_frame s); [by left|..]).
    destruct (collectors s !! j) as [k|] eqn:Hj; [|destruct created]; simplify_eq/=.
    + split; [done|]. apply explained_same; [done|]. by intros o ->%list_elem_of_singleton.
    + set (k := base.fresh (dom (running_ s))).
      assert (Hf : running_ s !! k = None) by (apply not_elem_of_dom, is_fresh).
      split; [|split; [|by intros ? ? ?%list_elem_of_singleton]].
      * destruct I as [L R W]. split; simpl; [| |by rewrite Hm].
        -- intros k' c' [[<- <-]|[Hn Hk]]%lookup_insert_Some Hd; simpl; [by rewrite lookup_insert_eq|].
           pose proof (L _ _ Hk Hd). rewrite lookup_insert_ne; [done|]. congruence.
        -- intros j' k' [[<- <-]|[Hn Hk]]%lookup_insert_Some; [rewrite lookup_insert_eq; eauto|].
           destruct (R _ _ Hk) as (c & Hc & ?). exists c. rewrite lookup_insert_ne; [done|congruence].
      * simpl. intros j' [k' [[<- <-]|[Hn Hk]]%lookup_insert_Some]; [by right|]. left.
        split; [done|]. split; intros ?%list_elem_of_singleton; congruence.
    + split; [done|]. apply explained_same; [done|]. by intros o ->%list_elem_of_singleton.
  - unfold collectAndPublish in H. destruct (running_ s !! id) as [c|] eqn:Hc; simplify_eq/=.
    destruct (c_done c) eqn:Hd; simplify_eq. split.
    + apply (minv_frame s); [|done..|done]. intros k. simpl. destruct (decide (k = id)) as [->|Hn]; [|left; by rewrite lookup_insert_ne].
      right. exists c. eexists. rewrite lookup_insert_eq. repeat split; simpl; congruence.
    + assert (Hr : is_Some (collectors s !! c_jobID c)) by (by rewrite (m_live s I _ _ Hc Hd)).
      split.
      * simpl. intros j Hj. left. split; [done|]. by destruct (publishes s); split; try (intros ?%list_elem_of_singleton); try (intros ?%elem_of_nil).
      * intros j d. destruct (publishes s); [|by intros ?%elem_of_nil]. intros ?%list_elem_of_singleton. by simplify_eq.
  - unfold loop_ends in H. destruct (running_ s !! id) as [c|] eqn:Hc; simplify_eq/=.
    destruct (c_cancelled c && negb (c_done c)) eqn:Hd; simplify_eq. split.
    + apply (minv_frame s); [|done..|done]. intros k. simpl. destruct (decide (k = id)) as [->|Hn]; [|left; by rewrite lookup_insert_ne].
      right. exists c. eexists. by rewrite lookup_insert_eq.
    + apply explained_same; [done|]. by intros o ?%elem_of_nil.
  - unfold StopCollector in H. destruct (mutex s) eqn:Hm; [done|]. destruct (collectors s !! j) as [k|] eqn:Hj; simplify_eq.
    + by apply stop_explained.
    + split; [done|]. apply explained_same; [done|]. by intros o ->%list_elem_of_singleton.
  - unfold DeleteJobMetrics in H. destruct (mutex s) eqn:Hm; [done|]. destruct (deleting s !! id); [done|].
    destruct (collectors s !! j) as [k|] eqn:Hj; simplify_eq; [by apply stop_explained|].
    split; [by apply (minv_frame s); [by left|..]|]. apply explained_same; [done|]. by intros o ?%elem_of_nil.
  - unfold delete_next in H. destruct (deleting s !! id) as [[j st]|]; simplify_eq/=.
    assert (E : minv s' ∧ collectors s' = collectors s ∧ ∀ o, o ∈ os → o = VClear j ∨ o = VPersistDelete j ∨ ∃ r, o = VDeleted j r).
    { destruct st; [|destruct (persist s)]; simplify_eq; (split; [by apply (minv_frame s); [by left|..]|]); (split; [done|]); intros o Ho.
      - destruct (publishes s); [apply list_elem_of_singleton in Ho as ->; by left|by apply elem_of_nil in Ho].
      - apply elem_of_cons in Ho as [->|Ho%list_elem_of_singleton]; [by right; left|]. right. right. eauto.
      - apply list_elem_of_singleton in Ho as ->. right. right. eauto. }
    destruct E as (I' & Hc & Ho). split; [done|]. apply explained_same; [done|].
    intros o [->|[->|[? ->]]]%Ho; by repeat split.
  - unfold Close in H. destruct (mutex s) eqn:Hm; [done|]. destruct (closed s); simplify_eq.
    + split; [done|]. apply explained_same; [done|]. by intros o ?%elem_of_nil.
    + case_bool_decide as Hp; simplify_eq. destruct (close_next order s) as [s1 os1] eqn:E. simplify_eq.
      destruct (close_next_inv order s s' os I) as [I' Hx]; [|done|split; [done|by apply closing_explained]].
      intros j k Hj. left. rewrite Hp. apply list_elem_of_fmap. exists (j, k). split; [done|]. by apply elem_of_map_to_list.
  - unfold stopped in H. destruct (mutex s) as [[h k]|] eqn:Hm; simplify_eq/=. destruct (running_ s !! k) as [c|] eqn:Hk; simplify_eq/=.
    destruct (c_done c) eqn:Hd; simplify_eq/=. pose proof (m_waiting s I) as W. rewrite Hm in W.
    assert (I0 : minv (set_mutex None s)) by (by apply minv_mutex).
    destruct h as [j|id j|rest]; simplify_eq.
    + split; [|by apply release_explained]. exact (minv_remove j k c (set_mutex None s) I0 eq_refl W Hk Hd).
    + split; [|by apply release_explained].
      apply (minv_frame (set_collectors (delete j (collectors s)) (set_mutex None s))); [by left|done..|].
      exact (minv_remove j k c (set_mutex None s) I0 eq_refl W Hk Hd).
    + destruct (close_next_inv rest s s' os I) as [I' Hx]; [|done|split; [done|by apply closing_explained]].
      intros j k' [->|[?|?]]%W; [right; eauto|by left|by right].
Qed.

Lemma minv_new t p : minv (NewMetricsStoreAdapter t p).
Proof. split; simpl; [by intros k c ?%lookup_empty_Some|by intros j k ?%lookup_empty_Some|done]. Qed.

Lemma mhistory_inv t p tr s : mhistory t p tr s → minv s.
Proof. induction 1 as [|tr s a s' os _ IH Hs]; [apply minv_new|]. by apply (mstep_inv _ _ _ _ IH Hs). Qed.

(** A collector of the job has been started and nothing has stopped it since. *)
Definition started_since (j : string) (tr : list seen) : Prop :=
  ∃ a b, tr = a ++ VStarted j :: b ∧ VStopped j ∉ b ∧ VClosed ∉ b.

Lemma started_more j tr os : started_since j tr → VStopped j ∉ os → VClosed ∉ os → started_since j (tr ++ os).
Proof.
  intros (a & b & -> & H1 & H2) H3 H4. exists a, (b ++ os). rewrite <- app_assoc. split; [done|].
  split; rewrite elem_of_app; naive_solver.
Qed.

Lemma registered_started t p tr s : mhistory t p tr s → ∀ j, is_Some (collectors s !! j) → started_since j tr.
Proof.
  induction 1 as [|tr s a s' os H IH Hs]; intros j Hj; [simpl in Hj; rewrite lookup_empty in Hj; by destruct Hj|].
  destruct (mstep_inv _ _ _ _ (mhistory_inv _ _ _ _ H) Hs) as (_ & He & _).
  destruct (He j Hj) as [(H1 & H2 & H3)| ->]; [apply started_more; [by apply IH|done..]|].
  exists tr, []. split; [done|]. split; apply not_elem_of_nil.
Qed.

Lemma app_cons_inv {A} (l1 l2 a b : list A) x : l1 ++ l2 = a ++ x :: b →
  (∃ b', l1 = a ++ x :: b') ∨ (∃ a', l2 = a' ++ x :: b ∧ a = l1 ++ a').
Proof.
  revert a. induction l1 as [|y l1 IH]; intros a H; [right; by exists a|].
  destruct a as [|z a]; [injection H as <- _; left; by exists l1|]. injection H as -> H.
  destruct (IH a H) as [[b' ->]|(a' & -> & ->)]; [left; by exists b'|right; by exists a'].
Qed.

(** At any time a job has at most one collector that still runs, and whatever is
    published for a job was sampled while a collector of that job was started and not
    stopped: once StopCollector, DeleteJobMetrics or Close has gone past the collector,
    nothing is published for the job until it is started again, so that the telemetry
    cleared by a deletion is not filled again by a late sample. *)
Theorem published_while_collected t p tr s :
  mhistory t p tr s →
  (∀ k k' c c', running_ s !! k = Some c → running_ s !! k' = Some c' → c_done c = false → c_done c' = false →
     c_jobID c = c_jobID c' → k = k') ∧
  (∀ a b j d, tr = a ++ VPublish j d :: b → started_since j a).
Proof.
  intros H. split.
  - intros k k' c c' Hk Hk' Hd Hd' Hj. pose proof (mhistory_inv _ _ _ _ H) as [L _ _].
    pose proof (L _ _ Hk Hd). pose proof (L _ _ Hk' Hd'). congruence.
  - induction H as [|tr s a s' os H IH Hs]; intros l r j d Heq; [by destruct l|].
    destruct (app_cons_inv _ _ _ _ _ Heq) as [[r' ->]|(l' & -> & ->)]; [by eapply IH|].
    destruct (mstep_inv _ _ _ _ (mhistory_inv _ _ _ _ H) Hs) as (_ & _ & Hp).
    destruct (Hp j d) as [E Hj]; [apply elem_of_app; right; by left|].
    destruct l' as [|? [|]]; simplify_eq/=. rewrite app_nil_r. by eapply registered_started.
Qed.

(** A start that passed the check for a closed store before Close runs after it: the
    collector runs on, and a second Close does not look for it. *)
Definition late_start : list mact :=
  [MCheck 1 "job" [] 0; MClose []; MRun 1 true; MClose []].
Example started_after_close :
  ∃ s os c, mrun late_start (NewMetricsStoreAdapter true true) = Some (s, os) ∧ os = [VClosed; VStarted "job"] ∧
    closed s = true ∧ running_ s !! 0%nat = Some c ∧ c_cancelled c = false.
Proof. eexists _, _, _. split; [vm_compute; reflexivity|]. by repeat split. Qed.

(** ** What a sample says *)

(** The lines the kernel writes to io.stat. *)
Definition io_text1 (dev : string) (d : DeviceIOMetrics) : list (list ascii) :=
  let kv k n := (bytes k ++ "="%char :: bytes (Itoa n)) in
  [bytes dev; kv "rbytes"%string (ReadBytes d); kv "wbytes"%string (WriteBytes d); kv "rios"%string (ReadOps d); kv "wios"%string (WriteOps d);
   kv "dbytes"%string (DiscardBytes d); kv "dios"%string (DiscardOps d)].
Definition io_text (devs : list (string * DeviceIOMetrics)) : string :=
  of_bytes (join_bytes (byte_of 10) (((λ '(n, d), join_bytes " " (io_text1 n d)) <$> devs) ++ [[]])).

Definition device_ok (d : DeviceIOMetrics) : Prop :=
  in_uint64 (ReadBytes d) ∧ in_uint64 (WriteBytes d) ∧ in_uint64 (ReadOps d) ∧ in_uint64 (WriteOps d) ∧
  in_uint64 (DiscardBytes d) ∧ in_uint64 (DiscardOps d).

(** The sums over all devices, on 64 bits. *)
Definition add_device (a d : DeviceIOMetrics) : DeviceIOMetrics := {|
  ReadBytes := uwrap (ReadBytes a + ReadBytes d); WriteBytes := uwrap (WriteBytes a + WriteBytes d);
  ReadOps := uwrap (ReadOps a + ReadOps d); WriteOps := uwrap (WriteOps a + WriteOps d);
  DiscardBytes := uwrap (DiscardBytes a + DiscardBytes d); DiscardOps := uwrap (DiscardOps a + DiscardOps d) |}.

Lemma digits_graphic l : forallb is_digit l = true → forallb graphic l = true.
Proof.
  rewrite !forallb_forall. intros H c Hc. apply H, is_digit_spec in Hc. unfold graphic.
  apply andb_true_iff. split; apply Z.leb_le; lia.
Qed.

Lemma Itoa_graphic n : 0 ≤ n → forallb graphic (bytes (Itoa n)) = true.
Proof. intros. rewrite Itoa_nonneg, bytes_of_bytes by done. by apply digits_graphic, digits_of_digits. Qed.

Lemma graphic_kv k n : forallb graphic (bytes k) = true → 0 ≤ n → word (bytes k ++ "="%char :: bytes (Itoa n)).
Proof.
  intros Hk Hn. split; [by destruct (bytes k)|]. rewrite forallb_app, Hk. simpl. by apply Itoa_graphic.
Qed.

Lemma Split_kv k n : forallb (λ c, negb (bool_decide (c = "="%char))) (bytes k) = true → 0 ≤ n →
  Split (of_bytes (bytes k ++ "="%char :: bytes (Itoa n))) "=" = [k; Itoa n].
Proof.
  intros Hk Hn. unfold Split. rewrite bytes_of_bytes, split_bytes_app, split_bytes_word; simpl; [by rewrite !of_bytes_bytes| |].
  - rewrite Itoa_nonneg, bytes_of_bytes by done. apply not_digit_not_in; [by apply digits_of_digits|done].
  - intros Hin%list_elem_of_In. rewrite forallb_forall in Hk. by apply Hk in Hin.
Qed.

Lemma io_part_kv acc k n : In k io_keys → in_uint64 n →
  io_part acc (of_bytes (bytes k ++ "="%char :: bytes (Itoa n))) = (<[k := n]> acc.1, <[k := uwrap (counter acc.2 k + n)]> acc.2).
Proof.
  intros Hk Hn. unfold io_part. rewrite Split_kv; [| |by destruct Hn].
  - replace (existsb (String.eqb k) io_keys) with true.
    + unfold number. by rewrite ParseUint_Itoa.
    + symmetry. apply existsb_exists. exists k. split; [done|apply String.eqb_refl].
  - simpl in Hk. destruct_or! Hk; subst; done.
Qed.

Lemma io_text_words n d : word (bytes n) → device_ok d → Forall word (io_text1 n d).
Proof.
  intros Hn (H1 & H2 & H3 & H4 & H5 & H6). unfold in_uint64 in *.
  unfold io_text1. rewrite !Forall_cons, Forall_nil.
  split_and!; try done; apply graphic_kv; first [done|lia].
Qed.

Lemma io_line_device acc n d : word (bytes n) → device_ok d →
  ∃ totals, io_line acc (of_bytes (join_bytes " " (io_text1 n d))) = (<[n := d]> acc.1, totals) ∧
    device_of totals = add_device (device_of acc.2) d.
Proof.
  intros Hn Hd. unfold io_line.
  replace (String.eqb _ _) with false.
  2:{ symmetry. apply String.eqb_neq. intros E. apply (f_equal bytes) in E. rewrite bytes_of_bytes in E.
      unfold io_text1 in E. simpl in E. by destruct (bytes n). }
  rewrite Fields_words; [|by apply io_text_words].
  unfold io_text1 at 1. rewrite fmap_cons. rewrite of_bytes_bytes. rewrite fmap_cons.
  destruct Hd as (H1 & H2 & H3 & H4 & H5 & H6). rewrite fmap_cons, fmap_cons, fmap_cons, fmap_cons, fmap_cons. cbn [fmap list_fmap foldl].
  rewrite !io_part_kv by (done || (simpl; tauto)). cbn [fst snd].
  eexists. split; [f_equal; f_equal|].
  - by destruct d.
  - unfold device_of, counter, add_device. simpl. repeat (rewrite lookup_insert_eq || (rewrite lookup_insert_ne by done)). simpl.
    repeat f_equal.
Qed.

Lemma io_lines devs : ∀ acc, Forall (λ nd, word (bytes nd.1) ∧ device_ok nd.2) devs →
  ∃ totals, foldl io_line acc ((λ '(n, d), of_bytes (join_bytes " " (io_text1 n d))) <$> devs) =
      (foldl (λ m nd, <[nd.1 := nd.2]> m) acc.1 devs, totals) ∧
    device_of totals = foldl add_device (device_of acc.2) devs.*2.
Proof.
  induction devs as [|[n d] devs IH]; intros acc H; [exists acc.2; by destruct acc|].
  apply Forall_cons in H as [[Hn Hd] H]. destruct (io_line_device acc n d Hn Hd) as (t & E & Et).
  destruct (IH (<[n := d]> acc.1, t) H) as (t' & E' & Et'). exists t'. simpl in *. rewrite E. split; [exact E'|by rewrite Et', Et].
Qed.

Lemma no_newline n d : word (bytes n) → device_ok d → byte_of 10 ∉ join_bytes " " (io_text1 n d).
Proof.
  intros Hn Hd. pose proof (io_text_words n d Hn Hd) as Hw.
  assert (H : ∀ ws, Forall word ws → byte_of 10 ∉ join_bytes " " ws); [|by apply H].
  clear. induction 1 as [|w ws [_ Hw] _ IH]; [by apply not_elem_of_nil|].
  assert (byte_of 10 ∉ w) by (intros Hin%list_elem_of_In; rewrite forallb_forall in Hw; by apply Hw in Hin).
  destruct ws as [|w' ws]; [done|]. change (byte_of 10 ∉ w ++ " "%char :: join_bytes " " (w' :: ws)).
  rewrite elem_of_app, elem_of_cons. naive_solver.
Qed.

(** Reading io.stat gives back the counters of every device the kernel wrote there,
    and as totals their sums (on 64 bits). *)
Theorem io_stat_read other file prev t1 t2 (devs : list (string * DeviceIOMetrics)) :
  file "io.stat"%string = Some (io_text devs) → Forall (λ nd, word (bytes nd.1) ∧ device_ok nd.2) devs → NoDup devs.*1 →
  ∃ m, collectIOMetrics other file prev t1 t2 = Some m ∧
    (∀ n d, Devices m !! n = Some d ↔ (n, d) ∈ devs) ∧ Total m = foldl add_device no_device devs.*2.
Proof.
  intros Hf Hd Hn. unfold collectIOMetrics. rewrite Hf. simpl.
  assert (E : lines (io_text devs) = ((λ '(n, d), of_bytes (join_bytes " " (io_text1 n d))) <$> devs) ++ [""%string]).
  { unfold lines, io_text, Split. rewrite bytes_of_bytes, split_bytes_join.
    - rewrite fmap_app, <- list_fmap_compose. f_equal. apply list_fmap_ext. by intros i [n d] _.
    - by destruct devs.
    - apply Forall_app. split; [|repeat constructor; apply not_elem_of_nil].
      apply Forall_fmap. eapply Forall_impl; [exact Hd|]. intros [n d] [? ?]. by apply no_newline. }
  rewrite E, foldl_app. destruct (io_lines devs (∅, ∅) Hd) as (t & -> & Ht). simpl.
  eexists. split; [reflexivity|]. simpl. split; [|exact Ht].
  assert (Hm : ∀ m0 : gmap string DeviceIOMetrics, (∀ n, n ∈ devs.*1 → m0 !! n = None) →
    ∀ n d, foldl (λ m (nd : string * DeviceIOMetrics), <[nd.1:=nd.2]> m) m0 devs !! n = Some d ↔ (n, d) ∈ devs ∨ m0 !! n = Some d).
  { clear -Hn. induction devs as [|[n1 d1] devs IH]; intros m0 Hm n d; simpl in *; [set_solver|].
    apply NoDup_cons in Hn as [Hn1 Hn]. rewrite IH; [|done|].
    - rewrite elem_of_cons, lookup_insert_Some. pose proof (Hm n1 ltac:(by left)). split; [naive_solver|].
      intros [[?|?]|?]; [naive_solver|by left|]. right. right. split; [congruence|done].
    - intros n' Hn'. rewrite lookup_insert_ne; [by apply Hm; right|]. by intros ->. }
  intros n d. rewrite Hm; [|by intros]. rewrite lookup_empty. naive_solver.
Qed.

(** The cumulative processor time in a text of cpu.stat. *)
Definition usage_in (data : string) : Z := counter (stat_file cpu_keys data) "usage_usec".

Definition percent_of (usec : Z) (elapsed : float64) : float64 :=
  mul64 (div64 (div64 (float_of_Z usec) (float_of_Z 1000000)) elapsed) (float_of_Z 100).

Lemma stat_file_range known data k : in_uint64 (counter (stat_file known data) k).
Proof.
  unfold stat_file. set (ls := lines data). clearbody ls.
  assert (H : ∀ m, (∀ k, in_uint64 (counter m k)) → ∀ k, in_uint64 (counter (foldl (stat_line known) m ls) k)).
  { induction ls as [|l ls IH]; intros m Hm; [done|]. simpl. apply IH. intros k'. unfold stat_line. repeat case_match; try done.
    unfold counter. destruct (decide (k' = s)) as [->|Hn]; [rewrite lookup_insert_eq; apply ParseUint_range|].
    rewrite lookup_insert_ne by done. apply Hm. }
  apply H. intros k'. unfold counter. rewrite lookup_empty. unfold in_uint64; simpl; lia.
Qed.

(** The processor usage a sample reports is the growth of the cumulative time since
    the previous sample; but when the previous sample could not read cpu.stat, all the
    time ever used is reported as if it had been used since then, and when the
    cumulative time is smaller than before, the difference wraps around to almost 2^64
    microseconds. *)
Theorem cpu_percent_cases other smi1 smi2 file1 file2 jobID gpus prev now1 clock1 now2 c1 c2 io data :
  file2 "cpu.stat"%string = Some data → now1 < c1 → lt64 zero64 (Seconds (c2 - now1)) = true →
  let s1 := CollectSample other file1 smi1 jobID gpus prev now1 clock1 in
  let s2 := CollectSample other file2 smi2 jobID gpus (Some s1) now2 (c1, c2, io) in
  let percent := UsagePercent (SCPU s2) in
  match file1 "cpu.stat"%string with
  | Some before =>
      (usage_in before ≤ usage_in data → percent = percent_of (usage_in data - usage_in before) (Seconds (c2 - now1))) ∧
      (usage_in data < usage_in before → percent = percent_of (2 ^ 64 - (usage_in before - usage_in data)) (Seconds (c2 - now1)))
  | None => percent = percent_of (usage_in data) (Seconds (c2 - now1))
  end.
Proof.
  intros Hf Hc Hs s1 s2 percent. subst percent. pose proof (stat_file_range cpu_keys data "usage_usec") as Hr.
  fold (usage_in data) in Hr.
  assert (E : UsagePercent (SCPU s2) = percent_of (uwrap (usage_in data - UsageUSec (SCPU s1))) (Seconds (c2 - now1))).
  { subst s2. unfold CollectSample at 1. cbn [SCPU fst snd]. unfold collectCPUMetrics. rewrite Hf. simpl. unfold since_previous. subst s1. simpl.
    rewrite (proj2 (Z.ltb_lt _ _)), Hs by done. simpl. done. }
  rewrite E. destruct (file1 "cpu.stat"%string) as [before|] eqn:H1.
  - assert (Hu : UsageUSec (SCPU s1) = usage_in before).
    { subst s1. simpl. unfold collectCPUMetrics. rewrite H1. simpl. by case_match. }
    rewrite Hu. pose proof (stat_file_range cpu_keys before "usage_usec") as Hb. fold (usage_in before) in Hb. unfold in_uint64 in *.
    split; intros Hle; f_equal; [by rewrite Z.mod_small by lia|].
    replace (usage_in data - usage_in before) with (2 ^ 64 - (usage_in before - usage_in data) + (-1) * 2 ^ 64) by lia.
    rewrite Z.mod_add, Z.mod_small by lia. lia.
  - assert (Hu : UsageUSec (SCPU s1) = 0). { subst s1. simpl. unfold collectCPUMetrics. by rewrite H1. }
    rewrite Hu. unfold in_uint64 in Hr. rewrite Z.sub_0_r, Z.mod_small by lia. done.
Qed.

(** ** Concrete samples *)

Definition nothing (_ : string) : float64 := zero64.
Definition no_file (_ : string) : option string := None.
Definition no_smi (_ : Z) (_ : bool) : option (list (list string)) := None.

(** One hour of processor time was used before; the previous read failed. *)
Definition cpu_stat : string := of_bytes (bytes "usage_usec 3600000000" ++ byte_of 10 :: bytes "user_usec 3000000000").
Definition with_cpu_stat (name : string) : option string := if String.eqb name "cpu.stat" then Some cpu_stat else None.

Lemma cpu_percent_cases_witness :
  UsagePercent (SCPU (CollectSample nothing with_cpu_stat no_smi "job" []
    (Some (CollectSample nothing no_file no_smi "job" [] None 0 (0, 0, (0, 0)))) (10 ^ 9) (10 ^ 9, 10 ^ 9, (0, 0)))) = float_of_Z 360000.
Proof.
  etrans.
  - apply (cpu_percent_cases nothing no_smi no_smi no_file with_cpu_stat "job" [] None 0 (0, 0, (0, 0)) (10 ^ 9) (10 ^ 9) (10 ^ 9) (0, 0) cpu_stat);
      [reflexivity|lia|vm_compute; reflexivity].
  - vm_compute. reflexivity.
Defined.

Definition two_devices : list (string * DeviceIOMetrics) :=
  [("8:0"%string, {| ReadBytes := 4096; WriteBytes := 2 ^ 63; ReadOps := 1; WriteOps := 2; DiscardBytes := 0; DiscardOps := 0 |});
   ("259:3"%string, {| ReadBytes := 512; WriteBytes := 2 ^ 63; ReadOps := 1; WriteOps := 2; DiscardBytes := 0; DiscardOps := 0 |})].

Lemma io_stat_read_witness : ∃ m,
  collectIOMetrics nothing (λ n, if String.eqb n "io.stat" then Some (io_text two_devices) else None) None 0 0 = Some m ∧
  Total m = {| ReadBytes := 4608; WriteBytes := 0; ReadOps := 2; WriteOps := 4; DiscardBytes := 0; DiscardOps := 0 |}.
Proof.
  destruct (io_stat_read nothing (λ n, if String.eqb n "io.stat" then Some (io_text two_devices) else None) None 0 0 two_devices)
    as (m & Hm & _ & Ht); [reflexivity| | |].
  - repeat constructor; unfold word, in_uint64; simpl; try done; lia.
  - apply NoDup_cons. split; [by intros ?%list_elem_of_singleton|apply NoDup_singleton].
  - exists m. split; [exact Hm|]. rewrite Ht. vm_compute. reflexivity.
Defined.

Definition quiet : host := {| h_file := with_cpu_stat; h_smi := no_smi; h_other := nothing; h_now := 1; h_clock := (1, 1, (1, 1)) |}.

(** A job's collector takes a sample, is told to stop, takes one more, and ends. *)
Definition one_job : list mact :=
  [MCheck 1 "job" [] 0; MRun 1 true; MTick 0 quiet; MStop "job"; MTick 0 quiet; MLoopEnd 0; MStopped; MDelete 5 "job"; MDeleteNext 5 (Ok true)].
Definition one_job_end : mstore * list seen := default (NewMetricsStoreAdapter true true, []) (mrun one_job (NewMetricsStoreAdapter true true)).

Lemma mrun_history t p acts : ∀ s tr s' os, mhistory t p tr s → mrun acts s = Some (s', os) → mhistory t p (tr ++ os) s'.
Proof.
  induction acts as [|a acts IH]; intros s tr s' os Hh Hr; simpl in Hr; [simplify_eq; by rewrite app_nil_r|].
  destruct (mstep a s) as [[s1 os1]|] eqn:E; simplify_eq/=. destruct (mrun acts s1) as [[s2 os2]|] eqn:E2; simplify_eq/=.
  rewrite app_assoc. eapply IH; [by eapply mhistory_step|done].
Qed.

Lemma published_while_collected_witness :
  ∃ a b d, one_job_end.2 = a ++ VPublish "job" d :: b ∧ VStopped "job" ∉ a ∧ started_since "job" a ∧ VStopped "job" ∈ b.
Proof.
  assert (H : mhistory true true ([] ++ one_job_end.2) one_job_end.1)
    by (apply (mrun_history true true one_job (NewMetricsStoreAdapter true true)); [constructor|vm_compute; reflexivity]).
  set (d := telemetryData (sample_on quiet {| c_jobID := "job"; c_gpuIndices := []; c_interval := 5000000000; c_previous := None;
    c_cancelled := false; c_done := false |})).
  assert (E : one_job_end.2 = [VStarted "job"] ++ VPublish "job" d :: tl (tl one_job_end.2)) by (vm_compute; reflexivity).
  exists [VStarted "job"%string], (tl (tl one_job_end.2)), d. split; [exact E|]. split; [by intros ?%list_elem_of_singleton|]. split.
  - apply (proj2 (published_while_collected true true _ _ H) [VStarted "job"%string] (tl (tl one_job_end.2)) "job"%string d). exact E.
  - vm_compute. right. by left.
Defined.
