(* ===== verification/HostMonitor.v ===== *)
(** * Sampling the host (monitoring/metrics_collector.go, monitoring/collectors)

    Each collector reads files of /proc, keeps the last sample and derives rates from the
    difference.  What the files hold, the clock and [statfs] are arguments; doubles are
    those of GoNumbers.v. *)

From Stdlib Require Import Ascii String SpecFloat.
From S2P Require Import Prelude GoStrings Paths GoNumbers.

Local Open Scope Z_scope.

(** ** Lines *)

(** [bufio.Scanner]: the lines, without the carriage return before their end; a line that does not
    fit into 64 KiB ends the scan with an error. *)
Definition trim_cr (s : string) : string := match rev (bytes s) with c :: l => if byte_val c =? 13 then of_bytes (rev l) else s | [] => s end.
Fixpoint scan_lines (ls : list string) : list string * bool :=
  match ls with
  | [] => ([], true)
  | [l] => if String.eqb l "" then ([], true) else if 65536 <=? len l then ([], false) else ([trim_cr l], true)
  | l :: ls => if 65536 <=? len l then ([], false) else let '(r, ok) := scan_lines ls in (trim_cr l :: r, ok)
  end.
Definition Scan (text : string) : list string * bool := scan_lines (Split text (byte_of 10)).
(** The value of [strconv.ParseUint]; its error is ignored. *)
Definition number (s : string) : Z := (ParseUint s).1.
Definition uadd (x y : Z) : Z := (x + y) mod 2 ^ 64.
Definition usub (x y : Z) : Z := (x - y) mod 2 ^ 64.
Definition umul (x y : Z) : Z := (x * y) mod 2 ^ 64.
Definition nth_field (f : list string) (i : nat) : string := default ""%string (f !! i).
Definition hundred : float64 := float_of_Z 100.
Definition one64 : float64 := float_of_Z 1.

(** ** The processor *)

(** The counters that the total and each core have.
    [src/internal/joblet/monitoring/collectors/cpu.go:35-45 coreStats] *)
Record counters := { c_user : Z; c_nice : Z; c_system : Z; c_idle : Z; c_iowait : Z; c_irq : Z; c_softirq : Z; c_steal : Z }.
(** [src/internal/joblet/monitoring/collectors/cpu.go:21-33 cpuStats] *)
Record cpuStats := { cs_all : counters; cs_guest : Z; cs_guestNice : Z; cs_cores : list counters }.
Definition no_counters : counters := {| c_user := 0; c_nice := 0; c_system := 0; c_idle := 0; c_iowait := 0; c_irq := 0; c_softirq := 0; c_steal := 0 |}.
Definition no_stats : cpuStats := {| cs_all := no_counters; cs_guest := 0; cs_guestNice := 0; cs_cores := [] |}.

(** [steal]: the value when the line has none.
    [src/internal/joblet/monitoring/collectors/cpu.go:136-169 CPUCollector.readCPUStats] *)
Definition read_counters (steal : Z) (f : list string) : counters :=
  let n i := number (nth_field f i) in
  {| c_user := n 1%nat; c_nice := n 2%nat; c_system := n 3%nat; c_idle := n 4%nat; c_iowait := n 5%nat; c_irq := n 6%nat; c_softirq := n 7%nat;
     c_steal := if 8 <? Z.of_nat (length f) then n 8%nat else steal |}.
(** [src/internal/joblet/monitoring/collectors/cpu.go:126-177 CPUCollector.readCPUStats] *)
Definition cpu_line (s : cpuStats) (line : string) : cpuStats :=
  if HasPrefix line "cpu " then
    let f := Fields line in
    if Z.of_nat (length f) <? 8 then s else
    {| cs_all := read_counters (c_steal (cs_all s)) f;
       cs_guest := if 9 <? Z.of_nat (length f) then number (nth_field f 9) else cs_guest s;
       cs_guestNice := if 10 <? Z.of_nat (length f) then number (nth_field f 10) else cs_guestNice s; cs_cores := cs_cores s |}
  else if HasPrefix line "cpu" && (3 <? len line) then
    let f := Fields line in
    if Z.of_nat (length f) <? 8 then s else {| cs_all := cs_all s; cs_guest := cs_guest s; cs_guestNice := cs_guestNice s; cs_cores := cs_cores s ++ [read_counters 0 f] |}
  else s.
(** [src/internal/joblet/monitoring/collectors/cpu.go CPUCollector.readCPUStats] *)
Definition readCPUStats (file : option string) : option cpuStats :=
  text ← file; let '(ls, ok) := Scan text in if ok then Some (foldl cpu_line no_stats ls) else None.

(** [src/internal/joblet/monitoring/collectors/cpu.go CPUCollector.calculateCoreTotalDelta] *)
Definition total_time (c : counters) : Z :=
  uadd (uadd (uadd (uadd (uadd (uadd (uadd (c_user c) (c_nice c)) (c_system c)) (c_idle c)) (c_iowait c)) (c_irq c)) (c_softirq c)) (c_steal c).
(** [src/internal/joblet/monitoring/collectors/cpu.go CPUCollector.calculateTotalDelta] *)
Definition calculateTotalDelta (current last : counters) : float64 := float_of_Z (usub (total_time current) (total_time last)).

(** [src/internal/joblet/monitoring/domain/metrics.go CPUMetrics] *)
Record CPUMetrics := {
  UsagePercent : float64; LoadAverage : float64 * float64 * float64; Cores : Z; PerCoreUsage : list float64;
  StealTime : float64; UserTime : float64; SystemTime : float64; IdleTime : float64; IOWaitTime : float64;
}.
(** [src/internal/joblet/monitoring/collectors/cpu.go CPUCollector] *)
Record CPUCollector := { lastStats : option cpuStats; lastTime : Z }.

Section cpu.
(** What [strconv.ParseFloat] makes of texts that are no decimal literals. *)
Context (other : string → float64).

(** [src/internal/joblet/monitoring/collectors/cpu.go CPUCollector.readLoadAverage] *)
Definition readLoadAverage (file : option string) : option (float64 * float64 * float64) :=
  text ← file; match Fields text with a :: b :: c :: _ => Some (ParseFloat other a, ParseFloat other b, ParseFloat other c) | _ => None end.

(** The share of the time that was not idle, in percent.
    [src/internal/joblet/monitoring/collectors/cpu.go:78-84 CPUCollector.Collect] *)
Definition busy (idle total : float64) : float64 := mul64 (sub64 one64 (div64 idle total)) hundred.
(** [src/internal/joblet/monitoring/collectors/cpu.go:80-84 CPUCollector.Collect] *)
Definition share (part total : float64) : float64 := mul64 (div64 part total) hundred.
(** [src/internal/joblet/monitoring/collectors/cpu.go:88-99 CPUCollector.Collect] *)
Definition core_usage (last : list counters) (i : nat) (core : counters) : float64 :=
  match last !! i with
  | Some l => let total := calculateTotalDelta core l in
              if lt64 zero64 total then busy (float_of_Z (usub (c_idle core) (c_idle l))) total else zero64
  | None => zero64
  end.
(** [src/internal/joblet/monitoring/collectors/cpu.go CPUCollector.Collect] *)
Definition Collect_cpu (c : CPUCollector) (now : Z) (stat loadavg : option string) : option CPUMetrics * CPUCollector :=
  match readCPUStats stat, readLoadAverage loadavg with
  | Some s, Some load =>
      let zero := {| UsagePercent := zero64; LoadAverage := load; Cores := Z.of_nat (length (cs_cores s)); PerCoreUsage := (λ _, zero64) <$> cs_cores s;
                     StealTime := zero64; UserTime := zero64; SystemTime := zero64; IdleTime := zero64; IOWaitTime := zero64 |} in
      let m := match lastStats c with
               | Some l =>
                   if lastTime c <? now then
                     let cur := cs_all s in let last := cs_all l in
                     let total := calculateTotalDelta cur last in
                     let idle := float_of_Z (usub (c_idle cur) (c_idle last)) in
                     let part f := share (float_of_Z (usub (f cur) (f last))) total in
                     let cores := imap (core_usage (cs_cores l)) (cs_cores s) in
                     if lt64 zero64 total then
                       {| UsagePercent := busy idle total; LoadAverage := load; Cores := Z.of_nat (length (cs_cores s)); PerCoreUsage := cores;
                          StealTime := part c_steal; UserTime := part c_user; SystemTime := part c_system; IdleTime := share idle total; IOWaitTime := part c_iowait |}
                     else {| UsagePercent := zero64; LoadAverage := load; Cores := Z.of_nat (length (cs_cores s)); PerCoreUsage := cores;
                             StealTime := zero64; UserTime := zero64; SystemTime := zero64; IdleTime := zero64; IOWaitTime := zero64 |}
                   else zero
               | None => zero
               end in
      (Some m, {| lastStats := Some s; lastTime := now |})
  | _, _ => (None, c)
  end.
End cpu.

(** ** Memory *)

(** [src/internal/joblet/monitoring/domain/metrics.go MemoryMetrics] *)
Record MemoryMetrics := {
  TotalBytes : Z; UsedBytes : Z; FreeBytes : Z; AvailableBytes : Z; CachedBytes : Z; BufferedBytes : Z; SwapTotal : Z; SwapUsed : Z; SwapFree : Z; MemUsagePercent : float64;
}.
(** [src/internal/joblet/monitoring/collectors/memory.go:67-85 MemoryCollector.readMemInfo] *)
Definition meminfo_line (m : gmap string Z) (line : string) : gmap string Z :=
  match Fields line with
  | k :: v :: _ => match ParseUint v with (n, None) => <[TrimSuffix k ":" := n]> m | _ => m end
  | _ => m
  end.
(** A field that is missing counts as zero.
    [src/internal/joblet/monitoring/collectors/memory.go MemoryCollector.readMemInfo] *)
Definition readMemInfo (file : option string) : option (gmap string Z) :=
  text ← file; let '(ls, ok) := Scan text in if ok then Some (foldl meminfo_line ∅ ls) else None.
(** [src/internal/joblet/monitoring/collectors/memory.go MemoryCollector.Collect] *)
Definition Collect_memory (file : option string) : option MemoryMetrics :=
  meminfo ← readMemInfo file;
  let get k := default 0 (meminfo !! k) in let kb z := umul z 1024 in
  let used := usub (usub (usub (get "MemTotal"%string) (get "MemFree"%string)) (get "Buffers"%string)) (get "Cached"%string) in
  Some {| TotalBytes := kb (get "MemTotal"%string); UsedBytes := kb used; FreeBytes := kb (get "MemFree"%string); AvailableBytes := kb (get "MemAvailable"%string);
          CachedBytes := kb (get "Cached"%string); BufferedBytes := kb (get "Buffers"%string); SwapTotal := kb (get "SwapTotal"%string);
          SwapUsed := kb (usub (get "SwapTotal"%string) (get "SwapFree"%string)); SwapFree := kb (get "SwapFree"%string);
          MemUsagePercent := if 0 <? get "MemTotal"%string then mul64 (div64 (float_of_Z used) (float_of_Z (get "MemTotal"%string))) hundred else zero64 |}.

(** ** The network *)

(** [src/internal/joblet/monitoring/collectors/network.go networkInterfaceStats] *)
Record netStats := {
  bytesReceived : Z; packetsReceived : Z; errorsReceived : Z; dropsReceived : Z; bytesSent : Z; packetsSent : Z; errorsSent : Z; dropsSent : Z;
}.
(** [src/internal/joblet/monitoring/domain/metrics.go NetworkMetrics] *)
Record NetworkMetrics := {
  nm_Interface : string; nm_stats : netStats; nm_RxThroughputBPS : float64; nm_TxThroughputBPS : float64; nm_RxPacketsPerSec : float64; nm_TxPacketsPerSec : float64;
  nm_IPAddresses : list string; nm_MACAddress : string;
}.
(** [src/internal/joblet/monitoring/collectors/network.go:110-152 NetworkCollector.readNetworkStats] *)
Definition net_line (m : gmap string netStats) (text : string) : gmap string netStats :=
  match Cut (TrimSpace text) ":" with
  | None => m
  | Some (name, rest) =>
      let f := Fields (TrimSpace rest) in
      if Z.of_nat (length f) <? 16 then m else
      let n i := number (nth_field f i) in
      <[TrimSpace name := {| bytesReceived := n 0%nat; packetsReceived := n 1%nat; errorsReceived := n 2%nat; dropsReceived := n 3%nat;
                             bytesSent := n 8%nat; packetsSent := n 9%nat; errorsSent := n 10%nat; dropsSent := n 11%nat |}]> m
  end.
(** The first two lines are headings.
    [src/internal/joblet/monitoring/collectors/network.go NetworkCollector.readNetworkStats] *)
Definition readNetworkStats (file : option string) : option (gmap string netStats) :=
  text ← file; let '(ls, ok) := Scan text in if ok then Some (foldl net_line ∅ (drop 2 ls)) else None.
(** [src/internal/joblet/monitoring/collectors/network.go NetworkCollector.shouldSkipInterface] *)
Definition shouldSkipInterface (name : string) : bool :=
  String.eqb name "lo" || existsb (HasPrefix name) ["veth"; "br-"; "virbr"; "tap"; "tun"]%string.
(** [src/internal/joblet/monitoring/collectors/network.go NetworkCollector] *)
Record NetworkCollector := { nc_last : gmap string netStats; nc_time : Z }.

Section network.
(** The order in which the interfaces are visited, and their addresses. *)
Context (order : gmap string netStats → list (string * netStats)) (getInterfaceAddresses : string → list string * string).

Definition rate (current last : Z) (timeDelta : float64) : float64 := div64 (float_of_Z (usub current last)) timeDelta.
(** [src/internal/joblet/monitoring/collectors/network.go:53-93 NetworkCollector.Collect] *)
Definition net_metric (c : NetworkCollector) (now : Z) (x : string * netStats) : NetworkMetrics :=
  let '(name, s) := x in
  let '(ips, mac) := getInterfaceAddresses name in
  let delta := Seconds (now - nc_time c) in
  let r f := match nc_last c !! name with
             | Some l => if (nc_time c <? now) && lt64 zero64 delta then rate (f s) (f l) delta else zero64
             | None => zero64
             end in
  {| nm_Interface := name; nm_stats := s; nm_RxThroughputBPS := r bytesReceived; nm_TxThroughputBPS := r bytesSent; nm_RxPacketsPerSec := r packetsReceived;
     nm_TxPacketsPerSec := r packetsSent; nm_IPAddresses := ips; nm_MACAddress := mac |}.
(** [src/internal/joblet/monitoring/collectors/network.go NetworkCollector.Collect] *)
Definition Collect_network (c : NetworkCollector) (now : Z) (file : option string) : option (list NetworkMetrics) * NetworkCollector :=
  match readNetworkStats file with
  | None => (None, c)
  | Some s => (Some (net_metric c now <$> List.filter (λ x, negb (shouldSkipInterface x.1)) (order s)), {| nc_last := s; nc_time := now |})
  end.
End network.

(** ** Block devices *)

(** [src/internal/joblet/monitoring/collectors/io.go deviceStats] *)
Record deviceStats := { device : string; readsCompleted : Z; writesCompleted : Z; readBytes : Z; writeBytes : Z; readTime : Z; writeTime : Z; ioTime : Z }.
(** [src/internal/joblet/monitoring/collectors/io.go ioSystemStats] *)
Record ioSystemStats := { io_all : deviceStats; io_weighted : Z; io_devicesInIO : Z; io_perDevice : list deviceStats }.
Definition no_device : deviceStats := {| device := ""; readsCompleted := 0; writesCompleted := 0; readBytes := 0; writeBytes := 0; readTime := 0; writeTime := 0; ioTime := 0 |}.
(** [src/internal/joblet/monitoring/collectors/io.go IOCollector.shouldSkipDevice] *)
Definition shouldSkipDevice (name : string) : bool :=
  existsb (HasPrefix name) ["loop"; "ram"; "dm-"; "sr"]%string ||
  match last (bytes name) with
  | Some c => is_digit c && ((Contains name "sd" && (len name =? 4)) || (Contains name "nvme" && Contains name "p") || (Contains name "mmcblk" && Contains name "p"))
  | None => false
  end.
(** [src/internal/joblet/monitoring/collectors/io.go:196-210 IOCollector.readSystemIOStats] *)
Definition read_device (f : list string) : deviceStats :=
  let n i := number (nth_field f i) in
  {| device := nth_field f 2; readsCompleted := n 3%nat; writesCompleted := n 7%nat; readBytes := umul (n 5%nat) 512; writeBytes := umul (n 9%nat) 512;
     readTime := n 6%nat; writeTime := n 10%nat; ioTime := n 12%nat |}.
(** [src/internal/joblet/monitoring/collectors/io.go:212-220 IOCollector.readSystemIOStats] *)
Definition add_device (a d : deviceStats) : deviceStats :=
  {| device := device a; readsCompleted := uadd (readsCompleted a) (readsCompleted d); writesCompleted := uadd (writesCompleted a) (writesCompleted d);
     readBytes := uadd (readBytes a) (readBytes d); writeBytes := uadd (writeBytes a) (writeBytes d); readTime := uadd (readTime a) (readTime d);
     writeTime := uadd (writeTime a) (writeTime d); ioTime := uadd (ioTime a) (ioTime d) |}.
(** The devices that had any operation are counted by name.
    [src/internal/joblet/monitoring/collectors/io.go:187-243 IOCollector.readSystemIOStats] *)
Definition io_line (acc : ioSystemStats * gset string) (line : string) : ioSystemStats * gset string :=
  let '(s, active) := acc in
  let f := Fields line in
  if Z.of_nat (length f) <? 14 then acc else
  if shouldSkipDevice (nth_field f 2) then acc else
  let d := read_device f in
  ({| io_all := add_device (io_all s) d; io_weighted := uadd (io_weighted s) (number (nth_field f 13)); io_devicesInIO := 0; io_perDevice := io_perDevice s ++ [d] |},
   if (0 <? readsCompleted d) || (0 <? writesCompleted d) then {[device d]} ∪ active else active).
(** [src/internal/joblet/monitoring/collectors/io.go IOCollector.readSystemIOStats] *)
Definition readSystemIOStats (file : option string) : option ioSystemStats :=
  text ← file; let '(ls, ok) := Scan text in
  let '(s, active) := foldl io_line ({| io_all := no_device; io_weighted := 0; io_devicesInIO := 0; io_perDevice := [] |}, ∅) ls in
  if ok then Some {| io_all := io_all s; io_weighted := io_weighted s; io_devicesInIO := Z.of_nat (size active); io_perDevice := io_perDevice s |} else None.

(** [src/internal/joblet/monitoring/domain/metrics.go IOMetrics] *)
Record IOMetrics := {
  im_all : deviceStats; im_WeightedIOTime : Z; im_QueueDepth : float64; im_Utilization : float64; im_ReadRate : float64; im_WriteRate : float64;
  im_PerDevice : list (deviceStats * float64);
}.
(** [src/internal/joblet/monitoring/collectors/io.go IOCollector] *)
Record IOCollector := { ic_last : option ioSystemStats; ic_time : Z }.
(** Capped at a hundred.
    [src/internal/joblet/monitoring/collectors/io.go:84-90 IOCollector.Collect] *)
Definition utilization (ioDelta timeDeltaMs : float64) : float64 :=
  let u := mul64 (div64 ioDelta timeDeltaMs) hundred in if lt64 hundred u then hundred else u.
(** The last statistics of a name count.
    [src/internal/joblet/monitoring/collectors/io.go IOCollector.calculatePerDeviceMetrics] *)
Definition calculatePerDeviceMetrics (last current : ioSystemStats) (timeDeltaMs : float64) : list (deviceStats * float64) :=
  let prev : gmap string deviceStats := foldl (λ m d, <[device d := d]> m) ∅ (io_perDevice last) in
  (λ d, (d, match prev !! device d with
            | Some p => if lt64 zero64 timeDeltaMs then utilization (float_of_Z (usub (ioTime d) (ioTime p))) timeDeltaMs else zero64
            | None => zero64
            end)) <$> io_perDevice current.
(** [src/internal/joblet/monitoring/collectors/io.go IOCollector.Collect] *)
Definition Collect_io (c : IOCollector) (now : Z) (file : option string) : option IOMetrics * IOCollector :=
  match readSystemIOStats file with
  | None => (None, c)
  | Some s =>
      let plain per := {| im_all := io_all s; im_WeightedIOTime := io_weighted s; im_QueueDepth := zero64; im_Utilization := zero64; im_ReadRate := zero64; im_WriteRate := zero64; im_PerDevice := per |} in
      let first := plain ((λ d, (d, zero64)) <$> io_perDevice s) in
      let m := match ic_last c with
               | Some l =>
                   if ic_time c <? now then
                     let delta := Seconds (now - ic_time c) in
                     if lt64 zero64 delta then
                       let ms := mul64 delta (float_of_Z 1000) in
                       let pos := lt64 zero64 ms in
                       {| im_all := io_all s; im_WeightedIOTime := io_weighted s;
                          im_QueueDepth := if pos then div64 (float_of_Z (usub (io_weighted s) (io_weighted l))) ms else zero64;
                          im_Utilization := if pos then utilization (float_of_Z (usub (ioTime (io_all s)) (ioTime (io_all l)))) ms else zero64;
                          im_ReadRate := rate (readBytes (io_all s)) (readBytes (io_all l)) delta; im_WriteRate := rate (writeBytes (io_all s)) (writeBytes (io_all l)) delta;
                          im_PerDevice := calculatePerDeviceMetrics l s ms |}
                     else plain []
                   else first
               | None => first
               end in
      (Some m, {| ic_last := Some s; ic_time := now |})
  end.

(** ** Mounted file systems *)

(** [src/internal/joblet/monitoring/collectors/disk.go mountInfo] *)
Record mountInfo := { mi_device : string; mi_mountPoint : string; mi_fsType : string; mi_deviceName : string }.
Definition virtual_types : list string :=
  ["proc"; "sysfs"; "devtmpfs"; "tmpfs"; "devpts"; "cgroup"; "cgroup2"; "pstore"; "bpf"; "debugfs"; "tracefs"; "securityfs"; "hugetlbfs"; "mqueue"; "fusectl"]%string.
(** [src/internal/joblet/monitoring/collectors/disk.go DiskCollector.isVirtualFS] *)
Definition isVirtualFS (fsType : string) : bool := existsb (String.eqb fsType) virtual_types.
(** [src/internal/joblet/monitoring/collectors/disk.go:167-196 DiskCollector.getMounts] *)
Definition mount_line (line : string) : option mountInfo :=
  match Fields line with
  | dev :: point :: ty :: _ =>
      if isVirtualFS ty then None else if negb (HasPrefix dev "/dev/") then None
      else Some {| mi_device := dev; mi_mountPoint := point; mi_fsType := ty; mi_deviceName := TrimPrefix dev "/dev/" |}
  | _ => None
  end.
(** [src/internal/joblet/monitoring/collectors/disk.go DiskCollector.getMounts] *)
Definition getMounts (file : option string) : option (list mountInfo) :=
  text ← file; let '(ls, ok) := Scan text in if ok then Some (omap mount_line ls) else None.
(** [src/internal/joblet/monitoring/collectors/disk.go:228-263 DiskCollector.readDiskStats] *)
Definition disk_line (m : gmap string deviceStats) (line : string) : gmap string deviceStats :=
  let f := Fields line in
  if (Z.of_nat (length f) <? 14) || existsb (HasPrefix (nth_field f 2)) ["loop"; "ram"; "dm-"]%string then m else <[nth_field f 2 := read_device f]> m.
(** [src/internal/joblet/monitoring/collectors/disk.go DiskCollector.readDiskStats] *)
Definition readDiskStats (file : option string) : option (gmap string deviceStats) :=
  text ← file; let '(ls, ok) := Scan text in if ok then Some (foldl disk_line ∅ ls) else None.

(** [src/internal/joblet/monitoring/domain/metrics.go DiskMetrics] *)
Record DiskMetrics := {
  dm_MountPoint : string; dm_Device : string; dm_FileSystem : string; dm_TotalBytes : Z; dm_UsedBytes : Z; dm_FreeBytes : Z; dm_UsagePercent : float64;
  dm_InodesTotal : Z; dm_InodesUsed : Z; dm_InodesFree : Z; dm_ReadIOPS : Z; dm_WriteIOPS : Z; dm_ReadThroughput : Z; dm_WriteThroughput : Z;
}.
Record statfs := { f_bsize : Z; f_blocks : Z; f_bavail : Z; f_files : Z; f_ffree : Z }.
(** [src/internal/joblet/monitoring/collectors/disk.go DiskCollector] *)
Record DiskCollector := { dc_last : gmap string deviceStats; dc_time : Z }.
(** [src/internal/joblet/monitoring/collectors/disk.go Volume] *)
Record volume := { vo_Name : string; vo_Type : string; vo_Path : string }.

Section disk.
(** [overflow]: the conversion of a double that does not fit. *)
Context (overflow : float64 → Z) (Statfs : string → option statfs) (exists_ : string → bool) (volumes : option (list volume)).

Definition to_uint64 (x : float64) : Z := let t := truncate x in if (0 <=? t) && (t <? 2 ^ 64) then t else overflow x.
(** [src/internal/joblet/monitoring/collectors/disk.go:90-111 DiskCollector.Collect] *)
Definition usage (point dev ty : string) (s : statfs) : DiskMetrics :=
  let total := umul (f_blocks s) (f_bsize s mod 2 ^ 64) in
  let free := umul (f_bavail s) (f_bsize s mod 2 ^ 64) in
  let used := usub total free in
  {| dm_MountPoint := point; dm_Device := dev; dm_FileSystem := ty; dm_TotalBytes := total; dm_UsedBytes := used; dm_FreeBytes := free;
     dm_UsagePercent := if 0 <? total then mul64 (div64 (float_of_Z used) (float_of_Z total)) hundred else zero64;
     dm_InodesTotal := f_files s; dm_InodesUsed := usub (f_files s) (f_ffree s); dm_InodesFree := f_ffree s;
     dm_ReadIOPS := 0; dm_WriteIOPS := 0; dm_ReadThroughput := 0; dm_WriteThroughput := 0 |}.
(** [src/internal/joblet/monitoring/collectors/disk.go:114-128 DiskCollector.Collect] *)
Definition with_rates (c : DiskCollector) (now : Z) (s : option deviceStats) (name : string) (m : DiskMetrics) : DiskMetrics :=
  match s, dc_last c !! name with
  | Some s, Some l =>
      let delta := Seconds (now - dc_time c) in
      if (dc_time c <? now) && lt64 zero64 delta then
        let r f := to_uint64 (rate (f s) (f l) delta) in
        {| dm_MountPoint := dm_MountPoint m; dm_Device := dm_Device m; dm_FileSystem := dm_FileSystem m; dm_TotalBytes := dm_TotalBytes m; dm_UsedBytes := dm_UsedBytes m;
           dm_FreeBytes := dm_FreeBytes m; dm_UsagePercent := dm_UsagePercent m; dm_InodesTotal := dm_InodesTotal m; dm_InodesUsed := dm_InodesUsed m; dm_InodesFree := dm_InodesFree m;
           dm_ReadIOPS := r readsCompleted; dm_WriteIOPS := r writesCompleted; dm_ReadThroughput := r readBytes; dm_WriteThroughput := r writeBytes |}
      else m
  | _, _ => m
  end.
(** [src/internal/joblet/monitoring/collectors/disk.go DiskCollector.collectVolumeMetrics] *)
Definition collectVolumeMetrics (l : list volume) : list DiskMetrics :=
  omap (λ v, let dataDir := Join_path [vo_Path v; "data"%string] in
             if negb (exists_ dataDir) then None else
             s ← Statfs dataDir;
             let memory := String.eqb (vo_Type v) "memory" in
             Some (usage dataDir (if memory then "tmpfs"%string else vo_Name v) (if memory then "tmpfs"%string else "joblet-volume"%string) s)) l.
(** Without the statistics of the devices the samples have no rates.
    [src/internal/joblet/monitoring/collectors/disk.go DiskCollector.Collect] *)
Definition Collect_disk (c : DiskCollector) (now : Z) (mounts diskstats : option string) : option (list DiskMetrics) * DiskCollector :=
  match getMounts mounts with
  | None => (None, c)
  | Some ms =>
      let io := default ∅ (readDiskStats diskstats) in
      let l := omap (λ m, (λ s, with_rates c now (io !! mi_deviceName m) (mi_deviceName m) (usage (mi_mountPoint m) (mi_device m) (mi_fsType m) s)) <$> Statfs (mi_mountPoint m)) ms in
      (Some (l ++ match volumes with Some vs => collectVolumeMetrics vs | None => [] end), {| dc_last := io; dc_time := now |})
  end.
End disk.

(** ** Processes *)

(** [src/internal/joblet/monitoring/domain/metrics.go ProcessInfo] *)
Record ProcessInfo := {
  PID : Z; PPID : Z; Name : string; Command : string; CPUPercent : float64; MemoryBytes : Z; MemoryPercent : float64; Status : string; StartTime : Z;
}.
(** [src/internal/joblet/monitoring/collectors/process.go processInfo] *)
Record processInfo := { p_info : ProcessInfo; p_utime : Z; p_stime : Z; p_cutime : Z; p_cstime : Z; p_threads : Z }.
Definition set_percent (cpu mem : float64) (p : processInfo) : processInfo :=
  let i := p_info p in
  {| p_info := {| PID := PID i; PPID := PPID i; Name := Name i; Command := Command i; CPUPercent := cpu; MemoryBytes := MemoryBytes i; MemoryPercent := mem; Status := Status i; StartTime := StartTime i |};
     p_utime := p_utime p; p_stime := p_stime p; p_cutime := p_cutime p; p_cstime := p_cstime p; p_threads := p_threads p |}.
(** [src/internal/joblet/monitoring/domain/metrics.go ProcessMetrics] *)
Record ProcessMetrics := {
  TotalProcesses : Z; RunningProcesses : Z; SleepingProcesses : Z; StoppedProcesses : Z; ZombieProcesses : Z; TotalThreads : Z; TopByCPU : list ProcessInfo; TopByMemory : list ProcessInfo;
}.
(** [src/internal/joblet/monitoring/collectors/process.go ProcessCollector] *)
Record ProcessCollector := { lastCPUStats : gmap Z (Z * Z); pc_time : Z; systemCPU : option Z }.

(** [src/internal/joblet/monitoring/collectors/process.go ProcessCollector.isNumeric] *)
Definition isNumeric (s : string) : bool := negb (String.eqb s "") && forallb is_digit (bytes s).
(** The text before the first and after the last of a byte. *)
Fixpoint after_last (c : ascii) (l : list ascii) : option (list ascii) :=
  match l with
  | [] => None
  | x :: l => match after_last c l with Some r => Some r | None => if bool_decide (x = c) then Some l else None end
  end.
(** What follows the name, when there is a bracket that opens before the last one that closes.
    [src/internal/joblet/monitoring/collectors/process.go:236-248 ProcessCollector.readProcessInfo] *)
Definition after_name (stat : string) : option string :=
  match cut_bytes "(" (bytes stat) with
  | Some (_, r) => of_bytes <$> after_last ")" r
  | None => None
  end.
Definition day_ns : Z := 86400000000000.

Section processes.
Context {SS : SortSlice}.
(** [os.ReadFile], the clock, and whether the program runs in a test environment. *)
Context (ReadFile : string → option string) (inCI : bool).

Definition proc_file (pid : Z) (name : string) : string := "/proc/" +:+ Itoa pid +:+ "/" +:+ name.
(** The name; the command line has the bytes zero as spaces, the name in brackets when it is blank.
    [src/internal/joblet/monitoring/collectors/process.go:257-263 ProcessCollector.readProcessInfo] *)
Definition process_name (pid : Z) : string := match ReadFile (proc_file pid "comm") with Some t => TrimSpace t | None => "unknown"%string end.
(** [src/internal/joblet/monitoring/collectors/process.go:265-278 ProcessCollector.readProcessInfo] *)
Definition process_command (pid : Z) : string :=
  match ReadFile (proc_file pid "cmdline") with
  | None => process_name pid
  | Some t => if String.eqb t "" then process_name pid else
              let command := TrimSpace (of_bytes ((λ c, if byte_val c =? 0 then " "%char else c) <$> bytes t)) in
              if String.eqb command "" then ("[" +:+ process_name pid +:+ "]")%string else command
  end.
(** [src/internal/joblet/monitoring/collectors/process.go ProcessCollector.readProcessInfo] *)
Definition readProcessInfo (now pid : Z) : option processInfo :=
  stat ← ReadFile (proc_file pid "stat"); rest ← after_name stat;
  let f := Fields rest in
  if Z.of_nat (length f) <? 22 then None else
  let n i := number (nth_field f i) in
  Some {| p_info := {| PID := pid; PPID := default 0 (Atoi (nth_field f 1)); Name := process_name pid; Command := process_command pid; CPUPercent := zero64;
                       MemoryBytes := umul (n 21%nat) 4096; MemoryPercent := zero64; Status := nth_field f 0;
                       StartTime := now - day_ns + wrap 64 (wrap 64 (wrap 64 (n 19%nat) * 10) * 1000000) |};
          p_utime := n 11%nat; p_stime := n 12%nat; p_cutime := n 13%nat; p_cstime := n 14%nat; p_threads := n 17%nat |}.

(** The entries in order, until there are enough processes.
    [src/internal/joblet/monitoring/collectors/process.go:181-209 ProcessCollector.getProcessList] *)
Fixpoint list_processes (limit : nat) (now : Z) (entries : list (string * bool)) : list processInfo :=
  match limit, entries with
  | O, _ | _, [] => []
  | S l, (name, isDir) :: entries =>
      if negb isDir || negb (isNumeric name) then list_processes limit now entries else
      match Atoi name ≫= readProcessInfo now with
      | Some p => p :: list_processes l now entries
      | None => list_processes limit now entries
      end
  end.
Inductive proc_dir := Entries (l : list (string * bool)) | NoProc | ProcError.
(** [src/internal/joblet/monitoring/collectors/process.go ProcessCollector.getProcessList] *)
Definition getProcessList (now : Z) (d : proc_dir) : option (list processInfo) :=
  match d with
  | Entries l => Some (list_processes (if inCI then 100 else 1000) now l)
  | NoProc => Some []
  | ProcError => None
  end.

(** Only the first line is looked at.
    [src/internal/joblet/monitoring/collectors/process.go ProcessCollector.getSystemCPUTime] *)
Definition getSystemCPUTime : option Z :=
  text ← ReadFile "/proc/stat";
  match Scan text with
  | (line :: _, _) => if negb (HasPrefix line "cpu ") then None else
                      let f := Fields line in
                      if Z.of_nat (length f) <? 8 then None else Some (foldl (λ t v, uadd t (number v)) 0 (drop 1 f))
  | _ => None
  end.
(** [src/internal/joblet/monitoring/collectors/process.go ProcessCollector.getTotalMemory] *)
Definition getTotalMemory : Z :=
  match ReadFile "/proc/meminfo" with
  | None => 0
  | Some text => match omap (λ l, if HasPrefix l "MemTotal:" then match Fields l with _ :: v :: _ => Some (umul (number v) 1024) | _ => None end else None) (Scan text).1 with
                 | n :: _ => n
                 | [] => 0
                 end
  end.
(** [src/internal/joblet/monitoring/collectors/process.go ProcessCollector.calculateCPUPercentages] *)
Definition calculateCPUPercentages (last : gmap Z (Z * Z)) (systemDelta : float64) (p : processInfo) : processInfo :=
  let cpu := match last !! PID (p_info p) with
             | Some (u, s) => if lt64 zero64 systemDelta then share (float_of_Z (usub (usub (uadd (p_utime p) (p_stime p)) u) s)) systemDelta else CPUPercent (p_info p)
             | None => CPUPercent (p_info p)
             end in
  let total := getTotalMemory in
  set_percent cpu (if 0 <? total then share (float_of_Z (MemoryBytes (p_info p))) (float_of_Z total) else MemoryPercent (p_info p)) p.

Inductive base_state := Running | Sleeping | Stopped | Zombie | OtherState.
(** The first byte of the state.
    [src/internal/joblet/monitoring/collectors/process.go:75-98 ProcessCollector.Collect] *)
Definition state_of (p : processInfo) : base_state :=
  match bytes (Status (p_info p)) with
  | "R"%char :: _ => Running | "S"%char :: _ | "D"%char :: _ | "I"%char :: _ => Sleeping | "T"%char :: _ | "t"%char :: _ => Stopped | "Z"%char :: _ => Zombie
  | _ => OtherState
  end.
#[export] Instance base_state_eq : EqDecision base_state.
Proof. solve_decision. Defined.
Definition count_state (s : base_state) (l : list processInfo) : Z := Z.of_nat (length (List.filter (λ p, bool_decide (state_of p = s)) l)).
(** [src/internal/joblet/monitoring/collectors/process.go ProcessCollector.getTopProcesses] *)
Definition getTopProcesses (l : list processInfo) (n : nat) : list ProcessInfo := p_info <$> take n l.
(** [src/internal/joblet/monitoring/collectors/process.go:101-103 ProcessCollector.Collect] *)
Definition by_cpu (p q : processInfo) : bool := lt64 (CPUPercent (p_info q)) (CPUPercent (p_info p)).
(** [src/internal/joblet/monitoring/collectors/process.go:106-108 ProcessCollector.Collect] *)
Definition by_memory (p q : processInfo) : bool := MemoryBytes (p_info q) <? MemoryBytes (p_info p).
(** [src/internal/joblet/monitoring/collectors/process.go ProcessCollector.Collect] *)
Definition Collect_processes (c : ProcessCollector) (now : Z) (d : proc_dir) : option ProcessMetrics * ProcessCollector :=
  match getProcessList now d with
  | None => (None, c)
  | Some l =>
      let system := getSystemCPUTime in
      let l := match systemCPU c, system with
               | Some before, Some sys =>
                   let delta := float_of_Z (usub sys before) in
                   if (pc_time c <? now) && lt64 zero64 delta then calculateCPUPercentages (lastCPUStats c) delta <$> l else l
               | _, _ => l
               end in
      let l1 := sort_slice by_cpu l in let l2 := sort_slice by_memory l1 in
      (Some {| TotalProcesses := Z.of_nat (length l); RunningProcesses := count_state Running l; SleepingProcesses := count_state Sleeping l; StoppedProcesses := count_state Stopped l;
               ZombieProcesses := count_state Zombie l; TotalThreads := foldl (λ t p, wrap 64 (t + wrap 64 (p_threads p))) 0 l;
               TopByCPU := getTopProcesses l1 10; TopByMemory := getTopProcesses l2 10 |},
       {| lastCPUStats := foldl (λ m p, <[PID (p_info p) := (p_utime p, p_stime p)]> m) ∅ l2; pc_time := now; systemCPU := system |})
  end.
End processes.

(** ** The host *)

(** [src/internal/joblet/monitoring/domain/metrics.go HostInfo] *)
Record HostInfo := { Hostname : string; OS : string; Kernel : string; Architecture : string; Uptime : Z; BootTime : Z }.
(** [src/internal/joblet/monitoring/collectors/host.go HostCollector.parseQuotedValue] *)
Definition parseQuotedValue (value : string) : string :=
  let v := TrimSpace value in
  match bytes v, last (bytes v) with
  | c :: (_ :: _) as l, Some d => if bool_decide (c = d) && ((byte_val c =? 34) || (byte_val c =? 39)) then of_bytes (removelast l) else v
  | _, _ => v
  end.
(** The last value of each key.
    [src/internal/joblet/monitoring/collectors/host.go:125-148 HostCollector.parseOSRelease] *)
Definition release_value (key : string) (ls : list string) : string :=
  foldl (λ v line, if HasPrefix line (key +:+ "=") then parseQuotedValue (TrimPrefix line (key +:+ "=")) else v) ""%string (TrimSpace <$> ls).
Definition release (pretty name version : string) : string :=
  if negb (String.eqb pretty "") then pretty else if negb (String.eqb name "") && negb (String.eqb version "") then (name +:+ " " +:+ version)%string else name.
(** [src/internal/joblet/monitoring/collectors/host.go HostCollector.parseOSRelease] *)
Definition parseOSRelease (file : option string) : string :=
  match file with
  | None => ""%string
  | Some text => let ls := (Scan text).1 in release (release_value "PRETTY_NAME" ls) (release_value "NAME" ls) (release_value "VERSION" ls)
  end.
(** [src/internal/joblet/monitoring/collectors/host.go HostCollector.parseLSBRelease] *)
Definition parseLSBRelease (file : option string) : string :=
  match file with
  | None => ""%string
  | Some text => let ls := (Scan text).1 in release (release_value "DISTRIB_DESCRIPTION" ls) (release_value "DISTRIB_ID" ls) (release_value "DISTRIB_RELEASE" ls)
  end.
(** [strings.ReplaceAll] of a backslash and a letter by nothing. *)
Fixpoint without (c : ascii) (l : list ascii) : list ascii :=
  match l with
  | "\"%char :: ((d :: l') as r) => if bool_decide (d = c) then without c l' else "\"%char :: without c r
  | x :: l => x :: without c l
  | [] => []
  end.
(** [src/internal/joblet/monitoring/collectors/host.go:101-120 HostCollector.getOSInfo] *)
Definition issue_text (text : string) : string :=
  let issue := match Split (TrimSpace text) (byte_of 10) with
               | l :: _ => TrimSpace (of_bytes (without "l" (without "n" (bytes (TrimSpace l)))))
               | [] => TrimSpace text
               end in
  if String.eqb issue "" then "Linux"%string else issue.
Section host.
Context (ReadFile : string → option string) (Hostname_ : option string) (arch : string).
(** [None]: the text of [strconv.ParseFloat] is refused; otherwise the nanoseconds of the
    product, truncated. *)
Context (uptime_ns : string → option Z).

(** [src/internal/joblet/monitoring/collectors/host.go HostCollector.getOSInfo] *)
Definition getOSInfo : option string :=
  let a := parseOSRelease (ReadFile "/etc/os-release") in if negb (String.eqb a "") then Some a else
  let b := parseOSRelease (ReadFile "/usr/lib/os-release") in if negb (String.eqb b "") then Some b else
  let c := parseLSBRelease (ReadFile "/etc/lsb-release") in if negb (String.eqb c "") then Some c else
  issue_text <$> ReadFile "/etc/issue".
(** [src/internal/joblet/monitoring/collectors/host.go HostCollector.getHostname] *)
Definition getHostname : option string := match Hostname_ with Some h => Some h | None => TrimSpace <$> ReadFile "/proc/sys/kernel/hostname" end.
(** [src/internal/joblet/monitoring/collectors/host.go HostCollector.getKernelVersion] *)
Definition getKernelVersion : option string :=
  text ← ReadFile "/proc/version"; let v := TrimSpace text in Some (match Fields v with _ :: _ :: k :: _ => k | _ => v end).
(** [src/internal/joblet/monitoring/collectors/host.go HostCollector.getUptimeInfo] *)
Definition getUptimeInfo (now : Z) : option (Z * Z) :=
  text ← ReadFile "/proc/uptime"; match Fields (TrimSpace text) with f :: _ => (λ up, (up, now - up)) <$> uptime_ns f | [] => None end.
(** [src/internal/joblet/monitoring/collectors/host.go HostCollector] *)
Record HostCollector := { cachedInfo : option HostInfo; lastUpdate : Z }.
(** For five minutes only the uptime is read again.
    [src/internal/joblet/monitoring/collectors/host.go HostCollector.Collect] *)
Definition Collect_host (c : HostCollector) (now : Z) : HostInfo * HostCollector :=
  let fresh :=
    let '(up, boot) := default (0, 0) (getUptimeInfo now) in
    let h := {| Hostname := default "unknown"%string getHostname; OS := default "unknown"%string getOSInfo; Kernel := default "unknown"%string getKernelVersion;
                Architecture := arch; Uptime := up; BootTime := boot |} in
    (h, {| cachedInfo := Some h; lastUpdate := now |}) in
  match cachedInfo c with
  | Some h =>
      if now - lastUpdate c <? 300000000000 then
        let h := match getUptimeInfo now with
                 | Some (up, boot) => {| Hostname := Hostname h; OS := OS h; Kernel := Kernel h; Architecture := Architecture h; Uptime := up; BootTime := boot |}
                 | None => h
                 end in
        (h, {| cachedInfo := Some h; lastUpdate := lastUpdate c |})
      else fresh
  | None => fresh
  end.
End host.

(** ** The service *)

Section service.
(** A snapshot of all collectors. *)
Context {metrics : Type} (CloudDetection Enabled : bool).

(** Where the goroutine that samples is: about to check the context, sampling, about to
    store what it sampled, waiting for the ticker. *)
Inductive sampler := AtCheck | Sampling | Storing (m : metrics) | AtSelect.
(** A call of [Stop] that cancelled the context, before and after it found no goroutine left. *)
Inductive stopper := Waiting | Waited.
(** [src/internal/joblet/monitoring/metrics_collector.go Service] *)
Record service := { running : bool; cancelled : bool; samplers : list sampler; detectors : nat; stoppers : list stopper; currentMetrics : option metrics }.
(** [src/internal/joblet/monitoring/metrics_collector.go NewService] *)
Definition NewService : service := {| running := false; cancelled := false; samplers := []; detectors := 0; stoppers := []; currentMetrics := None |}.

Definition set_sampler (i : nat) (x : sampler) (s : service) : service :=
  {| running := running s; cancelled := cancelled s; samplers := <[i := x]> (samplers s); detectors := detectors s; stoppers := stoppers s; currentMetrics := currentMetrics s |}.
Definition set_current (m : metrics) (s : service) : service :=
  {| running := running s; cancelled := cancelled s; samplers := samplers s; detectors := detectors s; stoppers := stoppers s; currentMetrics := Some m |}.
(** [src/internal/joblet/monitoring/metrics_collector.go Service.Start] *)
Definition Start (s : service) : service :=
  if running s || negb Enabled then s else
  {| running := true; cancelled := cancelled s; samplers := samplers s ++ [AtCheck]; detectors := if CloudDetection then S (detectors s) else detectors s;
     stoppers := stoppers s; currentMetrics := currentMetrics s |}.
(** [src/internal/joblet/monitoring/metrics_collector.go Service.Stop] *)
Definition Stop_cancel (s : service) : service :=
  if running s then {| running := true; cancelled := true; samplers := samplers s; detectors := detectors s; stoppers := stoppers s ++ [Waiting]; currentMetrics := currentMetrics s |} else s.
(** [src/internal/joblet/monitoring/metrics_collector.go Service.Stop] *)
Definition Stop_waited (i : nat) (s : service) : option service :=
  match stoppers s !! i, samplers s, detectors s with
  | Some Waiting, [], O => Some {| running := running s; cancelled := cancelled s; samplers := []; detectors := 0; stoppers := <[i := Waited]> (stoppers s); currentMetrics := currentMetrics s |}
  | _, _, _ => None
  end.
(** [src/internal/joblet/monitoring/metrics_collector.go Service.Stop] *)
Definition Stop_finish (i : nat) (s : service) : option service :=
  match stoppers s !! i with
  | Some Waited => Some {| running := false; cancelled := cancelled s; samplers := samplers s; detectors := detectors s; stoppers := delete i (stoppers s); currentMetrics := currentMetrics s |}
  | _ => None
  end.

(** The goroutine: it checks the context before it samples and before it stores, and ends
    when the context is cancelled while it waits; both the ticker and the context may be
    ready.
    [src/internal/joblet/monitoring/metrics_collector.go:371-483 Service.collectAndStoreSystemMetrics] *)
Definition sampler_step (i : nat) (sampled : metrics) (tick : bool) (s : service) : option service :=
  match samplers s !! i with
  | Some AtCheck => Some (set_sampler i (if cancelled s then AtSelect else Sampling) s)
  | Some Sampling => Some (set_sampler i (if cancelled s then AtSelect else Storing sampled) s)
  | Some (Storing m) => Some (set_current m (set_sampler i AtSelect s))
  | Some AtSelect =>
      if tick then Some (set_sampler i AtCheck s)
      else if cancelled s then
        Some {| running := running s; cancelled := true; samplers := delete i (samplers s); detectors := detectors s; stoppers := stoppers s; currentMetrics := currentMetrics s |}
      else None
  | None => None
  end.
(** The detection of the cloud ends on its own.
    [src/internal/joblet/monitoring/metrics_collector.go Service.detectCloudEnvironment] *)
Definition detector_end (s : service) : option service :=
  match detectors s with
  | S n => Some {| running := running s; cancelled := cancelled s; samplers := samplers s; detectors := n; stoppers := stoppers s; currentMetrics := currentMetrics s |}
  | O => None
  end.

(** [src/internal/joblet/monitoring/metrics_collector.go Service.GetSystemStatus] *)
Definition GetSystemStatus (s : service) : option metrics := currentMetrics s.

Inductive service_step : service → service → Prop :=
| step_start s : service_step s (Start s)
| step_stop s : service_step s (Stop_cancel s)
| step_waited i s s' : Stop_waited i s = Some s' → service_step s s'
| step_finish i s s' : Stop_finish i s = Some s' → service_step s s'
| step_sampler i m t s s' : sampler_step i m t s = Some s' → service_step s s'
| step_detector s s' : detector_end s = Some s' → service_step s s'.

(** Goroutines that use the collectors, whose last samples are not locked. *)
Definition at_work (x : sampler) : bool := match x with Sampling => true | _ => false end.
Definition busy_samplers (s : service) : nat := length (List.filter at_work (samplers s)).
Record service_ok (s : service) : Prop := {
  so_live : cancelled s = false → (length (samplers s) ≤ 1)%nat ∧ stoppers s = [] ∧ (running s = false → samplers s = []);
  so_busy : (busy_samplers s ≤ 1)%nat;
}.

Lemma filter_insert_other i x l : at_work x = false → (length (List.filter at_work (<[i := x]> l)) ≤ length (List.filter at_work l))%nat.
Proof.
  intros Hx. revert i. induction l as [|y l IH]; intros [|i]; simpl; try lia; [rewrite Hx; destruct (at_work y); simpl; lia|].
  specialize (IH i). destruct (at_work y); simpl; lia.
Qed.
Lemma filter_delete_le i l : (length (List.filter at_work (delete i l)) ≤ length (List.filter at_work l))%nat.
Proof.
  revert i. induction l as [|y l IH]; intros [|i]; simpl; try lia; [destruct (at_work y); simpl; lia|].
  specialize (IH i). destruct (at_work y); simpl; lia.
Qed.

Lemma service_step_ok s s' : service_step s s' → service_ok s → service_ok s'.
Proof.
  intros Hst Hok. pose proof Hok as [Hl Hb]. destruct Hst as [s|s|i s s' H|i s s' H|i m t s s' H|s s' H].
  - unfold Start. destruct (running s) eqn:Er; [exact Hok|]. destruct Enabled; [|exact Hok]. cbn [orb negb]. split; cbn [cancelled samplers stoppers running].
    + intros Hc. destruct (Hl Hc) as (_ & ? & Hr). rewrite (Hr eq_refl). split; [cbn; lia|]. by split.
    + unfold busy_samplers in *. cbn [samplers]. rewrite List.filter_app. cbn [List.filter at_work]. by rewrite app_nil_r.
  - unfold Stop_cancel. destruct (running s); [|exact Hok]. by split.
  - unfold Stop_waited in H. destruct (stoppers s !! i) as [[|]|] eqn:Es; [|done..]. destruct (samplers s), (detectors s); try done. injection H as <-. split; cbn [cancelled samplers stoppers running].
    + intros Hc. destruct (Hl Hc) as (_ & E & _). by rewrite E in Es.
    + unfold busy_samplers. cbn. lia.
  - unfold Stop_finish in H. destruct (stoppers s !! i) as [[|]|] eqn:Es; [done| |done]. injection H as <-. split; cbn [cancelled samplers stoppers running]; [|done].
    intros Hc. destruct (Hl Hc) as (_ & E & _). by rewrite E in Es.
  - unfold sampler_step in H. destruct (samplers s !! i) as [x|] eqn:Ex; [|done].
    assert (Hlen : ∀ y, (length (<[i := y]> (samplers s)) = length (samplers s))%nat) by (intros; apply length_insert).
    assert (Hne : samplers s ≠ []) by (intros E; by rewrite E in Ex).
    assert (Hset : ∀ y, (at_work y = false ∨ cancelled s = false) → service_ok (set_sampler i y s)).
    { intros y Hy. split; cbn [set_sampler cancelled samplers stoppers running].
      - intros Hc. destruct (Hl Hc) as (H1 & H2 & H3). rewrite Hlen. split_and!; [done|done|intros Hr; by rewrite (H3 Hr) in Ex].
      - destruct Hy as [Hy|Hc]; [etrans; [by apply filter_insert_other|done]|]. unfold busy_samplers. cbn [set_sampler samplers].
        etrans; [apply (List.filter_length_le at_work)|]. rewrite Hlen. by destruct (Hl Hc) as (H1 & _). }
    destruct x as [| |m'|].
    + injection H as <-. apply Hset. destruct (cancelled s); auto.
    + injection H as <-. apply Hset. left. by destruct (cancelled s).
    + injection H as <-. destruct (Hset AtSelect ltac:(by left)) as [H1 H2]. by split.
    + destruct t; [injection H as <-; apply Hset; by left|]. destruct (cancelled s) eqn:Ec; [|done]. injection H as <-. split; cbn [cancelled samplers]; [done|].
      unfold busy_samplers. cbn [samplers]. etrans; [apply filter_delete_le|done].
  - unfold detector_end in H. destruct (detectors s); [done|]. injection H as <-. by split.
Qed.
Lemma service_reachable_ok s : rtc service_step NewService s → service_ok s.
Proof.
  intros Hr. assert (H0 : service_ok NewService) by (split; [intros _; split_and!; [cbn; lia|done|done]|cbn; lia]). revert H0. induction Hr as [|s s' s'' Hs _ IH]; [done|]. intros H. apply IH. by eapply service_step_ok.
Qed.

(** At no time do two goroutines use the collectors. *)
Theorem one_goroutine_samples s : rtc service_step NewService s → (busy_samplers s ≤ 1)%nat.
Proof. intros H. by apply service_reachable_ok. Qed.

Definition nothing_stored (s : service) : Prop := cancelled s = true ∧ Forall (λ x, x = AtCheck ∨ x = AtSelect) (samplers s).
Lemma nothing_stored_step s s' : service_step s s' → nothing_stored s → nothing_stored s' ∧ currentMetrics s' = currentMetrics s.
Proof.
  intros Hst [Hc Hf]. destruct Hst as [s|s|i s s' H|i s s' H|i m t s s' H|s s' H].
  - unfold Start. destruct (running s || negb Enabled); [by repeat split|]. split; [|done]. split; [done|]. cbn [samplers]. apply Forall_app. split; [done|]. constructor; [by left|constructor].
  - unfold Stop_cancel. destruct (running s); by repeat split.
  - unfold Stop_waited in H. destruct (stoppers s !! i) as [[|]|]; [|done..]. destruct (samplers s), (detectors s); try done. injection H as <-. by repeat split.
  - unfold Stop_finish in H. destruct (stoppers s !! i) as [[|]|]; [done| |done]. injection H as <-. by repeat split.
  - unfold sampler_step in H. destruct (samplers s !! i) as [x|] eqn:Ex; [|done]. pose proof (Forall_lookup_1 _ _ _ _ Hf Ex) as Hx. cbn in Hx. rewrite Hc in H.
    assert (Hset : ∀ y, y = AtCheck ∨ y = AtSelect → nothing_stored (set_sampler i y s)) by (intros y Hy; split; [done|cbn; by apply Forall_insert]).
    destruct Hx as [-> | ->]; [injection H as <-; split; [apply Hset; by right|done]|]. destruct t; injection H as <-; [split; [apply Hset; by left|done]|].
    split; [|done]. split; [done|]. cbn [samplers]. by apply Forall_delete.
  - unfold detector_end in H. destruct (detectors s); [done|]. injection H as <-. by repeat split.
Qed.
(** Once the service was stopped, nothing is sampled any more, although it can be started
    again and says then that it runs: what it answers stays that of the time before. *)
Theorem restarted_monitor_is_dead s s' : cancelled s = true → samplers s = [] → rtc service_step s s' →
  GetSystemStatus s' = GetSystemStatus s ∧ (Enabled = true → running (Start s) = true).
Proof.
  intros Hc Hs Hr. split; [|intros He; unfold Start; rewrite He; cbn [negb]; rewrite orb_false_r; by destruct (running s) eqn:E].
  assert (Hn : nothing_stored s) by (split; [done|by rewrite Hs]). clear Hc Hs. induction Hr as [|s s1 s2 H1 _ IH]; [done|].
  destruct (nothing_stored_step _ _ H1 Hn) as [Hn1 E]. unfold GetSystemStatus in *. by rewrite IH.
Qed.
End service.

(** ** Between two samples of the processor *)

(** What the kernel counts: all together and for each core, with the number of the core. *)
Record sample := { k_all : counters; k_guest : Z; k_guestNice : Z; k_cores : list (Z * counters * Z * Z) }.
Definition values (c : counters) : list Z := [c_user c; c_nice c; c_system c; c_idle c; c_iowait c; c_irq c; c_softirq c; c_steal c].
Definition number_words (c : counters) (guest guestNice : Z) : list (list ascii) := (bytes ∘ Itoa) <$> (values c ++ [guest; guestNice]).
Definition all_line (s : sample) : list ascii := bytes "cpu" ++ [" "%char; " "%char] ++ join_bytes " " (number_words (k_all s) (k_guest s) (k_guestNice s)).
Definition core_line (x : Z * counters * Z * Z) : list ascii :=
  let '(i, c, g, gn) := x in (bytes "cpu" ++ bytes (Itoa i)) ++ [" "%char] ++ join_bytes " " (number_words c g gn).
Definition stat_lines (s : sample) (rest : list string) : list (list ascii) := all_line s :: (core_line <$> k_cores s) ++ (bytes <$> rest).
(** /proc/stat. *)
Definition proc_stat (s : sample) (rest : list string) : string := of_bytes (join_bytes (byte_of 10) (stat_lines s rest ++ [[]])).
Definition stats_of (s : sample) : cpuStats :=
  {| cs_all := k_all s; cs_guest := k_guest s; cs_guestNice := k_guestNice s; cs_cores := (λ x, x.1.1.2) <$> k_cores s |}.

Definition counted (c : counters) : Prop := Forall in_uint64 (values c).
Definition sample_ok (s : sample) : Prop :=
  counted (k_all s) ∧ in_uint64 (k_guest s) ∧ in_uint64 (k_guestNice s) ∧ Forall (λ x, 0 ≤ x.1.1.1 ∧ counted x.1.1.2 ∧ in_uint64 x.1.2 ∧ in_uint64 x.2) (k_cores s).
(** The other lines do not start as those of the processors do; none is too long. *)
Definition rest_ok (s : sample) (rest : list string) : Prop :=
  Forall (λ l, byte_of 10 ∉ bytes l ∧ HasPrefix (trim_cr l) "cpu" = false) rest ∧ Forall (λ l, Z.of_nat (length l) < 65536) (stat_lines s rest).

Lemma number_word n : 0 ≤ n → word (bytes (Itoa n)).
Proof.
  intros Hn. rewrite Itoa_nonneg, bytes_of_bytes by done. split; [apply digits_of_nonempty|]. apply forallb_forall. intros c Hc. pose proof (digits_of_digits n Hn) as Hd.
  rewrite forallb_forall in Hd. apply Hd, is_digit_spec in Hc. unfold graphic. apply andb_true_iff. split; apply Z.leb_le; lia.
Qed.
Lemma number_words_ok c g gn : counted c → in_uint64 g → in_uint64 gn → Forall word (number_words c g gn).
Proof.
  intros Hc [Hg _] [Hn _]. unfold number_words. apply Forall_fmap, Forall_app. split; [eapply Forall_impl; [exact Hc|]; intros x [? _]; by apply number_word|].
  repeat constructor; by apply number_word.
Qed.

Lemma join_spaced ws l : join_bytes " " (ws ++ [l]) = spaced ((λ w, (w, [" "%char])) <$> ws) ++ l.
Proof.
  induction ws as [|w ws IH]; [done|]. change (join_bytes " " (w :: (ws ++ [l])) = (w ++ " "%char :: spaced ((λ w, (w, [" "%char])) <$> ws)) ++ l).
  rewrite <- app_assoc. cbn [app]. rewrite <- IH. by destruct ws.
Qed.
Lemma one_blank : Forall blank [" "%char].
Proof. constructor; [by left|constructor]. Qed.
Lemma two_blanks : Forall blank [" "%char; " "%char].
Proof. constructor; [by left|apply one_blank]. Qed.
Lemma cpu_word l : forallb graphic l = true → word (bytes "cpu" ++ l).
Proof. intros Hl. split; [done|]. by rewrite forallb_app, Hl. Qed.
Lemma number_words_some c g gn : number_words c g gn ≠ [].
Proof. done. Qed.
Lemma Fields_first w b ws : word w → Forall blank b → b ≠ [] → ws ≠ [] → Forall word ws →
  Fields (of_bytes (w ++ b ++ join_bytes " " ws)) = of_bytes <$> (w :: ws).
Proof.
  intros Hw Hb Hn Hws Hf. unfold Fields. rewrite bytes_of_bytes. f_equal. destruct ws as [|l ws' _] using rev_ind; [done|]. apply Forall_app in Hf as [Hf Hl]. rewrite Forall_singleton in Hl.
  rewrite join_spaced, !app_assoc, <- (app_assoc w). change (w ++ b ++ spaced ((λ w, (w, [" "%char])) <$> ws')) with (spaced ((w, b) :: ((λ w, (w, [" "%char])) <$> ws'))).
  rewrite fields_spaced.
  - rewrite fmap_cons, <- list_fmap_compose. unfold compose. cbn [fst]. rewrite list_fmap_id. destruct Hl as [Hl ?]. by destruct l.
  - constructor; [done|]. apply Forall_fmap. eapply Forall_impl; [exact Hf|]. intros x ?. cbn. split; [done|]. split; [done|]. repeat constructor.
  - by right.
  - rewrite <- length_bytes, bytes_of_bytes. cbn [spaced]. rewrite !app_assoc. lia.
Qed.

Lemma counter_back n : in_uint64 n → number (Itoa n) = n.
Proof. intros H. unfold number. by rewrite ParseUint_Itoa. Qed.
Lemma read_counters_back steal w c g gn : counted c → read_counters steal (of_bytes <$> (w :: number_words c g gn)) = c.
Proof.
  intros Hc. unfold counted, values in Hc. rewrite !Forall_cons in Hc. destruct Hc as (H1 & H2 & H3 & H4 & H5 & H6 & H7 & H8 & _).
  unfold read_counters, number_words, nth_field, values. cbn [fmap list_fmap app lookup list_lookup default from_option id length compose]. change (8 <? Z.of_nat 11) with true. cbv iota.
  unfold compose. rewrite !of_bytes_bytes, !counter_back by done. by destruct c.
Qed.

Lemma cpu_line_all s0 s : sample_ok s → cpu_line s0 (of_bytes (all_line s)) = {| cs_all := k_all s; cs_guest := k_guest s; cs_guestNice := k_guestNice s; cs_cores := cs_cores s0 |}.
Proof.
  intros (Hc & Hg & Hn & _). pose proof (number_words_ok _ _ _ Hc Hg Hn) as Hw. unfold cpu_line.
  assert (HasPrefix (of_bytes (all_line s)) "cpu " = true) as -> by done. unfold all_line.
  rewrite (Fields_first (bytes "cpu") _ _ (cpu_word [] eq_refl) two_blanks ltac:(done) (number_words_some _ _ _) Hw).
  rewrite read_counters_back by done. cbn [fmap list_fmap length]. unfold number_words, values, nth_field. cbn [fmap list_fmap app length lookup list_lookup default from_option id].
  change (Z.of_nat 11 <? 8) with false. change (9 <? Z.of_nat 11) with true. change (10 <? Z.of_nat 11) with true. cbv iota. unfold compose. by rewrite !of_bytes_bytes, !counter_back.
Qed.
Lemma cpu_line_core s0 x : 0 ≤ x.1.1.1 ∧ counted x.1.1.2 ∧ in_uint64 x.1.2 ∧ in_uint64 x.2 →
  cpu_line s0 (of_bytes (core_line x)) = {| cs_all := cs_all s0; cs_guest := cs_guest s0; cs_guestNice := cs_guestNice s0; cs_cores := cs_cores s0 ++ [x.1.1.2] |}.
Proof.
  destruct x as [[[i c] g] gn]. cbn [fst snd]. intros (Hi & Hc & Hg & Hn). pose proof (number_words_ok _ _ _ Hc Hg Hn) as Hw. unfold cpu_line.
  pose proof (number_word i Hi) as [Hne Hgr]. assert (Hd : ∃ d l, bytes (Itoa i) = d :: l ∧ d ≠ " "%char).
  { destruct (bytes (Itoa i)) as [|d l]; [done|]. exists d, l. split; [done|]. intros ->. by apply andb_prop in Hgr as [? _]. }
  destruct Hd as (d & l & Ed & Hd).
  assert (HasPrefix (of_bytes (core_line (i, c, g, gn))) "cpu " = false) as ->.
  { unfold core_line. rewrite Ed. clear -Hd. cbn. by destruct d as [[] [] [] [] [] [] [] []]. }
  assert (HasPrefix (of_bytes (core_line (i, c, g, gn))) "cpu" = true) as -> by (unfold core_line; rewrite Ed; done).
  assert (3 <? len (of_bytes (core_line (i, c, g, gn))) = true) as ->.
  { unfold len, core_line. rewrite <- length_bytes, bytes_of_bytes, Ed, !length_app. apply Z.ltb_lt. cbn [length bytes String.list_ascii_of_string]. lia. }
  cbn [andb]. unfold core_line. rewrite (Fields_first _ _ _ (cpu_word _ Hgr) one_blank ltac:(done) (number_words_some _ _ _) Hw).
  rewrite read_counters_back by done. done.
Qed.

Lemma scan_stat ls : Forall (λ l, len l < 65536) ls → scan_lines (ls ++ [""%string]) = (trim_cr <$> ls, true).
Proof.
  induction 1 as [|l ls Hl _ IH]; [done|]. cbn [app fmap list_fmap]. destruct (ls ++ [""%string]) as [|l' ls'] eqn:E; [by destruct ls|]. cbn [scan_lines] in *. 
  rewrite (proj2 (Z.leb_gt _ _)) by done. by rewrite IH.
Qed.

Lemma no_newline_words ws : Forall word ws → byte_of 10 ∉ join_bytes " " ws.
Proof.
  induction 1 as [|w ws [_ Hw] _ IH]; [by apply not_elem_of_nil|].
  assert (byte_of 10 ∉ w) by (intros Hin%list_elem_of_In; rewrite forallb_forall in Hw; by apply Hw in Hin).
  destruct ws as [|w' ws]; [done|]. change (byte_of 10 ∉ w ++ " "%char :: join_bytes " " (w' :: ws)).
  rewrite elem_of_app, elem_of_cons. naive_solver.
Qed.
(** The lines of the processors have no line feed, and do not end in a carriage return. *)
Definition clean_line (l : list ascii) : Prop := byte_of 10 ∉ l ∧ trim_cr (of_bytes l) = of_bytes l.
Lemma last_word ws w : w ≠ [] → ∃ pre, join_bytes " " (ws ++ [w]) = pre ++ w.
Proof. intros Hw. rewrite join_spaced. by exists (spaced ((λ w, (w, [" "%char])) <$> ws)). Qed.
Lemma clean_prefix p ws : byte_of 10 ∉ p → ws ≠ [] → Forall word ws → clean_line (p ++ join_bytes " " ws).
Proof.
  intros Hp Hne Hw. split; [rewrite elem_of_app; intros [?|H]; [done|by apply no_newline_words in H]|].
  destruct ws as [|w ws' _] using rev_ind; [done|]. apply Forall_app in Hw as [_ Hw]. rewrite Forall_singleton in Hw. destruct Hw as [Hw Hg].
  destruct (last_word ws' w Hw) as [pre ->]. rewrite app_assoc. unfold trim_cr. rewrite bytes_of_bytes, rev_app_distr.
  destruct w as [|c w' _] using rev_ind; [done|]. rewrite rev_unit. cbn [app]. rewrite forallb_app in Hg. apply andb_prop in Hg as [_ Hg]. cbn [forallb] in Hg. rewrite andb_true_r in Hg.
  unfold graphic in Hg. to_prop. by rewrite (proj2 (Z.eqb_neq _ _)) by lia.
Qed.
Lemma stat_lines_clean s : sample_ok s → Forall clean_line (all_line s :: (core_line <$> k_cores s)).
Proof.
  intros (Hc & Hg & Hn & Hcs). constructor.
  - unfold all_line. rewrite app_assoc. apply clean_prefix; [|done|by apply number_words_ok]. refine (bool_decide_unpack _ _). vm_compute. exact I.
  - apply Forall_fmap. eapply Forall_impl; [exact Hcs|]. intros [[[i c] g] gn]. cbn [fst snd]. intros (Hi & ? & ? & ?). unfold compose, core_line. rewrite app_assoc.
    apply clean_prefix; [|done|by apply number_words_ok]. rewrite !elem_of_app. intros [[Hin|Hin]|Hin].
    + revert Hin. refine (bool_decide_unpack _ _). vm_compute. exact I.
    + pose proof (number_word i Hi) as [_ Hw]. apply list_elem_of_In in Hin. rewrite forallb_forall in Hw. by apply Hw in Hin.
    + revert Hin. refine (bool_decide_unpack _ _). vm_compute. exact I.
Qed.
Lemma prefix_shorter p q s : HasPrefix s (p +:+ q) = true → HasPrefix s p = true.
Proof.
  unfold HasPrefix. revert s. induction p as [|c p IH]; intros [|d s]; try done. change (String c p +:+ q)%string with (String c (p +:+ q)%string). cbn [String.prefix]. destruct (ascii_dec c d); [apply IH|done].
Qed.
Lemma cpu_lines_rest s0 ls : Forall (λ l, HasPrefix l "cpu" = false) ls → foldl cpu_line s0 ls = s0.
Proof.
  induction 1 as [|l ls Hl _ IH]; [done|]. cbn [foldl]. assert (cpu_line s0 l = s0) as ->; [|done]. unfold cpu_line.
  assert (HasPrefix l "cpu " = false) as ->; [|by rewrite Hl]. apply not_true_iff_false. intros Hp. apply not_true_iff_false in Hl. apply Hl. by apply (prefix_shorter "cpu" " ").
Qed.
Lemma cpu_lines_cores s0 l : Forall (λ x, 0 ≤ x.1.1.1 ∧ counted x.1.1.2 ∧ in_uint64 x.1.2 ∧ in_uint64 x.2) l →
  foldl cpu_line s0 ((λ x, of_bytes (core_line x)) <$> l) = {| cs_all := cs_all s0; cs_guest := cs_guest s0; cs_guestNice := cs_guestNice s0; cs_cores := cs_cores s0 ++ ((λ x, x.1.1.2) <$> l) |}.
Proof.
  intros H. revert s0. induction H as [|x l Hx _ IH]; intros s0; [rewrite app_nil_r; by destruct s0|]. cbn [fmap list_fmap foldl]. rewrite cpu_line_core by done. rewrite IH. cbn [cs_all cs_guest cs_guestNice cs_cores].
  by rewrite <- app_assoc.
Qed.
(** Reading /proc/stat gives back the counters the kernel wrote there. *)
Lemma readCPUStats_back s rest : sample_ok s → rest_ok s rest → readCPUStats (Some (proc_stat s rest)) = Some (stats_of s).
Proof.
  intros Hs [Hr Hl]. pose proof (stat_lines_clean s Hs) as Hcl. unfold readCPUStats. cbn [mbind option_bind]. unfold Scan, proc_stat, Split. rewrite bytes_of_bytes, split_bytes_join.
  2: by destruct (stat_lines s rest).
  2: { apply Forall_app. split; [|repeat constructor; apply not_elem_of_nil]. unfold stat_lines. rewrite app_comm_cons. apply Forall_app. split.
       - eapply Forall_impl; [exact Hcl|]. by intros l [? _].
       - apply Forall_fmap. eapply Forall_impl; [exact Hr|]. by intros l [? _]. }
  rewrite fmap_app. cbn [fmap list_fmap]. rewrite scan_stat.
  2: { apply Forall_fmap. eapply Forall_impl; [exact Hl|]. intros l ?. cbn. unfold len. by rewrite <- length_bytes, bytes_of_bytes. }
  cbv iota beta. f_equal. unfold stat_lines. rewrite app_comm_cons, !fmap_app, foldl_app. rewrite cpu_lines_rest.
  2: { rewrite <- !list_fmap_compose. apply Forall_fmap. eapply Forall_impl; [exact Hr|]. intros l [_ H]. unfold compose. by rewrite of_bytes_bytes. }
  assert (Et : trim_cr <$> (of_bytes <$> (all_line s :: (core_line <$> k_cores s))) = of_bytes (all_line s) :: ((λ x, of_bytes (core_line x)) <$> k_cores s)).
  { rewrite <- list_fmap_compose. transitivity (of_bytes <$> (all_line s :: (core_line <$> k_cores s))); [|by rewrite fmap_cons, <- list_fmap_compose].
    apply list_fmap_ext. intros i l Hi. by apply (Forall_lookup_1 _ _ _ _ Hcl) in Hi as [_ ?]. }
  rewrite Et. cbn [foldl]. rewrite cpu_line_all by done. destruct Hs as (_ & _ & _ & Hcs). rewrite cpu_lines_cores by done. done.
Qed.

(** The counters did not go back, and their sum fits. *)
Definition sum_of (c : counters) : Z := foldr Z.add 0 (values c).
Definition grown (a b : counters) : Prop := Forall2 Z.le (values a) (values b) ∧ sum_of b < 2 ^ 64.
(** The shares of the true differences; for a core, those with what it had before. *)
Definition true_usage (a b : counters) : float64 :=
  let total := float_of_Z (sum_of b - sum_of a) in if lt64 zero64 total then busy (float_of_Z (c_idle b - c_idle a)) total else zero64.
Definition true_share (f : counters → Z) (a b : counters) : float64 :=
  let total := float_of_Z (sum_of b - sum_of a) in if lt64 zero64 total then share (float_of_Z (f b - f a)) total else zero64.

Lemma total_time_sum c : counted c → sum_of c < 2 ^ 64 → total_time c = sum_of c.
Proof.
  intros Hc Hs. unfold counted, values in Hc. rewrite !Forall_cons in Hc. unfold in_uint64 in Hc. unfold sum_of, values in *. cbn [foldr] in *. destruct_and!.
  unfold total_time, uadd. 
  do 7 (match goal with |- context [?x mod 2 ^ 64] => lazymatch x with context [_ mod _] => fail | _ => rewrite (Z.mod_small x) by lia end end). lia.
Qed.
Lemma grown_sub a b : counted a → counted b → grown a b → calculateTotalDelta b a = float_of_Z (sum_of b - sum_of a) ∧
  (∀ f, In f [c_user; c_system; c_idle; c_iowait; c_steal] → usub (f b) (f a) = f b - f a).
Proof.
  intros Ha Hb [Hg Hs]. assert (Hsum : 0 ≤ sum_of a ≤ sum_of b).
  { unfold counted, values, sum_of in *. unfold values in *. cbn [foldr] in *. rewrite !Forall_cons in Ha. unfold in_uint64 in Ha.
    repeat match goal with H : Forall2 _ (_ :: _) (_ :: _) |- _ => apply Forall2_cons in H as [? ?] end. destruct_and!. lia. }
  split.
  - unfold calculateTotalDelta, usub. rewrite !total_time_sum by (done || lia). by rewrite Z.mod_small by lia.
  - intros f Hf. unfold usub. rewrite Z.mod_small; [done|]. unfold counted, values in Ha, Hb, Hg. rewrite !Forall_cons in Ha, Hb. unfold in_uint64 in Ha, Hb.
    repeat match goal with H : Forall2 _ (_ :: _) (_ :: _) |- _ => apply Forall2_cons in H as [? ?] end. destruct_and!. cbn [In] in Hf. destruct_or! Hf; subst f; lia.
Qed.

(** C37 Two collections with a later clock, of files that list the same number of cores, no
    line of them as long as 64 KiB, between which no counter goes back, with a readable load
    average: the second one reports the shares of the true differences, of all processors
    together and of each core, the cores being paired by their position in the files,
    whatever the lines other than those of the processors hold; it reports as many cores as
    the file has. (In [idle_went_back] a counter goes back.) *)
Theorem cpu_between_samples other c t1 t2 a b rest1 rest2 load1 load2 l2 :
  sample_ok a → sample_ok b → rest_ok a rest1 → rest_ok b rest2 → grown (k_all a) (k_all b) → Forall2 (λ x y, grown x.1.1.2 y.1.1.2) (k_cores a) (k_cores b) →
  t1 < t2 → is_Some (readLoadAverage other load1) → readLoadAverage other load2 = Some l2 →
  let '(_, c1) := Collect_cpu other c t1 (Some (proc_stat a rest1)) load1 in
  (Collect_cpu other c1 t2 (Some (proc_stat b rest2)) load2).1 = Some {|
    UsagePercent := true_usage (k_all a) (k_all b); LoadAverage := l2; Cores := Z.of_nat (length (k_cores b));
    PerCoreUsage := zip_with (λ x y, true_usage x.1.1.2 y.1.1.2) (k_cores a) (k_cores b);
    StealTime := true_share c_steal (k_all a) (k_all b); UserTime := true_share c_user (k_all a) (k_all b); SystemTime := true_share c_system (k_all a) (k_all b);
    IdleTime := true_share c_idle (k_all a) (k_all b); IOWaitTime := true_share c_iowait (k_all a) (k_all b) |}.
Proof.
  intros Ha Hb Hr1 Hr2 Hg Hgs Ht [l1 Hl1] Hl2. unfold Collect_cpu. rewrite !readCPUStats_back, Hl1, Hl2 by done. cbn [lastStats lastTime fst].
  rewrite (proj2 (Z.ltb_lt _ _)) by done. cbn [stats_of cs_all cs_cores]. destruct Ha as (Ha & _ & _ & Has), Hb as (Hb & _ & _ & Hbs).
  destruct (grown_sub _ _ Ha Hb Hg) as [Et Ef]. rewrite Et. rewrite !Ef by (cbn; tauto).
  assert (Ecores : imap (core_usage ((λ x, x.1.1.2) <$> k_cores a)) ((λ x, x.1.1.2) <$> k_cores b) = zip_with (λ x y, true_usage x.1.1.2 y.1.1.2) (k_cores a) (k_cores b)).
  { apply list_eq. intros i. rewrite list_lookup_imap, list_lookup_fmap, lookup_zip_with. destruct (k_cores b !! i) as [y|] eqn:Ey; [|by destruct (k_cores a !! i)].
    destruct (Forall2_lookup_r _ _ _ _ _ Hgs Ey) as (x & Ex & Hxy). rewrite Ex. cbn [fmap option_fmap option_map mbind option_bind]. f_equal. unfold core_usage.
    rewrite list_lookup_fmap, Ex. cbn [fmap option_fmap option_map].
    apply (Forall_lookup_1 _ _ _ _ Has) in Ex as (_ & Hx & _). apply (Forall_lookup_1 _ _ _ _ Hbs) in Ey as (_ & Hy & _).
    destruct (grown_sub _ _ Hx Hy Hxy) as [Et' Ef']. rewrite Et', Ef' by (cbn; tauto). done. }
  rewrite Ecores, length_fmap. unfold true_usage, true_share. by destruct (lt64 zero64 _).
Qed.

(** ** Instances *)

Definition sample_one : sample :=
  {| k_all := {| c_user := 100; c_nice := 0; c_system := 50; c_idle := 800; c_iowait := 10; c_irq := 0; c_softirq := 5; c_steal := 0 |}; k_guest := 0; k_guestNice := 0;
     k_cores := [(0, {| c_user := 60; c_nice := 0; c_system := 20; c_idle := 400; c_iowait := 10; c_irq := 0; c_softirq := 5; c_steal := 0 |}, 0, 0)] |}.
(** Two hundred units of time later; half of them were idle, none of the core's hundred. *)
Definition sample_two : sample :=
  {| k_all := {| c_user := 150; c_nice := 0; c_system := 100; c_idle := 900; c_iowait := 10; c_irq := 0; c_softirq := 5; c_steal := 0 |}; k_guest := 0; k_guestNice := 0;
     k_cores := [(0, {| c_user := 110; c_nice := 0; c_system := 70; c_idle := 400; c_iowait := 10; c_irq := 0; c_softirq := 5; c_steal := 0 |}, 0, 0)] |}.
Definition stat_rest : list string := ["intr 17 3"; "ctxt 4711"]%string.
Definition no_float (s : string) : float64 := zero64.
Lemma sample_one_ok : sample_ok sample_one ∧ rest_ok sample_one stat_rest.
Proof. split; refine (bool_decide_unpack _ _); vm_compute; exact I. Defined.
Lemma sample_two_ok : sample_ok sample_two ∧ rest_ok sample_two stat_rest.
Proof. split; refine (bool_decide_unpack _ _); vm_compute; exact I. Defined.
Lemma one_two_grown : grown (k_all sample_one) (k_all sample_two) ∧ Forall2 (λ x y, grown x.1.1.2 y.1.1.2) (k_cores sample_one) (k_cores sample_two).
Proof. split; [|repeat constructor]; try (split; [|vm_compute; reflexivity]; repeat constructor); cbn; lia. Defined.

(** Half of the time of all processors is idle, none of the core's. *)
Lemma cpu_between_samples_witness :
  let '(_, c1) := Collect_cpu no_float {| lastStats := None; lastTime := 0 |} 5 (Some (proc_stat sample_one stat_rest)) (Some "0.50 0.40 0.30 1/200 4711"%string) in
  ∃ m, (Collect_cpu no_float c1 10 (Some (proc_stat sample_two stat_rest)) (Some "0.50 0.40 0.30 1/200 4712"%string)).1 = Some m ∧
    UsagePercent m = float_of_Z 50 ∧ PerCoreUsage m = [float_of_Z 100] ∧ UserTime m = float_of_Z 25 ∧ SystemTime m = float_of_Z 25 ∧ IOWaitTime m = zero64.
Proof.
  destruct sample_one_ok as [Ha Hr1], sample_two_ok as [Hb Hr2], one_two_grown as [Hg Hgs].
  assert (Hl : is_Some (readLoadAverage no_float (Some "0.50 0.40 0.30 1/200 4711"%string))) by (vm_compute; by eexists).
  destruct (readLoadAverage no_float (Some "0.50 0.40 0.30 1/200 4712"%string)) as [l2|] eqn:E2; [|exfalso; vm_compute in E2; discriminate E2].
  pose proof (cpu_between_samples no_float {| lastStats := None; lastTime := 0 |} 5 10 sample_one sample_two stat_rest stat_rest _ _ _ Ha Hb Hr1 Hr2 Hg Hgs ltac:(lia) Hl E2) as H.
  destruct (Collect_cpu _ _ 5 _ _) as [m1 c1]. eexists. split; [exact H|]. split; [vm_compute; reflexivity|]. split; [vm_compute; reflexivity|].
  split; [vm_compute; reflexivity|]. split; vm_compute; reflexivity.
Defined.

(** The idle counter is one lower than before, which the kernel allows: the difference wraps around, and the
    usage is below minus a billion percent. *)
Definition sample_back : sample :=
  {| k_all := {| c_user := 150; c_nice := 0; c_system := 100; c_idle := 799; c_iowait := 10; c_irq := 0; c_softirq := 5; c_steal := 0 |}; k_guest := 0; k_guestNice := 0; k_cores := [] |}.
Example idle_went_back :
  let '(_, c1) := Collect_cpu no_float {| lastStats := None; lastTime := 0 |} 5 (Some (proc_stat sample_one stat_rest)) (Some "0.50 0.40 0.30"%string) in
  (λ m, lt64 (UsagePercent m) (float_of_Z (-1000000000))) <$> (Collect_cpu no_float c1 10 (Some (proc_stat sample_back stat_rest)) (Some "0.50 0.40 0.30"%string)).1 = Some true.
Proof. vm_compute. reflexivity. Qed.

(** The tenth partition of a disk, and every partition of a virtual one, counts beside its disk. *)
Example partitions_skipped : shouldSkipDevice <$> ["sda1"; "nvme0n1p1"; "sda"; "nvme0n1"]%string = [true; true; false; false].
Proof. reflexivity. Qed.
Example partitions_counted_twice : shouldSkipDevice <$> ["sda10"; "vda1"; "xvda1"]%string = [false; false; false].
Proof. reflexivity. Qed.
