(* ===== verification/Cgroup.v ===== *)
(** * Control groups and the resources of a job
    (internal/joblet/core/resource/cgroup.go, internal/joblet/core/resource_manager.go)

    The limits of a job are texts written to files of its control group.  What the
    kernel answers to each call is an argument; what the program did is recorded, and
    the directories it made and did not remove are a set.  Clean-ups run in goroutines
    of their own and are kept in a list until they run. *)

From Stdlib Require Import Ascii String SpecFloat.
From S2P Require Import Prelude GoStrings GoNumbers Values Paths Job Admission.

Local Open Scope Z_scope.

(** ** The host *)

Inductive stat := SExists | SNotExist | SOther.
Inductive signal := SIGTERM | SIGKILL.
#[export] Instance signal_eq_dec : EqDecision signal.
Proof. solve_decision. Defined.

(** What the kernel answers; [true] is success. *)
Record kernel := {
  k_file : string → stat;
  k_write : string → string → bool;
  k_read : string → option string;
  k_mkdir : string → bool;
  k_removeAll : string → bool;
  k_remove : string → bool;
  k_readdir : string → list (string * bool);
  k_find : Z → bool;
  k_signal : Z → signal → bool;
  k_self : Z;
}.

Inductive effect :=
| EMkdir (path : string) | EWrite (path text : string) | ESignal (pid : Z) (sig : signal)
| ERemoveAll (path : string) | ERemove (path : string).

#[export] Instance effect_eq_dec : EqDecision effect.
Proof. solve_decision. Defined.

(** [initialized] is that of the resource manager; [cleanups]: goroutines that have
    not run yet. *)
Record sys := { dirs : gset string; done_ : list effect; initialized : bool; cleanups : list string }.

Definition record (e : effect) (s : sys) : sys :=
  {| dirs := dirs s; done_ := done_ s ++ [e]; initialized := initialized s; cleanups := cleanups s |}.
Definition set_dirs (d : gset string) (s : sys) : sys :=
  {| dirs := d; done_ := done_ s; initialized := initialized s; cleanups := cleanups s |}.
Definition set_initialized (b : bool) (s : sys) : sys :=
  {| dirs := dirs s; done_ := done_ s; initialized := b; cleanups := cleanups s |}.
Definition set_cleanups (l : list string) (s : sys) : sys :=
  {| dirs := dirs s; done_ := done_ s; initialized := initialized s; cleanups := l |}.

(** [filepath.Base]. *)
Definition Base (p : string) : string :=
  if String.eqb p "" then "."%string else
  match rev (List.filter (λ w, negb (bool_decide (w = []))) (split_bytes "/" (bytes p))) with
  | w :: _ => of_bytes w
  | [] => "/"%string
  end.

Inductive cg_error :=
| EOutside (path : string) | EMkdirFailed (path : string) | ENotEnforced (cpu memory io : bool)
| EMissing (path : string) | ENotWritten (path : string) | ENoFormat.

(** [src/pkg/config/config.go CgroupConfig] *)
Record CgroupConfig := { BaseDir : string; EnableControllers : list string }.

Section cgroup.
Context (K : kernel) (config : CgroupConfig).

Definition mkdirAll (p : string) (s : sys) : bool * sys :=
  if k_mkdir K p then (true, set_dirs ({[p]} ∪ dirs s) (record (EMkdir p) s)) else (false, s).

Definition write (p text : string) (s : sys) : bool * sys :=
  if k_write K p text then (true, record (EWrite p text) s) else (false, s).

(** A directory the program made is there; of other paths the kernel says. *)
Definition stat_of (p : string) (s : sys) : stat := if decide (p ∈ dirs s) then SExists else k_file K p.

Definition exists_ (p : string) (s : sys) : bool := match stat_of p s with SExists => true | _ => false end.
Definition missing (p : string) (s : sys) : bool := match stat_of p s with SNotExist => true | _ => false end.

(** [path/...] and [path] itself. *)
Definition below (p q : string) : bool := String.eqb q p || HasPrefix q (p +:+ "/").

Definition removeAll (p : string) (s : sys) : bool * sys :=
  if k_removeAll K p then (true, set_dirs (filter (λ q, below p q = false) (dirs s)) (record (ERemoveAll p) s))
  else (false, s).

Definition remove (p : string) (s : sys) : bool * sys :=
  if k_remove K p then (true, set_dirs (dirs s ∖ {[p]}) (record (ERemove p) s)) else (false, s).

(** ** Controllers *)

Definition plus (controller : string) : string := "+" +:+ controller.

(** The error of each is only logged.
    [src/internal/joblet/core/resource/cgroup.go cgroup.moveJobletProcessToSubgroup] *)
Definition moveJobletProcessToSubgroup (s : sys) : bool * sys :=
  let jobletSubgroup := Join_path [BaseDir config; "joblet-main"%string] in
  let '(ok, s) := mkdirAll jobletSubgroup s in
  if ok then write (Join_path [jobletSubgroup; "cgroup.procs"%string]) (Itoa (k_self K)) s else (false, s).

(** [src/internal/joblet/core/resource/cgroup.go cgroup.enableControllersFromConfig] *)
Definition enableControllersFromConfig (s : sys) : bool * sys :=
  match k_read K (Join_path [BaseDir config; "cgroup.controllers"%string]) with
  | None => (false, s)
  | Some available =>
      let enabled := plus <$> List.filter (λ c, existsb (String.eqb c) (Fields available)) (EnableControllers config) in
      match enabled with
      | [] => (true, s)
      | _ => write (Join_path [BaseDir config; "cgroup.subtree_control"%string]) (Join enabled " ") s
      end
  end.

(** [src/internal/joblet/core/resource/cgroup.go cgroup.EnsureControllers] *)
Definition EnsureControllers (s : sys) : sys :=
  if initialized s then s
  else set_initialized true (enableControllersFromConfig (moveJobletProcessToSubgroup s).2).2.

(** [src/internal/joblet/core/resource/cgroup.go cgroup.enableSubtreeControl] *)
Definition enableSubtreeControl (cgroupPath : string) (s : sys) : bool * sys :=
  match plus <$> EnableControllers config with
  | [] => (true, s)
  | cs => write (Join_path [cgroupPath; "cgroup.subtree_control"%string]) (Join cs " ") s
  end.

(** ** Limits *)

(** The weight, computed in doubles and truncated.
    [src/internal/joblet/core/resource/cgroup.go:378-388 cgroup.SetCPULimit] *)
Definition cpu_weight (cpuLimit : Z) : Z :=
  if 0 <? cpuLimit then
    let weight := truncate (mul64 (float_of_Z 100) (div64 (float_of_Z cpuLimit) (float_of_Z 100))) in
    if weight <? 1 then 1 else if 10000 <? weight then 10000 else weight
  else 100.

(** [src/internal/joblet/core/resource/cgroup.go cgroup.SetCPULimit] *)
Definition SetCPULimit (cgroupPath : string) (cpuLimit : Z) (s : sys) : result cg_error unit * sys :=
  let cpuMaxPath := Join_path [cgroupPath; "cpu.max"%string] in
  let cpuWeightPath := Join_path [cgroupPath; "cpu.weight"%string] in
  if exists_ cpuMaxPath s then
    let quota := Z.quot (wrap64 (cpuLimit * 100000)) 100 in
    let '(ok, s) := write cpuMaxPath (Itoa quota +:+ " 100000") s in
    (if ok then Ok tt else Err (ENotWritten cpuMaxPath), s)
  else if exists_ cpuWeightPath s then
    let '(ok, s) := write cpuWeightPath (Itoa (cpu_weight cpuLimit)) s in
    (if ok then Ok tt else Err (ENotWritten cpuWeightPath), s)
  else (Err (EMissing cpuMaxPath), s).

(** [src/internal/joblet/core/resource/cgroup.go cgroup.SetMemoryLimit] *)
Definition SetMemoryLimit (cgroupPath : string) (memoryLimitMB : Z) (s : sys) : result cg_error unit * sys :=
  let memoryLimitBytes := wrap64 (wrap64 (memoryLimitMB * 1024) * 1024) in
  let memoryMaxPath := Join_path [cgroupPath; "memory.max"%string] in
  let memoryHighPath := Join_path [cgroupPath; "memory.high"%string] in
  let '(setMax, s) := if exists_ memoryMaxPath s then write memoryMaxPath (Itoa memoryLimitBytes) s else (false, s) in
  let softLimit := truncate (mul64 (float_of_Z memoryLimitBytes) (decimal 9 1)) in
  let '(setHigh, s) := if exists_ memoryHighPath s then write memoryHighPath (Itoa softLimit) s else (false, s) in
  (if negb setMax && negb setHigh then Err (EMissing memoryMaxPath) else Ok tt, s).

(** The first text that the kernel accepts.
    [src/internal/joblet/core/resource/cgroup.go:340-353 cgroup.SetIOLimit] *)
Fixpoint try_formats (p : string) (formats : list string) (s : sys) : result cg_error unit * sys :=
  match formats with
  | [] => (Err ENoFormat, s)
  | f :: formats =>
      let '(ok, s) := write p f s in
      if ok then (Ok tt, s) else try_formats p formats s
  end.

(** [src/internal/joblet/core/resource/cgroup.go:327-338 cgroup.SetIOLimit] *)
Definition io_formats (ioBPS : Z) : list string :=
  ["8:0 rbps=" +:+ Itoa ioBPS; "8:0 wbps=" +:+ Itoa ioBPS; "max rbps=" +:+ Itoa ioBPS; "8:0 riops=1000 wiops=1000"]%string.

(** [src/internal/joblet/core/resource/cgroup.go cgroup.SetIOLimit] *)
Definition SetIOLimit (cgroupPath : string) (ioBPS : Z) (s : sys) : result cg_error unit * sys :=
  let ioMaxPath := Join_path [cgroupPath; "io.max"%string] in
  if missing ioMaxPath s then (Err (EMissing ioMaxPath), s) else try_formats ioMaxPath (io_formats ioBPS) s.

(** [src/internal/joblet/core/resource/cgroup.go cgroup.SetCPUCores] *)
Definition SetCPUCores (cgroupPath cores : string) (s : sys) : result cg_error unit * sys :=
  if String.eqb cores "" then (Ok tt, s) else
  let p := Join_path [cgroupPath; "cpuset.cpus"%string] in
  let '(ok, s) := write p cores s in
  if ok then (Ok tt, (write (Join_path [cgroupPath; "cpuset.mems"%string]) "0" s).2) else (Err (ENotWritten p), s).

(** [src/internal/joblet/core/resource/cgroup.go cgroup.AddProcessToCgroup] *)
Definition AddProcessToCgroup (cgroupPath : string) (pid : Z) (s : sys) : result cg_error unit * sys :=
  if missing cgroupPath s then (Err (EMissing cgroupPath), s) else
  let p := Join_path [cgroupPath; "cgroup.procs"%string] in
  let '(ok, s) := write p (Itoa pid) s in
  (if ok then Ok tt else Err (ENotWritten p), s).

(** ** GPU devices *)

(** [src/internal/joblet/core/resource/cgroup.go cgroup.detectCgroupVersion] *)
Definition detectCgroupVersion (s : sys) : Z :=
  if exists_ (Join_path [BaseDir config; "devices.allow"%string]) s then 1 else 2.

(** What the kernel refuses is only logged.
    [src/internal/joblet/core/resource/cgroup.go cgroup.setGPUDevicesV1] *)
Definition setGPUDevicesV1 (cgroupPath : string) (gpuIndices : list Z) (s : sys) : result cg_error unit * sys :=
  let p := Join_path [cgroupPath; "devices.allow"%string] in
  if missing p s then (Err (EMissing p), s) else
  (Ok tt, foldl (λ s rule, (write p rule s).2) s
    (["c 195:255 rwm"; "c 237:0 rwm"]%string ++ ((λ i, "c 195:" +:+ Itoa i +:+ " rwm") <$> gpuIndices))).

(** [src/internal/joblet/core/resource/cgroup.go cgroup.setGPUDevicesV2] *)
Definition setGPUDevicesV2 (cgroupPath : string) (s : sys) : result cg_error unit * sys :=
  (if missing cgroupPath s then Err (EMissing cgroupPath) else Ok tt, s).

(** [src/internal/joblet/core/resource/cgroup.go cgroup.SetGPUDevices] *)
Definition SetGPUDevices (cgroupPath : string) (gpuIndices : list Z) (s : sys) : result cg_error unit * sys :=
  if detectCgroupVersion s =? 1 then setGPUDevicesV1 cgroupPath gpuIndices s else setGPUDevicesV2 cgroupPath s.

(** ** Clean-up *)

(** The processes to signal, until a second signal fails, which ends the clean-up
    ([Some false]); texts that are no number are passed over.
    [src/internal/joblet/core/resource/cgroup.go:500-528 cgroup.cleanupJobCgroup] *)
Fixpoint kill_all (pids : list string) (s : sys) : bool * sys :=
  match pids with
  | [] => (true, s)
  | p :: pids =>
      if String.eqb p "" then kill_all pids s else
      match Atoi p with
      | None => kill_all pids s
      | Some pid =>
          if k_find K pid then
            let s1 := if k_signal K pid SIGTERM then record (ESignal pid SIGTERM) s else s in
            if k_signal K pid SIGKILL then kill_all pids (record (ESignal pid SIGKILL) s1) else (false, s1)
          else kill_all pids s
      end
  end.

(** [src/internal/joblet/core/resource/cgroup.go cgroup.cgroupPathRemoveAll] *)
Definition cgroupPathRemoveAll (cgroupPath : string) (s : sys) : sys :=
  let '(ok, s) := removeAll cgroupPath s in
  if ok then s else
  let files := List.filter (λ f, negb (snd f || HasPrefix f.1 "cgroup.")) (k_readdir K cgroupPath) in
  let s := foldl (λ s f, (remove (Join_path [cgroupPath; fst f]) s).2) s files in
  (remove cgroupPath s).2.

(** [src/internal/joblet/core/resource/cgroup.go cgroup.cleanupJobCgroup] *)
Definition cleanupJobCgroup (jobID : string) (s : sys) : sys :=
  let cgroupPath := Join_path [BaseDir config; ("job-" +:+ jobID)%string] in
  if negb (HasPrefix cgroupPath (BaseDir config +:+ "/job-")) then s
  else if missing cgroupPath s then s
  else
    let '(go, s) := match k_read K (Join_path [cgroupPath; "cgroup.procs"%string]) with
      | Some procs => kill_all (Split procs (byte_of 10)) s
      | None => (true, s)
      end in
    if go then cgroupPathRemoveAll cgroupPath s else s.

(** The goroutine starts later; the time-out only ends the wait for it.
    [src/internal/joblet/core/resource/cgroup.go cgroup.CleanupCgroup] *)
Definition CleanupCgroup (jobID : string) (s : sys) : sys := set_cleanups (cleanups s ++ [jobID]) s.

(** The goroutines that are pending, one after the other.  Those that a later [DeleteJob] orders,
    with the name of the job itself, are not among them. *)
Definition run_cleanups (s : sys) : sys := foldl (λ s id, cleanupJobCgroup id s) (set_cleanups [] s) (cleanups s).

(** ** Creation *)

(** A limit is applied only when one is asked for; whether it failed.
    [src/internal/joblet/core/resource/cgroup.go:233-264 cgroup.Create] *)
Definition enforce (limit : Z) (set_ : Z → sys → result cg_error unit * sys) (s : sys) : bool * sys :=
  if 0 <? limit then let '(r, s) := set_ limit s in (negb (is_ok r), s) else (false, s).

(** [src/internal/joblet/core/resource/cgroup.go cgroup.Create] *)
Definition Create (cgroupJobDir : string) (maxCPU maxMemory maxIOBPS : Z) (s : sys) : result cg_error unit * sys :=
  if negb (HasPrefix cgroupJobDir (BaseDir config)) then (Err (EOutside cgroupJobDir), s) else
  let '(ok, s) := mkdirAll cgroupJobDir (EnsureControllers s) in
  if negb ok then (Err (EMkdirFailed cgroupJobDir), s) else
  let processSubgroup := Join_path [cgroupJobDir; "proc"%string] in
  let '(ok, s) := mkdirAll processSubgroup s in
  if negb ok then (Err (EMkdirFailed processSubgroup), s) else
  let s := (enableSubtreeControl cgroupJobDir s).2 in
  let '(cpu, s) := enforce maxCPU (SetCPULimit cgroupJobDir) s in
  let '(memory, s) := enforce maxMemory (SetMemoryLimit cgroupJobDir) s in
  let '(io, s) := enforce maxIOBPS (SetIOLimit cgroupJobDir) s in
  if cpu || memory || io then (Err (ENotEnforced cpu memory io), CleanupCgroup (Base cgroupJobDir) s)
  else (Ok tt, s).

(** ** The resources of a job *)

Inductive setup_error := EWorkspace | ECgroup (e : cg_error) | ECores (e : cg_error) | EGPU (e : cg_error) | EUpload.

Section resources.
Context (filesystemBase : string).

(** [src/internal/joblet/core/resource_manager.go ResourceManager.createWorkspace] *)
Definition createWorkspace (jobID : string) (s : sys) : bool * sys := mkdirAll (Join_path [filesystemBase; jobID]) s.

(** [src/internal/joblet/core/resource_manager.go ResourceManager.cleanupWorkspace] *)
Definition cleanupWorkspace (jobID : string) (s : sys) : sys := (removeAll (Join_path [filesystemBase; jobID]) s).2.

(** [src/internal/joblet/core/resource_manager.go ResourceManager.cleanupAll] *)
Definition cleanupAll (jobID : string) (s : sys) : sys := cleanupWorkspace jobID (CleanupCgroup jobID s).

(** [src/internal/joblet/core/resource_manager.go ResourceManager.createCgroup] *)
Definition createCgroup (j : Job) (s : sys) : result cg_error unit * sys :=
  Create (CgroupPath j) (cpu_value (CPU (Limits j))) (Megabytes (Memory (Limits j)))
    (wrap32 (bw_bytes (IOBandwidth (Limits j)))) s.

(** The process subgroup is tried too; its error is only logged.
    [src/internal/joblet/core/resource_manager.go ResourceManager.applyCPUCoreRestrictions] *)
Definition applyCPUCoreRestrictions (j : Job) (s : sys) : result cg_error unit * sys :=
  let cores := core_spec (CPUCores (Limits j)) in
  let '(r, s) := SetCPUCores (CgroupPath j) cores s in
  match r with
  | Err e => (Err e, s)
  | Ok _ => (Ok tt, (SetCPUCores (Join_path [CgroupPath j; "proc"%string]) cores s).2)
  end.

(** [src/internal/joblet/core/resource_manager.go ResourceManager.setupGPUDevicePermissions] *)
Definition setupGPUDevicePermissions (j : Job) (s : sys) : result cg_error unit * sys :=
  SetGPUDevices (CgroupPath j) (GPUIndices j) s.

(** [src/internal/joblet/core/resource_manager.go ResourceManager.SetupJobResources] *)
Definition SetupJobResources (j : Job) (s : sys) : result setup_error unit * sys :=
  let '(ok, s) := createWorkspace (Uuid j) s in
  if negb ok then (Err EWorkspace, s) else
  let '(r, s) := createCgroup j s in
  match r with
  | Err e => (Err (ECgroup e), cleanupWorkspace (Uuid j) s)
  | Ok _ =>
      let '(r, s) := if cores_IsEmpty (CPUCores (Limits j)) then (Ok tt, s) else applyCPUCoreRestrictions j s in
      match r with
      | Err e => (Err (ECores e), cleanupAll (Uuid j) s)
      | Ok _ =>
          if negb (IsGPUAllocated j) then (Ok tt, s) else
          let '(r, s) := setupGPUDevicePermissions j s in
          match r with
          | Err e => (Err (EGPU e), cleanupAll (Uuid j) s)
          | Ok _ => (Ok tt, s)
          end
      end
  end.

(** [uploaded]: whether the upload manager succeeds.
    [src/internal/joblet/core/resource_manager.go ResourceManager.PrepareScheduledJobUploads] *)
Definition PrepareScheduledJobUploads (uploaded : bool) (j : Job) (uploads : nat) (s : sys) : result setup_error unit * sys :=
  if (uploads =? 0)%nat then (Ok tt, s) else
  let '(ok, s) := mkdirAll (Join_path [filesystemBase; Uuid j; "work"%string]) s in
  if negb ok then (Err EWorkspace, s) else
  let '(r, s) := createCgroup j s in
  match r with
  | Err e => (Err (ECgroup e), (removeAll (Join_path [filesystemBase; Uuid j]) s).2)
  | Ok _ => (if uploaded then Ok tt else Err EUpload, s)
  end.
End resources.
End cgroup.

(** ** Clean paths *)

Definition path_of (ws : list (list ascii)) : string := of_bytes ("/"%char :: join_bytes "/" ws).

Lemma clean_fold_id ws : ∀ out, Forall plain ws → foldl (clean_step true) out ws = rev ws ++ out.
Proof.
  induction ws as [|w ws IH]; intros out H; [done|]. apply Forall_cons in H as [(H1 & H2 & H3 & _) H]. simpl.
  unfold clean_step at 2. rewrite !bool_decide_eq_false_2 by done. simpl. rewrite IH by done. by rewrite <- app_assoc.
Qed.

Lemma join_bytes_snoc ws w : ws ≠ [] → join_bytes "/" (ws ++ [w]) = join_bytes "/" ws ++ "/"%char :: w.
Proof.
  induction ws as [|x ws IH]; intros Hn; [done|]. destruct ws as [|y ws]; [done|].
  change (join_bytes "/" ((x :: y :: ws) ++ [w])) with (x ++ "/"%char :: join_bytes "/" ((y :: ws) ++ [w])).
  rewrite IH by done. change (join_bytes "/" (x :: y :: ws)) with (x ++ "/"%char :: join_bytes "/" (y :: ws)).
  by rewrite <- app_assoc.
Qed.

Lemma IsAbs_path_of ws : IsAbs (path_of ws) = true.
Proof. apply IsAbs_cons. unfold path_of. rewrite bytes_of_bytes. eauto. Qed.

Lemma Clean_path_of s ws : bytes s = "/"%char :: join_bytes "/" ws → Forall plain ws → ws ≠ [] → Clean s = path_of ws.
Proof.
  intros Hs Hw Hn. assert (Ha : IsAbs s = true) by (apply IsAbs_cons; eauto).
  unfold Clean. rewrite bool_decide_eq_false_2 by (by intros ->). rewrite Ha. unfold path_of. do 3 f_equal.
  unfold Clean_elements, clean_words. rewrite Ha, Hs. simpl. rewrite plain_split by done.
  unfold clean_step at 2. simpl. rewrite clean_fold_id by done. by rewrite app_nil_r, rev_involutive.
Qed.

Lemma Join_plain ws w : Forall plain ws → ws ≠ [] → plain w → Join_path [path_of ws; of_bytes w] = path_of (ws ++ [w]).
Proof.
  intros Hw Hn Hp. rewrite Join_path2.
  - apply Clean_path_of; [|apply Forall_app; split; [done|by apply Forall_singleton]|by destruct ws].
    rewrite Join_bytes2, join_bytes_snoc by done. unfold path_of. by rewrite !bytes_of_bytes.
  - intros E%(f_equal bytes). unfold path_of in E. by rewrite bytes_of_bytes in E.
  - intros E%(f_equal bytes). rewrite bytes_of_bytes in E. by destruct Hp.
Qed.

Lemma Base_plain ws w : Forall plain ws → plain w → Base (path_of (ws ++ [w])) = of_bytes w.
Proof.
  intros Hw Hp. unfold Base. replace (String.eqb _ _) with false.
  2:{ symmetry. apply String.eqb_neq. intros E%(f_equal bytes). unfold path_of in E. by rewrite bytes_of_bytes in E. }
  unfold path_of. rewrite bytes_of_bytes.
  assert (Hf : Forall plain (ws ++ [w])) by (apply Forall_app; split; [done|by apply Forall_singleton]).
  change (split_bytes "/" ("/"%char :: join_bytes "/" (ws ++ [w]))) with ([] :: split_bytes "/" (join_bytes "/" (ws ++ [w]))).
  rewrite plain_split by (done || by destruct ws). simpl.
  assert (E : List.filter (λ x, negb (bool_decide (x = []))) (ws ++ [w]) = ws ++ [w]).
  { clear -Hf. induction Hf as [|x l (Hx & _) _ IH]; [done|]. simpl. rewrite bool_decide_eq_false_2 by done. simpl. by rewrite IH. }
  rewrite E, rev_app_distr. done.
Qed.

Lemma length_path_of ws : String.length (path_of ws) = S (length (join_bytes "/" ws)).
Proof. unfold path_of. by rewrite <- length_bytes, bytes_of_bytes. Qed.

(** What is below a longer path is not a shorter one. *)
Lemma below_longer p q : (String.length q < String.length p)%nat → below p q = false.
Proof.
  intros H. unfold below. apply orb_false_iff. split.
  - apply String.eqb_neq. intros ->. lia.
  - destruct (HasPrefix q (p +:+ "/")) eqn:E; [|done]. apply HasPrefix_bytes in E as [l E].
    apply (f_equal (@length _)) in E. rewrite length_app, bytes_app, length_app, !length_bytes in E. lia.
Qed.

(** ** What writing and cleaning keep *)

Section kept.
Context (K : kernel) (config : CgroupConfig).

Lemma write_dirs p t s : dirs (write K p t s).2 = dirs s.
Proof. unfold write. by case_match. Qed.
Lemma write_cleanups p t s : cleanups (write K p t s).2 = cleanups s.
Proof. unfold write. by case_match. Qed.

(** Limits only write: the directories and the pending clean-ups stay. *)
Definition only_writes (f : sys → sys) : Prop := ∀ s, dirs (f s) = dirs s ∧ cleanups (f s) = cleanups s.

Lemma write_only p t : only_writes (λ s, (write K p t s).2).
Proof. intros s. by rewrite write_dirs, write_cleanups. Qed.

Lemma only_writes_comp f g : only_writes f → only_writes g → only_writes (λ s, g (f s)).
Proof. intros Hf Hg s. destruct (Hf s) as [<- <-]. apply Hg. Qed.

Lemma try_formats_only p fs : only_writes (λ s, (try_formats K p fs s).2).
Proof.
  induction fs as [|f fs IH]; intros s; [done|]. simpl. unfold write. destruct (k_write K p f); [done|apply IH].
Qed.

Ltac only_writes := intros s; unfold write; repeat case_match; simplify_eq/=; done.

Lemma SetCPULimit_only p n : only_writes (λ s, (SetCPULimit K p n s).2).
Proof. unfold SetCPULimit. only_writes. Qed.
Lemma SetMemoryLimit_only p n : only_writes (λ s, (SetMemoryLimit K p n s).2).
Proof.
  intros s. unfold SetMemoryLimit, write. destruct (k_write K (Join_path [p; "memory.max"%string]) _), (k_write K (Join_path [p; "memory.high"%string]) _);
    by repeat (destruct (exists_ _ _ _); simpl).
Qed.
Lemma SetIOLimit_only p n : only_writes (λ s, (SetIOLimit K p n s).2).
Proof. intros s. unfold SetIOLimit. case_match; [done|apply try_formats_only]. Qed.
Lemma SetCPUCores_only p c : only_writes (λ s, (SetCPUCores K p c s).2).
Proof. unfold SetCPUCores. only_writes. Qed.
Lemma enableSubtreeControl_only p : only_writes (λ s, (enableSubtreeControl K config p s).2).
Proof. unfold enableSubtreeControl. only_writes. Qed.

Lemma enforce_only n set_ : only_writes (λ s, (set_ n s).2) → only_writes (λ s, (enforce n set_ s).2).
Proof. intros H s. unfold enforce. destruct (0 <? n); [|done]. specialize (H s). simpl in H. by destruct (set_ n s). Qed.

Lemma fold_writes {A} (f : A → string) p l : only_writes (λ s, foldl (λ s x, (write K p (f x) s).2) s l).
Proof. induction l as [|x l IH]; intros s; [done|]. simpl. destruct (write_only p (f x) s) as [<- <-]. apply IH. Qed.

Lemma SetGPUDevices_only p l : only_writes (λ s, (SetGPUDevices K config p l s).2).
Proof.
  intros s. unfold SetGPUDevices. destruct (_ =? 1); [|done]. unfold setGPUDevicesV1.
  destruct (missing K _ s); [done|]. apply (fold_writes id).
Qed.

Lemma applyCPUCoreRestrictions_only j : only_writes (λ s, (applyCPUCoreRestrictions K j s).2).
Proof.
  intros s. unfold applyCPUCoreRestrictions.
  pose proof (SetCPUCores_only (CgroupPath j) (core_spec (CPUCores (Limits j))) s) as H. simpl in H.
  destruct (SetCPUCores _ _ _ _) as [[] s1]; simpl in H; destruct H as [<- <-]; [|done].
  exact (SetCPUCores_only (Join_path [CgroupPath j; "proc"%string]) (core_spec (CPUCores (Limits j))) s1).
Qed.

(** The directories that controllers are enabled in, and nothing that was there goes. *)
Lemma mkdirAll_grows p s : dirs s ⊆ dirs (mkdirAll K p s).2 ∧ cleanups (mkdirAll K p s).2 = cleanups s.
Proof. unfold mkdirAll. case_match; simpl; [set_solver|done]. Qed.

Lemma EnsureControllers_grows s : dirs s ⊆ dirs (EnsureControllers K config s) ∧ cleanups (EnsureControllers K config s) = cleanups s.
Proof.
  unfold EnsureControllers, moveJobletProcessToSubgroup, enableControllersFromConfig, mkdirAll, write.
  repeat case_match; simplify_eq/=; set_solver.
Qed.

(** What creating a control group comes to. *)
Lemma Create_cases dir cpu mem io s r s' : Create K config dir cpu mem io s = (r, s') →
  (dirs s ⊆ dirs s') ∧
  match r with
  | Ok _ => {[dir; Join_path [dir; "proc"%string]]} ⊆ dirs s' ∧ cleanups s' = cleanups s
  | Err (ENotEnforced _ _ _) => {[dir; Join_path [dir; "proc"%string]]} ⊆ dirs s' ∧ cleanups s' = cleanups s ++ [Base dir]
  | Err _ => cleanups s' = cleanups s
  end.
Proof.
  unfold Create. destruct (HasPrefix dir (BaseDir config)); simpl; [|by intros [= <- <-]].
  destruct (EnsureControllers_grows s) as [Hd Hc]. set (s0 := EnsureControllers K config s) in *.
  unfold mkdirAll at 1. destruct (k_mkdir K dir); simpl; [|by intros [= <- <-]].
  unfold mkdirAll at 1. destruct (k_mkdir K (Join_path _)); simpl; [|intros [= <- <-]; simpl; set_solver].
  match goal with |- context [enableSubtreeControl K config dir ?x] => set (s1 := x) end.
  assert (H1 : {[dir; Join_path [dir; "proc"%string]]} ∪ dirs s ⊆ dirs s1 ∧ cleanups s1 = cleanups s) by (subst s1; simpl; set_solver).
  destruct H1 as [H1 H1c]. clearbody s1. destruct (enableSubtreeControl_only dir s1) as [H2 H2c].
  set (s2 := (enableSubtreeControl K config dir s1).2) in *. clearbody s2.
  destruct (enforce_only cpu _ (SetCPULimit_only dir cpu) s2) as [H3 H3c]. destruct (enforce cpu _ s2) as [b1 s3]. simpl in H3, H3c.
  destruct (enforce_only mem _ (SetMemoryLimit_only dir mem) s3) as [H4 H4c]. destruct (enforce mem _ s3) as [b2 s4]. simpl in H4, H4c.
  destruct (enforce_only io _ (SetIOLimit_only dir io) s4) as [H5 H5c]. destruct (enforce io _ s4) as [b3 s5]. simpl in H5, H5c.
  destruct (b1 || b2 || b3); intros [= <- <-]; simpl; rewrite ?H5, ?H4, ?H3, ?H2, ?H5c, ?H4c, ?H3c, ?H2c, ?H1c; set_solver.
Qed.
End kept.

(** ** Setting up, failing and cleaning up *)

Section job_group.
Context (K : kernel) (config : CgroupConfig) (wb : list (list ascii)).
Hypothesis base_clean : BaseDir config = path_of wb.
Hypothesis base_plain : Forall plain wb.
Hypothesis base_deep : wb ≠ [].

(** Names in a directory have no slash and are not dots. *)
Hypothesis names : ∀ p f, f ∈ k_readdir K p → plain (bytes f.1).

Definition group (id : string) : string := Join_path [BaseDir config; ("job-" +:+ id)%string].

Lemma job_plain id : "/"%char ∉ bytes id → plain (bytes ("job-" +:+ id)).
Proof.
  intros H. rewrite bytes_app. split_and!; [done|by intros [=]|by intros [=]|].
  rewrite elem_of_app. intros [Hin|?]; [|done]. apply list_elem_of_In in Hin as [E|[E|[E|[E|[]]]]]; discriminate E.
Qed.

Lemma group_path id : "/"%char ∉ bytes id → group id = path_of (wb ++ [bytes ("job-" +:+ id)]).
Proof.
  intros H. unfold group. rewrite base_clean. rewrite <- (of_bytes_bytes ("job-" +:+ id)) at 1.
  apply Join_plain; [done|done|by apply job_plain].
Qed.

Lemma group_plain id : "/"%char ∉ bytes id → Forall plain (wb ++ [bytes ("job-" +:+ id)]).
Proof. intros H. apply Forall_app. split; [done|]. by apply Forall_singleton, job_plain. Qed.

Lemma group_guarded id : "/"%char ∉ bytes id → HasPrefix (group id) (BaseDir config +:+ "/job-") = true.
Proof.
  intros H. apply HasPrefix_bytes. exists (bytes id). rewrite group_path, base_clean by done. unfold path_of.
  rewrite bytes_app, !bytes_of_bytes, join_bytes_snoc, bytes_app by done. simpl. by rewrite <- app_assoc, bytes_of_bytes.
Qed.

Lemma kill_all_dirs pids : ∀ s, dirs (kill_all K pids s).2 = dirs s ∧ cleanups (kill_all K pids s).2 = cleanups s.
Proof.
  induction pids as [|p pids IH]; intros s; [done|]. simpl. destruct (String.eqb p ""); [apply IH|].
  destruct (Atoi p); [|apply IH]. destruct (k_find K z); [|apply IH].
  destruct (k_signal K z SIGTERM), (k_signal K z SIGKILL); simpl; try apply IH; try done;
    match goal with |- context [kill_all K pids ?s1] => apply (IH s1) end.
Qed.

(** A clean-up leaves alone whatever has a shorter path than its group. *)
Lemma cleanup_keeps id q s : "/"%char ∉ bytes id → (String.length q < String.length (group id))%nat →
  q ∈ dirs s → q ∈ dirs (cleanupJobCgroup K config id s).
Proof.
  intros Hid Hlen Hq. unfold cleanupJobCgroup. fold (group id). destruct (negb _); [done|]. destruct (missing _ _ _); [done|].
  assert (Hk : ∀ b s1, dirs s1 = dirs s → q ∈ dirs (if b : bool then cgroupPathRemoveAll K (group id) s1 else s1)).
  { intros [] s1 E; [|by rewrite E]. unfold cgroupPathRemoveAll, removeAll. destruct (k_removeAll K _); simpl.
    - apply elem_of_filter. rewrite E. split; [by apply below_longer|done].
    - assert (Hr : ∀ p s2, q ≠ p → q ∈ dirs s2 → q ∈ dirs (remove K p s2).2).
      { intros p s2 Hn H2. unfold remove. case_match; simpl; [set_solver|done]. }
      apply Hr; [intros ->; lia|].
      set (fs := List.filter _ _). assert (Hfs : ∀ f, f ∈ fs → plain (bytes f.1)).
      { intros f Hf. apply (names (group id)). apply list_elem_of_In. subst fs.
        apply list_elem_of_In, filter_In in Hf as [Hf _]. done. }
      assert (Hgen : ∀ s2, q ∈ dirs s2 → q ∈ dirs (foldl (λ s f, (remove K (Join_path [group id; fst f]) s).2) s2 fs)); [|by apply Hgen; rewrite E].
      clear Hr. induction fs as [|f fs IH]; intros s2 H2; [done|]. simpl. apply IH; [by intros; apply Hfs; right|].
      unfold remove. case_match; simpl; [|done]. apply elem_of_difference. split; [done|]. intros Heq%elem_of_singleton.
      rewrite group_path, <- (of_bytes_bytes (fst f)), Join_plain in Heq; [|by apply group_plain|by destruct wb|apply Hfs; by left|done].
      subst q. rewrite group_path, !length_path_of in Hlen by done. rewrite (join_bytes_snoc (wb ++ _)), length_app in Hlen; [lia|by destruct wb]. }
  destruct (k_read K _) as [t|]; [|by apply (Hk true)].
  pose proof (kill_all_dirs (Split t (byte_of 10)) s) as [Hd _]. destruct (kill_all K _ s) as [go s1]. simpl in Hd. by apply Hk.
Qed.

Lemma removeAll_keeps p q s : below p q = false → q ∈ dirs s → q ∈ dirs (removeAll K p s).2.
Proof. unfold removeAll. case_match; simpl; [|done]. intros. by apply elem_of_filter. Qed.
Lemma removeAll_cleanups p s : cleanups (removeAll K p s).2 = cleanups s.
Proof. unfold removeAll. by case_match. Qed.

Lemma group_longer id : "/"%char ∉ bytes id → (String.length (group id) < String.length (group ("job-" +:+ id)))%nat.
Proof.
  intros H. assert (H2 : "/"%char ∉ bytes ("job-" +:+ id)) by (by apply job_plain).
  rewrite !group_path, !length_path_of, !join_bytes_snoc, !length_app by done. simpl. lia.
Qed.

(** What the failures after the creation of the group leave to clean up. *)
Definition no_refusal : Prop := (∀ p, k_removeAll K p = true) ∧ ∀ pid sig, k_signal K pid sig = true.

Lemma kill_all_goes pids : no_refusal → ∀ s, (kill_all K pids s).1 = true.
Proof.
  intros [_ Hs]. induction pids as [|p pids IH]; intros s; [done|]. simpl. destruct (String.eqb p ""); [apply IH|].
  destruct (Atoi p); [|apply IH]. destruct (k_find K z); [|apply IH]. rewrite !Hs. apply IH.
Qed.

Lemma cleanup_removes id s : "/"%char ∉ bytes id → no_refusal → group id ∈ dirs s →
  ∀ q, below (group id) q = true → q ∉ dirs (cleanupJobCgroup K config id s).
Proof.
  intros Hid Hr Hg q Hq. unfold cleanupJobCgroup. fold (group id). rewrite group_guarded by done. simpl.
  unfold missing, stat_of. rewrite decide_True by done.
  assert (Hk : ∀ s1, q ∉ dirs (cgroupPathRemoveAll K (group id) s1)).
  { intros s1. unfold cgroupPathRemoveAll, removeAll. rewrite (proj1 Hr). simpl. rewrite elem_of_filter, Hq. by intros [? _]. }
  destruct (k_read K _) as [t|]; [|apply Hk]. pose proof (kill_all_goes (Split t (byte_of 10)) Hr s) as Hgo.
  destruct (kill_all K _ s) as [go s1]. simpl in Hgo. subst go. apply Hk.
Qed.

(** C35 When a job's resources cannot be set up, what is left of its control group depends
    on the failure: if the kernel refuses a limit, the clean-up that Create orders looks for
    a group with another name, and once the clean-ups that are pending have run the group of
    the job is still there (only a later deletion of the job, if the store has it, orders
    the right one); if the cores or the GPUs fail, the group and all below it are gone once
    the clean-up has run, provided that the kernel lets the processes be killed and the
    group be removed. *)
Theorem failed_setup fsBase j s e s' :
  "/"%char ∉ bytes (Uuid j) → CgroupPath j = group (Uuid j) → below (Join_path [fsBase; Uuid j]) (group (Uuid j)) = false →
  cleanups s = [] → SetupJobResources K config fsBase j s = (Err e, s') →
  match e with
  | ECgroup (ENotEnforced _ _ _) => group (Uuid j) ∈ dirs (run_cleanups K config s')
  | ECores _ | EGPU _ => no_refusal → ∀ q, below (group (Uuid j)) q = true → q ∉ dirs (run_cleanups K config s')
  | _ => True
  end.
Proof.
  intros Hid Hp Hw Hc H. unfold SetupJobResources in H. unfold createWorkspace in H.
  destruct (mkdirAll_grows K (Join_path [fsBase; Uuid j]) s) as [_ Hc0]. destruct (mkdirAll K _ s) as [[] s0]; simplify_eq/=; [|done].
  unfold createCgroup in H. destruct (Create K config _ _ _ _ s0) as [r s1] eqn:Hcr.
  apply Create_cases in Hcr as [_ Hcr]. rewrite Hp in Hcr. destruct r as [u|ce].
  - destruct Hcr as [Hd Hc1]. assert (Hg : group (Uuid j) ∈ dirs s1) by set_solver.
    assert (Hlast : ∀ s2, dirs s2 = dirs s1 → cleanups s2 = [] → no_refusal → ∀ q, below (group (Uuid j)) q = true →
      q ∉ dirs (run_cleanups K config (cleanupAll K fsBase (Uuid j) s2))).
    { intros s2 Hd2 Hc2 Hr q Hq. unfold cleanupAll, cleanupWorkspace, run_cleanups. rewrite removeAll_cleanups. simpl.
      rewrite Hc2. simpl. apply cleanup_removes; [done..| |done]. apply removeAll_keeps; [done|]. simpl. by rewrite Hd2. }
    destruct (cores_IsEmpty _); simpl in H.
    + destruct (negb (IsGPUAllocated j)); [done|]. unfold setupGPUDevicePermissions in H.
      destruct (SetGPUDevices_only K config (CgroupPath j) (GPUIndices j) s1) as [H1 H2].
      destruct (SetGPUDevices K config _ _ s1) as [[] s2]; simplify_eq/=. apply Hlast; congruence.
    + destruct (applyCPUCoreRestrictions_only K j s1) as [H1 H2].
      destruct (applyCPUCoreRestrictions K j s1) as [[] s2]; simplify_eq/=; [|apply Hlast; congruence].
      destruct (negb (IsGPUAllocated j)); [done|]. unfold setupGPUDevicePermissions in H.
      destruct (SetGPUDevices_only K config (CgroupPath j) (GPUIndices j) s2) as [H3 H4].
      destruct (SetGPUDevices K config _ _ s2) as [[] s3]; simplify_eq/=. apply Hlast; congruence.
  - simplify_eq/=. destruct ce; try done. destruct Hcr as [Hd Hc1].
    rewrite group_path in Hc1 by done. rewrite Base_plain in Hc1; [|done|by apply job_plain]. rewrite of_bytes_bytes in Hc1.
    unfold cleanupWorkspace, run_cleanups. rewrite removeAll_cleanups, Hc1, Hc0, Hc. simpl.
    apply cleanup_keeps; [by apply job_plain|by apply group_longer|]. simpl. apply removeAll_keeps; [done|set_solver].
Qed.

(** The clean-up stops at the first process that the second signal does not reach,
    such as one that has obeyed the first: the processes after it are not signalled and
    the group is not removed. *)
Theorem obedient_process_blocks_cleanup id pid rest s :
  "/"%char ∉ bytes id → group id ∈ dirs s →
  k_read K (Join_path [group id; "cgroup.procs"%string]) = Some (Join (Itoa pid :: rest) (byte_of 10)) →
  in_int64 pid → 0 < pid → k_find K pid = true → k_signal K pid SIGTERM = true → k_signal K pid SIGKILL = false →
  cleanupJobCgroup K config id s = record (ESignal pid SIGTERM) s.
Proof.
  intros Hid Hg Hr Hin Hpos Hf Ht Hk. unfold cleanupJobCgroup. fold (group id). rewrite group_guarded by done. simpl.
  unfold missing, stat_of. rewrite decide_True by done. rewrite Hr.
  assert (E : ∃ l, Split (Join (Itoa pid :: rest) (byte_of 10)) (byte_of 10) = Itoa pid :: l).
  { assert (Hn : byte_of 10 ∉ bytes (Itoa pid)).
    { rewrite Itoa_nonneg, bytes_of_bytes by lia. apply not_digit_not_in; [apply digits_of_digits; lia|done]. }
    unfold Split, Join. rewrite bytes_of_bytes. destruct rest as [|r rest]; simpl.
    - rewrite split_bytes_word by done. simpl. rewrite of_bytes_bytes. eauto.
    - rewrite split_bytes_app by done. simpl. rewrite of_bytes_bytes. eauto. }
  destruct E as [l ->]. simpl. replace (String.eqb (Itoa pid) "") with false.
  - by rewrite Atoi_Itoa, Hf, Ht, Hk by done.
  - symmetry. apply String.eqb_neq. intros E%(f_equal bytes). rewrite Itoa_nonneg, bytes_of_bytes in E by lia.
    by apply digits_of_nonempty in E.
Qed.
End job_group.

(** ** The limits that are in force *)

Section limits.
Context (K : kernel) (config : CgroupConfig).

(** What has been done stays done. *)
Definition grows (f : sys → sys) : Prop := ∀ s e, e ∈ done_ s → e ∈ done_ (f s).

Lemma write_grows p t : grows (λ s, (write K p t s).2).
Proof. intros s e H. unfold write. case_match; simpl; [apply elem_of_app; by left|done]. Qed.

Ltac grow := intros ?s ?e ?H; unfold write; repeat case_match; simplify_eq/=; rewrite ?elem_of_app; tauto.

Lemma SetCPULimit_grows p n : grows (λ s, (SetCPULimit K p n s).2).
Proof. unfold SetCPULimit. grow. Qed.
Lemma SetMemoryLimit_grows p n : grows (λ s, (SetMemoryLimit K p n s).2).
Proof.
  intros s e He. unfold SetMemoryLimit, write. destruct (k_write K (Join_path [p; "memory.max"%string]) _), (k_write K (Join_path [p; "memory.high"%string]) _);
    repeat (destruct (exists_ _ _ _); simpl); rewrite ?elem_of_app; tauto.
Qed.
Lemma try_formats_grows p fs : grows (λ s, (try_formats K p fs s).2).
Proof.
  induction fs as [|f fs IH]; intros s e H; [done|]. simpl. unfold write. destruct (k_write K p f); [|by apply IH].
  simpl. apply elem_of_app. by left.
Qed.
Lemma SetIOLimit_grows p n : grows (λ s, (SetIOLimit K p n s).2).
Proof. intros s e H. unfold SetIOLimit. case_match; [done|by apply try_formats_grows]. Qed.
Lemma enforce_grows n set_ : grows (λ s, (set_ n s).2) → grows (λ s, (enforce n set_ s).2).
Proof. intros H s e He. unfold enforce. destruct (0 <? n); [|done]. specialize (H s e He). simpl in H. by destruct (set_ n s). Qed.

Lemma SetCPULimit_ok p n s s' : SetCPULimit K p n s = (Ok tt, s') → 0 < n < 2 ^ 31 →
  EWrite (Join_path [p; "cpu.max"%string]) (Itoa (n * 1000) +:+ " 100000") ∈ done_ s' ∨
  (EWrite (Join_path [p; "cpu.weight"%string]) (Itoa (cpu_weight n)) ∈ done_ s' ∧ k_file K (Join_path [p; "cpu.max"%string]) ≠ SExists).
Proof.
  unfold SetCPULimit, write. intros H Hn.
  assert (E : Z.quot (wrap64 (n * 100000)) 100 = n * 1000).
  { rewrite wrap_id; [|done|unfold in_int, min_int, max_int; simpl; lia]. rewrite Z.quot_div_nonneg by lia.
    replace (n * 100000) with (n * 1000 * 100) by lia. by apply Z.div_mul. }
  rewrite E in H. unfold exists_ in H. destruct (stat_of K (Join_path [p; "cpu.max"%string]) s) eqn:Hs.
  - destruct (k_write K _ _); simplify_eq/=. left. apply elem_of_app. right. by left.
  - destruct (stat_of K (Join_path [p; "cpu.weight"%string]) s); [|done..]. destruct (k_write K _ _); simplify_eq/=. right.
    split; [apply elem_of_app; right; by left|]. unfold stat_of in Hs. case_decide; congruence.
  - destruct (stat_of K (Join_path [p; "cpu.weight"%string]) s); [|done..]. destruct (k_write K _ _); simplify_eq/=. right.
    split; [apply elem_of_app; right; by left|]. unfold stat_of in Hs. case_decide; congruence.
Qed.

Definition soft_limit (bytes_ : Z) : Z := truncate (mul64 (float_of_Z bytes_) (decimal 9 1)).

Lemma SetMemoryLimit_ok p n s s' : SetMemoryLimit K p n s = (Ok tt, s') → 0 < n < 2 ^ 31 →
  EWrite (Join_path [p; "memory.max"%string]) (Itoa (n * 1048576)) ∈ done_ s' ∨
  (EWrite (Join_path [p; "memory.high"%string]) (Itoa (soft_limit (n * 1048576))) ∈ done_ s' ∧
   (k_file K (Join_path [p; "memory.max"%string]) ≠ SExists ∨
    k_write K (Join_path [p; "memory.max"%string]) (Itoa (n * 1048576)) = false)).
Proof.
  unfold SetMemoryLimit, write. intros H Hn.
  assert (E : wrap64 (wrap64 (n * 1024) * 1024) = n * 1048576).
  { rewrite (wrap_id 64 (n * 1024)); [|done|unfold in_int, min_int, max_int; simpl; lia].
    rewrite wrap_id; [lia|done|unfold in_int, min_int, max_int; simpl; lia]. }
  rewrite E in H. fold (soft_limit (n * 1048576)) in H.
  destruct (exists_ K (Join_path [p; "memory.max"%string]) s) eqn:Hm.
  - destruct (k_write K (Join_path [p; "memory.max"%string]) _) eqn:Hw; simpl in H.
    + left. destruct (exists_ _ _ _) in H; [destruct (k_write K _ _) in H|]; simplify_eq/=; set_solver.
    + destruct (exists_ _ _ _) in H; [|done]. destruct (k_write K (Join_path [p; "memory.high"%string]) _) in H; simplify_eq/=.
      right. split; [apply elem_of_app; right; by left|by right].
  - simpl in H. destruct (exists_ _ _ _) in H; [|done]. destruct (k_write K _ _) in H; simplify_eq/=. right.
    split; [apply elem_of_app; right; by left|]. left. unfold exists_, stat_of in Hm. case_decide; [done|]. by intros E1; rewrite E1 in Hm.
Qed.

Lemma try_formats_ok p fs s s' : try_formats K p fs s = (Ok tt, s') →
  ∃ l f r, fs = l ++ f :: r ∧ EWrite p f ∈ done_ s' ∧ Forall (λ g, k_write K p g = false) l.
Proof.
  revert s. induction fs as [|f fs IH]; intros s H; [done|]. simpl in H. unfold write in H. destruct (k_write K p f) eqn:E; simplify_eq/=.
  - exists [], f, fs. split; [done|]. split; [apply elem_of_app; right; by left|done].
  - destruct (IH _ H) as (l & f' & r & -> & H1 & H2). exists (f :: l), f', r. split; [done|]. split; [done|by constructor].
Qed.

(** C40 When a control group has been created, each limit that was asked for has been
    accepted by the kernel in some form: the processor limit as the quota of 1000
    microseconds per percent, or as a weight if the kernel has no quota; the memory
    limit as the hard limit, or, when the kernel refuses that, only as the soft one;
    the bandwidth limit as the first accepted of four texts, which is for reading only
    if the kernel accepts it. *)
Theorem enforced_limits dir cpu mem io s s' :
  Create K config dir cpu mem io s = (Ok tt, s') → cpu < 2 ^ 31 → mem < 2 ^ 31 →
  (0 < cpu → EWrite (Join_path [dir; "cpu.max"%string]) (Itoa (cpu * 1000) +:+ " 100000") ∈ done_ s' ∨
     (EWrite (Join_path [dir; "cpu.weight"%string]) (Itoa (cpu_weight cpu)) ∈ done_ s' ∧
      k_file K (Join_path [dir; "cpu.max"%string]) ≠ SExists)) ∧
  (0 < mem → EWrite (Join_path [dir; "memory.max"%string]) (Itoa (mem * 1048576)) ∈ done_ s' ∨
     (EWrite (Join_path [dir; "memory.high"%string]) (Itoa (soft_limit (mem * 1048576))) ∈ done_ s' ∧
      (k_file K (Join_path [dir; "memory.max"%string]) ≠ SExists ∨
       k_write K (Join_path [dir; "memory.max"%string]) (Itoa (mem * 1048576)) = false))) ∧
  (0 < io → ∃ l f r, io_formats io = l ++ f :: r ∧ EWrite (Join_path [dir; "io.max"%string]) f ∈ done_ s' ∧
     Forall (λ g, k_write K (Join_path [dir; "io.max"%string]) g = false) l).
Proof.
  unfold Create. intros H Hcpu Hmem. destruct (negb (HasPrefix _ _)); [done|].
  destruct (mkdirAll K dir _) as [[] s1]; simplify_eq/=. destruct (mkdirAll K _ s1) as [[] s2]; simplify_eq/=.
  set (s3 := (enableSubtreeControl K config dir s2).2) in H. clearbody s3.
  destruct (enforce cpu (SetCPULimit K dir) s3) as [b1 s4] eqn:E1. destruct (enforce mem (SetMemoryLimit K dir) s4) as [b2 s5] eqn:E2.
  destruct (enforce io (SetIOLimit K dir) s5) as [b3 s6] eqn:E3. destruct b1, b2, b3; simplify_eq/=.
  assert (G2 : ∀ e, e ∈ done_ s4 → e ∈ done_ s5).
  { intros e He. pose proof (enforce_grows mem _ (SetMemoryLimit_grows dir mem) s4 e He) as Hg. simpl in Hg. by rewrite E2 in Hg. }
  assert (G3 : ∀ e, e ∈ done_ s5 → e ∈ done_ s').
  { intros e He. pose proof (enforce_grows io _ (SetIOLimit_grows dir io) s5 e He) as Hg. simpl in Hg. by rewrite E3 in Hg. }
  unfold enforce in *. split_and!.
  - intros Hp. rewrite (proj2 (Z.ltb_lt _ _)) in E1 by done. destruct (SetCPULimit K dir cpu s3) as [[[]|] sx] eqn:E; simplify_eq/=.
    apply SetCPULimit_ok in E; [|done]. destruct E as [?|[? ?]]; [left|right]; auto.
  - intros Hp. rewrite (proj2 (Z.ltb_lt _ _)) in E2 by done. destruct (SetMemoryLimit K dir mem s4) as [[[]|] sx] eqn:E; simplify_eq/=.
    apply SetMemoryLimit_ok in E; [|done]. destruct E as [?|[? ?]]; [left|right]; auto.
  - intros Hp. rewrite (proj2 (Z.ltb_lt _ _)) in E3 by done. destruct (SetIOLimit K dir io s5) as [[[]|] sx] eqn:E; simplify_eq/=.
    unfold SetIOLimit in E. case_match; [done|]. by apply try_formats_ok in E.
Qed.
End limits.

(** ** Concrete groups *)

Definition base_cg : CgroupConfig := {| BaseDir := "/sys/fs/cgroup/joblet"; EnableControllers := ["cpu"; "memory"; "io"]%string |}.
Definition fresh_sys : sys := {| dirs := ∅; done_ := []; initialized := false; cleanups := [] |}.

(** A kernel that has every file and accepts every write but those of [refused]. *)
Definition kernel_with (refused : list string) (procs : option string) (kill : bool) : kernel := {|
  k_file := λ _, SExists; k_write := λ p _, negb (existsb (String.eqb p) refused); k_read := λ _, procs;
  k_mkdir := λ _, true; k_removeAll := λ _, true; k_remove := λ _, true; k_readdir := λ _, []; k_find := λ _, true;
  k_signal := λ _ sig, kill || bool_decide (sig = SIGTERM); k_self := 1 |}.

Definition group1 : string := "/sys/fs/cgroup/joblet/job-u1".

Lemma enforced_limits_witness : ∃ s',
  Create (kernel_with [] None true) base_cg group1 50 256 1000000 fresh_sys = (Ok tt, s') ∧
  EWrite "/sys/fs/cgroup/joblet/job-u1/cpu.max" "50000 100000" ∈ done_ s' ∧
  EWrite "/sys/fs/cgroup/joblet/job-u1/memory.max" "268435456" ∈ done_ s'.
Proof.
  eexists. split; [vm_compute; reflexivity|].
  match goal with |- _ ∈ done_ ?x ∧ _ => set (s' := x) end.
  destruct (enforced_limits (kernel_with [] None true) base_cg group1 50 256 1000000 fresh_sys s') as (H1 & H2 & _);
    [vm_compute; reflexivity|lia|lia|].
  split.
  - destruct H1 as [H|[_ H]]; [lia|exact H|exfalso; by apply H].
  - destruct H2 as [H|[_ [H|H]]]; [lia|exact H|exfalso; by apply H|by vm_compute in H].
Defined.

(** All requested limits are reported as applied although the hard memory limit is
    refused, and the bandwidth of writing is not limited. *)
Example soft_only : ∃ s',
  Create (kernel_with [(group1 +:+ "/memory.max")%string] None true) base_cg group1 0 256 1000000 fresh_sys = (Ok tt, s') ∧
  EWrite (group1 +:+ "/memory.high") "241591910" ∈ done_ s' ∧
  EWrite (group1 +:+ "/io.max") "8:0 rbps=1000000" ∈ done_ s' ∧
  EWrite (group1 +:+ "/io.max") "8:0 wbps=1000000" ∉ done_ s'.
Proof.
  eexists. split; [vm_compute; reflexivity|]. split; [vm_compute; set_solver|]. split; [vm_compute; set_solver|].
  refine (bool_decide_unpack _ _). vm_compute. exact I.
Qed.

(** The guard compares texts, so a sibling of the delegated tree, or a path that leaves
    it, passes. *)
Example guard_by_prefix :
  is_ok (Create (kernel_with [] None true) base_cg "/sys/fs/cgroup/joblet-other/job-u1" 0 0 0 fresh_sys).1 = true ∧
  is_ok (Create (kernel_with [] None true) base_cg "/sys/fs/cgroup/joblet/../../../etc" 0 0 0 fresh_sys).1 = true.
Proof. by vm_compute. Qed.

Definition job1 : Job := {|
  Uuid := "u1"; Command := "make"; Args := []; Type_ := JobTypeStandard;
  Limits := {| CPU := {| cpu_value := 50 |}; CPUCores := {| core_list := [0]; core_spec := "0" |};
    Memory := {| mem_bytes := 268435456 |}; IOBandwidth := {| bw_bytes := 0 |} |};
  CgroupPath := group1; Status := StatusInitializing; Pid := 0; StartTime := 0; EndTime := None; ScheduledTime := None;
  ExitCode := 0; Network := ""; Volumes := []; Runtime := ""; WorkingDirectory := ""; Uploads := []; Environment_ := ∅;
  SecretEnvironment := ∅; GPUIndices := []; GPUMIGUUIDs := []; GPUCount := 0; GPUMemoryMB := 0; NodeId := ""; Timeout := 0;
  cache := empty_cache |}.

Definition base_words : list (list ascii) := [bytes "sys"; bytes "fs"; bytes "cgroup"; bytes "joblet"].

Lemma base_words_plain : Forall plain base_words.
Proof.
  apply Forall_forall. intros w Hw. unfold base_words in Hw. rewrite !elem_of_cons, elem_of_nil in Hw.
  destruct_or! Hw; subst; try done; refine (bool_decide_unpack _ _); vm_compute; exact I.
Qed.

(** The processor limit is refused: the job's group stays.  The cores are refused: it
    goes. *)
Lemma failed_setup_witness :
  (∃ b1 b2 b3 s', SetupJobResources (kernel_with [(group1 +:+ "/cpu.max")%string] None true) base_cg "/opt/jobs" job1 fresh_sys =
     (Err (ECgroup (ENotEnforced b1 b2 b3)), s') ∧
     group1 ∈ dirs (run_cleanups (kernel_with [(group1 +:+ "/cpu.max")%string] None true) base_cg s')) ∧
  (∃ e s', SetupJobResources (kernel_with [(group1 +:+ "/cpuset.cpus")%string] None true) base_cg "/opt/jobs" job1 fresh_sys =
     (Err (ECores e), s') ∧
     group1 ∉ dirs (run_cleanups (kernel_with [(group1 +:+ "/cpuset.cpus")%string] None true) base_cg s')).
Proof.
  assert (Hb : BaseDir base_cg = path_of base_words) by (vm_compute; reflexivity).
  assert (Hs : "/"%char ∉ bytes (Uuid job1)) by (refine (bool_decide_unpack _ _); vm_compute; exact I).
  assert (Hg : CgroupPath job1 = group base_cg (Uuid job1)) by (vm_compute; reflexivity).
  assert (Hw : below (Join_path ["/opt/jobs"%string; Uuid job1]) (group base_cg (Uuid job1)) = false) by (vm_compute; reflexivity).
  split.
  - eexists true, false, false, _. split; [vm_compute; reflexivity|].
    match goal with |- _ ∈ dirs (run_cleanups _ _ ?x) => set (s' := x) end.
    apply (failed_setup (kernel_with [(group1 +:+ "/cpu.max")%string] None true) base_cg base_words Hb base_words_plain ltac:(done)
      ltac:(intros p f Hf; by apply elem_of_nil in Hf) "/opt/jobs" job1 fresh_sys (ECgroup (ENotEnforced true false false)) s' Hs Hg Hw eq_refl).
    vm_compute. reflexivity.
  - eexists _, _. split; [vm_compute; reflexivity|].
    match goal with |- _ ∉ dirs (run_cleanups _ _ ?x) => set (s' := x) end.
    apply (failed_setup (kernel_with [(group1 +:+ "/cpuset.cpus")%string] None true) base_cg base_words Hb base_words_plain ltac:(done)
      ltac:(intros p f Hf; by apply elem_of_nil in Hf) "/opt/jobs" job1 fresh_sys (ECores (ENotWritten (group1 +:+ "/cpuset.cpus"))) s' Hs Hg Hw eq_refl).
    + vm_compute. reflexivity.
    + split; [done|]. intros pid sig. by destruct sig.
    + vm_compute. reflexivity.
Defined.

Lemma obedient_process_blocks_cleanup_witness :
  let s := {| dirs := {[group1]}; done_ := []; initialized := true; cleanups := [] |} in
  cleanupJobCgroup (kernel_with [] (Some (Join ["41"%string; "42"%string] (byte_of 10))) false) base_cg "u1" s = record (ESignal 41 SIGTERM) s.
Proof.
  intros s.
  apply (obedient_process_blocks_cleanup (kernel_with [] (Some (Join ["41"%string; "42"%string] (byte_of 10))) false) base_cg base_words
    ltac:(vm_compute; reflexivity) base_words_plain ltac:(done) "u1" 41 ["42"%string] s).
  - refine (bool_decide_unpack _ _); vm_compute; exact I.
  - replace (group base_cg "u1") with group1 by (vm_compute; reflexivity). vm_compute. reflexivity.
  - vm_compute. reflexivity.
  - unfold in_int, min_int, max_int. simpl. lia.
  - lia.
  - reflexivity.
  - reflexivity.
  - reflexivity.
Defined.
