(* ===== verification/Process.v ===== *)
(** * Processes of jobs (internal/joblet/core/process/manager.go)

    Launching a process, which a goroutine of its own does while the caller waits with a
    time-out, as interleaved steps; terminating one, first gently, with the kernel's
    answers an arbitrary function of the signals sent so far; resolving commands and
    checking what is launched. *)

From Stdlib Require Import Ascii String.
From S2P Require Import Prelude GoStrings Paths.

Local Open Scope Z_scope.

(** ** Launching *)

(** What a launch is asked to start, and what it found.
    [src/internal/joblet/core/process/manager.go:52-63 LaunchConfig] *)
Record LaunchConfig := { InitPath : string; Environment : option (list string); JobUUID : string }.

Inductive launch_error :=
| LNil | LInit (why : string) | LJob | LEnv (i : nat) (nul : bool)
| LStart | LNoProcess | LPanic | LCancelled | LTimeout.

(** What [Stat] says of the init binary.
    [src/internal/joblet/core/process/manager.go:713-729 Manager.validateInitPath] *)
Inductive file_info := FMissing | FFailed | FFile (regular executable : bool).

Section launch.
Context (Stat : string → file_info).

(** [src/internal/joblet/core/process/manager.go Manager.validateInitPath] *)
Definition validateInitPath (initPath : string) : result launch_error unit :=
  if negb (IsAbs initPath) then Err (LInit "init path must be absolute")
  else match Stat initPath with
  | FMissing => Err (LInit "init binary does not exist")
  | FFailed => Err (LInit "failed to stat init binary")
  | FFile regular executable =>
      if negb regular then Err (LInit "init path is not a regular file")
      else if negb executable then Err (LInit "init binary is not executable")
      else Ok tt
  end.

Definition nul : ascii := byte_of 0.

(** [src/internal/joblet/core/process/manager.go Manager.validateEnvironment] *)
Fixpoint validateEnvironment (i : nat) (env : list string) : result launch_error unit :=
  match env with
  | [] => Ok tt
  | v :: env =>
      if contains_byte v nul then Err (LEnv i true)
      else if negb (contains_byte v "=") then Err (LEnv i false)
      else validateEnvironment (S i) env
  end.

(** [src/internal/joblet/core/process/manager.go Manager.validateLaunchConfig] *)
Definition validateLaunchConfig (c : LaunchConfig) : result launch_error unit :=
  if String.eqb (InitPath c) "" then Err (LInit "init path cannot be empty")
  else if String.eqb (JobUUID c) "" then Err LJob
  else
    _ ← validateInitPath (InitPath c);
    match Environment c with Some env => validateEnvironment 0 env | None => Ok tt end.

(** The goroutine that starts the process, and the caller, who takes the first of the
    result, the end of its context and ten seconds.  [pid]: a process that runs. *)
Inductive launcher := GStarting | GSending (r : result launch_error Z) | GDone.
Inductive caller := CWaiting | CReturned (r : result launch_error Z).

Record launching := { goroutine : launcher; buffer : option (result launch_error Z); waiting : caller; pid : option Z }.

(** [src/internal/joblet/core/process/manager.go:79-93 Manager.LaunchProcess] *)
Definition LaunchProcess (c : option LaunchConfig) : launching :=
  match c with
  | None => {| goroutine := GDone; buffer := None; waiting := CReturned (Err LNil); pid := None |}
  | Some c =>
      match validateLaunchConfig c with
      | Err e => {| goroutine := GDone; buffer := None; waiting := CReturned (Err e); pid := None |}
      | Ok _ => {| goroutine := GStarting; buffer := None; waiting := CWaiting; pid := None |}
      end
  end.

(** How starting the command ends: a failure, a process, no process, or a panic before
    or after the process runs. *)
Inductive started := StFailed | StProcess (p : Z) | StNoProcess | StPanic (p : option Z).

Inductive lstep := SStart (r : started) | SSend | SReceive | SContextDone | STimer.

(** [src/internal/joblet/core/process/manager.go Manager.launchInGoroutine] *)
Definition launchInGoroutine (r : started) (l : launching) : launching :=
  let send e p := {| goroutine := GSending e; buffer := buffer l; waiting := waiting l; pid := p |} in
  match r with
  | StFailed => send (Err LStart) None
  | StProcess p => send (Ok p) (Some p)
  | StNoProcess => send (Err LNoProcess) None
  | StPanic p => send (Err LPanic) p
  end.

(** [src/internal/joblet/core/process/manager.go:89-107 Manager.LaunchProcess] *)
Definition lrun1 (a : lstep) (l : launching) : option launching :=
  match a, goroutine l, buffer l, waiting l with
  | SStart r, GStarting, _, _ => Some (launchInGoroutine r l)
  | SSend, GSending r, None, w => Some {| goroutine := GDone; buffer := Some r; waiting := w; pid := pid l |}
  | SReceive, g, Some r, CWaiting => Some {| goroutine := g; buffer := None; waiting := CReturned r; pid := pid l |}
  | SContextDone, g, b, CWaiting => Some {| goroutine := g; buffer := b; waiting := CReturned (Err LCancelled); pid := pid l |}
  | STimer, g, b, CWaiting => Some {| goroutine := g; buffer := b; waiting := CReturned (Err LTimeout); pid := pid l |}
  | _, _, _, _ => None
  end.

Fixpoint lrun (acts : list lstep) (l : launching) : option launching :=
  match acts with [] => Some l | a :: acts => l' ← lrun1 a l; lrun acts l' end.

(** What a result says of the process that runs. *)
Definition tells (p : option Z) (r : result launch_error Z) : Prop :=
  match r with Ok n => p = Some n | Err _ => p = None end.

Definition gave_up (r : result launch_error Z) : Prop := r = Err LCancelled ∨ r = Err LTimeout.

(** What is sent is what was started, and what is returned is what was sent, unless the
    caller gave up. *)
Record lok (l : launching) : Prop := {
  ok_goroutine : match goroutine l with
    | GStarting => pid l = None ∧ buffer l = None
    | GSending r => buffer l = None ∧ tells (pid l) r
    | GDone => ∀ r, buffer l = Some r → tells (pid l) r
    end;
  ok_buffer : ∀ r, buffer l = Some r → goroutine l = GDone;
  ok_returned : ∀ r, waiting l = CReturned r → gave_up r ∨ (goroutine l = GDone ∧ tells (pid l) r);
}.

Lemma lok_init c : lok (LaunchProcess c).
Proof.
  unfold LaunchProcess. destruct c as [c|]; [destruct (validateLaunchConfig c) as [|e] eqn:E|]; split; simpl; intros; simplify_eq/=;
    try done; by right.
Qed.

Definition truthful (a : lstep) : Prop := match a with SStart (StPanic (Some _)) => False | _ => True end.

Lemma lok_step a l l' : truthful a → lok l → lrun1 a l = Some l' → lok l'.
Proof.
  intros Ha [H1 H2 H3] H. unfold lrun1 in H. destruct l as [g b w p]. simpl in *.
  destruct a as [r| | | |]; simpl in H.
  - destruct g; simplify_eq. destruct H1 as [-> ->].
    assert (Hw : ∀ r, w = CReturned r → gave_up r) by (intros r0 Hr; by destruct (H3 r0 Hr) as [?|[? _]]).
    destruct r as [|q| |[]]; simpl; try done; (split; simpl; [done|done|]; intros r0 Hr; left; by apply Hw).
  - destruct g as [|r|]; try done. destruct b; simplify_eq. destruct H1 as [_ Ht]. split; simpl; [by intros ? [= <-]|done|].
    intros r0 Hr. destruct (H3 r0 Hr) as [?|[? _]]; [by left|done].
  - destruct b as [r|]; [|by destruct g]. destruct w; [|by destruct g]. pose proof (H2 r eq_refl) as Hg. subst g. simplify_eq.
    split; simpl; [done|done|]. intros r0 [= <-]. right. split; [done|by apply H1].
  - assert (E : w = CWaiting ∧ l' = {| goroutine := g; buffer := b; waiting := CReturned (Err LCancelled); pid := p |})
      by (destruct g, b, w; simplify_eq; by split).
    destruct E as [-> ->]. split; simpl; [done|done|]. intros r0 [= <-]. left. by left.
  - assert (E : w = CWaiting ∧ l' = {| goroutine := g; buffer := b; waiting := CReturned (Err LTimeout); pid := p |})
      by (destruct g, b, w; simplify_eq; by split).
    destruct E as [-> ->]. split; simpl; [done|done|]. intros r0 [= <-]. left. by right.
Qed.

Lemma lok_run acts : ∀ l l', Forall truthful acts → lok l → lrun acts l = Some l' → lok l'.
Proof.
  induction acts as [|a acts IH]; intros l l' Ht Hl H; simpl in H; [by simplify_eq|].
  apply Forall_cons in Ht as [Ha Ht]. destruct (lrun1 a l) as [l1|] eqn:E; simplify_eq/=. eapply IH; [done| |done]. by eapply lok_step.
Qed.

(** A launch that returns a process has started it; one that fails otherwise than by
    giving up has started none (unless the goroutine panics after the start); but a caller
    that gives up, because its context ended or ten seconds passed, cannot know: in every
    such state in which the goroutine has not started the command yet, the command can
    still be started, and the process then runs although the launch has failed. *)
Theorem launch_results c acts l :
  lrun acts (LaunchProcess c) = Some l → Forall truthful acts →
  (∀ p, waiting l = CReturned (Ok p) → pid l = Some p) ∧
  (∀ e, waiting l = CReturned (Err e) → e ≠ LCancelled → e ≠ LTimeout → pid l = None) ∧
  (∀ e, waiting l = CReturned (Err e) → goroutine l = GStarting →
     ∀ p, ∃ l', lrun [SStart (StProcess p); SSend] l = Some l' ∧ waiting l' = CReturned (Err e) ∧ pid l' = Some p).
Proof.
  intros Hr Ht. pose proof (lok_run _ _ _ Ht (lok_init c) Hr) as [H1 H2 H3]. split; [|split].
  - intros p Hp. by destruct (H3 _ Hp) as [[|]|[_ ?]].
  - intros e He Hn1 Hn2. destruct (H3 _ He) as [[|]|[_ ?]]; [congruence..|done].
  - intros e He Hg p. rewrite Hg in H1. destruct H1 as [_ Hb]. destruct l as [g b w q]. simpl in *. subst.
    eexists. split; [reflexivity|]. by split.
Qed.
End launch.

(** ** Terminating *)

(** What [kill] answers. *)
Inductive kerr := KOk | KESRCH | KEPERM | KOther.
#[export] Instance kerr_eq_dec : EqDecision kerr.
Proof. solve_decision. Defined.

(** What is asked of the host: [kill] of a process, or of its group when the number is
    negative, with a signal (0 asks whether it is there), and sleeping. *)
Inductive event := Kill (target sig : Z) | Sleep (d : Z).
#[export] Instance event_eq_dec : EqDecision event.
Proof. solve_decision. Defined.

Definition SIGTERM : Z := 15.
Definition SIGKILL : Z := 9.

(** [src/internal/joblet/core/process/manager.go:30-34 GracefulShutdownTimeout] *)
Definition GracefulShutdownTimeout : Z := 100000000.

(** [src/internal/joblet/core/process/manager.go CleanupRequest] *)
Record CleanupRequest := {
  q_JobUUID : string; q_PID : Z; q_NamespacePath : string; q_ForceKill : bool; q_GracefulTimeout : Z;
}.

Inductive method := MAlreadyDead | MGraceful | MGracefulFailed | MGracefulTimeout | MForced | MForceFailed.

(** [r_failed]: there is an error.
    [src/internal/joblet/core/process/manager.go:255-260 processCleanupResult] *)
Record processCleanupResult := { Killed : bool; Method : method; r_failed : bool }.

(** [src/internal/joblet/core/process/manager.go CleanupResult] *)
Record CleanupResult := { ProcessKilled : bool; NamespaceRemoved : bool; CleanupMethod : option method; Errors : nat }.

Section terminate.
(** The answer to a signal, given all that was asked before; namespaces. *)
Context (answer : list event → Z → Z → kerr) (nsStat : string → option bool) (nsRemove : string → bool).

Definition kill (target sig : Z) (h : list event) : kerr * list event := (answer h target sig, h ++ [Kill target sig]).

(** [src/internal/joblet/core/process/manager.go Manager.isProcessAlive] *)
Definition isProcessAlive (pid : Z) (h : list event) : bool * list event :=
  let '(r, h) := kill pid 0 h in
  (match r with KOk | KEPERM => true | KESRCH | KOther => false end, h).

(** The group, or the process when the group cannot be signalled. *)
Definition signal_group (pid sig : Z) (h : list event) : bool * list event :=
  let '(r, h) := kill (- pid) sig h in
  match r with
  | KOk => (true, h)
  | _ => let '(r, h) := kill pid sig h in (bool_decide (r = KOk), h)
  end.

(** [src/internal/joblet/core/process/manager.go Manager.attemptGracefulShutdown] *)
Definition attemptGracefulShutdown (pid timeout : Z) (h : list event) : processCleanupResult * list event :=
  let timeout := if timeout <=? 0 then GracefulShutdownTimeout else timeout in
  let '(sent, h) := signal_group pid SIGTERM h in
  if negb sent then ({| Killed := false; Method := MGracefulFailed; r_failed := true |}, h) else
  let '(alive, h) := isProcessAlive pid (h ++ [Sleep timeout]) in
  if negb alive then ({| Killed := true; Method := MGraceful; r_failed := false |}, h)
  else ({| Killed := false; Method := MGracefulTimeout; r_failed := false |}, h).

(** [src/internal/joblet/core/process/manager.go Manager.forceKillProcess] *)
Definition forceKillProcess (pid : Z) (h : list event) : processCleanupResult * list event :=
  let '(sent, h) := signal_group pid SIGKILL h in
  if negb sent then ({| Killed := false; Method := MForceFailed; r_failed := true |}, h) else
  let '(alive, h) := isProcessAlive pid (h ++ [Sleep 50000000]) in
  if alive then ({| Killed := false; Method := MForceFailed; r_failed := true |}, h)
  else ({| Killed := true; Method := MForced; r_failed := false |}, h).

(** [src/internal/joblet/core/process/manager.go Manager.cleanupProcessAndGroup] *)
Definition cleanupProcessAndGroup (q : CleanupRequest) (h : list event) : processCleanupResult * list event :=
  let '(alive, h) := isProcessAlive (q_PID q) h in
  if negb alive then ({| Killed := false; Method := MAlreadyDead; r_failed := false |}, h)
  else if q_ForceKill q then forceKillProcess (q_PID q) h
  else
    let '(r, h) := attemptGracefulShutdown (q_PID q) (q_GracefulTimeout q) h in
    if Killed r then (r, h) else forceKillProcess (q_PID q) h.

(** Whether it went well; [nsStat]: [None] for an error other than that the file is
    missing.  The bind mount is never removed, as the only caller says it is none.
    [src/internal/joblet/core/process/manager.go Manager.cleanupNamespace] *)
Definition cleanupNamespace (path : string) : bool :=
  match nsStat path with None => false | Some false => true | Some true => nsRemove path end.

Inductive cleanup_error := CNil | CJob | CTimeout.

(** [src/internal/joblet/core/process/manager.go Manager.validateCleanupRequest] *)
Definition validateCleanupRequest (q : CleanupRequest) : result cleanup_error unit :=
  if String.eqb (q_JobUUID q) "" then Err CJob else if q_GracefulTimeout q <? 0 then Err CTimeout else Ok tt.

(** [src/internal/joblet/core/process/manager.go Manager.CleanupProcess] *)
Definition CleanupProcess (q : option CleanupRequest) (h : list event) : result cleanup_error CleanupResult * list event :=
  match q with
  | None => (Err CNil, h)
  | Some q =>
      match validateCleanupRequest q with
      | Err e => (Err e, h)
      | Ok _ =>
          let '(p, h) := if 0 <? q_PID q then let '(r, h) := cleanupProcessAndGroup q h in (Some r, h) else (None, h) in
          let ns := negb (String.eqb (q_NamespacePath q) "") in
          let removed := ns && cleanupNamespace (q_NamespacePath q) in
          (Ok {| ProcessKilled := match p with Some r => Killed r | None => false end; NamespaceRemoved := removed;
                 CleanupMethod := Method <$> p;
                 Errors := (match p with Some r => if r_failed r then 1 else 0 | None => 0 end + if ns && negb removed then 1 else 0)%nat |}, h)
      end
  end.

(** ** What terminating promises *)

(** The last thing asked was whether the process is there, and it is not. *)
Definition seen_dead (pid : Z) (h : list event) : Prop :=
  ∃ h0, h = h0 ++ [Kill pid 0] ∧ (answer h0 pid 0 = KESRCH ∨ answer h0 pid 0 = KOther).

Lemma isProcessAlive_spec pid h b h' : isProcessAlive pid h = (b, h') →
  h' = h ++ [Kill pid 0] ∧ (b = false ↔ answer h pid 0 = KESRCH ∨ answer h pid 0 = KOther).
Proof.
  unfold isProcessAlive, kill. destruct (answer h pid 0) eqn:E; intros [= <- <-]; (split; [done|]); naive_solver.
Qed.

Lemma signal_group_spec pid sig h b h' : signal_group pid sig h = (b, h') →
  h' = h ++ [Kill (- pid) sig] ∨ h' = h ++ [Kill (- pid) sig; Kill pid sig].
Proof.
  unfold signal_group, kill. destruct (answer h (- pid) sig); intros [= <- <-]; rewrite <- ?app_assoc; eauto.
Qed.

(** The signals of a list of questions: those to the group come before. *)
Definition signals (h : list event) : list Z := omap (λ e, match e with Kill _ 0 => None | Kill _ s => Some s | Sleep _ => None end) h.

Lemma signals_app h1 h2 : signals (h1 ++ h2) = signals h1 ++ signals h2.
Proof. apply omap_app. Qed.

Definition only (n : Z) (l : list Z) : Prop := Forall (λ x, x = n) l ∧ l ≠ [].

Lemma signal_group_signals pid sig h b h' : sig ≠ 0 → signal_group pid sig h = (b, h') →
  ∃ l, signals h' = signals h ++ l ∧ only sig l.
Proof.
  intros Hs H. destruct (signal_group_spec _ _ _ _ _ H) as [-> | ->]; rewrite signals_app; eexists; (split; [done|]);
    destruct sig; try done; (split; [by repeat constructor|done]).
Qed.

Lemma force_spec pid h r h' : forceKillProcess pid h = (r, h') →
  (∃ l, signals h' = signals h ++ l ∧ only SIGKILL l) ∧ (Killed r = true → Method r = MForced ∧ seen_dead pid h') ∧
  (Killed r = false → Method r = MForceFailed ∧ r_failed r = true).
Proof.
  unfold forceKillProcess. destruct (signal_group pid SIGKILL h) as [sent h1] eqn:E.
  apply signal_group_signals in E as (l & El & Ho); [|done]. destruct sent; cbn [negb]; [|intros [= <- <-]; split; [by exists l|by split]].
  destruct (isProcessAlive pid (h1 ++ [Sleep 50000000])) as [alive h2] eqn:Ea. apply isProcessAlive_spec in Ea as [-> Hd].
  assert (Hs : ∃ l, signals ((h1 ++ [Sleep 50000000]) ++ [Kill pid 0]) = signals h ++ l ∧ only SIGKILL l).
  { exists l. rewrite !signals_app, El. simpl. by rewrite !app_nil_r. }
  destruct alive; intros [= <- <-]; (split; [exact Hs|]); simpl; (split; [|done]); try done.
  intros _. split; [done|]. eexists. split; [done|]. by apply Hd.
Qed.

Lemma graceful_spec pid t h r h' : attemptGracefulShutdown pid t h = (r, h') →
  (∃ l, signals h' = signals h ++ l ∧ only SIGTERM l) ∧ (Killed r = true → Method r = MGraceful ∧ seen_dead pid h').
Proof.
  unfold attemptGracefulShutdown. set (d := if t <=? 0 then _ else _). destruct (signal_group pid SIGTERM h) as [sent h1] eqn:E.
  apply signal_group_signals in E as (l & El & Ho); [|done]. destruct sent; cbn [negb]; [|intros [= <- <-]; split; [by exists l|done]].
  destruct (isProcessAlive pid (h1 ++ [Sleep d])) as [alive h2] eqn:Ea. apply isProcessAlive_spec in Ea as [-> Hd].
  assert (Hs : ∃ l, signals ((h1 ++ [Sleep d]) ++ [Kill pid 0]) = signals h ++ l ∧ only SIGTERM l).
  { exists l. rewrite !signals_app, El. simpl. by rewrite !app_nil_r. }
  destruct alive; intros [= <- <-]; (split; [exact Hs|]); simpl; try done.
  intros _. split; [done|]. eexists. split; [done|]. by apply Hd.
Qed.

(** Terminating a process sends nothing when it is dead already; otherwise, unless a
    kill is forced, SIGTERM comes first and SIGKILL only when the process is then still
    there; the result says killed only if the last question found the process gone, and
    says neither killed nor dead only with an error. *)
Theorem terminate_process q h r h' : cleanupProcessAndGroup q h = (r, h') →
  (∃ terms kills, signals h' = signals h ++ terms ++ kills ∧ Forall (λ s, s = SIGTERM) terms ∧ Forall (λ s, s = SIGKILL) kills ∧
     (q_ForceKill q = true → terms = []) ∧
     (Method r = MAlreadyDead → terms = [] ∧ kills = []) ∧
     (Method r = MGraceful → kills = []) ∧
     (q_ForceKill q = false → kills ≠ [] → terms ≠ [])) ∧
  (Killed r = true ∨ Method r = MAlreadyDead → seen_dead (q_PID q) h') ∧
  (Killed r = false → Method r ≠ MAlreadyDead → r_failed r = true).
Proof.
  unfold cleanupProcessAndGroup. destruct (isProcessAlive (q_PID q) h) as [alive h1] eqn:Ea.
  apply isProcessAlive_spec in Ea as [-> Hd]. destruct alive; simpl.
  2:{ intros [= <- <-]. split; [|split].
      - exists [], []. rewrite signals_app. simpl. by repeat split.
      - intros _. exists h. split; [done|]. by apply Hd.
      - simpl. intros _ Hn. by destruct Hn. }
  destruct (q_ForceKill q).
  - intros H. apply force_spec in H as ((l & El & Hl & Hn) & Hk & Hf). split; [|split].
    + exists [], l. rewrite El, signals_app. simpl. rewrite app_nil_r. split_and!; try done.
      * destruct (Killed r); [by destruct Hk as [-> _]|by destruct Hf as [-> _]].
      * destruct (Killed r); [by destruct Hk as [-> _]|by destruct Hf as [-> _]].
    + intros [H|H]; [by apply Hk|]. destruct (Killed r); [by destruct Hk as [E _]; [|rewrite E in H]|by destruct Hf as [E _]; [|rewrite E in H]].
    + intros H _. by apply Hf.
  - destruct (attemptGracefulShutdown _ _ _) as [rg h2] eqn:Eg. apply graceful_spec in Eg as ((l & El & Hl & Hn) & Hg).
    destruct (Killed rg) eqn:Ek.
    + intros [= <- <-]. destruct (Hg eq_refl) as [Hm Hs]. split; [|split; [done|congruence]].
      exists l, []. rewrite El, signals_app. simpl. rewrite !app_nil_r. split_and!; try done. congruence.
    + intros H. apply force_spec in H as ((k & Ek2 & Hk2 & Hkn) & Hk & Hf). split; [|split].
      * exists l, k. rewrite Ek2, El, signals_app. simpl. rewrite app_nil_r, <- app_assoc. split_and!; try done.
        -- destruct (Killed r); [by destruct Hk as [-> _]|by destruct Hf as [-> _]].
        -- destruct (Killed r); [by destruct Hk as [-> _]|by destruct Hf as [-> _]].
      * intros [H|H]; [by apply Hk|]. destruct (Killed r); [by destruct Hk as [E _]; [|rewrite E in H]|by destruct Hf as [E _]; [|rewrite E in H]].
      * intros H _. by apply Hf.
Qed.
End terminate.

(** ** Commands and checks *)

(** [strings.ContainsAny] for ASCII characters. *)
Definition ContainsAny (s chars : string) : bool := existsb (contains_byte s) (bytes chars).

(** [src/internal/joblet/core/process/manager.go Manager.validateCommand] *)
Definition validateCommand (command : string) : bool :=
  negb (String.eqb command "") && negb (ContainsAny command ";&|`$()") && (len command <=? 1024).

(** [src/internal/joblet/core/process/manager.go Manager.validateArguments] *)
Definition validateArguments (args : list string) : bool := forallb (λ a, negb (contains_byte a nul)) args.

(** [src/internal/joblet/core/process/manager.go Manager.validatePID] *)
Definition validatePID (pid : Z) : bool := (0 <? pid) && (pid <=? 4194304).

(** The answer to [kill], or nothing when the number is not accepted.
    [src/internal/joblet/core/process/manager.go Manager.KillProcess] *)
Definition KillProcess (answer : list event → Z → Z → kerr) (pid sig : Z) (h : list event) : option kerr * list event :=
  if validatePID pid then let '(r, h) := kill answer pid sig h in (Some r, h) else (None, h).

(** [src/internal/joblet/core/process/manager.go Manager.KillProcessGroup] *)
Definition KillProcessGroup (answer : list event → Z → Z → kerr) (pid sig : Z) (h : list event) : option kerr * list event :=
  if validatePID pid then let '(r, h) := kill answer (- pid) sig h in (Some r, h) else (None, h).

(** [src/internal/joblet/core/process/manager.go Manager.IsProcessAlive] *)
Definition IsProcessAlive (answer : list event → Z → Z → kerr) (pid : Z) (h : list event) : bool * list event :=
  if pid <=? 0 then (false, h) else isProcessAlive answer pid h.

Section resolve.
Context (Exists : string → bool) (LookPath : string → option string) (CommonPaths : list string).

(** Where a command is looked for after PATH: the configured directories, and the two
    system ones that are not among them.
    [src/internal/joblet/core/process/manager.go:420-444 Manager.ResolveCommand] *)
Definition common_paths (command : string) : list string :=
  ((λ d, Join_path [d; command]) <$> CommonPaths) ++
  ((λ d, Join_path [d; command]) <$> List.filter (λ d, negb (existsb (String.eqb d) CommonPaths)) ["/bin"; "/sbin"]%string).

(** [src/internal/joblet/core/process/manager.go Manager.ResolveCommand] *)
Definition ResolveCommand (command : string) : option string :=
  if String.eqb command "" then None
  else if IsAbs command then if Exists command then Some command else None
  else match LookPath command with
  | Some p => Some p
  | None => find Exists (common_paths command)
  end.

(** What is resolved exists, if what PATH finds does, and a command that exists in one
    of the searched places is resolved. *)
Lemma ResolveCommand_exists command p :
  (∀ c q, LookPath c = Some q → Exists q = true) → ResolveCommand command = Some p → Exists p = true.
Proof.
  intros HL. unfold ResolveCommand. destruct (String.eqb command ""); [done|]. destruct (IsAbs command).
  - destruct (Exists command) eqn:E; congruence.
  - destruct (LookPath command) eqn:E; [intros [= <-]; eauto|]. intros H. by apply find_some in H as [_ H].
Qed.

Lemma ResolveCommand_finds command :
  command ≠ ""%string → IsAbs command = false → (∃ p, p ∈ common_paths command ∧ Exists p = true) → ResolveCommand command ≠ None.
Proof.
  intros Hn Ha (p & Hp & He). unfold ResolveCommand. apply String.eqb_neq in Hn. rewrite Hn, Ha.
  destruct (LookPath command); [done|]. intros Hf. apply list_elem_of_In in Hp. apply (find_none _ _ Hf) in Hp. congruence.
Qed.
End resolve.

(** The namespaces of a job; the numbers are those of Linux. *)
Definition CLONE_NEWNS : Z := 0x20000.
Definition CLONE_NEWCGROUP : Z := 0x2000000.
Definition CLONE_NEWUTS : Z := 0x4000000.
Definition CLONE_NEWIPC : Z := 0x8000000.
Definition CLONE_NEWPID : Z := 0x20000000.
Definition CLONE_NEWNET : Z := 0x40000000.
Definition CLONE_NEWUSER : Z := 0x10000000.

(** [src/internal/joblet/core/process/manager.go Manager.CreateSysProcAttr] *)
Definition CreateSysProcAttr (enableNetworkNS : bool) : Z :=
  let flags := Z.lor (Z.lor (Z.lor (Z.lor CLONE_NEWPID CLONE_NEWNS) CLONE_NEWIPC) CLONE_NEWUTS) CLONE_NEWCGROUP in
  if enableNetworkNS then Z.lor flags CLONE_NEWNET else flags.

Definition has_flag (flags f : Z) : bool := Z.land flags f =? f.

(** Every job has its own processes, mounts, IPC, host name and control groups; never
    its own users; its own network exactly when asked for. *)
Lemma CreateSysProcAttr_flags net :
  forallb (has_flag (CreateSysProcAttr net)) [CLONE_NEWPID; CLONE_NEWNS; CLONE_NEWIPC; CLONE_NEWUTS; CLONE_NEWCGROUP] = true ∧
  has_flag (CreateSysProcAttr net) CLONE_NEWUSER = false ∧ has_flag (CreateSysProcAttr net) CLONE_NEWNET = net.
Proof. by destruct net. Qed.

(** ** Concrete processes *)

Definition init_config : LaunchConfig := {| InitPath := "/opt/joblet/bin/joblet"; Environment := Some ["JOBLET_MODE=init"%string]; JobUUID := "u1" |}.
Definition init_file (_ : string) : file_info := FFile true true.

(** The caller gives up while the command is being started. *)
Lemma launch_results_witness : ∃ l l', lrun [STimer] (LaunchProcess init_file (Some init_config)) = Some l ∧
  waiting l = CReturned (Err LTimeout) ∧ lrun [SStart (StProcess 41); SSend] l = Some l' ∧
  waiting l' = CReturned (Err LTimeout) ∧ pid l' = Some 41.
Proof.
  eexists. assert (E : lrun [STimer] (LaunchProcess init_file (Some init_config)) =
    Some {| goroutine := GStarting; buffer := None; waiting := CReturned (Err LTimeout); pid := None |}) by (vm_compute; reflexivity).
  destruct (launch_results init_file (Some init_config) [STimer] _ E) as (_ & _ & H); [by repeat constructor|].
  destruct (H LTimeout eq_refl eq_refl 41) as (l' & H1 & H2 & H3).
  exists l'. split; [exact E|]. split; [reflexivity|]. split; [exact H1|]. split; [exact H2|exact H3].
Defined.

(** A process that ignores SIGTERM and dies of SIGKILL. *)
Definition stubborn (h : list event) (target sig : Z) : kerr :=
  if existsb (λ e, match e with Kill _ s => s =? SIGKILL | Sleep _ => false end) h then KESRCH else KOk.
Definition stop_it : CleanupRequest := {| q_JobUUID := "u1"; q_PID := 41; q_NamespacePath := ""; q_ForceKill := false; q_GracefulTimeout := 0 |}.

Lemma terminate_process_witness : ∃ r h,
  cleanupProcessAndGroup stubborn stop_it [] = (r, h) ∧ Killed r = true ∧ Method r = MForced ∧
  signals h = [SIGTERM; SIGKILL] ∧ seen_dead stubborn 41 h.
Proof.
  eexists _, _. split; [vm_compute; reflexivity|]. split; [reflexivity|]. split; [reflexivity|]. split; [vm_compute; reflexivity|].
  eapply (terminate_process stubborn stop_it []); [vm_compute; reflexivity|]. by left.
Defined.
