(* ===== verification/Isolator.v ===== *)
(** * The file system of a job (internal/joblet/core/filesystem/isolator.go,
    internal/modes/isolation/isolation.go)

    The init process builds a root directory for the job out of directories, bind mounts
    and files, and changes its root to it.  Each function is a program over the calls to
    the platform: every call is recorded with its answer, which may be any function of
    what was called before; what the host has (files, directories, environment, the
    runtime's configuration) is an argument. *)

From Stdlib Require Import Ascii String.
From S2P Require Import Execution.
From S2P Require Import Prelude GoStrings GoNumbers Values Paths.
From S2P Require Import Cgroup.

Local Open Scope Z_scope.

(** ** Calls *)

(** How a mount is made: a bind mount, the remount of one as read-only, a file system of
    its own, or making everything private. *)
Inductive how := Bind | RemountReadOnly | Own | Private.

Inductive call :=
| Mkdir (path : string) | WriteFile (path text : string) | Mount (source target fstype : string) (flags : how) (data : string)
| Unmount (path : string) | Chdir (path : string) | Chroot (path : string) | Mknod (path : string) (dev : Z)
| Chmod (path : string) | Symlink (old new : string) | Remove (path : string) | RemoveAll (path : string).

Inductive answer := AOk | AExist | AFail.

#[export] Instance how_eq_dec : EqDecision how.
Proof. solve_decision. Defined.
#[export] Instance call_eq_dec : EqDecision call.
Proof. solve_decision. Defined.
#[export] Instance answer_eq_dec : EqDecision answer.
Proof. solve_decision. Defined.

Abbreviation trace := (list (call * answer)).

Definition is_fine (a : answer) : bool := match a with AOk => true | _ => false end.

(** What [Stat] says. *)
Inductive info := IMissing | IError | IFile | IDir.

(** An entry of a directory: its name, and whether it is a directory or a symbolic link. *)
Record entry_ := { e_name : string; e_isDir : bool; e_isLink : bool }.

(** The settings the set-up reads: the directories and, of the runtime, the allowed mounts
    and the base path. [src/pkg/config/config.go FilesystemConfig] *)
Record settings := {
  BaseDir : string; TmpDir : string; WorkspaceDir : string; AllowedMounts : list string; BasePath : string;
}.

(** [src/internal/joblet/core/filesystem/isolator.go:1319-1324 JobFilesystem.mountRuntimeWithManager] *)
Record RuntimeMount := { rm_Source : string; rm_Target : string; rm_ReadOnly : bool }.

Record JobFilesystem := {
  JobUUID : string; RootDir : string; JobTmpDir : string; Volumes : list string; GPUIndices : list Z; CUDAMountPaths : list string;
}.

Definition with_volumes (v : list string) (f : JobFilesystem) : JobFilesystem :=
  {| JobUUID := JobUUID f; RootDir := RootDir f; JobTmpDir := JobTmpDir f; Volumes := v; GPUIndices := GPUIndices f; CUDAMountPaths := CUDAMountPaths f |}.
Definition with_gpus (g : list Z) (c : list string) (f : JobFilesystem) : JobFilesystem :=
  {| JobUUID := JobUUID f; RootDir := RootDir f; JobTmpDir := JobTmpDir f; Volumes := Volumes f; GPUIndices := g; CUDAMountPaths := c |}.

(** [strings.Replace] of all occurrences of a non-empty text; the fuel is the length. *)
Fixpoint replace_bytes (fuel : nat) (old new l : list ascii) : list ascii :=
  match fuel with
  | O => l
  | S fuel =>
      match l with
      | [] => []
      | c :: rest =>
          if decide (take (length old) l = old) then new ++ replace_bytes fuel old new (drop (length old) l)
          else c :: replace_bytes fuel old new rest
      end
  end.
Definition ReplaceAll (s old new : string) : string :=
  of_bytes (replace_bytes (String.length s) (bytes old) (bytes new) (bytes s)).

(** [filepath.Dir] of an absolute path: all but the last element. *)
Definition Dir (p : string) : string :=
  Clean (of_bytes (join_bytes "/" (removelast (split_bytes "/" (bytes p))) ++ ["/"%char])).

(** ** Paths without ".." stay below the root they are joined to *)

Definition dotdot_free (p : string) : Prop := dotdot ∉ split_bytes "/" (bytes p).
#[export] Instance dotdot_free_dec p : Decision (dotdot_free p).
Proof. unfold dotdot_free. apply _. Defined.

(** A path of the tree below the elements [wr]. *)
Definition inside (wr : list word) (p : string) : Prop := ∃ more, Forall plain more ∧ p = path_of (wr ++ more).

Lemma clean_fold_free ws : ∀ out, dotdot ∉ ws → Forall (λ w, "/"%char ∉ w) ws →
  ∃ more, Forall plain more ∧ foldl (clean_step true) out ws = more ++ out.
Proof.
  induction ws as [|w ws IH]; intros out Hd Hs; simpl.
  { exists []. by split. }
  apply not_elem_of_cons in Hd as [Hd Hds]. apply Forall_cons in Hs as [Hw Hs].
  unfold clean_step at 2. case_bool_decide as H1; simpl; [by apply IH|]. case_bool_decide as H2; simpl; [by apply IH|].
  rewrite bool_decide_eq_false_2 by congruence. destruct (IH (w :: out) Hds Hs) as (more & Hm & ->).
  exists (more ++ [w]). split; [apply Forall_app; split; [done|apply Forall_singleton; by repeat split]|by rewrite <- app_assoc].
Qed.

Lemma split_join_all sep ls : ls ≠ [] → split_bytes sep (join_bytes sep ls) = concat (split_bytes sep <$> ls).
Proof.
  induction ls as [|l ls IH]; intros Hn; [done|]. destruct ls as [|l2 ls]; [simpl; by rewrite app_nil_r|].
  change (join_bytes sep (l :: l2 :: ls)) with (l ++ sep :: join_bytes sep (l2 :: ls)).
  rewrite split_bytes_app_sep, IH by done. done.
Qed.

Lemma split_path_of ws : Forall plain ws → ws ≠ [] → split_bytes "/" (bytes (path_of ws)) = [] :: ws.
Proof.
  intros Hw Hn. unfold path_of. rewrite bytes_of_bytes.
  change (split_bytes "/" ("/"%char :: join_bytes "/" ws)) with ([] :: split_bytes "/" (join_bytes "/" ws)). by rewrite plain_split.
Qed.

Lemma Clean_inside wr s rest : Forall plain wr → split_bytes "/" (bytes s) = [] :: wr ++ rest → dotdot ∉ rest → IsAbs s = true →
  inside wr (Clean s).
Proof.
  intros Hw Hs Hd Ha. pose proof (split_words "/" (bytes s)) as Hn. rewrite Hs in Hn.
  apply Forall_cons in Hn as [_ [_ Hn]%Forall_app].
  destruct (clean_fold_free rest (rev wr) Hd Hn) as (more & Hm & E).
  exists (rev more). split; [by apply Forall_rev|].
  unfold Clean. rewrite bool_decide_eq_false_2 by (by intros ->). rewrite Ha. unfold path_of. do 3 f_equal.
  unfold Clean_elements, clean_words. rewrite Ha, Hs. simpl. unfold clean_step at 2. simpl.
  rewrite foldl_app, (clean_fold_id wr) by done. rewrite app_nil_r, E, rev_app_distr. by rewrite rev_involutive.
Qed.

Lemma path_of_not_empty ws : path_of ws ≠ ""%string.
Proof. intros E%(f_equal bytes). unfold path_of in E. by rewrite bytes_of_bytes in E. Qed.

Lemma Join_inside wr ps : Forall plain wr → wr ≠ [] → Forall dotdot_free ps → inside wr (Join_path (path_of wr :: ps)).
Proof.
  intros Hw Hn Hp. unfold Join_path. rewrite filter_cons_True by apply path_of_not_empty.
  assert (Hq : Forall dotdot_free (filter (λ e, e ≠ ""%string) ps)).
  { apply Forall_forall. intros q [_ Hin]%list_elem_of_filter. by apply (proj1 (Forall_forall _ _) Hp). }
  clear Hp. rename Hq into Hp. set (qs := filter _ ps) in *. clearbody qs. clear ps.
  apply (Clean_inside wr _ (concat (split_bytes "/" <$> (bytes <$> qs)))); [done| | |].
  - unfold Join. rewrite bytes_of_bytes, split_join_all by done.
    change (split_bytes "/" (bytes (path_of wr)) ++ concat (split_bytes "/" <$> (bytes <$> qs)) = [] :: wr ++ concat (split_bytes "/" <$> (bytes <$> qs))).
    by rewrite split_path_of.
  - clear -Hp. induction Hp as [|q qs Hq Hqs IH]; simpl; [apply not_elem_of_nil|]. rewrite elem_of_app. by intros [|].
  - apply IsAbs_cons. unfold Join. rewrite bytes_of_bytes, fmap_cons.
    assert (E : bytes (path_of wr) = "/"%char :: join_bytes "/" wr) by apply bytes_of_bytes. rewrite E.
    destruct (bytes <$> qs); eexists; reflexivity.
Qed.

Lemma Dir_plain ws w : Forall plain ws → plain w → ws ≠ [] → Dir (path_of (ws ++ [w])) = path_of ws.
Proof.
  intros Hw Hp Hn. unfold Dir. rewrite split_path_of; [|apply Forall_app; split; [done|by apply Forall_singleton]|by destruct ws].
  change ([] :: ws ++ [w]) with (([] :: ws) ++ [w]). rewrite removelast_last.
  set (s := of_bytes _). assert (Hs : bytes s = "/"%char :: join_bytes "/" (ws ++ [[]])).
  { unfold s. rewrite bytes_of_bytes, join_bytes_snoc by done. by destruct ws. }
  assert (Ha : IsAbs s = true) by (apply IsAbs_cons; eauto).
  unfold Clean. rewrite bool_decide_eq_false_2 by (by intros E; rewrite E in Ha). rewrite Ha. unfold path_of. do 3 f_equal.
  unfold Clean_elements, clean_words. rewrite Ha, Hs. simpl.
  replace (split_bytes "/" (join_bytes "/" (ws ++ [[]]))) with (ws ++ [[]]).
  2:{ symmetry. apply split_bytes_join; [by destruct ws|]. apply Forall_app. split; [|apply Forall_singleton; apply not_elem_of_nil].
      eapply Forall_impl; [exact Hw|]. by intros ? (_ & _ & _ & ?). }
  unfold clean_step at 2. simpl. rewrite foldl_app, (clean_fold_id ws) by done. simpl. rewrite app_nil_r. apply rev_involutive.
Qed.

Lemma Join_absorb ps ws : ps ≠ [] → ws ≠ [] → join_bytes "/" (ps ++ ws) = join_bytes "/" ps ++ "/"%char :: join_bytes "/" ws.
Proof.
  intros Hp Hw. induction ps as [|p ps IH]; [done|]. destruct ps as [|q ps].
  { destruct ws; [done|]. done. }
  change (join_bytes "/" ((p :: q :: ps) ++ ws)) with (p ++ "/"%char :: join_bytes "/" ((q :: ps) ++ ws)). rewrite IH by done.
  change (join_bytes "/" (p :: q :: ps)) with (p ++ "/"%char :: join_bytes "/" (q :: ps)). by rewrite <- app_assoc.
Qed.

Lemma Join_path_of wr ws : Forall plain wr → wr ≠ [] → Forall plain ws → ws ≠ [] →
  Join_path [path_of wr; of_bytes (join_bytes "/" ws)] = path_of (wr ++ ws).
Proof.
  intros Hr Hn Hw Hm. rewrite Join_path2; [|apply path_of_not_empty|].
  - apply Clean_path_of; [|by apply Forall_app|by destruct wr].
    rewrite Join_bytes2, Join_absorb, bytes_of_bytes by done. unfold path_of. by rewrite bytes_of_bytes.
  - intros E%(f_equal bytes). rewrite bytes_of_bytes in E. destruct Hw as [|w ws (Hne & _) _]; [done|].
    destruct ws; simpl in E; by destruct w.
Qed.

Lemma inside_root wr : inside wr (path_of wr).
Proof. exists []. split; [constructor|by rewrite app_nil_r]. Qed.
Lemma inside_more wr ws p : Forall plain ws → inside (wr ++ ws) p → inside wr p.
Proof. intros Hw (more & Hm & ->). exists (ws ++ more). by rewrite Forall_app, app_assoc. Qed.

(** The directory of a path of the tree is in the tree, or that of the root. *)
Lemma Dir_inside wr p : Forall plain wr → wr ≠ [] → inside wr p → inside wr (Dir p) ∨ Dir p = Dir (path_of wr).
Proof.
  intros Hw Hn (more & Hm & ->). destruct (rev more) as [|w l] eqn:E.
  { right. apply (f_equal (@rev _)) in E. rewrite rev_involutive in E. subst more. by rewrite app_nil_r. }
  left. apply (f_equal (@rev _)) in E. rewrite rev_involutive in E. simpl in E. subst more.
  apply Forall_app in Hm as [Hl [Hp _]%Forall_cons]. rewrite app_assoc, Dir_plain; [|by apply Forall_app|done|by destruct wr].
  exists (rev l). done.
Qed.

Lemma TrimPrefix_free p : dotdot_free p → dotdot_free (TrimPrefix p "/").
Proof.
  intros H. unfold TrimPrefix. destruct (HasPrefix p "/") eqn:E; [|done].
  apply IsAbs_cons in E as [l E]. unfold dotdot_free in *. rewrite E in H. rewrite E, bytes_of_bytes. simpl in *. set_solver.
Qed.

Lemma dotdot_free_path ws : Forall plain ws → ws ≠ [] → dotdot_free (path_of ws).
Proof.
  intros Hw Hn. unfold dotdot_free. rewrite split_path_of by done. intros [E|Hin]%elem_of_cons; [done|].
  pose proof (proj1 (Forall_forall _ _) Hw _ Hin) as (_ & _ & H & _). done.
Qed.

Lemma Clean_idempotent s : IsAbs s = true → Clean (Clean s) = Clean s.
Proof.
  intros Ha. destruct (Clean_rooted s Ha) as (ws & _ & Hw & Hb).
  assert (E : Clean s = path_of ws) by (rewrite <- (of_bytes_bytes (Clean s)), Hb; done).
  destruct (decide (ws = [])) as [->|Hn]; [by rewrite E; vm_compute|]. rewrite E. by apply Clean_path_of; [apply bytes_of_bytes|..].
Qed.

(** What the base-directory guard lets through, joined to the base, is in the base. *)
Lemma guard_inside wb cwd name p : IsAbs cwd = true → Forall plain wb → wb ≠ [] →
  ValidatePathWithinBase cwd (path_of wb) name = Ok p → name ≠ ""%string → inside wb (Join_path [path_of wb; name]).
Proof.
  intros Hc Hw Hn Hv Hne. destruct (within_base_elements _ _ _ _ Hc Hv) as (wb' & ext & Hp & Hb & He).
  apply Forall_app in Hp as [Hp1 Hp2].
  assert (E1 : Abs cwd (path_of wb) = path_of wb).
  { unfold Abs. rewrite IsAbs_path_of. by apply Clean_path_of; [apply bytes_of_bytes|..]. }
  rewrite E1 in Hb. unfold path_of in Hb. rewrite bytes_of_bytes in Hb. injection Hb as Hb.
  apply join_plain_inj in Hb; [|done|done]. subst wb'.
  exists ext. split; [done|]. rewrite <- (of_bytes_bytes (Join_path _)). change (path_of (wb ++ ext)) with (of_bytes ("/"%char :: join_bytes "/" (wb ++ ext))). f_equal. rewrite <- He.
  unfold ValidatePathWithinBase in Hv. rewrite bool_decide_eq_false_2 in Hv by apply path_of_not_empty.
  destruct (IsAbs name); [done|]. destruct (negb _ && negb _); [done|]. injection Hv as <-. f_equal.
  rewrite (Join_path2 (path_of wb) name) by (apply path_of_not_empty || done).
  set (s := Join [path_of wb; name] "/"). assert (Ha : IsAbs s = true).
  { apply IsAbs_cons. unfold s. rewrite Join_bytes2. unfold path_of. rewrite bytes_of_bytes. eexists. reflexivity. }
  unfold Abs. destruct (Clean_rooted s Ha) as (ws & _ & _ & Hs). assert (IsAbs (Clean s) = true) as -> by (apply IsAbs_cons; eauto).
  symmetry. by apply Clean_idempotent.
Qed.

Lemma Join_path3 wr w name : Forall plain wr → wr ≠ [] → plain w → name ≠ ""%string →
  Join_path [path_of wr; of_bytes w; name] = Join_path [path_of (wr ++ [w]); name].
Proof.
  intros Hr Hn Hw Hne. assert (Hw' : of_bytes w ≠ ""%string).
  { intros E%(f_equal bytes). rewrite bytes_of_bytes in E. by destruct Hw. }
  rewrite Join_path2 by (apply path_of_not_empty || done). unfold Join_path.
  rewrite !filter_cons_True by (apply path_of_not_empty || done). f_equal. unfold Join. f_equal. simpl.
  change (join_bytes "/" [bytes (path_of wr); bytes (of_bytes w); bytes name]) with
    (bytes (path_of wr) ++ "/"%char :: bytes (of_bytes w) ++ "/"%char :: bytes name).
  change (join_bytes "/" [bytes (path_of (wr ++ [w])); bytes name]) with (bytes (path_of (wr ++ [w])) ++ "/"%char :: bytes name).
  unfold path_of. rewrite !bytes_of_bytes, join_bytes_snoc by done. simpl. by rewrite <- app_assoc.
Qed.

Section platform.
Context (answers : trace → call → answer).
Context (stat : trace → string → info) (readDir : trace → string → option (list entry_)) (readFile : trace → string → option string).
Context (getenv : string → string) (pid : Z) (cwd : string).
Context (cfg : settings).
(** The directory of a runtime below a base path (Runtime.v), and the mounts and the
    environment of its configuration. *)
Context (resolveRuntime : string → string → option string)
        (runtimeConfig : trace → string → option (list RuntimeMount * option (list (string * string)))).

(** A program: what it returns and the calls it makes. *)
Definition P (A : Type) := trace → A * trace.
#[local] Instance P_ret : MRet P := λ A a t, (a, t).
#[local] Instance P_bind : MBind P := λ A B k m t, let '(a, t) := m t in k a t.

Definition do_ (c : call) : P answer := λ t, let a := answers t c in (a, t ++ [(c, a)]).
(** The error of a call, as [true] for none. *)
Definition try_ (c : call) : P bool := a ← do_ c; mret (is_fine a).
Definition ask {A} (q : trace → A) : P A := λ t, (q t, t).

(** A loop over the items that ends at the first error. *)
Fixpoint each {A} (f : A → P bool) (l : list A) : P bool :=
  match l with [] => mret true | x :: l => b ← f x; if b : bool then each f l else mret false end.
(** A loop in which errors are only logged. *)
Fixpoint all {A B} (f : A → P B) (l : list A) : P unit :=
  match l with [] => mret tt | x :: l => _ ← f x; all f l end.

(** ** Creating the directories *)

(** [src/internal/joblet/core/filesystem/isolator.go Isolator.validateJobContext] *)
Definition validateJobContext : bool := negb (String.eqb (getenv "JOB_ID") "") && (pid =? 1).

Definition job_filesystem (jobID : string) : JobFilesystem := {|
  JobUUID := jobID; RootDir := Join_path [BaseDir cfg; jobID]; JobTmpDir := ReplaceAll (TmpDir cfg) "{JOB_ID}" jobID;
  Volumes := []; GPUIndices := []; CUDAMountPaths := [] |}.

(** [src/internal/joblet/core/filesystem/isolator.go Isolator.CreateJobFilesystem] *)
Definition CreateJobFilesystem (jobID : string) : P (option JobFilesystem) :=
  let f := job_filesystem jobID in
  if negb validateJobContext then mret None else
  b ← each (λ d, try_ (Mkdir d)) [RootDir f; JobTmpDir f; Join_path [RootDir f; "work"%string]];
  mret (if b : bool then Some f else None).

(** [src/internal/joblet/core/filesystem/isolator.go JobFilesystem.createEssentialDirs] *)
Definition createEssentialDirs (f : JobFilesystem) : P bool :=
  each (λ d, try_ (Mkdir (Join_path [RootDir f; d])))
    ["etc"; "tmp"; "proc"; "dev"; "sys"; "work"; "var"; "var/run"; "var/tmp"; "volumes"]%string.

Definition nl : string := String (byte_of 10) EmptyString.

Definition job_resolv_conf : string :=
  "# DNS configuration for Joblet container" +:+ nl +:+ "nameserver 8.8.8.8" +:+ nl +:+ "nameserver 8.8.4.4" +:+ nl +:+
  "options ndots:0" +:+ nl.
Definition job_hosts : string :=
  "127.0.0.1   localhost" +:+ nl +:+ "::1         localhost ip6-localhost ip6-loopback" +:+ nl.

(** [src/internal/joblet/core/filesystem/isolator.go JobFilesystem.createEssentialFiles] *)
Definition createEssentialFiles (f : JobFilesystem) : P bool :=
  let etcDir := Join_path [RootDir f; "etc"%string] in
  b ← try_ (Mkdir etcDir);
  if negb b then mret false else
  _ ← try_ (WriteFile (Join_path [etcDir; "resolv.conf"%string]) job_resolv_conf);
  _ ← try_ (WriteFile (Join_path [etcDir; "hosts"%string]) job_hosts);
  mret true.

(** [src/internal/joblet/core/filesystem/isolator.go JobFilesystem.validateInJobContext] *)
Definition validateInJobContext (f : JobFilesystem) : bool :=
  negb (String.eqb (getenv "JOB_ID") "") && String.eqb (getenv "JOB_ID") (JobUUID f) && (pid =? 1).

(** ** Mounting *)

(** Where a host path appears below the root.
    [src/internal/joblet/core/filesystem/isolator.go:476-476 JobFilesystem.mountAllowedDirs] *)
Definition in_root (f : JobFilesystem) (p : string) : string := Join_path [RootDir f; TrimPrefix p "/"].

(** One host path, bound and then remounted read-only; errors pass over it.
    [src/internal/joblet/core/filesystem/isolator.go:469-525 JobFilesystem.mountAllowedDirs] *)
Definition mount_read_only (f : JobFilesystem) (source : string) : P unit :=
  i ← ask (λ t, stat t source);
  match i with
  | IMissing => mret tt
  | _ =>
      let target := in_root f source in
      b ← try_ (Mkdir (Dir target));
      if negb b then mret tt else
      i ← ask (λ t, stat t source);
      b ← match i with
          | IMissing | IError => mret false
          | IDir => try_ (Mkdir target)
          | IFile => try_ (WriteFile target "")
          end;
      if negb b then mret tt else
      b ← try_ (Mount source target "" Bind "");
      if negb b then mret tt else
      _ ← try_ (Mount "" target "" RemountReadOnly "");
      mret tt
  end.

(** [src/internal/joblet/core/filesystem/isolator.go JobFilesystem.mountAllowedDirs] *)
Definition mountAllowedDirs (f : JobFilesystem) : P bool := _ ← all (mount_read_only f) (AllowedMounts cfg); mret true.

(** [src/internal/joblet/core/filesystem/isolator.go JobFilesystem.MountCUDALibraries] *)
Definition MountCUDALibraries (f : JobFilesystem) (mountPaths : list string) : P bool :=
  _ ← all (mount_read_only f) mountPaths; mret true.

(** [src/internal/joblet/core/filesystem/isolator.go JobFilesystem.setupTmpDir] *)
Definition setupTmpDir (f : JobFilesystem) : P bool :=
  let tmpPath := Join_path [RootDir f; "tmp"%string] in
  b ← try_ (Mkdir (JobTmpDir f));
  if negb b then mret false else
  b ← try_ (Mkdir tmpPath);
  if negb b then mret false else
  try_ (Mount (JobTmpDir f) tmpPath "" Bind "").

(** *** Volumes *)

(** [src/internal/joblet/core/filesystem/isolator.go JobFilesystem.getVolumesBasePath] *)
Definition getVolumesBasePath : string :=
  let p := getenv "JOBLET_VOLUMES_BASE_PATH" in if String.eqb p "" then "/opt/joblet/volumes"%string else p.

(** [src/internal/joblet/core/filesystem/isolator.go JobFilesystem.mountSingleVolume] *)
Definition mountSingleVolume (f : JobFilesystem) (volumeName : string) : P bool :=
  match ValidatePathWithinBase cwd (Join_path [RootDir f; "volumes"%string]) volumeName with
  | Err _ => mret false
  | Ok _ =>
      let hostVolumePath := (getVolumesBasePath +:+ "/" +:+ volumeName +:+ "/data")%string in
      i ← ask (λ t, stat t hostVolumePath);
      match i with
      | IMissing | IError => mret false
      | _ =>
          let target := Join_path [RootDir f; "volumes"%string; volumeName] in
          b ← try_ (Mkdir target);
          if negb b then mret false else try_ (Mount hostVolumePath target "" Bind "")
      end
  end.

(** [src/internal/joblet/core/filesystem/isolator.go JobFilesystem.mountVolumes] *)
Definition mountVolumes (f : JobFilesystem) : P bool := _ ← all (mountSingleVolume f) (Volumes f); mret true.

(** [src/internal/joblet/core/filesystem/isolator.go JobFilesystem.loadVolumesFromEnvironment] *)
Definition loadVolumesFromEnvironment (f : JobFilesystem) : JobFilesystem :=
  if String.eqb (getenv "JOB_VOLUMES_COUNT") "" then f else
  match Atoi (getenv "JOB_VOLUMES_COUNT") with
  | Some n =>
      if n <=? 0 then f
      else with_volumes (List.filter (λ v, negb (String.eqb v "")) ((λ i, getenv ("JOB_VOLUME_" +:+ Itoa (Z.of_nat i))) <$> seq 0 (Z.to_nat n))) f
  | None => f
  end.

(** *** GPUs *)

(** [src/internal/joblet/core/filesystem/isolator.go:1189-1198 JobFilesystem.loadGPUFromEnvironment] *)
Definition parse_indices (s : string) : list Z :=
  omap (λ part, let part := TrimSpace part in if String.eqb part "" then None else Atoi part) (Split s ",").

(** [src/internal/joblet/core/filesystem/isolator.go JobFilesystem.loadGPUFromEnvironment] *)
Definition loadGPUFromEnvironment (f : JobFilesystem) : JobFilesystem :=
  let g := getenv "JOB_GPU_INDICES" in
  let m := getenv "JOB_GPU_CUDA_MOUNTS" in
  with_gpus (if String.eqb g "" then GPUIndices f else parse_indices g)
    (if String.eqb m "" then CUDAMountPaths f else Split m ":") f.

(** [src/internal/joblet/core/filesystem/isolator.go:808-814 driverLibraryPrefixes] *)
Definition driverLibraryPrefixes : list string :=
  ["libcuda.so"; "libnvidia-ml.so"; "libnvidia-ptxjitcompiler.so"; "libnvidia-nvvm.so"; "libnvidia-cfg.so"].
(** [src/internal/joblet/core/filesystem/isolator.go driverLibraryDirs] *)
Definition driverLibraryDirs : list string :=
  ["/usr/lib/x86_64-linux-gnu"; "/usr/lib/aarch64-linux-gnu"; "/usr/lib64"; "/usr/lib"; "/lib/x86_64-linux-gnu"; "/lib/aarch64-linux-gnu"].

(** [src/internal/joblet/core/filesystem/isolator.go JobFilesystem.discoverDriverLibraries] *)
Definition discoverDriverLibraries : P (list string) := ask (λ t,
  foldl (λ libs full, if existsb (String.eqb full) libs then libs else libs ++ [full]) []
    (flat_map (λ dir, match readDir t dir with
       | None => []
       | Some entries => omap (λ e, if e_isDir e || e_isLink e then None
           else if existsb (HasPrefix (e_name e)) driverLibraryPrefixes then Some (Join_path [dir; e_name e]) else None) entries
       end) driverLibraryDirs)).

(** The first occurrence of ".so.", and what is before it with the mark.
    [src/internal/joblet/core/filesystem/isolator.go driverSoname] *)
Fixpoint soname_bytes (l : list ascii) : option (list ascii) :=
  if decide (take 4 l = bytes ".so.") then Some (bytes ".so.")
  else match l with [] => None | c :: l => cons c <$> soname_bytes l end.
(** [src/internal/joblet/core/filesystem/isolator.go driverSoname] *)
Definition driverSoname (name : string) : string :=
  match soname_bytes (bytes name) with
  | None => ""
  | Some l => let soname := of_bytes (l ++ ["1"%char]) in if String.eqb soname name then "" else soname
  end.

(** [src/internal/joblet/core/filesystem/isolator.go:881-909 JobFilesystem.injectDriverLibraries] *)
Definition injectDriverLibrary (f : JobFilesystem) (hostLib : string) : P unit :=
  let target := in_root f hostLib in
  b ← try_ (Mkdir (Dir target));
  if negb b then mret tt else
  a ← do_ (WriteFile target "");
  match a with
  | AFail => mret tt
  | _ =>
      b ← try_ (Mount hostLib target "" Bind "");
      if negb b then mret tt else
      _ ← try_ (Mount "" target "" RemountReadOnly "");
      let soname := driverSoname (Base hostLib) in
      if String.eqb soname "" then mret tt else
      let link := Join_path [Dir target; soname] in
      _ ← try_ (Remove link);
      _ ← try_ (Symlink (Base hostLib) link);
      mret tt
  end.

(** [src/internal/joblet/core/filesystem/isolator.go JobFilesystem.injectDriverLibraries] *)
Definition injectDriverLibraries (f : JobFilesystem) (libs : list string) : P unit := all (injectDriverLibrary f) libs.

(** [src/internal/joblet/core/filesystem/isolator.go makedev] *)
Definition makedev (major minor : Z) : Z := Z.lor (Z.shiftl major 8) minor.

(** [src/internal/joblet/core/filesystem/isolator.go JobFilesystem.CreateGPUDeviceNodes] *)
Definition CreateGPUDeviceNodes (gpuIndices : list Z) : P bool :=
  a ← do_ (Mkdir "/dev");
  match a with
  | AFail => mret false
  | _ =>
      _ ← all (λ d, do_ (Mknod d.1 d.2)) [("/dev/nvidiactl"%string, makedev 195 255); ("/dev/nvidia-uvm"%string, makedev 237 0);
                                          ("/dev/nvidia-uvm-tools"%string, makedev 237 1)];
      _ ← all (λ i, do_ (Mknod ("/dev/nvidia" +:+ Itoa i) (makedev 195 (i mod 2 ^ 32)))) gpuIndices;
      mret true
  end.

(** ** After the change of root *)

(** A device of its own, whose absence is an error or only logged.
    [src/internal/joblet/core/filesystem/isolator.go:633-677 JobFilesystem.createEssentialDevices] *)
Definition essential_device (needed : bool) (path : string) (minor : Z) : P bool :=
  a ← do_ (Mknod path (makedev 1 minor));
  match a, needed with
  | AFail, true => mret false
  | _, _ => _ ← try_ (Chmod path); mret true
  end.

(** [src/internal/joblet/core/filesystem/isolator.go JobFilesystem.createEssentialDevices] *)
Definition createEssentialDevices : P bool :=
  a ← do_ (Mkdir "/dev");
  match a with
  | AFail => mret false
  | _ =>
      each (λ d, essential_device d.1.1 d.1.2 d.2)
        [(true, "/dev/null"%string, 3); (true, "/dev/zero"%string, 5); (false, "/dev/random"%string, 8); (false, "/dev/urandom"%string, 9)]
  end.

(** [src/internal/joblet/core/filesystem/isolator.go JobFilesystem.mountEssentialFS] *)
Definition mountEssentialFS : P bool := _ ← createEssentialDevices; mret true.

(** [src/internal/joblet/core/filesystem/isolator.go JobFilesystem.performChroot] *)
Definition performChroot (f : JobFilesystem) : P bool :=
  b ← try_ (Chdir (RootDir f));
  if negb b then mret false else
  b ← try_ (Chroot (RootDir f));
  if negb b then mret false else
  b ← try_ (Chdir (if String.eqb (WorkspaceDir cfg) "" then "/work" else WorkspaceDir cfg));
  if b : bool then mret true else
  b ← try_ (Chdir "/tmp");
  if b : bool then mret true else try_ (Chdir "/").

(** ** The working directory and the pipes *)

(** [src/internal/joblet/core/filesystem/isolator.go JobFilesystem.getDefaultDiskQuotaBytes] *)
Definition getDefaultDiskQuotaBytes : Z :=
  match Atoi (getenv "JOBLET_DEFAULT_DISK_QUOTA_BYTES") with Some q => if q >? 0 then q else 1048576 | None => 1048576 end.

(** [src/internal/joblet/core/filesystem/isolator.go JobFilesystem.setupLimitedWorkDir] *)
Definition setupLimitedWorkDir (f : JobFilesystem) : P bool :=
  let limitedWorkPath := Join_path [RootDir f; "work-limited"%string] in
  b ← try_ (Mkdir limitedWorkPath);
  if negb b then mret false else
  b ← try_ (Mount "tmpfs" limitedWorkPath "tmpfs" Own ("size=" +:+ Itoa getDefaultDiskQuotaBytes));
  if negb b then mret false else
  b ← try_ (Mount limitedWorkPath (Join_path [RootDir f; "work"%string]) "" Bind "");
  if b : bool then mret true else
  _ ← try_ (Unmount limitedWorkPath); mret false.

(** What [Setup] does about the working directory: nothing when there are volumes or
    uploaded files, else a limited one, else a plain one.
    [src/internal/joblet/core/filesystem/isolator.go:327-343 JobFilesystem.Setup] *)
Definition setup_work (f : JobFilesystem) : P unit :=
  let workPath := Join_path [RootDir f; "work"%string] in
  files ← ask (λ t, readDir t workPath);
  let workDirHasFiles := match files with Some (_ :: _) => true | _ => false end in
  match Volumes f with
  | [] =>
      if workDirHasFiles then mret tt else
      b ← setupLimitedWorkDir f;
      if b : bool then mret tt else
      i ← ask (λ t, stat t workPath);
      match i with IMissing | IError => _ ← try_ (Mkdir workPath); mret tt | _ => mret tt end
  | _ => mret tt
  end.

Definition host_pipes : string := (BaseDir cfg +:+ "/" +:+ getenv "JOB_ID" +:+ "/pipes")%string.

(** [src/internal/joblet/core/filesystem/isolator.go JobFilesystem.mountPipesDirectory] *)
Definition mountPipesDirectory (f : JobFilesystem) : P bool :=
  let jobID := getenv "JOB_ID" in
  if String.eqb jobID "" then mret true else
  i ← ask (λ t, stat t host_pipes);
  b ← match i with IMissing => try_ (Mkdir host_pipes) | IError => mret false | _ => mret true end;
  if negb b then mret false else
  let target := Join_path [RootDir f; "pipes"%string; jobID] in
  b ← try_ (Mkdir (Dir target));
  if negb b then mret false else
  b ← try_ (Mkdir target);
  if negb b then mret false else try_ (Mount host_pipes target "" Bind "").

(** ** The runtime *)

(** [src/internal/joblet/core/filesystem/isolator.go JobFilesystem.writeRuntimeEnvironment] *)
Definition writeRuntimeEnvironment (f : JobFilesystem) (env : list (string * string)) : P bool :=
  b ← try_ (Mkdir (Join_path [RootDir f; "joblet"%string]));
  if negb b then mret false else
  try_ (WriteFile (Join_path [RootDir f; "joblet"%string; "runtime.env"%string])
          (String.concat "" ((λ kv, kv.1 +:+ "=" +:+ kv.2 +:+ nl) <$> env))).

(** Whether a source is there and not empty; [None] is an error.
    [src/internal/joblet/core/filesystem/isolator.go:1380-1400 JobFilesystem.mountRuntimeWithManager] *)
Definition usable_source (sourcePath : string) : P (option info) :=
  i ← ask (λ t, stat t sourcePath);
  match i with
  | IMissing => mret (Some IMissing)
  | IError => mret None
  | IFile => mret (Some IFile)
  | IDir =>
      entries ← ask (λ t, readDir t sourcePath);
      mret (match entries with None => None | Some [] => Some IMissing | Some _ => Some IDir end)
  end.

(** The first phase, for one mount: its target.
    [src/internal/joblet/core/filesystem/isolator.go:1374-1430 JobFilesystem.mountRuntimeWithManager] *)
Definition prepare_target (f : JobFilesystem) (runtimeDir : string) (m : RuntimeMount) : P bool :=
  let sourcePath := Join_path [runtimeDir; rm_Source m] in
  let targetPath := in_root f (rm_Target m) in
  i ← usable_source sourcePath;
  match i with
  | None => mret false
  | Some IDir =>
      i ← ask (λ t, stat t targetPath);
      match i with IMissing | IError => _ ← try_ (Mkdir targetPath); mret true | _ => mret true end
  | Some IFile =>
      b ← try_ (Mkdir (Dir targetPath));
      if negb b then mret false else try_ (WriteFile targetPath "")
  | Some _ => mret true
  end.

(** The second phase, for one mount.
    [src/internal/joblet/core/filesystem/isolator.go:1444-1491 JobFilesystem.mountRuntimeWithManager] *)
Definition mount_target (f : JobFilesystem) (runtimeDir : string) (m : RuntimeMount) : P bool :=
  let sourcePath := Join_path [runtimeDir; rm_Source m] in
  let targetPath := in_root f (rm_Target m) in
  i ← usable_source sourcePath;
  match i with
  | None => mret false
  | Some IMissing => mret true
  | Some _ =>
      i ← ask (λ t, stat t targetPath);
      match i with
      | IMissing | IError => mret true
      | _ =>
          b ← try_ (Mount sourcePath targetPath "" Bind "");
          if negb b then mret false else
          if rm_ReadOnly m then _ ← try_ (Mount "" targetPath "" RemountReadOnly ""); mret true else mret true
      end
  end.

(** [src/internal/joblet/core/filesystem/isolator.go JobFilesystem.mountRuntimeWithManager] *)
Definition mountRuntimeWithManager (f : JobFilesystem) (runtimeBasePath : string) : P bool :=
  match resolveRuntime runtimeBasePath (getenv "JOB_RUNTIME") with
  | None => mret false
  | Some runtimeDir =>
      config ← ask (λ t, runtimeConfig t (Join_path [runtimeDir; "runtime.yml"%string]));
      match config with
      | None => mret false
      | Some ([], _) => try_ (Mount runtimeDir (RootDir f) "" Bind "")
      | Some (mounts, env) =>
          b ← each (prepare_target f runtimeDir) mounts;
          if negb b then mret false else
          _ ← match env with Some env => writeRuntimeEnvironment f env | None => mret true end;
          each (mount_target f runtimeDir) mounts
      end
  end.

(** [src/internal/joblet/core/filesystem/isolator.go JobFilesystem.mountRuntime] *)
Definition mountRuntime (f : JobFilesystem) : P bool :=
  if String.eqb (getenv "JOB_RUNTIME") "" then mret true else
  mountRuntimeWithManager f (if String.eqb (getenv "RUNTIME_MANAGER_PATH") "" then BasePath cfg else getenv "RUNTIME_MANAGER_PATH").

(** ** The set-up of a job *)

(** [src/internal/joblet/core/filesystem/isolator.go:300-317 JobFilesystem.Setup] *)
Definition setup_gpu_libraries (f : JobFilesystem) : P unit :=
  match GPUIndices f with
  | [] => mret tt
  | _ =>
      libs ← discoverDriverLibraries;
      _ ← injectDriverLibraries f libs;
      match CUDAMountPaths f with [] => mret tt | paths => _ ← MountCUDALibraries f paths; mret tt end
  end.

(** What happens before the change of root, and the file system it works on.
    [src/internal/joblet/core/filesystem/isolator.go:278-351 JobFilesystem.Setup] *)
Definition build_root (f : JobFilesystem) : P bool :=
  b ← createEssentialDirs f;
  if negb b then mret false else
  b ← createEssentialFiles f;
  if negb b then mret false else
  b ← mountAllowedDirs f;
  if negb b then mret false else
  b ← mountRuntime f;
  if negb b then mret false else
  _ ← setup_gpu_libraries f;
  b ← mountVolumes f;
  if negb b then mret false else
  _ ← setup_work f;
  _ ← mountPipesDirectory f;
  setupTmpDir f.

(** The settings the environment adds.
    [src/internal/joblet/core/filesystem/isolator.go:299-321 JobFilesystem.Setup] *)
Definition load_environment (f : JobFilesystem) : JobFilesystem :=
  let f := loadGPUFromEnvironment f in
  match Volumes f with [] => loadVolumesFromEnvironment f | _ => f end.

(** [src/internal/joblet/core/filesystem/isolator.go JobFilesystem.Setup] *)
Definition Setup (f : JobFilesystem) : P bool :=
  if negb (validateInJobContext f) then mret false else
  let f := load_environment f in
  b ← build_root f;
  if negb b then mret false else
  b ← performChroot f;
  if negb b then mret false else
  b ← mountEssentialFS;
  if negb b then mret false else
  match GPUIndices f with [] => mret true | g => CreateGPUDeviceNodes g end.

(** ** The set-up of a runtime build *)

Definition coreBuilderDirs : list string :=
  ["bin"; "sbin"; "lib"; "usr"; "etc"; "var"; "home"; "root"; "proc"; "dev"; "sys"; "tmp"; "work"; "opt"].
Definition optionalBuilderDirs : list string := ["lib64"; "lib32"; "run"; "srv"; "media"; "mnt"; "boot"].

(** [src/internal/joblet/core/filesystem/isolator.go JobFilesystem.createBuilderDirs] *)
Definition createBuilderDirs (f : JobFilesystem) : P bool :=
  _ ← all (λ d, try_ (Mkdir (Join_path [RootDir f; d]))) coreBuilderDirs;
  _ ← all (λ d, i ← ask (λ t, stat t ("/" +:+ d)%string);
             match i with IMissing | IError => mret true | _ => try_ (Mkdir (Join_path [RootDir f; d])) end) optionalBuilderDirs;
  mret true.

(** A host directory bound, writable, at its target; errors pass over it.
    [src/internal/joblet/core/filesystem/isolator.go:1578-1589 JobFilesystem.mountHostFilesystem] *)
Definition bind_host (hostPath targetPath : string) : P unit :=
  b ← try_ (Mkdir targetPath);
  if negb b then mret tt else _ ← try_ (Mount hostPath targetPath "" Bind ""); mret tt.

(** [src/internal/joblet/core/filesystem/isolator.go JobFilesystem.mountOptDirectory] *)
Definition mountOptDirectory (hostOptPath targetOptPath : string) : P bool :=
  b ← try_ (Mkdir targetOptPath);
  if negb b then mret false else
  entries ← ask (λ t, readDir t hostOptPath);
  match entries with
  | None => mret false
  | Some entries =>
      _ ← all (λ e, if String.eqb (e_name e) "joblet" then mret tt
                    else bind_host (Join_path [hostOptPath; e_name e]) (Join_path [targetOptPath; e_name e])) entries;
      mret true
  end.

(** [src/internal/joblet/core/filesystem/isolator.go:1557-1590 JobFilesystem.mountHostFilesystem] *)
Definition mount_host_entry (f : JobFilesystem) (name : string) : P unit :=
  let hostPath := ("/" +:+ name)%string in
  let targetPath := Join_path [RootDir f; name] in
  if bool_decide (name ∈ ["proc"; "sys"; "dev"]%string) then mret tt
  else if String.eqb name "opt" then _ ← mountOptDirectory hostPath targetPath; mret tt
  else if String.eqb name "tmp" then mret tt
  else bind_host hostPath targetPath.

(** [src/internal/joblet/core/filesystem/isolator.go JobFilesystem.mountHostFilesystem] *)
Definition mountHostFilesystem (f : JobFilesystem) : P bool :=
  entries ← ask (λ t, readDir t "/"%string);
  match entries with
  | None => mret false
  | Some entries => _ ← all (λ e, mount_host_entry f (e_name e)) entries; mret true
  end.

(** [src/internal/joblet/core/filesystem/isolator.go JobFilesystem.mountRuntimesDirectory] *)
Definition mountRuntimesDirectory (f : JobFilesystem) : P bool :=
  let target := Join_path [RootDir f; "opt"%string; "joblet"%string; "runtimes"%string] in
  b ← try_ (Mkdir target);
  if negb b then mret false else try_ (Mount (BasePath cfg) target "" Bind "").

Definition lines (l : list string) : string := String.concat "" ((λ s, s +:+ nl) <$> l).

Definition builder_resolv_conf : string := lines
  ["# DNS configuration for Joblet builder chroot";
   "# Enhanced DNS for reliable package downloads during runtime installation";
   "nameserver 8.8.8.8"; "nameserver 8.8.4.4"; "nameserver 1.1.1.1"; "nameserver 1.0.0.1"; "nameserver 208.67.222.222";
   "nameserver 208.67.220.220"; "search ."; "options ndots:0 timeout:3 attempts:3 rotate"].
Definition builder_hosts : string := lines
  ["127.0.0.1   localhost"; "::1         localhost ip6-localhost ip6-loopback"; "fe00::0     ip6-localnet"; "ff00::0     ip6-mcastprefix";
   "ff02::1     ip6-allnodes"; "ff02::2     ip6-allrouters"].

(** [src/internal/joblet/core/filesystem/isolator.go JobFilesystem.createBuilderEssentialFiles] *)
Definition createBuilderEssentialFiles : P bool :=
  content ← ask (λ t, readFile t "/opt/joblet/chroot-resolv.conf"%string);
  b ← try_ (WriteFile "/etc/resolv.conf" (default builder_resolv_conf content));
  if negb b then mret false else try_ (WriteFile "/etc/hosts" builder_hosts).

(** [src/internal/joblet/core/filesystem/isolator.go JobFilesystem.SetupBuilder] *)
Definition SetupBuilder (f : JobFilesystem) : P bool :=
  if negb (validateInJobContext f) then mret false else
  b ← createBuilderDirs f;
  if negb b then mret false else
  b ← mountHostFilesystem f;
  if negb b then mret false else
  b ← mountRuntimesDirectory f;
  if negb b then mret false else
  b ← setupTmpDir f;
  if negb b then mret false else
  b ← performChroot f;
  if negb b then mret false else
  _ ← createBuilderEssentialFiles;
  mountEssentialFS.

(** ** Cleaning up and the init binary *)

(** [src/internal/joblet/core/filesystem/isolator.go JobFilesystem.Cleanup] *)
Definition Cleanup (f : JobFilesystem) : P unit :=
  _ ← try_ (Unmount (Join_path [RootDir f; "work-limited"%string]));
  _ ← try_ (RemoveAll (RootDir f));
  _ ← try_ (RemoveAll (JobTmpDir f));
  mret tt.

(** [src/internal/joblet/core/filesystem/isolator.go JobFilesystem.PrepareInitBinary] *)
Definition PrepareInitBinary (f : JobFilesystem) (hostBinaryPath : string) : P bool :=
  b ← try_ (Mkdir (Join_path [RootDir f; "sbin"%string]));
  if negb b then mret false else
  data ← ask (λ t, readFile t hostBinaryPath);
  match data with
  | None => mret false
  | Some data => try_ (WriteFile (Join_path [RootDir f; "sbin"%string; "init"%string]) data)
  end.

(** ** The isolation of the init process *)

(** [src/internal/modes/isolation/isolation.go Isolator.makePrivate] *)
Definition makePrivate : P bool := try_ (Mount "" "/" "" Private "").

(** [src/internal/modes/isolation/isolation.go Isolator.remountProc] *)
Definition remountProc : P bool :=
  _ ← try_ (Mkdir "/proc");
  _ ← try_ (Unmount "/proc");
  try_ (Mount "proc" "/proc" "proc" Own "").

(** [src/internal/modes/isolation/isolation.go Isolator.setupFilesystemIsolation] *)
Definition setupFilesystemIsolation : P bool :=
  let jobID := getenv "JOB_ID" in
  if String.eqb jobID "" then mret false else
  jobFS ← CreateJobFilesystem jobID;
  match jobFS with
  | None => mret false
  | Some f => if String.eqb (getenv "JOB_TYPE") "runtime-build" then SetupBuilder f else Setup f
  end.

(** [verifyIsolation], whose findings are only logged, is left out.
    [src/internal/modes/isolation/isolation.go Isolator.setupLinux] *)
Definition setupLinux : P bool :=
  if negb (pid =? 1) then mret true else
  _ ← makePrivate;
  b ← setupFilesystemIsolation;
  if negb b then mret false else remountProc.

(** ** What a program may call *)

(** Every call the program makes satisfies [Q]. *)
Definition emits {A} (Q : call → Prop) (m : P A) : Prop :=
  ∀ t, ∃ new, (m t).2 = t ++ new ∧ Forall (λ e, Q e.1) new.

Lemma emits_ret {A} (Q : call → Prop) (a : A) : emits Q (mret a).
Proof. intros t. exists []. by rewrite app_nil_r. Qed.
Lemma emits_ask {A} (Q : call → Prop) (q : trace → A) : emits Q (ask q).
Proof. intros t. exists []. by rewrite app_nil_r. Qed.
Lemma emits_do (Q : call → Prop) c : Q c → emits Q (do_ c).
Proof. intros HQ t. exists [(c, answers t c)]. split; [done|by apply Forall_singleton]. Qed.
Lemma emits_bind {A B} (Q : call → Prop) (m : P A) (k : A → P B) : emits Q m → (∀ a, emits Q (k a)) → emits Q (m ≫= k).
Proof.
  intros Hm Hk t. destruct (Hm t) as (n1 & E1 & F1). unfold mbind, P_bind.
  destruct (m t) as [a t1]. simpl in E1. subst t1. destruct (Hk a (t ++ n1)) as (n2 & -> & F2).
  exists (n1 ++ n2). by rewrite app_assoc, Forall_app.
Qed.
Lemma emits_try (Q : call → Prop) c : Q c → emits Q (try_ c).
Proof. intros HQ. apply emits_bind; [by apply emits_do|intros a; apply emits_ret]. Qed.
Lemma emits_each {A} (Q : call → Prop) (f : A → P bool) l : Forall (λ x, emits Q (f x)) l → emits Q (each f l).
Proof.
  induction 1 as [|x l Hx Hl IH]; simpl; [apply emits_ret|]. apply emits_bind; [done|]. intros []; [done|apply emits_ret].
Qed.
Lemma emits_all {A B} (Q : call → Prop) (f : A → P B) l : Forall (λ x, emits Q (f x)) l → emits Q (all f l).
Proof. induction 1 as [|x l Hx Hl IH]; simpl; [apply emits_ret|]. by apply emits_bind. Qed.
Lemma emits_mono {A} (Q Q' : call → Prop) (m : P A) : (∀ c, Q c → Q' c) → emits Q m → emits Q' m.
Proof.
  intros HQ Hm t. destruct (Hm t) as (new & E & F). exists new. split; [done|].
  eapply Forall_impl; [exact F|]. intros e. apply HQ.
Qed.

(** One walk over the structure of a program; the calls themselves are left. *)
Ltac emits_tac :=
  repeat first
    [ apply emits_ret | apply emits_ask | apply emits_try | apply emits_do
    | apply emits_bind; [|intros ?]
    | match goal with
      | |- emits _ (if ?b then _ else _) => destruct b
      | |- emits _ (match ?x with _ => _ end) => destruct x
      end ].

Lemma emits_then (Q : call → Prop) (m k : P bool) : emits Q m → emits Q k → emits Q (b ← m; if negb b then mret false else k).
Proof. intros Hm Hk. apply emits_bind; [done|]. intros []; [done|apply emits_ret]. Qed.

(** Like [emits], for a program whose answer tells about the calls as well. *)
Lemma emits_run {A} (Q : call → Prop) (m : P A) t : emits Q m → ∃ a new, m t = (a, t ++ new) ∧ Forall (λ e, Q e.1) new.
Proof. intros Hm. destruct (Hm t) as (new & E & F). destruct (m t) as [a t']. simpl in E. subst t'. eauto. Qed.

(** ** The root is built inside itself, then entered *)

Section confined.
Context (f : JobFilesystem) (wr : list word).
Hypothesis root_is : RootDir f = path_of wr.
Hypothesis root_plain : Forall plain wr.
Hypothesis root_some : wr ≠ [].

(** What may be called while the root is built: everything is made in the root; only
    directories may be made outside, the root's own parent and the host's directories for
    the job's temporary files and pipes. *)
Definition building (c : call) : Prop :=
  match c with
  | Mkdir p => inside wr p ∨ p = Dir (RootDir f) ∨ p = JobTmpDir f ∨ p = host_pipes
  | WriteFile p _ | Mount _ p _ _ _ | Unmount p | Symlink _ p | Remove p => inside wr p
  | Chdir _ | Chroot _ | Mknod _ _ | Chmod _ | RemoveAll _ => False
  end.

(** What may be called once the root has changed: the devices every job has, and those of
    the GPUs it was given. *)
Definition settling (gpus : list Z) (c : call) : Prop :=
  match c with
  | Mkdir p => p = "/dev"%string
  | Mknod p d =>
      (p, d) ∈ [("/dev/null"%string, makedev 1 3); ("/dev/zero"%string, makedev 1 5); ("/dev/random"%string, makedev 1 8);
                ("/dev/urandom"%string, makedev 1 9)] ∨
      gpus ≠ [] ∧ ((p, d) ∈ [("/dev/nvidiactl"%string, makedev 195 255); ("/dev/nvidia-uvm"%string, makedev 237 0);
                             ("/dev/nvidia-uvm-tools"%string, makedev 237 1)] ∨
                   ∃ i, i ∈ gpus ∧ p = ("/dev/nvidia" +:+ Itoa i)%string ∧ d = makedev 195 (i mod 2 ^ 32))
  | Chmod p => p ∈ ["/dev/null"; "/dev/zero"; "/dev/random"; "/dev/urandom"]%string
  | Chdir _ => True
  | _ => False
  end.

Lemma in_root_inside p : dotdot_free p → inside wr (in_root f p).
Proof. intros H. unfold in_root. rewrite root_is. apply Join_inside; [done|done|]. apply Forall_singleton. by apply TrimPrefix_free. Qed.
Lemma at_root p : dotdot_free p → inside wr (Join_path [RootDir f; p]).
Proof. intros H. rewrite root_is. apply Join_inside; [done|done|]. by apply Forall_singleton. Qed.
Lemma at_root2 p q : dotdot_free p → dotdot_free q → inside wr (Join_path [RootDir f; p; q]).
Proof. intros Hp Hq. rewrite root_is. apply Join_inside; [done|done|]. apply Forall_cons. split; [done|]. by apply Forall_singleton. Qed.
Lemma dir_building p : inside wr p → building (Mkdir (Dir p)).
Proof. intros H. simpl. destruct (Dir_inside wr p root_plain root_some H) as [|E]; [by left|]. right. left. by rewrite E, root_is. Qed.

Lemma mount_read_only_builds source : dotdot_free source → emits building (mount_read_only f source).
Proof.
  intros H%in_root_inside. unfold mount_read_only. emits_tac; first [exact H | by apply dir_building | by left].
Qed.

Lemma mount_all_builds paths : Forall dotdot_free paths → emits building (all (mount_read_only f) paths).
Proof. intros H. apply emits_all. eapply Forall_impl; [exact H|]. intros p. apply mount_read_only_builds. Qed.
Context (cwd_abs : IsAbs cwd = true).
(** A directory lists names. *)
Context (names : ∀ t d es, readDir t d = Some es → Forall (λ e, plain (bytes (e_name e))) es).

Lemma volume_inside name p : ValidatePathWithinBase cwd (Join_path [RootDir f; "volumes"%string]) name = Ok p →
  inside wr (Join_path [RootDir f; "volumes"%string; name]).
Proof.
  intros H. destruct (decide (name = ""%string)) as [->|Hne]; [apply at_root2; refine (bool_decide_unpack _ _); vm_compute; exact I|].
  assert (Hv : plain (bytes "volumes")) by (refine (bool_decide_unpack _ _); vm_compute; exact I).
  rewrite root_is in H |- *. change "volumes"%string with (of_bytes (bytes "volumes")) in H |- *.
  rewrite Join_plain in H by done. rewrite Join_path3 by done.
  apply (inside_more wr [bytes "volumes"]); [by apply Forall_singleton|].
  apply (guard_inside _ cwd name p); [done| |by destruct wr|done|done].
  apply Forall_app. split; [done|by apply Forall_singleton].
Qed.

Lemma mountVolumes_builds g : RootDir g = RootDir f → emits building (mountVolumes g).
Proof.
  intros E. unfold mountVolumes. emits_tac. apply emits_all, Forall_forall. intros v _. unfold mountSingleVolume. rewrite E.
  destruct (ValidatePathWithinBase _ _ _) eqn:Hv; emits_tac; first [by eapply volume_inside | by left; eapply volume_inside].
Qed.
Lemma driver_library lib t : lib ∈ (discoverDriverLibraries t).1 →
  ∃ ws w, Forall plain ws ∧ ws ≠ [] ∧ plain w ∧ lib = path_of (ws ++ [w]).
Proof.
  unfold discoverDriverLibraries, ask. cbn [fst].
  assert (Hfold : ∀ l acc, lib ∈ foldl (λ libs full, if existsb (String.eqb full) libs then libs else libs ++ [full]) acc l → lib ∈ acc ∨ lib ∈ l).
  { induction l as [|x l IH]; intros acc; simpl; [by left|]. intros [H|H]%IH; [|by right; apply elem_of_cons; right].
    destruct (existsb _ _); [by left|]. apply elem_of_app in H as [H|H%list_elem_of_singleton]; [by left|]. subst x. right. apply elem_of_cons. by left. }
  intros [H%elem_of_nil|H]%Hfold; [done|]. apply list_elem_of_In, in_flat_map in H as (dir & Hd & H). apply list_elem_of_In in H.
  destruct (readDir t dir) as [es|] eqn:Er; [|by apply elem_of_nil in H]. apply names in Er.
  apply list_elem_of_omap in H as (e & He & Hlib). apply (proj1 (Forall_forall _ _) Er) in He.
  assert (∃ ws, Forall plain ws ∧ ws ≠ [] ∧ dir = path_of ws) as (ws & Hw & Hn & ->).
  { exists (split_bytes "/" (drop 1 (bytes dir))). apply list_elem_of_In in Hd. unfold driverLibraryDirs in Hd.
    repeat (apply elem_of_cons in Hd as [->|Hd]; [repeat split; refine (bool_decide_unpack _ _); vm_compute; exact I|]).
    by apply elem_of_nil in Hd. }
  exists ws, (bytes (e_name e)). destruct (_ || _); [done|]. destruct (existsb _ _); [|done]. injection Hlib as <-.
  split_and!; [done..|]. rewrite <- (of_bytes_bytes (e_name e)) at 1. by apply Join_plain.
Qed.

Lemma soname_bytes_sub l s : soname_bytes l = Some s → ∀ c, c ∈ s → c ∈ l ∨ c ∈ bytes ".so.".
Proof.
  revert s. induction l as [|x l IH]; intros s; cbn [soname_bytes].
  { case_decide; [intros [= <-]; by right|done]. }
  case_decide; [intros [= <-]; by right|]. intros Hs. apply fmap_Some in Hs as (s' & Hs & ->). intros c [->|Hc]%elem_of_cons.
  - left. apply elem_of_cons. by left.
  - destruct (IH s' Hs c Hc); [left; apply elem_of_cons; by right|by right].
Qed.

Lemma driverSoname_free w : "/"%char ∉ w → dotdot_free (driverSoname (of_bytes w)).
Proof.
  intros Hw. unfold driverSoname. rewrite bytes_of_bytes. assert (H0 : dotdot_free "") by (refine (bool_decide_unpack _ _); vm_compute; exact I).
  destruct (soname_bytes w) as [l|] eqn:E; [|done]. cbv zeta. destruct (String.eqb _ _); [done|]. unfold dotdot_free. rewrite bytes_of_bytes.
  assert (Hl : "/"%char ∉ l ++ ["1"%char]).
  { intros [H|H%list_elem_of_singleton]%elem_of_app; [|done]. destruct (soname_bytes_sub _ _ E _ H) as [|Hs]; [done|].
    revert Hs. refine (bool_decide_unpack _ _). vm_compute. exact I. }
  rewrite split_bytes_word by done. intros Hd%list_elem_of_singleton. apply (f_equal (@rev _)) in Hd. rewrite rev_app_distr in Hd. done.
Qed.

Lemma injectDriverLibrary_builds lib ws w : Forall plain ws → ws ≠ [] → plain w → lib = path_of (ws ++ [w]) →
  emits building (injectDriverLibrary f lib).
Proof.
  intros Hw Hn Hp ->. assert (Hww : Forall plain (ws ++ [w])) by (apply Forall_app; split; [done|by apply Forall_singleton]).
  assert (Hi : in_root f (path_of (ws ++ [w])) = path_of ((wr ++ ws) ++ [w])).
  { unfold in_root. rewrite root_is, <- app_assoc, <- (Join_path_of wr (ws ++ [w])) by (done || by destruct ws). do 2 f_equal. f_equal.
    unfold TrimPrefix. change (HasPrefix ?p "/") with (IsAbs p). rewrite IsAbs_path_of. unfold path_of. by rewrite bytes_of_bytes. }
  assert (Hd : Dir (path_of ((wr ++ ws) ++ [w])) = path_of (wr ++ ws)).
  { apply Dir_plain; [by apply Forall_app|done|by destruct wr]. }
  assert (H1 : inside wr (path_of ((wr ++ ws) ++ [w]))) by (exists (ws ++ [w]); by rewrite app_assoc).
  assert (H2 : inside wr (path_of (wr ++ ws))) by (by exists ws).
  unfold injectDriverLibrary. rewrite Hi, Hd, Base_plain by done.
  assert (H3 : inside wr (Join_path [path_of (wr ++ ws); driverSoname (of_bytes w)])).
  { apply (inside_more wr ws); [done|]. apply Join_inside; [by apply Forall_app|by destruct wr|]. apply Forall_singleton.
    apply driverSoname_free. by destruct Hp as (_ & _ & _ & ?). }
  emits_tac; first [exact H1 | exact H3 | by left].
Qed.
Context (allowed_free : Forall dotdot_free (AllowedMounts cfg)).
Context (cuda_free : Forall dotdot_free (CUDAMountPaths f)).
Context (runtime_free : ∀ t p ms env, runtimeConfig t p = Some (ms, env) → Forall (λ m, dotdot_free (rm_Target m)) ms).
Context (id_free : dotdot_free (getenv "JOB_ID")).

Ltac constant_free := refine (bool_decide_unpack _ _); vm_compute; exact I.

Lemma createEssentialDirs_builds : emits building (createEssentialDirs f).
Proof.
  apply emits_each, Forall_forall. intros d Hd. emits_tac. left. apply at_root. revert d Hd. apply Forall_forall. constant_free.
Qed.

Lemma createEssentialFiles_builds : emits building (createEssentialFiles f).
Proof.
  assert (He : plain (bytes "etc")) by constant_free. unfold createEssentialFiles. rewrite root_is.
  change "etc"%string with (of_bytes (bytes "etc")). rewrite (Join_plain wr _ root_plain root_some He).
  assert (Hw : Forall plain (wr ++ [bytes "etc"])) by (apply Forall_app; split; [done|by apply Forall_singleton]).
  emits_tac; simpl; [left; by exists [bytes "etc"]; split; [apply Forall_singleton|]| |];
    (apply (inside_more wr [bytes "etc"]); [by apply Forall_singleton|]; apply Join_inside; [done|by destruct wr|apply Forall_singleton; constant_free]).
Qed.

Lemma usable_source_builds p : emits building (usable_source p).
Proof. unfold usable_source. emits_tac. Qed.

Lemma mountRuntimeWithManager_builds base : emits building (mountRuntimeWithManager f base).
Proof.
  unfold mountRuntimeWithManager. destruct (resolveRuntime _ _) as [dir|]; [|emits_tac].
  intros t. unfold mbind, P_bind, ask. destruct (runtimeConfig t _) as [[ms env]|] eqn:E; [|by apply emits_ret].
  apply runtime_free in E. revert t. change (emits building
    match ms with
    | [] => try_ (Mount dir (RootDir f) "" Bind "")
    | _ => b ← each (prepare_target f dir) ms;
           if negb b then mret false else
           _ ← match env with Some env => writeRuntimeEnvironment f env | None => mret true end; each (mount_target f dir) ms
    end).
  assert (H1 : Forall (λ m, emits building (prepare_target f dir m)) ms).
  { eapply Forall_impl; [exact E|]. intros m Hm%in_root_inside. unfold prepare_target, usable_source.
    emits_tac; first [exact Hm | by apply dir_building | by left]. }
  assert (H2 : Forall (λ m, emits building (mount_target f dir m)) ms).
  { eapply Forall_impl; [exact E|]. intros m Hm%in_root_inside. unfold mount_target, usable_source. emits_tac; exact Hm. }
  destruct ms as [|m ms]; [apply emits_try; rewrite root_is; apply inside_root|].
  apply emits_bind; [by apply emits_each|]. intros []; [|apply emits_ret]. apply emits_bind; [|intros _; by apply emits_each].
  unfold writeRuntimeEnvironment. emits_tac; [left; apply at_root; constant_free|apply at_root2; constant_free].
Qed.

Lemma gpu_libraries_build : emits building (setup_gpu_libraries f).
Proof.
  unfold setup_gpu_libraries. destruct (GPUIndices f); [emits_tac|]. intros t.
  assert (H : emits building (_ ← injectDriverLibraries f (discoverDriverLibraries t).1;
    match CUDAMountPaths f with [] => mret tt | paths => _ ← MountCUDALibraries f paths; mret tt end)).
  { apply emits_bind.
    - apply emits_all, Forall_forall. intros lib (ws & w & ? & ? & ? & ?)%driver_library. by eapply injectDriverLibrary_builds.
    - intros _. assert (Hc := mount_all_builds (CUDAMountPaths f) cuda_free). unfold MountCUDALibraries.
      destruct (CUDAMountPaths f); [apply emits_ret|].
      apply emits_bind; [|intros _; apply emits_ret]. apply emits_bind; [exact Hc|intros _; apply emits_ret]. }
  exact (H t).
Qed.

Lemma setup_work_builds : emits building (setup_work f).
Proof.
  unfold setup_work, setupLimitedWorkDir. emits_tac; first [left; apply at_root; constant_free | apply at_root; constant_free].
Qed.

Lemma mountPipesDirectory_builds : emits building (mountPipesDirectory f).
Proof.
  assert (H : inside wr (Join_path [RootDir f; "pipes"%string; getenv "JOB_ID"])) by (apply at_root2; [constant_free|done]).
  unfold mountPipesDirectory. emits_tac; first [exact H | by apply dir_building | by left | by right; right; right].
Qed.

Lemma setupTmpDir_builds : emits building (setupTmpDir f).
Proof.
  unfold setupTmpDir. emits_tac; first [by right; right; left | left; apply at_root; constant_free | apply at_root; constant_free].
Qed.

Lemma build_root_builds : emits building (build_root f).
Proof.
  unfold build_root. apply emits_then; [by apply createEssentialDirs_builds|].
  apply emits_then; [by apply createEssentialFiles_builds|].
  apply emits_then; [apply emits_bind; [by apply mount_all_builds|intros _; apply emits_ret]|].
  apply emits_then; [unfold mountRuntime; case_match; [apply emits_ret|apply mountRuntimeWithManager_builds]|].
  apply emits_bind; [apply gpu_libraries_build|intros _]. apply emits_then; [by apply mountVolumes_builds|].
  apply emits_bind; [apply setup_work_builds|intros _]. apply emits_bind; [apply mountPipesDirectory_builds|intros _].
  apply setupTmpDir_builds.
Qed.
End confined.

Lemma root_same f : RootDir (load_environment f) = RootDir f.
Proof.
  unfold load_environment, loadVolumesFromEnvironment, loadGPUFromEnvironment.
  repeat (case_match; try done).
Qed.

Lemma mountEssentialFS_settles g : emits (settling g) mountEssentialFS.
Proof.
  assert (H : ∀ needed p n, (p, makedev 1 n) ∈ [("/dev/null"%string, makedev 1 3); ("/dev/zero"%string, makedev 1 5);
      ("/dev/random"%string, makedev 1 8); ("/dev/urandom"%string, makedev 1 9)] →
      p ∈ ["/dev/null"; "/dev/zero"; "/dev/random"; "/dev/urandom"]%string → emits (settling g) (essential_device needed p n)).
  { intros needed p n H1 H2. unfold essential_device. emits_tac; first [by left | done]. }
  unfold mountEssentialFS, createEssentialDevices. apply emits_bind; [|intros _; apply emits_ret].
  apply emits_bind; [by apply emits_do|]. intros a.
  assert (He : emits (settling g) (each (λ d, essential_device d.1.1 d.1.2 d.2)
        [(true, "/dev/null"%string, 3); (true, "/dev/zero"%string, 5); (false, "/dev/random"%string, 8); (false, "/dev/urandom"%string, 9)])).
  { apply emits_each. repeat (apply Forall_cons; split; [apply H; refine (bool_decide_unpack _ _); vm_compute; exact I|]). constructor. }
  destruct a; [exact He|exact He|apply emits_ret].
Qed.

Lemma CreateGPUDeviceNodes_settles g : g ≠ [] → emits (settling g) (CreateGPUDeviceNodes g).
Proof.
  intros Hg. unfold CreateGPUDeviceNodes. apply emits_bind; [by apply emits_do|]. intros a.
  assert (He : emits (settling g) (_ ← all (λ d, do_ (Mknod d.1 d.2)) [("/dev/nvidiactl"%string, makedev 195 255); ("/dev/nvidia-uvm"%string, makedev 237 0);
                                          ("/dev/nvidia-uvm-tools"%string, makedev 237 1)];
      _ ← all (λ i, do_ (Mknod ("/dev/nvidia" +:+ Itoa i) (makedev 195 (i mod 2 ^ 32)))) g; mret true)).
  { apply emits_bind; [|intros _; apply emits_bind; [|intros _; apply emits_ret]].
    - apply emits_all, Forall_forall. intros [p d] H. apply emits_do. right. split; [done|]. by left.
    - apply emits_all, Forall_forall. intros i Hi. apply emits_do. right. split; [done|]. right. by exists i. }
  destruct a; [exact He|exact He|apply emits_ret].
Qed.

(** How far the change of root went: not tried, refused, or done and followed by the
    calls that settle the job in. *)
Inductive entering (root : string) (gpus : list Z) : bool → trace → Prop :=
| ENot : entering root gpus false []
| ENoDir a : a ≠ AOk → entering root gpus false [(Chdir root, a)]
| ERefused a : a ≠ AOk → entering root gpus false [(Chdir root, AOk); (Chroot root, a)]
| EEntered ok rest : Forall (λ e, settling gpus e.1) rest → entering root gpus ok ((Chdir root, AOk) :: (Chroot root, AOk) :: rest).

Lemma bind_run {A B} (m : P A) (k : A → P B) t a t' : m t = (a, t') → (m ≫= k) t = k a t'.
Proof. intros E. unfold mbind, P_bind. by rewrite E. Qed.
Lemma then_run {A B} (m : P A) (k : P B) t : (_ ← m; k) t = k (m t).2.
Proof. unfold mbind, P_bind. by destruct (m t). Qed.
Lemma try_run c t : try_ c t = (is_fine (answers t c), t ++ [(c, answers t c)]).
Proof. done. Qed.

Lemma enter_root f g : emits (settling g) mountEssentialFS → (g ≠ [] → emits (settling g) (CreateGPUDeviceNodes g)) → ∀ t, ∃ ok new,
  (b ← performChroot f; if negb b then mret false else b ← mountEssentialFS; if negb b then mret false else
   match g with [] => mret true | _ => CreateGPUDeviceNodes g end) t = (ok, t ++ new) ∧ entering (RootDir f) g ok new.
Proof.
  intros He Hg t.
  assert (Hk : emits (settling g) (b ← mountEssentialFS; if negb b then mret false else match g with [] => mret true | _ => CreateGPUDeviceNodes g end)).
  { apply emits_then; [done|]. destruct g; [apply emits_ret|by apply Hg]. }
  unfold performChroot. unfold mbind, P_bind. rewrite try_run. destruct (answers t (Chdir (RootDir f))) eqn:E1.
  2,3: by eexists _, _; split; [reflexivity|constructor].
  cbn [is_fine negb]. rewrite try_run. set (t1 := t ++ _). destruct (answers t1 (Chroot (RootDir f))) eqn:E2.
  2,3: eexists _, _; split; [unfold t1; rewrite <- app_assoc; reflexivity|by constructor].
  cbn [is_fine negb]. set (t2 := t1 ++ _).
  assert (H : emits (settling g) (b ← (b ← try_ (Chdir (if String.eqb (WorkspaceDir cfg) "" then "/work" else WorkspaceDir cfg));
    if b : bool then mret true else b ← try_ (Chdir "/tmp"); if b : bool then mret true else try_ (Chdir "/"));
    if negb b then mret false else b ← mountEssentialFS; if negb b then mret false else match g with [] => mret true | _ => CreateGPUDeviceNodes g end)).
  { apply emits_then; [|done]. apply emits_bind; [by apply emits_try|]. intros []; [apply emits_ret|].
    apply emits_bind; [by apply emits_try|]. intros []; [apply emits_ret|by apply emits_try]. }
  destruct (emits_run _ _ t2 H) as (ok & new & E & F). exists ok, ((Chdir (RootDir f), AOk) :: (Chroot (RootDir f), AOk) :: new).
  split; [|by constructor]. replace (t ++ (Chdir (RootDir f), AOk) :: (Chroot (RootDir f), AOk) :: new) with (t2 ++ new); [exact E|].
  unfold t2, t1. by rewrite <- !app_assoc.
Qed.

(** C32 When the allowed mounts, the mounts for CUDA, the mount targets of the runtimes and
    the id of the job have no "..", the set-up of a job has two phases. While the root is
    built every file, mount, link and unmount is in the root, and only directories are made
    outside, for the temporary files and the pipes; no device is made. Then the root is
    entered, once, and after that only the standard devices and those of the GPUs the job
    was given are made. The set-up succeeds only when the root was entered. (A runtime with
    ".." in a target mounts outside: [runtime_target_escapes].) *)
Theorem root_built_then_entered f wr t :
  RootDir f = path_of wr → Forall plain wr → wr ≠ [] → IsAbs cwd = true →
  (∀ t d es, readDir t d = Some es → Forall (λ e, plain (bytes (e_name e))) es) →
  Forall dotdot_free (AllowedMounts cfg) → Forall dotdot_free (CUDAMountPaths (load_environment f)) →
  (∀ t p ms env, runtimeConfig t p = Some (ms, env) → Forall (λ m, dotdot_free (rm_Target m)) ms) →
  dotdot_free (getenv "JOB_ID") →
  ∃ ok built entered, Setup f t = (ok, t ++ built ++ entered) ∧
    Forall (λ e, building (load_environment f) wr e.1) built ∧
    entering (RootDir f) (GPUIndices (load_environment f)) ok entered.
Proof.
  intros Hr Hp Hn Hc Hd Ha Hcuda Hrt Hid. unfold Setup. destruct (negb _); [by exists false, [], []; rewrite app_nil_r; split_and!; constructor|].
  cbv zeta. set (g := load_environment f) in *. assert (Hr' : RootDir g = path_of wr) by (unfold g; by rewrite root_same).
  destruct (emits_run _ (build_root g) t (build_root_builds g wr Hr' Hp Hn Hc Hd Ha Hcuda Hrt Hid)) as (b & built & E & F).
  rewrite (bind_run _ _ _ _ _ E). destruct b; cbn [negb].
  - destruct (enter_root g (GPUIndices g) (mountEssentialFS_settles _) (CreateGPUDeviceNodes_settles _) (t ++ built)) as (ok & new & E2 & H2).
    exists ok, built, new. rewrite app_assoc. split_and!; [|done|unfold g in *; by rewrite root_same in H2].
    etransitivity; [|exact E2]. by destruct (GPUIndices g).
  - exists false, built, []. rewrite app_nil_r. split_and!; [done|done|constructor].
Qed.

(** Outside a job's own process tree nothing is touched: unless it is the first process
    of its namespace the isolation does nothing at all, and neither set-up makes a call
    when, moreover, the job identifier of the environment is not that of the file system. *)
Theorem host_untouched f jobID t :
  (pid ≠ 1 → setupLinux t = (true, t) ∧ CreateJobFilesystem jobID t = (None, t)) ∧
  (pid ≠ 1 ∨ getenv "JOB_ID" ≠ JobUUID f → Setup f t = (false, t) ∧ SetupBuilder f t = (false, t)).
Proof.
  split.
  - intros H%Z.eqb_neq. unfold setupLinux, CreateJobFilesystem, validateJobContext. rewrite H. by rewrite andb_false_r.
  - intros H. unfold Setup, SetupBuilder. assert (validateInJobContext f = false) as ->; [|done].
    unfold validateInJobContext. destruct H as [H%Z.eqb_neq|H%String.eqb_neq]; rewrite H; [apply andb_false_r|].
    by rewrite andb_false_r.
Qed.

(** Every bind mount that is made is followed by its remount as read-only. *)
Fixpoint sealed (l : trace) : bool :=
  match l with
  | [] => true
  | (Mount _ p _ Bind _, AOk) :: l =>
      match l with (Mount _ p' _ RemountReadOnly _, _) :: _ => String.eqb p' p | _ => false end && sealed l
  | _ :: l => sealed l
  end.

Lemma sealed_app l1 l2 : sealed l1 = true → sealed l2 = true → sealed (l1 ++ l2) = true.
Proof.
  intros H1 H2. induction l1 as [|[c a] l1 IH]; [done|]. destruct c; try (exact (IH H1)).
  destruct flags; try exact (IH H1). destruct a; try exact (IH H1). simpl in H1 |- *.
  destruct l1 as [|[c' a'] l1]; [done|]. apply andb_true_iff in H1 as [H1 H1']. apply andb_true_iff. split; [exact H1|exact (IH H1')].
Qed.

Definition seals {A} (m : P A) : Prop := ∀ t, ∃ new, (m t).2 = t ++ new ∧ sealed new = true.

Lemma seals_ret {A} (a : A) : seals (mret a).
Proof. intros t. exists []. by rewrite app_nil_r. Qed.
Lemma seals_ask {A} (q : trace → A) : seals (ask q).
Proof. intros t. exists []. by rewrite app_nil_r. Qed.
Lemma seals_bind {A B} (m : P A) (k : A → P B) : seals m → (∀ a, seals (k a)) → seals (m ≫= k).
Proof.
  intros Hm Hk t. destruct (Hm t) as (n1 & E1 & S1). unfold mbind, P_bind. destruct (m t) as [a t1]. simpl in E1. subst t1.
  destruct (Hk a (t ++ n1)) as (n2 & -> & S2). exists (n1 ++ n2). rewrite app_assoc. by split; [|apply sealed_app].
Qed.
Lemma seals_all {A B} (f : A → P B) l : (∀ x, seals (f x)) → seals (all f l).
Proof. intros Hf. induction l as [|x l IH]; simpl; [apply seals_ret|]. by apply seals_bind. Qed.
Lemma seals_try c : (∀ s p fs d, c ≠ Mount s p fs Bind d) → seals (try_ c).
Proof.
  intros Hc t. eexists. split; [reflexivity|]. destruct c as [| |s p fs [] d| | | | | | | |]; try done. by destruct (Hc s p fs d).
Qed.
Lemma seals_mount source p : seals (b ← try_ (Mount source p "" Bind "");
  if negb b then mret tt else _ ← try_ (Mount "" p "" RemountReadOnly ""); mret tt).
Proof.
  intros t. unfold mbind, P_bind. rewrite try_run. destruct (answers t _); cbn [is_fine negb].
  2,3: eexists; split; [reflexivity|done].
  rewrite try_run. eexists. split; [simpl; rewrite <- app_assoc; reflexivity|]. simpl. by rewrite String.eqb_refl.
Qed.

Lemma mount_read_only_seals f source : seals (mount_read_only f source).
Proof.
  unfold mount_read_only. apply seals_bind; [apply seals_ask|]. intros i.
  assert (H : seals (b ← try_ (Mkdir (Dir (in_root f source)));
    if negb b then mret tt else
    i ← ask (λ t, stat t source);
    b ← match i with
        | IMissing | IError => mret false
        | IDir => try_ (Mkdir (in_root f source))
        | IFile => try_ (WriteFile (in_root f source) "")
        end;
    if negb b then mret tt else
    b ← try_ (Mount source (in_root f source) "" Bind "");
    if negb b then mret tt else
    _ ← try_ (Mount "" (in_root f source) "" RemountReadOnly "");
    mret tt)).
  { apply seals_bind; [by apply seals_try|]. intros []; cbn [negb]; [|apply seals_ret].
    apply seals_bind; [apply seals_ask|]. intros i'. apply seals_bind; [destruct i'; by first [apply seals_ret | apply seals_try]|].
    intros []; cbn [negb]; [|apply seals_ret]. apply seals_mount. }
  destruct i; [apply seals_ret|exact H..].
Qed.

(** The host's directories a job may read are read-only in it: after each bind mount of
    an allowed directory, or of a CUDA directory, the very next call remounts it
    read-only, whatever succeeds or fails on the way. *)
Theorem host_directories_sealed f paths t :
  (∃ new, (mountAllowedDirs f t).2 = t ++ new ∧ sealed new = true) ∧
  (∃ new, (MountCUDALibraries f paths t).2 = t ++ new ∧ sealed new = true).
Proof.
  split; (apply seals_bind; [apply seals_all, mount_read_only_seals|intros _; apply seals_ret]).
Qed.

(** *** The devices of the GPUs *)

Lemma parse_format l : l ≠ [] → Forall core_ok l → parse_indices (formatGPUIndices l) = l.
Proof.
  intros Hn Hl. unfold formatGPUIndices, parse_indices. destruct l as [|i0 l0]; [done|]. set (l := i0 :: l0) in *.
  rewrite Split_Join; [|done|by apply Itoa_words]. clearbody l. clear -Hl. set (F := λ part : string, _).
  assert (HF : ∀ i, core_ok i → F (Itoa i) = Some i).
  { intros i Hi. unfold F. assert (in_int64 i) by (unfold core_ok, in_int, min_int in *; lia). rewrite TrimSpace_Itoa, Atoi_Itoa by (done || apply Hi).
    replace (String.eqb (Itoa i) "") with false; [done|]. symmetry. apply String.eqb_neq. intros E.
    assert (H' := Atoi_Itoa i ltac:(done)). rewrite E in H'. vm_compute in H'. done. }
  clearbody F. induction Hl as [|i l Hi Hl IH]; [done|]. rewrite fmap_cons. cbn [omap list_omap]. by rewrite (HF i Hi), IH.
Qed.

(** The devices a job with these GPUs gets. *)
Definition gpu_devices (gpus : list Z) : list (string * Z) :=
  [("/dev/nvidiactl", makedev 195 255); ("/dev/nvidia-uvm", makedev 237 0); ("/dev/nvidia-uvm-tools", makedev 237 1)]%string ++
  ((λ i, ("/dev/nvidia" +:+ Itoa i, makedev 195 (i mod 2 ^ 32))%string) <$> gpus).

Lemma all_calls {A} (g : A → call) l t : (all (λ x, do_ (g x)) l t).2.*1 = t.*1 ++ (g <$> l).
Proof.
  revert t. induction l as [|x l IH]; intros t; simpl; [by rewrite app_nil_r|]. unfold mbind, P_bind, do_. rewrite IH.
  rewrite fmap_app. simpl. by rewrite <- app_assoc.
Qed.

(** C39 When the environment of the init process holds the coordinator's list of GPUs as it
    is formatted, and the directory for the devices can be made, the list read back is the
    same, and the calls that make the devices are, in order, the control devices and one for
    each GPU of the list, whatever the host answers to those calls. *)
Theorem gpu_devices_of_allocation f gpus t :
  gpus ≠ [] → Forall core_ok gpus → getenv "JOB_GPU_INDICES" = formatGPUIndices gpus →
  answers t (Mkdir "/dev") ≠ AFail →
  GPUIndices (load_environment f) = gpus ∧
  (CreateGPUDeviceNodes (GPUIndices (load_environment f)) t).1 = true ∧
  (CreateGPUDeviceNodes (GPUIndices (load_environment f)) t).2.*1 =
    t.*1 ++ Mkdir "/dev" :: ((λ d, Mknod d.1 d.2) <$> gpu_devices gpus).
Proof.
  intros Hn Hg He Ha.
  assert (E : GPUIndices (load_environment f) = gpus).
  { assert (E : GPUIndices (loadGPUFromEnvironment f) = gpus).
    { unfold loadGPUFromEnvironment. simpl. rewrite He. destruct (String.eqb (formatGPUIndices gpus) "") eqn:E0; [|by apply parse_format].
      apply String.eqb_eq in E0. pose proof (parse_format gpus Hn Hg) as Hp. rewrite E0 in Hp. vm_compute in Hp. by subst gpus. }
    rewrite <- E. unfold load_environment, loadVolumesFromEnvironment. by repeat (case_match; try done). }
  rewrite E. split; [done|]. unfold CreateGPUDeviceNodes. rewrite (bind_run (do_ (Mkdir "/dev")) _ t _ _ eq_refl).
  assert (H : ∀ t1, ((_ ← all (λ d, do_ (Mknod d.1 d.2)) (take 3 (gpu_devices gpus));
      _ ← all (λ i, do_ (Mknod ("/dev/nvidia" +:+ Itoa i) (makedev 195 (i mod 2 ^ 32)))) gpus; mret true) t1) =
    (true, (all (λ i, do_ (Mknod ("/dev/nvidia" +:+ Itoa i) (makedev 195 (i mod 2 ^ 32)))) gpus
      (all (λ d, do_ (Mknod d.1 d.2)) (take 3 (gpu_devices gpus)) t1).2).2)).
  { intros t1. by rewrite !then_run. }
  destruct (answers t (Mkdir "/dev")) as [| |] eqn:Em; [| |done]; (split; [by rewrite H|]; rewrite H; cbn [snd]; rewrite !all_calls, fmap_app;
    unfold gpu_devices; rewrite fmap_app, <- list_fmap_compose; simpl; by rewrite <- !app_assoc).
Qed.

(** *** The builder writes to the host *)

(** No mount is taken away or made read-only. *)
Definition keeps_mounts (c : call) : Prop :=
  match c with Unmount _ | Mount _ _ _ RemountReadOnly _ => False | _ => True end.

Section builder.
Hypothesis all_fine : ∀ t c, answers t c = AOk.

Lemma try_fine c t : try_ c t = (true, t ++ [(c, AOk)]).
Proof. by rewrite try_run, all_fine. Qed.

Lemma all_visits {A B} (Q : call → Prop) (g : A → P B) l x e t : x ∈ l → (∀ y, emits Q (g y)) →
  (∀ t, ∃ new, (g x t).2 = t ++ new ∧ e ∈ new) → ∃ new, (all g l t).2 = t ++ new ∧ e ∈ new ∧ Forall (λ e, Q e.1) new.
Proof.
  intros Hx HQ He. revert t. induction l as [|y l IH]; intros t; [by apply elem_of_nil in Hx|]. simpl. rewrite then_run.
  destruct (HQ y t) as (n1 & E1 & F1). rewrite E1. apply elem_of_cons in Hx as [->|Hx].
  - destruct (emits_all Q g l (proj2 (Forall_forall _ _) (λ z _, HQ z)) (t ++ n1)) as (n2 & -> & F2).
    exists (n1 ++ n2). rewrite app_assoc, Forall_app, elem_of_app. split_and!; [done| |done|done]. left.
    destruct (He t) as (n & E & Hn). rewrite E1 in E. by apply app_inv_head in E as <-.
  - destruct (IH Hx (t ++ n1)) as (n2 & -> & He2 & F2). exists (n1 ++ n2). rewrite app_assoc, Forall_app, elem_of_app. split_and!; [done|by right|done|done].
Qed.

Lemma keeps_bind_host h p : emits keeps_mounts (bind_host h p).
Proof. unfold bind_host. emits_tac; exact I. Qed.

Lemma mount_host_keeps f name : emits keeps_mounts (mount_host_entry f name).
Proof.
  unfold mount_host_entry. case_match; [apply emits_ret|]. case_match.
  - apply emits_bind; [|intros _; apply emits_ret]. unfold mountOptDirectory. apply emits_then; [by apply emits_try|].
    apply emits_bind; [apply emits_ask|]. intros [es|]; [|apply emits_ret]. apply emits_bind; [|intros _; apply emits_ret].
    apply emits_all, Forall_forall. intros e _. case_match; [apply emits_ret|apply keeps_bind_host].
  - case_match; [apply emits_ret|apply keeps_bind_host].
Qed.

Lemma builder_dirs_run f t : ∃ new, createBuilderDirs f t = (true, t ++ new) ∧ Forall (λ e, keeps_mounts e.1) new.
Proof.
  assert (H : emits keeps_mounts (createBuilderDirs f)).
  { unfold createBuilderDirs. apply emits_bind; [|intros _; apply emits_bind; [|intros _; apply emits_ret]].
    - apply emits_all, Forall_forall. intros d _. by apply emits_try.
    - apply emits_all, Forall_forall. intros d _. apply emits_bind; [apply emits_ask|]. intros []; first [apply emits_ret | by apply emits_try]. }
  destruct (H t) as (new & E & F). exists new. split; [|done]. rewrite <- E. unfold createBuilderDirs. by rewrite !then_run.
Qed.

(** On a host where every call succeeds a runtime build is set up, but what it then
    writes as its DNS configuration is the host's: the host's /etc is bound into the root,
    nothing makes it read-only or takes it away, and once the root is entered the files
    /etc/resolv.conf and /etc/hosts are written there. *)
Theorem builder_writes_host_etc f t es :
  validateInJobContext f = true → (∀ t, readDir t "/" = Some es) → "etc"%string ∈ (e_name <$> es) →
  ∃ before after, SetupBuilder f t = (true, t ++ before ++ (Chroot (RootDir f), AOk) :: after) ∧
    (Mount "/etc" (Join_path [RootDir f; "etc"%string]) "" Bind "", AOk) ∈ before ∧
    Forall (λ e, keeps_mounts e.1) before ∧ Forall (λ e, keeps_mounts e.1) after ∧
    (∃ text, (WriteFile "/etc/resolv.conf" text, AOk) ∈ after) ∧ (WriteFile "/etc/hosts" builder_hosts, AOk) ∈ after.
Proof using Type all_fine.
  intros Hv Hes Hin. apply list_elem_of_fmap in Hin as (e & He & Hin). unfold SetupBuilder. rewrite Hv. cbn [negb].
  destruct (builder_dirs_run f t) as (n1 & E1 & F1). rewrite (bind_run _ _ _ _ _ E1). cbn [negb].
  destruct (all_visits keeps_mounts (λ e, mount_host_entry f (e_name e)) es e (Mount "/etc" (Join_path [RootDir f; "etc"%string]) "" Bind "", AOk)
    (t ++ n1) Hin (λ y, mount_host_keeps f (e_name y))) as (n2 & E2 & H2 & F2).
  { intros t0. exists [(Mkdir (Join_path [RootDir f; "etc"%string]), AOk); (Mount "/etc" (Join_path [RootDir f; "etc"%string]) "" Bind "", AOk)].
    split; [|apply elem_of_cons; right; by apply list_elem_of_singleton]. rewrite <- He.
    change (mount_host_entry f "etc") with (bind_host "/etc" (Join_path [RootDir f; "etc"%string])). unfold bind_host.
    rewrite (bind_run _ _ _ _ _ (try_fine _ _)). cbn [negb]. rewrite then_run, try_fine. simpl. by rewrite <- app_assoc. }
  assert (Em : mountHostFilesystem f (t ++ n1) = (true, (t ++ n1) ++ n2)).
  { unfold mountHostFilesystem. rewrite (bind_run (ask (λ t, readDir t "/"%string)) _ _ _ _ eq_refl). rewrite Hes. by rewrite then_run, E2. }
  rewrite (bind_run _ _ _ _ _ Em). cbn [negb].
  assert (Er : ∀ t, mountRuntimesDirectory f t = (true, t ++ [(Mkdir (Join_path [RootDir f; "opt"%string; "joblet"%string; "runtimes"%string]), AOk);
      (Mount (BasePath cfg) (Join_path [RootDir f; "opt"%string; "joblet"%string; "runtimes"%string]) "" Bind "", AOk)])).
  { intros t0. unfold mountRuntimesDirectory. rewrite (bind_run _ _ _ _ _ (try_fine _ _)). cbn [negb]. rewrite try_fine. by rewrite <- app_assoc. }
  rewrite (bind_run _ _ _ _ _ (Er _)). cbn [negb].
  assert (Et : ∀ t, setupTmpDir f t = (true, t ++ [(Mkdir (JobTmpDir f), AOk); (Mkdir (Join_path [RootDir f; "tmp"%string]), AOk);
      (Mount (JobTmpDir f) (Join_path [RootDir f; "tmp"%string]) "" Bind "", AOk)])).
  { intros t0. unfold setupTmpDir. do 2 (rewrite (bind_run _ _ _ _ _ (try_fine _ _)); cbn [negb]). rewrite try_fine. by rewrite <- !app_assoc. }
  rewrite (bind_run _ _ _ _ _ (Et _)). cbn [negb].
  assert (Ec : ∀ t, ∃ w, performChroot f t = (true, t ++ [(Chdir (RootDir f), AOk); (Chroot (RootDir f), AOk); (Chdir w, AOk)])).
  { intros t0. exists (if String.eqb (WorkspaceDir cfg) "" then "/work" else WorkspaceDir cfg)%string. unfold performChroot.
    do 2 (rewrite (bind_run _ _ _ _ _ (try_fine _ _)); cbn [negb]). rewrite (bind_run _ _ _ _ _ (try_fine _ _)). by rewrite <- !app_assoc. }
  match goal with |- context [(performChroot f ≫= _) ?t0] => destruct (Ec t0) as (w & Ew) end.
  rewrite (bind_run _ _ _ _ _ Ew). cbn [negb].
  assert (Ef : ∀ t, ∃ text, createBuilderEssentialFiles t = (true, t ++ [(WriteFile "/etc/resolv.conf" text, AOk); (WriteFile "/etc/hosts" builder_hosts, AOk)])).
  { intros t0. exists (default builder_resolv_conf (readFile t0 "/opt/joblet/chroot-resolv.conf")). unfold createBuilderEssentialFiles.
    rewrite (bind_run (ask (λ t, readFile t "/opt/joblet/chroot-resolv.conf"%string)) _ _ _ _ eq_refl).
    rewrite (bind_run _ _ _ _ _ (try_fine _ _)). cbn [negb]. rewrite try_fine. by rewrite <- app_assoc. }
  match goal with |- context [(createBuilderEssentialFiles ≫= _) ?t0] => destruct (Ef t0) as (text & Ex) end.
  rewrite (bind_run _ _ _ _ _ Ex).
  match goal with |- context [mountEssentialFS ?t0] => set (t5 := t0);
    destruct (emits_run keeps_mounts mountEssentialFS t5) as (ok & n5 & E5 & F5) end.
  { eapply emits_mono; [|apply (mountEssentialFS_settles [])]. by intros []. }
  assert (ok = true) as -> by (unfold mountEssentialFS in E5; rewrite then_run in E5; by injection E5).
  eexists (n1 ++ n2 ++ [_; _] ++ [_; _; _] ++ [_]), ([_] ++ [_; _] ++ n5). split_and!.
  - rewrite E5. unfold t5. rewrite <- !app_assoc. simpl. reflexivity.
  - apply elem_of_app. right. apply elem_of_app. by left.
  - rewrite !Forall_app. split_and!; [done|done|by repeat constructor..].
  - rewrite !Forall_app. split_and!; [by repeat constructor..|done].
  - exists text. apply elem_of_app. right. apply elem_of_app. left. apply elem_of_cons. by left.
  - apply elem_of_app. right. apply elem_of_app. left. apply elem_of_cons. right. by apply list_elem_of_singleton.
Qed.
End builder.
End platform.

(** ** Concrete inputs *)

Definition a_config : settings :=
  {| BaseDir := "/opt/joblet/jobs"; TmpDir := "/opt/joblet/tmp/{JOB_ID}"; WorkspaceDir := "/work";
     AllowedMounts := ["/usr/bin"; "/lib"]; BasePath := "/opt/joblet/runtimes" |}.
Definition a_env (name : string) : string :=
  if String.eqb name "JOB_ID" then "7f3" else if String.eqb name "JOB_GPU_INDICES" then "0,2"
  else if String.eqb name "JOB_VOLUMES_COUNT" then "2" else if String.eqb name "JOB_VOLUME_0" then "data"
  else if String.eqb name "JOB_VOLUME_1" then "../../etc" else if String.eqb name "JOB_RUNTIME" then "python" else "".
Definition a_fs : JobFilesystem := job_filesystem a_config "7f3".
Definition fine : trace → call → answer := λ _ _, AOk.
Definition directories : trace → string → info := λ _ _, IDir.
Definition host_root (t : trace) (d : string) : option (list entry_) :=
  Some (if String.eqb d "/" then [{| e_name := "etc"; e_isDir := true; e_isLink := false |}; {| e_name := "opt"; e_isDir := true; e_isLink := false |}]
        else [{| e_name := "libcuda.so.535"; e_isDir := false; e_isLink := false |}]).
Definition a_runtime (target : string) (t : trace) (p : string) : option (list RuntimeMount * option (list (string * string))) :=
  Some ([{| rm_Source := "bin"; rm_Target := target; rm_ReadOnly := true |}], Some [("A", "1")]%string).

Definition job_root : list word := [bytes "opt"; bytes "joblet"; bytes "jobs"; bytes "7f3"].

Lemma root_built_then_entered_witness :
  ∃ ok built entered,
    Setup fine directories host_root a_env 1 "/" a_config (λ b s, Some (b +:+ "/" +:+ s)%string) (a_runtime "/usr/local") a_fs [] = (ok, [] ++ built ++ entered) ∧
    Forall (λ e, building a_env a_config (load_environment a_env a_fs) job_root e.1) built ∧
    entering (RootDir a_fs) (GPUIndices (load_environment a_env a_fs)) ok entered.
Proof.
  apply (root_built_then_entered fine directories host_root a_env 1 "/" a_config _ (a_runtime "/usr/local") a_fs job_root []).
  - vm_compute. reflexivity.
  - refine (bool_decide_unpack _ _). vm_compute. exact I.
  - discriminate.
  - reflexivity.
  - intros t d es. unfold host_root. intros [= <-]. destruct (String.eqb d "/"); refine (bool_decide_unpack _ _); vm_compute; exact I.
  - refine (bool_decide_unpack _ _). vm_compute. exact I.
  - constructor.
  - intros t p ms env [= <- <-]. refine (bool_decide_unpack _ _). vm_compute. exact I.
  - refine (bool_decide_unpack _ _). vm_compute. exact I.
Defined.

(** A runtime's description can place a mount outside the job's root. *)
Example runtime_target_escapes :
  (Setup fine directories host_root a_env 1 "/" a_config (λ b s, Some (b +:+ "/" +:+ s)%string) (a_runtime "/../../../../etc") a_fs []).1 = true ∧
  (Mount "/opt/joblet/runtimes/python/bin" "/etc" "" Bind "", AOk) ∈
    (Setup fine directories host_root a_env 1 "/" a_config (λ b s, Some (b +:+ "/" +:+ s)%string) (a_runtime "/../../../../etc") a_fs []).2.
Proof. split; [vm_compute; reflexivity|]. refine (bool_decide_unpack _ _). vm_compute. exact I. Qed.

(** A host directory stays writable when its remount fails, and the job starts. *)
Definition no_remount (t : trace) (c : call) : answer := match c with Mount _ _ _ RemountReadOnly _ => AFail | _ => AOk end.
Example writable_without_remount :
  (Setup no_remount directories host_root a_env 1 "/" a_config (λ b s, Some (b +:+ "/" +:+ s)%string) (a_runtime "/usr/local") a_fs []).1 = true ∧
  (Mount "/usr/bin" "/opt/joblet/jobs/7f3/usr/bin" "" Bind "", AOk) ∈
    (Setup no_remount directories host_root a_env 1 "/" a_config (λ b s, Some (b +:+ "/" +:+ s)%string) (a_runtime "/usr/local") a_fs []).2.
Proof. split; [vm_compute; reflexivity|]. refine (bool_decide_unpack _ _). vm_compute. exact I. Qed.

Lemma gpu_devices_of_allocation_witness :
  a_env "JOB_GPU_INDICES" = formatGPUIndices [0; 2] ∧
  (CreateGPUDeviceNodes fine (GPUIndices (load_environment a_env a_fs)) []).2.*1 =
    ([] : trace).*1 ++ Mkdir "/dev" :: ((λ d, Mknod d.1 d.2) <$> gpu_devices [0; 2]).
Proof.
  split; [reflexivity|].
  apply (gpu_devices_of_allocation fine a_env a_fs [0; 2] []); [discriminate| |reflexivity|discriminate].
  repeat constructor; discriminate.
Defined.

Lemma builder_writes_host_etc_witness :
  ∃ before after,
    SetupBuilder fine directories host_root (λ _ _, None) a_env 1 a_config a_fs [] = (true, [] ++ before ++ (Chroot (RootDir a_fs), AOk) :: after) ∧
    (Mount "/etc" (Join_path [RootDir a_fs; "etc"%string]) "" Bind "", AOk) ∈ before ∧
    Forall (λ e, keeps_mounts e.1) before ∧ Forall (λ e, keeps_mounts e.1) after ∧
    (∃ text, (WriteFile "/etc/resolv.conf" text, AOk) ∈ after) ∧ (WriteFile "/etc/hosts" builder_hosts, AOk) ∈ after.
Proof.
  apply (builder_writes_host_etc fine directories host_root (λ _ _, None) a_env 1 a_config (λ _ _, eq_refl) a_fs []
    [{| e_name := "etc"; e_isDir := true; e_isLink := false |}; {| e_name := "opt"; e_isDir := true; e_isLink := false |}]).
  - reflexivity.
  - reflexivity.
  - simpl. apply elem_of_cons. by left.
Defined.

Lemma host_untouched_witness : 7 ≠ 1 ∧
  (setupLinux fine directories host_root (λ _ _, None) a_env 7 "/" a_config (λ _ _, None) (a_runtime "/usr/local") [] = (true, []) ∧
   CreateJobFilesystem fine a_env 7 a_config "7f3" [] = (None, [])).
Proof.
  split; [done|].
  apply (host_untouched fine directories host_root (λ _ _, None) a_env 7 "/" a_config (λ _ _, None) (a_runtime "/usr/local") a_fs "7f3" []). done.
Defined.
