(* ===== verification/JobInit.v ===== *)
(** * The init process of a job (internal/modes/server.go, internal/modes/jobexec)

    The process that the server launches for a job waits for its network, enters its
    control group, builds and enters its root (Isolator.v), and then writes the uploaded
    files or becomes the command of the job.  Every call it makes to the kernel is recorded
    with its answer; what the host answers, now or later, is an argument. *)

From Stdlib Require Import Ascii String.
From S2P Require Import Prelude GoStrings Values Paths Job.
From S2P Require Auth Environment Admission Config Cgroup Isolator.

Local Open Scope Z_scope.

(** A set-up that succeeds has entered the root of the job. *)
Module Entering.
Import Isolator.
Section entering.
Context (answers : trace → call → answer) (stat : trace → string → info) (readDir : trace → string → option (list entry_)) (readFile : trace → string → option string).
Context (getenv : string → string) (pid : Z) (cwd : string) (cfg : settings).
Context (resolveRuntime : string → string → option string) (runtimeConfig : trace → string → option (list RuntimeMount * option (list (string * string)))).

#[local] Existing Instance P_ret.
#[local] Existing Instance P_bind.
Definition grows {A} (m : P A) : Prop := emits (λ _, True) m.
Ltac head_of t := lazymatch t with ?f _ => head_of f | _ => t end.
Ltac grow := repeat first
  [ match goal with
    | |- emits _ (all _ _) => apply emits_all, Forall_true; intros ?
    | |- emits _ (each _ _) => apply emits_each, Forall_true; intros ?
    end
  | apply emits_ret | apply emits_ask | apply emits_try | apply emits_do
  | apply emits_bind; [|intros ?]
  | match goal with
    | |- grows _ => unfold grows
    | |- emits _ (if ?b then _ else _) => destruct b
    | |- emits _ (match ?x with _ => _ end) => destruct x
    | |- emits _ (let _ := _ in _) => cbv zeta
    | |- emits _ ?m => let h := head_of m in unfold h
    | |- True => exact Logic.I
    end ].

(** When the program succeeds, the call was made and answered without an error. *)
Definition passes (c : call) (m : P bool) : Prop := ∀ t, ∃ b new, m t = (b, t ++ new) ∧ (b = true → (c, AOk) ∈ new).
Lemma passes_false c : passes c (mret false).
Proof. intros t. exists false, []. by rewrite app_nil_r. Qed.
Lemma passes_after {A} c (m : P A) (k : A → P bool) : grows m → (∀ a, passes c (k a)) → passes c (m ≫= k).
Proof.
  intros Hm Hk t. destruct (emits_run _ m t Hm) as (a & n1 & E & _). destruct (Hk a (t ++ n1)) as (b & n2 & E2 & H).
  exists b, (n1 ++ n2). rewrite (bind_run _ _ _ _ _ E), E2, app_assoc. split; [done|]. intros Hb. apply elem_of_app. right. by apply H.
Qed.
Lemma passes_before c (m k : P bool) : passes c m → grows k → passes c (b ← m; if negb b then mret false else k).
Proof.
  intros Hm Hk t. destruct (Hm t) as (b & n1 & E & H). rewrite (bind_run _ _ _ _ _ E). destruct b; cbn [negb]; [|by exists false, n1].
  destruct (emits_run _ k (t ++ n1) Hk) as (a & n2 & E2 & _). exists a, (n1 ++ n2). rewrite E2, app_assoc. split; [done|]. intros _. apply elem_of_app. left. by apply H.
Qed.
Lemma passes_try c (k : P bool) : grows k → passes c (b ← try_ answers c; if negb b then mret false else k).
Proof.
  intros Hk. apply passes_before; [|done]. intros t. rewrite try_run. eexists _, _. split; [reflexivity|]. destruct (answers t c); try done. intros _. by left.
Qed.

Lemma performChroot_passes f : passes (Chroot (RootDir f)) (performChroot answers cfg f).
Proof. unfold performChroot. apply passes_after; [grow|]. intros []; cbn [negb]; [|apply passes_false]. apply passes_try. grow. Qed.
Lemma Setup_passes f : passes (Chroot (RootDir f)) (Setup answers stat readDir getenv pid cwd cfg resolveRuntime runtimeConfig f).
Proof.
  unfold Setup. destruct (negb _); [apply passes_false|]. cbv zeta. assert (E : RootDir (load_environment getenv f) = RootDir f) by apply root_same. rewrite <- E.
  apply passes_after; [grow|]. intros []; cbn [negb]; [|apply passes_false]. apply passes_before; [apply performChroot_passes|grow].
Qed.
Lemma SetupBuilder_passes f : passes (Chroot (RootDir f)) (SetupBuilder answers stat readDir readFile getenv pid cfg f).
Proof.
  unfold SetupBuilder. destruct (negb _); [apply passes_false|].
  do 4 (apply passes_after; [grow|]; intros []; cbn [negb]; [|apply passes_false]). apply passes_before; [apply performChroot_passes|grow].
Qed.
Lemma setupLinux_passes : pid = 1 →
  passes (Chroot (Join_path [BaseDir cfg; getenv "JOB_ID"])) (setupLinux answers stat readDir readFile getenv pid cwd cfg resolveRuntime runtimeConfig).
Proof.
  intros Hp. unfold setupLinux. rewrite (proj2 (Z.eqb_eq _ _) Hp). cbn [negb]. apply passes_after; [grow|]. intros _. apply passes_before; [|grow].
  unfold setupFilesystemIsolation. destruct (String.eqb _ _); [apply passes_false|]. intros t. unfold CreateJobFilesystem.
  destruct (negb _); [by apply passes_false|]. cbv zeta.
  match goal with |- ∃ b new, ((?m ≫= ?k) ≫= ?k2) t = _ ∧ _ => set (m0 := m); assert (Hm : grows m0) by (unfold m0; grow) end.
  destruct (emits_run _ m0 t Hm) as (b & n1 & E & _). unfold mbind at 1, P_bind at 1. rewrite (bind_run _ _ _ _ _ E). unfold mret, P_ret. destruct b; [|by exists false, n1].
  set (f := job_filesystem cfg (getenv "JOB_ID")).
  destruct (String.eqb _ _); [destruct (SetupBuilder_passes f (t ++ n1)) as (b & n2 & E2 & H)|destruct (Setup_passes f (t ++ n1)) as (b & n2 & E2 & H)];
    (exists b, (n1 ++ n2); rewrite E2, app_assoc; split; [done|]; intros Hb; apply elem_of_app; right; by apply H).
Qed.
End entering.
End Entering.

(** ** Calls and failures *)

(** A call that the isolation makes as well, the calls on a file that is open, and those
    that end the privileges and the program of the process. *)
Inductive act :=
| Sys (c : Isolator.call)
| OpenTrunc (path : string) (mode : Z) | WriteChunk (path : string) (chunk : list ascii) | SyncFile (path : string)
| Setgroups | Setgid (g : Z) | Setuid (u : Z) | Exec (path : string) (argv envv : list string).
Abbreviation history := (list (act * Isolator.answer)).

Inductive failure :=
| FNetworkTimeout | FNoCgroupPath | FNoJob | FNoCgroup | FNoProcs | FWriteProcs | FReadSelf | FRootCgroup | FIsolation
| FNoUploadsFile | FReadUploads | FParseUploads | FNoWorkspace | FMakeWorkspace
| FUploadPath (p : string) | FMkdir (p : string) | FOpen (p : string) | FChunkSize (n : Z) | FWrite (p : string) (offset : Z) | FDivideByZero
| FJobConfig (e : Environment.init_error) | FArgsPanic | FCommandNotFound | FChdir | FSetgroups | FSetgid | FSetuid | FNotDropped | FExec.
(** How it ends without an error: it is done, or it has become another program. *)
Inductive ending := Finished | Replaced.

(** [src/internal/modes/server.go FileUpload] *)
Record FileUpload := { up_Path : string; up_Content : list ascii; up_Mode : Z; up_IsDirectory : bool; up_Size : Z }.
(** [json.Unmarshal] of the uploaded files. *)
Class UploadsJSON := { Unmarshal_uploads : string → option (list FileUpload) }.

Definition fine (a : Isolator.answer) : bool := Isolator.is_fine a.
Definition present (i : Isolator.info) : bool := match i with Isolator.IFile | Isolator.IDir => true | _ => false end.
(** [src/internal/modes/jobexec/jobexec.go:18-22 UnprivilegedUID] *)
Definition UnprivilegedUID : Z := 65534.
(** [src/internal/modes/jobexec/jobexec.go:18-23 UnprivilegedGID] *)
Definition UnprivilegedGID : Z := 65534.

Section host.
Context {UJ : UploadsJSON}.
Context (answers : history → act → Isolator.answer) (stat : history → string → Isolator.info).
Context (readDir : history → string → option (list Isolator.entry_)) (readFile : history → string → option string).
Context (lookPath : history → string → option string) (getuid getgid : history → Z).
(** The number of polls before the time is up, and at which of them the file is there. *)
Context (ticks : nat) (ready : nat → bool).
Context (env : list string) (pid : Z) (cwd : string).
Context (resolveRuntime : string → string → option string)
        (runtimeConfig : history → string → option (list Isolator.RuntimeMount * option (list (string * string)))).

Definition getenv (k : string) : string := Environment.Getenv env k.

(** A program: an error or a result, and the calls it makes. *)
Definition I (A : Type) := history → result failure A * history.
#[local] Instance I_ret : MRet I := λ A a t, (Ok a, t).
#[local] Instance I_bind : MBind I := λ A B k m t, match m t with (Ok a, t) => k a t | (Err e, t) => (Err e, t) end.
Definition raise {A} (e : failure) : I A := λ t, (Err e, t).
Definition do_ (c : act) : I bool := λ t, let a := answers t c in (Ok (fine a), t ++ [(c, a)]).
Definition must (c : act) (e : failure) : I unit := b ← do_ c; if b : bool then mret tt else raise e.
Definition ask {A} (q : history → A) : I A := λ t, (Ok (q t), t).
Definition require (b : bool) (e : failure) : I unit := if b then mret tt else raise e.
Fixpoint each {A} (f : A → I unit) (l : list A) : I unit := match l with [] => mret tt | x :: l => _ ← f x; each f l end.

(** ** The isolation, with the calls made before it *)

Definition lift (t : Isolator.trace) : history := (λ e, (Sys e.1, e.2)) <$> t.
Definition settings : Isolator.settings :=
  let c := Config.InitConfig env in
  {| Isolator.BaseDir := Config.fs_BaseDir (Config.Filesystem c); Isolator.TmpDir := Config.fs_TmpDir (Config.Filesystem c);
     Isolator.WorkspaceDir := Config.fs_WorkspaceDir (Config.Filesystem c); Isolator.AllowedMounts := Config.rt_AllowedMounts (Config.Runtime c);
     Isolator.BasePath := Config.rt_BasePath (Config.Runtime c) |}.
Definition isolated (t : history) : bool * Isolator.trace :=
  Isolator.setupLinux (λ u c, answers (t ++ lift u) (Sys c)) (λ u, stat (t ++ lift u)) (λ u, readDir (t ++ lift u)) (λ u, readFile (t ++ lift u))
    getenv pid cwd settings resolveRuntime (λ u, runtimeConfig (t ++ lift u)) [].
(** [src/internal/modes/isolation/isolation.go Isolator.Setup] *)
Definition isolation_Setup : I unit := λ t, let '(ok, u) := isolated t in (if ok then Ok tt else Err FIsolation, t ++ lift u).

(** ** Waiting for the network, entering the control group *)

(** [src/internal/modes/server.go waitForNetworkReadyFile] *)
Definition waitForNetworkReadyFile (filePath : string) : I unit :=
  if existsb ready (seq 0 ticks) then _ ← do_ (Sys (Isolator.Remove filePath)); mret tt else raise FNetworkTimeout.
(** [src/internal/modes/server.go waitForNetworkReady] *)
Definition waitForNetworkReady : I unit :=
  let f := getenv "NETWORK_READY_FILE" in if String.eqb f "" then mret tt else waitForNetworkReadyFile f.

(** The control group of the processes of the job, if the environment tells.
    [src/internal/modes/server.go:702-718 assignToCgroup] *)
Definition procs_dir : option string :=
  let p := getenv "JOB_CGROUP_HOST_PATH" in
  if negb (String.eqb p "") then Some (Join_path [p; "proc"%string]) else
  let jobID := getenv "JOB_ID" in
  if String.eqb jobID "" then None else Some (Join_path ["/sys/fs/cgroup/joblet.slice/joblet.service/job-" +:+ jobID; "proc"]%string).
Definition procs_file (d : string) : string := Join_path [d; "cgroup.procs"%string].
(** [src/internal/modes/server.go assignToCgroup] *)
Definition assignToCgroup (cgroupPath : string) : I unit :=
  _ ← require (negb (String.eqb cgroupPath "")) FNoCgroupPath;
  match procs_dir with
  | None => raise FNoJob
  | Some d =>
      i ← ask (λ t, stat t d); _ ← require (present i) FNoCgroup;
      i ← ask (λ t, stat t (procs_file d)); _ ← require (present i) FNoProcs;
      must (Sys (Isolator.WriteFile (procs_file d) (Itoa pid))) FWriteProcs
  end.
(** A group whose name is not that of the job is only logged.
    [src/internal/modes/server.go verifyCgroupAssignment] *)
Definition verifyCgroupAssignment : I unit :=
  data ← ask (λ t, readFile t "/proc/self/cgroup"%string);
  match data with
  | None => raise FReadSelf
  | Some text => require (negb (String.eqb (TrimSpace text) "0::/")) FRootCgroup
  end.
(** What both phases do first.
    [src/internal/modes/server.go:420-450 runExecutePhase] *)
Definition prepare : I unit :=
  _ ← waitForNetworkReady;
  let cgroupPath := getenv "JOB_CGROUP_PATH" in
  _ ← require (negb (String.eqb cgroupPath "")) FNoCgroupPath;
  _ ← assignToCgroup cgroupPath;
  _ ← verifyCgroupAssignment;
  isolation_Setup.

(** ** Uploaded files *)

(** The writes from an offset on; [fuel]: the bytes that are left.  The product of the
    chunk size is that of the machine: where it is zero, the remainder panics.
    [src/internal/modes/server.go:610-634 writeFileInChunks] *)
Fixpoint write_chunks (fuel : nat) (path : string) (chunkSize offset : Z) (rest : list ascii) : I unit :=
  match fuel, rest with
  | O, _ | _, [] => mret tt
  | S fuel, _ =>
      _ ← must (WriteChunk path (take (Z.to_nat chunkSize) rest)) (FWrite path offset);
      let period := wrap 64 (chunkSize * 16) in
      _ ← require (negb (period =? 0)) FDivideByZero;
      _ ← (if (Z.rem offset period =? 0) && (0 <? offset) then do_ (SyncFile path) else mret true);
      write_chunks fuel path chunkSize (offset + chunkSize) (drop (Z.to_nat chunkSize) rest)
  end.
(** [src/internal/modes/server.go writeFileInChunks] *)
Definition writeFileInChunks (path : string) (content : list ascii) (mode chunkSize : Z) : I unit :=
  _ ← must (OpenTrunc path mode) (FOpen path);
  _ ← require (negb (chunkSize <=? 0)) (FChunkSize chunkSize);
  _ ← write_chunks (length content) path chunkSize 0 content;
  _ ← do_ (SyncFile path);
  mret tt.
(** [src/internal/modes/server.go processUploadFile] *)
Definition processUploadFile (workspaceDir : string) (chunkSize : Z) (u : FileUpload) : I unit :=
  match ValidatePathWithinBase cwd workspaceDir (up_Path u) with
  | Err _ => raise (FUploadPath (up_Path u))
  | Ok fullPath =>
      if up_IsDirectory u then must (Sys (Isolator.Mkdir fullPath)) (FMkdir fullPath) else
      let parentDir := Isolator.Dir fullPath in
      _ ← must (Sys (Isolator.Mkdir parentDir)) (FMkdir parentDir);
      writeFileInChunks fullPath (up_Content u) (if up_Mode u =? 0 then 420 else up_Mode u) chunkSize
  end.
(** [src/internal/modes/server.go processUploadsFromJSON] *)
Definition processUploadsFromJSON (c : Config.Configuration) (uploadsJSON : string) : I unit :=
  match Unmarshal_uploads uploadsJSON with
  | None => raise FParseUploads
  | Some uploads =>
      let workspaceDir := Config.fs_WorkspaceDir (Config.Filesystem c) in
      _ ← require (negb (String.eqb workspaceDir "")) FNoWorkspace;
      _ ← must (Sys (Isolator.Mkdir workspaceDir)) FMakeWorkspace;
      each (processUploadFile workspaceDir (Config.bu_ChunkSize (Config.Buffers c))) uploads
  end.
(** [src/internal/modes/server.go processUploadsInCgroup] *)
Definition processUploadsInCgroup (c : Config.Configuration) : I unit :=
  let f := getenv "JOB_UPLOADS_FILE" in
  _ ← require (negb (String.eqb f "")) FNoUploadsFile;
  data ← ask (λ t, readFile t f);
  match data with None => raise FReadUploads | Some json => processUploadsFromJSON c json end.

(** ** Becoming the command *)

(** [src/internal/modes/jobexec/jobexec.go JobExecutor.resolveCommandPath] *)
Definition resolveCommandPath (t : history) (command : string) : option string :=
  if IsAbs command then Some command else
  match List.find (λ p, present (stat t p)) ((λ d, Join_path [d; command]) <$> ["/usr/local/bin"; "/usr/bin"; "/bin"; "/sbin"; "/usr/sbin"]%string) with
  | Some p => Some p
  | None => lookPath t command
  end.
(** [src/internal/modes/jobexec/jobexec.go:221-236 JobExecutor.loadRuntimeEnvironment] *)
Definition runtime_file (t : history) : option string :=
  let p := "/joblet/runtime.env"%string in if present (stat t p) then readFile t p else None.
(** [src/internal/modes/jobexec/jobexec.go JobExecutor.dropPrivileges] *)
Definition dropPrivileges : I unit :=
  _ ← must Setgroups FSetgroups;
  _ ← must (Setgid UnprivilegedGID) FSetgid;
  _ ← must (Setuid UnprivilegedUID) FSetuid;
  u ← ask getuid; g ← ask getgid;
  require ((u =? UnprivilegedUID) && (g =? UnprivilegedGID)) FNotDropped.
(** The working directory, when the environment says that files were uploaded.
    [src/internal/modes/jobexec/jobexec.go:98-110 JobExecutor.executeCommand] *)
Definition enter_workspace : I unit :=
  if negb (String.eqb (getenv "JOB_HAS_UPLOADS") "true") then mret tt else
  let workDir := Isolator.WorkspaceDir settings in
  _ ← require (negb (String.eqb workDir "")) FNoWorkspace;
  i ← ask (λ t, stat t workDir);
  if present i then must (Sys (Isolator.Chdir workDir)) FChdir else mret tt.
(** What becomes of the process is decided in Environment.v, for the path that was found.
    [src/internal/modes/jobexec/jobexec.go JobExecutor.executeCommand] *)
Definition executeCommand (config : Environment.JobConfig) : I ending :=
  path ← ask (λ t, resolveCommandPath t (Environment.jc_Command config));
  match path with
  | None => raise FCommandNotFound
  | Some _ =>
      _ ← enter_workspace;
      rt ← ask runtime_file;
      match Environment.chosen_command (λ _, path) rt env config with
      | Err e => raise (FJobConfig e)
      | Ok (Environment.ExecAsRoot p argv envv) => _ ← must (Exec p argv envv) FExec; mret Replaced
      | Ok (Environment.ExecAsNobody p argv envv) => _ ← dropPrivileges; _ ← must (Exec p argv envv) FExec; mret Replaced
      end
  end.
(** [src/internal/modes/jobexec/jobexec.go JobExecutor.ExecuteJob] *)
Definition ExecuteJob : I ending :=
  match Environment.LoadJobConfigFromEnvironment env with
  | None => raise FArgsPanic
  | Some (Err e) => raise (FJobConfig e)
  | Some (Ok config) =>
      let phase := getenv "JOB_PHASE" in
      if String.eqb phase "upload" then raise (FJobConfig Environment.PhaseUpload) else
      if String.eqb phase "execute" || String.eqb phase "" then executeCommand config
      else raise (FJobConfig (Environment.PhaseUnknown phase))
  end.

(** ** The phases *)

(** [src/internal/modes/server.go runUploadPhase] *)
Definition runUploadPhase (c : Config.Configuration) : I ending := _ ← prepare; _ ← processUploadsInCgroup c; mret Finished.
(** [src/internal/modes/server.go runExecutePhase] *)
Definition runExecutePhase : I ending := _ ← prepare; ExecuteJob.
(** [src/internal/modes/server.go RunJobInit] *)
Definition RunJobInit (c : Config.Configuration) : I ending :=
  if String.eqb (getenv "JOB_PHASE") "upload" then runUploadPhase c else runExecutePhase.

(** ** What a program may call *)

(** Every call of the program satisfies [Q]. *)
Definition calls {A} (Q : act → Prop) (m : I A) : Prop := ∀ t, ∃ new, (m t).2 = t ++ new ∧ Forall (λ e, Q e.1) new.

Lemma calls_same {A} (Q : act → Prop) (m : I A) : (∀ t, (m t).2 = t) → calls Q m.
Proof. intros H t. exists []. by rewrite H, app_nil_r. Qed.
Lemma calls_ret {A} (Q : act → Prop) (a : A) : calls Q (mret a).
Proof. by apply calls_same. Qed.
Lemma calls_raise {A} (Q : act → Prop) e : calls Q (raise (A := A) e).
Proof. by apply calls_same. Qed.
Lemma calls_ask {A} (Q : act → Prop) (q : history → A) : calls Q (ask q).
Proof. by apply calls_same. Qed.
Lemma calls_require (Q : act → Prop) b e : calls Q (require b e).
Proof. destruct b; by apply calls_same. Qed.
Lemma calls_bind {A B} (Q : act → Prop) (m : I A) (k : A → I B) : calls Q m → (∀ a, calls Q (k a)) → calls Q (m ≫= k).
Proof.
  intros Hm Hk t. destruct (Hm t) as (n & E & F). unfold mbind, I_bind. destruct (m t) as [[a|e] t1]; cbn [snd] in E; subst t1; [|by exists n].
  destruct (Hk a (t ++ n)) as (n' & -> & F'). exists (n ++ n'). by rewrite app_assoc, Forall_app.
Qed.
Lemma calls_do (Q : act → Prop) c : Q c → calls Q (do_ c).
Proof. intros H t. eexists. split; [reflexivity|]. by apply Forall_singleton. Qed.
Lemma calls_must (Q : act → Prop) c e : Q c → calls Q (must c e).
Proof. intros H. apply calls_bind; [by apply calls_do|]. intros []; [apply calls_ret|apply calls_raise]. Qed.
Lemma calls_each {A} (Q : act → Prop) (f : A → I unit) l : (∀ x, calls Q (f x)) → calls Q (each f l).
Proof. intros H. induction l as [|x l IH]; [apply calls_ret|]. apply calls_bind; [apply H|]. intros _. exact IH. Qed.
Lemma calls_isolation (Q : act → Prop) : (∀ c, Q (Sys c)) → calls Q isolation_Setup.
Proof.
  intros HQ t. unfold isolation_Setup. destruct (isolated t) as [ok u]. exists (lift u). split; [done|]. apply Forall_fmap, Forall_true. intros e. apply HQ.
Qed.
Ltac calls_tac := repeat first
  [ apply calls_ret | apply calls_raise | apply calls_ask | apply calls_require | apply calls_must | apply calls_do
  | apply calls_bind; [|intros ?]
  | match goal with
    | |- calls _ (if ?b then _ else _) => destruct b
    | |- calls _ (match ?x with _ => _ end) => destruct x
    end ].

Definition plain_call (c : act) : Prop := match c with Sys _ => True | _ => False end.
Definition not_exec (c : act) : Prop := match c with Exec _ _ _ => False | _ => True end.
Lemma calls_mono {A} (Q Q' : act → Prop) (m : I A) : (∀ c, Q c → Q' c) → calls Q m → calls Q' m.
Proof. intros HQ H t. destruct (H t) as (n & E & F). exists n. split; [done|]. eapply Forall_impl; [exact F|]. intros e. apply HQ. Qed.

Lemma prepare_plain : calls plain_call prepare.
Proof. unfold prepare, waitForNetworkReady, waitForNetworkReadyFile, assignToCgroup, verifyCgroupAssignment. calls_tac; first [done | by apply calls_isolation]. Qed.
Lemma chunks_not_exec fuel path size off rest : calls not_exec (write_chunks fuel path size off rest).
Proof. revert off rest. induction fuel as [|fuel IH]; intros off rest; [apply calls_ret|]. cbn [write_chunks]. destruct rest; [apply calls_ret|]. calls_tac; done. Qed.
Lemma uploads_not_exec c : calls not_exec (processUploadsInCgroup c).
Proof.
  unfold processUploadsInCgroup, processUploadsFromJSON. calls_tac; try done. apply calls_each. intros u. unfold processUploadFile, writeFileInChunks. calls_tac; try done.
  apply chunks_not_exec.
Qed.

(** Runs, step by step. *)
Lemma ibind_ok {A B} (m : I A) (k : A → I B) t b t' : (m ≫= k) t = (Ok b, t') → ∃ a t1, m t = (Ok a, t1) ∧ k a t1 = (Ok b, t').
Proof. unfold mbind, I_bind. destruct (m t) as [[a|e] t1]; [|done]. eauto. Qed.
Lemma bind_any {A B} (m : I A) (k : A → I B) t r t' : (m ≫= k) t = (r, t') → (∃ a t1, m t = (Ok a, t1) ∧ k a t1 = (r, t')) ∨ (∃ e, m t = (Err e, t') ∧ r = Err e).
Proof. unfold mbind, I_bind. destruct (m t) as [[a|e] t1]; intros H; [left; eauto|]. injection H as <- <-. right. eauto. Qed.
Lemma imust_ok c e t x t' : must c e t = (Ok x, t') → answers t c = Isolator.AOk ∧ t' = t ++ [(c, Isolator.AOk)].
Proof. unfold must, do_, mbind, I_bind. destruct (answers t c) eqn:E; cbn; intros H; try discriminate H. by injection H as <- <-. Qed.
Lemma require_ok b e t x t' : require b e t = (Ok x, t') → b = true ∧ t' = t.
Proof. destruct b; cbn; intros H; [by injection H as <- <-|discriminate H]. Qed.
Lemma ask_ok {A} (q : history → A) t x t' : ask q t = (Ok x, t') → x = q t ∧ t' = t.
Proof. unfold ask. intros H. by injection H as <- <-. Qed.

(** ** Before the command *)

Record prepared (waited : history) (d : string) (iso : Isolator.trace) : Prop := {
  pr_wait : (getenv "NETWORK_READY_FILE" = ""%string ∧ waited = []) ∨
            ∃ i x, (i < ticks)%nat ∧ ready i = true ∧ waited = [(Sys (Isolator.Remove (getenv "NETWORK_READY_FILE")), x)];
  pr_dir : procs_dir = Some d;
  pr_self : ∃ text, readFile (waited ++ [(Sys (Isolator.WriteFile (procs_file d) (Itoa pid)), Isolator.AOk)]) "/proc/self/cgroup" = Some text ∧ TrimSpace text ≠ "0::/"%string;
  pr_isolated : isolated (waited ++ [(Sys (Isolator.WriteFile (procs_file d) (Itoa pid)), Isolator.AOk)]) = (true, iso);
}.
Definition entered (waited : history) (d : string) (iso : Isolator.trace) : history :=
  waited ++ [(Sys (Isolator.WriteFile (procs_file d) (Itoa pid)), Isolator.AOk)] ++ lift iso.

Lemma waited_ok x t' : waitForNetworkReady [] = (Ok x, t') → (getenv "NETWORK_READY_FILE" = ""%string ∧ t' = []) ∨
  ∃ i x, (i < ticks)%nat ∧ ready i = true ∧ t' = [(Sys (Isolator.Remove (getenv "NETWORK_READY_FILE")), x)].
Proof.
  unfold waitForNetworkReady. destruct (String.eqb_spec (getenv "NETWORK_READY_FILE") "") as [E|E]; cbn; [intros [= _ <-]; by left|].
  intros H. right. unfold waitForNetworkReadyFile in H. destruct (existsb ready (seq 0 ticks)) eqn:Er; [|discriminate H].
  apply existsb_exists in Er as (i & Hi & Hr). apply in_seq in Hi. apply ibind_ok in H as (b & t1 & H1 & H2). unfold do_ in H1. injection H1 as <- <-. injection H2 as <- <-. exists i. eexists. split; [lia|]. by split.
Qed.
Lemma prepare_ok x t' : prepare [] = (Ok x, t') → ∃ waited d iso, prepared waited d iso ∧ t' = entered waited d iso.
Proof.
  unfold prepare. intros H. apply ibind_ok in H as (? & waited & Hw & H). apply ibind_ok in H as (? & t2 & H2 & H). apply require_ok in H2 as [_ ->].
  apply ibind_ok in H as (? & t3 & Ha & H). apply ibind_ok in H as (? & t4 & Hv & H).
  unfold assignToCgroup in Ha. apply ibind_ok in Ha as (? & t5 & H5 & Ha). apply require_ok in H5 as [_ ->]. destruct procs_dir as [d|] eqn:Ed; [|discriminate Ha].
  apply ibind_ok in Ha as (i & t6 & H6 & Ha). apply ask_ok in H6 as [_ ->]. apply ibind_ok in Ha as (? & t7 & H7 & Ha). apply require_ok in H7 as [_ ->].
  apply ibind_ok in Ha as (i' & t8 & H8 & Ha). apply ask_ok in H8 as [_ ->]. apply ibind_ok in Ha as (? & t9 & H9 & Ha). apply require_ok in H9 as [_ ->]. apply imust_ok in Ha as [_ ->].
  unfold verifyCgroupAssignment in Hv. apply ibind_ok in Hv as (text & t10 & H10 & Hv). apply ask_ok in H10 as [-> ->].
  destruct (readFile _ _) as [text|] eqn:Et; [|discriminate Hv]. apply require_ok in Hv as [Hv ->]. apply negb_true_iff, String.eqb_neq in Hv.
  unfold isolation_Setup in H. destruct (isolated _) as [[] iso] eqn:Ei; [|discriminate H]. injection H as _ <-.
  exists waited, d, iso. split; [|unfold entered; by rewrite app_assoc]. split; [by eapply waited_ok|done|eauto|done].
Qed.

(** ** The command *)

(** What is between the isolation and the command. *)
Definition dropped : history := [(Setgroups, Isolator.AOk); (Setgid UnprivilegedGID, Isolator.AOk); (Setuid UnprivilegedUID, Isolator.AOk)].
Inductive leaving (t : history) (p : string) (argv envv : list string) : Environment.init_action → history → Prop :=
| AsRoot moved : Forall (λ e, ∃ d, e.1 = Sys (Isolator.Chdir d)) moved → leaving t p argv envv (Environment.ExecAsRoot p argv envv) moved
| AsNobody moved : Forall (λ e, ∃ d, e.1 = Sys (Isolator.Chdir d)) moved →
    getuid (t ++ moved ++ dropped) = UnprivilegedUID → getgid (t ++ moved ++ dropped) = UnprivilegedGID →
    leaving t p argv envv (Environment.ExecAsNobody p argv envv) (moved ++ dropped).

Lemma dropPrivileges_run t r t' : dropPrivileges t = (r, t') →
  (∃ e new, r = Err e ∧ t' = t ++ new ∧ Forall (λ x, not_exec x.1) new) ∨ (r = Ok tt ∧ t' = t ++ dropped ∧ getuid t' = UnprivilegedUID ∧ getgid t' = UnprivilegedGID).
Proof.
  intros H. assert (Hc : calls not_exec dropPrivileges) by (unfold dropPrivileges; calls_tac; done).
  destruct (Hc t) as (new & E & F). rewrite H in E. cbn [snd] in E. destruct r as [u|e]; [right|left; by exists e, new].
  unfold dropPrivileges in H. apply ibind_ok in H as (? & t1 & H1 & H). apply imust_ok in H1 as [_ ->]. apply ibind_ok in H as (? & t2 & H1 & H). apply imust_ok in H1 as [_ ->].
  apply ibind_ok in H as (? & t3 & H1 & H). apply imust_ok in H1 as [_ ->]. apply ibind_ok in H as (? & t4 & H1 & H). apply ask_ok in H1 as [-> ->].
  apply ibind_ok in H as (? & t5 & H1 & H). apply ask_ok in H1 as [-> ->]. apply require_ok in H as [H ->]. apply andb_prop in H as [Hu%Z.eqb_eq Hg%Z.eqb_eq].
  split; [by destruct u|]. rewrite <- !app_assoc in *. done.
Qed.
Lemma enter_workspace_run t r t' : enter_workspace t = (r, t') →
  ∃ moved, t' = t ++ moved ∧ Forall (λ e, ∃ d, e.1 = Sys (Isolator.Chdir d)) moved.
Proof.
  intros H. assert (Hc : calls (λ c, ∃ d, c = Sys (Isolator.Chdir d)) enter_workspace) by (unfold enter_workspace; calls_tac; eauto).
  destruct (Hc t) as (new & E & F). rewrite H in E. eauto.
Qed.
Lemma iexec_run p argv envv t r t' : (_ ← must (Exec p argv envv) FExec; mret Replaced) t = (r, t') → ∃ a, t' = t ++ [(Exec p argv envv, a)] ∧ (r = Ok Replaced ↔ a = Isolator.AOk).
Proof.
  unfold must, do_, mbind, I_bind, mret, I_ret, raise. destruct (answers t _) eqn:E; cbn; intros H; injection H as <- <-; eexists; (split; [reflexivity|]); by split.
Qed.

(** Either no program is executed, or that of the decision, once, at the end. *)
Lemma ExecuteJob_run t r t' : ExecuteJob t = (r, t') →
  (∃ e new, r = Err e ∧ t' = t ++ new ∧ Forall (λ x, not_exec x.1) new) ∨
  (∃ p argv envv action between rt a, t' = t ++ between ++ [(Exec p argv envv, a)] ∧ leaving t p argv envv action between ∧ (r = Ok Replaced ↔ a = Isolator.AOk) ∧
     Environment.chosen_action (resolveCommandPath t) rt env = Some (Ok action)).
Proof.
  assert (Hraise : ∀ e t', raise (A := ending) e t = (r, t') → ∃ e new, r = Err e ∧ t' = t ++ new ∧ Forall (λ x, not_exec x.1) new).
  { intros e t0 H. injection H as <- <-. exists e, []. by rewrite app_nil_r. }
  unfold ExecuteJob, Environment.chosen_action. destruct (Environment.LoadJobConfigFromEnvironment env) as [[config|e]|]; [|left; eauto..].
  unfold getenv.
  destruct (String.eqb_spec (Environment.Getenv env "JOB_PHASE") "upload") as [Eu|Eu]; [left; eauto|]. rewrite (bool_decide_eq_false_2 (_ = "upload"%string)) by done.
  assert (Eb : String.eqb (Environment.Getenv env "JOB_PHASE") "execute" || String.eqb (Environment.Getenv env "JOB_PHASE") "" =
    bool_decide (Environment.Getenv env "JOB_PHASE" = "execute"%string) || bool_decide (Environment.Getenv env "JOB_PHASE" = ""%string)).
  { f_equal; [destruct (String.eqb_spec (Environment.Getenv env "JOB_PHASE") "execute")|destruct (String.eqb_spec (Environment.Getenv env "JOB_PHASE") "")]; symmetry; by case_bool_decide. }
  rewrite Eb. destruct (bool_decide (Environment.Getenv env "JOB_PHASE" = "execute"%string) || bool_decide (Environment.Getenv env "JOB_PHASE" = ""%string)); [|left; eauto]. unfold executeCommand. intros H.
  apply bind_any in H as [(path & t1 & H1 & H)|(e & H1 & ->)]; [|discriminate H1]. apply ask_ok in H1 as [Hp ->].
  destruct path as [path|]; [|left; eauto].
  apply bind_any in H as [(x & t2 & H1 & H)|(e & H1 & ->)]; apply enter_workspace_run in H1 as (moved & -> & Hm).
  2: { left. exists e, moved. split; [done|]. split; [done|]. eapply Forall_impl; [exact Hm|]. intros y [d E]. by rewrite E. }
  assert (Hm' : Forall (λ x : act * Isolator.answer, not_exec x.1) moved) by (eapply Forall_impl; [exact Hm|]; intros y [d E]; by rewrite E).
  apply bind_any in H as [(rt & t3 & H1 & H)|(e & H1 & ->)]; [|discriminate H1]. apply ask_ok in H1 as [_ ->].
  unfold Environment.chosen_command in *. rewrite <- Hp. destruct (bool_decide _).
  - apply iexec_run in H as (a & -> & Ha). right. do 4 eexists. exists moved, rt, a. rewrite <- app_assoc. split; [reflexivity|]. split; [by constructor|]. done.
  - apply bind_any in H as [(y & t4 & H1 & H)|(e & H1 & ->)]; apply dropPrivileges_run in H1.
    + destruct H1 as [(e & new & ? & _)|(_ & -> & Hu & Hg)]; [done|]. apply iexec_run in H as (a & -> & Ha). right. do 4 eexists. exists (moved ++ dropped), rt, a.
      rewrite <- !app_assoc in *. split; [reflexivity|]. split; [by constructor|]. done.
    + destruct H1 as [(e' & new & ? & -> & Hn)|(? & _)]; [|done]. left. exists e, (moved ++ new). rewrite app_assoc. split; [done|]. split; [done|]. by apply Forall_app.
Qed.

Lemma init_run c r h : RunJobInit c [] = (r, h) →
  Forall (λ x, not_exec x.1) h ∨
  (∃ waited d iso p argv envv action between rt a, prepared waited d iso ∧ h = entered waited d iso ++ between ++ [(Exec p argv envv, a)] ∧
     leaving (entered waited d iso) p argv envv action between ∧ (r = Ok Replaced ↔ a = Isolator.AOk) ∧
     Environment.chosen_action (resolveCommandPath (entered waited d iso)) rt env = Some (Ok action)).
Proof.
  pose proof (calls_mono _ not_exec _ (λ c, match c with Sys _ => λ _, Logic.I | _ => False_ind _ end) prepare_plain []) as (new & Ep & Fp). cbn [app] in Ep.
  unfold RunJobInit. destruct (String.eqb _ _); intros H.
  - left. assert (Hc : calls not_exec (runUploadPhase c)).
    { unfold runUploadPhase. apply calls_bind; [eapply calls_mono, prepare_plain; by intros []|]. intros _. apply calls_bind; [apply uploads_not_exec|]. intros _. apply calls_ret. }
    destruct (Hc []) as (new' & E & F). rewrite H in E. cbn in E. by subst h.
  - unfold runExecutePhase in H. apply bind_any in H as [([] & t1 & H1 & H)|(e & H1 & ->)].
    2: { left. rewrite H1 in Ep. cbn in Ep. by subst h. }
    rewrite H1 in Ep. cbn in Ep. subst t1. apply prepare_ok in H1 as (waited & d & iso & Hpr & ->). apply ExecuteJob_run in H as [(e & new' & -> & -> & F)|(p & argv & envv & action & between & rt & a & -> & Hl & Ha & He)].
    + left. by apply Forall_app.
    + right. exists waited, d, iso, p, argv, envv, action, between, rt, a. done.
Qed.

Lemma exec_found c r h p argv envv a : RunJobInit c [] = (r, h) → (Exec p argv envv, a) ∈ h →
  ∃ waited d iso action between rt, prepared waited d iso ∧ h = entered waited d iso ++ between ++ [(Exec p argv envv, a)] ∧
    leaving (entered waited d iso) p argv envv action between ∧
    Environment.chosen_action (resolveCommandPath (entered waited d iso)) rt env = Some (Ok action).
Proof.
  intros H Hin. apply init_run in H as [Hno|(waited & d & iso & p' & argv' & envv' & action & between & rt & a' & Hpr & -> & Hl & _ & Hx)].
  { rewrite Forall_forall in Hno. by apply Hno in Hin. }
  assert (Hlast : (Exec p argv envv, a) = (Exec p' argv' envv', a')).
  { unfold entered in Hin. rewrite !elem_of_app, !list_elem_of_singleton in Hin. destruct Hin as [[Hin|[Hin|Hin]]|[Hin|Hin]]; [| | | |done]; exfalso.
    - destruct (pr_wait _ _ _ Hpr) as [[_ ->]|(i & x & _ & _ & ->)]; [by apply not_elem_of_nil in Hin|]. apply list_elem_of_singleton in Hin. discriminate Hin.
    - discriminate Hin.
    - unfold lift in Hin. apply list_elem_of_fmap in Hin as (y & Hy & _). discriminate Hy.
    - destruct Hl as [moved Hm|moved Hm _ _]; [|apply elem_of_app in Hin as [Hin|Hin]].
      + rewrite Forall_forall in Hm. apply Hm in Hin as [x Ex]. discriminate Ex.
      + rewrite Forall_forall in Hm. apply Hm in Hin as [x Ex]. discriminate Ex.
      + unfold dropped in Hin. rewrite !elem_of_cons, elem_of_nil in Hin. destruct_or! Hin; try done; discriminate Hin. }
  injection Hlast as <- <- <- <-. exists waited, d, iso, action, between, rt. done.
Qed.

(** ** The files that are written *)

(** What the calls leave in the files; a call that fails may leave anything. *)
Definition disk_step (m : gmap string (list ascii)) (e : act * Isolator.answer) : gmap string (list ascii) :=
  match e with
  | (OpenTrunc p _, Isolator.AOk) => <[p := []]> m
  | (WriteChunk p c, Isolator.AOk) => <[p := default [] (m !! p) ++ c]> m
  | (Sys (Isolator.WriteFile p text), Isolator.AOk) => <[p := bytes text]> m
  | (Sys (Isolator.Remove p), Isolator.AOk) => delete p m
  | _ => m
  end.
Definition disk (h : history) : gmap string (list ascii) := foldl disk_step ∅ h.
Lemma disk_snoc h e : disk (h ++ [e]) = disk_step (disk h) e.
Proof. unfold disk. by rewrite foldl_app. Qed.

(** The step of [m] leaves [content] in the file and the other files as they are. *)
Definition puts (p : string) (content : list ascii) (t t' : history) : Prop := disk t' = <[p := content]> (disk t).

Lemma sync_ok p t x t' : do_ (SyncFile p) t = (Ok x, t') → disk t' = disk t.
Proof. unfold do_. intros [= _ <-]. by rewrite disk_snoc. Qed.
Lemma write_chunks_ok p size : 0 < size → ∀ fuel off rest t x t' done_, (length rest ≤ fuel)%nat → disk t !! p = Some done_ →
  write_chunks fuel p size off rest t = (Ok x, t') → puts p (done_ ++ rest) t t'.
Proof.
  intros Hs. induction fuel as [|fuel IH]; intros off rest t x t' done_ Hl Hd H.
  { destruct rest; [|cbn in Hl; lia]. injection H as _ <-. unfold puts. by rewrite app_nil_r, insert_id. }
  destruct rest as [|c rest]. { injection H as _ <-. unfold puts. by rewrite app_nil_r, insert_id. }
  cbn [write_chunks] in H. set (l := c :: rest) in *. set (n := Z.to_nat size) in *. assert (Hn : (0 < n)%nat) by (unfold n; lia).
  apply ibind_ok in H as (? & t1 & H1 & H). apply imust_ok in H1 as [_ ->]. apply ibind_ok in H as (? & t2 & H2 & H). apply require_ok in H2 as [_ ->].
  apply ibind_ok in H as (b & t3 & H3 & H).
  assert (Ht : disk t3 = <[p := done_ ++ take n l]> (disk t)).
  { transitivity (disk (t ++ [(WriteChunk p (take n l), Isolator.AOk)])); [|rewrite disk_snoc; cbn [disk_step]; by rewrite Hd].
    destruct (_ && _); [by eapply sync_ok|]. by injection H3 as _ <-. }
  apply (IH _ _ _ _ _ (done_ ++ take n l)) in H; [|rewrite length_drop; unfold l in *; cbn [length] in *; lia|by rewrite Ht, lookup_insert_eq].
  unfold puts in *. by rewrite H, Ht, insert_insert_eq, <- app_assoc, take_drop.
Qed.
Lemma writeFileInChunks_ok p content mode size t x t' : writeFileInChunks p content mode size t = (Ok x, t') → puts p content t t'.
Proof.
  unfold writeFileInChunks. intros H. apply ibind_ok in H as (? & t1 & H1 & H). apply imust_ok in H1 as [_ ->]. apply ibind_ok in H as (? & t2 & H2 & H). apply require_ok in H2 as [Hs ->].
  apply negb_true_iff, Z.leb_gt in Hs. apply ibind_ok in H as (? & t3 & H3 & H). apply ibind_ok in H as (? & t4 & H4 & H). injection H as _ <-.
  apply (write_chunks_ok p size Hs _ _ _ _ _ _ []) in H3; [|done|by rewrite disk_snoc; cbn [disk_step]; rewrite lookup_insert_eq].
  unfold puts in *. rewrite (sync_ok _ _ _ _ H4), H3, disk_snoc. cbn [disk_step]. by rewrite insert_insert_eq.
Qed.

(** The file that an upload names, if it is one. *)
Definition upload_file (workspaceDir : string) (u : FileUpload) : option string :=
  match ValidatePathWithinBase cwd workspaceDir (up_Path u) with Ok p => if up_IsDirectory u then None else Some p | Err _ => None end.
Lemma processUploadFile_ok ws size u t x t' : processUploadFile ws size u t = (Ok x, t') →
  disk t' = match upload_file ws u with Some p => <[p := up_Content u]> (disk t) | None => disk t end.
Proof.
  unfold processUploadFile, upload_file. destruct (ValidatePathWithinBase _ _ _) as [p|]; [|discriminate]. destruct (up_IsDirectory u); intros H.
  - apply imust_ok in H as [_ ->]. by rewrite disk_snoc.
  - apply ibind_ok in H as (? & t1 & H1 & H). apply imust_ok in H1 as [_ ->]. apply writeFileInChunks_ok in H. unfold puts in H. by rewrite H, disk_snoc.
Qed.
(** The last upload that names a file is what the file holds. *)
Definition uploaded (ws : string) (l : list FileUpload) (m : gmap string (list ascii)) : gmap string (list ascii) :=
  foldl (λ m u, match upload_file ws u with Some p => <[p := up_Content u]> m | None => m end) m l.
Lemma uploads_ok ws size l t x t' : each (processUploadFile ws size) l t = (Ok x, t') → disk t' = uploaded ws l (disk t).
Proof.
  revert t x. induction l as [|u l IH]; intros t x H; [by injection H as _ <-|]. cbn [each] in H. apply ibind_ok in H as (? & t1 & H1 & H).
  apply processUploadFile_ok in H1. apply IH in H. unfold uploaded in *. cbn [foldl]. by rewrite H, H1.
Qed.

(** Nothing is written outside the workspace; the directory above it may be asked for. *)
Definition in_workspace (wb : list word) (c : act) : Prop :=
  match c with
  | OpenTrunc p _ | WriteChunk p _ | SyncFile p => Isolator.inside wb p
  | Sys (Isolator.Mkdir p) => Isolator.inside wb p ∨ p = Isolator.Dir (Cgroup.path_of wb)
  | _ => False
  end.
Lemma guarded_inside wb name p : IsAbs cwd = true → Forall plain wb → wb ≠ [] → ValidatePathWithinBase cwd (Cgroup.path_of wb) name = Ok p → Isolator.inside wb p.
Proof.
  intros Hc Hw Hn Hv. destruct (within_base_elements _ _ _ _ Hc Hv) as (wb' & ext & Hp & Hb & He). apply Forall_app in Hp as [Hp1 Hp2].
  assert (E1 : Abs cwd (Cgroup.path_of wb) = Cgroup.path_of wb).
  { unfold Abs. rewrite Cgroup.IsAbs_path_of. by apply Cgroup.Clean_path_of; [apply bytes_of_bytes|..]. }
  rewrite E1 in Hb. unfold Cgroup.path_of in Hb. rewrite bytes_of_bytes in Hb. injection Hb as Hb. apply join_plain_inj in Hb; [|done|done]. subst wb'.
  exists ext. split; [done|]. rewrite <- (of_bytes_bytes p), He. done.
Qed.
Lemma chunks_in_workspace wb fuel path size off rest : Isolator.inside wb path → calls (in_workspace wb) (write_chunks fuel path size off rest).
Proof.
  intros Hi. revert off rest. induction fuel as [|fuel IH]; intros off rest; [apply calls_ret|]. cbn [write_chunks]. destruct rest; [apply calls_ret|]. calls_tac; done.
Qed.
Lemma upload_in_workspace wb size u : IsAbs cwd = true → Forall plain wb → wb ≠ [] → calls (in_workspace wb) (processUploadFile (Cgroup.path_of wb) size u).
Proof.
  intros Hc Hw Hn. unfold processUploadFile. destruct (ValidatePathWithinBase _ _ _) as [p|] eqn:Ev; [|apply calls_raise]. pose proof (guarded_inside _ _ _ Hc Hw Hn Ev) as Hi.
  destruct (up_IsDirectory u); [apply calls_must; by left|]. apply calls_bind; [apply calls_must; by apply Isolator.Dir_inside|]. intros _. unfold writeFileInChunks. calls_tac; try done.
  by apply chunks_in_workspace.
Qed.

(** ** What the command and the uploads get *)

(** The upload phase that ends without an error has written the uploads, all of them and
    nothing else: in each file that an upload names are the bytes of the last upload that
    names it, whatever the size of the chunks; every directory and file that it touched is
    in the workspace, wherever the paths of the uploads point; and before the first byte
    the process had entered its control group and its root. *)
Theorem uploads_written c r h wb :
  getenv "JOB_PHASE" = "upload"%string → RunJobInit c [] = (Ok r, h) →
  Config.fs_WorkspaceDir (Config.Filesystem c) = Cgroup.path_of wb → Forall plain wb → wb ≠ [] → IsAbs cwd = true →
  ∃ waited d iso json uploads writes,
    prepared waited d iso ∧ h = entered waited d iso ++ writes ∧ Forall (λ e, in_workspace wb e.1) writes ∧
    readFile (entered waited d iso) (getenv "JOB_UPLOADS_FILE") = Some json ∧ Unmarshal_uploads json = Some uploads ∧
    disk h = uploaded (Config.fs_WorkspaceDir (Config.Filesystem c)) uploads (disk (entered waited d iso)).
Proof.
  intros Hp H Hwb Hw Hn Hc. unfold RunJobInit in H. rewrite (proj2 (String.eqb_eq _ _) Hp) in H. unfold runUploadPhase in H.
  apply ibind_ok in H as ([] & t1 & H1 & H). apply prepare_ok in H1 as (waited & d & iso & Hpr & ->). apply ibind_ok in H as ([] & t2 & H2 & H). injection H as <- <-.
  unfold processUploadsInCgroup in H2. apply ibind_ok in H2 as (? & t3 & H3 & H2). apply require_ok in H3 as [_ ->]. apply ibind_ok in H2 as (json & t3 & H3 & H2). apply ask_ok in H3 as [-> ->].
  destruct (readFile _ _) as [json|] eqn:Er; [|discriminate H2]. unfold processUploadsFromJSON in H2. destruct (Unmarshal_uploads json) as [uploads|] eqn:Eu; [|discriminate H2].
  apply ibind_ok in H2 as (? & t3 & H3 & H2). apply require_ok in H3 as [_ ->]. apply ibind_ok in H2 as (? & t3 & H3 & H2). apply imust_ok in H3 as [_ ->].
  assert (Hin : calls (in_workspace wb) (each (processUploadFile (Config.fs_WorkspaceDir (Config.Filesystem c)) (Config.bu_ChunkSize (Config.Buffers c))) uploads)).
  { rewrite Hwb. apply calls_each. intros u. by apply upload_in_workspace. }
  destruct (Hin (entered waited d iso ++ [(Sys (Isolator.Mkdir (Config.fs_WorkspaceDir (Config.Filesystem c))), Isolator.AOk)])) as (new & E & F). rewrite H2 in E. cbn [snd] in E.
  apply uploads_ok in H2. rewrite disk_snoc in H2. cbn [disk_step] in H2.
  exists waited, d, iso, json, uploads. eexists. split; [done|]. split; [rewrite E, <- app_assoc; reflexivity|]. split.
  { apply Forall_app. split; [|done]. apply Forall_singleton. cbn. left. exists []. split; [constructor|]. by rewrite app_nil_r. }
  split; [done|]. split; [done|]. exact H2.
Qed.

(** The execute phase either fails, or the process has become the command. *)
Theorem execute_phase_ends c r h : getenv "JOB_PHASE" ≠ "upload"%string → RunJobInit c [] = (r, h) →
  match r with Ok e => e = Replaced ∧ ∃ h' p argv envv, h = h' ++ [(Exec p argv envv, Isolator.AOk)] | Err _ => True end.
Proof.
  intros Hp H. pose proof H as H'. unfold RunJobInit in H'. rewrite (proj2 (String.eqb_neq _ _) Hp) in H'. unfold runExecutePhase in H'.
  destruct r as [e|]; [|done]. apply ibind_ok in H' as ([] & t1 & _ & H'). apply ExecuteJob_run in H' as [(? & ? & ? & _)|(p & argv & envv & action & between & rt & a & -> & Hl & Ha & _)]; [done|].
  assert (e = Replaced) as ->.
  { destruct e; [|done]. exfalso. unfold RunJobInit in H. rewrite (proj2 (String.eqb_neq _ _) Hp) in H. unfold runExecutePhase in H.
    apply ibind_ok in H as ([] & u1 & _ & H). unfold ExecuteJob in H. destruct (Environment.LoadJobConfigFromEnvironment env) as [[config|]|]; try discriminate H.
    destruct (String.eqb _ _); [discriminate H|]. destruct (_ || _); [|discriminate H]. unfold executeCommand in H.
    apply ibind_ok in H as (path & u2 & _ & H). destruct path; [|discriminate H]. apply ibind_ok in H as (? & u3 & _ & H). apply ibind_ok in H as (rt' & u4 & _ & H).
    destruct (Environment.chosen_command _ _ _ _) as [[|]|]; [..|discriminate H].
    - apply ibind_ok in H as (? & u5 & _ & H). discriminate H.
    - apply ibind_ok in H as (? & u5 & _ & H). apply ibind_ok in H as (? & u6 & _ & H). discriminate H. }
  split; [done|]. rewrite (proj1 Ha eq_refl). exists (t1 ++ between), p, argv, envv. by rewrite app_assoc.
Qed.
End host.

(** The environment that the server builds also says whether there is a network to wait for. *)
Lemma ready_file_found {MR : Environment.MapRange} environ RF cfg w j phase env : w ≠ ""%string →
  Environment.launched_env (Environment.with_ready_file (Some w) (Environment.BuildEnvironment environ RF cfg j phase)) = Some env →
  Environment.Getenv env "NETWORK_READY_FILE" = w.
Proof.
  intros Hw He. unfold Environment.Getenv. rewrite (Environment.launched_lookup _ _ _ He). unfold Environment.with_ready_file. rewrite Environment.last_value_app.
  rewrite Environment.last_value_cons. change (Environment.last_value "NETWORK_READY_FILE" []) with (@None string). rewrite Environment.entry_value_entry by done. by rewrite decide_True.
Qed.



(** ** Instances *)

Definition host_ok (h : history) (c : act) : Isolator.answer := Isolator.AOk.
Definition host_stat (h : history) (p : string) : Isolator.info := Isolator.IDir.
Definition host_dir (h : history) (p : string) : option (list Isolator.entry_) := Some [].
Definition host_file (h : history) (p : string) : option string :=
  if String.eqb p "/proc/self/cgroup" then Some "0::/job-u1/proc"%string else if String.eqb p "/pipes/uploads.json" then Some "uploads"%string else None.
Definition no_file (p : string) : option string := None.
Definition no_path (h : history) (p : string) : option string := None.
Definition nobody (h : history) : Z := 65534.
(** The file that tells about the network is there at the third poll. *)
Definition third (i : nat) : bool := (2 <=? i)%nat.
Definition no_runtime (base spec : string) : option string := None.
Definition no_runtime_config (h : history) (p : string) : option (list Isolator.RuntimeMount * option (list (string * string))) := None.
(** A directory, a file in it, and a file that is uploaded twice under two names. *)
Definition sample_uploads : list FileUpload :=
  [{| up_Path := "src"; up_Content := []; up_Mode := 0; up_IsDirectory := true; up_Size := 0 |};
   {| up_Path := "src/a.txt"; up_Content := bytes "hello"; up_Mode := 420; up_IsDirectory := false; up_Size := 5 |};
   {| up_Path := "b.txt"; up_Content := bytes "old"; up_Mode := 0; up_IsDirectory := false; up_Size := 3 |};
   {| up_Path := "src/../b.txt"; up_Content := bytes "new text"; up_Mode := 0; up_IsDirectory := false; up_Size := 8 |}].
#[local] Instance sample_json : UploadsJSON := {| Unmarshal_uploads s := if String.eqb s "uploads" then Some sample_uploads else None |}.
Definition run_init (env : list string) (c : Config.Configuration) : result failure ending * history :=
  RunJobInit host_ok host_stat host_dir host_file no_path nobody nobody 5 third env 1 "/" no_runtime no_runtime_config c [].
Definition upload_env : list string :=
  ["JOB_PHASE=upload"; "JOB_ID=u1"; "JOB_CGROUP_PATH=/sys/fs/cgroup"; "JOB_CGROUP_HOST_PATH=/cg/job-u1"; "JOB_UPLOADS_FILE=/pipes/uploads.json"; "NETWORK_READY_FILE=/tmp/ready"]%string.
(** The default settings, with chunks of three bytes. *)
Definition small_chunks : Config.Configuration :=
  let c := Config.DefaultConfig in
  {| Config.Version := Config.Version c; Config.Server := Config.Server c; Config.Security := Config.Security c; Config.Joblet := Config.Joblet c; Config.Cgroup := Config.Cgroup c;
     Config.Filesystem := Config.Filesystem c; Config.GRPC := Config.GRPC c; Config.Logging := Config.Logging c; Config.Network := Config.Network c; Config.Monitoring := Config.Monitoring c;
     Config.Buffers := {| Config.bu_PubsubBufferSize := 10; Config.bu_ChunkSize := 3 |}; Config.Volumes := Config.Volumes c; Config.Runtime := Config.Runtime c;
     Config.GPU := Config.GPU c; Config.IPC := Config.IPC c; Config.State := Config.State c; Config.Telemetry := Config.Telemetry c |}.
Definition work : list word := [bytes "work"].

Lemma uploads_written_witness : ∃ h waited d iso writes, run_init upload_env small_chunks = (Ok Finished, h) ∧
  h = entered 1 waited d iso ++ writes ∧ Forall (λ e, in_workspace work e.1) writes ∧
  disk h !! "/work/b.txt"%string = Some (bytes "new text") ∧ disk h !! "/work/src/a.txt"%string = Some (bytes "hello").
Proof.
  destruct (run_init upload_env small_chunks) as [r h] eqn:E.
  assert (Hr : r = Ok Finished) by (transitivity (run_init upload_env small_chunks).1; [by rewrite E|vm_compute; reflexivity]). subst r.
  assert (Hp : getenv upload_env "JOB_PHASE" = "upload"%string) by (vm_compute; reflexivity).
  assert (Hws : Config.fs_WorkspaceDir (Config.Filesystem small_chunks) = Cgroup.path_of work) by (vm_compute; reflexivity).
  assert (Hwp : Forall plain work) by (refine (bool_decide_unpack _ _); vm_compute; exact Logic.I).
  assert (Hne : work ≠ []) by (intros W; discriminate W).
  assert (Habs : IsAbs "/" = true) by (vm_compute; reflexivity).
  unfold run_init in E.
  destruct (uploads_written _ _ _ _ _ _ _ _ _ _ _ _ _ _ _ _ _ _ Hp E Hws Hwp Hne Habs)
    as (waited & d & iso & json & uploads & writes & _ & Eh & Hw & Hj & Hu & Hd).
  exists h, waited, d, iso, writes. split; [reflexivity|]. split; [exact Eh|]. split; [exact Hw|].
  change (host_file (entered 1 waited d iso) (getenv upload_env "JOB_UPLOADS_FILE")) with (Some "uploads"%string) in Hj. injection Hj as <-.
  change (Unmarshal_uploads "uploads") with (Some sample_uploads) in Hu. injection Hu as <-.
  rewrite Hd. generalize (disk (entered 1 waited d iso)). intros m. unfold uploaded, sample_uploads. cbn [foldl].
  repeat match goal with |- context [upload_file ?a ?b ?c] => let v := eval vm_compute in (upload_file a b c) in change (upload_file a b c) with v end. cbv beta iota. cbn [up_Content].
  split; [by rewrite lookup_insert_eq|]. 
  do 2 (rewrite lookup_insert_ne; [|intros W; discriminate W]). by rewrite lookup_insert_eq.
Defined.

(** The job of [Environment.sample_env_job] in its own network. *)
Definition launched : option (list string) :=
  Environment.launched_env (Environment.with_ready_file (Some "/tmp/ready"%string)
    (Environment.BuildEnvironment (H := Environment.list_range) Environment.sample_environ no_file (Config.forwarded Config.DefaultConfig) Environment.sample_env_job "execute")).



(** A path that leaves the workspace, and a chunk size of zero, end the phase. *)
Definition escaping : UploadsJSON := {| Unmarshal_uploads s := Some [{| up_Path := "src/../../etc/passwd"; up_Content := []; up_Mode := 0; up_IsDirectory := false; up_Size := 0 |}] |}.
Example upload_outside : (RunJobInit (UJ := escaping) host_ok host_stat host_dir host_file no_path nobody nobody 5 third upload_env 1 "/" no_runtime no_runtime_config small_chunks []).1 =
  Err (FUploadPath "src/../../etc/passwd").
Proof. vm_compute. reflexivity. Qed.
(** The file that tells about the network comes after the time is up. *)
Example network_late : (RunJobInit host_ok host_stat host_dir host_file no_path nobody nobody 2 third upload_env 1 "/" no_runtime no_runtime_config small_chunks []).1 = Err FNetworkTimeout.
Proof. vm_compute. reflexivity. Qed.
(** The environment that the server builds names no file of uploads: the upload phase of a job it
    launches ends with an error. *)
Example uploads_file_unset :
  (λ env, (run_init env small_chunks).1) <$> Environment.launched_env (Environment.BuildEnvironment (H := Environment.list_range) Environment.sample_environ no_file
    (Config.forwarded Config.DefaultConfig) Environment.sample_env_job "upload") = Some (Err FNoUploadsFile).
Proof. vm_compute. reflexivity. Qed.
