(* ===== verification/S3Store.v ===== *)
(** * The S3 store of the persist service (persist/internal/storage/s3.go)

    Lines are buffered per job and stream in a gzip writer, uploaded as objects whose keys
    end in a time stamp, and read back object by object.  A call of [writeToBuffer] and a
    flush hold the buffer's mutex to the end, so each is one step; which uploads succeed,
    the clock and the length of compressed data are arguments.  An object stands for its
    decompressed lines. *)

From Stdlib Require Import Ascii String.
From S2P Require Import Prelude GoStrings Paths Job Ipc Pipeline PersistStore.

Local Open Scope Z_scope.

(** ** Objects in the order of their keys *)

(** [sort.Strings] compares bytes. *)
Fixpoint bytes_le (a b : list ascii) : bool :=
  match a, b with
  | [], _ => true
  | _ :: _, [] => false
  | x :: a, y :: b => if byte_val x <? byte_val y then true else if byte_val x =? byte_val y then bytes_le a b else false
  end.
Definition key_le (a b : string) : Prop := bytes_le (bytes a) (bytes b) = true.
#[export] Instance key_le_dec a b : Decision (key_le a b).
Proof. unfold key_le. apply _. Defined.
Definition sort_strings (l : list string) : list string := merge_sort key_le l.

(** [strings.HasSuffix]. *)
Definition HasSuffix (s p : string) : bool :=
  (List.length (bytes p) <=? List.length (bytes s))%nat &&
  bool_decide (drop (List.length (bytes s) - List.length (bytes p)) (bytes s) = bytes p).

(** ** The state *)

(** [src/persist/internal/config/config.go S3Config] *)
Record S3Config := {
  Region : string; Bucket : string; KeyPrefix : string; NodeID : string; FlushInterval : Z; FlushThreshold : Z; MaxBufferSize : Z;
}.

(** A gzip writer that takes data, one that was closed, and one that was written to after
    that, which fails from then on. *)
Inductive gzip_state := GOpen | GClosed | GBroken.

(** [src/persist/internal/storage/s3.go s3Buffer] *)
Record s3Buffer := { sb_jobID : string; sb_streamType : string; sb_lines : list string; sb_writer : gzip_state; sb_count : Z }.

(** [s_uploads] counts the uploads tried; [s_closed] is the channel [flushDone].
    [src/persist/internal/storage/s3.go S3Backend] *)
Record s3 := { s_buffers : gmap string s3Buffer; s_objects : gmap string (list string); s_uploads : nat; s_closed : bool }.

Definition set_buffers (b : gmap string s3Buffer) (s : s3) : s3 :=
  {| s_buffers := b; s_objects := s_objects s; s_uploads := s_uploads s; s_closed := s_closed s |}.

(** [src/persist/internal/storage/s3.go:53-95 NewS3Backend] *)
Definition NewS3Backend_config (c : S3Config) (nodeID : string) : result string S3Config :=
  if String.eqb (Region c) "" then Err "s3.region is required"%string
  else if String.eqb (Bucket c) "" then Err "s3.bucket is required"%string
  else
    let prefix := if String.eqb (KeyPrefix c) "" then "jobs/"%string else KeyPrefix c in
    Ok {| Region := Region c; Bucket := Bucket c; KeyPrefix := if HasSuffix prefix "/" then prefix else (prefix +:+ "/")%string;
          NodeID := nodeID; FlushInterval := if FlushInterval c =? 0 then 30 else FlushInterval c;
          FlushThreshold := if FlushThreshold c =? 0 then 5 * 1024 * 1024 else FlushThreshold c;
          MaxBufferSize := if MaxBufferSize c =? 0 then 50 * 1024 * 1024 else MaxBufferSize c |}.

(** [src/persist/internal/storage/s3.go NewS3Backend] *)
Definition NewS3Backend (objects : gmap string (list string)) : s3 :=
  {| s_buffers := ∅; s_objects := objects; s_uploads := 0; s_closed := false |}.

Section s3.
Context {Event : Type} {LJ : LineJSON Event} {SS : SortSlice}.
Context (config : S3Config).
(** Whether the [n]-th upload succeeds and at what time it is tried, in nanoseconds; the
    bytes that have come out of a gzip writer, before and after it is closed. *)
Context (put : nat → bool) (clock : nat → Z) (gzip_len : bool → list string → Z).

(** ** Writing *)

Definition buffer_key (jobID streamType : string) : string := (jobID +:+ "/" +:+ streamType)%string.

(** [src/persist/internal/storage/s3.go S3Backend.getOrCreateBuffer] *)
Definition getOrCreateBuffer (jobID streamType : string) (s : s3) : s3Buffer :=
  default {| sb_jobID := jobID; sb_streamType := streamType; sb_lines := []; sb_writer := GOpen; sb_count := 0 |}
    (s_buffers s !! buffer_key jobID streamType).

(** The length of the compressed data. *)
Definition data_len (b : s3Buffer) : Z := gzip_len (match sb_writer b with GOpen => false | _ => true end) (sb_lines b).

(** The beginning of the keys of a stream; an empty node is the own one.
    [src/persist/internal/storage/s3.go S3Backend.getS3KeyPrefix] *)
Definition getS3KeyPrefix (nodeID jobID streamType : string) : string :=
  (KeyPrefix config +:+ (if String.eqb nodeID "" then NodeID config else nodeID) +:+ "/" +:+ jobID +:+ "/" +:+ streamType +:+ "/")%string.

(** [src/persist/internal/storage/s3.go:216-222 S3Backend.flushBuffer] *)
Definition object_key (jobID streamType : string) (timestamp : Z) : string :=
  (KeyPrefix config +:+ NodeID config +:+ "/" +:+ jobID +:+ "/" +:+ streamType +:+ "/" +:+ Itoa timestamp +:+ ".jsonl.gz")%string.

(** The buffer afterwards is stored under its key.
    [src/persist/internal/storage/s3.go S3Backend.flushBuffer] *)
Definition flushBuffer (key : string) (b : s3Buffer) (s : s3) : result string unit * s3 :=
  if data_len b =? 0 then (Ok tt, set_buffers (<[key := b]> (s_buffers s)) s) else
  match sb_writer b with
  | GBroken => (Err "failed to close gzip writer"%string, set_buffers (<[key := b]> (s_buffers s)) s)
  | _ =>
      let n := s_uploads s in
      if put n then
        (Ok tt, {| s_buffers := <[key := {| sb_jobID := sb_jobID b; sb_streamType := sb_streamType b; sb_lines := []; sb_writer := GOpen; sb_count := 0 |}]> (s_buffers s);
                   s_objects := <[object_key (sb_jobID b) (sb_streamType b) (clock n) := sb_lines b]> (s_objects s);
                   s_uploads := S n; s_closed := s_closed s |})
      else
        (Err "failed to upload to S3"%string,
         {| s_buffers := <[key := {| sb_jobID := sb_jobID b; sb_streamType := sb_streamType b; sb_lines := sb_lines b; sb_writer := GClosed; sb_count := sb_count b |}]> (s_buffers s);
            s_objects := s_objects s; s_uploads := S n; s_closed := s_closed s |})
  end.

(** The write to the gzip writer of the buffer.
    [src/persist/internal/storage/s3.go:299-303 S3Backend.writeToBuffer] *)
Definition gzip_write (line : string) (b : s3Buffer) : result string unit * s3Buffer :=
  match sb_writer b with
  | GOpen => (Ok tt, {| sb_jobID := sb_jobID b; sb_streamType := sb_streamType b; sb_lines := sb_lines b ++ [line]; sb_writer := GOpen; sb_count := sb_count b + 1 |})
  | _ => (Err "failed to write to buffer"%string,
          {| sb_jobID := sb_jobID b; sb_streamType := sb_streamType b; sb_lines := sb_lines b; sb_writer := GBroken; sb_count := sb_count b |})
  end.

(** A line is what is marshalled, without the end of line that is appended to it.
    [src/persist/internal/storage/s3.go S3Backend.writeToBuffer] *)
Definition writeToBuffer (jobID streamType line : string) (s : s3) : result string unit * s3 :=
  let key := buffer_key jobID streamType in
  let b := getOrCreateBuffer jobID streamType s in
  let '(r, s) := if data_len b + (Z.of_nat (String.length line) + 1) >? MaxBufferSize config then flushBuffer key b s
                 else (Ok tt, set_buffers (<[key := b]> (s_buffers s)) s) in
  match r with
  | Err e => (Err e, s)
  | Ok _ =>
      let b := getOrCreateBuffer jobID streamType s in
      let '(r, b) := gzip_write line b in
      match r with
      | Err e => (Err e, set_buffers (<[key := b]> (s_buffers s)) s)
      | Ok _ => if data_len b >=? FlushThreshold config then flushBuffer key b s
                else (Ok tt, set_buffers (<[key := b]> (s_buffers s)) s)
      end
  end.

(** Lines in turn, up to the first error. *)
Fixpoint write_lines (jobID : string) (l : list (string * string)) (s : s3) : result string unit * s3 :=
  match l with
  | [] => (Ok tt, s)
  | (streamType, line) :: l =>
      match writeToBuffer jobID streamType line s with (Ok _, s) => write_lines jobID l s | r => r end
  end.

Definition log_stream (l : LogLine) : string := if bool_decide (l_Stream l = SStderr) then "stderr"%string else "stdout"%string.

(** [src/persist/internal/storage/s3.go S3Backend.WriteLogs] *)
Definition WriteLogs (jobID : string) (logs : list LogLine) (s : s3) : result string unit * s3 :=
  write_lines jobID ((λ l, (log_stream l, enc_log l)) <$> sort_slice (λ a b, l_Timestamp a <? l_Timestamp b) logs) s.

(** The stream of each other kind. *)
Definition kind_stream (k : hkind) : string :=
  match k with
  | HLog => "stdout" | HMetric => "metrics" | HExec => "exec-events" | HConnect => "connect-events" | HFile => "file-events"
  | HAccept => "accept-events" | HSocketData => "socket-data-events" | HMmap => "mmap-events" | HMprotect => "mprotect-events"
  end.

Definition write_kind (k : hkind) (jobID : string) (events : list Event) (s : s3) : result string unit * s3 :=
  write_lines jobID ((λ e, (kind_stream k, enc_ev k e)) <$> sort_slice (λ a b, ev_time a <? ev_time b) events) s.
(** [src/persist/internal/storage/s3.go S3Backend.WriteMetrics] *)
Definition WriteMetrics := write_kind HMetric.
(** [src/persist/internal/storage/s3.go S3Backend.WriteExecEvents] *)
Definition WriteExecEvents := write_kind HExec.
(** [src/persist/internal/storage/s3.go S3Backend.WriteConnectEvents] *)
Definition WriteConnectEvents := write_kind HConnect.
(** [src/persist/internal/storage/s3.go S3Backend.WriteFileEvents] *)
Definition WriteFileEvents := write_kind HFile.
(** [src/persist/internal/storage/s3.go S3Backend.WriteAcceptEvents] *)
Definition WriteAcceptEvents := write_kind HAccept.
(** [src/persist/internal/storage/s3.go S3Backend.WriteSocketDataEvents] *)
Definition WriteSocketDataEvents := write_kind HSocketData.
(** [src/persist/internal/storage/s3.go S3Backend.WriteMmapEvents] *)
Definition WriteMmapEvents := write_kind HMmap.
(** [src/persist/internal/storage/s3.go S3Backend.WriteMprotectEvents] *)
Definition WriteMprotectEvents := write_kind HMprotect.

(** [order]: the range over the map; a failed flush is logged.
    [src/persist/internal/storage/s3.go S3Backend.flushAllBuffers] *)
Fixpoint flushAllBuffers (order : list string) (force : bool) (s : s3) : s3 :=
  match order with
  | [] => s
  | key :: order =>
      flushAllBuffers order force
        (match s_buffers s !! key with
         | Some b => if force || (data_len b >? 0) then (flushBuffer key b s).2 else s
         | None => s
         end)
  end.

(** [None]: the channel is closed a second time, which panics.
    [src/persist/internal/storage/s3.go S3Backend.Close] *)
Definition Close (order : list string) (s : s3) : option s3 :=
  if s_closed s then None
  else Some (flushAllBuffers order true {| s_buffers := s_buffers s; s_objects := s_objects s; s_uploads := s_uploads s; s_closed := true |}).

(** ** Reading *)

(** [src/persist/internal/storage/s3.go S3Backend.listObjects] *)
Definition listObjects (prefix : string) (s : s3) : list string :=
  sort_strings (filter (λ k, HasPrefix k prefix = true) (map_to_list (s_objects s)).*1).

(** One object after the other; one that cannot be had or decompressed is passed over,
    and so is the rest of one with a line that is too long.
    [src/persist/internal/storage/s3.go:663-744 S3Backend.readLogsFromS3] *)
Fixpoint read_objects {A} (readable : string → bool) (dec : string → option A) (keep : A → bool) (offset limit : Z)
    (keys : list string) (count skipped : Z) (s : s3) : list A :=
  match keys with
  | [] => []
  | key :: keys =>
      if (limit >? 0) && (count >=? limit) then [] else
      match s_objects s !! key with
      | Some lines =>
          if readable key then
            let '(l, c, k, e) := scan dec keep offset limit lines count skipped in
            match e with SLimit => l | _ => l ++ read_objects readable dec keep offset limit keys c k s end
          else read_objects readable dec keep offset limit keys count skipped s
      | None => read_objects readable dec keep offset limit keys count skipped s
      end
  end.

(** What a failed listing comes to.
    [src/persist/internal/storage/s3.go:640-648 S3Backend.readLogsFromS3] *)
Definition list_failure (e : string) : result string unit :=
  if Contains e "NoSuchKey" || Contains e "NoSuchBucket" then Ok tt else Err ("failed to list logs from S3: " +:+ e)%string.

Definition query_stream (q : LogQuery) : string := if bool_decide (q_Stream q = SStderr) then "stderr"%string else "stdout"%string.

(** What is sent, and the error at the end; [listed] is the error of the listing.
    [src/persist/internal/storage/s3.go S3Backend.readLogsFromS3] *)
Definition readLogsFromS3 (readable : string → bool) (listed : option string) (nodeID : string) (q : LogQuery) (s : s3) : list LogLine * result string unit :=
  match listed with
  | Some e => ([], list_failure e)
  | None => (read_objects readable dec_log (keep_log q) (q_Offset q) (q_Limit q) (listObjects (getS3KeyPrefix nodeID (q_JobUUID q) (query_stream q)) s) 0 0 s, Ok tt)
  end.

Definition read_kind (k : hkind) (readable : string → bool) (listed : option string) (nodeID : string) (q : TelemetryQuery) (s : s3) : list Event * result string unit :=
  match listed with
  | Some e => ([], list_failure e)
  | None => (read_objects readable (dec_ev k) (λ x, in_time (t_StartTime q) (t_EndTime q) (ev_time x)) (t_Offset q) (t_Limit q)
               (listObjects (getS3KeyPrefix nodeID (t_JobUUID q) (kind_stream k)) s) 0 0 s, Ok tt)
  end.
(** [src/persist/internal/storage/s3.go S3Backend.readMetricsFromS3] *)
Definition readMetricsFromS3 := read_kind HMetric.
(** [src/persist/internal/storage/s3.go S3Backend.readExecEventsFromS3] *)
Definition readExecEventsFromS3 := read_kind HExec.
(** [src/persist/internal/storage/s3.go S3Backend.readConnectEventsFromS3] *)
Definition readConnectEventsFromS3 := read_kind HConnect.
(** [src/persist/internal/storage/s3.go S3Backend.readFileEventsFromS3] *)
Definition readFileEventsFromS3 := read_kind HFile.
(** [src/persist/internal/storage/s3.go S3Backend.readAcceptEventsFromS3] *)
Definition readAcceptEventsFromS3 := read_kind HAccept.
(** [src/persist/internal/storage/s3.go S3Backend.readSocketDataEventsFromS3] *)
Definition readSocketDataEventsFromS3 := read_kind HSocketData.
(** [src/persist/internal/storage/s3.go S3Backend.readMmapEventsFromS3] *)
Definition readMmapEventsFromS3 := read_kind HMmap.
(** [src/persist/internal/storage/s3.go S3Backend.readMprotectEventsFromS3] *)
Definition readMprotectEventsFromS3 := read_kind HMprotect.

(** ** Deleting *)

(** The batches of 1000 keys, of which the first [batches] are deleted.
    [src/persist/internal/storage/s3.go S3Backend.DeleteJob] *)
Definition DeleteJob (listed : bool) (batches : nat) (jobID : string) (s : s3) : result string unit * s3 :=
  let s := set_buffers (filter (λ kb, HasPrefix kb.1 (jobID +:+ "/") = false) (s_buffers s)) s in
  if negb listed then (Err "failed to list objects for deletion"%string, s) else
  let keys := listObjects (KeyPrefix config +:+ NodeID config +:+ "/" +:+ jobID +:+ "/") s in
  let gone := take (1000 * batches) keys in
  (if (length keys <=? 1000 * batches)%nat then Ok tt else Err "failed to delete S3 objects"%string,
   {| s_buffers := s_buffers s; s_objects := filter (λ kl, kl.1 ∉ gone) (s_objects s); s_uploads := s_uploads s; s_closed := s_closed s |}).
End s3.

(** ** The order of the keys *)

Lemma bytes_le_refl a : bytes_le a a = true.
Proof. induction a as [|x a IH]; [done|]. simpl. by rewrite Z.ltb_irrefl, Z.eqb_refl. Qed.
Lemma bytes_le_total a b : bytes_le a b = true ∨ bytes_le b a = true.
Proof.
  revert b. induction a as [|x a IH]; intros [|y b]; simpl; auto.
  destruct (Z.ltb_spec (byte_val x) (byte_val y)); [by left|]. destruct (Z.eqb_spec (byte_val x) (byte_val y)) as [->|].
  - rewrite Z.ltb_irrefl, Z.eqb_refl. apply IH.
  - right. destruct (Z.ltb_spec (byte_val y) (byte_val x)); [done|lia].
Qed.
Lemma bytes_le_trans a b c : bytes_le a b = true → bytes_le b c = true → bytes_le a c = true.
Proof.
  revert b c. induction a as [|x a IH]; intros [|y b] [|z c]; simpl; try done.
  destruct (Z.ltb_spec (byte_val x) (byte_val y)), (Z.eqb_spec (byte_val x) (byte_val y)),
    (Z.ltb_spec (byte_val y) (byte_val z)), (Z.eqb_spec (byte_val y) (byte_val z)),
    (Z.ltb_spec (byte_val x) (byte_val z)), (Z.eqb_spec (byte_val x) (byte_val z)); try done; try lia. apply IH.
Qed.
Lemma bytes_le_antisym a b : bytes_le a b = true → bytes_le b a = true → a = b.
Proof.
  revert b. induction a as [|x a IH]; intros [|y b]; simpl; try done.
  destruct (Z.ltb_spec (byte_val x) (byte_val y)); [rewrite (proj2 (Z.ltb_ge _ _)) by lia; by rewrite (proj2 (Z.eqb_neq _ _)) by lia|].
  destruct (Z.eqb_spec (byte_val x) (byte_val y)) as [E|]; [|done]. rewrite E, Z.ltb_irrefl, Z.eqb_refl.
  intros H1 H2. f_equal; [by apply byte_val_inj|by apply IH].
Qed.

#[export] Instance key_le_total : Total key_le.
Proof. intros a b. apply bytes_le_total. Qed.
#[export] Instance key_le_trans : Transitive key_le.
Proof. intros a b c. apply bytes_le_trans. Qed.
#[export] Instance key_le_antisym : AntiSymm (=) key_le.
Proof. intros a b H1 H2. rewrite <- (of_bytes_bytes a), <- (of_bytes_bytes b). f_equal. by apply bytes_le_antisym. Qed.

Lemma sort_strings_unique l k : Sorted key_le l → k ≡ₚ l → sort_strings k = l.
Proof.
  intros Hs Hp. apply (Sorted_unique key_le); [by apply Sorted_merge_sort, _|done|]. unfold sort_strings. by rewrite merge_sort_Permutation.
Qed.

Lemma bytes_le_prefix p a b : bytes_le (p ++ a) (p ++ b) = bytes_le a b.
Proof. induction p as [|x p IH]; [done|]. simpl. by rewrite Z.ltb_irrefl, Z.eqb_refl. Qed.

(** Digits of the same number are in the order of their values. *)
Definition digits_val (l : list ascii) : Z := foldl (λ a c, a * 10 + digit_val c) 0 l.

Lemma digits_val_acc l a : foldl (λ a c, a * 10 + digit_val c) a l = a * 10 ^ Z.of_nat (length l) + digits_val l.
Proof.
  unfold digits_val. revert a. induction l as [|c l IH]; intros a; cbn [foldl length]; [lia|].
  rewrite IH, (IH (0 * 10 + digit_val c)). rewrite Nat2Z.inj_succ, Z.pow_succ_r by lia. lia.
Qed.
Lemma digits_val_bound l : forallb is_digit l = true → 0 ≤ digits_val l < 10 ^ Z.of_nat (length l).
Proof.
  induction l as [|c l IH]; [unfold digits_val; simpl; lia|]. cbn [forallb]. intros [Hc Hl]%andb_true_iff.
  change (digits_val (c :: l)) with (foldl (λ a c, a * 10 + digit_val c) (0 * 10 + digit_val c) l). rewrite digits_val_acc.
  cbn [length]. rewrite Nat2Z.inj_succ, Z.pow_succ_r by lia. specialize (IH Hl). apply is_digit_spec in Hc.
  assert (0 ≤ digit_val c ≤ 9) by (unfold digit_val; lia). nia.
Qed.
Lemma digits_order a b : forallb is_digit a = true → forallb is_digit b = true → length a = length b →
  digits_val a < digits_val b → ∀ x y, bytes_le (a ++ x) (b ++ y) = true.
Proof.
  revert b. induction a as [|c a IH]; intros [|d b] Ha Hb Hl Hv x y; try done.
  cbn [forallb] in Ha, Hb. apply andb_true_iff in Ha as [Hc Ha], Hb as [Hd Hb]. injection Hl as Hl.
  change (digits_val (c :: a)) with (foldl (λ a c, a * 10 + digit_val c) (0 * 10 + digit_val c) a) in Hv.
  change (digits_val (d :: b)) with (foldl (λ a c, a * 10 + digit_val c) (0 * 10 + digit_val d) b) in Hv. rewrite !digits_val_acc, Hl in Hv.
  pose proof (digits_val_bound a Ha) as Ba. pose proof (digits_val_bound b Hb) as Bb. rewrite Hl in Ba. cbn [bytes_le app].
  apply is_digit_spec in Hc, Hd. unfold digit_val in Hv.
  destruct (Z.ltb_spec (byte_val c) (byte_val d)); [done|]. destruct (Z.eqb_spec (byte_val c) (byte_val d)) as [E|]; [|nia].
  apply IH; [done|done|done|]. rewrite E in Hv. lia.
Qed.
Lemma digits_length fuel n acc (k : nat) : (k < fuel)%nat → 10 ^ Z.of_nat k ≤ n < 10 ^ Z.of_nat (S k) → length (digits fuel n acc) = (S k + length acc)%nat.
Proof.
  revert n acc k. induction fuel as [|fuel IH]; intros n acc k Hf Hn; [lia|]. cbn [digits].
  destruct k as [|k].
  - rewrite (proj2 (Z.ltb_lt _ _)) by (simpl in Hn; lia). done.
  - assert (10 ^ Z.of_nat (S k) = 10 * 10 ^ Z.of_nat k) as E1 by (rewrite Nat2Z.inj_succ, Z.pow_succ_r by lia; lia).
    assert (10 ^ Z.of_nat (S (S k)) = 10 * 10 ^ Z.of_nat (S k)) as E2 by (rewrite (Nat2Z.inj_succ (S k)), Z.pow_succ_r by lia; lia).
    assert (0 < 10 ^ Z.of_nat k) by (apply Z.pow_pos_nonneg; lia).
    rewrite (proj2 (Z.ltb_ge _ _)) by lia. rewrite (IH _ _ k); [simpl; lia|lia|].
    split; [apply Z.div_le_lower_bound; lia|apply Z.div_lt_upper_bound; lia].
Qed.

(** A time in nanoseconds, from 2001 to 2286, has 19 digits. *)
Definition in_19_digits (t : Z) : Prop := 10 ^ 18 ≤ t < 10 ^ 19.

Lemma Itoa_19 t : in_19_digits t → length (bytes (Itoa t)) = 19%nat ∧ forallb is_digit (bytes (Itoa t)) = true ∧ digits_val (bytes (Itoa t)) = t.
Proof.
  intros Ht. unfold in_19_digits in Ht. rewrite Itoa_nonneg, bytes_of_bytes by lia. split_and!.
  - unfold digits_of. rewrite (digits_length _ _ _ 18); [done| |exact Ht].
    assert (19 ≤ Z.log2 t) by (apply Z.log2_le_pow2; lia). lia.
  - apply digits_of_digits. lia.
  - pose proof (parse_digits_of t ltac:(lia)) as H. unfold parse_digits in H. rewrite bool_decide_eq_false_2 in H by apply digits_of_nonempty.
    rewrite digits_of_digits in H by lia. by injection H.
Qed.

(** ** What is held of a stream *)

Definition no_slash (w : string) : Prop := "/"%char ∉ bytes w.

Section held.
Context {Event : Type} {LJ : LineJSON Event} {SS : SortSlice}.
Context (config : S3Config) (put : nat → bool) (clock : nat → Z) (gzip_len : bool → list string → Z).
(** The clock of the first [bound] uploads. *)
Context (bound : nat).
Hypothesis clock_range : ∀ n, (n < bound)%nat → in_19_digits (clock n).
Hypothesis clock_forward : ∀ n m, (n < m)%nat → (m < bound)%nat → clock n < clock m.

Local Abbreviation pre := (getS3KeyPrefix config "").
Local Abbreviation obj := (object_key config).

(** The lines of a stream in its objects, in the order of their keys, and those in its
    buffer. *)
Definition stored (jobID st : string) (s : s3) : list string :=
  concat ((λ k, default [] (s_objects s !! k)) <$> listObjects (pre jobID st) s).
Definition buffered (jobID st : string) (s : s3) : list string := sb_lines (getOrCreateBuffer jobID st s).
Definition held (jobID st : string) (s : s3) : list string := stored jobID st s ++ buffered jobID st s.

Record s3_inv (s : s3) : Prop := {
  si_keys : ∀ k o, s_objects s !! k = Some o → ∃ j st n, no_slash j ∧ no_slash st ∧ (n < s_uploads s)%nat ∧ k = obj j st (clock n);
  si_buffers : ∀ k b, s_buffers s !! k = Some b → k = buffer_key (sb_jobID b) (sb_streamType b) ∧ no_slash (sb_jobID b) ∧ no_slash (sb_streamType b);
}.

Lemma cut_unique (a b x y : list ascii) : "/"%char ∉ a → "/"%char ∉ b → a ++ "/"%char :: x = b ++ "/"%char :: y → a = b ∧ x = y.
Proof. intros Ha Hb E. pose proof (cut_bytes_app "/" a x Ha) as H. rewrite E, cut_bytes_app in H by done. by injection H. Qed.

Lemma buffer_key_inj j st j' st' : no_slash j → no_slash j' → buffer_key j st = buffer_key j' st' → j = j' ∧ st = st'.
Proof.
  intros Hj Hj' E%(f_equal bytes). unfold buffer_key in E. rewrite !bytes_app in E. apply cut_unique in E as [E1 E2]; [|done|done].
  split; by apply bytes_inj.
Qed.

Lemma pre_bytes j st : bytes (pre j st) = bytes (KeyPrefix config) ++ bytes (NodeID config) ++ "/"%char :: bytes j ++ "/"%char :: bytes st ++ ["/"%char].
Proof. unfold getS3KeyPrefix. rewrite !bytes_app. done. Qed.
Lemma obj_bytes j st t : bytes (obj j st t) = bytes (KeyPrefix config) ++ bytes (NodeID config) ++ "/"%char :: bytes j ++ "/"%char :: bytes st ++ "/"%char :: bytes (Itoa t) ++ bytes ".jsonl.gz".
Proof. unfold object_key. rewrite !bytes_app. done. Qed.

Lemma obj_prefix j st t j' st' : no_slash j → no_slash j' → no_slash st → no_slash st' →
  HasPrefix (obj j st t) (pre j' st') = true ↔ j = j' ∧ st = st'.
Proof.
  intros Hj Hj' Hs Hs'. rewrite HasPrefix_bytes, obj_bytes, pre_bytes. split.
  - intros [l E]. do 5 (rewrite <- ?app_assoc in E; cbn [app] in E). apply app_inv_head, app_inv_head in E. injection E as E.
    apply cut_unique in E as [E1 E]; [|done|done]. apply cut_unique in E as [E2 _]; [|done|done]. split; by apply bytes_inj.
  - intros [-> ->]. exists (bytes (Itoa t) ++ bytes ".jsonl.gz"). by do 5 (rewrite <- ?app_assoc; cbn [app]).
Qed.

Lemma obj_order j st n m : (n < m)%nat → (m < bound)%nat → key_le (obj j st (clock n)) (obj j st (clock m)).
Proof.
  intros Hnm Hm. pose proof (clock_forward n m Hnm Hm) as H. unfold key_le. rewrite !obj_bytes, !bytes_le_prefix.
  change ("/"%char :: bytes j ++ ?x) with (("/"%char :: bytes j) ++ x). rewrite bytes_le_prefix.
  change ("/"%char :: bytes st ++ ?x) with (("/"%char :: bytes st) ++ x). rewrite bytes_le_prefix.
  change ("/"%char :: ?x) with (["/"%char] ++ x). rewrite bytes_le_prefix.
  destruct (Itoa_19 _ (clock_range n ltac:(lia))) as (L1 & D1 & V1), (Itoa_19 _ (clock_range m Hm)) as (L2 & D2 & V2).
  apply digits_order; [done|done|congruence|lia].
Qed.

Lemma listed_elem p s x : x ∈ listObjects p s ↔ is_Some (s_objects s !! x) ∧ HasPrefix x p = true.
Proof.
  unfold listObjects, sort_strings. rewrite merge_sort_Permutation, list_elem_of_filter. rewrite list_elem_of_fmap. split.
  - intros [Hp ([y o] & -> & H)]. apply elem_of_map_to_list in H. simpl. eauto.
  - intros [[o H] Hp]. split; [done|]. exists (x, o). split; [done|]. by apply elem_of_map_to_list.
Qed.

Definition with_object (k : string) (o : list string) (s : s3) : s3 :=
  {| s_buffers := s_buffers s; s_objects := <[k := o]> (s_objects s); s_uploads := S (s_uploads s); s_closed := s_closed s |}.

Lemma object_fresh s j st : (s_uploads s < bound)%nat → s3_inv s → no_slash j → no_slash st → s_objects s !! obj j st (clock (s_uploads s)) = None.
Proof.
  intros Hup [Hk _] Hj Hs. destruct (s_objects s !! _) as [o|] eqn:E; [|done]. destruct (Hk _ _ E) as (j' & st' & n & Hj' & Hs' & Hn & Eq).
  exfalso. apply (f_equal bytes) in Eq. rewrite !obj_bytes in Eq.
  do 2 apply app_inv_head in Eq. injection Eq as Eq. apply cut_unique in Eq as [_ Eq]; [|done|done]. apply cut_unique in Eq as [_ Eq]; [|done|done].
  apply app_inv_tail in Eq. pose proof (clock_forward _ _ Hn Hup).
  destruct (Itoa_19 _ (clock_range n ltac:(lia))) as (_ & _ & V1), (Itoa_19 _ (clock_range (s_uploads s) Hup)) as (_ & _ & V2). rewrite <- Eq in V1. lia.
Qed.

Lemma listed_insert s j st o : (s_uploads s < bound)%nat → s3_inv s → no_slash j → no_slash st →
  listObjects (pre j st) (with_object (obj j st (clock (s_uploads s))) o s) = listObjects (pre j st) s ++ [obj j st (clock (s_uploads s))].
Proof.
  intros Hup Hi Hj Hs. pose proof (object_fresh s j st Hup Hi Hj Hs) as Hf. set (k := obj j st (clock (s_uploads s))) in *.
  apply sort_strings_unique.
  - apply StronglySorted_Sorted, StronglySorted_app. split_and!.
    + intros x y Hx ->%list_elem_of_singleton. apply listed_elem in Hx as [[o' Hx] Hp]. destruct (si_keys s Hi _ _ Hx) as (j' & st' & n & Hj' & Hs' & Hn & ->).
      apply obj_prefix in Hp as [-> ->]; [|done..]. by apply obj_order.
    + apply Sorted_StronglySorted; [apply _|]. apply Sorted_merge_sort, _.
    + repeat constructor.
  - unfold listObjects at 1, with_object. cbn [s_objects]. rewrite map_to_list_insert by done. rewrite fmap_cons. cbn [fst].
    rewrite filter_cons_True by (apply obj_prefix; done). rewrite Permutation_app_comm. simpl. f_equiv. unfold listObjects, sort_strings. by rewrite merge_sort_Permutation.
Qed.

Lemma listed_insert_other s j st j' st' o : (s_uploads s < bound)%nat → s3_inv s → no_slash j → no_slash st → no_slash j' → no_slash st' → (j, st) ≠ (j', st') →
  listObjects (pre j' st') (with_object (obj j st (clock (s_uploads s))) o s) = listObjects (pre j' st') s.
Proof.
  intros Hup Hi Hj Hs Hj' Hs' Hne. pose proof (object_fresh s j st Hup Hi Hj Hs) as Hf. apply sort_strings_unique.
  - apply Sorted_merge_sort, _.
  - unfold with_object. cbn [s_objects]. rewrite map_to_list_insert by done. rewrite fmap_cons. cbn [fst].
    rewrite filter_cons_False; [unfold listObjects, sort_strings; by rewrite merge_sort_Permutation|].
    rewrite obj_prefix by done. intros [-> ->]. done.
Qed.

Lemma stored_insert s j st o j' st' : (s_uploads s < bound)%nat → s3_inv s → no_slash j → no_slash st → no_slash j' → no_slash st' →
  stored j' st' (with_object (obj j st (clock (s_uploads s))) o s) = stored j' st' s ++ (if decide ((j, st) = (j', st')) then o else []).
Proof.
  intros Hup Hi Hj Hs Hj' Hs'. pose proof (object_fresh s j st Hup Hi Hj Hs) as Hf. unfold stored.
  assert (Hsame : ∀ keys : list string, (∀ x, x ∈ keys → is_Some (s_objects s !! x)) →
    ((λ k, default [] (s_objects (with_object (obj j st (clock (s_uploads s))) o s) !! k)) <$> keys) = ((λ k, default [] (s_objects s !! k)) <$> keys)).
  { intros keys Hk. apply list_fmap_ext. intros i x Hx. unfold with_object. cbn [s_objects]. rewrite lookup_insert_ne; [done|].
    intros <-. apply list_elem_of_lookup_2, Hk in Hx. rewrite Hf in Hx. by destruct Hx. }
  assert (Hl : ∀ x, x ∈ listObjects (pre j' st') s → is_Some (s_objects s !! x)) by (intros x Hx; by apply listed_elem in Hx as [? _]).
  destruct (decide _) as [[= <- <-]|Hne].
  - rewrite listed_insert by done. rewrite fmap_app, concat_app, Hsame by done. f_equal. simpl. rewrite lookup_insert_eq. simpl. by rewrite app_nil_r.
  - rewrite listed_insert_other by done. by rewrite Hsame, app_nil_r.
Qed.

Definition put_buffer (b : s3Buffer) (s : s3) : s3 := set_buffers (<[buffer_key (sb_jobID b) (sb_streamType b) := b]> (s_buffers s)) s.

Definition good_buffer (b : s3Buffer) : Prop := no_slash (sb_jobID b) ∧ no_slash (sb_streamType b).

Lemma put_buffer_inv b s : s3_inv s → good_buffer b → s3_inv (put_buffer b s).
Proof.
  intros [Hk Hb] Hg. split; [done|]. intros k b' H. cbn [put_buffer set_buffers s_buffers] in H.
  apply lookup_insert_Some in H as [[<- <-]|[_ H]]; [by destruct Hg|by apply Hb].
Qed.

Lemma held_put_buffer b s j st : good_buffer b → no_slash j → no_slash st →
  held j st (put_buffer b s) = stored j st s ++ (if decide ((sb_jobID b, sb_streamType b) = (j, st)) then sb_lines b else buffered j st s).
Proof.
  intros [Hj Hs] Hj' Hs'. unfold held. f_equal. unfold buffered, getOrCreateBuffer, put_buffer. cbn [set_buffers s_buffers].
  destruct (decide _) as [[= <- <-]|Hne]; [by rewrite lookup_insert_eq|]. rewrite lookup_insert_ne; [done|].
  intros Heq%buffer_key_inj; [|done|done]. by destruct Heq as [<- <-].
Qed.

(** A flush moves lines from the buffer to an object, or leaves them. *)
Lemma flush_held b s r s' : s3_inv s → good_buffer b → flushBuffer config put clock gzip_len (buffer_key (sb_jobID b) (sb_streamType b)) b s = (r, s') → (s_uploads s' ≤ bound)%nat →
  s3_inv s' ∧ ∀ j st, no_slash j → no_slash st → held j st s' = held j st (put_buffer b s).
Proof.
  intros Hi Hg. unfold flushBuffer. destruct (_ =? 0); [intros [= <- <-] _; split; [by apply put_buffer_inv|done]|].
  assert (Hkeep : ∀ w, s3_inv (put_buffer {| sb_jobID := sb_jobID b; sb_streamType := sb_streamType b; sb_lines := sb_lines b; sb_writer := w; sb_count := sb_count b |} s) ∧
    ∀ j st, no_slash j → no_slash st → held j st (put_buffer {| sb_jobID := sb_jobID b; sb_streamType := sb_streamType b; sb_lines := sb_lines b; sb_writer := w; sb_count := sb_count b |} s) =
      held j st (put_buffer b s)).
  { intros w. split; [by apply put_buffer_inv|]. intros j st Hj Hs. by rewrite !held_put_buffer. }
  assert (Hup : ∀ n s0, s3_inv s0 → (s_uploads s0 ≤ n)%nat → s3_inv {| s_buffers := s_buffers s0; s_objects := s_objects s0; s_uploads := n; s_closed := s_closed s0 |} ∧
     ∀ j st, held j st {| s_buffers := s_buffers s0; s_objects := s_objects s0; s_uploads := n; s_closed := s_closed s0 |} = held j st s0).
  { intros n s0 [Hk Hb] Hn. split; [|done]. split; [|done]. intros k o H. destruct (Hk k o H) as (j & st & m & ? & ? & ? & ->). exists j, st, m. split_and!; try done. cbn. lia. }
  assert (Hflush : (if put (s_uploads s) then
        (Ok tt, {| s_buffers := <[buffer_key (sb_jobID b) (sb_streamType b) := {| sb_jobID := sb_jobID b; sb_streamType := sb_streamType b; sb_lines := []; sb_writer := GOpen; sb_count := 0 |}]> (s_buffers s);
                   s_objects := <[obj (sb_jobID b) (sb_streamType b) (clock (s_uploads s)) := sb_lines b]> (s_objects s);
                   s_uploads := S (s_uploads s); s_closed := s_closed s |})
      else
        (Err "failed to upload to S3"%string,
         {| s_buffers := <[buffer_key (sb_jobID b) (sb_streamType b) := {| sb_jobID := sb_jobID b; sb_streamType := sb_streamType b; sb_lines := sb_lines b; sb_writer := GClosed; sb_count := sb_count b |}]> (s_buffers s);
            s_objects := s_objects s; s_uploads := S (s_uploads s); s_closed := s_closed s |})) = (r, s') → (s_uploads s' ≤ bound)%nat →
    s3_inv s' ∧ ∀ j st, no_slash j → no_slash st → held j st s' = held j st (put_buffer b s)).
  { destruct (put _); intros [= <- <-] Hup2; cbn [s_uploads] in Hup2.
    - destruct Hg as [Hgj Hgs]. split.
      + split; cbn [s_objects s_buffers s_uploads].
        * intros k o [[<- <-]|[_ H]]%lookup_insert_Some; [by exists (sb_jobID b), (sb_streamType b), (s_uploads s); split_and!; [..|lia|]|].
          destruct (si_keys s Hi k o H) as (j & st & m & ? & ? & ? & ->). exists j, st, m. split_and!; try done. lia.
        * intros k o [[<- <-]|[_ H]]%lookup_insert_Some; [done|by apply (si_buffers s Hi)].
      + intros j st Hj Hs. rewrite held_put_buffer by done. unfold held.
        change (stored j st _) with (stored j st (with_object (obj (sb_jobID b) (sb_streamType b) (clock (s_uploads s))) (sb_lines b) s)) at 1.
        rewrite stored_insert by done. rewrite <- app_assoc. f_equal. unfold buffered, getOrCreateBuffer. cbn [s_buffers].
        destruct (decide _) as [[= <- <-]|Hne]; [rewrite lookup_insert_eq; simpl; by rewrite app_nil_r|].
        rewrite lookup_insert_ne; [done|]. intros Heq%buffer_key_inj; [|done|done]. by destruct Heq as [<- <-].
    - destruct (Hkeep GClosed) as [H1 H2]. destruct (Hup (S (s_uploads s)) _ H1) as [H3 H4]; [cbn; lia|]. split; [exact H3|].
      intros j st Hj Hs. rewrite <- H2 by done. apply H4. }
  destruct (sb_writer b); [exact Hflush|exact Hflush|]. intros [= <- <-] _. split; [by apply put_buffer_inv|done].
Qed.

Lemma buffer_good j st s : s3_inv s → no_slash j → no_slash st →
  good_buffer (getOrCreateBuffer j st s) ∧ sb_jobID (getOrCreateBuffer j st s) = j ∧ sb_streamType (getOrCreateBuffer j st s) = st.
Proof.
  intros [_ Hb] Hj Hs. unfold getOrCreateBuffer. destruct (s_buffers s !! _) as [b|] eqn:E; [|done]. cbn [default from_option id].
  destruct (Hb _ _ E) as (Hk & H1 & H2). apply buffer_key_inj in Hk as [-> ->]; done.
Qed.

Lemma held_same j st s : s3_inv s → no_slash j → no_slash st → ∀ j' st', no_slash j' → no_slash st' →
  held j' st' (put_buffer (getOrCreateBuffer j st s) s) = held j' st' s.
Proof.
  intros Hi Hj Hs j' st' Hj' Hs'. destruct (buffer_good j st s Hi Hj Hs) as (Hg & E1 & E2). rewrite held_put_buffer by done. unfold held. f_equal.
  rewrite E1, E2. by destruct (decide _) as [[= -> ->]|].
Qed.

(** Uploads are only counted up. *)
Lemma flush_mono key b s : (s_uploads s ≤ s_uploads (flushBuffer config put clock gzip_len key b s).2)%nat.
Proof. unfold flushBuffer. destruct (_ =? 0); [done|]. destruct (sb_writer b), (put (s_uploads s)); cbn; lia. Qed.
Lemma write_mono j st line s : (s_uploads s ≤ s_uploads (writeToBuffer config put clock gzip_len j st line s).2)%nat.
Proof.
  unfold writeToBuffer. assert (H1 : (s_uploads s ≤ s_uploads (if data_len gzip_len (getOrCreateBuffer j st s) + (Z.of_nat (String.length line) + 1) >? MaxBufferSize config
      then flushBuffer config put clock gzip_len (buffer_key j st) (getOrCreateBuffer j st s) s
      else (Ok tt, set_buffers (<[buffer_key j st := getOrCreateBuffer j st s]> (s_buffers s)) s)).2)%nat) by (destruct (_ >? _); [apply flush_mono|done]).
  destruct (if _ >? _ then _ else _) as [[[]|e] s1]; cbn [snd] in H1; [|done]. unfold gzip_write. destruct (sb_writer _); [|done|done].
  destruct (_ >=? _); [|done]. etransitivity; [exact H1|apply flush_mono].
Qed.
Lemma lines_mono j l s : (s_uploads s ≤ s_uploads (write_lines config put clock gzip_len j l s).2)%nat.
Proof.
  revert s. induction l as [|[st line] l IH]; intros s; cbn [write_lines]; [done|]. pose proof (write_mono j st line s) as H.
  destruct (writeToBuffer _ _ _ _ j st line s) as [[[]|e] s1]; cbn [snd] in *; [|done]. etransitivity; [exact H|apply IH].
Qed.
Lemma flushAll_mono order force s : (s_uploads s ≤ s_uploads (flushAllBuffers config put clock gzip_len order force s))%nat.
Proof.
  revert s. induction order as [|key order IH]; intros s; cbn [flushAllBuffers]; [done|]. etransitivity; [|apply IH].
  destruct (s_buffers s !! key); [|done]. destruct (_ || _); [apply flush_mono|done].
Qed.

(** A line that is written is held once, at the end of its stream, and no other stream
    changes; an error may keep the line or not. *)
Lemma write_held j st line s r s' : s3_inv s → no_slash j → no_slash st → writeToBuffer config put clock gzip_len j st line s = (r, s') → (s_uploads s' ≤ bound)%nat →
  s3_inv s' ∧ ∃ l, (l = [line] ∨ l = [] ∧ r ≠ Ok tt) ∧
    ∀ j' st', no_slash j' → no_slash st' → held j' st' s' = held j' st' s ++ (if decide ((j, st) = (j', st')) then l else []).
Proof.
  intros Hi Hj Hs. unfold writeToBuffer.
  assert (Hfirst : ∀ r1 s1, (if data_len gzip_len (getOrCreateBuffer j st s) + (Z.of_nat (String.length line) + 1) >? MaxBufferSize config
      then flushBuffer config put clock gzip_len (buffer_key j st) (getOrCreateBuffer j st s) s
      else (Ok tt, set_buffers (<[buffer_key j st := getOrCreateBuffer j st s]> (s_buffers s)) s)) = (r1, s1) → (s_uploads s1 ≤ bound)%nat →
    s3_inv s1 ∧ ∀ j' st', no_slash j' → no_slash st' → held j' st' s1 = held j' st' s).
  { destruct (buffer_good j st s Hi Hj Hs) as (Hg & E1 & E2). pose proof (held_same j st s Hi Hj Hs) as Hsame.
    set (b := getOrCreateBuffer j st s) in *. assert (Ek : buffer_key j st = buffer_key (sb_jobID b) (sb_streamType b)) by congruence. rewrite Ek.
    intros r1 s1. destruct (_ >? _).
    - intros H Hup. apply flush_held in H as [H1 H2]; [|done|done|done]. split; [done|]. intros j' st' Hj' Hs'. by rewrite H2, Hsame.
    - intros [= <- <-] _. split; [by apply put_buffer_inv|]. by apply Hsame. }
  destruct (if _ >? _ then _ else _) as [r1 s1]. intros H Hup. assert (Hup1 : (s_uploads s1 ≤ bound)%nat).
  { etransitivity; [|exact Hup]. destruct r1 as [[]|e]; [|by injection H as _ <-]. unfold gzip_write in H.
    destruct (sb_writer _); [destruct (_ >=? _)|..]; [|injection H as _ <-; done..]. apply (f_equal snd) in H. cbn [snd] in H. rewrite <- H. apply flush_mono. }
  destruct (Hfirst r1 s1 eq_refl Hup1) as [Hi1 Hh1]. clear Hfirst. revert H.
  destruct r1 as [[]|e]; [|intros [= <- <-]; split; [done|]; exists []; split; [by right|]; intros j' st' Hj' Hs'; rewrite Hh1 by done; by destruct (decide _); rewrite app_nil_r].
  destruct (buffer_good j st s1 Hi1 Hj Hs) as (Hg & E1 & E2). pose proof (held_same j st s1 Hi1 Hj Hs) as Hsame.
  set (b := getOrCreateBuffer j st s1) in *. assert (Ek : buffer_key j st = buffer_key (sb_jobID b) (sb_streamType b)) by congruence. rewrite Ek.
  unfold gzip_write. destruct (sb_writer b) eqn:Ew.
  2,3: intros [= <- <-]; split; [by apply (put_buffer_inv {| sb_jobID := sb_jobID b; sb_streamType := sb_streamType b; sb_lines := sb_lines b; sb_writer := GBroken; sb_count := sb_count b |})|];
    exists []; split; [by right|]; intros j' st' Hj' Hs'; etransitivity; [apply (held_put_buffer {| sb_jobID := sb_jobID b; sb_streamType := sb_streamType b; sb_lines := sb_lines b; sb_writer := GBroken; sb_count := sb_count b |}); done|];
    rewrite <- Hh1, <- (Hsame j' st') by done; rewrite held_put_buffer by done; destruct (decide ((j, st) = _)); by rewrite app_nil_r.
  set (b' := {| sb_jobID := sb_jobID b; sb_streamType := sb_streamType b; sb_lines := sb_lines b ++ [line]; sb_writer := GOpen; sb_count := sb_count b + 1 |}).
  assert (Hb' : ∀ j' st', no_slash j' → no_slash st' → held j' st' (put_buffer b' s1) = held j' st' s ++ (if decide ((j, st) = (j', st')) then [line] else [])).
  { intros j' st' Hj' Hs'. rewrite <- Hh1, <- (Hsame j' st') by done. rewrite !held_put_buffer by done. cbn [b' sb_jobID sb_streamType sb_lines].
    rewrite E1, E2. destruct (decide _); [by rewrite app_assoc|by rewrite app_nil_r]. }
  intros H. assert (Hend : s3_inv s' ∧ ∀ j' st', no_slash j' → no_slash st' → held j' st' s' = held j' st' (put_buffer b' s1)).
  { destruct (_ >=? _).
    - apply (flush_held b') in H; [done|done|done|done].
    - injection H as <- <-. split; [by apply (put_buffer_inv b')|done]. }
  destruct Hend as [Hi' Hh']. split; [done|]. exists [line]. split; [by left|]. intros j' st' Hj' Hs'. by rewrite Hh', Hb'.
Qed.

(** Lines of several streams of a job in turn. *)
Lemma write_lines_inv j l s r s' : s3_inv s → no_slash j → Forall (λ x, no_slash x.1) l →
  write_lines config put clock gzip_len j l s = (r, s') → (s_uploads s' ≤ bound)%nat → s3_inv s'.
Proof.
  intros Hi Hj Hl. revert s Hi. induction Hl as [|[st line] l Hst Hl IH]; intros s Hi H Hup; cbn [write_lines] in H; [by injection H as _ <-|].
  destruct (writeToBuffer _ _ _ _ j st line s) as [r1 s1] eqn:E.
  assert (Hup1 : (s_uploads s1 ≤ bound)%nat).
  { etransitivity; [|exact Hup]. destruct r1 as [[]|]; [|by injection H as _ <-]. pose proof (lines_mono j l s1) as Hm. by rewrite H in Hm. }
  destruct (write_held _ _ _ _ _ _ Hi Hj Hst E Hup1) as [Hi1 _]. destruct r1 as [[]|]; [by apply (IH s1)|by injection H as _ <-].
Qed.

Lemma flushAll_held order force s : s3_inv s → (s_uploads (flushAllBuffers config put clock gzip_len order force s) ≤ bound)%nat → s3_inv (flushAllBuffers config put clock gzip_len order force s) ∧
  ∀ j st, no_slash j → no_slash st → held j st (flushAllBuffers config put clock gzip_len order force s) = held j st s.
Proof.
  revert s. induction order as [|key order IH]; intros s Hi; cbn [flushAllBuffers]; [done|].
  destruct (s_buffers s !! key) as [b|] eqn:E; [|by apply IH]. destruct (force || _); [|by apply IH].
  destruct (si_buffers s Hi _ _ E) as (-> & Hj & Hs). destruct (flushBuffer _ _ _ _ _ b s) as [r s1] eqn:Ef. cbn [snd]. intros Hup.
  apply flush_held in Ef as [Hi1 Hh1]; [|done|done|etransitivity; [apply (flushAll_mono order force)|exact Hup]].
  destruct (IH s1 Hi1 Hup) as [Hi2 Hh2]. split; [done|].
  intros j st Hj' Hs'. rewrite Hh2, Hh1 by done. rewrite held_put_buffer by done. unfold held. f_equal.
  destruct (decide _) as [Heq|]; [|done]. injection Heq as <- <-. unfold buffered, getOrCreateBuffer. by rewrite E.
Qed.

Lemma buffer_prefix j st j' : no_slash j → no_slash j' → HasPrefix (buffer_key j st) (j' +:+ "/") = true ↔ j = j'.
Proof.
  intros Hj Hj'. rewrite HasPrefix_bytes. unfold buffer_key. rewrite !bytes_app. split.
  - intros [l E]. rewrite <- app_assoc in E. apply cut_unique in E as [E _]; [by apply bytes_inj|done|done].
  - intros ->. exists (bytes st). by rewrite <- app_assoc.
Qed.

Lemma job_prefix j st t j' : no_slash j → no_slash j' → HasPrefix (obj j st t) (KeyPrefix config +:+ NodeID config +:+ "/" +:+ j' +:+ "/") = true ↔ j = j'.
Proof.
  intros Hj Hj'. rewrite HasPrefix_bytes, obj_bytes. rewrite !bytes_app. split.
  - intros [l E]. do 4 (rewrite <- ?app_assoc in E; cbn [app bytes] in E). apply app_inv_head, app_inv_head in E. injection E as E.
    apply cut_unique in E as [E _]; [by apply bytes_inj|done|done].
  - intros ->. exists (bytes st ++ "/"%char :: bytes (Itoa t) ++ bytes ".jsonl.gz"). by do 4 (rewrite <- ?app_assoc; cbn [app bytes]).
Qed.

(** A deletion leaves the other jobs alone; when it succeeds nothing is held of the job. *)
Lemma delete_held listed batches j s r s' : s3_inv s → no_slash j → DeleteJob config listed batches j s = (r, s') →
  s3_inv s' ∧ ∀ j' st, no_slash j' → no_slash st → (j' ≠ j → held j' st s' = held j' st s) ∧ (r = Ok tt → j' = j → held j' st s' = []).
Proof.
  intros Hi Hj. unfold DeleteJob. set (s0 := set_buffers _ s).
  assert (H0 : s3_inv s0). { split; [apply Hi|]. intros k b [H _]%map_lookup_filter_Some. by apply (si_buffers s Hi). }
  assert (Hb : ∀ j' st, no_slash j' → no_slash st → buffered j' st s0 = if decide (j' = j) then [] else buffered j' st s).
  { intros j' st Hj' Hs. unfold buffered, getOrCreateBuffer, s0. cbn [set_buffers s_buffers]. rewrite map_lookup_filter. cbn [fst].
    destruct (s_buffers s !! buffer_key j' st) as [b|]; cbn; [|by destruct (decide _)].
    destruct (decide (j' = j)) as [->|Hne].
    - rewrite option_guard_False; [done|]. intros Hf. by rewrite (proj2 (buffer_prefix j st j Hj Hj)) in Hf.
    - rewrite option_guard_True; [done|]. apply not_true_iff_false. by rewrite buffer_prefix. }
  destruct listed; cbn [negb].
  2:{ intros [= <- <-]. split; [done|]. intros j' st Hj' Hs. split; [|done]. intros Hne. unfold held. rewrite Hb by done. by rewrite decide_False. }
  set (keys := listObjects _ s0). set (gone := take _ keys). intros Heq%pair_eq. destruct Heq as [<- <-].
  assert (Hgone : ∀ x, x ∈ gone → HasPrefix x (KeyPrefix config +:+ NodeID config +:+ "/" +:+ j +:+ "/") = true).
  { intros x Hx. apply elem_of_take in Hx as (i & Hx & _). apply list_elem_of_lookup_2 in Hx. by apply listed_elem in Hx as [_ ?]. }
  match goal with |- s3_inv ?x ∧ _ => set (s1 := x) end.
  assert (Hi1 : s3_inv s1). { split; [|apply H0]. intros k o [H _]%map_lookup_filter_Some. by apply (si_keys s0 H0) in H. }
  assert (Hl : ∀ j' st, no_slash j' → no_slash st → j' ≠ j → stored j' st s1 = stored j' st s).
  { intros j' st Hj' Hs Hne.
    assert (Hin : ∀ x, HasPrefix x (pre j' st) = true → s_objects s1 !! x = s_objects s !! x).
    { intros x Hx. unfold s1. cbn [s_objects]. rewrite map_lookup_filter. change (s_objects s0) with (s_objects s).
      destruct (s_objects s !! x) as [o|] eqn:Eo; [|done]. cbn. apply option_guard_True. intros Hg%Hgone.
      destruct (si_keys s Hi _ _ Eo) as (j2 & st2 & n & Hj2 & Hs2 & _ & ->). apply obj_prefix in Hx as [-> ->]; [|done..].
      by apply job_prefix in Hg. }
    unfold stored. assert (El : listObjects (pre j' st) s1 = listObjects (pre j' st) s).
    { apply sort_strings_unique; [apply Sorted_merge_sort, _|]. unfold listObjects, sort_strings. rewrite merge_sort_Permutation.
      apply NoDup_Permutation; [apply NoDup_filter, NoDup_fst_map_to_list|apply NoDup_filter, NoDup_fst_map_to_list|].
      intros x. rewrite !list_elem_of_filter, !list_elem_of_fmap. split; intros [Hx ([y o] & -> & H)]; (split; [done|]); exists (y, o); (split; [done|]);
        apply elem_of_map_to_list; apply elem_of_map_to_list in H; cbn in Hx; rewrite Hin in *; done. }
    rewrite El. f_equal. apply list_fmap_ext. intros i x Hx. apply list_elem_of_lookup_2, listed_elem in Hx as [_ Hx]. by rewrite Hin. }
  assert (Hb1 : ∀ j' st, buffered j' st s1 = buffered j' st s0) by done.
  split; [done|]. intros j' st Hj' Hs. split.
  - intros Hne. unfold held. rewrite Hl by done. rewrite (Hb1 j' st), Hb by done. by rewrite decide_False.
  - intros Hr ->. unfold held. rewrite (Hb1 j st), Hb, decide_True by done. rewrite app_nil_r.
    revert Hr. destruct (Nat.leb_spec (length keys) (1000 * batches)) as [Hle|]; [intros _|done].
    assert (Hnone : listObjects (pre j st) s1 = []).
    { apply elem_of_nil_inv. intros x [[o Hx] Hp]%listed_elem. unfold s1 in Hx. cbn [s_objects] in Hx. apply map_lookup_filter_Some in Hx as [Hx Hn].
      destruct (si_keys s Hi _ _ Hx) as (j2 & st2 & n & Hj2 & Hs2 & _ & ->). apply obj_prefix in Hp as [-> ->]; [|done..]. apply Hn. cbn [fst].
      unfold gone. rewrite take_ge by done. unfold keys. apply listed_elem. split; [by exists o|by apply job_prefix]. }
    unfold stored. by rewrite Hnone.
Qed.

(** ** Reading objects *)

Definition content_of (readable : string → bool) (s : s3) (keys : list string) : list string :=
  flat_map (λ k, if readable k then default [] (s_objects s !! k) else []) keys.

Lemma read_objects_scan {A} readable (dec : string → option A) keep offset limit keys c k s : Forall short (content_of readable s keys) →
  read_objects readable dec keep offset limit keys c k s = (scan dec keep offset limit (content_of readable s keys) c k).1.1.1.
Proof.
  revert c k. induction keys as [|key keys IH]; intros c k Hs; cbn [read_objects content_of flat_map]; [done|].
  cbn [content_of flat_map] in Hs. apply Forall_app in Hs as [H1 H2]. fold (content_of readable s keys) in *.
  destruct ((limit >? 0) && (c >=? limit)) eqn:El.
  - apply andb_true_iff in El as [E1 E2%Z.geb_le]. destruct (scan_page dec keep offset limit ((if readable key then default [] (s_objects s !! key) else []) ++ content_of readable s keys) c k) as [-> _]; [by apply Forall_app|].
    rewrite E1. replace (Z.to_nat (limit - c)) with 0%nat by lia. done.
  - destruct (s_objects s !! key) as [lines|] eqn:Eo; [|by destruct (readable key); apply IH].
    destruct (readable key); [|by apply IH]. cbn [default from_option id] in H1. rewrite scan_app.
    destruct (scan_page dec keep offset limit lines c k H1) as [_ Hne]. cbn [default from_option id].
    destruct (scan _ _ _ _ lines c k) as [[[o c'] k'] []]; [|done|done]. rewrite IH by done.
    by destruct (scan _ _ _ _ (content_of readable s keys) c' k') as [[[? ?] ?] ?].
Qed.

Lemma read_objects_page {A} readable (dec : string → option A) keep offset limit keys s : Forall short (content_of readable s keys) →
  read_objects readable dec keep offset limit keys 0 0 s = page offset limit (List.filter keep (omap dec (content_of readable s keys))).
Proof.
  intros Hs. rewrite read_objects_scan by done. destruct (scan_page dec keep offset limit _ 0 0 Hs) as [-> _]. unfold page. by rewrite !Z.sub_0_r.
Qed.

(** ** Runs *)

(** A call of the pipeline, as processBatch of Pipeline.v makes it. *)
Definition apply_write (w : backend_write Event) (s : s3) : result string unit * s3 :=
  match w with
  | Pipeline.WriteLogs job l => WriteLogs config put clock gzip_len job l s
  | WriteEvents k job l =>
      match k with
      | MMetric => WriteMetrics config put clock gzip_len job l s
      | MExecEvent => WriteExecEvents config put clock gzip_len job l s
      | MConnectEvent => WriteConnectEvents config put clock gzip_len job l s
      | MFileEvent => WriteFileEvents config put clock gzip_len job l s
      | MAcceptEvent => WriteAcceptEvents config put clock gzip_len job l s
      | MSocketDataEvent => WriteSocketDataEvents config put clock gzip_len job l s
      | MMmapEvent => WriteMmapEvents config put clock gzip_len job l s
      | MMprotectEvent => WriteMprotectEvents config put clock gzip_len job l s
      | MLog | MOther _ => (Ok tt, s)
      end
  end.

Inductive sop := SWrite (w : backend_write Event) | SFlush (order : list string) (force : bool) | SDelete (listed : bool) (batches : nat) (job : string).

Definition sstep (s : s3) (op : sop) : s3 :=
  match op with
  | SWrite w => (apply_write w s).2
  | SFlush order force => flushAllBuffers config put clock gzip_len order force s
  | SDelete listed batches job => (DeleteJob config listed batches job s).2
  end.
Definition srun (ops : list sop) (s : s3) : s3 := foldl sstep s ops.

Definition job_of (w : backend_write Event) : string := match w with Pipeline.WriteLogs j _ | WriteEvents _ j _ => j end.
Definition op_job (op : sop) : option string := match op with SWrite w => Some (job_of w) | SFlush _ _ => None | SDelete _ _ j => Some j end.

(** The log lines of a stream of a job in the order they are written. *)
Definition written (job st : string) (ops : list sop) : list LogLine :=
  flat_map (λ op, match op with
    | SWrite w => List.filter (λ l, String.eqb (log_stream l) st) (sort_slice (λ a b, l_Timestamp a <? l_Timestamp b) (logs_in job w))
    | _ => [] end) ops.

Definition all_open (s : s3) : Prop := ∀ k b, s_buffers s !! k = Some b → sb_writer b = GOpen.

Lemma get_open s j st : all_open s → sb_writer (getOrCreateBuffer j st s) = GOpen.
Proof. intros Ho. unfold getOrCreateBuffer. destruct (s_buffers s !! _) as [b|] eqn:E; [by apply (Ho _ _ E)|done]. Qed.
Lemma set_open key b s : all_open s → sb_writer b = GOpen → all_open (set_buffers (<[key := b]> (s_buffers s)) s).
Proof. intros Ho Hb k b' H. cbn [set_buffers s_buffers] in H. apply lookup_insert_Some in H as [[_ <-]|[_ H]]; [done|by apply (Ho _ _ H)]. Qed.

Section uploads_succeed.
Hypothesis put_ok : ∀ n, put n = true.

Lemma flush_open key b s : all_open s → sb_writer b = GOpen →
  ∃ s', flushBuffer config put clock gzip_len key b s = (Ok tt, s') ∧ all_open s'.
Proof.
  intros Ho Hb. unfold flushBuffer. destruct (_ =? 0); [eexists; split; [done|by apply set_open]|]. rewrite Hb, put_ok.
  eexists. split; [done|]. intros k b' H. cbn [s_buffers] in H. apply lookup_insert_Some in H as [[_ <-]|[_ H]]; [done|by apply (Ho _ _ H)].
Qed.

Lemma write_open j st line s : all_open s → ∃ s', writeToBuffer config put clock gzip_len j st line s = (Ok tt, s') ∧ all_open s'.
Proof.
  intros Ho. unfold writeToBuffer.
  assert (H1 : ∃ s1, (if data_len gzip_len (getOrCreateBuffer j st s) + (Z.of_nat (String.length line) + 1) >? MaxBufferSize config
      then flushBuffer config put clock gzip_len (buffer_key j st) (getOrCreateBuffer j st s) s
      else (Ok tt, set_buffers (<[buffer_key j st := getOrCreateBuffer j st s]> (s_buffers s)) s)) = (Ok tt, s1) ∧ all_open s1).
  { destruct (_ >? _); [apply flush_open; [done|by apply get_open]|]. eexists. split; [done|]. apply set_open; [done|by apply get_open]. }
  destruct H1 as (s1 & -> & Ho1). unfold gzip_write. rewrite get_open by done.
  destruct (_ >=? _); [by apply flush_open|]. eexists. split; [done|]. by apply set_open.
Qed.

Lemma write_lines_held j l s : s3_inv s → all_open s → no_slash j → Forall (λ x, no_slash x.1) l →
  (s_uploads (write_lines config put clock gzip_len j l s).2 ≤ bound)%nat →
  ∃ s', write_lines config put clock gzip_len j l s = (Ok tt, s') ∧ s3_inv s' ∧ all_open s' ∧
    ∀ j' st', no_slash j' → no_slash st' → held j' st' s' = held j' st' s ++ (if decide (j = j') then snd <$> List.filter (λ x, String.eqb x.1 st') l else []).
Proof.
  intros Hi Ho Hj Hl. revert s Hi Ho. induction Hl as [|[st line] l Hst Hl IH]; intros s Hi Ho; cbn [write_lines].
  { intros _. exists s. split_and!; try done. intros j' st' _ _. by destruct (decide _); rewrite app_nil_r. }
  destruct (write_open j st line s Ho) as (s1 & E & Ho1). rewrite E. intros Hup.
  destruct (write_held _ _ _ _ _ _ Hi Hj Hst E ltac:(etransitivity; [apply (lines_mono j l)|exact Hup])) as (Hi1 & ll & Hll & Hh1).
  destruct Hll as [->|[_ Hr]]; [|done]. destruct (IH s1 Hi1 Ho1 Hup) as (s2 & E2 & Hi2 & Ho2 & Hh2). exists s2. split_and!; try done.
  intros j' st' Hj' Hs'. rewrite Hh2, Hh1 by done. rewrite <- app_assoc. f_equal. cbn [List.filter fst].
  destruct (decide (j = j')) as [<-|Hne]; [|by rewrite decide_False by congruence].
  destruct (String.eqb_spec st st') as [<-|Hne]; [by rewrite decide_True|by rewrite decide_False by congruence].
Qed.

Hypothesis header : ∀ c l, l ≠ [] → 0 < gzip_len c l.

Definition empty_at (key : string) (s : s3) : Prop := ∀ b, s_buffers s !! key = Some b → sb_lines b = [].

Lemma flush_empties key b s : all_open s → sb_writer b = GOpen →
  empty_at key (flushBuffer config put clock gzip_len key b s).2 ∧
  ∀ k, empty_at k s → empty_at k (flushBuffer config put clock gzip_len key b s).2.
Proof.
  intros Ho Hb. unfold flushBuffer, data_len. rewrite Hb. destruct (Z.eqb_spec (gzip_len false (sb_lines b)) 0) as [E|E].
  - assert (Hl : sb_lines b = []).
    { destruct (decide (sb_lines b = [])) as [|Hn]; [done|]. pose proof (header false _ Hn). lia. }
    cbn [snd set_buffers]. split; [intros b' H; cbn [s_buffers set_buffers] in H; rewrite lookup_insert_eq in H; by injection H as <-|].
    intros k Hk b' H. cbn [s_buffers set_buffers] in H. apply lookup_insert_Some in H as [[_ <-]|[_ H]]; [done|by apply Hk].
  - rewrite put_ok. cbn [snd]. split; [intros b' H; cbn [s_buffers] in H; rewrite lookup_insert_eq in H; by injection H as <-|].
    intros k Hk b' H. cbn [s_buffers] in H. apply lookup_insert_Some in H as [[_ <-]|[_ H]]; [done|by apply Hk].
Qed.

Lemma flush_none key b s k : s_buffers s !! key = Some b → s_buffers (flushBuffer config put clock gzip_len key b s).2 !! k = None ↔ s_buffers s !! k = None.
Proof.
  intros Hb. assert (H : ∀ b', <[key := b']> (s_buffers s) !! k = None ↔ s_buffers s !! k = None).
  { intros b'. rewrite lookup_insert_None. split; [by intros [? _]|]. intros Hn. split; [done|]. intros ->. by rewrite Hb in Hn. }
  unfold flushBuffer. destruct (_ =? 0); [apply H|]. destruct (sb_writer b), (put (s_uploads s)); apply H.
Qed.

Lemma flushAll_open order force s : all_open s → all_open (flushAllBuffers config put clock gzip_len order force s).
Proof.
  revert s. induction order as [|key order IH]; intros s Ho; cbn [flushAllBuffers]; [done|]. apply IH.
  destruct (s_buffers s !! key) as [b|] eqn:E; [|done]. destruct (_ || _); [|done].
  destruct (flush_open key b s Ho (Ho _ _ E)) as (s1 & -> & H). done.
Qed.

Lemma flushAll_empties order s : all_open s →
  (∀ k, k ∈ order ∨ empty_at k s → empty_at k (flushAllBuffers config put clock gzip_len order true s)).
Proof.
  revert s. induction order as [|key order IH]; intros s Ho k Hk; cbn [flushAllBuffers].
  { destruct Hk as [Hk|Hk]; [by apply elem_of_nil in Hk|done]. }
  destruct (s_buffers s !! key) as [b|] eqn:E; cbn [orb].
  - destruct (flush_open key b s Ho (Ho _ _ E)) as (s1 & E1 & Ho1). destruct (flush_empties key b s Ho (Ho _ _ E)) as [H1 H2].
    rewrite E1 in *. cbn [snd] in *. apply IH; [done|]. destruct Hk as [[->|Hk]%elem_of_cons|Hk]; [by right|by left|right; by apply H2].
  - apply IH; [done|]. destruct Hk as [[->|Hk]%elem_of_cons|Hk]; [right; intros b; by rewrite E|by left|by right].
Qed.
End uploads_succeed.

(** ** What was written can be read *)

Definition sop_ok (op : sop) : Prop := match op_job op with Some j => no_slash j | None => True end.

Lemma log_stream_ok l : no_slash (log_stream l).
Proof. unfold log_stream, no_slash. destruct (bool_decide _); refine (bool_decide_unpack _ _); vm_compute; exact I. Qed.
Lemma kind_stream_ok k : no_slash (kind_stream k).
Proof. unfold no_slash. destruct k; refine (bool_decide_unpack _ _); vm_compute; exact I. Qed.

Lemma filter_fmap_logs st l :
  snd <$> List.filter (λ x : string * string, String.eqb x.1 st) ((λ l, (log_stream l, enc_log l)) <$> l) =
  enc_log <$> List.filter (λ l, String.eqb (log_stream l) st) l.
Proof. induction l as [|x l IH]; [done|]. cbn [fmap list_fmap List.filter fst]. destruct (String.eqb _ _); cbn; by rewrite IH. Qed.

Lemma filter_fmap_kind st k (l : list Event) : k ≠ HLog → st = "stdout"%string ∨ st = "stderr"%string →
  snd <$> List.filter (λ x : string * string, String.eqb x.1 st) ((λ e, (kind_stream k, enc_ev k e)) <$> l) = [].
Proof.
  intros Hk Hst. assert (E : String.eqb (kind_stream k) st = false) by (destruct Hst as [->| ->]; by destruct k).
  induction l as [|x l IH]; [done|]. cbn [fmap list_fmap List.filter fst]. by rewrite E.
Qed.

Lemma delete_uploads listed batches j s : s_uploads (DeleteJob config listed batches j s).2 = s_uploads s.
Proof. unfold DeleteJob. by destruct (negb listed). Qed.
Lemma sstep_mono s op : (s_uploads s ≤ s_uploads (sstep s op))%nat.
Proof.
  destruct op as [w|order force|listed batches j]; cbn [sstep]; [|apply flushAll_mono|by rewrite delete_uploads].
  destruct w as [j l|k j l]; cbn [apply_write]; [apply lines_mono|]. destruct k; by first [apply lines_mono|done].
Qed.
Lemma srun_mono ops s : (s_uploads s ≤ s_uploads (srun ops s))%nat.
Proof. revert s. induction ops as [|op ops IH]; intros s; [done|]. etransitivity; [apply (sstep_mono s op)|apply IH]. Qed.

Lemma sstep_held op s job st : (s_uploads (sstep s op) ≤ bound)%nat → (∀ n, put n = true) → s3_inv s → all_open s → sop_ok op → no_slash job →
  st = "stdout"%string ∨ st = "stderr"%string → (∀ l b, op ≠ SDelete l b job) →
  s3_inv (sstep s op) ∧ all_open (sstep s op) ∧ held job st (sstep s op) = held job st s ++ (enc_log <$> written job st [op]).
Proof.
  intros Hup Hput Hi Ho Hop Hj Hst Hd. assert (Hs : no_slash st) by (destruct Hst as [->| ->]; refine (bool_decide_unpack _ _); vm_compute; exact I).
  unfold written. cbn [flat_map]. rewrite app_nil_r. destruct op as [w|order force|listed batches j]; cbn [sstep].
  - assert (Hkind : ∀ k l j, k ≠ HLog → no_slash j → (s_uploads (write_kind config put clock gzip_len k j l s).2 ≤ bound)%nat → s3_inv (write_kind config put clock gzip_len k j l s).2 ∧ all_open (write_kind config put clock gzip_len k j l s).2 ∧
      held job st (write_kind config put clock gzip_len k j l s).2 = held job st s ++ []).
    { intros k l j Hk Hjj Hupk. unfold write_kind in *. destruct (write_lines_held Hput j ((λ e, (kind_stream k, enc_ev k e)) <$> sort_slice (λ a b, ev_time a <? ev_time b) l) s Hi Ho Hjj) as (s1 & -> & Hi1 & Ho1 & Hh1).
      - apply Forall_fmap, Forall_forall. intros x _. apply kind_stream_ok.
      - exact Hupk.
      - split_and!; [done|done|]. cbn [snd]. rewrite Hh1, filter_fmap_kind by done. by destruct (decide _). }
    assert (Hnil : sort_slice (λ a b : LogLine, l_Timestamp a <? l_Timestamp b) [] = []) by (apply Permutation_nil; symmetry; apply sort_slice_perm).
    destruct w as [j l|k j l]; cbn [sstep apply_write logs_in] in *.
    + unfold WriteLogs in *. destruct (write_lines_held Hput j ((λ l, (log_stream l, enc_log l)) <$> sort_slice (λ a b, l_Timestamp a <? l_Timestamp b) l) s Hi Ho Hop) as (s1 & -> & Hi1 & Ho1 & Hh1).
      { apply Forall_fmap, Forall_forall. intros x _. apply log_stream_ok. }
      { exact Hup. }
      split_and!; [done|done|]. cbn [snd]. rewrite Hh1 by done. f_equal. destruct (decide (j = job)); [by rewrite filter_fmap_logs|by rewrite Hnil].
    + rewrite Hnil. cbn [List.filter fmap list_fmap]. destruct k; try (apply Hkind; done); cbn [snd]; (split_and!; [done|done|by rewrite app_nil_r]).
  - rewrite app_nil_r. destruct (flushAll_held order force s Hi Hup) as [Hi1 Hh1]. split_and!; [done|by apply flushAll_open|by apply Hh1].
  - rewrite app_nil_r. destruct (DeleteJob config listed batches j s) as [r s1] eqn:E. pose proof (delete_held _ _ _ _ _ _ Hi Hop E) as [Hi1 Hh1]. cbn [snd].
    split_and!; [done| |].
    + unfold DeleteJob in E. destruct (negb listed); injection E as _ <-; intros k b H; cbn [s_buffers set_buffers] in H;
        apply map_lookup_filter_Some in H as [H _]; by apply (Ho _ _ H).
    + apply Hh1; [done|done|]. intros ->. by apply (Hd listed batches).
Qed.

Lemma srun_held ops s job st : (s_uploads (srun ops s) ≤ bound)%nat → (∀ n, put n = true) → s3_inv s → all_open s → Forall sop_ok ops → no_slash job →
  st = "stdout"%string ∨ st = "stderr"%string → (∀ l b, SDelete l b job ∉ ops) →
  s3_inv (srun ops s) ∧ all_open (srun ops s) ∧ held job st (srun ops s) = held job st s ++ (enc_log <$> written job st ops).
Proof.
  intros Hup Hput Hi Ho Hops Hj Hst Hd. revert s Hup Hi Ho. induction Hops as [|op ops Hop Hops IH]; intros s Hup Hi Ho; cbn [srun foldl] in *.
  { split_and!; [done|done|]. by rewrite app_nil_r. }
  destruct (sstep_held op s job st) as (Hi1 & Ho1 & Hh1); try done. { etransitivity; [apply (srun_mono ops)|exact Hup]. } { intros l b ->. apply (Hd l b). by left. }
  destruct (IH ltac:(intros l b H; apply (Hd l b); by right) _ Hup Hi1 Ho1) as (Hi2 & Ho2 & Hh2). split_and!; [done|done|].
  unfold srun in Hh2. rewrite Hh2, Hh1. unfold written at 3. cbn [flat_map]. fold (written job st ops). unfold written at 1. cbn [flat_map].
  by rewrite app_nil_r, fmap_app, app_assoc.
Qed.

(** C13 When every upload succeeds, every object can be read, the clock of the keys strictly
    grows and has 19 digits, and the lines of the job can be decoded and are short: whatever
    the writes, the flushes and the deletions of other jobs by the same node are, once
    everything is flushed a query for the logs of a job is answered with the page it asks
    for of all lines ever written to its stream, in the order they were written, the lines
    of a call sorted by time: the keys, compared as texts, are in the order of the uploads. *)
Theorem s3_history_complete job ops order q :
  (s_uploads (flushAllBuffers config put clock gzip_len order true (srun ops (NewS3Backend ∅))) ≤ bound)%nat →
  (∀ n, put n = true) → (∀ c l, l ≠ [] → 0 < gzip_len c l) →
  no_slash job → q_JobUUID q = job → Forall sop_ok ops → (∀ l b, SDelete l b job ∉ ops) →
  (∀ k, is_Some (s_buffers (srun ops (NewS3Backend ∅)) !! k) → k ∈ order) →
  let lines := written job (query_stream q) ops in
  (∀ l, l ∈ lines → dec_log (enc_log l) = Some l ∧ short (enc_log l)) →
  readLogsFromS3 config (λ _, true) None "" q (flushAllBuffers config put clock gzip_len order true (srun ops (NewS3Backend ∅))) =
    (page (q_Offset q) (q_Limit q) (List.filter (keep_log q) lines), Ok tt).
Proof.
  intros Hup Hput Hhead Hj Hq Hops Hd Hord lines Hl.
  assert (Hst : query_stream q = "stdout"%string ∨ query_stream q = "stderr"%string) by (unfold query_stream; destruct (bool_decide _); auto).
  assert (Hs : no_slash (query_stream q)) by (destruct Hst as [->| ->]; refine (bool_decide_unpack _ _); vm_compute; exact I).
  assert (H0 : s3_inv (NewS3Backend ∅)) by (split; intros k b H; cbn in H; by rewrite lookup_empty in H).
  destruct (srun_held ops (NewS3Backend ∅) job (query_stream q) ltac:(etransitivity; [apply (flushAll_mono order true)|exact Hup]) Hput H0) as (Hi & Ho & Hh); try done.
  set (s := srun ops (NewS3Backend ∅)) in *. destruct (flushAll_held order true s Hi Hup) as [Hi1 Hh1]. set (s1 := flushAllBuffers _ _ _ _ order true s) in *.
  assert (Hb : buffered job (query_stream q) s1 = []).
  { unfold buffered, getOrCreateBuffer. destruct (s_buffers s1 !! _) as [b|] eqn:E; [|done]. cbn [default from_option id].
    refine (flushAll_empties Hput Hhead order s Ho _ _ b E). destruct (s_buffers s !! buffer_key job (query_stream q)) as [b0|] eqn:E0; [left; apply Hord; eauto|].
    right. intros b1. by rewrite E0. }
  assert (Hc : content_of (λ _, true) s1 (listObjects (pre job (query_stream q)) s1) = enc_log <$> lines).
  { specialize (Hh1 job (query_stream q) Hj Hs). unfold held at 1 in Hh1. rewrite Hb, app_nil_r, Hh in Hh1. unfold stored in Hh1.
    unfold content_of. rewrite flat_map_concat_map. etransitivity; [exact Hh1|]. unfold held, stored, buffered, listObjects, getOrCreateBuffer.
    cbn [NewS3Backend s_objects s_buffers]. rewrite map_to_list_empty, lookup_empty. done. }
  unfold readLogsFromS3. rewrite Hq, read_objects_page; rewrite Hc.
  - do 3 f_equal. clear -Hl. clearbody lines. induction lines as [|l lines IH]; [done|]. cbn [fmap list_fmap omap list_omap].
    destruct (Hl l) as [-> _]; [apply elem_of_cons; by left|]. f_equal. apply IH. intros x Hx. apply Hl, elem_of_cons. by right.
  - apply Forall_fmap, Forall_forall. intros l H. by apply Hl.
Qed.

(** ** A stream after a failed upload *)

(** The gzip writer was written to after a failed upload closed it. *)
Definition dead (j st : string) (l : list string) (s : s3) : Prop :=
  ∃ b, s_buffers s !! buffer_key j st = Some b ∧ sb_writer b = GBroken ∧ sb_lines b = l.

Lemma set_dead key b s j st l : (key = buffer_key j st → sb_writer b = GBroken ∧ sb_lines b = l) → dead j st l s →
  ∀ o n c, dead j st l {| s_buffers := <[key := b]> (s_buffers s); s_objects := o; s_uploads := n; s_closed := c |}.
Proof.
  intros Hk (b0 & H & Hw & Hl) o n c. destruct (decide (key = buffer_key j st)) as [->|Hne].
  - exists b. cbn [s_buffers]. rewrite lookup_insert_eq. split; [done|by apply Hk].
  - exists b0. cbn [s_buffers]. by rewrite lookup_insert_ne.
Qed.

Lemma flush_dead key b s j st l : (key = buffer_key j st → sb_writer b = GBroken ∧ sb_lines b = l) → dead j st l s →
  dead j st l (flushBuffer config put clock gzip_len key b s).2 ∧
  (key = buffer_key j st → s_objects (flushBuffer config put clock gzip_len key b s).2 = s_objects s).
Proof.
  intros Hk Hd. unfold flushBuffer, set_buffers. destruct (_ =? 0); [split; [by apply set_dead|done]|].
  assert (Hne : sb_writer b ≠ GBroken → key ≠ buffer_key j st) by (intros H E; by destruct (Hk E)).
  destruct (sb_writer b) eqn:Ew; [..|split; [apply set_dead; [by rewrite Ew|done]|done]];
    specialize (Hne ltac:(done)); (destruct (put (s_uploads s)); cbn [snd]; (split; [apply set_dead; [done|done]|done])).
Qed.

Lemma write_dead j st l s j' st' line : dead j st l s → s3_inv s → no_slash j → no_slash st → no_slash j' → no_slash st' →
  dead j st l (writeToBuffer config put clock gzip_len j' st' line s).2 ∧
  ((s_uploads (writeToBuffer config put clock gzip_len j' st' line s).2 ≤ bound)%nat →
   stored j st (writeToBuffer config put clock gzip_len j' st' line s).2 = stored j st s) ∧
  (j' = j → st' = st → (writeToBuffer config put clock gzip_len j' st' line s).1 ≠ Ok tt).
Proof.
  intros Hd Hi Hj Hs Hj' Hs'. destruct (writeToBuffer config put clock gzip_len j' st' line s) as [r s'] eqn:E. cbn [fst snd]. pose proof (write_held _ _ _ _ _ _ Hi Hj' Hs' E) as Hheld.
  assert (Hb : ∀ s1, dead j st l s1 → buffer_key j' st' = buffer_key j st →
    sb_writer (getOrCreateBuffer j' st' s1) = GBroken ∧ sb_lines (getOrCreateBuffer j' st' s1) = l).
  { intros s1 (b & Hb & Hw & Hl) Hk. unfold getOrCreateBuffer. by rewrite Hk, Hb. }
  assert (Hkey : buffer_key j' st' = buffer_key j st ↔ (j', st') = (j, st)).
  { split; [intros [-> ->]%buffer_key_inj; done|by intros [= -> ->]]. }
  unfold writeToBuffer in E.
  assert (H1 : ∃ r1 s1, (if data_len gzip_len (getOrCreateBuffer j' st' s) + (Z.of_nat (String.length line) + 1) >? MaxBufferSize config
      then flushBuffer config put clock gzip_len (buffer_key j' st') (getOrCreateBuffer j' st' s) s
      else (Ok tt, set_buffers (<[buffer_key j' st' := getOrCreateBuffer j' st' s]> (s_buffers s)) s)) = (r1, s1) ∧
    dead j st l s1 ∧ ((j', st') = (j, st) → s_objects s1 = s_objects s)).
  { destruct (_ >? _).
    - destruct (flushBuffer _ _ _ _ _ _ s) as [r1 s1] eqn:Ef. exists r1, s1. split; [done|].
      destruct (flush_dead (buffer_key j' st') (getOrCreateBuffer j' st' s) s j st l (Hb s Hd) Hd) as [H1 H2]. rewrite Ef in H1, H2.
      split; [done|]. intros Eq. apply H2. by apply Hkey.
    - eexists _, _. split; [done|]. split; [|done]. apply set_dead; [by apply Hb|done]. }
  destruct H1 as (r1 & s1 & E1 & Hd1 & Ho1). rewrite E1 in E.
  assert (Hend : dead j st l s' ∧ ((j', st') = (j, st) → s_objects s' = s_objects s ∧ r ≠ Ok tt)).
  { destruct r1 as [[]|e]; [|injection E as <- <-; split; [done|intros Eq; by rewrite (Ho1 Eq)]].
    destruct (decide ((j', st') = (j, st))) as [Eq|Hne].
    - destruct (Hb s1 Hd1 (proj2 Hkey Eq)) as [Hw Hl]. unfold gzip_write in E. rewrite Hw in E. injection E as <- <-.
      split; [apply set_dead; [done|done]|]. intros _. split; [by apply Ho1|done].
    - assert (Hk : buffer_key j' st' ≠ buffer_key j st) by (intros H; by apply Hne, Hkey).
      split; [|done]. unfold gzip_write in E. destruct (sb_writer _); [destruct (_ >=? _)|..].
      + apply (f_equal snd) in E. cbn [snd] in E. rewrite <- E. apply flush_dead; [by intros H|done].
      + injection E as <- <-. apply set_dead; [by intros H|done].
      + injection E as <- <-. apply set_dead; [by intros H|done].
      + injection E as <- <-. apply set_dead; [by intros H|done]. }
  destruct Hend as [Hd' Hsame]. split; [done|]. split; [|intros -> ->; by apply Hsame].
  intros Hup. destruct (Hheld Hup) as (Hi' & ll & Hll & Hh). specialize (Hh j st Hj Hs).
  destruct (decide ((j', st') = (j, st))) as [Eq|Hne].
  - destruct (Hsame Eq) as [Ho _]. unfold stored, listObjects. by rewrite Ho.
  - rewrite app_nil_r in Hh. unfold held in Hh.
    destruct Hd as (b & H1 & _ & H2), Hd' as (b' & H1' & _ & H2').
    unfold buffered, getOrCreateBuffer in Hh. rewrite H1, H1' in Hh. cbn [default from_option id] in Hh. rewrite H2, H2' in Hh. by apply app_inv_tail in Hh.
Qed.

Lemma dead_stored j st l s s' : dead j st l s → dead j st l s' → held j st s' = held j st s → stored j st s' = stored j st s.
Proof.
  intros (b & H1 & _ & H2) (b' & H1' & _ & H2') Hh. unfold held, buffered, getOrCreateBuffer in Hh. rewrite H1, H1' in Hh.
  cbn [default from_option id] in Hh. rewrite H2, H2' in Hh. by apply app_inv_tail in Hh.
Qed.

Lemma lines_dead j st l j' ls s : dead j st l s → s3_inv s → no_slash j → no_slash st → no_slash j' → Forall (λ x, no_slash x.1) ls →
  (s_uploads (write_lines config put clock gzip_len j' ls s).2 ≤ bound)%nat →
  let s' := (write_lines config put clock gzip_len j' ls s).2 in s3_inv s' ∧ dead j st l s' ∧ stored j st s' = stored j st s.
Proof.
  intros Hd Hi Hj Hs Hj' Hls. revert s Hd Hi. induction Hls as [|[st' line] ls Hst' Hls IH]; intros s Hd Hi; cbn [write_lines]; [done|].
  intros Hup. pose proof (write_dead j st l s j' st' line Hd Hi Hj Hs Hj' Hst') as Hdead.
  destruct (writeToBuffer config put clock gzip_len j' st' line s) as [r s1] eqn:E. cbn [snd] in Hdead.
  assert (Hup1 : (s_uploads s1 ≤ bound)%nat) by (destruct r as [[]|]; [etransitivity; [apply (lines_mono j' ls)|exact Hup]|done]).
  destruct Hdead as (H1 & H2 & _). specialize (H2 Hup1). destruct (write_held _ _ _ _ _ _ Hi Hj' Hst' E Hup1) as [Hi1 _]. destruct r; [|done].
  destruct (IH s1 H1 Hi1 Hup) as (Ha & Hb & Hc). split_and!; [done|done|congruence].
Qed.

Lemma flushAll_dead order force j st l s : dead j st l s → dead j st l (flushAllBuffers config put clock gzip_len order force s).
Proof.
  revert s. induction order as [|key order IH]; intros s Hd; cbn [flushAllBuffers]; [done|]. apply IH.
  destruct (s_buffers s !! key) as [b|] eqn:E; [|done]. destruct (_ || _); [|done]. apply flush_dead; [|done].
  intros ->. destruct Hd as (b0 & Hb & Hw & Hl). rewrite E in Hb. by injection Hb as <-.
Qed.

Lemma sstep_dead op j st l s : dead j st l s → s3_inv s → no_slash j → no_slash st → sop_ok op → (∀ li b, op ≠ SDelete li b j) → (s_uploads (sstep s op) ≤ bound)%nat →
  s3_inv (sstep s op) ∧ dead j st l (sstep s op) ∧ stored j st (sstep s op) = stored j st s.
Proof.
  intros Hd Hi Hj Hs Hop Hnd Hup. destruct op as [w|order force|listed batches j']; cbn [sstep] in *.
  - assert (Hkind : ∀ k l' j', no_slash j' → (s_uploads (write_kind config put clock gzip_len k j' l' s).2 ≤ bound)%nat → s3_inv (write_kind config put clock gzip_len k j' l' s).2 ∧ dead j st l (write_kind config put clock gzip_len k j' l' s).2 ∧
      stored j st (write_kind config put clock gzip_len k j' l' s).2 = stored j st s).
    { intros k l' j' Hj' Hupk. apply lines_dead; [done..| |exact Hupk]. apply Forall_fmap, Forall_forall. intros x _. apply kind_stream_ok. }
    destruct w as [j' l'|k j' l']; cbn [apply_write] in *.
    + apply lines_dead; [done..| |exact Hup]. apply Forall_fmap, Forall_forall. intros x _. apply log_stream_ok.
    + destruct k; by first [apply Hkind; [done|exact Hup] | split_and!].
  - destruct (flushAll_held order force s Hi Hup) as [Hi1 Hh1]. pose proof (flushAll_dead order force j st l s Hd) as Hd1.
    split_and!; [done|done|]. apply (dead_stored j st l); [done|done|by apply Hh1].
  - destruct (DeleteJob config listed batches j' s) as [r s1] eqn:E. destruct (delete_held _ _ _ _ _ _ Hi Hop E) as [Hi1 Hh1]. cbn [snd].
    assert (Hne : j ≠ j') by (intros ->; by apply (Hnd listed batches)).
    assert (Hd1 : dead j st l s1).
    { destruct Hd as (b & Hb & Hw & Hl). exists b. split; [|done].
      assert (Hf : filter (λ kb : string * s3Buffer, HasPrefix kb.1 (j' +:+ "/") = false) (s_buffers s) !! buffer_key j st = Some b).
      { apply map_lookup_filter_Some. split; [done|]. apply not_true_iff_false. cbn [fst]. by rewrite buffer_prefix. }
      unfold DeleteJob in E. destruct (negb listed); apply pair_eq in E as [_ <-]; exact Hf. }
    split_and!; [done|done|]. apply (dead_stored j st l); [done|done|]. by apply Hh1.
Qed.

Lemma srun_dead ops j st l s : dead j st l s → s3_inv s → no_slash j → no_slash st → Forall sop_ok ops → (∀ li b, SDelete li b j ∉ ops) → (s_uploads (srun ops s) ≤ bound)%nat →
  s3_inv (srun ops s) ∧ dead j st l (srun ops s) ∧ stored j st (srun ops s) = stored j st s.
Proof.
  intros Hd Hi Hj Hs Hops Hnd. revert s Hd Hi. induction Hops as [|op ops Hop Hops IH]; intros s Hd Hi Hup; cbn [srun foldl] in *; [done|].
  destruct (sstep_dead op j st l s Hd Hi Hj Hs Hop) as (Hi1 & Hd1 & Hs1); [|etransitivity; [apply (srun_mono ops)|exact Hup]|]. { intros li b ->. apply (Hnd li b), elem_of_cons. by left. }
  destruct (IH ltac:(intros li b H; apply (Hnd li b), elem_of_cons; by right) _ Hd1 Hi1 Hup) as (Hi2 & Hd2 & Hs2). split_and!; [done|done|]. unfold srun in Hs2. congruence.
Qed.

(** A failed upload followed by a write ends a stream.  The upload left the gzip writer
    closed; the write to it fails and breaks it, and from then on, whatever is written,
    flushed or deleted of other jobs and however many uploads succeed, every write to the
    stream is refused, no object is added to it and the lines waiting in its buffer stay
    there. *)
Theorem failed_upload_ends_stream j st line s ops b :
  s3_inv s → no_slash j → no_slash st → s_buffers s !! buffer_key j st = Some b → sb_lines b ≠ [] →
  put (s_uploads s) = false → sb_writer b = GOpen → (∀ c l, l ≠ [] → 0 < gzip_len c l) →
  gzip_len true (sb_lines b) + (Z.of_nat (String.length line) + 1) ≤ MaxBufferSize config →
  Forall sop_ok ops → (∀ li n, SDelete li n j ∉ ops) →
  (s_uploads (srun ops (writeToBuffer config put clock gzip_len j st line (flushBuffer config put clock gzip_len (buffer_key j st) b s).2).2) ≤ bound)%nat →
  let s1 := (flushBuffer config put clock gzip_len (buffer_key j st) b s).2 in
  let s2 := (writeToBuffer config put clock gzip_len j st line s1).2 in
  let s3 := srun ops s2 in
  (∀ line', (writeToBuffer config put clock gzip_len j st line' s3).1 ≠ Ok tt) ∧
  stored j st s3 = stored j st s ∧ buffered j st s3 = sb_lines b.
Proof.
  intros Hi Hj Hs Hb Hl Hput Hw Hhead Hmax Hops Hnd Hup s1 s2 s3. fold s1 s2 s3 in Hup.
  assert (Hup2 : (s_uploads s2 ≤ bound)%nat) by (etransitivity; [apply (srun_mono ops)|exact Hup]).
  assert (Hup1 : (s_uploads s1 ≤ bound)%nat) by (etransitivity; [apply (write_mono j st line)|exact Hup2]).
  destruct (si_buffers s Hi _ _ Hb) as (Ek & Hg). pose proof Ek as Ek2. apply buffer_key_inj in Ek2 as [Ej Es]; [|done|apply Hg].
  assert (E1 : s1 = {| s_buffers := <[buffer_key j st := {| sb_jobID := sb_jobID b; sb_streamType := sb_streamType b; sb_lines := sb_lines b; sb_writer := GClosed; sb_count := sb_count b |}]> (s_buffers s);
            s_objects := s_objects s; s_uploads := S (s_uploads s); s_closed := s_closed s |}).
  { unfold s1, flushBuffer, data_len. rewrite Hw. pose proof (Hhead false _ Hl). rewrite (proj2 (Z.eqb_neq _ _)) by lia. by rewrite Hput. }
  assert (Hi1 : s3_inv s1).
  { unfold s1 in *. destruct (flushBuffer config put clock gzip_len (buffer_key j st) b s) as [r s'] eqn:Ef. rewrite Ek in Ef. by apply flush_held in Ef as [? _]. }
  set (b1 := {| sb_jobID := sb_jobID b; sb_streamType := sb_streamType b; sb_lines := sb_lines b; sb_writer := GClosed; sb_count := sb_count b |}) in *.
  assert (Hg1 : getOrCreateBuffer j st s1 = b1) by (unfold getOrCreateBuffer; rewrite E1; cbn [s_buffers]; by rewrite lookup_insert_eq).
  assert (E2 : dead j st (sb_lines b) s2 ∧ s_objects s2 = s_objects s ∧ s3_inv s2).
  { destruct (writeToBuffer config put clock gzip_len j st line s1) as [r s2'] eqn:Ew. unfold s2 in Hup2; cbn [snd] in Hup2. destruct (write_held _ _ _ _ _ _ Hi1 Hj Hs Ew Hup2) as [Hi2 _].
    unfold s2. cbn [snd]. unfold writeToBuffer in Ew. rewrite Hg1 in Ew. unfold data_len in Ew at 1. cbn [b1 sb_writer sb_lines] in Ew.
    rewrite Z.gtb_ltb, (proj2 (Z.ltb_ge _ _)) in Ew by lia.
    unfold getOrCreateBuffer in Ew. cbn [set_buffers s_buffers] in Ew. rewrite lookup_insert_eq in Ew. cbn [default from_option id] in Ew. unfold gzip_write in Ew. cbn [b1 sb_writer] in Ew. apply pair_eq in Ew as [_ <-].
    split_and!; [|by rewrite E1|done]. eexists. cbn [s_buffers set_buffers]. by rewrite lookup_insert_eq. }
  destruct E2 as (Hd2 & Ho2 & Hi2). destruct (srun_dead ops j st _ s2 Hd2 Hi2 Hj Hs Hops Hnd Hup) as (Hi3 & Hd3 & Hs3). split_and!.
  - intros line'. by apply (write_dead j st _ s3 j st line' Hd3 Hi3 Hj Hs Hj Hs).
  - unfold s3. rewrite Hs3. unfold stored, listObjects. by rewrite Ho2.
  - destruct Hd3 as (b3 & Hb3 & _ & Hl3). unfold buffered, getOrCreateBuffer, s3. by rewrite Hb3.
Qed.

(** A query never says that something is missing: an object that cannot be had or
    decompressed is left out of the page, and the answer ends without an error, where the
    local store reports it; and a query for both streams is answered from stdout alone. *)
Theorem unreadable_objects_unreported readable nodeID q s :
  let keys := listObjects (getS3KeyPrefix config nodeID (q_JobUUID q) (query_stream q)) s in
  Forall short (content_of readable s keys) →
  readLogsFromS3 config readable None nodeID q s =
    (page (q_Offset q) (q_Limit q) (List.filter (keep_log q) (omap dec_log (content_of readable s keys))), Ok tt) ∧
  (q_Stream q ≠ SStderr → query_stream q = "stdout"%string).
Proof.
  intros keys Hs. split.
  - unfold readLogsFromS3. by rewrite read_objects_page.
  - intros H. unfold query_stream. by rewrite bool_decide_eq_false_2.
Qed.
End held.

(** ** Concrete inputs *)

#[local] Existing Instance sample_lines.
#[local] Instance s3_sort : SortSlice := insertion_SortSlice.

Definition s3_config : S3Config :=
  {| Region := "eu"; Bucket := "b"; KeyPrefix := "jobs/"; NodeID := "n1"; FlushInterval := 30; FlushThreshold := 60; MaxBufferSize := 1000 |}.
(** One upload in a nanosecond; twenty bytes for a line. *)
Definition nanos (n : nat) : Z := 1700000000000000000 + Z.of_nat n.
Definition some_len (closed : bool) (l : list string) : Z := 20 * Z.of_nat (length l).

Lemma nanos_range n : (n < 100)%nat → in_19_digits (nanos n).
Proof. unfold in_19_digits, nanos. lia. Qed.
Lemma nanos_forward n m : (n < m)%nat → (m < 100)%nat → nanos n < nanos m.
Proof. unfold nanos. lia. Qed.
Lemma some_len_header (c : bool) l : l ≠ [] → 0 < some_len c l.
Proof. unfold some_len. destruct l; [done|cbn; lia]. Qed.

Definition s3_ops : list (sop (Event := unit)) :=
  [SWrite (Pipeline.WriteLogs "a" [sample_line SStderr "no"; sample_line SStdout "one"]);
   SFlush ["a/stdout"; "a/stderr"] false;
   SWrite (Pipeline.WriteLogs "b" [sample_line SStdout "other"]);
   SWrite (Pipeline.WriteLogs "a" [sample_line SStdout "two"; sample_line SStdout "six"]);
   SDelete true 1 "b"; SWrite (Pipeline.WriteLogs "a" [sample_line SStdout "ten"])].
Local Abbreviation all_up := (λ _ : nat, true).
Definition s3_flushed : s3 :=
  flushAllBuffers s3_config all_up nanos some_len ["a/stdout"; "a/stderr"] true (srun s3_config all_up nanos some_len s3_ops (NewS3Backend ∅)).

Lemma s3_history_complete_witness :
  readLogsFromS3 s3_config (λ _, true) None "" (all_of "a") s3_flushed =
    ([sample_line SStdout "one"; sample_line SStdout "two"; sample_line SStdout "six"; sample_line SStdout "ten"], Ok tt).
Proof.
  refine (eq_trans (s3_history_complete s3_config all_up nanos some_len 100 nanos_range nanos_forward "a" s3_ops ["a/stdout"; "a/stderr"] (all_of "a")
    _ (λ _, eq_refl) some_len_header _ eq_refl _ _ _ _) _).
  - vm_compute. lia.
  - refine (bool_decide_unpack _ _). vm_compute. exact I.
  - repeat constructor; refine (bool_decide_unpack _ _); vm_compute; exact I.
  - intros l b H. by repeat (apply elem_of_cons in H as [H|H]; [discriminate H|]); apply not_elem_of_nil in H.
  - intros k Hk. assert (E : (map_to_list (s_buffers (srun s3_config all_up nanos some_len s3_ops (NewS3Backend ∅)))).*1 ⊆ ["a/stdout"; "a/stderr"]%string)
      by (refine (bool_decide_unpack _ _); vm_compute; exact I).
    apply E, list_elem_of_fmap. destruct Hk as [b Hb]. exists (k, b). split; [done|]. by apply elem_of_map_to_list.
  - intros l Hl. vm_compute in Hl. repeat (apply elem_of_cons in Hl as [->|Hl]; [split; vm_compute; reflexivity|]). by apply not_elem_of_nil in Hl.
  - vm_compute. reflexivity.
Defined.

(** A query for both streams returns the lines of stderr from the local store only. *)
Example both_streams_local : ReadLogs (all_of "a") (prun 1000 300 (NewLocalBackend ∅ ∅) [PWrite 1 OpenOk (Pipeline.WriteLogs "a" [sample_line SStderr "no"; sample_line SStdout "one"])]) =
  Ok ([sample_line SStdout "one"; sample_line SStderr "no"], Ok tt).
Proof. vm_compute. reflexivity. Qed.
Example both_streams_s3 : (readLogsFromS3 s3_config (λ _, true) None "" (all_of "a")
    (flushAllBuffers s3_config all_up nanos some_len ["a/stdout"; "a/stderr"] true
      (srun s3_config all_up nanos some_len [SWrite (Pipeline.WriteLogs "a" [sample_line SStderr "no"; sample_line SStdout "one"])] (NewS3Backend ∅)))) =
  ([sample_line SStdout "one"], Ok tt).
Proof. vm_compute. reflexivity. Qed.

(** A buffer with a line and an upload that fails. *)
Definition one_line : s3Buffer := {| sb_jobID := "a"; sb_streamType := "stdout"; sb_lines := ["oone"]; sb_writer := GOpen; sb_count := 1 |}.
Definition one_buffered : s3 := {| s_buffers := {["a/stdout"%string := one_line]}; s_objects := ∅; s_uploads := 0; s_closed := false |}.
Definition first_fails (n : nat) : bool := (0 <? n)%nat.
Definition later_ops : list (sop (Event := unit)) :=
  [SFlush ["a/stdout"] true; SWrite (Pipeline.WriteLogs "a" [sample_line SStdout "two"]); SWrite (Pipeline.WriteLogs "b" [sample_line SStdout "other"]); SFlush ["b/stdout"; "a/stdout"] true].

Lemma failed_upload_ends_stream_witness :
  let s1 := (flushBuffer s3_config first_fails nanos some_len "a/stdout" one_line one_buffered).2 in
  let s3 := srun s3_config first_fails nanos some_len later_ops (writeToBuffer s3_config first_fails nanos some_len "a" "stdout" "otwo" s1).2 in
  (∀ line', (writeToBuffer s3_config first_fails nanos some_len "a" "stdout" line' s3).1 ≠ Ok tt) ∧
  stored s3_config "a" "stdout" s3 = [] ∧ buffered "a" "stdout" s3 = ["oone"%string] ∧ stored s3_config "b" "stdout" s3 = ["oother"%string].
Proof.
  assert (Hn : ∀ w, bool_decide (no_slash w) = true → no_slash w) by (intros w H; by apply bool_decide_eq_true in H).
  pose proof (failed_upload_ends_stream s3_config first_fails nanos some_len 100 nanos_range nanos_forward "a" "stdout" "otwo" one_buffered later_ops one_line) as H.
  assert (H' : _) by (refine (H _ _ _ _ _ _ _ some_len_header _ _ _ _); [split|..];
    [intros k o E; cbn [one_buffered s_objects] in E; by rewrite lookup_empty in E
    |intros k b E; cbn [one_buffered s_buffers] in E; apply lookup_singleton_Some in E as [<- <-]; (split; [reflexivity|]); split; by apply Hn
    |by apply Hn|by apply Hn|reflexivity|done|reflexivity|reflexivity|vm_compute; intros; discriminate
    |repeat constructor; by apply Hn
    |intros l b E; by repeat (apply elem_of_cons in E as [E|E]; [discriminate E|]); apply not_elem_of_nil in E
    |vm_compute; lia]).
  destruct H' as (H1 & H2 & H3). split; [exact H1|]. split; [|split; [|vm_compute; reflexivity]].
  - exact (eq_trans H2 eq_refl).
  - exact H3.
Defined.

Lemma unreadable_objects_unreported_witness :
  readLogsFromS3 s3_config (λ k, negb (HasPrefix k "jobs/n1/a/stdout/170000000000000000")) None "" (all_of "a") s3_flushed = ([], Ok tt) ∧
  query_stream (all_of "a") = "stdout"%string.
Proof.
  destruct (unreadable_objects_unreported s3_config (λ k, negb (HasPrefix k "jobs/n1/a/stdout/170000000000000000")) "" (all_of "a") s3_flushed) as [H1 H2].
  - vm_compute. repeat constructor.
  - split; [exact (eq_trans H1 ltac:(vm_compute; reflexivity))|by apply H2].
Defined.
