(* ===== verification/CloudWatch.v ===== *)
(** * The CloudWatch store of the persist service
    (persist/internal/storage/cloudwatch.go)

    Log lines, metrics and kernel events as messages of CloudWatch log streams, and
    metrics as CloudWatch metrics.  The two services are the class [CloudWatch], with
    their documentation as the class [CloudWatchLaws]; the decoding of JSON is the class
    [FlatJSON].  A function answers [None] when the code panics.  Calls are taken one at a
    time: what two writers of one stream do at once is what the service makes of it. *)

From Stdlib Require Import Ascii String SpecFloat.
From S2P Require Import Prelude GoStrings GoNumbers Ipc PersistStore Wire.

Local Open Scope Z_scope.

(** ** Text *)

Definition dquote : ascii := byte_of 34.
Definition hex (n : Z) : ascii := byte_of (if n <? 10 then 48 + n else 87 + n).
(** [%q] on one byte of ASCII. *)
Definition quote_ascii (c : ascii) : list ascii :=
  let z := byte_val c in
  let esc (d : ascii) := ["\"%char; d] in
  if z =? 34 then esc dquote else if z =? 92 then esc "\"%char
  else if z =? 7 then esc "a"%char else if z =? 8 then esc "b"%char else if z =? 12 then esc "f"%char else if z =? 10 then esc "n"%char
  else if z =? 13 then esc "r"%char else if z =? 9 then esc "t"%char else if z =? 11 then esc "v"%char
  else if (z <? 32) || (z =? 127) then esc "x"%char ++ [hex (z / 16); hex (z mod 16)] else [c].

(** [%.6f] of a double: rounded to the nearest multiple of a millionth, ties to even. *)
Definition round_div (n d : Z) : Z :=
  let q := n / d in let r := n mod d in if (d <? 2 * r) || ((d =? 2 * r) && Z.odd q) then q + 1 else q.
Definition pad6 (n : Z) : string := of_bytes ((λ i, byte_of (48 + n / 10 ^ i mod 10)) <$> [5; 4; 3; 2; 1; 0]).
Definition fixed6 (x : float64) : string :=
  let text (neg : bool) (n : Z) := ((if neg then "-" else "") +:+ Itoa (n / 10 ^ 6) +:+ "." +:+ pad6 (n mod 10 ^ 6))%string in
  match x with
  | S754_zero s => text s 0
  | S754_finite s m e => text s (if 0 <=? e then Zpos m * 2 ^ e * 10 ^ 6 else round_div (Zpos m * 10 ^ 6) (2 ^ (- e)))
  | S754_infinity s => if s then "-Inf" else "+Inf"
  | S754_nan => "NaN"
  end.
(** A JSON number with a fraction, as a double. *)
Definition unfixed (s : string) : option float64 :=
  match bytes s with
  | "-"%char :: l => '(m, k) ← decimal_literal (of_bytes l); Some (SFopp (decimal m k))
  | _ => '(m, k) ← decimal_literal s; Some (decimal m k)
  end.

(** ** JSON objects *)

Inductive jval := JNum (z : Z) | JFrac (text : string) | JText (s : string) | JNull | JOther.
Definition in_quotes (s : string) : string := of_bytes (dquote :: bytes s ++ [dquote]).
(** The objects as the formats print them. *)
Definition object (fs : list (string * string)) : string :=
  "{" +:+ of_bytes (join_bytes "," ((λ '(k, v), bytes (in_quotes k) ++ ":"%char :: bytes v) <$> fs)) +:+ "}".

Definition plain_char (c : ascii) : bool :=
  (32 <=? byte_val c) && (byte_val c <=? 126) && negb (byte_val c =? 34) && negb (byte_val c =? 92).
Definition plain_text (s : string) : Prop := forallb plain_char (bytes s) = true.
(** A number with a point. *)
Definition fraction (t : string) : Prop :=
  is_Some (unfixed t) ∧ "."%char ∈ bytes t ∧ forallb (λ c, is_digit c || (Ascii.eqb c "." || Ascii.eqb c "-")) (bytes t) = true.
Definition plain_value (v : jval) : Prop :=
  match v with JNum _ => True | JText s => plain_text s | JFrac t => fraction t | JNull | JOther => False end.
Definition render (v : jval) : string :=
  match v with JNum z => Itoa z | JFrac t => t | JText s => in_quotes s | JNull => "null" | JOther => "{}" end.

(** [encoding/json] on an object: its fields. *)
Class FlatJSON := { Unmarshal : string → option (list (string * jval)) }.
Class LawfulFlatJSON `{FlatJSON} : Prop := {
  Unmarshal_object : ∀ fs, Forall (λ kv, plain_text kv.1 ∧ plain_value kv.2) fs → Unmarshal (object (prod_map id render <$> fs)) = Some fs;
}.

Definition field (k : string) (fs : list (string * jval)) : jval := default JNull (snd <$> find (λ kv, String.eqb k kv.1) fs).
(** Decoding into an unsigned or signed field of some width, a string, a double; a missing
    field keeps its zero. *)
Definition unsigned (w : Z) (v : jval) : option Z :=
  match v with JNum z => if bool_decide (0 ≤ z < 2 ^ w) then Some z else None | JNull => Some 0 | _ => None end.
Definition signed (v : jval) : option Z := match v with JNum z => if bool_decide (in_int64 z) then Some z else None | JNull => Some 0 | _ => None end.
Definition text_of (v : jval) : option string := match v with JText s => Some s | JNull => Some ""%string | _ => None end.
Definition double (v : jval) : option float64 :=
  match v with JNum z => Some (float_of_Z z) | JFrac t => unfixed t | JNull => Some zero64 | _ => None end.

(** ** Events and their messages *)

Inductive tkind := TExec | TConnect | TFile | TAccept | TSocketData | TMmap | TMprotect.
#[export] Instance tkind_eq : EqDecision tkind.
Proof. solve_decision. Defined.
Inductive kernel_event :=
| EExec (e : ExecEvent) | EConnect (e : ConnectEvent) | EFile (e : FileEvent) | EAccept (e : AcceptEvent)
| ESocketData (e : SocketDataEvent) | EMmap (e : MmapEvent) | EMprotect (e : MprotectEvent).
Definition kind_of (e : kernel_event) : tkind :=
  match e with EExec _ => TExec | EConnect _ => TConnect | EFile _ => TFile | EAccept _ => TAccept | ESocketData _ => TSocketData | EMmap _ => TMmap | EMprotect _ => TMprotect end.
Definition head_of (e : kernel_event) : head :=
  match e with
  | EExec e => xe_head e | EConnect e => ce_head e | EFile e => fe_head e | EAccept e => ae_head e | ESocketData e => se_head e | EMmap e => ve_head e | EMprotect e => pe_head e
  end.
Definition kind_stream (k : tkind) : string :=
  match k with
  | TExec => "exec-events" | TConnect => "connect-events" | TFile => "file-events" | TAccept => "accept-events" | TSocketData => "socket-data-events"
  | TMmap => "mmap-events" | TMprotect => "mprotect-events"
  end.

Section messages.
(** [%q] on a run of bytes outside ASCII. *)
Context (quote_high : list ascii → list ascii).

Definition flush_high (run : list ascii) : list ascii := match run with [] => [] | _ => quote_high run end.
Fixpoint quote_bytes (run l : list ascii) : list ascii :=
  match l with
  | [] => flush_high run
  | c :: l => if 128 <=? byte_val c then quote_bytes (run ++ [c]) l else flush_high run ++ quote_ascii c ++ quote_bytes [] l
  end.
(** [%q]. *)
Definition quoted (s : string) : string := of_bytes (dquote :: quote_bytes [] (bytes s) ++ [dquote]).
Definition addr_port (addr : string) (port : Z) : string := addr +:+ ":" +:+ Itoa port.

(** The formats of the seven kinds of events.
    [src/persist/internal/storage/cloudwatch.go:653-656 CloudWatchBackend.WriteExecEvents] *)
Definition exec_message (e : ExecEvent) : string := object [
  ("type", in_quotes "exec"); ("pid", Itoa (h_Pid (xe_head e))); ("ppid", Itoa (xe_Ppid e)); ("uid", Itoa (xe_Uid e)); ("gid", Itoa (xe_Gid e));
  ("comm", quoted (h_Comm (xe_head e))); ("filename", quoted (xe_Filename e)); ("args", quoted (Join (xe_Args e) " "))]%string.
(** [src/persist/internal/storage/cloudwatch.go:714-717 CloudWatchBackend.WriteConnectEvents] *)
Definition connect_message (e : ConnectEvent) : string := object [
  ("type", in_quotes "connect"); ("pid", Itoa (h_Pid (ce_head e))); ("comm", quoted (h_Comm (ce_head e)));
  ("src", in_quotes (addr_port (ce_SrcAddr e) (ce_SrcPort e))); ("dst", in_quotes (addr_port (ce_DstAddr e) (ce_DstPort e))); ("proto", quoted (ce_Protocol e))]%string.
(** [src/persist/internal/storage/cloudwatch.go:772-774 CloudWatchBackend.WriteFileEvents] *)
Definition file_message (e : FileEvent) : string := object [
  ("type", in_quotes "file"); ("pid", Itoa (h_Pid (fe_head e))); ("comm", quoted (h_Comm (fe_head e))); ("path", quoted (fe_Path e));
  ("op", quoted (fe_Operation e)); ("bytes", Itoa (fe_Bytes e))]%string.
(** [src/persist/internal/storage/cloudwatch.go:827-829 CloudWatchBackend.WriteAcceptEvents] *)
Definition accept_message (e : AcceptEvent) : string := object [
  ("type", in_quotes "accept"); ("pid", Itoa (h_Pid (ae_head e))); ("comm", quoted (h_Comm (ae_head e)));
  ("src", in_quotes (addr_port (ae_SrcAddr e) (ae_SrcPort e))); ("dst", in_quotes (addr_port (ae_DstAddr e) (ae_DstPort e))); ("proto", quoted (ae_Protocol e))]%string.
(** [src/persist/internal/storage/cloudwatch.go:882-884 CloudWatchBackend.WriteSocketDataEvents] *)
Definition socket_message (e : SocketDataEvent) : string := object [
  ("type", in_quotes "socket_data"); ("pid", Itoa (h_Pid (se_head e))); ("comm", quoted (h_Comm (se_head e))); ("dir", quoted (se_Direction e));
  ("addr", in_quotes (addr_port (se_Addr e) (se_Port e))); ("proto", quoted (se_Protocol e)); ("bytes", Itoa (se_Bytes e))]%string.
(** [src/persist/internal/storage/cloudwatch.go:937-939 CloudWatchBackend.WriteMmapEvents] *)
Definition mmap_message (e : MmapEvent) : string := object [
  ("type", in_quotes "mmap"); ("pid", Itoa (h_Pid (ve_head e))); ("comm", quoted (h_Comm (ve_head e))); ("addr", Itoa (ve_Addr e)); ("len", Itoa (ve_Length e));
  ("prot", Itoa (ve_Prot e)); ("flags", Itoa (ve_Flags e)); ("file", quoted (ve_Filename e))]%string.
(** [src/persist/internal/storage/cloudwatch.go:992-994 CloudWatchBackend.WriteMprotectEvents] *)
Definition mprotect_message (e : MprotectEvent) : string := object [
  ("type", in_quotes "mprotect"); ("pid", Itoa (h_Pid (pe_head e))); ("comm", quoted (h_Comm (pe_head e))); ("addr", Itoa (pe_Addr e)); ("len", Itoa (pe_Length e));
  ("prot", Itoa (pe_Prot e))]%string.
Definition message (e : kernel_event) : string :=
  match e with
  | EExec e => exec_message e | EConnect e => connect_message e | EFile e => file_message e | EAccept e => accept_message e
  | ESocketData e => socket_message e | EMmap e => mmap_message e | EMprotect e => mprotect_message e
  end.

Definition no_io : DiskIO := {| d_ReadBytes := 0; d_WriteBytes := 0; d_ReadOps := 0; d_WriteOps := 0 |}.
Definition no_net : NetworkIO := {| n_RxBytes := 0; n_TxBytes := 0; n_RxPackets := 0; n_TxPackets := 0 |}.
(** A metric without data has no message.
    [src/persist/internal/storage/cloudwatch.go:417-454 CloudWatchBackend.writeMetricsToLogs] *)
Definition metric_message (m : Metric) : option string :=
  data ← me_Data m;
  let d := default no_io (md_DiskIo data) in let n := default no_net (md_NetworkIo data) in
  Some (object [
    ("type", in_quotes "metrics"); ("ts", Itoa (me_Timestamp m)); ("cpu", fixed6 (md_CpuUsage data)); ("mem", Itoa (md_MemoryUsage data)); ("gpu", fixed6 (md_GpuUsage data));
    ("disk_r", Itoa (d_ReadBytes d)); ("disk_w", Itoa (d_WriteBytes d)); ("disk_r_ops", Itoa (d_ReadOps d)); ("disk_w_ops", Itoa (d_WriteOps d));
    ("net_rx", Itoa (n_RxBytes n)); ("net_tx", Itoa (n_TxBytes n))]%string).
End messages.

(** ** Reading messages *)

Section parsers.
Context {FJ : FlatJSON}.

(** [strconv.ParseUint] with base 10 and 32 bits, without its error. *)
Fixpoint parse_uint32 (n : Z) (l : list ascii) : Z :=
  match l with
  | [] => n
  | c :: l => if is_digit c then let n := n * 10 + digit_val c in if 2 ^ 32 <=? n then 2 ^ 32 - 1 else parse_uint32 n l else 0
  end.
(** [src/persist/internal/storage/cloudwatch.go parseAddrPort] *)
Definition parseAddrPort (addrPort : string) : string * Z :=
  match Split addrPort ":" with [addr; port] => (addr, parse_uint32 0 (bytes port)) | _ => (addrPort, 0) end.
Definition read_head (jobID : string) (timestamp pid : Z) (comm : string) : head :=
  {| h_JobUuid := jobID; h_Timestamp := timestamp; h_Sequence := 0; h_Pid := pid; h_Comm := comm |}.

(** [src/persist/internal/storage/cloudwatch.go parseExecEventFromJSON] *)
Definition parseExecEventFromJSON (jsonStr jobID : string) (timestamp : Z) : option ExecEvent :=
  fs ← Unmarshal jsonStr; _ ← text_of (field "type" fs);
  pid ← unsigned 32 (field "pid" fs); ppid ← unsigned 32 (field "ppid" fs); uid ← unsigned 32 (field "uid" fs); gid ← unsigned 32 (field "gid" fs);
  comm ← text_of (field "comm" fs); filename ← text_of (field "filename" fs); args ← text_of (field "args" fs);
  Some {| xe_head := read_head jobID timestamp pid comm; xe_Ppid := ppid; xe_Uid := uid; xe_Gid := gid; xe_Filename := filename; xe_Args := Fields args |}.
(** [src/persist/internal/storage/cloudwatch.go parseConnectEventFromJSON] *)
Definition parseConnectEventFromJSON (jsonStr jobID : string) (timestamp : Z) : option ConnectEvent :=
  fs ← Unmarshal jsonStr; _ ← text_of (field "type" fs); pid ← unsigned 32 (field "pid" fs); comm ← text_of (field "comm" fs);
  src ← text_of (field "src" fs); dst ← text_of (field "dst" fs); proto ← text_of (field "proto" fs);
  let '(srcAddr, srcPort) := parseAddrPort src in let '(dstAddr, dstPort) := parseAddrPort dst in
  Some {| ce_head := read_head jobID timestamp pid comm; ce_SrcAddr := srcAddr; ce_SrcPort := srcPort; ce_DstAddr := dstAddr; ce_DstPort := dstPort; ce_Protocol := proto |}.
(** [src/persist/internal/storage/cloudwatch.go parseFileEventFromJSON] *)
Definition parseFileEventFromJSON (jsonStr jobID : string) (timestamp : Z) : option FileEvent :=
  fs ← Unmarshal jsonStr; _ ← text_of (field "type" fs); pid ← unsigned 32 (field "pid" fs); comm ← text_of (field "comm" fs);
  path ← text_of (field "path" fs); op ← text_of (field "op" fs); n ← signed (field "bytes" fs);
  Some {| fe_head := read_head jobID timestamp pid comm; fe_Path := path; fe_Operation := op; fe_Bytes := n |}.
(** [src/persist/internal/storage/cloudwatch.go parseAcceptEventFromJSON] *)
Definition parseAcceptEventFromJSON (jsonStr jobID : string) (timestamp : Z) : option AcceptEvent :=
  fs ← Unmarshal jsonStr; _ ← text_of (field "type" fs); pid ← unsigned 32 (field "pid" fs); comm ← text_of (field "comm" fs);
  src ← text_of (field "src" fs); dst ← text_of (field "dst" fs); proto ← text_of (field "proto" fs);
  let '(srcAddr, srcPort) := parseAddrPort src in let '(dstAddr, dstPort) := parseAddrPort dst in
  Some {| ae_head := read_head jobID timestamp pid comm; ae_SrcAddr := srcAddr; ae_SrcPort := srcPort; ae_DstAddr := dstAddr; ae_DstPort := dstPort; ae_Protocol := proto |}.
(** [src/persist/internal/storage/cloudwatch.go parseSocketDataEventFromJSON] *)
Definition parseSocketDataEventFromJSON (jsonStr jobID : string) (timestamp : Z) : option SocketDataEvent :=
  fs ← Unmarshal jsonStr; _ ← text_of (field "type" fs); pid ← unsigned 32 (field "pid" fs); comm ← text_of (field "comm" fs);
  dir ← text_of (field "dir" fs); addr ← text_of (field "addr" fs); proto ← text_of (field "proto" fs); n ← signed (field "bytes" fs);
  let '(a, port) := parseAddrPort addr in
  Some {| se_head := read_head jobID timestamp pid comm; se_Direction := dir; se_Addr := a; se_Port := port; se_Protocol := proto; se_Bytes := n |}.
(** [src/persist/internal/storage/cloudwatch.go parseMmapEventFromJSON] *)
Definition parseMmapEventFromJSON (jsonStr jobID : string) (timestamp : Z) : option MmapEvent :=
  fs ← Unmarshal jsonStr; _ ← text_of (field "type" fs); pid ← unsigned 32 (field "pid" fs); comm ← text_of (field "comm" fs);
  addr ← unsigned 64 (field "addr" fs); length ← unsigned 64 (field "len" fs); prot ← unsigned 32 (field "prot" fs); flags ← unsigned 32 (field "flags" fs);
  file ← text_of (field "file" fs);
  Some {| ve_head := read_head jobID timestamp pid comm; ve_Addr := addr; ve_Length := length; ve_Prot := prot; ve_Flags := flags; ve_Filename := file |}.
(** [src/persist/internal/storage/cloudwatch.go parseMprotectEventFromJSON] *)
Definition parseMprotectEventFromJSON (jsonStr jobID : string) (timestamp : Z) : option MprotectEvent :=
  fs ← Unmarshal jsonStr; _ ← text_of (field "type" fs); pid ← unsigned 32 (field "pid" fs); comm ← text_of (field "comm" fs);
  addr ← unsigned 64 (field "addr" fs); length ← unsigned 64 (field "len" fs); prot ← unsigned 32 (field "prot" fs);
  Some {| pe_head := read_head jobID timestamp pid comm; pe_Addr := addr; pe_Length := length; pe_Prot := prot |}.
Definition parse (k : tkind) (jobID : string) (timestamp : Z) (jsonStr : string) : option kernel_event :=
  match k with
  | TExec => EExec <$> parseExecEventFromJSON jsonStr jobID timestamp
  | TConnect => EConnect <$> parseConnectEventFromJSON jsonStr jobID timestamp
  | TFile => EFile <$> parseFileEventFromJSON jsonStr jobID timestamp
  | TAccept => EAccept <$> parseAcceptEventFromJSON jsonStr jobID timestamp
  | TSocketData => ESocketData <$> parseSocketDataEventFromJSON jsonStr jobID timestamp
  | TMmap => EMmap <$> parseMmapEventFromJSON jsonStr jobID timestamp
  | TMprotect => EMprotect <$> parseMprotectEventFromJSON jsonStr jobID timestamp
  end.

(** [src/persist/internal/storage/cloudwatch.go parseMetricFromJSON] *)
Definition parseMetricFromJSON (jsonStr jobID : string) : option Metric :=
  fs ← Unmarshal jsonStr; _ ← text_of (field "type" fs); ts ← signed (field "ts" fs);
  cpu ← double (field "cpu" fs); mem ← signed (field "mem" fs); gpu ← double (field "gpu" fs);
  dr ← signed (field "disk_r" fs); dw ← signed (field "disk_w" fs); dro ← signed (field "disk_r_ops" fs); dwo ← signed (field "disk_w_ops" fs);
  rx ← signed (field "net_rx" fs); tx ← signed (field "net_tx" fs);
  Some {| me_JobUuid := jobID; me_Timestamp := ts; me_Sequence := 0; me_Data := Some {|
    md_CpuUsage := cpu; md_MemoryUsage := mem; md_GpuUsage := gpu;
    md_DiskIo := Some {| d_ReadBytes := dr; d_WriteBytes := dw; d_ReadOps := dro; d_WriteOps := dwo |};
    md_NetworkIo := Some {| n_RxBytes := rx; n_TxBytes := tx; n_RxPackets := 0; n_TxPackets := 0 |} |} |}.
End parsers.

(** ** The services *)

Record get_input := { g_group : string; g_stream : string; g_start : option Z; g_end : option Z; g_limit : option Z; g_token : option string }.
Record datum := { d_name : string; d_unit : string; d_value : float64; d_time : Z; d_dimensions : list (string * string) }.
Class CloudWatch (St : Type) := {
  CreateLogGroup : string → St → option string * St;
  PutRetentionPolicy : string → Z → St → option string * St;
  CreateLogStream : string → string → St → option string * St;
  (* With a sequence token; the answer has the next one. *)
  PutLogEvents : string → string → option string → list (Z * string) → St → result string (option string) * St;
  (* The sequence tokens of the streams with the prefix. *)
  DescribeLogStreams : string → string → St → result string (list (option string)) * St;
  (* A page, and the token of the next one. *)
  GetLogEvents : get_input → St → result string (list (Z * string) * option string) * St;
  DeleteLogStream : string → string → St → option string * St;
  PutMetricData : string → list datum → St → option string * St;
}.

(** ** The backend *)

(** [src/persist/internal/config/config.go CloudWatchConfig] *)
Record CloudWatchConfig := {
  Region : string; NodeID : string; LogGroupPrefix : string; MetricNamespace : string; MetricDimensions : list (string * string);
  LogBatchSize : Z; MetricBatchSize : Z; LogRetentionDays : Z;
}.
(** [src/persist/internal/storage/cloudwatch.go CloudWatchBackend] *)
Record cloudwatch := { createdGroups : gset string; createdStreams : gset string; sequenceTokens : gmap string string }.
Definition set_groups (g : gset string) (b : cloudwatch) : cloudwatch := {| createdGroups := g; createdStreams := createdStreams b; sequenceTokens := sequenceTokens b |}.
Definition set_streams (s : gset string) (b : cloudwatch) : cloudwatch := {| createdGroups := createdGroups b; createdStreams := s; sequenceTokens := sequenceTokens b |}.
Definition set_tokens (t : gmap string string) (b : cloudwatch) : cloudwatch := {| createdGroups := createdGroups b; createdStreams := createdStreams b; sequenceTokens := t |}.

Definition or_else {A} (c : bool) (d x : A) : A := if c then d else x.
(** The region is required; the credentials are loaded elsewhere.
    [src/persist/internal/storage/cloudwatch.go NewCloudWatchBackend] *)
Definition NewCloudWatchBackend (c : CloudWatchConfig) (nodeID : string) : result string (CloudWatchConfig * cloudwatch) :=
  if String.eqb (Region c) "" then Err "cloudwatch.region is required"%string else
  Ok ({| Region := Region c; NodeID := nodeID; LogGroupPrefix := or_else (String.eqb (LogGroupPrefix c) "") "/joblet"%string (LogGroupPrefix c);
         MetricNamespace := or_else (String.eqb (MetricNamespace c) "") "Joblet/Jobs"%string (MetricNamespace c); MetricDimensions := MetricDimensions c;
         LogBatchSize := or_else (LogBatchSize c =? 0) 100 (LogBatchSize c); MetricBatchSize := or_else (MetricBatchSize c =? 0) 20 (MetricBatchSize c);
         LogRetentionDays := or_else (LogRetentionDays c =? 0) 7 (LogRetentionDays c) |},
      {| createdGroups := ∅; createdStreams := ∅; sequenceTokens := ∅ |}).

Section backend.
Context {St : Type} {CW : CloudWatch St} {SS : SortSlice} {FJ : FlatJSON} (quote_high : list ascii → list ascii) (config : CloudWatchConfig).

Definition state : Type := cloudwatch * St.
Definition log_group : string := LogGroupPrefix config +:+ "/" +:+ NodeID config +:+ "/jobs".
Definition stream_name (jobID suffix : string) : string := jobID +:+ "-" +:+ suffix.
Definition stream_key (group stream : string) : string := group +:+ "/" +:+ stream.
(** [src/persist/internal/storage/cloudwatch.go CloudWatchBackend.getLogGroupForRead] *)
Definition getLogGroupForRead (nodeID : string) : string := LogGroupPrefix config +:+ "/" +:+ or_else (String.eqb nodeID "") (NodeID config) nodeID +:+ "/jobs".

(** [src/persist/internal/storage/cloudwatch.go CloudWatchBackend.ensureLogGroup] *)
Definition ensureLogGroup (group : string) (s : state) : option string * state :=
  let '(b, st) := s in
  if bool_decide (group ∈ createdGroups b) then (None, s) else
  let '(err, st) := CreateLogGroup group st in
  match err with
  | Some e => if GoStrings.Contains e "ResourceAlreadyExistsException" then
                (None, (set_groups ({[group]} ∪ createdGroups b) b, if LogRetentionDays config >? 0 then (PutRetentionPolicy group (wrap 32 (LogRetentionDays config)) st).2 else st))
              else (Some "failed to create log group"%string, (b, st))
  | None => (None, (set_groups ({[group]} ∪ createdGroups b) b, if LogRetentionDays config >? 0 then (PutRetentionPolicy group (wrap 32 (LogRetentionDays config)) st).2 else st))
  end.
(** [src/persist/internal/storage/cloudwatch.go CloudWatchBackend.ensureLogStream] *)
Definition ensureLogStream (group stream : string) (s : state) : option string * state :=
  let '(b, st) := s in
  if bool_decide (stream_key group stream ∈ createdStreams b) then (None, s) else
  let '(err, st) := CreateLogStream group stream st in
  let known := (None, (set_streams ({[stream_key group stream]} ∪ createdStreams b) b, st)) in
  match err with
  | Some e => if GoStrings.Contains e "ResourceAlreadyExistsException" then known else (Some "failed to create log stream"%string, (b, st))
  | None => known
  end.

(** Any error is followed by another try, with the token the service describes.
    [src/persist/internal/storage/cloudwatch.go CloudWatchBackend.putLogEvents] *)
Definition putLogEvents (group stream : string) (events : list (Z * string)) (s : state) : option string * state :=
  let '(b, st) := s in
  let key := stream_key group stream in
  let '(r, st) := match PutLogEvents group stream (sequenceTokens b !! key) events st with
                  | (Err e, st) => match DescribeLogStreams group stream st with
                                   | (Ok (token :: _), st) => PutLogEvents group stream token events st
                                   | (_, st) => (Err e, st)
                                   end
                  | ok => ok
                  end in
  match r with
  | Err _ => (Some "failed to put log events"%string, (b, st))
  | Ok next => (None, (match next with Some t => set_tokens (<[key := t]> (sequenceTokens b)) b | None => b end, st))
  end.

(** The loop over the batches; a batch size below zero panics.
    [src/persist/internal/storage/cloudwatch.go:202-213 CloudWatchBackend.writeLogsToStream] *)
Fixpoint put_batches (fuel : nat) (group stream : string) (events : list (Z * string)) (s : state) : option (option string) * state :=
  match events, fuel with
  | [], _ => (Some None, s)
  | _, O => (None, s)
  | _, S fuel =>
      if LogBatchSize config <? 0 then (None, s) else
      let n := Z.to_nat (LogBatchSize config) in
      match putLogEvents group stream (take n events) s with
      | (Some e, s) => (Some (Some e), s)
      | (None, s) => put_batches fuel group stream (drop n events) s
      end
  end.

(** Sorted by time, converted, in batches; an item without a message is left out.
    [src/persist/internal/storage/cloudwatch.go:625-685 CloudWatchBackend.WriteExecEvents] *)
Definition write_stream {E} (suffix : string) (time : E → Z) (text : E → option string) (jobID : string) (l : list E) (s : state) : option (option string) * state :=
  let stream := stream_name jobID suffix in
  match ensureLogGroup log_group s with
  | (Some _, s) => (Some (Some "failed to ensure log group"%string), s)
  | (None, s) =>
      match ensureLogStream log_group stream s with
      | (Some _, s) => (Some (Some "failed to ensure log stream"%string), s)
      | (None, s) =>
          let sorted := sort_slice (λ x y, time x <? time y) l in
          let events := omap (λ x, (λ m, (Z.quot (time x) 1000000, m)) <$> text x) sorted in
          put_batches (length events) log_group stream events s
      end
  end.

(** [src/persist/internal/storage/cloudwatch.go CloudWatchBackend.writeLogsToStream] *)
Definition writeLogsToStream (jobID streamType : string) (logs : list LogLine) : state → option (option string) * state :=
  write_stream streamType l_Timestamp (λ l, Some (of_bytes (l_Content l))) jobID logs.
Definition unless_none {E} (write : list E → state → option (option string) * state) (l : list E) (s : state) : option (option string) * state :=
  match l with [] => (Some None, s) | _ => write l s end.
(** Lines of other streams are left out; a failure of one stream does not keep the other
    from being written.
    [src/persist/internal/storage/cloudwatch.go CloudWatchBackend.WriteLogs] *)
Definition WriteLogs (jobID : string) (logs : list LogLine) (s : state) : option (option string) * state :=
  let of_stream t := List.filter (λ l, bool_decide (l_Stream l = t)) logs in
  let '(r1, s) := unless_none (writeLogsToStream jobID "stdout") (of_stream SStdout) s in
  match r1 with
  | None => (None, s)
  | Some e1 =>
      let '(r2, s) := unless_none (writeLogsToStream jobID "stderr") (of_stream SStderr) s in
      match r2 with
      | None => (None, s)
      | Some e2 => (Some (match e1, e2 with None, None => None | _, _ => Some "failed to write logs"%string end), s)
      end
  end.

Definition write_events (jobID : string) (k : tkind) : list kernel_event → state → option (option string) * state :=
  unless_none (write_stream (kind_stream k) (λ e, h_Timestamp (head_of e)) (λ e, Some (message quote_high e)) jobID).
(** [src/persist/internal/storage/cloudwatch.go CloudWatchBackend.WriteExecEvents] *)
Definition WriteExecEvents (jobID : string) (l : list ExecEvent) := write_events jobID TExec (EExec <$> l).
(** [src/persist/internal/storage/cloudwatch.go CloudWatchBackend.WriteConnectEvents] *)
Definition WriteConnectEvents (jobID : string) (l : list ConnectEvent) := write_events jobID TConnect (EConnect <$> l).
(** [src/persist/internal/storage/cloudwatch.go CloudWatchBackend.WriteFileEvents] *)
Definition WriteFileEvents (jobID : string) (l : list FileEvent) := write_events jobID TFile (EFile <$> l).
(** [src/persist/internal/storage/cloudwatch.go CloudWatchBackend.WriteAcceptEvents] *)
Definition WriteAcceptEvents (jobID : string) (l : list AcceptEvent) := write_events jobID TAccept (EAccept <$> l).
(** [src/persist/internal/storage/cloudwatch.go CloudWatchBackend.WriteSocketDataEvents] *)
Definition WriteSocketDataEvents (jobID : string) (l : list SocketDataEvent) := write_events jobID TSocketData (ESocketData <$> l).
(** [src/persist/internal/storage/cloudwatch.go CloudWatchBackend.WriteMmapEvents] *)
Definition WriteMmapEvents (jobID : string) (l : list MmapEvent) := write_events jobID TMmap (EMmap <$> l).
(** [src/persist/internal/storage/cloudwatch.go CloudWatchBackend.WriteMprotectEvents] *)
Definition WriteMprotectEvents (jobID : string) (l : list MprotectEvent) := write_events jobID TMprotect (EMprotect <$> l).

(** *** Metrics *)

(** [src/persist/internal/storage/cloudwatch.go CloudWatchBackend.writeMetricsToLogs] *)
Definition writeMetricsToLogs (jobID : string) (metrics : list Metric) : state → option (option string) * state :=
  write_stream "metrics" me_Timestamp metric_message jobID metrics.

(** [src/persist/internal/storage/cloudwatch.go:503-592 CloudWatchBackend.writeMetricsToMetricsAPI] *)
Definition metric_data (jobID : string) (m : Metric) : list datum :=
  let dims := [("JobUUID", jobID); ("NodeID", NodeID config)]%string ++ MetricDimensions config in
  match me_Data m with
  | None => []
  | Some data =>
      let d (name unit : string) (v : float64) := {| d_name := name; d_unit := unit; d_value := v; d_time := me_Timestamp m; d_dimensions := dims |} in
      let hundred := float_of_Z 100 in let kilo := float_of_Z 1024 in
      [d "CPUUsage" "Percent" (mul64 (md_CpuUsage data) hundred);
       d "MemoryUsage" "Megabytes" (div64 (div64 (float_of_Z (md_MemoryUsage data)) kilo) kilo)]%string ++
      (if lt64 zero64 (md_GpuUsage data) then [d "GPUUsage" "Percent" (mul64 (md_GpuUsage data) hundred)]%string else []) ++
      match md_DiskIo data with
      | Some i => [d "DiskReadBytes" "Bytes" (float_of_Z (d_ReadBytes i)); d "DiskWriteBytes" "Bytes" (float_of_Z (d_WriteBytes i));
                   d "DiskReadOps" "Count" (float_of_Z (d_ReadOps i)); d "DiskWriteOps" "Count" (float_of_Z (d_WriteOps i))]%string
      | None => []
      end ++
      match md_NetworkIo data with
      | Some i => [d "NetworkRxBytes" "Bytes" (float_of_Z (n_RxBytes i)); d "NetworkTxBytes" "Bytes" (float_of_Z (n_TxBytes i))]%string
      | None => []
      end
  end.
Fixpoint put_metrics (fuel : nat) (data : list datum) (st : St) : option unit * St :=
  match data, fuel with
  | [], _ => (Some tt, st)
  | _, O => (None, st)
  | _, S fuel =>
      if MetricBatchSize config <? 0 then (None, st) else
      let n := Z.to_nat (MetricBatchSize config) in
      put_metrics fuel (drop n data) (PutMetricData (MetricNamespace config) (take n data) st).2
  end.
(** Runs beside the writer; its errors are logged.
    [src/persist/internal/storage/cloudwatch.go CloudWatchBackend.writeMetricsToMetricsAPI] *)
Definition writeMetricsToMetricsAPI (jobID : string) (metrics : list Metric) (st : St) : option unit * St :=
  let data := flat_map (metric_data jobID) metrics in put_metrics (length data) data st.
(** The flag: whether [writeMetricsToMetricsAPI] is started.
    [src/persist/internal/storage/cloudwatch.go CloudWatchBackend.WriteMetrics] *)
Definition WriteMetrics (jobID : string) (metrics : list Metric) (s : state) : option (option string) * bool * state :=
  match metrics with
  | [] => (Some None, false, s)
  | _ => match writeMetricsToLogs jobID metrics s with
         | (Some None, s) => (Some None, true, s)
         | (Some (Some _), s) => (Some (Some "failed to write metrics to logs"%string), false, s)
         | (None, s) => (None, false, s)
         end
  end.

(** *** Reading *)

Definition millis (t : option Z) : option Z := (λ t, Z.quot t 1000000) <$> t.
Definition page_limit (limit : Z) : option Z := if limit >? 0 then Some (wrap 32 limit) else None.
Definition nanos_of (ms : Z) : Z := wrap 64 (ms * 1000000).

(** One page.
    [src/persist/internal/storage/cloudwatch.go CloudWatchBackend.readLogsFromStream] *)
Definition readLogsFromStream (nodeID : string) (q : LogQuery) (st : St) : list LogLine * option string * St :=
  let suffix := or_else (bool_decide (q_Stream q = SStderr)) "stderr"%string "stdout"%string in
  let '(r, st) := GetLogEvents {| g_group := getLogGroupForRead nodeID; g_stream := stream_name (q_JobUUID q) suffix; g_start := millis (q_StartTime q);
                                  g_end := millis (q_EndTime q); g_limit := page_limit (q_Limit q); g_token := None |} st in
  match r with
  | Err _ => ([], Some "failed to get log events"%string, st)
  | Ok (events, _) => ((λ '(t, m), {| l_JobUuid := q_JobUUID q; l_Stream := q_Stream q; l_Timestamp := nanos_of t; l_Sequence := 0; l_Content := bytes m |}) <$> events, None, st)
  end.

Definition get_of (nodeID suffix : string) (q : TelemetryQuery) (token : option string) : get_input :=
  {| g_group := getLogGroupForRead nodeID; g_stream := stream_name (t_JobUUID q) suffix; g_start := millis (t_StartTime q); g_end := millis (t_EndTime q);
     g_limit := page_limit (t_Limit q); g_token := token |}.
(** The loop over the pages, with what they hold; out of fuel it does not end.
    [src/persist/internal/storage/cloudwatch.go:1326-1360 CloudWatchBackend.readExecEventsFromStream] *)
Fixpoint read_pages (fuel : nat) (nodeID suffix : string) (q : TelemetryQuery) (token : option string) (st : St) : option (list (Z * string) * option string) * St :=
  match fuel with
  | O => (None, st)
  | S fuel =>
      match GetLogEvents (get_of nodeID suffix q token) st with
      | (Err e, st) => (Some ([], if GoStrings.Contains e "ResourceNotFoundException" then None else Some "failed to get events"%string), st)
      | (Ok (events, next), st) =>
          if bool_decide (next = None) || (bool_decide (token ≠ None) && bool_decide (next = token)) then (Some (events, None), st)
          else let '(r, st) := read_pages fuel nodeID suffix q next st in (option_map (λ le, (events ++ le.1, le.2)) r, st)
      end
  end.
Definition read_events (fuel : nat) (k : tkind) (nodeID : string) (q : TelemetryQuery) (st : St) : option (list kernel_event * option string) * St :=
  let '(r, st) := read_pages fuel nodeID (kind_stream k) q None st in
  (option_map (λ le, (omap (λ tm, parse k (t_JobUUID q) (nanos_of tm.1) tm.2) le.1, le.2)) r, st).
(** [src/persist/internal/storage/cloudwatch.go CloudWatchBackend.readExecEventsFromStream] *)
Definition readExecEventsFromStream fuel := read_events fuel TExec.
(** [src/persist/internal/storage/cloudwatch.go CloudWatchBackend.readConnectEventsFromStream] *)
Definition readConnectEventsFromStream fuel := read_events fuel TConnect.
(** [src/persist/internal/storage/cloudwatch.go CloudWatchBackend.readFileEventsFromStream] *)
Definition readFileEventsFromStream fuel := read_events fuel TFile.
(** [src/persist/internal/storage/cloudwatch.go CloudWatchBackend.readAcceptEventsFromStream] *)
Definition readAcceptEventsFromStream fuel := read_events fuel TAccept.
(** [src/persist/internal/storage/cloudwatch.go CloudWatchBackend.readSocketDataEventsFromStream] *)
Definition readSocketDataEventsFromStream fuel := read_events fuel TSocketData.
(** [src/persist/internal/storage/cloudwatch.go CloudWatchBackend.readMmapEventsFromStream] *)
Definition readMmapEventsFromStream fuel := read_events fuel TMmap.
(** [src/persist/internal/storage/cloudwatch.go CloudWatchBackend.readMprotectEventsFromStream] *)
Definition readMprotectEventsFromStream fuel := read_events fuel TMprotect.

(** The pages of the metrics are collected first; an error discards them.
    [src/persist/internal/storage/cloudwatch.go:1131-1161 CloudWatchBackend.readMetricsFromStream] *)
Fixpoint metric_pages (fuel : nat) (nodeID : string) (q : TelemetryQuery) (token : option string) (all : list (Z * string)) (st : St)
    : option (list (Z * string) * option string) * St :=
  match fuel with
  | O => (None, st)
  | S fuel =>
      match GetLogEvents (get_of nodeID "metrics" q token) st with
      | (Err e, st) => (Some ([], if GoStrings.Contains e "ResourceNotFoundException" then None else Some "failed to get metric log events"%string), st)
      | (Ok (events, next), st) =>
          let all := all ++ events in
          if bool_decide (next = None) || (bool_decide (token ≠ None) && bool_decide (next = token)) then (Some (all, None), st)
          else if (t_Limit q >? 0) && (t_Limit q <=? Z.of_nat (length all)) then (Some (take (Z.to_nat (t_Limit q)) all, None), st)
          else metric_pages fuel nodeID q next all st
      end
  end.
(** [src/persist/internal/storage/cloudwatch.go CloudWatchBackend.readMetricsFromStream] *)
Definition readMetricsFromStream (fuel : nat) (nodeID : string) (q : TelemetryQuery) (st : St) : option (list Metric * option string) * St :=
  let '(r, st) := metric_pages fuel nodeID q None [] st in
  (option_map (λ le, (omap (λ tm, parseMetricFromJSON tm.2 (t_JobUUID q)) le.1, le.2)) r, st).

(** *** Deleting *)

Definition suffixes : list string :=
  ["stdout"; "stderr"; "metrics"; "exec-events"; "connect-events"; "file-events"; "accept-events"; "socket-data-events"; "mmap-events"; "mprotect-events"]%string.
(** [src/persist/internal/storage/cloudwatch.go:1247-1273 CloudWatchBackend.DeleteJob] *)
Definition delete_stream (stream : string) (acc : bool * state) : bool * state :=
  let '(failed, (b, st)) := acc in
  let '(err, st) := DeleteLogStream log_group stream st in
  let key := stream_key log_group stream in
  (failed || match err with Some e => negb (GoStrings.Contains e "ResourceNotFoundException") | None => false end,
   (set_tokens (delete key (sequenceTokens b)) (set_streams (createdStreams b ∖ {[key]}) b), st)).
(** [src/persist/internal/storage/cloudwatch.go CloudWatchBackend.DeleteJob] *)
Definition DeleteJob (jobID : string) (s : state) : option string * state :=
  let '(failed, s) := foldl (λ acc x, delete_stream (stream_name jobID x) acc) (false, s) suffixes in
  (if failed then Some "failed to delete some log streams"%string else None, s).
End backend.

(** ** Messages are read back *)

(** The time a stored event has: its milliseconds. *)
Definition kept_time (t : Z) : Z := nanos_of (Z.quot t 1000000).
Definition kept_head (jobID : string) (h : head) : head := read_head jobID (kept_time (h_Timestamp h)) (h_Pid h) (h_Comm h).
Definition kept (jobID : string) (e : kernel_event) : kernel_event :=
  match e with
  | EExec e => EExec {| xe_head := kept_head jobID (xe_head e); xe_Ppid := xe_Ppid e; xe_Uid := xe_Uid e; xe_Gid := xe_Gid e; xe_Filename := xe_Filename e; xe_Args := xe_Args e |}
  | EConnect e => EConnect {| ce_head := kept_head jobID (ce_head e); ce_SrcAddr := ce_SrcAddr e; ce_SrcPort := ce_SrcPort e; ce_DstAddr := ce_DstAddr e; ce_DstPort := ce_DstPort e; ce_Protocol := ce_Protocol e |}
  | EFile e => EFile {| fe_head := kept_head jobID (fe_head e); fe_Path := fe_Path e; fe_Operation := fe_Operation e; fe_Bytes := fe_Bytes e |}
  | EAccept e => EAccept {| ae_head := kept_head jobID (ae_head e); ae_SrcAddr := ae_SrcAddr e; ae_SrcPort := ae_SrcPort e; ae_DstAddr := ae_DstAddr e; ae_DstPort := ae_DstPort e; ae_Protocol := ae_Protocol e |}
  | ESocketData e => ESocketData {| se_head := kept_head jobID (se_head e); se_Direction := se_Direction e; se_Addr := se_Addr e; se_Port := se_Port e; se_Protocol := se_Protocol e; se_Bytes := se_Bytes e |}
  | EMmap e => EMmap {| ve_head := kept_head jobID (ve_head e); ve_Addr := ve_Addr e; ve_Length := ve_Length e; ve_Prot := ve_Prot e; ve_Flags := ve_Flags e; ve_Filename := ve_Filename e |}
  | EMprotect e => EMprotect {| pe_head := kept_head jobID (pe_head e); pe_Addr := pe_Addr e; pe_Length := pe_Length e; pe_Prot := pe_Prot e |}
  end.

Definition uint32 (z : Z) : Prop := 0 ≤ z < 2 ^ 32.
(** An address without a colon, as those of version 4 are. *)
Definition plain_addr (addr : string) (port : Z) : Prop := plain_text addr ∧ ":"%char ∉ bytes addr ∧ uint32 port.
Definition plain_arg (a : string) : Prop := word (bytes a) ∧ plain_text a.
(** An event whose texts need no escapes, whose addresses have no colon, and whose
    arguments are single words. *)
Definition plain_event (e : kernel_event) : Prop :=
  uint32 (h_Pid (head_of e)) ∧ plain_text (h_Comm (head_of e)) ∧
  match e with
  | EExec e => uint32 (xe_Ppid e) ∧ uint32 (xe_Uid e) ∧ uint32 (xe_Gid e) ∧ plain_text (xe_Filename e) ∧ Forall plain_arg (xe_Args e)
  | EConnect e => plain_addr (ce_SrcAddr e) (ce_SrcPort e) ∧ plain_addr (ce_DstAddr e) (ce_DstPort e) ∧ plain_text (ce_Protocol e)
  | EFile e => plain_text (fe_Path e) ∧ plain_text (fe_Operation e) ∧ in_int64 (fe_Bytes e)
  | EAccept e => plain_addr (ae_SrcAddr e) (ae_SrcPort e) ∧ plain_addr (ae_DstAddr e) (ae_DstPort e) ∧ plain_text (ae_Protocol e)
  | ESocketData e => plain_text (se_Direction e) ∧ plain_addr (se_Addr e) (se_Port e) ∧ plain_text (se_Protocol e) ∧ in_int64 (se_Bytes e)
  | EMmap e => in_uint64 (ve_Addr e) ∧ in_uint64 (ve_Length e) ∧ uint32 (ve_Prot e) ∧ uint32 (ve_Flags e) ∧ plain_text (ve_Filename e)
  | EMprotect e => in_uint64 (pe_Addr e) ∧ in_uint64 (pe_Length e) ∧ uint32 (pe_Prot e)
  end.

Section texts.
Context {FJ : FlatJSON} {LF : LawfulFlatJSON} (quote_high : list ascii → list ascii).

Lemma plain_char_range c : plain_char c = true → 32 ≤ byte_val c ≤ 126 ∧ byte_val c ≠ 34 ∧ byte_val c ≠ 92.
Proof. unfold plain_char. intros [[[H1 H2]%andb_prop H3]%andb_prop H4]%andb_prop. to_prop. lia. Qed.

Lemma quoted_plain s : plain_text s → quoted quote_high s = in_quotes s.
Proof.
  intros Hs. unfold quoted, in_quotes. do 2 f_equal. f_equal. unfold plain_text in Hs. generalize (bytes s), Hs. clear. intros l.
  induction l as [|c l IH]; [done|]. cbn [forallb quote_bytes flush_high app]. intros [Hc Hl]%andb_prop. apply plain_char_range in Hc as (H1 & H2 & H3).
  rewrite (proj2 (Z.leb_gt _ _)) by lia. rewrite IH by done. unfold quote_ascii.
  repeat rewrite (proj2 (Z.eqb_neq _ _)) by lia. rewrite (proj2 (Z.ltb_ge _ _)) by lia. done.
Qed.

Lemma plain_join args : Forall plain_arg args → plain_text (Join args " ").
Proof.
  intros Ha. unfold plain_text, Join. rewrite bytes_of_bytes. induction Ha as [|a args [_ Ha] _ IH]; [done|]. cbn [fmap list_fmap join_bytes]. destruct args as [|b args]; [exact Ha|].
  cbn [fmap list_fmap] in *. rewrite forallb_app. cbn [forallb]. rewrite IH, andb_true_r. rewrite Ha. done.
Qed.

Lemma Fields_join args : Forall plain_arg args → Fields (Join args " ") = args.
Proof.
  intros Ha. unfold Join. rewrite Fields_words.
  - rewrite <- list_fmap_compose. rewrite <- (list_fmap_id args) at 2. apply list_fmap_ext. intros i a _. apply of_bytes_bytes.
  - apply Forall_fmap. eapply Forall_impl; [exact Ha|]. by intros a [? _].
Qed.

Lemma plain_addr_port a p : plain_addr a p → plain_text (addr_port a p).
Proof.
  intros (H1 & _ & H2). unfold plain_text, addr_port in *. rewrite !bytes_app, !forallb_app, H1. cbn [forallb bytes String.list_ascii_of_string andb].
  rewrite Itoa_nonneg, bytes_of_bytes by apply H2. destruct H2 as [H2 _]. pose proof (digits_of_digits p H2) as Hd. revert Hd. generalize (digits_of p). intros l.
  induction l as [|c l IH]; [done|]. cbn [forallb]. intros [Hc Hl]%andb_prop. specialize (IH Hl). apply andb_prop in IH as [Hcol IH]. rewrite IH, andb_true_r.
  apply is_digit_spec in Hc. apply andb_true_intro. split; [done|]. unfold plain_char. repeat (apply andb_true_intro; split); try apply Z.leb_le; try apply negb_true_iff, Z.eqb_neq; lia.
Qed.

Lemma parse_uint32_digits l n : forallb is_digit l = true → 0 ≤ n → foldl (λ a c, a * 10 + digit_val c) n l < 2 ^ 32 → parse_uint32 n l = foldl (λ a c, a * 10 + digit_val c) n l.
Proof.
  revert n. induction l as [|c l IH]; intros n; [done|]. cbn [forallb foldl parse_uint32]. intros [Hc Hl]%andb_prop Hn Hlt. rewrite Hc.
  pose proof (digit_val_range c Hc). pose proof (foldl_digits_ge l (n * 10 + digit_val c) Hl ltac:(lia)). rewrite (proj2 (Z.leb_gt _ _)) by lia. apply IH; [done|lia|done].
Qed.

Lemma parseAddrPort_back a p : plain_addr a p → parseAddrPort (addr_port a p) = (a, p).
Proof.
  intros (_ & Hc & Hp). unfold parseAddrPort, Split, addr_port. rewrite !bytes_app. cbn [bytes String.list_ascii_of_string app]. rewrite split_bytes_app by done.
  rewrite Itoa_nonneg, bytes_of_bytes by apply Hp. destruct Hp as [Hp1 Hp2].
  rewrite split_bytes_word by (apply not_digit_not_in; [by apply digits_of_digits|done]). cbn [fmap list_fmap]. rewrite of_bytes_bytes, bytes_of_bytes. f_equal.
  pose proof (parse_digits_of p Hp1) as Hd. unfold parse_digits in Hd. rewrite bool_decide_eq_false_2 in Hd by apply digits_of_nonempty. rewrite digits_of_digits in Hd by done.
  injection Hd as Hd. rewrite parse_uint32_digits; [done|by apply digits_of_digits|done|by rewrite Hd].
Qed.

(** The fields of a message. *)
Definition exec_fields (e : ExecEvent) : list (string * jval) := [
  ("type", JText "exec"); ("pid", JNum (h_Pid (xe_head e))); ("ppid", JNum (xe_Ppid e)); ("uid", JNum (xe_Uid e)); ("gid", JNum (xe_Gid e));
  ("comm", JText (h_Comm (xe_head e))); ("filename", JText (xe_Filename e)); ("args", JText (Join (xe_Args e) " "))]%string.
Definition peer_fields (type : string) (h : head) (src dst proto : string) : list (string * jval) := [
  ("type", JText type); ("pid", JNum (h_Pid h)); ("comm", JText (h_Comm h)); ("src", JText src); ("dst", JText dst); ("proto", JText proto)]%string.
Definition file_fields (e : FileEvent) : list (string * jval) := [
  ("type", JText "file"); ("pid", JNum (h_Pid (fe_head e))); ("comm", JText (h_Comm (fe_head e))); ("path", JText (fe_Path e)); ("op", JText (fe_Operation e));
  ("bytes", JNum (fe_Bytes e))]%string.
Definition socket_fields (e : SocketDataEvent) : list (string * jval) := [
  ("type", JText "socket_data"); ("pid", JNum (h_Pid (se_head e))); ("comm", JText (h_Comm (se_head e))); ("dir", JText (se_Direction e));
  ("addr", JText (addr_port (se_Addr e) (se_Port e))); ("proto", JText (se_Protocol e)); ("bytes", JNum (se_Bytes e))]%string.
Definition mmap_fields (e : MmapEvent) : list (string * jval) := [
  ("type", JText "mmap"); ("pid", JNum (h_Pid (ve_head e))); ("comm", JText (h_Comm (ve_head e))); ("addr", JNum (ve_Addr e)); ("len", JNum (ve_Length e));
  ("prot", JNum (ve_Prot e)); ("flags", JNum (ve_Flags e)); ("file", JText (ve_Filename e))]%string.
Definition mprotect_fields (e : MprotectEvent) : list (string * jval) := [
  ("type", JText "mprotect"); ("pid", JNum (h_Pid (pe_head e))); ("comm", JText (h_Comm (pe_head e))); ("addr", JNum (pe_Addr e)); ("len", JNum (pe_Length e));
  ("prot", JNum (pe_Prot e))]%string.
Definition event_fields (e : kernel_event) : list (string * jval) :=
  match e with
  | EExec e => exec_fields e
  | EConnect e => peer_fields "connect" (ce_head e) (addr_port (ce_SrcAddr e) (ce_SrcPort e)) (addr_port (ce_DstAddr e) (ce_DstPort e)) (ce_Protocol e)
  | EFile e => file_fields e
  | EAccept e => peer_fields "accept" (ae_head e) (addr_port (ae_SrcAddr e) (ae_SrcPort e)) (addr_port (ae_DstAddr e) (ae_DstPort e)) (ae_Protocol e)
  | ESocketData e => socket_fields e
  | EMmap e => mmap_fields e
  | EMprotect e => mprotect_fields e
  end.

Lemma unsigned_num w z : 0 ≤ z < 2 ^ w → unsigned w (JNum z) = Some z.
Proof. intros H. unfold unsigned. by rewrite bool_decide_eq_true_2. Qed.
Lemma signed_num z : in_int64 z → signed (JNum z) = Some z.
Proof. intros H. unfold signed. by rewrite bool_decide_eq_true_2. Qed.

Lemma message_fields e : plain_event e → message quote_high e = object (prod_map id render <$> event_fields e) ∧ Forall (λ kv, plain_text kv.1 ∧ plain_value kv.2) (event_fields e).
Proof.
  intros (Hp & Hc & He).
  assert (Hk : ∀ kv : string * jval, bool_decide (forallb plain_char (bytes kv.1) = true) = true → plain_value kv.2 → plain_text kv.1 ∧ plain_value kv.2).
  { intros kv Hb Hv. split; [by apply bool_decide_eq_true in Hb|done]. }
  destruct e as [e|e|e|e|e|e|e]; cbn [head_of message event_fields] in *; cbn [plain_addr] in *; destruct_and?; (split;
    [unfold exec_message, connect_message, file_message, accept_message, socket_message, mmap_message, mprotect_message;
     rewrite ?quoted_plain by (done || by apply plain_join); reflexivity|]);
    repeat (apply Forall_cons; split; [apply Hk; [reflexivity|cbn [snd plain_value]; first [exact I|done|by apply plain_join|by apply plain_addr_port]]|]); by constructor.
Qed.

Lemma parse_message jobID e : plain_event e → parse (kind_of e) jobID (kept_time (h_Timestamp (head_of e))) (message quote_high e) = Some (kept jobID e).
Proof.
  intros Hp. destruct (message_fields e Hp) as [Em Hf]. rewrite Em. destruct Hp as (Hp & Hc & He).
  destruct e as [e|e|e|e|e|e|e]; cbn [kind_of parse head_of] in *;
    unfold parseExecEventFromJSON, parseConnectEventFromJSON, parseFileEventFromJSON, parseAcceptEventFromJSON, parseSocketDataEventFromJSON, parseMmapEventFromJSON, parseMprotectEventFromJSON;
    rewrite Unmarshal_object by done; cbn [mbind option_bind event_fields];
    unfold exec_fields, peer_fields, file_fields, socket_fields, mmap_fields, mprotect_fields, field; cbn [find fst snd String.eqb Ascii.eqb Bool.eqb fmap option_fmap option_map default from_option id text_of mbind option_bind];
    destruct_and?; rewrite ?unsigned_num by done; cbn [mbind option_bind]; rewrite ?unsigned_num by done; cbn [mbind option_bind]; rewrite ?unsigned_num by done; cbn [mbind option_bind];
    rewrite ?unsigned_num by done; cbn [mbind option_bind]; rewrite ?signed_num by done; cbn [mbind option_bind]; rewrite ?parseAddrPort_back by done; rewrite ?Fields_join by done; reflexivity.
Qed.
End texts.

(** ** What the services document *)

(** Times of a query: from the first on, before the second. *)
Definition within (q : get_input) (x : Z * string) : Prop :=
  match g_start q with Some t => t ≤ x.1 | None => True end ∧ match g_end q with Some t => x.1 < t | None => True end.
#[export] Instance within_dec q x : Decision (within q x).
Proof. unfold within. destruct (g_start q), (g_end q); apply _. Defined.

(** [held]: what a stream holds.  [rest]: what the pages of a query still have to give
    after a token, and [left]: a bound on how many there are. *)
Class CloudWatchLaws (St : Type) `{CloudWatch St} := {
  held : St → string → string → list (Z * string);
  rest : St → get_input → option string → list (Z * string);
  left : St → get_input → option string → nat;
  (* Times outside this range are dropped, and the answer is a success. *)
  acceptable : Z → Prop;
  CreateLogGroup_held : ∀ g st g' n', held (CreateLogGroup g st).2 g' n' = held st g' n';
  PutRetentionPolicy_held : ∀ g d st g' n', held (PutRetentionPolicy g d st).2 g' n' = held st g' n';
  CreateLogStream_held : ∀ g n st g' n', held (CreateLogStream g n st).2 g' n' = held st g' n';
  DescribeLogStreams_held : ∀ g p st g' n', held (DescribeLogStreams g p st).2 g' n' = held st g' n';
  PutLogEvents_other : ∀ g n t evs st g' n', (g', n') ≠ (g, n) → held (PutLogEvents g n t evs st).2 g' n' = held st g' n';
  (* Without an answer, what was put may be kept all the same. *)
  PutLogEvents_held : ∀ g n t evs st, ∃ sub, sub ⊆+ evs ∧ held (PutLogEvents g n t evs st).2 g n ≡ₚ held st g n ++ sub ∧
    ((∃ next, (PutLogEvents g n t evs st).1 = Ok next) → Forall (λ x, acceptable x.1) evs → evs ⊆+ sub);
  DeleteLogStream_other : ∀ g n st g' n', (g', n') ≠ (g, n) → held (DeleteLogStream g n st).2 g' n' = held st g' n';
  DeleteLogStream_held : ∀ g n st, held (DeleteLogStream g n st).2 g n = [] ∨
    held (DeleteLogStream g n st).2 g n = held st g n ∧ ∃ e, (DeleteLogStream g n st).1 = Some e ∧ GoStrings.Contains e "ResourceNotFoundException" = false;
  PutMetricData_held : ∀ ns l st g' n', held (PutMetricData ns l st).2 g' n' = held st g' n';
  GetLogEvents_held : ∀ q st g' n', held (GetLogEvents q st).2 g' n' = held st g' n';
  GetLogEvents_rest : ∀ q st q' t, rest (GetLogEvents q st).2 q' t = rest st q' t;
  GetLogEvents_left : ∀ q st q' t, left (GetLogEvents q st).2 q' t = left st q' t;
  GetLogEvents_first : ∀ q st, g_token q = None → rest st q None ≡ₚ filter (within q) (held st (g_group q) (g_stream q));
  (* A token does not depend on the one it follows. *)
  GetLogEvents_page : ∀ q st events next st', GetLogEvents q st = (Ok (events, next), st') →
    match next with
    | None => rest st q (g_token q) = events
    | Some t => rest st q (g_token q) = events ++ rest st q (Some t) ∧
        (if bool_decide (g_token q = Some t) then rest st q (Some t) = [] else (left st q (Some t) < left st q (g_token q))%nat)
    end;
  token_irrelevant : ∀ q q' st t, g_group q = g_group q' → g_stream q = g_stream q' → g_start q = g_start q' → g_end q = g_end q' → g_limit q = g_limit q' →
    rest st q t = rest st q' t ∧ left st q t = left st q' t;
  GetLogEvents_missing : ∀ q st e st', GetLogEvents q st = (Err e, st') → GoStrings.Contains e "ResourceNotFoundException" = true → rest st q (g_token q) = [];
}.

(** ** What a history leaves in the streams *)

Section streams.
Context {St : Type} {CW : CloudWatch St} {CL : CloudWatchLaws St} {SS : SortSlice} {FJ : FlatJSON} {LF : LawfulFlatJSON} (quote_high : list ascii → list ascii) (config : CloudWatchConfig).
Notation state := (cloudwatch * St)%type.
Notation G := (log_group config).

(** The names of the streams of different jobs and kinds differ. *)
Lemma suffixes_apart : Forall (λ s, Forall (λ s', bytes ("-" +:+ s) `suffix_of` bytes ("-" +:+ s') → s = s') suffixes) suffixes.
Proof. refine (bool_decide_unpack _ _). vm_compute. exact I. Qed.
Lemma stream_name_inj j s j' s' : s ∈ suffixes → s' ∈ suffixes → stream_name j s = stream_name j' s' → j = j' ∧ s = s'.
Proof.
  intros Hs Hs' E. unfold stream_name in E. apply (f_equal bytes) in E. rewrite (bytes_app j), (bytes_app j') in E. pose proof suffixes_apart as Ha. rewrite Forall_forall in Ha.
  assert (s = s') as <-.
  { pose proof E as E'. apply app_eq_inv in E' as [(k & _ & Ek)|(k & _ & Ek)].
    - symmetry. specialize (Ha s Hs). rewrite Forall_forall in Ha. symmetry. apply Ha; [done|]. rewrite Ek. by exists k.
    - pose proof (Ha s' Hs') as Hb. rewrite Forall_forall in Hb. symmetry. apply Hb; [done|]. rewrite Ek. by exists k. }
  split; [|done]. apply app_inv_tail in E. by apply bytes_inj.
Qed.

(** *** One batch *)

Lemma ensureLogGroup_held s n : held (ensureLogGroup config G s).2.2 G n = held s.2 G n.
Proof.
  destruct s as [b st]. unfold ensureLogGroup. case_bool_decide; [done|]. pose proof (CreateLogGroup_held G st G n) as H1. destruct (CreateLogGroup G st) as [err st1]. cbn [snd] in H1.
  destruct err as [e|]; [destruct (GoStrings.Contains _ _); [|done]|]; cbn [snd]; (case_match; [by rewrite PutRetentionPolicy_held|done]).
Qed.
Lemma ensureLogStream_held stream s n : held (ensureLogStream G stream s).2.2 G n = held s.2 G n.
Proof.
  destruct s as [b st]. unfold ensureLogStream. case_bool_decide; [done|]. pose proof (CreateLogStream_held G stream st G n) as H1. destruct (CreateLogStream G stream st) as [err st1]. cbn [snd] in H1.
  destruct err as [e|]; [destruct (GoStrings.Contains _ _)|]; done.
Qed.

(** What was put: part of the events, all of them when that was answered. *)
Definition put_some (n : string) (evs : list (Z * string)) (all : Prop) (st st' : St) : Prop :=
  (∀ n', n' ≠ n → held st' G n' = held st G n') ∧
  ∃ sub, (∀ x, x ∈ sub → x ∈ evs) ∧ held st' G n ≡ₚ held st G n ++ sub ∧ (all → Forall (λ x, acceptable x.1) evs → evs ⊆+ sub).
Lemma put_none n evs (all : Prop) st st' : (∀ n', held st' G n' = held st G n') → (all → evs = []) → put_some n evs all st st'.
Proof.
  intros Hs Ha. split; [by intros|]. exists []. split; [by intros x ?%elem_of_nil|]. split; [by rewrite Hs, app_nil_r|]. intros H _. by rewrite Ha.
Qed.
Lemma put_app n evs1 evs2 all1 all2 (all : Prop) evs st1 st2 st3 :
  put_some n evs1 all1 st1 st2 → put_some n evs2 all2 st2 st3 → (∀ x, x ∈ evs1 ++ evs2 → x ∈ evs) →
  (all → (all1 ∧ all2 ∧ evs = evs1 ++ evs2) ∨ (all2 ∧ evs = evs2)) → put_some n evs all st1 st3.
Proof.
  intros [Ho1 (sub1 & Hs1 & Hp1 & Ha1)] [Ho2 (sub2 & Hs2 & Hp2 & Ha2)] Hin Hall. split; [intros n' Hn; by rewrite Ho2, Ho1|].
  exists (sub1 ++ sub2). split; [|split].
  - intros x [?%Hs1|?%Hs2]%elem_of_app; apply Hin, elem_of_app; auto.
  - by rewrite Hp2, Hp1, app_assoc.
  - intros [(H1 & H2 & ->)|[H2 ->]]%Hall Hf.
    + apply Forall_app in Hf as [??]. apply submseteq_app; auto.
    + etrans; [by apply Ha2|]. by apply submseteq_inserts_l.
Qed.

Lemma PutLogEvents_put n t evs st : put_some n evs (∃ next, (PutLogEvents G n t evs st).1 = Ok next) st (PutLogEvents G n t evs st).2.
Proof.
  split; [intros n' Hn; apply PutLogEvents_other; congruence|]. destruct (PutLogEvents_held G n t evs st) as (sub & Hsub & Hh & Ha).
  exists sub. split; [intros x Hx; by eapply elem_of_submseteq|done].
Qed.
Lemma putLogEvents_put n evs s : put_some n evs ((putLogEvents G n evs s).1 = None) s.2 (putLogEvents G n evs s).2.2.
Proof.
  destruct s as [b st]. unfold putLogEvents. pose proof (PutLogEvents_put n (sequenceTokens b !! stream_key G n) evs st) as H1.
  destruct (PutLogEvents G n (sequenceTokens b !! stream_key G n) evs st) as [[next|e] st1]; cbn [fst snd] in H1.
  - cbn [fst snd]. destruct H1 as [Ho (sub & Hs & Hh & Ha)]. split; [done|]. exists sub. split_and!; try done. intros _. apply Ha. by exists next.
  - pose proof (DescribeLogStreams_held G n st1 G) as Hd. destruct (DescribeLogStreams G n st1) as [[[|t ts]|e'] st2]; cbn [snd fst] in *.
    1,3: eapply put_app; [exact H1|by apply (put_none n [] False); [exact Hd|]|intros x; rewrite app_nil_r; done|done].
    pose proof (PutLogEvents_put n t evs st2) as H2. destruct (PutLogEvents G n t evs st2) as [[next|e2] st3]; cbn [fst snd] in *.
    all: eapply put_app; [exact H1|eapply (put_app n [] evs True); [by apply put_none; [exact Hd|]|exact H2|by intros x|by intros H; right; split; [exact H|]]| |].
    all: try (intros x [?|?]%elem_of_app; done).
    + intros _. right. split; [by exists next|done].
    + done.
Qed.
Lemma put_batches_put fuel n evs s : (length evs ≤ fuel)%nat → 0 < LogBatchSize config →
  ∃ r, (put_batches config fuel G n evs s).1 = Some r ∧ put_some n evs (r = None) s.2 (put_batches config fuel G n evs s).2.2.
Proof.
  intros Hf Hb. revert evs s Hf. induction fuel as [|fuel IH]; intros [|x evs] s Hf; cbn [length] in Hf; try lia; cbn [put_batches].
  1,2: exists None; split; [done|by apply put_none].
  rewrite (proj2 (Z.ltb_ge _ _)) by lia. set (k := Z.to_nat (LogBatchSize config)).
  pose proof (putLogEvents_put n (take k (x :: evs)) s) as H1. destruct (putLogEvents G n (take k (x :: evs)) s) as [[e|] s1]; cbn [fst snd] in *.
  - exists (Some e). split; [done|]. eapply put_app; [exact H1|by apply (put_none n [] False)| |done].
    intros y. rewrite app_nil_r. intros Hy. rewrite <- (take_drop k (x :: evs)). apply elem_of_app. by left.
  - destruct (IH (drop k (x :: evs)) s1) as (r & Hr & H2); [rewrite length_drop; cbn [length]; lia|].
    exists r. split; [done|]. eapply put_app; [exact H1|exact H2| |].
    + intros y. by rewrite take_drop.
    + intros ->. left. split_and!; [done|done|by rewrite take_drop].
Qed.

Lemma put_perm n evs evs' (all : Prop) st st' : evs ≡ₚ evs' → put_some n evs all st st' → put_some n evs' all st st'.
Proof.
  intros Hp [Ho (sub & Hs & Hh & Ha)]. split; [done|]. exists sub. split_and!; [intros x Hx; rewrite <- Hp; auto|done|intros H; rewrite <- Hp; auto].
Qed.
Lemma put_weaken n evs (all all' : Prop) st st' : (all' → all) → put_some n evs all st st' → put_some n evs all' st st'.
Proof. intros Hp [Ho (sub & Hs & Hh & Ha)]. split; [done|]. exists sub. split_and!; auto. Qed.

Definition events_of {E} (time : E → Z) (text : E → option string) (l : list E) : list (Z * string) :=
  omap (λ x, (λ m, (Z.quot (time x) 1000000, m)) <$> text x) l.
Lemma write_stream_put {E} suffix (time : E → Z) text jobID l s : 0 < LogBatchSize config →
  ∃ r, (write_stream config suffix time text jobID l s).1 = Some r ∧
    put_some (stream_name jobID suffix) (events_of time text l) (r = None) s.2 (write_stream config suffix time text jobID l s).2.2.
Proof.
  intros Hb. unfold write_stream. pose proof (ensureLogGroup_held s) as H1. destruct (ensureLogGroup config G s) as [[e|] s1]; cbn [snd] in H1.
  { eexists. split; [done|]. by apply put_weaken with False, put_none. }
  pose proof (ensureLogStream_held (stream_name jobID suffix) s1) as H2. destruct (ensureLogStream G (stream_name jobID suffix) s1) as [[e|] s2]; cbn [snd] in H2.
  { eexists. split; [done|]. apply put_weaken with False, put_none; [done|intros n; by rewrite H2|done]. }
  pose proof (sort_slice_perm (λ x y, time x <? time y) l) as Hp. fold (events_of time text (sort_slice (λ x y, time x <? time y) l)).
  set (sorted := sort_slice _ l) in *. destruct (put_batches_put (length (events_of time text sorted)) (stream_name jobID suffix) (events_of time text sorted) s2) as (r & Hr & H3); [done|done|].
  exists r. split; [exact Hr|]. apply put_perm with (events_of time text sorted); [by apply omap_Permutation|].
  destruct H3 as [Ho (sub & Hs & Hh & Ha)]. split; [intros n' Hn; by rewrite Ho, H2, H1|]. exists sub. split_and!; [done|by rewrite Hh, H2, H1|done].
Qed.
End streams.

(** ** Histories *)

Section histories.
Context {St : Type} {CW : CloudWatch St} {CL : CloudWatchLaws St} {SS : SortSlice} {FJ : FlatJSON} {LF : LawfulFlatJSON} (quote_high : list ascii → list ascii) (config : CloudWatchConfig).
Notation state := (cloudwatch * St)%type.
Notation G := (log_group config).

(** The calls of the backend, and the goroutines [writeMetricsToMetricsAPI]. *)
Inductive cop :=
| CLogs (jobID : string) (logs : list LogLine) | CMetrics (jobID : string) (metrics : list Metric) | CMetricData (jobID : string) (metrics : list Metric)
| CEvents (jobID : string) (k : tkind) (l : list kernel_event) | CDelete (jobID : string)
| CReadLogs (nodeID : string) (q : LogQuery) | CReadMetrics (fuel : nat) (nodeID : string) (q : TelemetryQuery) | CReadEvents (fuel : nat) (k : tkind) (nodeID : string) (q : TelemetryQuery).
(** The state after a call, and whether it was answered without an error. *)
Definition cstep (op : cop) (s : state) : bool * state :=
  let ok (r : option (option string)) := bool_decide (r = Some None) in
  match op with
  | CLogs j l => let '(r, s) := WriteLogs config j l s in (ok r, s)
  | CMetrics j l => let '(r, _, s) := WriteMetrics config j l s in (ok r, s)
  | CMetricData j l => let '(r, st) := writeMetricsToMetricsAPI config j l s.2 in (bool_decide (r = Some tt), (s.1, st))
  | CEvents j k l => let '(r, s) := write_events quote_high config j k l s in (ok r, s)
  | CDelete j => let '(r, s) := DeleteJob config j s in (bool_decide (r = None), s)
  | CReadLogs n q => let '(_, e, st) := readLogsFromStream config n q s.2 in (bool_decide (e = None), (s.1, st))
  | CReadMetrics f n q => let '(r, st) := readMetricsFromStream config f n q s.2 in (bool_decide (snd <$> r = Some None), (s.1, st))
  | CReadEvents f k n q => let '(r, st) := read_events config f k n q s.2 in (bool_decide (snd <$> r = Some None), (s.1, st))
  end.
Fixpoint crun (ops : list cop) (s : state) : list bool * state :=
  match ops with
  | [] => ([], s)
  | op :: ops => let '(r, s) := cstep op s in let '(rs, s) := crun ops s in (r :: rs, s)
  end.

(** The events of a kind whose writing was acknowledged, since the job was last deleted. *)
Definition acknowledged_step (j : string) (k : tkind) (acc : list kernel_event) (x : cop * bool) : list kernel_event :=
  match x with
  | (CEvents j' k' l, true) => if bool_decide (j' = j ∧ k' = k) then acc ++ l else acc
  | (CDelete j', _) => if bool_decide (j' = j) then [] else acc
  | _ => acc
  end.
Definition acknowledged (j : string) (k : tkind) : list (cop * bool) → list kernel_event := foldl (acknowledged_step j k) [].
(** Those that were handed in, since a deletion of the job was acknowledged. *)
Definition handed_in_step (j : string) (k : tkind) (acc : list kernel_event) (x : cop * bool) : list kernel_event :=
  match x with
  | (CEvents j' k' l, _) => if bool_decide (j' = j ∧ k' = k) then acc ++ l else acc
  | (CDelete j', true) => if bool_decide (j' = j) then [] else acc
  | _ => acc
  end.
Definition handed_in (j : string) (k : tkind) : list (cop * bool) → list kernel_event := foldl (handed_in_step j k) [].

Definition stored_as (e : kernel_event) : Z * string := (Z.quot (h_Timestamp (head_of e)) 1000000, message quote_high e).
(** What a call is given: events of the kind, with plain texts and recent times. *)
Definition proper_op (op : cop) : Prop :=
  match op with CEvents _ k l => Forall (λ e, kind_of e = k ∧ plain_event e ∧ acceptable (Z.quot (h_Timestamp (head_of e)) 1000000)) l | _ => True end.

(** The stream of a kind: between what was acknowledged and what was handed in. *)
Record kept_in (j : string) (k : tkind) (acc live : list kernel_event) (st : St) : Prop := {
  ki_acc : (stored_as <$> acc) ⊆+ held st G (stream_name j (kind_stream k));
  ki_live : ∀ x, x ∈ held st G (stream_name j (kind_stream k)) → x ∈ stored_as <$> live;
  ki_proper : Forall (λ e, kind_of e = k ∧ plain_event e) live;
}.
Lemma kept_same j k acc live st st' : held st' G (stream_name j (kind_stream k)) = held st G (stream_name j (kind_stream k)) → kept_in j k acc live st → kept_in j k acc live st'.
Proof. intros E [H1 H2 H3]. split; rewrite ?E; done. Qed.

Lemma kind_suffix k : kind_stream k ∈ suffixes.
Proof. destruct k; refine (bool_decide_unpack _ _); vm_compute; exact I. Qed.
Lemma kind_stream_inj k k' : kind_stream k = kind_stream k' → k = k'.
Proof. by destruct k, k'. Qed.

(** *** Calls that leave the events alone *)

Lemma put_other j k suffix j' evs all st st' : suffix ∈ suffixes → (j', suffix) ≠ (j, kind_stream k) → put_some config (stream_name j' suffix) evs all st st' →
  held st' G (stream_name j (kind_stream k)) = held st G (stream_name j (kind_stream k)).
Proof. intros Hs Hn [Ho _]. apply Ho. intros E. apply stream_name_inj in E as [E1 E2]; [congruence|apply kind_suffix|done]. Qed.

Lemma put_metrics_held fuel data st n : held (put_metrics config fuel data st).2 G n = held st G n.
Proof.
  revert data st. induction fuel as [|fuel IH]; intros [|d data] st; cbn [put_metrics]; try done. case_match; [done|]. by rewrite IH, PutMetricData_held.
Qed.
Lemma read_pages_held fuel nodeID suffix q token st n : held (read_pages config fuel nodeID suffix q token st).2 G n = held st G n.
Proof.
  revert token st. induction fuel as [|fuel IH]; intros token st; cbn [read_pages]; [done|]. pose proof (GetLogEvents_held (get_of config nodeID suffix q token) st G n) as H1.
  destruct (GetLogEvents (get_of config nodeID suffix q token) st) as [[[events next]|e] st1]; cbn [snd] in H1; [|done]. case_match; [done|].
  specialize (IH next st1). destruct (read_pages config fuel nodeID suffix q next st1) as [r st2]. cbn [snd] in *. congruence.
Qed.
Lemma metric_pages_held fuel nodeID q token all st n : held (metric_pages config fuel nodeID q token all st).2 G n = held st G n.
Proof.
  revert token all st. induction fuel as [|fuel IH]; intros token all st; cbn [metric_pages]; [done|]. pose proof (GetLogEvents_held (get_of config nodeID "metrics" q token) st G n) as H1.
  destruct (GetLogEvents (get_of config nodeID "metrics" q token) st) as [[[events next]|e] st1]; cbn [snd] in H1; [|done]. do 2 (case_match; [done|]). by rewrite IH.
Qed.

Lemma write_logs_held j' l s j k : 0 < LogBatchSize config → held (WriteLogs config j' l s).2.2 G (stream_name j (kind_stream k)) = held s.2 G (stream_name j (kind_stream k)).
Proof.
  intros Hb. assert (H : ∀ suffix l s, suffix = "stdout"%string ∨ suffix = "stderr"%string →
    (∃ r, (unless_none (writeLogsToStream config j' suffix) l s).1 = Some r) ∧
    held (unless_none (writeLogsToStream config j' suffix) l s).2.2 G (stream_name j (kind_stream k)) = held s.2 G (stream_name j (kind_stream k))).
  { intros suffix [|x l0] s0 Hs; [by eauto|]. cbn [unless_none]. unfold writeLogsToStream.
    edestruct (write_stream_put config suffix l_Timestamp (λ l, Some (of_bytes (l_Content l))) j' (x :: l0) s0 Hb) as (r & Hr & Hp).
    split; [by eauto|]. eapply (put_other j k suffix); [|intros E; apply (f_equal snd) in E; cbn [snd] in E; destruct Hs as [->| ->]; destruct k; discriminate E|exact Hp]. destruct Hs as [->| ->]; refine (bool_decide_unpack _ _); vm_compute; exact I. }
  unfold WriteLogs. pose proof (H "stdout"%string (List.filter (λ l, bool_decide (l_Stream l = SStdout)) l) s ltac:(by left)) as [[r1 Hr1] H1].
  destruct (unless_none _ _ s) as [r1' s1]. cbn [fst snd] in *. subst r1'.
  pose proof (H "stderr"%string (List.filter (λ l, bool_decide (l_Stream l = SStderr)) l) s1 ltac:(by right)) as [[r2 Hr2] H2].
  destruct (unless_none _ _ s1) as [r2' s2]. cbn [fst snd] in *. subst r2'. cbn [snd]. congruence.
Qed.
Lemma write_metrics_held j' l s j k : 0 < LogBatchSize config → held (WriteMetrics config j' l s).2.2 G (stream_name j (kind_stream k)) = held s.2 G (stream_name j (kind_stream k)).
Proof.
  intros Hb. unfold WriteMetrics. destruct l as [|x l]; [done|]. unfold writeMetricsToLogs.
  edestruct (write_stream_put config "metrics" me_Timestamp metric_message j' (x :: l) s Hb) as (r & Hr & Hp).
  eapply (put_other j k) in Hp; [|refine (bool_decide_unpack _ _); vm_compute; exact I|intros E; apply (f_equal snd) in E; destruct k; discriminate E].
  destruct (write_stream config "metrics" me_Timestamp metric_message j' (x :: l) s) as [r' s1]. cbn [fst snd] in *. subst r'. by destruct r.
Qed.

Lemma other_calls_held op s j k : 0 < LogBatchSize config → match op with CEvents _ _ _ | CDelete _ => False | _ => True end →
  held (cstep op s).2.2 G (stream_name j (kind_stream k)) = held s.2 G (stream_name j (kind_stream k)).
Proof.
  intros Hb Hop. destruct op as [j' l|j' l|j' l|j' k' l|j'|n q|f n q|f k' n q]; try done; cbn [cstep].
  - pose proof (write_logs_held j' l s j k Hb) as H. by destruct (WriteLogs config j' l s) as [r s'].
  - pose proof (write_metrics_held j' l s j k Hb) as H. by destruct (WriteMetrics config j' l s) as [[r b] s'].
  - pose proof (put_metrics_held (length (flat_map (metric_data config j') l)) (flat_map (metric_data config j') l) s.2 (stream_name j (kind_stream k))) as H.
    unfold writeMetricsToMetricsAPI. by destruct (put_metrics config _ _ s.2) as [r st'].
  - unfold readLogsFromStream. match goal with |- context [GetLogEvents ?i s.2] => pose proof (GetLogEvents_held i s.2 G (stream_name j (kind_stream k))) as H; destruct (GetLogEvents i s.2) as [[[events next]|e] st1] end; exact H.
  - unfold readMetricsFromStream. pose proof (metric_pages_held f n q None [] s.2 (stream_name j (kind_stream k))) as H. by destruct (metric_pages config f n q None [] s.2) as [r st'].
  - unfold read_events. pose proof (read_pages_held f n (kind_stream k') q None s.2 (stream_name j (kind_stream k))) as H. by destruct (read_pages config f n (kind_stream k') q None s.2) as [r st'].
Qed.

(** *** Deletion *)

Definition delete_all (j : string) (l : list string) (acc : bool * state) : bool * state := foldl (λ acc x, delete_stream config (stream_name j x) acc) acc l.
Lemma delete_all_held j l acc n :
  let acc' := delete_all j l acc in
  (held acc'.2.2 G n = [] ∨ held acc'.2.2 G n = held acc.2.2 G n) ∧
  (n ∉ stream_name j <$> l → held acc'.2.2 G n = held acc.2.2 G n) ∧
  (n ∈ stream_name j <$> l → acc'.1 = false → held acc'.2.2 G n = []) ∧ (acc'.1 = false → acc.1 = false).
Proof.
  revert acc. induction l as [|x l IH]; intros acc; [split_and!; auto; by intros ?%elem_of_nil|]. cbn [delete_all foldl fmap list_fmap].
  specialize (IH (delete_stream config (stream_name j x) acc)). unfold delete_all in *. set (acc' := foldl _ _ l) in *. destruct IH as (I1 & I2 & I3 & I4).
  destruct acc as [failed [b st]]. unfold delete_stream in I1, I2, I4. cbn [snd fst] in *.
  pose proof (DeleteLogStream_held G (stream_name j x) st) as Hd. pose proof (λ n, DeleteLogStream_other G (stream_name j x) st G n) as Ho.
  destruct (DeleteLogStream G (stream_name j x) st) as [err st1]. cbn [snd fst] in *.
  destruct (decide (n = stream_name j x)) as [->|Hn].
  - destruct Hd as [Hd|(Hd & e & -> & He)].
    + rewrite Hd in I1, I2. split_and!; [left; by destruct I1|intros []%not_elem_of_cons; done|intros _ _; by destruct I1|intros H%I4; by apply orb_false_elim in H as [? _]].
    + rewrite He in I4. cbn [negb] in I4. rewrite orb_true_r in I4. rewrite Hd in I1, I2.
      split_and!; [done|intros []%not_elem_of_cons; done|intros _ ?%I4; done|intros ?%I4; done].
  - rewrite Ho in I1, I2 by congruence. split_and!; [done|intros []%not_elem_of_cons; auto|intros [?|?]%elem_of_cons; [done|auto]|intros H%I4; by apply orb_false_elim in H as [? _]].
Qed.

(** *** The invariant *)

Lemma events_of_some {E} (time : E → Z) (text : E → string) l : events_of time (λ x, Some (text x)) l = (λ x, (Z.quot (time x) 1000000, text x)) <$> l.
Proof. unfold events_of. induction l as [|x l IH]; [done|]. cbn [omap list_omap fmap option_fmap option_map list_fmap] in *. by rewrite IH. Qed.

Lemma write_events_kept j k l s acc live : 0 < LogBatchSize config → proper_op (CEvents j k l) → kept_in j k acc live s.2 →
  let '(r, s') := write_events quote_high config j k l s in
  kept_in j k (if bool_decide (r = Some None) then acc ++ l else acc) (live ++ l) s'.2.
Proof.
  intros Hb Hop [H1 H2 H3]. destruct l as [|x l].
  { cbn. rewrite !app_nil_r. by split. }
  unfold write_events, unless_none. set (l' := x :: l) in *. cbn [proper_op] in Hop.
  destruct (write_stream_put config (kind_stream k) (λ e, h_Timestamp (head_of e)) (λ e, Some (message quote_high e)) j l' s Hb) as (r & Hr & [_ (sub & Hs & Hh & Ha)]).
  rewrite events_of_some in Hs, Ha. fold stored_as in Hs, Ha. set (evs := _ <$> l') in Hs, Ha. change evs with (stored_as <$> l') in Hs, Ha. clear evs.
  destruct (write_stream config _ _ _ j l' s) as [r' s1]. cbn [fst snd] in *. subst r'. split.
  - case_bool_decide as Er.
    + injection Er as ->. rewrite fmap_app, Hh. apply submseteq_app; [done|]. apply Ha; [done|]. apply Forall_fmap. eapply Forall_impl; [exact Hop|]. by intros e (_ & _ & ?).
    + rewrite Hh. by apply submseteq_inserts_r.
  - intros y. rewrite Hh, fmap_app, !elem_of_app. intros [?|?]; auto.
  - apply Forall_app. split; [done|]. eapply Forall_impl; [exact Hop|]. by intros e (? & ? & _).
Qed.
Lemma write_events_other j k j' k' l s acc live : 0 < LogBatchSize config → (j', k') ≠ (j, k) → kept_in j k acc live s.2 →
  kept_in j k acc live (write_events quote_high config j' k' l s).2.2.
Proof.
  intros Hb Hn Hk. unfold write_events, unless_none. destruct l as [|x l]; [done|].
  destruct (write_stream_put config (kind_stream k') (λ e, h_Timestamp (head_of e)) (λ e, Some (message quote_high e)) j' (x :: l) s Hb) as (r & Hr & Hp).
  eapply kept_same; [|exact Hk]. eapply (put_other j k (kind_stream k')); [apply kind_suffix| |exact Hp]. intros [= -> E%kind_stream_inj]. by subst.
Qed.

Lemma DeleteJob_kept j k j' s acc live : kept_in j k acc live s.2 →
  let '(r, s') := DeleteJob config j' s in
  kept_in j k (if bool_decide (j' = j) then [] else acc) (if bool_decide (r = None) && bool_decide (j' = j) then [] else live) s'.2.
Proof.
  intros Hk. unfold DeleteJob. change (foldl _ (false, s) suffixes) with (delete_all j' suffixes (false, s)).
  pose proof (delete_all_held j' suffixes (false, s) (stream_name j (kind_stream k))) as (I1 & I2 & I3 & _).
  destruct (delete_all j' suffixes (false, s)) as [failed s1]. cbn [fst snd] in *. cbv beta iota zeta. case_bool_decide as Ej; [subst j'|].
  - destruct Hk as [H1 H2 H3]. rewrite andb_true_r. destruct failed; cbn [bool_decide].
    + rewrite bool_decide_eq_false_2 by done. split; [apply submseteq_nil_l| |done]. intros x. destruct I1 as [-> | ->]; [by intros ?%elem_of_nil|auto].
    + rewrite bool_decide_eq_true_2 by done. assert (E : held s1.2 G (stream_name j (kind_stream k)) = []) by (apply I3; [apply list_elem_of_fmap_2, kind_suffix|done]).
      split; rewrite ?E; [done|by intros x ?%elem_of_nil|done].
  - rewrite andb_false_r. eapply kept_same; [|exact Hk]. apply I2. intros (x & E & Hx)%list_elem_of_fmap. apply stream_name_inj in E as [? _]; [congruence|apply kind_suffix|done].
Qed.

Lemma cstep_kept op s j k acc live : 0 < LogBatchSize config → proper_op op → kept_in j k acc live s.2 →
  let '(r, s') := cstep op s in kept_in j k (acknowledged_step j k acc (op, r)) (handed_in_step j k live (op, r)) s'.2.
Proof.
  intros Hb Hop Hk.
  assert (Ho : match op with CEvents _ _ _ | CDelete _ => False | _ => True end → kept_in j k acc live (cstep op s).2.2).
  { intros H. eapply kept_same; [by apply other_calls_held|done]. }
  destruct op as [j' l|j' l|j' l|j' k' l|j'|n q|f n q|f k' n q]; try (specialize (Ho I); destruct (cstep _ s) as [r s'] eqn:E; cbn [acknowledged_step handed_in_step snd] in *; by destruct r).
  - cbn [cstep]. destruct (decide (j' = j ∧ k' = k)) as [[-> ->]|Hn].
    + pose proof (write_events_kept j k l s acc live Hb Hop Hk) as H. destruct (write_events _ _ j k l s) as [r s']. cbn [acknowledged_step handed_in_step].
      rewrite (bool_decide_eq_true_2 (j = j ∧ k = k)) by done. by case_bool_decide.
    + pose proof (write_events_other j k j' k' l s acc live Hb ltac:(naive_solver) Hk) as H. destruct (write_events _ _ j' k' l s) as [r s']. cbn [acknowledged_step handed_in_step snd] in *.
      rewrite (bool_decide_eq_false_2 (j' = j ∧ k' = k)) by done. by case_bool_decide.
  - cbn [cstep]. pose proof (DeleteJob_kept j k j' s acc live Hk) as H. destruct (DeleteJob config j' s) as [r s']. cbn [acknowledged_step handed_in_step].
    by destruct (bool_decide (r = None)).
Qed.
Lemma crun_kept ops s j k acc live : 0 < LogBatchSize config → Forall proper_op ops → kept_in j k acc live s.2 →
  let '(rs, s') := crun ops s in kept_in j k (foldl (acknowledged_step j k) acc (zip ops rs)) (foldl (handed_in_step j k) live (zip ops rs)) s'.2.
Proof.
  intros Hb. revert s acc live. induction ops as [|op ops IH]; intros s acc live Hf Hk; [done|]. apply Forall_cons in Hf as [Hop Hf]. cbn [crun].
  pose proof (cstep_kept op s j k acc live Hb Hop Hk) as H1. destruct (cstep op s) as [r s1]. specialize (IH s1 _ _ Hf H1). by destruct (crun ops s1) as [rs s2].
Qed.

(** *** Reading *)

Lemma read_pages_rest fuel nodeID suffix q token st :
  let q0 := get_of config nodeID suffix q None in (left st q0 token < fuel)%nat →
  ∃ l e, (read_pages config fuel nodeID suffix q token st).1 = Some (l, e) ∧ l `prefix_of` rest st q0 token ∧ (e = None → l = rest st q0 token).
Proof.
  intros q0. revert token st. induction fuel as [|fuel IH]; intros token st Hf; [lia|]. cbn [read_pages].
  set (q1 := get_of config nodeID suffix q token). assert (Hq : ∀ st t, rest st q1 t = rest st q0 t ∧ left st q1 t = left st q0 t) by (intros; by apply token_irrelevant).
  pose proof (GetLogEvents_page q1 st) as Hp. pose proof (GetLogEvents_missing q1 st) as Hm.
  pose proof (GetLogEvents_rest q1 st q0) as Hr. pose proof (GetLogEvents_left q1 st q0) as Hl.
  change (g_token q1) with token in *. destruct (GetLogEvents q1 st) as [[[events next]|e] st1]; cbn [snd] in *.
  2: { do 2 eexists. split; [done|]. split; [apply prefix_nil|]. case_match; [|done]. intros _. specialize (Hm e st1 eq_refl ltac:(done)). destruct (Hq st token) as [E _]. congruence. }
  specialize (Hp events next st1 eq_refl). destruct next as [t|].
  - destruct Hp as [E Hp]. destruct (Hq st token) as [E0 El0], (Hq st (Some t)) as [E1 El1]. rewrite E0, E1 in E. rewrite El0, El1 in Hp. rewrite E1 in Hp.
    destruct (decide (token = Some t)) as [Et|Hn].
    + rewrite (bool_decide_eq_true_2 (token = Some t)) in Hp by done. rewrite (bool_decide_eq_true_2 (token ≠ None)), (bool_decide_eq_true_2 (Some t = token)) by (by subst).
      cbn [andb orb]. rewrite orb_true_r. do 2 eexists. split; [done|]. rewrite E, Hp, app_nil_r. done.
    + rewrite (bool_decide_eq_false_2 (token = Some t)) in Hp by done. rewrite (bool_decide_eq_false_2 (Some t = token)), (bool_decide_eq_false_2 (Some t = None)) by congruence.
      rewrite andb_false_r. cbn [orb]. destruct (IH (Some t) st1) as (l & e & Hl1 & Hpre & He); [rewrite Hl; lia|]. rewrite Hr in Hpre, He.
      destruct (read_pages config fuel nodeID suffix q (Some t) st1) as [r st2]. cbn [fst snd] in *. subst r. cbn [option_map]. do 2 eexists. split; [done|]. cbn [fst snd]. rewrite E.
      split; [by apply prefix_app|]. intros He'. by rewrite (He He').
  - rewrite (bool_decide_eq_true_2 (None = None)) by done. destruct (Hq st token) as [E0 _]. rewrite E0 in Hp. do 2 eexists. split; [done|]. by rewrite Hp.
Qed.
End histories.

(** ** What is acknowledged is read back *)

(** The events a query asks for: from the millisecond of its start on, before that of its
    end.  Its limit and offset do not take part. *)
Definition asked (q : TelemetryQuery) (e : kernel_event) : Prop :=
  let ms := Z.quot (h_Timestamp (head_of e)) 1000000 in
  match t_StartTime q with Some t => Z.quot t 1000000 ≤ ms | None => True end ∧ match t_EndTime q with Some t => ms < Z.quot t 1000000 | None => True end.
#[export] Instance asked_dec q e : Decision (asked q e).
Proof. unfold asked. destruct (t_StartTime q), (t_EndTime q); apply _. Defined.

Section reading.
Context {St : Type} {CW : CloudWatch St} {CL : CloudWatchLaws St} {SS : SortSlice} {FJ : FlatJSON} {LF : LawfulFlatJSON} (quote_high : list ascii → list ascii) (config : CloudWatchConfig).
Notation state := (cloudwatch * St)%type.
Notation G := (log_group config).

Lemma asked_within nodeID suffix q e : within (get_of config nodeID suffix q None) (stored_as quote_high e) ↔ asked q e.
Proof. unfold within, asked, get_of, millis. cbn [g_start g_end]. by destruct (t_StartTime q), (t_EndTime q). Qed.

Lemma parse_stored j k e : kind_of e = k ∧ plain_event e → parse k j (nanos_of (stored_as quote_high e).1) (stored_as quote_high e).2 = Some (kept j e).
Proof. intros [<- Hp]. by apply parse_message. Qed.
Lemma parse_all j k l : Forall (λ e, kind_of e = k ∧ plain_event e) l →
  omap (λ tm : Z * string, parse k j (nanos_of tm.1) tm.2) (stored_as quote_high <$> l) = kept j <$> l.
Proof.
  induction 1 as [|e l He _ IH]; [done|]. cbn [fmap list_fmap omap list_omap] in *. rewrite parse_stored by done. by rewrite IH.
Qed.
Lemma filter_stored nodeID suffix q (l : list kernel_event) :
  filter (within (get_of config nodeID suffix q None)) (stored_as quote_high <$> l) = stored_as quote_high <$> filter (asked q) l.
Proof.
  induction l as [|e l IH]; [done|]. rewrite fmap_cons, !filter_cons, IH. destruct (decide (asked q e)) as [Ha|Ha].
  - by rewrite decide_True by by apply asked_within.
  - rewrite decide_False; [done|]. by rewrite asked_within.
Qed.
Lemma omap_submseteq {A B} (f : A → option B) (l l' : list A) : l ⊆+ l' → omap f l ⊆+ omap f l'.
Proof. intros [k ->]%submseteq_Permutation. rewrite omap_app. by apply submseteq_inserts_r. Qed.
Lemma filter_submseteq' {A} (P : A → Prop) `{∀ x, Decision (P x)} (l l' : list A) : l ⊆+ l' → filter P l ⊆+ filter P l'.
Proof. intros [k ->]%submseteq_Permutation. rewrite filter_app. by apply submseteq_inserts_r. Qed.

Lemma acknowledged_handed_in j k l : ∀ acc live, (∀ e, e ∈ acc → e ∈ live) → ∀ e, e ∈ foldl (acknowledged_step j k) acc l → e ∈ foldl (handed_in_step j k) live l.
Proof.
  induction l as [|[op r] l IH]; intros acc live H; [done|]. cbn [foldl]. apply IH. intros e. destruct op; cbn [acknowledged_step handed_in_step]; destruct r; auto; case_bool_decide; auto;
    rewrite ?elem_of_app, ?elem_of_nil; naive_solver.
Qed.

(** What a query answers for a stream of a kind. *)
Lemma read_events_kept fuel nodeID q st k acc live :
  getLogGroupForRead config nodeID = G → kept_in quote_high config (t_JobUUID q) k acc live st → (∀ e, e ∈ acc → e ∈ live) →
  (left st (get_of config nodeID (kind_stream k) q None) None < fuel)%nat →
  ∃ l e, (read_events config fuel k nodeID q st).1 = Some (l, e) ∧
    (∀ x, x ∈ l → ∃ e0, e0 ∈ live ∧ asked q e0 ∧ x = kept (t_JobUUID q) e0) ∧
    (e = None → (kept (t_JobUUID q) <$> filter (asked q) acc) ⊆+ l).
Proof.
  intros Hg [Ha Hl Hp] Hsub Hf. unfold read_events.
  destruct (read_pages_rest config fuel nodeID (kind_stream k) q None st Hf) as (ms & e & Er & Hpre & He).
  destruct (read_pages config fuel nodeID (kind_stream k) q None st) as [r st1]. cbn [fst] in *. subst r. cbn [option_map fst snd].
  pose proof (GetLogEvents_first (get_of config nodeID (kind_stream k) q None) st eq_refl) as Hfirst.
  set (q0 := get_of config nodeID (kind_stream k) q None) in *. cbn [get_of g_group g_stream] in Hfirst.
  change (g_group q0) with (getLogGroupForRead config nodeID) in Hfirst. change (g_stream q0) with (stream_name (t_JobUUID q) (kind_stream k)) in Hfirst. rewrite Hg in Hfirst.
  do 2 eexists. split; [done|]. rewrite Forall_forall in Hp. split.
  - intros x (m & Hm & Ex)%list_elem_of_omap. assert (Hm' : m ∈ filter (within q0) (held st G (stream_name (t_JobUUID q) (kind_stream k)))).
    { rewrite <- Hfirst. destruct Hpre as [l' ->]. apply elem_of_app. by left. }
    apply list_elem_of_filter in Hm' as [Hw [e0 [-> He0]]%Hl%list_elem_of_fmap]. exists e0. split; [done|]. split; [by apply asked_within in Hw|].
    rewrite parse_stored in Ex by auto. by injection Ex.
  - intros He'. rewrite (He He'). rewrite <- (parse_all _ k).
    2: { apply Forall_forall. intros y [_ Hy]%list_elem_of_filter. auto. }
    apply omap_submseteq. rewrite Hfirst. etrans; [|apply filter_submseteq', Ha]. unfold q0. by rewrite filter_stored.
Qed.

(** C15 For events whose times the service accepts, whose texts need no escapes, whose
    addresses are not of version 6 and whose arguments are single words: after any sequence
    of writes, deletions and reads, a query for the events of a kind of a job ends, and when
    it reports no error it answers at least the events whose writing was acknowledged since
    the job was last deleted, as often as they were written, in the window the query asks
    for; in any case what it answers comes from events that were handed in since a deletion
    of the job was acknowledged. An event comes back with its fields, its time to the
    millisecond and without its sequence number. (Other events may be lost or changed:
    [spaced_arguments], [address_6].) *)
Theorem acknowledged_events_read_back c nodeID b ops st0 k q node :
  NewCloudWatchBackend c nodeID = Ok (config, b) → 0 ≤ LogBatchSize c → (∀ n, held st0 G n = []) → Forall (proper_op (St := St)) ops → node = ""%string ∨ node = nodeID →
  let '(rs, s) := crun quote_high config ops (b, st0) in
  ∃ fuel0, ∀ fuel, (fuel0 ≤ fuel)%nat → ∃ l e, (read_events config fuel k node q s.2).1 = Some (l, e) ∧
    (∀ x, x ∈ l → ∃ e0, e0 ∈ handed_in (t_JobUUID q) k (zip ops rs) ∧ asked q e0 ∧ x = kept (t_JobUUID q) e0) ∧
    (e = None → (kept (t_JobUUID q) <$> filter (asked q) (acknowledged (t_JobUUID q) k (zip ops rs))) ⊆+ l).
Proof.
  intros Hnew Hb0 Hempty Hops Hnode. unfold NewCloudWatchBackend in Hnew. case_match; [done|]. injection Hnew as Hc Hbk.
  assert (Hb : 0 < LogBatchSize config) by (rewrite <- Hc; cbn [LogBatchSize]; unfold or_else; case_match; to_prop; lia).
  assert (Hg : getLogGroupForRead config node = G).
  { unfold getLogGroupForRead, log_group, or_else. assert (NodeID config = nodeID) as -> by by rewrite <- Hc. destruct Hnode as [-> | ->]; [done|by case_match]. }
  assert (Hk : kept_in quote_high config (t_JobUUID q) k [] [] st0).
  { split; [apply submseteq_nil_l|intros x; rewrite Hempty; by intros ?%elem_of_nil|done]. }
  pose proof (crun_kept quote_high config ops (b, st0) (t_JobUUID q) k [] [] Hb Hops Hk) as Hr. destruct (crun quote_high config ops (b, st0)) as [rs s].
  exists (S (left s.2 (get_of config node (kind_stream k) q None) None)). intros fuel Hf.
  apply read_events_kept; [done|done| |lia]. by apply acknowledged_handed_in.
Qed.
End reading.

(** ** A decoder of flat objects *)

Fixpoint span_until (stop : ascii → bool) (l : list ascii) : list ascii * list ascii :=
  match l with
  | [] => ([], [])
  | c :: l' => if stop c then ([], l) else let '(a, r) := span_until stop l' in (c :: a, r)
  end.
Definition is_quote (c : ascii) : bool := byte_val c =? 34.
Definition ends_value (c : ascii) : bool := (byte_val c =? 44) || (byte_val c =? 125).
Definition read_number (l : list ascii) : option Z := match l with "-"%char :: l => Z.opp <$> parse_digits l | _ => parse_digits l end.
Definition read_value (l : list ascii) : option (jval * list ascii) :=
  match l with
  | [] => None
  | c :: l' =>
      if is_quote c then match span_until is_quote l' with (t, _ :: r) => Some (JText (of_bytes t), r) | _ => None end
      else let '(t, r) := span_until ends_value l in
           if bool_decide ("."%char ∈ t) then Some (JFrac (of_bytes t), r) else z ← read_number t; Some (JNum z, r)
  end.
Fixpoint read_fields (fuel : nat) (l : list ascii) : option (list (string * jval)) :=
  match fuel with
  | O => None
  | S fuel =>
      match l with
      | ["}"%char] => Some []
      | ","%char :: q :: l =>
          if is_quote q then
            match span_until is_quote l with
            | (k, _ :: ":"%char :: l) => '(v, l) ← read_value l; fs ← read_fields fuel l; Some ((of_bytes k, v) :: fs)
            | _ => None
            end
          else None
      | _ => None
      end
  end.
Definition read_object (s : string) : option (list (string * jval)) :=
  match bytes s with
  | ["{"%char; "}"%char] => Some []
  | "{"%char :: l => read_fields (S (length l)) (","%char :: l)
  | _ => None
  end.

Lemma span_until_app stop a c l : forallb (λ x, negb (stop x)) a = true → stop c = true → span_until stop (a ++ c :: l) = (a, c :: l).
Proof.
  intros Ha Hc. induction a as [|x a IH]; cbn [app span_until forallb] in *; [by rewrite Hc|]. apply andb_prop in Ha as [Hx Ha]. apply negb_true_iff in Hx. by rewrite Hx, IH.
Qed.
Lemma plain_no_dquote s : plain_text s → forallb (λ x, negb (is_quote x)) (bytes s) = true.
Proof.
  unfold plain_text. rewrite !forallb_forall. intros H c Hc. specialize (H c Hc). apply plain_char_range in H as (_ & H & _). unfold is_quote. by apply negb_true_iff, Z.eqb_neq.
Qed.
Lemma number_bytes z : ∃ c l, bytes (Itoa z) = c :: l ∧ is_quote c = false ∧ forallb (λ x, negb (ends_value x)) (c :: l) = true ∧ "."%char ∉ c :: l ∧ read_number (c :: l) = Some z.
Proof.
  assert (Hd : ∀ l, forallb is_digit l = true → forallb (λ x, negb (ends_value x)) l = true).
  { intros l. rewrite !forallb_forall. intros H x Hx%H. apply is_digit_spec in Hx. unfold ends_value. rewrite negb_orb. apply andb_true_intro. split; apply negb_true_iff, Z.eqb_neq; lia. }
  unfold Itoa. rewrite bytes_of_bytes. case_match eqn:Hz; to_prop.
  - exists "-"%char, (digits_of (- z)). pose proof (digits_of_digits (- z) ltac:(lia)) as Hdd. split_and!; [done|done| | |].
    + cbn [forallb]. by rewrite Hd.
    + intros [?|H]%elem_of_cons; [done|]. revert H. by apply not_digit_not_in.
    + cbn [read_number]. rewrite parse_digits_of by lia. cbn. by rewrite Z.opp_involutive.
  - pose proof (digits_of_digits z ltac:(lia)) as Hdd. pose proof (parse_digits_of z ltac:(lia)) as Hp. destruct (digits_of z) as [|c l] eqn:E; [by apply digits_of_nonempty in E|].
    exists c, l. pose proof Hdd as [Hc _]%andb_prop. apply is_digit_spec in Hc. split_and!; [done| |by apply Hd|by apply not_digit_not_in|].
    + unfold is_quote. apply Z.eqb_neq. lia.
    + unfold read_number. case_match; try done. repeat (case_match; try done).
Qed.

Lemma read_value_render v c r : plain_value v → ends_value c = true → read_value (bytes (render v) ++ c :: r) = Some (v, c :: r).
Proof.
  intros Hv Hc. destruct v as [z|t|s| |]; cbn [plain_value render] in *; try done.
  - destruct (number_bytes z) as (x & l & E & Hq & Hn & Hdot & Hr). rewrite E. cbn [app read_value]. rewrite Hq. rewrite (app_comm_cons l), (span_until_app _ (x :: l)) by done.
    rewrite bool_decide_eq_false_2 by done. by rewrite Hr.
  - destruct Hv as (_ & Hdot & Hf). destruct (bytes t) as [|x l] eqn:E; [by apply elem_of_nil in Hdot|]. cbn [app read_value].
    assert (He : ∀ y, y ∈ x :: l → is_quote y = false ∧ ends_value y = false).
    { intros y Hy. rewrite forallb_forall in Hf. apply list_elem_of_In in Hy. specialize (Hf y Hy). apply orb_prop in Hf as [Hf|Hf].
      - apply is_digit_spec in Hf. unfold is_quote, ends_value. split; [apply Z.eqb_neq; lia|apply orb_false_intro; apply Z.eqb_neq; lia].
      - apply orb_prop in Hf as [->%Ascii.eqb_eq| ->%Ascii.eqb_eq]; done. }
    rewrite (proj1 (He x ltac:(by left))). rewrite (app_comm_cons l), (span_until_app _ (x :: l)); [|apply forallb_forall; intros y Hy%list_elem_of_In; by rewrite (proj2 (He y Hy))|done].
    rewrite bool_decide_eq_true_2 by done. rewrite <- E. by rewrite of_bytes_bytes.
  - unfold in_quotes. rewrite bytes_of_bytes. cbn [app read_value]. change (is_quote dquote) with true. cbv iota. rewrite <- app_assoc. cbn [app].
    rewrite span_until_app by (done || by apply plain_no_dquote). by rewrite of_bytes_bytes.
Qed.

Definition member_bytes (kv : string * string) : list ascii := bytes (in_quotes kv.1) ++ ":"%char :: bytes kv.2.
Lemma read_fields_back fs fuel : (length fs < fuel)%nat → Forall (λ kv, plain_text kv.1 ∧ plain_value kv.2) fs →
  read_fields fuel (concat ((λ kv, ","%char :: member_bytes (prod_map id render kv)) <$> fs) ++ ["}"%char]) = Some fs.
Proof.
  revert fuel. induction fs as [|[k v] fs IH]; intros [|fuel] Hf Hp; cbn [length] in Hf; try lia; [done|]. apply Forall_cons in Hp as [[Hk Hv] Hp]. cbn [fst snd] in Hk, Hv.
  cbn [fmap list_fmap concat]. unfold member_bytes at 1. cbn [prod_map fst snd id]. unfold in_quotes. rewrite bytes_of_bytes. cbn [app read_fields]. change (is_quote dquote) with true. cbv iota.
  rewrite <- !app_assoc. cbn [app]. rewrite span_until_app by (done || by apply plain_no_dquote). cbv iota.
  set (rest := concat _ ++ ["}"%char]). assert (Hrest : ∃ c r, rest = c :: r ∧ ends_value c = true).
  { subst rest. destruct fs as [|kv fs]; cbn [fmap list_fmap concat app]; by do 2 eexists. }
  destruct Hrest as (c & r & Er & Hc). rewrite Er, read_value_render by done. cbn [mbind option_bind]. rewrite <- Er. subst rest. rewrite IH by (lia || done). cbn [mbind option_bind]. by rewrite of_bytes_bytes.
Qed.
Lemma members_length {A} (f : A → list ascii) (l : list A) : (length l ≤ length (concat ((λ x, ","%char :: f x) <$> l)))%nat.
Proof. induction l as [|x l IH]; [done|]. rewrite fmap_cons. cbn [concat app length]. rewrite length_app. lia. Qed.
Lemma join_members (l : list (list ascii)) : l ≠ [] → ","%char :: join_bytes "," l = concat ((λ m, ","%char :: m) <$> l).
Proof.
  induction l as [|m [|m' l] IH]; intros H; [done|by cbn; rewrite app_nil_r|]. change (join_bytes "," (m :: m' :: l)) with (m ++ ","%char :: join_bytes "," (m' :: l)).
  cbn [fmap list_fmap concat] in *. rewrite IH by done. done.
Qed.
#[local] Instance flat_json : FlatJSON := {| Unmarshal := read_object |}.
#[local] Instance flat_json_lawful : LawfulFlatJSON.
Proof.
  constructor. intros fs Hp. cbn [Unmarshal flat_json]. unfold read_object, object. rewrite !bytes_app, bytes_of_bytes. cbn [bytes String.list_ascii_of_string app].
  destruct fs as [|kv fs]; [done|]. set (ms := (λ '(k, v), _) <$> _). assert (Hms : ms = member_bytes <$> (prod_map id render <$> kv :: fs)).
  { subst ms. apply list_fmap_ext. by intros i [k v] _. }
  assert (Hj : ","%char :: join_bytes "," ms ++ ["}"%char] = concat ((λ kv, ","%char :: member_bytes (prod_map id render kv)) <$> kv :: fs) ++ ["}"%char]).
  { rewrite app_comm_cons, join_members by by rewrite Hms. rewrite Hms, <- !list_fmap_compose. done. }
  assert (Hlen : (length (kv :: fs) < S (length (join_bytes "," ms ++ ["}"%char])))%nat).
  { apply (f_equal length) in Hj. cbn [length] in Hj. rewrite Hj, length_app. pose proof (members_length (λ kv, member_bytes (prod_map id render kv)) (kv :: fs)). cbn [length] in *. lia. }
  destruct (join_bytes "," ms ++ ["}"%char]) as [|c l] eqn:E; [by destruct (join_bytes "," ms)|].
  assert (Hc : c ≠ "}"%char).
  { intros ->. destruct kv as [k v]. rewrite Hms in E. revert E. cbn [fmap list_fmap]. destruct (prod_map id render <$> fs); cbn [fmap list_fmap join_bytes app]; discriminate. }
  replace (match c :: l with _ => _ end) with (read_fields (S (length (c :: l))) (","%char :: c :: l)).
  { rewrite Hj. apply read_fields_back; [|done]. exact Hlen. }
  clear -Hc. destruct l as [|c' l]; [|by repeat case_match]. repeat (case_match; try done).
Qed.

(** ** A service *)

Notation toy := (gmap (string * string) (list (Z * string))).
Definition token_position (t : option string) : nat := match t with Some t => Z.to_nat (default 0 (parse_digits (bytes t))) | None => 0 end.
Definition toy_rest (st : toy) (q : get_input) (t : option string) : list (Z * string) :=
  drop (token_position t) (filter (within q) (default [] (st !! (g_group q, g_stream q)))).
(** Two events a page. *)
#[local] Instance toy_service : CloudWatch toy := {|
  CreateLogGroup g st := (None, st);
  PutRetentionPolicy g d st := (None, st);
  CreateLogStream g n st := match st !! (g, n) with Some _ => (Some "ResourceAlreadyExistsException"%string, st) | None => (None, <[(g, n) := []]> st) end;
  PutLogEvents g n t evs st := match st !! (g, n) with Some l => (Ok None, <[(g, n) := l ++ evs]> st) | None => (Err "ResourceNotFoundException"%string, st) end;
  DescribeLogStreams g p st := (Ok [None], st);
  GetLogEvents q st :=
    match st !! (g_group q, g_stream q) with
    | None => (Err "ResourceNotFoundException"%string, st)
    | Some _ =>
        let evs := take 2 (toy_rest st q (g_token q)) in
        (Ok (evs, match evs, g_token q with [], Some t => Some t | _, _ => Some (Itoa (Z.of_nat (token_position (g_token q) + length evs))) end), st)
    end;
  DeleteLogStream g n st := match st !! (g, n) with Some _ => (None, delete (g, n) st) | None => (Some "ResourceNotFoundException"%string, st) end;
  PutMetricData ns l st := (None, st);
|}.
Lemma token_position_Itoa n : token_position (Some (Itoa (Z.of_nat n))) = n.
Proof. unfold token_position. rewrite Itoa_nonneg, bytes_of_bytes, parse_digits_of by lia. cbn. lia. Qed.
#[local] Instance toy_laws : CloudWatchLaws toy.
Proof.
  refine {| held st g n := default [] (st !! (g, n)); rest := toy_rest; acceptable _ := True;
            left st q t := (length (toy_rest st q t) + match t with None => 1 | Some _ => 0 end)%nat |}; try (intros; done).
  - intros g n st g' n'. cbn. destruct (st !! (g, n)) eqn:E; [done|]. cbn. destruct (decide ((g, n) = (g', n'))) as [<-|Hn]; [by rewrite lookup_insert_eq, ?E|by rewrite lookup_insert_ne].
  - intros g n t evs st g' n' Hn. cbn. destruct (st !! (g, n)) eqn:E; [|done]. cbn. by rewrite lookup_insert_ne.
  - intros g n t evs st. cbn. destruct (st !! (g, n)) as [l|] eqn:E; cbn.
    + exists evs. rewrite lookup_insert_eq. done.
    + exists []. rewrite E. split_and!; [apply submseteq_nil_l|done|by intros [? ?]].
  - intros g n st g' n' Hn. cbn. destruct (st !! (g, n)) eqn:E; [|done]. cbn. by rewrite lookup_delete_ne.
  - intros g n st. cbn. left. destruct (st !! (g, n)) eqn:E; cbn; [by rewrite lookup_delete_eq|by rewrite ?E].
  - intros q st g' n'. cbn. by destruct (st !! _).
  - intros q st q' t. cbn. by destruct (st !! _).
  - intros q st q' t. cbn. by destruct (st !! _).
  - intros q st events next st' H. cbn in H. destruct (st !! _); [|done]. injection H as <- <- <-.
    set (t := g_token q). set (m := toy_rest st q t). assert (Hd : ∀ n, toy_rest st q (Some (Itoa (Z.of_nat (token_position t + n)))) = drop n m).
    { intros k. unfold m, toy_rest. rewrite token_position_Itoa. by rewrite drop_drop. }
    destruct m as [|x m'] eqn:Em; [destruct t as [tok|] eqn:Et|].
    + cbn [take app]. rewrite bool_decide_eq_true_2 by done. assert (E0 : toy_rest st q (Some tok) = []) by exact Em. by rewrite E0.
    + cbn [take length app]. rewrite Hd. rewrite bool_decide_eq_false_2 by done. split; [done|]. cbn. lia.
    + assert (Hl : (0 < length (take 2 (x :: m')))%nat) by (cbn; lia). set (evs := take 2 (x :: m')) in *. destruct evs as [|y evs'] eqn:Ee; [cbn in Hl; lia|]. rewrite Hd. rewrite <- Ee.
      assert (Htd : x :: m' = evs ++ drop (length evs) (x :: m')) by (unfold evs; rewrite <- (take_drop 2 (x :: m')) at 1; by destruct m').
      split; [exact Htd|]. rewrite bool_decide_eq_false_2.
      * pose proof (f_equal length Htd) as Hlen. rewrite length_app in Hlen. assert (0 < length evs)%nat by (rewrite Ee; cbn; lia). lia.
      * intros Et. pose proof (f_equal token_position Et) as Ep. rewrite token_position_Itoa in Ep. rewrite Ee in Ep. cbn [length] in Ep. lia.
  - intros q q' st t E1 E2 E3 E4 _. unfold toy_rest. rewrite E1, E2. unfold within. 
    assert (H : ∀ l : list (Z * string), filter (within q) l = filter (within q') l) by (intros l; apply list_filter_iff; intros x; unfold within; by rewrite E3, E4). by rewrite H.
  - intros q st e st' H _. cbn in H. unfold toy_rest. destruct (st !! _); [done|]. cbn. by destruct (token_position _).
Defined.

(** *** A history *)

#[local] Instance cw_sort : SortSlice := insertion_SortSlice.
Definition asked_config : CloudWatchConfig :=
  {| Region := "eu-west-1"; NodeID := ""; LogGroupPrefix := ""; MetricNamespace := ""; MetricDimensions := []; LogBatchSize := 2; MetricBatchSize := 0; LogRetentionDays := 0 |}.
Definition node_config : CloudWatchConfig :=
  {| Region := "eu-west-1"; NodeID := "n1"; LogGroupPrefix := "/joblet"; MetricNamespace := "Joblet/Jobs"; MetricDimensions := []; LogBatchSize := 2; MetricBatchSize := 20; LogRetentionDays := 7 |}.
Definition new_backend : cloudwatch := {| createdGroups := ∅; createdStreams := ∅; sequenceTokens := ∅ |}.
Definition exec_at (t pid : Z) (args : list string) : kernel_event :=
  EExec {| xe_head := {| h_JobUuid := "j"; h_Timestamp := t; h_Sequence := pid; h_Pid := pid; h_Comm := "sh" |}; xe_Ppid := 1; xe_Uid := 0; xe_Gid := 0; xe_Filename := "/bin/sh"; xe_Args := args |}.
Definition connect_at (t : Z) (addr : string) : kernel_event :=
  EConnect {| ce_head := {| h_JobUuid := "j"; h_Timestamp := t; h_Sequence := 1; h_Pid := 7; h_Comm := "curl" |}; ce_SrcAddr := "10.0.0.2"; ce_SrcPort := 40000; ce_DstAddr := addr; ce_DstPort := 443; ce_Protocol := "tcp" |}.
Definition sample_history : list cop :=
  [CEvents "j" TExec [exec_at 9000000 1 ["a"]]; CDelete "j"; CLogs "j" [];
   CEvents "j" TExec [exec_at 5000001 2 ["-c"; "ls"]; exec_at 3000000 3 []; exec_at 4000000 4 ["x"]]; CEvents "j" TConnect [connect_at 6000000 "10.0.0.9"]; CEvents "k" TExec [exec_at 1000000 5 []];
   CReadEvents 9 TExec "n1" {| t_JobUUID := "j"; t_StartTime := None; t_EndTime := None; t_Limit := 0; t_Offset := 0 |};
   CEvents "j" TExec [exec_at 8000000 6 []]]%string.
Definition sample_query : TelemetryQuery := {| t_JobUUID := "j"; t_StartTime := Some 4000000; t_EndTime := None; t_Limit := 1; t_Offset := 5 |}.
Definition no_quote : list ascii → list ascii := id.

(** The limit and the offset of the query are ignored. *)
Example sample_answer :
  option_map (λ le, (h_Pid ∘ head_of <$> le.1, le.2)) (read_events node_config 9 TExec "n1" sample_query (crun no_quote node_config sample_history (new_backend, ∅ : toy)).2.2).1 = Some ([4; 2; 6], None).
Proof. vm_compute. reflexivity. Qed.

(** The fields of a message, one metric and back: fractions keep six digits. *)
Definition sample_metric : Metric := {| me_JobUuid := "j"; me_Timestamp := 5; me_Sequence := 3; me_Data := Some {|
  md_CpuUsage := decimal 125 1; md_MemoryUsage := 4096; md_GpuUsage := zero64; md_DiskIo := None;
  md_NetworkIo := Some {| n_RxBytes := 10; n_TxBytes := 20; n_RxPackets := 3; n_TxPackets := 4 |} |} |}.
Example sample_metric_message :
  metric_message sample_metric = Some (of_bytes (concat [bytes "{"; bytes (in_quotes "type"); bytes ":"; bytes (in_quotes "metrics"); bytes ","; bytes (in_quotes "ts"); bytes ":5,"; bytes (in_quotes "cpu");
    bytes ":12.500000,"; bytes (in_quotes "mem"); bytes ":4096,"; bytes (in_quotes "gpu"); bytes ":0.000000,"; bytes (in_quotes "disk_r"); bytes ":0,"; bytes (in_quotes "disk_w"); bytes ":0,";
    bytes (in_quotes "disk_r_ops"); bytes ":0,"; bytes (in_quotes "disk_w_ops"); bytes ":0,"; bytes (in_quotes "net_rx"); bytes ":10,"; bytes (in_quotes "net_tx"); bytes ":20}"])).
Proof. vm_compute. reflexivity. Qed.
(** The numbers of packets are lost, and a missing record becomes one of zeros. *)
Example sample_metric_back : (metric_message sample_metric ≫= λ m, parseMetricFromJSON m "j") = Some {| me_JobUuid := "j"; me_Timestamp := 5; me_Sequence := 0; me_Data := Some {|
  md_CpuUsage := decimal 125 1; md_MemoryUsage := 4096; md_GpuUsage := zero64; md_DiskIo := Some no_io;
  md_NetworkIo := Some {| n_RxBytes := 10; n_TxBytes := 20; n_RxPackets := 0; n_TxPackets := 0 |} |} |}.
Proof. vm_compute. reflexivity. Qed.
(** An address of version 6 is not split: its port is lost.  Arguments with spaces fall
    apart, and a control character makes the event unreadable. *)
Example address_6 : parseAddrPort (addr_port "fe80::1" 443) = ("fe80::1:443"%string, 0).
Proof. vm_compute. reflexivity. Qed.
Example spaced_arguments : parse TExec "j" 0 (message no_quote (exec_at 0 1 ["a b"; ""; "c"])) = Some (EExec
  {| xe_head := {| h_JobUuid := "j"; h_Timestamp := 0; h_Sequence := 0; h_Pid := 1; h_Comm := "sh" |}; xe_Ppid := 1; xe_Uid := 0; xe_Gid := 0; xe_Filename := "/bin/sh"; xe_Args := ["a"; "b"; "c"] |}).
Proof. vm_compute. reflexivity. Qed.
(** A negative batch size panics. *)
Example negative_batch : (write_events no_quote {| Region := "r"; NodeID := "n"; LogGroupPrefix := "/p"; MetricNamespace := "m"; MetricDimensions := []; LogBatchSize := -1; MetricBatchSize := 1; LogRetentionDays := 1 |}
  "j" TExec [exec_at 0 1 []] (new_backend, ∅ : toy)).1 = None.
Proof. vm_compute. reflexivity. Qed.

#[local] Instance plain_event_dec e : Decision (plain_event e).
Proof. unfold plain_event, plain_addr, plain_arg, plain_text, uint32, in_int64, in_uint64, word. destruct e; apply _. Defined.
Lemma sample_proper : Forall (proper_op (St := toy)) sample_history.
Proof.
  assert (H : forallb (λ op, match op with CEvents _ k l => bool_decide (Forall (λ e, kind_of e = k ∧ plain_event e) l) | _ => true end) sample_history = true) by (vm_compute; reflexivity).
  apply Forall_forall. intros op Hop%list_elem_of_In. rewrite forallb_forall in H. specialize (H op Hop). destruct op; try exact I. apply bool_decide_eq_true in H.
  eapply Forall_impl; [exact H|]. intros e [??]. split_and!; [done|done|exact I].
Qed.
Lemma acknowledged_events_read_back_witness :
  NewCloudWatchBackend asked_config "n1" = Ok (node_config, new_backend) ∧
  let '(rs, s) := crun no_quote node_config sample_history (new_backend, ∅ : toy) in
  ∃ fuel0, ∀ fuel, (fuel0 ≤ fuel)%nat → ∃ l e, (read_events node_config fuel TExec "" sample_query s.2).1 = Some (l, e) ∧
    (∀ x, x ∈ l → ∃ e0, e0 ∈ handed_in "j" TExec (zip sample_history rs) ∧ asked sample_query e0 ∧ x = kept "j" e0) ∧
    (e = None → (kept "j" <$> filter (asked sample_query) (acknowledged "j" TExec (zip sample_history rs))) ⊆+ l).
Proof.
  split; [reflexivity|].
  apply (acknowledged_events_read_back (CL := toy_laws) no_quote node_config asked_config "n1" new_backend sample_history ∅ TExec sample_query "");
    [reflexivity|cbn; lia|reflexivity|exact sample_proper|left; reflexivity].
Defined.
