(* ===== verification/NetSetup.v ===== *)
(** * Bridges, interfaces and firewall rules of jobs (internal/joblet/network/setup.go)

    The code drives [ip], [iptables], [nsenter] and [mount]; what those do is the class
    [Host], with the parts of their documentation that matter here as laws: the FORWARD
    chain, in the order it is consulted, and the bridges.  A function answers [None] when
    the code panics. *)

From Stdlib Require Import Ascii String.
From S2P Require Import Prelude GoStrings Paths IPNet NetworkStore GoNumbers.

Local Open Scope Z_scope.

(** ** The host *)

Class Host (H : Type) := {
  (* The output of a command, or its error. *)
  Run : list string → H → result string string * H;
  WriteFile : string → list ascii → H → result string unit * H;
  ReadFile : string → H → option string;
  Stat : string → H → bool;
  Remove : string → H → result string unit * H;
  Getenv : string → string;
}.

(** [src/internal/joblet/network/types.go:6-13 JobAllocation] *)
Record JobAllocation := {
  al_JobUUID : string; al_Network : string; al_IP : list Z; al_Hostname : string; al_VethHost : string; al_VethPeer : string;
}.

(** ** Names *)

(** [fnv.New32a]. *)
Definition fnv32a (l : list ascii) : Z := foldl (λ h c, Z.lxor h (byte_val c) * 16777619 mod 2 ^ 32) 2166136261 l.
Definition hex_digit (n : Z) : ascii := byte_of (if n <? 10 then 48 + n else 87 + n).
(** [%08x] of 32 bits. *)
Definition hex8 (z : Z) : list ascii := (λ i, hex_digit (z / 16 ^ i mod 16)) <$> [7; 6; 5; 4; 3; 2; 1; 0].

(** [src/internal/joblet/network/setup.go bridgeNameForNetwork] *)
Definition bridgeNameForNetwork (networkName : string) : string :=
  if String.eqb networkName "bridge" then "joblet0"%string else
  let candidate := ("joblet-" +:+ networkName)%string in
  if (String.length candidate <=? 15)%nat then candidate else ("joblet-" +:+ of_bytes (hex8 (fnv32a (bytes networkName))))%string.

(** ** Rules of the FORWARD chain *)

Inductive target := ACCEPT | DROP.
Record rule := { r_in : option string; r_out : option string; r_target : target }.
#[export] Instance target_eq : EqDecision target.
Proof. solve_decision. Defined.
#[export] Instance rule_eq : EqDecision rule.
Proof. solve_decision. Defined.

Definition accept_in (i : string) : rule := {| r_in := Some i; r_out := None; r_target := ACCEPT |}.
Definition accept_out (o : string) : rule := {| r_in := None; r_out := Some o; r_target := ACCEPT |}.
Definition drop_between (i o : string) : rule := {| r_in := Some i; r_out := Some o; r_target := DROP |}.

(** The arguments that stand for a rule. *)
Definition rule_args (r : rule) : list string :=
  match r_in r with Some i => ["-i"; i] | None => [] end ++ match r_out r with Some o => ["-o"; o] | None => [] end ++
  ["-j"; match r_target r with ACCEPT => "ACCEPT" | DROP => "DROP" end].
Definition insert_rule (r : rule) : list string := ["iptables"; "-I"; "FORWARD"; "1"] ++ rule_args r.
Definition check_rule (r : rule) : list string := ["iptables"; "-C"; "FORWARD"] ++ rule_args r.
Definition delete_rule (r : rule) : list string := ["iptables"; "-D"; "FORWARD"] ++ rule_args r.

Definition matches (r : rule) (i o : string) : bool :=
  match r_in r with Some i' => String.eqb i' i | None => true end && match r_out r with Some o' => String.eqb o' o | None => true end.
(** What becomes of a packet that is forwarded from one interface to another. *)
Fixpoint verdict (chain : list rule) (i o : string) : option target :=
  match chain with [] => None | r :: chain => if matches r i o then Some (r_target r) else verdict chain i o end.
Fixpoint remove_first (r : rule) (chain : list rule) : list rule :=
  match chain with [] => [] | r' :: chain => if decide (r' = r) then chain else r' :: remove_first r chain end.

(** ** Commands *)

Section setup.
Context {H : Type} {HO : Host H} {V6 : IPv6Text}.
(** What the network store says of a network. *)
Context (NetworkConfig : string → option string).

(** An outcome: [None] is a panic. *)
Definition outcome (A : Type) : Type := option (result string A) * H.
Definition and_then {A B} (m : outcome A) (k : A → H → outcome B) : outcome B :=
  match m with (Some (Ok x), h) => k x h | (Some (Err e), h) => (Some (Err e), h) | (None, h) => (None, h) end.
Definition done_ (h : H) : outcome unit := (Some (Ok tt), h).

(** Whether the command succeeds.
    [src/internal/joblet/network/setup.go NetworkSetup.execCommand] *)
Definition execCommand (args : list string) (h : H) : bool * H :=
  match Run args h with (Ok _, h) => (true, h) | (Err _, h) => (false, h) end.
(** [src/internal/joblet/network/setup.go NetworkSetup.execInNamespace] *)
Definition execInNamespace (netnsPath : string) (args : list string) (h : H) : bool * H :=
  execCommand ("nsenter" :: ("--net=" +:+ netnsPath)%string :: args) h.

(** A command whose failure ends the call with [what]; one whose failure is logged; one
    whose failure runs [cleanup] first. *)
Definition must (args : list string) (what : string) (h : H) : outcome unit :=
  let '(ok, h) := execCommand args h in (Some (if ok then Ok tt else Err what), h).
Definition may (args : list string) (h : H) : H := (execCommand args h).2.
Definition must_or (args : list string) (what : string) (cleanup : list string) (h : H) : outcome unit :=
  let '(ok, h) := execCommand args h in if ok then (Some (Ok tt), h) else (Some (Err what), may cleanup h).

(** The commands in the namespace, up to the first that fails. *)
Fixpoint in_namespace (netnsPath : string) (cmds : list (list string)) (h : H) : outcome unit :=
  match cmds with
  | [] => done_ h
  | cmd :: cmds => let '(ok, h) := execInNamespace netnsPath cmd h in
                   if ok then in_namespace netnsPath cmds h else (Some (Err "failed to configure namespace"%string), h)
  end.

(** A rule that is inserted unless it is there. *)
Definition ensure_rule (r : rule) (h : H) : H :=
  let '(there, h) := execCommand (check_rule r) h in if there then h else may (insert_rule r) h.

(** ** Addresses *)

(** [src/internal/joblet/network/setup.go NetworkSetup.getNetworkCIDR] *)
Definition getNetworkCIDR (networkName : string) : string :=
  match NetworkConfig networkName with
  | Some cidr => cidr
  | None =>
      if String.eqb networkName "bridge" then
        (if String.eqb (Getenv "JOBLET_BRIDGE_NETWORK_CIDR") "" then "172.20.0.0/16"%string else Getenv "JOBLET_BRIDGE_NETWORK_CIDR")
      else if String.eqb (Getenv "JOBLET_DEFAULT_NETWORK_CIDR") "" then "10.1.0.0/24"%string else Getenv "JOBLET_DEFAULT_NETWORK_CIDR"
  end.

(** [src/internal/joblet/network/setup.go NetworkSetup.getGatewayIP] *)
Definition getGatewayIP (networkName : string) : string :=
  match ParseCIDR (getNetworkCIDR networkName) with
  | None => "10.1.0.1"%string
  | Some n => match To4 (net_IP n) with Some a => String_ip (take 3 a ++ [1]) | None => "0.0.0.1"%string end
  end.

(** [Mask.Size] of a mask of ones and zeros. *)
Definition mask_ones (m : list Z) : Z := foldr Z.add 0 ((λ b, 8 - Z.log2_up (256 - b)) <$> m).

(** ** Bridges *)

(** [src/internal/joblet/network/setup.go NetworkSetup.getExistingBridges] *)
Definition getExistingBridges (h : H) : list string * H :=
  match Run ["ip"; "link"; "show"; "type"; "bridge"]%string h with
  | (Err _, h) => ([], h)
  | (Ok out, h) =>
      (omap (λ line, if GoStrings.Contains line ": joblet" then
                       match Fields line with _ :: w :: _ => Some (TrimSuffix w ":") | _ => None end
                     else None) (Split out (byte_of 10)), h)
  end.

Fixpoint isolate_from (bridgeName : string) (others : list string) (h : H) : H :=
  match others with
  | [] => h
  | otherBridge :: others =>
      isolate_from bridgeName others
        (if String.eqb otherBridge bridgeName || negb (HasPrefix otherBridge "joblet") then h
         else may (insert_rule (drop_between otherBridge bridgeName)) (may (insert_rule (drop_between bridgeName otherBridge)) h))
  end.
(** [src/internal/joblet/network/setup.go NetworkSetup.setupNetworkIsolation] *)
Definition setupNetworkIsolation (networkName bridgeName : string) (h : H) : H :=
  if String.eqb networkName "bridge" then h else
  let '(bridges, h) := getExistingBridges h in isolate_from bridgeName bridges h.

Fixpoint rejoin (bridgeName : string) (others : list string) (h : H) : H :=
  match others with
  | [] => h
  | otherBridge :: others =>
      rejoin bridgeName others
        (if String.eqb otherBridge bridgeName then h
         else may (delete_rule (drop_between otherBridge bridgeName)) (may (delete_rule (drop_between bridgeName otherBridge)) h))
  end.
(** [src/internal/joblet/network/setup.go NetworkSetup.cleanupNetworkIsolation] *)
Definition cleanupNetworkIsolation (bridgeName : string) (h : H) : H :=
  let '(bridges, h) := getExistingBridges h in rejoin bridgeName bridges h.

Definition forward_on (h : H) : H := (WriteFile "/proc/sys/net/ipv4/ip_forward" (bytes "1") h).2.
Definition masquerade (op src : string) : list string := ["iptables"; "-t"; "nat"; op; "POSTROUTING"; "-s"; src; "-j"; "MASQUERADE"]%string.

(** [src/internal/joblet/network/setup.go NetworkSetup.ensureBridge] *)
Definition ensureBridge (networkName : string) (h : H) : outcome unit :=
  let bridgeName := bridgeNameForNetwork networkName in
  let '(there, h) := execCommand ["ip"; "link"; "show"; bridgeName]%string h in
  if there then done_ h else
  and_then (must ["ip"; "link"; "add"; bridgeName; "type"; "bridge"]%string "failed to create bridge" h) (λ _ h,
  let cidr := getNetworkCIDR networkName in
  match Split cidr "/" with
  | _ :: prefix :: _ =>
      and_then (must ["ip"; "addr"; "add"; getGatewayIP networkName +:+ "/" +:+ prefix; "dev"; bridgeName]%string "failed to configure bridge IP" h) (λ _ h,
      and_then (must ["ip"; "link"; "set"; bridgeName; "up"]%string "failed to bring up bridge" h) (λ _ h,
      let h := forward_on h in
      let h := may (masquerade "-A" cidr) h in
      let h := ensure_rule (accept_in bridgeName) h in
      let h := ensure_rule (accept_out bridgeName) h in
      done_ (setupNetworkIsolation networkName bridgeName h)))
  | _ => (None, h)
  end).

(** [src/internal/joblet/network/setup.go NetworkSetup.RemoveBridge] *)
Definition RemoveBridge (networkName : string) (h : H) : outcome unit :=
  let bridgeName := bridgeNameForNetwork networkName in
  let h := cleanupNetworkIsolation bridgeName h in
  let h := may (masquerade "-D" (getNetworkCIDR networkName)) h in
  let h := may (delete_rule (accept_in bridgeName)) h in
  let h := may (delete_rule (accept_out bridgeName)) h in
  let h := may ["ip"; "link"; "set"; bridgeName; "down"]%string h in
  must ["ip"; "link"; "delete"; bridgeName]%string "failed to delete bridge" h.

(** [src/internal/joblet/network/setup.go NetworkSetup.CreateBridge] *)
Definition CreateBridge (bridgeName cidr : string) (h : H) : outcome unit :=
  and_then (must ["ip"; "link"; "add"; bridgeName; "type"; "bridge"]%string "failed to create bridge" h) (λ _ h,
  match ParseCIDR cidr with
  | None => (Some (Err "invalid CIDR"%string), h)
  | Some n =>
      let bridgeIP := take (length (net_IP n) - 1) (net_IP n) ++ [1] in
      and_then (must ["ip"; "addr"; "add"; String_ip bridgeIP +:+ "/" +:+ Itoa (mask_ones (net_Mask n)); "dev"; bridgeName]%string "failed to assign IP to bridge" h)
        (λ _ h, must ["ip"; "link"; "set"; bridgeName; "up"]%string "failed to bring up bridge" h)
  end).

(** [src/internal/joblet/network/setup.go NetworkSetup.DeleteBridge] *)
Definition DeleteBridge (bridgeName : string) (h : H) : outcome unit :=
  must ["ip"; "link"; "delete"; bridgeName]%string "failed to delete bridge" (may ["ip"; "link"; "set"; bridgeName; "down"]%string h).

(** [src/internal/joblet/network/setup.go NetworkSetup.BridgeExists] *)
Definition BridgeExists (bridgeName : string) (h : H) : bool * H := execCommand ["ip"; "link"; "show"; bridgeName]%string h.
(** [src/internal/joblet/network/setup.go NetworkSetup.CreateVethPair] *)
Definition CreateVethPair (hostVeth peerVeth : string) (h : H) : bool * H :=
  execCommand ["ip"; "link"; "add"; hostVeth; "type"; "veth"; "peer"; "name"; peerVeth]%string h.
(** [src/internal/joblet/network/setup.go NetworkSetup.DeleteVethPair] *)
Definition DeleteVethPair (hostVeth peerVeth : string) (h : H) : bool * H := execCommand ["ip"; "link"; "delete"; hostVeth]%string h.
(** [src/internal/joblet/network/setup.go NetworkSetup.AttachVethToBridge] *)
Definition AttachVethToBridge (bridgeName vethName : string) (h : H) : outcome unit :=
  and_then (must ["ip"; "link"; "set"; vethName; "master"; bridgeName]%string "failed to attach veth to bridge" h)
    (λ _ h, must ["ip"; "link"; "set"; vethName; "up"]%string "" h).

(** ** Jobs *)

Definition netns (pid : Z) : string := ("/proc/" +:+ Itoa pid +:+ "/ns/net")%string.
Definition hosts_path (uuid : string) : string := ("/tmp/joblet-hosts-" +:+ uuid)%string.
Definition newline_text : string := of_bytes [byte_of 10].

(** [src/internal/joblet/network/setup.go NetworkSetup.setupHostsFile] *)
Definition setupHostsFile (pid : Z) (alloc : JobAllocation) (h : H) : H :=
  let text := ("127.0.0.1   localhost" +:+ newline_text +:+ String_ip (al_IP alloc) +:+ "   " +:+ al_Hostname alloc +:+ newline_text +:+ newline_text +:+
               "# Other jobs in the same network can be resolved here" +:+ newline_text)%string in
  match WriteFile (hosts_path (al_JobUUID alloc)) (bytes text) h with
  | (Err _, h) => h
  | (Ok _, h) => may ["mount"; "--bind"; hosts_path (al_JobUUID alloc); "/proc/" +:+ Itoa pid +:+ "/root/etc/hosts"]%string h
  end.

(** [src/internal/joblet/network/setup.go NetworkSetup.setupIsolatedNetwork] *)
Definition setupIsolatedNetwork (pid : Z) (h : H) : outcome unit :=
  let h := forward_on h in
  let vethHost := ("viso" +:+ Itoa (Z.rem pid 10000))%string in
  let vethPeer := (vethHost +:+ "p")%string in
  let cleanup := ["ip"; "link"; "delete"; vethHost]%string in
  and_then (must ["ip"; "link"; "add"; vethHost; "type"; "veth"; "peer"; "name"; vethPeer]%string "failed to create veth pair" h) (λ _ h,
  and_then (must_or ["ip"; "link"; "set"; vethPeer; "netns"; Itoa pid]%string "failed to move veth to namespace" cleanup h) (λ _ h,
  and_then (must_or ["ip"; "addr"; "add"; "10.255.255.1/30"; "dev"; vethHost]%string "failed to configure host veth" cleanup h) (λ _ h,
  and_then (must_or ["ip"; "link"; "set"; vethHost; "up"]%string "failed to bring up host veth" cleanup h) (λ _ h,
  let '(natRuleExists, h) := execCommand (masquerade "-C" "10.255.255.2/32") h in
  let h := if natRuleExists then h else may (masquerade "-A" "10.255.255.2/32") h in
  let h := ensure_rule (accept_in vethHost) h in
  let h := ensure_rule (accept_out vethHost) h in
  in_namespace (netns pid)
    [["ip"; "addr"; "add"; "10.255.255.2/30"; "dev"; vethPeer]; ["ip"; "link"; "set"; vethPeer; "up"]; ["ip"; "link"; "set"; "lo"; "up"];
     ["ip"; "route"; "add"; "default"; "via"; "10.255.255.1"]]%string h)))).

(** [src/internal/joblet/network/setup.go NetworkSetup.setupBridgeNetwork] *)
Definition setupBridgeNetwork (alloc : JobAllocation) (pid : Z) (h : H) : outcome unit :=
  and_then (ensureBridge (al_Network alloc) h) (λ _ h,
  and_then (must ["ip"; "link"; "add"; al_VethHost alloc; "type"; "veth"; "peer"; "name"; al_VethPeer alloc]%string "failed to create veth pair" h) (λ _ h,
  and_then (must ["ip"; "link"; "set"; al_VethHost alloc; "master"; bridgeNameForNetwork (al_Network alloc)]%string "failed to attach veth to bridge" h) (λ _ h,
  and_then (must ["ip"; "link"; "set"; al_VethHost alloc; "up"]%string "failed to bring up host veth" h) (λ _ h,
  and_then (must ["ip"; "link"; "set"; al_VethPeer alloc; "netns"; Itoa pid]%string "failed to move veth to namespace" h) (λ _ h,
  match ParseCIDR (getNetworkCIDR (al_Network alloc)) with
  | None => (None, h)
  | Some ipNet =>
      and_then (in_namespace (netns pid)
        [["ip"; "addr"; "add"; String_ip (al_IP alloc) +:+ "/" +:+ Itoa (mask_ones (net_Mask ipNet)); "dev"; al_VethPeer alloc];
         ["ip"; "link"; "set"; al_VethPeer alloc; "up"]; ["ip"; "link"; "set"; "lo"; "up"];
         ["ip"; "route"; "add"; "default"; "via"; getGatewayIP (al_Network alloc)]]%string h) (λ _ h,
      done_ (if String.eqb (al_Hostname alloc) "" then h else setupHostsFile pid alloc h))
  end))))).

(** [src/internal/joblet/network/setup.go NetworkSetup.SetupJobNetwork] *)
Definition SetupJobNetwork (alloc : JobAllocation) (pid : Z) (h : H) : outcome unit :=
  if negb (Stat ("/proc/" +:+ Itoa pid)%string h) then (Some (Err "process does not exist"%string), h)
  else if String.eqb (al_Network alloc) "none" then done_ h
  else if String.eqb (al_Network alloc) "isolated" then setupIsolatedNetwork pid h
  else setupBridgeNetwork alloc pid h.

(** [src/internal/joblet/network/setup.go NetworkSetup.findJobPID] *)
Definition findJobPID (jobID : string) (h : H) : result string Z :=
  let read := match ReadFile ("/sys/fs/cgroup/joblet.slice/joblet.service/job-" +:+ jobID +:+ "/cgroup.procs")%string h with
              | Some c => Some c
              | None => ReadFile ("/sys/fs/cgroup/unified/joblet/job-" +:+ jobID +:+ "/cgroup.procs")%string h end in
  match read with
  | None => Err "failed to read cgroup.procs"%string
  | Some content =>
      match Split (TrimSpace content) (byte_of 10) with
      | line :: _ => if String.eqb line "" then Err "no processes found in cgroup"%string
                     else match Sscanf_d 64 line with Some pid => Ok pid | None => Err "failed to parse PID"%string end
      | [] => Err "no processes found in cgroup"%string
      end
  end.
(** [src/internal/joblet/network/setup.go NetworkSetup.SetupNamespace] *)
Definition SetupNamespace (jobID : string) (alloc : JobAllocation) (h : H) : outcome unit :=
  match findJobPID jobID h with
  | Err e => (Some (Err "failed to find job process PID"%string), h)
  | Ok pid => SetupJobNetwork alloc pid h
  end.

(** [src/internal/joblet/network/setup.go NetworkSetup.CleanupJobNetwork] *)
Definition CleanupJobNetwork (alloc : JobAllocation) (h : H) : H :=
  let h := if negb (String.eqb (al_Network alloc) "none") && negb (String.eqb (al_JobUUID alloc) "")
           then (Remove (hosts_path (al_JobUUID alloc)) (may ["umount"; hosts_path (al_JobUUID alloc)]%string h)).2 else h in
  if String.eqb (al_Network alloc) "none" then h
  else if String.eqb (al_Network alloc) "isolated" then may (masquerade "-D" "10.255.255.2/32") h
  else if String.eqb (al_VethHost alloc) "" then h else may ["ip"; "link"; "delete"; al_VethHost alloc]%string h.
End setup.

(** ** The list of bridges, printed and read *)

Definition colon (w : list ascii) : list ascii := w ++ [":"%char].
(** Two lines per bridge: its number, name and state, and its hardware address. *)
Record entry := { e_index : list ascii; e_name : string; e_rest : list (list ascii); e_link : list (list ascii) }.
Definition line1 (e : entry) : list ascii := join_bytes " " (colon (e_index e) :: colon (bytes (e_name e)) :: e_rest e).
Definition line2 (e : entry) : list ascii := join_bytes " " ([] :: [] :: [] :: [] :: e_link e).
Definition listing (es : list entry) : string :=
  of_bytes (List.concat ((λ e, line1 e ++ byte_of 10 :: line2 e ++ [byte_of 10]) <$> es)).

(** The name of an interface of the program, and a word that does not look like one. *)
Definition joblet (n : string) : Prop := HasPrefix n "joblet" = true.
#[export] Instance joblet_dec n : Decision (joblet n).
Proof. unfold joblet. apply _. Defined.
Definition other_word (w : list ascii) : Prop := word w ∧ ¬ bytes "joblet" `prefix_of` w.
Record entry_ok (e : entry) : Prop := {
  eo_index : word (e_index e); eo_name : word (bytes (e_name e)); eo_rest : Forall other_word (e_rest e); eo_link : Forall other_word (e_link e);
}.

Lemma infix_spec p l : infix_bytes p l = true ↔ ∃ x y, l = x ++ p ++ y.
Proof.
  induction l as [|c l IH]; cbn [infix_bytes].
  - rewrite orb_false_r, bool_decide_eq_true. split; [intros [y ->]; by exists [], y|].
    intros (x & y & E). destruct x; [|done]. by exists y.
  - rewrite orb_true_iff, bool_decide_eq_true, IH. split.
    + intros [[y ->]|(x & y & ->)]; [by exists [], y|by exists (c :: x), y].
    + intros (x & y & E). destruct x as [|d x]; [left; by exists y|right]. injection E as _ ->. by exists x, y.
Qed.

Lemma split_prefix sep p y : sep ∉ p → ∃ w ws, split_bytes sep (p ++ y) = (p ++ w) :: ws.
Proof.
  intros Hp. induction p as [|c p IH]; cbn [app].
  - destruct (split_bytes sep y) as [|w ws] eqn:E; [exfalso; destruct y; cbn in E; repeat case_match; done|by exists w, ws].
  - apply not_elem_of_cons in Hp as [H1 H2]. destruct (IH H2) as (w & ws & E). cbn [split_bytes]. rewrite decide_False by done. rewrite E. by exists w, ws.
Qed.

(** A line contains ": joblet" when a word that is not the first starts so. *)
Lemma contains_word ws : Forall (λ w, " "%char ∉ w) ws → ws ≠ [] → infix_bytes (bytes ": joblet") (join_bytes " " ws) = true →
  ∃ w, w ∈ tail ws ∧ bytes "joblet" `prefix_of` w.
Proof.
  intros Hw Hn (x & y & E)%infix_spec. pose proof (split_bytes_join " " ws Hn Hw) as Hs. rewrite E in Hs.
  change (bytes ": joblet") with (":"%char :: " "%char :: bytes "joblet") in Hs.
  replace (x ++ (":"%char :: " "%char :: bytes "joblet") ++ y) with ((x ++ [":"%char]) ++ " "%char :: (bytes "joblet" ++ y)) in Hs by (rewrite <- app_assoc; done).
  rewrite split_bytes_app_sep in Hs. destruct (split_prefix " " (bytes "joblet") y) as (w & l & Ep). { refine (bool_decide_unpack _ _). vm_compute. exact I. }
  rewrite Ep in Hs. exists (bytes "joblet" ++ w). split; [|by exists w]. rewrite <- Hs.
  destruct (split_bytes " " (x ++ [":"%char])) as [|h t] eqn:E2; [exfalso; destruct x; cbn in E2; repeat case_match; done|].
  cbn [tail app]. apply elem_of_app. right. by left.
Qed.

Lemma graphic_not c w : forallb graphic w = true → graphic c = false → c ∉ w.
Proof.
  intros H Hc Hin. rewrite forallb_forall in H. apply list_elem_of_In, H in Hin. congruence.
Qed.
Lemma word_not c w : word w → graphic c = false → c ∉ w.
Proof. intros [_ H]. by apply graphic_not. Qed.
Lemma colon_word w : word w → word (colon w).
Proof. intros [H1 H2]. split; [by destruct w|]. unfold colon. rewrite forallb_app, H2. done. Qed.

Lemma colon_prefix w : bytes "joblet" `prefix_of` colon w → bytes "joblet" `prefix_of` w.
Proof.
  intros [y E]. unfold colon in E. destruct y as [|c y _] using rev_ind.
  - rewrite app_nil_r in E. exfalso. assert (Hin : ":"%char ∈ bytes "joblet") by (rewrite <- E; apply elem_of_app; right; by left).
    revert Hin. refine (bool_decide_unpack (¬ _) _). vm_compute. exact I.
  - rewrite app_assoc in E. apply app_inj_tail in E as [-> _]. by exists y.
Qed.

Lemma trim_colon n : TrimSuffix (of_bytes (colon (bytes n))) ":" = n.
Proof.
  assert (El : String.length (of_bytes (colon (bytes n))) = (String.length n + 1)%nat).
  { rewrite <- length_bytes, bytes_of_bytes. unfold colon. rewrite length_app, length_bytes. done. }
  assert (E : of_bytes (colon (bytes n)) = (n +:+ ":")%string) by (apply bytes_inj; rewrite bytes_of_bytes, bytes_app; done).
  unfold TrimSuffix. rewrite El, E. change (String.length ":") with 1%nat. replace (String.length n + 1 - 1)%nat with (String.length n) by lia.
  assert (H1 : String.substring (String.length n) 1 (n +:+ ":") = ":"%string) by (clear; induction n as [|c n IH]; [done|exact IH]).
  assert (H2 : String.substring 0 (String.length n) (n +:+ ":") = n) by (clear; induction n as [|c n IH]; [done|]; change (String c (substring 0 (String.length n) (n +:+ ":")) = String c n); by rewrite IH).
  rewrite H1, H2. rewrite bool_decide_eq_true_2; [done|]. split; [done|lia].
Qed.

Definition bridge_line (line : string) : option string :=
  if GoStrings.Contains line ": joblet" then match Fields line with _ :: w :: _ => Some (TrimSuffix w ":") | _ => None end else None.

Lemma line1_words e : entry_ok e → Forall word (colon (e_index e) :: colon (bytes (e_name e)) :: e_rest e).
Proof.
  intros He. constructor; [by apply colon_word, He|]. constructor; [by apply colon_word, He|].
  eapply Forall_impl; [apply He|]. by intros w [? _].
Qed.

Lemma line1_read e : entry_ok e → bridge_line (of_bytes (line1 e)) = if decide (joblet (e_name e)) then Some (e_name e) else None.
Proof.
  intros He. unfold bridge_line. unfold GoStrings.Contains. rewrite bytes_of_bytes. destruct (infix_bytes (bytes ": joblet") (line1 e)) eqn:E.
  - unfold line1. rewrite Fields_words by (by apply line1_words). cbn [fmap list_fmap]. rewrite trim_colon. rewrite decide_True; [done|].
    apply contains_word in E as (w & Hw & Hp); [| |done].
    + cbn [tail] in Hw. apply elem_of_cons in Hw as [->|Hw].
      * apply colon_prefix in Hp. unfold joblet. apply HasPrefix_bytes. destruct Hp as [y E]. by exists y.
      * exfalso. pose proof (eo_rest e He) as Hr. rewrite Forall_forall in Hr. by destruct (Hr w Hw).
    + eapply Forall_impl; [by apply line1_words|]. intros w H. by apply (word_not " ").
  - rewrite decide_False; [done|]. intros Hj. apply not_true_iff_false in E. apply E, infix_spec.
    unfold joblet in Hj. apply HasPrefix_bytes in Hj as [l Hl]. exists (e_index e).
    assert (Hr : ∃ r, line1 e = e_index e ++ [":"%char] ++ " "%char :: colon (bytes (e_name e)) ++ r).
    { unfold line1, colon. destruct (e_rest e) as [|w ws]; cbn [join_bytes]; [exists []|exists (" "%char :: join_bytes " " (w :: ws))]; rewrite <- ?app_assoc; done. }
    destruct Hr as [r ->]. unfold colon. rewrite Hl. exists (l ++ [":"%char] ++ r). f_equal.
    change (bytes ": joblet") with ([":"%char] ++ " "%char :: bytes "joblet"). do 2 (rewrite <- ?app_assoc; cbn [app]). done.
Qed.

Lemma line2_read e : entry_ok e → bridge_line (of_bytes (line2 e)) = None.
Proof.
  intros He. unfold bridge_line. unfold GoStrings.Contains. rewrite bytes_of_bytes. destruct (infix_bytes (bytes ": joblet") (line2 e)) eqn:E; [|done].
  exfalso. pose proof (eo_link e He) as Hr. rewrite Forall_forall in Hr. apply contains_word in E as (w & Hw & Hp); [| |done].
  - cbn [tail] in Hw. do 3 (apply elem_of_cons in Hw as [->|Hw]; [destruct Hp as [y Hy]; discriminate Hy|]). by destruct (Hr w Hw).
  - do 4 (constructor; [apply not_elem_of_nil|]). apply Forall_forall. intros w Hw. destruct (Hr w Hw) as [Hword _]. by apply (word_not " ").
Qed.

Lemma join_no_newline ws : Forall (λ w, byte_of 10 ∉ w) ws → byte_of 10 ∉ join_bytes " " ws.
Proof.
  induction 1 as [|w ws Hw Hws IH]; [apply not_elem_of_nil|]. cbn [join_bytes]. destruct ws as [|w' ws]; [done|].
  rewrite not_elem_of_app, not_elem_of_cons. by split_and!.
Qed.

(** The names that are read are those of the bridges of the program. *)
Lemma listing_read es : Forall entry_ok es → omap bridge_line (Split (listing es) (byte_of 10)) = filter joblet (e_name <$> es).
Proof.
  intros He. unfold Split, listing. rewrite bytes_of_bytes. induction He as [|e es He Hes IH]; [reflexivity|].
  cbn [fmap list_fmap List.concat]. rewrite <- app_assoc. cbn [app]. rewrite split_bytes_app.
  2:{ apply join_no_newline. eapply Forall_impl; [by apply line1_words|]. intros w H. by apply (word_not _ _ H). }
  rewrite <- app_assoc. cbn [app]. rewrite split_bytes_app.
  2:{ apply join_no_newline. do 4 (constructor; [apply not_elem_of_nil|]). eapply Forall_impl; [by apply He|]. intros w [H _]. by apply (word_not _ _ H). }
  cbn [fmap list_fmap omap list_omap]. rewrite line1_read, line2_read, filter_cons by done.
  destruct (decide (joblet (e_name e))); by rewrite IH.
Qed.

(** ** What the commands do *)

(** Neither the FORWARD chain nor the set of interfaces loses or gains anything but a pair
    of interfaces of a job. *)
Definition neutral (args : list string) : bool :=
  match args with
  | ("iptables" :: "-t" :: _)%string => true
  | ("iptables" :: _)%string => false
  | ("ip" :: "link" :: verb :: rest)%string =>
      negb (String.eqb verb "delete") && match rest with [_; "type"; "bridge"]%string => negb (String.eqb verb "add") | _ => true end
  | _ => true
  end.
Definition list_bridges : list string := ["ip"; "link"; "show"; "type"; "bridge"].

Class HostLaws (H : Type) `{!Host H} := {
  forward : H → list rule;
  bridges : H → gset string;
  hl_other args h : neutral args = true → forward (Run args h).2 = forward h ∧ bridges (Run args h).2 = bridges h;
  hl_insert r h : bridges (Run (insert_rule r) h).2 = bridges h ∧
    forward (Run (insert_rule r) h).2 = if is_ok (Run (insert_rule r) h).1 then r :: forward h else forward h;
  hl_check r h : bridges (Run (check_rule r) h).2 = bridges h ∧ forward (Run (check_rule r) h).2 = forward h ∧
    (is_ok (Run (check_rule r) h).1 = true → r ∈ forward h);
  hl_delete r h : bridges (Run (delete_rule r) h).2 = bridges h ∧
    forward (Run (delete_rule r) h).2 = if is_ok (Run (delete_rule r) h).1 then remove_first r (forward h) else forward h;
  hl_add n h : let '(o, h') := Run ["ip"; "link"; "add"; n; "type"; "bridge"]%string h in
    forward h' = forward h ∧ bridges h' = if is_ok o then {[n]} ∪ bridges h else bridges h;
  hl_remove n h : let '(o, h') := Run ["ip"; "link"; "delete"; n]%string h in
    forward h' = forward h ∧ bridges h' = if is_ok o then bridges h ∖ {[n]} else bridges h;
  hl_list h out : (Run list_bridges h).1 = Ok out → ∃ es, out = listing es ∧ Forall entry_ok es ∧ (e_name <$> es) ≡ₚ elements (bridges h);
  hl_write p c h : forward (WriteFile p c h).2 = forward h ∧ bridges (WriteFile p c h).2 = bridges h;
  hl_unlink p h : forward (Remove p h).2 = forward h ∧ bridges (Remove p h).2 = bridges h;
}.

(** ** The chain *)

Lemma matches_drop a b i o : matches (drop_between a b) i o = String.eqb a i && String.eqb b o.
Proof. reflexivity. Qed.
Lemma matches_in a i o : matches (accept_in a) i o = String.eqb a i.
Proof. unfold matches. cbn. by rewrite andb_true_r. Qed.
Lemma matches_out a i o : matches (accept_out a) i o = String.eqb a o.
Proof. reflexivity. Qed.

Lemma verdict_remove r chain i o : matches r i o = false → verdict (remove_first r chain) i o = verdict chain i o.
Proof.
  intros Hr. induction chain as [|r' chain IH]; [done|]. cbn [remove_first verdict]. destruct (decide (r' = r)) as [->|]; [by rewrite Hr|].
  cbn [verdict]. by rewrite IH.
Qed.
Lemma remove_first_in r r' chain : r ≠ r' → r' ∈ chain → r' ∈ remove_first r chain.
Proof.
  intros Hne. induction chain as [|x chain IH]; [done|]. cbn [remove_first]. intros [->|Hin]%elem_of_cons.
  - rewrite decide_False by done. by left.
  - destruct (decide _); [done|]. right. by apply IH.
Qed.
Lemma remove_first_sub r r' chain : r' ∈ remove_first r chain → r' ∈ chain.
Proof.
  induction chain as [|x chain IH]; [done|]. cbn [remove_first]. destruct (decide _); [by right|]. intros [->|Hin]%elem_of_cons; [by left|right; by apply IH].
Qed.

Definition other_bridge (n x : string) : bool := negb (String.eqb x n || negb (HasPrefix x "joblet")).
(** The rules an isolation adds, and the chain after them. *)
Definition isolated_chain (n : string) (others : list string) (chain : list rule) : list rule :=
  foldl (λ chain x, if other_bridge n x then drop_between x n :: drop_between n x :: chain else chain) chain others.

Lemma isolated_keeps n others chain r : r ∈ chain → r ∈ isolated_chain n others chain.
Proof.
  revert chain. induction others as [|x others IH]; intros chain Hr; [done|]. apply IH. destruct (other_bridge n x); [|done]. right. by right.
Qed.
Lemma isolated_from n others chain r : r ∈ isolated_chain n others chain →
  r ∈ chain ∨ ∃ x, x ∈ others ∧ joblet x ∧ (r = drop_between n x ∨ r = drop_between x n).
Proof.
  revert chain. induction others as [|x others IH]; intros chain Hr; [by left|]. apply IH in Hr as [Hr|(y & H1 & H2)]; [|right; exists y; split; [by right|done]].
  destruct (other_bridge n x) eqn:E; [|by left]. unfold other_bridge in E. apply negb_true_iff, orb_false_iff in E as [_ E%negb_false_iff].
  apply elem_of_cons in Hr as [->|[->|Hr]%elem_of_cons]; [right; exists x; split; [by left|]; eauto..|by left].
Qed.
Lemma isolated_other n others chain i o : i ≠ n → o ≠ n → verdict (isolated_chain n others chain) i o = verdict chain i o.
Proof.
  intros Hi Ho. revert chain. induction others as [|x others IH]; intros chain; [done|]. cbn [isolated_chain foldl]. etransitivity; [apply IH|].
  destruct (other_bridge n x); [|done]. cbn [verdict]. rewrite !matches_drop.
  rewrite (proj2 (String.eqb_neq n o)), andb_false_r by done. by rewrite (proj2 (String.eqb_neq n i)) by done.
Qed.
Lemma isolated_drops n others chain x : x ∈ others → x ≠ n → joblet x →
  verdict (isolated_chain n others chain) n x = Some DROP ∧ verdict (isolated_chain n others chain) x n = Some DROP.
Proof.
  assert (Hkeep : ∀ others chain, verdict chain n x = Some DROP ∧ verdict chain x n = Some DROP →
    verdict (isolated_chain n others chain) n x = Some DROP ∧ verdict (isolated_chain n others chain) x n = Some DROP).
  { clear. intros others. induction others as [|y others IH]; intros chain Hc; [done|]. cbn [isolated_chain foldl]. apply IH.
    destruct (other_bridge n y); [|done]. cbn [verdict].
    destruct Hc as [H1 H2]. split; (destruct (matches (drop_between y n) _ _); [done|]); by destruct (matches (drop_between n y) _ _). }
  intros Hx Hne Hj. revert chain. induction others as [|y others IH]; intros chain; [by apply elem_of_nil in Hx|].
  cbn [isolated_chain foldl]. apply elem_of_cons in Hx as [->|Hx]; [|by apply IH]. apply Hkeep.
  assert (E : other_bridge n y = true) by (unfold other_bridge; rewrite (proj2 (String.eqb_neq y n)) by done; rewrite Hj; done).
  rewrite E. cbn [verdict]. rewrite !matches_drop. rewrite !String.eqb_refl, !(proj2 (String.eqb_neq y n)), !(proj2 (String.eqb_neq n y)) by done. done.
Qed.

(** Every packet between two interfaces that a rule accepts and no DROP rule is about. *)
Lemma verdict_accept chain i o r : r ∈ chain → r_target r = ACCEPT → matches r i o = true →
  (∀ r', r' ∈ chain → r_target r' = DROP → matches r' i o = false) → verdict chain i o = Some ACCEPT.
Proof.
  intros Hr Ht Hm Hd. induction chain as [|x chain IH]; [by apply elem_of_nil in Hr|]. cbn [verdict]. destruct (matches x i o) eqn:E.
  - f_equal. destruct (r_target x) eqn:Ex; [done|]. rewrite (Hd x) in E; [done|by left|done].
  - apply IH; [|intros r' H; apply Hd; by right]. apply elem_of_cons in Hr as [->|Hr]; [by rewrite Hm in E|done].
Qed.

(** ** Isolation between networks *)

Lemma bridge_joblet n : joblet (bridgeNameForNetwork n).
Proof.
  unfold joblet, bridgeNameForNetwork. destruct (String.eqb n "bridge"); [done|]. apply HasPrefix_bytes.
  destruct (_ <=? _)%nat; rewrite bytes_app; change (bytes "joblet-") with (bytes "joblet" ++ ["-"%char]); rewrite <- app_assoc; by eexists.
Qed.

Section laws.
Context {H : Type} {HO : Host H} {HL : HostLaws H} {V6 : IPv6Text}.
Context (NetworkConfig : string → option string).
Local Abbreviation ensureBridge := (ensureBridge NetworkConfig).
Local Abbreviation RemoveBridge := (RemoveBridge NetworkConfig).
Local Abbreviation SetupJobNetwork := (SetupJobNetwork NetworkConfig).

(** What a host is to the firewall. *)
Definition fw (h : H) : list rule * gset string := (forward h, bridges h).

Lemma exec_run args (h : H) : execCommand args h = (is_ok (Run args h).1, (Run args h).2).
Proof. unfold execCommand. by destruct (Run args h) as [[] h']. Qed.
Lemma may_run args (h : H) : may args h = (Run args h).2.
Proof. unfold may. by rewrite exec_run. Qed.
Lemma fw_other args h : neutral args = true → fw (Run args h).2 = fw h.
Proof. intros Hn. unfold fw. destruct (hl_other args h Hn) as [-> ->]. done. Qed.
Lemma fw_may args h : neutral args = true → fw (may args h) = fw h.
Proof. intros Hn. rewrite may_run. by apply fw_other. Qed.
Lemma fw_forward_on (h : H) : fw (forward_on h) = fw h.
Proof. unfold fw, forward_on. destruct (hl_write "/proc/sys/net/ipv4/ip_forward" (bytes "1") h) as [-> ->]. done. Qed.
Lemma must_eq args what (h : H) : must args what h = (Some (if is_ok (Run args h).1 then Ok tt else Err what), (Run args h).2).
Proof. unfold must. by rewrite exec_run. Qed.
Lemma fw_must args what h : neutral args = true → fw (must args what h).2 = fw h.
Proof. intros Hn. unfold must. rewrite exec_run. by apply fw_other. Qed.
Lemma must_ok args what (h : H) x : (must args what h).1 = Some x → x = Ok tt ∨ x = Err what.
Proof. unfold must. rewrite exec_run. destruct (is_ok _); intros [= <-]; auto. Qed.
Lemma and_then_inv {A B} (m : outcome (H := H) A) (k : A → H → outcome B) : 
  (and_then m k).2 = m.2 ∧ (∀ x, m.1 ≠ Some (Ok x)) ∨ ∃ x, m.1 = Some (Ok x) ∧ and_then m k = k x m.2.
Proof. unfold and_then. destruct m as [[[x|e]|] h]; [right; by exists x|left; by split|left; by split]. Qed.

Lemma in_namespace_fw netns cmds h : fw (in_namespace netns cmds h).2 = fw h.
Proof.
  revert h. induction cmds as [|cmd cmds IH]; intros h; [done|]. cbn [in_namespace]. unfold execInNamespace. rewrite exec_run.
  destruct (is_ok _); cbn [snd]; [etransitivity; [apply IH|]|]; by apply fw_other.
Qed.

Hypothesis inserts_work : ∀ r (h : H), is_ok (Run (insert_rule r) h).1 = true.
Hypothesis listing_works : ∀ h : H, is_ok (Run list_bridges h).1 = true.

Lemma may_insert r h : bridges (may (insert_rule r) h) = bridges h ∧ forward (may (insert_rule r) h) = r :: forward h.
Proof. rewrite may_run. destruct (hl_insert r h) as [-> ->]. by rewrite inserts_work. Qed.
Lemma ensure_rule_fw r h : bridges (ensure_rule r h) = bridges h ∧ r ∈ forward (ensure_rule r h) ∧
  (forward (ensure_rule r h) = forward h ∨ forward (ensure_rule r h) = r :: forward h).
Proof.
  unfold ensure_rule. rewrite exec_run. destruct (hl_check r h) as (H1 & H2 & H3). destruct (is_ok _); [rewrite H1, H2; auto|].
  destruct (may_insert r (Run (check_rule r) h).2) as [-> ->]. rewrite H1, H2. split_and!; [done|by left|by right].
Qed.
Lemma list_fw h : fw (Run list_bridges h).2 = fw h.
Proof. by apply fw_other. Qed.

(** The list that is read has the bridges of the program. *)
Lemma existing_bridges h : fw (getExistingBridges h).2 = fw h ∧ ∀ x, x ∈ (getExistingBridges h).1 ↔ x ∈ bridges h ∧ joblet x.
Proof.
  pose proof (list_fw h) as Hfw. pose proof (listing_works h) as Hok. pose proof (hl_list h) as Hl. unfold getExistingBridges. change ["ip"; "link"; "show"; "type"; "bridge"]%string with list_bridges.
  destruct (Run list_bridges h) as [[out|e] h']; cbn [fst snd] in *; [|done]. split; [done|]. intros x. destruct (Hl out eq_refl) as (es & -> & Hes & Hp).
  change (x ∈ omap bridge_line (Split (listing es) (byte_of 10)) ↔ x ∈ bridges h ∧ joblet x).
  rewrite listing_read by done. rewrite list_elem_of_filter, Hp, elem_of_elements. tauto.
Qed.

Lemma isolate_run n others h : bridges (isolate_from n others h) = bridges h ∧ forward (isolate_from n others h) = isolated_chain n others (forward h).
Proof.
  revert h. induction others as [|x others IH]; intros h; [done|]. cbn [isolate_from isolated_chain foldl]. unfold other_bridge.
  destruct (String.eqb x n || negb (HasPrefix x "joblet")); cbn [negb]; [apply IH|].
  destruct (IH (may (insert_rule (drop_between x n)) (may (insert_rule (drop_between n x)) h))) as [-> ->].
  destruct (may_insert (drop_between x n) (may (insert_rule (drop_between n x)) h)) as [-> ->]. destruct (may_insert (drop_between n x) h) as [-> ->]. done.
Qed.

(** The networks whose traffic is kept apart: all but the default one. *)
Definition kept_apart (b : string) : Prop := joblet b ∧ b ≠ "joblet0"%string.
Record firewall_ok (h : H) : Prop := {
  fo_apart : ∀ a b, a ∈ bridges h → b ∈ bridges h → kept_apart a → kept_apart b → a ≠ b → verdict (forward h) a b = Some DROP;
  fo_open : ∀ a, a ∈ bridges h → joblet a → accept_in a ∈ forward h ∧ accept_out a ∈ forward h;
  fo_drops : ∀ r, r ∈ forward h → r_target r = DROP → ∃ a b, r = drop_between a b ∧ joblet a ∧ joblet b;
}.

Lemma firewall_same h h' : fw h' = fw h → firewall_ok h → firewall_ok h'.
Proof. unfold fw. intros [= E1 E2] [H1 H2 H3]. split; rewrite ?E1, ?E2; done. Qed.

(** An accept rule for an interface of another kind. *)
Lemma firewall_accept h h' r : firewall_ok h → r_target r = ACCEPT → (∀ a b, a ∈ bridges h → b ∈ bridges h → kept_apart a → kept_apart b → matches r a b = false) →
  bridges h' = bridges h → forward h' = forward h ∨ forward h' = r :: forward h → firewall_ok h'.
Proof.
  intros [H1 H2 H3] Hr Hm Eb Ef. split; rewrite ?Eb.
  - intros a b Ha Hb Ka Kb Hne. destruct Ef as [->| ->]; [by apply H1|]. cbn [verdict]. rewrite Hm by done. by apply H1.
  - intros a Ha Ja. destruct (H2 a Ha Ja). destruct Ef as [->| ->]; [done|]. split; by right.
  - intros r' Hr' Ht. destruct Ef as [E|E]; rewrite E in Hr'; [by apply H3|]. apply elem_of_cons in Hr' as [->|Hr']; [congruence|by apply H3].
Qed.

(** A bridge that is added, accepted and isolated. *)
Lemma firewall_new n b h f : firewall_ok h → b = bridgeNameForNetwork n → accept_in b ∈ f → accept_out b ∈ f →
  (∀ r, r ∈ forward h → r ∈ f) → (∀ r, r ∈ f → r ∈ forward h ∨ r_target r = ACCEPT) →
  (∀ i o, i ≠ b → o ≠ b → verdict f i o = verdict (forward h) i o) →
  ∀ h' others, bridges h' = {[b]} ∪ bridges h → (∀ x, x ∈ others ↔ x ∈ bridges h' ∧ joblet x) →
  forward h' = (if String.eqb n "bridge" then f else isolated_chain b others f) → firewall_ok h'.
Proof.
  intros [H1 H2 H3] -> Hin Hout Hsub Hnew Hv h' others Eb Ho Ef. set (B := bridgeNameForNetwork n) in *.
  assert (Hf : ∀ r, r ∈ f → r ∈ forward h') by (intros r Hr; rewrite Ef; destruct (String.eqb n "bridge"); [done|by apply isolated_keeps]).
  split.
  - intros x y Hx Hy Kx Ky Hne. rewrite Ef. destruct (String.eqb_spec n "bridge") as [->|Hn].
    + assert (x ≠ B ∧ y ≠ B) as [Nx Ny] by (split; intros ->; [by destruct Kx|by destruct Ky]).
      rewrite Eb in Hx, Hy. rewrite Hv by done. apply H1; [set_solver|set_solver|done..].
    + destruct (decide (x = B)) as [->|Nx]; [apply isolated_drops; [apply Ho; by destruct Ky|done|by destruct Ky]|].
      destruct (decide (y = B)) as [->|Ny]; [apply isolated_drops; [apply Ho; by destruct Kx|done|by destruct Kx]|].
      rewrite isolated_other, Hv by done. rewrite Eb in Hx, Hy. apply H1; [set_solver|set_solver|done..].
  - intros x Hx Jx. destruct (decide (x = B)) as [->|Nx]; [split; by apply Hf|]. rewrite Eb in Hx. destruct (H2 x) as [? ?]; [set_solver|done|]. split; by apply Hf, Hsub.
  - intros r Hr Ht. rewrite Ef in Hr. assert (Hcase : r ∈ f ∨ ∃ x, x ∈ others ∧ joblet x ∧ (r = drop_between B x ∨ r = drop_between x B)).
    { destruct (String.eqb n "bridge"); [by left|by apply isolated_from]. }
    destruct Hcase as [Hc|(x & _ & Jx & [->| ->])].
    + apply Hnew in Hc as [Hc|Hc]; [by apply H3|congruence].
    + exists B, x. split_and!; [done|apply bridge_joblet|done].
    + exists x, B. split_and!; [done|done|apply bridge_joblet].
Qed.

(** Setting up a bridge keeps the networks apart, unless it ends half way. *)
Definition settled_bridge (o : option (result string unit)) : Prop := o = Some (Ok tt) ∨ o = Some (Err "failed to create bridge"%string).

Lemma ensureBridge_firewall n h : firewall_ok h → settled_bridge (ensureBridge n h).1 → firewall_ok (ensureBridge n h).2.
Proof.
  intros Hi. unfold NetSetup.ensureBridge. set (B := bridgeNameForNetwork n). rewrite exec_run. set (h1 := (Run ["ip"; "link"; "show"; B]%string h).2).
  assert (E1 : fw h1 = fw h) by (by apply fw_other). pose proof (firewall_same _ _ E1 Hi) as Hi1. clearbody h1. destruct (is_ok _); [by intros _|].
  rewrite (must_eq ["ip"; "link"; "add"; B; "type"; "bridge"]%string "failed to create bridge" h1). pose proof (hl_add B h1) as Ha. destruct (Run ["ip"; "link"; "add"; B; "type"; "bridge"]%string h1) as [o h2]. cbn [fst snd] in *.
  destruct Ha as [Hf2 Hb2]. destruct o as [u|e]; cbn [is_ok] in *; [|cbn [and_then snd]; intros _; apply (firewall_same h1); [unfold fw; by rewrite Hf2, Hb2|done]].
  cbn [and_then]. destruct (Split (getNetworkCIDR NetworkConfig n) "/") as [|x [|prefix rest]]; [by intros [[=]|[=]]..|].
  destruct (and_then_inv (must ["ip"; "addr"; "add"; getGatewayIP NetworkConfig n +:+ "/" +:+ prefix; "dev"; B]%string "failed to configure bridge IP" h2)
    (λ _ h, and_then (must ["ip"; "link"; "set"; B; "up"]%string "failed to bring up bridge" h) (λ _ h,
      done_ (setupNetworkIsolation n B (ensure_rule (accept_out B) (ensure_rule (accept_in B) (may (masquerade "-A" (getNetworkCIDR NetworkConfig n)) (forward_on h)))))))) as [[_ Hno]|(u1 & Hok & E)].
  { intros Hs. exfalso. unfold and_then in Hs at 1. pose proof (must_ok ["ip"; "addr"; "add"; getGatewayIP NetworkConfig n +:+ "/" +:+ prefix; "dev"; B]%string "failed to configure bridge IP" h2) as Hm.
    destruct (must _ "failed to configure bridge IP" h2) as [[[[]|e]|] h3]; [by apply (Hno tt)| |by destruct Hs]. destruct (Hm _ eq_refl) as [?|[= ->]]; [done|]. by destruct Hs as [[=]|[=]]. }
  cbv zeta beta in E |- *. rewrite E. clear E Hok. pose proof (fw_must ["ip"; "addr"; "add"; getGatewayIP NetworkConfig n +:+ "/" +:+ prefix; "dev"; B]%string "failed to configure bridge IP" h2 eq_refl) as E3.
  set (h3 := (must _ "failed to configure bridge IP" h2).2) in *. clearbody h3.
  pose proof (must_ok ["ip"; "link"; "set"; B; "up"]%string "failed to bring up bridge" h3) as Hm. pose proof (fw_must ["ip"; "link"; "set"; B; "up"]%string "failed to bring up bridge" h3 eq_refl) as E4.
  destruct (must _ "failed to bring up bridge" h3) as [[[[]|e]|] h4]; cbn [and_then fst snd] in *; [intros _|destruct (Hm _ eq_refl) as [?|[= ->]]; [done|by intros [[=]|[=]]]|by intros [[=]|[=]]].
  clear Hm. set (h5 := may _ (forward_on h4)). assert (E5 : fw h5 = fw h2) by (unfold h5; rewrite fw_may, fw_forward_on by done; congruence). clearbody h5.
  destruct (ensure_rule_fw (accept_in B) h5) as (Hb6 & Hin6 & Hf6). set (h6 := ensure_rule (accept_in B) h5) in *. clearbody h6.
  destruct (ensure_rule_fw (accept_out B) h6) as (Hb7 & Hin7 & Hf7). set (h7 := ensure_rule (accept_out B) h6) in *. clearbody h7.
  injection E5 as Ef5 Eb5. rewrite Ef5, Hf2 in Hf6. rewrite Eb5, Hb2 in Hb6. rewrite Hb6 in Hb7.
  assert (Hsub : ∀ r, r ∈ forward h1 → r ∈ forward h7).
  { intros r Hr. assert (r ∈ forward h6) by (destruct Hf6 as [->| ->]; [done|by right]). destruct Hf7 as [->| ->]; [done|by right]. }
  assert (Hnew : ∀ r, r ∈ forward h7 → r ∈ forward h1 ∨ r_target r = ACCEPT).
  { intros r Hr. destruct Hf7 as [E|E]; rewrite E in Hr; [|apply elem_of_cons in Hr as [->|Hr]; [by right|]]; destruct Hf6 as [E'|E']; rewrite E' in Hr; auto;
      apply elem_of_cons in Hr as [->|Hr]; auto. }
  assert (Hv : ∀ i o, i ≠ B → o ≠ B → verdict (forward h7) i o = verdict (forward h1) i o).
  { intros i o Ni No. assert (E6 : verdict (forward h6) i o = verdict (forward h1) i o).
    { destruct Hf6 as [->| ->]; [done|]. cbn [verdict]. by rewrite matches_in, (proj2 (String.eqb_neq B i)) by done. }
    rewrite <- E6. destruct Hf7 as [->| ->]; [done|]. cbn [verdict]. by rewrite matches_out, (proj2 (String.eqb_neq B o)) by done. }
  assert (Hin : accept_in B ∈ forward h7) by (destruct Hf7 as [->| ->]; [done|by right]).
  unfold done_, setupNetworkIsolation. cbn [snd]. pose proof (existing_bridges h7) as He. destruct (getExistingBridges h7) as [l h8]. cbn [fst snd] in He. destruct He as [E8 He].
  injection E8 as Ef8 Eb8. destruct (String.eqb n "bridge") eqn:En.
  - apply (firewall_new n B h1 (forward h7) Hi1 eq_refl Hin Hin7 Hsub Hnew Hv h7 l); [done|done|by rewrite En].
  - destruct (isolate_run B l h8) as [Eb9 Ef9]. apply (firewall_new n B h1 (forward h7) Hi1 eq_refl Hin Hin7 Hsub Hnew Hv _ l); [congruence| |by rewrite En, Ef9, Ef8].
    intros y. rewrite He, Eb9, Eb8. done.
Qed.

(** Rules about an interface are taken away. *)
Definition about (n : string) (r : rule) : Prop := r_in r = Some n ∨ r_out r = Some n.
Lemma about_none n r i o : about n r → i ≠ n → o ≠ n → matches r i o = false.
Proof.
  intros [E|E] Hi Ho; unfold matches; rewrite E; [by rewrite (proj2 (String.eqb_neq n i)) by done|]. rewrite (proj2 (String.eqb_neq n o)) by done. apply andb_false_r.
Qed.

(** The chain [f] is [g] without some rules about [n]. *)
Record trimmed (n : string) (g f : list rule) : Prop := {
  tr_sub : ∀ r, r ∈ f → r ∈ g;
  tr_keep : ∀ r, r ∈ g → ¬ about n r → r ∈ f;
  tr_verdict : ∀ i o, i ≠ n → o ≠ n → verdict f i o = verdict g i o;
}.
Lemma trimmed_refl n g : trimmed n g g.
Proof. done. Qed.
Lemma trimmed_trans n g f e : trimmed n g f → trimmed n f e → trimmed n g e.
Proof. intros [H1 H2 H3] [H4 H5 H6]. split; [by auto|by auto|]. intros i o Hi Ho. by rewrite H6, H3. Qed.
Lemma may_delete n r h : about n r → bridges (may (delete_rule r) h) = bridges h ∧ trimmed n (forward h) (forward (may (delete_rule r) h)).
Proof.
  intros Hr. rewrite may_run. destruct (hl_delete r h) as [-> ->]. split; [done|]. destruct (is_ok _); [|done]. split.
  - intros r'. apply remove_first_sub.
  - intros r' Hr' Hn. apply remove_first_in; [by intros ->|done].
  - intros i o Hi Ho. apply verdict_remove. by apply (about_none n).
Qed.
Lemma rejoin_run n others h : bridges (rejoin n others h) = bridges h ∧ trimmed n (forward h) (forward (rejoin n others h)).
Proof.
  revert h. induction others as [|x others IH]; intros h; [done|]. cbn [rejoin]. destruct (String.eqb x n); [apply IH|].
  destruct (may_delete n (drop_between n x) h) as [E1 T1]; [by left|].
  destruct (may_delete n (drop_between x n) (may (delete_rule (drop_between n x)) h)) as [E2 T2]; [by right|].
  destruct (IH (may (delete_rule (drop_between x n)) (may (delete_rule (drop_between n x)) h))) as [E3 T3].
  split; [by rewrite E3, E2, E1|]. eapply trimmed_trans; [exact T1|]. by eapply trimmed_trans.
Qed.

Lemma firewall_removed n h h' : firewall_ok h → trimmed n (forward h) (forward h') → bridges h' = bridges h ∖ {[n]} → firewall_ok h'.
Proof.
  intros [H1 H2 H3] [T1 T2 T3] Eb. split; rewrite ?Eb.
  - intros a b Ha Hb Ka Kb Hne. rewrite T3 by set_solver. apply H1; [set_solver|set_solver|done..].
  - intros a Ha Ja. destruct (H2 a) as [H4 H5]; [set_solver|done|]. split; apply T2; try done; intros [E|E]; cbn in E; try done; injection E as ->; set_solver.
  - intros r Hr Ht. by apply H3; [apply T1|].
Qed.
Lemma firewall_fewer h h' s : firewall_ok h → forward h' = forward h → bridges h' = bridges h ∖ s → firewall_ok h'.
Proof.
  intros [H1 H2 H3] Ef Eb. split; rewrite ?Eb, ?Ef; [|intros a Ha; apply H2; set_solver|done].
  intros a b Ha Hb. apply H1; set_solver.
Qed.

Lemma RemoveBridge_firewall n h : firewall_ok h → (RemoveBridge n h).1 = Some (Ok tt) → firewall_ok (RemoveBridge n h).2.
Proof.
  intros Hi. unfold NetSetup.RemoveBridge. set (B := bridgeNameForNetwork n). unfold cleanupNetworkIsolation.
  pose proof (existing_bridges h) as [E1 _]. destruct (getExistingBridges h) as [l h1]. cbn [snd] in E1. injection E1 as Ef1 Eb1.
  destruct (rejoin_run B l h1) as [Eb2 T2]. set (h2 := rejoin B l h1) in *. clearbody h2.
  pose proof (fw_may (masquerade "-D" (getNetworkCIDR NetworkConfig n)) h2 eq_refl) as E3. set (h3 := may _ h2) in *. clearbody h3. injection E3 as Ef3 Eb3.
  destruct (may_delete B (accept_in B) h3) as [Eb4 T4]; [by left|]. set (h4 := may _ h3) in *. clearbody h4.
  destruct (may_delete B (accept_out B) h4) as [Eb5 T5]; [by right|]. set (h5 := may _ h4) in *. clearbody h5.
  pose proof (fw_may ["ip"; "link"; "set"; B; "down"]%string h5 eq_refl) as E6. set (h6 := may _ h5) in *. clearbody h6. injection E6 as Ef6 Eb6.
  rewrite must_eq. pose proof (hl_remove B h6) as Hr. destruct (Run _ h6) as [o h7]. cbn [fst snd]. destruct Hr as [Ef7 Eb7]. intros Hok.
  destruct o as [u|e]; cbn [is_ok] in *; [|done]. apply (firewall_removed B h); [done| |congruence].
  rewrite Ef7, Ef6. eapply trimmed_trans; [|exact T5]. eapply trimmed_trans; [|exact T4]. rewrite Ef3. by rewrite <- Ef1.
Qed.

(** The interfaces of isolated jobs are not bridges of the program. *)
Definition viso (pid : Z) : string := ("viso" +:+ Itoa (Z.rem pid 10000))%string.
Lemma viso_not_joblet pid : ¬ joblet (viso pid).
Proof. unfold joblet, viso. intros [l E]%HasPrefix_bytes. rewrite bytes_app in E. discriminate E. Qed.

Lemma must_or_firewall args what n h : neutral args = true → firewall_ok h → firewall_ok (must_or args what ["ip"; "link"; "delete"; n]%string h).2.
Proof.
  intros Hn Hi. unfold must_or. rewrite exec_run. pose proof (fw_other args h Hn) as E. set (h1 := (Run args h).2) in *. clearbody h1.
  apply (firewall_same _ _ E) in Hi. destruct (is_ok _); [done|]. cbn [snd]. rewrite may_run. pose proof (hl_remove n h1) as Hr.
  destruct (Run _ h1) as [o h2]. cbn [snd]. destruct Hr as [Ef Eb]. destruct (is_ok o); [by apply (firewall_fewer h1 _ {[n]})|].
  by apply (firewall_same h1); [unfold fw; rewrite Ef, Eb|].
Qed.

Lemma and_then_firewall {A B} (m : outcome (H := H) A) (k : A → H → outcome B) : firewall_ok m.2 → (∀ x h, firewall_ok h → firewall_ok (k x h).2) → firewall_ok (and_then m k).2.
Proof. intros Hm Hk. unfold and_then. destruct m as [[[x|e]|] h]; [by apply Hk|done|done]. Qed.

Lemma isolated_rules pid h : firewall_ok h →
  let h' := ensure_rule (accept_out (viso pid)) (ensure_rule (accept_in (viso pid)) h) in
  firewall_ok h' ∧ accept_in (viso pid) ∈ forward h' ∧ accept_out (viso pid) ∈ forward h'.
Proof.
  intros Hi. cbv zeta. destruct (ensure_rule_fw (accept_in (viso pid)) h) as (Eb & Hin & Ef). set (h1 := ensure_rule (accept_in _) h) in *. clearbody h1.
  destruct (ensure_rule_fw (accept_out (viso pid)) h1) as (Eb2 & Hin2 & Ef2). set (h2 := ensure_rule _ h1) in *. clearbody h2.
  assert (Hi1 : firewall_ok h1).
  { apply (firewall_accept h h1 (accept_in (viso pid))); [done|done| |done|done]. intros a b _ _ [Ja _] _. rewrite matches_in. apply String.eqb_neq. intros <-. by apply (viso_not_joblet pid). }
  split_and!; [|by destruct Ef2 as [->| ->]; [|right]|done].
  apply (firewall_accept h1 h2 (accept_out (viso pid))); [done|done| |done|done]. intros a b _ _ _ [Jb _]. rewrite matches_out. apply String.eqb_neq. intros <-. by apply (viso_not_joblet pid).
Qed.

Lemma isolated_firewall pid h : firewall_ok h → firewall_ok (setupIsolatedNetwork pid h).2 ∧
  ((setupIsolatedNetwork pid h).1 = Some (Ok tt) → accept_in (viso pid) ∈ forward (setupIsolatedNetwork pid h).2 ∧ accept_out (viso pid) ∈ forward (setupIsolatedNetwork pid h).2).
Proof.
  intros Hi. unfold setupIsolatedNetwork. fold (viso pid). set (tail := λ (_ : unit) (h : H), let '(x, h) := execCommand (masquerade "-C" "10.255.255.2/32") h in _).
  assert (Ht : ∀ h, firewall_ok h → firewall_ok (tail tt h).2 ∧ accept_in (viso pid) ∈ forward (tail tt h).2 ∧ accept_out (viso pid) ∈ forward (tail tt h).2).
  { clear h Hi. intros h Hi. unfold tail. rewrite exec_run. pose proof (fw_other (masquerade "-C" "10.255.255.2/32") h eq_refl) as E. set (h1 := (Run _ h).2) in *. clearbody h1.
    apply (firewall_same _ _ E) in Hi. set (h2 := if is_ok _ then h1 else _). assert (Hi2 : firewall_ok h2).
    { unfold h2. destruct (is_ok _); [done|]. apply (firewall_same h1); [by apply fw_may|done]. }
    clearbody h2. destruct (isolated_rules pid h2 Hi2) as (Hi3 & H1 & H2). set (h3 := ensure_rule (accept_out _) _) in *. clearbody h3.
    match goal with |- context [in_namespace ?a ?b h3] => pose proof (in_namespace_fw a b h3) as E4; set (r := in_namespace a b h3) in * end. clearbody r. injection E4 as Ef Eb. rewrite Ef.
    split_and!; [|done|done]. apply (firewall_same h3); [unfold fw; by rewrite Ef, Eb|done]. }
  clearbody tail.
  assert (H0 : firewall_ok (forward_on h)) by (apply (firewall_same h); [apply fw_forward_on|done]).
  match goal with |- firewall_ok (and_then ?m ?k).2 ∧ _ => set (m1 := m); set (k1 := k) end.
  assert (Hm1 : firewall_ok m1.2) by (unfold m1; apply (firewall_same (forward_on h)); [by apply fw_must|done]). clearbody m1.
  assert (Hk : ∀ h, firewall_ok h → firewall_ok (k1 tt h).2 ∧ ((k1 tt h).1 = Some (Ok tt) → accept_in (viso pid) ∈ forward (k1 tt h).2 ∧ accept_out (viso pid) ∈ forward (k1 tt h).2)).
  { clear h Hi H0 Hm1. intros h Hi. unfold k1. do 3 (match goal with |- firewall_ok (and_then (must_or ?a ?w ?c h) ?k).2 ∧ _ =>
      pose proof (must_or_firewall a w (viso pid) h eq_refl Hi) as Hi'; destruct (must_or a w c h) as [[[[]|?e]|] ?h]; cbn [and_then fst snd] in *; [|done|done] end;
      clear Hi; clear h; rename Hi' into Hi; match goal with x : H |- _ => rename x into h end). destruct (Ht h Hi) as (? & ? & ?). split; [done|by intros _]. }
  destruct m1 as [[[[]|e]|] h1]; cbn [and_then fst snd] in *; [by apply Hk|done|done].
Qed.

Lemma must_firewall args what h : neutral args = true → firewall_ok h → firewall_ok (must args what h).2.
Proof. intros Hn. apply firewall_same. by apply fw_must. Qed.
Lemma in_namespace_firewall netns cmds h : firewall_ok h → firewall_ok (in_namespace netns cmds h).2.
Proof. apply firewall_same, in_namespace_fw. Qed.

Lemma bridge_network_firewall alloc pid h : firewall_ok h → settled_bridge (ensureBridge (al_Network alloc) h).1 →
  firewall_ok (setupBridgeNetwork NetworkConfig alloc pid h).2.
Proof.
  intros Hi Hs. apply and_then_firewall; [by apply ensureBridge_firewall|]. clear h Hi Hs.
  intros _ h Hi. apply and_then_firewall; [by apply must_firewall|]. clear h Hi. intros _ h Hi. apply and_then_firewall; [by apply must_firewall|]. clear h Hi.
  intros _ h Hi. apply and_then_firewall; [by apply must_firewall|]. clear h Hi. intros _ h Hi. apply and_then_firewall; [by apply must_firewall|]. clear h Hi.
  intros _ h Hi. destruct (ParseCIDR _) as [n|]; [|done]. apply and_then_firewall; [by apply in_namespace_firewall|]. clear h Hi.
  intros _ h Hi. cbn [done_ snd]. destruct (String.eqb _ ""); [done|]. apply (firewall_same h); [|done]. unfold setupHostsFile.
  match goal with |- context [WriteFile ?p ?c h] => pose proof (hl_write p c h) as Hw; destruct (WriteFile p c h) as [[u|e] h1] end; cbn [snd] in Hw;
    destruct Hw as [Ef Eb]; [rewrite fw_may by done|]; unfold fw; by rewrite Ef, Eb.
Qed.

(** ** Runs *)

Inductive nop := NSetup (alloc : JobAllocation) (pid : Z) | NCleanup (alloc : JobAllocation) | NRemove (name : string).
Definition nstep (h : H) (op : nop) : H :=
  match op with
  | NSetup alloc pid => (SetupJobNetwork alloc pid h).2
  | NCleanup alloc => CleanupJobNetwork alloc h
  | NRemove name => (RemoveBridge name h).2
  end.
Definition nrun (ops : list nop) (h : H) : H := foldl nstep h ops.

(** No bridge is left half made or half removed. *)
Definition settled (h : H) (op : nop) : Prop :=
  match op with
  | NSetup alloc _ => al_Network alloc = "none"%string ∨ al_Network alloc = "isolated"%string ∨ settled_bridge (ensureBridge (al_Network alloc) h).1
  | NCleanup _ => True
  | NRemove name => (RemoveBridge name h).1 = Some (Ok tt)
  end.
Fixpoint settled_run (h : H) (ops : list nop) : Prop :=
  match ops with [] => True | op :: ops => settled h op ∧ settled_run (nstep h op) ops end.

Lemma nstep_firewall op h : firewall_ok h → settled h op → firewall_ok (nstep h op).
Proof.
  intros Hi Hs. destruct op as [alloc pid|alloc|name]; cbn [nstep settled] in *.
  - unfold NetSetup.SetupJobNetwork. destruct (negb _); [done|]. destruct (String.eqb_spec (al_Network alloc) "none"); [done|].
    destruct (String.eqb_spec (al_Network alloc) "isolated"); [by apply isolated_firewall|].
    destruct Hs as [?|[?|Hs]]; [done|done|]. by apply bridge_network_firewall.
  - unfold CleanupJobNetwork. set (h1 := if _ && _ then _ else h). assert (Hi1 : firewall_ok h1).
    { unfold h1. destruct (_ && _); [|done]. set (h2 := may _ h). assert (Hi2 : firewall_ok h2) by (apply (firewall_same h); [by apply fw_may|done]).
      apply (firewall_same h2); [|done]. unfold fw. by destruct (hl_unlink (hosts_path (al_JobUUID alloc)) h2) as [-> ->]. }
    clearbody h1. destruct (String.eqb (al_Network alloc) "none"); [done|].
    destruct (String.eqb (al_Network alloc) "isolated"); [apply (firewall_same h1); [by apply fw_may|done]|].
    destruct (String.eqb (al_VethHost alloc) ""); [done|]. rewrite may_run. pose proof (hl_remove (al_VethHost alloc) h1) as Hr.
    destruct (Run _ h1) as [o h2]. cbn [snd]. destruct Hr as [Ef Eb]. destruct (is_ok o); [by apply (firewall_fewer h1 _ {[al_VethHost alloc]})|].
    by apply (firewall_same h1); [unfold fw; rewrite Ef, Eb|].
  - by apply RemoveBridge_firewall.
Qed.
Lemma nrun_firewall ops h : firewall_ok h → settled_run h ops → firewall_ok (nrun ops h).
Proof. revert h. induction ops as [|op ops IH]; intros h Hi Hs; [done|]. destruct Hs as [H1 H2]. apply IH; [by apply nstep_firewall|done]. Qed.

(** A host before the first job: none of the program's bridges, and no DROP rules. *)
Definition untouched (h : H) : Prop := (∀ b, b ∈ bridges h → ¬ joblet b) ∧ ∀ r, r ∈ forward h → r_target r ≠ DROP.
Lemma untouched_firewall h : untouched h → firewall_ok h.
Proof. intros [H1 H2]. split; [intros a b Ha _ [Ja _]; by apply H1 in Ha|intros a Ha Ja; by apply H1 in Ha|intros r Hr Ht; by apply H2 in Hr]. Qed.

(** C20 Networks are kept apart.  On a host where inserting rules and listing bridges work,
    after any set-ups, clean-ups and removals that leave no bridge half made or half
    removed, a packet forwarded between the bridges of two networks, neither of them the
    default one, is dropped in both directions, whatever order the networks came in;
    traffic between any network and an interface that is not the program's is accepted. *)
Theorem networks_apart ops h0 : untouched h0 → settled_run h0 ops → let h := nrun ops h0 in
  (∀ n1 n2, bridgeNameForNetwork n1 ∈ bridges h → bridgeNameForNetwork n2 ∈ bridges h → n1 ≠ "bridge"%string → n2 ≠ "bridge"%string →
     bridgeNameForNetwork n1 ≠ bridgeNameForNetwork n2 → verdict (forward h) (bridgeNameForNetwork n1) (bridgeNameForNetwork n2) = Some DROP) ∧
  (∀ n o, bridgeNameForNetwork n ∈ bridges h → ¬ joblet o →
     verdict (forward h) (bridgeNameForNetwork n) o = Some ACCEPT ∧ verdict (forward h) o (bridgeNameForNetwork n) = Some ACCEPT).
Proof.
  intros H0 Hs h. pose proof (nrun_firewall ops h0 (untouched_firewall h0 H0) Hs) as [H1 H2 H3]. fold h in H1, H2, H3. split.
  - intros n1 n2 B1 B2 N1 N2 Hne.
    assert (Hk : ∀ n, n ≠ "bridge"%string → kept_apart (bridgeNameForNetwork n)).
    { intros n Hn. split; [apply bridge_joblet|]. unfold bridgeNameForNetwork. rewrite (proj2 (String.eqb_neq n "bridge")) by done.
      destruct (_ <=? _)%nat; intros E%(f_equal bytes); rewrite bytes_app in E; discriminate E. }
    apply H1; [done|done|by apply Hk|by apply Hk|done].
  - intros n o Hn Ho. destruct (H2 _ Hn (bridge_joblet n)) as [Hin Hout].
    assert (Hd : ∀ r, r ∈ forward h → r_target r = DROP → matches r (bridgeNameForNetwork n) o = false ∧ matches r o (bridgeNameForNetwork n) = false).
    { intros r Hr Ht. destruct (H3 r Hr Ht) as (a & b & -> & Ja & Jb). rewrite !matches_drop. rewrite (proj2 (String.eqb_neq b o)), (proj2 (String.eqb_neq a o)) by (by intros <-).
      by rewrite andb_false_r. }
    split; [apply (verdict_accept _ _ _ (accept_in (bridgeNameForNetwork n)))|apply (verdict_accept _ _ _ (accept_out (bridgeNameForNetwork n)))]; try done;
      rewrite ?matches_in, ?matches_out, ?String.eqb_refl; try done; intros r Hr Ht; by destruct (Hd r Hr Ht).
Qed.

(** An isolated job is not isolated from the networks. Right after its interface is set up,
    in every state the set-ups and removals of networks lead to, packets from it to any
    network of the program, and to any other interface, are accepted, and so are packets to
    it: no rule separates it. *)
Theorem isolated_job_reaches_networks ops h0 pid : untouched h0 → settled_run h0 ops →
  (setupIsolatedNetwork pid (nrun ops h0)).1 = Some (Ok tt) → let h := (setupIsolatedNetwork pid (nrun ops h0)).2 in
  ∀ o, verdict (forward h) (viso pid) o = Some ACCEPT ∧ verdict (forward h) o (viso pid) = Some ACCEPT.
Proof.
  intros H0 Hs Hok h o. pose proof (nrun_firewall ops h0 (untouched_firewall h0 H0) Hs) as Hi. destruct (isolated_firewall pid _ Hi) as [[H1 H2 H3] H4]. fold h in H1, H2, H3, H4.
  destruct (H4 Hok) as [Hin Hout].
  assert (Hd : ∀ r, r ∈ forward h → r_target r = DROP → matches r (viso pid) o = false ∧ matches r o (viso pid) = false).
  { intros r Hr Ht. destruct (H3 r Hr Ht) as (a & b & -> & Ja & Jb). rewrite !matches_drop. rewrite (proj2 (String.eqb_neq a (viso pid))), (proj2 (String.eqb_neq b (viso pid))), andb_false_r by (intros ->; by apply (viso_not_joblet pid)).
    done. }
  split; [apply (verdict_accept _ _ _ (accept_in (viso pid)))|apply (verdict_accept _ _ _ (accept_out (viso pid)))]; try done;
    rewrite ?matches_in, ?matches_out, ?String.eqb_refl; try done; intros r Hr Ht; by destruct (Hd r Hr Ht).
Qed.
End laws.

(** ** Names and addresses *)

(** The name of a bridge fits the kernel's limit, whatever the name of the network. *)
Lemma bridge_name_length n : (String.length (bridgeNameForNetwork n) ≤ 15)%nat.
Proof.
  unfold bridgeNameForNetwork. destruct (String.eqb n "bridge"); [vm_compute; lia|]. destruct (Nat.leb_spec (String.length ("joblet-" +:+ n)) 15); [done|].
  rewrite <- length_bytes, bytes_app, bytes_of_bytes, length_app. unfold hex8. rewrite length_fmap. vm_compute. lia.
Qed.

(** Two networks can have one bridge: a short name may be the hash of a long one. *)
Definition hash_name (n : string) : string := of_bytes (hex8 (fnv32a (bytes n))).
Lemma shared_bridge n : (8 < String.length n)%nat → hash_name n ≠ "bridge"%string → bridgeNameForNetwork (hash_name n) = bridgeNameForNetwork n.
Proof.
  intros Hl Hb. unfold bridgeNameForNetwork. rewrite (proj2 (String.eqb_neq (hash_name n) "bridge")) by done.
  assert (Hn : n ≠ "bridge"%string) by (intros ->; vm_compute in Hl; lia). rewrite (proj2 (String.eqb_neq n "bridge")) by done.
  assert (E1 : (String.length ("joblet-" +:+ hash_name n) <=? 15)%nat = true).
  { apply Nat.leb_le. rewrite <- length_bytes, bytes_app, length_app. unfold hash_name, hex8. rewrite bytes_of_bytes, length_fmap. vm_compute. lia. }
  assert (E2 : (String.length ("joblet-" +:+ n) <=? 15)%nat = false).
  { apply Nat.leb_gt. rewrite <- length_bytes, bytes_app, length_app, !length_bytes. change (String.length "joblet-") with 7%nat. lia. }
  by rewrite E1, E2.
Qed.
Example shared_bridge_name : hash_name "production" = "0094fd1a"%string.
Proof. vm_compute. reflexivity. Qed.

(** The address of the bridge of a network is the first address that its pool hands out,
    when the network starts at an octet that is zero. *)
Section gateway.
Context {H : Type} {HO : Host H} {V6 : IPv6Text}.

(** The first job of a network gets the address of the bridge.  The pool of a network
    whose address ends in a zero octet starts with the very address [getGatewayIP] makes
    the bridge's, since the pool leaves out the network and the broadcast address only. *)
Theorem first_address_is_gateway (NetworkConfig : string → option string) a n net fuel x y z :
  length a = 4%nat → bytes_ok a → (1 ≤ n ≤ 30)%nat → (Z.to_nat (net_size n) ≤ fuel)%nat →
  net_IP (network_of a n) = [x; y; z; 0] → NetworkConfig net = Some (cidr_text a n) →
  ∃ p, initializeIPPool fuel (cidr_text a n) = Some (Ok p) ∧ head (available p) = Some (getGatewayIP NetworkConfig net).
Proof.
  intros La Ha Hn Hf Hnet Hc. unfold initializeIPPool, getGatewayIP, getNetworkCIDR. rewrite Hc. unfold cidr_text. rewrite ParseCIDR_dotted by (done || lia).
  cbn [mbind option_bind]. rewrite pool_loop_network by (done || lia). eexists. split; [done|]. cbn [available].
  assert (Hs : 4 ≤ net_size n).
  { unfold net_size, host_bits. change 4 with (2 ^ 2). apply Z.pow_le_mono_r; lia. }
  unfold hosts. rewrite seqZ_cons by lia. cbn [fmap list_fmap head]. rewrite Hnet. change (To4 [x; y; z; 0]) with (Some [x; y; z; 0]). cbn [take app]. do 2 f_equal.
  assert (Hok : bytes_ok (net_IP (network_of a n))) by (apply and_bytes_ok; [done|apply CIDRMask_ok]).
  assert (Hval : val (net_IP (network_of a n)) = net_base a n) by (apply net_IP_val; done || lia).
  rewrite Hnet in Hok, Hval. apply Forall_cons in Hok as [Bx Hok]. apply Forall_cons in Hok as [By Hok]. apply Forall_cons in Hok as [Bz _].
  cbn [val length] in Hval. apply val_inj; [by rewrite of_val_length|apply of_val_ok|repeat (apply Forall_cons; split; [lia|]); apply Forall_nil; exact I|].
  rewrite val_of_val; [rewrite <- Hval; cbn [val length]; lia|]. rewrite <- Hval. cbn [length]. lia.
Qed.
End gateway.

(** ** A host, and concrete inputs *)

(** A host with a chain and bridges; [f_stuck] are interfaces that get no address and
    cannot be deleted. *)
Record fhost := { f_chain : list rule; f_bridges : gset string; f_stuck : list string }.
Definition set_chain (c : list rule) (h : fhost) : fhost := {| f_chain := c; f_bridges := f_bridges h; f_stuck := f_stuck h |}.
Definition set_bridges (b : gset string) (h : fhost) : fhost := {| f_chain := f_chain h; f_bridges := b; f_stuck := f_stuck h |}.
Definition dec_rule (l : list string) : option rule :=
  let '(i, l) := match l with ("-i" :: i :: l)%string => (Some i, l) | _ => (None, l) end in
  let '(o, l) := match l with ("-o" :: o :: l)%string => (Some o, l) | _ => (None, l) end in
  match l with
  | ["-j"; "ACCEPT"]%string => Some {| r_in := i; r_out := o; r_target := ACCEPT |}
  | ["-j"; "DROP"]%string => Some {| r_in := i; r_out := o; r_target := DROP |}
  | _ => None
  end.
Lemma dec_rule_args r : dec_rule (rule_args r) = Some r.
Proof. by destruct r as [[i|] [o|] []]. Qed.

#[export] Instance word_dec w : Decision (word w).
Proof. unfold word. apply _. Defined.
Definition well_named (b : gset string) : gset string := filter (λ n, word (bytes n)) b.
Definition entry_of (n : string) : entry := {| e_index := bytes "3"; e_name := n; e_rest := [bytes "<UP>"]; e_link := [bytes "link/ether"] |}.

Definition refused (h : fhost) : result string string * fhost := (Err "exit status 1"%string, h).
(** The arguments after a prefix. *)
Definition after (p args : list string) : option (list string) := if bool_decide (take (length p) args = p) then Some (drop (length p) args) else None.
Definition on_rule (l : list string) (h : fhost) (k : rule → result string string * fhost) : result string string * fhost :=
  match dec_rule l with Some r => k r | None => refused h end.
Definition fhost_run (args : list string) (h : fhost) : result string string * fhost :=
  match after ["iptables"; "-I"; "FORWARD"; "1"] args with
  | Some l => on_rule l h (λ r, (Ok ""%string, set_chain (r :: f_chain h) h))
  | None =>
  match after ["iptables"; "-C"; "FORWARD"] args with
  | Some l => on_rule l h (λ r, if decide (r ∈ f_chain h) then (Ok ""%string, h) else refused h)
  | None =>
  match after ["iptables"; "-D"; "FORWARD"] args with
  | Some l => on_rule l h (λ r, if decide (r ∈ f_chain h) then (Ok ""%string, set_chain (remove_first r (f_chain h)) h) else refused h)
  | None =>
  match after list_bridges args with
  | Some _ => (Ok (listing (entry_of <$> elements (well_named (f_bridges h)))), h)
  | None =>
  match after ["ip"; "link"; "show"] args with
  | Some l => if decide (default ""%string (head l) ∈ well_named (f_bridges h)) then (Ok ""%string, h) else refused h
  | None =>
  match after ["ip"; "addr"; "add"] args with
  | Some l => if decide (List.last l ""%string ∈ f_stuck h) then refused h else (Ok ""%string, h)
  | None =>
  match after ["ip"; "link"; "delete"] args with
  | Some l => let n := default ""%string (head l) in
              if decide (n ∈ f_bridges h ∧ n ∉ f_stuck h) then (Ok ""%string, set_bridges (f_bridges h ∖ {[n]}) h) else refused h
  | None =>
  match after ["ip"; "link"; "add"] args with
  | Some [n; ty; kind] =>
      if bool_decide ([ty; kind] = ["type"; "bridge"]%string) then
        if decide (word (bytes n) ∧ n ∉ f_bridges h) then (Ok ""%string, set_bridges ({[n]} ∪ f_bridges h) h) else refused h
      else (Ok ""%string, h)
  | _ => (Ok ""%string, h)
  end end end end end end end end.
#[export] Instance fhost_host : Host fhost := {|
  Run := fhost_run; WriteFile _ _ h := (Ok tt, h); ReadFile _ _ := None; Stat _ _ := true; Remove _ h := (Ok tt, h); Getenv _ := ""%string |}.

Lemma after_some p args l : after p args = Some l → args = p ++ l.
Proof. unfold after. case_bool_decide as E; [|done]. intros [= <-]. rewrite <- E at 1. by rewrite take_drop. Qed.
Lemma after_app p l : after p (p ++ l) = Some l.
Proof. unfold after. by rewrite take_app_length, drop_app_length, bool_decide_eq_true_2. Qed.

Lemma fhost_neutral args h : neutral args = true → (fhost_run args h).2 = h.
Proof.
  intros Hn. unfold fhost_run.
  destruct (after ["iptables"; "-I"; "FORWARD"; "1"] args) as [l|] eqn:E; [apply after_some in E as ->; discriminate Hn|]. clear E.
  destruct (after ["iptables"; "-C"; "FORWARD"] args) as [l|] eqn:E; [apply after_some in E as ->; discriminate Hn|]. clear E.
  destruct (after ["iptables"; "-D"; "FORWARD"] args) as [l|] eqn:E; [apply after_some in E as ->; discriminate Hn|]. clear E.
  destruct (after list_bridges args); [done|]. destruct (after ["ip"; "link"; "show"] args); [by destruct (decide _)|].
  destruct (after ["ip"; "addr"; "add"] args); [by destruct (decide _)|].
  destruct (after ["ip"; "link"; "delete"] args) as [l|] eqn:E; [apply after_some in E as ->; discriminate Hn|]. clear E.
  destruct (after ["ip"; "link"; "add"] args) as [[|n [|ty [|kind [|]]]]|] eqn:E; try done. apply after_some in E as ->.
  case_bool_decide as Hb; [injection Hb as -> ->; discriminate Hn|done].
Qed.

Lemma entry_of_ok n : word (bytes n) → entry_ok (entry_of n).
Proof. intros Hn. split; [by split|done|..]; repeat constructor; try done; refine (bool_decide_unpack _ _); vm_compute; exact I. Qed.

Lemma well_named_add n b : word (bytes n) → well_named ({[n]} ∪ b) = {[n]} ∪ well_named b.
Proof. intros Hn. unfold well_named. apply leibniz_equiv. intros x. rewrite elem_of_filter, !elem_of_union, elem_of_filter, elem_of_singleton. naive_solver. Qed.
Lemma well_named_del n b : well_named (b ∖ {[n]}) = well_named b ∖ {[n]}.
Proof. unfold well_named. apply leibniz_equiv. intros x. rewrite elem_of_filter, !elem_of_difference, elem_of_filter. tauto. Qed.

#[export] Instance fhost_laws : HostLaws fhost.
Proof.
  refine {| forward := f_chain; bridges h := well_named (f_bridges h) |}.
  - intros args h Hn. change (Run args h) with (fhost_run args h). by rewrite fhost_neutral.
  - intros r h. change (Run (insert_rule r) h) with (on_rule (rule_args r) h (λ r, (Ok ""%string, set_chain (r :: f_chain h) h))). unfold on_rule. by rewrite dec_rule_args.
  - intros r h. change (Run (check_rule r) h) with (on_rule (rule_args r) h (λ r, if decide (r ∈ f_chain h) then (Ok ""%string, h) else refused h)).
    unfold on_rule. rewrite dec_rule_args. by destruct (decide _).
  - intros r h. change (Run (delete_rule r) h) with (on_rule (rule_args r) h (λ r, if decide (r ∈ f_chain h) then (Ok ""%string, set_chain (remove_first r (f_chain h)) h) else refused h)).
    unfold on_rule. rewrite dec_rule_args. by destruct (decide _).
  - intros n h. change (Run ["ip"; "link"; "add"; n; "type"; "bridge"]%string h) with
      (if decide (word (bytes n) ∧ n ∉ f_bridges h) then (@Ok string string ""%string, set_bridges ({[n]} ∪ f_bridges h) h) else refused h).
    destruct (decide _) as [[H1 H2]|]; [|done]. split; [done|]. by apply well_named_add.
  - intros n h. change (Run ["ip"; "link"; "delete"; n]%string h) with
      (if decide (n ∈ f_bridges h ∧ n ∉ f_stuck h) then (@Ok string string ""%string, set_bridges (f_bridges h ∖ {[n]}) h) else refused h).
    destruct (decide _); [|done]. split; [done|]. apply well_named_del.
  - intros h out [= <-]. eexists. split; [done|]. split.
    + apply Forall_fmap, Forall_forall. intros n Hn. apply entry_of_ok. apply elem_of_elements, elem_of_filter in Hn. tauto.
    + rewrite <- list_fmap_compose. unfold compose. cbn [entry_of e_name]. by rewrite list_fmap_id.
  - done.
  - done.
Defined.

Definition one_cidr (name : string) : option string := Some "10.1.0.0/24"%string.
Definition on_network (net : string) : JobAllocation :=
  {| al_JobUUID := "job-aaaa"; al_Network := net; al_IP := [10; 1; 0; 2]; al_Hostname := "job_job-aaaa"; al_VethHost := "veth-h-job-aaaa"; al_VethPeer := "veth-p-job-aaaa" |}.
Definition clean_host : fhost := {| f_chain := []; f_bridges := {["docker0"%string]}; f_stuck := [] |}.
Definition some_ops : list nop :=
  [NSetup (on_network "lan") 7; NSetup (on_network "isolated") 8; NSetup (on_network "bridge") 9; NSetup (on_network "tmp") 10; NSetup (on_network "web") 11;
   NCleanup (on_network "lan"); NRemove "tmp"].
Local Abbreviation hrun := (nrun (H := fhost) one_cidr some_ops clean_host).

Lemma clean_untouched : untouched clean_host.
Proof.
  split; [|intros r Hr; by apply elem_of_nil in Hr]. intros b Hb. change (b ∈ well_named {["docker0"%string]}) in Hb. unfold well_named in Hb.
  apply elem_of_filter in Hb as [_ ->%elem_of_singleton]. unfold joblet. vm_compute. discriminate.
Qed.
Lemma some_ops_settled : settled_run one_cidr clean_host some_ops.
Proof.
  cbn [settled_run some_ops]. split_and!; cbn [settled].
  all: try exact I; try (right; left; reflexivity); try (right; right; left; vm_compute; reflexivity). vm_compute. reflexivity.
Qed.
Lemma fhost_inserts r (h : fhost) : is_ok (Run (insert_rule r) h).1 = true.
Proof.
  change (Run (insert_rule r) h) with (on_rule (rule_args r) h (λ r, (Ok ""%string, set_chain (r :: f_chain h) h))). unfold on_rule. by rewrite dec_rule_args.
Qed.
Lemma fhost_lists (h : fhost) : is_ok (Run list_bridges h).1 = true.
Proof. done. Qed.

Lemma networks_apart_witness :
  verdict (forward hrun) "joblet-lan" "joblet-web" = Some DROP ∧ verdict (forward hrun) "joblet-web" "joblet-lan" = Some DROP ∧
  verdict (forward hrun) "joblet-web" "eth0" = Some ACCEPT.
Proof.
  pose proof (networks_apart one_cidr fhost_inserts fhost_lists some_ops clean_host clean_untouched some_ops_settled) as [H1 H2].
  split_and!.
  - refine (H1 "lan" "web" _ _ _ _ _)%string; [| |done..]; refine (bool_decide_unpack _ _); vm_compute; exact I.
  - refine (H1 "web" "lan" _ _ _ _ _)%string; [| |done..]; refine (bool_decide_unpack _ _); vm_compute; exact I.
  - refine (proj1 (H2 "web" "eth0" _ _))%string; [refine (bool_decide_unpack _ _); vm_compute; exact I|]. unfold joblet. vm_compute. discriminate.
Defined.

Lemma isolated_job_reaches_networks_witness :
  verdict (forward (setupIsolatedNetwork 12 hrun).2) "viso12" "joblet-lan" = Some ACCEPT.
Proof.
  refine (proj1 (isolated_job_reaches_networks one_cidr fhost_inserts fhost_lists some_ops clean_host 12 clean_untouched some_ops_settled _ "joblet-lan")).
  vm_compute. reflexivity.
Defined.

Lemma first_address_is_gateway_witness :
  ∃ p, initializeIPPool 256 "10.1.0.0/24" = Some (Ok p) ∧ head (available p) = Some "10.1.0.1"%string.
Proof.
  refine (first_address_is_gateway (H := fhost) one_cidr [10; 1; 0; 0] 24 "lan" 256 10 1 0 _ _ _ _ _ _); try reflexivity; try lia.
  - by apply (bool_decide_unpack _).
Defined.

(** A bridge that could not be configured counts as made the next time: the job is set up
    on it, without an address and without isolation. *)
Example half_made_bridge :
  let h := (ensureBridge one_cidr "web" (ensureBridge one_cidr "lan" {| f_chain := []; f_bridges := ∅; f_stuck := ["joblet-web"%string] |}).2) in
  h.1 = Some (Err "failed to configure bridge IP"%string) ∧ (ensureBridge one_cidr "web" h.2).1 = Some (Ok tt) ∧
  verdict (f_chain h.2) "joblet-lan" "joblet-web" = Some ACCEPT.
Proof. by vm_compute. Qed.

(** A removal that fails has taken the isolation away before; the bridge stays. *)
Example half_removed_bridge :
  let h := (ensureBridge one_cidr "web" (ensureBridge one_cidr "lan" clean_host).2).2 in
  let h' := (RemoveBridge one_cidr "web" {| f_chain := f_chain h; f_bridges := f_bridges h; f_stuck := ["joblet-web"%string] |}).2 in
  verdict (f_chain h) "joblet-lan" "joblet-web" = Some DROP ∧ verdict (f_chain h') "joblet-lan" "joblet-web" = Some ACCEPT ∧
  bool_decide ("joblet-web"%string ∈ f_bridges h') = true.
Proof. by vm_compute. Qed.

(** Whether the default network is kept apart depends on what came first. *)
Example default_network_order :
  let first := (ensureBridge one_cidr "lan" (ensureBridge one_cidr "bridge" clean_host).2).2 in
  let last := (ensureBridge one_cidr "bridge" (ensureBridge one_cidr "lan" clean_host).2).2 in
  verdict (f_chain first) "joblet0" "joblet-lan" = Some DROP ∧ verdict (f_chain last) "joblet0" "joblet-lan" = Some ACCEPT.
Proof. by vm_compute. Qed.

(** The gateway of a network that starts inside a block of 256 is outside it. *)
Example gateway_outside : getGatewayIP (H := fhost) (λ _, Some "10.1.0.128/25"%string) "lan" = "10.1.0.1"%string ∧
  IPNet.Contains (network_of [10; 1; 0; 128] 25) [10; 1; 0; 1] = false.
Proof. split; vm_compute; reflexivity. Qed.
